(* ===== verification/_CoqProject ===== *)
-Q . S2P
Prelude.v
Utils.v
Status.v
Smc.v
Bitmap.v
Granule.v
GranuleLock.v
Mem.v
SmallNames.v
Arch.v
Vmid.v
Rwlock.v
Sarray.v
Mec.v
Sort.v
AddrList.v
Sro.v
TrBanks.v
TrLookup.v
TrGranule.v
S2tte.v
S2tteFacts.v
S2tlbi.v
S2tteProps.v
S2ttTable.v
S2ttWalk.v
RttFold.v
RttFoldProps.v
RttEntry.v
Realm.v
RttTree.v
Rmm.v
SroPool.v
Psci.v
PsciProps.v
PsciInv.v
PsciRun.v
PsciCall.v
PsciSafe.v
PsciDemo.v
RttCmds.v
RttUnmap.v
RttInv.v
UnmapPass.v
UnmapDrain.v
UnmapStep.v
UnmapStamp.v
UnmapValid.v
UnmapSweep.v
UnmapLeaf.v
RttPath.v
RttRefuse.v
RttCreate.v
RttUnlink.v
RttData.v
RttRange.v
RttRipas.v
RttSetRipas.v
SetRipasEntry.v
SetRipasLoop.v
SetRipasCmd.v
SetRipasCorrect.v
RsiIpaState.v
RttIsolation.v
UnmapInv.v
UnmapRun.v
UnmapCmd.v
UnmapSmc.v
UnmapCorrect.v
RealmCmds.v
RttMeasure.v
RttSession.v
RttDemo.v
UnmapDemo.v
SetRipasDemo.v
