(* ===== verification/Prelude.v ===== *)
(** * TF-RMM: a verification development

    The RMM is the firmware that manages Arm CCA realms.  A host calls it through
    RMI commands; the RMM owns the state of every 4KB granule of memory and the
    stage 2 translation tables (RTTs) of every realm, and must keep realms
    isolated whatever the host asks.  This library models that core, from the
    bits of a descriptor up to whole RTT commands, interruptible operations and
    the PSCI services of a realm, and proves it correct.

    ** How the program is put together

    - Every granule has a descriptor word (lock bit, state, reference count).
      Descriptors live in arrays indexed through tracking regions, which are laid
      out over the memory banks at boot ([lib/granule]).
    - A realm is an RD granule with stage 2 contexts ([runtime/include/realm.h]);
      each context has a tree of RTT granules, whose entries are stage 2
      descriptors ([lib/s2tt]).
    - RMI handlers ([runtime/rmi]) find and lock the RD, walk the tree hand over
      hand, change entries under break-before-make with TLB and SMMU invalidation,
      move granules between states, and release the locks.
    - Long commands yield when an interrupt is pending: their state is sealed in a
      pool of contexts ([lib/sro_context]) and the host resumes them with
      RMI_OP_CONTINUE ([runtime/rmi/sro.c]).
    - The virtual CPUs of a realm (RECs) call PSCI to power each other on and off;
      requests that need the host are completed by RMI_PSCI_COMPLETE.  A realm asks
      for changes of its memory state (RIPAS) with RSI_IPA_STATE_SET; the host
      applies them with RMI_RTT_SET_RIPAS and the next entry of the REC answers.

    ** Modelling conventions

    A w-bit C integer is a [Z], wrapped explicitly where the code can leave its
    range.  A function with assertions returns [option]: [None] is a failed
    assertion, an access out of bounds, or a PE waiting for a lock it holds.
    Stateful code is state passing ([Mem.ST]) over granule memory ([Mem.mem]) or
    over the state of the commands ([Rmm.rmm]), which adds realm descriptors,
    VTTBR_EL2 and a log of the writes and invalidations hardware observes.
    [Rmm.runs] is total correctness: the code returns, and the result satisfies
    the postcondition.  Hardware features ([Arch.ArchFeatures]), the granule
    lookups ([Mem.GranuleNames], [Mem.GranuleLookup], [Mem.PairLookup],
    [RttUnmap.ActiveLookup] with [UnmapDrain.ActiveLaws]), the SMMU driver
    ([Rmm.SmmuDriver]), non-secure memory ([RttData.NsMemory],
    [RttUnmap.UnmapHost]), interrupts and the completion of SMMU commands
    ([RttUnmap.UnmapEnv]: the answer of each sample is an input) and the firmware
    reports on memory encryption ([Mec.MecConfig]) are classes;
    [TrGranule.td_granule_lookup] and [TrGranule.td_pair_lookup] show that the
    tracking code implements the lookups of one and of two granules.  The theorems
    on RTT commands assume of the SMMU driver that an invalidation reports success;
    failure is a panic in the code.

    ** Files, what they model and what is proved

    - [Prelude], [Utils], [Status], [Smc], [Bitmap]: machine words, loops, bit
      fields ([utils_def.h]), RMI result codes ([status.h]: packing round trip),
      function identifiers and results ([smc.h]), bitmap words ([bitmap.h]: what the
      searches return).
    - [Granule]: the 16-bit and 8-bit descriptor words ([granule.h],
      [dev_granule.h]) refine an abstract (locked, state, count) granule.
      [GranuleLock]: the lock loop run by any number of PEs as a step relation;
      mutual exclusion, and waiting only while another PE owns the lock.
    - [Mem], [Arch], [Vmid]: memory, features, the VMID pool ([vmid.c]).
    - [Rwlock]: reader-writer locks ([rwlock.h]) run by any number of PEs, one step
      per atomic access; exclusion, no failed assertion, no deadlock.
    - [Sarray]: sorted arrays ([sarray.c]) refine finite maps.
    - [Mec]: memory encryption contexts ([mec.c]); private MECIDs are exclusive and
      their keys refreshed between owners.
    - [AddrList]: lists of address ranges exchanged with the host ([addr_list.c]).
    - [Sro]: contexts of stateful operations ([sro_context.c]) and the follow-up
      commands RMI_OP_MEM_DONATE, MEM_RECLAIM, CONTINUE and CANCEL ([sro.c]), over
      callbacks given by the class [Sro.SroHandlers].  [SroPool]: for every
      interleaving of PEs the pool refines a list of slots.
    - [Sort], [TrBanks], [TrLookup], [TrGranule]: tracking regions
      ([tracking_region.c], [tr_granule.c]): bank validation and index layout, the
      bijection of addresses and slots, region composition, locking of one or
      several granules in a global order with rollback.
    - [S2tte], [S2tteFacts], [S2tteProps]: descriptors ([s2tt.c]): every
      constructor, classification, address, RIPAS and drain metadata function;
      [built] relates a descriptor to its constructor and classification is exact.
    - [S2tlbi]: TLB maintenance; the range loop ends and covers the range exactly.
    - [S2ttTable], [S2ttWalk]: initialisation and uniformity of tables, the locked
      walk (equal to a lock-free walk) and the scan for live entries.
    - [RttFold], [RttFoldProps], [RttEntry]: what the RTT commands do to one table
      or entry ([rtt.c], [rtt_map.c]): unfold and fold are inverse and preserve
      translations, RIPAS transitions, confinement of non-secure mappings.
    - [Realm]: realm geometry and the packed state word, with its lock-free
      protocol of REC entry, activation, system-off and termination.
    - [RttTree]: the invariant of a translation tree (every entry built, counts
      exact, one parent per table) and [translate], what the tables say of an IPA.
    - [Rmm], [RttCmds]: the handlers of RTT create, fold, destroy, their AUX
      variants and read entry, complete from the lookup of the RD to the last
      unlock.  [RttData]: RMI_RTT_DATA_MAP_INIT.  [RttRipas]: RMI_RTT_INIT_RIPAS.
      [RealmCmds]: realm activate and terminate.
    - [RttInv], [RttPath], [RttRefuse], [RttCreate], [RttUnlink], [RttRange]: the
      invariant of all trees of all realms; each command returns from every state
      that satisfies it and keeps it; create and fold change no translation,
      destroy only those of the removed table; when commands are refused;
      break-before-make order of the observable events; loops that change the
      entries of a range.
    - [RttSetRipas]: RSI_IPA_STATE_SET ([rsi/memory.c]), RMI_RTT_SET_RIPAS and the
      answer on REC entry ([run.c]).  [SetRipasEntry], [SetRipasLoop],
      [SetRipasCmd]: one entry, the loop over a table with the search for auxiliary
      mappings, the command.  [SetRipasCorrect]: what a command changes, and what a
      realm may rely on when its request is answered.  [RsiIpaState]:
      RSI_IPA_STATE_GET ([realm_ipa_helper.c]) reports the RIPAS the tables say.
      [SetRipasDemo]: a request on a concrete realm.
    - [RttIsolation], [RttMeasure], [RttSession]: sessions of any commands with any
      arguments.  Memory that belongs to a realm is mapped once and keeps its
      contents; the measurement of a realm is sealed by activation; read entry
      reports what the walk finds.  [SmallNames], [RttDemo]: a concrete realm on
      which every command succeeds.
    - [RttUnmap]: RMI_RTT_DATA_UNMAP, UNPROT_UNMAP and DEV_UNMAP and their
      resumption ([rtt_unmap.c]).  [UnmapPass], [UnmapDrain], [UnmapStep]: the
      deferred work (invalidation, return of the memory, clearing of the marks),
      which may stop at any interrupt sample.  [UnmapStamp], [UnmapValid],
      [UnmapSweep], [UnmapLeaf]: the sweep of a leaf table and the whole call on
      it.  [UnmapInv], [UnmapRun], [UnmapCmd], [UnmapSmc]: what this means for the
      invariant of all trees, translations, granule states and the pool.
      [UnmapCorrect]: a call changes exactly the range it reports, memory is handed
      back only after its translations are gone, and with finitely many interrupts
      the operation completes; for the data and the unprotected command.
      [UnmapDemo]: a realm on which a page is unmapped with interruptions.
    - [Psci]: RECs, the PSCI services ([runtime/rsi/psci.c]), RMI_PSCI_COMPLETE, and
      the entry and exit of RMI_REC_ENTER, as programs between points where no lock
      is held; [PsciInv] the steps of any number of PEs and their invariant;
      [PsciProps], [PsciRun], [PsciCall], [PsciSafe]: every step returns and keeps
      it, a REC is powered on only on request of its realm, a REC runs on one PE at
      a time, the outcome of every call.  What a realm does between entry and exit
      is arbitrary.  [PsciDemo]: two RECs, and an interleaving in which
      RMI_PSCI_COMPLETE fails an assertion.

    ** Bounds and fuel

    Loops of the code with a fixed trip count are recursions on that count.  The
    binary search over banks takes as fuel one more than the number of banks, the
    composition scan two more, the TLB range loop the number of granules left; the
    theorems prove that the results do not depend on the fuel running out.
    Unmapping sweeps the 512 entries of a table; a list of ranges has at most 512
    blocks in at most 512 descriptors, so draining takes at most 1024 iterations,
    and the pages of a block are its size in granules, which also bounds the search
    for auxiliary mappings; polls of an SMMU command are
    bounded by the [sync_bound] of the environment.  Addresses are below 2^52, the
    largest output address size.

    The theorems on RIPAS changes assume, of realms with a tree per plane, that the
    memory of each entry is tracked by DATA granules no larger than the entry
    ([SetRipasLoop.ram_backed]).  The commands that map memory establish it; splitting
    a block that one coarse unit represents breaks it, and then an assertion fails
    ([SetRipasEntry.not_aux_coarse_asserts]).
    Commands of a session run one at a time, and an unmapping that yielded is
    resumed without other commands in between; the lock protocol between PEs is
    [GranuleLock], that of the realm state word is [Realm], that of the pool of
    operations [SroPool], and PSCI is modelled under interleaving.

    ** Not modelled

    Mapping of granules into the RMM's own address space ([lib/xlat],
    [lib/slot_buf]) is taken as access to the granule's contents.  Device
    assignment, attestation and the EL0 applications rest on third-party
    cryptography and devices; drivers, world switch and register save are
    hardware access.  Left for later: the permission and auxiliary mapping handlers
    of [rtt.c], the interruptible mapping of data and devices ([rtt_map.c]), granule
    delegation and changes of tracking, creation and destruction of realms and
    RECs. *)

From Stdlib Require Import ZArith Lia Bool Btauto.
From stdpp Require Import base tactics option list numbers.

#[global] Open Scope Z_scope.

(** ** Fallible code

    A C function with [assert]s is a function into [option]: [None] is a failed
    assertion (the RMM stops), [Some v] a normal return.  [assert b ;; k] is the
    C statement [assert(b);] followed by [k]; sequencing is stdpp's bind. *)

Declare Scope rmm_scope.
Delimit Scope rmm_scope with rmm.

Notation "'assert' b ;; k" := (if (b : bool) then k else None)
  (at level 100, b at next level, k at level 200, right associativity,
   format "'assert'  b  ;; '//' k") : rmm_scope.

#[global] Open Scope rmm_scope.

(** ** Machine words

    A w-bit unsigned C integer is a [Z] in [0, 2^w).  Operators that can leave
    the range wrap explicitly. *)

Definition u64 (x : Z) : Z := x mod 2 ^ 64.
Definition u32 (x : Z) : Z := x mod 2 ^ 32.
Definition u16 (x : Z) : Z := x mod 2 ^ 16.
Definition u8 (x : Z) : Z := x mod 2 ^ 8.

Definition UINT64_MAX : Z := 2 ^ 64 - 1.

Definition in_u64 (x : Z) : Prop := 0 <= x < 2 ^ 64.
Definition in_u64b (x : Z) : bool := (0 <=? x) && (x <? 2 ^ 64).

Definition add64 (a b : Z) : Z := u64 (a + b).
Definition sub64 (a b : Z) : Z := u64 (a - b).
Definition mul64 (a b : Z) : Z := u64 (a * b).
Definition shl64 (a n : Z) : Z := u64 (Z.shiftl a n).
(** C's [~] on unsigned long. *)
Definition not64 (a : Z) : Z := Z.lxor a UINT64_MAX.

(** Iterate a counted C loop [for (i = lo; i < lo + n; i++)] carrying a state. *)
Fixpoint for_up {S : Type} (n : nat) (i : Z) (body : Z -> S -> S) (s : S) : S :=
  match n with
  | O => s
  | Datatypes.S n' => for_up n' (i + 1) body (body i s)
  end.

(** The same loop when the body can fail (a failed assertion stops it). *)
Fixpoint for_upM {S : Type} (n : nat) (i : Z) (body : Z -> S -> option S) (s : S) : option S :=
  match n with
  | O => Some s
  | Datatypes.S n' => s' ← body i s; for_upM n' (i + 1) body s'
  end.

(** A loop [for (i = lo; i < lo + n; i++) if (!check(i)) return false; return true]. *)
Fixpoint all_upM (n : nat) (i : Z) (check : Z -> option bool) : option bool :=
  match n with
  | O => Some true
  | Datatypes.S n' => b ← check i; if b : bool then all_upM n' (i + 1) check else Some false
  end.

(** Arrays: an index out of range is undefined behaviour in C, here [None]. *)
Definition arr_get {A} (a : list A) (i : Z) : option A :=
  if 0 <=? i then a !! Z.to_nat i else None.
Definition arr_set {A} (a : list A) (i : Z) (v : A) : option (list A) :=
  if (0 <=? i) && (i <? Z.of_nat (length a)) then Some (<[Z.to_nat i := v]> a) else None.

(** ** Loops and arrays *)

(** Invert a successful run of fallible code, one statement at a time. *)
Ltac inv_some H :=
  repeat match type of H with
  | Some _ = Some _ => injection H as H
  | None = Some _ => discriminate H
  | mbind _ (Some _) = Some _ => cbn [mbind option_bind] in H
  | mbind _ ?e = Some _ =>
      let E := fresh "E" in
      destruct e eqn:E; cbn [mbind option_bind] in H; [|discriminate H]
  | (if ?b then _ else None) = Some _ =>
      let E := fresh "E" in destruct b eqn:E; [|discriminate H]
  | (if ?b then _ else _) = Some _ =>
      let E := fresh "E" in destruct b eqn:E
  end.

Lemma all_upM_true n i check :
  all_upM n i check = Some true <-> forall j, i <= j < i + Z.of_nat n -> check j = Some true.
Proof.
  revert i. induction n as [|n IH]; intros i; cbn [all_upM].
  { split; [intros _ j Hj; lia|done]. }
  split.
  - intros H j Hj. inv_some H; [|done]. subst.
    destruct (decide (j = i)) as [->|]; [done|]. eapply (proj1 (IH (i + 1))); [done|lia].
  - intros H. rewrite (H i) by lia. cbn [mbind option_bind]. apply IH. intros j Hj. apply H. lia.
Qed.

Lemma arr_set_some {A} (a : list A) i v :
  0 <= i < Z.of_nat (length a) -> arr_set a i v = Some (<[Z.to_nat i := v]> a).
Proof. intros H. unfold arr_set. by rewrite (proj2 (Z.leb_le _ _)), (proj2 (Z.ltb_lt _ _)) by lia. Qed.

Lemma arr_get_set {A} (a a' : list A) i v j :
  arr_set a i v = Some a' -> arr_get a' j = (if j =? i then Some v else arr_get a j).
Proof.
  unfold arr_set, arr_get. intros H. inv_some H. subst a'.
  apply andb_true_iff in E as [H1%Z.leb_le H2%Z.ltb_lt].
  destruct (Z.eqb_spec j i) as [->|Hne].
  - rewrite (proj2 (Z.leb_le _ _)) by lia. apply list_lookup_insert_eq. lia.
  - destruct (0 <=? j) eqn:?; [|done]. rewrite list_lookup_insert_ne; [done|lia].
Qed.

Lemma arr_set_length {A} (a a' : list A) i v : arr_set a i v = Some a' -> length a' = length a.
Proof. unfold arr_set. intros H. inv_some H. subst a'. apply length_insert. Qed.

Lemma arr_get_lt {A} (a : list A) i v : arr_get a i = Some v -> 0 <= i < Z.of_nat (length a).
Proof.
  unfold arr_get. intros H. inv_some H. apply lookup_lt_Some in H.
  apply Z.leb_le in E. lia.
Qed.

Lemma arr_get_some {A} (a : list A) i : 0 <= i < Z.of_nat (length a) -> is_Some (arr_get a i).
Proof.
  intros H. unfold arr_get. rewrite (proj2 (Z.leb_le _ _)) by lia. apply lookup_lt_is_Some. lia.
Qed.

(** ** Counting the elements of a list *)

Definition count {A} (f : A -> bool) (l : list A) : Z := Z.of_nat (length (filter (fun p => f p = true) l)).

Lemma count_nonneg {A} (f : A -> bool) l : 0 <= count f l.
Proof. unfold count. lia. Qed.

Lemma count_le_length {A} (f : A -> bool) l : count f l <= Z.of_nat (length l).
Proof. unfold count. pose proof (length_filter (fun p => f p = true) l). lia. Qed.

Lemma count_insert {A} (f : A -> bool) l i p q :
  l !! i = Some p -> count f (<[i := q]> l) = count f l - (if f p then 1 else 0) + (if f q then 1 else 0).
Proof.
  intros Hi. unfold count.
  rewrite (insert_take_drop l i q) by (by eapply lookup_lt_Some). rewrite <- (take_drop_middle l i p Hi) at 3.
  rewrite !list.filter_app, !length_app, !filter_cons. repeat case_decide; cbn [length]; destruct (f p), (f q); try done; lia.
Qed.

Lemma count_zero {A} (f : A -> bool) l i p : count f l = 0 -> l !! i = Some p -> f p = false.
Proof.
  intros Hc Hi. pose proof (count_insert f l i p p Hi). pose proof (count_nonneg f (<[i := p]> l)) as Hn.
  destruct (f p) eqn:E; [|done]. exfalso. revert Hc. unfold count.
  assert (Hin : p ∈ filter (fun p => f p = true) l).
  { apply list_elem_of_filter. split; [done|]. by eapply list_elem_of_lookup_2. }
  destruct (filter _ l); [by apply elem_of_nil in Hin|]. cbn. lia.
Qed.

Lemma count_pos {A} (f : A -> bool) l i p : l !! i = Some p -> f p = true -> 0 < count f l.
Proof.
  intros Hi Hp. pose proof (count_nonneg f l). destruct (decide (count f l = 0)) as [E|]; [|lia].
  by rewrite (count_zero f l i p E Hi) in Hp.
Qed.

Lemma count_one {A} (f : A -> bool) (z : A) l i j p q :
  f z = false -> count f l = 1 ->
  l !! i = Some p -> l !! j = Some q -> f p = true -> f q = true -> i = j.
Proof.
  intros H0 Hc Hi Hj Hp Hq. destruct (decide (i = j)) as [|Hne]; [done|]. exfalso.
  pose proof (count_insert f l i p z Hi) as H1. rewrite Hp, H0 in H1.
  assert (Hj' : <[i := z]> l !! j = Some q) by (by rewrite list_lookup_insert_ne).
  assert (Hz : count f (<[i := z]> l) = 0) by (rewrite H1, Hc; done).
  by rewrite (count_zero f _ j q Hz Hj') in Hq.
Qed.

(** ** Bit-level lemmas *)

Lemma in_u64b_spec x : in_u64b x = true <-> in_u64 x.
Proof. unfold in_u64b, in_u64. rewrite andb_true_iff, Z.leb_le, Z.ltb_lt. done. Qed.

Lemma u64_range x : in_u64 (u64 x).
Proof. unfold in_u64, u64. apply Z.mod_pos_bound. lia. Qed.

Lemma u64_small x : in_u64 x -> u64 x = x.
Proof. intros H. apply Z.mod_small. exact H. Qed.

Lemma u64_land x : u64 x = Z.land x UINT64_MAX.
Proof. unfold u64, UINT64_MAX. change (2 ^ 64 - 1) with (Z.ones 64). by rewrite Z.land_ones. Qed.

Lemma land_range n x y : 0 <= n -> 0 <= y < 2 ^ n -> 0 <= Z.land x y < 2 ^ n.
Proof.
  intros Hn [Hy1 Hy2].
  assert (Hy : y = Z.land y (Z.ones n)) by (rewrite Z.land_ones by done; by rewrite Z.mod_small).
  rewrite Hy, Z.land_assoc, Z.land_ones by done. apply Z.mod_pos_bound. lia.
Qed.

Lemma lor_range n x y : 0 <= n -> 0 <= x < 2 ^ n -> 0 <= y < 2 ^ n -> 0 <= Z.lor x y < 2 ^ n.
Proof.
  intros Hn Hx Hy.
  assert (Hl : Z.lor x y = Z.land (Z.lor x y) (Z.ones n)).
  { rewrite Z.land_lor_distr_l, !Z.land_ones by done. by rewrite !Z.mod_small. }
  rewrite Hl, Z.land_ones by done. apply Z.mod_pos_bound. lia.
Qed.

(** A value below [2^n] is its own mask; used to turn bounds into masks. *)
Lemma land_ones_small n x : 0 <= n -> 0 <= x < 2 ^ n -> Z.land x (Z.ones n) = x.
Proof. intros Hn Hx. rewrite Z.land_ones by done. by apply Z.mod_small. Qed.

Lemma testbit_small n x i : 0 <= x < 2 ^ n -> 0 <= n <= i -> Z.testbit x i = false.
Proof.
  intros Hx Hi. rewrite <- (land_ones_small n x) by lia.
  rewrite Z.land_spec, Z.ones_spec_high by lia. apply andb_false_r.
Qed.

(** Disjointness from a mask as an explicit complement. *)
Lemma land_zero_lnot r m : Z.land r m = 0 -> r = Z.land r (Z.lnot m).
Proof.
  intros H. apply Z.bits_inj'. intros i Hi. rewrite Z.land_spec, Z.lnot_spec by done.
  pose proof (f_equal (fun z => Z.testbit z i) H) as Hb. cbn in Hb.
  rewrite Z.land_spec, Z.bits_0 in Hb. destruct (Z.testbit r i), (Z.testbit m i); done.
Qed.

(** Masks through shifts: the four equations that normalise [shift (x & m)]. *)
Lemma shiftr_land_c x m n : 0 <= n -> Z.shiftr (Z.land x m) n = Z.land (Z.shiftr x n) (Z.shiftr m n).
Proof. intros. apply Z.shiftr_land. Qed.

Lemma shiftl_land_c x m n : 0 <= n -> Z.shiftl (Z.land x m) n = Z.land (Z.shiftl x n) (Z.shiftl m n).
Proof. intros. apply Z.shiftl_land. Qed.

Lemma land_shiftl_shiftr x m n :
  0 <= n -> Z.land m (Z.ones n) = 0 -> Z.land (Z.shiftl (Z.shiftr x n) n) m = Z.land x m.
Proof.
  intros Hn Hm. apply Z.bits_inj'. intros i Hi.
  rewrite !Z.land_spec, Z.shiftl_spec by lia.
  destruct (decide (i < n)).
  - assert (Z.testbit m i = false) as ->; [|by rewrite !andb_false_r].
    pose proof (f_equal (fun z => Z.testbit z i) Hm) as Hb. cbn in Hb.
    rewrite Z.land_spec, Z.ones_spec_low, Z.bits_0, andb_true_r in Hb by lia. done.
  - rewrite Z.shiftr_spec by lia. do 2 f_equal; lia.
Qed.

Lemma shiftr_shiftl_id x n : 0 <= n -> Z.shiftr (Z.shiftl x n) n = x.
Proof. intros. rewrite Z.shiftr_shiftl_l by lia. rewrite Z.sub_diag. apply Z.shiftl_0_r. Qed.

(** ** Automation

    [mask_simpl] normalises a goal built from [Z.land]/[Z.lor] of variables with
    closed constants: distribute [land] over [lor], associate the constants to
    the right and evaluate them.  [zconst t] succeeds when [t] is a literal. *)

Ltac zconst t :=
  lazymatch t with
  | Z0 => idtac
  | Zpos ?p => posconst p
  | Zneg ?p => posconst p
  end
with posconst p :=
  lazymatch p with
  | xH => idtac
  | xO ?q => posconst q
  | xI ?q => posconst q
  end.

Ltac fold_closed t :=
  let v := eval vm_compute in t in
  zconst v;
  let H := fresh in
  assert (H : t = v) by (vm_compute; reflexivity); rewrite H; clear H.

Ltac fold_const_step :=
  match goal with
  | |- context [not64 ?a] => zconst a; fold_closed (not64 a)
  | |- context [Z.lnot ?a] => zconst a; fold_closed (Z.lnot a)
  | |- context [UINT64_MAX] => fold_closed UINT64_MAX
  | |- context [Z.land ?a ?b] => zconst a; zconst b; fold_closed (Z.land a b)
  | |- context [Z.lor ?a ?b] => zconst a; zconst b; fold_closed (Z.lor a b)
  | |- context [Z.lxor ?a ?b] => zconst a; zconst b; fold_closed (Z.lxor a b)
  | |- context [Z.shiftl ?a ?b] => zconst a; zconst b; fold_closed (Z.shiftl a b)
  | |- context [Z.shiftr ?a ?b] => zconst a; zconst b; fold_closed (Z.shiftr a b)
  end.

Create Rewrite HintDb rmm_mask.

#[export] Hint Rewrite Z.land_lor_distr_l Z.land_0_r Z.land_0_l Z.lor_0_r Z.lor_0_l
  Z.shiftl_lor Z.shiftr_lor Z.shiftl_land Z.shiftr_land Z.shiftl_0_l Z.shiftr_0_l
  u64_land : rmm_mask.
#[export] Hint Rewrite shiftr_shiftl_id land_shiftl_shiftr using (lia || reflexivity) : rmm_mask.
#[export] Hint Rewrite <- Z.land_assoc Z.lor_assoc : rmm_mask.

Ltac mask_simpl :=
  repeat first [ progress (repeat fold_const_step)
               | progress autorewrite with rmm_mask ].

(** Case analysis on a boolean comparison, with its meaning as a hypothesis. *)
Ltac destruct_cmp :=
  match goal with
  | |- context [?a =? ?b] => destruct (Z.eqb_spec a b)
  | |- context [?a <? ?b] => destruct (Z.ltb_spec a b)
  | |- context [?a <=? ?b] => destruct (Z.leb_spec a b)
  end.

(** Equality of two [Z.lor]s up to associativity and commutativity. *)
Ltac lor_ac := apply Z.bits_inj'; intros ? ?; rewrite !Z.lor_spec; btauto.
