(* ===== verification/Utils.v ===== *)
(** * Bit-field and alignment macros of [lib/common/include/utils_def.h]

    A C register field is a pair of macros [F_SHIFT]/[F_WIDTH]; here it is a
    record, and the macros that paste those names together are functions of it. *)

From Stdlib Require Import ZArith Lia Bool.
From stdpp Require Import base tactics option list numbers.
From S2P Require Import Prelude.

Record regfield := Field { f_shift : Z; f_width : Z }.

(** A field inside a 64-bit register. *)
Definition field_ok (f : regfield) : Prop :=
  0 <= f_shift f /\ 0 < f_width f /\ f_shift f + f_width f <= 64.

Definition GRANULE_SHIFT : Z := 12.
Definition GRANULE_SIZE : Z := 2 ^ GRANULE_SHIFT.
Definition GRANULE_MASK : Z := not64 (GRANULE_SIZE - 1).

Definition INPLACE (f : regfield) (v : Z) : Z := shl64 v (f_shift f).
Definition MASK (f : regfield) : Z := shl64 (Z.shiftr UINT64_MAX (64 - f_width f)) (f_shift f).
Definition EXTRACT (f : regfield) (reg : Z) : Z := Z.shiftr (Z.land reg (MASK f)) (f_shift f).
Definition COMPOSE (f : regfield) (v : Z) : Z :=
  shl64 (Z.land v (Z.shiftr UINT64_MAX (64 - f_width f))) (f_shift f).
Definition EXTRACT_BIT (shift reg : Z) : Z := Z.land (Z.shiftr reg shift) 1.
Definition BIT (pos : Z) : Z := shl64 1 pos.
Definition BIT_MASK_ULL (msb lsb : Z) : Z :=
  Z.land (Z.shiftr UINT64_MAX (63 - msb)) (shl64 UINT64_MAX lsb).

Definition ALIGNED (size alignment : Z) : bool := size mod alignment =? 0.
Definition GRANULE_ALIGNED (addr : Z) : bool := ALIGNED addr GRANULE_SIZE.
Definition IS_POWER_OF_TWO (x : Z) : bool :=
  negb (x =? 0) && (Z.land x (sub64 x 1) =? 0).

Definition round_up (value boundary : Z) : Z :=
  add64 (Z.lor (sub64 value 1) (sub64 boundary 1)) 1.
Definition round_down (value boundary : Z) : Z :=
  Z.land value (not64 (sub64 boundary 1)).

(** ** Field lemmas *)

Lemma MASK_eq f : field_ok f -> MASK f = Z.shiftl (Z.ones (f_width f)) (f_shift f).
Proof.
  intros (Hs & Hw & Hsum). unfold MASK, shl64, UINT64_MAX, u64.
  assert (Z.shiftr (2 ^ 64 - 1) (64 - f_width f) = Z.ones (f_width f)) as ->.
  { change (2 ^ 64 - 1) with (Z.ones 64). apply Z.bits_inj'. intros i Hi.
    rewrite Z.shiftr_spec by lia.
    rewrite !Z.testbit_ones_nonneg by lia.
    destruct (Z.ltb_spec (i + (64 - f_width f)) 64), (Z.ltb_spec i (f_width f)); lia. }
  apply Z.mod_small. rewrite Z.shiftl_mul_pow2, Z.ones_equiv by lia.
  pose proof (Z.pow_pos_nonneg 2 (f_width f) ltac:(lia) ltac:(lia)).
  pose proof (Z.pow_pos_nonneg 2 (f_shift f) ltac:(lia) ltac:(lia)).
  assert (2 ^ f_width f * 2 ^ f_shift f <= 2 ^ 64).
  { rewrite <- Z.pow_add_r by lia. apply Z.pow_le_mono_r; lia. }
  nia.
Qed.

Lemma EXTRACT_spec f x :
  field_ok f -> EXTRACT f x = (x / 2 ^ f_shift f) mod 2 ^ f_width f.
Proof.
  intros Hf. unfold EXTRACT. rewrite (MASK_eq f) by done. destruct Hf as (Hs & Hw & Hsum).
  rewrite Z.shiftr_land, shiftr_shiftl_id, Z.land_ones, Z.shiftr_div_pow2 by lia. done.
Qed.

Lemma EXTRACT_range f x : field_ok f -> 0 <= EXTRACT f x < 2 ^ f_width f.
Proof.
  intros Hf. rewrite EXTRACT_spec by done. apply Z.mod_pos_bound.
  destruct Hf. apply Z.pow_pos_nonneg; lia.
Qed.

Lemma INPLACE_small f v :
  field_ok f -> 0 <= v < 2 ^ f_width f -> INPLACE f v = Z.shiftl v (f_shift f).
Proof.
  intros (Hs & Hw & Hsum) Hv. unfold INPLACE, shl64. apply u64_small.
  unfold in_u64. rewrite Z.shiftl_mul_pow2 by lia.
  pose proof (Z.pow_pos_nonneg 2 (f_shift f) ltac:(lia) ltac:(lia)).
  assert (2 ^ f_width f * 2 ^ f_shift f <= 2 ^ 64).
  { rewrite <- Z.pow_add_r by lia. apply Z.pow_le_mono_r; lia. }
  nia.
Qed.

(** An in-range value placed in its field lies under the field's mask. *)
Lemma INPLACE_masked f v :
  field_ok f -> 0 <= v < 2 ^ f_width f -> Z.land (INPLACE f v) (MASK f) = INPLACE f v.
Proof.
  intros Hf Hv. rewrite INPLACE_small, MASK_eq by done.
  rewrite <- Z.shiftl_land, land_ones_small; [done|destruct Hf; lia|done].
Qed.

Lemma EXTRACT_INPLACE f v :
  field_ok f -> 0 <= v < 2 ^ f_width f -> EXTRACT f (INPLACE f v) = v.
Proof.
  intros Hf Hv. unfold EXTRACT. rewrite INPLACE_masked, INPLACE_small by done.
  apply shiftr_shiftl_id. by destruct Hf.
Qed.

Lemma EXTRACT_lor f x y : EXTRACT f (Z.lor x y) = Z.lor (EXTRACT f x) (EXTRACT f y).
Proof. unfold EXTRACT. by rewrite Z.land_lor_distr_l, Z.shiftr_lor. Qed.

(** Fields that do not overlap do not see each other. *)
Lemma EXTRACT_INPLACE_ne f g v :
  field_ok f -> field_ok g -> 0 <= v < 2 ^ f_width g ->
  f_shift f + f_width f <= f_shift g \/ f_shift g + f_width g <= f_shift f ->
  EXTRACT f (INPLACE g v) = 0.
Proof.
  intros Hf Hg Hv Hd. rewrite INPLACE_small by done.
  unfold EXTRACT. rewrite MASK_eq by done.
  destruct Hf as (? & ? & ?), Hg as (? & ? & ?).
  apply Z.bits_inj'. intros i Hi. rewrite Z.bits_0.
  rewrite Z.shiftr_spec, Z.land_spec, !Z.shiftl_spec, Z.testbit_ones_nonneg by lia.
  destruct (Z.ltb_spec (i + f_shift f - f_shift f) (f_width f)); [|by rewrite !andb_false_r].
  destruct Hd.
  - rewrite Z.testbit_neg_r by lia. done.
  - rewrite (testbit_small (f_width g)) by lia. done.
Qed.

(** Replacing a field. *)
Lemma set_field_spec f d v :
  field_ok f -> in_u64 d -> 0 <= v < 2 ^ f_width f ->
  Z.lor (Z.land d (not64 (MASK f))) (INPLACE f v) = d - EXTRACT f d * 2 ^ f_shift f + v * 2 ^ f_shift f.
Proof.
  intros Hf Hd Hv. pose proof Hf as (Hs & Hw & Hsum).
  assert (Hm : Z.land d (not64 (MASK f)) = Z.ldiff d (MASK f)).
  { unfold not64. change UINT64_MAX with (Z.ones 64). apply Z.bits_inj'. intros i Hi.
    rewrite Z.land_spec, Z.ldiff_spec, Z.lxor_spec, Z.testbit_ones_nonneg by lia.
    destruct (Z.ltb_spec i 64); [by destruct (Z.testbit (MASK f) i)|].
    by rewrite (testbit_small 64 d i) by (unfold in_u64 in Hd; lia). }
  assert (He : Z.land d (MASK f) = EXTRACT f d * 2 ^ f_shift f).
  { unfold EXTRACT. rewrite <- Z.shiftl_mul_pow2 by done. rewrite MASK_eq by done. symmetry.
    rewrite shiftr_land_c, shiftr_shiftl_id by done. rewrite shiftl_land_c by done.
    apply Z.bits_inj'. intros i Hi. rewrite !Z.land_spec, !Z.shiftl_spec by done.
    destruct (Z.ltb_spec i (f_shift f)).
    - rewrite !(Z.testbit_neg_r _ (i - f_shift f)) by lia. by rewrite !andb_false_r.
    - rewrite Z.shiftr_spec by lia. by replace (i - f_shift f + f_shift f) with i by lia. }
  assert (Hdis : Z.land (Z.ldiff d (MASK f)) (INPLACE f v) = 0).
  { rewrite <- (INPLACE_masked f v) by done. rewrite Z.land_comm, <- Z.land_assoc. apply Z.bits_inj'. intros i Hi.
    rewrite !Z.land_spec, Z.ldiff_spec, Z.bits_0.
    destruct (Z.testbit (INPLACE f v) i), (Z.testbit (MASK f) i), (Z.testbit d i); done. }
  pose proof (Z.add_lor_land (Z.ldiff d (MASK f)) (INPLACE f v)) as Hsum2. rewrite Hdis in Hsum2.
  rewrite Hm. rewrite (INPLACE_small f v), Z.shiftl_mul_pow2 in * by done.
  rewrite <- He. pose proof (Z.add_lor_land (Z.ldiff d (MASK f)) (Z.land d (MASK f))) as Hsplit.
  assert (H0 : Z.land (Z.ldiff d (MASK f)) (Z.land d (MASK f)) = 0).
  { apply Z.bits_inj'. intros i Hi. rewrite !Z.land_spec, Z.ldiff_spec, Z.bits_0.
    destruct (Z.testbit d i), (Z.testbit (MASK f) i); done. }
  rewrite H0, Z.lor_ldiff_and in Hsplit. lia.
Qed.

(** Setting a field that is zero. *)
Lemma set_zero_field f d v :
  field_ok f -> in_u64 d -> 0 <= v < 2 ^ f_width f -> EXTRACT f d = 0 ->
  Z.lor d (Z.lor (Z.land d (not64 (MASK f))) (INPLACE f v)) = d + v * 2 ^ f_shift f.
Proof.
  intros Hf Hd Hv H0. pose proof (set_field_spec f d v Hf Hd Hv) as Hs. rewrite H0 in Hs.
  assert (Hid : Z.land d (not64 (MASK f)) = d).
  { pose proof (set_field_spec f d 0 Hf Hd) as Hz. rewrite H0 in Hz. unfold INPLACE in Hz.
    destruct Hf as (_ & Hw & _). pose proof (Z.pow_pos_nonneg 2 (f_width f) ltac:(lia) ltac:(lia)).
    specialize (Hz ltac:(lia)). unfold shl64 in Hz. rewrite Z.shiftl_0_l in Hz. change (u64 0) with 0 in Hz.
    rewrite Z.lor_0_r in Hz. lia. }
  rewrite Hid in *. rewrite Z.lor_assoc, Z.lor_diag. lia.
Qed.

(** ** Alignment and rounding *)

Lemma ALIGNED_spec a b : b <> 0 -> ALIGNED a b = true <-> (b | a).
Proof. intros. unfold ALIGNED. rewrite Z.eqb_eq. by apply Z.mod_divide. Qed.

Lemma GRANULE_ALIGNED_spec a : GRANULE_ALIGNED a = true <-> (GRANULE_SIZE | a).
Proof. apply ALIGNED_spec. done. Qed.

Lemma BIT_MASK_ULL_eq msb lsb :
  0 <= lsb -> lsb <= msb <= 63 -> BIT_MASK_ULL msb lsb = Z.shiftl (Z.ones (msb - lsb + 1)) lsb.
Proof.
  intros Hl Hm. unfold BIT_MASK_ULL, shl64. rewrite u64_land.
  change UINT64_MAX with (Z.ones 64). apply Z.bits_inj'. intros i Hi.
  rewrite !Z.land_spec, Z.shiftr_spec, !Z.shiftl_spec, !Z.testbit_ones by lia.
  repeat match goal with
  | |- context [?a <=? ?b] => destruct (Z.leb_spec a b)
  | |- context [?a <? ?b] => destruct (Z.ltb_spec a b)
  end; try lia; done.
Qed.

(** A value under a bit-range mask: a multiple of the low bound, below the high one. *)
Lemma BIT_MASK_ULL_spec x msb lsb :
  0 <= lsb -> lsb <= msb <= 63 ->
  x = Z.land x (BIT_MASK_ULL msb lsb) <-> 0 <= x < 2 ^ (msb + 1) /\ (2 ^ lsb | x).
Proof.
  intros Hl Hm. rewrite BIT_MASK_ULL_eq by done.
  assert (Hp : 0 < 2 ^ lsb) by (apply Z.pow_pos_nonneg; lia).
  assert (Hs : 2 ^ (msb + 1) = 2 ^ (msb - lsb + 1) * 2 ^ lsb)
    by (rewrite <- Z.pow_add_r by lia; f_equal; lia).
  assert (Hland : Z.land x (Z.shiftl (Z.ones (msb - lsb + 1)) lsb)
                  = x / 2 ^ lsb mod 2 ^ (msb - lsb + 1) * 2 ^ lsb).
  { rewrite <- Z.land_ones, <- Z.shiftr_div_pow2, <- Z.shiftl_mul_pow2 by lia.
    rewrite Z.shiftl_land. symmetry. apply land_shiftl_shiftr; [done|].
    apply Z.bits_inj'. intros i Hi. rewrite Z.land_spec, Z.shiftl_spec, Z.bits_0 by lia.
    destruct (decide (i < lsb)); [rewrite Z.testbit_neg_r by lia; done|].
    rewrite (Z.ones_spec_high lsb i) by lia. apply andb_false_r. }
  rewrite Hland. pose proof (Z.mod_pos_bound (x / 2 ^ lsb) (2 ^ (msb - lsb + 1))) as Hb.
  assert (0 < 2 ^ (msb - lsb + 1)) by (apply Z.pow_pos_nonneg; lia). split.
  - intros Hx. split; [nia|]. rewrite Hx. apply Z.divide_factor_r.
  - intros [Hx [q ->]]. rewrite Z.div_mul, Z.mod_small by nia. done.
Qed.

Lemma not64_mask n : 0 <= n <= 64 -> not64 (2 ^ n - 1) = Z.shiftl (Z.ones (64 - n)) n.
Proof.
  intros Hn. unfold not64, UINT64_MAX.
  replace (2 ^ n - 1) with (Z.ones n) by (rewrite Z.ones_equiv; lia).
  change (2 ^ 64 - 1) with (Z.ones 64).
  apply Z.bits_inj'. intros i Hi. rewrite Z.lxor_spec, Z.shiftl_spec by lia.
  rewrite !Z.testbit_ones by lia.
  destruct (Z.leb_spec 0 i), (Z.leb_spec 0 (i - n)), (Z.ltb_spec i n), (Z.ltb_spec i 64),
    (Z.ltb_spec (i - n) (64 - n)); try lia; done.
Qed.

Lemma round_down_spec v n :
  in_u64 v -> 0 <= n < 64 -> round_down v (2 ^ n) = v - v mod 2 ^ n.
Proof.
  intros Hv Hn. unfold round_down, sub64.
  assert (Hp : 0 < 2 ^ n) by (apply Z.pow_pos_nonneg; lia).
  assert (Hlt : 2 ^ n < 2 ^ 64) by (apply Z.pow_lt_mono_r; lia).
  rewrite u64_small by (unfold in_u64; lia).
  rewrite not64_mask by lia.
  replace (v - v mod 2 ^ n) with (Z.shiftl (Z.shiftr v n) n).
  2: { rewrite Z.shiftl_mul_pow2, Z.shiftr_div_pow2 by lia. pose proof (Z.div_mod v (2 ^ n)). lia. }
  apply Z.bits_inj'. intros i Hi.
  rewrite Z.land_spec, !Z.shiftl_spec by lia.
  destruct (decide (i < n)).
  - rewrite !(Z.testbit_neg_r _ (i - n)) by lia. by rewrite andb_false_r.
  - rewrite Z.shiftr_spec by lia. replace (i - n + n) with i by lia.
    rewrite Z.testbit_ones by lia.
    destruct (decide (i < 64)).
    + destruct (Z.leb_spec 0 (i - n)), (Z.ltb_spec (i - n) (64 - n)); try lia. by rewrite andb_true_r.
    + rewrite (testbit_small 64 v) by (unfold in_u64 in Hv; lia). done.
Qed.

Lemma round_up_spec v n :
  0 <= n < 64 -> 0 < v -> v + 2 ^ n <= 2 ^ 64 ->
  round_up v (2 ^ n) = ((v + 2 ^ n - 1) / 2 ^ n) * 2 ^ n.
Proof.
  intros Hn Hv Hb. unfold round_up, sub64.
  assert (Hp : 0 < 2 ^ n) by (apply Z.pow_pos_nonneg; lia).
  rewrite !u64_small by (unfold in_u64; lia).
  assert (Hl : Z.lor (v - 1) (2 ^ n - 1) = (v - 1) / 2 ^ n * 2 ^ n + (2 ^ n - 1)).
  { replace (2 ^ n - 1) with (Z.ones n) by (rewrite Z.ones_equiv; lia).
    rewrite <- Z.shiftr_div_pow2, <- Z.shiftl_mul_pow2 by lia.
    rewrite Z.add_nocarry_lxor, Z.lxor_lor; apply Z.bits_inj'; intros i Hi.
    2, 3: rewrite Z.land_spec, Z.bits_0, Z.testbit_ones_nonneg, Z.shiftl_spec by lia;
       destruct (Z.ltb_spec i n); [rewrite Z.testbit_neg_r by lia|rewrite andb_false_r]; done.
    rewrite !Z.lor_spec, Z.testbit_ones_nonneg, Z.shiftl_spec by lia.
    destruct (Z.ltb_spec i n); [by rewrite !orb_true_r|].
    rewrite Z.shiftr_spec by lia. do 2 f_equal. lia. }
  rewrite Hl. unfold add64.
  replace (v + 2 ^ n - 1) with (v - 1 + 1 * 2 ^ n) by lia.
  rewrite Z.div_add by lia.
  assert (0 <= (v - 1) / 2 ^ n) by (apply Z.div_pos; lia).
  pose proof (Z.mul_div_le (v - 1) (2 ^ n) ltac:(lia)).
  assert (Hle : (v - 1) / 2 ^ n * 2 ^ n + 2 ^ n <= 2 ^ 64) by lia.
  destruct (decide ((v - 1) / 2 ^ n * 2 ^ n + 2 ^ n = 2 ^ 64)) as [He|He].
  - exfalso. lia.
  - rewrite u64_small by (unfold in_u64; lia). lia.
Qed.
