(* ===== verification/Status.v ===== *)
(** * RMI return codes ([lib/common/include/status.h], [smc-rmi.h])

    An [RmiResult] is a status byte whose value selects the layout of the other
    bits.  Here: the logical form [return_code_t], its packing into x0 and its
    unpacking, with the round trip between the two. *)

From Stdlib Require Import ZArith Lia Bool ZifyBool.
From stdpp Require Import base tactics option list numbers.
From S2P Require Import Prelude.
From S2P Require Import Utils.

Definition RMI_SUCCESS : Z := 0.
Definition RMI_ERROR_INPUT : Z := 1.
Definition RMI_ERROR_REALM : Z := 2.
Definition RMI_ERROR_REC : Z := 3.
Definition RMI_ERROR_RTT : Z := 4.
Definition RMI_ERROR_NOT_SUPPORTED : Z := 5.
Definition RMI_ERROR_DEVICE : Z := 6.
Definition RMI_ERROR_RTT_AUX : Z := 7.
Definition RMI_ERROR_PSMMU_ST : Z := 8.
Definition RMI_ERROR_DPT : Z := 9.
Definition RMI_BUSY : Z := 10.
Definition RMI_ERROR_GLOBAL : Z := 11.
Definition RMI_ERROR_TRACKING : Z := 12.
Definition RMI_INCOMPLETE : Z := 13.
Definition RMI_BLOCKED : Z := 14.
Definition RMI_ERROR_GPT : Z := 15.
Definition RMI_ERROR_GRANULE : Z := 16.
Definition RMI_ERROR_COUNT_MAX : Z := 17.

Definition RMI_OP_MEM_REQ_NONE : Z := 0.
Definition RMI_OP_MEM_REQ_DONATE : Z := 1.
Definition RMI_OP_MEM_REQ_RECLAIM : Z := 2.
Definition RMI_OP_CAN_CANCEL : Z := 1.

Definition F_RMI_RESULT_STATUS : regfield := Field 0 8.
Definition F_RMI_RESULT_LEVEL : regfield := Field 8 8.
Definition F_RMI_RESULT_ADDR : regfield := Field 16 40.
Definition F_RMI_OP_MEM_REQ : regfield := Field 8 2.
Definition F_RMI_OP_CAN_CANCEL_BIT : regfield := Field 10 1.

(** The union [data]: the active member is the constructor. *)
Inductive rmi_result_data :=
  | DataNull
  | DataIncomplete (mem cancel : Z)
  | DataLevel (level : Z)
  | DataLevelAddr (level addr : Z).

Record return_code_t := ReturnCode { rc_status : Z; rc_data : rmi_result_data }.

#[export] Instance rmi_result_data_eq_dec : EqDecision rmi_result_data.
Proof. solve_decision. Defined.
#[export] Instance return_code_eq_dec : EqDecision return_code_t.
Proof. solve_decision. Defined.

Definition make_return_code (status : Z) : return_code_t := ReturnCode (u8 status) DataNull.

Definition status_has_level (status : Z) : bool :=
  (status =? RMI_ERROR_RTT) || (status =? RMI_ERROR_RTT_AUX) || (status =? RMI_ERROR_PSMMU_ST).
Definition status_has_level_addr (status : Z) : bool :=
  (status =? RMI_ERROR_DPT) || (status =? RMI_ERROR_GPT) || (status =? RMI_ERROR_TRACKING).

(** The two assertions on a result address. *)
Definition result_addr_ok (addr : Z) : bool :=
  ALIGNED addr GRANULE_SIZE
  && (Z.shiftr addr GRANULE_SHIFT <? shl64 1 (f_width F_RMI_RESULT_ADDR)).

Definition make_return_code_level (status level : Z) : option return_code_t :=
  let return_code := make_return_code status in
  assert (status_has_level status) ;;
  Some (ReturnCode (rc_status return_code) (DataLevel level)).

Definition make_return_code_level_addr (status level addr : Z) : option return_code_t :=
  let return_code := make_return_code status in
  assert (status_has_level_addr status) ;;
  assert (result_addr_ok addr) ;;
  Some (ReturnCode (rc_status return_code) (DataLevelAddr level addr)).

Definition make_return_code_incomplete (mem cancel : Z) : option return_code_t :=
  let return_code := make_return_code RMI_INCOMPLETE in
  assert (mem <=? RMI_OP_MEM_REQ_RECLAIM) ;;
  assert (cancel <=? RMI_OP_CAN_CANCEL) ;;
  Some (ReturnCode (rc_status return_code) (DataIncomplete (u8 mem) (u8 cancel))).

(** Packing reads the union member the status selects; reading a member that is
    not the active one is a failure here. *)
Definition pack_struct_return_code (return_code : return_code_t) : option Z :=
  let status := rc_status return_code in
  let result := INPLACE F_RMI_RESULT_STATUS status in
  assert (status <? RMI_ERROR_COUNT_MAX) ;;
  if status =? RMI_INCOMPLETE then
    match rc_data return_code with
    | DataIncomplete mem cancel =>
        assert (mem <=? RMI_OP_MEM_REQ_RECLAIM) ;;
        assert (cancel <=? RMI_OP_CAN_CANCEL) ;;
        Some (Z.lor (Z.lor result (INPLACE F_RMI_OP_MEM_REQ mem))
                    (INPLACE F_RMI_OP_CAN_CANCEL_BIT cancel))
    | _ => None
    end
  else if status_has_level status then
    match rc_data return_code with
    | DataLevel level => Some (Z.lor result (INPLACE F_RMI_RESULT_LEVEL level))
    | _ => None
    end
  else if status_has_level_addr status then
    match rc_data return_code with
    | DataLevelAddr level addr =>
        assert (result_addr_ok addr) ;;
        Some (Z.lor (Z.lor result (INPLACE F_RMI_RESULT_LEVEL level))
                    (INPLACE F_RMI_RESULT_ADDR (Z.shiftr addr GRANULE_SHIFT)))
    | _ => None
    end
  else Some result.

Definition pack_return_code_level (status level : Z) : option Z :=
  rc ← make_return_code_level status level; pack_struct_return_code rc.
Definition pack_return_code_level_addr (status level addr : Z) : option Z :=
  rc ← make_return_code_level_addr status level addr; pack_struct_return_code rc.
Definition pack_return_code_incomplete (mem cancel : Z) : option Z :=
  rc ← make_return_code_incomplete mem cancel; pack_struct_return_code rc.

Definition unpack_return_code (error_code : Z) : return_code_t :=
  let status := u32 (EXTRACT F_RMI_RESULT_STATUS error_code) in
  let st := rc_status (make_return_code status) in
  if status =? RMI_INCOMPLETE then
    ReturnCode st (DataIncomplete (u8 (EXTRACT F_RMI_OP_MEM_REQ error_code))
                                  (u8 (EXTRACT F_RMI_OP_CAN_CANCEL_BIT error_code)))
  else if status_has_level status then
    ReturnCode st (DataLevel (u8 (EXTRACT F_RMI_RESULT_LEVEL error_code)))
  else if status_has_level_addr status then
    ReturnCode st (DataLevelAddr (u8 (EXTRACT F_RMI_RESULT_LEVEL error_code))
                                 (shl64 (EXTRACT F_RMI_RESULT_ADDR error_code) GRANULE_SHIFT))
  else make_return_code status.

(** A logical code whose data matches its status, fields in range. *)
Definition return_code_wf (rc : return_code_t) : bool :=
  (0 <=? rc_status rc) && (rc_status rc <? RMI_ERROR_COUNT_MAX) &&
  match rc_data rc with
  | DataIncomplete mem cancel =>
      (rc_status rc =? RMI_INCOMPLETE) && (0 <=? mem) && (mem <=? RMI_OP_MEM_REQ_RECLAIM)
      && (0 <=? cancel) && (cancel <=? RMI_OP_CAN_CANCEL)
  | DataLevel level => status_has_level (rc_status rc) && (0 <=? level) && (level <? 2 ^ 8)
  | DataLevelAddr level addr =>
      status_has_level_addr (rc_status rc) && (0 <=? level) && (level <? 2 ^ 8)
      && (0 <=? addr) && result_addr_ok addr
  | DataNull => negb (rc_status rc =? RMI_INCOMPLETE) && negb (status_has_level (rc_status rc))
                && negb (status_has_level_addr (rc_status rc))
  end.

(** Reads of packed fields: each read sees its own field only. *)
Ltac field_side := solve [repeat split; cbn; lia | cbn; lia | left; cbn; lia | right; cbn; lia].
Ltac extract_simpl :=
  rewrite ?EXTRACT_lor;
  repeat match goal with
  | |- context [EXTRACT ?f (INPLACE ?f ?v)] => rewrite (EXTRACT_INPLACE f v) by field_side
  | |- context [EXTRACT ?f (INPLACE ?g ?v)] => rewrite (EXTRACT_INPLACE_ne f g v) by field_side
  end;
  rewrite ?Z.lor_0_r, ?Z.lor_0_l.

Lemma result_addr_spec addr :
  0 <= addr -> result_addr_ok addr = true ->
  0 <= Z.shiftr addr 12 < 2 ^ 40 /\ shl64 (Z.shiftr addr 12) 12 = addr.
Proof.
  intros H0 [Ha Hr]%andb_true_iff. unfold ALIGNED in Ha. apply Z.eqb_eq in Ha.
  change (shl64 1 (f_width F_RMI_RESULT_ADDR)) with (2 ^ 40) in Hr. unfold GRANULE_SHIFT in Hr.
  change GRANULE_SIZE with (2 ^ 12) in Ha. apply Z.ltb_lt in Hr.
  assert (0 <= Z.shiftr addr 12) by (rewrite Z.shiftr_div_pow2 by lia; apply Z.div_pos; lia).
  split; [lia|]. unfold shl64. rewrite Z.shiftl_mul_pow2 by lia.
  assert (Z.shiftr addr 12 * 2 ^ 12 = addr) as ->.
  { rewrite Z.shiftr_div_pow2 by lia. pose proof (Z.div_mod addr (2 ^ 12)). lia. }
  apply u64_small. unfold in_u64. rewrite Z.shiftr_div_pow2 in Hr by lia.
  pose proof (Z.div_mod addr (2 ^ 12)). lia.
Qed.

Lemma u8_small x : 0 <= x < 2 ^ 8 -> u8 x = x.
Proof. apply Z.mod_small. Qed.

Lemma status_level_cases st : status_has_level st = true -> st = 4 \/ st = 7 \/ st = 8.
Proof.
  unfold status_has_level, RMI_ERROR_RTT, RMI_ERROR_RTT_AUX, RMI_ERROR_PSMMU_ST.
  rewrite !orb_true_iff, !Z.eqb_eq. tauto.
Qed.

Lemma status_level_addr_cases st : status_has_level_addr st = true -> st = 9 \/ st = 15 \/ st = 12.
Proof.
  unfold status_has_level_addr, RMI_ERROR_DPT, RMI_ERROR_GPT, RMI_ERROR_TRACKING.
  rewrite !orb_true_iff, !Z.eqb_eq. tauto.
Qed.

(** A packed error is not [RMI_SUCCESS]. *)
Lemma pack_level_some status level :
  status_has_level status = true -> 0 <= level < 2 ^ 8 ->
  exists p, pack_return_code_level status level = Some p /\ p <> RMI_SUCCESS.
Proof.
  intros Hs Hl. unfold pack_return_code_level, make_return_code_level. rewrite Hs. cbn [mbind option_bind].
  destruct (status_level_cases _ Hs) as [-> | [-> | ->]]; cbn -[INPLACE Z.lor];
    (eexists; split; [reflexivity|]; intros H; apply (f_equal (EXTRACT F_RMI_RESULT_STATUS)) in H;
     revert H; extract_simpl; done).
Qed.

Lemma pack_level_addr_some status level addr :
  status_has_level_addr status = true -> 0 <= level < 2 ^ 8 -> 0 <= addr -> result_addr_ok addr = true ->
  exists p, pack_return_code_level_addr status level addr = Some p /\ p <> RMI_SUCCESS.
Proof.
  intros Hs Hl H0 Ha. unfold pack_return_code_level_addr, make_return_code_level_addr.
  destruct (result_addr_spec addr H0 Ha) as [Hr _]. rewrite Hs, Ha. cbn [mbind option_bind].
  unfold pack_struct_return_code. cbn [rc_status rc_data].
  destruct (status_level_addr_cases _ Hs) as [-> | [-> | ->]]; cbn -[INPLACE Z.lor Z.shiftr result_addr_ok];
    rewrite Ha; unfold GRANULE_SHIFT; (eexists; split; [reflexivity|]; intros H; apply (f_equal (EXTRACT F_RMI_RESULT_STATUS)) in H;
     revert H; extract_simpl; done).
Qed.

(** Packing a well-formed result into x0 succeeds, and unpacking gives the
    same status and data back. *)
Theorem return_code_roundtrip rc :
  return_code_wf rc = true ->
  exists x0, pack_struct_return_code rc = Some x0 /\ unpack_return_code x0 = rc.
Proof.
  destruct rc as [st data]. unfold return_code_wf. cbn [rc_status rc_data].
  rewrite !andb_true_iff, Z.leb_le, Z.ltb_lt. unfold RMI_ERROR_COUNT_MAX.
  intros [[H0 H1] Hd]. unfold pack_struct_return_code, unpack_return_code. cbn [rc_status rc_data].
  rewrite (proj2 (Z.ltb_lt st RMI_ERROR_COUNT_MAX)) by (unfold RMI_ERROR_COUNT_MAX; lia).
  assert (Hst : forall y, EXTRACT F_RMI_RESULT_STATUS y = st -> u32 (EXTRACT F_RMI_RESULT_STATUS y) = st)
    by (intros y ->; apply Z.mod_small; lia).
  destruct data as [|mem cancel|level|level addr].
  - rewrite !andb_true_iff, !negb_true_iff in Hd. destruct Hd as [[E1 E2] E3]. rewrite E1, E2, E3.
    eexists. split; [reflexivity|]. rewrite Hst by (extract_simpl; done). rewrite E1, E2, E3.
    unfold make_return_code. rewrite u8_small by lia. done.
  - rewrite !andb_true_iff, !Z.leb_le in Hd. unfold RMI_OP_MEM_REQ_RECLAIM, RMI_OP_CAN_CANCEL in *.
    destruct Hd as [[[[->%Z.eqb_eq ?] ?] ?] ?].
    rewrite !(proj2 (Z.leb_le _ _)) by lia. eexists. split; [reflexivity|].
    unfold RMI_INCOMPLETE in *. rewrite Hst by (extract_simpl; done). extract_simpl.
    rewrite !u8_small by lia. done.
  - rewrite !andb_true_iff, !Z.leb_le, Z.ltb_lt in Hd. destruct Hd as [[E ?] ?].
    apply status_level_cases in E as Hs. rewrite E.
    rewrite (proj2 (Z.eqb_neq _ _)) by (unfold RMI_INCOMPLETE; lia).
    eexists. split; [reflexivity|]. rewrite Hst by (extract_simpl; done). rewrite E. extract_simpl.
    rewrite (proj2 (Z.eqb_neq _ _)) by (unfold RMI_INCOMPLETE; lia).
    cbn [rc_status make_return_code]. rewrite !u8_small by lia. done.
  - rewrite !andb_true_iff, !Z.leb_le, Z.ltb_lt in Hd. destruct Hd as [[[[E ?] ?] ?] Ea].
    apply status_level_addr_cases in E as Hs. rewrite E, Ea.
    destruct (result_addr_spec addr) as [? Hsh]; [done..|].
    rewrite (proj2 (Z.eqb_neq _ _)) by (unfold RMI_INCOMPLETE; lia).
    assert (status_has_level st = false) as El by (destruct_or! Hs; by subst). rewrite El.
    eexists. split; [reflexivity|]. unfold GRANULE_SHIFT.
    rewrite Hst by (extract_simpl; done). rewrite E, El. extract_simpl.
    rewrite (proj2 (Z.eqb_neq _ _)) by (unfold RMI_INCOMPLETE; lia).
    cbn [rc_status make_return_code]. rewrite !u8_small, Hsh by lia. done.
Qed.

Lemma return_code_roundtrip_witness :
  exists x0, pack_struct_return_code (ReturnCode RMI_ERROR_GPT (DataLevelAddr 2 0x80000000)) = Some x0
    /\ unpack_return_code x0 = ReturnCode RMI_ERROR_GPT (DataLevelAddr 2 0x80000000).
Proof. apply return_code_roundtrip. reflexivity. Defined.

(** the makers produce well-formed results for the statuses the RMI defines,
    so their packed forms decode to the arguments. *)
Theorem make_return_code_wf status level addr mem cancel :
  0 <= level < 2 ^ 8 -> 0 <= addr -> 0 <= mem -> 0 <= cancel ->
  (forall rc, make_return_code_level status level = Some rc ->
     return_code_wf rc = true /\ rc = ReturnCode status (DataLevel level)) /\
  (forall rc, make_return_code_level_addr status level addr = Some rc ->
     return_code_wf rc = true /\ rc = ReturnCode status (DataLevelAddr level addr)) /\
  (forall rc, make_return_code_incomplete mem cancel = Some rc ->
     return_code_wf rc = true /\ rc = ReturnCode RMI_INCOMPLETE (DataIncomplete mem cancel)).
Proof.
  intros Hl Ha Hm Hc. unfold make_return_code_level, make_return_code_level_addr,
    make_return_code_incomplete. split_and!; intros rc H; inv_some H; subst rc;
    unfold return_code_wf; cbn [rc_status rc_data make_return_code].
  - apply status_level_cases in E as Hs. rewrite (u8_small status) by lia. rewrite E. split; [|done].
    destruct_or! Hs; subst; cbn; lia.
  - apply status_level_addr_cases in E as Hs. rewrite (u8_small status) by lia. rewrite E, E0.
    split; [|done]. destruct_or! Hs; subst; cbn; lia.
  - unfold RMI_OP_MEM_REQ_RECLAIM, RMI_OP_CAN_CANCEL in *. rewrite (u8_small mem), (u8_small cancel) by lia.
    split; [|done]. change (u8 RMI_INCOMPLETE) with 13. unfold RMI_INCOMPLETE, RMI_ERROR_COUNT_MAX. lia.
Qed.

Lemma make_return_code_wf_witness :
  return_code_wf (ReturnCode RMI_ERROR_RTT (DataLevel 3)) = true /\
  ReturnCode RMI_ERROR_RTT (DataLevel 3) = ReturnCode RMI_ERROR_RTT (DataLevel 3).
Proof.
  apply (make_return_code_wf RMI_ERROR_RTT 3 0 0 0); (lia || reflexivity).
Defined.
