(* ===== verification/Smc.v ===== *)
(** * SMC function identifiers and result registers ([lib/smc])

    How a function identifier is put together, the identifiers of the stateful
    RMI operations, and the registers a handler returns. *)

From Stdlib Require Import ZArith Lia Bool.
From S2P Require Import Prelude.

(** ** Function identifiers *)

Record smc_field := SmcField { sf_mask : Z; sf_shift : Z }.
Definition SMC_TYPE : smc_field := SmcField 1 31.
Definition SMC_CC : smc_field := SmcField 1 30.
Definition SMC_OEN : smc_field := SmcField 0x3F 24.
Definition SMC_FNUM : smc_field := SmcField 0xFFFF 0.
Definition SMC_SVE_HINT : Z := Z.shiftl 1 16.

Definition SMC_FIELD_VAL (f : smc_field) (val : Z) : Z := u32 (Z.shiftl (Z.land val (sf_mask f)) (sf_shift f)).
Definition SMC_SET_FIELD (init_val : Z) (f : smc_field) (val : Z) : Z :=
  Z.lor (Z.land init_val (Z.lxor (SMC_FIELD_VAL f (sf_mask f)) (2 ^ 32 - 1))) (SMC_FIELD_VAL f val).
Definition SMC_GET_FIELD (fid : Z) (f : smc_field) : Z := Z.land (Z.shiftr fid (sf_shift f)) (sf_mask f).

Definition SMC_STD_CALL_BASE : Z := Z.lor (SMC_SET_FIELD 0 SMC_TYPE 1) (SMC_SET_FIELD 0 SMC_OEN 4).

(** Identifiers of the RMI range. *)
Definition SMC64_RMI_FNUM_MIN : Z := 0x150.
Definition SMC64_RMI_FNUM_MAX : Z := 0x211.
Definition SMC64_RMI_FID (offset : Z) : Z :=
  Z.lor (SMC_SET_FIELD SMC_STD_CALL_BASE SMC_CC 1)
        (SMC_SET_FIELD SMC_STD_CALL_BASE SMC_FNUM (SMC64_RMI_FNUM_MIN + offset)).
Definition RMI_HANDLER_ID (fid : Z) : Z := SMC_GET_FIELD fid SMC_FNUM - SMC64_RMI_FNUM_MIN.

Definition SMC_RMI_RTT_DATA_UNMAP : Z := SMC64_RMI_FID 0xA6.
Definition SMC_RMI_RTT_DEV_UNMAP : Z := SMC64_RMI_FID 0xA8.
Definition SMC_RMI_RTT_UNPROT_UNMAP : Z := SMC64_RMI_FID 0xAC.
Definition SMC_RMI_OP_CONTINUE : Z := SMC64_RMI_FID 0xB3.
Definition SMC_RMI_OP_MEM_DONATE : Z := SMC64_RMI_FID 0xB8.
Definition SMC_RMI_OP_MEM_RECLAIM : Z := SMC64_RMI_FID 0xB9.
Definition SMC_RMI_OP_CANCEL : Z := SMC64_RMI_FID 0xBA.

(** ** Results *)

(** The result registers the modelled commands write. *)
Record smc_result := SmcResult { res_x0 : Z; res_x1 : Z; res_x2 : Z; res_x3 : Z; res_x4 : Z }.

Definition set_x0 (v : Z) (r : smc_result) := SmcResult v (res_x1 r) (res_x2 r) (res_x3 r) (res_x4 r).
Definition set_x1 (v : Z) (r : smc_result) := SmcResult (res_x0 r) v (res_x2 r) (res_x3 r) (res_x4 r).
Definition set_x2 (v : Z) (r : smc_result) := SmcResult (res_x0 r) (res_x1 r) v (res_x3 r) (res_x4 r).
Definition set_x3 (v : Z) (r : smc_result) := SmcResult (res_x0 r) (res_x1 r) (res_x2 r) v (res_x4 r).
