(* ===== verification/Bitmap.v ===== *)
(** * Bitmaps ([lib/common/include/bitmap.h])

    Searches and updates of 64-bit bitmap words. *)

From Stdlib Require Import ZArith Lia Bool ZifyBool.
From stdpp Require Import base tactics option list numbers.
From S2P Require Import Prelude.
From S2P Require Import Utils.

Definition BITS_PER_UL : Z := 64.

(** The position of the lowest set bit among [n] bits from [i] up: what
    [__builtin_ctzl] computes, and [__builtin_ffsl] minus one. *)
Fixpoint lowest_set (n : nat) (i : Z) (x : Z) : option Z :=
  match n with
  | O => None
  | S n' => if Z.testbit x i then Some i else lowest_set n' (i + 1) x
  end.

Definition builtin_ctzl (x : Z) : Z := default BITS_PER_UL (lowest_set 64 0 x).

Definition bitmap_find_next_set_bit (bitmap start : Z) : Z :=
  if start <? BITS_PER_UL then
    let bitmap := Z.land bitmap (shl64 (not64 0) start) in
    if negb (bitmap =? 0) then builtin_ctzl bitmap else BITS_PER_UL
  else BITS_PER_UL.

Definition bitmap_find_next_clear_bit (bitmap start : Z) : Z :=
  if start <? BITS_PER_UL then
    let bitmap := Z.land bitmap (shl64 (not64 0) start) in
    if negb (bitmap =? not64 0) then builtin_ctzl (not64 bitmap) else BITS_PER_UL
  else BITS_PER_UL.

(** [bitmap_update]: [None] is -EINVAL; the bitmap is unchanged then. *)
Definition bitmap_update (bitmap : list Z) (bitpos nums : Z) (set : bool) : option (list Z) :=
  if bitpos <? nums * BITS_PER_UL then
    let idx := bitpos / BITS_PER_UL in
    let bit := bitpos mod BITS_PER_UL in
    let mask := shl64 1 bit in
    w ← arr_get bitmap idx;
    let bit_clr := Z.land w mask =? 0 in
    if Bool.eqb bit_clr set then arr_set bitmap idx (Z.lxor w mask) else None
  else None.

(** ** Atomic bit operations ([atomics.h])

    Set returns the old bit and the word with the bit set. *)

Definition atomic_bit_set (w bit : Z) : bool * Z := (Z.testbit w bit, Z.lor w (shl64 1 bit)).
Definition atomic_bit_clear (w bit : Z) : Z := Z.land w (not64 (shl64 1 bit)).

(** ** Searches *)

Lemma lowest_set_spec n i x :
  match lowest_set n i x with
  | Some j => i <= j < i + Z.of_nat n /\ Z.testbit x j = true /\
      forall k, i <= k < j -> Z.testbit x k = false
  | None => forall k, i <= k < i + Z.of_nat n -> Z.testbit x k = false
  end.
Proof.
  revert i. induction n as [|n IH]; intros i; cbn [lowest_set]; [intros k Hk; lia|].
  destruct (Z.testbit x i) eqn:E; [split_and!; try done; try lia; intros; lia|].
  specialize (IH (i + 1)). destruct (lowest_set n (i + 1) x) as [j|].
  - destruct IH as (Hj & Ht & Hlow). split_and!; try done; try lia.
    intros k Hk. destruct (decide (k = i)) as [->|]; [done|apply Hlow; lia].
  - intros k Hk. destruct (decide (k = i)) as [->|]; [done|apply IH; lia].
Qed.

(** The mask of the bits from [start] up. *)
Lemma high_mask_testbit start i :
  0 <= start < 64 -> 0 <= i -> Z.testbit (shl64 (not64 0) start) i = (start <=? i) && (i <? 64).
Proof.
  intros Hs Hi. unfold shl64. rewrite u64_land. change (not64 0) with (Z.ones 64).
  change UINT64_MAX with (Z.ones 64). rewrite Z.land_spec, Z.shiftl_spec by lia.
  rewrite !Z.testbit_ones by lia.
  destruct (Z.leb_spec start i), (Z.ltb_spec i 64), (Z.leb_spec 0 (i - start)), (Z.ltb_spec (i - start) 64),
    (Z.leb_spec 0 i); try lia; done.
Qed.

(** [bitmap_find_next_set_bit] returns the least set bit at or after [start],
    and 64 exactly when there is none. *)
Theorem bitmap_find_next_set_bit_correct bitmap start :
  0 <= start -> in_u64 bitmap ->
  let r := bitmap_find_next_set_bit bitmap start in
  (r = BITS_PER_UL /\ forall i, start <= i < BITS_PER_UL -> Z.testbit bitmap i = false) \/
  (start <= r < BITS_PER_UL /\ Z.testbit bitmap r = true /\
   forall i, start <= i < r -> Z.testbit bitmap i = false).
Proof.
  intros Hs Hb r. unfold r, bitmap_find_next_set_bit, BITS_PER_UL.
  destruct (Z.ltb_spec start 64); [|left; split; [done|intros; lia]].
  set (m := Z.land bitmap _).
  assert (Hm : forall i, 0 <= i -> Z.testbit m i = Z.testbit bitmap i && ((start <=? i) && (i <? 64))).
  { intros i Hi. unfold m. by rewrite Z.land_spec, high_mask_testbit by lia. }
  pose proof (lowest_set_spec 64 0 m) as Hl. unfold builtin_ctzl.
  destruct (Z.eqb_spec m 0) as [E|E]; cbn [negb].
  - left. split; [done|]. intros i Hi. pose proof (Hm i ltac:(lia)) as H1. rewrite E, Z.bits_0 in H1.
    destruct (Z.testbit bitmap i); [lia|done].
  - destruct (lowest_set 64 0 m) as [j|]; cbn [from_option id].
    + right. destruct Hl as (Hj & Ht & Hlow). rewrite Hm in Ht by lia.
      apply andb_true_iff in Ht as [Ht Hr]. split_and!; try done; try lia.
      intros i Hi. pose proof (Hlow i ltac:(lia)) as H1. rewrite Hm in H1 by lia.
      destruct (Z.testbit bitmap i); [lia|done].
    + exfalso. apply E. apply Z.bits_inj'. intros i Hi. rewrite Z.bits_0.
      destruct (decide (i < 64)); [apply Hl; lia|]. rewrite Hm by lia.
      destruct (Z.testbit bitmap i); [lia|done].
Qed.

Lemma bitmap_find_next_set_bit_correct_witness :
  (bitmap_find_next_set_bit 0x90 5 = BITS_PER_UL /\
     forall i, 5 <= i < BITS_PER_UL -> Z.testbit 0x90 i = false) \/
  (5 <= bitmap_find_next_set_bit 0x90 5 < BITS_PER_UL /\
     Z.testbit 0x90 (bitmap_find_next_set_bit 0x90 5) = true /\
     forall i, 5 <= i < bitmap_find_next_set_bit 0x90 5 -> Z.testbit 0x90 i = false).
Proof. apply (bitmap_find_next_set_bit_correct 0x90 5); [lia|cbv; split; congruence]. Defined.



(** ** Updates *)

(** Bit [pos] of an array of words. *)
Definition bit_at (bitmap : list Z) (pos : Z) : bool :=
  match arr_get bitmap (pos / BITS_PER_UL) with
  | Some w => Z.testbit w (pos mod BITS_PER_UL)
  | None => false
  end.

Lemma one_bit_testbit b i : 0 <= b < 64 -> 0 <= i -> Z.testbit (shl64 1 b) i = (i =? b).
Proof.
  intros Hb Hi. unfold shl64. rewrite Z.shiftl_1_l, u64_small.
  - rewrite Z.pow2_bits_eqb by lia. by rewrite Z.eqb_sym.
  - unfold in_u64. split; [apply Z.pow_nonneg; lia|apply Z.pow_lt_mono_r; lia].
Qed.

Lemma land_one_bit w b : 0 <= b < 64 -> (Z.land w (shl64 1 b) =? 0) = negb (Z.testbit w b).
Proof.
  intros Hb. destruct (Z.testbit w b) eqn:E; cbn [negb].
  - apply Z.eqb_neq. intros H. pose proof (f_equal (fun z => Z.testbit z b) H) as H1. cbn in H1.
    rewrite Z.land_spec, one_bit_testbit, E, Z.eqb_refl, Z.bits_0 in H1 by lia. done.
  - apply Z.eqb_eq, Z.bits_inj'. intros i Hi. rewrite Z.land_spec, one_bit_testbit, Z.bits_0 by lia.
    destruct (Z.eqb_spec i b) as [->|]; [by rewrite E|apply andb_false_r].
Qed.

(** Updating word [pos / 64] changes bit [pos] and no other. *)
Lemma bit_at_set bitmap bitmap' pos w w' q :
  0 <= pos -> 0 <= q -> arr_get bitmap (pos / 64) = Some w -> arr_set bitmap (pos / 64) w' = Some bitmap' ->
  (forall i, 0 <= i -> i <> pos mod 64 -> Z.testbit w' i = Z.testbit w i) ->
  bit_at bitmap' q = if q =? pos then Z.testbit w' (pos mod 64) else bit_at bitmap q.
Proof.
  intros Hp Hq Hg Hs Hw. unfold bit_at, BITS_PER_UL. rewrite (arr_get_set _ _ _ _ _ Hs).
  pose proof (Z.div_mod pos 64 ltac:(lia)). pose proof (Z.div_mod q 64 ltac:(lia)).
  pose proof (Z.mod_pos_bound q 64 ltac:(lia)).
  destruct (Z.eqb_spec (q / 64) (pos / 64)) as [Hd|Hd].
  - rewrite Hd, Hg. destruct (Z.eqb_spec q pos) as [->|Hne]; [done|].
    apply Hw; [lia|]. intros Hm. apply Hne. lia.
  - destruct (Z.eqb_spec q pos) as [->|]; [done|]. done.
Qed.

(** [bitmap_update] succeeds exactly when the position is in the array and the
    bit is not already in the requested state; it then changes that bit only. *)
Theorem bitmap_update_correct bitmap pos set :
  0 <= pos ->
  match bitmap_update bitmap pos (Z.of_nat (length bitmap)) set with
  | Some bitmap' => pos < 64 * Z.of_nat (length bitmap) /\ bit_at bitmap pos = negb set /\
      length bitmap' = length bitmap /\
      forall q, 0 <= q -> bit_at bitmap' q = if q =? pos then set else bit_at bitmap q
  | None => 64 * Z.of_nat (length bitmap) <= pos \/ bit_at bitmap pos = set
  end.
Proof.
  intros Hp. unfold bitmap_update, BITS_PER_UL.
  destruct (Z.ltb_spec pos (Z.of_nat (length bitmap) * 64)); [|left; lia].
  assert (Hidx : 0 <= pos / 64 < Z.of_nat (length bitmap))
    by (split; [apply Z.div_pos; lia|apply Z.div_lt_upper_bound; lia]).
  destruct (arr_get_some bitmap (pos / 64) Hidx) as [w Hw]. rewrite Hw. cbn [mbind option_bind].
  pose proof (Z.mod_pos_bound pos 64 ltac:(lia)) as Hm.
  rewrite land_one_bit by done.
  assert (Hba : bit_at bitmap pos = Z.testbit w (pos mod 64)) by (unfold bit_at, BITS_PER_UL; by rewrite Hw).
  destruct (Bool.eqb (negb (Z.testbit w (pos mod 64))) set) eqn:E.
  - apply Bool.eqb_prop in E. rewrite arr_set_some by done.
    set (bitmap' := <[_:=_]> bitmap).
    assert (Hs : arr_set bitmap (pos / 64) (Z.lxor w (shl64 1 (pos mod 64))) = Some bitmap')
      by (by apply arr_set_some).
    split_and!; [lia|rewrite Hba, <- E; by rewrite negb_involutive|by eapply arr_set_length|].
    intros q Hq. rewrite (bit_at_set _ _ _ _ _ q Hp Hq Hw Hs).
    + destruct (q =? pos); [|done]. rewrite Z.lxor_spec, one_bit_testbit, Z.eqb_refl by lia.
      by rewrite xorb_true_r.
    + intros i Hi Hne. rewrite Z.lxor_spec, one_bit_testbit, (proj2 (Z.eqb_neq _ _)) by (done || lia).
      apply xorb_false_r.
  - right. rewrite Hba. apply Bool.eqb_false_iff in E. by destruct (Z.testbit w (pos mod 64)), set.
Qed.

Lemma bitmap_update_correct_witness :
  exists bitmap', bitmap_update [0; 0] 70 2 true = Some bitmap' /\ bit_at bitmap' 70 = true.
Proof.
  pose proof (bitmap_update_correct [0; 0] 70 true ltac:(lia)) as H.
  change (bitmap_update [0; 0] 70 (Z.of_nat (length [0; 0])) true) with (Some [0; 64]) in H.
  exists [0; 64]. split; [reflexivity|]. destruct H as (_ & _ & _ & H). exact (H 70 ltac:(lia)).
Defined.

(** ** Atomic updates of a bitmap *)

(** Setting bit [pos]: the old bit is reported, and no other bit changes. *)
Lemma bitmap_set_bit bm pos :
  Forall in_u64 bm -> 0 <= pos < 64 * Z.of_nat (length bm) ->
  exists w bm', arr_get bm (pos / 64) = Some w /\ fst (atomic_bit_set w (pos mod 64)) = bit_at bm pos /\
    arr_set bm (pos / 64) (snd (atomic_bit_set w (pos mod 64))) = Some bm' /\
    Forall in_u64 bm' /\ length bm' = length bm /\
    (forall u, 0 <= u -> bit_at bm' u = bit_at bm u || (u =? pos)) /\ (bit_at bm pos = true -> bm' = bm).
Proof.
  intros Hwf Hpos. assert (Hi : 0 <= pos / 64 < Z.of_nat (length bm))
    by (split; [apply Z.div_pos; lia|apply Z.div_lt_upper_bound; lia]).
  pose proof (Z.mod_pos_bound pos 64 ltac:(lia)) as Hb. destruct (arr_get_some bm _ Hi) as [w Hw].
  assert (Hlk : bm !! Z.to_nat (pos / 64) = Some w) by (unfold arr_get in Hw; by inv_some Hw).
  assert (Hw64 : in_u64 w) by (rewrite Forall_lookup in Hwf; by eapply Hwf).
  cbn [atomic_bit_set fst snd]. set (w' := Z.lor w (shl64 1 (pos mod 64))).
  assert (Hw'64 : in_u64 w') by (unfold in_u64, w'; apply lor_range; [lia|exact Hw64|apply u64_range]).
  assert (Hu : bit_at bm pos = Z.testbit w (pos mod 64)) by (unfold bit_at, BITS_PER_UL; by rewrite Hw).
  assert (Ht : forall i, 0 <= i -> Z.testbit w' i = Z.testbit w i || (i =? pos mod 64))
    by (intros i Hi0; unfold w'; by rewrite Z.lor_spec, one_bit_testbit by lia).
  pose proof (arr_set_some bm (pos / 64) w' Hi) as Hs. eexists w, _. split_and!; [done|done|exact Hs| | | |].
  - by apply Forall_insert.
  - apply length_insert.
  - intros u Hu0. rewrite (bit_at_set bm _ pos w w' u ltac:(lia) Hu0 Hw Hs).
    + rewrite Ht, Z.eqb_refl by lia. destruct (Z.eqb_spec u pos); by rewrite ?orb_true_r, ?orb_false_r.
    + intros i Hi0 Hne. by rewrite Ht, (proj2 (Z.eqb_neq _ _) Hne), orb_false_r by lia.
  - intros Huse. rewrite Hu in Huse. assert (w' = w) as ->; [|by apply list_insert_id].
    apply Z.bits_inj'. intros i Hi0. rewrite Ht by done. destruct (Z.eqb_spec i (pos mod 64)) as [->|]; [by rewrite Huse|apply orb_false_r].
Qed.

Lemma not64_range x : in_u64 x -> in_u64 (not64 x).
Proof.
  intros Hx. rewrite <- (land_ones_small 64 x) by (unfold in_u64 in Hx; lia). unfold not64, in_u64. change UINT64_MAX with (Z.ones 64).
  replace (Z.lxor (Z.land x (Z.ones 64)) (Z.ones 64)) with (Z.land (Z.lnot x) (Z.ones 64)).
  - rewrite Z.land_ones by lia. apply Z.mod_pos_bound. lia.
  - apply Z.bits_inj'. intros i Hi0. rewrite Z.lxor_spec, !Z.land_spec, Z.lnot_spec by lia.
    by destruct (Z.testbit x i), (Z.testbit (Z.ones 64) i).
Qed.

(** Clearing bit [pos] changes no other bit. *)
Lemma bitmap_clear_bit bm pos :
  Forall in_u64 bm -> 0 <= pos < 64 * Z.of_nat (length bm) ->
  exists w bm', arr_get bm (pos / 64) = Some w /\ arr_set bm (pos / 64) (atomic_bit_clear w (pos mod 64)) = Some bm' /\
    Forall in_u64 bm' /\ length bm' = length bm /\
    forall u, 0 <= u -> bit_at bm' u = bit_at bm u && negb (u =? pos).
Proof.
  intros Hwf Hpos. assert (Hi : 0 <= pos / 64 < Z.of_nat (length bm))
    by (split; [apply Z.div_pos; lia|apply Z.div_lt_upper_bound; lia]).
  pose proof (Z.mod_pos_bound pos 64 ltac:(lia)) as Hb. destruct (arr_get_some bm _ Hi) as [w Hw].
  assert (Hw64 : in_u64 w) by (unfold arr_get in Hw; inv_some Hw; rewrite Forall_lookup in Hwf; by eapply Hwf).
  unfold atomic_bit_clear. set (w' := Z.land w (not64 (shl64 1 (pos mod 64)))).
  assert (Hw'64 : in_u64 w') by (unfold w'; apply land_range; [lia|apply not64_range, u64_range]).
  assert (Ht : forall i, 0 <= i -> Z.testbit w' i = Z.testbit w i && negb (i =? pos mod 64)).
  { intros i Hi0. destruct (decide (i < 64)).
    - unfold w', not64. rewrite Z.land_spec, Z.lxor_spec, one_bit_testbit by lia.
      change UINT64_MAX with (Z.ones 64). by rewrite Z.ones_spec_low, xorb_true_r by lia.
    - by rewrite (testbit_small 64 w'), (testbit_small 64 w) by (done || lia). }
  pose proof (arr_set_some bm (pos / 64) w' Hi) as Hs. eexists w, _. split_and!; [done|exact Hs| | |].
  - by apply Forall_insert.
  - apply length_insert.
  - intros u Hu0. rewrite (bit_at_set bm _ pos w w' u ltac:(lia) Hu0 Hw Hs).
    + rewrite Ht, Z.eqb_refl, andb_false_r by lia. destruct (Z.eqb_spec u pos); by rewrite ?andb_false_r, ?andb_true_r.
    + intros i Hi0 Hne. by rewrite Ht, (proj2 (Z.eqb_neq _ _) Hne), andb_true_r by lia.
Qed.
