(* ===== verification/Granule.v ===== *)
(** * Granule descriptors ([lib/granule/include])

    A [struct granule] is a 16-bit word, a [struct dev_granule] an 8-bit one,
    with the same fields at other positions: lock bit, state and reference
    count.  The header functions of [granule.h] and [dev_granule.h] are the same
    code over the two words, so they are written once over a layout.  The
    refinement theorem says that they implement operations on the triple
    (locked, state, refcount). *)

From Stdlib Require Import ZArith Lia Bool ZifyBool.
From stdpp Require Import base tactics option list numbers.
From S2P Require Import Prelude.
From S2P Require Import Utils.

(** ** Layouts *)

Record layout := Layout {
  l_bits : Z;          (* width of the descriptor word *)
  l_lock : Z;          (* position of the lock bit *)
  l_state : regfield;
  l_ref : regfield
}.

Definition GRN : layout := Layout 16 15 (Field 10 5) (Field 0 10).
Definition DEV_GRN : layout := Layout 8 7 (Field 3 3) (Field 0 3).

Definition GRANULE_STATE_NS : Z := 0.
Definition GRANULE_STATE_DELEGATED : Z := 1.
Definition GRANULE_STATE_RD : Z := 2.
Definition GRANULE_STATE_REC : Z := 3.
Definition GRANULE_STATE_REC_AUX : Z := 4.
Definition GRANULE_STATE_DATA : Z := 5.
Definition GRANULE_STATE_RTT : Z := 6.
Definition GRANULE_STATE_PDEV : Z := 7.
Definition GRANULE_STATE_PDEV_AUX : Z := 8.
Definition GRANULE_STATE_VDEV : Z := 9.
Definition GRANULE_STATE_VDEV_AUX : Z := 10.
Definition GRANULE_STATE_PARTIAL : Z := 11.
Definition GRANULE_STATE_INTERNAL : Z := 12.
Definition GRANULE_STATE_PSMMU_ST_L2 : Z := 13.
Definition GRANULE_STATE_RD_AUX : Z := 14.
Definition GRANULE_STATE_LAST : Z := GRANULE_STATE_RD_AUX.

Definition DEV_GRANULE_STATE_NS : Z := 0.
Definition DEV_GRANULE_STATE_DELEGATED : Z := 1.
Definition DEV_GRANULE_STATE_MAPPED : Z := 2.
Definition DEV_GRANULE_STATE_PARTIAL : Z := 3.

Definition MAX_AUX_PLANES : Z := 3.
Definition MAX_TOTAL_PLANES : Z := MAX_AUX_PLANES + 1.
Definition RTT_REFCOUNT_MAX : Z := 512.
Definition PSMMU_ST_L2_REFCOUNT_MAX : Z := 64.
Definition REFCOUNT_MAX (L : layout) : Z := 2 ^ f_width (l_ref L) - 1.

(** ** Word operations *)

Section Words.
Context (L : layout).
Implicit Types (d : Z).

Definition lock_bit : Z := Z.shiftl 1 (l_lock L).
Definition state_mask : Z := MASK (l_state L).
Definition ref_mask : Z := MASK (l_ref L).

Definition LOCKED d : bool := negb (Z.land d lock_bit =? 0).
Definition REFCOUNT d : Z := Z.land d ref_mask.
Definition STATE d : Z := EXTRACT (l_state L) d.

(** [bitlock_try_acquire]: fetch-or of the lock bit; the old word decides. *)
Definition bitlock_try_acquire d : bool * Z := (Z.land d lock_bit =? 0, Z.lor d lock_bit).
(** [bitlock_release]: fetch-and with the complement, at the word's width. *)
Definition bitlock_release d : Z := Z.land d (Z.lxor lock_bit (2 ^ l_bits L - 1)).
(** [bitlock_wait_while]: the loop leaves when the masked word differs. *)
Definition bitlock_waiting (mask value d : Z) : bool := Z.land d mask =? value.

Definition get_state d : option Z := assert (LOCKED d) ;; Some (STATE d).

(** [set_state]: EOR with (old state ^ new state), other bits zero. *)
Definition set_state d (state : Z) : option Z :=
  assert (LOCKED d) ;;
  let val := Z.land d state_mask in
  let val := Z.lxor val (Z.shiftl state (f_shift (l_state L)) mod 2 ^ l_bits L) in
  Some (Z.lxor d val).

(** Fetch-add of [val]; the assertion is on the old count. *)
Definition refcount_inc d (val : Z) : option Z :=
  assert (LOCKED d) ;;
  let old_refcount := Z.land d ref_mask in
  assert (old_refcount + val <=? REFCOUNT_MAX L) ;;
  Some ((d + val) mod 2 ^ l_bits L).

Definition refcount_dec d (val : Z) : option Z :=
  assert (LOCKED d) ;;
  let old_refcount := Z.land d ref_mask in
  assert (val <=? old_refcount) ;;
  Some ((d + (- val) mod 2 ^ l_bits L) mod 2 ^ l_bits L).

(** The release variant needs no lock. *)
Definition put_release d : option Z :=
  let old_refcount := Z.land d ref_mask in
  assert (negb (old_refcount =? 0)) ;;
  Some ((d + (- 1) mod 2 ^ l_bits L) mod 2 ^ l_bits L).

Definition refcount_read d : Z := REFCOUNT d.
Definition refcount_read_acquire d : option Z := assert (LOCKED d) ;; Some (REFCOUNT d).

End Words.

(** ** State invariants *)

(** [__granule_assert_unlocked_invariants]: [true] when no assertion fires. *)
Definition granule_unlocked_invariants (d state : Z) : bool :=
  let r := REFCOUNT GRN d in
  if state =? GRANULE_STATE_NS then r =? 0
  else if state =? GRANULE_STATE_DELEGATED then r =? 0
  else if state =? GRANULE_STATE_PARTIAL then r =? 0
  else if state =? GRANULE_STATE_RD then true
  else if state =? GRANULE_STATE_REC then r <=? 1
  else if state =? GRANULE_STATE_DATA then r <? MAX_TOTAL_PLANES
  else if state =? GRANULE_STATE_RTT then r <=? RTT_REFCOUNT_MAX
  else if state =? GRANULE_STATE_REC_AUX then r =? 0
  else if state =? GRANULE_STATE_PDEV then r <=? 1
  else if state =? GRANULE_STATE_PDEV_AUX then r =? 0
  else if state =? GRANULE_STATE_VDEV then r <=? 1
  else if state =? GRANULE_STATE_VDEV_AUX then r =? 0
  else if state =? GRANULE_STATE_INTERNAL then r =? 0
  else if state =? GRANULE_STATE_PSMMU_ST_L2 then r <=? PSMMU_ST_L2_REFCOUNT_MAX
  else if state =? GRANULE_STATE_RD_AUX then r =? 0
  else false.

Definition dev_granule_unlocked_invariants (d state : Z) : bool :=
  let r := REFCOUNT DEV_GRN d in
  if state =? DEV_GRANULE_STATE_NS then r =? 0
  else if state =? DEV_GRANULE_STATE_DELEGATED then r =? 0
  else if state =? DEV_GRANULE_STATE_PARTIAL then r =? 0
  else if state =? DEV_GRANULE_STATE_MAPPED then true
  else false.

(** ** The header functions *)

(** [granule_lock]: waits for the lock; a granule whose lock is already held is
    one the call blocks on, [None] here as for a failed assertion. *)
Definition granule_lock (d expected_state : Z) : option Z :=
  let '(ok, d) := bitlock_try_acquire GRN d in
  assert ok ;;
  state ← get_state GRN d;
  assert (state =? expected_state) ;;
  assert (granule_unlocked_invariants d expected_state) ;;
  Some d.

Definition granule_unlock (d : Z) : option Z :=
  state ← get_state GRN d;
  assert (granule_unlocked_invariants d state) ;;
  Some (bitlock_release GRN d).

Definition granule_unlock_transition (d new_state : Z) : option Z :=
  state ← get_state GRN d;
  assert (negb (new_state =? GRANULE_STATE_DELEGATED)
          || (state =? GRANULE_STATE_NS) || (state =? GRANULE_STATE_PARTIAL)) ;;
  d ← set_state GRN d new_state;
  granule_unlock d.

Definition granule_unlock_transition_to_delegated (d : Z) : option Z :=
  current_state ← get_state GRN d;
  assert (negb (current_state =? GRANULE_STATE_DELEGATED)) ;;
  assert (negb (current_state =? GRANULE_STATE_NS)) ;;
  d ← set_state GRN d GRANULE_STATE_DELEGATED;
  granule_unlock d.

Definition atomic_granule_get (d : Z) : option Z := refcount_inc GRN d 1.
Definition atomic_granule_put (d : Z) : option Z := refcount_dec GRN d 1.
Definition granule_refcount_inc (d val : Z) : option Z := refcount_inc GRN d val.
Definition granule_refcount_dec (d val : Z) : option Z := refcount_dec GRN d val.
Definition atomic_granule_put_release (d : Z) : option Z := put_release GRN d.

Definition dev_granule_lock (d expected_state : Z) : option Z :=
  let '(ok, d) := bitlock_try_acquire DEV_GRN d in
  assert ok ;;
  state ← get_state DEV_GRN d;
  assert (state =? expected_state) ;;
  assert (dev_granule_unlocked_invariants d expected_state) ;;
  Some d.

Definition dev_granule_unlock (d : Z) : option Z :=
  state ← get_state DEV_GRN d;
  assert (dev_granule_unlocked_invariants d state) ;;
  Some (bitlock_release DEV_GRN d).

Definition dev_granule_unlock_transition (d new_state : Z) : option Z :=
  d ← set_state DEV_GRN d new_state;
  dev_granule_unlock d.

Definition atomic_dev_granule_get (d : Z) : option Z := refcount_inc DEV_GRN d 1.
Definition atomic_dev_granule_put (d : Z) : option Z := refcount_dec DEV_GRN d 1.
Definition atomic_dev_granule_put_release (d : Z) : option Z := put_release DEV_GRN d.

(** ** The abstract granule *)

Record agranule := AGranule { a_locked : bool; a_state : Z; a_ref : Z }.

#[export] Instance agranule_eq_dec : EqDecision agranule.
Proof. solve_decision. Defined.

Definition a_wf (L : layout) (a : agranule) : Prop :=
  0 <= a_state a < 2 ^ f_width (l_state L) /\ 0 <= a_ref a <= REFCOUNT_MAX L.

Definition encode (L : layout) (a : agranule) : Z :=
  (if a_locked a then 2 ^ l_lock L else 0) + a_state a * 2 ^ f_shift (l_state L) + a_ref a.

(** The two layouts of the code. *)
Definition known (L : layout) : Prop := L = GRN \/ L = DEV_GRN.

(** ** Words split at a bit position *)

Lemma split_testbit n a r i :
  0 <= n -> 0 <= r < 2 ^ n -> 0 <= i ->
  Z.testbit (a * 2 ^ n + r) i = if i <? n then Z.testbit r i else Z.testbit a (i - n).
Proof.
  intros Hn Hr Hi. destruct (Z.ltb_spec i n).
  - rewrite <- (Z.mod_pow2_bits_low _ n i) by lia.
    by rewrite Z.add_comm, Z.mod_add, Z.mod_small by lia.
  - replace i with (i - n + n) at 1 by lia. rewrite <- Z.div_pow2_bits by lia.
    by rewrite Z.div_add_l, Z.div_small, Z.add_0_r by lia.
Qed.

Lemma split_testbit_hi n b i : 0 <= n -> 0 <= i ->
  Z.testbit (b * 2 ^ n) i = if i <? n then false else Z.testbit b (i - n).
Proof.
  intros Hn Hi. rewrite <- (Z.add_0_r (b * 2 ^ n)), split_testbit by lia.
  destruct (i <? n); [apply Z.bits_0|done].
Qed.

Ltac split_bits n :=
  apply Z.bits_inj'; intros i Hi;
  rewrite ?Z.land_spec, ?Z.lor_spec, ?Z.lxor_spec, ?split_testbit, ?split_testbit_hi,
    ?Z.lxor_spec, ?Z.lor_spec, ?Z.land_spec by lia;
  destruct (i <? n);
  rewrite ?andb_false_r, ?orb_false_r, ?xorb_false_r; done.

Lemma land_split n a r b : 0 <= n -> 0 <= r < 2 ^ n ->
  Z.land (a * 2 ^ n + r) (b * 2 ^ n) = Z.land a b * 2 ^ n.
Proof. intros. split_bits n. Qed.

Lemma lor_split n a r b : 0 <= n -> 0 <= r < 2 ^ n ->
  Z.lor (a * 2 ^ n + r) (b * 2 ^ n) = Z.lor a b * 2 ^ n + r.
Proof. intros. split_bits n. Qed.

Lemma lxor_split n a r b : 0 <= n -> 0 <= r < 2 ^ n ->
  Z.lxor (a * 2 ^ n + r) (b * 2 ^ n) = Z.lxor a b * 2 ^ n + r.
Proof. intros. split_bits n. Qed.

Lemma land_split_keep n a r b c : 0 <= n -> 0 <= r < 2 ^ n -> c = b * 2 ^ n + (2 ^ n - 1) ->
  Z.land (a * 2 ^ n + r) c = Z.land a b * 2 ^ n + r.
Proof.
  intros Hn Hr ->. assert (0 < 2 ^ n) by (apply Z.pow_pos_nonneg; lia).
  apply Z.bits_inj'; intros i Hi. rewrite Z.land_spec, !split_testbit, Z.land_spec by lia.
  destruct (Z.ltb_spec i n); [|done].
  replace (2 ^ n - 1) with (Z.ones n) by (rewrite Z.ones_equiv; lia).
  by rewrite Z.ones_spec_low, andb_true_r by lia.
Qed.

(** Exhaustive checks over a small range. *)
Lemma small_forall (n : Z) (P : Z -> bool) x :
  forallb P (seqZ 0 n) = true -> 0 <= x < n -> P x = true.
Proof.
  intros H Hx. rewrite forallb_forall in H. apply H.
  apply list_elem_of_In, elem_of_seqZ. lia.
Qed.

(** The part of the word above the reference count. *)
Definition hi (L : layout) (a : agranule) : Z :=
  (if a_locked a then 2 ^ (l_lock L - f_shift (l_state L)) else 0) + a_state a.

Lemma encode_hi L a : known L -> encode L a = hi L a * 2 ^ f_shift (l_state L) + a_ref a.
Proof. intros [-> | ->]; unfold encode, hi; cbn; destruct (a_locked a); lia. Qed.

Lemma encode_refcount L a : known L -> a_wf L a -> REFCOUNT L (encode L a) = a_ref a.
Proof.
  intros HL [_ Hr]. rewrite encode_hi by done. unfold REFCOUNT, ref_mask, REFCOUNT_MAX in *.
  assert (Hm : MASK (l_ref L) = Z.ones (f_shift (l_state L))) by (destruct HL as [-> | ->]; reflexivity).
  rewrite Hm, Z.land_ones by (destruct HL as [-> | ->]; cbn; lia).
  rewrite Z.add_comm, Z.mod_add, Z.mod_small; destruct HL as [-> | ->]; cbn in *; lia.
Qed.

Lemma encode_state L a : known L -> a_wf L a -> STATE L (encode L a) = a_state a.
Proof.
  intros HL [Hs Hr]. rewrite encode_hi by done. unfold STATE.
  rewrite EXTRACT_spec by (destruct HL as [-> | ->]; repeat split; cbn; lia).
  unfold REFCOUNT_MAX in Hr. rewrite Z.div_add_l, Z.div_small, Z.add_0_r
    by (destruct HL as [-> | ->]; cbn in *; lia).
  unfold hi. destruct HL as [-> | ->], (a_locked a); cbn in *; Z.to_euclidean_division_equations; lia.
Qed.

Lemma encode_lock_word L a :
  known L -> a_wf L a -> Z.land (encode L a) (lock_bit L) = if a_locked a then lock_bit L else 0.
Proof.
  intros HL [Hs Hr]. rewrite encode_hi by done. unfold lock_bit, REFCOUNT_MAX, hi in *.
  destruct HL as [-> | ->]; cbn -[Z.pow Z.land Z.mul] in *.
  - change (Z.shiftl 1 15) with (32 * 2 ^ 10). rewrite land_split by lia.
    set (P := fun st => (Z.land (2 ^ (15 - 10) + st) 32 =? 32) && (Z.land (0 + st) 32 =? 0)).
    assert (HP : P (a_state a) = true) by (apply (small_forall 32); [reflexivity|lia]).
    unfold P in HP. destruct (a_locked a); lia.
  - change (Z.shiftl 1 7) with (16 * 2 ^ 3). rewrite land_split by lia.
    set (P := fun st => (Z.land (2 ^ (7 - 3) + st) 16 =? 16) && (Z.land (0 + st) 16 =? 0)).
    assert (HP : P (a_state a) = true) by (apply (small_forall 8); [reflexivity|lia]).
    unfold P in HP. destruct (a_locked a); lia.
Qed.

Lemma encode_locked L a : known L -> a_wf L a -> LOCKED L (encode L a) = a_locked a.
Proof.
  intros HL Ha. unfold LOCKED. rewrite encode_lock_word by done.
  destruct (a_locked a), HL as [-> | ->]; reflexivity.
Qed.

(** ** Each word operation refines the abstract one *)

Lemma try_acquire_refines L a :
  known L -> a_wf L a ->
  bitlock_try_acquire L (encode L a) =
    (negb (a_locked a), encode L (AGranule true (a_state a) (a_ref a))).
Proof.
  intros HL Ha. unfold bitlock_try_acquire. rewrite encode_lock_word by done.
  f_equal; [destruct (a_locked a), HL as [-> | ->]; reflexivity|].
  destruct Ha as [Hs Hr]. rewrite !encode_hi by done. unfold lock_bit, REFCOUNT_MAX, hi in *.
  destruct HL as [-> | ->]; cbn -[Z.pow Z.lor Z.mul] in *.
  - change (Z.shiftl 1 15) with (32 * 2 ^ 10). rewrite lor_split by lia. f_equal. f_equal.
    set (P := fun st => (Z.lor (2 ^ (15 - 10) + st) 32 =? 2 ^ (15 - 10) + st)
                        && (Z.lor (0 + st) 32 =? 2 ^ (15 - 10) + st)).
    assert (HP : P (a_state a) = true) by (apply (small_forall 32); [reflexivity|lia]).
    unfold P in HP. destruct (a_locked a); lia.
  - change (Z.shiftl 1 7) with (16 * 2 ^ 3). rewrite lor_split by lia. f_equal. f_equal.
    set (P := fun st => (Z.lor (2 ^ (7 - 3) + st) 16 =? 2 ^ (7 - 3) + st)
                        && (Z.lor (0 + st) 16 =? 2 ^ (7 - 3) + st)).
    assert (HP : P (a_state a) = true) by (apply (small_forall 8); [reflexivity|lia]).
    unfold P in HP. destruct (a_locked a); lia.
Qed.

Lemma release_refines L a :
  known L -> a_wf L a ->
  bitlock_release L (encode L a) = encode L (AGranule false (a_state a) (a_ref a)).
Proof.
  intros HL [Hs Hr]. rewrite !encode_hi by done. unfold bitlock_release, lock_bit, REFCOUNT_MAX, hi in *.
  destruct HL as [-> | ->]; cbn -[Z.pow Z.land Z.mul Z.lxor] in *.
  - rewrite (land_split_keep 10 _ _ 31) by (lia || reflexivity). f_equal. f_equal.
    set (P := fun st => (Z.land (2 ^ (15 - 10) + st) 31 =? st) && (Z.land (0 + st) 31 =? st)).
    assert (HP : P (a_state a) = true) by (apply (small_forall 32); [reflexivity|lia]).
    unfold P in HP. destruct (a_locked a); lia.
  - rewrite (land_split_keep 3 _ _ 15) by (lia || reflexivity). f_equal. f_equal.
    set (P := fun st => (Z.land (2 ^ (7 - 3) + st) 15 =? st) && (Z.land (0 + st) 15 =? st)).
    assert (HP : P (a_state a) = true) by (apply (small_forall 8); [reflexivity|lia]).
    unfold P in HP. destruct (a_locked a); lia.
Qed.

Lemma set_state_refines L a s :
  known L -> a_wf L a -> 0 <= s < 2 ^ f_width (l_state L) ->
  set_state L (encode L a) s =
    if a_locked a then Some (encode L (AGranule true s (a_ref a))) else None.
Proof.
  intros HL Ha Hs. unfold set_state. rewrite encode_locked by done.
  destruct (a_locked a) eqn:Hlk; [|done]. f_equal. destruct Ha as [Hst Hr].
  rewrite !encode_hi by done. unfold state_mask, REFCOUNT_MAX, hi in *. rewrite Hlk.
  destruct HL as [-> | ->]; cbn -[Z.pow Z.land Z.mul Z.lxor Z.shiftl Z.modulo MASK] in *.
  - change (MASK (Field 10 5)) with (31 * 2 ^ 10).
    rewrite land_split, Z.shiftl_mul_pow2, Z.mod_small by lia.
    rewrite <- (Z.add_0_r (Z.land _ _ * 2 ^ 10)), lxor_split, Z.add_0_r, lxor_split by lia.
    f_equal. f_equal.
    set (P := fun st => forallb (fun s =>
      Z.lxor (2 ^ (15 - 10) + st) (Z.lxor (Z.land (2 ^ (15 - 10) + st) 31) s) =? 2 ^ (15 - 10) + s)
      (seqZ 0 32)).
    assert (HP : P (a_state a) = true) by (apply (small_forall 32); [vm_compute; reflexivity|lia]).
    apply Z.eqb_eq. exact (small_forall 32 _ s HP Hs).
  - change (MASK (Field 3 3)) with (7 * 2 ^ 3).
    rewrite land_split, Z.shiftl_mul_pow2, Z.mod_small by lia.
    rewrite <- (Z.add_0_r (Z.land _ _ * 2 ^ 3)), lxor_split, Z.add_0_r, lxor_split by lia.
    f_equal. f_equal.
    set (P := fun st => forallb (fun s =>
      Z.lxor (2 ^ (7 - 3) + st) (Z.lxor (Z.land (2 ^ (7 - 3) + st) 7) s) =? 2 ^ (7 - 3) + s)
      (seqZ 0 8)).
    assert (HP : P (a_state a) = true) by (apply (small_forall 8); [vm_compute; reflexivity|lia]).
    apply Z.eqb_eq. exact (small_forall 8 _ s HP Hs).
Qed.

Lemma refcount_inc_refines L a v :
  known L -> a_wf L a -> 0 <= v ->
  refcount_inc L (encode L a) v =
    if a_locked a && (a_ref a + v <=? REFCOUNT_MAX L)
    then Some (encode L (AGranule true (a_state a) (a_ref a + v))) else None.
Proof.
  intros HL Ha Hv. unfold refcount_inc. rewrite encode_locked by done.
  change (Z.land (encode L a) (ref_mask L)) with (REFCOUNT L (encode L a)).
  rewrite encode_refcount by done. destruct (a_locked a) eqn:Hlk; [|done]. cbn [andb].
  destruct (a_ref a + v <=? REFCOUNT_MAX L) eqn:Hm; [|done]. f_equal.
  destruct Ha as [Hs Hr]. unfold encode, REFCOUNT_MAX in *. rewrite Hlk. cbn [a_locked a_state a_ref].
  destruct HL as [-> | ->]; cbn in *; rewrite Z.mod_small; lia.
Qed.

Lemma refcount_dec_refines L a v :
  known L -> a_wf L a -> 0 <= v ->
  refcount_dec L (encode L a) v =
    if a_locked a && (v <=? a_ref a)
    then Some (encode L (AGranule true (a_state a) (a_ref a - v))) else None.
Proof.
  intros HL Ha Hv. unfold refcount_dec. rewrite encode_locked by done.
  change (Z.land (encode L a) (ref_mask L)) with (REFCOUNT L (encode L a)).
  rewrite encode_refcount by done. destruct (a_locked a) eqn:Hlk; [|done]. cbn [andb].
  destruct (v <=? a_ref a) eqn:Hm; [|done]. f_equal.
  destruct Ha as [Hs Hr]. unfold encode, REFCOUNT_MAX in *. rewrite Hlk. cbn [a_locked a_state a_ref].
  destruct HL as [-> | ->]; cbn in *; Z.to_euclidean_division_equations; lia.
Qed.

Lemma put_release_refines L a :
  known L -> a_wf L a ->
  put_release L (encode L a) =
    if negb (a_ref a =? 0) then Some (encode L (AGranule (a_locked a) (a_state a) (a_ref a - 1))) else None.
Proof.
  intros HL Ha. unfold put_release.
  change (Z.land (encode L a) (ref_mask L)) with (REFCOUNT L (encode L a)).
  rewrite encode_refcount by done. destruct (a_ref a =? 0) eqn:Hm; [done|]. cbn [negb]. f_equal.
  destruct Ha as [Hs Hr]. unfold encode, REFCOUNT_MAX in *. cbn [a_locked a_state a_ref].
  destruct HL as [-> | ->], (a_locked a); cbn in *; Z.to_euclidean_division_equations; lia.
Qed.

(** ** The granule operations on abstract granules *)

(** Reference counts each state allows while unlocked. *)
Definition ref_ok (state r : Z) : bool :=
  granule_unlocked_invariants (encode GRN (AGranule false 0 r)) state.

Lemma invariants_ref L_a state :
  a_wf GRN L_a -> granule_unlocked_invariants (encode GRN L_a) state = ref_ok state (a_ref L_a).
Proof.
  intros Ha. unfold ref_ok, granule_unlocked_invariants.
  rewrite !encode_refcount; [done|by left| |by left|done].
  destruct Ha as [_ Hr]. split; [cbn; lia|exact Hr].
Qed.

Lemma get_state_refines L a :
  known L -> a_wf L a -> get_state L (encode L a) = if a_locked a then Some (a_state a) else None.
Proof.
  intros HL Ha. unfold get_state. rewrite encode_locked, encode_state by done. done.
Qed.

Definition a_lock (a : agranule) (expected : Z) : option agranule :=
  if negb (a_locked a) && (a_state a =? expected) && ref_ok expected (a_ref a)
  then Some (AGranule true (a_state a) (a_ref a)) else None.

Definition a_unlock (a : agranule) : option agranule :=
  if a_locked a && ref_ok (a_state a) (a_ref a)
  then Some (AGranule false (a_state a) (a_ref a)) else None.

Definition a_set (a : agranule) (s : Z) : agranule := AGranule (a_locked a) s (a_ref a).

Lemma granule_lock_refines a s :
  a_wf GRN a -> granule_lock (encode GRN a) s = encode GRN <$> a_lock a s.
Proof.
  intros Ha. assert (HL : known GRN) by (by left).
  unfold granule_lock, a_lock. rewrite try_acquire_refines by done.
  destruct (a_locked a) eqn:Hlk; [done|]. cbn [negb andb].
  rewrite get_state_refines by (try done; by destruct Ha). cbn [a_locked mbind option_bind a_state].
  destruct (a_state a =? s); [|done]. cbn [andb]. rewrite invariants_ref by (by destruct Ha).
  cbn [a_ref]. by destruct (ref_ok _ _).
Qed.

Lemma granule_unlock_refines a :
  a_wf GRN a -> granule_unlock (encode GRN a) = encode GRN <$> a_unlock a.
Proof.
  intros Ha. assert (HL : known GRN) by (by left).
  unfold granule_unlock, a_unlock. rewrite get_state_refines by done.
  destruct (a_locked a) eqn:Hlk; [|done]. cbn [mbind option_bind andb].
  rewrite invariants_ref by done. destruct (ref_ok _ _); [|done].
  by rewrite release_refines.
Qed.

Lemma set_unlock_refines a s :
  a_wf GRN a -> 0 <= s < 2 ^ f_width (l_state GRN) -> a_locked a = true ->
  (d ← set_state GRN (encode GRN a) s; granule_unlock d) = encode GRN <$> a_unlock (a_set a s).
Proof.
  intros Ha Hs Hlk. assert (HL : known GRN) by (by left).
  rewrite set_state_refines, Hlk by done. cbn [mbind option_bind].
  rewrite granule_unlock_refines; [by unfold a_set; rewrite Hlk|]. by destruct Ha.
Qed.

Lemma unlock_transition_refines a s :
  a_wf GRN a -> 0 <= s <= GRANULE_STATE_LAST ->
  granule_unlock_transition (encode GRN a) s =
    (if a_locked a && (negb (s =? GRANULE_STATE_DELEGATED) || (a_state a =? GRANULE_STATE_NS)
                       || (a_state a =? GRANULE_STATE_PARTIAL))
     then encode GRN <$> a_unlock (a_set a s) else None).
Proof.
  intros Ha Hs. assert (HL : known GRN) by (by left).
  assert (Hs' : 0 <= s < 2 ^ f_width (l_state GRN))
    by (unfold GRANULE_STATE_LAST, GRANULE_STATE_RD_AUX in Hs; cbn; lia).
  unfold granule_unlock_transition. rewrite get_state_refines by done.
  destruct (a_locked a) eqn:Hlk; [|done]. cbn [mbind option_bind andb].
  case_match; [by apply set_unlock_refines|done].
Qed.

Lemma to_delegated_refines a :
  a_wf GRN a ->
  granule_unlock_transition_to_delegated (encode GRN a) =
    (if a_locked a && negb (a_state a =? GRANULE_STATE_DELEGATED) && negb (a_state a =? GRANULE_STATE_NS)
     then encode GRN <$> a_unlock (a_set a GRANULE_STATE_DELEGATED) else None).
Proof.
  intros Ha. assert (HL : known GRN) by (by left).
  unfold granule_unlock_transition_to_delegated. rewrite get_state_refines by done.
  destruct (a_locked a) eqn:Hlk; [|done]. cbn [mbind option_bind andb].
  destruct (a_state a =? GRANULE_STATE_DELEGATED); [done|]. cbn [negb andb].
  destruct (a_state a =? GRANULE_STATE_NS); [done|]. cbn [negb].
  by apply set_unlock_refines; [|split|].
Qed.

(** C34: the descriptor functions of [granule.h] implement the abstract granule:
    locking, unlocking, state transitions and reference counting on the 16-bit
    word are exactly the operations on (locked, state, refcount), each touching
    its own field only, and fail exactly where the abstract operation does. *)
Theorem granule_ops_refine a s v :
  a_wf GRN a -> 0 <= s <= GRANULE_STATE_LAST -> 0 <= v ->
  granule_lock (encode GRN a) s = encode GRN <$> a_lock a s /\
  granule_unlock (encode GRN a) = encode GRN <$> a_unlock a /\
  granule_unlock_transition (encode GRN a) s =
    (if a_locked a && (negb (s =? GRANULE_STATE_DELEGATED) || (a_state a =? GRANULE_STATE_NS)
                       || (a_state a =? GRANULE_STATE_PARTIAL))
     then encode GRN <$> a_unlock (a_set a s) else None) /\
  granule_unlock_transition_to_delegated (encode GRN a) =
    (if a_locked a && negb (a_state a =? GRANULE_STATE_DELEGATED) && negb (a_state a =? GRANULE_STATE_NS)
     then encode GRN <$> a_unlock (a_set a GRANULE_STATE_DELEGATED) else None) /\
  granule_refcount_inc (encode GRN a) v =
    (if a_locked a && (a_ref a + v <=? REFCOUNT_MAX GRN)
     then Some (encode GRN (AGranule true (a_state a) (a_ref a + v))) else None) /\
  granule_refcount_dec (encode GRN a) v =
    (if a_locked a && (v <=? a_ref a)
     then Some (encode GRN (AGranule true (a_state a) (a_ref a - v))) else None).
Proof.
  intros Ha Hs Hv. assert (HL : known GRN) by (by left). split_and!.
  - by apply granule_lock_refines.
  - by apply granule_unlock_refines.
  - by apply unlock_transition_refines.
  - by apply to_delegated_refines.
  - by apply refcount_inc_refines.
  - by apply refcount_dec_refines.
Qed.

Lemma granule_ops_refine_witness :
  granule_lock (encode GRN (AGranule false GRANULE_STATE_RTT 512)) GRANULE_STATE_RTT
  = Some (encode GRN (AGranule true GRANULE_STATE_RTT 512)).
Proof.
  apply (granule_ops_refine (AGranule false GRANULE_STATE_RTT 512) GRANULE_STATE_RTT 0);
    [repeat split; cbv; discriminate|repeat split; cbv; discriminate|lia].
Defined.

(** The device granule word, with its 3-bit state and count, refines the same
    abstract granule. *)
Theorem dev_granule_ops_refine a s v :
  a_wf DEV_GRN a -> 0 <= s <= DEV_GRANULE_STATE_PARTIAL -> 0 <= v ->
  STATE DEV_GRN (encode DEV_GRN a) = a_state a /\
  LOCKED DEV_GRN (encode DEV_GRN a) = a_locked a /\
  REFCOUNT DEV_GRN (encode DEV_GRN a) = a_ref a /\
  bitlock_try_acquire DEV_GRN (encode DEV_GRN a)
    = (negb (a_locked a), encode DEV_GRN (AGranule true (a_state a) (a_ref a))) /\
  bitlock_release DEV_GRN (encode DEV_GRN a) = encode DEV_GRN (AGranule false (a_state a) (a_ref a)) /\
  set_state DEV_GRN (encode DEV_GRN a) s
    = (if a_locked a then Some (encode DEV_GRN (AGranule true s (a_ref a))) else None) /\
  refcount_inc DEV_GRN (encode DEV_GRN a) v
    = (if a_locked a && (a_ref a + v <=? REFCOUNT_MAX DEV_GRN)
       then Some (encode DEV_GRN (AGranule true (a_state a) (a_ref a + v))) else None) /\
  refcount_dec DEV_GRN (encode DEV_GRN a) v
    = (if a_locked a && (v <=? a_ref a)
       then Some (encode DEV_GRN (AGranule true (a_state a) (a_ref a - v))) else None).
Proof.
  intros Ha Hs Hv. assert (HL : known DEV_GRN) by (by right). split_and!.
  - by apply encode_state.
  - by apply encode_locked.
  - by apply encode_refcount.
  - by apply try_acquire_refines.
  - by apply release_refines.
  - apply set_state_refines; [done..|]. change (0 <= s < 8). unfold DEV_GRANULE_STATE_PARTIAL in Hs. lia.
  - by apply refcount_inc_refines.
  - by apply refcount_dec_refines.
Qed.

Lemma dev_granule_ops_refine_witness :
  STATE DEV_GRN (encode DEV_GRN (AGranule true DEV_GRANULE_STATE_MAPPED 5)) = 2.
Proof.
  apply (dev_granule_ops_refine (AGranule true DEV_GRANULE_STATE_MAPPED 5) 0 0);
    [repeat split; cbv; discriminate|repeat split; cbv; discriminate|lia].
Defined.
