(* ===== verification/GranuleLock.v ===== *)
(** * The granule lock protocol under interleaving

    [granule_lock_on_state_match] ([granule.h]) as a state machine over one
    shared descriptor word: any number of PEs run it concurrently, each atomic
    access of the code being one step.  Holders change the state and the
    reference count and unlock; a PE that holds only a reference drops it with
    the release variant, without the lock.  Mutual exclusion and the meaning of
    a [true] return follow by induction on the steps. *)

From Stdlib Require Import ZArith Lia Bool ZifyBool.
From stdpp Require Import base tactics option list numbers.
From S2P Require Import Prelude.
From S2P Require Import Utils.
From S2P Require Import Granule.

(** Where a PE is in the code. *)
Inductive pc :=
  | Idle
  | Check (e : Z)      (* about to read STATE(g) *)
  | Try (e : Z)        (* about to call granule_bitlock_try_acquire *)
  | Recheck (e : Z)    (* lock taken, about to call granule_get_state *)
  | Waiting (e : Z)    (* in granule_bitlock_wait *)
  | Held (s : Z).      (* returned true; the granule is in state s *)

Record world := World { word : Z; pcs : nat -> pc }.

Definition owns (p : pc) : bool :=
  match p with Recheck _ | Held _ => true | _ => false end.

Definition upd (f : nat -> pc) (pe : nat) (p : pc) : nat -> pc :=
  fun x => if Nat.eqb x pe then p else f x.

(** The mask and value [granule_bitlock_wait] waits on. *)
Definition wait_mask : Z := Z.lor (lock_bit GRN) (state_mask GRN).
Definition wait_value (e : Z) : Z := Z.lor (lock_bit GRN) (Z.shiftl e (f_shift (l_state GRN))).

Definition valid_state (s : Z) : Prop := 0 <= s <= GRANULE_STATE_LAST.

Inductive step : world -> world -> Prop :=
  | st_call w pe e : pcs w pe = Idle -> valid_state e ->
      step w (World (word w) (upd (pcs w) pe (Check e)))
  | st_check_fail w pe e : pcs w pe = Check e -> STATE GRN (word w) <> e ->
      step w (World (word w) (upd (pcs w) pe Idle))
  | st_check_ok w pe e : pcs w pe = Check e -> STATE GRN (word w) = e ->
      step w (World (word w) (upd (pcs w) pe (Try e)))
  | st_try w pe e ok d : pcs w pe = Try e -> bitlock_try_acquire GRN (word w) = (ok, d) ->
      step w (World d (upd (pcs w) pe (if ok : bool then Recheck e else Waiting e)))
  | st_recheck_fail w pe e s : pcs w pe = Recheck e -> get_state GRN (word w) = Some s -> s <> e ->
      step w (World (bitlock_release GRN (word w)) (upd (pcs w) pe Idle))
  | st_recheck_ok w pe e : pcs w pe = Recheck e -> get_state GRN (word w) = Some e ->
      granule_unlocked_invariants (word w) e = true ->
      step w (World (word w) (upd (pcs w) pe (Held e)))
  | st_wake w pe e : pcs w pe = Waiting e -> bitlock_waiting wait_mask (wait_value e) (word w) = false ->
      step w (World (word w) (upd (pcs w) pe (Check e)))
  | st_set_state w pe s s' d : pcs w pe = Held s -> valid_state s' -> set_state GRN (word w) s' = Some d ->
      step w (World d (upd (pcs w) pe (Held s')))
  | st_inc w pe s v d : pcs w pe = Held s -> 0 <= v -> granule_refcount_inc (word w) v = Some d ->
      step w (World d (pcs w))
  | st_dec w pe s v d : pcs w pe = Held s -> 0 <= v -> granule_refcount_dec (word w) v = Some d ->
      step w (World d (pcs w))
  | st_put_release w d : atomic_granule_put_release (word w) = Some d ->
      step w (World d (pcs w))
  | st_unlock w pe s d : pcs w pe = Held s -> granule_unlock (word w) = Some d ->
      step w (World d (upd (pcs w) pe Idle)).

Inductive reachable (w0 : world) : world -> Prop :=
  | r_init : reachable w0 w0
  | r_step w w' : reachable w0 w -> step w w' -> reachable w0 w'.

(** Start: an unlocked granule, every PE outside the code. *)
Definition initial (a : agranule) : world := World (encode GRN a) (fun _ => Idle).

(** ** The invariant *)

Record inv (w : world) : Prop := {
  inv_word : exists a, word w = encode GRN a /\ a_wf GRN a /\
      (a_locked a = false -> forall pe, owns (pcs w pe) = false) /\
      (forall pe s, pcs w pe = Held s -> a_state a = s) /\
      (forall pe, owns (pcs w pe) = true -> a_locked a = true) /\
      (a_locked a = true -> exists pe, owns (pcs w pe) = true);
  inv_excl : forall pe pe', owns (pcs w pe) = true -> owns (pcs w pe') = true -> pe = pe'
}.

Lemma upd_eq f pe p : upd f pe p pe = p.
Proof. unfold upd. by rewrite Nat.eqb_refl. Qed.

Lemma upd_ne f pe p x : x <> pe -> upd f pe p x = f x.
Proof. intros H. unfold upd. by rewrite (proj2 (Nat.eqb_neq x pe)). Qed.

(** If nobody but [pe] owns the lock before, nobody but [pe] owns it after. *)
Lemma owns_upd_only f pe p x :
  (forall y, y <> pe -> owns (f y) = false) -> owns (upd f pe p x) = true -> x = pe.
Proof.
  intros H Hx. destruct (decide (x = pe)); [done|]. rewrite upd_ne in Hx by done.
  by rewrite H in Hx.
Qed.

(** Moving a PE between two program points that agree on ownership. *)
Lemma inv_move w pe p :
  inv w -> owns p = owns (pcs w pe) ->
  (forall s, p = Held s -> STATE GRN (word w) = s) ->
  inv (World (word w) (upd (pcs w) pe p)).
Proof.
  intros [(a & Hw & Hwf & Hfree & Hst & Hlk & Hown) Hex] Ho Hs.
  assert (Heq : forall x, owns (upd (pcs w) pe p x) = owns (pcs w x)).
  { intros x. destruct (decide (x = pe)) as [->|]; [by rewrite upd_eq|by rewrite upd_ne]. }
  split; [exists a; cbn [word pcs]; split_and!|]; cbn [pcs]; try done.
  - intros Hf x. rewrite Heq. auto.
  - intros x s Hx. destruct (decide (x = pe)) as [->|].
    + rewrite upd_eq in Hx. rewrite <- (encode_state GRN a), <- Hw by (done || by left). auto.
    + rewrite upd_ne in Hx by done. eauto.
  - intros x. rewrite Heq. apply Hlk.
  - intros Hl. destruct (Hown Hl) as [x Hx]. exists x. by rewrite Heq.
  - intros x y. rewrite !Heq. apply Hex.
Qed.

(** The holder rewrites the word; nobody else owns the lock. *)
Lemma inv_holder w pe p a' :
  inv w -> owns (pcs w pe) = true -> a_wf GRN a' ->
  a_locked a' = owns p -> (forall s, p = Held s -> a_state a' = s) ->
  inv (World (encode GRN a') (upd (pcs w) pe p)).
Proof.
  intros [_ Hex] Ho Hwf Hlk Hs.
  assert (Hoth : forall x, x <> pe -> owns (pcs w x) = false).
  { intros x Hx. destruct (owns (pcs w x)) eqn:E; [|done]. elim Hx. auto. }
  split; [exists a'; cbn [word pcs]; split_and!|]; cbn [pcs]; try done.
  - intros Hf x. destruct (decide (x = pe)) as [->|]; [by rewrite upd_eq, <- Hlk|rewrite upd_ne; auto].
  - intros x s Hx. destruct (decide (x = pe)) as [->|]; [rewrite upd_eq in Hx; auto|].
    rewrite upd_ne in Hx by done. specialize (Hoth x). rewrite Hx in Hoth. by discriminate Hoth.
  - intros x Hx. apply owns_upd_only in Hx as ?; [|done]. subst x. rewrite upd_eq in Hx. congruence.
  - intros Hl. exists pe. rewrite upd_eq. congruence.
  - intros x y Hx%owns_upd_only Hy%owns_upd_only; [congruence|done|done].
Qed.

Lemma upd_same f pe : forall x, upd f pe (f pe) x = f x.
Proof. intros x. unfold upd. destruct (Nat.eqb_spec x pe); [by subst|done]. Qed.

(** Changing the word without moving a PE, state and lock untouched. *)
Lemma inv_ref w a a' :
  inv w -> word w = encode GRN a -> a_wf GRN a -> a_wf GRN a' ->
  a_locked a' = a_locked a -> a_state a' = a_state a -> inv (World (encode GRN a') (pcs w)).
Proof.
  intros [(b & Hw & Hwf & Hfree & Hst & Hlk & Hown) Hex] Ha Hwfa Hwf' Hl Hs.
  assert (Hb : a_locked b = a_locked a /\ a_state b = a_state a).
  { rewrite <- (encode_locked GRN b), <- (encode_state GRN b), <- Hw, Ha by (done || by left).
    by rewrite encode_locked, encode_state by (done || by left). }
  destruct Hb as [Hb1 Hb2].
  split; [exists a'; cbn [word pcs]; split_and!|]; cbn [pcs]; try done.
  - rewrite Hl, <- Hb1. done.
  - intros pe s Hp. rewrite Hs, <- Hb2. eauto.
  - intros pe Hp. rewrite Hl, <- Hb1. eauto.
  - rewrite Hl, <- Hb1. done.
Qed.

Lemma valid_state_bits s : valid_state s -> 0 <= s < 2 ^ f_width (l_state GRN).
Proof.
  unfold valid_state, GRANULE_STATE_LAST, GRANULE_STATE_RD_AUX. intros H.
  change (0 <= s < 32). lia.
Qed.

Lemma step_inv w w' : inv w -> step w w' -> inv w'.
Proof.
  intros Hi Hs. pose proof Hi as [(a & Hw & Hwf & Hfree & Hst & Hlk & Hown) Hex].
  assert (HL : known GRN) by (by left).
  destruct Hs as [w pe e Hp|w pe e Hp Hne|w pe e Hp He|w pe e ok d Hp Ht|w pe e s Hp Hg Hne
    |w pe e Hp Hg Hinv|w pe e Hp Hwk|w pe s s' d Hp Hv Hset|w pe s v d Hp Hv Hr|w pe s v d Hp Hv Hr
    |w d Hr|w pe s d Hp Hu].
  - apply inv_move; [done|by rewrite Hp|done].
  - apply inv_move; [done|by rewrite Hp|done].
  - apply inv_move; [done|by rewrite Hp|done].
  - rewrite Hw, try_acquire_refines in Ht by done. injection Ht as <- <-.
    destruct (a_locked a) eqn:Hl; cbn [negb].
    + assert (Hd : encode GRN (AGranule true (a_state a) (a_ref a)) = word w)
        by (rewrite Hw; by destruct a; cbn in *; subst).
      rewrite Hd. apply inv_move; [done|by rewrite Hp|done].
    + split; [eexists; cbn [word pcs]; split_and!; [done|by destruct Hwf|..]|]; cbn [a_locked a_state pcs].
      * done.
      * intros x s Hx. destruct (decide (x = pe)) as [->|]; [by rewrite upd_eq in Hx|].
        rewrite upd_ne in Hx by done. eauto.
      * done.
      * intros _. exists pe. by rewrite upd_eq.
      * intros x y Hx%owns_upd_only Hy%owns_upd_only; [congruence|auto|auto].
  - rewrite Hw, release_refines by done.
    apply inv_holder; [done|by rewrite Hp|by destruct Hwf|done|done].
  - rewrite Hw. rewrite <- Hw. apply inv_move; [done|by rewrite Hp|].
    intros s [= <-]. unfold get_state in Hg. by inv_some Hg.
  - apply inv_move; [done|by rewrite Hp|done].
  - rewrite Hw, set_state_refines in Hset by (done || by apply valid_state_bits).
    inv_some Hset. subst d. apply inv_holder; [done|by rewrite Hp| |done|intros ? [= <-]; done].
    destruct Hwf. split; [by apply valid_state_bits|done].
  - unfold granule_refcount_inc in Hr. rewrite Hw, refcount_inc_refines in Hr by done.
    inv_some Hr. subst d. apply andb_true_iff in E as [E1 E2].
    apply (inv_ref w a); try done. destruct Hwf. split; [done|cbn [a_ref]; lia].
  - unfold granule_refcount_dec in Hr. rewrite Hw, refcount_dec_refines in Hr by done.
    inv_some Hr. subst d. apply andb_true_iff in E as [E1 E2].
    apply (inv_ref w a); try done. destruct Hwf. split; [done|cbn [a_ref]; lia].
  - unfold atomic_granule_put_release in Hr. rewrite Hw, put_release_refines in Hr by done.
    inv_some Hr. subst d. apply (inv_ref w a); try done. destruct Hwf. split; [done|cbn [a_ref]; lia].
  - unfold granule_unlock in Hu. rewrite Hw in Hu. inv_some Hu. subst d.
    rewrite release_refines by done.
    apply inv_holder; [done|by rewrite Hp|by destruct Hwf|done|done].
Qed.

Lemma reachable_inv a w :
  a_wf GRN a -> a_locked a = false -> reachable (initial a) w -> inv w.
Proof.
  intros Hwf Hl Hr. induction Hr as [|w w' _ IH Hs]; [|by eapply step_inv].
  split; [exists a; cbn [initial word pcs owns]; split_and!|]; try done.
  intros Hl'. congruence.
Qed.

(** The wait condition of [granule_bitlock_wait] is "still locked, still in the
    expected state". *)
Lemma wait_condition a e :
  a_wf GRN a -> valid_state e ->
  bitlock_waiting wait_mask (wait_value e) (encode GRN a) = a_locked a && (a_state a =? e).
Proof.
  intros [Hs Hr] He%valid_state_bits. unfold bitlock_waiting. rewrite encode_hi by (by left).
  change wait_mask with (63 * 2 ^ 10). change (f_shift (l_state GRN)) with 10.
  unfold REFCOUNT_MAX in Hr. rewrite land_split by (cbn in *; lia).
  assert (Hv : wait_value e = Z.lor e 32 * 2 ^ 10).
  { unfold wait_value. rewrite Z.lor_comm, Z.shiftl_mul_pow2 by (cbn; lia).
    change (lock_bit GRN) with (32 * 2 ^ 10). change (f_shift (l_state GRN)) with 10.
    rewrite <- (Z.add_0_r (e * 2 ^ 10)), lor_split by lia. lia. }
  rewrite Hv. unfold hi.
  set (P := fun st => forallb (fun e =>
    Bool.eqb (Z.land (32 + st) 63 * 2 ^ 10 =? Z.lor e 32 * 2 ^ 10) (st =? e) &&
    negb (Z.land (0 + st) 63 * 2 ^ 10 =? Z.lor e 32 * 2 ^ 10)) (seqZ 0 32)).
  assert (HP : P (a_state a) = true) by (apply (small_forall 32); [vm_compute; reflexivity|cbn in Hs; lia]).
  pose proof (small_forall 32 _ e HP He) as Hb. cbn beta in Hb.
  apply andb_true_iff in Hb as [Hb1%Bool.eqb_prop Hb2%negb_true_iff].
  destruct (a_locked a); [exact Hb1|exact Hb2].
Qed.

(** C33: under every interleaving, at most one PE is inside the critical section
    of a granule; a PE to which [granule_lock_on_state_match] returned [true]
    owns the lock, the granule is in the state it asked for (or has itself set),
    and stays so whatever the other PEs do. *)
Theorem granule_lock_mutual_exclusion a w pe s :
  a_wf GRN a -> a_locked a = false -> reachable (initial a) w -> pcs w pe = Held s ->
  LOCKED GRN (word w) = true /\ STATE GRN (word w) = s /\
  (forall pe', owns (pcs w pe') = true -> pe' = pe) /\
  (forall w', step w w' -> pcs w' pe = Held s -> STATE GRN (word w') = s).
Proof.
  intros Hwf Hl Hr Hp. pose proof (reachable_inv _ _ Hwf Hl Hr) as Hi.
  assert (Hst : forall w, inv w -> pcs w pe = Held s -> STATE GRN (word w) = s).
  { intros v [(b & -> & Hb & _ & Hst & _) _] Hv. rewrite encode_state by (done || by left). eauto. }
  pose proof Hi as [(b & Hw & Hb & _ & _ & Hlk & _) Hex]. split_and!.
  - rewrite Hw, encode_locked by (done || by left). apply (Hlk pe). by rewrite Hp.
  - by apply Hst.
  - intros pe' Ho. apply Hex; [done|by rewrite Hp].
  - intros w' Hs Hp'. apply Hst; [|done]. by eapply step_inv.
Qed.

(** No PE waits for a lock that nobody will release: in every reachable world
    in which a PE waits, either some PE owns the lock, or the waiting PE can
    take its next step at once. *)
Theorem granule_wait_progress a w pe e :
  a_wf GRN a -> a_locked a = false -> reachable (initial a) w ->
  pcs w pe = Waiting e -> valid_state e ->
  (exists pe', owns (pcs w pe') = true) \/
  step w (World (word w) (upd (pcs w) pe (Check e))).
Proof.
  intros Hwf Hl Hr Hp He. pose proof (reachable_inv _ _ Hwf Hl Hr)
    as [(b & Hw & Hb & _ & _ & _ & Hown) _].
  destruct (a_locked b) eqn:Hlb; [left; auto|right].
  apply st_wake; [done|]. by rewrite Hw, wait_condition, Hlb.
Qed.

(** ** A concrete run: PE 0 takes an RTT granule, PE 1 contends *)

Definition demo_a : agranule := AGranule false GRANULE_STATE_RTT 3.
Definition demo_pcs0 : nat -> pc :=
  upd (upd (upd (upd (fun _ => Idle) 0%nat (Check 6)) 0%nat (Try 6)) 0%nat (Recheck 6)) 0%nat (Held 6).
Definition demo_pcs1 : nat -> pc :=
  upd (upd (upd demo_pcs0 1%nat (Check 6)) 1%nat (Try 6)) 1%nat (Waiting 6).
Definition demo_held : world := World (encode GRN (AGranule true 6 3)) demo_pcs0.
Definition demo_wait : world := World (encode GRN (AGranule true 6 3)) demo_pcs1.

(** Steps whose successor is given up to conversion. *)
Lemma r_step_to w0 w w1 w' : reachable w0 w -> step w w1 -> w1 = w' -> reachable w0 w'.
Proof. intros Hr Hs <-. by eapply r_step. Qed.

Lemma demo_held_reachable : reachable (initial demo_a) demo_held.
Proof.
  eapply r_step_to; [eapply r_step_to; [eapply r_step_to; [eapply r_step_to; [apply r_init|..]|..]|..]|..].
  - apply (st_call _ 0 6); [reflexivity|split; cbv; discriminate].
  - reflexivity.
  - apply (st_check_ok _ 0 6); reflexivity.
  - reflexivity.
  - apply (st_try _ 0 6 true (encode GRN (AGranule true 6 3))); reflexivity.
  - reflexivity.
  - apply (st_recheck_ok _ 0 6); reflexivity.
  - reflexivity.
Qed.

Lemma demo_wait_reachable : reachable (initial demo_a) demo_wait.
Proof.
  eapply r_step_to; [eapply r_step_to; [eapply r_step_to; [apply demo_held_reachable|..]|..]|..].
  - apply (st_call _ 1 6); [reflexivity|split; cbv; discriminate].
  - reflexivity.
  - apply (st_check_ok _ 1 6); reflexivity.
  - reflexivity.
  - apply (st_try _ 1 6 false (encode GRN (AGranule true 6 3))); reflexivity.
  - reflexivity.
Qed.

Lemma granule_lock_mutual_exclusion_witness :
  LOCKED GRN (word demo_held) = true /\ STATE GRN (word demo_held) = 6.
Proof.
  destruct (granule_lock_mutual_exclusion demo_a demo_held 0 6) as (H1 & H2 & _);
    [repeat split; cbv; discriminate|reflexivity|exact demo_held_reachable|reflexivity|].
  split; assumption.
Defined.

Lemma granule_wait_progress_witness :
  (exists pe', owns (pcs demo_wait pe') = true) \/
  step demo_wait (World (word demo_wait) (upd (pcs demo_wait) 1%nat (Check 6))).
Proof.
  apply (granule_wait_progress demo_a demo_wait 1 6);
    [repeat split; cbv; discriminate|reflexivity|exact demo_wait_reachable|reflexivity|
     split; cbv; discriminate].
Defined.
