(* ===== verification/Mem.v ===== *)
(** * Memory of the RMM and code that works on it

    The descriptor word of each granule and the contents of each translation
    table.  A [struct granule *] is an opaque name: a fine granule is named by its
    index in the granule array, the coarse granule of tracking region [i] by
    [-1 - i].  Code is state passing and may fail: [None] is a failed assertion,
    an access out of bounds, or a wait for a lock that the same PE holds. *)

From Stdlib Require Import ZArith Lia Bool ZifyBool.
From stdpp Require Import base tactics option list numbers gmap.
From S2P Require Import Prelude.
From S2P Require Import Utils.
From S2P Require Import Status.
From S2P Require Import Granule.

(** Names of fine granules and the addresses they stand for. *)
Class GranuleNames := {
  tr_addr_to_granule : Z -> option Z;
  tr_granule_addr : Z -> option Z;
  granule_names_inverse : forall addr g,
    tr_addr_to_granule addr = Some g -> tr_granule_addr g = Some addr;
  granule_names_aligned : forall addr g,
    tr_addr_to_granule addr = Some g -> GRANULE_ALIGNED addr = true
}.

Record mem := Mem { descs : gmap Z Z; tables : gmap Z (list Z) }.

(** State-passing code that may fail, over any state. *)
Definition ST (S A : Type) : Type := S -> option (A * S).
Definition ret {S A} (x : A) : ST S A := fun s => Some (x, s).
Definition bind {S A B} (c : ST S A) (k : A -> ST S B) : ST S B :=
  fun s => match c s with Some (x, s') => k x s' | None => None end.
Definition lift {S A} (o : option A) : ST S A := fun s => match o with Some x => Some (x, s) | None => None end.
Definition guard {S} (b : bool) : ST S unit := fun s => if b then Some (tt, s) else None.

(** Code that works on the memory only. *)
Definition M : Type -> Type := ST mem.

Notation "x <-! c ;; k" := (bind c (fun x => k))
  (at level 100, c at next level, k at level 200, right associativity) : rmm_scope.

(** Apply a descriptor operation to granule [g]. *)
Definition on_desc g (f : Z -> option Z) : M unit := fun m =>
  d ← descs m !! g; d' ← f d; Some (tt, Mem (<[g := d']> (descs m)) (tables m)).

Definition m_granule_lock g state : M unit := on_desc g (fun d => granule_lock d state).
Definition m_granule_unlock g : M unit := on_desc g granule_unlock.

(** The wait of [granule_lock_on_state_match] ends when another PE releases the
    lock; a PE that holds it itself waits for ever. *)
Definition granule_lock_on_state_match (g expected_state : Z) : M bool := fun m =>
  d ← descs m !! g;
  if negb (STATE GRN d =? expected_state) then Some (false, m)
  else d' ← granule_lock d expected_state; Some (true, Mem (<[g := d']> (descs m)) (tables m)).

(** ** The abstract view of a granule in memory *)

Definition granule_at (m : mem) (g : Z) (a : agranule) : Prop :=
  descs m !! g = Some (encode GRN a) /\ a_wf GRN a /\ ref_ok (a_state a) (a_ref a) = true.

Definition set_granule (m : mem) (g : Z) (a : agranule) : mem :=
  Mem (<[g := encode GRN a]> (descs m)) (tables m).

Definition locked (a : agranule) : agranule := AGranule true (a_state a) (a_ref a).
Definition unlocked (a : agranule) : agranule := AGranule false (a_state a) (a_ref a).

Lemma granule_at_set m g a g' a' :
  a_wf GRN a -> ref_ok (a_state a) (a_ref a) = true ->
  (g' = g /\ a' = a) \/ (g' <> g /\ granule_at m g' a') -> granule_at (set_granule m g a) g' a'.
Proof.
  intros Hwf Hok [[-> ->]|[Hne (H1 & H2 & H3)]]; unfold granule_at, set_granule; cbn [descs].
  - by rewrite lookup_insert_eq.
  - by rewrite lookup_insert_ne by done.
Qed.

Lemma set_granule_set m g a a' : set_granule (set_granule m g a) g a' = set_granule m g a'.
Proof. unfold set_granule. cbn [descs tables]. by rewrite insert_insert_eq. Qed.

Lemma set_granule_id m g a : granule_at m g a -> set_granule m g a = m.
Proof. intros (H & _). destruct m as [ds ts]. unfold set_granule. cbn [descs tables] in *. by rewrite insert_id. Qed.

Lemma set_granule_comm m g a g' a' :
  g <> g' -> set_granule (set_granule m g a) g' a' = set_granule (set_granule m g' a') g a.
Proof. intros H. unfold set_granule. cbn [descs tables]. by rewrite insert_insert_ne. Qed.

Lemma m_granule_lock_ok m g a :
  granule_at m g a -> a_locked a = false ->
  m_granule_lock g (a_state a) m = Some (tt, set_granule m g (locked a)).
Proof.
  intros (Hd & Hwf & Hok) Hl. unfold m_granule_lock, on_desc. rewrite Hd. cbn [mbind option_bind].
  rewrite granule_lock_refines by done. unfold a_lock. by rewrite Hl, Z.eqb_refl, Hok.
Qed.

Lemma m_granule_unlock_ok m g a :
  granule_at m g a -> a_locked a = true ->
  m_granule_unlock g m = Some (tt, set_granule m g (unlocked a)).
Proof.
  intros (Hd & Hwf & Hok) Hl. unfold m_granule_unlock, on_desc. rewrite Hd. cbn [mbind option_bind].
  rewrite granule_unlock_refines by done. unfold a_unlock. by rewrite Hl, Hok.
Qed.

Lemma lock_on_state_match_ok m g a s :
  granule_at m g a ->
  granule_lock_on_state_match g s m =
    if negb (a_state a =? s) then Some (false, m)
    else if a_locked a then None else Some (true, set_granule m g (locked a)).
Proof.
  intros (Hd & Hwf & Hok). unfold granule_lock_on_state_match. rewrite Hd. cbn [mbind option_bind].
  rewrite encode_state by (done || by left). destruct (Z.eqb_spec (a_state a) s) as [<-|]; [|done].
  cbn [negb]. rewrite granule_lock_refines by done. unfold a_lock. rewrite Z.eqb_refl, Hok.
  by destruct (a_locked a).
Qed.

Lemma encode_inj a a' : a_wf GRN a -> a_wf GRN a' -> encode GRN a = encode GRN a' -> a = a'.
Proof.
  intros Ha Ha' E. pose proof (encode_locked GRN a ltac:(by left) Ha) as H1.
  pose proof (encode_state GRN a ltac:(by left) Ha) as H2.
  pose proof (encode_refcount GRN a ltac:(by left) Ha) as H3. rewrite E in H1, H2, H3.
  rewrite encode_locked in H1 by (done || by left). rewrite encode_state in H2 by (done || by left).
  rewrite encode_refcount in H3 by (done || by left). destruct a, a'; cbn in *. congruence.
Qed.

Lemma granule_at_inj m g a a' : granule_at m g a -> granule_at m g a' -> a = a'.
Proof. intros (H1 & H2 & _) (H3 & H4 & _). apply encode_inj; try done. congruence. Qed.

(** [m] with granule [g] locked. *)
Definition with_lock (m : mem) (g : Z) : mem :=
  Mem (alter (fun d => d + 2 ^ l_lock GRN) g (descs m)) (tables m).

Lemma with_lock_tables m g : tables (with_lock m g) = tables m.
Proof. done. Qed.

Lemma with_lock_set m g a :
  granule_at m g a -> a_locked a = false -> with_lock m g = set_granule m g (locked a).
Proof.
  intros (Hd & _) Hl. unfold with_lock, set_granule. f_equal. rewrite (alter_alt_Some _ _ _ _ Hd).
  f_equal. unfold encode, locked. cbn [a_locked a_state a_ref]. rewrite Hl. lia.
Qed.

Lemma granule_at_with_lock m g a :
  granule_at m g a -> a_locked a = false -> granule_at (with_lock m g) g (locked a).
Proof.
  intros Ha Hl. rewrite (with_lock_set m g a) by done. destruct Ha as (_ & Hwf & Hok).
  apply granule_at_set; try done. by left.
Qed.

Lemma granule_at_with_lock_ne m h g a : g <> h -> granule_at (with_lock m h) g a <-> granule_at m g a.
Proof. intros Hne. unfold granule_at, with_lock. cbn [descs]. by rewrite lookup_alter_ne by done. Qed.

Lemma with_lock_comm m g g' : g' <> g -> with_lock (with_lock m g) g' = with_lock (with_lock m g') g.
Proof. intros Hne. unfold with_lock. cbn [descs tables]. f_equal. by rewrite alter_alter_ne by done. Qed.

Lemma with_lock_lock m g a s :
  granule_at m g a -> a_locked a = false -> a_state a = s -> m_granule_lock g s m = Some (tt, with_lock m g).
Proof. intros Ha Hl <-. rewrite (m_granule_lock_ok m g a) by done. by rewrite (with_lock_set m g a). Qed.

Lemma with_lock_unlock m g a :
  granule_at m g a -> a_locked a = false -> m_granule_unlock g (with_lock m g) = Some (tt, m).
Proof.
  intros Ha Hl. rewrite (m_granule_unlock_ok _ g (locked a)); [|by apply granule_at_with_lock|done].
  rewrite (with_lock_set m g a), set_granule_set by done.
  assert (unlocked (locked a) = a) as -> by (destruct a; cbn in *; by subst). by rewrite set_granule_id.
Qed.

Lemma refcount_locked m g a :
  granule_at m g a -> a_locked a = false -> descs (with_lock m g) !! g ≫= refcount_read_acquire GRN = Some (a_ref a).
Proof.
  intros Ha Hl. destruct (granule_at_with_lock m g a Ha Hl) as (Hd & Hwf & _). rewrite Hd. cbn [mbind option_bind].
  unfold refcount_read_acquire. rewrite encode_locked, encode_refcount by (done || by left). done.
Qed.

(** ** Looking a granule up by address

    What the commands rely on when they call
    [tr_find_lock_granule(addr, GRANULE_SIZE, state, &g)]: for each address,
    either the lookup reports an error whatever the memory is, or it names the
    granule of that address, whose lock it takes when the state is the expected
    one.  The tracking-region code implements this interface. *)
Class GranuleLookup := {
  lookup_names :: GranuleNames;
  find_lock_fine_granule : Z -> Z -> M (Z * option Z);
  find_lock_fine_spec : forall addr,
    (exists status, status <> RMI_SUCCESS /\
       forall m s, find_lock_fine_granule addr s m = Some ((status, None), m)) \/
    (exists g, tr_addr_to_granule addr = Some g /\
       forall m s a, granule_at m g a ->
         find_lock_fine_granule addr s m =
           if negb (a_state a =? s) then Some ((RMI_ERROR_INPUT, None), m)
           else if a_locked a then None else Some ((RMI_SUCCESS, Some g), with_lock m g))
}.

(** Locking two granules at once ([tr_find_lock_two_fine_granules]): nothing
    happens unless both can be had, and both can be had when the addresses differ
    and each lookup alone succeeds. *)
Class PairLookup `{lookup : GranuleLookup} := {
  find_lock_two_fine_granules : Z -> Z -> Z -> Z -> M (Z * option Z * option Z);
  find_lock_two_spec : forall m addr1 s1 addr2 s2,
    0 <= s1 <= GRANULE_STATE_LAST -> 0 <= s2 <= GRANULE_STATE_LAST ->
    (forall addr g, addr = addr1 \/ addr = addr2 -> tr_addr_to_granule addr = Some g ->
       exists a, granule_at m g a /\ a_locked a = false) ->
    (exists status, status <> RMI_SUCCESS /\
       find_lock_two_fine_granules addr1 s1 addr2 s2 m = Some ((status, None, None), m) /\
       (addr1 = addr2 \/
        (forall g m', find_lock_fine_granule addr1 s1 m <> Some ((RMI_SUCCESS, Some g), m')) \/
        (forall g m', find_lock_fine_granule addr2 s2 m <> Some ((RMI_SUCCESS, Some g), m')))) \/
    (exists g1 g2 a1 a2, g1 <> g2 /\ tr_addr_to_granule addr1 = Some g1 /\ tr_addr_to_granule addr2 = Some g2 /\
       granule_at m g1 a1 /\ a_state a1 = s1 /\ granule_at m g2 a2 /\ a_state a2 = s2 /\
       find_lock_two_fine_granules addr1 s1 addr2 s2 m =
         Some ((RMI_SUCCESS, Some g1, Some g2), with_lock (with_lock m g1) g2))
}.
