(* ===== verification/SmallNames.v ===== *)
(** * A small machine for the concrete instances

    Four granules, 99 to 102, named by their page number, with the lookups of one
    and of two granules that the commands rely on. *)

From Stdlib Require Import ZArith Lia Bool ZifyBool.
From stdpp Require Import base tactics option list numbers gmap.
From S2P Require Import Prelude.
From S2P Require Import Utils.
From S2P Require Import Status.
From S2P Require Import Granule.
From S2P Require Import Mem.

Definition small_name (a : Z) : option Z :=
  if (a mod 4096 =? 0) && (99 <=? a / 4096) && (a / 4096 <=? 102) then Some (a / 4096) else None.

Lemma small_name_inv a g : small_name a = Some g -> a = g * 4096 /\ 99 <= g <= 102.
Proof.
  unfold small_name. destruct (_ && _ && _) eqn:E; [|done]. intros [= <-].
  apply andb_true_iff in E as [E E3%Z.leb_le]. apply andb_true_iff in E as [E1%Z.eqb_eq E2%Z.leb_le].
  pose proof (Z.div_mod a 4096 ltac:(lia)). lia.
Qed.

Definition small_names : GranuleNames.
Proof.
  refine {| tr_addr_to_granule := small_name; tr_granule_addr := fun g => Some (g * 4096) |}.
  - intros a g [-> _]%small_name_inv. done.
  - intros a g [-> _]%small_name_inv. apply GRANULE_ALIGNED_spec. by exists g.
Defined.

Definition small_find (a s : Z) : M (Z * option Z) := fun m =>
  match small_name a with
  | None => Some ((RMI_ERROR_INPUT, None), m)
  | Some g =>
      match granule_lock_on_state_match g s m with
      | Some (true, m') => Some ((RMI_SUCCESS, Some g), m')
      | Some (false, m') => Some ((RMI_ERROR_INPUT, None), m')
      | None => None
      end
  end.

Definition small_lookup : GranuleLookup.
Proof.
  refine {| lookup_names := small_names; find_lock_fine_granule := small_find |}.
  intros a. unfold small_find. cbn [tr_addr_to_granule small_names]. destruct (small_name a) as [g|] eqn:E.
  - right. exists g. split; [done|]. intros m s ag Ha. rewrite (lock_on_state_match_ok m g ag s Ha).
    destruct (negb (a_state ag =? s)); [done|]. destruct (a_locked ag) eqn:Hl; [done|]. by rewrite (with_lock_set m g ag).
  - left. exists RMI_ERROR_INPUT. split; [done|]. done.
Defined.

(** Two granules: the second is looked up only if the first can be had, and the
    first is released if the second cannot. *)
Definition small_find_two (a1 s1 a2 s2 : Z) : M (Z * option Z * option Z) :=
  if a1 =? a2 then ret (RMI_ERROR_INPUT, None, None) else
  r1 <-! small_find a1 s1 ;;
  match r1 with
  | (st, None) => ret (st, None, None)
  | (_, Some g1) =>
      r2 <-! small_find a2 s2 ;;
      match r2 with
      | (st, None) => _ <-! m_granule_unlock g1 ;; ret (st, None, None)
      | (_, Some g2) => ret (RMI_SUCCESS, Some g1, Some g2)
      end
  end.

Lemma small_find_ok m a s :
  (forall g, small_name a = Some g -> exists ag, granule_at m g ag /\ a_locked ag = false) ->
  (small_find a s m = Some ((RMI_ERROR_INPUT, None), m)) \/
  (exists g ag, small_name a = Some g /\ granule_at m g ag /\ a_state ag = s /\ a_locked ag = false /\
     small_find a s m = Some ((RMI_SUCCESS, Some g), with_lock m g)).
Proof.
  intros Hav. unfold small_find. destruct (small_name a) as [g|]; [|by left]. destruct (Hav g eq_refl) as (ag & Ha & Hl).
  rewrite (lock_on_state_match_ok m g ag s Ha), Hl. destruct (Z.eqb_spec (a_state ag) s); cbn [negb]; [right|by left].
  exists g, ag. by rewrite (with_lock_set m g ag).
Qed.

Definition small_pairs : @PairLookup small_lookup.
Proof.
  refine (@Build_PairLookup small_lookup small_find_two _). intros m a1 s1 a2 s2 _ _ Hav. unfold small_find_two.
  destruct (Z.eqb_spec a1 a2) as [->|Hne]; [left; exists RMI_ERROR_INPUT; split; [done|]; split; [done|]; by left|].
  destruct (small_find_ok m a1 s1 ltac:(intros g; apply (Hav a1); by left)) as [H1|(g1 & ag1 & Hn1 & Hg1 & Hs1 & Hl1 & H1)].
  { left. exists RMI_ERROR_INPUT. unfold bind. rewrite H1. split; [done|]. split; [done|]. right. left. intros g m'. cbn. congruence. }
  destruct (small_find_ok m a2 s2 ltac:(intros g; apply (Hav a2); by right)) as [H2|(g2 & ag2 & Hn2 & Hg2 & Hs2 & Hl2 & H2)].
  - left. exists RMI_ERROR_INPUT. split; [done|]. split.
    + unfold bind. rewrite H1. assert (H2' : small_find a2 s2 (with_lock m g1) = Some ((RMI_ERROR_INPUT, None), with_lock m g1)).
      { unfold small_find in *. destruct (small_name a2) as [g|] eqn:E; [|done]. destruct (Hav a2 g ltac:(by right) E) as (ag & Hg & Hl).
        assert (Hgne : g <> g1) by (intros ->; apply small_name_inv in Hn1, E; lia).
        rewrite (lock_on_state_match_ok m g ag s2 Hg), Hl in H2.
        rewrite (lock_on_state_match_ok _ g ag s2 (proj2 (granule_at_with_lock_ne m g1 g ag Hgne) Hg)), Hl. by destruct (negb _). }
      rewrite H2', (with_lock_unlock m g1 ag1 Hg1 Hl1). done.
    + right. right. intros g m'. cbn. congruence.
  - right. assert (Hgne : g2 <> g1) by (intros ->; apply small_name_inv in Hn1, Hn2; lia).
    exists g1, g2, ag1, ag2. split_and!; try done. unfold bind. rewrite H1. unfold small_find. rewrite Hn2.
    rewrite (lock_on_state_match_ok _ g2 ag2 s2 (proj2 (granule_at_with_lock_ne m g1 g2 ag2 Hgne) Hg2)), Hl2, (proj2 (Z.eqb_eq _ _) Hs2). cbn [negb].
    rewrite <- (with_lock_set _ _ _ (proj2 (granule_at_with_lock_ne m g1 g2 ag2 Hgne) Hg2) Hl2). done.
Defined.
