(* ===== verification/Arch.v ===== *)
(** * Architecture features

    The RMM reads ID registers to learn what the CPU implements.  Those reads
    are hardware; here they are the fields of a class, so that every definition
    which depends on a feature takes it as an implicit parameter. *)

From stdpp Require Import base.

Class ArchFeatures := {
  is_feat_lpa2_4k_present : bool;
  is_feat_lpa2_4k_2_present : bool;
  are_feat_s2pie_and_s2poe_present : bool;
  is_feat_vmid16_present : bool;
  is_feat_mec_present : bool
}.

(** A CPU with every feature, on which the concrete examples run. *)
Definition demo_features : ArchFeatures := {|
  is_feat_lpa2_4k_present := true;
  is_feat_lpa2_4k_2_present := true;
  are_feat_s2pie_and_s2poe_present := true;
  is_feat_vmid16_present := true;
  is_feat_mec_present := true
|}.
