(* ===== verification/Vmid.v ===== *)
(** * VMID allocation ([lib/arch/src/vmid.c])

    The pool is a bitmap of 1024 words.  The abstract pool is the set of VMIDs in
    use; allocation takes a free one if there is one, and freeing gives it back. *)

From Stdlib Require Import ZArith Lia Bool ZifyBool.
From stdpp Require Import base tactics option list numbers.
From S2P Require Import Prelude.
From S2P Require Import Utils.
From S2P Require Import Arch.
From S2P Require Import Bitmap.

Definition VMID8_COUNT : Z := 2 ^ 8.
Definition VMID16_COUNT : Z := 2 ^ 16.
Definition VMID_ARRAY_LONG_SIZE : nat := 1024.

Section Vmid.
Context `{feat : ArchFeatures}.
Implicit Types (vmids : list Z) (vmid : Z).

Definition vmid_count : Z := if is_feat_vmid16_present then VMID16_COUNT else VMID8_COUNT.

Definition vmid_reserve vmids vmid : option (bool * list Z) :=
  if vmid_count <=? vmid then Some (false, vmids)
  else
    let offset := vmid / BITS_PER_UL in
    let vmid := vmid mod BITS_PER_UL in
    w ← arr_get vmids offset;
    let '(old, w') := atomic_bit_set w vmid in
    vmids' ← arr_set vmids offset w';
    Some (negb old, vmids').

Definition vmid_free vmids vmid : option (list Z) :=
  assert (vmid <? vmid_count) ;;
  let offset := vmid / BITS_PER_UL in
  let vmid := vmid mod BITS_PER_UL in
  w ← arr_get vmids offset;
  arr_set vmids offset (atomic_bit_clear w vmid).

(** [for (i = 0; i < VMID_ARRAY_LONG_SIZE; i++)] of [vmid_hint]. *)
Fixpoint vmid_hint_loop vmids (n : nat) (i : Z) : option Z :=
  match n with
  | O => Some 0
  | S n' =>
      word_val ← arr_get vmids i;
      if negb (word_val =? not64 0) then Some (i * BITS_PER_UL + builtin_ctzl (not64 word_val))
      else vmid_hint_loop vmids n' (i + 1)
  end.

Definition vmid_hint vmids : option Z := vmid_hint_loop vmids VMID_ARRAY_LONG_SIZE 0.

(** A search loop [for (i = lo; i < lo + n; i++) if (vmid_reserve(i)) return i]. *)
Fixpoint vmid_search vmids (n : nat) (i : Z) : option (option Z * list Z) :=
  match n with
  | O => Some (None, vmids)
  | S n' =>
      r ← vmid_reserve vmids i;
      let '(ok, vmids) := r in
      if ok : bool then Some (Some i, vmids) else vmid_search vmids n' (i + 1)
  end.

(** [vmid_alloc]: [Some v] is a return of true with [*vmid = v]. *)
Definition vmid_alloc vmids : option (option Z * list Z) :=
  hint ← vmid_hint vmids;
  let start_hint := if vmid_count <=? hint then 0 else hint in
  r ← vmid_search vmids (Z.to_nat (vmid_count - start_hint)) start_hint;
  let '(found, vmids) := r in
  match found with
  | Some v => Some (Some v, vmids)
  | None => vmid_search vmids (Z.to_nat start_hint) 0
  end.

(** ** The pool as a set *)

Definition vmids_wf vmids : Prop :=
  length vmids = VMID_ARRAY_LONG_SIZE /\ Forall in_u64 vmids.

Definition in_use vmids vmid : bool := bit_at vmids vmid.

Lemma vmid_count_range : 0 < vmid_count <= 2 ^ 16.
Proof. unfold vmid_count, VMID16_COUNT, VMID8_COUNT. destruct is_feat_vmid16_present; lia. Qed.

Lemma vmid_in_pool vmids vmid :
  vmids_wf vmids -> 0 <= vmid < vmid_count -> 0 <= vmid < 64 * Z.of_nat (length vmids).
Proof. intros [Hlen _] Hv. pose proof vmid_count_range. rewrite Hlen. unfold VMID_ARRAY_LONG_SIZE. lia. Qed.

(** Reserving: the bit decides; afterwards the VMID is in use, nothing else changed. *)
Lemma vmid_reserve_ok vmids vmid :
  vmids_wf vmids -> 0 <= vmid < vmid_count ->
  exists vmids', vmid_reserve vmids vmid = Some (negb (in_use vmids vmid), vmids') /\
    vmids_wf vmids' /\
    (forall u, 0 <= u -> in_use vmids' u = in_use vmids u || (u =? vmid)) /\
    (in_use vmids vmid = true -> vmids' = vmids).
Proof.
  intros Hwf Hv. destruct (bitmap_set_bit vmids vmid (proj2 Hwf) (vmid_in_pool _ _ Hwf Hv)) as (w & vm' & Hw & Hold & Hs & Hwf' & Hlen & Hu & Hid).
  unfold vmid_reserve, BITS_PER_UL. rewrite (proj2 (Z.leb_gt _ _)), Hw by lia. cbn [mbind option_bind].
  destruct (atomic_bit_set w (vmid mod 64)) as [old w']. cbn [fst snd] in *. rewrite Hs, Hold. cbn [mbind option_bind].
  exists vm'. split_and!; try done. split; [rewrite Hlen; apply Hwf|done].
Qed.

Lemma vmid_search_ok n : forall vmids i,
  vmids_wf vmids -> 0 <= i -> i + Z.of_nat n <= vmid_count ->
  exists r vmids', vmid_search vmids n i = Some (r, vmids') /\ vmids_wf vmids' /\
    match r with
    | Some v => i <= v < i + Z.of_nat n /\ in_use vmids v = false /\
        forall u, 0 <= u -> in_use vmids' u = in_use vmids u || (u =? v)
    | None => vmids' = vmids /\ forall v, i <= v < i + Z.of_nat n -> in_use vmids v = true
    end.
Proof.
  induction n as [|n IH]; intros vmids i Hwf Hi Hb; cbn [vmid_search].
  { exists None, vmids. split_and!; try done. intros v Hv. lia. }
  destruct (vmid_reserve_ok vmids i Hwf ltac:(lia)) as (vm' & Hr & Hwf' & Hu & Hid).
  rewrite Hr. cbn [mbind option_bind]. destruct (in_use vmids i) eqn:E; cbn [negb].
  - rewrite (Hid eq_refl). destruct (IH vmids (i + 1) Hwf ltac:(lia) ltac:(lia))
      as (r & vm'' & Hs & Hwf'' & Hres).
    exists r, vm''. split; [done|]. split; [done|]. destruct r as [v|].
    + destruct Hres as (? & ? & ?). split_and!; try done; lia.
    + destruct Hres as (-> & Hall). split; [done|]. intros v Hv.
      destruct (decide (v = i)) as [->|]; [done|apply Hall; lia].
  - exists (Some i), vm'. split_and!; try done; lia.
Qed.

Lemma vmid_hint_some vmids : vmids_wf vmids -> exists h, vmid_hint vmids = Some h /\ 0 <= h.
Proof.
  intros [Hlen _]. unfold vmid_hint.
  assert (Hgen : forall n i, 0 <= i -> i + Z.of_nat n <= Z.of_nat (length vmids) ->
    exists h, vmid_hint_loop vmids n i = Some h /\ 0 <= h).
  { induction n as [|n IH]; intros i Hi Hn; cbn [vmid_hint_loop]; [by exists 0|].
    destruct (arr_get_some vmids i ltac:(lia)) as [w ->]. cbn [mbind option_bind].
    destruct (negb (w =? not64 0)); [|apply IH; lia]. eexists. split; [done|].
    unfold builtin_ctzl, BITS_PER_UL. pose proof (lowest_set_spec 64 0 (not64 w)) as Hl.
    destruct (lowest_set 64 0 (not64 w)); cbn [from_option id]; lia. }
  apply Hgen; lia.
Qed.

(** [vmid_alloc] hands out a VMID that the CPU supports and that was not in
    use, and marks exactly it; it fails only when every supported VMID is in use,
    and then leaves the pool unchanged. *)
Theorem vmid_alloc_correct vmids :
  vmids_wf vmids ->
  exists r vmids', vmid_alloc vmids = Some (r, vmids') /\ vmids_wf vmids' /\
    match r with
    | Some v => 0 <= v < vmid_count /\ in_use vmids v = false /\
        forall u, 0 <= u -> in_use vmids' u = in_use vmids u || (u =? v)
    | None => vmids' = vmids /\ forall v, 0 <= v < vmid_count -> in_use vmids v = true
    end.
Proof.
  intros Hwf. pose proof vmid_count_range as Hc. unfold vmid_alloc.
  destruct (vmid_hint_some vmids Hwf) as (h & -> & Hh). cbn [mbind option_bind].
  set (start := if vmid_count <=? h then 0 else h).
  assert (Hst : 0 <= start < vmid_count) by (unfold start; destruct (Z.leb_spec vmid_count h); lia).
  destruct (vmid_search_ok (Z.to_nat (vmid_count - start)) vmids start Hwf ltac:(lia) ltac:(lia))
    as (r1 & vm1 & Hs1 & Hwf1 & Hr1).
  rewrite Hs1. cbn [mbind option_bind]. destruct r1 as [v|].
  { exists (Some v), vm1. destruct Hr1 as (? & ? & ?). split_and!; try done; lia. }
  destruct Hr1 as (-> & Hall1).
  destruct (vmid_search_ok (Z.to_nat start) vmids 0 Hwf ltac:(lia) ltac:(lia))
    as (r2 & vm2 & Hs2 & Hwf2 & Hr2).
  exists r2, vm2. split; [done|]. split; [done|]. destruct r2 as [v|].
  - destruct Hr2 as (? & ? & ?). split_and!; try done; lia.
  - destruct Hr2 as (-> & Hall2). split; [done|]. intros v Hv.
    destruct (decide (v < start)); [apply Hall2; lia|apply Hall1; lia].
Qed.

(** freeing a supported VMID succeeds and takes exactly it out of use, so that
    freeing what was allocated gives the pool back. *)
Theorem vmid_free_correct vmids vmid :
  vmids_wf vmids -> 0 <= vmid < vmid_count ->
  exists vmids', vmid_free vmids vmid = Some vmids' /\ vmids_wf vmids' /\
    forall u, 0 <= u -> in_use vmids' u = in_use vmids u && negb (u =? vmid).
Proof.
  intros Hwf Hv. destruct (bitmap_clear_bit vmids vmid (proj2 Hwf) (vmid_in_pool _ _ Hwf Hv)) as (w & vm' & Hw & Hs & Hwf' & Hlen & Hu).
  unfold vmid_free, BITS_PER_UL. rewrite (proj2 (Z.ltb_lt _ _)), Hw by lia. cbn [mbind option_bind].
  exists vm'. split_and!; try done. split; [rewrite Hlen; apply Hwf|done].
Qed.

End Vmid.

(** ** Concrete instances *)

#[local] Existing Instance demo_features.

Definition demo_pool : list Z := 7 :: replicate 1023 0.

Lemma demo_pool_wf : vmids_wf demo_pool.
Proof.
  split; [reflexivity|]. constructor; [cbv; split; congruence|].
  apply Forall_replicate. cbv; split; congruence.
Qed.

Lemma vmid_alloc_correct_witness :
  exists r vmids', vmid_alloc demo_pool = Some (r, vmids') /\ vmids_wf vmids'.
Proof.
  destruct (vmid_alloc_correct demo_pool demo_pool_wf) as (r & vm & H & Hwf & _).
  exists r, vm. split; [exact H|exact Hwf].
Defined.

Lemma vmid_free_correct_witness :
  exists vmids', vmid_free demo_pool 2 = Some vmids' /\ vmids_wf vmids'.
Proof.
  destruct (vmid_free_correct demo_pool 2 demo_pool_wf) as (vm & H & Hwf & _);
    [cbv; split; congruence|].
  exists vm. split; [exact H|exact Hwf].
Defined.
