(* ===== verification/Rwlock.v ===== *)
(** * Reader-writer locks ([lib/common/include/rwlock.h])

    One 64-bit word holds an admission gate, a writer flag and the number of
    readers.  Any number of PEs run the acquire and release functions at the same
    time; every atomic access of the code is one step of [exec], which is
    executable.  A PE may hold several nested read locks.  A failed assertion
    takes a PE to [Panic], so that absence of panics is part of the invariant. *)

From Stdlib Require Import ZArith Lia Bool ZifyBool.
From stdpp Require Import base tactics option list numbers.
From S2P Require Import Prelude.
From S2P Require Import Utils.
From S2P Require Import Bitmap.
From S2P Require Import Granule.

Definition RWLOCK_GATE_SHIFT : Z := 63.
Definition RWLOCK_WRITER_SHIFT : Z := 62.
Definition RWLOCK_GATE_BIT : Z := shl64 1 RWLOCK_GATE_SHIFT.
Definition RWLOCK_WRITER_BIT : Z := shl64 1 RWLOCK_WRITER_SHIFT.
Definition RWLOCK_READERS_MASK : Z := RWLOCK_WRITER_BIT - 1.

Definition RWLOCK_READERS (state : Z) : Z := Z.land state RWLOCK_READERS_MASK.
Definition RWLOCK_GATE_LOCKED (state : Z) : bool := negb (Z.land state RWLOCK_GATE_BIT =? 0).
Definition RWLOCK_WRITER_LOCKED (state : Z) : bool := negb (Z.land state RWLOCK_WRITER_BIT =? 0).

Definition rwlock_init : Z := 0.

(** The 64-bit bit locks of [bitlock.h]. *)
Definition bitlock_try_acquire_64 (loc bit : Z) : bool * Z :=
  let mask := shl64 1 bit in (Z.land loc mask =? 0, Z.lor loc mask).
Definition bitlock_release_64 (loc bit : Z) : Z := Z.land loc (not64 (shl64 1 bit)).
(** [bitlock_wait_while_64] goes round its loop. *)
Definition bitlock_waiting_64 (loc mask value : Z) : bool := Z.land loc mask =? value.

(** ** Where a PE is in the code *)

Inductive rwpc :=
  | Out                    (* in no function of the lock *)
  (* rwlock_read_acquire *)
  | R_wait                 (* bitlock_acquire_64: bitlock_wait_64 *)
  | R_try                  (* bitlock_acquire_64: bitlock_try_acquire_64 *)
  | R_no_writer            (* assert(!RWLOCK_WRITER_LOCKED(lock)) *)
  | R_room                 (* assert(RWLOCK_READERS(lock) < RWLOCK_READERS_MASK) *)
  | R_add                  (* atomic_add_64 *)
  | R_open                 (* bitlock_release_64 *)
  (* rwlock_read_release *)
  | X_some                 (* assert(RWLOCK_READERS(lock) != 0UL) *)
  | X_sub                  (* atomic_load_add_release_64 *)
  (* rwlock_write_try_acquire, and rwlock_write_acquire when [blocking] *)
  | W_try (blocking : bool)        (* bitlock_try_acquire_64 *)
  | W_readers (blocking : bool)    (* SCA_READ64_ACQUIRE *)
  | W_back (blocking : bool)       (* bitlock_release_64; return false *)
  | W_no_writer (blocking : bool)  (* assert(!RWLOCK_WRITER_LOCKED(lock)) *)
  | W_set (blocking : bool)        (* atomic_bit_set_64; return true *)
  | W_load                 (* SCA_READ64 of rwlock_write_acquire *)
  | W_wait (state : Z)     (* bitlock_wait_while_64 *)
  | W_held                 (* owns the lock exclusively *)
  (* rwlock_write_release *)
  | W_is_writer            (* assert(RWLOCK_WRITER_LOCKED(lock)) *)
  | W_clear                (* atomic_bit_clear_64 *)
  | W_open                 (* bitlock_release_64 *)
  | Panic.

(** A PE: its program point and the read locks it holds. *)
Record pe := PE { at_pc : rwpc; nread : nat }.

(** A failed [try]: return false, or go round the loop of [rwlock_write_acquire]. *)
Definition try_failed (blocking : bool) : rwpc := if blocking then W_load else Out.

(** One atomic access of the code; [None] when there is none to make, because the
    PE is in no function or its wait goes on. *)
Definition exec (w : Z) (p : pe) : option (Z * pe) :=
  let goto pc := PE pc (nread p) in
  match at_pc p with
  | Out | W_held | Panic => None
  | R_wait =>
      if bitlock_waiting_64 w (shl64 1 RWLOCK_GATE_SHIFT) (shl64 1 RWLOCK_GATE_SHIFT) then None else Some (w, goto R_try)
  | R_try =>
      let '(ok, w') := bitlock_try_acquire_64 w RWLOCK_GATE_SHIFT in Some (w', goto (if ok then R_no_writer else R_wait))
  | R_no_writer => Some (w, goto (if negb (RWLOCK_WRITER_LOCKED w) then R_room else Panic))
  | R_room => Some (w, goto (if RWLOCK_READERS w <? RWLOCK_READERS_MASK then R_add else Panic))
  | R_add => Some (add64 w 1, goto R_open)
  | R_open => Some (bitlock_release_64 w RWLOCK_GATE_SHIFT, PE Out (S (nread p)))
  | X_some => Some (w, goto (if negb (RWLOCK_READERS w =? 0) then X_sub else Panic))
  | X_sub => Some (add64 w UINT64_MAX, PE Out (pred (nread p)))
  | W_try b =>
      let '(ok, w') := bitlock_try_acquire_64 w RWLOCK_GATE_SHIFT in Some (w', goto (if ok then W_readers b else try_failed b))
  | W_readers b => Some (w, goto (if negb (Z.land w RWLOCK_READERS_MASK =? 0) then W_back b else W_no_writer b))
  | W_back b => Some (bitlock_release_64 w RWLOCK_GATE_SHIFT, goto (try_failed b))
  | W_no_writer b => Some (w, goto (if negb (RWLOCK_WRITER_LOCKED w) then W_set b else Panic))
  | W_set b => Some (snd (atomic_bit_set w RWLOCK_WRITER_SHIFT), goto W_held)
  | W_load => Some (w, goto (if negb (w =? 0) then W_wait w else W_try true))
  | W_wait s => if bitlock_waiting_64 w UINT64_MAX s then None else Some (w, goto (W_try true))
  | W_is_writer => Some (w, goto (if RWLOCK_WRITER_LOCKED w then W_clear else Panic))
  | W_clear => Some (atomic_bit_clear w RWLOCK_WRITER_SHIFT, goto W_open)
  | W_open => Some (bitlock_release_64 w RWLOCK_GATE_SHIFT, goto Out)
  end.

Record rwworld := RW { rw_state : Z; rw_pes : list pe }.

(** ** Ownership, as numbers *)

Fixpoint sum (f : pe -> Z) (l : list pe) : Z :=
  match l with [] => 0 | p :: l => f p + sum f l end.

(** The reader count a PE accounts for. *)
Definition reads (p : pe) : Z := Z.of_nat (nread p) + (if at_pc p is R_open then 1 else 0).

(** The same, with acquisitions that have not counted yet. *)
Definition claims (p : pe) : Z :=
  Z.of_nat (nread p) + match at_pc p with R_wait | R_try | R_no_writer | R_room | R_add | R_open => 1 | _ => 0 end.

(** The PE owns the gate. *)
Definition gates (p : pe) : Z :=
  match at_pc p with
  | R_no_writer | R_room | R_add | R_open | W_readers _ | W_back _ | W_no_writer _ | W_set _ | W_held
  | W_is_writer | W_clear | W_open => 1
  | _ => 0
  end.

(** The PE has set the writer flag. *)
Definition writes (p : pe) : Z := match at_pc p with W_held | W_is_writer | W_clear => 1 | _ => 0 end.

(** The PE has seen that there is no reader. *)
Definition excludes (p : pe) : Z :=
  match at_pc p with W_no_writer _ | W_set _ | W_held | W_is_writer | W_clear | W_open => 1 | _ => 0 end.

(** ** Steps of the system

    A PE outside the functions calls one: what the header demands of callers is
    that the outstanding readers fit in the field, that a reader releases a lock it
    holds, and that only the owner releases a write lock. *)

Inductive rw_step : rwworld -> rwworld -> Prop :=
  | rw_exec w i p w' p' : rw_pes w !! i = Some p -> exec (rw_state w) p = Some (w', p') ->
      rw_step w (RW w' (<[i := p']> (rw_pes w)))
  | rw_call_read w i n : rw_pes w !! i = Some (PE Out n) -> sum claims (rw_pes w) < RWLOCK_READERS_MASK ->
      rw_step w (RW (rw_state w) (<[i := PE R_wait n]> (rw_pes w)))
  | rw_call_read_release w i n : rw_pes w !! i = Some (PE Out n) -> n <> O ->
      rw_step w (RW (rw_state w) (<[i := PE X_some n]> (rw_pes w)))
  | rw_call_write w i n b : rw_pes w !! i = Some (PE Out n) ->
      rw_step w (RW (rw_state w) (<[i := PE (W_try b) n]> (rw_pes w)))
  | rw_call_write_release w i n : rw_pes w !! i = Some (PE W_held n) ->
      rw_step w (RW (rw_state w) (<[i := PE W_is_writer n]> (rw_pes w))).

Inductive rw_reachable (w0 : rwworld) : rwworld -> Prop :=
  | rwr_init : rw_reachable w0 w0
  | rwr_step w w' : rw_reachable w0 w -> rw_step w w' -> rw_reachable w0 w'.

Definition rw_initial (n : nat) : rwworld := RW rwlock_init (replicate n (PE Out 0)).

(** ** The word *)

Definition rw_word (gate writer : bool) (n : Z) : Z := (2 * Z.b2z gate + Z.b2z writer) * 2 ^ 62 + n.

Ltac rw_bits := intros; unfold rw_word; repeat match goal with b : bool |- _ => destruct b end; cbn [Z.b2z].

Lemma word_readers g t n : 0 <= n < 2 ^ 62 -> RWLOCK_READERS (rw_word g t n) = n.
Proof.
  intros Hn. unfold RWLOCK_READERS. rw_bits;
    (rewrite (land_split_keep 62 _ n 0) by (done || lia)); rewrite Z.land_0_r; lia.
Qed.

Lemma word_writer g t n : 0 <= n < 2 ^ 62 -> RWLOCK_WRITER_LOCKED (rw_word g t n) = t.
Proof.
  intros Hn. unfold RWLOCK_WRITER_LOCKED. change RWLOCK_WRITER_BIT with (1 * 2 ^ 62).
  rw_bits; (rewrite land_split by lia); reflexivity.
Qed.

Lemma word_gate_land g t n : 0 <= n < 2 ^ 62 ->
  Z.land (rw_word g t n) (shl64 1 RWLOCK_GATE_SHIFT) = if g then shl64 1 RWLOCK_GATE_SHIFT else 0.
Proof.
  intros Hn. change (shl64 1 RWLOCK_GATE_SHIFT) with (2 * 2 ^ 62).
  rw_bits; (rewrite land_split by lia); reflexivity.
Qed.

Lemma word_take g t n : 0 <= n < 2 ^ 62 ->
  bitlock_try_acquire_64 (rw_word g t n) RWLOCK_GATE_SHIFT = (negb g, rw_word true t n).
Proof.
  intros Hn. unfold bitlock_try_acquire_64. rewrite word_gate_land by done. f_equal; [by destruct g|].
  change (shl64 1 RWLOCK_GATE_SHIFT) with (2 * 2 ^ 62). rw_bits; (rewrite lor_split by lia); reflexivity.
Qed.

Lemma word_open g t n : 0 <= n < 2 ^ 62 ->
  bitlock_release_64 (rw_word g t n) RWLOCK_GATE_SHIFT = rw_word false t n.
Proof.
  intros Hn. unfold bitlock_release_64.
  rw_bits; (rewrite (land_split_keep 62 _ n 1) by (done || lia)); reflexivity.
Qed.

Lemma word_set g t n : 0 <= n < 2 ^ 62 -> snd (atomic_bit_set (rw_word g t n) RWLOCK_WRITER_SHIFT) = rw_word g true n.
Proof.
  intros Hn. cbn [atomic_bit_set snd]. change (shl64 1 RWLOCK_WRITER_SHIFT) with (1 * 2 ^ 62).
  rw_bits; (rewrite lor_split by lia); reflexivity.
Qed.

Lemma word_clear g t n : 0 <= n < 2 ^ 62 -> atomic_bit_clear (rw_word g t n) RWLOCK_WRITER_SHIFT = rw_word g false n.
Proof.
  intros Hn. unfold atomic_bit_clear.
  rw_bits; (rewrite (land_split_keep 62 _ n 2) by (done || lia)); reflexivity.
Qed.

Lemma word_inc g t n : 0 <= n < 2 ^ 62 - 1 -> add64 (rw_word g t n) 1 = rw_word g t (n + 1).
Proof. intros Hn. unfold add64. rewrite u64_small; rw_bits; unfold in_u64; lia. Qed.

Lemma word_dec g t n : 0 < n < 2 ^ 62 -> add64 (rw_word g t n) UINT64_MAX = rw_word g t (n - 1).
Proof.
  intros Hn. unfold add64, u64, UINT64_MAX. symmetry. apply (Z.mod_unique_pos _ _ 1); rw_bits; lia.
Qed.

Lemma word_zero g t n : 0 <= n -> rw_word g t n = 0 -> g = false /\ n = 0.
Proof. unfold rw_word. rw_bits; lia. Qed.

(** ** Sums over PEs *)

Lemma sum_insert f l i p q : l !! i = Some p -> sum f (<[i := q]> l) = sum f l - f p + f q.
Proof.
  revert i. induction l as [|x l IH]; intros [|i] H; cbn in *; try done.
  - injection H as ->. lia.
  - rewrite IH by done. lia.
Qed.

Lemma sum_le f h l : (forall p, f p <= h p) -> sum f l <= sum h l.
Proof. intros H. induction l as [|x l IH]; cbn; [done|]. specialize (H x). lia. Qed.

Lemma sum_nonneg f l : (forall p, 0 <= f p) -> 0 <= sum f l.
Proof. intros H. induction l as [|x l IH]; cbn; [done|]. specialize (H x). lia. Qed.

(** If [f] is below [h] everywhere, the sums differ by what one PE contributes. *)
Lemma sum_gap f h l i p : (forall q, f q <= h q) -> l !! i = Some p -> h p - f p <= sum h l - sum f l.
Proof.
  intros H. revert i. induction l as [|x l IH]; intros [|i] Hi; cbn in *; try done.
  - injection Hi as ->. pose proof (sum_le f h l H). lia.
  - specialize (IH i Hi). specialize (H x). lia.
Qed.

Lemma sum_member f l i p : (forall q, 0 <= f q) -> l !! i = Some p -> f p <= sum f l.
Proof.
  intros H Hi. pose proof (sum_gap (fun _ => 0) f l i p H Hi) as Hg.
  assert (Hz : sum (fun _ => 0) l = 0) by (clear; induction l as [|x l IH]; [done|exact IH]). cbn beta in Hg. lia.
Qed.

(** Two different members. *)
Lemma sum_two f l i j p q :
  (forall x, 0 <= f x) -> i <> j -> l !! i = Some p -> l !! j = Some q -> f p + f q <= sum f l.
Proof.
  intros H. revert i j. induction l as [|x l IH]; intros [|i] [|j] Hne Hi Hj; cbn in *; try done.
  - injection Hi as ->. pose proof (sum_member f l j q H Hj). lia.
  - injection Hj as ->. pose proof (sum_member f l i p H Hi). lia.
  - specialize (IH i j ltac:(congruence) Hi Hj). specialize (H x). lia.
Qed.

Lemma sum_zero f l i p : (forall q, 0 <= f q) -> sum f l = 0 -> l !! i = Some p -> f p = 0.
Proof. intros H Hs Hi. pose proof (sum_member f l i p H Hi). specialize (H p). lia. Qed.

(** ** The invariant *)

Definition pe_ok (p : pe) : Prop :=
  match at_pc p with
  | Panic => False
  | X_some | X_sub => nread p <> O
  | W_wait s => in_u64 s /\ s <> 0
  | _ => True
  end.

(** The fields of the word are the sums of what the PEs account for. *)
Record rw_inv (w : rwworld) : Prop := {
  ri_word : exists g t, rw_state w = rw_word g t (sum reads (rw_pes w)) /\
              sum gates (rw_pes w) = Z.b2z g /\ sum writes (rw_pes w) = Z.b2z t;
  ri_excl : sum excludes (rw_pes w) = 0 \/ sum reads (rw_pes w) = 0;
  ri_room : sum claims (rw_pes w) <= RWLOCK_READERS_MASK;
  ri_pes : Forall pe_ok (rw_pes w)
}.

Ltac pe_cases p := destruct p as [[] ?]; cbn; try lia.

Lemma reads_nonneg p : 0 <= reads p.
Proof. unfold reads. pe_cases p. Qed.
Lemma gates_nonneg p : 0 <= gates p.
Proof. unfold gates. pe_cases p. Qed.
Lemma writes_nonneg p : 0 <= writes p.
Proof. unfold writes. pe_cases p. Qed.
Lemma excludes_nonneg p : 0 <= excludes p.
Proof. unfold excludes. pe_cases p. Qed.
Lemma reads_claims p : reads p <= claims p.
Proof. unfold reads, claims. pe_cases p. Qed.
Lemma writes_excludes p : writes p <= excludes p.
Proof. unfold writes, excludes. pe_cases p. Qed.
Lemma excludes_gates p : excludes p <= gates p.
Proof. unfold gates, excludes. pe_cases p. Qed.

Lemma rw_initial_inv n : rw_inv (rw_initial n).
Proof.
  assert (Hs : forall f, f (PE Out 0) = 0 -> sum f (replicate n (PE Out 0)) = 0)
    by (intros f Hf; induction n; cbn; lia).
  split; cbn [rw_initial rw_pes rw_state]; rewrite ?Hs by done; [|by left|done|by apply Forall_replicate].
  by exists false, false.
Qed.

(** Every step moves one PE: the sums change by that PE's share, and the rest is
    arithmetic. *)
Lemma rw_move w i p w' p' g t :
  rw_pes w !! i = Some p -> rw_inv w ->
  (let n := sum reads (rw_pes w) + (reads p' - reads p) in
   w' = rw_word g t n /\ sum gates (rw_pes w) + (gates p' - gates p) = Z.b2z g /\
   sum writes (rw_pes w) + (writes p' - writes p) = Z.b2z t /\
   (sum excludes (rw_pes w) + (excludes p' - excludes p) = 0 \/ n = 0)) ->
  sum claims (rw_pes w) + (claims p' - claims p) <= RWLOCK_READERS_MASK -> pe_ok p' ->
  rw_inv (RW w' (<[i := p']> (rw_pes w))).
Proof.
  intros Hi [_ _ _ Hok] (Hw & Hg & Ht & Hx) Hc Hp'.
  split; cbn [rw_state rw_pes]; rewrite ?(sum_insert _ _ _ _ p' Hi); [|lia|lia|by apply Forall_insert].
  exists g, t. split_and!; [|lia|lia]. rewrite Hw. f_equal. lia.
Qed.

Lemma mask_value : RWLOCK_READERS_MASK = 2 ^ 62 - 1.
Proof. reflexivity. Qed.

(** What the invariant says from the point of view of one PE. *)
Lemma rw_view w i p :
  rw_inv w -> rw_pes w !! i = Some p ->
  exists g t n, rw_state w = rw_word g t n /\ n = sum reads (rw_pes w) /\ sum gates (rw_pes w) = Z.b2z g /\
    sum writes (rw_pes w) = Z.b2z t /\ reads p <= n /\ n - reads p + claims p <= 2 ^ 62 - 1 /\ 0 <= n < 2 ^ 62 /\
    gates p <= Z.b2z g /\ writes p <= Z.b2z t /\ Z.b2z t - writes p <= Z.b2z g - gates p /\
    (0 < excludes p -> n = 0) /\ (sum excludes (rw_pes w) = 0 \/ n = 0) /\
    0 <= sum excludes (rw_pes w) - excludes p <= Z.b2z g - gates p /\ pe_ok p.
Proof.
  intros [(g & t & Hw & Hg & Ht) Hx Hc Hok] Hi. rewrite mask_value in Hc. rewrite Forall_lookup in Hok. specialize (Hok i p Hi).
  pose proof (sum_gap _ _ _ i p reads_claims Hi). pose proof (sum_member _ _ i p reads_nonneg Hi).
  pose proof (sum_member _ _ i p gates_nonneg Hi). pose proof (sum_member _ _ i p writes_nonneg Hi).
  pose proof (sum_member _ _ i p excludes_nonneg Hi). pose proof (sum_gap _ _ _ i p excludes_gates Hi).
  pose proof (sum_gap writes gates _ i p ltac:(intros q; pose proof (writes_excludes q); pose proof (excludes_gates q); lia) Hi).
  pose proof (reads_nonneg p). pose proof (reads_claims p). pose proof (excludes_nonneg p).
  exists g, t, (sum reads (rw_pes w)). split_and!; try done; lia.
Qed.

Lemma rw_exec_inv w i p w' p' :
  rw_inv w -> rw_pes w !! i = Some p -> exec (rw_state w) p = Some (w', p') -> rw_inv (RW w' (<[i := p']> (rw_pes w))).
Proof.
  intros Hinv Hi He. pose proof (ri_room _ Hinv) as Hroom.
  destruct (rw_view w i p Hinv Hi) as (g & t & n & Hw & Hn & Hg & Ht & H1 & H2 & H3 & H4 & H5 & H6 & H7 & H8 & H9 & Hok).
  rewrite Hw in He. destruct p as [pc k]. unfold exec in He. cbn [at_pc nread] in *.
  destruct pc; try discriminate He; fold (RWLOCK_READERS (rw_word g t n)) in He;
    rewrite ?word_take, ?word_open, ?word_set, ?word_clear, ?word_writer, ?word_readers in He by done.
  all: repeat match type of He with (if ?b then _ else _) = _ => destruct b; try discriminate He end.
  all: unfold reads, claims in H1, H2; cbn in H1, H2, H4, H5, H6, H7, H8, H9, Hok.
  all: injection He as <- <-; rewrite ?word_inc, ?word_dec by lia.
  all: match goal with |- rw_inv (RW (rw_word ?g' ?t' ?n') (<[_ := ?p']> _)) =>
         apply (rw_move w i _ _ p' g' t' Hi Hinv) end; rewrite <- ?Hn, ?Hg, ?Ht.
  all: generalize dependent (sum claims (rw_pes w)); intros c Hroom; unfold pe_ok, reads, claims, try_failed.
  all: repeat match goal with
         | b : bool |- _ => destruct b
         | |- context [if negb (?x =? ?y) then _ else _] => destruct (Z.eqb_spec x y)
         | |- context [if ?x <? ?y then _ else _] => destruct (Z.ltb_spec x y)
         end; cbn [negb gates writes excludes at_pc nread Z.b2z] in *; rewrite ?mask_value in *.
  all: try exact I; try lia.
  all: try (split_and!; [f_equal; lia|lia..]).
  all: split; [unfold in_u64, rw_word; cbn [Z.b2z]; lia|done].
Qed.

Lemma rw_call_inv w i p p' :
  rw_inv w -> rw_pes w !! i = Some p -> pe_ok p' ->
  reads p' = reads p -> gates p' = gates p -> writes p' = writes p -> excludes p' = excludes p ->
  sum claims (rw_pes w) + (claims p' - claims p) <= RWLOCK_READERS_MASK ->
  rw_inv (RW (rw_state w) (<[i := p']> (rw_pes w))).
Proof.
  intros Hinv Hi Hp Hr Hg Ht Hx Hc. destruct (ri_word _ Hinv) as (g & t & Hw & Hsg & Hst). pose proof (ri_excl _ Hinv).
  apply (rw_move w i p _ _ g t Hi Hinv); [|done|done]. rewrite Hw. split_and!; [f_equal; lia|lia..].
Qed.

Lemma rw_reachable_inv k w : rw_reachable (rw_initial k) w -> rw_inv w.
Proof.
  induction 1 as [|w w' _ IH Hs]; [apply rw_initial_inv|]. pose proof (ri_room _ IH).
  destruct Hs as [w i p w' p' Hi He|w i n Hi Hr|w i n Hi Hn|w i n b Hi|w i n Hi].
  - by eapply rw_exec_inv.
  - eapply rw_call_inv; try done. unfold claims at 2 3. cbn [at_pc nread]. lia.
  - eapply rw_call_inv; try done. unfold claims at 2 3. cbn [at_pc nread]. lia.
  - eapply rw_call_inv; try done. unfold claims at 2 3. cbn [at_pc nread]. lia.
  - eapply rw_call_inv; try done. unfold claims at 2 3. cbn [at_pc nread]. lia.
Qed.

Lemma sum_pos f l : (forall q, 0 <= f q) -> 0 < sum f l -> exists i p, l !! i = Some p /\ 0 < f p.
Proof.
  intros H. induction l as [|x l IH]; cbn [sum]; [lia|]. intros Hs. pose proof (H x).
  destruct (decide (0 < f x)); [by exists O, x|]. destruct IH as (i & p & Hi & Hp); [lia|]. by exists (S i), p.
Qed.

(** Whoever waits does so because another PE owns the gate, or somebody reads. *)
Lemma rw_blocked w i p :
  rw_inv w -> rw_pes w !! i = Some p -> exec (rw_state w) p = None -> at_pc p <> Out -> at_pc p <> W_held ->
  exists j q, rw_pes w !! j = Some q /\ (gates q = 1 \/ 0 < reads q).
Proof.
  intros Hinv Hi He Ho Hh.
  destruct (rw_view w i p Hinv Hi) as (g & t & n & Hw & Hn & Hg & Ht & _ & _ & H3 & _ & Hwp & Hgap & _ & _ & _ & Hok).
  assert (Hgp : forall q, gates q <= 1) by (intros q; unfold gates; pe_cases q).
  assert (Hgs : g = true -> exists j q, rw_pes w !! j = Some q /\ (gates q = 1 \/ 0 < reads q)).
  { intros ->. cbn in Hg. destruct (sum_pos gates (rw_pes w) gates_nonneg ltac:(lia)) as (j & q & Hj & Hq).
    exists j, q. split; [done|]. left. specialize (Hgp q). lia. }
  destruct p as [pc k]. unfold exec in He. cbn [at_pc nread] in *. rewrite Hw in He.
  destruct pc; try done; try (rewrite word_take in He by done; discriminate He).
  - unfold bitlock_waiting_64 in He. rewrite word_gate_land in He by done. destruct g; [by apply Hgs|done].
  - cbn in Hok. destruct Hok as [Hs64 Hs0]. unfold bitlock_waiting_64 in He.
    destruct (Z.eqb_spec (Z.land (rw_word g t n) UINT64_MAX) state) as [Es|]; [|done].
    destruct g; [by apply Hgs|]. destruct t; [cbn in *; lia|].
    destruct (decide (n = 0)) as [E0|]; [by rewrite E0 in Es|].
    destruct (sum_pos reads (rw_pes w) reads_nonneg ltac:(lia)) as (j & q & Hj & Hq). exists j, q. split; [done|by right].
Qed.

(** C25: under every interleaving of any number of PEs no assertion of the lock
    fails; the fields of the word are what the PEs own; and while a PE owns the
    lock exclusively, no PE, itself included, holds a read lock and no other PE
    is past the gate. *)
Theorem rwlock_exclusion k w :
  rw_reachable (rw_initial k) w ->
  (forall i p, rw_pes w !! i = Some p -> at_pc p <> Panic) /\
  RWLOCK_READERS (rw_state w) = sum reads (rw_pes w) /\
  forall i n, rw_pes w !! i = Some (PE W_held n) ->
    RWLOCK_WRITER_LOCKED (rw_state w) = true /\ RWLOCK_GATE_LOCKED (rw_state w) = true /\
    RWLOCK_READERS (rw_state w) = 0 /\
    forall j q, rw_pes w !! j = Some q -> nread q = O /\ (j <> i -> gates q = 0).
Proof.
  intros Hr. pose proof (rw_reachable_inv _ _ Hr) as Hinv. pose proof Hinv as [(g & t & Hw & Hg & Ht) Hx Hc Hok].
  assert (Hn : 0 <= sum reads (rw_pes w) < 2 ^ 62).
  { pose proof (sum_le _ _ (rw_pes w) reads_claims). pose proof (sum_nonneg _ (rw_pes w) reads_nonneg).
    rewrite mask_value in Hc. lia. }
  split_and!.
  - intros i p Hi Hp. rewrite Forall_lookup in Hok. specialize (Hok i p Hi). unfold pe_ok in Hok. by rewrite Hp in Hok.
  - by rewrite Hw, word_readers.
  - intros i n Hi. pose proof (sum_member _ _ _ _ writes_nonneg Hi) as H1. pose proof (sum_member _ _ _ _ gates_nonneg Hi) as H2.
    pose proof (sum_member _ _ _ _ excludes_nonneg Hi) as H3. cbn in H1, H2, H3.
    assert (Hz : sum reads (rw_pes w) = 0) by lia. rewrite Hw, Hz, word_writer, word_readers by done.
    unfold RWLOCK_GATE_LOCKED. change RWLOCK_GATE_BIT with (shl64 1 RWLOCK_GATE_SHIFT). rewrite word_gate_land by done.
    split_and!; [destruct t; [done|cbn in *; lia]|destruct g; [done|cbn in *; lia]|done|]. intros j q Hj. split.
    + pose proof (sum_zero _ _ _ _ reads_nonneg Hz Hj) as Hq. unfold reads in Hq. destruct (at_pc q); lia.
    + intros Hne. pose proof (sum_two gates _ i j _ _ gates_nonneg ltac:(congruence) Hi Hj) as H4. cbn [gates at_pc] in H4.
      pose proof (gates_nonneg q). destruct g; cbn [Z.b2z] in Hg; lia.
Qed.

(** C26: the lock has no deadlock of its own: while some PE is inside one of the
    functions and no PE holds a read or write lock, some PE can take a step; in
    particular no wait goes on for a lock that is free. *)
Theorem rwlock_deadlock_free k w i p :
  rw_reachable (rw_initial k) w ->
  (forall j q, rw_pes w !! j = Some q -> at_pc q <> W_held /\ nread q = O) ->
  rw_pes w !! i = Some p -> at_pc p <> Out ->
  exists w', rw_step w w' /\ exists j q, rw_pes w !! j = Some q /\ at_pc q <> Out /\ is_Some (exec (rw_state w) q).
Proof.
  intros Hr Hfree Hi Hp. pose proof (rw_reachable_inv _ _ Hr) as Hinv.
  assert (Hgo : forall j q, rw_pes w !! j = Some q -> at_pc q <> Out -> is_Some (exec (rw_state w) q) ->
    exists w', rw_step w w' /\ exists j q, rw_pes w !! j = Some q /\ at_pc q <> Out /\ is_Some (exec (rw_state w) q)).
  { intros j q Hj Hq [[v q'] He]. eexists. split; [by eapply rw_exec|]. by exists j, q; rewrite He. }
  destruct (exec (rw_state w) p) eqn:He; [by apply (Hgo i p); rewrite ?He|].
  destruct (rw_blocked w i p Hinv Hi He Hp) as (j & q & Hj & Hq); [by apply (Hfree i p)|].
  destruct (Hfree j q Hj) as [Hh Hn].
  assert (Hg : gates q = 1) by (destruct Hq as [|Hq]; [done|]; unfold reads in Hq; rewrite Hn in Hq;
    unfold gates; by destruct (at_pc q)).
  apply (Hgo j q Hj); unfold gates in Hg; unfold exec; destruct q as [pc k']; cbn [at_pc] in *; destruct pc; try done; by eexists.
Qed.

(** ** A concrete run: PE 0 reads, PE 1 writes after PE 0 has left *)

(** Run the code of PE [i] for at most [n] steps. *)
Fixpoint run_pe (n : nat) (i : nat) (w : rwworld) : rwworld :=
  match n with
  | O => w
  | S n' => match rw_pes w !! i with
            | Some p => match exec (rw_state w) p with
                        | Some (v, p') => run_pe n' i (RW v (<[i := p']> (rw_pes w)))
                        | None => w
                        end
            | None => w
            end
  end.

Lemma run_pe_reachable w0 n i w : rw_reachable w0 w -> rw_reachable w0 (run_pe n i w).
Proof.
  revert w. induction n as [|n IH]; intros w Hw; cbn [run_pe]; [done|].
  destruct (rw_pes w !! i) as [p|] eqn:Hi; [|done]. destruct (exec (rw_state w) p) as [[v p']|] eqn:He; [|done].
  apply IH. eapply rwr_step; [done|]. by eapply rw_exec.
Qed.

Lemma rwr_to w0 w w1 w' : rw_reachable w0 w -> rw_step w w1 -> w1 = w' -> rw_reachable w0 w'.
Proof. intros Hr Hs <-. by eapply rwr_step. Qed.

(** PE 1 waits for the lock while PE 0 reads. *)
Definition demo_reader : rwworld := RW 1 [PE Out 1; PE Out 0].
Definition demo_waiter : rwworld := RW 1 [PE Out 1; PE (W_wait 1) 0].
Definition demo_leaving : rwworld := RW 0 [PE Out 0; PE (W_wait 1) 0].
Definition demo_writer : rwworld := RW (rw_word true true 0) [PE Out 0; PE W_held 0].

Lemma demo_reader_reachable : rw_reachable (rw_initial 2) demo_reader.
Proof.
  apply (run_pe_reachable _ 6 0 (RW 0 [PE R_wait 0; PE Out 0])).
  eapply rwr_to; [apply rwr_init|apply (rw_call_read _ 0 0); reflexivity|reflexivity].
Qed.

Lemma demo_leaving_reachable : rw_reachable (rw_initial 2) demo_leaving.
Proof.
  apply (run_pe_reachable _ 2 0 (RW 1 [PE X_some 1; PE (W_wait 1) 0])).
  eapply (rwr_to _ demo_waiter); [|apply (rw_call_read_release _ 0 1); [reflexivity|discriminate]|reflexivity].
  apply (run_pe_reachable _ 4 1 (RW 1 [PE Out 1; PE (W_try true) 0])).
  eapply rwr_to; [apply demo_reader_reachable|apply (rw_call_write _ 1 0 true); reflexivity|reflexivity].
Qed.

Lemma demo_writer_reachable : rw_reachable (rw_initial 2) demo_writer.
Proof. apply (run_pe_reachable _ 5 1 _ demo_leaving_reachable). Qed.

Lemma rwlock_exclusion_witness :
  RWLOCK_WRITER_LOCKED (rw_state demo_writer) = true /\ RWLOCK_READERS (rw_state demo_writer) = 0.
Proof.
  destruct (rwlock_exclusion 2 demo_writer demo_writer_reachable) as (_ & _ & H).
  destruct (H 1%nat 0%nat eq_refl) as (H1 & _ & H2 & _). split; assumption.
Defined.

Lemma rwlock_deadlock_free_witness :
  exists w', rw_step demo_leaving w' /\ exists j q, rw_pes demo_leaving !! j = Some q /\ at_pc q <> Out /\ is_Some (exec 0 q).
Proof.
  apply (rwlock_deadlock_free 2 demo_leaving 1 (PE (W_wait 1) 0) demo_leaving_reachable); [|reflexivity|discriminate].
  intros [|[|j]] q Hq; cbn in Hq; [injection Hq as <-; split; [discriminate|reflexivity]..|discriminate Hq].
Defined.
