(* ===== verification/Sarray.v ===== *)
(** * Sorted arrays ([lib/sarray])

    A table of fixed-size elements kept sorted by a 64-bit key, in a buffer the
    caller provides; realms keep their MPIDR to REC map in one.  Element sizes and
    buffers are multiples of 8 bytes, so the buffer is a list of 64-bit words and
    a pointer into it is its address.  The abstract table is a finite map from
    keys to the rest of the element, which insertion and deletion update. *)

From Stdlib Require Import ZArith Lia Bool ZifyBool Sorting.Sorted.
From stdpp Require Import base tactics option list numbers gmap.
From S2P Require Import Prelude.
From S2P Require Import Utils.

Definition sizeof_key : Z := 8.
Definition ENOENT : Z := 2.
Definition EEXIST : Z := 17.
Definition EINVAL : Z := 22.
Definition ENOSPC : Z := 28.

Record sarray_hdr := SarrayHdr { h_base : Z; h_elem_sz : Z; h_max_elems : Z; h_num_elems : Z }.

(** The words of the buffer that starts at [h_base]. *)
Definition buffer := list Z.

(** [memcpy] from and to words of the buffer; out of bounds is undefined. *)
Definition load_words (buf : buffer) (i n : Z) : option (list Z) :=
  assert ((0 <=? i) && (0 <=? n) && (i + n <=? Z.of_nat (length buf))) ;;
  Some (take (Z.to_nat n) (drop (Z.to_nat i) buf)).
Definition store_words (buf : buffer) (i : Z) (ws : list Z) : option buffer :=
  assert ((0 <=? i) && (i + Z.of_nat (length ws) <=? Z.of_nat (length buf))) ;;
  Some (take (Z.to_nat i) buf ++ ws ++ drop (Z.to_nat i + length ws) buf).

(** The word a pointer into the buffer points at. *)
Definition word_of (h : sarray_hdr) (ptr : Z) : Z := (ptr - h_base h) / 8.

(** [memmove] within the buffer. *)
Definition memmove (h : sarray_hdr) (buf : buffer) (dst src n : Z) : option buffer :=
  ws ← load_words buf (word_of h src) (n / 8);
  store_words buf (word_of h dst) ws.

(** 0 is the null pointer. *)
Definition _elem_ptr (h : sarray_hdr) (elem_sz idx : Z) : Z :=
  if h_base h =? 0 then 0 else add64 (h_base h) (mul64 idx elem_sz).

Definition _verify_sarray_hnd (hnd : option sarray_hdr) : Z :=
  match hnd with
  | None => - EINVAL
  | Some h =>
      if h_base h =? 0 then - EINVAL
      else if negb (ALIGNED (h_base h) sizeof_key) then - EINVAL
      else if h_max_elems h =? 0 then - EINVAL
      else if h_elem_sz h <? sizeof_key then - EINVAL
      else if negb (ALIGNED (h_elem_sz h) sizeof_key) then - EINVAL
      else if h_max_elems h <? h_num_elems h then - EINVAL
      else 0
  end.

(** [Some h] when [verify_sarray_access] returns 0. *)
Definition verify_sarray_access (hnd : option sarray_hdr) (elem_sz : Z) : option sarray_hdr :=
  h ← hnd;
  if negb (_verify_sarray_hnd hnd =? 0) || negb (h_elem_sz h =? elem_sz) then None else Some h.

Definition data_overlaps_sarray (h : sarray_hdr) (data : Z) : bool :=
  let array_start := h_base h in
  let array_sz := mul64 (h_max_elems h) (h_elem_sz h) in
  if (UINT64_MAX - array_sz <? array_start) || (UINT64_MAX - h_elem_sz h <? data) then true
  else
    let array_end := add64 array_start array_sz in
    let data_end := add64 data (h_elem_sz h) in
    (data <? array_end) && (array_start <? data_end).

Definition sarray_first (hnd : option sarray_hdr) : Z := match hnd with Some h => h_base h | None => 0 end.

Definition sarray_num_elems (hnd : option sarray_hdr) : Z :=
  match hnd with
  | Some h => if negb (_verify_sarray_hnd hnd =? 0) then 0 else h_num_elems h
  | None => 0
  end.

Definition sarray_last (hnd : option sarray_hdr) (elem_sz : Z) : Z :=
  match verify_sarray_access hnd elem_sz with
  | None => 0
  | Some h => add64 (h_base h) (mul64 (sarray_num_elems hnd) elem_sz)
  end.

Definition _get_element (hnd : option sarray_hdr) (elem_sz idx : Z) : Z :=
  match verify_sarray_access hnd elem_sz with None => 0 | Some h => _elem_ptr h elem_sz idx end.

(** The header written on success; [None] is a return of NULL. *)
Definition _sarray_init (hnd : option sarray_hdr) (base size elem_sz : Z) : option sarray_hdr :=
  match hnd with
  | None => None
  | Some _ =>
      if base =? 0 then None
      else if elem_sz <? sizeof_key then None
      else if negb (ALIGNED base sizeof_key) || negb (ALIGNED elem_sz sizeof_key) then None
      else if size <? elem_sz then None
      else
        let max_elems := size / elem_sz in
        if max_elems =? 0 then None else Some (SarrayHdr base elem_sz max_elems 0)
  end.

Definition sarray_destroy (hnd : option sarray_hdr) : option sarray_hdr :=
  match hnd with None => None | Some _ => Some (SarrayHdr 0 0 0 0) end.

(** [while (left < right)]: whether the key was found, and [*idx]. *)
Fixpoint search_loop (fuel : nat) (h : sarray_hdr) (buf : buffer) (elem_sz key left right : Z) : option (bool * Z) :=
  match fuel with
  | O => None
  | S fuel' =>
      if left <? right then
        let mid := left + (right - left) / 2 in
        mid_key ← arr_get buf (word_of h (_elem_ptr h elem_sz mid));
        if mid_key =? key then Some (true, mid)
        else if mid_key <? key then search_loop fuel' h buf elem_sz key (mid + 1) right
        else search_loop fuel' h buf elem_sz key left mid
      else Some (false, left)
  end.

(** [idx] is a local of every caller, so its null check is left out. *)
Definition binary_search_internal (hnd : option sarray_hdr) (buf : buffer) (elem_sz key idx : Z) : option (bool * Z) :=
  match verify_sarray_access hnd elem_sz with
  | None => Some (false, idx)
  | Some h => search_loop (S (Z.to_nat (h_num_elems h))) h buf elem_sz key 0 (h_num_elems h)
  end.

Definition _sarray_lookup_locked (hnd : option sarray_hdr) (buf : buffer) (elem_sz key : Z) : option Z :=
  match verify_sarray_access hnd elem_sz with
  | None => Some 0
  | Some h =>
      r ← binary_search_internal hnd buf elem_sz key 0;
      let '(found, idx) := r in
      Some (if negb found then 0 else _elem_ptr h elem_sz idx)
  end.

(** [data] is the address of the element to insert, [words] its contents. *)
Definition _sarray_insert_locked (hnd : option sarray_hdr) (buf : buffer) (elem_sz key data : Z) (words : list Z)
    : option (Z * option sarray_hdr * buffer) :=
  assert (negb (data =? 0)) ;;
  match verify_sarray_access hnd elem_sz with
  | None => Some (- EINVAL, hnd, buf)
  | Some h =>
      if data_overlaps_sarray h data then Some (- EINVAL, hnd, buf) else
      r ← binary_search_internal hnd buf elem_sz key 0;
      let '(found, idx) := r in
      if found : bool then Some (- EEXIST, hnd, buf)
      else if h_num_elems h =? h_max_elems h then Some (- ENOSPC, hnd, buf)
      else
        let count := sub64 (h_num_elems h) idx in
        buf ← (if 0 <? count then
                 memmove h buf (_elem_ptr h elem_sz (add64 idx 1)) (_elem_ptr h elem_sz idx) (mul64 count elem_sz)
               else Some buf);
        let dst := _elem_ptr h elem_sz idx in
        buf ← store_words buf (word_of h dst) (take (Z.to_nat (elem_sz / 8)) words);
        buf ← arr_set buf (word_of h dst) key;
        Some (0, Some (SarrayHdr (h_base h) (h_elem_sz h) (h_max_elems h) (add64 (h_num_elems h) 1)), buf)
  end.

(** [deleted_data] is 0 or where to copy the element; the last component is what
    is written there. *)
Definition _sarray_delete_locked (hnd : option sarray_hdr) (buf : buffer) (elem_sz key deleted_data : Z)
    : option (Z * option sarray_hdr * buffer * option (list Z)) :=
  match verify_sarray_access hnd elem_sz with
  | None => Some (- EINVAL, hnd, buf, None)
  | Some h =>
      r ← binary_search_internal hnd buf elem_sz key 0;
      let '(found, idx) := r in
      if negb found then Some (- ENOENT, hnd, buf, None)
      else if negb (deleted_data =? 0) && data_overlaps_sarray h deleted_data then Some (- EINVAL, hnd, buf, None)
      else
        copied ← (if negb (deleted_data =? 0)
                  then Some <$> load_words buf (word_of h (_elem_ptr h elem_sz idx)) (elem_sz / 8)
                  else Some None);
        let count := sub64 (sub64 (h_num_elems h) idx) 1 in
        buf ← (if 0 <? count then
                 memmove h buf (_elem_ptr h elem_sz idx) (_elem_ptr h elem_sz (add64 idx 1)) (mul64 count elem_sz)
               else Some buf);
        Some (0, Some (SarrayHdr (h_base h) (h_elem_sz h) (h_max_elems h) (sub64 (h_num_elems h) 1)), buf, copied)
  end.

(** ** The table *)

(** An element: its key and the rest of its words. *)
Definition entry_of (e : list Z) : Z * list Z := (default 0 (head e), tail e).
Definition keys (es : list (list Z)) : list Z := (fun e => fst (entry_of e)) <$> es.

(** The header is valid, and the storage it describes is there and does not wrap
    around the address space. *)
Record hdr_ok (h : sarray_hdr) (buf : buffer) : Prop := {
  ho_verify : _verify_sarray_hnd (Some h) = 0;
  ho_num : 0 <= h_num_elems h;
  ho_base : 0 <= h_base h;
  ho_size : 8 * Z.of_nat (length buf) >= h_max_elems h * h_elem_sz h;
  ho_top : h_base h + h_max_elems h * h_elem_sz h <= UINT64_MAX
}.

(** [buf] starts with the elements [es], of [w] words each, in increasing order
    of keys. *)
Record elements (h : sarray_hdr) (buf : buffer) (es : list (list Z)) : Prop := {
  el_ok : hdr_ok h buf;
  el_buf : exists rest, buf = concat es ++ rest;
  el_len : Z.of_nat (length es) = h_num_elems h;
  el_width : Forall (fun e => 8 * Z.of_nat (length e) = h_elem_sz h) es;
  el_sorted : StronglySorted Z.lt (keys es)
}.

Definition represents (h : sarray_hdr) (buf : buffer) (m : gmap Z (list Z)) : Prop :=
  exists es, elements h buf es /\ m = list_to_map (entry_of <$> es).

Lemma keys_length es : length (keys es) = length es.
Proof. apply length_fmap. Qed.

(** ** Slices of a concatenation *)

Section Concat.
Context (w : nat) (es : list (list Z)) (rest : list Z).
Hypothesis width : Forall (fun e => length e = w) es.

Lemma concat_length l : Forall (fun e : list Z => length e = w) l -> length (concat l) = (length l * w)%nat.
Proof. induction 1 as [|e l He _ IH]; cbn; [done|]. rewrite length_app, IH, He. lia. Qed.

Lemma concat_take i : (i <= length es)%nat -> take (i * w) (concat es ++ rest) = concat (take i es).
Proof.
  intros Hi. rewrite <- (take_drop i es) at 1. rewrite concat_app, <- app_assoc.
  apply take_app_length'. rewrite concat_length by (by apply Forall_take). by rewrite length_take, Nat.min_l by done.
Qed.

Lemma concat_drop i : (i <= length es)%nat -> drop (i * w) (concat es ++ rest) = concat (drop i es) ++ rest.
Proof.
  intros Hi. rewrite <- (take_drop i es) at 1. rewrite concat_app, <- app_assoc.
  apply drop_app_length'. rewrite concat_length by (by apply Forall_take). by rewrite length_take, Nat.min_l by done.
Qed.

Lemma concat_lookup i e : (0 < w)%nat -> es !! i = Some e -> (concat es ++ rest) !! (i * w)%nat = Some (fst (entry_of e)).
Proof.
  intros Hw Hi. pose proof (lookup_lt_Some _ _ _ Hi) as Hl. pose proof width as Hwd. rewrite Forall_lookup in Hwd. specialize (Hwd i e Hi).
  rewrite <- (Nat.add_0_r (i * w)), <- lookup_drop, concat_drop by lia.
  rewrite (drop_S es e i Hi). cbn [concat]. destruct e as [|x e]; [cbn in Hwd; lia|done].
Qed.

End Concat.

(** ** Pointers *)

Section Pointers.
Context (h : sarray_hdr) (buf : buffer).
Hypothesis ok : hdr_ok h buf.

Lemma hdr_facts : exists w, (0 < w)%nat /\ h_elem_sz h = 8 * Z.of_nat w /\ 0 < h_base h /\ h_num_elems h <= h_max_elems h /\
  h_max_elems h < 2 ^ 64 /\ 0 < h_max_elems h.
Proof.
  destruct ok as [Hv Hn Hb Hs Ht]. cbn [_verify_sarray_hnd] in Hv. unfold EINVAL, sizeof_key in Hv.
  destruct (Z.eqb_spec (h_base h) 0); [done|]. destruct (ALIGNED (h_base h) 8); [|done].
  destruct (Z.eqb_spec (h_max_elems h) 0); [done|]. destruct (Z.ltb_spec (h_elem_sz h) 8); [done|].
  destruct (ALIGNED (h_elem_sz h) 8) eqn:Ha; [|done]. destruct (Z.ltb_spec (h_max_elems h) (h_num_elems h)); [done|].
  apply ALIGNED_spec in Ha as [w Hw]; [|done]. exists (Z.to_nat w). unfold UINT64_MAX in Ht. split_and!; try lia; nia.
Qed.

Lemma verify_ok : verify_sarray_access (Some h) (h_elem_sz h) = Some h.
Proof. unfold verify_sarray_access. cbn [mbind option_bind]. by rewrite (ho_verify _ _ ok), Z.eqb_refl, Z.eqb_refl. Qed.

(** Pointers to elements, and one past the last, do not wrap. *)
Lemma elem_word w i : h_elem_sz h = 8 * Z.of_nat w -> 0 <= i <= h_max_elems h ->
  word_of h (_elem_ptr h (h_elem_sz h) i) = i * Z.of_nat w.
Proof.
  intros Hw Hi. destruct hdr_facts as (w' & ? & Hw' & Hb & Hn & Hm & Hm0). pose proof (ho_top _ _ ok) as Ht. unfold UINT64_MAX in Ht.
  unfold word_of, _elem_ptr, mul64, add64. rewrite (proj2 (Z.eqb_neq _ _)) by lia.
  assert (Hle : i * h_elem_sz h <= h_max_elems h * h_elem_sz h) by nia.
  rewrite !u64_small by (unfold in_u64; rewrite ?u64_small by (unfold in_u64; nia); nia).
  replace (h_base h + i * h_elem_sz h - h_base h) with ((i * Z.of_nat w) * 8) by lia. by rewrite Z.div_mul.
Qed.

Lemma elem_ptr_nonzero i : 0 <= i <= h_max_elems h -> _elem_ptr h (h_elem_sz h) i <> 0.
Proof.
  intros Hi. destruct hdr_facts as (w' & ? & Hw' & Hb & Hn & Hm & Hm0). pose proof (ho_top _ _ ok) as Ht. unfold UINT64_MAX in Ht.
  unfold _elem_ptr, mul64, add64. rewrite (proj2 (Z.eqb_neq _ _)) by lia.
  assert (Hle : i * h_elem_sz h <= h_max_elems h * h_elem_sz h) by nia.
  rewrite !u64_small by (unfold in_u64; rewrite ?u64_small by (unfold in_u64; nia); nia). nia.
Qed.

Lemma elems_words w n : h_elem_sz h = 8 * Z.of_nat w -> 0 <= n <= h_max_elems h -> mul64 n (h_elem_sz h) / 8 = n * Z.of_nat w.
Proof.
  intros Hw Hn. pose proof (ho_top _ _ ok) as Ht. pose proof (ho_base _ _ ok). unfold UINT64_MAX in Ht.
  unfold mul64. rewrite u64_small by (unfold in_u64; nia). rewrite Hw.
  replace (n * (8 * Z.of_nat w)) with (n * Z.of_nat w * 8) by lia. by rewrite Z.div_mul.
Qed.

Lemma elem_index n : 0 <= n -> n <= h_max_elems h -> in_u64 n.
Proof. intros. destruct hdr_facts as (w & ? & ? & ? & ? & ? & ?). unfold in_u64. lia. Qed.

End Pointers.

(** ** Search *)

Lemma sorted_lt l i j x y :
  StronglySorted Z.lt l -> l !! i = Some x -> l !! j = Some y -> (i < j)%nat -> x < y.
Proof.
  intros Hs. revert i j. induction Hs as [|a l Hs IH Ha]; intros [|i] [|j] Hi Hj Hlt; cbn in *; try done; try lia.
  - injection Hi as ->. rewrite Forall_lookup in Ha. eauto.
  - eapply IH; [done|done|lia].
Qed.

(** Where the search ends: at the key, or where it belongs. *)
Definition found_at (ks : list Z) (key : Z) (found : bool) (idx : Z) : Prop :=
  0 <= idx <= Z.of_nat (length ks) /\
  if found then ks !! Z.to_nat idx = Some key
  else (forall i k, ks !! i = Some k -> Z.of_nat i < idx -> k < key) /\
       (forall i k, ks !! i = Some k -> idx <= Z.of_nat i -> key < k).

Lemma search_loop_ok h buf es key fuel : forall left right,
  elements h buf es -> 0 <= left -> left <= right -> right <= h_num_elems h -> right - left < Z.of_nat fuel ->
  (forall i k, keys es !! i = Some k -> Z.of_nat i < left -> k < key) ->
  (forall i k, keys es !! i = Some k -> right <= Z.of_nat i -> key < k) ->
  exists found idx, search_loop fuel h buf (h_elem_sz h) key left right = Some (found, idx) /\ found_at (keys es) key found idx.
Proof.
  induction fuel as [|fuel IH]; intros left right He Hl Hlr Hr Hf Hlo Hhi; [lia|]. cbn [search_loop].
  pose proof He as [Hok [rest Hbuf] Hlen Hwd Hs]. assert (Hlk : length (keys es) = length es) by apply length_fmap.
  destruct (hdr_facts h buf Hok) as (w & Hw0 & Hw & _ & Hnm & _).
  destruct (Z.ltb_spec left right) as [Hlt|Hge].
  2:{ exists false, left. split; [done|]. split; [lia|]. split; [done|]. intros i k Hi Hle. eapply Hhi; [done|lia]. }
  set (mid := left + (right - left) / 2).
  assert (Hmid : left <= mid < right).
  { unfold mid. pose proof (Z.div_pos (right - left) 2 ltac:(lia) ltac:(lia)).
    pose proof (Z.div_lt_upper_bound (right - left) 2 (right - left) ltac:(lia) ltac:(lia)). lia. }
  rewrite (elem_word h buf Hok w mid Hw) by lia.
  destruct (lookup_lt_is_Some_2 es (Z.to_nat mid)) as [e Hmide]; [lia|].
  assert (Hkey : keys es !! Z.to_nat mid = Some (fst (entry_of e))) by (unfold keys; by rewrite list_lookup_fmap, Hmide).
  assert (Hget : arr_get buf (mid * Z.of_nat w) = Some (fst (entry_of e))).
  { unfold arr_get. rewrite (proj2 (Z.leb_le _ _)) by nia. rewrite Hbuf.
    replace (Z.to_nat (mid * Z.of_nat w)) with (Z.to_nat mid * w)%nat by nia.
    apply concat_lookup; [|lia|done]. eapply Forall_impl; [exact Hwd|]. cbn. intros. lia. }
  rewrite Hget. cbn [mbind option_bind]. set (mk := fst (entry_of e)) in *.
  destruct (Z.eqb_spec mk key) as [->|Hne]; [exists true, mid; split; [done|]; split; [lia|done]|].
  destruct (Z.ltb_spec mk key).
  - apply IH; try done; try lia. intros i k Hi Hlt'. destruct (decide (i = Z.to_nat mid)) as [->|]; [congruence|].
    pose proof (sorted_lt _ i (Z.to_nat mid) _ _ Hs Hi Hkey ltac:(lia)). lia.
  - apply IH; try done; try lia. intros i k Hi Hlt'. destruct (decide (i = Z.to_nat mid)) as [->|]; [replace k with mk by congruence; lia|].
    pose proof (sorted_lt _ (Z.to_nat mid) i _ _ Hs Hkey Hi ltac:(lia)). lia.
Qed.

Lemma binary_search_ok h buf es key idx0 :
  elements h buf es -> exists found idx, binary_search_internal (Some h) buf (h_elem_sz h) key idx0 = Some (found, idx) /\
    found_at (keys es) key found idx.
Proof.
  intros He. pose proof He as [Hok _ Hlen _ _]. unfold binary_search_internal. rewrite (verify_ok h buf Hok).
  pose proof (ho_num _ _ Hok). apply search_loop_ok; try done; try lia.
  intros i k Hi%lookup_lt_Some Hge. unfold keys in Hi. rewrite length_fmap in Hi. lia.
Qed.

(** ** The map of a list of elements *)

Lemma sorted_nodup es : StronglySorted Z.lt (keys es) -> NoDup (keys es).
Proof.
  intros Hs. apply NoDup_alt. intros i j x Hi Hj. destruct (Nat.lt_trichotomy i j) as [Hl|[|Hl]]; [|done|].
  - pose proof (sorted_lt _ _ _ _ _ Hs Hi Hj Hl). lia.
  - pose proof (sorted_lt _ _ _ _ _ Hs Hj Hi Hl). lia.
Qed.

Lemma keys_fst es : (entry_of <$> es).*1 = keys es.
Proof. unfold keys. by rewrite <- list_fmap_compose. Qed.

Lemma map_found es i e :
  StronglySorted Z.lt (keys es) -> es !! i = Some e ->
  (list_to_map (entry_of <$> es) : gmap Z (list Z)) !! fst (entry_of e) = Some (tail e).
Proof.
  intros Hs Hi. apply elem_of_list_to_map; [rewrite keys_fst; by apply sorted_nodup|].
  apply list_elem_of_fmap. exists e. split; [done|]. by eapply list_elem_of_lookup_2.
Qed.

Lemma map_absent es key :
  (forall i k, keys es !! i = Some k -> k <> key) -> (list_to_map (entry_of <$> es) : gmap Z (list Z)) !! key = None.
Proof.
  intros H. apply not_elem_of_list_to_map. rewrite keys_fst. intros [i Hi]%list_elem_of_lookup. by eapply H.
Qed.

Lemma map_count es : StronglySorted Z.lt (keys es) -> size (list_to_map (entry_of <$> es) : gmap Z (list Z)) = length es.
Proof. intros Hs. rewrite map_size_list_to_map by (rewrite keys_fst; by apply sorted_nodup). apply length_fmap. Qed.

(** ** Moving elements *)

Lemma load_middle (a b c : list Z) i n :
  i = Z.of_nat (length a) -> n = Z.of_nat (length b) -> load_words (a ++ b ++ c) i n = Some b.
Proof.
  intros -> ->. unfold load_words. rewrite !length_app.
  assert (Hb : ((0 <=? Z.of_nat (length a)) && (0 <=? Z.of_nat (length b)) &&
    (Z.of_nat (length a) + Z.of_nat (length b) <=? Z.of_nat (length a + (length b + length c)))) = true) by lia.
  by rewrite Hb, !Nat2Z.id, drop_app_length, take_app_length.
Qed.

Lemma store_middle (a b c ws : list Z) i :
  i = Z.of_nat (length a) -> length ws = length b -> store_words (a ++ b ++ c) i ws = Some (a ++ ws ++ c).
Proof.
  intros -> Hl. unfold store_words. rewrite !length_app, Hl.
  assert (Hb : ((0 <=? Z.of_nat (length a)) &&
    (Z.of_nat (length a) + Z.of_nat (length b) <=? Z.of_nat (length a + (length b + length c)))) = true) by lia.
  rewrite Hb, Nat2Z.id, take_app_length, drop_app_add. f_equal. f_equal. f_equal. apply drop_app_length.
Qed.

(** Shifting the tail [c] up by [w] words opens a gap. *)
Lemma shift_up (a c rest : list Z) (w : nat) :
  (w <= length rest)%nat ->
  exists gap, length gap = w /\
    (ws ← load_words (a ++ c ++ rest) (Z.of_nat (length a)) (Z.of_nat (length c));
     store_words (a ++ c ++ rest) (Z.of_nat (length a + w)) ws) = Some (a ++ gap ++ c ++ drop w rest).
Proof.
  intros Hw. exists (take w (c ++ rest)). rewrite length_take, length_app. split; [lia|].
  rewrite load_middle by done. cbn [mbind option_bind].
  assert (Hd : length (drop w (c ++ rest)) = (length c + (length rest - w))%nat) by (rewrite length_drop, length_app; lia).
  rewrite <- (take_drop w (c ++ rest)) at 1.
  rewrite <- (take_drop (length c) (drop w (c ++ rest))) at 1. rewrite (app_assoc a).
  rewrite (store_middle (a ++ take w (c ++ rest)) (take (length c) (drop w (c ++ rest)))).
  - rewrite drop_drop, drop_app_ge by lia. by rewrite <- app_assoc, Nat.add_sub.
  - rewrite length_app, length_take, length_app. lia.
  - rewrite length_take. lia.
Qed.

(** Shifting the tail [c] down over [e]. *)
Lemma shift_down (a e c rest : list Z) :
  exists rest', length rest' = (length e + length rest)%nat /\
    (ws ← load_words (a ++ e ++ c ++ rest) (Z.of_nat (length a + length e)) (Z.of_nat (length c));
     store_words (a ++ e ++ c ++ rest) (Z.of_nat (length a)) ws) = Some (a ++ c ++ rest').
Proof.
  exists (drop (length c) (e ++ c ++ rest)). rewrite length_drop, !length_app. split; [lia|].
  rewrite (app_assoc a e) at 1. rewrite load_middle by (rewrite ?length_app; done). cbn [mbind option_bind].
  rewrite <- (take_drop (length c) (e ++ c ++ rest)) at 1. apply store_middle; [done|].
  rewrite length_take, !length_app. lia.
Qed.

(** ** The operations *)

(** The buffer cut at element [idx]. *)
Lemma elements_cut h buf es idx :
  elements h buf es -> 0 <= idx <= h_num_elems h ->
  let a := concat (take (Z.to_nat idx) es) in
  let c := concat (drop (Z.to_nat idx) es) in
  exists w rest, h_elem_sz h = 8 * Z.of_nat w /\ buf = a ++ c ++ rest /\
    Z.of_nat (length a) = idx * Z.of_nat w /\ Z.of_nat (length c) = (h_num_elems h - idx) * Z.of_nat w /\
    Z.of_nat w * (h_max_elems h - h_num_elems h) <= Z.of_nat (length rest) /\ (0 < w)%nat /\ h_num_elems h <= h_max_elems h.
Proof.
  intros [Hok [rest Hb] Hlen Hwd Hs] Hidx a c. destruct (hdr_facts h buf Hok) as (w & Hw0 & Hw & _ & Hnm & Hm & _). exists w, rest.
  assert (Hwd' : Forall (fun e => length e = w) es) by (eapply Forall_impl; [exact Hwd|]; cbn; lia).
  pose proof (ho_size _ _ Hok) as Hsz. rewrite Hb, length_app, (concat_length w es Hwd') in Hsz.
  assert (Ha : length a = (Z.to_nat idx * w)%nat)
    by (unfold a; rewrite (concat_length w), length_take, Nat.min_l by (try apply Forall_take; done || lia); done).
  assert (Hc : length c = ((length es - Z.to_nat idx) * w)%nat)
    by (unfold c; by rewrite (concat_length w), length_drop by (by apply Forall_drop)).
  split_and!; try done; try nia. rewrite Hb. unfold a, c. by rewrite app_assoc, <- concat_app, take_drop.
Qed.

Lemma sorted_insert ks1 ks2 key :
  StronglySorted Z.lt (ks1 ++ ks2) -> Forall (fun k => k < key) ks1 -> Forall (fun k => key < k) ks2 ->
  StronglySorted Z.lt (ks1 ++ key :: ks2).
Proof.
  intros Hs H1 H2. induction ks1 as [|k ks1 IH]; cbn in *.
  - by constructor.
  - apply StronglySorted_inv in Hs as [Hs Hk]. apply Forall_cons in H1 as [Hkey H1].
    constructor; [by apply IH|]. apply Forall_app in Hk as [Hk1 Hk2]. apply Forall_app. split; [done|]. by constructor.
Qed.

Lemma sorted_remove ks1 ks2 k : StronglySorted Z.lt (ks1 ++ k :: ks2) -> StronglySorted Z.lt (ks1 ++ ks2).
Proof.
  induction ks1 as [|x ks1 IH]; cbn; intros [Hs Hx]%StronglySorted_inv; [done|].
  constructor; [by apply IH|]. apply Forall_app in Hx as [H1 H2]. apply Forall_app. split; [done|]. by apply Forall_cons in H2 as [_ ?].
Qed.

Lemma map_insert es1 es2 e :
  StronglySorted Z.lt (keys (es1 ++ e :: es2)) ->
  (list_to_map (entry_of <$> es1 ++ e :: es2) : gmap Z (list Z)) =
  <[fst (entry_of e) := tail e]> (list_to_map (entry_of <$> es1 ++ es2)).
Proof.
  intros Hs. rewrite (list_to_map_proper _ (entry_of <$> e :: es1 ++ es2)); [done| |].
  - rewrite keys_fst. by apply sorted_nodup.
  - by rewrite <- Permutation_middle.
Qed.

Definition with_num (h : sarray_hdr) (n : Z) : sarray_hdr := SarrayHdr (h_base h) (h_elem_sz h) (h_max_elems h) n.

Lemma with_num_ok h buf buf' n :
  hdr_ok h buf -> length buf' = length buf -> 0 <= n <= h_max_elems h -> hdr_ok (with_num h n) buf'.
Proof.
  intros [Hv Hn Hb Hs Ht] Hl Hr. split; cbn [h_num_elems h_base h_max_elems h_elem_sz with_num]; try done; [|lia|lia].
  cbn [_verify_sarray_hnd h_num_elems h_base h_max_elems h_elem_sz with_num] in *. rewrite (proj2 (Z.ltb_ge _ n)) by lia.
  revert Hv. repeat match goal with |- context [if ?b then _ else _] => destruct b; try done end.
Qed.

(** Opening a gap at [idx]. *)
Lemma open_gap h buf es idx w rest :
  elements h buf es -> h_elem_sz h = 8 * Z.of_nat w -> 0 <= idx <= h_num_elems h -> h_num_elems h < h_max_elems h ->
  let a := concat (take (Z.to_nat idx) es) in
  let c := concat (drop (Z.to_nat idx) es) in
  buf = a ++ c ++ rest -> Z.of_nat (length a) = idx * Z.of_nat w -> Z.of_nat (length c) = (h_num_elems h - idx) * Z.of_nat w ->
  (w <= length rest)%nat ->
  exists gap, length gap = w /\
    (if 0 <? h_num_elems h - idx then memmove h buf (_elem_ptr h (h_elem_sz h) (idx + 1)) (_elem_ptr h (h_elem_sz h) idx)
       (mul64 (h_num_elems h - idx) (h_elem_sz h)) else Some buf) = Some (a ++ gap ++ c ++ drop w rest).
Proof.
  intros He Hw Hidx Hfull a c Hsplit Ha Hc Hwr. pose proof (el_ok _ _ _ He) as Hok.
  destruct (Z.ltb_spec 0 (h_num_elems h - idx)) as [Hlt|Hge].
  - unfold memmove. rewrite !(elem_word h buf Hok w) by (done || lia). rewrite (elems_words h buf Hok w) by (done || lia).
    rewrite <- Ha, <- Hc, Hsplit. replace ((idx + 1) * Z.of_nat w) with (Z.of_nat (length a + w)) by lia. by apply shift_up.
  - exists (take w rest). rewrite length_take. split; [lia|]. rewrite Hsplit.
    assert (c = []) as -> by (apply length_zero_iff_nil; nia). cbn. by rewrite take_drop.
Qed.

(** The elements with a new one where the search ended. *)
Lemma insert_elements h buf buf' es key ws idx w rest :
  elements h buf es -> found_at (keys es) key false idx -> h_num_elems h < h_max_elems h ->
  h_elem_sz h = 8 * Z.of_nat w -> length ws = pred w -> (0 < w)%nat -> length buf' = length buf ->
  buf' = concat (take (Z.to_nat idx) es) ++ (key :: ws) ++ concat (drop (Z.to_nat idx) es) ++ rest ->
  elements (with_num h (h_num_elems h + 1)) buf' (take (Z.to_nat idx) es ++ (key :: ws) :: drop (Z.to_nat idx) es).
Proof.
  intros [Hok _ Hlen Hwd8 Hs] [Hidx [Hlo Hhi]] Hfull Hw Hws Hw0 Hlb Hb. rewrite keys_length in Hidx. set (i := Z.to_nat idx) in *. split.
  - pose proof (ho_num _ _ Hok). by eapply with_num_ok; [exact Hok| |lia].
  - exists rest. rewrite concat_app. cbn [concat]. rewrite Hb. by rewrite <- !app_assoc.
  - rewrite length_app. cbn [length h_num_elems with_num]. rewrite length_take, length_drop. lia.
  - apply Forall_app. split; [by apply Forall_take|]. constructor; [cbn; lia|by apply Forall_drop].
  - unfold keys in *. rewrite fmap_app. cbn [fmap list_fmap entry_of fst head default from_option id tail].
    assert (Hk : Forall (fun k => k < key) (take i (keys es)) /\ Forall (fun k => key < k) (drop i (keys es))).
    { split; rewrite Forall_lookup; intros j k Hj.
      - apply lookup_take_Some in Hj as [Hj Hlt]. eapply Hlo; [exact Hj|lia].
      - rewrite lookup_drop in Hj. eapply Hhi; [exact Hj|lia]. }
    destruct Hk as [Hk1 Hk2]. unfold keys in Hk1, Hk2. rewrite <- fmap_take in Hk1. rewrite <- fmap_drop in Hk2.
    apply sorted_insert; [|done|done]. by rewrite <- fmap_app, take_drop.
Qed.

Lemma insert_elem h buf es key data words idx :
  elements h buf es -> found_at (keys es) key false idx -> h_num_elems h < h_max_elems h ->
  8 * Z.of_nat (length words) = h_elem_sz h -> data <> 0 -> data_overlaps_sarray h data = false ->
  binary_search_internal (Some h) buf (h_elem_sz h) key 0 = Some (false, idx) ->
  exists buf', _sarray_insert_locked (Some h) buf (h_elem_sz h) key data words =
      Some (0, Some (with_num h (h_num_elems h + 1)), buf') /\
    elements (with_num h (h_num_elems h + 1)) buf'
      (take (Z.to_nat idx) es ++ (key :: tail words) :: drop (Z.to_nat idx) es).
Proof.
  intros He Hf Hfull Hlw Hd Hov Hb. pose proof He as [Hok _ Hlen _ _]. pose proof Hf as [Hidx _]. rewrite keys_length in Hidx.
  destruct (elements_cut _ _ _ idx He ltac:(lia)) as (w & rest & Hw & Hsplit & Ha & Hc & Hrest & Hw0 & Hmax).
  destruct words as [|x ws]; [cbn in Hlw; lia|]. pose proof (ho_num _ _ Hok).
  destruct (open_gap h buf es idx w rest He Hw ltac:(lia) Hfull Hsplit Ha Hc ltac:(nia)) as (gap & Hgap & Hmove).
  set (a := concat (take _ es)) in *. set (c := concat (drop _ es)) in *.
  pose proof (fun n => elem_index h buf Hok n) as H64.
  unfold _sarray_insert_locked, sub64, add64. rewrite (proj2 (Z.eqb_neq data 0) Hd). cbn [negb]. rewrite (verify_ok h buf Hok), Hov, Hb.
  cbn [mbind option_bind]. rewrite (proj2 (Z.eqb_neq (h_num_elems h) (h_max_elems h))), !u64_small by (try apply H64; lia).
  rewrite Hmove. cbn [mbind option_bind]. rewrite (elem_word h buf Hok w) by (done || lia).
  replace (Z.to_nat (h_elem_sz h / 8)) with (length (x :: ws)) by (rewrite <- Hlw, Z.mul_comm, Z.div_mul by done; lia).
  rewrite take_ge by done. rewrite (store_middle a gap) by (cbn in *; lia). cbn [mbind option_bind].
  assert (Hset : arr_set (a ++ (x :: ws) ++ c ++ drop w rest) (idx * Z.of_nat w) key = Some (a ++ (key :: ws) ++ c ++ drop w rest)).
  { rewrite <- Ha, arr_set_some by (rewrite length_app; cbn; lia). rewrite Nat2Z.id.
    rewrite <- (Nat.add_0_r (length a)). by rewrite insert_app_r. }
  rewrite Hset. cbn [mbind option_bind]. eexists. split; [done|]. cbn in Hlw.
  eapply (insert_elements h buf _ es key ws idx w); try done; [lia|].
  rewrite Hsplit, !length_app, length_drop. cbn. nia.
Qed.

Lemma found_elem es key idx :
  found_at (keys es) key true idx -> exists e, es !! Z.to_nat idx = Some e /\ fst (entry_of e) = key /\ 0 <= idx < Z.of_nat (length es).
Proof.
  intros [Hidx Hk]. unfold keys in Hk. rewrite list_lookup_fmap in Hk. destruct (es !! Z.to_nat idx) as [e|] eqn:He; [|done].
  injection Hk as <-. exists e. split_and!; try done; [lia|]. apply lookup_lt_Some in He. lia.
Qed.

(** Closing the gap of the element [e] at [idx]. *)
Lemma close_gap h buf idx w (a e c rest : list Z) :
  hdr_ok h buf -> h_elem_sz h = 8 * Z.of_nat w -> 0 <= idx < h_num_elems h -> h_num_elems h <= h_max_elems h ->
  buf = a ++ e ++ c ++ rest -> Z.of_nat (length a) = idx * Z.of_nat w -> length e = w ->
  Z.of_nat (length c) = (h_num_elems h - idx - 1) * Z.of_nat w ->
  exists rest', length rest' = (length e + length rest)%nat /\
    (if 0 <? h_num_elems h - idx - 1 then memmove h buf (_elem_ptr h (h_elem_sz h) idx) (_elem_ptr h (h_elem_sz h) (idx + 1))
       (mul64 (h_num_elems h - idx - 1) (h_elem_sz h)) else Some buf) = Some (a ++ c ++ rest').
Proof.
  intros Hok Hw Hidx Hmax Hsplit Ha Hle Hc. destruct (Z.ltb_spec 0 (h_num_elems h - idx - 1)) as [Hlt|Hge].
  - unfold memmove. rewrite !(elem_word h buf Hok w), (elems_words h buf Hok w) by (done || lia).
    replace ((idx + 1) * Z.of_nat w) with (Z.of_nat (length a + length e)) by lia.
    rewrite <- Hc, <- Ha, Hsplit. apply shift_down.
  - exists (e ++ rest). rewrite length_app. split; [done|]. rewrite Hsplit.
    by assert (c = []) as -> by (apply length_zero_iff_nil; nia).
Qed.

Lemma delete_elem h buf es key deleted idx e :
  elements h buf es -> es !! Z.to_nat idx = Some e -> 0 <= idx < h_num_elems h ->
  deleted = 0 \/ data_overlaps_sarray h deleted = false ->
  binary_search_internal (Some h) buf (h_elem_sz h) key 0 = Some (true, idx) ->
  exists buf', _sarray_delete_locked (Some h) buf (h_elem_sz h) key deleted =
      Some (0, Some (with_num h (h_num_elems h - 1)), buf', if deleted =? 0 then None else Some e) /\
    elements (with_num h (h_num_elems h - 1)) buf' (take (Z.to_nat idx) es ++ drop (S (Z.to_nat idx)) es).
Proof.
  intros He Hi Hidx Hov Hb. pose proof He as [Hok _ Hlen Hwd8 Hs].
  destruct (elements_cut _ _ _ idx He ltac:(lia)) as (w & rest & Hw & Hsplit & Ha & Hc & Hrest & Hw0 & Hmax).
  set (a := concat (take _ es)) in *. rewrite (drop_S es e (Z.to_nat idx) Hi) in Hsplit, Hc. cbn [concat] in Hsplit, Hc.
  set (c := concat (drop (S _) es)) in *. rewrite <- app_assoc in Hsplit. rewrite length_app in Hc.
  assert (Hle : length e = w) by (pose proof Hwd8 as H; rewrite Forall_lookup in H; specialize (H _ _ Hi); cbn in H; lia).
  pose proof (fun n => elem_index h buf Hok n) as H64.
  unfold _sarray_delete_locked, sub64, add64. rewrite (verify_ok h buf Hok), Hb. cbn [mbind option_bind negb].
  assert (Hov' : negb (deleted =? 0) && data_overlaps_sarray h deleted = false).
  { destruct (Z.eqb_spec deleted 0); cbn; [done|]. by destruct Hov. }
  rewrite Hov', !u64_small by (try apply H64; rewrite ?u64_small by (apply H64; lia); lia).
  rewrite !(elem_word h buf Hok w) by (done || lia).
  assert (Hcopy : (if negb (deleted =? 0) then Some <$> load_words buf (idx * Z.of_nat w) (h_elem_sz h / 8) else Some None) =
                  Some (if deleted =? 0 then None else Some e)).
  { destruct (deleted =? 0); cbn [negb]; [done|]. rewrite Hsplit, Hw, (Z.mul_comm 8), Z.div_mul by done.
    by rewrite load_middle by lia. }
  rewrite Hcopy. cbn [mbind option_bind].
  pose proof (close_gap h buf idx w a e c rest Hok Hw Hidx Hmax Hsplit Ha Hle ltac:(lia)) as Hmove.
  destruct Hmove as (rest' & Hlr & ->). cbn [mbind option_bind]. eexists. split; [done|]. split.
  - eapply with_num_ok; [exact Hok| |lia]. rewrite Hsplit, !length_app. lia.
  - exists rest'. rewrite concat_app. by rewrite <- app_assoc.
  - rewrite length_app, length_take, length_drop. cbn [h_num_elems with_num]. lia.
  - apply Forall_app. split; [by apply Forall_take|by apply Forall_drop].
  - rewrite <- (take_drop_middle _ _ _ Hi) in Hs. unfold keys in *. rewrite fmap_app in *. cbn in Hs. by eapply sorted_remove.
Qed.

(** ** Refinement *)

(** What an insertion does to the map: the code returned, and the new map. *)
Definition map_insert_spec (h : sarray_hdr) (m : gmap Z (list Z)) (key data : Z) (words : list Z) : Z * gmap Z (list Z) :=
  if data_overlaps_sarray h data then (- EINVAL, m)
  else match m !! key with
       | Some _ => (- EEXIST, m)
       | None => if Z.of_nat (size m) =? h_max_elems h then (- ENOSPC, m) else (0, <[key := tail words]> m)
       end.

Definition map_delete_spec (h : sarray_hdr) (m : gmap Z (list Z)) (key deleted : Z)
    : Z * gmap Z (list Z) * option (list Z) :=
  match m !! key with
  | None => (- ENOENT, m, None)
  | Some v =>
      if negb (deleted =? 0) && data_overlaps_sarray h deleted then (- EINVAL, m, None)
      else (0, delete key m, if deleted =? 0 then None else Some (key :: v))
  end.

Lemma data_spec_found h buf m key :
  represents h buf m -> exists es idx, elements h buf es /\ m = list_to_map (entry_of <$> es) /\
    match m !! key with
    | None => binary_search_internal (Some h) buf (h_elem_sz h) key 0 = Some (false, idx) /\ found_at (keys es) key false idx
    | Some v => binary_search_internal (Some h) buf (h_elem_sz h) key 0 = Some (true, idx) /\
        es !! Z.to_nat idx = Some (key :: v) /\ 0 <= idx < h_num_elems h
    end.
Proof.
  intros (es & He & ->). pose proof He as [Hok _ Hlen Hwd Hs]. destruct (binary_search_ok h buf es key 0 He) as ([] & idx & Hb & Hf);
    exists es, idx; split_and!; try done.
  - destruct (found_elem es key idx Hf) as (e & Hi & <- & Hidx). rewrite (map_found es _ e Hs Hi).
    assert (Hne : e <> []).
    { intros ->. destruct (hdr_facts h buf Hok) as (w & ? & ? & _). rewrite Forall_lookup in Hwd. specialize (Hwd _ _ Hi). cbn in Hwd. lia. }
    destruct e; [done|]. split_and!; try done; lia.
  - rewrite map_absent; [done|]. destruct Hf as [_ [Hlo Hhi]]. intros i k Hi. destruct (decide (Z.of_nat i < idx)) as [Hlt|Hge].
    + pose proof (Hlo i k Hi Hlt). lia.
    + pose proof (Hhi i k Hi ltac:(lia)). lia.
Qed.

Lemma insert_refines h buf m key data words :
  represents h buf m -> data <> 0 -> 8 * Z.of_nat (length words) = h_elem_sz h ->
  exists h' buf', _sarray_insert_locked (Some h) buf (h_elem_sz h) key data words =
      Some (fst (map_insert_spec h m key data words), Some h', buf') /\
    represents h' buf' (snd (map_insert_spec h m key data words)).
Proof.
  intros Hr Hd Hl. destruct (data_spec_found h buf m key Hr) as (es & idx & He & Hm & Hk). pose proof He as [Hok _ Hlen _ Hs].
  unfold map_insert_spec. destruct (data_overlaps_sarray h data) eqn:Hov.
  { exists h, buf. unfold _sarray_insert_locked. by rewrite (proj2 (Z.eqb_neq data 0) Hd), (verify_ok h buf Hok), Hov. }
  destruct (m !! key) as [v|] eqn:Hmk.
  { destruct Hk as (Hb & _). exists h, buf. unfold _sarray_insert_locked.
    by rewrite (proj2 (Z.eqb_neq data 0) Hd), (verify_ok h buf Hok), Hov, Hb. }
  destruct Hk as (Hb & Hf). rewrite Hm, map_count, Hlen by done. destruct (Z.eqb_spec (h_num_elems h) (h_max_elems h)) as [Hfull|Hroom].
  { exists h, buf. unfold _sarray_insert_locked. rewrite (proj2 (Z.eqb_neq data 0) Hd), (verify_ok h buf Hok), Hov, Hb.
    cbn [negb mbind option_bind]. rewrite (proj2 (Z.eqb_eq _ _) Hfull). split; [done|]. by rewrite <- Hm. }
  destruct (hdr_facts h buf Hok) as (w & _ & _ & _ & Hle & _).
  destruct (insert_elem h buf es key data words idx) as (buf' & -> & He'); try done; [lia|].
  eexists _, buf'. split; [done|]. eexists. split; [exact He'|]. cbn [snd].
  rewrite map_insert by (by destruct He'). by rewrite take_drop.
Qed.

Lemma delete_refines h buf m key deleted :
  represents h buf m ->
  exists h' buf', _sarray_delete_locked (Some h) buf (h_elem_sz h) key deleted =
      Some (fst (fst (map_delete_spec h m key deleted)), Some h', buf', snd (map_delete_spec h m key deleted)) /\
    represents h' buf' (snd (fst (map_delete_spec h m key deleted))).
Proof.
  intros Hr. destruct (data_spec_found h buf m key Hr) as (es & idx & He & Hm & Hk). pose proof He as [Hok _ Hlen _ Hs].
  unfold map_delete_spec. destruct (m !! key) as [v|] eqn:Hmk.
  2:{ destruct Hk as (Hb & _). exists h, buf. unfold _sarray_delete_locked. by rewrite (verify_ok h buf Hok), Hb. }
  destruct Hk as (Hb & Hi & Hidx). destruct (negb (deleted =? 0) && data_overlaps_sarray h deleted) eqn:Hov.
  { exists h, buf. unfold _sarray_delete_locked. rewrite (verify_ok h buf Hok), Hb. cbn [mbind option_bind negb]. by rewrite Hov. }
  destruct (delete_elem h buf es key deleted idx (key :: v)) as (buf' & -> & He'); try done.
  { destruct (Z.eqb_spec deleted 0); [by left|right]. done. }
  eexists _, buf'. split; [done|]. eexists. split; [exact He'|]. cbn [fst snd]. rewrite Hm.
  rewrite <- (take_drop_middle _ _ _ Hi) in Hs |- * at 1. rewrite map_insert by done. cbn [entry_of fst head default from_option id].
  rewrite delete_insert_id; [done|]. apply map_absent. intros i k Hk ->. apply sorted_nodup in Hs.
  unfold keys in Hs, Hk. rewrite fmap_app in Hs, Hk. cbn in Hs. apply NoDup_app in Hs as (_ & Hn1 & Hn2).
  apply list_elem_of_lookup_2, elem_of_app in Hk as [Hk|Hk].
  - apply (Hn1 key Hk). left.
  - apply NoDup_cons in Hn2 as [Hn2 _]. done.
Qed.

Lemma lookup_refines h buf m key :
  represents h buf m ->
  exists ptr, _sarray_lookup_locked (Some h) buf (h_elem_sz h) key = Some ptr /\
    match m !! key with
    | None => ptr = 0
    | Some v => ptr <> 0 /\ load_words buf (word_of h ptr) (h_elem_sz h / 8) = Some (key :: v)
    end.
Proof.
  intros Hr.
  destruct (data_spec_found h buf m key Hr) as (es & idx & He & Hm & Hk). pose proof He as [Hok _ Hlen _ Hs].
  unfold _sarray_lookup_locked. rewrite (verify_ok h buf Hok). destruct (m !! key) as [v|].
  - destruct Hk as (Hb & Hi & Hidx). rewrite Hb. cbn [mbind option_bind negb]. eexists. split; [done|].
    destruct (elements_cut _ _ _ idx He ltac:(lia)) as (w & rest & Hw & Hsplit & Ha & Hc & _ & _ & Hmax).
    split; [apply (elem_ptr_nonzero h buf Hok); lia|]. rewrite (elem_word h buf Hok w) by (done || lia).
    rewrite (drop_S es _ _ Hi) in Hsplit. cbn [concat] in Hsplit. rewrite <- app_assoc in Hsplit. rewrite Hsplit. apply load_middle; [done|].
    rewrite Hw, (Z.mul_comm 8), Z.div_mul by done. destruct He as [_ _ _ Hwd _]. rewrite Forall_lookup in Hwd. specialize (Hwd _ _ Hi). cbn in *. lia.
  - destruct Hk as (Hb & _). rewrite Hb. by exists 0.
Qed.

(** C27: a sorted array is a finite map.  Insertion, deletion and lookup return
    (the search ends and no access is out of bounds), give the error codes the map
    calls for, in the order of the code, and otherwise leave an array that
    represents the updated map; lookup returns null exactly for absent keys and
    otherwise a pointer to the element with that key. *)
Theorem sarray_refines_map h buf m key :
  represents h buf m ->
  (forall data words, data <> 0 -> 8 * Z.of_nat (length words) = h_elem_sz h ->
     exists h' buf', _sarray_insert_locked (Some h) buf (h_elem_sz h) key data words =
         Some (fst (map_insert_spec h m key data words), Some h', buf') /\
       represents h' buf' (snd (map_insert_spec h m key data words))) /\
  (forall deleted, exists h' buf', _sarray_delete_locked (Some h) buf (h_elem_sz h) key deleted =
         Some (fst (fst (map_delete_spec h m key deleted)), Some h', buf', snd (map_delete_spec h m key deleted)) /\
       represents h' buf' (snd (fst (map_delete_spec h m key deleted)))) /\
  exists ptr, _sarray_lookup_locked (Some h) buf (h_elem_sz h) key = Some ptr /\
    match m !! key with
    | None => ptr = 0
    | Some v => ptr <> 0 /\ load_words buf (word_of h ptr) (h_elem_sz h / 8) = Some (key :: v)
    end.
Proof.
  intros Hr. split_and!; [intros; by apply insert_refines|intros; by apply delete_refines|by apply lookup_refines].
Qed.

(** ** A concrete array: two elements of two words *)

Definition demo_hdr : sarray_hdr := SarrayHdr 0x1000 16 4 2.
Definition demo_buf : buffer := [3; 30; 7; 70; 0; 0; 0; 0].

Lemma demo_represents : represents demo_hdr demo_buf {[3 := [30]; 7 := [70]]}.
Proof.
  exists [[3; 30]; [7; 70]]. split; [|reflexivity]. split; [split; cbv; congruence|by exists [0; 0; 0; 0]|reflexivity| |].
  - repeat constructor.
  - repeat constructor.
Qed.

Example demo_insert : _sarray_insert_locked (Some demo_hdr) demo_buf 16 5 0x2000 [0; 50] =
  Some (0, Some (SarrayHdr 0x1000 16 4 3), [3; 30; 5; 50; 7; 70; 0; 0]).
Proof. vm_compute. reflexivity. Qed.

Lemma sarray_refines_map_witness :
  exists h' buf', _sarray_insert_locked (Some demo_hdr) demo_buf 16 5 0x2000 [0; 50] = Some (0, Some h', buf') /\
    represents h' buf' (<[5 := [50]]> {[3 := [30]; 7 := [70]]}).
Proof.
  destruct (sarray_refines_map demo_hdr demo_buf {[3 := [30]; 7 := [70]]} 5 demo_represents) as (H & _).
  apply (H 0x2000 [0; 50]); [discriminate|reflexivity].
Defined.
