(* ===== verification/Mec.v ===== *)
(** * Memory encryption contexts ([lib/mec])

    Every realm runs with a MECID: one shared by all realms that ask for it, or a
    private one from a pool of up to 2^16, a bitmap of 1024 words.  EL3 firmware
    refreshes the key of a MECID when it is taken and when it is given back; the
    calls are recorded in order.  The registers are those of the PE that runs the
    code.  [RMM_MEM_SCRUB_METHOD], the width the CPU reports and what EL3 reports
    are the parameters of [MecConfig]. *)

From Stdlib Require Import ZArith Lia Bool ZifyBool.
From stdpp Require Import base tactics option list numbers gmap.
From S2P Require Import Prelude.
From S2P Require Import Utils.
From S2P Require Import Bitmap.
From S2P Require Import Mem.
From S2P Require Import Arch.

Class MecConfig := {
  scrub_mecid : bool;                      (* RMM_MEM_SCRUB_METHOD == 2 *)
  read_mecidr_el2 : Z;
  firme_supports_mec_refresh : bool;
  firme_mecid_feature_register1 : Z        (* firme_get_feature_register(FIRME_MECID_SERVICE_ID, 1) *)
}.

Definition RESERVED_MECID_SYSTEM : Z := 0.
Definition RESERVED_MECID_SCRUB : Z := 1.
Definition MECID_WIDTH : Z := 16.
Definition MEC_MAX_COUNT : Z := Z.shiftl 1 MECID_WIDTH.
Definition MECID_ARRAY_SIZE : nat := Z.to_nat (MEC_MAX_COUNT / BITS_PER_UL).

Definition MECIDR_MECIDWIDTHM1 : regfield := Field 0 4.
Definition FIRME_MECID_FR1_COMMON_MECID_WIDTH_BITS : regfield := Field 0 4.

(** A call of [rmm_el3_ifc_mec_refresh]. *)
Record refresh := Refresh { refreshed : Z; is_destroy : bool }.

(** [struct mec_state_s], the calls into EL3, and the registers of this PE. *)
Record mec := Mec {
  mec_reserved : list Z;
  common_mecid_width : Z;
  shared_mec_members : Z;
  is_init : bool;
  refreshes : list refresh;
  mecid_pcpcu_refcnt : Z;
  mecid_a1_el2 : Z;
  vmecid_p_el2 : Z
}.

Definition set_reserved (s : mec) (r : list Z) : mec :=
  Mec r (common_mecid_width s) (shared_mec_members s) (is_init s) (refreshes s) (mecid_pcpcu_refcnt s) (mecid_a1_el2 s) (vmecid_p_el2 s).
Definition set_width (s : mec) (w : Z) : mec :=
  Mec (mec_reserved s) w (shared_mec_members s) (is_init s) (refreshes s) (mecid_pcpcu_refcnt s) (mecid_a1_el2 s) (vmecid_p_el2 s).
Definition set_members (s : mec) (n : Z) : mec :=
  Mec (mec_reserved s) (common_mecid_width s) n (is_init s) (refreshes s) (mecid_pcpcu_refcnt s) (mecid_a1_el2 s) (vmecid_p_el2 s).
Definition set_init (s : mec) : mec :=
  Mec (mec_reserved s) (common_mecid_width s) (shared_mec_members s) true (refreshes s) (mecid_pcpcu_refcnt s) (mecid_a1_el2 s) (vmecid_p_el2 s).
Definition set_s1 (s : mec) (n a1 : Z) : mec :=
  Mec (mec_reserved s) (common_mecid_width s) (shared_mec_members s) (is_init s) (refreshes s) n a1 (vmecid_p_el2 s).
Definition set_s2 (s : mec) (p : Z) : mec :=
  Mec (mec_reserved s) (common_mecid_width s) (shared_mec_members s) (is_init s) (refreshes s) (mecid_pcpcu_refcnt s) (mecid_a1_el2 s) p.

Definition K : Type -> Type := ST mec.
Definition get : K mec := fun s => Some (s, s).
Definition modify (f : mec -> mec) : K unit := fun s => Some (tt, f s).

Definition rmm_el3_ifc_mec_refresh (mecid : Z) (destroy : bool) : K unit :=
  modify (fun s => Mec (mec_reserved s) (common_mecid_width s) (shared_mec_members s) (is_init s)
    (refreshes s ++ [Refresh mecid destroy]) (mecid_pcpcu_refcnt s) (mecid_a1_el2 s) (vmecid_p_el2 s)).

Section Mec.
Context `{feat : ArchFeatures} `{conf : MecConfig}.

Definition RESERVED_IDS : Z := if scrub_mecid then 2 else 1.
Definition MECID_SHARED : Z := RESERVED_IDS.
Definition MECID_PRIVATE_START : Z := MECID_SHARED + 1.
Definition MECID_SYSTEM_OFFSET : Z := RESERVED_MECID_SYSTEM / BITS_PER_UL.
Definition MEC_RESERVE_INITALIZER : Z := sub64 (shl64 1 (RESERVED_IDS + 1)) 1.

Definition mec_compute_common_mecid_width : Z :=
  if negb is_feat_mec_present then 0
  else
    let local_width := u32 (EXTRACT MECIDR_MECIDWIDTHM1 read_mecidr_el2 + 1) in
    if negb firme_supports_mec_refresh then local_width
    else
      let el3_width := u32 (EXTRACT FIRME_MECID_FR1_COMMON_MECID_WIDTH_BITS firme_mecid_feature_register1 + 1) in
      Z.min local_width el3_width.

Definition mecid_max : K Z :=
  _ <-! guard is_feat_mec_present ;;
  s <-! get ;;
  let mecid_count := u32 (Z.shiftl 1 (common_mecid_width s)) in
  _ <-! guard (mecid_count <=? MEC_MAX_COUNT) ;;
  ret (u32 (mecid_count - 1)).

Definition mecid_private_count : K Z :=
  if negb is_feat_mec_present then ret 0
  else
    max_mecid <-! mecid_max ;;
    ret (if max_mecid <? MECID_PRIVATE_START then 0 else u32 (max_mecid - MECID_PRIVATE_START + 1)).

Definition IS_PRIVATE_MECID_VALID (id : Z) : K bool :=
  if MECID_PRIVATE_START <=? id then max_mecid <-! mecid_max ;; ret (id <=? max_mecid) else ret false.

Definition mec_reserve (mecid : Z) : K bool :=
  ok <-! IS_PRIVATE_MECID_VALID mecid ;;
  _ <-! guard ok ;;
  let offset := mecid / BITS_PER_UL in
  let bit := mecid mod BITS_PER_UL in
  s <-! get ;;
  w <-! lift (arr_get (mec_reserved s) offset) ;;
  let '(old, w) := atomic_bit_set w bit in
  r <-! lift (arr_set (mec_reserved s) offset w) ;;
  _ <-! modify (fun s => set_reserved s r) ;;
  if negb old then
    _ <-! rmm_el3_ifc_mec_refresh (u16 mecid) false ;;
    ret true
  else ret false.

Definition mec_release (mecid : Z) : K unit :=
  ok <-! IS_PRIVATE_MECID_VALID mecid ;;
  _ <-! guard ok ;;
  let offset := mecid / BITS_PER_UL in
  let bit := mecid mod BITS_PER_UL in
  _ <-! rmm_el3_ifc_mec_refresh (u16 mecid) true ;;
  s <-! get ;;
  w <-! lift (arr_get (mec_reserved s) offset) ;;
  r <-! lift (arr_set (mec_reserved s) offset (atomic_bit_clear w bit)) ;;
  modify (fun s => set_reserved s r).

Definition mecid_reserve (mecid : Z) : K bool :=
  if negb is_feat_mec_present then ret true
  else if mecid =? MECID_SHARED then
    s <-! get ;;
    if shared_mec_members s <? UINT64_MAX then
      _ <-! (if shared_mec_members s =? 0 then rmm_el3_ifc_mec_refresh (u16 MECID_SHARED) false else ret tt) ;;
      _ <-! modify (fun s => set_members s (add64 (shared_mec_members s) 1)) ;;
      ret true
    else ret false
  else
    ok <-! IS_PRIVATE_MECID_VALID mecid ;;
    if negb ok then ret false
    else
      s <-! get ;;
      _ <-! guard (mecid_a1_el2 s =? RESERVED_MECID_SYSTEM) ;;
      mec_reserve mecid.

Definition mecid_free (mecid : Z) : K unit :=
  if negb is_feat_mec_present then ret tt
  else if mecid =? MECID_SHARED then
    s <-! get ;;
    _ <-! guard (0 <? shared_mec_members s) ;;
    _ <-! modify (fun s => set_members s (sub64 (shared_mec_members s) 1)) ;;
    s <-! get ;;
    if shared_mec_members s =? 0 then rmm_el3_ifc_mec_refresh (u16 MECID_SHARED) true else ret tt
  else
    ok <-! IS_PRIVATE_MECID_VALID mecid ;;
    _ <-! guard ok ;;
    mec_release mecid.

(** [for (i = 0; i < MECID_ARRAY_SIZE; i++)] *)
Fixpoint mecid_hint_loop (reserved : list Z) (n : nat) (i : Z) : option Z :=
  match n with
  | O => Some 0
  | S n' =>
      word_val ← arr_get reserved i;
      if negb (word_val =? not64 0) then Some (u32 (i * BITS_PER_UL + builtin_ctzl (not64 word_val)))
      else mecid_hint_loop reserved n' (i + 1)
  end.

Definition mecid_hint : K Z :=
  _ <-! guard is_feat_mec_present ;;
  s <-! get ;;
  lift (mecid_hint_loop (mec_reserved s) MECID_ARRAY_SIZE 0).

(** [for (i = 0; i < private_mecid_count; i++)], [n] iterations left. *)
Fixpoint mecid_alloc_loop (private_mecid_count start_hint : Z) (n : nat) (i : Z) : K (option Z) :=
  match n with
  | O => ret None
  | S n' =>
      let hint := u32 (MECID_PRIVATE_START + u32 (i + start_hint) mod private_mecid_count) in
      ok <-! mecid_reserve hint ;;
      if ok : bool then ret (Some hint) else mecid_alloc_loop private_mecid_count start_hint n' (i + 1)
  end.

(** [Some id] is a return of true with [*mecid = id]. *)
Definition mecid_alloc (is_shared : bool) : K (option Z) :=
  if negb is_feat_mec_present then ret (Some RESERVED_MECID_SYSTEM)
  else if is_shared then
    ok <-! mecid_reserve MECID_SHARED ;;
    ret (if ok : bool then Some MECID_SHARED else None)
  else
    max_mecid <-! mecid_max ;;
    hint <-! mecid_hint ;;
    let start_hint := if (hint =? 0) || (max_mecid <? hint) then MECID_PRIVATE_START else hint in
    count <-! mecid_private_count ;;
    let start_hint := u32 (start_hint - MECID_PRIVATE_START) in
    mecid_alloc_loop count start_hint (Z.to_nat count) 0.

Definition mec_is_realm_mecid_s2_pvt : K bool :=
  if negb is_feat_mec_present then ret false
  else
    s <-! get ;;
    let mecid := u32 (vmecid_p_el2 s) in
    _ <-! guard (negb (mecid =? RESERVED_MECID_SYSTEM)) ;;
    ret (negb (mecid =? MECID_SHARED)).

(** ** Initialisation *)

Definition mec_state_init_values : K unit :=
  _ <-! modify (fun s => set_members s 0) ;;
  _ <-! modify (fun s => set_width s mec_compute_common_mecid_width) ;;
  _ <-! modify (fun s => set_reserved s (replicate MECID_ARRAY_SIZE 0)) ;;
  s <-! get ;;
  r <-! lift (arr_set (mec_reserved s) MECID_SYSTEM_OFFSET MEC_RESERVE_INITALIZER) ;;
  modify (fun s => set_reserved s r).

Definition mec_init_state : K unit :=
  s <-! get ;;
  if is_init s then ret tt
  else
    _ <-! (if scrub_mecid then rmm_el3_ifc_mec_refresh RESERVED_MECID_SCRUB false else ret tt) ;;
    _ <-! rmm_el3_ifc_mec_refresh MECID_SHARED false ;;
    _ <-! mec_state_init_values ;;
    modify set_init.

(** ** The registers of the PE *)

Definition _mecid_s1_get (mecid : Z) : K unit :=
  s <-! get ;;
  let old_val := mecid_pcpcu_refcnt s in
  _ <-! modify (fun s => set_s1 s (add64 old_val 1) (mecid_a1_el2 s)) ;;
  if old_val =? 0 then
    _ <-! guard (mecid_a1_el2 s =? RESERVED_MECID_SYSTEM) ;;
    modify (fun s => set_s1 s (mecid_pcpcu_refcnt s) mecid)
  else guard (mecid_a1_el2 s =? mecid).

Definition _mecid_s1_put : K unit :=
  s <-! get ;;
  let old_val := mecid_pcpcu_refcnt s in
  _ <-! modify (fun s => set_s1 s (add64 old_val (u64 (-1))) (mecid_a1_el2 s)) ;;
  _ <-! guard (negb (old_val =? 0)) ;;
  _ <-! guard (negb (mecid_a1_el2 s =? RESERVED_MECID_SYSTEM)) ;;
  if old_val =? 1 then modify (fun s => set_s1 s (mecid_pcpcu_refcnt s) RESERVED_MECID_SYSTEM) else ret tt.

Definition mec_realm_mecid_s1_init (mecid : Z) : K unit :=
  if negb is_feat_mec_present then ret tt else _mecid_s1_get mecid.
Definition mec_realm_mecid_s1_reset : K unit :=
  if negb is_feat_mec_present then ret tt else _mecid_s1_put.

Definition mec_realm_mecid_s2_init (mecid : Z) : K unit :=
  if is_feat_mec_present then
    s <-! get ;;
    _ <-! guard (u32 (vmecid_p_el2 s) =? RESERVED_MECID_SYSTEM) ;;
    modify (fun s => set_s2 s mecid)
  else ret tt.

Definition mec_realm_mecid_s2_reset : K unit :=
  if is_feat_mec_present then
    s <-! get ;;
    _ <-! guard (negb (vmecid_p_el2 s =? RESERVED_MECID_SYSTEM)) ;;
    modify (fun s => set_s2 s RESERVED_MECID_SYSTEM)
  else ret tt.

Definition is_mec_reset_realm_mecid : K bool :=
  if negb is_feat_mec_present then ret true
  else
    s <-! get ;;
    ret ((mecid_a1_el2 s =? RESERVED_MECID_SYSTEM) && (vmecid_p_el2 s =? RESERVED_MECID_SYSTEM)).

End Mec.

(** ** The pool *)

Definition reserved (s : mec) (id : Z) : bool := bit_at (mec_reserved s) id.

(** What the pool operations leave alone. *)
Definition same_pe (s s' : mec) : Prop :=
  common_mecid_width s' = common_mecid_width s /\ is_init s' = is_init s /\ mecid_pcpcu_refcnt s' = mecid_pcpcu_refcnt s /\
  mecid_a1_el2 s' = mecid_a1_el2 s /\ vmecid_p_el2 s' = vmecid_p_el2 s.

Section Facts.
Context `{feat : ArchFeatures} `{conf : MecConfig}.
Hypothesis mec_present : is_feat_mec_present = true.

(** A private MECID the system supports. *)
Definition private (s : mec) (id : Z) : Prop := MECID_PRIVATE_START <= id < 2 ^ common_mecid_width s.

Record mec_wf (s : mec) : Prop := {
  mw_len : length (mec_reserved s) = MECID_ARRAY_SIZE;
  mw_words : Forall in_u64 (mec_reserved s);
  mw_width : 0 < common_mecid_width s <= MECID_WIDTH;
  mw_members : 0 <= shared_mec_members s <= UINT64_MAX;
  mw_own : forall id, 0 <= id <= MECID_SHARED -> reserved s id = true
}.

(** Private MECID [id] goes from free to taken, and its key is refreshed. *)
Definition takes (s : mec) (id : Z) (s' : mec) : Prop :=
  reserved s id = false /\ (forall u, 0 <= u -> reserved s' u = reserved s u || (u =? id)) /\
  refreshes s' = refreshes s ++ [Refresh id false] /\ shared_mec_members s' = shared_mec_members s /\ same_pe s s' /\ mec_wf s'.

(** And back, with its key refreshed before it is free. *)
Definition gives_back (s : mec) (id : Z) (s' : mec) : Prop :=
  (forall u, 0 <= u -> reserved s' u = reserved s u && negb (u =? id)) /\
  refreshes s' = refreshes s ++ [Refresh id true] /\ shared_mec_members s' = shared_mec_members s /\ same_pe s s' /\ mec_wf s'.

Lemma shared_range : MECID_SHARED = 1 \/ MECID_SHARED = 2.
Proof. unfold MECID_SHARED, RESERVED_IDS. destruct scrub_mecid; auto. Qed.

Lemma width_pow s : mec_wf s -> 2 <= 2 ^ common_mecid_width s <= 2 ^ 16.
Proof.
  intros H. pose proof (mw_width _ H) as Hw. unfold MECID_WIDTH in Hw.
  split; [change 2 with (2 ^ 1) at 1|]; apply Z.pow_le_mono_r; lia.
Qed.

Lemma mecid_max_ok s : mec_wf s -> mecid_max s = Some (2 ^ common_mecid_width s - 1, s).
Proof.
  intros H. pose proof (width_pow s H). pose proof (mw_width _ H). unfold mecid_max, bind, guard, get, ret. rewrite mec_present.
  rewrite Z.shiftl_1_l. unfold u32. rewrite (Z.mod_small (2 ^ _)) by lia. change MEC_MAX_COUNT with (2 ^ 16).
  rewrite (proj2 (Z.leb_le _ _)), Z.mod_small by lia. done.
Qed.

Lemma private_valid s id : mec_wf s -> private s id -> IS_PRIVATE_MECID_VALID id s = Some (true, s).
Proof.
  intros H [H1 H2]. unfold IS_PRIVATE_MECID_VALID. rewrite (proj2 (Z.leb_le _ _) H1). unfold bind.
  rewrite mecid_max_ok by done. unfold ret. by rewrite (proj2 (Z.leb_le _ _)) by lia.
Qed.

Lemma private_bit s id : mec_wf s -> private s id -> 0 <= id < 64 * Z.of_nat (length (mec_reserved s)) /\ u16 id = id /\ id <> MECID_SHARED.
Proof.
  intros H [H1 H2]. pose proof (width_pow s H). rewrite (mw_len _ H). change (Z.of_nat MECID_ARRAY_SIZE) with 1024.
  unfold MECID_PRIVATE_START in H1. destruct shared_range; split_and!; try lia; unfold u16; apply Z.mod_small; lia.
Qed.

Lemma mec_reserve_ok s id :
  mec_wf s -> private s id -> exists s', mec_reserve id s = Some (negb (reserved s id), s') /\
    if reserved s id then s' = s else takes s id s'.
Proof.
  intros H Hp. destruct (private_bit s id H Hp) as (Hb & H16 & Hne). pose proof H as [Hlen Hw Hwd Hm Hown].
  destruct (bitmap_set_bit _ id Hw Hb) as (w & r & Hget & Hold & Hset & Hw' & Hlen' & Hbits & Hsame). fold (reserved s id) in *.
  unfold mec_reserve, BITS_PER_UL, bind at 1. rewrite private_valid by done. unfold bind, guard, get, lift, modify, ret. rewrite Hget.
  destruct (atomic_bit_set w (id mod 64)) as [old w']. cbn [fst snd] in *. rewrite Hset, Hold. destruct (reserved s id) eqn:Hr; cbn [negb].
  - eexists. split; [done|]. rewrite Hsame by done. by destruct s.
  - eexists. split; [done|]. split_and!; try done; [by cbn; rewrite H16|]. split; cbn; try done; [lia|].
    intros u Hu. unfold reserved. cbn [mec_reserved set_reserved]. rewrite Hbits by lia. fold (reserved s u). by rewrite Hown.
Qed.

Lemma mec_release_ok s id : mec_wf s -> private s id -> exists s', mec_release id s = Some (tt, s') /\ gives_back s id s'.
Proof.
  intros H Hp. destruct (private_bit s id H Hp) as (Hb & H16 & Hne). pose proof H as [Hlen Hw Hwd Hm Hown].
  destruct (bitmap_clear_bit _ id Hw Hb) as (w & r & Hget & Hset & Hw' & Hlen' & Hbits).
  unfold mec_release, BITS_PER_UL, bind at 1. rewrite private_valid by done. unfold bind, guard, get, lift, modify, ret.
  cbn [rmm_el3_ifc_mec_refresh modify mec_reserved]. rewrite Hget, Hset. eexists. split; [done|].
  split_and!; try done; [by cbn; rewrite H16|]. split; cbn; try done; [lia|].
  intros u Hu. unfold reserved. cbn [mec_reserved set_reserved]. rewrite Hbits by lia. fold (reserved s u). rewrite Hown by done.
  destruct Hp as [Hp _]. unfold MECID_PRIVATE_START in Hp. cbn. lia.
Qed.

Lemma mecid_reserve_private s id :
  mec_wf s -> private s id -> mecid_a1_el2 s = RESERVED_MECID_SYSTEM ->
  exists s', mecid_reserve id s = Some (negb (reserved s id), s') /\ if reserved s id then s' = s else takes s id s'.
Proof.
  intros H Hp Ha. destruct (private_bit s id H Hp) as (_ & _ & Hne). destruct (mec_reserve_ok s id H Hp) as (s' & Hr & Hs').
  exists s'. split; [|done]. unfold mecid_reserve. rewrite mec_present, (proj2 (Z.eqb_neq _ _) Hne). cbn [negb].
  unfold bind at 1. rewrite private_valid by done. cbn [negb]. unfold bind, get, guard. by rewrite Ha.
Qed.

(** The hint is 0 or a free MECID. *)
Lemma mecid_hint_ok s : mec_wf s -> exists h, mecid_hint s = Some (h, s) /\ (h = 0 \/ 0 <= h < 2 ^ 16 /\ reserved s h = false).
Proof.
  intros H. pose proof H as [Hlen Hw _ _ _].
  assert (Hgen : forall n i, 0 <= i -> i + Z.of_nat n <= 1024 ->
    exists h, mecid_hint_loop (mec_reserved s) n i = Some h /\ (h = 0 \/ 0 <= h < 2 ^ 16 /\ reserved s h = false)).
  { induction n as [|n IH]; intros i Hi Hn; cbn [mecid_hint_loop]; [exists 0; auto|].
    assert (Hl : Z.of_nat (length (mec_reserved s)) = 1024) by (by rewrite Hlen).
    destruct (arr_get_some (mec_reserved s) i ltac:(lia)) as [w Hg]. rewrite Hg. cbn [mbind option_bind].
    destruct (Z.eqb_spec w (not64 0)) as [|Hne]; cbn [negb]; [apply IH; lia|]. eexists. split; [done|]. right.
    pose proof (lowest_set_spec 64 0 (not64 w)) as Hls. unfold builtin_ctzl. destruct (lowest_set 64 0 (not64 w)) as [j|].
    - destruct Hls as (Hj & Ht & _). cbn [from_option id]. unfold u32, BITS_PER_UL. rewrite Z.mod_small by lia. split; [lia|].
      unfold reserved, bit_at, BITS_PER_UL. rewrite Z.div_add_l, Z.div_small, Z.add_0_r, Hg by lia.
      rewrite Z.add_comm, Z.mod_add, Z.mod_small by lia. unfold not64 in Ht. rewrite Z.lxor_spec in Ht.
      change UINT64_MAX with (Z.ones 64) in Ht. rewrite Z.ones_spec_low in Ht by lia. by destruct (Z.testbit w j).
    - exfalso. apply Hne. apply Z.bits_inj'. intros k Hk. change (not64 0) with (Z.ones 64).
      assert (Hw64 : in_u64 w) by (unfold arr_get in Hg; inv_some Hg; rewrite Forall_lookup in Hw; by eapply Hw).
      destruct (decide (k < 64)); [|by rewrite Z.ones_spec_high, (testbit_small 64 w) by (done || lia)].
      specialize (Hls k ltac:(lia)). unfold not64 in Hls. rewrite Z.lxor_spec in Hls. change UINT64_MAX with (Z.ones 64) in Hls.
      rewrite Z.ones_spec_low in * by lia. by destruct (Z.testbit w k). }
  destruct (Hgen MECID_ARRAY_SIZE 0) as (h & Hh & Hr); [lia|change (Z.of_nat MECID_ARRAY_SIZE) with 1024; lia|].
  exists h. split; [|done]. unfold mecid_hint, bind, guard, get, lift. by rewrite mec_present, Hh.
Qed.

Lemma alloc_loop_ok s count start n : forall i,
  mec_wf s -> mecid_a1_el2 s = RESERVED_MECID_SYSTEM -> count = 2 ^ common_mecid_width s - MECID_PRIVATE_START -> 0 < count ->
  0 <= start < 2 ^ 16 -> 0 <= i -> i + Z.of_nat n <= 2 ^ 16 ->
  exists r s', mecid_alloc_loop count start n i s = Some (r, s') /\
    match r with
    | Some id => private s id /\ takes s id s'
    | None => s' = s /\ forall j, i <= j < i + Z.of_nat n -> reserved s (MECID_PRIVATE_START + (j + start) mod count) = true
    end.
Proof.
  induction n as [|n IH]; intros i H Ha Hc Hc0 Hst Hi Hn; cbn [mecid_alloc_loop].
  { exists None, s. split; [done|]. split; [done|]. intros; lia. }
  pose proof (width_pow s H) as Hpow. pose proof shared_range as Hsh. unfold MECID_PRIVATE_START in *.
  pose proof (Z.mod_pos_bound (i + start) count ltac:(lia)) as Hmod.
  assert (Hid : u32 (MECID_SHARED + 1 + u32 (i + start) mod count) = MECID_SHARED + 1 + (i + start) mod count)
    by (unfold u32; rewrite (Z.mod_small (i + start)), Z.mod_small by lia; done).
  rewrite Hid. set (id := MECID_SHARED + 1 + (i + start) mod count).
  assert (Hp : private s id) by (unfold private, MECID_PRIVATE_START, id; lia).
  destruct (mecid_reserve_private s id H Hp Ha) as (s' & Hr & Hs'). unfold bind. rewrite Hr.
  destruct (reserved s id) eqn:Hres; cbn [negb].
  - subst s'. destruct (IH (i + 1)) as (r & s' & -> & Hrest); try done; [lia..|]. exists r, s'. split; [done|].
    destruct r as [|]; [done|]. destruct Hrest as [-> Hall]. split; [done|]. intros j Hj.
    destruct (decide (j = i)) as [->|]; [done|apply Hall; lia].
  - by exists (Some id), s'.
Qed.

(** [mecid_alloc] of a private MECID. *)
Lemma mecid_alloc_private_ok s :
  mec_wf s -> mecid_a1_el2 s = RESERVED_MECID_SYSTEM ->
  exists r s', mecid_alloc false s = Some (r, s') /\
    match r with
    | Some id => private s id /\ takes s id s'
    | None => s' = s /\ forall id, private s id -> reserved s id = true
    end.
Proof.
  intros H Ha. pose proof (width_pow s H) as Hpow. pose proof shared_range as Hsh.
  destruct (mecid_hint_ok s H) as (h & Hh & Hfree). unfold mecid_alloc. rewrite mec_present. cbn [negb]. unfold bind at 1. rewrite mecid_max_ok by done.
  unfold bind at 1. rewrite Hh. unfold bind at 1, mecid_private_count. rewrite mec_present. cbn [negb]. unfold bind at 1. rewrite mecid_max_ok by done.
  unfold ret at 1. set (start := if (h =? 0) || (2 ^ common_mecid_width s - 1 <? h) then MECID_PRIVATE_START else h). cbv zeta. unfold MECID_PRIVATE_START in *.
  destruct (Z.ltb_spec (2 ^ common_mecid_width s - 1) (MECID_SHARED + 1)) as [Hnone|Hsome].
  { exists None, s. split; [done|]. split; [done|]. intros id [H1 H2]. unfold MECID_PRIVATE_START in H1. lia. }
  assert (Hst : MECID_SHARED + 1 <= start < 2 ^ 16).
  { unfold start. destruct Hfree as [->|[Hr Hf]]; [cbn; lia|].
    destruct ((h =? 0) || (2 ^ common_mecid_width s - 1 <? h)) eqn:E; [lia|].
    destruct (decide (h <= MECID_SHARED)) as [Hle|]; [|lia]. rewrite (mw_own _ H h) in Hf by lia. discriminate Hf. }
  set (count := 2 ^ common_mecid_width s - (MECID_SHARED + 1)).
  replace (u32 (2 ^ common_mecid_width s - 1 - (MECID_SHARED + 1) + 1)) with count
    by (unfold count, u32; rewrite Z.mod_small by lia; lia).
  replace (u32 (start - (MECID_SHARED + 1))) with (start - (MECID_SHARED + 1)) by (unfold u32; rewrite Z.mod_small by lia; lia).
  destruct (alloc_loop_ok s count (start - (MECID_SHARED + 1)) (Z.to_nat count) 0) as (r & s' & -> & Hr); try done; try (unfold count; lia).
  exists r, s'. split; [done|]. destruct r as [id|]; [done|]. destruct Hr as [-> Hall]. split; [done|]. intros id [H1 H2].
  unfold MECID_PRIVATE_START in *. set (st := start - (MECID_SHARED + 1)) in *.
  pose proof (Z.mod_pos_bound (id - (MECID_SHARED + 1) - st) count ltac:(unfold count; lia)).
  pose proof (Hall ((id - (MECID_SHARED + 1) - st) mod count) ltac:(lia)) as Hj.
  rewrite Z.add_mod_idemp_l, Z.sub_add, (Z.mod_small (id - _)) in Hj by (unfold count; lia).
  by replace id with (MECID_SHARED + 1 + (id - (MECID_SHARED + 1))) by lia.
Qed.

(** ** The shared MECID *)

(** The members of the shared MECID change to [n]; the pool does not. *)
Definition members_become (s : mec) (n : Z) (rs : list refresh) (s' : mec) : Prop :=
  mec_reserved s' = mec_reserved s /\ shared_mec_members s' = n /\ refreshes s' = refreshes s ++ rs /\ same_pe s s' /\ mec_wf s'.

Lemma members_wf s n rs : mec_wf s -> 0 <= n <= UINT64_MAX ->
  mec_wf (Mec (mec_reserved s) (common_mecid_width s) n (is_init s) rs (mecid_pcpcu_refcnt s) (mecid_a1_el2 s) (vmecid_p_el2 s)).
Proof. intros [H1 H2 H3 _ H5] Hn. by split. Qed.

Lemma shared_u16 : u16 MECID_SHARED = MECID_SHARED.
Proof. by destruct shared_range as [-> | ->]. Qed.

(** Its key is refreshed for the first member. *)
Lemma mecid_alloc_shared_ok s :
  mec_wf s -> exists r s', mecid_alloc true s = Some (r, s') /\
    if shared_mec_members s <? UINT64_MAX
    then r = Some MECID_SHARED /\ members_become s (shared_mec_members s + 1)
           (if shared_mec_members s =? 0 then [Refresh MECID_SHARED false] else []) s'
    else r = None /\ s' = s.
Proof.
  intros H. pose proof (mw_members _ H) as Hm. unfold mecid_alloc, mecid_reserve, bind, get, ret. rewrite mec_present, Z.eqb_refl. cbn [negb].
  destruct (Z.ltb_spec (shared_mec_members s) UINT64_MAX) as [Hlt|]; [|by exists None, s].
  assert (Hadd : add64 (shared_mec_members s) 1 = shared_mec_members s + 1)
    by (unfold add64; apply u64_small; unfold in_u64, UINT64_MAX in *; lia).
  destruct (Z.eqb_spec (shared_mec_members s) 0) as [E|E]; eexists _, _; (split; [done|]); (split; [done|]);
    (split_and!; cbn [modify mec_reserved shared_mec_members refreshes set_members]; rewrite ?Hadd; try done).
  all: try (rewrite ?shared_u16, ?app_nil_r; done). all: apply (members_wf s); [done|lia].
Qed.

(** And when the last one leaves. *)
Lemma mecid_free_shared_ok s :
  mec_wf s -> 0 < shared_mec_members s -> exists s', mecid_free MECID_SHARED s = Some (tt, s') /\
    members_become s (shared_mec_members s - 1) (if shared_mec_members s =? 1 then [Refresh MECID_SHARED true] else []) s'.
Proof.
  intros H Hpos. pose proof (mw_members _ H) as Hm. unfold mecid_free, bind, get, ret, guard, modify. rewrite mec_present, Z.eqb_refl. cbn [negb].
  rewrite (proj2 (Z.ltb_lt _ _) Hpos). cbn [set_members shared_mec_members].
  assert (Hsub : sub64 (shared_mec_members s) 1 = shared_mec_members s - 1)
    by (unfold sub64; apply u64_small; unfold in_u64, UINT64_MAX in *; lia).
  rewrite Hsub. destruct (Z.eqb_spec (shared_mec_members s) 1) as [E|E].
  - rewrite (proj2 (Z.eqb_eq _ 0)) by lia. eexists. split; [done|].
    split_and!; cbn [mec_reserved shared_mec_members refreshes]; try done; [by rewrite shared_u16|]. apply (members_wf s); [done|cbn; lia].
  - rewrite (proj2 (Z.eqb_neq _ 0)) by lia. eexists. split; [done|].
    split_and!; cbn [mec_reserved shared_mec_members refreshes]; try done; [by rewrite app_nil_r|]. apply (members_wf s); [done|cbn; lia].
Qed.

Lemma mecid_free_private_ok s id : mec_wf s -> private s id -> exists s', mecid_free id s = Some (tt, s') /\ gives_back s id s'.
Proof.
  intros H Hp. destruct (private_bit s id H Hp) as (_ & _ & Hne). destruct (mec_release_ok s id H Hp) as (s' & Hr & Hs').
  exists s'. split; [|done]. unfold mecid_free. rewrite mec_present, (proj2 (Z.eqb_neq _ _) Hne). cbn [negb].
  unfold bind at 1. rewrite private_valid by done. done.
Qed.

(** ** Sessions: realms are created and destroyed *)

(** Create a realm with a shared or private MECID, or destroy the [k]th realm. *)
Inductive mec_op := Op_create (is_shared : bool) | Op_destroy (k : nat).

(** [live]: the MECIDs of the realms that exist. *)
Definition mec_run (op : mec_op) (st : mec * list Z) : option (mec * list Z) :=
  let '(s, live) := st in
  match op with
  | Op_create sh => r ← mecid_alloc sh s; let '(id, s) := r in Some (s, match id with Some id => id :: live | None => live end)
  | Op_destroy k =>
      match live !! k with
      | None => Some (s, live)
      | Some id => r ← mecid_free id s; Some (snd r, delete k live)
      end
  end.

Fixpoint mec_session (ops : list mec_op) (st : mec * list Z) : option (mec * list Z) :=
  match ops with [] => Some st | op :: ops => st ← mec_run op st; mec_session ops st end.

(** The refreshes of the key of [id], oldest first: [true] is one that destroys. *)
Definition history (log : list refresh) (id : Z) : list bool :=
  is_destroy <$> filter (fun r => refreshed r = id) log.

Record mec_inv (s : mec) (live : list Z) : Prop := {
  mi_wf : mec_wf s;
  mi_a1 : mecid_a1_el2 s = RESERVED_MECID_SYSTEM;
  mi_shared : shared_mec_members s = Z.of_nat (length (filter (fun id => id = MECID_SHARED) live));
  mi_range : forall id, id ∈ live -> id = MECID_SHARED \/ private s id;
  mi_unique : NoDup (filter (fun id => id <> MECID_SHARED) live);
  mi_pool : forall id, private s id -> reserved s id = true <-> id ∈ live;
  mi_keys : forall id, private s id ->
    (forall k b, history (refreshes s) id !! k = Some b -> b = Nat.odd k) /\
    (id ∈ live <-> Nat.odd (length (history (refreshes s) id)) = true)
}.

Lemma history_snoc log x b id : history (log ++ [Refresh x b]) id = history log id ++ (if decide (x = id) then [b] else []).
Proof. unfold history. rewrite list.filter_app, fmap_app, filter_cons. cbn [refreshed]. by case_decide. Qed.

Lemma history_other log rs id : Forall (fun r => refreshed r <> id) rs -> history (log ++ rs) id = history log id.
Proof.
  intros H. unfold history. rewrite list.filter_app, fmap_app.
  assert (filter (fun r => refreshed r = id) rs = []) as ->; [|by rewrite app_nil_r].
  induction H as [|r rs Hr _ IH]; [done|]. by rewrite filter_cons_False.
Qed.

(** One more refresh of [id], of the expected kind. *)
Lemma history_next (h : list bool) :
  (forall k b, h !! k = Some b -> b = Nat.odd k) ->
  forall k b, (h ++ [Nat.odd (length h)]) !! k = Some b -> b = Nat.odd k.
Proof.
  intros H k b Hk. apply lookup_app_Some in Hk as [Hk|[Hge Hk]]; [by apply H|].
  apply list_lookup_singleton_Some in Hk as [Hk <-]. f_equal. lia.
Qed.

Lemma private_same s s' id : same_pe s s' -> private s' id <-> private s id.
Proof. intros (Hw & _). unfold private. by rewrite Hw. Qed.

Lemma mec_inv_shared s live s' n rs live' :
  mec_inv s live -> members_become s n rs s' -> Forall (fun r => refreshed r = MECID_SHARED) rs ->
  n = Z.of_nat (length (filter (fun id => id = MECID_SHARED) live')) ->
  filter (fun id => id <> MECID_SHARED) live' = filter (fun id => id <> MECID_SHARED) live ->
  mec_inv s' live'.
Proof.
  intros [Hwf Ha Hs Hr Hu Hp Hk] (Hres & Hn & Hlog & Hpe & Hwf') Hrs Hcount Hf.
  assert (Hin : forall id, id <> MECID_SHARED -> id ∈ live' <-> id ∈ live).
  { intros id Hne. assert (Hx : forall l, id ∈ l <-> id ∈ filter (fun id => id <> MECID_SHARED) l)
      by (intros l; rewrite list_elem_of_filter; tauto). by rewrite (Hx live'), Hf, <- Hx. }
  assert (Hne : forall id, private s id -> id <> MECID_SHARED) by (intros id [Hid _] ->; unfold MECID_PRIVATE_START in Hid; lia).
  assert (Hh : forall id, private s id -> history (refreshes s') id = history (refreshes s) id).
  { intros id Hid. rewrite Hlog. apply history_other. eapply Forall_impl; [exact Hrs|]. cbn. intros r Hr0 Heq.
    apply (Hne id Hid). congruence. }
  split; try done.
  - destruct Hpe as (_ & _ & _ & -> & _). done.
  - by rewrite Hn.
  - intros id Hid. destruct (decide (id = MECID_SHARED)) as [|Hd]; [by left|]. right. rewrite (private_same s s') by done.
    apply Hin in Hid; [|done]. by destruct (Hr id Hid).
  - by rewrite Hf.
  - intros id Hid. rewrite (private_same s s') in Hid by done. rewrite Hin by (by apply Hne). unfold reserved. rewrite Hres. by apply Hp.
  - intros id Hid. rewrite (private_same s s') in Hid by done. rewrite Hin, Hh by (done || by apply Hne). by apply Hk.
Qed.

Lemma mec_inv_takes s live id s' : mec_inv s live -> private s id -> takes s id s' -> mec_inv s' (id :: live).
Proof.
  intros [Hwf Ha Hs Hr Hu Hp Hk] Hid (Hfree & Hbits & Hlog & Hmem & Hpe & Hwf').
  assert (Hne : id <> MECID_SHARED) by (destruct Hid as [H1 _]; unfold MECID_PRIVATE_START in H1; lia).
  assert (Hnin : id ∉ live) by (rewrite <- (Hp id Hid); by rewrite Hfree). split; try done.
  - destruct Hpe as (_ & _ & _ & -> & _). done.
  - rewrite filter_cons_False by done. by rewrite Hmem.
  - intros x [->|Hx]%elem_of_cons; rewrite (private_same s s') by done; [by right|by apply Hr].
  - rewrite filter_cons_True by done. constructor; [|done]. rewrite list_elem_of_filter. tauto.
  - intros x Hx. rewrite (private_same s s') in Hx by done. destruct (private_bit s x Hwf Hx) as (Hx0 & _).
    rewrite Hbits, orb_true_iff, Z.eqb_eq, elem_of_cons, (Hp x Hx) by lia. tauto.
  - intros x Hx. rewrite (private_same s s') in Hx by done. rewrite Hlog, history_snoc, elem_of_cons. destruct (Hk x Hx) as [Hk1 Hk2].
    case_decide as Hd.
    + subst x. assert (Hodd : Nat.odd (length (history (refreshes s) id)) = false).
      { destruct (Nat.odd _); [|done]. exfalso. apply Hnin. by apply Hk2. }
      pose proof (history_next _ Hk1) as Hnext. rewrite Hodd in Hnext. split; [exact Hnext|]. rewrite length_app. cbn [length]. rewrite Nat.add_1_r, Nat.odd_succ, <- Nat.negb_odd, Hodd. tauto.
    + rewrite app_nil_r. split; [done|]. rewrite <- Hk2. split; [intros [->|]; done|by right].
Qed.

Lemma delete_filter_ne (P : Z -> Prop) `{!forall x, Decision (P x)} (live : list Z) k id :
  live !! k = Some id -> ~ P id -> filter P (delete k live) = filter P live.
Proof.
  intros Hk Hn. rewrite <- (take_drop_middle live k id Hk) at 2. rewrite delete_take_drop, !list.filter_app.
  by rewrite filter_cons_False by done.
Qed.

Lemma delete_filter_eq (P : Z -> Prop) `{!forall x, Decision (P x)} (live : list Z) k id :
  live !! k = Some id -> P id -> id :: filter P (delete k live) ≡ₚ filter P live.
Proof.
  intros Hk Hn. rewrite <- (take_drop_middle live k id Hk) at 2. rewrite delete_take_drop, !list.filter_app.
  rewrite filter_cons_True by done. apply Permutation_middle.
Qed.

Lemma mec_inv_gives_back s live k id s' :
  mec_inv s live -> live !! k = Some id -> private s id -> gives_back s id s' -> mec_inv s' (delete k live).
Proof.
  intros [Hwf Ha Hs Hr Hu Hp Hk] Hlk Hid (Hbits & Hlog & Hmem & Hpe & Hwf').
  assert (Hne : id <> MECID_SHARED) by (destruct Hid as [H1 _]; unfold MECID_PRIVATE_START in H1; lia).
  pose proof (delete_filter_eq (fun id => id <> MECID_SHARED) live k id Hlk Hne) as Hperm.
  assert (Hin : id ∈ live) by (by eapply list_elem_of_lookup_2).
  rewrite <- Hperm in Hu. apply NoDup_cons in Hu as [Hnin Hu].
  assert (Hmem' : forall x, x <> MECID_SHARED -> x ∈ delete k live <-> x ∈ live /\ x <> id).
  { intros x Hx. assert (Hf : forall l, x ∈ l <-> x ∈ filter (fun id => id <> MECID_SHARED) l)
      by (intros l; rewrite list_elem_of_filter; tauto).
    rewrite (Hf live), <- Hperm, elem_of_cons, <- Hf. split; [|tauto]. intros Hd. split; [by right|]. intros ->. apply Hnin. by rewrite <- Hf. }
  split; try done.
  - destruct Hpe as (_ & _ & _ & -> & _). done.
  - rewrite (delete_filter_ne _ live k id) by done. by rewrite Hmem.
  - intros x Hx. destruct (decide (x = MECID_SHARED)) as [|Hd]; [by left|]. right. rewrite (private_same s s') by done.
    apply Hmem' in Hx as [Hx _]; [|done]. by destruct (Hr x Hx).
  - intros x Hx. rewrite (private_same s s') in Hx by done. destruct (private_bit s x Hwf Hx) as (Hx0 & _ & Hxs).
    rewrite Hbits, andb_true_iff, negb_true_iff, Z.eqb_neq, Hmem', (Hp x Hx) by (done || lia). done.
  - intros x Hx. rewrite (private_same s s') in Hx by done. destruct (private_bit s x Hwf Hx) as (_ & _ & Hxs).
    rewrite Hlog, history_snoc, Hmem' by done. destruct (Hk x Hx) as [Hk1 Hk2]. case_decide as Hd.
    + subst x. assert (Hodd : Nat.odd (length (history (refreshes s) id)) = true) by (by apply Hk2).
      pose proof (history_next _ Hk1) as Hnext. rewrite Hodd in Hnext. split; [exact Hnext|].
      rewrite length_app. cbn [length]. rewrite Nat.add_1_r, Nat.odd_succ, <- Nat.negb_odd, Hodd. split; [tauto|done].
    + rewrite app_nil_r. split; [done|]. rewrite <- Hk2. split; [tauto|]. intros; split; congruence.
Qed.

Lemma mec_run_inv op s live : mec_inv s live -> exists s' live', mec_run op (s, live) = Some (s', live') /\ mec_inv s' live'.
Proof.
  intros Hinv. pose proof Hinv as [Hwf Ha Hs Hr Hu Hp Hk]. destruct op as [[]|k]; cbn [mec_run].
  - destruct (mecid_alloc_shared_ok s Hwf) as (r & s' & -> & Hres). cbn [mbind option_bind].
    destruct (shared_mec_members s <? UINT64_MAX); destruct Hres as [-> Hres]; [|subst; by eexists _, _].
    eexists _, _. split; [done|]. eapply mec_inv_shared; [exact Hinv|exact Hres| | |].
    + destruct (shared_mec_members s =? 0); by repeat constructor.
    + rewrite filter_cons_True by done. cbn [length]. lia.
    + by rewrite filter_cons_False by (intros H; by apply H).
  - destruct (mecid_alloc_private_ok s Hwf Ha) as ([id|] & s' & -> & Hres); cbn [mbind option_bind].
    + destruct Hres as [Hid Htk]. eexists _, _. split; [done|]. by eapply mec_inv_takes.
    + destruct Hres as [-> _]. by eexists _, _.
  - destruct (live !! k) as [id|] eqn:Hlk; [|by eexists _, _].
    destruct (Hr id ltac:(by eapply list_elem_of_lookup_2)) as [->|Hid].
    + pose proof (delete_filter_eq (fun id => id = MECID_SHARED) live k _ Hlk eq_refl) as Hperm%Permutation_length. cbn [length] in Hperm.
      destruct (mecid_free_shared_ok s Hwf ltac:(lia)) as (s' & -> & Hres). cbn [mbind option_bind snd].
      eexists _, _. split; [done|]. eapply mec_inv_shared; [exact Hinv|exact Hres| |lia|].
      * destruct (shared_mec_members s =? 1); by repeat constructor.
      * apply (delete_filter_ne _ live k MECID_SHARED Hlk). intros H. by apply H.
    + destruct (mecid_free_private_ok s id Hwf Hid) as (s' & -> & Hres). cbn [mbind option_bind snd].
      eexists _, _. split; [done|]. by eapply mec_inv_gives_back.
Qed.

Lemma mec_session_inv ops : forall s live, mec_inv s live -> exists s' live', mec_session ops (s, live) = Some (s', live') /\ mec_inv s' live'.
Proof.
  induction ops as [|op ops IH]; intros s live H; cbn [mec_session]; [by eexists _, _|].
  destruct (mec_run_inv op s live H) as (s' & live' & -> & H'). cbn [mbind option_bind]. by apply IH.
Qed.

(** ** The state at boot *)

Lemma width_ok : 0 < mec_compute_common_mecid_width <= MECID_WIDTH.
Proof.
  assert (H : forall x, 0 < u32 (EXTRACT (Field 0 4) x + 1) <= 16).
  { intros x. rewrite EXTRACT_spec by (split_and!; cbn; lia). cbn [f_shift f_width].
    pose proof (Z.mod_pos_bound (x / 2 ^ 0) (2 ^ 4) ltac:(lia)). unfold u32. rewrite Z.mod_small by lia. lia. }
  unfold mec_compute_common_mecid_width, MECID_WIDTH, MECIDR_MECIDWIDTHM1, FIRME_MECID_FR1_COMMON_MECID_WIDTH_BITS. rewrite mec_present. cbn [negb].
  pose proof (H read_mecidr_el2). pose proof (H firme_mecid_feature_register1). destruct firme_supports_mec_refresh; cbn [negb]; lia.
Qed.

(** Only the MECIDs of the RMM and the shared one are reserved. *)
Definition boot_pool : list Z := MEC_RESERVE_INITALIZER :: replicate 1023 0.

Lemma boot_pool_bits id : 0 <= id < 2 ^ 16 -> bit_at boot_pool id = (id <=? MECID_SHARED).
Proof.
  intros Hid. unfold bit_at, boot_pool, BITS_PER_UL. pose proof (Z.mod_pos_bound id 64 ltac:(lia)).
  pose proof (Z.div_pos id 64 ltac:(lia) ltac:(lia)). pose proof (Z.div_mod id 64 ltac:(lia)).
  assert (Hhi : id / 64 < 1024) by (apply Z.div_lt_upper_bound; lia).
  unfold arr_get. rewrite (proj2 (Z.leb_le _ _)) by done.
  destruct (decide (id / 64 = 0)) as [Hz|Hnz].
  - rewrite Hz. cbn [Z.to_nat lookup list_lookup]. replace (id mod 64) with id by lia.
    unfold MEC_RESERVE_INITALIZER, MECID_SHARED, RESERVED_IDS. destruct scrub_mecid.
    + destruct (decide (id <= 2)); [assert (id = 0 \/ id = 1 \/ id = 2) as [-> | [-> | ->]] by lia; reflexivity|].
      rewrite (proj2 (Z.leb_gt _ _)) by lia. change (sub64 (shl64 1 (2 + 1)) 1) with 7. apply (testbit_small 3); lia.
    + destruct (decide (id <= 1)); [assert (id = 0 \/ id = 1) as [-> | ->] by lia; reflexivity|].
      rewrite (proj2 (Z.leb_gt _ _)) by lia. change (sub64 (shl64 1 (1 + 1)) 1) with 3. apply (testbit_small 2); lia.
  - destruct (Z.to_nat (id / 64)) as [|n] eqn:E; [lia|]. rewrite lookup_cons, lookup_replicate_2 by lia. rewrite Z.bits_0.
    destruct shared_range; lia.
Qed.

Lemma mec_init_ok s :
  is_init s = false -> mecid_a1_el2 s = RESERVED_MECID_SYSTEM -> refreshes s = [] ->
  exists s', mec_init_state s = Some (tt, s') /\ mec_inv s' [] /\ is_init s' = true.
Proof.
  intros Hi Ha Hl. pose proof shared_range as Hsh. set (rs := (if scrub_mecid then [Refresh RESERVED_MECID_SCRUB false] else []) ++ [Refresh MECID_SHARED false]).
  exists (Mec boot_pool mec_compute_common_mecid_width 0 true rs (mecid_pcpcu_refcnt s) (mecid_a1_el2 s) (vmecid_p_el2 s)). split_and!.
  - unfold mec_init_state, bind, get, ret, rs. rewrite Hi. destruct s; cbn in Hl, Hi |- *. subst. by destruct scrub_mecid.
  - assert (Hpriv : forall id w, 0 < w <= 16 -> MECID_PRIVATE_START <= id < 2 ^ w -> bit_at boot_pool id = false /\ history rs id = []).
    { intros id w Hw [H1 H2]. unfold MECID_PRIVATE_START in H1. assert (2 ^ w <= 2 ^ 16) by (apply Z.pow_le_mono_r; lia).
      split; [rewrite boot_pool_bits by lia; lia|]. apply (history_other [] rs). unfold rs, RESERVED_MECID_SCRUB.
      destruct scrub_mecid; repeat constructor; cbn; lia. }
    pose proof width_ok as Hw. unfold MECID_WIDTH in Hw. split; cbn [refreshes]; try done.
    + split; cbn; try done; [|intros id Hid; unfold reserved; cbn [mec_reserved]; rewrite boot_pool_bits by lia; lia].
      unfold boot_pool. constructor; [|apply Forall_replicate; split; done]. unfold MEC_RESERVE_INITALIZER, RESERVED_IDS. destruct scrub_mecid; split; done.
    + intros id Hid. by apply elem_of_nil in Hid.
    + constructor.
    + intros id Hid. unfold reserved. cbn [mec_reserved]. destruct (Hpriv id _ Hw Hid) as [-> _]. split; [done|]. intros H. by apply elem_of_nil in H.
    + intros id Hid. destruct (Hpriv id _ Hw Hid) as [_ ->]. split; [done|]. split; [|done]. intros H. by apply elem_of_nil in H.
  - done.
Qed.


(** ** Nesting of the stage 1 register

    With [k] uses of MECID [id] outstanding on this PE, the register holds [id] if
    [k] is positive and the RMM's own otherwise. *)
Definition s1_uses (s : mec) (id k : Z) : Prop :=
  mecid_pcpcu_refcnt s = k /\ mecid_a1_el2 s = if k =? 0 then RESERVED_MECID_SYSTEM else id.

(** Getting adds a use and putting removes one; put undoes get exactly. *)
Theorem mecid_s1_nesting s id k :
  s1_uses s id k -> id <> RESERVED_MECID_SYSTEM -> 0 <= k < UINT64_MAX ->
  exists s', mec_realm_mecid_s1_init id s = Some (tt, s') /\ s1_uses s' id (k + 1) /\
    mec_realm_mecid_s1_reset s' = Some (tt, s).
Proof.
  intros [Hc Ha] Hid Hk. unfold UINT64_MAX in Hk.
  assert (H1 : add64 k 1 = k + 1) by (apply u64_small; unfold in_u64; lia).
  assert (H2 : add64 (k + 1) (u64 (-1)) = k).
  { unfold add64, u64. change (-1 mod 2 ^ 64) with (2 ^ 64 - 1). symmetry. apply (Z.mod_unique_pos _ _ 1); lia. }
  unfold mec_realm_mecid_s1_init, mec_realm_mecid_s1_reset. rewrite mec_present. cbn [negb].
  exists (set_s1 s (k + 1) id). split_and!.
  - unfold _mecid_s1_get, bind, get, modify, guard. rewrite Hc, H1. destruct (Z.eqb_spec k 0); rewrite Ha; [done|].
    by rewrite Z.eqb_refl.
  - split; [done|]. cbn. by rewrite (proj2 (Z.eqb_neq (k + 1) 0)) by lia.
  - unfold _mecid_s1_put, bind, get, modify, guard, ret. cbn [mecid_pcpcu_refcnt mecid_a1_el2 set_s1].
    rewrite H2, (proj2 (Z.eqb_neq (k + 1) 0)), (proj2 (Z.eqb_neq id _) Hid) by lia. cbn [negb].
    destruct (Z.eqb_spec (k + 1) 1), (Z.eqb_spec k 0); try lia; destruct s; cbn in *; subst; done.
Qed.

End Facts.

(** ** A concrete run *)

#[local] Existing Instance demo_features.

(** A CPU and firmware with 4-bit MECIDs. *)
#[local] Instance demo_mec_config : MecConfig :=
  {| scrub_mecid := false; read_mecidr_el2 := 7; firme_supports_mec_refresh := true; firme_mecid_feature_register1 := 3 |}.

Definition demo_mec : mec := Mec [] 0 0 false [] 0 0 0.

Definition demo_ops : list mec_op := [Op_create false; Op_create true; Op_create false; Op_destroy 2; Op_create false].

(** The MECID of the destroyed realm is used again, with a new key. *)
Example demo_mec_run :
  (r ← mec_init_state demo_mec; st ← mec_session demo_ops (snd r, []); Some (snd st, history (refreshes (fst st)) 2)) =
  Some ([2; 3; 1], [false; true; false]).
Proof. vm_compute. reflexivity. Qed.

