(* ===== verification/Sort.v ===== *)
(** * Sorting loops

    Two in-place sorts recur in the C code.  Insertion sort
    ([tracking_region_sort_and_validate_banks], [tr_sort_granules]) keeps a
    sorted prefix and shifts its elements up while they belong after the new
    one; the prefix is kept here in reverse, nearest element first.  Exchange
    sort ([tracking_memory_banks_assign_shared_indices]) swaps the element at
    [i] with every smaller element behind it. *)

From Stdlib Require Import ZArith Lia Bool Sorting.Sorted Permutation.
From stdpp Require Import base tactics option list numbers sorting.
From S2P Require Import Prelude.

Section Insertion.
Context {A : Type} (after : A -> A -> bool).

(** [while ((j > 0) && after(a[j-1], temp)) { a[j] = a[j-1]; j--; } a[j] = temp;] *)
Fixpoint shift_in (temp : A) (rprefix : list A) : list A :=
  match rprefix with
  | [] => [temp]
  | p :: rprefix' => if after p temp then p :: shift_in temp rprefix' else temp :: rprefix
  end.

Fixpoint insertion_loop (rprefix rest : list A) : list A :=
  match rest with
  | [] => rev rprefix
  | temp :: rest' => insertion_loop (shift_in temp rprefix) rest'
  end.

Definition insertion_sort (l : list A) : list A := insertion_loop [] l.

Lemma shift_in_perm temp r : shift_in temp r ≡ₚ temp :: r.
Proof.
  induction r as [|p r IH]; cbn [shift_in]; [done|]. destruct (after p temp); [|done].
  rewrite IH. apply Permutation_swap.
Qed.

Lemma insertion_loop_perm rest : forall r, insertion_loop r rest ≡ₚ r ++ rest.
Proof.
  induction rest as [|x rest IH]; intros r; cbn [insertion_loop].
  - rewrite app_nil_r. symmetry. apply Permutation_rev.
  - rewrite IH, shift_in_perm. apply Permutation_middle.
Qed.

Lemma insertion_sort_perm l : insertion_sort l ≡ₚ l.
Proof. apply insertion_loop_perm. Qed.

(** The order the sort produces: no element belongs after a later one. *)
Definition in_order (a b : A) : Prop := after a b = false.

Context (after_trans : forall a b c, after a b = false -> after b c = false -> after a c = false)
        (after_asym : forall a b, after a b = true -> after b a = false).

Lemma shift_in_sorted temp r :
  StronglySorted (flip in_order) r -> StronglySorted (flip in_order) (shift_in temp r).
Proof.
  induction r as [|p r IH]; cbn [shift_in]; intros Hs.
  { repeat constructor. }
  apply StronglySorted_inv in Hs as [Hs Hp]. destruct (after p temp) eqn:E.
  - constructor; [by apply IH|]. rewrite shift_in_perm. constructor; [|done].
    by apply after_asym.
  - constructor; [by constructor|]. constructor; [done|].
    eapply Forall_impl; [exact Hp|]. intros x Hx. unfold flip, in_order in *.
    by apply after_trans with p.
Qed.

Lemma StronglySorted_snoc (R : A -> A -> Prop) l x :
  StronglySorted R l -> Forall (fun y => R y x) l -> StronglySorted R (l ++ [x]).
Proof.
  induction l as [|y l IH]; cbn [app]; intros Hs Hf; [repeat constructor|].
  apply StronglySorted_inv in Hs as [Hs Hy]. apply Forall_cons in Hf as [Hyx Hf].
  constructor; [by apply IH|]. apply Forall_app. by split; [|repeat constructor].
Qed.

Lemma StronglySorted_rev (R : A -> A -> Prop) l :
  StronglySorted (flip R) l -> StronglySorted R (rev l).
Proof.
  induction l as [|x l IH]; cbn [rev]; intros Hs; [constructor|].
  apply StronglySorted_inv in Hs as [Hs Hx].
  apply StronglySorted_snoc; [by apply IH|]. by apply Forall_rev.
Qed.

Lemma insertion_loop_sorted rest : forall r,
  StronglySorted (flip in_order) r -> StronglySorted in_order (insertion_loop r rest).
Proof.
  induction rest as [|x rest IH]; intros r Hr; cbn [insertion_loop].
  - by apply StronglySorted_rev.
  - apply IH. by apply shift_in_sorted.
Qed.

Lemma insertion_sort_sorted l : StronglySorted in_order (insertion_sort l).
Proof. apply insertion_loop_sorted. constructor. Qed.

End Insertion.

Section Exchange.
Context {A : Type} (less : A -> A -> bool).

(** The inner loop on the element at [i] and the elements behind it. *)
Fixpoint exchange_pass (x : A) (behind : list A) : A * list A :=
  match behind with
  | [] => (x, [])
  | y :: behind' =>
      if less y x then let '(m, r) := exchange_pass y behind' in (m, x :: r)
      else let '(m, r) := exchange_pass x behind' in (m, y :: r)
  end.

Fixpoint exchange_loop (n : nat) (l : list A) : list A :=
  match n, l with
  | S n', x :: behind => let '(m, r) := exchange_pass x behind in m :: exchange_loop n' r
  | _, _ => l
  end.

Definition exchange_sort (l : list A) : list A := exchange_loop (length l) l.

Lemma exchange_pass_perm l : forall x m r, exchange_pass x l = (m, r) -> m :: r ≡ₚ x :: l.
Proof.
  induction l as [|y l IH]; intros x m r; cbn [exchange_pass]; [by intros [= <- <-]|].
  destruct (less y x).
  - destruct (exchange_pass y l) as [m' r'] eqn:E. intros [= <- <-].
    rewrite Permutation_swap. rewrite (IH _ _ _ E). done.
  - destruct (exchange_pass x l) as [m' r'] eqn:E. intros [= <- <-].
    rewrite Permutation_swap. rewrite (IH _ _ _ E). apply Permutation_swap.
Qed.

Lemma exchange_loop_perm n : forall l, exchange_loop n l ≡ₚ l.
Proof.
  induction n as [|n IH]; intros [|x l]; cbn [exchange_loop]; try done.
  destruct (exchange_pass x l) as [m r] eqn:E. rewrite IH. by apply exchange_pass_perm.
Qed.

Lemma exchange_sort_perm l : exchange_sort l ≡ₚ l.
Proof. apply exchange_loop_perm. Qed.

Context (less_trans : forall a b c, less a b = false -> less b c = false -> less a c = false)
        (less_asym : forall a b, less a b = true -> less b a = false).

Lemma exchange_pass_min l : forall x m r,
  exchange_pass x l = (m, r) -> less x m = false /\ Forall (fun y => less y m = false) r.
Proof.
  assert (Hirr : forall a, less a a = false).
  { intros a. destruct (less a a) eqn:E; [|done]. by rewrite (less_asym _ _ E) in E. }
  induction l as [|y l IH]; intros x m r; cbn [exchange_pass]; [by intros [= <- <-]|].
  destruct (less y x) eqn:E.
  - destruct (exchange_pass y l) as [m' r'] eqn:E'. intros [= <- <-].
    destruct (IH _ _ _ E') as [Hm Hr].
    assert (less x m' = false) by (apply less_trans with y; [by apply less_asym|done]).
    split; [done|]. by constructor.
  - destruct (exchange_pass x l) as [m' r'] eqn:E'. intros [= <- <-].
    destruct (IH _ _ _ E') as [Hm Hr]. split; [done|]. constructor; [|done].
    by apply less_trans with x.
Qed.

Lemma exchange_loop_sorted n : forall l, (length l <= n)%nat ->
  StronglySorted (fun a b => less b a = false) (exchange_loop n l).
Proof.
  induction n as [|n IH]; intros [|x l] Hn; cbn [exchange_loop length] in *;
    [constructor|lia|constructor|].
  destruct (exchange_pass x l) as [m r] eqn:E.
  pose proof (exchange_pass_perm _ _ _ _ E) as Hp. apply Permutation_length in Hp as Hl.
  cbn [length] in Hl. constructor; [apply IH; lia|].
  rewrite exchange_loop_perm. by apply exchange_pass_min in E as [_ ?].
Qed.

Lemma exchange_sort_sorted l : StronglySorted (fun a b => less b a = false) (exchange_sort l).
Proof. by apply exchange_loop_sorted. Qed.

End Exchange.
