(* ===== verification/AddrList.v ===== *)
(** * Address lists ([lib/addr_list])

    Hosts pass memory to the RMM, and get it back, as lists of range descriptors:
    a base address, a block size, a number of blocks and a state packed into 64
    bits.  A list denotes the sequence of its blocks; the theorems say that adding
    a block, taking the first one, sorting and handing a part of the list to the
    host do to that sequence what their names say. *)

From Stdlib Require Import ZArith Lia Bool ZifyBool.
From stdpp Require Import base tactics option list numbers sorting.
From S2P Require Import Prelude.
From S2P Require Import Utils.
From S2P Require Import Sort.

Definition XLAT_TABLE_LEVEL_MAX : Z := 3.
Definition XLAT_ADDR_SHIFT (level : Z) : Z := 12 + (XLAT_TABLE_LEVEL_MAX - level) * 9.
Definition XLAT_BLOCK_SIZE (level : Z) : Z := shl64 1 (XLAT_ADDR_SHIFT level).

Definition ADDR_LIST_MAX_RANGES : Z := GRANULE_SIZE / 8.
Definition XLAT_LVL_FROM_ADR_LIST_SZ (x : Z) : Z := XLAT_TABLE_LEVEL_MAX - x.

Definition RMI_OP_MEM_DELEGATED : Z := 0.
Definition RMI_OP_MEM_UNDELEGATED : Z := 1.
Definition RMI_OP_MEM_CONDITIONAL : Z := 2.

(** ** Range descriptors *)

Definition F_ADDR_RDESC_4K_SZ : regfield := Field 0 2.
Definition F_ADDR_RDESC_4K_CNT : regfield := Field 2 10.
Definition F_ADDR_RDESC_4K_ADDR : regfield := Field 12 40.
Definition F_ADDR_RDESC_4K_ST : regfield := Field 62 2.

Definition get_addr_from_desc (desc : Z) : Z := shl64 (EXTRACT F_ADDR_RDESC_4K_ADDR desc) (f_shift F_ADDR_RDESC_4K_ADDR).
Definition get_cnt_from_desc (desc : Z) : Z := EXTRACT F_ADDR_RDESC_4K_CNT desc.
Definition get_sz_from_desc (desc : Z) : Z := EXTRACT F_ADDR_RDESC_4K_SZ desc.
Definition get_st_from_desc (desc : Z) : Z := EXTRACT F_ADDR_RDESC_4K_ST desc.

Definition set_addr_in_desc (desc addr : Z) : Z :=
  Z.lor (Z.land desc (not64 (MASK F_ADDR_RDESC_4K_ADDR)))
        (INPLACE F_ADDR_RDESC_4K_ADDR (Z.shiftr addr (f_shift F_ADDR_RDESC_4K_ADDR))).
Definition set_cnt_in_desc (desc cnt : Z) : Z :=
  Z.lor (Z.land desc (not64 (MASK F_ADDR_RDESC_4K_CNT))) (INPLACE F_ADDR_RDESC_4K_CNT cnt).
Definition set_sz_in_desc (desc sz : Z) : Z :=
  Z.lor (Z.land desc (not64 (MASK F_ADDR_RDESC_4K_SZ))) (INPLACE F_ADDR_RDESC_4K_SZ sz).
Definition set_st_in_desc (desc st : Z) : Z :=
  Z.lor (Z.land desc (not64 (MASK F_ADDR_RDESC_4K_ST))) (INPLACE F_ADDR_RDESC_4K_ST st).

Definition get_max_block_cnt : Z := shl64 1 (f_width F_ADDR_RDESC_4K_CNT) - 1.
Definition max_block_count : Z := u32 get_max_block_cnt.

Definition increment_block_count (desc : Z) : option Z :=
  assert (negb (desc =? 0)) ;;
  assert (get_cnt_from_desc desc <? max_block_count) ;;
  Some (add64 desc (shl64 1 (f_shift F_ADDR_RDESC_4K_CNT))).
Definition decrement_block_count (desc : Z) : option Z :=
  assert (negb (desc =? 0)) ;;
  assert (0 <? get_cnt_from_desc desc) ;;
  Some (sub64 desc (shl64 1 (f_shift F_ADDR_RDESC_4K_CNT))).

Definition addr_list_sz_to_xlat_blk_sz (sz_enc : Z) : Z := XLAT_BLOCK_SIZE (XLAT_TABLE_LEVEL_MAX - sz_enc).

(** The loop of [xlat_blk_sz_to_addr_list_sz], [n] encodings left from [sz_enc]. *)
Fixpoint blk_sz_loop (n : nat) (sz_enc blk_size : Z) : option Z :=
  match n with
  | O => None
  | S n' => if addr_list_sz_to_xlat_blk_sz sz_enc =? blk_size then Some sz_enc else blk_sz_loop n' (sz_enc + 1) blk_size
  end.
Definition xlat_blk_sz_to_addr_list_sz (blk_size : Z) : option Z := blk_sz_loop 4 0 blk_size.

Definition IS_VALID_XLAT_BLOCK_SIZE (size : Z) : bool :=
  (size =? XLAT_BLOCK_SIZE XLAT_TABLE_LEVEL_MAX) || (size =? XLAT_BLOCK_SIZE (XLAT_TABLE_LEVEL_MAX - 1))
  || (size =? XLAT_BLOCK_SIZE (XLAT_TABLE_LEVEL_MAX - 2)) || (size =? XLAT_BLOCK_SIZE (XLAT_TABLE_LEVEL_MAX - 3)).

Definition desc_blk_size (desc : Z) : Z := addr_list_sz_to_xlat_blk_sz (get_sz_from_desc desc).

Definition create_desc (addr cnt blk_size st : Z) : option Z :=
  sz ← xlat_blk_sz_to_addr_list_sz blk_size;
  let desc := 0 in
  let desc := Z.lor desc (set_addr_in_desc desc addr) in
  let desc := Z.lor desc (set_cnt_in_desc desc cnt) in
  let desc := Z.lor desc (set_sz_in_desc desc sz) in
  let desc := Z.lor desc (set_st_in_desc desc st) in
  Some desc.

Definition desc_top_addr (desc : Z) : Z :=
  add64 (get_addr_from_desc desc) (mul64 (get_cnt_from_desc desc) (desc_blk_size desc)).
Definition desc_is_empty (desc : Z) : bool := get_cnt_from_desc desc =? 0.

(** ** Lists *)

Inductive list_type := LIST_TYPE_INPUT | LIST_TYPE_OUTPUT.
#[export] Instance list_type_eq_dec : EqDecision list_type.
Proof. solve_decision. Defined.

Record addr_list := AddrList {
  range_desc : list Z;
  al_count : Z;
  cur_idx : Z;
  max_count : Z;
  al_type : list_type
}.

Definition is_type (l : addr_list) (t : list_type) : bool := bool_decide (al_type l = t).
Definition set_cur_idx (l : addr_list) (i : Z) : addr_list := AddrList (range_desc l) (al_count l) i (max_count l) (al_type l).
Definition set_range_desc (l : addr_list) (ds : list Z) : addr_list := AddrList ds (al_count l) (cur_idx l) (max_count l) (al_type l).
Definition set_count (l : addr_list) (n : Z) : addr_list := AddrList (range_desc l) n (cur_idx l) (max_count l) (al_type l).

Definition addr_list_init (type : list_type) (max_count : Z) : option addr_list :=
  assert (0 <? max_count) ;;
  assert (max_count <=? ADDR_LIST_MAX_RANGES) ;;
  Some (AddrList (replicate (Z.to_nat ADDR_LIST_MAX_RANGES) 0) 0 0 max_count type).

Definition add_block_to_current_idx (l : addr_list) (addr blk_size st : Z) : option (bool * addr_list) :=
  desc ← arr_get (range_desc l) (cur_idx l);
  assert (negb (desc_is_empty desc)) ;;
  if negb (blk_size =? desc_blk_size desc) then Some (false, l)
  else if negb (st =? get_st_from_desc desc) then Some (false, l)
  else if max_block_count <=? get_cnt_from_desc desc then Some (false, l)
  else if addr =? sub64 (get_addr_from_desc desc) blk_size then
    desc ← increment_block_count (set_addr_in_desc desc addr);
    ds ← arr_set (range_desc l) (cur_idx l) desc;
    Some (true, set_range_desc l ds)
  else if addr =? desc_top_addr desc then
    desc ← increment_block_count desc;
    ds ← arr_set (range_desc l) (cur_idx l) desc;
    Some (true, set_range_desc l ds)
  else Some (false, l).

(** The loop over the descriptors, [n] of them left. *)
Fixpoint add_block_loop (n : nat) (l : addr_list) (addr blk_size st : Z) : option (bool * addr_list) :=
  match n with
  | O => Some (false, l)
  | S n' =>
      r ← add_block_to_current_idx l addr blk_size st;
      if fst r : bool then Some r else add_block_loop n' (set_cur_idx l (cur_idx l + 1)) addr blk_size st
  end.

(** Append a descriptor with one block. *)
Definition append_block (l : addr_list) (i addr blk_size st : Z) : option (bool * addr_list) :=
  desc ← create_desc addr 1 blk_size st;
  ds ← arr_set (range_desc l) i desc;
  Some (true, set_count (set_range_desc l ds) (al_count l + 1)).

Definition addr_list_add_block (l : addr_list) (block_addr rtt_level st : Z) : option (bool * addr_list) :=
  assert (is_type l LIST_TYPE_OUTPUT) ;;
  assert ((0 <=? rtt_level) && (rtt_level <=? XLAT_TABLE_LEVEL_MAX)) ;;
  assert ((st =? RMI_OP_MEM_DELEGATED) || (st =? RMI_OP_MEM_UNDELEGATED)) ;;
  let blk_size := XLAT_BLOCK_SIZE rtt_level in
  if negb (ALIGNED block_addr blk_size) then Some (false, l)
  else if al_count l =? 0 then append_block l 0 block_addr blk_size st
  else
    r ← add_block_loop (Z.to_nat (al_count l)) (set_cur_idx l 0) block_addr blk_size st;
    let '(added, l) := r in
    if added : bool then Some (true, l)
    else if al_count l =? max_count l then Some (false, l)
    else append_block l (cur_idx l) block_addr blk_size st.

Definition desc_after_by_addr (a b : Z) : bool :=
  if negb (eqb (desc_is_empty a) (desc_is_empty b)) then desc_is_empty a
  else if desc_is_empty a then false
  else get_addr_from_desc b <? get_addr_from_desc a.

(** The in-place insertion sort of the first [count] descriptors. *)
Definition addr_list_sort_by_addr (l : addr_list) : option addr_list :=
  assert (is_type l LIST_TYPE_OUTPUT) ;;
  let n := Z.to_nat (al_count l) in
  Some (set_cur_idx
    (set_range_desc l (insertion_sort desc_after_by_addr (take n (range_desc l)) ++ drop n (range_desc l))) 0).

Definition addr_list_add_desc (l : addr_list) (desc : Z) : option (bool * addr_list) :=
  assert (is_type l LIST_TYPE_INPUT) ;;
  if al_count l =? max_count l then Some (false, l)
  else
    desc' ← create_desc (get_addr_from_desc desc) (get_cnt_from_desc desc) (desc_blk_size desc) (get_st_from_desc desc);
    ds ← arr_set (range_desc l) (al_count l) desc';
    Some (true, set_count (set_range_desc l ds) (al_count l + 1)).

(** The next non-empty descriptor from [cur_idx] on. *)
Fixpoint skip_empty_loop (n : nat) (l : addr_list) : option addr_list :=
  match n with
  | O => Some l
  | S n' =>
      if cur_idx l <? al_count l then
        desc ← arr_get (range_desc l) (cur_idx l);
        if desc_is_empty desc then skip_empty_loop n' (set_cur_idx l (cur_idx l + 1)) else Some l
      else Some l
  end.

(** The block taken: its address, level and state. *)
Definition addr_list_reduce_first_block (l : addr_list) : option (option (Z * Z * Z) * addr_list) :=
  assert (is_type l LIST_TYPE_INPUT) ;;
  if al_count l =? 0 then Some (None, l) else
  l ← skip_empty_loop (Z.to_nat (al_count l)) l;
  if cur_idx l =? al_count l then Some (None, l) else
  assert (cur_idx l <? al_count l) ;;
  desc ← arr_get (range_desc l) (cur_idx l);
  let blk_size := desc_blk_size desc in
  let block_addr := get_addr_from_desc desc in
  let rtt_level := XLAT_TABLE_LEVEL_MAX - get_sz_from_desc desc in
  let st := get_st_from_desc desc in
  desc ← decrement_block_count (set_addr_in_desc desc (add64 block_addr blk_size));
  ds ← arr_set (range_desc l) (cur_idx l) desc;
  Some (Some (block_addr, rtt_level, st), set_range_desc l ds).

(** The first non-empty descriptor from index [i] on. *)
Fixpoint first_non_empty (ds : list Z) (i : Z) : Z :=
  match ds with
  | [] => i
  | desc :: ds => if desc_is_empty desc then first_non_empty ds (i + 1) else i
  end.

Definition addr_list_reduce_contig_block (l : addr_list) : option (option (Z * Z * Z) * addr_list) :=
  assert (is_type l LIST_TYPE_INPUT) ;;
  let ds := take (Z.to_nat (al_count l)) (range_desc l) in
  let idx := first_non_empty ds 0 in
  if idx =? al_count l then Some (None, l) else
  assert (forallb desc_is_empty (drop (Z.to_nat (idx + 1)) ds)) ;;
  desc ← arr_get (range_desc l) idx;
  let base_addr := get_addr_from_desc desc in
  let total_size := mul64 (get_cnt_from_desc desc) (desc_blk_size desc) in
  assert (IS_POWER_OF_TWO total_size) ;;
  assert (ALIGNED base_addr total_size) ;;
  ds ← arr_set (range_desc l) idx (set_cnt_in_desc desc 0);
  Some (Some (base_addr, total_size, get_st_from_desc desc), set_range_desc l ds).

Definition addr_list_peek_desc (l : addr_list) (idx : Z) : option (option (Z * Z * Z * Z)) :=
  if al_count l <=? idx then Some None
  else
    desc ← arr_get (range_desc l) idx;
    Some (Some (get_addr_from_desc desc, XLAT_LVL_FROM_ADR_LIST_SZ (get_sz_from_desc desc),
                get_cnt_from_desc desc, get_st_from_desc desc)).

(** The loop of [addr_list_validate] over the descriptors [ds]: [None] is
    [return false]. *)
Fixpoint validate_loop (ds : list Z) (is_contig : bool) (state valid_count total_mem : Z) : option Z :=
  match ds with
  | [] => Some total_mem
  | desc :: ds =>
      if get_cnt_from_desc desc =? 0 then validate_loop ds is_contig state valid_count total_mem
      else
      let valid_count := u32 (valid_count + 1) in
      if is_contig && (1 <? valid_count) then None
      else if negb (ALIGNED (get_addr_from_desc desc) (desc_blk_size desc)) then None
      else if negb (IS_VALID_XLAT_BLOCK_SIZE (desc_blk_size desc)) then None
      else if get_max_block_cnt <? get_cnt_from_desc desc then None
      else if negb (state =? RMI_OP_MEM_CONDITIONAL) && negb (get_st_from_desc desc =? state) then None
      else if (state =? RMI_OP_MEM_CONDITIONAL) && negb (get_st_from_desc desc =? RMI_OP_MEM_DELEGATED)
              && negb (get_st_from_desc desc =? RMI_OP_MEM_UNDELEGATED) then None
      else
      let contig_blk := mul64 (desc_blk_size desc) (get_cnt_from_desc desc) in
      if is_contig && (negb (IS_POWER_OF_TWO contig_blk) || negb (ALIGNED (get_addr_from_desc desc) contig_blk)) then None
      else validate_loop ds is_contig state valid_count (add64 total_mem contig_blk)
  end.

(** The total size of a valid list. *)
Definition addr_list_validate (l : addr_list) (is_contig : bool) (state : Z) : option (option Z) :=
  assert (is_type l LIST_TYPE_INPUT) ;;
  assert ((state =? RMI_OP_MEM_DELEGATED) || (state =? RMI_OP_MEM_UNDELEGATED) || (state =? RMI_OP_MEM_CONDITIONAL)) ;;
  assert (al_count l <=? ADDR_LIST_MAX_RANGES) ;;
  Some (validate_loop (take (Z.to_nat (al_count l)) (range_desc l)) is_contig state 0 0).

(** [written] tells whether the write to the host's granule succeeded.  The
    result: the descriptors the host got, and the list without them. *)
Definition addr_list_partial_copy_to_host (l : addr_list) (ns_list_addr ns_list_count : Z) (written : bool)
    : option (option (list Z) * addr_list) :=
  assert (is_type l LIST_TYPE_OUTPUT) ;;
  let ns_list_offset := Z.land ns_list_addr (not64 GRANULE_MASK) / 8 in
  assert (ALIGNED ns_list_addr 8) ;;
  let granule_remaining := u32 (ADDR_LIST_MAX_RANGES - ns_list_offset) in
  let list_count := Z.min (Z.min (al_count l) ns_list_count) granule_remaining in
  if negb written then Some (None, l) else
  let n := Z.to_nat list_count in
  let count := al_count l - list_count in
  let c := Z.to_nat count in
  Some (Some (take n (range_desc l)),
        set_count (set_range_desc l (take c (drop n (range_desc l)) ++ drop c (range_desc l))) count).

(** [host] is what the host's granule holds from [ns_list_addr] on, if it can be
    read. *)
Definition addr_list_copy_from_host (l : addr_list) (ns_list_addr ns_list_count : Z) (host : option (list Z))
    : option (bool * addr_list) :=
  assert (is_type l LIST_TYPE_INPUT) ;;
  let ns_list_offset := Z.land ns_list_addr (not64 GRANULE_MASK) / 8 in
  assert (al_count l =? 0) ;;
  assert (ns_list_offset + ns_list_count <=? ADDR_LIST_MAX_RANGES) ;;
  assert (ALIGNED ns_list_addr 8) ;;
  match host with
  | None => Some (false, l)
  | Some ds =>
      let n := Z.to_nat ns_list_count in
      Some (true, set_count (set_range_desc l (take n ds ++ drop n (range_desc l))) ns_list_count)
  end.

Definition addr_list_is_empty (l : addr_list) : bool := al_count l =? 0.

(** ** Fields of a descriptor *)

Lemma get_cnt_eq d : get_cnt_from_desc d = d / 4 mod 1024.
Proof. unfold get_cnt_from_desc. by rewrite EXTRACT_spec by (repeat split; cbn; lia). Qed.
Lemma get_sz_eq d : get_sz_from_desc d = d mod 4.
Proof. unfold get_sz_from_desc. rewrite EXTRACT_spec by (repeat split; cbn; lia). cbn. by rewrite Z.div_1_r. Qed.
Lemma get_st_eq d : get_st_from_desc d = d / 2 ^ 62 mod 4.
Proof. unfold get_st_from_desc. by rewrite EXTRACT_spec by (repeat split; cbn; lia). Qed.
Lemma get_addr_eq d : get_addr_from_desc d = d / 4096 mod 2 ^ 40 * 4096.
Proof.
  unfold get_addr_from_desc. rewrite EXTRACT_spec by (repeat split; cbn; lia). cbn [f_shift f_width F_ADDR_RDESC_4K_ADDR].
  unfold shl64. rewrite Z.shiftl_mul_pow2 by lia. apply u64_small. unfold in_u64.
  pose proof (Z.mod_pos_bound (d / 2 ^ 12) (2 ^ 40) ltac:(lia)). change (2 ^ 12) with 4096 in *. lia.
Qed.

Lemma set_addr_eq d a :
  in_u64 d -> 0 <= a < 2 ^ 52 -> set_addr_in_desc d a = d - d / 4096 mod 2 ^ 40 * 4096 + a / 4096 * 4096.
Proof.
  intros Hd Ha. unfold set_addr_in_desc. rewrite set_field_spec; [|repeat split; cbn; lia|done|].
  - rewrite EXTRACT_spec by (repeat split; cbn; lia). cbn [f_shift f_width F_ADDR_RDESC_4K_ADDR].
    rewrite Z.shiftr_div_pow2 by lia. done.
  - cbn [f_shift f_width F_ADDR_RDESC_4K_ADDR]. rewrite Z.shiftr_div_pow2 by lia. change (2 ^ 12) with 4096.
    split; [apply Z.div_pos; lia|apply Z.div_lt_upper_bound; lia].
Qed.

(** Solve equations between the fields of two descriptors. *)
Ltac desc_fields :=
  rewrite ?get_cnt_eq, ?get_sz_eq, ?get_st_eq, ?get_addr_eq in *; unfold in_u64 in *;
  Z.div_mod_to_equations; lia.

Lemma set_addr_low d a : in_u64 d -> 0 <= a ->
  in_u64 (set_addr_in_desc d a) /\ set_addr_in_desc d a mod 4096 = d mod 4096.
Proof.
  intros Hd Ha. unfold set_addr_in_desc. cbn [f_shift F_ADDR_RDESC_4K_ADDR]. split.
  - apply lor_range; [lia| |].
    + rewrite Z.land_comm. apply land_range; [lia|exact Hd].
    + unfold INPLACE, shl64. apply u64_range.
  - change 4096 with (2 ^ 12). rewrite <- !Z.land_ones, Z.land_lor_distr_l by lia. unfold INPLACE, shl64, u64.
    rewrite (Z.land_ones (_ mod _)), Z.mod_mod_divide by (lia || by exists (2 ^ 52)).
    cbn [f_shift F_ADDR_RDESC_4K_ADDR]. rewrite Z.shiftl_mul_pow2, Z.mod_mul by lia. rewrite Z.lor_0_r, <- Z.land_assoc.
    by replace (Z.land (not64 (MASK F_ADDR_RDESC_4K_ADDR)) (Z.ones 12)) with (Z.ones 12) by done.
Qed.

Lemma set_addr_fields d a : in_u64 d -> 0 <= a < 2 ^ 52 -> (4096 | a) ->
  get_addr_from_desc (set_addr_in_desc d a) = a /\ get_cnt_from_desc (set_addr_in_desc d a) = get_cnt_from_desc d /\
  get_sz_from_desc (set_addr_in_desc d a) = get_sz_from_desc d /\ get_st_from_desc (set_addr_in_desc d a) = get_st_from_desc d.
Proof.
  intros Hd Ha [q ->]. destruct (set_addr_low d (q * 4096) Hd ltac:(lia)) as [Hu _]. revert Hu.
  rewrite set_addr_eq by done. rewrite Z.div_mul by done. intros Hu. split_and!; desc_fields.
Qed.

(** Counting one block more or less leaves the other fields alone. *)
Lemma increment_fields d : in_u64 d -> get_cnt_from_desc d < 1023 ->
  in_u64 (d + 4) /\ get_cnt_from_desc (d + 4) = get_cnt_from_desc d + 1 /\ get_addr_from_desc (d + 4) = get_addr_from_desc d /\
  get_sz_from_desc (d + 4) = get_sz_from_desc d /\ get_st_from_desc (d + 4) = get_st_from_desc d.
Proof. intros Hd Hc. split_and!; desc_fields. Qed.

Lemma decrement_fields d : in_u64 d -> 0 < get_cnt_from_desc d ->
  in_u64 (d - 4) /\ get_cnt_from_desc (d - 4) = get_cnt_from_desc d - 1 /\ get_addr_from_desc (d - 4) = get_addr_from_desc d /\
  get_sz_from_desc (d - 4) = get_sz_from_desc d /\ get_st_from_desc (d - 4) = get_st_from_desc d.
Proof. intros Hd Hc. split_and!; desc_fields. Qed.

Lemma decrement_ok d : in_u64 d -> 0 < get_cnt_from_desc d -> decrement_block_count d = Some (d - 4).
Proof.
  intros Hd Hc. unfold decrement_block_count. rewrite (proj2 (Z.ltb_lt _ _) Hc).
  destruct (Z.eqb_spec d 0) as [->|]; [by vm_compute in Hc|]. cbn [negb]. f_equal.
  destruct (decrement_fields d Hd Hc) as [Hu _]. unfold sub64. by rewrite u64_small.
Qed.

Lemma increment_ok d : in_u64 d -> 0 < get_cnt_from_desc d < 1023 -> increment_block_count d = Some (d + 4).
Proof.
  intros Hd [H0 Hc]. unfold increment_block_count. change max_block_count with 1023. rewrite (proj2 (Z.ltb_lt _ _)) by lia.
  destruct (Z.eqb_spec d 0) as [->|]; [by vm_compute in H0|]. cbn [negb]. f_equal.
  destruct (increment_fields d Hd ltac:(lia)) as [Hu _]. unfold add64. by rewrite u64_small.
Qed.

Lemma blk_size_eq d : desc_blk_size d = 2 ^ (12 + 9 * get_sz_from_desc d) /\ 0 <= get_sz_from_desc d < 4.
Proof.
  assert (Hs : 0 <= get_sz_from_desc d < 4) by (rewrite get_sz_eq; apply Z.mod_pos_bound; lia). split; [|done].
  unfold desc_blk_size, addr_list_sz_to_xlat_blk_sz, XLAT_BLOCK_SIZE, XLAT_ADDR_SHIFT, XLAT_TABLE_LEVEL_MAX, shl64.
  assert (get_sz_from_desc d = 0 \/ get_sz_from_desc d = 1 \/ get_sz_from_desc d = 2 \/ get_sz_from_desc d = 3)
    as [-> | [-> | [-> | ->]]] by lia; done.
Qed.

Lemma get_ranges d : 0 <= get_cnt_from_desc d < 1024 /\ 0 <= get_addr_from_desc d < 2 ^ 52 /\ (4096 | get_addr_from_desc d).
Proof.
  split_and!; try (rewrite get_cnt_eq; apply Z.mod_pos_bound; lia).
  - rewrite get_addr_eq. pose proof (Z.mod_pos_bound (d / 4096) (2 ^ 40)). lia.
  - rewrite get_addr_eq. pose proof (Z.mod_pos_bound (d / 4096) (2 ^ 40)). lia.
  - rewrite get_addr_eq. by eexists.
Qed.

(** ** What a list denotes *)

(** A block: address, level, state. *)
Definition block : Type := Z * Z * Z.

Definition range_blocks (addr cnt sz st : Z) : list block :=
  (fun i => (addr + i * 2 ^ (12 + 9 * sz), 3 - sz, st)) <$> seqZ 0 cnt.
Definition desc_blocks (d : Z) : list block :=
  range_blocks (get_addr_from_desc d) (get_cnt_from_desc d) (get_sz_from_desc d) (get_st_from_desc d).

(** A range inside the 52-bit physical address space. *)
Definition desc_wf (d : Z) : Prop :=
  in_u64 d /\ get_addr_from_desc d + get_cnt_from_desc d * desc_blk_size d <= 2 ^ 52.

Lemma range_blocks_cons addr cnt sz st : 0 < cnt ->
  range_blocks addr cnt sz st = (addr, 3 - sz, st) :: range_blocks (addr + 2 ^ (12 + 9 * sz)) (cnt - 1) sz st.
Proof.
  intros Hc. unfold range_blocks. rewrite (seqZ_cons 0 cnt) by done. cbn. f_equal; [f_equal; f_equal; lia|].
  replace (Z.pred cnt) with (cnt - 1) by lia. rewrite <- (fmap_add_seqZ 1 0). rewrite <- list_fmap_compose.
  apply list_fmap_ext. intros i x Hx. cbn. f_equal. f_equal. lia.
Qed.

Lemma range_blocks_snoc addr cnt sz st : 0 <= cnt ->
  range_blocks addr (cnt + 1) sz st = range_blocks addr cnt sz st ++ [(addr + cnt * 2 ^ (12 + 9 * sz), 3 - sz, st)].
Proof. intros Hc. unfold range_blocks. rewrite seqZ_app by lia. rewrite fmap_app. done. Qed.

(** Taking the first block of a range. *)
Lemma reduce_desc d :
  desc_wf d -> 0 < get_cnt_from_desc d -> exists d',
    decrement_block_count (set_addr_in_desc d (add64 (get_addr_from_desc d) (desc_blk_size d))) = Some d' /\ desc_wf d' /\
    desc_blocks d = (get_addr_from_desc d, 3 - get_sz_from_desc d, get_st_from_desc d) :: desc_blocks d'.
Proof.
  intros [Hu Htop] Hc. destruct (get_ranges d) as (Hcr & Har & Ha4). destruct (blk_size_eq d) as [Hb Hsz].
  assert (Hb4 : 0 < desc_blk_size d <= 2 ^ 39) by (rewrite Hb; split; [apply Z.pow_pos_nonneg; lia|apply Z.pow_le_mono_r; lia]).
  assert (H4b : (4096 | desc_blk_size d)).
  { rewrite Hb. exists (2 ^ (9 * get_sz_from_desc d)). change 4096 with (2 ^ 12). rewrite <- Z.pow_add_r by lia. f_equal. lia. }
  unfold add64. rewrite u64_small by (unfold in_u64; lia). set (a := get_addr_from_desc d + desc_blk_size d) in *.
  destruct (set_addr_low d a Hu ltac:(lia)) as [Hu' Hlow].
  assert (Hc' : get_cnt_from_desc (set_addr_in_desc d a) = get_cnt_from_desc d).
  { rewrite !get_cnt_eq. clear -Hlow. Z.div_mod_to_equations; lia. }
  exists (set_addr_in_desc d a - 4). split; [apply decrement_ok; [done|lia]|].
  destruct (decrement_fields (set_addr_in_desc d a) Hu' ltac:(lia)) as (Hu2 & F1 & F2 & F3 & F4).
  destruct (decide (get_cnt_from_desc d = 1)) as [Hone|Hmany].
  - assert (H0 : get_cnt_from_desc (set_addr_in_desc d a - 4) = 0) by lia. split.
    + split; [done|]. rewrite H0. destruct (get_ranges (set_addr_in_desc d a - 4)) as (_ & ? & _). lia.
    + unfold desc_blocks. rewrite H0, Hone. rewrite (range_blocks_cons _ 1) by lia. done.
  - destruct (set_addr_fields d a Hu) as (G1 & G2 & G3 & G4); [nia|by apply Z.divide_add_r|].
    assert (Hblk : desc_blk_size (set_addr_in_desc d a - 4) = desc_blk_size d) by (unfold desc_blk_size; by rewrite F3, G3).
    split.
    + split; [done|]. rewrite Hblk, F1, F2, G1, Hc'. unfold a. nia.
    + unfold desc_blocks. rewrite F1, F2, F3, F4, G1, G3, G4, Hc'. rewrite range_blocks_cons by done.
      unfold a. by rewrite Hb.
Qed.

(** ** Lists of ranges *)

Definition descs_of (l : addr_list) : list Z := take (Z.to_nat (al_count l)) (range_desc l).
(** All blocks of a list, and those from the current descriptor on. *)
Definition blocks (l : addr_list) : list block := descs_of l ≫= desc_blocks.
Definition pending (l : addr_list) : list block := drop (Z.to_nat (cur_idx l)) (descs_of l) ≫= desc_blocks.

Record al_wf (l : addr_list) : Prop := {
  al_len : Z.of_nat (length (range_desc l)) = ADDR_LIST_MAX_RANGES;
  al_bounds : 0 <= cur_idx l <= al_count l /\ al_count l <= max_count l <= ADDR_LIST_MAX_RANGES;
  al_descs : Forall desc_wf (descs_of l)
}.

Lemma arr_get_descs l i d :
  al_wf l -> 0 <= i < al_count l -> arr_get (range_desc l) i = Some d <-> descs_of l !! Z.to_nat i = Some d.
Proof.
  intros [Hl [Hc1 Hc2] _] Hi. unfold arr_get, descs_of. rewrite (proj2 (Z.leb_le 0 i)) by lia.
  rewrite lookup_take_lt by lia. done.
Qed.

Lemma descs_some l i : al_wf l -> 0 <= i < al_count l ->
  exists d, arr_get (range_desc l) i = Some d /\ descs_of l !! Z.to_nat i = Some d /\ desc_wf d.
Proof.
  intros Hwf Hi. pose proof Hwf as [Hl [Hc1 Hc2] Hf]. destruct (arr_get_some (range_desc l) i) as [d Hd]; [lia|].
  exists d. split; [done|]. assert (Hd' := Hd). apply (arr_get_descs l i d Hwf Hi) in Hd'. split; [done|].
  by eapply Forall_lookup_1.
Qed.

(** Replacing descriptor [i]. *)
Lemma set_desc l i d' :
  al_wf l -> 0 <= i < al_count l -> desc_wf d' -> exists ds,
    arr_set (range_desc l) i d' = Some ds /\ al_wf (set_range_desc l ds) /\
    descs_of (set_range_desc l ds) = <[Z.to_nat i := d']> (descs_of l).
Proof.
  intros Hwf Hi Hd. pose proof Hwf as [Hl Hb Hf].
  rewrite (arr_set_some (range_desc l) i d') by lia. eexists. split; [done|].
  assert (Heq : descs_of (set_range_desc l (<[Z.to_nat i := d']> (range_desc l))) = <[Z.to_nat i := d']> (descs_of l)).
  { unfold descs_of, set_range_desc. cbn [al_count range_desc]. rewrite take_insert_lt by lia. done. }
  split; [|done]. split; [cbn [set_range_desc range_desc]; by rewrite length_insert|done|].
  rewrite Heq. by apply Forall_insert.
Qed.

Lemma skip_empty_ok n : forall l, al_wf l -> al_count l - cur_idx l <= Z.of_nat n ->
  exists c, skip_empty_loop n l = Some (set_cur_idx l c) /\ cur_idx l <= c <= al_count l /\
    pending (set_cur_idx l c) = pending l /\
    (c < al_count l -> exists d, descs_of l !! Z.to_nat c = Some d /\ 0 < get_cnt_from_desc d).
Proof.
  assert (Hid : forall l, set_cur_idx l (cur_idx l) = l) by (by intros []).
  induction n as [|n IH]; intros l Hwf Hn; pose proof Hwf as [Hl [Hc1 Hc2] Hf]; cbn [skip_empty_loop].
  { exists (cur_idx l). rewrite Hid. split_and!; try done; lia. }
  destruct (Z.ltb_spec (cur_idx l) (al_count l)) as [Hlt|].
  2: { exists (cur_idx l). rewrite Hid. split_and!; try done; lia. }
  destruct (descs_some l (cur_idx l) Hwf ltac:(lia)) as (d & Hd & Hd' & Hdw). rewrite Hd. cbn [mbind option_bind].
  destruct (desc_is_empty d) eqn:He; unfold desc_is_empty in He.
  - assert (Hwf' : al_wf (set_cur_idx l (cur_idx l + 1))) by (split; cbn; try done; lia).
    destruct (IH _ Hwf' ltac:(cbn; lia)) as (c & Hs & Hc & Hp & Hne). exists c. split; [exact Hs|].
    cbn in Hc. split; [lia|]. split; [|exact Hne].
    change (set_cur_idx (set_cur_idx l (cur_idx l + 1)) c) with (set_cur_idx l c) in Hp. rewrite Hp.
    unfold pending. cbn [set_cur_idx cur_idx]. change (descs_of (set_cur_idx l (cur_idx l + 1))) with (descs_of l).
    rewrite (drop_S (descs_of l) d (Z.to_nat (cur_idx l))) by done. cbn.
    replace (Z.to_nat (cur_idx l + 1)) with (S (Z.to_nat (cur_idx l))) by lia.
    assert (desc_blocks d = []) as ->; [|done]. unfold desc_blocks. by replace (get_cnt_from_desc d) with 0 by lia.
  - exists (cur_idx l). rewrite Hid. split_and!; try done; try lia. intros _. exists d. split; [done|].
    pose proof (proj1 (get_ranges d)). lia.
Qed.

Lemma reduce_first_block_ok l :
  al_wf l -> al_type l = LIST_TYPE_INPUT ->
  exists r l', addr_list_reduce_first_block l = Some (r, l') /\ al_wf l' /\ al_type l' = LIST_TYPE_INPUT /\
    match pending l with
    | [] => r = None /\ pending l' = []
    | b :: rest => r = Some b /\ pending l' = rest
    end.
Proof.
  intros Hwf Ht. pose proof Hwf as [Hl [Hc1 Hc2] Hf]. unfold addr_list_reduce_first_block, is_type.
  rewrite bool_decide_true by done. destruct (Z.eqb_spec (al_count l) 0) as [Hz|Hz].
  { exists None, l. split_and!; try done. assert (Hp : pending l = []) by (unfold pending, descs_of; rewrite Hz; change (Z.to_nat 0) with O; by rewrite take_0, drop_nil).
    by rewrite Hp. }
  destruct (skip_empty_ok (Z.to_nat (al_count l)) l Hwf ltac:(lia)) as (c & -> & Hc & Hp & Hne). cbn [mbind option_bind].
  rewrite <- Hp. cbn [set_cur_idx cur_idx al_count range_desc].
  assert (Hwf1 : al_wf (set_cur_idx l c)) by (split; cbn; try done; lia).
  destruct (Z.eqb_spec c (al_count l)) as [->|Hlt].
  { exists None, (set_cur_idx l (al_count l)). split_and!; try done.
    assert (Hnil : pending (set_cur_idx l (al_count l)) = []).
    { unfold pending. rewrite drop_ge; [done|]. unfold descs_of. cbn. rewrite length_take. lia. }
    by rewrite Hnil. }
  rewrite (proj2 (Z.ltb_lt c (al_count l))) by lia. destruct (Hne ltac:(lia)) as (d & Hd & Hcnt).
  assert (Hg : arr_get (range_desc l) c = Some d) by (apply (arr_get_descs l c d Hwf ltac:(lia)); exact Hd).
  rewrite Hg. cbn [mbind option_bind].
  destruct (reduce_desc d) as (d' & -> & Hdw' & Hb); [by eapply Forall_lookup_1|done|]. cbn [mbind option_bind].
  destruct (set_desc (set_cur_idx l c) c d' Hwf1 ltac:(cbn; lia) Hdw') as (ds & Hset & Hwf2 & Hds).
  cbn [range_desc set_cur_idx] in Hset. rewrite Hset. cbn [mbind option_bind].
  eexists _, _. split; [done|]. split; [done|]. split; [done|].
  assert (Hp1 : pending (set_cur_idx l c) = desc_blocks d ++ (drop (S (Z.to_nat c)) (descs_of l) ≫= desc_blocks)).
  { unfold pending. cbn [set_cur_idx cur_idx]. change (descs_of (set_cur_idx l c)) with (descs_of l). by rewrite (drop_S _ d). }
  rewrite Hp1, Hb. split; [done|]. unfold pending. rewrite Hds. cbn [set_range_desc set_cur_idx cur_idx].
  change (descs_of (set_cur_idx l c)) with (descs_of l).
  assert (Hlen : (Z.to_nat c < length (descs_of l))%nat) by (by eapply lookup_lt_Some).
  rewrite (drop_S _ d') by (by apply list_lookup_insert_eq). cbn. by rewrite drop_insert_lt by lia.
Qed.

(** ** Adding blocks *)

Lemma create_desc_ok addr cnt level st :
  0 <= addr < 2 ^ 52 -> (4096 | addr) -> 0 <= cnt < 1024 -> 0 <= level <= 3 -> 0 <= st < 4 ->
  exists d, create_desc addr cnt (XLAT_BLOCK_SIZE level) st = Some d /\ in_u64 d /\
    get_addr_from_desc d = addr /\ get_cnt_from_desc d = cnt /\ get_sz_from_desc d = 3 - level /\ get_st_from_desc d = st.
Proof.
  intros Ha [q ->] Hc Hl Hs. unfold create_desc.
  assert (Hsz : xlat_blk_sz_to_addr_list_sz (XLAT_BLOCK_SIZE level) = Some (3 - level)).
  { assert (level = 0 \/ level = 1 \/ level = 2 \/ level = 3) as [-> | [-> | [-> | ->]]] by lia; reflexivity. }
  rewrite Hsz. cbn [mbind option_bind]. eexists. split; [done|].
  assert (E1 : Z.lor 0 (set_addr_in_desc 0 (q * 4096)) = q * 4096).
  { rewrite Z.lor_0_l, set_addr_eq by (unfold in_u64; lia). rewrite Z.div_mul by lia. change (0 / 4096 mod 2 ^ 40) with 0. lia. }
  assert (E2 : Z.lor (q * 4096) (set_cnt_in_desc (q * 4096) cnt) = q * 4096 + cnt * 4).
  { apply set_zero_field; [repeat split; cbn; lia|unfold in_u64; lia|cbn; lia|].
    rewrite EXTRACT_spec by (repeat split; cbn; lia). cbn. Z.div_mod_to_equations; lia. }
  assert (E3 : Z.lor (q * 4096 + cnt * 4) (set_sz_in_desc (q * 4096 + cnt * 4) (3 - level)) = q * 4096 + cnt * 4 + (3 - level)).
  { rewrite <- (Z.mul_1_r (3 - level)) at 2. apply set_zero_field; [repeat split; cbn; lia|unfold in_u64; lia|cbn; lia|].
    rewrite EXTRACT_spec by (repeat split; cbn; lia). cbn. Z.div_mod_to_equations; lia. }
  assert (E4 : Z.lor (q * 4096 + cnt * 4 + (3 - level)) (set_st_in_desc (q * 4096 + cnt * 4 + (3 - level)) st)
    = q * 4096 + cnt * 4 + (3 - level) + st * 2 ^ 62).
  { apply set_zero_field; [repeat split; cbn; lia|unfold in_u64; lia|cbn; lia|].
    rewrite EXTRACT_spec by (repeat split; cbn; lia). cbn [f_shift f_width F_ADDR_RDESC_4K_ST]. Z.div_mod_to_equations; lia. }
  rewrite E1, E2, E3, E4. split_and!; desc_fields.
Qed.

(** Joining a block to a range. *)
Lemma join_block d addr d' :
  desc_wf d -> 0 < get_cnt_from_desc d < 1023 -> 0 <= addr -> addr + desc_blk_size d <= 2 ^ 52 -> (desc_blk_size d | addr) ->
  (addr = sub64 (get_addr_from_desc d) (desc_blk_size d) /\ d' = set_addr_in_desc d addr + 4) \/
  (addr = desc_top_addr d /\ d' = d + 4) ->
  desc_wf d' /\ get_cnt_from_desc d' = get_cnt_from_desc d + 1 /\
  desc_blocks d' ≡ₚ (addr, 3 - get_sz_from_desc d, get_st_from_desc d) :: desc_blocks d.
Proof.
  intros [Hu Htop] Hc Ha Hat Hal Hd'. destruct (get_ranges d) as (Hcr & Har & Ha4). destruct (blk_size_eq d) as [Hb Hsz].
  assert (Hb4 : 0 < desc_blk_size d <= 2 ^ 39) by (rewrite Hb; split; [apply Z.pow_pos_nonneg; lia|apply Z.pow_le_mono_r; lia]).
  assert (H4b : (4096 | desc_blk_size d)).
  { rewrite Hb. exists (2 ^ (9 * get_sz_from_desc d)). change 4096 with (2 ^ 12). rewrite <- Z.pow_add_r by lia. f_equal. lia. }
  destruct Hd' as [[Heq ->]|[Heq ->]].
  - assert (Hg : get_addr_from_desc d = addr + desc_blk_size d).
    { unfold sub64, u64 in Heq. destruct (decide (desc_blk_size d <= get_addr_from_desc d)).
      - rewrite Z.mod_small in Heq by lia. lia.
      - rewrite <- (Z.mod_add _ 1) in Heq by lia. rewrite Z.mod_small in Heq by lia. lia. }
    destruct (set_addr_fields d addr Hu ltac:(lia) ltac:(by eapply Z.divide_trans)) as (G1 & G2 & G3 & G4).
    destruct (set_addr_low d addr Hu Ha) as [Hu1 _].
    destruct (increment_fields (set_addr_in_desc d addr) Hu1 ltac:(lia)) as (Hu2 & F1 & F2 & F3 & F4).
    assert (Hblk : desc_blk_size (set_addr_in_desc d addr + 4) = desc_blk_size d) by (unfold desc_blk_size; by rewrite F3, G3).
    split_and!; [split; [done|rewrite Hblk, F1, F2, G1, G2; nia]|lia|].
    unfold desc_blocks. rewrite F1, F2, F3, F4, G1, G2, G3, G4. rewrite range_blocks_cons by lia.
    rewrite <- Hb, <- Hg. by replace (get_cnt_from_desc d + 1 - 1) with (get_cnt_from_desc d) by lia.
  - destruct (increment_fields d Hu ltac:(lia)) as (Hu2 & F1 & F2 & F3 & F4).
    assert (Hblk : desc_blk_size (d + 4) = desc_blk_size d) by (unfold desc_blk_size; by rewrite F3).
    assert (Ht : desc_top_addr d = get_addr_from_desc d + get_cnt_from_desc d * desc_blk_size d).
    { unfold desc_top_addr, add64, mul64. rewrite (u64_small (_ * _)) by (unfold in_u64; nia). apply u64_small. unfold in_u64; nia. }
    split_and!; [split; [done|rewrite Hblk, F1, F2; nia]|lia|].
    unfold desc_blocks. rewrite F1, F2, F3, F4. rewrite range_blocks_snoc by lia. rewrite <- Hb, <- Ht, <- Heq.
    by rewrite Permutation_app_comm.
Qed.

(** Output lists hold no empty range. *)
Definition all_used (l : addr_list) : Prop := Forall (fun d => 0 < get_cnt_from_desc d) (descs_of l).

(** Type and capacity do not change. *)
Definition same_use (l l' : addr_list) : Prop := al_type l' = al_type l /\ max_count l' = max_count l.

Lemma blocks_insert l i d d' b :
  descs_of l !! i = Some d -> desc_blocks d' ≡ₚ b :: desc_blocks d ->
  (<[i := d']> (descs_of l) ≫= desc_blocks) ≡ₚ b :: (descs_of l ≫= desc_blocks).
Proof.
  intros Hi Hb. rewrite (insert_take_drop _ i d') by (by eapply lookup_lt_Some). rewrite <- (take_drop_middle _ i d Hi) at 3.
  rewrite !bind_app. cbn. rewrite Hb. cbn. by rewrite <- (Permutation_middle (take i (descs_of l) ≫= desc_blocks)).
Qed.

Lemma add_to_current l addr level st d :
  al_wf l -> cur_idx l < al_count l -> descs_of l !! Z.to_nat (cur_idx l) = Some d -> 0 < get_cnt_from_desc d ->
  0 <= level <= 3 -> 0 <= addr -> addr + XLAT_BLOCK_SIZE level <= 2 ^ 52 -> (XLAT_BLOCK_SIZE level | addr) ->
  exists r l', add_block_to_current_idx l addr (XLAT_BLOCK_SIZE level) st = Some (r, l') /\
    if r : bool then exists d', al_wf l' /\ al_count l' = al_count l /\ max_count l' = max_count l /\ al_type l' = al_type l /\
      descs_of l' = <[Z.to_nat (cur_idx l) := d']> (descs_of l) /\ 0 < get_cnt_from_desc d' /\
      desc_blocks d' ≡ₚ (addr, level, st) :: desc_blocks d
    else l' = l.
Proof.
  intros Hwf Hcur Hd Hc Hl Ha Hat Hal. pose proof Hwf as [_ [Hc1 Hc2] Hf].
  assert (Hdw : desc_wf d) by (by eapply Forall_lookup_1). pose proof (proj1 (get_ranges d)) as Hcr.
  unfold add_block_to_current_idx. rewrite (proj2 (arr_get_descs l (cur_idx l) d Hwf ltac:(lia)) Hd). cbn [mbind option_bind].
  unfold desc_is_empty. rewrite (proj2 (Z.eqb_neq (get_cnt_from_desc d) 0)) by lia. cbn [negb].
  destruct (Z.eqb_spec (XLAT_BLOCK_SIZE level) (desc_blk_size d)) as [Hb|]; cbn [negb]; [|by exists false, l].
  destruct (Z.eqb_spec st (get_st_from_desc d)) as [Hst|]; cbn [negb]; [|by exists false, l].
  change max_block_count with 1023. destruct (Z.leb_spec 1023 (get_cnt_from_desc d)); [by exists false, l|].
  assert (Hlv : level = 3 - get_sz_from_desc d).
  { destruct (blk_size_eq d) as [Hbe Hsz]. rewrite Hbe in Hb.
    assert (level = 0 \/ level = 1 \/ level = 2 \/ level = 3) as [-> | [-> | [-> | ->]]] by lia;
    assert (get_sz_from_desc d = 0 \/ get_sz_from_desc d = 1 \/ get_sz_from_desc d = 2 \/ get_sz_from_desc d = 3)
      as [E | [E | [E | E]]] by lia; rewrite E in *; try reflexivity; vm_compute in Hb; discriminate Hb. }
  assert (Hput : forall d', (addr = sub64 (get_addr_from_desc d) (desc_blk_size d) /\ d' = set_addr_in_desc d addr + 4) \/
      (addr = desc_top_addr d /\ d' = d + 4) -> exists r l',
    (ds ← arr_set (range_desc l) (cur_idx l) d'; Some (true, set_range_desc l ds)) = Some (r, l') /\
    if r : bool then exists d', al_wf l' /\ al_count l' = al_count l /\ max_count l' = max_count l /\ al_type l' = al_type l /\
      descs_of l' = <[Z.to_nat (cur_idx l) := d']> (descs_of l) /\ 0 < get_cnt_from_desc d' /\
      desc_blocks d' ≡ₚ (addr, level, st) :: desc_blocks d else l' = l).
  { intros d' Hd'. rewrite Hb in Hat, Hal. destruct (join_block d addr d' Hdw ltac:(lia) Ha Hat Hal Hd') as (Hw' & Hc' & Hbl).
    destruct (set_desc l (cur_idx l) d' Hwf ltac:(lia) Hw') as (ds & -> & Hwf' & Hds).
    exists true, (set_range_desc l ds). split; [done|]. exists d'. split_and!; try done; [lia|]. by rewrite Hlv, Hst. }
  rewrite Hb. destruct (Z.eqb_spec addr (sub64 (get_addr_from_desc d) (desc_blk_size d))) as [He|].
  - destruct Hdw as [Hu Htop]. pose proof (set_addr_low d addr Hu Ha) as [Hu1 Hlow].
    rewrite increment_ok; [apply Hput; by left|done|].
    assert (get_cnt_from_desc (set_addr_in_desc d addr) = get_cnt_from_desc d) as ->; [|lia].
    rewrite !get_cnt_eq. clear -Hlow. Z.div_mod_to_equations; lia.
  - destruct (Z.eqb_spec addr (desc_top_addr d)) as [He|]; [|by exists false, l].
    rewrite increment_ok by (by apply Hdw || lia). apply Hput. by right.
Qed.

Lemma set_cur_wf l i : al_wf l -> 0 <= i <= al_count l -> al_wf (set_cur_idx l i).
Proof. intros [Hl Hb Hf] Hi. split; cbn; try done; lia. Qed.

Lemma add_loop_ok n : forall l addr level st,
  al_wf l -> all_used l -> al_count l - cur_idx l = Z.of_nat n ->
  0 <= level <= 3 -> 0 <= addr -> addr + XLAT_BLOCK_SIZE level <= 2 ^ 52 -> (XLAT_BLOCK_SIZE level | addr) ->
  exists r l', add_block_loop n l addr (XLAT_BLOCK_SIZE level) st = Some (r, l') /\
    if r : bool then al_wf l' /\ all_used l' /\ same_use l l' /\ blocks l' ≡ₚ (addr, level, st) :: blocks l
    else l' = set_cur_idx l (al_count l).
Proof.
  induction n as [|n IH]; intros l addr level st Hwf Hne Hn Hl Ha Hat Hal; cbn [add_block_loop].
  { exists false, l. split; [done|]. replace (al_count l) with (cur_idx l) by lia. by destruct l. }
  pose proof Hwf as [_ [Hc1 Hc2] _]. destruct (descs_some l (cur_idx l) Hwf ltac:(lia)) as (d & _ & Hd & Hdw).
  assert (Hdc : 0 < get_cnt_from_desc d) by (by eapply (Forall_lookup_1 _ _ _ _ Hne)).
  destruct (add_to_current l addr level st d Hwf ltac:(lia) Hd Hdc Hl Ha Hat Hal) as (r & l' & -> & Hr).
  cbn [mbind option_bind fst]. destruct r.
  - destruct Hr as (d' & Hwf' & Hcnt & Hmax & Hty & Hds & Hd' & Hb). exists true, l'. split; [done|]. split_and!; try done.
    + unfold all_used. rewrite Hds. by apply Forall_insert.
    + unfold blocks. rewrite Hds. by eapply blocks_insert.
  - subst l'. destruct (IH (set_cur_idx l (cur_idx l + 1)) addr level st) as (r & l' & Hr & Hpost); try done.
    + apply set_cur_wf; [done|lia].
    + cbn. lia.
    + exists r, l'. split; [exact Hr|]. by destruct r.
Qed.

Lemma append_ok l addr level st :
  al_wf l -> all_used l -> al_count l < max_count l -> 0 <= level <= 3 -> 0 <= st < 4 ->
  0 <= addr -> addr + XLAT_BLOCK_SIZE level <= 2 ^ 52 -> (XLAT_BLOCK_SIZE level | addr) ->
  exists l', append_block l (al_count l) addr (XLAT_BLOCK_SIZE level) st = Some (true, l') /\
    al_wf l' /\ all_used l' /\ same_use l l' /\ blocks l' = blocks l ++ [(addr, level, st)].
Proof.
  intros Hwf Hne Hcap Hl Hs Ha Hat Hal. pose proof Hwf as [Hlen [Hc1 Hc2] Hf].
  assert (Hblk : XLAT_BLOCK_SIZE level = 2 ^ (12 + 9 * (3 - level)) /\ (4096 | XLAT_BLOCK_SIZE level) /\ 0 < XLAT_BLOCK_SIZE level).
  { assert (level = 0 \/ level = 1 \/ level = 2 \/ level = 3) as [-> | [-> | [-> | ->]]] by lia;
      split_and!; try reflexivity; by apply Z.mod_divide. }
  destruct Hblk as (Hb & H4 & Hpos).
  destruct (create_desc_ok addr 1 level st ltac:(lia) ltac:(by eapply Z.divide_trans) ltac:(lia) Hl Hs)
    as (d & Hd & Hu & F1 & F2 & F3 & F4).
  assert (Hdb : desc_blk_size d = XLAT_BLOCK_SIZE level).
  { unfold desc_blk_size, addr_list_sz_to_xlat_blk_sz, XLAT_TABLE_LEVEL_MAX. rewrite F3. f_equal. lia. }
  unfold append_block. rewrite Hd. cbn [mbind option_bind].
  rewrite (arr_set_some (range_desc l) (al_count l) d) by lia. cbn [mbind option_bind].
  eexists. split; [done|]. set (l' := set_count _ _).
  assert (Hds : descs_of l' = descs_of l ++ [d]).
  { unfold descs_of, l'. cbn [set_count set_range_desc al_count range_desc].
    replace (Z.to_nat (al_count l + 1)) with (S (Z.to_nat (al_count l))) by lia.
    rewrite (take_S_r _ _ d) by (apply list_lookup_insert_eq; lia). by rewrite take_insert_ge by lia. }
  split_and!.
  - split; cbn; [by rewrite length_insert|lia|]. rewrite Hds. apply Forall_app. split; [done|]. apply Forall_singleton.
    split; [done|]. rewrite Hdb, F1, F2. lia.
  - unfold all_used. rewrite Hds. apply Forall_app. split; [done|]. apply Forall_singleton. lia.
  - done.
  - unfold blocks. rewrite Hds, bind_app. f_equal. cbn. rewrite app_nil_r. unfold desc_blocks. rewrite F1, F2, F3, F4.
    rewrite range_blocks_cons by lia. cbn. by replace (3 - (3 - level)) with level by lia.
Qed.

(** Taking the first block of an input list removes exactly the first of the
    blocks the list denotes, whatever ranges, empty ones included, it is made of;
    it reports an empty list exactly when no block is left. *)
Theorem addr_list_reduce_first_block_correct l :
  al_wf l -> al_type l = LIST_TYPE_INPUT ->
  exists r l', addr_list_reduce_first_block l = Some (r, l') /\ al_wf l' /\ al_type l' = LIST_TYPE_INPUT /\
    match pending l with
    | [] => r = None /\ pending l' = []
    | b :: rest => r = Some b /\ pending l' = rest
    end.
Proof. apply reduce_first_block_ok. Qed.

(** Adding a block to an output list adds that block and no other memory, merged
    into a range or as a new one; it is refused, with every range left as it was,
    only if it is not aligned to its size or the list is at its cap. *)
Theorem addr_list_add_block_correct l addr level st :
  al_wf l -> al_type l = LIST_TYPE_OUTPUT -> all_used l -> 0 < max_count l ->
  0 <= level <= 3 -> (st = RMI_OP_MEM_DELEGATED \/ st = RMI_OP_MEM_UNDELEGATED) ->
  0 <= addr -> addr + XLAT_BLOCK_SIZE level <= 2 ^ 52 ->
  exists r l', addr_list_add_block l addr level st = Some (r, l') /\ al_wf l' /\ all_used l' /\ same_use l l' /\
    if r : bool then blocks l' ≡ₚ (addr, level, st) :: blocks l
    else descs_of l' = descs_of l /\ (~ (XLAT_BLOCK_SIZE level | addr) \/ al_count l = max_count l).
Proof.
  intros Hwf Ht Hne Hmax Hl Hst Ha Hat. pose proof Hwf as [Hlen [Hc1 Hc2] Hf]. unfold addr_list_add_block, is_type, XLAT_TABLE_LEVEL_MAX.
  rewrite bool_decide_true by done. rewrite (proj2 (Z.leb_le 0 level)), (proj2 (Z.leb_le level 3)) by lia. cbn [andb].
  assert (Hs4 : 0 <= st < 4) by (destruct Hst as [-> | ->]; done).
  assert (Hstb : (st =? RMI_OP_MEM_DELEGATED) || (st =? RMI_OP_MEM_UNDELEGATED) = true) by (destruct Hst as [-> | ->]; done).
  rewrite Hstb. destruct (ALIGNED addr (XLAT_BLOCK_SIZE level)) eqn:Hal; cbn [negb].
  2: { exists false, l. split_and!; try done. left. intros Hd. rewrite <- ALIGNED_spec in Hd; [congruence|].
       assert (level = 0 \/ level = 1 \/ level = 2 \/ level = 3) as [-> | [-> | [-> | ->]]] by lia; done. }
  apply ALIGNED_spec in Hal;
    [|assert (level = 0 \/ level = 1 \/ level = 2 \/ level = 3) as [-> | [-> | [-> | ->]]] by lia; done].
  destruct (Z.eqb_spec (al_count l) 0) as [Hz|Hz].
  { destruct (append_ok l addr level st) as (l' & Hl' & Hwf' & Hne' & Hsu & Hb); try done; [lia|].
    rewrite Hz in Hl'. rewrite Hl'. exists true, l'. split_and!; try done. rewrite Hb. by rewrite Permutation_app_comm. }
  destruct (add_loop_ok (Z.to_nat (al_count l)) (set_cur_idx l 0) addr level st) as (r & l' & -> & Hr); try done;
    [apply set_cur_wf; [done|lia]|cbn; lia|].
  cbn [mbind option_bind]. destruct r.
  { destruct Hr as (Hwf' & Hne' & Hsu & Hb). by exists true, l'. }
  subst l'. cbn [set_cur_idx al_count cur_idx]. set (l1 := set_cur_idx _ _).
  assert (Hwf1 : al_wf l1) by (by apply (set_cur_wf l (al_count l)); [|lia]).
  change (al_count l =? max_count l1) with (al_count l =? max_count l).
  destruct (Z.eqb_spec (al_count l) (max_count l)) as [Hcap|Hcap].
  { exists false, l1. split_and!; try done. by right. }
  destruct (append_ok l1 addr level st) as (l' & Hl' & Hwf' & Hne' & Hsu & Hb); try done; [cbn; lia|].
  change (al_count l1) with (al_count l) in Hl'. rewrite Hl'. exists true, l'. split_and!; try done.
  rewrite Hb. by rewrite Permutation_app_comm.
Qed.

(** ** Handing memory back *)

Lemma sort_ok l :
  al_wf l -> al_type l = LIST_TYPE_OUTPUT -> exists l', addr_list_sort_by_addr l = Some l' /\ al_wf l' /\
    cur_idx l' = 0 /\ al_count l' = al_count l /\ al_type l' = LIST_TYPE_OUTPUT /\ descs_of l' ≡ₚ descs_of l /\
    StronglySorted (fun a b => desc_after_by_addr a b = false) (descs_of l').
Proof.
  intros [Hl [Hc1 Hc2] Hf] Ht. unfold addr_list_sort_by_addr, is_type. rewrite bool_decide_true by done.
  eexists. split; [done|]. fold (descs_of l). set (l' := set_cur_idx _ _).
  assert (Hlen : length (insertion_sort desc_after_by_addr (descs_of l)) = Z.to_nat (al_count l)).
  { rewrite insertion_sort_perm. unfold descs_of. rewrite length_take. lia. }
  assert (Hds : descs_of l' = insertion_sort desc_after_by_addr (descs_of l)).
  { unfold descs_of at 1. cbn [l' set_cur_idx set_range_desc al_count range_desc]. by rewrite take_app_length' by lia. }
  split_and!; try done.
  - split; cbn [l' set_cur_idx set_range_desc al_count range_desc cur_idx max_count].
    + rewrite length_app, Hlen, length_drop. lia.
    + lia.
    + rewrite Hds. by rewrite insertion_sort_perm.
  - by rewrite Hds, insertion_sort_perm.
  - rewrite Hds. apply insertion_sort_sorted.
    + intros a b c. unfold desc_after_by_addr. destruct (desc_is_empty a), (desc_is_empty b), (desc_is_empty c); cbn; try done; lia.
    + intros a b. unfold desc_after_by_addr. destruct (desc_is_empty a), (desc_is_empty b); cbn; try done; lia.
Qed.

(** What the host gets and what is left make up the list. *)
Lemma partial_copy_ok l ns_list_addr ns_list_count :
  al_wf l -> al_type l = LIST_TYPE_OUTPUT -> cur_idx l = 0 ->
  in_u64 ns_list_addr -> (8 | ns_list_addr) -> 0 < ns_list_count ->
  exists out l', addr_list_partial_copy_to_host l ns_list_addr ns_list_count true = Some (Some out, l') /\ al_wf l' /\
    out ++ descs_of l' = descs_of l /\ Z.of_nat (length out) <= ns_list_count /\ (0 < al_count l -> out <> []).
Proof.
  intros [Hl [Hc1 Hc2] Hf] Ht H0 Hu Hal Hn. unfold addr_list_partial_copy_to_host, is_type. rewrite bool_decide_true by done.
  rewrite (proj2 (ALIGNED_spec ns_list_addr 8 ltac:(done)) Hal). cbn [negb].
  assert (Hoff : 0 <= Z.land ns_list_addr (not64 GRANULE_MASK) / 8 <= 511).
  { change (not64 GRANULE_MASK) with (Z.ones 12). rewrite Z.land_ones by lia.
    pose proof (Z.mod_pos_bound ns_list_addr (2 ^ 12) ltac:(lia)). change (2 ^ 12) with 4096 in *.
    split; [apply Z.div_pos; lia|]. apply Z.lt_succ_r, Z.div_lt_upper_bound; lia. }
  change ADDR_LIST_MAX_RANGES with 512 in *. unfold u32. rewrite (Z.mod_small (512 - _)) by lia.
  set (k := Z.min _ _). assert (Hk : 0 <= k <= al_count l /\ (0 < al_count l -> 0 < k) /\ k <= ns_list_count) by lia.
  eexists _, _. split; [done|]. set (l' := set_count _ _).
  assert (Hcat : take (Z.to_nat k) (range_desc l) ++ descs_of l' = descs_of l).
  { unfold descs_of, l'. cbn [set_count set_range_desc al_count range_desc].
    rewrite take_app_length' by (rewrite length_take, length_drop; lia).
    rewrite take_take_drop. f_equal. lia. }
  split_and!.
  - split; cbn [l' set_count set_range_desc al_count range_desc cur_idx max_count]; change ADDR_LIST_MAX_RANGES with 512.
    + rewrite length_app, length_take, !length_drop. lia.
    + lia.
    + apply (Forall_app _ (take (Z.to_nat k) (range_desc l))). fold l'. by rewrite Hcat.
  - done.
  - rewrite length_take. lia.
  - intros Hpos Hnil. apply (f_equal length) in Hnil. rewrite length_take in Hnil. cbn in Hnil. lia.
Qed.

(** An output list is handed back to the host in pieces that fit its granule:
    after sorting, the piece written and the ranges kept are together exactly the
    ranges of the list, in ascending order of address, and every call with room
    for one makes progress. *)
Theorem addr_list_hand_back_correct l ns_list_addr ns_list_count :
  al_wf l -> al_type l = LIST_TYPE_OUTPUT -> all_used l ->
  in_u64 ns_list_addr -> (8 | ns_list_addr) -> 0 < ns_list_count ->
  exists l1 out l2, addr_list_sort_by_addr l = Some l1 /\
    addr_list_partial_copy_to_host l1 ns_list_addr ns_list_count true = Some (Some out, l2) /\ al_wf l2 /\
    out ++ descs_of l2 ≡ₚ descs_of l /\
    StronglySorted (fun a b => get_addr_from_desc a <= get_addr_from_desc b) (out ++ descs_of l2) /\
    (blocks l <> [] -> out <> []).
Proof.
  intros Hwf Ht Hne Hu Hal Hn. destruct (sort_ok l Hwf Ht) as (l1 & Hs & Hwf1 & H0 & Hc & Ht1 & Hp & Hsort).
  destruct (partial_copy_ok l1 ns_list_addr ns_list_count Hwf1 Ht1 H0 Hu Hal Hn) as (out & l2 & Hcp & Hwf2 & Hcat & _ & Hpr).
  exists l1, out, l2. split_and!; try done.
  - by rewrite Hcat.
  - rewrite Hcat. assert (Hne1 : Forall (fun d => 0 < get_cnt_from_desc d) (descs_of l1)) by (by rewrite Hp).
    clear -Hsort Hne1. induction Hsort as [|a ds Hss IH Hall]; [constructor|]. apply Forall_cons in Hne1 as [Ha Hds].
    constructor; [by apply IH|]. rewrite Forall_forall in *. intros b Hb. specialize (Hall b Hb). specialize (Hds b Hb).
    unfold desc_after_by_addr, desc_is_empty in Hall.
    rewrite (proj2 (Z.eqb_neq (get_cnt_from_desc a) 0)), (proj2 (Z.eqb_neq (get_cnt_from_desc b) 0)) in Hall by lia. cbn in Hall. lia.
  - intros Hb. apply Hpr. rewrite Hc. pose proof (al_bounds _ Hwf) as [[? ?] _].
    destruct (decide (al_count l = 0)) as [E|]; [|lia]. exfalso. apply Hb. unfold blocks, descs_of. by rewrite E.
Qed.

(** ** Validation *)

Definition level_size (level : Z) : Z := 2 ^ (12 + 9 * (3 - level)).
Definition block_bytes (bs : list block) : Z := foldr (fun '(_, level, _) n => level_size level + n) 0 bs.

Lemma block_bytes_cons a lv st bs : block_bytes ((a, lv, st) :: bs) = level_size lv + block_bytes bs.
Proof. done. Qed.

Lemma block_bytes_app bs bs' : block_bytes (bs ++ bs') = block_bytes bs + block_bytes bs'.
Proof. induction bs as [|[[a lv] s] bs IH]; [done|]. cbn [app]. rewrite !block_bytes_cons, IH. lia. Qed.

Lemma range_bytes addr cnt sz st : 0 <= cnt -> block_bytes (range_blocks addr cnt sz st) = cnt * 2 ^ (12 + 9 * sz).
Proof.
  intros Hc. revert addr. pattern cnt. apply natlike_ind; [done| |done]. clear cnt Hc. intros cnt Hc IH addr.
  rewrite range_blocks_cons, block_bytes_cons by lia.
  replace (Z.succ cnt - 1) with cnt by lia. rewrite IH. unfold level_size. replace (3 - (3 - sz)) with sz by lia. lia.
Qed.

(** The address, size and state conditions on one block. *)
Definition block_valid (state : Z) (b : block) : Prop :=
  let '(addr, level, st) := b in
  0 <= level <= 3 /\ (level_size level | addr) /\
  (st = state \/ (state = RMI_OP_MEM_CONDITIONAL /\ (st = RMI_OP_MEM_DELEGATED \/ st = RMI_OP_MEM_UNDELEGATED))).

Lemma range_valid state addr cnt sz st :
  0 <= sz < 4 -> (2 ^ (12 + 9 * sz) | addr) ->
  (st = state \/ (state = RMI_OP_MEM_CONDITIONAL /\ (st = RMI_OP_MEM_DELEGATED \/ st = RMI_OP_MEM_UNDELEGATED))) ->
  Forall (block_valid state) (range_blocks addr cnt sz st).
Proof.
  intros Hs Hd Hst. unfold range_blocks. apply Forall_fmap, Forall_forall. intros i _. cbn. unfold level_size.
  replace (3 - (3 - sz)) with sz by lia. split_and!; [lia|lia| |done].
  apply Z.divide_add_r; [done|]. by exists i.
Qed.

Lemma validate_loop_ok contig state ds : forall vc tot total,
  0 <= vc <= 512 - Z.of_nat (length ds) -> 0 <= tot -> tot + Z.of_nat (length ds) * 2 ^ 49 < 2 ^ 64 ->
  validate_loop ds contig state vc tot = Some total ->
  total = tot + block_bytes (ds ≫= desc_blocks) /\ Forall (block_valid state) (ds ≫= desc_blocks) /\
  (contig = true -> (1 <= vc -> ds ≫= desc_blocks = []) /\
     (ds ≫= desc_blocks = [] \/ exists a lv st rest, ds ≫= desc_blocks = (a, lv, st) :: rest /\
        IS_POWER_OF_TWO (total - tot) = true /\ (total - tot | a))).
Proof.
  induction ds as [|d ds IH]; intros vc tot total Hvc Ht Hroom H; cbn [validate_loop length] in *.
  { injection H as <-. cbn. split_and!; [lia|constructor|]. intros _. split; [done|by left]. }
  destruct (get_ranges d) as (Hcr & Har & _). destruct (blk_size_eq d) as [Hb Hsz].
  assert (Hb4 : 0 < desc_blk_size d <= 2 ^ 39) by (rewrite Hb; split; [apply Z.pow_pos_nonneg; lia|apply Z.pow_le_mono_r; lia]).
  destruct (Z.eqb_spec (get_cnt_from_desc d) 0) as [Hz|Hz].
  { assert (Hnil : desc_blocks d = []) by (unfold desc_blocks; by rewrite Hz). cbn. rewrite Hnil. cbn.
    apply (IH vc tot); [lia|done|lia|done]. }
  assert (Hu : u32 (vc + 1) = vc + 1) by (unfold u32; apply Z.mod_small; lia). rewrite Hu in H.
  destruct (contig && (1 <? vc + 1)) eqn:Hcg; [done|].
  destruct (ALIGNED (get_addr_from_desc d) (desc_blk_size d)) eqn:Hal; cbn [negb] in H; [|done].
  apply ALIGNED_spec in Hal; [|lia].
  destruct (negb (IS_VALID_XLAT_BLOCK_SIZE _)); [done|]. destruct (get_max_block_cnt <? _); [done|].
  destruct (negb (state =? RMI_OP_MEM_CONDITIONAL) && negb (get_st_from_desc d =? state)) eqn:Hs1; [done|].
  destruct ((state =? RMI_OP_MEM_CONDITIONAL) && _ && _) eqn:Hs2; [done|].
  assert (Hmul : mul64 (desc_blk_size d) (get_cnt_from_desc d) = get_cnt_from_desc d * desc_blk_size d).
  { unfold mul64. rewrite Z.mul_comm. apply u64_small. unfold in_u64. nia. }
  rewrite Hmul in H. destruct (contig && (_ || _)) eqn:Hpc; [done|].
  assert (Hadd : add64 tot (get_cnt_from_desc d * desc_blk_size d) = tot + get_cnt_from_desc d * desc_blk_size d).
  { unfold add64. apply u64_small. unfold in_u64. nia. }
  rewrite Hadd in H. apply IH in H as (Htot & Hval & Hc); [|lia|nia|nia].
  assert (Hbytes : block_bytes (desc_blocks d) = get_cnt_from_desc d * desc_blk_size d)
    by (unfold desc_blocks; rewrite range_bytes by lia; by rewrite Hb).
  cbn. rewrite block_bytes_app, Hbytes. split_and!; [lia| |].
  - apply Forall_app. split; [|done]. apply range_valid; [done|by rewrite <- Hb|]. unfold RMI_OP_MEM_CONDITIONAL, RMI_OP_MEM_DELEGATED, RMI_OP_MEM_UNDELEGATED in *. lia.
  - intros ->. cbn [andb] in Hcg, Hpc. split; [lia|]. destruct (Hc eq_refl) as [Hnil _]. rewrite Hnil in * by lia. rewrite app_nil_r.
    apply orb_false_iff in Hpc as [Hp1 Hp2]. right. unfold desc_blocks. rewrite range_blocks_cons by lia.
    eexists _, _, _, _. split; [done|]. replace (total - tot) with (get_cnt_from_desc d * desc_blk_size d) by (cbn in Htot; lia).
    split; [by apply negb_false_iff|]. apply negb_false_iff in Hp2. apply ALIGNED_spec in Hp2; [done|nia].
Qed.

(** An input list that passes validation consists of blocks aligned to their size,
    in the requested state; the size reported is the sum of their sizes, computed
    without overflow; a contiguous list is a single range whose size is a power of
    two, aligned to that size. *)
Theorem addr_list_validate_sound l contig state total :
  al_wf l -> addr_list_validate l contig state = Some (Some total) ->
  total = block_bytes (blocks l) /\ Forall (block_valid state) (blocks l) /\
  (contig = true -> blocks l = [] \/ exists a lv st rest, blocks l = (a, lv, st) :: rest /\
     IS_POWER_OF_TWO total = true /\ (total | a)).
Proof.
  intros [Hl [Hc1 Hc2] _] H. unfold addr_list_validate in H. destruct (is_type _ _); [|done].
  destruct (_ || _); [|done]. destruct (_ <=? _); [|done]. injection H as H. fold (descs_of l) in H.
  assert (Hlen : Z.of_nat (length (descs_of l)) <= 512)
    by (unfold descs_of; rewrite length_take; change ADDR_LIST_MAX_RANGES with 512 in *; lia).
  apply validate_loop_ok in H as (Ht & Hv & Hc); [|lia|lia|lia]. split_and!; [done|done|].
  intros Hct. destruct (Hc Hct) as [_ Hr]. by replace (total - 0) with total in Hr by lia.
Qed.

(** ** Witnesses *)

(** Two ranges: two pages at 0x80000000 and an empty one. *)
Definition demo_input : addr_list :=
  AddrList ([0x80000000 + 8; 0] ++ replicate 510 0) 2 0 4 LIST_TYPE_INPUT.
Definition demo_output : addr_list :=
  AddrList ([0x80000000 + 8; 0x70000000 + 4] ++ replicate 510 0) 2 0 4 LIST_TYPE_OUTPUT.

Lemma demo_lists_wf : al_wf demo_input /\ al_wf demo_output /\ all_used demo_output.
Proof.
  assert (Hd : forall a, 0 <= a < 2 ^ 40 -> desc_wf a).
  { intros a Ha. split; [unfold in_u64; lia|]. destruct (blk_size_eq a) as [Hb Hs]. destruct (get_ranges a) as (Hc & _).
    assert (0 <= desc_blk_size a <= 2 ^ 39) by (rewrite Hb; split; [apply Z.pow_nonneg; lia|apply Z.pow_le_mono_r; lia]).
    assert (get_addr_from_desc a <= a).
    { rewrite get_addr_eq. pose proof (Z.mod_le (a / 4096) (2 ^ 40) ltac:(apply Z.div_pos; lia) ltac:(lia)).
      pose proof (Z.mul_div_le a 4096 ltac:(lia)). lia. }
    assert (get_cnt_from_desc a * desc_blk_size a <= 1023 * 2 ^ 39) by (apply Z.mul_le_mono_nonneg; lia). lia. }
  split_and!.
  - split; [reflexivity|change ADDR_LIST_MAX_RANGES with 512; cbn; lia|].
    cbn. repeat constructor; apply Hd; lia.
  - split; [reflexivity|change ADDR_LIST_MAX_RANGES with 512; cbn; lia|].
    cbn. repeat constructor; apply Hd; lia.
  - cbn. repeat constructor.
Qed.

Lemma addr_list_reduce_first_block_correct_witness :
  exists l', addr_list_reduce_first_block demo_input = Some (Some (0x80000000, 3, 0), l') /\ pending l' = [(0x80001000, 3, 0)].
Proof.
  destruct (addr_list_reduce_first_block_correct demo_input (proj1 demo_lists_wf) eq_refl) as (r & l' & Hr & _ & _ & Hp).
  assert (E : pending demo_input = [(0x80000000, 3, 0); (0x80001000, 3, 0)]) by (vm_compute; reflexivity).
  rewrite E in Hp. destruct Hp as [-> Hp]. exists l'. split; assumption.
Defined.

Lemma addr_list_add_block_correct_witness :
  exists r l', addr_list_add_block demo_output 0x80002000 3 RMI_OP_MEM_DELEGATED = Some (r, l') /\ al_wf l'.
Proof.
  destruct (addr_list_add_block_correct demo_output 0x80002000 3 RMI_OP_MEM_DELEGATED (proj1 (proj2 demo_lists_wf)) eq_refl
    (proj2 (proj2 demo_lists_wf))) as (r & l' & H & Hwf & _);
    [reflexivity|lia|left; reflexivity|lia|vm_compute; discriminate|]. exists r, l'. split; assumption.
Defined.

Lemma addr_list_hand_back_correct_witness :
  exists l1 out l2, addr_list_sort_by_addr demo_output = Some l1 /\
    addr_list_partial_copy_to_host l1 0x1ff8 5 true = Some (Some out, l2) /\ out <> [].
Proof.
  destruct (addr_list_hand_back_correct demo_output 0x1ff8 5 (proj1 (proj2 demo_lists_wf)) eq_refl (proj2 (proj2 demo_lists_wf)))
    as (l1 & out & l2 & H1 & H2 & _ & _ & _ & H); [unfold in_u64; lia|by exists 1023|lia|].
  exists l1, out, l2. split; [exact H1|]. split; [exact H2|]. apply H. intros E. assert (E' : length (blocks demo_output) = 3%nat) by (vm_compute; reflexivity). rewrite E in E'. discriminate E'.
Defined.

Lemma addr_list_validate_sound_witness : block_bytes (blocks demo_input) = 8192.
Proof.
  destruct (addr_list_validate_sound demo_input true 0 8192 (proj1 demo_lists_wf)) as (H & _); [vm_compute; reflexivity|].
  symmetry. exact H.
Defined.
