(* ===== verification/Sro.v ===== *)
(** * Stateful RMM operations ([lib/sro_context], [runtime/rmi/sro.c])

    A command that cannot finish in one call leaves its state in an SRO context,
    seals it and gives the host its handle; the host goes on with RMI_OP_CONTINUE,
    RMI_OP_MEM_DONATE, RMI_OP_MEM_RECLAIM or RMI_OP_CANCEL.  The pool of contexts
    is shared by all PEs; each pool operation is one critical section of
    [sro_spinlock].  The part of a context that belongs to the command is an
    opaque payload, and the command's callback a parameter. *)

From Stdlib Require Import ZArith Lia Bool ZifyBool.
From stdpp Require Import base tactics option list numbers.
From S2P Require Import Prelude.
From S2P Require Import Utils.
From S2P Require Import Status.
From S2P Require Import Smc.
From S2P Require Import Granule.
From S2P Require Import Mem.
From S2P Require Import AddrList.

Definition SRO_CTX_PER_CPU : Z := 10.
Definition SRO_INVALID_RESULT : Z := not64 0.

Inductive sro_state := SRO_STATE_FREE | SRO_STATE_RESERVED | SRO_STATE_SEALED.
#[export] Instance sro_state_eq_dec : EqDecision sro_state.
Proof. solve_decision. Defined.
Definition sro_state_is (s t : sro_state) : bool := bool_decide (s = t).

(** What a zeroed command-specific part is. *)
Class SroPayload (C : Type) := { zero_payload : C }.

(** [struct sro_context]; [payload] is the union and [aux_op_ctx]. *)
Record sro_context (C : Type) := SroContext {
  state : sro_state;
  init_command : Z;
  sro_addr_list : addr_list;
  can_cancel : bool;
  is_contig : bool;
  mem_state : Z;
  expected_fid : Z;
  transfer_req : Z;
  reclaim_res : Z;
  prev_exp_fid : Z;
  sro_flags : Z;
  range_desc_count : Z;
  payload : C
}.
Arguments SroContext {C}.
Arguments state {C}.
Arguments init_command {C}.
Arguments sro_addr_list {C}.
Arguments can_cancel {C}.
Arguments is_contig {C}.
Arguments mem_state {C}.
Arguments expected_fid {C}.
Arguments transfer_req {C}.
Arguments reclaim_res {C}.
Arguments prev_exp_fid {C}.
Arguments sro_flags {C}.
Arguments range_desc_count {C}.
Arguments payload {C}.

(** [struct sro_cpu_ctx_ref]: the context of a PE as an index, and [op_handler]. *)
Record sro_cpu_ctx_ref := CpuRef { ref_ctx : option Z; op_handler : Z }.

(** [struct sro_ctx_pool]; [ctx_count] is the length of the array. *)
Record sro_ctx_pool (C : Type) := Pool { pool_init : bool; ctxs : list (sro_context C) }.
Arguments Pool {C}.
Arguments pool_init {C}.
Arguments ctxs {C}.

(** The globals of the library: [pool] and [cpu_sro_ctx]. *)
Record sro_lib (C : Type) := SroLib { pool : option (sro_ctx_pool C); cpu_sro_ctx : list sro_cpu_ctx_ref }.
Arguments SroLib {C}.
Arguments pool {C}.
Arguments cpu_sro_ctx {C}.

Section Context.
Context {C : Type} `{payloads : SroPayload C}.
Implicit Types (c : sro_context C) (l : sro_lib C).

(** A zeroed address list; [memset] leaves its type 0, which is neither of the two
    types, and no function looks at it before [addr_list_init]. *)
Definition zero_list : addr_list := AddrList (replicate (Z.to_nat ADDR_LIST_MAX_RANGES) 0) 0 0 0 LIST_TYPE_INPUT.
Definition zero_context : sro_context C :=
  SroContext SRO_STATE_FREE 0 zero_list false false 0 0 0 0 0 0 0 zero_payload.

Definition set_sro_state (v : sro_state) c := SroContext v (init_command c) (sro_addr_list c) (can_cancel c) (is_contig c)
  (mem_state c) (expected_fid c) (transfer_req c) (reclaim_res c) (prev_exp_fid c) (sro_flags c) (range_desc_count c) (payload c).
Definition set_addr_list (v : addr_list) c := SroContext (state c) (init_command c) v (can_cancel c) (is_contig c)
  (mem_state c) (expected_fid c) (transfer_req c) (reclaim_res c) (prev_exp_fid c) (sro_flags c) (range_desc_count c) (payload c).
Definition set_can_cancel (v : bool) c := SroContext (state c) (init_command c) (sro_addr_list c) v (is_contig c)
  (mem_state c) (expected_fid c) (transfer_req c) (reclaim_res c) (prev_exp_fid c) (sro_flags c) (range_desc_count c) (payload c).
Definition set_donation (contig : bool) (ms xfer : Z) c := SroContext (state c) (init_command c) (sro_addr_list c)
  (can_cancel c) contig ms (expected_fid c) xfer (reclaim_res c) (prev_exp_fid c) (sro_flags c) (range_desc_count c) (payload c).
Definition set_expected_fid (v : Z) c := SroContext (state c) (init_command c) (sro_addr_list c) (can_cancel c) (is_contig c)
  (mem_state c) v (transfer_req c) (reclaim_res c) (prev_exp_fid c) (sro_flags c) (range_desc_count c) (payload c).
Definition set_reclaim (result fid : Z) c := SroContext (state c) (init_command c) (sro_addr_list c) (can_cancel c)
  (is_contig c) (mem_state c) (expected_fid c) (transfer_req c) result fid (sro_flags c) (range_desc_count c) (payload c).
Definition set_flags (v : Z) c := SroContext (state c) (init_command c) (sro_addr_list c) (can_cancel c) (is_contig c)
  (mem_state c) (expected_fid c) (transfer_req c) (reclaim_res c) (prev_exp_fid c) v (range_desc_count c) (payload c).
Definition set_range_desc_count (v : Z) c := SroContext (state c) (init_command c) (sro_addr_list c) (can_cancel c)
  (is_contig c) (mem_state c) (expected_fid c) (transfer_req c) (reclaim_res c) (prev_exp_fid c) (sro_flags c) v (payload c).
Definition set_payload (v : C) c := SroContext (state c) (init_command c) (sro_addr_list c) (can_cancel c)
  (is_contig c) (mem_state c) (expected_fid c) (transfer_req c) (reclaim_res c) (prev_exp_fid c) (sro_flags c)
  (range_desc_count c) v.

(** The macros that encode two members as RMI flags. *)
Definition SRO_CONTIG_FLAG c : Z := if is_contig c then 1 else 0.
Definition SRO_CAN_CANCEL_FLAG c : Z := if can_cancel c then RMI_OP_CAN_CANCEL else 0.

(** ** The pool *)

(** [assert((pool != NULL) && pool->init)] and the array of contexts. *)
Definition live_pool l : option (list (sro_context C)) := p ← pool l; assert (pool_init p) ;; Some (ctxs p).

Definition with_ctxs l (cs : list (sro_context C)) : sro_lib C :=
  SroLib ((fun p => Pool (pool_init p) cs) <$> pool l) (cpu_sro_ctx l).
Definition with_ref l (refs : list sro_cpu_ctx_ref) : sro_lib C := SroLib (pool l) refs.

Definition sro_ctx_is_idle l : option bool :=
  cs ← live_pool l; Some (forallb (fun c => sro_state_is (state c) SRO_STATE_FREE) cs).

(** [stored] is what the memory given to the library holds, [max_cpus] MAX_CPUS;
    [fits] the assertion that the array fits. *)
Definition sro_ctx_init (stored : sro_ctx_pool C) (max_cpus : Z) (fits : bool) l : option (sro_lib C) :=
  match pool l with
  | Some _ => None
  | None =>
      if pool_init stored then Some (SroLib (Some stored) (cpu_sro_ctx l))
      else
        assert fits ;;
        let cs := take (Z.to_nat (max_cpus * SRO_CTX_PER_CPU)) (ctxs stored) in
        Some (SroLib (Some (Pool true (set_sro_state SRO_STATE_FREE <$> cs))) (cpu_sro_ctx l))
  end.

Definition sro_ctx_reset l : sro_lib C := SroLib None (replicate (length (cpu_sro_ctx l)) (CpuRef None 0)).

(** The loop of [sro_ctx_reserve] from index [i]: the first free context, or the
    number of sealed ones. *)
Fixpoint reserve_loop (cs : list (sro_context C)) (i sealed : Z) : Z + Z :=
  match cs with
  | [] => inr sealed
  | c :: cs =>
      if sro_state_is (state c) SRO_STATE_FREE then inl i
      else reserve_loop cs (i + 1) (if sro_state_is (state c) SRO_STATE_SEALED then u32 (sealed + 1) else sealed)
  end.

Definition reserved_context (command xfer : Z) (cancel contig : bool) (fid : Z) : sro_context C :=
  SroContext SRO_STATE_RESERVED command zero_list cancel contig 0 fid xfer SRO_INVALID_RESULT 0 0 0 zero_payload.

(** The operations of PE [cpuid]. *)
Definition sro_ctx_reserve (cpuid command xfer : Z) (cancel contig : bool) (fid : Z) : ST (sro_lib C) Z := fun l =>
  cs ← live_pool l;
  r ← arr_get (cpu_sro_ctx l) cpuid;
  match ref_ctx r with
  | Some _ => None
  | None =>
      match reserve_loop cs 0 0 with
      | inl i =>
          cs' ← arr_set cs i (reserved_context command xfer cancel contig fid);
          refs ← arr_set (cpu_sro_ctx l) cpuid (CpuRef (Some i) (u32 i));
          Some (RMI_SUCCESS, with_ref (with_ctxs l cs') refs)
      | inr sealed => Some (if sealed =? Z.of_nat (length cs) then RMI_BLOCKED else RMI_BUSY, l)
      end
  end.

Definition sro_ctx_seal (cpuid : Z) : ST (sro_lib C) Z := fun l =>
  cs ← live_pool l;
  r ← arr_get (cpu_sro_ctx l) cpuid;
  _ ← ref_ctx r;
  c ← arr_get cs (op_handler r);
  assert (negb (sro_state_is (state c) SRO_STATE_FREE)) ;;
  cs' ← arr_set cs (op_handler r) (set_sro_state SRO_STATE_SEALED c);
  refs ← arr_set (cpu_sro_ctx l) cpuid (CpuRef None (op_handler r));
  Some (op_handler r, with_ref (with_ctxs l cs') refs).

Definition sro_ctx_find (cpuid op_handle : Z) : ST (sro_lib C) bool := fun l =>
  cs ← live_pool l;
  if Z.of_nat (length cs) <=? op_handle then Some (false, l)
  else
    c ← arr_get cs op_handle;
    if negb (sro_state_is (state c) SRO_STATE_SEALED) then Some (false, l)
    else
      cs' ← arr_set cs op_handle (set_sro_state SRO_STATE_RESERVED c);
      refs ← arr_set (cpu_sro_ctx l) cpuid (CpuRef (Some op_handle) (u32 op_handle));
      Some (true, with_ref (with_ctxs l cs') refs).

(** The context of the PE; a pointer to a context is its index. *)
Definition my_sro_ctx (cpuid : Z) : ST (sro_lib C) Z := fun l =>
  _ ← live_pool l;
  r ← arr_get (cpu_sro_ctx l) cpuid;
  i ← ref_ctx r;
  Some (i, l).

(** A load and a store through such a pointer. *)
Definition load_sro (i : Z) : ST (sro_lib C) (sro_context C) := fun l =>
  cs ← live_pool l;
  c ← arr_get cs i;
  Some (c, l).
Definition store_sro (i : Z) (f : sro_context C -> sro_context C) : ST (sro_lib C) unit := fun l =>
  cs ← live_pool l;
  c ← arr_get cs i;
  cs' ← arr_set cs i (f c);
  Some (tt, with_ctxs l cs').

Definition sro_ctx_my_handle (cpuid : Z) : ST (sro_lib C) Z := fun l =>
  _ ← live_pool l;
  r ← arr_get (cpu_sro_ctx l) cpuid;
  _ ← ref_ctx r;
  Some (op_handler r, l).

Definition sro_ctx_release (cpuid : Z) : ST (sro_lib C) unit := fun l =>
  cs ← live_pool l;
  r ← arr_get (cpu_sro_ctx l) cpuid;
  _ ← ref_ctx r;
  c ← arr_get cs (op_handler r);
  assert (sro_state_is (state c) SRO_STATE_RESERVED) ;;
  cs' ← arr_set cs (op_handler r) (set_sro_state SRO_STATE_FREE c);
  refs ← arr_set (cpu_sro_ctx l) cpuid (CpuRef None (op_handler r));
  Some (tt, with_ref (with_ctxs l cs') refs).

End Context.

(** ** Donation requests *)

Definition F_RMI_OP_DONATE_BLK_SIZE : regfield := Field 0 2.
Definition F_RMI_OP_DONATE_BLK_COUNT : regfield := Field 2 14.
Definition F_RMI_OP_DONATE_MEM_CONTIG : regfield := Field 16 1.
Definition F_RMI_OP_DONATE_MEM_STATE : regfield := Field 17 2.
Definition RMI_OP_MEM_CONTIG : Z := 1.

Definition RMI_OP_DONATE_TRANSFER_SIZE (desc : Z) : Z :=
  mul64 (XLAT_BLOCK_SIZE (XLAT_TABLE_LEVEL_MAX - EXTRACT F_RMI_OP_DONATE_BLK_SIZE desc))
        (EXTRACT F_RMI_OP_DONATE_BLK_COUNT desc).

(** The loop over the levels, [n] of them left from [level]. *)
Fixpoint donate_req_loop (n : nat) (level size_bytes contig state : Z) : option Z :=
  match n with
  | O => None
  | S n' =>
      let max_count := shl64 1 (f_width F_RMI_OP_DONATE_BLK_COUNT) - 1 in
      let blk_size := XLAT_BLOCK_SIZE level in
      let blk_sz_enc := XLAT_TABLE_LEVEL_MAX - level in
      if negb (size_bytes mod blk_size =? 0) then donate_req_loop n' (level + 1) size_bytes contig state
      else
      let count := size_bytes / blk_size in
      if max_count <? count then donate_req_loop n' (level + 1) size_bytes contig state
      else Some (Z.lor (Z.lor (Z.lor (INPLACE F_RMI_OP_DONATE_BLK_SIZE blk_sz_enc)
                                     (INPLACE F_RMI_OP_DONATE_BLK_COUNT count))
                              (INPLACE F_RMI_OP_DONATE_MEM_CONTIG contig))
                       (INPLACE F_RMI_OP_DONATE_MEM_STATE state))
  end.
Definition rmi_op_donate_req_encode (size_bytes contig state : Z) : option Z :=
  donate_req_loop (Z.to_nat (XLAT_TABLE_LEVEL_MAX + 1)) 0 size_bytes contig state.

(** ** The follow-up commands *)

(** A state that contains the library, and the callbacks that work on it: the table
    [sro_handles], by handler identifier. *)
Class SroState (S C : Type) := {
  get_sro : S -> sro_lib C;
  put_sro : sro_lib C -> S -> S;
  get_put_sro : forall l s, get_sro (put_sro l s) = l;
  put_get_sro : forall s, put_sro (get_sro s) s = s;
  put_put_sro : forall l l' s, put_sro l (put_sro l' s) = put_sro l s
}.
Class SroHandlers (S : Type) := { sro_handles : Z -> option (Z -> smc_result -> ST S smc_result) }.

(** The host's memory: the list of [n] descriptors at an address, when it can be
    read, and whether an address can be written. *)
Class HostLists := { host_list : Z -> Z -> option (list Z); host_takes : Z -> bool }.

Definition on_sro {S C A} `{SroState S C} (c : ST (sro_lib C) A) : ST S A := fun s =>
  match c (get_sro s) with Some (x, l) => Some (x, put_sro l s) | None => None end.

(** The number of entries taken into account, so that the list does not cross a
    granule. *)
Definition clip_list_count (list_addr list_count : Z) : Z :=
  let list_offset := Z.land list_addr (not64 GRANULE_MASK) / 8 in
  let list_count := Z.min list_count ADDR_LIST_MAX_RANGES in
  if ADDR_LIST_MAX_RANGES <? list_count + list_offset then ADDR_LIST_MAX_RANGES - list_offset else list_count.

Section Ops.
Context {S C : Type} `{payloads : SroPayload C} `{sro : SroState S C} `{handlers : SroHandlers S} `{host : HostLists}.
Variable cpuid : Z.
Implicit Types (res : smc_result).

(** The part of [rmi_op_dispatch] for a callback that has not finished. *)
Definition dispatch_incomplete (i fid : Z) res (mem_op cancel : Z) : ST S unit :=
  _ <-! on_sro (store_sro i (set_can_cancel (cancel =? RMI_OP_CAN_CANCEL))) ;;
  _ <-! (if mem_op =? RMI_OP_MEM_REQ_DONATE then
           let ms := EXTRACT F_RMI_OP_DONATE_MEM_STATE (res_x2 res) in
           _ <-! on_sro (store_sro i (set_donation
                   (EXTRACT F_RMI_OP_DONATE_MEM_CONTIG (res_x2 res) =? RMI_OP_MEM_CONTIG)
                   ms (RMI_OP_DONATE_TRANSFER_SIZE (res_x2 res)))) ;;
           guard (ms <=? RMI_OP_MEM_CONDITIONAL)
         else ret tt) ;;
  fid' <-! (if mem_op =? RMI_OP_MEM_REQ_DONATE then ret SMC_RMI_OP_MEM_DONATE
            else if mem_op =? RMI_OP_MEM_REQ_RECLAIM then ret SMC_RMI_OP_MEM_RECLAIM
            else _ <-! guard (mem_op =? RMI_OP_MEM_REQ_NONE) ;; ret SMC_RMI_OP_CONTINUE) ;;
  _ <-! on_sro (store_sro i (set_expected_fid fid')) ;;
  if (mem_op =? RMI_OP_MEM_REQ_RECLAIM) || ((fid =? SMC_RMI_OP_MEM_RECLAIM) && (0 <? res_x1 res)) then
    _ <-! guard ((mem_op =? RMI_OP_MEM_REQ_RECLAIM) || (mem_op =? RMI_OP_MEM_REQ_NONE)) ;;
    on_sro (store_sro i (set_reclaim (res_x0 res) fid'))
  else ret tt.

Definition rmi_op_dispatch (fid : Z) res : ST S smc_result :=
  i <-! on_sro (my_sro_ctx cpuid) ;;
  sro <-! on_sro (load_sro i) ;;
  cb <-! lift (sro_handles (RMI_HANDLER_ID (init_command sro))) ;;
  _ <-! guard ((fid =? SMC_RMI_OP_CANCEL) || (expected_fid sro =? fid)) ;;
  res <-! cb fid res ;;
  let return_code := unpack_return_code (res_x0 res) in
  _ <-! (if rc_status return_code =? RMI_INCOMPLETE then
           match rc_data return_code with
           | DataIncomplete mem cancel => dispatch_incomplete i fid res mem cancel
           | _ => lift None
           end
         else on_sro (store_sro i (set_expected_fid SMC_RMI_OP_CONTINUE))) ;;
  ret res.

(** RMI_OP_MEM_DONATE up to [donate_end]. *)
Definition op_mem_donate (i list_addr list_count : Z) res : ST S smc_result :=
  sro <-! on_sro (load_sro i) ;;
  if negb (expected_fid sro =? SMC_RMI_OP_MEM_DONATE) then ret (set_x0 RMI_ERROR_INPUT res)
  else if negb (ALIGNED list_addr 8) then ret (set_x0 RMI_ERROR_INPUT res)
  else
    al <-! lift (addr_list_init LIST_TYPE_INPUT ADDR_LIST_MAX_RANGES) ;;
    let list_count := clip_list_count list_addr list_count in
    r <-! lift (addr_list_copy_from_host al list_addr list_count (host_list list_addr list_count)) ;;
    _ <-! on_sro (store_sro i (set_addr_list (snd r))) ;;
    if negb (fst r) then ret (set_x0 RMI_ERROR_INPUT res)
    else
      v <-! lift (addr_list_validate (snd r) (is_contig sro) (mem_state sro)) ;;
      match v with
      | None => ret (set_x0 RMI_ERROR_INPUT res)
      | Some total_mem =>
          if transfer_req sro <? total_mem then ret (set_x0 RMI_ERROR_INPUT res)
          else if is_contig sro && negb (total_mem =? 0) && negb (total_mem =? transfer_req sro)
          then ret (set_x0 RMI_ERROR_INPUT res)
          else
            _ <-! on_sro (store_sro i (set_range_desc_count list_count)) ;;
            res <-! rmi_op_dispatch SMC_RMI_OP_MEM_DONATE res ;;
            let rc := unpack_return_code (res_x0 res) in
            let mem_req := match rc_data rc with DataIncomplete mem _ => mem | _ => RMI_OP_MEM_REQ_NONE end in
            _ <-! guard ((mem_req =? RMI_OP_MEM_REQ_RECLAIM) || (mul64 (res_x1 res) GRANULE_SIZE <=? total_mem)) ;;
            ret res
      end.

Definition smc_op_mem_donate (handle list_addr list_count : Z) res : ST S smc_result :=
  found <-! on_sro (sro_ctx_find cpuid handle) ;;
  if negb found then ret (set_x0 RMI_ERROR_INPUT res)
  else
    i <-! on_sro (my_sro_ctx cpuid) ;;
    res <-! op_mem_donate i list_addr list_count res ;;
    _ <-! on_sro (sro_ctx_seal cpuid) ;;
    ret res.

(** The second half of RMI_OP_MEM_RECLAIM: hand the collected addresses over. *)
Definition op_reclaim_copy (i list_addr list_count : Z) res : ST S smc_result :=
  sro <-! on_sro (load_sro i) ;;
  if addr_list_is_empty (sro_addr_list sro) then ret res
  else
    _ <-! guard (rc_status (unpack_return_code (reclaim_res sro)) =? RMI_INCOMPLETE) ;;
    _ <-! on_sro (store_sro i (set_expected_fid SMC_RMI_OP_MEM_RECLAIM)) ;;
    r <-! lift (addr_list_partial_copy_to_host (sro_addr_list sro) list_addr (u32 list_count) (host_takes list_addr)) ;;
    _ <-! on_sro (store_sro i (set_addr_list (snd r))) ;;
    match fst r with
    | None => ret (set_x1 0 (set_x0 RMI_ERROR_INPUT res))
    | Some copied =>
        let n := Z.of_nat (length copied) in
        if addr_list_is_empty (snd r) then
          _ <-! on_sro (store_sro i (set_expected_fid (prev_exp_fid sro))) ;;
          ret (set_x1 n (set_x0 (reclaim_res sro) res))
        else
          code <-! lift (pack_return_code_incomplete RMI_OP_MEM_REQ_RECLAIM (SRO_CAN_CANCEL_FLAG sro)) ;;
          ret (set_x1 n (set_x0 code res))
    end.

(** RMI_OP_MEM_RECLAIM up to [reclaim_end]. *)
Definition op_mem_reclaim (i list_addr list_count : Z) res : ST S smc_result :=
  sro <-! on_sro (load_sro i) ;;
  if negb (expected_fid sro =? SMC_RMI_OP_MEM_RECLAIM) then ret (set_x0 RMI_ERROR_INPUT res)
  else if list_count =? 0 then
    code <-! lift (pack_return_code_incomplete RMI_OP_MEM_REQ_RECLAIM (SRO_CAN_CANCEL_FLAG sro)) ;;
    ret (set_x1 0 (set_x0 code res))
  else
    res <-! (if addr_list_is_empty (sro_addr_list sro) || negb (is_type (sro_addr_list sro) LIST_TYPE_OUTPUT) then
               _ <-! on_sro (store_sro i (set_range_desc_count list_count)) ;;
               al <-! lift (addr_list_init LIST_TYPE_OUTPUT ADDR_LIST_MAX_RANGES) ;;
               _ <-! on_sro (store_sro i (set_addr_list al)) ;;
               rmi_op_dispatch SMC_RMI_OP_MEM_RECLAIM res
             else ret res) ;;
    op_reclaim_copy i list_addr list_count res.

Definition smc_op_mem_reclaim (handle list_addr list_count : Z) res : ST S smc_result :=
  let list_count := clip_list_count list_addr list_count in
  found <-! on_sro (sro_ctx_find cpuid handle) ;;
  if negb found then ret (set_x0 RMI_ERROR_INPUT res)
  else
    res <-! (if negb (ALIGNED list_addr 8) then ret (set_x0 RMI_ERROR_INPUT res)
             else
               i <-! on_sro (my_sro_ctx cpuid) ;;
               op_mem_reclaim i list_addr list_count res) ;;
    _ <-! on_sro (sro_ctx_seal cpuid) ;;
    ret res.

(** The end of RMI_OP_CONTINUE and RMI_OP_CANCEL. *)
Definition op_finish (res : smc_result) : ST S smc_result :=
  let status := rc_status (unpack_return_code (res_x0 res)) in
  _ <-! (if (status =? RMI_INCOMPLETE) || (status =? RMI_BUSY)
         then _ <-! on_sro (sro_ctx_seal cpuid) ;; ret tt
         else on_sro (sro_ctx_release cpuid)) ;;
  ret res.

Definition smc_op_continue (handle flags : Z) res : ST S smc_result :=
  found <-! on_sro (sro_ctx_find cpuid handle) ;;
  if negb found then ret (set_x0 RMI_ERROR_INPUT res)
  else
    i <-! on_sro (my_sro_ctx cpuid) ;;
    sro <-! on_sro (load_sro i) ;;
    if negb (expected_fid sro =? SMC_RMI_OP_CONTINUE) then
      _ <-! on_sro (sro_ctx_seal cpuid) ;;
      ret (set_x0 RMI_ERROR_INPUT res)
    else
      _ <-! on_sro (store_sro i (set_flags flags)) ;;
      res <-! rmi_op_dispatch SMC_RMI_OP_CONTINUE res ;;
      op_finish res.

Definition smc_op_cancel (handle : Z) res : ST S smc_result :=
  found <-! on_sro (sro_ctx_find cpuid handle) ;;
  if negb found then ret (set_x0 RMI_ERROR_INPUT res)
  else
    i <-! on_sro (my_sro_ctx cpuid) ;;
    sro <-! on_sro (load_sro i) ;;
    if negb (can_cancel sro) then
      _ <-! on_sro (sro_ctx_seal cpuid) ;;
      ret (set_x0 RMI_ERROR_INPUT res)
    else
      res <-! rmi_op_dispatch SMC_RMI_OP_CANCEL res ;;
      op_finish res.

End Ops.
