(* ===== verification/TrBanks.v ===== *)
(** * Tracking regions: memory banks and index layout
    ([lib/granule/src/tracking_region.c])

    Physical memory is a set of banks.  The RMM numbers the tracking regions
    that a bank intersects, and the granule slots of each of them, without gaps
    for whole-region holes.  This file models how the bank lists are built,
    sorted and checked and how the two index spaces are assigned, and proves what
    the assignment means: region [i] of the array is the [i]-th intersected
    region in address order. *)

From Stdlib Require Import ZArith Lia Bool ZifyBool Sorting.Sorted Permutation.
From stdpp Require Import base tactics option list numbers sorting.
From S2P Require Import Prelude.
From S2P Require Import Utils.
From S2P Require Import Sort.

Definition RMI_MEM_CATEGORY_CONVENTIONAL : Z := 0.
Definition RMI_MEM_CATEGORY_DEV_NCOH : Z := 1.
Definition RMI_MEM_CATEGORY_DEV_COH : Z := 2.
Definition RMI_MEM_CATEGORY_NONE : Z := 3.

Definition TRACKING_REGION_MIN_SHIFT : Z := 21.
Definition TRACKING_REGION_MAX_SHIFT : Z := 30.
Definition TRACKING_REGION_MIN_SIZE : Z := Eval vm_compute in shl64 1 TRACKING_REGION_MIN_SHIFT.
Definition TRACKING_REGION_MAX_SIZE : Z := Eval vm_compute in shl64 1 TRACKING_REGION_MAX_SHIFT.

Definition MAX_CONV_TRACKING_MEMORY_BANKS : Z := 64.
Definition MAX_DEV_TRACKING_MEMORY_BANKS : Z := 64.
Definition MAX_TRACKING_MEMORY_BANKS : Z :=
  MAX_CONV_TRACKING_MEMORY_BANKS + MAX_DEV_TRACKING_MEMORY_BANKS.
Definition UINT32_MAX : Z := 2 ^ 32 - 1.

(** [sizeof(struct granule)] and [sizeof(struct dev_granule)]. *)
Definition sizeof_granule : Z := 2.
Definition sizeof_dev_granule : Z := 1.

Record plat_memory_bank := PlatBank { p_base : Z; p_size : Z }.

Record tracking_memory_bank := Bank {
  b_base : Z;
  b_size : Z;
  b_granule_start_idx : Z;
  b_tracking_start_idx : Z;
  b_category : Z
}.

Definition b_top (b : tracking_memory_bank) : Z := add64 (b_base b) (b_size b).
Definition b_set_tracking (i : Z) (b : tracking_memory_bank) : tracking_memory_bank :=
  Bank (b_base b) (b_size b) (b_granule_start_idx b) i (b_category b).
Definition b_set_granule (i : Z) (b : tracking_memory_bank) : tracking_memory_bank :=
  Bank (b_base b) (b_size b) i (b_tracking_start_idx b) (b_category b).

Inductive bank_error := EINVAL | EOVERFLOW | ENOSPC.

Definition region_size_ok (region_size : Z) : bool :=
  (region_size =? TRACKING_REGION_MIN_SIZE) || (region_size =? TRACKING_REGION_MAX_SIZE).

Definition tracking_region_fine_stride (region_size entry_size : Z) : option Z :=
  assert (negb (entry_size =? 0) && region_size_ok region_size) ;;
  let raw_size := mul64 (region_size / GRANULE_SIZE) entry_size in
  let stride := round_up raw_size GRANULE_SIZE in
  assert ((raw_size <=? stride) && (stride mod entry_size =? 0)) ;;
  Some (stride / entry_size).

(** [banks] is the populated prefix of the array, [num_banks] its length; the
    slots behind it are zeroed.  [None] as error is the return value 0. *)
Fixpoint copy_bank_loop (platform_banks : list plat_memory_bank) (category capacity : Z)
    (banks : list tracking_memory_bank) : option bank_error * list tracking_memory_bank :=
  match platform_banks with
  | [] => (None, banks)
  | bank :: rest =>
      if p_size bank =? 0 then copy_bank_loop rest category capacity banks
      else if negb (GRANULE_ALIGNED (p_base bank)) || negb (GRANULE_ALIGNED (p_size bank))
      then (Some EINVAL, banks)
      else if UINT64_MAX - p_size bank <? p_base bank then (Some EOVERFLOW, banks)
      else if capacity <=? Z.of_nat (length banks) then (Some ENOSPC, banks)
      else copy_bank_loop rest category capacity
             (banks ++ [Bank (p_base bank) (p_size bank) 0 0 (u8 category)])
  end.

(** [platform_banks] is [None] for a null pointer. *)
Definition tracking_region_copy_bank_category (platform_banks : option (list plat_memory_bank))
    (count : nat) (category capacity : Z) (banks : list tracking_memory_bank)
    : option (option bank_error * list tracking_memory_bank) :=
  assert (category <=? RMI_MEM_CATEGORY_DEV_COH) ;;
  match platform_banks with
  | None => if Nat.eqb count 0 then Some (None, banks) else Some (Some EINVAL, banks)
  | Some l =>
      assert (Nat.leb count (length l)) ;;
      Some (copy_bank_loop (take count l) category capacity banks)
  end.

Fixpoint banks_valid (banks : list tracking_memory_bank) : bool :=
  match banks with
  | [] => true
  | b :: rest =>
      (b_base b <=? UINT64_MAX - b_size b) &&
      (match rest with [] => true | c :: _ => b_top b <=? b_base c end) &&
      banks_valid rest
  end.

Definition bank_after (a b : tracking_memory_bank) : bool := b_base b <? b_base a.

Definition tracking_region_sort_and_validate_banks (banks : list tracking_memory_bank)
    : option (list tracking_memory_bank) :=
  let banks := insertion_sort bank_after banks in
  assert (banks_valid banks) ;; Some banks.

Definition tracking_memory_banks_validate_no_overlap (conv dev : list tracking_memory_bank) : bool :=
  forallb (fun c => forallb (fun d => (b_top c <=? b_base d) || (b_top d <=? b_base c)) dev) conv.

(** Assign in PA order; [p] is a position in the combined array [conv ++ dev]. *)
Fixpoint assign_shared_loop (region_size : Z) (first : bool) (current_top num_regions : Z)
    (pointers : list nat) (storage : list tracking_memory_bank)
    : option (Z * list tracking_memory_bank) :=
  match pointers with
  | [] => Some (num_regions, storage)
  | p :: rest =>
      bank ← storage !! p;
      let base := round_down (b_base bank) region_size in
      let top := round_up (b_top bank) region_size in
      let set start_idx current_top num_regions :=
        assert (start_idx <=? UINT32_MAX) ;;
        assign_shared_loop region_size false current_top num_regions rest
          (<[p := b_set_tracking start_idx bank]> storage) in
      if first || (current_top <=? base) then
        set num_regions top (add64 num_regions (sub64 top base / region_size))
      else
        let overlap_regions := sub64 current_top base / region_size in
        assert (overlap_regions <=? 1) ;;
        assert (overlap_regions <=? num_regions) ;;
        let start_idx := num_regions - overlap_regions in
        if current_top <? top then
          set start_idx top (add64 num_regions (sub64 top current_top / region_size))
        else set start_idx current_top num_regions
  end.

(** [banks[i]->base]: the pointers always point into the arrays. *)
Definition pointer_base (storage : list tracking_memory_bank) (p : nat) : Z :=
  from_option b_base 0 (storage !! p).
Definition pointer_less (storage : list tracking_memory_bank) (p q : nat) : bool :=
  pointer_base storage p <? pointer_base storage q.

Definition tracking_memory_banks_assign_shared_indices (conv dev : list tracking_memory_bank)
    (region_size : Z) : option (Z * (list tracking_memory_bank * list tracking_memory_bank)) :=
  let storage := conv ++ dev in
  let count := length storage in
  assert (Z.of_nat count <=? MAX_TRACKING_MEMORY_BANKS) ;;
  assert (region_size_ok region_size) ;;
  let pointers := exchange_sort (pointer_less storage) (seq 0 count) in
  r ← assign_shared_loop region_size true 0 0 pointers storage;
  let '(num_regions, storage) := r in
  Some (num_regions, (take (length conv) storage, drop (length conv) storage)).

Fixpoint assign_fine_loop (region_size descriptors_per_region : Z) (first : bool)
    (current_top num_granules : Z) (banks : list tracking_memory_bank)
    : option (Z * list tracking_memory_bank) :=
  match banks with
  | [] => Some (num_granules, [])
  | bank :: rest =>
      let base := round_down (b_base bank) region_size in
      let top := round_up (b_top bank) region_size in
      let set start_idx current_top num_granules :=
        r ← assign_fine_loop region_size descriptors_per_region false current_top num_granules rest;
        let '(n, rest) := r in
        Some (n, b_set_granule start_idx bank :: rest) in
      if first || (current_top <=? base) then
        set num_granules top
          (add64 num_granules (mul64 (sub64 top base / region_size) descriptors_per_region))
      else
        let overlap_regions := sub64 current_top base / region_size in
        let overlap := mul64 overlap_regions descriptors_per_region in
        assert (overlap_regions <=? 1) ;;
        assert (overlap <=? num_granules) ;;
        let start_idx := num_granules - overlap in
        if current_top <? top then
          set start_idx top (add64 num_granules
            (mul64 (sub64 top current_top / region_size) descriptors_per_region))
        else set start_idx current_top num_granules
  end.

Definition tracking_memory_banks_assign_fine_indices (banks : list tracking_memory_bank)
    (region_size entry_size : Z) : option (Z * list tracking_memory_bank) :=
  descriptors_per_region ← tracking_region_fine_stride region_size entry_size;
  assert (region_size_ok region_size) ;;
  assign_fine_loop region_size descriptors_per_region true 0 0 banks.

(** ** What the assignment means *)

(** Physical addresses have at most 52 bits. *)
Record bank_wf (b : tracking_memory_bank) : Prop := {
  bank_base : 0 <= b_base b;
  bank_size : 0 < b_size b;
  bank_top : b_base b + b_size b <= 2 ^ 52;
  bank_base_aligned : (GRANULE_SIZE | b_base b);
  bank_size_aligned : (GRANULE_SIZE | b_size b)
}.

(** The regions a bank intersects: numbers [first_region, end_region). *)
Definition first_region (rs : Z) (b : tracking_memory_bank) : Z := b_base b / rs.
Definition end_region (rs : Z) (b : tracking_memory_bank) : Z := (b_base b + b_size b - 1) / rs + 1.

(** Banks in address order without overlap. *)
Definition bank_before (b c : tracking_memory_bank) : Prop := b_base b + b_size b <= b_base c.

(** From position [i] on, [R] lists the regions of the bank. *)
Definition placed (rs : Z) (R : list Z) (i : Z) (b : tracking_memory_bank) : Prop :=
  0 <= i /\ forall k, first_region rs b <= k < end_region rs b ->
    R !! Z.to_nat (i + (k - first_region rs b)) = Some k.

(** The regions listed so far, all below region [ct], which follows the last one. *)
Record listed (R : list Z) (ct : Z) : Prop := {
  listed_sorted : StronglySorted Z.lt R;
  listed_below : Forall (fun k => 0 <= k < ct) R;
  listed_last : 0 < ct -> last R = Some (ct - 1);
  listed_ct : 0 <= ct
}.

Lemma region_size_cases rs : region_size_ok rs = true -> rs = 2 ^ 21 \/ rs = 2 ^ 30.
Proof. unfold region_size_ok, TRACKING_REGION_MIN_SIZE, TRACKING_REGION_MAX_SIZE. lia. Qed.

Lemma bank_region_bounds rs b :
  region_size_ok rs = true -> bank_wf b ->
  b_top b = b_base b + b_size b /\
  round_down (b_base b) rs = first_region rs b * rs /\
  round_up (b_top b) rs = end_region rs b * rs /\
  0 <= first_region rs b < end_region rs b /\ end_region rs b <= 2 ^ 31.
Proof.
  intros Hrs [? ? ? _ _]. unfold b_top, add64. rewrite u64_small by (unfold in_u64; lia).
  assert (Hgen : forall n, 21 <= n <= 30 -> rs = 2 ^ n ->
    round_down (b_base b) rs = first_region rs b * rs /\
    round_up (b_base b + b_size b) rs = end_region rs b * rs /\
    0 <= first_region rs b < end_region rs b /\ end_region rs b <= 2 ^ 31).
  { intros n Hn ->. unfold first_region, end_region.
    assert (Hlo : 2 ^ 21 <= 2 ^ n) by (apply Z.pow_le_mono_r; lia).
    assert (Hhi : 2 ^ n <= 2 ^ 30) by (apply Z.pow_le_mono_r; lia).
    rewrite round_down_spec by (unfold in_u64; lia). rewrite round_up_spec by lia.
    replace (b_base b + b_size b + 2 ^ n - 1) with (b_base b + b_size b - 1 + 1 * 2 ^ n) by lia.
    rewrite Z.div_add by lia.
    pose proof (Z.div_mod (b_base b) (2 ^ n)).
    assert (0 <= b_base b / 2 ^ n) by (apply Z.div_pos; lia).
    assert (b_base b / 2 ^ n <= (b_base b + b_size b - 1) / 2 ^ n) by (apply Z.div_le_mono; lia).
    assert ((b_base b + b_size b - 1) / 2 ^ n < 2 ^ 31) by (apply Z.div_lt_upper_bound; lia).
    split_and!; lia. }
  split; [done|]. destruct (region_size_cases rs Hrs); [apply (Hgen 21)|apply (Hgen 30)]; lia.
Qed.

(** A bank after another starts at the earliest in the other's last region. *)
Lemma before_regions rs b c :
  region_size_ok rs = true -> bank_before b c -> end_region rs b <= first_region rs c + 1.
Proof.
  intros Hrs Hb. unfold bank_before in Hb. unfold end_region, first_region.
  assert ((b_base b + b_size b - 1) / rs <= b_base c / rs); [|lia].
  apply Z.div_le_mono; [|lia]. destruct (region_size_cases rs Hrs); lia.
Qed.

Lemma sorted_length R ct :
  StronglySorted Z.lt R -> Forall (fun k => 0 <= k < ct) R -> 0 <= ct -> Z.of_nat (length R) <= ct.
Proof.
  intros Hs Hb Hc. revert ct Hb Hc. induction R as [|x R IH] using rev_ind; intros ct Hb Hc.
  { cbn. lia. }
  apply Forall_app in Hb as [Hb Hx]. apply Forall_cons in Hx as [Hx _].
  rewrite length_app. cbn [length]. assert (Hs' : StronglySorted Z.lt R /\ Forall (fun y => y < x) R).
  { clear -Hs. induction R as [|y R IH]; cbn [app] in *; [split; constructor|].
    apply StronglySorted_inv in Hs as [Hs Hy]. destruct (IH Hs). apply Forall_app in Hy as [Hy Hyx].
    apply Forall_cons in Hyx as [Hyx _]. split; constructor; done. }
  destruct Hs' as [Hs' Hlt]. assert (Hb' : Forall (fun k => 0 <= k < x) R).
  { apply Forall_forall. intros y Hy. rewrite Forall_forall in Hb, Hlt.
    pose proof (Hb y Hy). pose proof (Hlt y Hy). lia. }
  specialize (IH Hs' x Hb' ltac:(lia)). lia.
Qed.

Lemma listed_length R ct : listed R ct -> Z.of_nat (length R) <= ct.
Proof. intros []. by apply sorted_length. Qed.

Lemma StronglySorted_app_lt (R S : list Z) c :
  StronglySorted Z.lt R -> StronglySorted Z.lt S ->
  Forall (fun k => k < c) R -> Forall (fun k => c <= k) S -> StronglySorted Z.lt (R ++ S).
Proof.
  intros HR HS HRc HSc. induction R as [|x R IH]; cbn [app]; [done|].
  apply StronglySorted_inv in HR as [HR Hx]. apply Forall_cons in HRc as [Hxc HRc].
  constructor; [by apply IH|]. apply Forall_app. split; [done|].
  eapply Forall_impl; [exact HSc|]. cbn. lia.
Qed.

Lemma seqZ_sorted m n : StronglySorted Z.lt (seqZ m n).
Proof.
  unfold seqZ. generalize (Z.to_nat n) 0%nat. intros k. induction k as [|k IH]; intros s; cbn; [constructor|].
  constructor; [apply IH|]. apply Forall_forall. intros y (z & -> & Hz)%list_elem_of_fmap.
  apply elem_of_seq in Hz. lia.
Qed.

(** Appending a further stretch of regions. *)
Lemma listed_extend R ct f l :
  listed R ct -> ct <= f -> f < l -> listed (R ++ seqZ f (l - f)) l.
Proof.
  intros [Hs Hb Hl Hc] Hf Hfl. split; [| | |lia].
  - apply (StronglySorted_app_lt _ _ f); [done|apply seqZ_sorted| |].
    + eapply Forall_impl; [exact Hb|]. cbn. lia.
    + apply Forall_forall. intros k Hk. apply elem_of_seqZ in Hk. lia.
  - apply Forall_app. split.
    + eapply Forall_impl; [exact Hb|]. cbn. lia.
    + apply Forall_forall. intros k Hk. apply elem_of_seqZ in Hk. lia.
  - intros _. replace (l - f) with ((l - f - 1) + 1) by lia. rewrite seqZ_app by lia.
    rewrite app_assoc. assert (Hone : forall a, seqZ a 1 = [a]) by (intros a; unfold seqZ; cbn; f_equal; lia).
    rewrite Hone, last_snoc. f_equal. lia.
Qed.

Lemma placed_mono rs R R' i b : R `prefix_of` R' -> placed rs R i b -> placed rs R' i b.
Proof.
  intros Hp [Hi Hk]. split; [done|]. intros k Hr. eapply prefix_lookup_Some; [by apply Hk|done].
Qed.

(** One bank: where its regions start in the list and how the list grows. *)
Definition step_start (R : list Z) (ct f : Z) : Z :=
  if ct <=? f then Z.of_nat (length R) else Z.of_nat (length R) - 1.
Definition step_list (R : list Z) (ct f l : Z) : list Z :=
  R ++ seqZ (Z.max ct f) (l - Z.max ct f).

Lemma step_listed rs R ct b :
  listed R ct -> 0 <= first_region rs b < end_region rs b -> ct <= first_region rs b + 1 ->
  let R' := step_list R ct (first_region rs b) (end_region rs b) in
  listed R' (Z.max ct (end_region rs b)) /\
  placed rs R' (step_start R ct (first_region rs b)) b /\
  (forall k, k ∈ R' -> k ∈ R \/ first_region rs b <= k < end_region rs b).
Proof.
  intros HL Hfl Hct. unfold step_list, step_start.
  set (f := first_region rs b) in *. set (l := end_region rs b) in *. cbv zeta.
  assert (Hcov : forall k, k ∈ R ++ seqZ (Z.max ct f) (l - Z.max ct f) -> k ∈ R \/ f <= k < l).
  { intros k [Hk|Hk]%elem_of_app; [by left|]. apply elem_of_seqZ in Hk. right. lia. }
  destruct (Z.leb_spec ct f).
  - rewrite (Z.max_r ct f), (Z.max_r ct l) in * by lia. split_and!;
      [apply (listed_extend R ct); [done|lia|lia]| |done].
    split; [lia|]. intros k Hk. rewrite lookup_app_r by lia. rewrite lookup_seqZ_lt by lia. f_equal. lia.
  - assert (Hf : f = ct - 1) by lia. rewrite (Z.max_l ct f) in * by lia. split; [|split; [|done]].
    + destruct (decide (ct < l)).
      * rewrite Z.max_r by lia. apply (listed_extend R ct); [done|lia|lia].
      * rewrite Z.max_l, seqZ_nil, app_nil_r by lia. done.
    + pose proof (listed_last _ _ HL ltac:(lia)) as Hlast. rewrite last_lookup in Hlast.
      assert (length R <> 0)%nat by (destruct R; [done|cbn; lia]).
      split; [lia|]. intros k Hk. destruct (decide (k = f)) as [->|].
      * apply lookup_app_l_Some.
        replace (Z.to_nat _) with (pred (length R)) by lia. rewrite Hlast. f_equal. lia.
      * rewrite lookup_app_r by lia. rewrite lookup_seqZ_lt by lia. f_equal. lia.
Qed.

(** The machine arithmetic of one step. *)
Lemma step_arith rs f l :
  region_size_ok rs = true -> 0 <= f <= l -> l <= 2 ^ 31 ->
  sub64 (l * rs) (f * rs) / rs = l - f.
Proof.
  intros Hrs Hf Hl. unfold sub64. destruct (region_size_cases rs Hrs) as [->| ->];
    rewrite u64_small by (unfold in_u64; nia); rewrite <- Z.mul_sub_distr_r, Z.div_mul; lia.
Qed.

Lemma step_list_length R ct f l :
  Z.of_nat (length (step_list R ct f l)) = Z.of_nat (length R) + Z.max 0 (l - Z.max ct f).
Proof. unfold step_list. rewrite length_app, length_seqZ. lia. Qed.

(** One turn of the loop, in terms of the list. *)
Lemma assign_fine_step rs unit first R ct b banks :
  region_size_ok rs = true -> 0 < unit <= 2 ^ 20 -> bank_wf b -> listed R ct -> ct <= 2 ^ 31 ->
  ct <= first_region rs b + 1 -> (first = true -> ct = 0) ->
  let f := first_region rs b in let l := end_region rs b in
  assign_fine_loop rs unit first (ct * rs) (unit * Z.of_nat (length R)) (b :: banks)
  = '(n, rest) ← assign_fine_loop rs unit false (Z.max ct l * rs)
        (unit * Z.of_nat (length (step_list R ct f l))) banks;
    Some (n, b_set_granule (unit * step_start R ct f) b :: rest).
Proof.
  intros Hrs Hu Hwf HL Hb Hct Hfirst f l.
  destruct (bank_region_bounds rs b Hrs Hwf) as (_ & Hdn & Hup & Hfl & Hl31). fold f l in Hdn, Hup, Hfl, Hl31, Hct.
  pose proof (step_list_length R ct f l) as Hlen. pose proof (listed_length _ _ HL) as HlenR.
  pose proof (listed_ct _ _ HL) as Hct0.
  assert (Hrs0 : 0 < rs) by (destruct (region_size_cases rs Hrs); lia).
  cbn [assign_fine_loop]. rewrite Hdn, Hup. unfold mul64, add64, step_start.
  replace (ct * rs <=? f * rs) with (ct <=? f) by nia.
  destruct (Z.leb_spec ct f) as [Hle|Hgt].
  - rewrite orb_true_r, step_arith by lia. rewrite (Z.max_r ct l) by lia.
    rewrite (u64_small ((l - f) * unit)), u64_small by (unfold in_u64; nia).
    do 2 f_equal. nia.
  - destruct first; [exfalso; specialize (Hfirst eq_refl); lia|]. cbn [orb].
    rewrite step_arith by lia. replace (ct - f) with 1 by lia.
    rewrite (u64_small (1 * unit)) by (unfold in_u64; lia).
    pose proof (listed_last _ _ HL ltac:(lia)) as Hlast.
    assert (1 <= Z.of_nat (length R)) by (destruct R; [done|cbn; lia]).
    rewrite (proj2 (Z.leb_le 1 1)), (proj2 (Z.leb_le _ _)) by nia.
    replace (unit * Z.of_nat (length R) - 1 * unit) with (unit * (Z.of_nat (length R) - 1)) by lia.
    replace (ct * rs <? l * rs) with (ct <? l) by nia. destruct (Z.ltb_spec ct l).
    + rewrite step_arith, (Z.max_r ct l) by lia.
      rewrite (u64_small ((l - ct) * unit)), u64_small by (unfold in_u64; nia).
      do 2 f_equal. nia.
    + rewrite (Z.max_l ct l) by lia. do 2 f_equal. nia.
Qed.

(** The type-local slot indices. *)
Lemma assign_fine_loop_ok rs unit banks :
  region_size_ok rs = true -> 0 < unit <= 2 ^ 20 -> forall first R ct,
  Forall bank_wf banks -> StronglySorted bank_before banks ->
  Forall (fun b => ct <= first_region rs b + 1) banks -> listed R ct -> ct <= 2 ^ 31 ->
  (first = true -> ct = 0) ->
  exists R' banks' ct',
    assign_fine_loop rs unit first (ct * rs) (unit * Z.of_nat (length R)) banks
      = Some (unit * Z.of_nat (length R'), banks') /\
    R `prefix_of` R' /\ listed R' ct' /\ ct' <= 2 ^ 31 /\
    Forall2 (fun b b' => exists i, b' = b_set_granule (unit * i) b /\ placed rs R' i b) banks banks' /\
    (forall k, k ∈ R' -> k ∈ R \/ exists b, b ∈ banks /\ first_region rs b <= k < end_region rs b).
Proof.
  intros Hrs Hu. induction banks as [|b banks IH]; intros first R ct Hwf Hss Hct HL Hb Hfirst.
  { exists R, [], ct. split_and!; try done. by left. }
  apply Forall_cons in Hwf as [Hb1 Hwf]. apply StronglySorted_inv in Hss as [Hss Hbef].
  apply Forall_cons in Hct as [Hct1 Hct].
  destruct (bank_region_bounds rs b Hrs Hb1) as (_ & _ & _ & Hfl & Hl31).
  destruct (step_listed rs R ct b HL Hfl Hct1) as (HL' & Hpl & Hcov).
  rewrite assign_fine_step by done.
  set (R1 := step_list R ct _ _) in *.
  destruct (IH false R1 (Z.max ct (end_region rs b)) Hwf Hss) as (R' & banks' & ct' & Hrun & Hpre & HLf & Hctf & Hf2 & Hc2);
    [|done|lia|done|].
  { rewrite Forall_forall in Hct, Hbef |- *. intros c Hc. specialize (Hct c Hc).
    pose proof (before_regions rs b c Hrs (Hbef c Hc)). lia. }
  rewrite Hrun. cbn [mbind option_bind].
  eexists R', _, ct'. split_and!; try done.
  - by transitivity R1; [apply prefix_app_r|].
  - constructor; [|done]. eexists. split; [done|]. by apply placed_mono with R1.
  - intros k Hk. destruct (Hc2 k Hk) as [Hk1|(c & Hc & Hkc)].
    + destruct (Hcov k Hk1) as [|]; [by left|]. right. exists b. split; [apply list_elem_of_here|done].
    + right. exists c. split; [by apply list_elem_of_further|done].
Qed.

Lemma assign_shared_step rs first R ct p b ps storage :
  region_size_ok rs = true -> storage !! p = Some b -> bank_wf b -> listed R ct -> ct <= 2 ^ 31 ->
  ct <= first_region rs b + 1 -> (first = true -> ct = 0) ->
  let f := first_region rs b in let l := end_region rs b in
  assign_shared_loop rs first (ct * rs) (Z.of_nat (length R)) (p :: ps) storage
  = assign_shared_loop rs false (Z.max ct l * rs) (Z.of_nat (length (step_list R ct f l))) ps
      (<[p := b_set_tracking (step_start R ct f) b]> storage).
Proof.
  intros Hrs Hp Hwf HL Hb Hct Hfirst f l.
  destruct (bank_region_bounds rs b Hrs Hwf) as (_ & Hdn & Hup & Hfl & Hl31). fold f l in Hdn, Hup, Hfl, Hl31, Hct.
  pose proof (step_list_length R ct f l) as Hlen. pose proof (listed_length _ _ HL) as HlenR.
  pose proof (listed_ct _ _ HL) as Hct0.
  assert (Hrs0 : 0 < rs) by (destruct (region_size_cases rs Hrs); lia).
  cbn [assign_shared_loop]. rewrite Hp. cbn [mbind option_bind].
  rewrite Hdn, Hup. unfold add64, step_start, UINT32_MAX.
  replace (ct * rs <=? f * rs) with (ct <=? f) by nia.
  destruct (Z.leb_spec ct f) as [Hle|Hgt].
  - rewrite orb_true_r, step_arith, (proj2 (Z.leb_le (Z.of_nat (length R)) _)) by lia.
    rewrite (Z.max_r ct l) by lia. rewrite u64_small by (unfold in_u64; lia). f_equal. lia.
  - destruct first; [exfalso; specialize (Hfirst eq_refl); lia|]. cbn [orb].
    rewrite step_arith by lia. replace (ct - f) with 1 by lia.
    pose proof (listed_last _ _ HL ltac:(lia)) as Hlast.
    assert (1 <= Z.of_nat (length R)) by (destruct R; [done|cbn; lia]).
    rewrite (proj2 (Z.leb_le 1 1)), (proj2 (Z.leb_le 1 _)), (proj2 (Z.leb_le (Z.of_nat (length R) - 1) _)) by lia.
    replace (ct * rs <? l * rs) with (ct <? l) by nia. destruct (Z.ltb_spec ct l).
    + rewrite step_arith, (Z.max_r ct l) by lia. rewrite u64_small by (unfold in_u64; lia). f_equal. lia.
    + rewrite (Z.max_l ct l) by lia. f_equal. lia.
Qed.

(** The shared region indices. *)
Lemma assign_shared_loop_ok rs ps : 
  region_size_ok rs = true -> forall first R ct storage banks,
  Forall2 (fun p b => storage !! p = Some b) ps banks -> NoDup ps ->
  Forall bank_wf banks -> StronglySorted bank_before banks ->
  Forall (fun b => ct <= first_region rs b + 1) banks -> listed R ct -> ct <= 2 ^ 31 ->
  (first = true -> ct = 0) ->
  exists R' storage' ct',
    assign_shared_loop rs first (ct * rs) (Z.of_nat (length R)) ps storage
      = Some (Z.of_nat (length R'), storage') /\
    R `prefix_of` R' /\ listed R' ct' /\ ct' <= 2 ^ 31 /\ length storage' = length storage /\
    (forall p, p ∉ ps -> storage' !! p = storage !! p) /\
    Forall2 (fun p b => exists i, storage' !! p = Some (b_set_tracking i b) /\ placed rs R' i b) ps banks /\
    (forall k, k ∈ R' -> k ∈ R \/ exists b, b ∈ banks /\ first_region rs b <= k < end_region rs b).
Proof.
  intros Hrs. induction ps as [|p ps IH]; intros first R ct storage banks Hps Hnd Hwf Hss Hct HL Hb Hfirst;
    inversion Hps as [|? b ? banks' Hp Hps']; subst.
  { exists R, storage, ct. split_and!; try done. by left. }
  apply NoDup_cons in Hnd as [Hpn Hnd].
  apply Forall_cons in Hwf as [Hb1 Hwf]. apply StronglySorted_inv in Hss as [Hss Hbef].
  apply Forall_cons in Hct as [Hct1 Hct].
  destruct (bank_region_bounds rs b Hrs Hb1) as (_ & _ & _ & Hfl & Hl31).
  destruct (step_listed rs R ct b HL Hfl Hct1) as (HL' & Hpl & Hcov).
  rewrite (assign_shared_step rs first R ct p b) by done.
  set (R1 := step_list R ct _ _) in *. set (st1 := <[p := _]> storage).
  destruct (IH false R1 (Z.max ct (end_region rs b)) st1 banks')
    as (R' & st' & ct' & Hrun & Hpre & HLf & Hctf & Hlen & Hun & Hf2 & Hc2); try done; [| |lia|].
  { eapply Forall2_impl; [|intros q c Hq; exact Hq].
    apply Forall2_same_length_lookup_2; [by eapply Forall2_length|].
    intros i q c Hq Hc. unfold st1. rewrite list_lookup_insert_ne.
    - by eapply Forall2_lookup_lr in Hps'.
    - intros ->. apply Hpn. by eapply list_elem_of_lookup_2. }
  { rewrite Forall_forall in Hct, Hbef |- *. intros c Hc. specialize (Hct c Hc).
    pose proof (before_regions rs b c Hrs (Hbef c Hc)). lia. }
  exists R', st', ct'. split_and!; try done.
  - by transitivity R1; [apply prefix_app_r|].
  - by rewrite Hlen; unfold st1; rewrite length_insert.
  - intros q Hq. apply not_elem_of_cons in Hq as [Hq1 Hq2]. rewrite Hun by done.
    unfold st1. by rewrite list_lookup_insert_ne.
  - constructor; [|done]. eexists. split; [|by apply placed_mono with R1].
    rewrite Hun by done. apply list_lookup_insert_eq. by eapply lookup_lt_Some.
  - intros k Hk. destruct (Hc2 k Hk) as [Hk1|(c & Hc & Hkc)].
    + destruct (Hcov k Hk1) as [|]; [by left|]. right. exists b. split; [apply list_elem_of_here|done].
    + right. exists c. split; [by apply list_elem_of_further|done].
Qed.

(** ** Selecting a layout *)

(** [struct tracking_region_data]; the sizes of the reserved arrays are counted
    in entries, and the populated prefixes of the bank arrays are lists. *)
Record tracking_region_data := TrackingData {
  td_conv_banks : list tracking_memory_bank;
  td_dev_banks : list tracking_memory_bank;
  td_region_size : Z;
  td_num_tracking_regions : Z;
  td_num_tracking_granules : Z;
  td_num_tracking_dev_granules : Z;
  td_initialized : bool;
  td_region_capacity : Z;
  td_granule_capacity : Z;
  td_dev_granule_capacity : Z
}.

(** [None] as first component is the return value 0. *)
Definition tracking_region_configure (tracking_data : option tracking_region_data) (tr_size : Z)
    : option (option bank_error * option tracking_region_data) :=
  match tracking_data with
  | None => Some (Some EINVAL, None)
  | Some td =>
      if negb (region_size_ok tr_size) then Some (Some EINVAL, Some td)
      else if td_initialized td then Some (Some EINVAL, Some td)
      else if td_region_size td =? tr_size then Some (None, Some td)
      else
        '(region_count, (conv, dev)) ←
          tracking_memory_banks_assign_shared_indices (td_conv_banks td) (td_dev_banks td) tr_size;
        '(conv_granules, conv) ←
          tracking_memory_banks_assign_fine_indices conv tr_size sizeof_granule;
        '(dev_granules, dev) ←
          tracking_memory_banks_assign_fine_indices dev tr_size sizeof_dev_granule;
        assert (region_count <=? td_region_capacity td) ;;
        assert (conv_granules <=? td_granule_capacity td) ;;
        assert (dev_granules <=? td_dev_granule_capacity td) ;;
        Some (None, Some (TrackingData conv dev tr_size region_count conv_granules dev_granules
          (td_initialized td) (td_region_capacity td) (td_granule_capacity td)
          (td_dev_granule_capacity td)))
  end.

(** One type of memory: banks in order, region indices into [R] and slot indices
    into [RF], both listing intersected regions in address order. *)
Record type_layout (rs stride : Z) (banks : list tracking_memory_bank) (R RF : list Z) : Prop := {
  tl_wf : Forall bank_wf banks;
  tl_sorted : StronglySorted bank_before banks;
  tl_shared : forall b, b ∈ banks -> placed rs R (b_tracking_start_idx b) b;
  tl_fine : forall b, b ∈ banks -> exists i, b_granule_start_idx b = stride * i /\ placed rs RF i b;
  tl_fine_sorted : StronglySorted Z.lt RF;
  tl_fine_cover : forall k, k ∈ RF -> exists b, b ∈ banks /\ first_region rs b <= k < end_region rs b
}.

Definition granule_stride (rs : Z) : Z := Z.max (rs / GRANULE_SIZE) (GRANULE_SIZE / sizeof_granule).
Definition dev_granule_stride (rs : Z) : Z := Z.max (rs / GRANULE_SIZE) (GRANULE_SIZE / sizeof_dev_granule).

Record layout_ok (td : tracking_region_data) (R RC RD : list Z) : Prop := {
  lo_size : region_size_ok (td_region_size td) = true;
  lo_conv : type_layout (td_region_size td) (granule_stride (td_region_size td)) (td_conv_banks td) R RC;
  lo_dev : type_layout (td_region_size td) (dev_granule_stride (td_region_size td)) (td_dev_banks td) R RD;
  lo_disjoint : forall c d, c ∈ td_conv_banks td -> d ∈ td_dev_banks td -> bank_before c d \/ bank_before d c;
  lo_sorted : StronglySorted Z.lt R;
  lo_cover : forall k, k ∈ R -> exists b, b ∈ td_conv_banks td ++ td_dev_banks td /\
    first_region (td_region_size td) b <= k < end_region (td_region_size td) b;
  lo_regions : td_num_tracking_regions td = Z.of_nat (length R);
  lo_granules : td_num_tracking_granules td = granule_stride (td_region_size td) * Z.of_nat (length RC);
  lo_dev_granules :
    td_num_tracking_dev_granules td = dev_granule_stride (td_region_size td) * Z.of_nat (length RD)
}.

Lemma fine_stride_eq rs :
  region_size_ok rs = true ->
  tracking_region_fine_stride rs sizeof_granule = Some (granule_stride rs) /\
  tracking_region_fine_stride rs sizeof_dev_granule = Some (dev_granule_stride rs).
Proof. intros [->| ->]%region_size_cases; split; reflexivity. Qed.

Lemma stride_bounds rs :
  region_size_ok rs = true ->
  0 < rs / GRANULE_SIZE <= granule_stride rs /\ granule_stride rs <= 2 ^ 20 /\
  rs / GRANULE_SIZE <= dev_granule_stride rs /\ dev_granule_stride rs <= 2 ^ 20.
Proof. intros [->| ->]%region_size_cases; split_and!; try done; cbv; congruence. Qed.

(** The same banks, up to the indices. *)
Definition same_range (b b' : tracking_memory_bank) : Prop :=
  b_base b' = b_base b /\ b_size b' = b_size b /\ b_category b' = b_category b.

Lemma same_range_sorted l l' :
  Forall2 same_range l l' -> StronglySorted bank_before l -> StronglySorted bank_before l'.
Proof.
  induction 1 as [|b b' l l' (H1 & H2 & _) Hl IH]; intros Hss; [constructor|].
  apply StronglySorted_inv in Hss as [Hss Hb]. constructor; [exact (IH Hss)|].
  clear -Hl Hb H1 H2. induction Hl as [|c c' l l' (H3 & H4 & _) Hl IH]; [constructor|].
  apply Forall_cons in Hb as [Hc Hb]. constructor; [|exact (IH Hb)]. unfold bank_before in *. lia.
Qed.

Lemma same_range_wf l l' : Forall2 same_range l l' -> Forall bank_wf l -> Forall bank_wf l'.
Proof.
  induction 1 as [|b b' l l' (H1 & H2 & _) Hl IH]; intros Hwf; [constructor|].
  apply Forall_cons in Hwf as [[] Hwf]. constructor; [|exact (IH Hwf)]. split; congruence.
Qed.

Lemma same_range_in l l' b' : Forall2 same_range l l' -> b' ∈ l' -> exists b, b ∈ l /\ same_range b b'.
Proof.
  intros Hf2 [n Hn]%list_elem_of_lookup. destruct (Forall2_lookup_r _ _ _ _ _ Hf2 Hn) as (b & Hb & ?).
  exists b. split; [by eapply list_elem_of_lookup_2|done].
Qed.

Lemma same_range_in_l l l' b : Forall2 same_range l l' -> b ∈ l -> exists b', b' ∈ l' /\ same_range b b'.
Proof.
  intros Hf2 [n Hn]%list_elem_of_lookup. destruct (Forall2_lookup_l _ _ _ _ _ Hf2 Hn) as (b' & Hb & ?).
  exists b'. split; [by eapply list_elem_of_lookup_2|done].
Qed.

(** Assigning slot indices to one list of banks. *)
Lemma assign_fine_ok rs entry stride banks R :
  region_size_ok rs = true -> tracking_region_fine_stride rs entry = Some stride -> 0 < stride <= 2 ^ 20 ->
  Forall bank_wf banks -> StronglySorted bank_before banks ->
  (forall b, b ∈ banks -> placed rs R (b_tracking_start_idx b) b) ->
  exists RF banks',
    tracking_memory_banks_assign_fine_indices banks rs entry = Some (stride * Z.of_nat (length RF), banks') /\
    type_layout rs stride banks' R RF /\
    Forall2 same_range banks banks' /\
    (length RF <= Z.to_nat (2 ^ 31))%nat.
Proof.
  intros Hrs Hst Hs Hwf Hss Hpl. unfold tracking_memory_banks_assign_fine_indices.
  rewrite Hst. cbn [mbind option_bind]. rewrite Hrs.
  destruct (assign_fine_loop_ok rs stride banks Hrs Hs true [] 0 Hwf Hss)
    as (RF & banks' & ct' & Hrun & _ & HL & Hct & Hf2 & Hcov); try done.
  { eapply Forall_impl; [exact Hwf|]. intros b Hb.
    destruct (bank_region_bounds rs b Hrs Hb) as (_ & _ & _ & ? & _). lia. }
  { split; [constructor|constructor|lia|lia]. }
  rewrite Z.mul_0_l, Z.mul_0_r in Hrun.
  exists RF, banks'. split; [done|].
  assert (Hin : forall b', b' ∈ banks' -> exists b i, b ∈ banks /\ b' = b_set_granule (stride * i) b /\ placed rs RF i b).
  { intros b' [n Hn]%list_elem_of_lookup. destruct (Forall2_lookup_r _ _ _ _ _ Hf2 Hn) as (b & Hb & i & Hi).
    exists b, i. split; [by eapply list_elem_of_lookup_2|done]. }
  assert (Hbs : Forall2 same_range banks banks').
  { eapply Forall2_impl; [exact Hf2|]. intros b b' (i & -> & _). done. }
  split; [split|split].
  - by apply (same_range_wf banks).
  - by apply (same_range_sorted banks).
  - intros b' Hb'. destruct (Hin b' Hb') as (b & i & Hb & -> & _). exact (Hpl b Hb).
  - intros b' Hb'. destruct (Hin b' Hb') as (b & i & Hb & -> & Hp). exists i. split; [done|exact Hp].
  - apply HL.
  - intros k Hk. destruct (Hcov k Hk) as [Hno|(b & Hb & Hkb)]; [by apply list_elem_of_nil in Hno || inversion Hno|].
    destruct (proj1 (list_elem_of_lookup _ _) Hb) as [n Hn].
    destruct (Forall2_lookup_l _ _ _ _ _ Hf2 Hn) as (b' & Hb' & i & -> & _).
    eexists. split; [by eapply list_elem_of_lookup_2|done].
  - done.
  - pose proof (listed_length _ _ HL). lia.
Qed.

(** Two distinct banks of the combined array do not overlap. *)
Definition pairwise_disjoint (storage : list tracking_memory_bank) : Prop :=
  forall p q b c, p <> q -> storage !! p = Some b -> storage !! q = Some c ->
    bank_before b c \/ bank_before c b.

Lemma sorted_pairwise banks :
  StronglySorted bank_before banks -> forall p q b c, (p < q)%nat ->
  banks !! p = Some b -> banks !! q = Some c -> bank_before b c.
Proof.
  induction 1 as [|x l Hs IH Hx]; intros p q b c Hpq Hb Hc; [done|].
  destruct q as [|q]; [lia|]. cbn [lookup] in Hc. destruct p as [|p].
  - injection Hb as ->. rewrite Forall_forall in Hx. apply Hx. by eapply list_elem_of_lookup_2.
  - apply (IH p q); [lia|done|done].
Qed.

Lemma storage_disjoint conv dev :
  StronglySorted bank_before conv -> StronglySorted bank_before dev ->
  (forall c d, c ∈ conv -> d ∈ dev -> bank_before c d \/ bank_before d c) ->
  pairwise_disjoint (conv ++ dev).
Proof.
  intros Hc Hd Hcd. assert (Hgen : forall p q b c, (p < q)%nat -> (conv ++ dev) !! p = Some b ->
    (conv ++ dev) !! q = Some c -> bank_before b c \/ bank_before c b).
  { intros p q b c Hpq Hb Hq. apply lookup_app_Some in Hb as [Hb|[Hl Hb]], Hq as [Hq|[Hl' Hq]].
    - left. by eapply (sorted_pairwise conv).
    - apply Hcd; by eapply list_elem_of_lookup_2.
    - apply lookup_lt_Some in Hq. lia.
    - left. by apply (sorted_pairwise dev Hd (p - length conv) (q - length conv)); [lia| |]. }
  intros p q b c Hne Hb Hq. destruct (decide (p < q)%nat); [by eapply Hgen|].
  destruct (Hgen q p c b); [lia|done|done|by right|by left].
Qed.

(** The pointer sort yields the banks in address order. *)
Lemma pointer_sort_ok storage :
  Forall bank_wf storage -> pairwise_disjoint storage ->
  exists ps banks, exchange_sort (pointer_less storage) (seq 0 (length storage)) = ps /\
    NoDup ps /\ Forall2 (fun p b => storage !! p = Some b) ps banks /\
    Forall bank_wf banks /\ StronglySorted bank_before banks /\ (forall b, b ∈ banks <-> b ∈ storage).
Proof.
  intros Hwf Hdis. set (ps := exchange_sort _ _).
  assert (Hperm : ps ≡ₚ seq 0 (length storage)) by apply exchange_sort_perm.
  assert (Hnd : NoDup ps) by (rewrite Hperm; apply NoDup_seq).
  assert (Hin : forall p, p ∈ ps <-> (p < length storage)%nat).
  { intros p. rewrite Hperm, elem_of_seq. lia. }
  assert (Hsort : StronglySorted (fun p q => pointer_less storage q p = false) ps).
  { apply exchange_sort_sorted; unfold pointer_less; lia. }
  assert (Hsome : Forall (fun p => is_Some (storage !! p)) ps).
  { apply Forall_forall. intros p Hp. by apply lookup_lt_is_Some, Hin. }
  assert (Hb : exists banks, Forall2 (fun p b => storage !! p = Some b) ps banks).
  { clear -Hsome. induction Hsome as [|p ps [b Hb] _ [banks IH]]; [by exists []|]. exists (b :: banks). by constructor. }
  destruct Hb as [banks Hf2]. exists ps, banks. split_and!; try done.
  - apply Forall_forall. intros b [n Hn]%list_elem_of_lookup.
    destruct (Forall2_lookup_r _ _ _ _ _ Hf2 Hn) as (p & _ & Hp).
    rewrite Forall_forall in Hwf. apply Hwf. by eapply list_elem_of_lookup_2.
  - clear Hperm Hin Hsome. clearbody ps. induction Hf2 as [|p b ps banks Hp Hf2 IH]; [constructor|].
    apply NoDup_cons in Hnd as [Hpn Hnd]. apply StronglySorted_inv in Hsort as [Hsort Hmin].
    constructor; [by apply IH|]. apply Forall_forall. intros c [n Hn]%list_elem_of_lookup.
    destruct (Forall2_lookup_r _ _ _ _ _ Hf2 Hn) as (q & Hq & Hqc).
    apply list_elem_of_lookup_2 in Hq. rewrite Forall_forall in Hmin. specialize (Hmin q Hq).
    unfold pointer_less, pointer_base in Hmin. rewrite Hp, Hqc in Hmin. cbn [from_option] in Hmin.
    destruct (Hdis p q b c) as [|Hcb]; try done; [by intros ->|].
    rewrite Forall_forall in Hwf. pose proof (bank_size _ (Hwf c ltac:(by eapply list_elem_of_lookup_2))).
    unfold bank_before in Hcb. lia.
  - intros b. split.
    + intros [n Hn]%list_elem_of_lookup. destruct (Forall2_lookup_r _ _ _ _ _ Hf2 Hn) as (p & _ & Hp).
      by eapply list_elem_of_lookup_2.
    + intros [p Hp]%list_elem_of_lookup. assert (Hps : p ∈ ps) by (apply Hin; by eapply lookup_lt_Some).
      apply list_elem_of_lookup in Hps as [n Hn]. destruct (Forall2_lookup_l _ _ _ _ _ Hf2 Hn) as (b' & Hb' & Hpb).
      simplify_eq. by eapply list_elem_of_lookup_2.
Qed.

(** Banks as boot leaves them. *)
Record banks_ready (conv dev : list tracking_memory_bank) : Prop := {
  br_conv_wf : Forall bank_wf conv;
  br_dev_wf : Forall bank_wf dev;
  br_conv_sorted : StronglySorted bank_before conv;
  br_dev_sorted : StronglySorted bank_before dev;
  br_disjoint : forall c d, c ∈ conv -> d ∈ dev -> bank_before c d \/ bank_before d c;
  br_count : Z.of_nat (length conv + length dev) <= MAX_TRACKING_MEMORY_BANKS
}.

Lemma assign_shared_ok conv dev rs :
  banks_ready conv dev -> region_size_ok rs = true ->
  exists R conv' dev',
    tracking_memory_banks_assign_shared_indices conv dev rs = Some (Z.of_nat (length R), (conv', dev')) /\
    Forall2 same_range conv conv' /\ Forall2 same_range dev dev' /\
    StronglySorted Z.lt R /\
    (forall b, b ∈ conv' ++ dev' -> placed rs R (b_tracking_start_idx b) b) /\
    (forall k, k ∈ R -> exists b, b ∈ conv ++ dev /\ first_region rs b <= k < end_region rs b).
Proof.
  intros [Hcw Hdw Hcs Hds Hdis Hcnt] Hrs.
  assert (Hwf : Forall bank_wf (conv ++ dev)) by (apply Forall_app; done).
  destruct (pointer_sort_ok (conv ++ dev) Hwf (storage_disjoint _ _ Hcs Hds Hdis))
    as (ps & banks & Hps & Hnd & Hf2 & Hbw & Hbs & Hin).
  destruct (assign_shared_loop_ok rs ps Hrs true [] 0 (conv ++ dev) banks)
    as (R & st & ct & Hrun & _ & HL & _ & Hlen & _ & Hst & Hcov); try done; [|split; [constructor|constructor|lia|lia]|].
  { eapply Forall_impl; [exact Hbw|]. intros b Hb.
    destruct (bank_region_bounds rs b Hrs Hb) as (_ & _ & _ & ? & _). lia. }
  rewrite Z.mul_0_l in Hrun. cbn [length] in Hrun. change (Z.of_nat 0) with 0 in Hrun.
  assert (Hall : Forall2 (fun b b' => exists i, b' = b_set_tracking i b /\ placed rs R i b) (conv ++ dev) st).
  { apply Forall2_same_length_lookup_2; [done|]. intros p b b' Hb Hb'.
    assert (Hp : p ∈ ps).
    { subst ps. rewrite exchange_sort_perm. apply elem_of_seq. apply lookup_lt_Some in Hb. lia. }
    apply list_elem_of_lookup in Hp as [n Hn]. destruct (Forall2_lookup_l _ _ _ _ _ Hst Hn) as (c & Hc & i & Hi & Hpl).
    pose proof (Forall2_lookup_lr _ _ _ _ _ _ Hf2 Hn Hc) as Hpc. cbn in Hpc. simplify_eq. by exists i. }
  exists R, (take (length conv) st), (drop (length conv) st).
  unfold tracking_memory_banks_assign_shared_indices.
  rewrite Hps, length_app, (proj2 (Z.leb_le _ _)), Hrs by lia. rewrite Hrun. cbn [mbind option_bind].
  assert (Hsr : Forall2 same_range (conv ++ dev) st).
  { eapply Forall2_impl; [exact Hall|]. by intros b b' (i & -> & _). }
  apply Forall2_app_inv_l in Hsr as (st1 & st2 & Hs1 & Hs2 & ->). apply Forall2_length in Hs1 as Hl1.
  rewrite Hl1, take_app_length, drop_app_length. split_and!; try done; [apply HL| |].
  - intros b' [n Hn]%list_elem_of_lookup. destruct (Forall2_lookup_r _ _ _ _ _ Hall Hn) as (b & _ & i & -> & Hp).
    exact Hp.
  - intros k Hk. destruct (Hcov k Hk) as [Hno|(b & Hb & Hkb)]; [inversion Hno|].
    exists b. split; [by apply Hin|done].
Qed.

(** Boot reserved at least one entry per intersected region and its slots. *)
Definition reserved (td : tracking_region_data) (rs : Z) : Prop :=
  let banks := td_conv_banks td ++ td_dev_banks td in
  forall R, StronglySorted Z.lt R ->
    ((forall k, k ∈ R -> exists b, b ∈ banks /\ first_region rs b <= k < end_region rs b) ->
     Z.of_nat (length R) <= td_region_capacity td) /\
    ((forall k, k ∈ R -> exists b, b ∈ td_conv_banks td /\ first_region rs b <= k < end_region rs b) ->
     granule_stride rs * Z.of_nat (length R) <= td_granule_capacity td) /\
    ((forall k, k ∈ R -> exists b, b ∈ td_dev_banks td /\ first_region rs b <= k < end_region rs b) ->
     dev_granule_stride rs * Z.of_nat (length R) <= td_dev_granule_capacity td).

Lemma same_range_covered rs l l' k :
  Forall2 same_range l l' ->
  (exists b', b' ∈ l' /\ first_region rs b' <= k < end_region rs b') <->
  (exists b, b ∈ l /\ first_region rs b <= k < end_region rs b).
Proof.
  intros Hf2. unfold first_region, end_region. split.
  - intros (b' & Hb' & Hk). destruct (same_range_in l l' b' Hf2 Hb') as (b & Hb & H1 & H2 & _).
    exists b. split; [done|]. by rewrite <- H1, <- H2.
  - intros (b & Hb & Hk). destruct (same_range_in_l l l' b Hf2 Hb) as (b' & Hb' & H1 & H2 & _).
    exists b'. split; [done|]. by rewrite H1, H2.
Qed.

Lemma same_range_trans l1 l2 l3 : Forall2 same_range l1 l2 -> Forall2 same_range l2 l3 -> Forall2 same_range l1 l3.
Proof.
  intros H12. revert l3. induction H12 as [|b1 b2 l1 l2 (? & ? & ?) _ IH]; intros l3 H23;
    inversion H23 as [|? b3 ? l3' (? & ? & ?) H23']; subst; constructor; [|by apply IH].
  split_and!; congruence.
Qed.

Lemma configure_ok td rs :
  banks_ready (td_conv_banks td) (td_dev_banks td) -> region_size_ok rs = true ->
  td_initialized td = false -> td_region_size td <> rs -> reserved td rs ->
  exists td' R RC RD,
    tracking_region_configure (Some td) rs = Some (None, Some td') /\
    td_region_size td' = rs /\ layout_ok td' R RC RD /\
    Forall2 same_range (td_conv_banks td) (td_conv_banks td') /\
    Forall2 same_range (td_dev_banks td) (td_dev_banks td').
Proof.
  intros Hbr Hrs Hini Hne Hres. unfold tracking_region_configure.
  rewrite Hrs, Hini, (proj2 (Z.eqb_neq _ _)) by done. cbn [negb].
  destruct (assign_shared_ok _ _ rs Hbr Hrs) as (R & conv1 & dev1 & -> & Hc1 & Hd1 & HsR & Hpl & Hcov).
  destruct Hbr as [Hcw Hdw Hcs Hds Hdis _]. cbn [mbind option_bind].
  destruct (fine_stride_eq rs Hrs) as [Hst1 Hst2]. destruct (stride_bounds rs Hrs) as (Hb1 & Hb2 & Hb3 & Hb4).
  destruct (assign_fine_ok rs _ _ conv1 R Hrs Hst1) as (RC & conv2 & -> & HLC & Hc2 & _);
    [lia|by apply (same_range_wf (td_conv_banks td))|by apply (same_range_sorted (td_conv_banks td))| |].
  { intros b Hb. apply Hpl, elem_of_app. by left. }
  destruct (assign_fine_ok rs _ _ dev1 R Hrs Hst2) as (RD & dev2 & -> & HLD & Hd2 & _);
    [lia|by apply (same_range_wf (td_dev_banks td))|by apply (same_range_sorted (td_dev_banks td))| |].
  { intros b Hb. apply Hpl, elem_of_app. by right. }
  pose proof (same_range_trans _ _ _ Hc1 Hc2) as Hc. pose proof (same_range_trans _ _ _ Hd1 Hd2) as Hd.
  cbn [mbind option_bind].
  destruct (Hres R HsR) as [Hcap1 _]. destruct (Hres RC (tl_fine_sorted _ _ _ _ _ HLC)) as [_ [Hcap2 _]].
  destruct (Hres RD (tl_fine_sorted _ _ _ _ _ HLD)) as [_ [_ Hcap3]].
  rewrite !(proj2 (Z.leb_le _ _)).
  2: { apply Hcap3. intros k Hk. apply (same_range_covered rs _ dev2); [done|]. by apply (tl_fine_cover _ _ _ _ _ HLD). }
  2: { apply Hcap2. intros k Hk. apply (same_range_covered rs _ conv2); [done|]. by apply (tl_fine_cover _ _ _ _ _ HLC). }
  2: { by apply Hcap1. }
  eexists _, R, RC, RD. split; [reflexivity|]. split; [done|]. split; [|split; done].
  split; cbn; try done.
  - intros c d Hcc Hdd. destruct (same_range_in _ _ _ Hc Hcc) as (c0 & Hc0 & ? & ? & _).
    destruct (same_range_in _ _ _ Hd Hdd) as (d0 & Hd0 & ? & ? & _).
    unfold bank_before. destruct (Hdis c0 d0 Hc0 Hd0) as [Hx|Hx]; unfold bank_before in Hx; [left|right]; lia.
  - intros k Hk. apply (same_range_covered rs (td_conv_banks td ++ td_dev_banks td)); [|by apply Hcov].
    by apply Forall2_app.
Qed.

(** Selecting a tracking-region size never fails an assertion on banks that
    boot accepted, and gives the layout the lookups need: region [i] and slot
    stride [i] belong to the [i]-th region, in address order, that a bank
    intersects; banks keep their ranges and order. *)
Theorem tracking_region_configure_correct td rs :
  banks_ready (td_conv_banks td) (td_dev_banks td) -> region_size_ok rs = true ->
  td_initialized td = false -> td_region_size td <> rs -> reserved td rs ->
  exists td' R RC RD,
    tracking_region_configure (Some td) rs = Some (None, Some td') /\
    td_region_size td' = rs /\ layout_ok td' R RC RD /\
    Forall2 same_range (td_conv_banks td) (td_conv_banks td') /\
    Forall2 same_range (td_dev_banks td) (td_dev_banks td').
Proof. apply configure_ok. Qed.

(** ** Building the bank lists *)

(** Distinct positions, non-empty ranges: no bank occurs twice. *)
Lemma disjoint_nodup banks :
  Forall bank_wf banks ->
  pairwise_disjoint banks <->
  NoDup banks /\ (forall b c, b ∈ banks -> c ∈ banks -> b <> c -> bank_before b c \/ bank_before c b).
Proof.
  intros Hwf. rewrite Forall_forall in Hwf. split.
  - intros Hd. split.
    + apply NoDup_alt. intros i j b Hi Hj. destruct (decide (i = j)) as [|Hne]; [done|]. exfalso.
      pose proof (bank_size _ (Hwf b ltac:(by eapply list_elem_of_lookup_2))).
      destruct (Hd i j b b Hne Hi Hj) as [H1|H1]; unfold bank_before in H1; lia.
    + intros b c [i Hi]%list_elem_of_lookup [j Hj]%list_elem_of_lookup Hne.
      apply (Hd i j); [|done|done]. by intros ->; simplify_eq.
  - intros [Hnd Hd] p q b c Hne Hp Hq. apply Hd; [by eapply list_elem_of_lookup_2..|].
    intros ->. apply Hne. by eapply NoDup_lookup.
Qed.

Lemma banks_valid_sorted banks :
  Forall bank_wf banks -> banks_valid banks = true <-> StronglySorted bank_before banks.
Proof.
  induction banks as [|b banks IH]; intros Hwf; [by split; [constructor|]|].
  apply Forall_cons in Hwf as [Hb Hwf]. specialize (IH Hwf). cbn [banks_valid].
  assert (Htop : b_top b = b_base b + b_size b).
  { destruct Hb. unfold b_top, add64. apply u64_small. unfold in_u64. lia. }
  assert (Hov : (b_base b <=? UINT64_MAX - b_size b) = true) by (destruct Hb; unfold UINT64_MAX; lia).
  rewrite Hov, Htop. cbn [andb]. rewrite andb_true_iff, IH. split.
  - intros [Hc Hs]. constructor; [done|]. destruct banks as [|c banks]; [constructor|].
    apply StronglySorted_inv in Hs as [_ Hcf]. apply Forall_cons in Hwf as [Hcw _]. apply Z.leb_le in Hc.
    constructor; [done|]. eapply Forall_impl; [exact Hcf|]. unfold bank_before. intros d Hd.
    pose proof (bank_size _ Hcw). lia.
  - intros [Hs Hf]%StronglySorted_inv. split; [|done]. destruct banks as [|c banks]; [done|].
    apply Forall_cons in Hf as [Hf _]. unfold bank_before in Hf. lia.
Qed.

Lemma sort_banks_ok banks :
  Forall bank_wf banks -> 
  (pairwise_disjoint banks -> exists banks', tracking_region_sort_and_validate_banks banks = Some banks') /\
  (forall banks', tracking_region_sort_and_validate_banks banks = Some banks' ->
     banks' ≡ₚ banks /\ StronglySorted bank_before banks' /\ pairwise_disjoint banks).
Proof.
  intros Hwf. unfold tracking_region_sort_and_validate_banks.
  pose proof (insertion_sort_perm bank_after banks) as Hperm.
  assert (Hwf' : Forall bank_wf (insertion_sort bank_after banks)) by (by rewrite Hperm).
  assert (Hsort : StronglySorted (in_order bank_after) (insertion_sort bank_after banks))
    by (apply insertion_sort_sorted; unfold bank_after; lia).
  set (l := insertion_sort bank_after banks) in *. split.
  - intros [Hnd Hd]%disjoint_nodup; [|done]. exists l.
    assert (Hnd' : NoDup l) by (by rewrite Hperm).
    rewrite (proj2 (banks_valid_sorted l Hwf')); [done|].
    assert (Hd' : forall b c, b ∈ l -> c ∈ l -> b <> c -> bank_before b c \/ bank_before c b).
    { intros b c Hb Hc. rewrite Hperm in Hb, Hc. by apply Hd. }
    clear -Hsort Hnd' Hd' Hwf'. induction l as [|b l IH]; [constructor|].
    apply StronglySorted_inv in Hsort as [Hsort Hb]. apply NoDup_cons in Hnd' as [Hnb Hnd].
    apply Forall_cons in Hwf' as [Hbw Hwf]. constructor.
    { apply IH; try done. intros x y Hx Hy. apply Hd'; by apply list_elem_of_further. }
    rewrite Forall_forall in Hb, Hwf. apply Forall_forall. intros c Hc. specialize (Hb c Hc).
    destruct (Hd' b c) as [|Hcb]; [apply list_elem_of_here|by apply list_elem_of_further|by intros ->|done|].
    pose proof (bank_size _ (Hwf c Hc)). unfold in_order, bank_after, bank_before in *. lia.
  - intros banks' H. destruct (banks_valid l) eqn:E; [|done]. injection H as <-.
    apply (banks_valid_sorted l Hwf') in E. split; [done|]. split; [done|].
    apply disjoint_nodup; [done|]. apply disjoint_nodup in Hwf' as Hiff. destruct Hiff as [Hto _].
    destruct Hto as [Hnd Hd].
    { intros p q b c Hne Hp Hq. destruct (decide (p < q)%nat); [left|right];
        eapply (sorted_pairwise l E); try done; lia. }
    split; [by rewrite <- Hperm|]. intros b c Hb Hc. apply Hd; by rewrite Hperm.
Qed.

(** ** A concrete layout *)

Lemma bank_wf_intro b :
  0 <= b_base b -> 0 < b_size b -> b_base b + b_size b <= 2 ^ 52 ->
  GRANULE_ALIGNED (b_base b) = true -> GRANULE_ALIGNED (b_size b) = true -> bank_wf b.
Proof. intros ? ? ? H1%GRANULE_ALIGNED_spec H2%GRANULE_ALIGNED_spec. by split. Qed.

Lemma reserved_large td rs :
  region_size_ok rs = true -> banks_ready (td_conv_banks td) (td_dev_banks td) ->
  2 ^ 51 <= td_region_capacity td -> 2 ^ 51 <= td_granule_capacity td ->
  2 ^ 51 <= td_dev_granule_capacity td -> reserved td rs.
Proof.
  intros Hrs Hbr H1 H2 H3 R HR. destruct (stride_bounds rs Hrs) as (? & ? & ? & ?).
  assert (Hlen : (forall k, k ∈ R -> exists b, b ∈ td_conv_banks td ++ td_dev_banks td /\
    first_region rs b <= k < end_region rs b) -> Z.of_nat (length R) <= 2 ^ 31).
  { intros Hcov. apply sorted_length; [done| |done]. apply Forall_forall. intros k Hk.
    destruct (Hcov k Hk) as (b & Hb & Hkb). assert (Hw : bank_wf b).
    { destruct Hbr as [Hc Hd _ _ _ _]. rewrite Forall_forall in Hc, Hd. apply elem_of_app in Hb as [?|?]; auto. }
    destruct (bank_region_bounds rs b Hrs Hw) as (_ & _ & _ & ? & ?). lia. }
  split_and!; intros Hcov.
  - specialize (Hlen Hcov). lia.
  - assert (Z.of_nat (length R) <= 2 ^ 31); [|nia]. apply Hlen. intros k Hk.
    destruct (Hcov k Hk) as (b & Hb & ?). exists b. split; [apply elem_of_app; by left|done].
  - assert (Z.of_nat (length R) <= 2 ^ 31); [|nia]. apply Hlen. intros k Hk.
    destruct (Hcov k Hk) as (b & Hb & ?). exists b. split; [apply elem_of_app; by right|done].
Qed.

(** Two conventional banks that share a region, and a device bank. *)
Definition demo_conv : list tracking_memory_bank :=
  [Bank 0x80000000 0x10100000 0 0 0; Bank 0x90180000 0x10000000 0 0 0].
Definition demo_dev : list tracking_memory_bank := [Bank 0x10000000 0x1000000 0 0 1].
Definition demo_td : tracking_region_data :=
  TrackingData demo_conv demo_dev TRACKING_REGION_MAX_SIZE 0 0 0 false (2 ^ 51) (2 ^ 51) (2 ^ 51).

Lemma demo_banks_ready : banks_ready (td_conv_banks demo_td) (td_dev_banks demo_td).
Proof.
  split.
  - repeat constructor; apply GRANULE_ALIGNED_spec || done; done.
  - repeat constructor; apply GRANULE_ALIGNED_spec || done; done.
  - repeat constructor. done.
  - repeat constructor.
  - intros c d Hc Hd. right. apply list_elem_of_singleton in Hd as ->.
    apply elem_of_cons in Hc as [->|Hc]; [done|]. by apply list_elem_of_singleton in Hc as ->.
  - done.
Qed.

Definition demo_td' : tracking_region_data := Eval vm_compute in
  match tracking_region_configure (Some demo_td) TRACKING_REGION_MIN_SIZE with
  | Some (_, Some td) => td
  | _ => demo_td
  end.

Lemma demo_layout : exists R RC RD, layout_ok demo_td' R RC RD.
Proof.
  destruct (configure_ok demo_td TRACKING_REGION_MIN_SIZE demo_banks_ready eq_refl eq_refl)
    as (td' & R & RC & RD & Hrun & _ & HL & _).
  { done. }
  { apply reserved_large; [done|apply demo_banks_ready|done..]. }
  exists R, RC, RD.
  assert (tracking_region_configure (Some demo_td) TRACKING_REGION_MIN_SIZE = Some (None, Some demo_td'))
    as Hc by (vm_compute; reflexivity).
  rewrite Hc in Hrun. by injection Hrun as <-.
Qed.

Lemma tracking_region_configure_correct_witness :
  exists td' R RC RD,
    tracking_region_configure (Some demo_td) TRACKING_REGION_MIN_SIZE = Some (None, Some td') /\
    layout_ok td' R RC RD.
Proof.
  destruct (tracking_region_configure_correct demo_td TRACKING_REGION_MIN_SIZE)
    as (td' & R & RC & RD & Hrun & _ & HL & _);
    [apply demo_banks_ready|reflexivity|reflexivity|discriminate| |].
  - apply reserved_large; [reflexivity|apply demo_banks_ready| | |]; cbv; congruence.
  - exists td', R, RC, RD. split; [exact Hrun|exact HL].
Defined.
