(* ===== verification/TrLookup.v ===== *)
(** * Tracking regions: address lookups ([lib/granule/src/tracking_region.c],
    [lib/granule/src/tr_granule.c])

    Addresses to region and slot indices by binary search over the banks, and
    back by a scan.  The theorems say that on the layout of [TrBanks] the search
    finds exactly the bank of an address, that the two conversions are inverse,
    and that a region counts as homogeneous exactly when it is. *)

From Stdlib Require Import ZArith Lia Bool ZifyBool Sorting.Sorted.
From stdpp Require Import base tactics option list numbers sorting.
From S2P Require Import Prelude.
From S2P Require Import Utils.
From S2P Require Import Sort.
From S2P Require Import TrBanks.

Inductive tr_mem_type := TR_MEM_TYPE_CONV | TR_MEM_TYPE_DEV.

Inductive tr_mem_cat := mc_conv | mc_dev_ncoh | mc_dev_coh | mc_diverse.
#[global] Instance tr_mem_cat_eq_dec : EqDecision tr_mem_cat.
Proof. solve_decision. Defined.

Section Lookup.
Context (td : tracking_region_data).

Definition tracking_region_get_size : option Z :=
  assert (negb (td_region_size td =? 0)) ;; Some (td_region_size td).

Definition banks_of (type : tr_mem_type) : list tracking_memory_bank :=
  match type with TR_MEM_TYPE_CONV => td_conv_banks td | TR_MEM_TYPE_DEV => td_dev_banks td end.
Definition entry_size_of (type : tr_mem_type) : Z :=
  match type with TR_MEM_TYPE_CONV => sizeof_granule | TR_MEM_TYPE_DEV => sizeof_dev_granule end.
Definition num_granules_of (type : tr_mem_type) : Z :=
  match type with
  | TR_MEM_TYPE_CONV => td_num_tracking_granules td
  | TR_MEM_TYPE_DEV => td_num_tracking_dev_granules td
  end.

(** [while (l <= r)] of the binary search. *)
Fixpoint find_addr_loop (fuel : nat) (banks : list tracking_memory_bank) (addr l r : Z)
    : option (option tracking_memory_bank) :=
  match fuel with
  | O => None
  | S fuel' =>
      if l <=? r then
        let i := l + (r - l) / 2 in
        bank ← arr_get banks i;
        if addr <? b_base bank then
          if i =? 0 then Some None else find_addr_loop fuel' banks addr l (i - 1)
        else if b_top bank <=? addr then find_addr_loop fuel' banks addr (i + 1) r
        else Some (Some bank)
      else Some None
  end.

(** The bank, the region index and the slot index of an address. *)
Definition tracking_region_find_addr (addr : Z) (type : tr_mem_type)
    : option (option (tracking_memory_bank * Z * Z)) :=
  region_size ← tracking_region_get_size;
  let banks := banks_of type in
  granule_stride ← tracking_region_fine_stride region_size (entry_size_of type);
  match banks with
  | [] => Some None
  | _ =>
      found ← find_addr_loop (S (length banks)) banks addr 0 (Z.of_nat (length banks) - 1);
      match found with
      | None => Some None
      | Some bank =>
          let tracking_base := round_down (b_base bank) region_size in
          let region_base := round_down addr region_size in
          let region_offset := sub64 region_base tracking_base / region_size in
          let granule_offset := Z.shiftr (sub64 addr region_base) GRANULE_SHIFT in
          Some (Some (bank, add64 (b_tracking_start_idx bank) region_offset,
            add64 (add64 (b_granule_start_idx bank) (mul64 region_offset granule_stride)) granule_offset))
      end
  end.

(** [UINT64_MAX] stands for an invalid address, as in the code; the category is
    the last component. *)
Definition tracking_region_fine_addr_to_idx (addr : Z) (type : tr_mem_type) : option (Z * option Z) :=
  assert (negb (td_num_tracking_regions td =? 0)) ;;
  if negb (GRANULE_ALIGNED addr) then Some (UINT64_MAX, None)
  else
    found ← tracking_region_find_addr addr type;
    match found with
    | None => Some (UINT64_MAX, None)
    | Some (bank, _, granule_idx) => Some (granule_idx, Some (b_category bank))
    end.

Definition tracking_region_addr_to_idx (addr : Z) (type : tr_mem_type) : option (Z * option Z) :=
  assert (negb (td_num_tracking_regions td =? 0)) ;;
  if negb (GRANULE_ALIGNED addr) then Some (UINT64_MAX, None)
  else
    found ← tracking_region_find_addr addr type;
    match found with
    | None => Some (UINT64_MAX, None)
    | Some (bank, tracking_region_idx, _) => Some (tracking_region_idx, Some (b_category bank))
    end.

(** The scan of [tracking_region_fine_idx_to_addr]. *)
Fixpoint idx_to_addr_loop (region_size granule_stride idx : Z) (banks : list tracking_memory_bank)
    : Z * option Z :=
  match banks with
  | [] => (UINT64_MAX, None)
  | bank :: rest =>
      let tracking_base := round_down (b_base bank) region_size in
      let tracking_top := round_up (b_top bank) region_size in
      let bank_regions := sub64 tracking_top tracking_base / region_size in
      let bank_descriptors := mul64 bank_regions granule_stride in
      if (b_granule_start_idx bank <=? idx) &&
         (idx <? add64 (b_granule_start_idx bank) bank_descriptors) then
        let relative := idx - b_granule_start_idx bank in
        let offset := relative mod granule_stride in
        if region_size / GRANULE_SIZE <=? offset then
          idx_to_addr_loop region_size granule_stride idx rest
        else
          let addr := add64 (add64 tracking_base (mul64 (relative / granule_stride) region_size))
                            (shl64 offset GRANULE_SHIFT) in
          if (addr <? b_base bank) || (b_top bank <=? addr) then
            idx_to_addr_loop region_size granule_stride idx rest
          else (addr, Some (b_category bank))
      else idx_to_addr_loop region_size granule_stride idx rest
  end.

Definition tracking_region_fine_idx_to_addr (idx : Z) (type : tr_mem_type) : option (Z * option Z) :=
  region_size ← tracking_region_get_size;
  assert (negb (td_num_tracking_regions td =? 0)) ;;
  granule_stride ← tracking_region_fine_stride region_size (entry_size_of type);
  if num_granules_of type <=? idx then Some (UINT64_MAX, None)
  else Some (idx_to_addr_loop region_size granule_stride idx (banks_of type)).

(** [struct granule *] into the fine array is the index. *)
Definition tr_fine_granule_from_idx (idx : Z) : option Z :=
  assert (idx <? td_num_tracking_granules td) ;; Some idx.
Definition tr_fine_granule_to_idx (g : Z) : option Z :=
  assert (g <? td_num_tracking_granules td) ;; Some g.

Definition tr_addr_to_granule (addr : Z) : option Z :=
  assert (GRANULE_ALIGNED addr) ;;
  '(idx, _) ← tracking_region_fine_addr_to_idx addr TR_MEM_TYPE_CONV;
  assert (negb (idx =? UINT64_MAX)) ;;
  tr_fine_granule_from_idx idx.

Definition tr_granule_addr (g : Z) : option Z :=
  idx ← tr_fine_granule_to_idx g;
  '(addr, _) ← tracking_region_fine_idx_to_addr idx TR_MEM_TYPE_CONV;
  assert (negb (addr =? UINT64_MAX)) ;;
  Some addr.

(** ** Composition of a region *)

Definition tracking_region_mem_cat_from_category (category : Z) : option tr_mem_cat :=
  if category =? RMI_MEM_CATEGORY_CONVENTIONAL then Some mc_conv
  else if category =? RMI_MEM_CATEGORY_DEV_NCOH then Some mc_dev_ncoh
  else if category =? RMI_MEM_CATEGORY_DEV_COH then Some mc_dev_coh
  else None.

Definition tracking_memory_bank_find_any (addr : Z) : option (option (tracking_memory_bank * Z * Z)) :=
  found ← tracking_region_find_addr addr TR_MEM_TYPE_CONV;
  match found with
  | Some _ => Some found
  | None => tracking_region_find_addr addr TR_MEM_TYPE_DEV
  end.

(** [while (cursor < top)]; [category] is [None] until it is set. *)
Fixpoint composition_loop (fuel : nat) (top cursor : Z) (category : option tr_mem_cat)
    : option tr_mem_cat :=
  match fuel with
  | O => None
  | S fuel' =>
      if cursor <? top then
        found ← tracking_memory_bank_find_any cursor;
        match found with
        | None => Some mc_diverse
        | Some (bank, _, _) =>
            bank_category ← tracking_region_mem_cat_from_category (b_category bank);
            let bank_top := b_top bank in
            let cursor' := if bank_top <? top then bank_top else top in
            match category with
            | None => composition_loop fuel' top cursor' (Some bank_category)
            | Some c => if decide (c = bank_category)
                        then composition_loop fuel' top cursor' category
                        else Some mc_diverse
            end
        end
      else category
  end.

Definition tracking_region_composition (base : Z) : option tr_mem_cat :=
  region_size ← tracking_region_get_size;
  composition_loop (S (S (length (td_conv_banks td ++ td_dev_banks td))))
    (add64 base region_size) base None.

(** ** The binary search *)

Definition in_bank (addr : Z) (b : tracking_memory_bank) : Prop :=
  b_base b <= addr < b_base b + b_size b.

Lemma find_addr_loop_ok banks addr :
  Forall bank_wf banks -> StronglySorted bank_before banks -> forall fuel l r,
  0 <= l <= r + 1 -> r < Z.of_nat (length banks) -> r - l + 1 < Z.of_nat fuel ->
  (forall j b, banks !! j = Some b -> Z.of_nat j < l -> b_base b + b_size b <= addr) ->
  (forall j b, banks !! j = Some b -> r < Z.of_nat j -> addr < b_base b) ->
  exists res, find_addr_loop fuel banks addr l r = Some res /\
    match res with
    | Some b => b ∈ banks /\ in_bank addr b
    | None => forall b, b ∈ banks -> ~ in_bank addr b
    end.
Proof.
  intros Hwf Hss. induction fuel as [|fuel IH]; intros l r Hl Hr Hf Hlo Hhi; [lia|].
  cbn [find_addr_loop]. destruct (Z.leb_spec l r) as [Hlr|Hlr].
  2: { exists None. split; [done|]. intros b [j Hj]%list_elem_of_lookup Hin. unfold in_bank in Hin.
       destruct (decide (Z.of_nat j < l)); [pose proof (Hlo j b Hj)|pose proof (Hhi j b Hj)]; lia. }
  set (i := l + (r - l) / 2). assert (Hi : l <= i <= r).
  { unfold i. pose proof (Z.div_pos (r - l) 2). pose proof (Z.div_le_upper_bound (r - l) 2 (r - l)). lia. }
  destruct (arr_get_some banks i ltac:(lia)) as [b Hb]. rewrite Hb. cbn [mbind option_bind].
  unfold arr_get in Hb. rewrite (proj2 (Z.leb_le _ _)) in Hb by lia.
  assert (Hbw : bank_wf b) by (rewrite Forall_forall in Hwf; apply Hwf; by eapply list_elem_of_lookup_2).
  assert (Htop : b_top b = b_base b + b_size b).
  { destruct Hbw. unfold b_top, add64. apply u64_small. unfold in_u64. lia. }
  assert (Hord : forall j k c d, (j < k)%nat -> banks !! j = Some c -> banks !! k = Some d -> bank_before c d)
    by apply (sorted_pairwise banks Hss).
  assert (Hsz : forall j c, banks !! j = Some c -> 0 < b_size c).
  { intros j c Hc. rewrite Forall_forall in Hwf. apply (Hwf c). by eapply list_elem_of_lookup_2. }
  rewrite Htop. destruct (Z.ltb_spec addr (b_base b)) as [Hlt|Hge].
  - assert (Habove : forall j c, banks !! j = Some c -> i - 1 < Z.of_nat j -> addr < b_base c).
    { intros j c Hc Hj. destruct (decide (j = Z.to_nat i)) as [->|Hne]; [by simplify_eq|].
      pose proof (Hord (Z.to_nat i) j b c ltac:(lia) Hb Hc) as Hbc. unfold bank_before in Hbc.
      pose proof (bank_size _ Hbw). lia. }
    destruct (Z.eqb_spec i 0) as [Hi0|Hi0].
    + exists None. split; [done|]. intros c [j Hj]%list_elem_of_lookup Hin. unfold in_bank in Hin.
      pose proof (Habove j c Hj ltac:(lia)). lia.
    + apply IH; try done; lia.
  - destruct (Z.leb_spec (b_base b + b_size b) addr) as [Hout|Hin].
    + apply IH; try done; try lia. intros j c Hc Hj.
      destruct (decide (j = Z.to_nat i)) as [->|Hne]; [by simplify_eq|].
      pose proof (Hord j (Z.to_nat i) c b ltac:(lia) Hc Hb) as Hbc. unfold bank_before in Hbc.
      pose proof (bank_size _ Hbw). lia.
    + exists (Some b). split; [done|]. split; [by eapply list_elem_of_lookup_2|]. unfold in_bank. lia.
Qed.

(** ** Indices on a layout *)

Context (R RC RD : list Z) (HLO : layout_ok td R RC RD).
#[local] Abbreviation rs := (td_region_size td).

Definition slots_of (type : tr_mem_type) : list Z :=
  match type with TR_MEM_TYPE_CONV => RC | TR_MEM_TYPE_DEV => RD end.
Definition stride_of (type : tr_mem_type) : Z :=
  match type with TR_MEM_TYPE_CONV => granule_stride rs | TR_MEM_TYPE_DEV => dev_granule_stride rs end.

Lemma layout_of type : type_layout rs (stride_of type) (banks_of type) R (slots_of type).
Proof. destruct type; [apply (lo_conv _ _ _ _ HLO)|apply (lo_dev _ _ _ _ HLO)]. Qed.

Lemma stride_eq type : tracking_region_fine_stride rs (entry_size_of type) = Some (stride_of type).
Proof. destruct (fine_stride_eq rs (lo_size _ _ _ _ HLO)). by destruct type. Qed.

Lemma stride_range type : 0 < rs / GRANULE_SIZE <= stride_of type /\ stride_of type <= 2 ^ 20.
Proof. destruct (stride_bounds rs (lo_size _ _ _ _ HLO)) as (? & ? & ? & ?). destruct type; cbn; lia. Qed.

Lemma num_granules_eq type : num_granules_of type = stride_of type * Z.of_nat (length (slots_of type)).
Proof. destruct type; [apply (lo_granules _ _ _ _ HLO)|apply (lo_dev_granules _ _ _ _ HLO)]. Qed.

Lemma get_size_eq : tracking_region_get_size = Some rs.
Proof.
  unfold tracking_region_get_size. destruct (region_size_cases _ (lo_size _ _ _ _ HLO)) as [-> | ->]; done.
Qed.

Lemma rs_shift : exists n, 21 <= n <= 30 /\ rs = 2 ^ n.
Proof. destruct (region_size_cases _ (lo_size _ _ _ _ HLO)); [exists 21|exists 30]; lia. Qed.

Lemma slots_length type : Z.of_nat (length (slots_of type)) <= 2 ^ 31 /\ Z.of_nat (length R) <= 2 ^ 31.
Proof.
  assert (Hk : forall b k, bank_wf b -> first_region rs b <= k < end_region rs b -> 0 <= k < 2 ^ 31).
  { intros b k Hb Hk. destruct (bank_region_bounds rs b (lo_size _ _ _ _ HLO) Hb) as (_ & _ & _ & ? & ?). lia. }
  split; apply sorted_length; try done.
  - apply (tl_fine_sorted _ _ _ _ _ (layout_of type)).
  - apply Forall_forall. intros k Hin. destruct (tl_fine_cover _ _ _ _ _ (layout_of type) k Hin) as (b & Hb & Hkb).
    apply (Hk b k); [|done]. pose proof (tl_wf _ _ _ _ _ (layout_of type)) as Hwf.
    rewrite Forall_forall in Hwf. by apply Hwf.
  - apply (lo_sorted _ _ _ _ HLO).
  - apply Forall_forall. intros k Hin. destruct (lo_cover _ _ _ _ HLO k Hin) as (b & Hb & Hkb).
    apply (Hk b k); [|done]. pose proof (tl_wf _ _ _ _ _ (lo_conv _ _ _ _ HLO)) as Hwc.
    pose proof (tl_wf _ _ _ _ _ (lo_dev _ _ _ _ HLO)) as Hwd. rewrite Forall_forall in Hwc, Hwd.
    apply elem_of_app in Hb as [?|?]; auto.
Qed.

(** The position of an address in its bank. *)
Lemma in_bank_region addr b :
  bank_wf b -> in_bank addr b ->
  0 <= addr < 2 ^ 52 /\ first_region rs b <= addr / rs < end_region rs b /\
  round_down addr rs = addr / rs * rs /\ addr - addr / rs * rs = addr mod rs.
Proof.
  intros [? ? ? _ _] Hin. unfold in_bank in Hin. destruct rs_shift as (n & Hn & ->).
  assert (0 < 2 ^ n) by (apply Z.pow_pos_nonneg; lia).
  rewrite round_down_spec by (unfold in_u64; lia). pose proof (Z.div_mod addr (2 ^ n)).
  unfold first_region, end_region.
  assert (b_base b / 2 ^ n <= addr / 2 ^ n) by (apply Z.div_le_mono; lia).
  assert (addr / 2 ^ n <= (b_base b + b_size b - 1) / 2 ^ n) by (apply Z.div_le_mono; lia).
  split_and!; lia.
Qed.

Lemma find_addr_ok addr type :
  exists res, tracking_region_find_addr addr type = Some res /\
    match res with
    | Some (b, ti, gi) => b ∈ banks_of type /\ in_bank addr b /\
        R !! Z.to_nat ti = Some (addr / rs) /\ 0 <= ti < Z.of_nat (length R) /\
        exists s, slots_of type !! s = Some (addr / rs) /\
          gi = stride_of type * Z.of_nat s + addr mod rs / GRANULE_SIZE
    | None => forall b, b ∈ banks_of type -> ~ in_bank addr b
    end.
Proof.
  pose proof (layout_of type) as [Hwf Hss Hsh Hfi _ _].
  unfold tracking_region_find_addr. rewrite get_size_eq. cbn [mbind option_bind]. rewrite stride_eq. cbn [mbind option_bind].
  destruct (find_addr_loop_ok (banks_of type) addr Hwf Hss (S (length (banks_of type))) 0
    (Z.of_nat (length (banks_of type)) - 1)) as (res & Hres & Hspec); try lia.
  { intros j b Hj Hlt. apply lookup_lt_Some in Hj. lia. }
  destruct (banks_of type) as [|b0 banks0] eqn:Eb.
  { exists None. split; [done|]. intros b Hb. inversion Hb. }
  rewrite Hres. cbn [mbind option_bind]. destruct res as [b|]; [|by exists None].
  destruct Hspec as [Hb Hin]. eexists. split; [reflexivity|]. split; [done|]. split; [done|].
  assert (Hbw : bank_wf b) by (rewrite Forall_forall in Hwf; by apply Hwf).
  destruct (bank_region_bounds rs b (lo_size _ _ _ _ HLO) Hbw) as (_ & Hdn & _ & Hfe & He).
  destruct (in_bank_region addr b Hbw Hin) as (Ha & Hk & Hrd & Hmod).
  rewrite Hdn, Hrd, step_arith by (apply HLO || lia).
  destruct (Hsh b Hb) as [Hi0 Hpl]. specialize (Hpl _ Hk).
  destruct (Hfi b Hb) as (i & Hgi & Hi & Hplf). specialize (Hplf _ Hk).
  apply lookup_lt_Some in Hpl as Hlt. apply lookup_lt_Some in Hplf as Hltf.
  destruct (slots_length type) as [HlF HlR]. destruct (stride_range type) as [Hst1 Hst2].
  set (k := addr / rs) in *. set (f := first_region rs b) in *. rewrite Hgi.
  unfold add64, mul64, sub64. rewrite Hmod.
  destruct rs_shift as (n & Hn & Hrs). assert (Hm : 0 <= addr mod rs < rs).
  { apply Z.mod_pos_bound. rewrite Hrs. apply Z.pow_pos_nonneg; lia. }
  assert (rs <= 2 ^ 30) by (rewrite Hrs; apply Z.pow_le_mono_r; lia).
  rewrite (u64_small (addr mod rs)) by (unfold in_u64; lia).
  rewrite Z.shiftr_div_pow2 by (unfold GRANULE_SHIFT; lia). fold GRANULE_SIZE.
  assert (0 <= addr mod rs / GRANULE_SIZE < 2 ^ 30).
  { split; [apply Z.div_pos; [lia|done]|apply Z.div_lt_upper_bound; [done|]]. change GRANULE_SIZE with 4096. lia. }
  assert (Hti : u64 (b_tracking_start_idx b + (k - f)) = b_tracking_start_idx b + (k - f))
    by (apply u64_small; unfold in_u64; lia).
  rewrite Hti. split; [done|]. split; [lia|].
  exists (Z.to_nat (i + (k - f))). split; [done|].
  rewrite (u64_small ((k - f) * _)), (u64_small (_ + (k - f) * _)), u64_small by (unfold in_u64; nia). nia.
Qed.

Lemma sorted_index (L : list Z) i j k :
  StronglySorted Z.lt L -> L !! i = Some k -> L !! j = Some k -> i = j.
Proof.
  assert (Hlt : forall L, StronglySorted Z.lt L -> forall i j a b, (i < j)%nat -> L !! i = Some a -> L !! j = Some b -> a < b).
  { clear. induction 1 as [|x l Hs IH Hx]; intros i j a b Hij Ha Hb; [done|].
    destruct j as [|j]; [lia|]. destruct i as [|i]; cbn [lookup] in *.
    - injection Ha as ->. rewrite Forall_forall in Hx. apply Hx. by eapply list_elem_of_lookup_2.
    - apply (IH i j); [lia|done|done]. }
  intros HL Hi Hj. destruct (Nat.lt_trichotomy i j) as [H|[H|H]]; [|done|].
  - pose proof (Hlt L HL i j k k H Hi Hj). lia.
  - pose proof (Hlt L HL j i k k H Hj Hi). lia.
Qed.

Lemma in_bank_unique addr type b c :
  b ∈ banks_of type -> c ∈ banks_of type -> in_bank addr b -> in_bank addr c -> b = c.
Proof.
  intros [i Hi]%list_elem_of_lookup [j Hj]%list_elem_of_lookup Hb Hc. unfold in_bank in *.
  pose proof (sorted_pairwise _ (tl_sorted _ _ _ _ _ (layout_of type))) as Hp.
  destruct (Nat.lt_trichotomy i j) as [H|[->|H]]; [|by simplify_eq|].
  - pose proof (Hp i j b c H Hi Hj) as Hx. unfold bank_before in Hx. lia.
  - pose proof (Hp j i c b H Hj Hi) as Hx. unfold bank_before in Hx. lia.
Qed.

(** The address of slot [o] of region [k]. *)
Definition slot_addr (k o : Z) : Z := k * rs + o * GRANULE_SIZE.

Lemma slot_addr_region k o :
  0 <= k -> 0 <= o < rs / GRANULE_SIZE ->
  slot_addr k o / rs = k /\ slot_addr k o mod rs / GRANULE_SIZE = o /\
  GRANULE_ALIGNED (slot_addr k o) = true.
Proof.
  intros Hk Ho. unfold slot_addr.
  assert (Hrs : rs = rs / GRANULE_SIZE * GRANULE_SIZE /\ 0 < rs).
  { destruct (region_size_cases _ (lo_size _ _ _ _ HLO)) as [-> | ->]; done. }
  destruct Hrs as [Hrs Hrs0]. change GRANULE_SIZE with 4096 in *.
  rewrite Z.add_comm. rewrite Z.div_add, Z.mod_add by lia.
  rewrite Z.div_small, Z.mod_small by lia. split; [lia|]. split; [by rewrite Z.div_mul by lia|].
  apply GRANULE_ALIGNED_spec. rewrite Hrs. change GRANULE_SIZE with 4096.
  exists (o + k * (rs / 4096)). lia.
Qed.

(** One bank of the scan: the reserved span of the bank holds slot [s] exactly
    when the bank intersects its region, and the address computed is the slot's. *)
Lemma idx_scan_bank type s k o b rest :
  b ∈ banks_of type -> slots_of type !! s = Some k -> 0 <= o < stride_of type ->
  let idx := stride_of type * Z.of_nat s + o in
  idx_to_addr_loop rs (stride_of type) idx (b :: rest) =
    if bool_decide (first_region rs b <= k < end_region rs b) && (o <? rs / GRANULE_SIZE) &&
       bool_decide (in_bank (slot_addr k o) b)
    then (slot_addr k o, Some (b_category b))
    else idx_to_addr_loop rs (stride_of type) idx rest.
Proof.
  intros Hb Hs Ho idx. pose proof (layout_of type) as [Hwf _ _ Hfi HsF _].
  rewrite Forall_forall in Hwf. pose proof (Hwf b Hb) as Hbw.
  destruct (bank_region_bounds rs b (lo_size _ _ _ _ HLO) Hbw) as (Htop & Hdn & Hup & Hfe & He).
  destruct (Hfi b Hb) as (i & Hgi & Hi & Hpl). destruct (stride_range type) as [Hst1 Hst2].
  destruct (slots_length type) as [HlF _]. apply lookup_lt_Some in Hs as Hslt.
  cbn [idx_to_addr_loop]. rewrite Hdn, Hup, step_arith, Hgi by (apply HLO || lia).
  set (f := first_region rs b) in *. set (l := end_region rs b) in *. set (st := stride_of type) in *.
  assert (Hil : i + (l - f) <= 2 ^ 31).
  { pose proof (Hpl (l - 1) ltac:(lia)) as Hlast. apply lookup_lt_Some in Hlast. lia. }
  unfold mul64 at 1. unfold add64 at 1. rewrite (u64_small ((l - f) * st)), u64_small by (unfold in_u64; nia).
  assert (Hspan : (st * i <=? idx) && (idx <? st * i + (l - f) * st) = bool_decide (f <= k < l)).
  { apply eq_true_iff_eq. rewrite andb_true_iff, Z.leb_le, Z.ltb_lt, bool_decide_eq_true. unfold idx. split.
    - intros [H1 H2]. assert (Hsi : i <= Z.of_nat s < i + (l - f)) by nia.
      pose proof (Hpl (f + (Z.of_nat s - i)) ltac:(lia)) as Hk.
      replace (Z.to_nat _) with s in Hk by lia. simplify_eq. lia.
    - intros Hk. pose proof (sorted_index _ _ _ _ HsF Hs (Hpl k Hk)) as Hsi.
      assert (Hsz : Z.of_nat s = i + (k - f)) by lia. rewrite Hsz. nia. }
  rewrite Hspan. case_bool_decide as Hk; cbn [andb]; [|done].
  pose proof (sorted_index _ _ _ _ HsF Hs (Hpl k Hk)) as Hsi.
  assert (Hsz : Z.of_nat s = i + (k - f)) by lia.
  assert (Hrel : idx - st * i = (k - f) * st + o) by (unfold idx; rewrite Hsz; ring).
  rewrite Hrel, (Z.add_comm ((k - f) * st) o), Z.mod_add, Z.div_add, (Z.mod_small o), (Z.div_small o) by lia.
  destruct (Z.leb_spec (rs / GRANULE_SIZE) o) as [Hbig|Hsm].
  { by rewrite (proj2 (Z.ltb_ge o (rs / GRANULE_SIZE))) by lia. }
  rewrite (proj2 (Z.ltb_lt o (rs / GRANULE_SIZE))) by lia. cbn [andb].
  assert (Hrs2 : rs / GRANULE_SIZE * GRANULE_SIZE = rs /\ 0 < rs <= 2 ^ 30 /\ rs * 2 ^ 31 <= 2 ^ 61).
  { destruct (region_size_cases _ (lo_size _ _ _ _ HLO)) as [-> | ->]; split_and!; cbv; congruence. }
  destruct Hrs2 as (Hrs2 & Hrs3 & Hrs4).
  assert (Hob : 0 <= o * GRANULE_SIZE < rs) by (change GRANULE_SIZE with 4096 in *; nia).
  unfold add64, mul64, shl64. rewrite Z.shiftl_mul_pow2 by (unfold GRANULE_SHIFT; lia).
  fold GRANULE_SIZE. rewrite Z.add_0_l.
  rewrite (u64_small (o * GRANULE_SIZE)), (u64_small ((k - f) * rs)), (u64_small (f * rs + _)), u64_small
    by (unfold in_u64; nia).
  replace (f * rs + (k - f) * rs + o * GRANULE_SIZE) with (slot_addr k o) by (unfold slot_addr; lia).
  rewrite Htop. unfold in_bank. case_bool_decide.
  - rewrite (proj2 (Z.ltb_ge _ _)), (proj2 (Z.leb_gt _ _)) by lia. done.
  - destruct (Z.ltb_spec (slot_addr k o) (b_base b)), (Z.leb_spec (b_base b + b_size b) (slot_addr k o));
      try done; lia.
Qed.

Lemma idx_scan_found type s k o b bs :
  (forall c, c ∈ bs -> c ∈ banks_of type) -> slots_of type !! s = Some k ->
  0 <= o < rs / GRANULE_SIZE -> 0 <= k -> b ∈ bs -> in_bank (slot_addr k o) b ->
  idx_to_addr_loop rs (stride_of type) (stride_of type * Z.of_nat s + o) bs
  = (slot_addr k o, Some (b_category b)).
Proof.
  intros Hbs Hs Ho Hk Hb Hin. destruct (stride_range type) as [Hst1 Hst2].
  induction bs as [|c bs IH]; [inversion Hb|].
  assert (Hbb : b ∈ banks_of type) by (by apply Hbs).
  rewrite (idx_scan_bank type s k o c bs) by (first [apply Hbs, list_elem_of_here | done | lia]).
  rewrite (proj2 (Z.ltb_lt o _)), andb_true_r by lia.
  destruct (bool_decide (first_region rs c <= k < end_region rs c) && bool_decide (in_bank (slot_addr k o) c)) eqn:E.
  - apply andb_true_iff in E as [_ E%bool_decide_eq_true].
    by rewrite (in_bank_unique (slot_addr k o) type b c Hbb (Hbs c (list_elem_of_here _ _)) Hin E).
  - apply IH; [by intros x Hx; apply Hbs, list_elem_of_further|].
    apply elem_of_cons in Hb as [->|Hb]; [|done]. exfalso. apply andb_false_iff in E.
    pose proof (tl_wf _ _ _ _ _ (layout_of type)) as Hwf. rewrite Forall_forall in Hwf.
    destruct (in_bank_region _ _ (Hwf c Hbb) Hin) as (_ & Hreg & _).
    destruct (slot_addr_region k o Hk Ho) as (Hkk & _). rewrite Hkk in Hreg.
    destruct E as [E%bool_decide_eq_false|E%bool_decide_eq_false]; done.
Qed.

Lemma idx_scan_inv type s k o bs addr c :
  (forall b, b ∈ bs -> b ∈ banks_of type) -> slots_of type !! s = Some k -> 0 <= o < stride_of type ->
  idx_to_addr_loop rs (stride_of type) (stride_of type * Z.of_nat s + o) bs = (addr, Some c) ->
  addr = slot_addr k o /\ o < rs / GRANULE_SIZE /\
  exists b, b ∈ bs /\ in_bank addr b /\ b_category b = c.
Proof.
  intros Hbs Hs Ho. induction bs as [|b bs IH]; [done|].
  rewrite (idx_scan_bank type s k o b bs) by (first [apply Hbs, list_elem_of_here | done]).
  destruct (bool_decide _ && (o <? _) && bool_decide _) eqn:E.
  - intros [= <- <-]. apply andb_true_iff in E as [[_ E]%andb_true_iff Hin%bool_decide_eq_true].
    split; [done|]. split; [lia|]. exists b. split; [apply list_elem_of_here|done].
  - intros H. destruct IH as (? & ? & b' & ? & ?); [by intros x Hx; apply Hbs, list_elem_of_further|done|].
    split; [done|]. split; [done|]. exists b'. split; [by apply list_elem_of_further|done].
Qed.

Lemma regions_nonempty k type s : slots_of type !! s = Some k -> td_num_tracking_regions td <> 0.
Proof.
  intros Hs. destruct (tl_fine_cover _ _ _ _ _ (layout_of type) k) as (b & Hb & Hk).
  { by eapply list_elem_of_lookup_2. }
  destruct (tl_shared _ _ _ _ _ (layout_of type) b Hb) as [_ Hpl].
  pose proof (lookup_lt_Some _ _ _ (Hpl k Hk)). rewrite (lo_regions _ _ _ _ HLO). lia.
Qed.

(** An aligned address of a bank: its slot. *)
Lemma fine_addr_to_idx_ok addr type b :
  b ∈ banks_of type -> in_bank addr b -> GRANULE_ALIGNED addr = true ->
  exists s o, slots_of type !! s = Some (addr / rs) /\ 0 <= o < rs / GRANULE_SIZE /\
    addr = slot_addr (addr / rs) o /\
    tracking_region_fine_addr_to_idx addr type
      = Some (stride_of type * Z.of_nat s + o, Some (b_category b)) /\
    0 <= stride_of type * Z.of_nat s + o < num_granules_of type /\ num_granules_of type < UINT64_MAX.
Proof.
  intros Hb Hin Hal. destruct (find_addr_ok addr type) as (res & Hres & Hspec).
  destruct res as [[[b' ti] gi]|]; [|by destruct (Hspec b Hb)].
  destruct Hspec as (Hb' & Hin' & _ & _ & s & Hs & ->).
  assert (b = b') as <- by (by apply (in_bank_unique addr type)).
  pose proof (tl_wf _ _ _ _ _ (layout_of type)) as Hwf. rewrite Forall_forall in Hwf.
  destruct (in_bank_region addr b (Hwf b Hb) Hin) as (Ha & _ & _ & Hmod).
  assert (Hrs : rs = rs / GRANULE_SIZE * GRANULE_SIZE /\ 0 < rs).
  { destruct (region_size_cases _ (lo_size _ _ _ _ HLO)) as [-> | ->]; done. }
  destruct Hrs as [Hrs Hrs0]. pose proof (Z.mod_pos_bound addr rs Hrs0) as Hm.
  exists s, (addr mod rs / GRANULE_SIZE). apply GRANULE_ALIGNED_spec in Hal as Hdv.
  assert (Hex : addr mod rs = addr mod rs / GRANULE_SIZE * GRANULE_SIZE).
  { rewrite <- Hmod. destruct Hdv as [q Hq]. rewrite Hq at 1 3. rewrite Hrs at 2 4.
    replace (q * GRANULE_SIZE - addr / rs * (rs / GRANULE_SIZE * GRANULE_SIZE))
      with ((q - addr / rs * (rs / GRANULE_SIZE)) * GRANULE_SIZE) by ring.
    by rewrite Z.div_mul by done. }
  change GRANULE_SIZE with 4096 in *. set (o := addr mod rs / 4096) in *.
  assert (Ho : 0 <= o < rs / 4096) by lia.
  apply lookup_lt_Some in Hs as Hlt. destruct (slots_length type) as [HlF _].
  destruct (stride_range type) as [Hst1 Hst2]. change GRANULE_SIZE with 4096 in Hst1.
  rewrite num_granules_eq. unfold tracking_region_fine_addr_to_idx.
  rewrite (proj2 (Z.eqb_neq _ _) (regions_nonempty _ _ _ Hs)), Hal, Hres. cbn [negb mbind option_bind].
  split; [done|]. split; [done|]. split; [unfold slot_addr; change GRANULE_SIZE with 4096; lia|].
  split; [done|]. unfold UINT64_MAX. split; [|nia]. split; [nia|].
  assert (stride_of type * (Z.of_nat s + 1) <= stride_of type * Z.of_nat (length (slots_of type)))
    by (apply Z.mul_le_mono_nonneg_l; lia). lia.
Qed.

End Lookup.

Lemma fine_roundtrip td R RC RD type :
  layout_ok td R RC RD ->
  forall addr b, b ∈ banks_of td type -> in_bank addr b -> GRANULE_ALIGNED addr = true ->
    exists idx, 0 <= idx < num_granules_of td type /\
      tracking_region_fine_addr_to_idx td addr type = Some (idx, Some (b_category b)) /\
      tracking_region_fine_idx_to_addr td idx type = Some (addr, Some (b_category b)).
Proof.
  intros HLO. pose proof (stride_eq td R RC RD HLO type) as Hst. pose proof (get_size_eq td R RC RD HLO) as Hsz.
  pose proof (num_granules_eq td R RC RD HLO type) as Hnum.
  intros addr b Hb Hin Hal.
  destruct (fine_addr_to_idx_ok td R RC RD HLO addr type b Hb Hin Hal) as (s & o & Hs & Ho & Ha & Hidx & Hr & _).
  eexists. split; [exact Hr|]. split; [exact Hidx|].
  unfold tracking_region_fine_idx_to_addr. rewrite Hsz. cbn [mbind option_bind]. rewrite Hst.
  rewrite (proj2 (Z.eqb_neq _ _) (regions_nonempty td R RC RD HLO _ _ _ Hs)). cbn [negb mbind option_bind].
  rewrite (proj2 (Z.leb_gt _ _)) by lia. f_equal.
  pose proof (tl_wf _ _ _ _ _ (layout_of td R RC RD HLO type)) as Hwf. rewrite Forall_forall in Hwf.
  rewrite (idx_scan_found td R RC RD HLO type s (addr / td_region_size td) o b); try done.
  - by rewrite <- Ha.
  - apply Z.div_pos; [pose proof (bank_base _ (Hwf b Hb)); unfold in_bank in Hin; lia|].
    destruct (region_size_cases _ (lo_size _ _ _ _ HLO)); lia.
  - by rewrite <- Ha.
Qed.

Lemma fine_idx_inverse td R RC RD type :
  layout_ok td R RC RD ->
  forall idx addr c, 0 <= idx -> tracking_region_fine_idx_to_addr td idx type = Some (addr, Some c) ->
    GRANULE_ALIGNED addr = true /\
    (exists b, b ∈ banks_of td type /\ in_bank addr b /\ b_category b = c) /\
    tracking_region_fine_addr_to_idx td addr type = Some (idx, Some c).
Proof.
  intros HLO. pose proof (stride_eq td R RC RD HLO type) as Hst. pose proof (get_size_eq td R RC RD HLO) as Hsz.
  pose proof (num_granules_eq td R RC RD HLO type) as Hnum.
  intros idx addr c Hidx0 H. unfold tracking_region_fine_idx_to_addr in H. rewrite Hsz in H.
  cbn [mbind option_bind] in H. rewrite Hst in H. destruct (td_num_tracking_regions td =? 0) eqn:En; [done|].
  cbn [negb mbind option_bind] in H. destruct (Z.leb_spec (num_granules_of td type) idx); [done|].
  destruct (stride_range td R RC RD HLO type) as [Hst1 Hst2].
  set (st := stride_of td type) in *. pose proof (Z.div_mod idx st ltac:(lia)) as Hdm.
  pose proof (Z.mod_pos_bound idx st ltac:(lia)) as Hmb. pose proof (Z.div_pos idx st Hidx0 ltac:(lia)) as Hdp.
  assert (Hlt : idx / st < Z.of_nat (length (slots_of RC RD type))) by nia.
  destruct (lookup_lt_is_Some_2 (slots_of RC RD type) (Z.to_nat (idx / st)) ltac:(lia)) as [k Hk].
  assert (Hi : idx = st * Z.of_nat (Z.to_nat (idx / st)) + idx mod st) by (by rewrite Z2Nat.id).
  rewrite Hi in H.
  injection H as H. apply (idx_scan_inv td R RC RD HLO) with (k := k) in H as (-> & Hog & b & Hb & Hin & Hc); try done.
  assert (Hk0 : 0 <= k).
  { destruct (tl_fine_cover _ _ _ _ _ (layout_of td R RC RD HLO type) k ltac:(by eapply list_elem_of_lookup_2)) as (b' & Hb' & Hkb).
    pose proof (tl_wf _ _ _ _ _ (layout_of td R RC RD HLO type)) as Hwf. rewrite Forall_forall in Hwf.
    destruct (bank_region_bounds _ b' (lo_size _ _ _ _ HLO) (Hwf b' Hb')) as (_ & _ & _ & ? & _). lia. }
  destruct (slot_addr_region td R RC RD HLO k (idx mod st) Hk0 ltac:(lia)) as (Hkk & Hoo & Hal).
  split; [done|]. split; [by exists b|].
  destruct (fine_addr_to_idx_ok td R RC RD HLO _ type b Hb Hin Hal) as (s & o & Hs & Ho & Ha & Hidx & _).
  rewrite Hkk in Hs, Ha. pose proof (sorted_index _ _ _ _ (tl_fine_sorted _ _ _ _ _ (layout_of td R RC RD HLO type)) Hk Hs) as Hss.
  unfold slot_addr in Ha. change GRANULE_SIZE with 4096 in Ha. rewrite Hidx, Hc, <- Hss. do 2 f_equal.
  fold st. lia.
Qed.

Lemma fine_addr_rejected td R RC RD type :
  layout_ok td R RC RD ->
  forall addr, (forall b, b ∈ banks_of td type -> ~ in_bank addr b) -> td_num_tracking_regions td <> 0 ->
    tracking_region_fine_addr_to_idx td addr type = Some (UINT64_MAX, None).
Proof.
  intros HLO. 
  intros addr Hno Hn. unfold tracking_region_fine_addr_to_idx. rewrite (proj2 (Z.eqb_neq _ _) Hn). cbn [negb].
  destruct (GRANULE_ALIGNED addr); [cbn [negb]|done].
  destruct (find_addr_ok td R RC RD HLO addr type) as (res & -> & Hspec). cbn [mbind option_bind].
  destruct res as [[[b ti] gi]|]; [|done]. destruct Hspec as (Hb & Hin & _). by destruct (Hno b Hb).
Qed.


(** The names of granules and their addresses: the interface the walk uses. *)
Lemma granule_addr_inverse td R RC RD addr g :
  layout_ok td R RC RD -> tr_addr_to_granule td addr = Some g -> tr_granule_addr td g = Some addr.
Proof.
  intros HLO. unfold tr_addr_to_granule. destruct (GRANULE_ALIGNED addr) eqn:Hal; [|done].
  unfold tracking_region_fine_addr_to_idx. destruct (td_num_tracking_regions td =? 0) eqn:En; [done|].
  rewrite Hal. cbn [negb].
  destruct (find_addr_ok td R RC RD HLO addr TR_MEM_TYPE_CONV) as (res & Hres & Hspec). rewrite Hres.
  cbn [mbind option_bind]. destruct res as [[[b ti] gi]|]; [|done]. destruct Hspec as (Hb & Hin & _).
  destruct (fine_roundtrip td R RC RD TR_MEM_TYPE_CONV HLO addr b Hb Hin Hal) as (idx & Hr & Hidx & Hback).
  unfold tracking_region_fine_addr_to_idx in Hidx. rewrite En, Hal, Hres in Hidx. cbn [negb mbind option_bind] in Hidx.
  injection Hidx as ->. cbn [mbind option_bind]. destruct (idx =? UINT64_MAX) eqn:Em; [done|]. cbn [negb].
  unfold tr_fine_granule_from_idx, tr_granule_addr, tr_fine_granule_to_idx.
  destruct (idx <? td_num_tracking_granules td) eqn:Elt; [|done]. intros [= <-].
  rewrite Elt. cbn [mbind option_bind]. rewrite Hback. cbn [mbind option_bind].
  pose proof (tl_wf _ _ _ _ _ (lo_conv _ _ _ _ HLO)) as Hwf. rewrite Forall_forall in Hwf.
  destruct (Hwf b Hb). unfold in_bank in Hin.
  by rewrite (proj2 (Z.eqb_neq addr UINT64_MAX)) by (unfold UINT64_MAX; lia).
Qed.

(** ** Homogeneous regions *)

Section Composition.
Context (td : tracking_region_data) (R RC RD : list Z) (HLO : layout_ok td R RC RD).
#[local] Abbreviation all_banks := (td_conv_banks td ++ td_dev_banks td).

Lemma find_any_ok addr :
  exists res, tracking_memory_bank_find_any td addr = Some res /\
    match res with
    | Some (b, ti, _) => b ∈ all_banks /\ in_bank addr b /\
        R !! Z.to_nat ti = Some (addr / td_region_size td) /\ 0 <= ti < td_num_tracking_regions td
    | None => forall b, b ∈ all_banks -> ~ in_bank addr b
    end.
Proof.
  unfold tracking_memory_bank_find_any.
  destruct (find_addr_ok td R RC RD HLO addr TR_MEM_TYPE_CONV) as (res & -> & Hspec). cbn [mbind option_bind].
  rewrite (lo_regions _ _ _ _ HLO). destruct res as [[[b ti] gi]|].
  - exists (Some (b, ti, gi)). destruct Hspec as (Hb & Hin & HR & Hti & _). split; [done|].
    split; [apply elem_of_app; by left|done].
  - destruct (find_addr_ok td R RC RD HLO addr TR_MEM_TYPE_DEV) as (res & -> & Hspec2).
    exists res. split; [done|]. destruct res as [[[b ti] gi]|].
    + destruct Hspec2 as (Hb & Hin & HR & Hti & _). split; [apply elem_of_app; by right|done].
    + intros b [Hb|Hb]%elem_of_app; [by apply Hspec|by apply Hspec2].
Qed.

Definition category_of (c : tr_mem_cat) (b : tracking_memory_bank) : Prop :=
  tracking_region_mem_cat_from_category (b_category b) = Some c.

(** Every address of the range lies in a bank of category [c]. *)
Definition homogeneous (lo hi : Z) (c : tr_mem_cat) : Prop :=
  forall addr, lo <= addr < hi -> exists b, b ∈ all_banks /\ in_bank addr b /\ category_of c b.

(** Banks that end behind the cursor: the loop leaves one behind at each turn. *)
Definition ahead (cursor : Z) : list tracking_memory_bank :=
  filter (fun b => cursor < b_base b + b_size b) all_banks.

Lemma ahead_lt b cursor cursor' :
  b ∈ all_banks -> in_bank cursor b -> b_base b + b_size b <= cursor' ->
  (length (ahead cursor') < length (ahead cursor))%nat.
Proof.
  intros Hb Hin Hc. unfold ahead, in_bank in *.
  assert (Hmono : forall l, (length (filter (fun b => (cursor' < b_base b + b_size b)%Z) l)
    <= length (filter (fun b => (cursor < b_base b + b_size b)%Z) l))%nat).
  { induction l as [|x l IH]; [done|]. rewrite !filter_cons.
    destruct (decide (cursor' < _)), (decide (cursor < _)); cbn [length]; lia. }
  apply list_elem_of_split in Hb as (l1 & l2 & Heq). rewrite Heq, !filter_app, !length_app, !filter_cons.
  rewrite decide_False, decide_True by lia. cbn [length]. pose proof (Hmono l1). pose proof (Hmono l2). lia.
Qed.

Lemma all_wf b : b ∈ all_banks -> bank_wf b.
Proof.
  pose proof (tl_wf _ _ _ _ _ (lo_conv _ _ _ _ HLO)) as Hc. pose proof (tl_wf _ _ _ _ _ (lo_dev _ _ _ _ HLO)) as Hd.
  rewrite Forall_forall in Hc, Hd. intros [?|?]%elem_of_app; auto.
Qed.

Lemma all_unique addr b c : b ∈ all_banks -> c ∈ all_banks -> in_bank addr b -> in_bank addr c -> b = c.
Proof.
  intros Hb Hc Hbi Hci. pose proof (lo_disjoint _ _ _ _ HLO) as Hdis.
  apply elem_of_app in Hb as [Hb|Hb], Hc as [Hc|Hc].
  - by apply (in_bank_unique td R RC RD HLO addr TR_MEM_TYPE_CONV).
  - destruct (Hdis b c Hb Hc) as [H|H]; unfold bank_before, in_bank in *; lia.
  - destruct (Hdis c b Hc Hb) as [H|H]; unfold bank_before, in_bank in *; lia.
  - by apply (in_bank_unique td R RC RD HLO addr TR_MEM_TYPE_DEV).
Qed.

Definition categories_valid : Prop := forall b, b ∈ all_banks -> exists c, category_of c b /\ c <> mc_diverse.

Lemma composition_loop_ok top : forall fuel cursor cat,
  categories_valid -> 0 <= cursor <= top -> (length (ahead cursor) + 1 < fuel)%nat ->
  (cat = None -> cursor < top) -> cat <> Some mc_diverse ->
  exists c, composition_loop td fuel top cursor cat = Some c /\
    (c <> mc_diverse -> homogeneous cursor top c /\ (cat = None \/ cat = Some c)) /\
    (c = mc_diverse -> forall c', (cat = None \/ cat = Some c') -> ~ homogeneous cursor top c').
Proof.
  induction fuel as [|fuel IH]; intros cursor cat Hcat Hcur Hf Hnone Hnd; [lia|].
  cbn [composition_loop]. destruct (Z.ltb_spec cursor top) as [Hlt|Hge].
  2: { destruct cat as [c|]; [|specialize (Hnone eq_refl); lia]. exists c. split; [done|]. split.
       - intros _. split; [intros addr Ha; lia|by right].
       - intros ->. done. }
  destruct (find_any_ok cursor) as (res & -> & Hspec). cbn [mbind option_bind].
  destruct res as [[[b ti] gi]|].
  2: { exists mc_diverse. split; [done|]. split; [done|]. intros _ c' _ Hh.
       destruct (Hh cursor ltac:(lia)) as (b & Hb & Hin & _). by apply (Hspec b). }
  destruct Hspec as (Hb & Hin & _). destruct (Hcat b Hb) as (bc & Hbc & Hbcd). unfold category_of in Hbc.
  rewrite Hbc. cbn [mbind option_bind].
  destruct (bank_region_bounds _ b (lo_size _ _ _ _ HLO) (all_wf b Hb)) as (Htop & _).
  pose proof (bank_top _ (all_wf b Hb)) as Hb52. rewrite Htop.
  set (cursor' := if b_base b + b_size b <? top then b_base b + b_size b else top).
  assert (Hc' : cursor < cursor' <= top /\ cursor' <= b_base b + b_size b).
  { unfold cursor'. unfold in_bank in Hin. destruct (Z.ltb_spec (b_base b + b_size b) top); lia. }
  assert (Hhere : forall addr, cursor <= addr < cursor' -> b ∈ all_banks /\ in_bank addr b /\ category_of bc b).
  { intros addr Ha. unfold in_bank in *. split_and!; try done; lia. }
  assert (Hsame : forall c', homogeneous cursor top c' -> c' = bc).
  { intros c' Hh. destruct (Hh cursor ltac:(lia)) as (b' & Hb' & Hin' & Hcc).
    rewrite (all_unique cursor b' b Hb' Hb Hin' Hin) in Hcc. unfold category_of in Hcc. congruence. }
  assert (Hrec : exists c, composition_loop td fuel top cursor' (Some bc) = Some c /\
    (c <> mc_diverse -> homogeneous cursor top c /\ c = bc) /\ (c = mc_diverse -> ~ homogeneous cursor top bc)).
  { destruct (decide (cursor' = top)) as [He|Hne].
    - assert (fuel <> O) by (assert (Hx : b ∈ ahead cursor) by (apply list_elem_of_filter; unfold in_bank in Hin; split; [lia|done]);
        destruct (ahead cursor); [inversion Hx|cbn [length] in Hf; lia]).
      destruct fuel as [|fuel']; [done|]. cbn [composition_loop]. rewrite (proj2 (Z.ltb_ge _ _)) by lia.
      exists bc. split; [done|]. split; [|done]. intros _. split; [|done].
      intros addr Ha. exists b. apply Hhere. lia.
    - destruct (IH cursor' (Some bc)) as (c & Hrun & Hgood & Hbad); try done; try lia; [|congruence|].
      + assert (Hc2 : b_base b + b_size b <= cursor').
        { unfold cursor' in *. destruct (Z.ltb_spec (b_base b + b_size b) top); lia. }
        pose proof (ahead_lt b cursor cursor' Hb Hin Hc2). lia.
      + exists c. split; [done|]. split.
        * intros Hcd. destruct (Hgood Hcd) as [Hh [?|[= ->]]]; [done|]. split; [|done].
          intros addr Ha. destruct (decide (addr < cursor')); [exists b; apply Hhere; lia|apply Hh; lia].
        * intros Hcd Hh. apply (Hbad Hcd bc); [by right|]. intros addr Ha. apply Hh. lia. }
  destruct Hrec as (c & Hrun & Hgood & Hbad). destruct cat as [c0|].
  - destruct (decide (c0 = bc)) as [->|Hne].
    + exists c. split; [done|]. split.
      * intros Hcd. destruct (Hgood Hcd) as [Hh ->]. split; [done|by right].
      * intros Hcd c' [?|[= <-]]; [done|by apply Hbad].
    + exists mc_diverse. split; [done|]. split; [done|]. intros _ c' [?|[= <-]] Hh; [done|].
      by apply Hne, Hsame.
  - exists c. split; [done|]. split.
    + intros Hcd. destruct (Hgood Hcd) as [Hh ->]. split; [done|by left].
    + intros Hcd c' _ Hh. rewrite (Hsame c' Hh) in Hh. by apply Hbad.
Qed.

End Composition.

(** A tracking region gets a memory category exactly when banks of that
    category cover every address of it; a hole or a second category makes it
    diverse, so that no coarse granule ever stands for such a region.  The walk
    over the banks always ends. *)
Theorem tracking_region_composition_exact td R RC RD base :
  layout_ok td R RC RD -> categories_valid td -> 0 <= base -> base + td_region_size td <= 2 ^ 52 ->
  exists c, tracking_region_composition td base = Some c /\
    (c <> mc_diverse -> homogeneous td base (base + td_region_size td) c) /\
    (c = mc_diverse -> forall c', ~ homogeneous td base (base + td_region_size td) c').
Proof.
  intros HLO Hcat Hb Ht. unfold tracking_region_composition. rewrite (get_size_eq td R RC RD HLO).
  cbn [mbind option_bind]. unfold add64.
  assert (Hrs : 0 < td_region_size td) by (destruct (region_size_cases _ (lo_size _ _ _ _ HLO)); lia).
  rewrite u64_small by (unfold in_u64; lia).
  destruct (composition_loop_ok td R RC RD HLO (base + td_region_size td)
    (S (S (length (td_conv_banks td ++ td_dev_banks td)))) base None) as (c & Hrun & Hgood & Hbad);
    try done; try lia.
  { unfold ahead. pose proof (length_filter (fun b => base < b_base b + b_size b) (td_conv_banks td ++ td_dev_banks td)). lia. }
  exists c. split; [done|]. split; [intros Hc; by apply Hgood|]. intros Hc c'. apply Hbad; [done|by left].
Qed.

(** ** Concrete instances *)


Lemma tracking_region_composition_exact_witness :
  exists c, tracking_region_composition demo_td' 0x90000000 = Some c /\
    (c = mc_diverse -> forall c', ~ homogeneous demo_td' 0x90000000 0x90200000 c').
Proof.
  destruct demo_layout as (R & RC & RD & HL).
  destruct (tracking_region_composition_exact demo_td' R RC RD 0x90000000 HL) as (c & H1 & _ & H2).
  - intros b Hb. apply elem_of_cons in Hb as [->|Hb]; [by exists mc_conv|].
    apply elem_of_cons in Hb as [->|Hb]; [by exists mc_conv|].
    apply list_elem_of_singleton in Hb as ->. by exists mc_dev_ncoh.
  - cbv; congruence.
  - cbv; congruence.
  - exists c. split; [exact H1|exact H2].
Defined.

(** The region is diverse: it has a hole between the two banks. *)
Example demo_diverse : tracking_region_composition demo_td' 0x90000000 = Some mc_diverse.
Proof. reflexivity. Qed.
