(* ===== verification/TrGranule.v ===== *)
(** * Finding and locking granules ([lib/granule/src/tr_granule.c])

    A physical address is looked up in its tracking region, at the granularity
    the region is tracked at, and the granule found is locked if it is in the
    expected state.  Several granules are locked in a global order, all or none.
    The region's reader lock is held only inside one lookup, so a single PE's run
    does not see it. *)

From Stdlib Require Import ZArith Lia Bool ZifyBool Sorting.Sorted Permutation.
From stdpp Require Import base tactics option list numbers gmap sorting.
From S2P Require Import Prelude.
From S2P Require Import Utils.
From S2P Require Import Status.
From S2P Require Import Granule.
From S2P Require Import Mem.
From S2P Require Import Sort.
From S2P Require Import TrBanks.
From S2P Require Import TrLookup.

Definition trs_reserved : Z := 0.
Definition trs_none : Z := 1.
Definition trs_fine : Z := 2.
Definition trs_coarse : Z := 3.

Definition F_TR_STATE : regfield := Field 0 2.
Definition F_TR_MEM_CAT : regfield := Field 2 2.
Definition TR_TRANSITION_BIT : Z := 16.
Definition TR_GRANULE_SET_MAX : Z := 3.

(** On the descriptor byte of a [struct tracking_region]. *)
Definition tracking_region_get_state (descriptor : Z) : Z := EXTRACT F_TR_STATE descriptor.
Definition tracking_region_transition_pending (descriptor : Z) : bool :=
  negb (Z.land descriptor TR_TRANSITION_BIT =? 0).

(** The name of the coarse granule of region [tr]. *)
Definition coarse_granule (tr : Z) : Z := - 1 - tr.

Section TrGranule.
(** The layout and the descriptor bytes of the region array ([None]: the array
    is not there yet). *)
Context (td : tracking_region_data) (regions : option (list Z)).

Definition tr_tracking_size_valid (size : Z) : option bool :=
  if size =? GRANULE_SIZE then Some true
  else region_size ← tracking_region_get_size td; Some (size =? region_size).

Definition tr_encode_lookup_result (ret addr : Z) : option Z :=
  if ret =? RMI_ERROR_TRACKING then pack_return_code_level_addr RMI_ERROR_TRACKING 0 addr
  else Some ret.

Definition tr_active_tracking_size (descriptor : Z) : option (Z * option Z) :=
  if tracking_region_transition_pending descriptor then Some (RMI_BLOCKED, None)
  else
    let state := tracking_region_get_state descriptor in
    if state =? trs_fine then Some (RMI_SUCCESS, Some GRANULE_SIZE)
    else if state =? trs_coarse then
      size ← tracking_region_get_size td; Some (RMI_SUCCESS, Some size)
    else Some (RMI_ERROR_TRACKING, None).

(** The region and its descriptor byte. *)
Definition tracking_region_find (addr : Z) (type : tr_mem_type) : option (option (Z * Z)) :=
  match regions with
  | None => Some None
  | Some l =>
      '(idx, _) ← tracking_region_addr_to_idx td addr type;
      if td_num_tracking_regions td <=? idx then Some None
      else descriptor ← arr_get l idx; Some (Some (idx, descriptor))
  end.

Definition tr_select_granule (tr : Z * Z) (addr tracking_size : Z) : option (Z * option Z) :=
  let '(i, descriptor) := tr in
  if tracking_region_transition_pending descriptor then Some (RMI_BLOCKED, None)
  else
    region_size ← tracking_region_get_size td;
    if tracking_size =? region_size then
      if negb (tracking_region_get_state descriptor =? trs_coarse) then Some (RMI_ERROR_TRACKING, None)
      else Some (RMI_SUCCESS, Some (coarse_granule i))
    else if negb (tracking_region_get_state descriptor =? trs_fine) then Some (RMI_ERROR_TRACKING, None)
    else
      '(idx, _) ← tracking_region_fine_addr_to_idx td addr TR_MEM_TYPE_CONV;
      if idx =? UINT64_MAX then Some (RMI_ERROR_INPUT, None)
      else g ← tr_fine_granule_from_idx td idx; Some (RMI_SUCCESS, Some g).

Definition tr_find_granule (addr tracking_size : Z) : option (Z * option Z) :=
  valid ← (if GRANULE_ALIGNED addr then tr_tracking_size_valid tracking_size else Some false);
  if negb valid then Some (RMI_ERROR_INPUT, None)
  else
    tr ← tracking_region_find addr TR_MEM_TYPE_CONV;
    match tr with
    | None => Some (RMI_ERROR_INPUT, None)
    | Some tr =>
        '(ret, g) ← tr_select_granule tr addr tracking_size;
        ret ← tr_encode_lookup_result ret addr; Some (ret, g)
    end.

Definition tr_find_lock_granule_read_locked (tr : Z * Z) (addr tracking_size expected_state : Z)
    : M (Z * option Z) :=
  r <-! lift (tr_select_granule tr addr tracking_size) ;;
  match r with
  | (_, Some g) =>
      ok <-! granule_lock_on_state_match g expected_state ;;
      if ok : bool then ret (RMI_SUCCESS, Some g) else ret (RMI_ERROR_INPUT, None)
  | (status, None) => ret (status, None)
  end.

Definition tr_find_lock_granule (addr tracking_size expected_state : Z) : M (Z * option Z) :=
  valid <-! lift (if GRANULE_ALIGNED addr then tr_tracking_size_valid tracking_size else Some false) ;;
  if negb valid then ret (RMI_ERROR_INPUT, None)
  else
    tr <-! lift (tracking_region_find addr TR_MEM_TYPE_CONV) ;;
    match tr with
    | None => ret (RMI_ERROR_INPUT, None)
    | Some tr =>
        r <-! tr_find_lock_granule_read_locked tr addr tracking_size expected_state ;;
        status <-! lift (tr_encode_lookup_result (fst r) addr) ;;
        ret (status, snd r)
    end.

(** Result, granule and the size it stands for. *)
Definition tr_find_lock_active_granule (addr expected_state : Z) : M (Z * option Z * option Z) :=
  r <-!
    (if negb (GRANULE_ALIGNED addr) then ret (RMI_ERROR_INPUT, None, None)
     else
       tr <-! lift (tracking_region_find addr TR_MEM_TYPE_CONV) ;;
       match tr with
       | None => ret (RMI_ERROR_INPUT, None, None)
       | Some (i, descriptor) =>
           sz <-! lift (tr_active_tracking_size descriptor) ;;
           match sz with
           | (_, Some tracking_size) =>
               r <-! tr_find_lock_granule_read_locked (i, descriptor) addr tracking_size expected_state ;;
               ret (fst r, snd r, Some tracking_size)
           | (status, None) => ret (status, None, None)
           end
       end) ;;
  let '(status, g, size) := r in
  status <-! lift (tr_encode_lookup_result status addr) ;;
  ret (status, g, size).

(** ** Sets of granules *)

Record tr_granule_set := GranuleSet { gs_addr : Z; gs_state : Z; gs_ret : nat }.

Definition tr_granule_lock_order (state : Z) : option Z :=
  if state =? GRANULE_STATE_RD then Some 0
  else if state =? GRANULE_STATE_REC then Some 1
  else if state =? GRANULE_STATE_PDEV then Some 2
  else if state =? GRANULE_STATE_VDEV then Some 3
  else if state =? GRANULE_STATE_RTT then Some 4
  else if state =? GRANULE_STATE_DELEGATED then Some 5
  else if state =? GRANULE_STATE_NS then Some 6
  else if state =? GRANULE_STATE_DATA then Some 7
  else if state =? GRANULE_STATE_REC_AUX then Some 8
  else if state =? GRANULE_STATE_PDEV_AUX then Some 9
  else if state =? GRANULE_STATE_VDEV_AUX then Some 10
  else if state =? GRANULE_STATE_INTERNAL then Some 11
  else if state =? GRANULE_STATE_PSMMU_ST_L2 then Some 12
  else if state =? GRANULE_STATE_RD_AUX then Some 13
  else if state =? GRANULE_STATE_PARTIAL then Some 14
  else None.

(** The comparison assumes valid states: [tr_sort_granules] checks them first. *)
Definition tr_granule_set_after (a b : tr_granule_set) : bool :=
  let order_a := default 0 (tr_granule_lock_order (gs_state a)) in
  let order_b := default 0 (tr_granule_lock_order (gs_state b)) in
  if negb (order_a =? order_b) then order_b <? order_a else gs_addr b <? gs_addr a.

Fixpoint tr_granule_set_has_duplicate_addr (gs : list tr_granule_set) : bool :=
  match gs with
  | [] => false
  | a :: rest => existsb (fun b => gs_addr a =? gs_addr b) rest || tr_granule_set_has_duplicate_addr rest
  end.

(** A state without a place in the order fails the assertion of
    [tr_granule_lock_order] as soon as it is compared. *)
Definition tr_sort_granules (gs : list tr_granule_set) : option (list tr_granule_set) :=
  assert (match gs with [_] => true
          | _ => forallb (fun e => bool_decide (is_Some (tr_granule_lock_order (gs_state e)))) gs end) ;;
  Some (insertion_sort tr_granule_set_after gs).

(** The error path: unlock the granules acquired, the last one first. *)
Fixpoint unlock_all (acquired : list (nat * Z)) : M unit :=
  match acquired with
  | [] => ret tt
  | (_, g) :: rest => _ <-! m_granule_unlock g ;; unlock_all rest
  end.

Fixpoint lock_granules_loop (gs : list tr_granule_set) (acquired : list (nat * Z))
    : M (Z * list (nat * Z)) :=
  match gs with
  | [] => ret (RMI_SUCCESS, acquired)
  | e :: rest =>
      r <-! tr_find_lock_granule (gs_addr e) GRANULE_SIZE (gs_state e) ;;
      match r with
      | (_, Some g) => lock_granules_loop rest ((gs_ret e, g) :: acquired)
      | (status, None) => _ <-! unlock_all acquired ;; ret (status, [])
      end
  end.

(** The loop that keeps address validation ahead of acquisition. *)
Fixpoint addrs_valid (gs : list tr_granule_set) : option bool :=
  match gs with
  | [] => Some true
  | e :: rest =>
      if negb (GRANULE_ALIGNED (gs_addr e)) then Some false
      else
        tr ← tracking_region_find (gs_addr e) TR_MEM_TYPE_CONV;
        match tr with None => Some false | Some _ => addrs_valid rest end
  end.

Definition tr_find_lock_fine_granules (gs : list tr_granule_set) : M (Z * list (nat * Z)) :=
  let n := Z.of_nat (length gs) in
  _ <-! guard ((0 <? n) && (n <=? TR_GRANULE_SET_MAX)) ;;
  if tr_granule_set_has_duplicate_addr gs then ret (RMI_ERROR_INPUT, [])
  else
    valid <-! lift (addrs_valid gs) ;;
    if negb valid then ret (RMI_ERROR_INPUT, [])
    else
      gs <-! lift (tr_sort_granules gs) ;;
      lock_granules_loop gs [].

(** Status and the two granules. *)
Definition tr_find_lock_two_fine_granules (addr1 expected_state1 addr2 expected_state2 : Z)
    : M (Z * option Z * option Z) :=
  r <-! tr_find_lock_fine_granules
          [GranuleSet addr1 expected_state1 0; GranuleSet addr2 expected_state2 1] ;;
  let '(status, outs) := r in
  let out i := snd <$> List.find (fun p => Nat.eqb (fst p) i) outs in
  ret (status, out 0%nat, out 1%nat).

Definition tr_find_lock_three_fine_granules (addr1 expected_state1 addr2 expected_state2
    addr3 expected_state3 : Z) : M (Z * option Z * option Z * option Z) :=
  r <-! tr_find_lock_fine_granules
          [GranuleSet addr1 expected_state1 0; GranuleSet addr2 expected_state2 1;
           GranuleSet addr3 expected_state3 2] ;;
  let '(status, outs) := r in
  let out i := snd <$> List.find (fun p => Nat.eqb (fst p) i) outs in
  ret (status, out 0%nat, out 1%nat, out 2%nat).

(** ** What a lookup finds *)

Context (R RC RD : list Z) (HLO : layout_ok td R RC RD).
Context (l : list Z) (Hreg : regions = Some l) (Hlen : Z.of_nat (length l) = td_num_tracking_regions td).
Context (Hnum : td_num_tracking_regions td <> 0).

Definition conventional (addr : Z) : Prop := exists b, b ∈ td_conv_banks td /\ in_bank addr b.

(** [d] is the descriptor of the region of [addr], [i] its index. *)
Definition region_of (addr i d : Z) : Prop :=
  R !! Z.to_nat i = Some (addr / td_region_size td) /\ 0 <= i /\ l !! Z.to_nat i = Some d.

(** The result of a lookup, by the reason for it. *)
Inductive lookup_result (addr size : Z) : Z * option Z -> Prop :=
  | lookup_input :
      GRANULE_ALIGNED addr = false \/ (size <> GRANULE_SIZE /\ size <> td_region_size td) \/
        ~ conventional addr ->
      lookup_result addr size (RMI_ERROR_INPUT, None)
  | lookup_blocked i d : GRANULE_ALIGNED addr = true -> conventional addr -> region_of addr i d ->
      tracking_region_transition_pending d = true ->
      lookup_result addr size (RMI_BLOCKED, None)
  | lookup_tracking i d packed : GRANULE_ALIGNED addr = true -> conventional addr -> region_of addr i d ->
      tracking_region_transition_pending d = false ->
      (size = td_region_size td /\ tracking_region_get_state d <> trs_coarse \/
       size = GRANULE_SIZE /\ tracking_region_get_state d <> trs_fine) ->
      pack_return_code_level_addr RMI_ERROR_TRACKING 0 addr = Some packed ->
      lookup_result addr size (packed, None)
  | lookup_coarse i d : GRANULE_ALIGNED addr = true -> conventional addr -> region_of addr i d ->
      tracking_region_transition_pending d = false ->
      size = td_region_size td -> tracking_region_get_state d = trs_coarse ->
      lookup_result addr size (RMI_SUCCESS, Some (coarse_granule i))
  | lookup_fine i d g : GRANULE_ALIGNED addr = true -> conventional addr -> region_of addr i d ->
      tracking_region_transition_pending d = false ->
      size = GRANULE_SIZE -> tracking_region_get_state d = trs_fine ->
      tr_addr_to_granule td addr = Some g -> 0 <= g < td_num_tracking_granules td ->
      lookup_result addr size (RMI_SUCCESS, Some g).

Lemma size_valid_eq size :
  tr_tracking_size_valid size = Some ((size =? GRANULE_SIZE) || (size =? td_region_size td)).
Proof.
  unfold tr_tracking_size_valid. destruct (size =? GRANULE_SIZE); [done|].
  by rewrite (get_size_eq td R RC RD HLO).
Qed.

Lemma region_find_ok addr :
  GRANULE_ALIGNED addr = true ->
  exists r, tracking_region_find addr TR_MEM_TYPE_CONV = Some r /\
    match r with
    | Some (i, d) => conventional addr /\ region_of addr i d
    | None => ~ conventional addr
    end.
Proof.
  intros Hal. unfold tracking_region_find. rewrite Hreg. unfold tracking_region_addr_to_idx.
  rewrite (proj2 (Z.eqb_neq _ _) Hnum), Hal. cbn [negb].
  destruct (find_addr_ok td R RC RD HLO addr TR_MEM_TYPE_CONV) as (res & -> & Hspec). cbn [mbind option_bind].
  destruct (slots_length td R RC RD HLO TR_MEM_TYPE_CONV) as [_ HlR]. pose proof (lo_regions _ _ _ _ HLO) as Hnr.
  destruct res as [[[b ti] gi]|].
  - destruct Hspec as (Hb & Hin & HR & Hti & _). cbn [mbind option_bind].
    rewrite (proj2 (Z.leb_gt _ _)) by lia.
    destruct (arr_get_some l ti ltac:(lia)) as [d Hd]. rewrite Hd. cbn [mbind option_bind].
    exists (Some (ti, d)). split; [done|]. split; [by exists b|]. unfold arr_get in Hd.
    rewrite (proj2 (Z.leb_le _ _)) in Hd by lia. split_and!; done || lia.
  - cbn [mbind option_bind]. rewrite (proj2 (Z.leb_le _ _)) by (unfold UINT64_MAX; lia). exists None. split; [done|].
    intros (b & Hb & Hin). by apply (Hspec b).
Qed.

Lemma fine_lookup_ok addr :
  GRANULE_ALIGNED addr = true -> conventional addr ->
  exists g c, tracking_region_fine_addr_to_idx td addr TR_MEM_TYPE_CONV = Some (g, c) /\
    g <> UINT64_MAX /\ tr_fine_granule_from_idx td g = Some g /\
    tr_addr_to_granule td addr = Some g /\ 0 <= g < td_num_tracking_granules td.
Proof.
  intros Hal (b & Hb & Hin).
  destruct (fine_addr_to_idx_ok td R RC RD HLO addr TR_MEM_TYPE_CONV b Hb Hin Hal)
    as (s & o & _ & _ & _ & Hidx & Hr & Hmax). cbn [num_granules_of] in Hr, Hmax.
  set (g := stride_of td TR_MEM_TYPE_CONV * Z.of_nat s + o) in *.
  exists g, (Some (b_category b)). unfold tr_addr_to_granule, tr_fine_granule_from_idx.
  rewrite Hal, Hidx. cbn [mbind option_bind].
  rewrite (proj2 (Z.ltb_lt g _)), (proj2 (Z.eqb_neq g UINT64_MAX)) by lia. split_and!; done || lia.
Qed.

Lemma pack_tracking_some addr :
  GRANULE_ALIGNED addr = true -> conventional addr ->
  exists p, pack_return_code_level_addr RMI_ERROR_TRACKING 0 addr = Some p /\ p <> RMI_SUCCESS.
Proof.
  intros Hal (b & Hb & Hin). pose proof (tl_wf _ _ _ _ _ (lo_conv _ _ _ _ HLO)) as Hwf.
  rewrite Forall_forall in Hwf. destruct (Hwf b Hb). unfold in_bank in Hin.
  assert (Hs : Z.shiftr addr GRANULE_SHIFT < 2 ^ 40).
  { rewrite Z.shiftr_div_pow2 by (unfold GRANULE_SHIFT; lia). apply Z.div_lt_upper_bound; unfold GRANULE_SHIFT; lia. }
  apply pack_level_addr_some; [done|lia|lia|]. unfold result_addr_ok. apply andb_true_iff.
  split; [exact Hal|]. apply Z.ltb_lt. exact Hs.
Qed.

Lemma select_ok addr size i d :
  GRANULE_ALIGNED addr = true -> conventional addr -> region_of addr i d ->
  size = GRANULE_SIZE \/ size = td_region_size td ->
  exists s g, tr_select_granule (i, d) addr size = Some (s, g) /\
    exists p, tr_encode_lookup_result s addr = Some p /\ lookup_result addr size (p, g) /\
      (is_Some g -> s = RMI_SUCCESS /\ p = RMI_SUCCESS).
Proof.
  intros Hal Hcv Hrd Hsz. unfold tr_select_granule.
  destruct (tracking_region_transition_pending d) eqn:Ep.
  { exists RMI_BLOCKED, None. split; [done|]. exists RMI_BLOCKED. split; [done|].
    split; [by apply (lookup_blocked _ _ i d)|by intros []]. }
  rewrite (get_size_eq td R RC RD HLO). cbn [mbind option_bind].
  destruct (pack_tracking_some addr Hal Hcv) as (p & Hp & Hp0).
  assert (Hgs : GRANULE_SIZE <> td_region_size td).
  { destruct (region_size_cases _ (lo_size _ _ _ _ HLO)) as [-> | ->]; done. }
  destruct (Z.eqb_spec size (td_region_size td)) as [->|Hne].
  - destruct (Z.eqb_spec (tracking_region_get_state d) trs_coarse) as [Hst|Hst]; cbn [negb].
    + exists RMI_SUCCESS, (Some (coarse_granule i)). split; [done|]. exists RMI_SUCCESS.
      split; [done|]. split; [by apply (lookup_coarse _ _ i d)|done].
    + exists RMI_ERROR_TRACKING, None. split; [done|]. exists p. split; [done|].
      split; [|by intros []]. apply (lookup_tracking _ _ i d); try done. by left.
  - destruct Hsz as [->|]; [|done].
    destruct (Z.eqb_spec (tracking_region_get_state d) trs_fine) as [Hst|Hst]; cbn [negb].
    + destruct (fine_lookup_ok addr Hal Hcv) as (g & c & -> & Hmax & Hfrom & Hg & Hr). cbn [mbind option_bind].
      rewrite (proj2 (Z.eqb_neq _ _)), Hfrom by done. cbn [mbind option_bind].
      exists RMI_SUCCESS, (Some g). split; [done|]. exists RMI_SUCCESS. split; [done|].
      split; [by apply (lookup_fine _ _ i d g)|done].
    + exists RMI_ERROR_TRACKING, None. split; [done|]. exists p. split; [done|].
      split; [|by intros []]. apply (lookup_tracking _ _ i d); try done. by right.
Qed.

Lemma find_granule_ok addr size :
  exists r, tr_find_granule addr size = Some r /\ lookup_result addr size r /\
    (forall g, snd r = Some g -> fst r = RMI_SUCCESS).
Proof.
  unfold tr_find_granule. destruct (GRANULE_ALIGNED addr) eqn:Hal.
  2: { exists (RMI_ERROR_INPUT, None). split; [done|]. split; [by constructor; left|done]. }
  rewrite size_valid_eq. cbn [mbind option_bind].
  destruct ((size =? GRANULE_SIZE) || (size =? td_region_size td)) eqn:Hsz; cbn [negb].
  2: { exists (RMI_ERROR_INPUT, None). split; [done|]. split; [|done]. constructor. right. left. lia. }
  destruct (region_find_ok addr Hal) as (r & -> & Hr). cbn [mbind option_bind]. destruct r as [[i d]|].
  2: { exists (RMI_ERROR_INPUT, None). split; [done|]. split; [|done]. constructor. by right; right. }
  destruct Hr as [Hcv Hrd].
  destruct (select_ok addr size i d Hal Hcv Hrd ltac:(lia)) as (st & g & Hsel & p & Hp & Hlk & Hsucc).
  exists (p, g). rewrite Hsel. cbn [mbind option_bind]. rewrite Hp. split; [done|]. split; [done|].
  intros g' Hg'. cbn [fst snd] in *. subst g. by apply Hsucc.
Qed.

(** Locking is looking up, then taking the lock if the state matches. *)
Lemma find_lock_ok m addr size s :
  exists r, tr_find_granule addr size = Some r /\ lookup_result addr size r /\
    forall a, (forall g, snd r = Some g -> granule_at m g a) ->
    tr_find_lock_granule addr size s m =
      match r with
      | (status, Some g) =>
          if negb (a_state a =? s) then Some ((RMI_ERROR_INPUT, None), m)
          else if a_locked a then None else Some ((RMI_SUCCESS, Some g), set_granule m g (locked a))
      | (status, None) => Some ((status, None), m)
      end.
Proof.
  destruct (find_granule_ok addr size) as (r & Hfind & Hlk & _). exists r. split; [done|]. split; [done|].
  intros a Ha. revert Hfind. unfold tr_find_granule, tr_find_lock_granule, bind at 1, lift.
  destruct (GRANULE_ALIGNED addr) eqn:Hal; [|by intros [= <-]].
  rewrite size_valid_eq. cbn [mbind option_bind].
  destruct ((size =? GRANULE_SIZE) || (size =? td_region_size td)) eqn:Hsz; cbn [negb]; [|by intros [= <-]].
  unfold bind at 1. destruct (region_find_ok addr Hal) as (x & -> & Hr). cbn [mbind option_bind].
  destruct x as [[i d]|]; [|by intros [= <-]]. destruct Hr as [Hcv Hrd].
  destruct (select_ok addr size i d Hal Hcv Hrd ltac:(lia)) as (st & g & Hsel & p & Hp & _ & Hsucc).
  rewrite Hsel. cbn [mbind option_bind]. rewrite Hp. cbn [mbind option_bind]. intros [= <-].
  unfold bind at 1, tr_find_lock_granule_read_locked, bind at 1, lift. rewrite Hsel. destruct g as [g|].
  - destruct (Hsucc ltac:(by eexists)) as [-> ->]. specialize (Ha g eq_refl).
    unfold bind at 1. rewrite (lock_on_state_match_ok m g a s Ha).
    destruct (a_state a =? s); cbn [negb]; [|done]. by destruct (a_locked a).
  - unfold ret at 1, bind at 1. cbn [fst snd]. rewrite Hp. done.
Qed.

Lemma lookup_none_error addr size s : lookup_result addr size (s, None) -> s <> RMI_SUCCESS.
Proof.
  inversion 1 as [|?|? ? ? Hal Hcv ? ? ? Hp|?|?]; subst; try done.
  destruct (pack_tracking_some addr Hal Hcv) as (p & Hp' & Hne). congruence.
Qed.

(** ** Several granules: all or none *)

(** [m'] is [m] with the granules of [acq] locked. *)
Record held (m m' : mem) (acq : list (nat * Z)) : Prop := {
  held_tables : tables m' = tables m;
  held_nodup : NoDup (acq.*2);
  held_in : forall g, g ∈ acq.*2 -> exists a, granule_at m g a /\ a_locked a = false /\ granule_at m' g (locked a);
  held_out : forall g, g ∉ acq.*2 -> descs m' !! g = descs m !! g
}.

Lemma held_nil m : held m m [].
Proof. split; try done; [constructor|]. intros g Hg. inversion Hg. Qed.

Lemma locked_wf m g a : granule_at m g a -> a_wf GRN (locked a) /\ ref_ok (a_state a) (a_ref a) = true.
Proof. intros (_ & Hwf & Hok). done. Qed.

Lemma held_cons m m' acq n g a :
  held m m' acq -> g ∉ acq.*2 -> granule_at m g a -> a_locked a = false ->
  held m (set_granule m' g (locked a)) ((n, g) :: acq).
Proof.
  intros [Ht Hnd Hin Hout] Hg Ha Hl. destruct (locked_wf m g a Ha) as [Hwf Hok].
  split; cbn [fmap list_fmap fst snd]; [done|by constructor| |].
  - intros g' [->|Hg']%elem_of_cons.
    + exists a. split_and!; try done. apply granule_at_set; try done. by left.
    + destruct (Hin g' Hg') as (a' & H1 & H2 & H3). exists a'. split_and!; try done.
      apply granule_at_set; try done. right. split; [by intros ->|done].
  - intros g' [Hne Hg']%not_elem_of_cons. cbn [set_granule descs]. by rewrite lookup_insert_ne, Hout by done.
Qed.

Lemma unlock_all_ok m acq : forall m', held m m' acq -> unlock_all acq m' = Some (tt, m).
Proof.
  induction acq as [|[n g] acq IH]; intros m' [Ht Hnd Hin Hout]; cbn [unlock_all fmap list_fmap fst snd] in *.
  - assert (m' = m) as ->; [|done]. destruct m as [ds ts], m' as [ds' ts']. cbn [tables descs] in *. subst ts'. f_equal.
    apply map_eq. intros g. apply Hout. apply not_elem_of_nil.
  - apply NoDup_cons in Hnd as [Hng Hnd]. destruct (Hin g (list_elem_of_here _ _)) as (a & Ha & Hl & Ha').
    unfold bind. rewrite (m_granule_unlock_ok m' g (locked a) Ha' eq_refl).
    apply IH. destruct Ha as (Hd & Hwf & Hok).
    assert (Hun : unlocked (locked a) = a) by (destruct a; cbn in *; by subst).
    rewrite Hun. split; [done|done| |].
    + intros g' Hg'. destruct (Hin g' (list_elem_of_further _ _ _ Hg')) as (a' & H1 & H2 & H3).
      exists a'. split_and!; try done. apply granule_at_set; try done. right. split; [by intros ->|done].
    + intros g' Hg'. cbn [set_granule descs]. destruct (decide (g' = g)) as [->|Hne].
      * by rewrite lookup_insert_eq.
      * rewrite lookup_insert_ne by done. apply Hout. apply not_elem_of_cons. by split.
Qed.

(** Every granule of the request is there and unlocked. *)
Definition available (m : mem) (gs : list tr_granule_set) : Prop :=
  forall e g, e ∈ gs -> tr_addr_to_granule td (gs_addr e) = Some g ->
    exists a, granule_at m g a /\ a_locked a = false.

(** What a granule of the request was when it was locked. *)
Definition granted (m : mem) (outs : list (nat * Z)) (e : tr_granule_set) : Prop :=
  exists g a, (gs_ret e, g) ∈ outs /\ tr_addr_to_granule td (gs_addr e) = Some g /\
    granule_at m g a /\ a_state a = gs_state e.

(** The granule can be had: the lookup finds one, and it is in the expected state. *)
Definition obtainable (m : mem) (e : tr_granule_set) : Prop :=
  exists g a, tr_find_granule (gs_addr e) GRANULE_SIZE = Some (RMI_SUCCESS, Some g) /\
    granule_at m g a /\ a_state a = gs_state e.

Lemma lock_loop_ok m gs : forall m' acq,
  held m m' acq -> available m gs -> NoDup (gs_addr <$> gs) ->
  (forall e g, e ∈ gs -> tr_addr_to_granule td (gs_addr e) = Some g -> g ∉ acq.*2) ->
  exists s outs m2, lock_granules_loop gs acq m' = Some ((s, outs), m2) /\
    ((s = RMI_SUCCESS /\ held m m2 outs /\ acq ⊆ outs /\ length outs = (length gs + length acq)%nat /\
      Forall (granted m outs) gs) \/
     (s <> RMI_SUCCESS /\ outs = [] /\ m2 = m /\ exists e, e ∈ gs /\ ~ obtainable m e)).
Proof.
  induction gs as [|e gs IH]; intros m' acq Hh Hav Hnd Hfr; cbn [lock_granules_loop].
  { exists RMI_SUCCESS, acq, m'. split; [done|]. left. split_and!; try done. }
  cbn [fmap list_fmap] in Hnd. apply NoDup_cons in Hnd as [Hne Hnd].
  destruct (find_lock_ok m' (gs_addr e) GRANULE_SIZE (gs_state e)) as ([s og] & Hfind & Hlk & Hrun).
  assert (Hfail : forall s0, s0 <> RMI_SUCCESS -> ~ obtainable m e ->
    tr_find_lock_granule (gs_addr e) GRANULE_SIZE (gs_state e) m' = Some ((s0, None), m') ->
    exists s outs m2, lock_granules_loop (e :: gs) acq m' = Some ((s, outs), m2) /\
      s <> RMI_SUCCESS /\ outs = [] /\ m2 = m /\ exists e', e' ∈ e :: gs /\ ~ obtainable m e').
  { intros s0 Hs0 Hno Hr. exists s0, [], m. cbn [lock_granules_loop]. unfold bind at 1. rewrite Hr.
    unfold bind. rewrite (unlock_all_ok m acq m' Hh). split_and!; try done.
    exists e. split; [apply list_elem_of_here|done]. }
  destruct og as [g|].
  2: { destruct (Hfail s) as (s1 & outs & m2 & H1 & H2); [by eapply lookup_none_error| | |].
       { intros (g & a & Hg & _). congruence. }
       { apply (Hrun (AGranule false 0 0)). done. }
       exists s1, outs, m2. split; [done|by right]. }
  assert (Hg : tr_addr_to_granule td (gs_addr e) = Some g).
  { inversion Hlk as [|?|?|? ? ? ? ? ? Hsz|?]; subst; [|done].
    destruct (region_size_cases _ (lo_size _ _ _ _ HLO)) as [Hx|Hx]; rewrite Hx in Hsz; discriminate Hsz. }
  destruct (Hav e g (list_elem_of_here _ _) Hg) as (a & Ha & Hl).
  assert (Hgn : g ∉ acq.*2) by (by apply (Hfr e g (list_elem_of_here _ _))).
  assert (Ha' : granule_at m' g a).
  { destruct Ha as (Hd & ? & ?). split; [|done]. by rewrite (held_out _ _ _ Hh). }
  specialize (Hrun a ltac:(intros g' [= <-]; done)). cbn [snd] in Hrun.
  destruct (Z.eqb_spec (a_state a) (gs_state e)) as [Hst|Hst]; cbn [negb] in Hrun.
  2: { destruct (Hfail RMI_ERROR_INPUT) as (s1 & outs & m2 & H1 & H2); [done| |done|].
       { intros (g' & a' & Hg' & Hat & Hst'). rewrite Hfind in Hg'. injection Hg' as _ <-.
         rewrite (granule_at_inj m g a' a Hat Ha) in Hst'. done. }
       exists s1, outs, m2. split; [done|by right]. }
  rewrite Hl in Hrun. unfold bind at 1. rewrite Hrun.
  destruct (IH (set_granule m' g (locked a)) ((gs_ret e, g) :: acq)) as (s2 & outs & m2 & Hloop & Hres).
  - by apply held_cons.
  - intros e' g' He'. apply Hav. by apply list_elem_of_further.
  - done.
  - intros e' g' He' Hg'. cbn [fmap list_fmap snd]. apply not_elem_of_cons. split.
    + intros ->. apply Hne. apply list_elem_of_fmap. exists e'. split; [|done].
      pose proof (granule_addr_inverse td R RC RD _ _ HLO Hg) as E1.
      pose proof (granule_addr_inverse td R RC RD _ _ HLO Hg') as E2. congruence.
    + apply (Hfr e' g'); [by apply list_elem_of_further|done].
  - exists s2, outs, m2. split; [done|]. destruct Hres as [(-> & Hh2 & Hsub & Hlen2 & Hall)|(? & ? & ? & e' & ? & ?)]; [left|right].
    2: { split_and!; try done. exists e'. split; [by apply list_elem_of_further|done]. }
    split_and!; try done.
    + intros x Hx. apply Hsub. by apply list_elem_of_further.
    + cbn [length] in *. lia.
    + constructor; [|done]. exists g, a. split_and!; try done. apply Hsub, list_elem_of_here.
Qed.

Lemma addrs_valid_ok gs :
  exists v, addrs_valid gs = Some v /\
    (v = false -> exists e, e ∈ gs /\ forall m, ~ obtainable m e).
Proof.
  induction gs as [|e gs (v & IH & IHv)]; cbn [addrs_valid]; [by exists true|].
  assert (Hno : GRANULE_ALIGNED (gs_addr e) = false \/ ~ conventional (gs_addr e) -> forall m, ~ obtainable m e).
  { intros Hbad m (g & a & Hf & _). destruct (find_granule_ok (gs_addr e) GRANULE_SIZE) as (r & Hr & Hlk & _).
    rewrite Hf in Hr. injection Hr as <-.
    inversion Hlk as [|?|?|? ? Hal Hcv|? ? ? Hal Hcv]; subst; destruct Hbad; congruence || done. }
  destruct (GRANULE_ALIGNED (gs_addr e)) eqn:Hal; cbn [negb].
  - destruct (region_find_ok (gs_addr e) Hal) as (r & -> & Hr). cbn [mbind option_bind]. destruct r as [[j d]|].
    + exists v. split; [done|]. intros Hv. destruct (IHv Hv) as (e' & He' & Hn).
      exists e'. split; [by apply list_elem_of_further|done].
    + exists false. split; [done|]. intros _. exists e. split; [apply list_elem_of_here|]. apply Hno. by right.
  - exists false. split; [done|]. intros _. exists e. split; [apply list_elem_of_here|]. apply Hno. by left.
Qed.

End TrGranule.

Lemma has_duplicate_spec gs :
  tr_granule_set_has_duplicate_addr gs = false <-> NoDup (gs_addr <$> gs).
Proof.
  induction gs as [|e gs IH]; cbn [tr_granule_set_has_duplicate_addr fmap list_fmap]; [by split; [constructor|]|].
  rewrite orb_false_iff, NoDup_cons, IH. apply and_iff_compat_r. rewrite <- not_true_iff_false.
  apply not_iff_compat. rewrite existsb_exists, list_elem_of_fmap. split.
  - intros (x & Hx & E). exists x. split; [lia|by apply list_elem_of_In].
  - intros (x & E & Hx). exists x. split; [by apply list_elem_of_In|lia].
Qed.

(** The global order: by state, then by address. *)
Definition lock_key (e : tr_granule_set) : Z := default 0 (tr_granule_lock_order (gs_state e)).
Definition lock_before (a b : tr_granule_set) : Prop :=
  lock_key a < lock_key b \/ (lock_key a = lock_key b /\ gs_addr a < gs_addr b).

Lemma sort_granules_ok gs :
  NoDup (gs_addr <$> gs) -> Forall (fun e => is_Some (tr_granule_lock_order (gs_state e))) gs ->
  exists gs', tr_sort_granules gs = Some gs' /\ gs' ≡ₚ gs /\ StronglySorted lock_before gs'.
Proof.
  intros Hnd Hst. exists (insertion_sort tr_granule_set_after gs). unfold tr_sort_granules.
  assert (Hall : forallb (fun e => bool_decide (is_Some (tr_granule_lock_order (gs_state e)))) gs = true).
  { apply forallb_forall. intros e He. rewrite Forall_forall in Hst.
    apply bool_decide_eq_true. apply Hst. by apply list_elem_of_In. }
  split; [by rewrite Hall; destruct gs as [|? [|? ?]]|]. split; [apply insertion_sort_perm|].
  assert (Hs : StronglySorted (in_order tr_granule_set_after) (insertion_sort tr_granule_set_after gs)).
  { apply insertion_sort_sorted; unfold tr_granule_set_after; fold (lock_key);
      intros; cbn [negb] in *; repeat case_match; lia. }
  assert (Hnd' : NoDup (gs_addr <$> insertion_sort tr_granule_set_after gs)) by (by rewrite insertion_sort_perm).
  clear -Hs Hnd'. induction Hs as [|e l Hl IH He]; [constructor|].
  cbn [fmap list_fmap] in Hnd'. apply NoDup_cons in Hnd' as [Hn Hnd].
  constructor; [by apply IH|]. rewrite Forall_forall in He |- *. intros e' He'. specialize (He e' He').
  assert (gs_addr e <> gs_addr e') by (intros E; apply Hn; rewrite E; apply list_elem_of_fmap; by exists e').
  unfold in_order, tr_granule_set_after in He. unfold lock_before, lock_key.
  repeat case_match; lia.
Qed.

(** C36: [tr_find_lock_granule] locks the granule that stands for the address at
    the requested granularity if it is in the expected state, and changes nothing
    else; an unaligned or unpopulated address or a wrong size or state is
    [RMI_ERROR_INPUT], a pending transition [RMI_BLOCKED], and a region tracked at
    another granularity [RMI_ERROR_TRACKING] carrying the address. *)
Theorem tr_find_lock_granule_correct td R RC RD l m addr size s :
  layout_ok td R RC RD -> Z.of_nat (length l) = td_num_tracking_regions td ->
  td_num_tracking_regions td <> 0 ->
  exists r, lookup_result td R l addr size r /\
    match r with
    | (status, None) => status <> RMI_SUCCESS /\
        tr_find_lock_granule td (Some l) addr size s m = Some ((status, None), m)
    | (status, Some g) => status = RMI_SUCCESS /\ forall a, granule_at m g a ->
        (a_state a <> s -> tr_find_lock_granule td (Some l) addr size s m = Some ((RMI_ERROR_INPUT, None), m)) /\
        (a_state a = s -> a_locked a = false ->
         tr_find_lock_granule td (Some l) addr size s m
           = Some ((RMI_SUCCESS, Some g), set_granule m g (locked a)))
    end.
Proof.
  intros HLO Hlen Hnum.
  destruct (find_lock_ok td (Some l) R RC RD HLO l eq_refl Hlen Hnum m addr size s) as ([st og] & Hfind & Hlk & Hrun).
  exists (st, og). split; [done|]. destruct og as [g|].
  - destruct (find_granule_ok td (Some l) R RC RD HLO l eq_refl Hlen Hnum addr size) as (r & Hr & _ & Hs).
    rewrite Hfind in Hr. injection Hr as <-. split; [by apply (Hs g)|]. intros a Ha.
    rewrite (Hrun a ltac:(by intros g' [= <-])). split.
    + intros Hne. by rewrite (proj2 (Z.eqb_neq _ _) Hne).
    + intros -> ->. by rewrite Z.eqb_refl.
  - split; [by eapply (lookup_none_error td R RC RD HLO l)|]. by apply (Hrun (AGranule false 0 0)).
Qed.

Lemma lock_fine_granules_ok td R RC RD l m gs :
  layout_ok td R RC RD -> Z.of_nat (length l) = td_num_tracking_regions td ->
  td_num_tracking_regions td <> 0 -> (1 <= length gs <= 3)%nat ->
  Forall (fun e => is_Some (tr_granule_lock_order (gs_state e))) gs -> available td m gs ->
  exists s outs m', tr_find_lock_fine_granules td (Some l) gs m = Some ((s, outs), m') /\
    (s = RMI_SUCCESS -> NoDup (gs_addr <$> gs) /\ held m m' outs /\ length outs = length gs /\
      Forall (granted td m outs) gs) /\
    (s <> RMI_SUCCESS -> outs = [] /\ m' = m) /\
    (NoDup (gs_addr <$> gs) -> Forall (obtainable td (Some l) m) gs -> s = RMI_SUCCESS) /\
    (NoDup (gs_addr <$> gs) ->
      exists gs', tr_sort_granules gs = Some gs' /\ gs' ≡ₚ gs /\ StronglySorted lock_before gs').
Proof.
  intros HLO Hlen Hnum Hn Hst Hav. unfold tr_find_lock_fine_granules, bind at 1, guard.
  assert (Hg : (0 <? Z.of_nat (length gs)) && (Z.of_nat (length gs) <=? TR_GRANULE_SET_MAX) = true)
    by (unfold TR_GRANULE_SET_MAX; lia).
  rewrite Hg.
  destruct (tr_granule_set_has_duplicate_addr gs) eqn:Hd.
  { exists RMI_ERROR_INPUT, [], m. split; [done|]. split; [done|]. split; [done|].
    split; intros Hnd%has_duplicate_spec; congruence. }
  apply has_duplicate_spec in Hd as Hnd.
  destruct (addrs_valid_ok td (Some l) R RC RD HLO l eq_refl Hlen Hnum gs) as (v & Hv & Hvbad).
  unfold bind at 1, lift. rewrite Hv.
  destruct (sort_granules_ok gs Hnd Hst) as (gs' & Hsort & Hperm & Hss). destruct v; cbn [negb].
  2: { exists RMI_ERROR_INPUT, [], m. split; [done|]. split; [done|]. split; [done|]. split; [|by intros _; exists gs'].
       intros _ Hob. destruct (Hvbad eq_refl) as (e & He & Hno). rewrite Forall_forall in Hob. by destruct (Hno m (Hob e He)). }
  unfold bind at 1. rewrite Hsort.
  destruct (lock_loop_ok td (Some l) R RC RD HLO l eq_refl Hlen Hnum m gs' m [])
    as (s & outs & m2 & Hrun & Hres).
  { apply held_nil. }
  { intros e g He. apply Hav. by rewrite <- Hperm. }
  { by rewrite Hperm. }
  { intros e g _ _. apply not_elem_of_nil. }
  exists s, outs, m2. split; [done|]. destruct Hres as [(-> & Hh & _ & Hlo & Hall)|(Hne & -> & -> & e & He & Hno)].
  - split; [intros _|split; [done|split; [done|by intros _; exists gs']]].
    split; [done|]. split; [done|]. split; [rewrite Hlo, Hperm; cbn [length]; lia|by rewrite <- Hperm].
  - split; [done|]. split; [done|]. split; [|by intros _; exists gs'].
    intros _ Hob. rewrite Forall_forall in Hob. rewrite Hperm in He. by destruct (Hno (Hob e He)).
Qed.


(** ** The lookup interface

    A configured layout with its region array implements [GranuleLookup]. *)
Section Interface.
Context (td : tracking_region_data) (R RC RD l : list Z).
Context (HLO : layout_ok td R RC RD) (Hlen : Z.of_nat (length l) = td_num_tracking_regions td).
Context (Hnum : td_num_tracking_regions td <> 0).

Definition td_granule_names : GranuleNames.
Proof.
  refine {| Mem.tr_addr_to_granule := tr_addr_to_granule td; Mem.tr_granule_addr := tr_granule_addr td |}.
  - intros addr g. by apply (granule_addr_inverse td R RC RD).
  - intros addr g. unfold tr_addr_to_granule. by destruct (GRANULE_ALIGNED addr).
Defined.

Lemma fine_lookup_spec addr :
  (exists status, status <> RMI_SUCCESS /\
     forall m s, tr_find_lock_granule td (Some l) addr GRANULE_SIZE s m = Some ((status, None), m)) \/
  (exists g, tr_addr_to_granule td addr = Some g /\
     forall m s a, granule_at m g a ->
       tr_find_lock_granule td (Some l) addr GRANULE_SIZE s m =
         if negb (a_state a =? s) then Some ((RMI_ERROR_INPUT, None), m)
         else if a_locked a then None else Some ((RMI_SUCCESS, Some g), with_lock m g)).
Proof.
  destruct (find_granule_ok td (Some l) R RC RD HLO l eq_refl Hlen Hnum addr GRANULE_SIZE)
    as ([status og] & Hfind & Hlk & Hs).
  assert (Hrun : forall m s a, (forall g, og = Some g -> granule_at m g a) ->
    tr_find_lock_granule td (Some l) addr GRANULE_SIZE s m =
      match og with
      | Some g => if negb (a_state a =? s) then Some ((RMI_ERROR_INPUT, None), m)
          else if a_locked a then None else Some ((RMI_SUCCESS, Some g), set_granule m g (locked a))
      | None => Some ((status, None), m)
      end).
  { intros m s a Ha.
    destruct (find_lock_ok td (Some l) R RC RD HLO l eq_refl Hlen Hnum m addr GRANULE_SIZE s)
      as (r & Hr & _ & Hrun). rewrite Hfind in Hr. injection Hr as <-. apply (Hrun a Ha). }
  destruct og as [g|]; [right|left].
  - exists g. split.
    { inversion Hlk as [|?|?|? ? ? ? ? ? Hsz|?]; subst; [|done].
      destruct (region_size_cases _ (lo_size _ _ _ _ HLO)) as [Hx|Hx]; rewrite Hx in Hsz; discriminate Hsz. }
    intros m s a Ha. rewrite (Hrun m s a) by (by intros ? [= <-]). do 2 (case_match; [done|]).
    by rewrite (with_lock_set m g a).
  - exists status. split; [by eapply (lookup_none_error td R RC RD HLO l)|]. intros m s.
    by apply (Hrun m s (AGranule false 0 0)).
Qed.

Definition td_granule_lookup : GranuleLookup :=
  {| lookup_names := td_granule_names;
     find_lock_fine_granule := fun addr s => tr_find_lock_granule td (Some l) addr GRANULE_SIZE s;
     find_lock_fine_spec := fine_lookup_spec |}.

Lemma lock_order_known s : 0 <= s <= GRANULE_STATE_LAST -> is_Some (tr_granule_lock_order s).
Proof.
  intros Hs. unfold GRANULE_STATE_LAST, GRANULE_STATE_RD_AUX in Hs.
  assert (Hb : (match tr_granule_lock_order s with Some _ => true | None => false end) = true).
  { apply (small_forall 15 (fun s => match tr_granule_lock_order s with Some _ => true | None => false end)); [vm_compute; reflexivity|lia]. }
  by destruct (tr_granule_lock_order s).
Qed.

Lemma list_two {A} (outs : list A) x y :
  length outs = 2%nat -> x ∈ outs -> y ∈ outs -> x <> y -> outs = [x; y] \/ outs = [y; x].
Proof.
  destruct outs as [|a [|b [|]]]; try discriminate. intros _. rewrite !elem_of_cons, !elem_of_nil.
  intros [<-|[<-|[]]] [<-|[<-|[]]]; try done; by auto.
Qed.

(** A lock held on two granules is both locks taken. *)
Lemma held_two m m' i1 g1 i2 g2 outs :
  held m m' outs -> length outs = 2%nat -> (i1, g1) ∈ outs -> (i2, g2) ∈ outs -> i1 <> i2 ->
  g1 <> g2 /\ m' = with_lock (with_lock m g1) g2.
Proof.
  intros [Ht Hnd Hin Hout] Hl H1 H2 Hi.
  assert (Hs : g1 <> g2 /\ forall g, g ∈ outs.*2 <-> g = g1 \/ g = g2).
  { destruct (list_two outs (i1, g1) (i2, g2) Hl H1 H2 ltac:(congruence)) as [-> | ->]; cbn [fmap list_fmap snd] in *;
      apply NoDup_cons in Hnd as [Hn _]; rewrite list_elem_of_singleton in Hn;
      (split; [congruence|]); intros g; rewrite elem_of_cons, list_elem_of_singleton; tauto. }
  destruct Hs as [Hne Hs].
  split; [done|]. destruct m as [ds ts], m' as [ds' ts']. cbn [tables descs] in *. unfold with_lock. cbn [descs tables]. subst ts'.
  f_equal. apply map_eq. intros g. destruct (decide (g = g1 \/ g = g2)) as [Hg|Hg].
  - destruct (Hin g (proj2 (Hs g) Hg)) as (a & (Hd & _) & Hl' & (Hd' & _)). cbn [descs] in *. rewrite Hd'.
    assert (Henc : encode GRN (locked a) = encode GRN a + 2 ^ l_lock GRN).
    { unfold encode, locked. cbn [a_locked a_state a_ref]. rewrite Hl'. lia. }
    destruct Hg as [-> | ->].
    + rewrite lookup_alter_ne, lookup_alter_eq, Hd by done. cbn. by rewrite Henc.
    + rewrite lookup_alter_eq, lookup_alter_ne, Hd by done. cbn. by rewrite Henc.
  - rewrite Hout by (by rewrite Hs). rewrite !lookup_alter_ne by (intros ->; apply Hg; by auto). done.
Qed.

(** What a single lookup that succeeds says about the pair. *)
Lemma fine_lookup_obtainable m addr s i g m' :
  (forall g, tr_addr_to_granule td addr = Some g -> exists a, granule_at m g a /\ a_locked a = false) ->
  tr_find_lock_granule td (Some l) addr GRANULE_SIZE s m = Some ((RMI_SUCCESS, Some g), m') ->
  obtainable td (Some l) m (GranuleSet addr s i).
Proof.
  intros Hav Hrun. destruct (find_lock_ok td (Some l) R RC RD HLO l eq_refl Hlen Hnum m addr GRANULE_SIZE s)
    as ([st og] & Hf & Hlk & Hr).
  destruct (find_granule_ok td (Some l) R RC RD HLO l eq_refl Hlen Hnum addr GRANULE_SIZE) as (r & Hr' & _ & Hs).
  rewrite Hf in Hr'. injection Hr' as <-. cbn [fst snd] in Hs. destruct og as [g'|].
  - assert (Hg' : tr_addr_to_granule td addr = Some g').
    { inversion Hlk as [|?|?|? ? ? ? ? ? Hsz|?]; subst; [|done].
      destruct (region_size_cases _ (lo_size _ _ _ _ HLO)) as [Hx|Hx]; rewrite Hx in Hsz; discriminate Hsz. }
    destruct (Hav g' Hg') as (a & Ha & _). specialize (Hr a ltac:(by intros ? [= <-])). rewrite Hrun in Hr.
    exists g', a. cbn [gs_addr gs_state]. rewrite (Hs g' eq_refl) in Hf. split; [done|]. split; [done|].
    destruct (Z.eqb_spec (a_state a) s); [done|discriminate Hr].
  - specialize (Hr (AGranule false 0 0) ltac:(done)). congruence.
Qed.

(** Whether a lookup succeeds is decided by running it. *)
Lemma lookup_decide (r : option (Z * option Z * mem)) :
  (exists g m', r = Some ((RMI_SUCCESS, Some g), m')) \/ (forall g m', r <> Some ((RMI_SUCCESS, Some g), m')).
Proof.
  destruct r as [[[s [g|]] m']|]; try (by right). destruct (decide (s = RMI_SUCCESS)) as [->|]; [left; by exists g, m'|right; congruence].
Qed.

Lemma pair_lookup_spec m addr1 s1 addr2 s2 :
  0 <= s1 <= GRANULE_STATE_LAST -> 0 <= s2 <= GRANULE_STATE_LAST ->
  (forall addr g, addr = addr1 \/ addr = addr2 -> tr_addr_to_granule td addr = Some g ->
     exists a, granule_at m g a /\ a_locked a = false) ->
  (exists status, status <> RMI_SUCCESS /\
     tr_find_lock_two_fine_granules td (Some l) addr1 s1 addr2 s2 m = Some ((status, None, None), m) /\
     (addr1 = addr2 \/
      (forall g m', tr_find_lock_granule td (Some l) addr1 GRANULE_SIZE s1 m <> Some ((RMI_SUCCESS, Some g), m')) \/
      (forall g m', tr_find_lock_granule td (Some l) addr2 GRANULE_SIZE s2 m <> Some ((RMI_SUCCESS, Some g), m')))) \/
  (exists g1 g2 a1 a2, g1 <> g2 /\ tr_addr_to_granule td addr1 = Some g1 /\ tr_addr_to_granule td addr2 = Some g2 /\
     granule_at m g1 a1 /\ a_state a1 = s1 /\ granule_at m g2 a2 /\ a_state a2 = s2 /\
     tr_find_lock_two_fine_granules td (Some l) addr1 s1 addr2 s2 m =
       Some ((RMI_SUCCESS, Some g1, Some g2), with_lock (with_lock m g1) g2)).
Proof.
  intros Hs1 Hs2 Hav.
  destruct (lock_fine_granules_ok td R RC RD l m [GranuleSet addr1 s1 0; GranuleSet addr2 s2 1] HLO Hlen Hnum)
    as (s & outs & m' & Hrun & Hok & Hbad & Hget & _).
  { cbn. lia. }
  { repeat constructor; cbn [gs_state]; by apply lock_order_known. }
  { intros e g He. rewrite elem_of_cons, list_elem_of_singleton in He. destruct He as [-> | ->]; cbn [gs_addr]; apply Hav; by auto. }
  unfold tr_find_lock_two_fine_granules, bind. rewrite Hrun. destruct (decide (s = RMI_SUCCESS)) as [->|Hne]; [right|left].
  - destruct (Hok eq_refl) as (Hnd & Hh & Hl & Hgr). apply Forall_cons in Hgr as [(g1 & a1 & Hi1 & Hn1 & Ha1 & Hst1) Hgr].
    apply Forall_cons in Hgr as [(g2 & a2 & Hi2 & Hn2 & Ha2 & Hst2) _]. cbn [gs_ret gs_addr gs_state] in *.
    destruct (held_two m m' 0 g1 1 g2 outs Hh Hl Hi1 Hi2 ltac:(done)) as [Hg Hm']. exists g1, g2, a1, a2. split_and!; try done.
    subst m'. destruct (list_two outs (0%nat, g1) (1%nat, g2) Hl Hi1 Hi2 ltac:(done)) as [-> | ->]; done.
  - destruct (Hbad Hne) as [-> ->]. exists s. split; [done|]. split; [done|].
    destruct (decide (addr1 = addr2)) as [|Haddr]; [by left|right].
    destruct (lookup_decide (tr_find_lock_granule td (Some l) addr1 GRANULE_SIZE s1 m)) as [(g1 & m1 & H1)|]; [|by left].
    destruct (lookup_decide (tr_find_lock_granule td (Some l) addr2 GRANULE_SIZE s2 m)) as [(g2 & m2 & H2)|]; [|by right].
    exfalso. apply Hne, Hget.
    + apply NoDup_cons. split; [by rewrite list_elem_of_singleton|apply NoDup_singleton].
    + repeat constructor; eapply fine_lookup_obtainable; try eassumption; intros g; apply Hav; by auto.
Qed.

Definition td_pair_lookup : @PairLookup td_granule_lookup :=
  @Build_PairLookup td_granule_lookup (tr_find_lock_two_fine_granules td (Some l)) pair_lookup_spec.

End Interface.

(** ** Concrete instances *)

(** Every region tracked at granule size; an RD and a REC granule in memory. *)
Definition demo_regions : list Z := replicate (Z.to_nat (td_num_tracking_regions demo_td')) 2.
Definition demo_rd : agranule := AGranule false GRANULE_STATE_RD 0.
Definition demo_rec : agranule := AGranule false GRANULE_STATE_REC 0.
Definition demo_granules : mem := Mem {[ 0 := encode GRN demo_rd; 1 := encode GRN demo_rec ]} ∅.
Definition demo_set : list tr_granule_set :=
  [GranuleSet 0x80001000 GRANULE_STATE_REC 1; GranuleSet 0x80000000 GRANULE_STATE_RD 0].

Lemma demo_granules_at : granule_at demo_granules 0 demo_rd /\ granule_at demo_granules 1 demo_rec.
Proof. split; (split; [reflexivity|]); (split; [|reflexivity]); repeat split; cbv; congruence. Qed.

Lemma tr_find_lock_granule_correct_witness :
  exists R g, lookup_result demo_td' R demo_regions 0x80000000 GRANULE_SIZE (RMI_SUCCESS, Some g) /\
    (granule_at demo_granules g demo_rd ->
     tr_find_lock_granule demo_td' (Some demo_regions) 0x80000000 GRANULE_SIZE GRANULE_STATE_RD demo_granules
      = Some ((RMI_SUCCESS, Some g), set_granule demo_granules g (locked demo_rd))).
Proof.
  destruct demo_layout as (R & RC & RD & HL).
  destruct (tr_find_lock_granule_correct demo_td' R RC RD demo_regions demo_granules 0x80000000 GRANULE_SIZE
    GRANULE_STATE_RD HL) as ([st [g|]] & Hlk & Hr); [reflexivity|discriminate| |].
  - destruct Hr as [-> Hr]. exists R, g. split; [exact Hlk|]. intros Hg.
    destruct (Hr demo_rd Hg) as [_ H]. apply H; reflexivity.
  - destruct Hr as [_ Hr]. vm_compute in Hr. discriminate Hr.
Defined.


(** The REC is named first but the RD is locked first. *)
Example demo_lock_order :
  tr_sort_granules demo_set
  = Some [GranuleSet 0x80000000 GRANULE_STATE_RD 0; GranuleSet 0x80001000 GRANULE_STATE_REC 1].
Proof. reflexivity. Qed.
