(* ===== verification/S2tte.v ===== *)
(** * Stage 2 translation table entries ([lib/s2tt])

    The 64-bit descriptor format of [s2tt_pvt_defs.h], [s2tt.h], [s2tt_ap.h] and
    [s2ap_ind.h], and every function of [s2tt.c] that builds, classifies or
    decodes a single descriptor.  Tables and walks are in [S2ttTable] and
    [S2ttWalk]. *)

From Stdlib Require Import ZArith Lia Bool.
From stdpp Require Import base tactics option list numbers.
From S2P Require Import Prelude.
From S2P Require Import Utils.
From S2P Require Import Arch.

(** ** Constants *)

Definition S2TT_MAX_IPA_BITS : Z := 48.
Definition S2TT_MAX_PA_BITS : Z := 48.
Definition S2TT_MIN_STARTING_LEVEL : Z := 0.
Definition S2TT_MIN_STARTING_LEVEL_LPA2 : Z := -1.
Definition S2TT_PAGE_LEVEL : Z := 3.
Definition S2TT_MIN_DEV_BLOCK_LEVEL : Z := 1.
Definition S2TT_MIN_BLOCK_LEVEL : Z := 1.
Definition S2TTE_STRIDE : Z := 9.
Definition S2TTES_PER_S2TT : Z := 512.
Definition S2TTE_STRIDE_LM1 : Z := 4.
Definition S2TTE_OA_BITS : Z := 48.
Definition S2TTE_OA_BITS_LPA2 : Z := 52.

Definition RMI_UNASSIGNED : Z := 0.
Definition RMI_ASSIGNED : Z := 1.
Definition RMI_TABLE : Z := 2.
Definition RMI_ASSIGNED_DEV : Z := 3.

(** [enum ripas]; the values are those of RmiRipas. *)
Inductive ripas := RIPAS_EMPTY | RIPAS_RAM | RIPAS_DESTROYED | RIPAS_DEV.

Definition ripas_code (r : ripas) : Z :=
  match r with RIPAS_EMPTY => 0 | RIPAS_RAM => 1 | RIPAS_DESTROYED => 2 | RIPAS_DEV => 3 end.

(** The C cast [(enum ripas)v] of a 2-bit value. *)
Definition ripas_of_code (v : Z) : ripas :=
  if v =? 0 then RIPAS_EMPTY else if v =? 1 then RIPAS_RAM
  else if v =? 2 then RIPAS_DESTROYED else RIPAS_DEV.

(** [enum dev_coh_type]. *)
Inductive dev_coh_type := DEV_MEM_COHERENT | DEV_MEM_NON_COHERENT.

Definition F_HIPAS : regfield := Field 3 3.
Definition F_RIPAS : regfield := Field 1 2.
Definition F_MEMATTR : regfield := Field 2 3.
Definition F_PERM_R : regfield := Field 6 1.
Definition F_PERM_W : regfield := Field 7 1.
Definition F_PERM_XN : regfield := Field 53 2.
Definition F_PO_INDEX : regfield := Field 59 4.
Definition F_LPA2_OA_51_50 : regfield := Field 50 2.
Definition F_LPA2_OA_49_48 : regfield := Field 48 2.
Definition F_LPA2_S2TTE_51_50 : regfield := Field 8 2.
Definition F_SW_HANDLE : regfield := Field 16 16.

Definition S2TTE_INVALID_HIPAS_MASK : Z := Eval vm_compute in MASK F_HIPAS.
Definition S2TTE_INVALID_HIPAS_UNASSIGNED : Z := Eval vm_compute in INPLACE F_HIPAS RMI_UNASSIGNED.
Definition S2TTE_INVALID_HIPAS_ASSIGNED : Z := Eval vm_compute in INPLACE F_HIPAS RMI_ASSIGNED.
Definition S2TTE_INVALID_HIPAS_ASSIGNED_DEV : Z :=
  Eval vm_compute in INPLACE F_HIPAS RMI_ASSIGNED_DEV.
Definition S2TTE_INVALID_RIPAS_MASK : Z := Eval vm_compute in MASK F_RIPAS.
Definition S2TTE_INVALID_RIPAS_EMPTY : Z := Eval vm_compute in INPLACE F_RIPAS (ripas_code RIPAS_EMPTY).
Definition S2TTE_INVALID_RIPAS_RAM : Z := Eval vm_compute in INPLACE F_RIPAS (ripas_code RIPAS_RAM).
Definition S2TTE_INVALID_RIPAS_DESTROYED : Z :=
  Eval vm_compute in INPLACE F_RIPAS (ripas_code RIPAS_DESTROYED).
Definition S2TTE_INVALID_RIPAS_DEV : Z := Eval vm_compute in INPLACE F_RIPAS (ripas_code RIPAS_DEV).

Definition S2TTE_NS : Z := Eval vm_compute in shl64 1 55.
Definition S2TTE_AF : Z := Eval vm_compute in shl64 1 10.
Definition S2TT_DESC_TYPE_MASK : Z := 3.
Definition S2TT_DESC_VALID_MASK : Z := 1.
Definition S2TTE_INVALID : Z := 0.
Definition S2TTE_VALID : Z := 1.
Definition S2TTE_L012_BLOCK : Z := 1.
Definition S2TTE_L012_TABLE : Z := 3.
Definition S2TTE_L3_PAGE : Z := 3.
Definition S2TTE_TABLE : Z := S2TTE_L012_TABLE.

Definition S2TTE_DIRTY_BIT : Z := Eval vm_compute in shl64 1 7.
Definition S2TTE_MEMATTR_MASK : Z := Eval vm_compute in MASK F_MEMATTR.
Definition S2TTE_MEMATTR_FWB_NC : Z := Eval vm_compute in Z.lor (shl64 1 4) (shl64 1 2).
Definition S2TTE_MEMATTR_FWB_NORMAL_WB : Z := Eval vm_compute in Z.lor (shl64 1 4) (shl64 2 2).
Definition S2TTE_MEMATTR_DEV_COH : Z := Eval vm_compute in Z.lor (shl64 1 4) (shl64 3 2).
Definition S2TTE_MEMATTR_FWB_RESERVED : Z := Eval vm_compute in Z.lor (shl64 1 4) (shl64 0 2).
Definition S2TTE_SH_MASK : Z := Eval vm_compute in shl64 3 8.
Definition S2TTE_SH_OS : Z := Eval vm_compute in shl64 2 8.
Definition S2TTE_SH_IS : Z := Eval vm_compute in shl64 3 8.
Definition S2TTE_ATTRS_LPA2 : Z := Eval vm_compute in Z.lor S2TTE_MEMATTR_FWB_NORMAL_WB S2TTE_AF.
Definition S2TTE_ATTRS : Z := Eval vm_compute in Z.lor S2TTE_ATTRS_LPA2 S2TTE_SH_IS.
Definition S2TTE_DEV_ATTRS : Z := S2TTE_AF.
Definition S2TTE_DEV_ATTRS_MASK : Z := Eval vm_compute in Z.lor S2TTE_NS S2TTE_AF.
Definition S2TTE_DEV_COH_ATTRS : Z := Eval vm_compute in Z.lor S2TTE_DEV_ATTRS S2TTE_MEMATTR_DEV_COH.
Definition S2TTE_DEV_NCOH_ATTRS : Z := Eval vm_compute in Z.lor S2TTE_DEV_ATTRS S2TTE_MEMATTR_FWB_NC.
Definition S2TTE_NS_ATTR_MASK : Z := S2TTE_MEMATTR_MASK.
Definition S2TTE_NS_ATTR_RMM : Z := Eval vm_compute in Z.lor S2TTE_AF S2TTE_NS.
Definition S2TTE_BLOCK : Z := Eval vm_compute in Z.lor S2TTE_ATTRS S2TTE_L012_BLOCK.
Definition S2TTE_BLOCK_LPA2 : Z := Eval vm_compute in Z.lor S2TTE_ATTRS_LPA2 S2TTE_L012_BLOCK.
Definition S2TTE_PAGE : Z := Eval vm_compute in Z.lor S2TTE_ATTRS S2TTE_L3_PAGE.
Definition S2TTE_PAGE_LPA2 : Z := Eval vm_compute in Z.lor S2TTE_ATTRS_LPA2 S2TTE_L3_PAGE.
Definition S2TTE_BLOCK_NS : Z := Eval vm_compute in Z.lor S2TTE_NS_ATTR_RMM S2TTE_L012_BLOCK.
Definition S2TTE_PAGE_NS : Z := Eval vm_compute in Z.lor S2TTE_NS_ATTR_RMM S2TTE_L3_PAGE.

Definition S2TTE_RW_AP_MASK : Z := Eval vm_compute in Z.lor (MASK F_PERM_R) (MASK F_PERM_W).
Definition S2TTE_PERM_XN_MASK : Z := Eval vm_compute in MASK F_PERM_XN.
Definition S2TTE_PERM_MASK : Z := Eval vm_compute in Z.lor S2TTE_RW_AP_MASK S2TTE_PERM_XN_MASK.
Definition S2TTE_PERM_XU_XP : Z := Eval vm_compute in INPLACE F_PERM_XN 0.
Definition S2TTE_PERM_XU_XNP : Z := Eval vm_compute in INPLACE F_PERM_XN 1.
Definition S2TTE_PERM_XNU_XNP : Z := Eval vm_compute in INPLACE F_PERM_XN 2.
Definition S2TTE_PERM_XNU_XP : Z := Eval vm_compute in INPLACE F_PERM_XN 3.
Definition S2TTE_PO_INDEX_MASK : Z := Eval vm_compute in MASK F_PO_INDEX.
Definition S2TTE_PI_INDEX_MASK : Z :=
  Eval vm_compute in Z.lor (Z.lor (shl64 1 6) (shl64 1 51)) (Z.lor (shl64 1 53) (shl64 1 54)).

Definition S2TTE_SW_DRAIN_PENDING_BIT : Z := Eval vm_compute in shl64 1 32.
Definition S2TTE_SW_TLBI_PENDING_BIT : Z := Eval vm_compute in shl64 1 33.
Definition S2TTE_SW_HANDLE_MASK : Z := Eval vm_compute in MASK F_SW_HANDLE.
Definition S2TTE_SW_DRAIN_MASK : Z :=
  Eval vm_compute in Z.lor (Z.lor S2TTE_SW_DRAIN_PENDING_BIT S2TTE_SW_TLBI_PENDING_BIT)
                           S2TTE_SW_HANDLE_MASK.

(** Base permission indices ([enum s2ap_ind_base_perm_idx]) and overlay counts. *)
Definition S2AP_IND_BASE_PERM_IDX_RW : Z := 3.
Definition S2AP_IND_BASE_PERM_IDX_RW_upX : Z := 4.
Definition S2AP_IND_BASE_PERM_IDX_COUNT : Z := 5.
Definition S2AP_IND_PERM_COUNT : Z := 16.
Definition S2AP_IND_PERM_IDX_COUNT : Z := 16.
Definition S2AP_NUM_PERM_OVERLAY_INDICES : Z := S2AP_IND_PERM_IDX_COUNT - 1.
Definition S2AP_PII_WIDTH : Z := 4.
Definition S2AP_PII_MASK : Z := 15.
Definition S2TTE_DEF_BASE_PERM_IDX : Z := S2AP_IND_BASE_PERM_IDX_RW_upX.
Definition S2TTE_DEV_DEF_BASE_PERM_IDX : Z := S2AP_IND_BASE_PERM_IDX_RW.
Definition S2TTE_DEF_UNPROT_OVERLAY_IDX : Z := S2AP_IND_PERM_IDX_COUNT - 1.

Create HintDb s2tt_const.

#[export] Hint Unfold S2TTE_INVALID_HIPAS_MASK S2TTE_INVALID_HIPAS_UNASSIGNED
  S2TTE_INVALID_HIPAS_ASSIGNED S2TTE_INVALID_HIPAS_ASSIGNED_DEV S2TTE_INVALID_RIPAS_MASK
  S2TTE_INVALID_RIPAS_EMPTY S2TTE_INVALID_RIPAS_RAM S2TTE_INVALID_RIPAS_DESTROYED
  S2TTE_INVALID_RIPAS_DEV S2TTE_NS S2TTE_AF S2TT_DESC_TYPE_MASK S2TT_DESC_VALID_MASK
  S2TTE_INVALID S2TTE_VALID S2TTE_L012_BLOCK S2TTE_L012_TABLE S2TTE_L3_PAGE S2TTE_TABLE
  S2TTE_DIRTY_BIT S2TTE_MEMATTR_MASK S2TTE_MEMATTR_FWB_NC S2TTE_MEMATTR_FWB_NORMAL_WB
  S2TTE_MEMATTR_DEV_COH S2TTE_MEMATTR_FWB_RESERVED S2TTE_SH_MASK S2TTE_SH_OS S2TTE_SH_IS
  S2TTE_ATTRS_LPA2 S2TTE_ATTRS S2TTE_DEV_ATTRS S2TTE_DEV_ATTRS_MASK S2TTE_DEV_COH_ATTRS
  S2TTE_DEV_NCOH_ATTRS S2TTE_NS_ATTR_MASK S2TTE_NS_ATTR_RMM S2TTE_BLOCK S2TTE_BLOCK_LPA2
  S2TTE_PAGE S2TTE_PAGE_LPA2 S2TTE_BLOCK_NS S2TTE_PAGE_NS S2TTE_RW_AP_MASK S2TTE_PERM_XN_MASK
  S2TTE_PERM_MASK S2TTE_PERM_XU_XP S2TTE_PERM_XU_XNP S2TTE_PERM_XNU_XNP S2TTE_PERM_XNU_XP
  S2TTE_PO_INDEX_MASK S2TTE_PI_INDEX_MASK S2TTE_SW_DRAIN_PENDING_BIT S2TTE_SW_TLBI_PENDING_BIT
  S2TTE_SW_HANDLE_MASK S2TTE_SW_DRAIN_MASK : s2tt_const.

(** ** Context *)

(** [struct s2tt_context]; [g_rtt] is the fine granule of the root table. *)
Record s2tt_context := S2Ctx {
  ipa_bits : Z;
  s2_starting_level : Z;
  num_root_rtts : Z;
  g_rtt : Z;
  vmid : Z;
  indirect_s2ap : bool;
  overlay_perm : Z;
  mecid : Z;
  s2oa_limit : Z
}.

Definition s2tt_lpa2_required (ipa_bits s2oa_limit : Z) : bool :=
  (S2TT_MAX_IPA_BITS <? ipa_bits) || (shl64 1 S2TT_MAX_PA_BITS <? s2oa_limit).

Section S2tte.
Context `{feat : ArchFeatures}.
Implicit Types (s2_ctx : s2tt_context) (s2tte pa level s2tte_ap : Z).

Definition s2tt_lpa2_enabled s2_ctx : option bool :=
  let enable_lpa2 := s2tt_lpa2_required (ipa_bits s2_ctx) (s2oa_limit s2_ctx) in
  assert (negb enable_lpa2 || (is_feat_lpa2_4k_present && is_feat_lpa2_4k_2_present)) ;;
  Some enable_lpa2.

(** [s2tte_map_size(level)], the bytes one entry at [level] maps. *)
Definition s2tte_map_size level : Z :=
  shl64 1 ((S2TT_PAGE_LEVEL - level) * S2TTE_STRIDE + GRANULE_SHIFT).

(** ** Addresses *)

Definition s2tte_lvl_mask level (lpa2 : bool) : option Z :=
  assert (level <=? S2TT_PAGE_LEVEL) ;;
  assert (S2TT_MIN_STARTING_LEVEL_LPA2 <=? level) ;;
  let levels := S2TT_PAGE_LEVEL - level in
  let lsb := levels * S2TTE_STRIDE + GRANULE_SHIFT in
  let mask := BIT_MASK_ULL (S2TTE_OA_BITS - 1) lsb in
  Some (if lpa2 then Z.lor mask (Z.lor (MASK F_LPA2_S2TTE_51_50) (MASK F_LPA2_OA_49_48)) else mask).

Definition s2tte_ipa_lvl_mask level (lpa2 : bool) : option Z :=
  assert (level <=? S2TT_PAGE_LEVEL) ;;
  assert (S2TT_MIN_STARTING_LEVEL_LPA2 <=? level) ;;
  let levels := S2TT_PAGE_LEVEL - level in
  let lsb := levels * S2TTE_STRIDE + GRANULE_SHIFT in
  let oa_bits := if lpa2 then S2TTE_OA_BITS_LPA2 else S2TTE_OA_BITS in
  Some (BIT_MASK_ULL (oa_bits - 1) lsb).

Definition s2tte_to_pa s2_ctx s2tte level : option Z :=
  lpa2 ← s2tt_lpa2_enabled s2_ctx;
  mask ← s2tte_lvl_mask level lpa2;
  let pa := Z.land s2tte mask in
  if lpa2 : bool then
    let pa := Z.land pa (not64 (MASK F_LPA2_S2TTE_51_50)) in
    Some (Z.lor pa (INPLACE F_LPA2_OA_51_50 (EXTRACT F_LPA2_S2TTE_51_50 s2tte)))
  else Some pa.

Definition pa_to_s2tte s2_ctx pa : option Z :=
  let tte := pa in
  lpa2 ← s2tt_lpa2_enabled s2_ctx;
  mask ← s2tte_ipa_lvl_mask S2TT_PAGE_LEVEL lpa2;
  let pa := Z.land pa mask in
  if lpa2 : bool then
    let tte := Z.land tte (not64 (MASK F_LPA2_OA_51_50)) in
    Some (Z.lor tte (INPLACE F_LPA2_S2TTE_51_50 (EXTRACT F_LPA2_OA_51_50 pa)))
  else Some tte.

Definition s2tte_is_addr_lvl_aligned s2_ctx (addr level : Z) : option bool :=
  lpa2 ← s2tt_lpa2_enabled s2_ctx;
  let min_starting_level :=
    if lpa2 : bool then S2TT_MIN_STARTING_LEVEL_LPA2 else S2TT_MIN_STARTING_LEVEL in
  assert (level <=? S2TT_PAGE_LEVEL) ;;
  assert (min_starting_level <=? level) ;;
  let levels := S2TT_PAGE_LEVEL - level in
  let lsb := levels * S2TTE_STRIDE + GRANULE_SHIFT in
  let s2tte_oa_bits := if lpa2 : bool then S2TTE_OA_BITS_LPA2 else S2TTE_OA_BITS in
  Some (addr =? Z.land addr (BIT_MASK_ULL (s2tte_oa_bits - 1) lsb)).

(** ** Access permissions *)

Definition s2tte_get_pi_index s2tte : Z :=
  Z.lor (EXTRACT_BIT 6 s2tte)
  (Z.lor (shl64 (EXTRACT_BIT 51 s2tte) 1)
  (Z.lor (shl64 (EXTRACT_BIT 53 s2tte) 2) (shl64 (EXTRACT_BIT 54 s2tte) 3))).

Definition s2tte_set_pi_index s2tte (pi_index : Z) : Z :=
  let s2tte := Z.land s2tte (not64 S2TTE_PI_INDEX_MASK) in
  Z.lor s2tte
    (Z.lor (shl64 (Z.land pi_index 1) 6)
    (Z.lor (shl64 (Z.land (Z.shiftr pi_index 1) 1) 51)
    (Z.lor (shl64 (Z.land (Z.shiftr pi_index 2) 1) 53)
           (shl64 (Z.land (Z.shiftr pi_index 3) 1) 54)))).

Definition s2tte_set_po_index s2tte (po_index : Z) : Z :=
  Z.lor (Z.land s2tte (not64 S2TTE_PO_INDEX_MASK)) (INPLACE F_PO_INDEX po_index).

Definition s2ap_is_base_perm_index_valid (index : Z) : bool := index <? S2AP_IND_BASE_PERM_IDX_COUNT.
Definition s2ap_is_ovrl_perm_index_valid (index : Z) : bool := index <? S2AP_NUM_PERM_OVERLAY_INDICES.
Definition s2ap_is_perm_value_valid (perm : Z) : bool := perm <? S2AP_IND_PERM_COUNT.

Definition S2AP_IND_GET_PERM_VALUE (reg index : Z) : Z :=
  Z.land (Z.shiftr reg (index * S2AP_PII_WIDTH)) S2AP_PII_MASK.

Definition s2ap_set_overlay_perm (reg index perm : Z) : option Z :=
  assert (index <? S2AP_IND_PERM_IDX_COUNT) ;;
  assert (s2ap_is_perm_value_valid perm) ;;
  let reg := Z.land reg (not64 (shl64 S2AP_PII_MASK (S2AP_PII_WIDTH * index))) in
  let perm := shl64 perm (S2AP_PII_WIDTH * index) in
  Some (Z.lor reg perm).

Definition s2tte_get_ap s2_ctx s2tte (dev : bool) : Z :=
  if negb (indirect_s2ap s2_ctx) then
    let s2tte_ap := Z.land s2tte S2TTE_RW_AP_MASK in
    if dev then Z.lor s2tte_ap S2TTE_PERM_XNU_XNP
    else Z.lor s2tte_ap (Z.land s2tte S2TTE_PERM_XN_MASK)
  else
    let s2tte_ap := Z.lor (Z.land s2tte S2TTE_PO_INDEX_MASK) S2TTE_DIRTY_BIT in
    s2tte_set_pi_index s2tte_ap (if dev then S2TTE_DEV_DEF_BASE_PERM_IDX else S2TTE_DEF_BASE_PERM_IDX).

(** ** Constructors *)

Definition s2tte_create_unassigned_empty s2_ctx s2tte_ap : Z :=
  Z.lor (s2tte_get_ap s2_ctx s2tte_ap false)
        (Z.lor S2TTE_INVALID_HIPAS_UNASSIGNED S2TTE_INVALID_RIPAS_EMPTY).

Definition s2tte_create_unassigned_ram s2_ctx s2tte_ap : Z :=
  Z.lor (Z.lor S2TTE_INVALID_HIPAS_UNASSIGNED S2TTE_INVALID_RIPAS_RAM)
        (s2tte_get_ap s2_ctx s2tte_ap false).

Definition s2tte_create_unassigned_destroyed s2_ctx s2tte_ap : Z :=
  Z.lor (s2tte_get_ap s2_ctx s2tte_ap false)
        (Z.lor S2TTE_INVALID_HIPAS_UNASSIGNED S2TTE_INVALID_RIPAS_DESTROYED).

Definition s2tte_create_unassigned_ns s2_ctx s2tte_ap : Z :=
  Z.lor S2TTE_NS S2TTE_INVALID_HIPAS_UNASSIGNED.

Definition s2tte_create_assigned s2_ctx pa level (s2tte_ripas : Z) : option Z :=
  assert (S2TT_MIN_BLOCK_LEVEL <=? level) ;;
  assert (level <=? S2TT_PAGE_LEVEL) ;;
  assert (s2tte_ripas <=? S2TTE_INVALID_RIPAS_DESTROYED) ;;
  aligned ← s2tte_is_addr_lvl_aligned s2_ctx pa level;
  assert aligned ;;
  tte ← pa_to_s2tte s2_ctx pa;
  if s2tte_ripas =? S2TTE_INVALID_RIPAS_RAM then
    lpa2 ← s2tt_lpa2_enabled s2_ctx;
    let s2tte_page := if lpa2 : bool then S2TTE_PAGE_LPA2 else S2TTE_PAGE in
    let s2tte_block := if lpa2 : bool then S2TTE_BLOCK_LPA2 else S2TTE_BLOCK in
    if level =? S2TT_PAGE_LEVEL then Some (Z.lor tte s2tte_page)
    else Some (Z.lor tte s2tte_block)
  else Some (Z.lor (Z.lor tte S2TTE_INVALID_HIPAS_ASSIGNED) s2tte_ripas).

Definition s2tte_create_assigned_destroyed s2_ctx pa level s2tte_ap : option Z :=
  tte ← s2tte_create_assigned s2_ctx pa level S2TTE_INVALID_RIPAS_DESTROYED;
  Some (Z.lor (s2tte_get_ap s2_ctx s2tte_ap false) tte).

Definition s2tte_create_assigned_empty s2_ctx pa level s2tte_ap : option Z :=
  tte ← s2tte_create_assigned s2_ctx pa level S2TTE_INVALID_RIPAS_EMPTY;
  Some (Z.lor (s2tte_get_ap s2_ctx s2tte_ap false) tte).

Definition s2tte_create_assigned_ram s2_ctx pa level s2tte_ap : option Z :=
  tte ← s2tte_create_assigned s2_ctx pa level S2TTE_INVALID_RIPAS_RAM;
  Some (Z.lor tte (s2tte_get_ap s2_ctx s2tte_ap false)).

Definition s2tte_create_assigned_unchanged s2_ctx s2tte pa level : option Z :=
  let current_ripas := Z.land s2tte S2TTE_INVALID_RIPAS_MASK in
  assert (Z.land s2tte S2TT_DESC_VALID_MASK =? S2TTE_INVALID) ;;
  tte ← s2tte_create_assigned s2_ctx pa level current_ripas;
  Some (Z.lor tte (s2tte_get_ap s2_ctx s2tte false)).

Definition s2tte_create_assigned_dev s2_ctx pa level (s2tte_ripas : Z) : option Z :=
  assert (S2TT_MIN_DEV_BLOCK_LEVEL <=? level) ;;
  aligned ← s2tte_is_addr_lvl_aligned s2_ctx pa level;
  assert aligned ;;
  assert ((s2tte_ripas =? S2TTE_INVALID_RIPAS_EMPTY)
          || (s2tte_ripas =? S2TTE_INVALID_RIPAS_DESTROYED)) ;;
  tte ← pa_to_s2tte s2_ctx pa;
  Some (Z.lor (Z.lor tte S2TTE_INVALID_HIPAS_ASSIGNED_DEV) s2tte_ripas).

Definition s2tte_create_assigned_dev_empty s2_ctx pa level s2tte_ap : option Z :=
  tte ← s2tte_create_assigned_dev s2_ctx pa level S2TTE_INVALID_RIPAS_EMPTY;
  Some (Z.lor (s2tte_get_ap s2_ctx s2tte_ap true) tte).

Definition s2tte_create_assigned_dev_destroyed s2_ctx pa level s2tte_ap : option Z :=
  tte ← s2tte_create_assigned_dev s2_ctx pa level S2TTE_INVALID_RIPAS_DESTROYED;
  Some (Z.lor (s2tte_get_ap s2_ctx s2tte_ap true) tte).

Definition s2tte_create_assigned_dev_unchanged s2_ctx s2tte pa level : option Z :=
  let current_ripas := Z.land s2tte S2TTE_INVALID_RIPAS_MASK in
  assert (Z.land s2tte S2TT_DESC_VALID_MASK =? S2TTE_INVALID) ;;
  tte ← s2tte_create_assigned_dev s2_ctx pa level current_ripas;
  Some (Z.lor tte (s2tte_get_ap s2_ctx s2tte true)).

Definition create_assigned_dev_dev_attr s2_ctx pa (attr : Z) level s2tte_ap : option Z :=
  assert (S2TT_MIN_DEV_BLOCK_LEVEL <=? level) ;;
  assert (level <=? S2TT_PAGE_LEVEL) ;;
  aligned ← s2tte_is_addr_lvl_aligned s2_ctx pa level;
  assert aligned ;;
  tte ← pa_to_s2tte s2_ctx pa;
  let new_s2tte := Z.lor (Z.lor attr tte) (s2tte_get_ap s2_ctx s2tte_ap true) in
  if level =? S2TT_PAGE_LEVEL then Some (Z.lor new_s2tte S2TTE_L3_PAGE)
  else Some (Z.lor new_s2tte S2TTE_L012_BLOCK).

Definition s2tte_create_assigned_dev_dev_from_pa s2_ctx pa (source : Z) level s2tte_ap : option Z :=
  let s2tte_mask := Z.lor S2TTE_DEV_ATTRS_MASK S2TTE_MEMATTR_MASK in
  lpa2 ← s2tt_lpa2_enabled s2_ctx;
  let s2tte_mask := if negb lpa2 then Z.lor s2tte_mask S2TTE_SH_MASK else s2tte_mask in
  let attr := Z.land source s2tte_mask in
  create_assigned_dev_dev_attr s2_ctx pa attr level s2tte_ap.

Definition s2tte_create_assigned_dev_dev_coh_type s2_ctx pa level (type : dev_coh_type) s2tte_ap
  : option Z :=
  lpa2 ← s2tt_lpa2_enabled s2_ctx;
  let attr :=
    match type with
    | DEV_MEM_COHERENT =>
        if negb lpa2 then Z.lor S2TTE_DEV_COH_ATTRS S2TTE_SH_IS else S2TTE_DEV_COH_ATTRS
    | DEV_MEM_NON_COHERENT =>
        if negb lpa2 then Z.lor S2TTE_DEV_NCOH_ATTRS S2TTE_SH_OS else S2TTE_DEV_NCOH_ATTRS
    end in
  create_assigned_dev_dev_attr s2_ctx pa attr level s2tte_ap.

Definition s2tte_create_assigned_ns s2_ctx s2tte level s2tte_ap : option Z :=
  let new_s2tte := Z.land s2tte (not64 S2TT_DESC_TYPE_MASK) in
  assert (S2TT_MIN_BLOCK_LEVEL <=? level) ;;
  assert (level <=? S2TT_PAGE_LEVEL) ;;
  lpa2 ← s2tt_lpa2_enabled s2_ctx;
  let new_s2tte := if negb lpa2 then Z.lor new_s2tte S2TTE_SH_IS else new_s2tte in
  let finish (new_s2tte : Z) :=
    if level =? S2TT_PAGE_LEVEL then Some (Z.lor new_s2tte S2TTE_PAGE_NS)
    else Some (Z.lor new_s2tte S2TTE_BLOCK_NS) in
  if indirect_s2ap s2_ctx then
    assert (s2tte_get_pi_index s2tte <=? S2AP_IND_BASE_PERM_IDX_RW) ;;
    let new_s2tte := Z.lor new_s2tte S2TTE_DIRTY_BIT in
    finish (s2tte_set_po_index new_s2tte S2TTE_DEF_UNPROT_OVERLAY_IDX)
  else
    let new_s2tte := Z.land new_s2tte (not64 S2TTE_PERM_XN_MASK) in
    finish (Z.lor new_s2tte S2TTE_PERM_XNU_XNP).

(** The mask of the bits the host controls in an NS descriptor. *)
Definition host_ns_mask s2_ctx level : option Z :=
  lpa2 ← s2tt_lpa2_enabled s2_ctx;
  lvl_mask ← s2tte_lvl_mask level lpa2;
  let mask := Z.lor lvl_mask S2TTE_NS_ATTR_MASK in
  Some (if indirect_s2ap s2_ctx then Z.lor mask S2TTE_PI_INDEX_MASK else Z.lor mask S2TTE_RW_AP_MASK).

Definition host_ns_s2tte_is_valid s2_ctx s2tte level : option bool :=
  assert (S2TT_MIN_BLOCK_LEVEL <=? level) ;;
  mask ← host_ns_mask s2_ctx level;
  if negb (Z.land s2tte (not64 mask) =? 0) then Some false
  else if indirect_s2ap s2_ctx && negb (s2ap_is_base_perm_index_valid (s2tte_get_pi_index s2tte))
  then Some false
  else if Z.land s2tte S2TTE_MEMATTR_MASK =? S2TTE_MEMATTR_FWB_RESERVED then Some false
  else Some true.

Definition host_ns_s2tte s2_ctx s2tte level : option Z :=
  mask ← host_ns_mask s2_ctx level;
  assert (S2TT_MIN_BLOCK_LEVEL <=? level) ;;
  Some (Z.land s2tte mask).

Definition s2tte_create_table s2_ctx pa level : option Z :=
  lpa2 ← s2tt_lpa2_enabled s2_ctx;
  let min_starting_level :=
    if lpa2 : bool then S2TT_MIN_STARTING_LEVEL_LPA2 else S2TT_MIN_STARTING_LEVEL in
  assert (level <? S2TT_PAGE_LEVEL) ;;
  assert (min_starting_level <=? level) ;;
  assert (GRANULE_ALIGNED pa) ;;
  tte ← pa_to_s2tte s2_ctx pa;
  Some (Z.lor tte S2TTE_TABLE).

(** ** Classification *)

Definition s2tte_has_hipas s2tte (hipas : Z) : bool :=
  let invalid_desc := Z.land s2tte S2TT_DESC_VALID_MASK =? S2TTE_INVALID in
  let invalid_desc_hipas := Z.land s2tte S2TTE_INVALID_HIPAS_MASK in
  invalid_desc && (invalid_desc_hipas =? hipas).

Definition s2tte_has_pa s2_ctx s2tte level : bool :=
  let valid_desc := Z.land s2tte S2TT_DESC_VALID_MASK =? S2TTE_VALID in
  valid_desc || s2tte_has_hipas s2tte S2TTE_INVALID_HIPAS_ASSIGNED
  || s2tte_has_hipas s2tte S2TTE_INVALID_HIPAS_ASSIGNED_DEV.

Definition s2tte_is_table s2_ctx s2tte level : bool :=
  (level <? S2TT_PAGE_LEVEL) && (Z.land s2tte S2TT_DESC_TYPE_MASK =? S2TTE_L012_TABLE).

Definition s2tte_has_ripas s2_ctx s2tte level : bool :=
  (Z.land s2tte S2TTE_NS =? 0) && negb (s2tte_is_table s2_ctx s2tte level).

Definition s2tte_has_unassigned_ripas s2tte (ripas : Z) : bool :=
  (Z.land s2tte S2TTE_INVALID_RIPAS_MASK =? ripas)
  && s2tte_has_hipas s2tte S2TTE_INVALID_HIPAS_UNASSIGNED.

Definition s2tte_has_assigned_ripas s2tte (ripas : Z) : option bool :=
  assert (Z.land s2tte S2TT_DESC_VALID_MASK =? S2TTE_INVALID) ;;
  assert (negb (ripas =? S2TTE_INVALID_RIPAS_RAM)) ;;
  Some ((Z.land s2tte S2TTE_INVALID_RIPAS_MASK =? ripas)
        && s2tte_has_hipas s2tte S2TTE_INVALID_HIPAS_ASSIGNED).

Definition s2tte_has_assigned_dev_ripas s2tte (ripas : Z) : option bool :=
  assert (Z.land s2tte S2TT_DESC_VALID_MASK =? S2TTE_INVALID) ;;
  assert (negb (ripas =? S2TTE_INVALID_RIPAS_DEV)) ;;
  Some ((Z.land s2tte S2TTE_INVALID_RIPAS_MASK =? ripas)
        && s2tte_has_hipas s2tte S2TTE_INVALID_HIPAS_ASSIGNED_DEV).

Definition s2tte_is_assigned_dev s2_ctx s2tte : bool :=
  s2tte_has_hipas s2tte S2TTE_INVALID_HIPAS_ASSIGNED_DEV.

Definition s2tte_is_unassigned s2_ctx s2tte : bool :=
  s2tte_has_hipas s2tte S2TTE_INVALID_HIPAS_UNASSIGNED.

Definition s2tte_is_unassigned_empty s2_ctx s2tte : bool :=
  (Z.land s2tte S2TTE_NS =? 0) && s2tte_has_unassigned_ripas s2tte S2TTE_INVALID_RIPAS_EMPTY.

Definition s2tte_is_unassigned_ram s2_ctx s2tte : bool :=
  s2tte_has_unassigned_ripas s2tte S2TTE_INVALID_RIPAS_RAM.

Definition s2tte_is_unassigned_ns s2_ctx s2tte : bool :=
  negb (Z.land s2tte S2TTE_NS =? 0) && s2tte_has_hipas s2tte S2TTE_INVALID_HIPAS_UNASSIGNED.

Definition s2tte_is_unassigned_destroyed s2_ctx s2tte : bool :=
  s2tte_has_unassigned_ripas s2tte S2TTE_INVALID_RIPAS_DESTROYED.

Definition s2tte_is_assigned_destroyed s2_ctx s2tte level : option bool :=
  if negb (Z.land s2tte S2TT_DESC_VALID_MASK =? S2TTE_INVALID) then Some false
  else s2tte_has_assigned_ripas s2tte S2TTE_INVALID_RIPAS_DESTROYED.

Definition s2tte_is_assigned_empty s2_ctx s2tte level : option bool :=
  if negb (Z.land s2tte S2TT_DESC_VALID_MASK =? S2TTE_INVALID) then Some false
  else s2tte_has_assigned_ripas s2tte S2TTE_INVALID_RIPAS_EMPTY.

Definition s2tte_check_assigned_ram_or_ns s2_ctx s2tte level (ns : Z) : bool :=
  if negb (Z.land s2tte S2TTE_NS =? ns) then false
  else
    let attr := Z.land s2tte (Z.lor S2TTE_DEV_ATTRS_MASK S2TTE_MEMATTR_MASK) in
    if (attr =? S2TTE_DEV_COH_ATTRS) || (attr =? S2TTE_DEV_NCOH_ATTRS) then false
    else
      let desc_type := Z.land s2tte S2TT_DESC_TYPE_MASK in
      if level =? S2TT_PAGE_LEVEL then desc_type =? S2TTE_L3_PAGE
      else if (S2TT_MIN_BLOCK_LEVEL <=? level) && (desc_type =? S2TTE_L012_BLOCK) then true
      else false.

Definition s2tte_is_assigned_ram s2_ctx s2tte level : option bool :=
  Some (s2tte_check_assigned_ram_or_ns s2_ctx s2tte level 0).

Definition s2tte_is_assigned_ns s2_ctx s2tte level : option bool :=
  Some (s2tte_check_assigned_ram_or_ns s2_ctx s2tte level S2TTE_NS).

Definition s2tte_is_assigned_dev_dev s2_ctx s2tte level : option bool :=
  let desc_type := Z.land s2tte S2TT_DESC_TYPE_MASK in
  if negb (((level =? S2TT_PAGE_LEVEL) && (desc_type =? S2TTE_L3_PAGE))
           || ((S2TT_MIN_DEV_BLOCK_LEVEL <=? level) && (level <? S2TT_PAGE_LEVEL)
               && (desc_type =? S2TTE_L012_BLOCK))) then Some false
  else
    let attr := Z.land s2tte (Z.lor S2TTE_DEV_ATTRS_MASK S2TTE_MEMATTR_MASK) in
    lpa2 ← s2tt_lpa2_enabled s2_ctx;
    if attr =? S2TTE_DEV_COH_ATTRS then
      assert (lpa2 || (Z.land s2tte S2TTE_SH_MASK =? S2TTE_SH_IS)) ;; Some true
    else if attr =? S2TTE_DEV_NCOH_ATTRS then
      assert (lpa2 || (Z.land s2tte S2TTE_SH_MASK =? S2TTE_SH_OS)) ;; Some true
    else Some false.

Definition s2tte_is_assigned_dev_empty s2_ctx s2tte level : option bool :=
  if negb (Z.land s2tte S2TT_DESC_VALID_MASK =? S2TTE_INVALID) then Some false
  else s2tte_has_assigned_dev_ripas s2tte S2TTE_INVALID_RIPAS_EMPTY.

Definition s2tte_is_assigned_dev_destroyed s2_ctx s2tte level : option bool :=
  if negb (Z.land s2tte S2TT_DESC_VALID_MASK =? S2TTE_INVALID) then Some false
  else s2tte_has_assigned_dev_ripas s2tte S2TTE_INVALID_RIPAS_DESTROYED.

Definition s2tte_get_ripas s2_ctx s2tte : option ripas :=
  let valid_desc := Z.land s2tte S2TT_DESC_VALID_MASK =? S2TTE_VALID in
  if valid_desc then
    let desc_type := Z.land s2tte S2TT_DESC_TYPE_MASK in
    let attr := Z.land s2tte (Z.lor S2TTE_DEV_ATTRS_MASK S2TTE_MEMATTR_MASK) in
    assert ((desc_type =? S2TTE_L012_BLOCK) || (desc_type =? S2TTE_L3_PAGE)) ;;
    if (attr =? S2TTE_DEV_COH_ATTRS) || (attr =? S2TTE_DEV_NCOH_ATTRS) then Some RIPAS_DEV
    else Some RIPAS_RAM
  else
    let desc_hipas := EXTRACT F_HIPAS s2tte in
    assert ((desc_hipas <=? RMI_ASSIGNED_DEV) && negb (desc_hipas =? RMI_TABLE)) ;;
    let desc_ripas := EXTRACT F_RIPAS s2tte in
    assert (desc_ripas <=? ripas_code RIPAS_DESTROYED) ;;
    Some (ripas_of_code desc_ripas).

Definition s2tte_is_live s2_ctx s2tte level : bool := s2tte_has_pa s2_ctx s2tte level.

(** [table_entry_to_phys] is [s2tte_to_pa] at the page level. *)
Definition table_entry_to_phys s2_ctx s2tte : option Z := s2tte_to_pa s2_ctx s2tte S2TT_PAGE_LEVEL.

Definition s2tte_pa s2_ctx s2tte level : option Z :=
  lpa2 ← s2tt_lpa2_enabled s2_ctx;
  let min_starting_level :=
    if lpa2 : bool then S2TT_MIN_STARTING_LEVEL_LPA2 else S2TT_MIN_STARTING_LEVEL in
  assert (min_starting_level <=? level) ;;
  assert (level <=? S2TT_PAGE_LEVEL) ;;
  assert (s2tte_has_pa s2_ctx s2tte level) ;;
  if s2tte_is_table s2_ctx s2tte level then table_entry_to_phys s2_ctx s2tte
  else s2tte_to_pa s2_ctx s2tte level.

(** ** Software metadata of a descriptor whose drain is pending *)

Definition s2tte_set_drain_pending s2tte (sro_handle : Z) : option Z :=
  let handle := sro_handle in
  assert (Z.land handle (not64 (Z.shiftr S2TTE_SW_HANDLE_MASK (f_shift F_SW_HANDLE))) =? 0) ;;
  assert (Z.land s2tte S2TTE_SW_DRAIN_PENDING_BIT =? 0) ;;
  assert (Z.land (Z.land s2tte (not64 S2TTE_SW_DRAIN_MASK))
                 (BIT_MASK_ULL (S2TTE_OA_BITS_LPA2 - 1) GRANULE_SHIFT) =? 0) ;;
  Some (Z.lor (Z.lor (Z.land s2tte (not64 S2TTE_SW_DRAIN_MASK)) S2TTE_SW_DRAIN_PENDING_BIT)
              (INPLACE F_SW_HANDLE handle)).

Definition s2tte_clear_drain_pending s2tte : Z := Z.land s2tte (not64 S2TTE_SW_DRAIN_MASK).

Definition s2tte_drain_pending s2tte : bool :=
  s2tte_has_hipas s2tte S2TTE_INVALID_HIPAS_UNASSIGNED
  && negb (Z.land s2tte S2TTE_SW_DRAIN_PENDING_BIT =? 0).

Definition s2tte_set_tlbi_pending s2tte : option Z :=
  assert (negb (Z.land s2tte S2TTE_SW_DRAIN_PENDING_BIT =? 0)) ;;
  Some (Z.lor s2tte S2TTE_SW_TLBI_PENDING_BIT).

Definition s2tte_clear_tlbi_pending s2tte : Z := Z.land s2tte (not64 S2TTE_SW_TLBI_PENDING_BIT).

Definition s2tte_tlbi_pending s2tte : bool :=
  s2tte_has_hipas s2tte S2TTE_INVALID_HIPAS_UNASSIGNED
  && negb (Z.land s2tte S2TTE_SW_TLBI_PENDING_BIT =? 0).

Definition s2tte_drain_handle s2tte : option Z :=
  assert (s2tte_has_hipas s2tte S2TTE_INVALID_HIPAS_UNASSIGNED) ;;
  Some (u32 (EXTRACT F_SW_HANDLE s2tte)).

(** ** Flattened permissions *)

(** [S2TTE_AP_LABEL_ENCODE]; the MRO column of the tables is unused. *)
Definition ap_label_encode (r w xn : Z) : Z :=
  Z.lor xn (Z.lor (INPLACE F_PERM_R r) (INPLACE F_PERM_W w)).

Definition ovr_encodings : list Z :=
  [ ap_label_encode 0 0 S2TTE_PERM_XNU_XNP;
    ap_label_encode 0 0 S2TTE_PERM_XNU_XNP;
    ap_label_encode 0 0 S2TTE_PERM_XNU_XNP;
    ap_label_encode 0 0 S2TTE_PERM_XNU_XNP;
    ap_label_encode 0 1 S2TTE_PERM_XNU_XNP;
    ap_label_encode 0 0 S2TTE_PERM_XNU_XNP;
    ap_label_encode 0 0 S2TTE_PERM_XNU_XNP;
    ap_label_encode 0 0 S2TTE_PERM_XNU_XNP;
    ap_label_encode 1 0 S2TTE_PERM_XNU_XNP;
    ap_label_encode 1 0 S2TTE_PERM_XU_XNP;
    ap_label_encode 1 0 S2TTE_PERM_XNU_XP;
    ap_label_encode 1 0 S2TTE_PERM_XU_XP;
    ap_label_encode 1 1 S2TTE_PERM_XNU_XNP;
    ap_label_encode 1 1 S2TTE_PERM_XU_XNP;
    ap_label_encode 1 1 S2TTE_PERM_XNU_XP;
    ap_label_encode 1 1 S2TTE_PERM_XU_XP ].

Definition base_encodings : list Z :=
  [ ap_label_encode 0 0 S2TTE_PERM_XN_MASK;
    ap_label_encode 1 0 S2TTE_PERM_XN_MASK;
    ap_label_encode 0 1 S2TTE_PERM_XN_MASK;
    ap_label_encode 1 1 S2TTE_PERM_XN_MASK;
    ap_label_encode 1 1 S2TTE_PERM_XN_MASK ].

(** An out-of-range table read is undefined behaviour in C: [None]. *)
Definition s2tte_get_flattened_ap (s2por_el2 base_idx ovr_idx : Z) : option Z :=
  let ovr_label_idx := S2AP_IND_GET_PERM_VALUE s2por_el2 ovr_idx in
  base_ap ← base_encodings !! Z.to_nat base_idx;
  ovr_ap ← ovr_encodings !! Z.to_nat ovr_label_idx;
  let flattened_ap := Z.land base_ap ovr_ap in
  if negb (base_idx =? S2AP_IND_BASE_PERM_IDX_RW_upX) then
    Some (Z.lor (Z.land flattened_ap (not64 S2TTE_PERM_XN_MASK)) S2TTE_PERM_XNU_XNP)
  else Some flattened_ap.

Definition s2tte_update_prot_ap s2_ctx s2tte (base_index overlay_index : Z) : option Z :=
  assert (s2ap_is_ovrl_perm_index_valid overlay_index) ;;
  assert (s2ap_is_base_perm_index_valid base_index) ;;
  if indirect_s2ap s2_ctx then
    let s2tte := s2tte_set_pi_index s2tte base_index in
    Some (s2tte_set_po_index s2tte overlay_index)
  else
    let permissions := overlay_perm s2_ctx in
    ap ← s2tte_get_flattened_ap permissions base_index overlay_index;
    Some (Z.lor (Z.land s2tte (not64 S2TTE_PERM_MASK)) ap).

End S2tte.
