(* ===== verification/S2tteFacts.v ===== *)
(** * Shared lemmas about stage 2 descriptors

    Every descriptor is the union of an output-address part, an access
    permission part and constants.  The lemmas here bound each part by a mask,
    so that the classification functions, which only look at masks, evaluate. *)

From Stdlib Require Import ZArith Lia Bool.
From stdpp Require Import base tactics option list numbers.
From S2P Require Import Prelude.
From S2P Require Import Utils.
From S2P Require Import Arch.
From S2P Require Import S2tte.

(** ** Evaluated masks *)

Definition oa_mask (lpa2 : bool) (level : Z) : Z :=
  if lpa2 then Z.lor (BIT_MASK_ULL 49 ((3 - level) * 9 + 12)) 768
  else BIT_MASK_ULL 47 ((3 - level) * 9 + 12).

Definition ap_mask (indirect : bool) : Z :=
  if indirect then Z.lor S2TTE_PO_INDEX_MASK (Z.lor S2TTE_PI_INDEX_MASK S2TTE_DIRTY_BIT)
  else S2TTE_PERM_MASK.

(** Evaluate the closed masks of the descriptor code, then normalise. *)
Ltac s2tt_eval_step :=
  match goal with
  | |- context [MASK ?f] => fold_closed (MASK f)
  | |- context [BIT_MASK_ULL ?a ?b] => fold_closed (BIT_MASK_ULL a b)
  | |- context [oa_mask ?a ?b] => fold_closed (oa_mask a b)
  | |- context [ap_mask ?a] => fold_closed (ap_mask a)
  end.

Ltac s2tt_simpl :=
  autounfold with s2tt_const;
  unfold INPLACE, EXTRACT, shl64, EXTRACT_BIT;
  repeat s2tt_eval_step;
  cbn [f_shift f_width F_HIPAS F_RIPAS F_MEMATTR F_PERM_R F_PERM_W F_PERM_XN F_PO_INDEX
       F_LPA2_OA_51_50 F_LPA2_OA_49_48 F_LPA2_S2TTE_51_50 F_SW_HANDLE];
  mask_simpl.

(** Split a goal on the five translation levels. *)
Ltac level_cases level :=
  let H := fresh in
  assert (level = -1 \/ level = 0 \/ level = 1 \/ level = 2 \/ level = 3) as H by lia;
  destruct H as [-> | [-> | [-> | [-> | ->]]]]; try (exfalso; lia).

Section Facts.
Context `{feat : ArchFeatures}.
Implicit Types (ctx : s2tt_context).

Lemma s2tte_lvl_mask_eq level lpa2 :
  -1 <= level <= 3 -> s2tte_lvl_mask level lpa2 = Some (oa_mask lpa2 level).
Proof. intros. level_cases level; destruct lpa2; reflexivity. Qed.

Lemma addr_lvl_aligned_inv ctx lpa2 pa level :
  s2tt_lpa2_enabled ctx = Some lpa2 ->
  s2tte_is_addr_lvl_aligned ctx pa level = Some true ->
  -1 <= level <= 3 /\ (lpa2 = false -> 0 <= level) /\
  pa = Z.land pa (BIT_MASK_ULL (if lpa2 then 51 else 47) ((3 - level) * 9 + 12)).
Proof.
  intros Hl Ha. unfold s2tte_is_addr_lvl_aligned in Ha. rewrite Hl in Ha. cbn in Ha.
  unfold S2TT_PAGE_LEVEL, S2TT_MIN_STARTING_LEVEL_LPA2, S2TT_MIN_STARTING_LEVEL, S2TTE_STRIDE,
    GRANULE_SHIFT, S2TTE_OA_BITS_LPA2, S2TTE_OA_BITS in Ha.
  destruct (level <=? 3) eqn:?; [|done].
  destruct lpa2;
    match type of Ha with (if ?b then _ else _) = _ => destruct b eqn:? end; try done;
    injection Ha as Ha; apply Z.eqb_eq in Ha; split_and!; try lia; done.
Qed.

Lemma addr_lvl_aligned_intro ctx lpa2 pa level :
  s2tt_lpa2_enabled ctx = Some lpa2 ->
  -1 <= level <= 3 -> (lpa2 = false -> 0 <= level) ->
  pa = Z.land pa (BIT_MASK_ULL (if lpa2 then 51 else 47) ((3 - level) * 9 + 12)) ->
  s2tte_is_addr_lvl_aligned ctx pa level = Some true.
Proof.
  intros Hl Hlv Hlv0 Hpa. unfold s2tte_is_addr_lvl_aligned. rewrite Hl. cbn.
  unfold S2TT_PAGE_LEVEL, S2TT_MIN_STARTING_LEVEL_LPA2, S2TT_MIN_STARTING_LEVEL, S2TTE_STRIDE,
    GRANULE_SHIFT, S2TTE_OA_BITS_LPA2, S2TTE_OA_BITS.
  rewrite (proj2 (Z.leb_le level 3)) by lia.
  destruct lpa2; rewrite (proj2 (Z.leb_le _ level)) by lia; f_equal; by apply Z.eqb_eq.
Qed.

(** Output address bits of a context. *)
Definition oa_bits (lpa2 : bool) : Z := if lpa2 then 52 else 48.

Lemma s2tte_map_size_eq level :
  -1 <= level <= 3 -> s2tte_map_size level = 2 ^ ((3 - level) * 9 + 12).
Proof. intros. level_cases level; reflexivity. Qed.

(** Alignment to a level, arithmetically. *)
Lemma addr_lvl_aligned_arith ctx lpa2 pa level :
  s2tt_lpa2_enabled ctx = Some lpa2 ->
  s2tte_is_addr_lvl_aligned ctx pa level = Some true <->
  -1 <= level <= 3 /\ (lpa2 = false -> 0 <= level) /\
  0 <= pa < 2 ^ oa_bits lpa2 /\ (s2tte_map_size level | pa).
Proof.
  intros Hl. split.
  - intros Ha. destruct (addr_lvl_aligned_inv _ _ _ _ Hl Ha) as (Hlv & Hlv0 & Hpa).
    split_and!; try done; try lia; rewrite ?s2tte_map_size_eq by done.
    all: level_cases level; destruct lpa2; try (specialize (Hlv0 eq_refl); lia).
    all: apply BIT_MASK_ULL_spec in Hpa; cbn in *; try lia; tauto.
  - intros (Hlv & Hlv0 & Hpa & Hd). rewrite s2tte_map_size_eq in Hd by done.
    apply (addr_lvl_aligned_intro _ lpa2); try done.
    level_cases level; destruct lpa2; try (specialize (Hlv0 eq_refl); lia).
    all: apply BIT_MASK_ULL_spec; cbn in *; try lia; tauto.
Qed.

(** The output address survives the trip through a descriptor, whatever bits
    outside the address field are set. *)
Lemma pa_to_s2tte_spec ctx lpa2 pa level :
  s2tt_lpa2_enabled ctx = Some lpa2 ->
  s2tte_is_addr_lvl_aligned ctx pa level = Some true ->
  exists t, pa_to_s2tte ctx pa = Some t /\ Z.land t (oa_mask lpa2 level) = t /\
    forall r, Z.land r (oa_mask lpa2 level) = 0 -> s2tte_to_pa ctx (Z.lor t r) level = Some pa.
Proof.
  intros Hl Ha. destruct (addr_lvl_aligned_inv _ _ _ _ Hl Ha) as (Hlv & _ & Hpa).
  unfold pa_to_s2tte, s2tte_to_pa. rewrite Hl. cbn [mbind option_bind].
  rewrite s2tte_lvl_mask_eq by done. destruct lpa2; cbn -[Z.land Z.lor Z.shiftl Z.shiftr u64].
  - eexists. split; [reflexivity|].
    level_cases level; vm_compute (BIT_MASK_ULL _ _) in Hpa.
    all: rewrite Hpa; s2tt_simpl; split; [done|].
    all: intros r Hr%land_zero_lnot; rewrite Hr; s2tt_simpl.
    all: rewrite <- ?Z.land_lor_distr_r; mask_simpl; done.
  - eexists. split; [reflexivity|].
    level_cases level; vm_compute (BIT_MASK_ULL _ _) in Hpa.
    all: rewrite Hpa; s2tt_simpl; split; [done|].
    all: intros r Hr%land_zero_lnot; rewrite Hr; s2tt_simpl; done.
Qed.

(** Access permission bits stay in the permission fields. *)
Lemma s2tte_get_ap_masked ctx ap dev :
  Z.land (s2tte_get_ap ctx ap dev) (ap_mask (indirect_s2ap ctx)) = s2tte_get_ap ctx ap dev.
Proof.
  unfold s2tte_get_ap, s2tte_set_pi_index.
  destruct (indirect_s2ap ctx), dev; cbn [negb]; s2tt_simpl; done.
Qed.

(** Permissions are read back from any descriptor that carries them unchanged. *)
Lemma s2tte_get_ap_idem ctx ap dev r :
  Z.land r (ap_mask (indirect_s2ap ctx)) = 0 ->
  s2tte_get_ap ctx (Z.lor (s2tte_get_ap ctx ap dev) r) dev = s2tte_get_ap ctx ap dev.
Proof.
  intros Hr%land_zero_lnot. rewrite Hr. unfold s2tte_get_ap, s2tte_set_pi_index.
  destruct (indirect_s2ap ctx), dev; cbn [negb]; s2tt_simpl; done.
Qed.

End Facts.
