(* ===== verification/S2tlbi.v ===== *)
(** * Stage 2 TLB maintenance ([lib/s2tt/src/s2tt.c], [s2tt_pvt_defs.h])

    The TLBI instructions are hardware; the functions here produce the sequence
    of instructions the code issues, and [granules_of] is the architectural
    meaning of the two by-address ones.  The theorems say that the sequence ends
    and covers the requested range exactly, for every VMID of the list. *)

From Stdlib Require Import ZArith Lia Bool ZifyBool.
From stdpp Require Import base tactics option list numbers.
From S2P Require Import Prelude.
From S2P Require Import Utils.
From S2P Require Import Status.
From S2P Require Import Arch.
From S2P Require Import S2tte.
From S2P Require Import S2tteFacts.

Definition F_S2_TLBI_RANGE_TG : regfield := Field 46 2.
Definition F_S2_TLBI_RANGE_SCALE : regfield := Field 44 2.
Definition F_S2_TLBI_RANGE_NUM : regfield := Field 39 5.
Definition F_S2_TLBI_RANGE_BASE_ADDR : regfield := Field 0 37.
Definition S2_TLBI_RANGE_TG_4K : Z := 1.
Definition S2_TLBI_RANGE_SCALE_MAX : nat := 3.
Definition S2_TLBI_RANGE_NUM_MAX : Z := 32.
Definition S2_TLBI_RANGE_BASE_SHIFT : Z := GRANULE_SHIFT.
Definition S2_TLBI_RANGE_BASE_SHIFT_LPA2 : Z := 16.
Definition S2_TLBI_RANGE_BASE_ALIGN_LPA2 : Z := 2 ^ S2_TLBI_RANGE_BASE_SHIFT_LPA2.
Definition F_VTTBR_EL2_VMID : regfield := Field 48 16.

(** Instructions of the maintenance sequence. *)
Inductive tlbi_op :=
  | TLBI_IPAS2E1IS (op : Z)       (* one granule: IPA >> 12 *)
  | TLBI_RIPAS2E1IS (op : Z)      (* a range operand *)
  | TLBI_VMALLS12E1IS
  | TLBI_VMALLE1IS
  | DSB_ISH
  | ISB
  | WRITE_VTTBR_EL2 (v : Z).

(** [2^(5 * SCALE + 1)] granules per unit of NUM. *)
Definition range_shift (scale : nat) : Z := 5 * Z.of_nat scale + 1.

(** One turn of the loop of [calc_s2_tlbi_range]: the new
    (best_covered, best_scale, best_num), and whether the loop breaks. *)
Definition calc_turn (scale : nat) (num_grans : Z) (best : Z * nat * Z) : (Z * nat * Z) * bool :=
  let '(best_covered, _, _) := best in
  let shift := range_shift scale in
  let num := Z.min (Z.shiftr num_grans shift) S2_TLBI_RANGE_NUM_MAX in
  let covered := shl64 num shift in
  if best_covered <? covered then ((covered, scale, num), covered =? num_grans) else (best, false).

(** Scales descending, so that ties prefer the larger scale. *)
Fixpoint calc_loop (scale : nat) (num_grans : Z) (best : Z * nat * Z) : Z * nat * Z :=
  let '(best, found) := calc_turn scale num_grans best in
  if found : bool then best
  else match scale with O => best | S scale' => calc_loop scale' num_grans best end.

(** Returns (covered, scale, num). *)
Definition calc_s2_tlbi_range (num_grans : Z) : option (Z * nat * Z) :=
  assert (negb (num_grans =? 0)) ;;
  Some (calc_loop S2_TLBI_RANGE_SCALE_MAX num_grans (0, O, 0)).

Definition make_s2_tlbi_range_operand (ipa : Z) (enable_lpa2 : bool) (scale : nat) (num : Z)
    : option Z :=
  let base_shift := if enable_lpa2 then S2_TLBI_RANGE_BASE_SHIFT_LPA2 else S2_TLBI_RANGE_BASE_SHIFT in
  assert (Nat.leb scale S2_TLBI_RANGE_SCALE_MAX) ;;
  assert (negb (num =? 0) && (num <=? S2_TLBI_RANGE_NUM_MAX)) ;;
  assert (negb enable_lpa2 || ALIGNED ipa S2_TLBI_RANGE_BASE_ALIGN_LPA2) ;;
  Some (Z.lor (COMPOSE F_S2_TLBI_RANGE_TG S2_TLBI_RANGE_TG_4K)
       (Z.lor (COMPOSE F_S2_TLBI_RANGE_SCALE (Z.of_nat scale))
       (Z.lor (COMPOSE F_S2_TLBI_RANGE_NUM (num - 1))
              (COMPOSE F_S2_TLBI_RANGE_BASE_ADDR (Z.shiftr ipa base_shift))))).

(** [while (remaining != 0)] of [stage2_tlbi_ipa_range]; every turn covers at
    least one granule, so the granule count is enough fuel. *)
Fixpoint tlbi_range_loop (fuel : nat) (current_ipa remaining : Z) (enable_lpa2 : bool)
    : option (list tlbi_op) :=
  if remaining =? 0 then Some []
  else match fuel with
  | O => None
  | S fuel =>
      let num_grans := Z.shiftr remaining GRANULE_SHIFT in
      step ← (if (num_grans =? 1)
                 || (enable_lpa2 && negb (ALIGNED current_ipa S2_TLBI_RANGE_BASE_ALIGN_LPA2))
              then Some (TLBI_IPAS2E1IS (Z.shiftr current_ipa GRANULE_SHIFT), 1)
              else
                r ← calc_s2_tlbi_range num_grans;
                let '(covered, scale, num) := r in
                assert (negb (covered =? 0)) ;;
                op ← make_s2_tlbi_range_operand current_ipa enable_lpa2 scale num;
                Some (TLBI_RIPAS2E1IS op, covered));
      let '(op, covered) := step in
      rest ← tlbi_range_loop fuel (add64 current_ipa (shl64 covered GRANULE_SHIFT))
               (sub64 remaining (shl64 covered GRANULE_SHIFT)) enable_lpa2;
      Some (op :: rest)
  end.

Definition stage2_tlbi_ipa_range (ipa size : Z) (enable_lpa2 : bool) : option (list tlbi_op) :=
  tlbi_range_loop (Z.to_nat (Z.shiftr size GRANULE_SHIFT)) ipa size enable_lpa2.

(** The instructions for one VMID. *)
Definition stage2_tlbi_one_vmid (enable_lpa2 : bool) (ipa size vmid : Z) : option (list tlbi_op) :=
  body ← (if s2tte_map_size S2TT_MIN_BLOCK_LEVEL <? size then Some [TLBI_VMALLS12E1IS]
          else ops ← stage2_tlbi_ipa_range ipa size enable_lpa2;
               Some (ops ++ [DSB_ISH; TLBI_VMALLE1IS]));
  Some ([WRITE_VTTBR_EL2 (INPLACE F_VTTBR_EL2_VMID vmid); ISB] ++ body ++ [DSB_ISH; ISB]).

Fixpoint stage2_tlbi_vmids (enable_lpa2 : bool) (vmid_list : list Z) (ipa size : Z)
    : option (list tlbi_op) :=
  match vmid_list with
  | [] => Some []
  | vmid :: rest =>
      ops ← stage2_tlbi_one_vmid enable_lpa2 ipa size vmid;
      more ← stage2_tlbi_vmids enable_lpa2 rest ipa size;
      Some (ops ++ more)
  end.

Definition stage2_tlbi_ipa_per_vmids (old_vttbr_el2 : Z) (enable_lpa2 : bool) (vmid_list : list Z)
    (ipa size : Z) : option (list tlbi_op) :=
  assert (negb (Nat.eqb (length vmid_list) 0)) ;;
  assert (negb (size =? 0)) ;;
  assert (ALIGNED ipa GRANULE_SIZE) ;;
  assert (ALIGNED size GRANULE_SIZE) ;;
  ops ← stage2_tlbi_vmids enable_lpa2 vmid_list ipa size;
  Some (ops ++ [WRITE_VTTBR_EL2 old_vttbr_el2; ISB]).

Definition s2tt_invalidate_page_block old_vttbr enable_lpa2 vmid addr (level : Z) :=
  stage2_tlbi_ipa_per_vmids old_vttbr enable_lpa2 [vmid] addr GRANULE_SIZE.
Definition s2tt_invalidate_page_block_per_vmids old_vttbr enable_lpa2 vmid_list addr (level : Z) :=
  stage2_tlbi_ipa_per_vmids old_vttbr enable_lpa2 vmid_list addr GRANULE_SIZE.
Definition s2tt_invalidate_pages_in_block old_vttbr enable_lpa2 vmid addr (level : Z) :=
  stage2_tlbi_ipa_per_vmids old_vttbr enable_lpa2 [vmid] addr (s2tte_map_size (level - 1)).
Definition s2tt_invalidate_pages_in_block_per_vmids old_vttbr enable_lpa2 vmid_list addr (level : Z) :=
  stage2_tlbi_ipa_per_vmids old_vttbr enable_lpa2 vmid_list addr (s2tte_map_size (level - 1)).

(** ** What the instructions invalidate *)

(** The granules (IPA >> 12) an instruction names: one for IPAS2E1IS, and for
    RIPAS2E1IS the [(NUM + 1) * 2^(5 * SCALE + 1)] granules from BaseADDR, which
    counts 4KB units, or 64KB units with LPA2. *)
Definition granules_of (enable_lpa2 : bool) (op : tlbi_op) : list Z :=
  match op with
  | TLBI_IPAS2E1IS g => [g]
  | TLBI_RIPAS2E1IS op =>
      let base := EXTRACT F_S2_TLBI_RANGE_BASE_ADDR op in
      let base := if enable_lpa2 then base * 16 else base in
      let scale := EXTRACT F_S2_TLBI_RANGE_SCALE op in
      let num := EXTRACT F_S2_TLBI_RANGE_NUM op in
      seqZ base ((num + 1) * 2 ^ (5 * scale + 1))
  | _ => []
  end.

(** ** Range selection *)

(** One instruction at [scale] covering [num] units, not past [num_grans]. *)
Definition range_fits (num_grans : Z) (scale : nat) (num : Z) : Prop :=
  (scale <= 3)%nat /\ 0 <= num <= 32 /\ num * 2 ^ range_shift scale <= num_grans.

Definition best_ok (num_grans : Z) (lo : Z) (best : Z * nat * Z) : Prop :=
  let '(covered, scale, num) := best in
  range_fits num_grans scale num /\ covered = num * 2 ^ range_shift scale /\
  forall scale' num', (lo <= Z.of_nat scale')%Z -> range_fits num_grans scale' num' ->
    num' * 2 ^ range_shift scale' <= covered.

Lemma fit_max num_grans scale num :
  0 <= num_grans -> (scale <= 3)%nat -> range_fits num_grans scale num ->
  num <= Z.min (Z.shiftr num_grans (range_shift scale)) 32.
Proof.
  intros Hn Hs (_ & Hnum & Hfit). rewrite Z.shiftr_div_pow2 by (unfold range_shift; lia).
  assert (0 < 2 ^ range_shift scale) by (apply Z.pow_pos_nonneg; unfold range_shift; lia).
  apply Z.min_glb; [|lia]. apply Z.div_le_lower_bound; lia.
Qed.

Lemma calc_turn_ok scale num_grans best :
  0 < num_grans < 2 ^ 52 -> (scale <= 3)%nat -> best_ok num_grans (Z.of_nat scale + 1) best ->
  let '(best', found) := calc_turn scale num_grans best in
  best_ok num_grans (Z.of_nat scale) best' /\ (found = true -> best_ok num_grans 0 best').
Proof.
  intros Hn Hs Hb. destruct best as [[bc bs] bn]. destruct Hb as (Hfit & Hbc & Hmax).
  unfold calc_turn, S2_TLBI_RANGE_NUM_MAX. set (num := Z.min _ 32).
  assert (Hp : 0 < 2 ^ range_shift scale) by (apply Z.pow_pos_nonneg; unfold range_shift; lia).
  assert (Hp16 : 2 ^ range_shift scale <= 2 ^ 16) by (apply Z.pow_le_mono_r; unfold range_shift; lia).
  assert (Hq : 0 <= Z.shiftr num_grans (range_shift scale) /\
               Z.shiftr num_grans (range_shift scale) * 2 ^ range_shift scale <= num_grans).
  { rewrite Z.shiftr_div_pow2 by (unfold range_shift; lia).
    split; [apply Z.div_pos; lia|]. rewrite Z.mul_comm. apply Z.mul_div_le. lia. }
  assert (Hnum : range_fits num_grans scale num) by (unfold num, range_fits; split_and!; nia).
  assert (Hsh : shl64 num (range_shift scale) = num * 2 ^ range_shift scale).
  { unfold shl64. rewrite Z.shiftl_mul_pow2 by (unfold range_shift; lia).
    apply u64_small. unfold in_u64. destruct Hnum as (_ & Hnum & ?). nia. }
  assert (Hall : forall scale' num', Z.of_nat scale <= Z.of_nat scale' ->
    range_fits num_grans scale' num' ->
    num' * 2 ^ range_shift scale' <= Z.max bc (num * 2 ^ range_shift scale)).
  { intros s' n' Hle Hf. destruct (decide (s' = scale)) as [->|].
    - pose proof (fit_max num_grans scale n' ltac:(lia) Hs Hf). fold num in H. nia.
    - pose proof (Hmax s' n' ltac:(lia) Hf). lia. }
  rewrite Hsh. destruct (Z.ltb_spec bc (num * 2 ^ range_shift scale)).
  - split.
    + split_and!; [done..|]. intros s' n' Hle Hf. pose proof (Hall s' n' Hle Hf). lia.
    + intros Heq%Z.eqb_eq. split_and!; [done..|]. intros s' n' _ (_ & _ & Hf). lia.
  - split; [|done]. split_and!; [done..|]. intros s' n' Hle Hf. pose proof (Hall s' n' Hle Hf). lia.
Qed.

Lemma calc_loop_ok scale num_grans best :
  0 < num_grans < 2 ^ 52 -> (scale <= 3)%nat -> best_ok num_grans (Z.of_nat scale + 1) best ->
  best_ok num_grans 0 (calc_loop scale num_grans best).
Proof.
  intros Hn. revert best. induction scale as [|scale IH]; intros best Hs Hb; cbn [calc_loop].
  all: pose proof (calc_turn_ok _ num_grans best Hn Hs Hb) as Ht.
  all: destruct (calc_turn _ num_grans best) as [best' found]; destruct Ht as [H1 H2].
  all: destruct found; [by apply H2|].
  - exact H1.
  - apply IH; [lia|]. by replace (Z.of_nat scale + 1) with (Z.of_nat (S scale)) by lia.
Qed.

Lemma calc_ok num_grans :
  2 <= num_grans < 2 ^ 52 ->
  exists covered scale num, calc_s2_tlbi_range num_grans = Some (covered, scale, num) /\
    best_ok num_grans 0 (covered, scale, num) /\ 0 < covered /\ 0 < num.
Proof.
  intros Hn. unfold calc_s2_tlbi_range. rewrite (proj2 (Z.eqb_neq num_grans 0)) by lia. cbn [negb].
  pose proof (calc_loop_ok 3 num_grans (0, O, 0) ltac:(lia) ltac:(lia)) as Hb.
  destruct (calc_loop _ num_grans _) as [[c s] n] eqn:E.
  assert (Hok : best_ok num_grans 0 (c, s, n)).
  { apply Hb. split_and!; try done; [unfold range_fits; split_and!; lia|].
    intros s' n' Hle (Hs & _). lia. }
  exists c, s, n. split; [by f_equal|]. split; [done|].
  destruct Hok as (Hf & Hc & Hmax).
  assert (0 < c).
  { pose proof (Hmax 0%nat 1 ltac:(lia)) as H. change (2 ^ range_shift 0) with 2 in H.
    assert (1 * 2 <= c); [|lia]. apply H. unfold range_fits. change (2 ^ range_shift 0) with 2. split_and!; lia. }
  split; [done|]. assert (0 < 2 ^ range_shift s) by (apply Z.pow_pos_nonneg; unfold range_shift; lia).
  nia.
Qed.

(** C38: [calc_s2_tlbi_range] returns an encodable instruction that does not reach
    past the request and covers at least as much as any other encodable one. *)
Theorem calc_s2_tlbi_range_optimal num_grans :
  2 <= num_grans < 2 ^ 52 ->
  exists covered scale num, calc_s2_tlbi_range num_grans = Some (covered, scale, num) /\
    (scale <= 3)%nat /\ 1 <= num <= 32 /\ covered = num * 2 ^ range_shift scale /\
    0 < covered <= num_grans /\
    forall scale' num', (scale' <= 3)%nat -> 0 <= num' <= 32 ->
      num' * 2 ^ range_shift scale' <= num_grans -> num' * 2 ^ range_shift scale' <= covered.
Proof.
  intros Hn. destruct (calc_ok num_grans Hn) as (c & s & n & Hc & ((Hs & Hnum & Hle) & Heq & Hmax) & Hpos & Hn0).
  exists c, s, n. split_and!; try done; try lia.
  intros s' n' Hs' Hn' Hf. apply Hmax; [lia|]. done.
Qed.

Lemma calc_s2_tlbi_range_optimal_witness :
  exists covered scale num, calc_s2_tlbi_range 100 = Some (covered, scale, num) /\
    0 < covered <= 100.
Proof.
  destruct (calc_s2_tlbi_range_optimal 100) as (c & s & n & H & _ & _ & _ & Hc & _); [lia|].
  exists c, s, n. split; [exact H|exact Hc].
Defined.

(** ** Coverage *)

Lemma COMPOSE_INPLACE f v :
  field_ok f -> 0 <= v < 2 ^ f_width f -> COMPOSE f v = INPLACE f v.
Proof.
  intros Hf Hv. unfold COMPOSE, INPLACE. f_equal.
  assert (Z.shiftr UINT64_MAX (64 - f_width f) = Z.ones (f_width f)) as ->.
  { destruct Hf as (Hs & Hw & Hsum). change UINT64_MAX with (Z.ones 64).
    apply Z.bits_inj'. intros i Hi. rewrite Z.shiftr_spec, !Z.testbit_ones_nonneg by lia.
    destruct (Z.ltb_spec (i + (64 - f_width f)) 64), (Z.ltb_spec i (f_width f)); lia. }
  apply land_ones_small; [destruct Hf; lia|done].
Qed.

Lemma operand_granules g (lpa2 : bool) scale num :
  0 <= g < 2 ^ (if lpa2 then 40 else 36) -> (lpa2 = true -> (16 | g)) ->
  (scale <= 3)%nat -> 1 <= num <= 32 ->
  exists op, make_s2_tlbi_range_operand (g * 4096) lpa2 scale num = Some op /\
    granules_of lpa2 (TLBI_RIPAS2E1IS op) = seqZ g (num * 2 ^ range_shift scale).
Proof.
  intros Hg Hal Hs Hn. unfold make_s2_tlbi_range_operand, S2_TLBI_RANGE_SCALE_MAX, S2_TLBI_RANGE_NUM_MAX.
  rewrite (proj2 (Nat.leb_le scale 3)) by lia.
  replace (negb (num =? 0) && (num <=? 32)) with true by lia.
  assert (Hbase : exists b, Z.shiftr (g * 4096) (if lpa2 then S2_TLBI_RANGE_BASE_SHIFT_LPA2 else
      S2_TLBI_RANGE_BASE_SHIFT) = b /\ 0 <= b < 2 ^ 37 /\ (if lpa2 then b * 16 else b) = g /\
      negb lpa2 || ALIGNED (g * 4096) S2_TLBI_RANGE_BASE_ALIGN_LPA2 = true).
  { unfold S2_TLBI_RANGE_BASE_SHIFT_LPA2, S2_TLBI_RANGE_BASE_SHIFT, GRANULE_SHIFT.
    destruct lpa2.
    - destruct (Hal eq_refl) as [q ->]. exists q. rewrite Z.shiftr_div_pow2 by lia.
      replace (q * 16 * 4096) with (q * 2 ^ 16) by lia. rewrite Z.div_mul by lia.
      split_and!; try lia. cbn [negb orb]. apply ALIGNED_spec; [done|]. exists q. done.
    - exists g. rewrite Z.shiftr_div_pow2 by lia. change 4096 with (2 ^ 12). rewrite Z.div_mul by lia.
      split_and!; lia. }
  destruct Hbase as (b & -> & Hb & Hbg & ->).
  eexists. split; [reflexivity|]. unfold granules_of, range_shift.
  assert (Hsc : 0 <= Z.of_nat scale <= 3) by lia.
  rewrite !COMPOSE_INPLACE by (unfold S2_TLBI_RANGE_TG_4K; field_side). extract_simpl.
  rewrite Hbg. f_equal. f_equal. lia.
Qed.

Lemma range_loop_ok (lpa2 : bool) n g r :
  0 <= g -> 0 <= r <= Z.of_nat n -> g + r <= 2 ^ (if lpa2 then 40 else 36) ->
  exists ops, tlbi_range_loop n (g * 4096) (r * 4096) lpa2 = Some ops /\
    concat (map (granules_of lpa2) ops) = seqZ g r.
Proof.
  revert g r. induction n as [|n IH]; intros g r Hg Hr Hb; cbn [tlbi_range_loop].
  { assert (r = 0) as -> by lia. exists []. done. }
  destruct (Z.eqb_spec (r * 4096) 0); [assert (r = 0) as -> by lia; by exists []|].
  assert (Hb52 : 2 ^ (if lpa2 then 40 else 36) <= 2 ^ 40) by (destruct lpa2; lia).
  assert (Hsr : forall x, Z.shiftr (x * 4096) GRANULE_SHIFT = x).
  { intros x. unfold GRANULE_SHIFT. rewrite Z.shiftr_div_pow2 by lia.
    change 4096 with (2 ^ 12). by rewrite Z.div_mul. }
  assert (Hnext : forall c, 1 <= c <= r ->
    add64 (g * 4096) (shl64 c GRANULE_SHIFT) = (g + c) * 4096 /\
    sub64 (r * 4096) (shl64 c GRANULE_SHIFT) = (r - c) * 4096).
  { intros c Hc. unfold add64, sub64, shl64, GRANULE_SHIFT. rewrite Z.shiftl_mul_pow2 by lia.
    rewrite (u64_small (c * 2 ^ 12)) by (unfold in_u64; lia).
    rewrite !u64_small by (unfold in_u64; lia). lia. }
  rewrite !Hsr.
  assert (Hfinish : forall op c, 1 <= c <= r -> granules_of lpa2 op = seqZ g c ->
    exists ops, (rest ← tlbi_range_loop n (add64 (g * 4096) (shl64 c GRANULE_SHIFT))
        (sub64 (r * 4096) (shl64 c GRANULE_SHIFT)) lpa2; Some (op :: rest)) = Some ops /\
      concat (map (granules_of lpa2) ops) = seqZ g r).
  { intros op c Hc Hop. destruct (Hnext c Hc) as [-> ->].
    destruct (IH (g + c) (r - c)) as (ops & -> & Hops); [lia..|].
    exists (op :: ops). split; [done|]. cbn. rewrite Hop, Hops.
    replace r with (c + (r - c)) at 2 by lia. by rewrite seqZ_app by lia. }
  destruct ((r =? 1) || (lpa2 && negb (ALIGNED (g * 4096) S2_TLBI_RANGE_BASE_ALIGN_LPA2))) eqn:E.
  - cbn [mbind option_bind]. apply Hfinish; [lia|]. reflexivity.
  - apply orb_false_iff in E as [E1 E2].
    destruct (calc_ok r ltac:(lia)) as (c & s & m & Hc & ((Hs & Hnum & Hle) & Heq & _) & Hpos & Hm0).
    rewrite Hc. cbn [mbind option_bind]. rewrite (proj2 (Z.eqb_neq c 0)) by lia. cbn [negb].
    destruct (operand_granules g lpa2 s m) as (op & -> & Hop); [lia| |done|lia|].
    { intros ->. cbn [andb] in E2. apply negb_false_iff, ALIGNED_spec in E2; [|done].
      destruct E2 as [q Hq]. exists q. unfold S2_TLBI_RANGE_BASE_ALIGN_LPA2, S2_TLBI_RANGE_BASE_SHIFT_LPA2 in Hq.
      lia. }
    cbn [mbind option_bind]. apply Hfinish; [lia|]. by rewrite Hop, Heq.
Qed.

Lemma range_exact (lpa2 : bool) ipa size :
  ALIGNED ipa GRANULE_SIZE = true -> ALIGNED size GRANULE_SIZE = true ->
  0 <= ipa -> 0 <= size -> ipa + size <= 2 ^ (if lpa2 then 52 else 48) ->
  exists ops, stage2_tlbi_ipa_range ipa size lpa2 = Some ops /\
    concat (map (granules_of lpa2) ops) = seqZ (ipa / GRANULE_SIZE) (size / GRANULE_SIZE).
Proof.
  intros Ha1 Ha2 Hi Hs Hb. apply ALIGNED_spec in Ha1 as [g ->]; [|done].
  apply ALIGNED_spec in Ha2 as [r ->]; [|done]. change GRANULE_SIZE with 4096 in *.
  rewrite !Z.div_mul by lia. unfold stage2_tlbi_ipa_range, GRANULE_SHIFT.
  rewrite Z.shiftr_div_pow2 by lia. change (2 ^ 12) with 4096. rewrite Z.div_mul by lia.
  apply range_loop_ok; [lia|lia|].
  destruct lpa2; lia.
Qed.

(** C37: the range invalidation loop ends without tripping an assertion, and the
    instructions it issues name exactly the granules of [ipa, ipa + size), each
    once and in order, for 48-bit and 52-bit addresses. *)
Theorem stage2_tlbi_ipa_range_exact (lpa2 : bool) ipa size :
  ALIGNED ipa GRANULE_SIZE = true -> ALIGNED size GRANULE_SIZE = true ->
  0 <= ipa -> 0 <= size -> ipa + size <= 2 ^ (if lpa2 then 52 else 48) ->
  exists ops, stage2_tlbi_ipa_range ipa size lpa2 = Some ops /\
    concat (map (granules_of lpa2) ops) = seqZ (ipa / GRANULE_SIZE) (size / GRANULE_SIZE).
Proof. apply range_exact. Qed.

Lemma stage2_tlbi_ipa_range_exact_witness :
  exists ops, stage2_tlbi_ipa_range 0x8000D000 0x205000 true = Some ops /\
    concat (map (granules_of true) ops) = seqZ (0x8000D000 / GRANULE_SIZE) (0x205000 / GRANULE_SIZE).
Proof.
  apply (stage2_tlbi_ipa_range_exact true 0x8000D000 0x205000); try reflexivity; cbv; discriminate.
Defined.

(** ** Per-VMID sequences *)

(** The pairs (VMID register value, granule) a sequence invalidates, and whether
    an instruction invalidates the whole VMID; [cur] is VTTBR_EL2. *)
Fixpoint invalidated (lpa2 : bool) (cur : Z) (ops : list tlbi_op) : list (Z * option Z) :=
  match ops with
  | [] => []
  | WRITE_VTTBR_EL2 v :: rest => invalidated lpa2 v rest
  | TLBI_VMALLS12E1IS :: rest => (cur, None) :: invalidated lpa2 cur rest
  | op :: rest => map (fun g => (cur, Some g)) (granules_of lpa2 op) ++ invalidated lpa2 cur rest
  end.

(** VTTBR_EL2 after a sequence. *)
Fixpoint final_vttbr (cur : Z) (ops : list tlbi_op) : Z :=
  match ops with
  | [] => cur
  | WRITE_VTTBR_EL2 v :: rest => final_vttbr v rest
  | _ :: rest => final_vttbr cur rest
  end.

Lemma final_vttbr_app cur a b : final_vttbr cur (a ++ b) = final_vttbr (final_vttbr cur a) b.
Proof. revert cur. induction a as [|op a IH]; intros cur; [done|]. destruct op; cbn; apply IH. Qed.

Lemma invalidated_app lpa2 cur a b :
  invalidated lpa2 cur (a ++ b) = invalidated lpa2 cur a ++ invalidated lpa2 (final_vttbr cur a) b.
Proof.
  revert cur. induction a as [|op a IH]; intros cur; [done|].
  destruct op; cbn; rewrite ?IH, ?app_assoc; done.
Qed.

Definition plain (op : tlbi_op) : bool :=
  match op with TLBI_IPAS2E1IS _ | TLBI_RIPAS2E1IS _ => true | _ => false end.

Lemma plain_invalidated lpa2 cur ops :
  Forall (fun op => plain op = true) ops ->
  invalidated lpa2 cur ops = map (fun g => (cur, Some g)) (concat (map (granules_of lpa2) ops)) /\
  final_vttbr cur ops = cur.
Proof.
  induction 1 as [|op ops Hp _ [IH1 IH2]]; [done|].
  destruct op; try discriminate Hp; cbn; rewrite ?IH1, ?map_app; done.
Qed.

Lemma range_loop_plain lpa2 n ipa rem ops :
  tlbi_range_loop n ipa rem lpa2 = Some ops -> Forall (fun op => plain op = true) ops.
Proof.
  revert ipa rem ops. induction n as [|n IH]; intros ipa rem ops H; cbn [tlbi_range_loop] in H.
  - inv_some H. subst. constructor.
  - destruct (rem =? 0); [inv_some H; subst; constructor|].
    match type of H with mbind _ ?e = _ => destruct e as [[op c]|] eqn:E; [|done] end.
    cbn [mbind option_bind] in H. inv_some H. subst ops. constructor; [|by eapply IH].
    destruct (_ || _) in E; [by inv_some E; subst|].
    destruct (calc_s2_tlbi_range _) as [[[cv sc] nm]|] in E; [|done]. cbn [mbind option_bind] in E.
    inv_some E. by subst.
Qed.

(** What one VMID of the list must lose: the granules of the range, or, above
    1GB, everything. *)
Definition vmid_expected (ipa size vmid : Z) : list (Z * option Z) :=
  let cur := INPLACE F_VTTBR_EL2_VMID vmid in
  if s2tte_map_size S2TT_MIN_BLOCK_LEVEL <? size then [(cur, None)]
  else map (fun g => (cur, Some g)) (seqZ (ipa / GRANULE_SIZE) (size / GRANULE_SIZE)).

Section PerVmid.
Context (lpa2 : bool) (ipa size : Z).
Context (Hai : ALIGNED ipa GRANULE_SIZE = true) (Has : ALIGNED size GRANULE_SIZE = true).
Context (Hi : 0 <= ipa) (Hs : 0 < size) (Hb : ipa + size <= 2 ^ (if lpa2 then 52 else 48)).

Lemma one_vmid_ok vmid :
  exists ops, stage2_tlbi_one_vmid lpa2 ipa size vmid = Some ops /\
    forall cur, invalidated lpa2 cur ops = vmid_expected ipa size vmid.
Proof.
  unfold stage2_tlbi_one_vmid, vmid_expected.
  destruct (s2tte_map_size S2TT_MIN_BLOCK_LEVEL <? size).
  { eexists. split; [reflexivity|]. done. }
  destruct (range_exact lpa2 ipa size Hai Has Hi ltac:(lia) Hb) as (ops & Hops & Hg). rewrite Hops. cbn [mbind option_bind].
  eexists. split; [reflexivity|]. intros cur. cbn -[granules_of].
  rewrite <- app_assoc, !invalidated_app.
  destruct (plain_invalidated lpa2 (INPLACE F_VTTBR_EL2_VMID vmid) ops) as [-> ->].
  { by eapply range_loop_plain. }
  rewrite Hg. cbn. by rewrite !app_nil_r.
Qed.

Lemma vmids_seq_ok vmids :
  exists ops, stage2_tlbi_vmids lpa2 vmids ipa size = Some ops /\
    forall cur, invalidated lpa2 cur ops = concat (map (vmid_expected ipa size) vmids).
Proof.
  induction vmids as [|vmid vmids IH]; [by exists []|].
  destruct (one_vmid_ok vmid) as (ops & Hops & Hi1). destruct IH as (more & Hmore & Hi2).
  cbn [stage2_tlbi_vmids]. rewrite Hops. cbn [mbind option_bind]. rewrite Hmore. cbn [mbind option_bind].
  eexists. split; [reflexivity|]. intros cur. cbn [map concat]. by rewrite invalidated_app, Hi1, Hi2.
Qed.
End PerVmid.

Lemma per_vmids_ok old (lpa2 : bool) vmids ipa size :
  vmids <> [] -> ALIGNED ipa GRANULE_SIZE = true -> ALIGNED size GRANULE_SIZE = true ->
  0 <= ipa -> 0 < size -> ipa + size <= 2 ^ (if lpa2 then 52 else 48) ->
  exists ops, stage2_tlbi_ipa_per_vmids old lpa2 vmids ipa size = Some ops /\
    forall cur, invalidated lpa2 cur ops = concat (map (vmid_expected ipa size) vmids) /\
      final_vttbr cur ops = old.
Proof.
  intros Hv Hai Has Hi Hs Hb. unfold stage2_tlbi_ipa_per_vmids. rewrite Hai, Has.
  destruct vmids as [|v vmids]; [done|]. cbn [length Nat.eqb negb].
  rewrite (proj2 (Z.eqb_neq size 0)) by lia. cbn [negb].
  destruct (vmids_seq_ok lpa2 ipa size Hai Has Hi Hs Hb (v :: vmids)) as (ops & Hops & Hinv).
  rewrite Hops. cbn [mbind option_bind]. eexists. split; [reflexivity|]. intros cur.
  rewrite invalidated_app, final_vttbr_app, Hinv. cbn. by rewrite app_nil_r.
Qed.

(** The maintenance sequence invalidates, for every VMID of the list and no
    other, exactly the requested range (or the whole VMID above 1GB), and leaves
    VTTBR_EL2 as it found it. *)
Theorem stage2_tlbi_per_vmids_exact old (lpa2 : bool) vmids ipa size cur :
  vmids <> [] -> ALIGNED ipa GRANULE_SIZE = true -> ALIGNED size GRANULE_SIZE = true ->
  0 <= ipa -> 0 < size -> ipa + size <= 2 ^ (if lpa2 then 52 else 48) ->
  exists ops, stage2_tlbi_ipa_per_vmids old lpa2 vmids ipa size = Some ops /\
    invalidated lpa2 cur ops = concat (map (vmid_expected ipa size) vmids) /\
    final_vttbr cur ops = old.
Proof.
  intros Hv Hai Has Hi Hs Hb. destruct (per_vmids_ok old lpa2 vmids ipa size) as (ops & Hops & Ho); try done.
  exists ops. split; [done|]. apply Ho.
Qed.

Lemma stage2_tlbi_per_vmids_exact_witness :
  exists ops, stage2_tlbi_ipa_per_vmids 7 false [3; 5] 0x40000000 0x200000 = Some ops /\
    invalidated false 0 ops = concat (map (vmid_expected 0x40000000 0x200000) [3; 5]) /\
    final_vttbr 0 ops = 7.
Proof.
  apply (stage2_tlbi_per_vmids_exact 7 false [3; 5] 0x40000000 0x200000 0);
    try discriminate; try reflexivity.
Defined.
