(* ===== verification/S2tteProps.v ===== *)
(** * Correctness of the stage 2 descriptor functions

    [built] relates a descriptor to the constructor that made it.  The theorems
    say that a built descriptor is recognised by exactly its own predicate,
    gives back its output address, its RIPAS and its permissions, and that the
    drain metadata written into an unassigned descriptor is transparent. *)

From Stdlib Require Import ZArith Lia Bool.
From stdpp Require Import base tactics option list numbers.
From S2P Require Import Prelude.
From S2P Require Import Utils.
From S2P Require Import Arch.
From S2P Require Import S2tte.
From S2P Require Import S2tteFacts.

Inductive s2tte_kind :=
  | K_unassigned_empty | K_unassigned_ram | K_unassigned_destroyed | K_unassigned_ns
  | K_assigned_empty | K_assigned_ram | K_assigned_destroyed | K_assigned_ns
  | K_assigned_dev_empty | K_assigned_dev_destroyed | K_assigned_dev_dev | K_table.

#[export] Instance s2tte_kind_eq_dec : EqDecision s2tte_kind.
Proof. solve_decision. Defined.

Definition all_kinds : list s2tte_kind :=
  [ K_unassigned_empty; K_unassigned_ram; K_unassigned_destroyed; K_unassigned_ns;
    K_assigned_empty; K_assigned_ram; K_assigned_destroyed; K_assigned_ns;
    K_assigned_dev_empty; K_assigned_dev_destroyed; K_assigned_dev_dev; K_table ].

(** The bits of an NS descriptor that come from the host's attributes. *)
Definition ns_attr_mask (indirect : bool) : Z :=
  Z.lor S2TTE_NS_ATTR_MASK (if indirect then S2TTE_PI_INDEX_MASK else S2TTE_RW_AP_MASK).

(** RIPAS of a kind, where it has one. *)
Definition kind_ripas (k : s2tte_kind) : option ripas :=
  match k with
  | K_unassigned_empty | K_assigned_empty | K_assigned_dev_empty => Some RIPAS_EMPTY
  | K_unassigned_ram | K_assigned_ram => Some RIPAS_RAM
  | K_unassigned_destroyed | K_assigned_destroyed | K_assigned_dev_destroyed => Some RIPAS_DESTROYED
  | K_assigned_dev_dev => Some RIPAS_DEV
  | K_unassigned_ns | K_assigned_ns | K_table => None
  end.

Definition kind_live (k : s2tte_kind) : bool :=
  match k with
  | K_unassigned_empty | K_unassigned_ram | K_unassigned_destroyed | K_unassigned_ns => false
  | _ => true
  end.

(** The bits a classification function may look at; with LPA2 bits [9:8] hold
    output address bits and are not looked at. *)
Definition class_mask (lpa2 : bool) : Z :=
  Z.lor (Z.lor S2TTE_NS S2TTE_AF) (Z.lor 63 (if lpa2 then 0 else S2TTE_SH_MASK)).

Section Props.
Context `{feat : ArchFeatures}.
Implicit Types (ctx : s2tt_context).

(** Descriptors as the RMM builds them, with their output address [pa]. *)
Inductive built ctx (level : Z) : s2tte_kind -> Z -> Z -> Prop :=
  | b_ue pa ap : built ctx level K_unassigned_empty pa (s2tte_create_unassigned_empty ctx ap)
  | b_ur pa ap : built ctx level K_unassigned_ram pa (s2tte_create_unassigned_ram ctx ap)
  | b_ud pa ap : built ctx level K_unassigned_destroyed pa (s2tte_create_unassigned_destroyed ctx ap)
  | b_un pa ap : built ctx level K_unassigned_ns pa (s2tte_create_unassigned_ns ctx ap)
  | b_ae pa ap v : s2tte_create_assigned_empty ctx pa level ap = Some v ->
      built ctx level K_assigned_empty pa v
  | b_ar pa ap v : s2tte_create_assigned_ram ctx pa level ap = Some v ->
      built ctx level K_assigned_ram pa v
  | b_ad pa ap v : s2tte_create_assigned_destroyed ctx pa level ap = Some v ->
      built ctx level K_assigned_destroyed pa v
  | b_an pa t attrs ap v :
      s2tte_is_addr_lvl_aligned ctx pa level = Some true ->
      pa_to_s2tte ctx pa = Some t -> Z.land attrs (ns_attr_mask (indirect_s2ap ctx)) = attrs ->
      s2tte_create_assigned_ns ctx (Z.lor t attrs) level ap = Some v ->
      built ctx level K_assigned_ns pa v
  | b_de pa ap v : s2tte_create_assigned_dev_empty ctx pa level ap = Some v ->
      built ctx level K_assigned_dev_empty pa v
  | b_dd pa ap v : s2tte_create_assigned_dev_destroyed ctx pa level ap = Some v ->
      built ctx level K_assigned_dev_destroyed pa v
  | b_dev pa ty ap v : s2tte_create_assigned_dev_dev_coh_type ctx pa level ty ap = Some v ->
      built ctx level K_assigned_dev_dev pa v
  | b_tbl pa v : s2tte_is_addr_lvl_aligned ctx pa S2TT_PAGE_LEVEL = Some true ->
      s2tte_create_table ctx pa level = Some v -> built ctx level K_table pa v.

(** Every classification predicate of [s2tt.c], as one function of the kind. *)
Definition is_kind ctx (v level : Z) (k : s2tte_kind) : option bool :=
  match k with
  | K_unassigned_empty => Some (s2tte_is_unassigned_empty ctx v)
  | K_unassigned_ram => Some (s2tte_is_unassigned_ram ctx v)
  | K_unassigned_destroyed => Some (s2tte_is_unassigned_destroyed ctx v)
  | K_unassigned_ns => Some (s2tte_is_unassigned_ns ctx v)
  | K_assigned_empty => s2tte_is_assigned_empty ctx v level
  | K_assigned_ram => s2tte_is_assigned_ram ctx v level
  | K_assigned_destroyed => s2tte_is_assigned_destroyed ctx v level
  | K_assigned_ns => s2tte_is_assigned_ns ctx v level
  | K_assigned_dev_empty => s2tte_is_assigned_dev_empty ctx v level
  | K_assigned_dev_destroyed => s2tte_is_assigned_dev_destroyed ctx v level
  | K_assigned_dev_dev => s2tte_is_assigned_dev_dev ctx v level
  | K_table => Some (s2tte_is_table ctx v level)
  end.

(** ** The class bits decide every predicate *)

Lemma land_class lpa2 v m :
  Z.land (class_mask lpa2) m = m -> Z.land (Z.land v (class_mask lpa2)) m = Z.land v m.
Proof. intros H. by rewrite <- Z.land_assoc, H. Qed.

Lemma is_kind_class ctx lpa2 v level k :
  s2tt_lpa2_enabled ctx = Some lpa2 ->
  is_kind ctx (Z.land v (class_mask lpa2)) level k = is_kind ctx v level k.
Proof.
  intros Hl. destruct k; cbn [is_kind].
  all: unfold s2tte_is_unassigned_empty, s2tte_is_unassigned_ram, s2tte_is_unassigned_destroyed,
    s2tte_is_unassigned_ns, s2tte_is_assigned_empty, s2tte_is_assigned_ram,
    s2tte_is_assigned_destroyed, s2tte_is_assigned_ns, s2tte_is_assigned_dev_empty,
    s2tte_is_assigned_dev_destroyed, s2tte_is_assigned_dev_dev, s2tte_is_table,
    s2tte_has_unassigned_ripas, s2tte_check_assigned_ram_or_ns, s2tte_has_assigned_ripas,
    s2tte_has_assigned_dev_ripas, s2tte_has_hipas.
  all: rewrite ?Hl; destruct lpa2; cbn [mbind option_bind orb].
  all: rewrite ?(land_class _ v) by reflexivity; reflexivity.
Qed.

Lemma land_class_hipas lpa2 v h :
  s2tte_has_hipas (Z.land v (class_mask lpa2)) h = s2tte_has_hipas v h.
Proof. unfold s2tte_has_hipas. destruct lpa2; by rewrite !(land_class _ v). Qed.

Lemma s2tte_get_ripas_class ctx lpa2 v :
  s2tte_get_ripas ctx (Z.land v (class_mask lpa2)) = s2tte_get_ripas ctx v.
Proof.
  unfold s2tte_get_ripas, EXTRACT. destruct lpa2;
  rewrite !(land_class _ v) by reflexivity; reflexivity.
Qed.

Lemma s2tte_has_pa_class ctx lpa2 v level :
  s2tte_has_pa ctx (Z.land v (class_mask lpa2)) level = s2tte_has_pa ctx v level.
Proof.
  unfold s2tte_has_pa, s2tte_has_hipas.
  destruct lpa2; rewrite !(land_class _ v) by reflexivity; reflexivity.
Qed.

(** The class bits of each kind, at each level. *)
Definition class_bits (lpa2 : bool) (level : Z) (k : s2tte_kind) (c : Z) : Prop :=
  match k with
  | K_unassigned_empty => c = 0
  | K_unassigned_ram => c = S2TTE_INVALID_RIPAS_RAM
  | K_unassigned_destroyed => c = S2TTE_INVALID_RIPAS_DESTROYED
  | K_unassigned_ns => c = S2TTE_NS
  | K_assigned_empty => c = S2TTE_INVALID_HIPAS_ASSIGNED
  | K_assigned_ram => c = Z.lor (if lpa2 then S2TTE_ATTRS_LPA2 else S2TTE_ATTRS)
                                (if level =? 3 then S2TTE_L3_PAGE else S2TTE_L012_BLOCK)
  | K_assigned_destroyed => c = Z.lor S2TTE_INVALID_HIPAS_ASSIGNED S2TTE_INVALID_RIPAS_DESTROYED
  | K_assigned_ns => exists m, Z.land m S2TTE_MEMATTR_MASK = m /\
      c = Z.lor m (Z.lor (Z.lor S2TTE_NS_ATTR_RMM (if lpa2 then 0 else S2TTE_SH_IS))
                         (if level =? 3 then S2TTE_L3_PAGE else S2TTE_L012_BLOCK))
  | K_assigned_dev_empty => c = S2TTE_INVALID_HIPAS_ASSIGNED_DEV
  | K_assigned_dev_destroyed =>
      c = Z.lor S2TTE_INVALID_HIPAS_ASSIGNED_DEV S2TTE_INVALID_RIPAS_DESTROYED
  | K_assigned_dev_dev =>
      c = Z.lor (Z.lor S2TTE_DEV_COH_ATTRS (if lpa2 then 0 else S2TTE_SH_IS))
                (if level =? 3 then S2TTE_L3_PAGE else S2TTE_L012_BLOCK) \/
      c = Z.lor (Z.lor S2TTE_DEV_NCOH_ATTRS (if lpa2 then 0 else S2TTE_SH_OS))
                (if level =? 3 then S2TTE_L3_PAGE else S2TTE_L012_BLOCK)
  | K_table => c = S2TTE_TABLE
  end.

(** The level whose alignment the output address has. *)
Definition pa_level (k : s2tte_kind) (level : Z) : Z :=
  match k with K_table => S2TT_PAGE_LEVEL | _ => level end.

Lemma class_oa lpa2 level t :
  -1 <= level <= 3 -> Z.land t (oa_mask lpa2 level) = t -> Z.land t (class_mask lpa2) = 0.
Proof.
  intros Hlv Ht. rewrite <- Ht, <- Z.land_assoc.
  level_cases level; destruct lpa2;
    match goal with |- Z.land _ ?t = 0 => fold_closed t end; apply Z.land_0_r.
Qed.

Definition level_ok (k : s2tte_kind) (level : Z) : Prop :=
  match k with K_table => level < 3 | _ => 1 <= level end.

Definition live_shape ctx lpa2 level k pa v : Prop :=
  exists t r, v = Z.lor t r /\ pa_to_s2tte ctx pa = Some t /\
    s2tte_is_addr_lvl_aligned ctx pa (pa_level k level) = Some true /\
    -1 <= level <= 3 /\ (lpa2 = false -> 0 <= level) /\
    level_ok k level /\
    Z.land r (oa_mask lpa2 (pa_level k level)) = 0 /\
    class_bits lpa2 level k (Z.land r (class_mask lpa2)).

Lemma create_assigned_inv ctx lpa2 pa level rp v :
  s2tt_lpa2_enabled ctx = Some lpa2 ->
  s2tte_create_assigned ctx pa level rp = Some v ->
  1 <= level <= 3 /\ s2tte_is_addr_lvl_aligned ctx pa level = Some true /\
  exists t, pa_to_s2tte ctx pa = Some t /\
    v = Z.lor t (if rp =? S2TTE_INVALID_RIPAS_RAM
                 then Z.lor (if lpa2 then S2TTE_ATTRS_LPA2 else S2TTE_ATTRS)
                            (if level =? 3 then S2TTE_L3_PAGE else S2TTE_L012_BLOCK)
                 else Z.lor S2TTE_INVALID_HIPAS_ASSIGNED rp).
Proof.
  intros Hl H. unfold s2tte_create_assigned in H. rewrite Hl in H. inv_some H.
  all: unfold S2TT_MIN_BLOCK_LEVEL, S2TT_PAGE_LEVEL in *; subst.
  all: split; [lia|]; split; [done|]; eexists; split; [done|].
  all: repeat match goal with H : (_ =? _) = _ |- _ => rewrite H end.
  all: rewrite <- ?Z.lor_assoc; destruct lpa2; reflexivity.
Qed.

Lemma create_assigned_dev_inv ctx lpa2 pa level rp v :
  s2tt_lpa2_enabled ctx = Some lpa2 ->
  s2tte_create_assigned_dev ctx pa level rp = Some v ->
  1 <= level <= 3 /\ s2tte_is_addr_lvl_aligned ctx pa level = Some true /\
  exists t, pa_to_s2tte ctx pa = Some t /\ v = Z.lor t (Z.lor S2TTE_INVALID_HIPAS_ASSIGNED_DEV rp).
Proof.
  intros Hl H. unfold s2tte_create_assigned_dev in H. inv_some H. subst b v.
  pose proof (addr_lvl_aligned_inv _ _ _ _ Hl E0). unfold S2TT_MIN_DEV_BLOCK_LEVEL in *.
  split; [lia|]. split; [done|]. eexists. by rewrite <- Z.lor_assoc.
Qed.

Lemma create_dev_dev_inv ctx lpa2 pa attr level ap v :
  s2tt_lpa2_enabled ctx = Some lpa2 ->
  create_assigned_dev_dev_attr ctx pa attr level ap = Some v ->
  1 <= level <= 3 /\ s2tte_is_addr_lvl_aligned ctx pa level = Some true /\
  exists t, pa_to_s2tte ctx pa = Some t /\
    v = Z.lor t (Z.lor (s2tte_get_ap ctx ap true)
                  (Z.lor attr (if level =? 3 then S2TTE_L3_PAGE else S2TTE_L012_BLOCK))).
Proof.
  intros Hl H. unfold create_assigned_dev_dev_attr in H.
  unfold S2TT_MIN_DEV_BLOCK_LEVEL, S2TT_PAGE_LEVEL in *. inv_some H. all: subst b v.
  all: split; [lia|]; split; [done|]; eexists; split; [done|].
  all: lor_ac.
Qed.

(** Permission bits are neither address bits nor class bits. *)
Lemma ap_disjoint ctx lpa2 level ap dev :
  -1 <= level <= 3 ->
  Z.land (s2tte_get_ap ctx ap dev) (oa_mask lpa2 level) = 0 /\
  Z.land (s2tte_get_ap ctx ap dev) (class_mask lpa2) = 0.
Proof.
  intros Hlv. rewrite <- (s2tte_get_ap_masked ctx ap dev), <- !Z.land_assoc.
  level_cases level; destruct lpa2, (indirect_s2ap ctx); split;
    match goal with |- Z.land _ ?t = 0 => fold_closed t end; apply Z.land_0_r.
Qed.

Lemma lor_disjoint x y m : Z.land x m = 0 -> Z.land y m = 0 -> Z.land (Z.lor x y) m = 0.
Proof. intros Hx Hy. by rewrite Z.land_lor_distr_l, Hx, Hy. Qed.

Lemma lor_class_l x y m : Z.land x m = 0 -> Z.land (Z.lor x y) m = Z.land y m.
Proof. intros Hx. by rewrite Z.land_lor_distr_l, Hx. Qed.

Lemma live_shape_intro ctx lpa2 level k pa t ap dev c v :
  v = Z.lor t (Z.lor (s2tte_get_ap ctx ap dev) c) ->
  1 <= level <= 3 -> k <> K_table ->
  pa_to_s2tte ctx pa = Some t -> s2tte_is_addr_lvl_aligned ctx pa level = Some true ->
  Z.land c (oa_mask lpa2 level) = 0 -> class_bits lpa2 level k (Z.land c (class_mask lpa2)) ->
  live_shape ctx lpa2 level k pa v.
Proof.
  intros -> Hlv Hk Ht Ha Hc Hcb.
  assert (Hpl : pa_level k level = level) by (by destruct k).
  destruct (ap_disjoint ctx lpa2 level ap dev ltac:(lia)) as [Hap1 Hap2].
  exists t, (Z.lor (s2tte_get_ap ctx ap dev) c). rewrite Hpl.
  split_and!; try done; try lia; try (unfold level_ok; destruct k; (done || lia)).
  - by apply lor_disjoint.
  - by rewrite lor_class_l.
Qed.

(** Goals about a closed constant, once level and LPA2 are known. *)
Ltac by_levels level lpa2 := level_cases level; destruct lpa2; vm_compute; by eauto.

Lemma create_assigned_shape ctx lpa2 pa level rp v ap k :
  s2tt_lpa2_enabled ctx = Some lpa2 ->
  s2tte_create_assigned ctx pa level (INPLACE F_RIPAS (ripas_code rp)) = Some v ->
  (k, rp) = (K_assigned_empty, RIPAS_EMPTY) \/ (k, rp) = (K_assigned_ram, RIPAS_RAM) \/
  (k, rp) = (K_assigned_destroyed, RIPAS_DESTROYED) ->
  live_shape ctx lpa2 level k pa (Z.lor v (s2tte_get_ap ctx ap false)).
Proof.
  intros Hl H Hk. destruct (create_assigned_inv _ _ _ _ _ _ Hl H) as (Hlv & Ha & t & Ht & ->).
  eapply (live_shape_intro _ _ _ _ _ t ap false); [|exact Hlv| |exact Ht|exact Ha| |].
  { rewrite <- Z.lor_assoc, (Z.lor_comm _ (s2tte_get_ap _ _ _)). reflexivity. }
  { by destruct Hk as [[= -> ->]|[[= -> ->]|[= -> ->]]]. }
  all: destruct Hk as [[= -> ->]|[[= -> ->]|[= -> ->]]]; by_levels level lpa2.
Qed.

Lemma create_assigned_dev_shape ctx lpa2 pa level rp v ap k :
  s2tt_lpa2_enabled ctx = Some lpa2 ->
  s2tte_create_assigned_dev ctx pa level (INPLACE F_RIPAS (ripas_code rp)) = Some v ->
  (k, rp) = (K_assigned_dev_empty, RIPAS_EMPTY) \/
  (k, rp) = (K_assigned_dev_destroyed, RIPAS_DESTROYED) ->
  live_shape ctx lpa2 level k pa (Z.lor v (s2tte_get_ap ctx ap true)).
Proof.
  intros Hl H Hk. destruct (create_assigned_dev_inv _ _ _ _ _ _ Hl H) as (Hlv & Ha & t & Ht & ->).
  eapply (live_shape_intro _ _ _ _ _ t ap true); [|exact Hlv| |exact Ht|exact Ha| |].
  { rewrite <- Z.lor_assoc, (Z.lor_comm _ (s2tte_get_ap _ _ _)). reflexivity. }
  { by destruct Hk as [[= -> ->]|[= -> ->]]. }
  all: destruct Hk as [[= -> ->]|[= -> ->]]; by_levels level lpa2.
Qed.

Lemma create_dev_dev_shape ctx lpa2 pa level ty ap v :
  s2tt_lpa2_enabled ctx = Some lpa2 ->
  s2tte_create_assigned_dev_dev_coh_type ctx pa level ty ap = Some v ->
  live_shape ctx lpa2 level K_assigned_dev_dev pa v.
Proof.
  intros Hl H. unfold s2tte_create_assigned_dev_dev_coh_type in H. rewrite Hl in H.
  cbn [mbind option_bind] in H.
  destruct (create_dev_dev_inv _ _ _ _ _ _ _ Hl H) as (Hlv & Ha & t & Ht & ->).
  eapply (live_shape_intro _ _ _ _ _ t ap true); try done; destruct ty; by_levels level lpa2.
Qed.

Lemma create_table_shape ctx lpa2 pa level v :
  s2tt_lpa2_enabled ctx = Some lpa2 ->
  s2tte_is_addr_lvl_aligned ctx pa S2TT_PAGE_LEVEL = Some true ->
  s2tte_create_table ctx pa level = Some v -> live_shape ctx lpa2 level K_table pa v.
Proof.
  intros Hl Ha H. unfold s2tte_create_table in H. rewrite Hl in H. inv_some H. subst v.
  unfold S2TT_PAGE_LEVEL, S2TT_MIN_STARTING_LEVEL_LPA2, S2TT_MIN_STARTING_LEVEL in *.
  exists z, S2TTE_TABLE. split_and!; try done.
  1-4: destruct lpa2; unfold level_ok; lia.
  all: destruct lpa2; vm_compute; done.
Qed.

(** The bits the RMM adds to a host-provided NS descriptor. *)
Definition ns_rmm_bits (lpa2 indirect : bool) (level : Z) : Z :=
  Z.lor (if lpa2 then 0 else S2TTE_SH_IS)
 (Z.lor (if indirect then Z.lor S2TTE_DIRTY_BIT (INPLACE F_PO_INDEX S2TTE_DEF_UNPROT_OVERLAY_IDX)
         else S2TTE_PERM_XNU_XNP)
        (if level =? 3 then S2TTE_PAGE_NS else S2TTE_BLOCK_NS)).

Lemma create_ns_value ctx lpa2 level t attrs ap v :
  s2tt_lpa2_enabled ctx = Some lpa2 -> Z.land t (oa_mask lpa2 level) = t ->
  Z.land attrs (ns_attr_mask (indirect_s2ap ctx)) = attrs ->
  s2tte_create_assigned_ns ctx (Z.lor t attrs) level ap = Some v ->
  1 <= level <= 3 /\ v = Z.lor t (Z.lor attrs (ns_rmm_bits lpa2 (indirect_s2ap ctx) level)).
Proof.
  intros Hl Hm Hat H. unfold s2tte_create_assigned_ns in H. rewrite Hl in H.
  unfold S2TT_MIN_BLOCK_LEVEL, S2TT_PAGE_LEVEL in *. inv_some H; split; try lia; subst v.
  all: assert (Hlv : 1 <= level <= 3) by lia; unfold s2tte_set_po_index.
  all: rewrite <- Hm, <- Hat; unfold ns_attr_mask; level_cases level; try discriminate;
       destruct lpa2; cbn [negb].
  all: match goal with |- context [ns_rmm_bits ?a ?b ?c] => fold_closed (ns_rmm_bits a b c) end.
  all: unfold S2TTE_DEF_UNPROT_OVERLAY_IDX, S2AP_IND_PERM_IDX_COUNT; s2tt_simpl; done.
Qed.

Lemma create_ns_shape ctx lpa2 pa level t attrs ap v :
  s2tt_lpa2_enabled ctx = Some lpa2 ->
  s2tte_is_addr_lvl_aligned ctx pa level = Some true ->
  pa_to_s2tte ctx pa = Some t -> Z.land attrs (ns_attr_mask (indirect_s2ap ctx)) = attrs ->
  s2tte_create_assigned_ns ctx (Z.lor t attrs) level ap = Some v ->
  live_shape ctx lpa2 level K_assigned_ns pa v.
Proof.
  intros Hl Ha Ht Hat H.
  destruct (pa_to_s2tte_spec _ _ _ _ Hl Ha) as (t' & Ht' & Hm & _).
  rewrite Ht in Ht'. injection Ht' as <-.
  destruct (create_ns_value _ _ _ _ _ _ _ Hl Hm Hat H) as [Hlv ->].
  exists t, (Z.lor attrs (ns_rmm_bits lpa2 (indirect_s2ap ctx) level)). cbn [pa_level].
  split_and!; try done; try (cbn; lia).
  - rewrite <- Hat. level_cases level; destruct lpa2, (indirect_s2ap ctx);
      unfold ns_attr_mask, ns_rmm_bits; s2tt_simpl; done.
  - exists (Z.land attrs S2TTE_MEMATTR_MASK). split; [by rewrite <- Z.land_assoc|].
    rewrite <- Hat. level_cases level; destruct lpa2, (indirect_s2ap ctx);
      unfold ns_attr_mask, ns_rmm_bits, class_mask; cbn [Z.eqb Pos.eqb]; s2tt_simpl; done.
Qed.

Lemma built_live_shape ctx lpa2 level k pa v :
  s2tt_lpa2_enabled ctx = Some lpa2 -> built ctx level k pa v -> kind_live k = true ->
  live_shape ctx lpa2 level k pa v.
Proof.
  intros Hl Hb Hk. destruct Hb as [| | | |pa ap v H|pa ap v H|pa ap v H|pa t attrs ap v Ha Ht Hat H
    |pa ap v H|pa ap v H|pa ty ap v H|pa v Ha H]; try done.
  all: unfold s2tte_create_assigned_empty, s2tte_create_assigned_ram, s2tte_create_assigned_destroyed,
    s2tte_create_assigned_dev_empty, s2tte_create_assigned_dev_destroyed in H.
  - inv_some H; subst v. rewrite Z.lor_comm.
    apply (create_assigned_shape _ _ _ _ RIPAS_EMPTY); [done|exact E|tauto].
  - inv_some H; subst v. apply (create_assigned_shape _ _ _ _ RIPAS_RAM); [done|exact E|tauto].
  - inv_some H; subst v. rewrite Z.lor_comm.
    apply (create_assigned_shape _ _ _ _ RIPAS_DESTROYED); [done|exact E|tauto].
  - eapply create_ns_shape; eauto.
  - inv_some H; subst v. rewrite Z.lor_comm.
    apply (create_assigned_dev_shape _ _ _ _ RIPAS_EMPTY); [done|exact E|tauto].
  - inv_some H; subst v. rewrite Z.lor_comm.
    apply (create_assigned_dev_shape _ _ _ _ RIPAS_DESTROYED); [done|exact E|tauto].
  - eapply create_dev_dev_shape; eauto.
  - eapply create_table_shape; eauto.
Qed.

(** Class bits of any built descriptor, live or not. *)
Lemma built_class_bits ctx lpa2 level k pa v :
  s2tt_lpa2_enabled ctx = Some lpa2 -> built ctx level k pa v ->
  class_bits lpa2 level k (Z.land v (class_mask lpa2)).
Proof.
  intros Hl Hb. destruct (kind_live k) eqn:Hk.
  - destruct (built_live_shape _ _ _ _ _ _ Hl Hb Hk) as (t & r & -> & Ht & Ha & Hlv & _ & _ & _ & Hc).
    destruct (pa_to_s2tte_spec _ _ _ _ Hl Ha) as (t' & Ht' & Hm & _).
    rewrite Ht in Ht'. injection Ht' as <-. rewrite lor_class_l; [done|].
    eapply class_oa; [|exact Hm]. destruct k; cbn in *; unfold S2TT_PAGE_LEVEL; lia.
  - assert (Hap : forall ap, Z.land (s2tte_get_ap ctx ap false) (class_mask lpa2) = 0)
      by (intros ap; apply (ap_disjoint ctx lpa2 3 ap false); lia).
    destruct Hb; try discriminate Hk.
    all: unfold s2tte_create_unassigned_empty, s2tte_create_unassigned_ram,
      s2tte_create_unassigned_destroyed, s2tte_create_unassigned_ns; cbn [class_bits].
    all: rewrite ?Z.land_lor_distr_l, ?Hap; destruct lpa2; reflexivity.
Qed.

(** The eight memory attribute values the host can choose. *)
Lemma memattr_values m : Z.land m S2TTE_MEMATTR_MASK = m ->
  m = 0 \/ m = 4 \/ m = 8 \/ m = 12 \/ m = 16 \/ m = 20 \/ m = 24 \/ m = 28.
Proof.
  intros Hm. assert (Hq : m = Z.land (Z.shiftr m 2) 7 * 4).
  { rewrite <- Hm at 1. rewrite <- (Z.shiftl_mul_pow2 _ 2) by done. s2tt_simpl. done. }
  pose proof (land_range 3 (Z.shiftr m 2) 7 ltac:(lia) ltac:(lia)). lia.
Qed.

(** Class bits alone decide every predicate. *)
Lemma class_bits_is_kind ctx lpa2 level k c k' :
  s2tt_lpa2_enabled ctx = Some lpa2 -> -1 <= level <= 3 ->
  (kind_live k = true -> level_ok k level) ->
  class_bits lpa2 level k c -> is_kind ctx c level k' = Some (bool_decide (k = k')).
Proof.
  intros Hl Hlv Hlk Hc.
  destruct k; cbn [class_bits] in Hc; cbn [kind_live level_ok] in Hlk; try specialize (Hlk eq_refl).
  all: try (destruct Hc as (m & Hm%memattr_values & Hc)); try (destruct Hc as [Hc|Hc]).
  all: level_cases level; destruct lpa2; try (destruct_or! Hm); subst.
  all: destruct k'; try reflexivity; cbn [is_kind]; unfold s2tte_is_assigned_dev_dev;
       rewrite Hl; reflexivity.
Qed.

Lemma class_bits_ripas ctx lpa2 level k c :
  -1 <= level <= 3 -> class_bits lpa2 level k c ->
  match kind_ripas k with Some r => s2tte_get_ripas ctx c = Some r | None => True end.
Proof.
  intros Hlv Hc. destruct k; cbn [class_bits kind_ripas] in *; try exact I.
  all: try (destruct Hc as [Hc|Hc]); subst c; level_cases level; destruct lpa2; reflexivity.
Qed.

Lemma class_bits_live ctx lpa2 level k c :
  -1 <= level <= 3 -> class_bits lpa2 level k c -> s2tte_has_pa ctx c level = kind_live k.
Proof.
  intros Hlv Hc. destruct k; cbn [class_bits kind_live] in *.
  all: try (destruct Hc as (m & Hm%memattr_values & Hc)); try (destruct Hc as [Hc|Hc]).
  all: level_cases level; destruct lpa2; try (destruct_or! Hm); subst; reflexivity.
Qed.

Lemma built_level ctx lpa2 level k pa v :
  s2tt_lpa2_enabled ctx = Some lpa2 -> built ctx level k pa v -> kind_live k = true ->
  level_ok k level.
Proof.
  intros Hl Hb Hk. by destruct (built_live_shape _ _ _ _ _ _ Hl Hb Hk) as (? & ? & ? & ? & ? & ? & ? & ? & ?).
Qed.

Lemma built_is_table ctx lpa2 level k pa v :
  s2tt_lpa2_enabled ctx = Some lpa2 -> -1 <= level <= 3 -> built ctx level k pa v ->
  s2tte_is_table ctx v level = bool_decide (k = K_table).
Proof.
  intros Hl Hlv Hb.
  assert (is_kind ctx v level K_table = Some (bool_decide (k = K_table))) as [= ->]; [|done].
  rewrite <- (is_kind_class _ _ _ _ _ Hl).
  eapply class_bits_is_kind; eauto using built_class_bits, built_level.
Qed.

Lemma built_is_kind ctx lpa2 level k pa v k' :
  s2tt_lpa2_enabled ctx = Some lpa2 -> -1 <= level <= 3 -> built ctx level k pa v ->
  is_kind ctx v level k' = Some (bool_decide (k = k')).
Proof.
  intros Hl Hlv Hb. rewrite <- (is_kind_class _ _ _ _ _ Hl).
  eapply class_bits_is_kind; eauto using built_class_bits, built_level.
Qed.


Lemma built_pa ctx lpa2 level k pa v :
  s2tt_lpa2_enabled ctx = Some lpa2 -> built ctx level k pa v -> kind_live k = true ->
  s2tte_pa ctx v level = Some pa.
Proof.
  intros Hl Hb Hk.
  destruct (built_live_shape _ _ _ _ _ _ Hl Hb Hk) as (t & r & -> & Ht & Ha & Hlv & Hlv0 & Hlk & Hr & _).
  destruct (pa_to_s2tte_spec _ _ _ _ Hl Ha) as (t' & Ht' & _ & Hpa).
  rewrite Ht in Ht'. injection Ht' as <-.
  assert (Hlive : s2tte_has_pa ctx (Z.lor t r) level = true).
  { rewrite <- Hk, <- (s2tte_has_pa_class _ lpa2).
    eapply class_bits_live; eauto using built_class_bits. }
  pose proof (built_is_table ctx lpa2 level k pa _ Hl Hlv Hb) as Htbl.
  unfold s2tte_pa. rewrite Hl. cbn [mbind option_bind].
  unfold S2TT_PAGE_LEVEL, S2TT_MIN_STARTING_LEVEL, S2TT_MIN_STARTING_LEVEL_LPA2.
  rewrite Hlive, Htbl, (proj2 (Z.leb_le level 3)) by lia.
  destruct lpa2; rewrite (proj2 (Z.leb_le _ level)) by lia.
  all: destruct k; try discriminate Hk; exact (Hpa r Hr).
Qed.

(** the output address written into a descriptor is read back by [s2tte_pa],
    for blocks, pages and tables, with and without LPA2. *)
Theorem s2tte_pa_roundtrip ctx lpa2 level k pa v :
  s2tt_lpa2_enabled ctx = Some lpa2 -> built ctx level k pa v -> kind_live k = true ->
  s2tte_pa ctx v level = Some pa.
Proof. apply built_pa. Qed.

(** the RIPAS of a descriptor is the one its constructor names, and
    [s2tte_get_ripas] never trips its assertions on a built descriptor. *)
Theorem s2tte_ripas_roundtrip ctx lpa2 level k pa v r :
  s2tt_lpa2_enabled ctx = Some lpa2 -> -1 <= level <= 3 -> built ctx level k pa v ->
  kind_ripas k = Some r -> s2tte_get_ripas ctx v = Some r /\ s2tte_has_ripas ctx v level = true.
Proof.
  intros Hl Hlv Hb Hr. pose proof (built_class_bits _ _ _ _ _ _ Hl Hb) as Hc. split.
  - rewrite <- (s2tte_get_ripas_class _ lpa2).
    pose proof (class_bits_ripas ctx _ _ _ _ Hlv Hc) as H. by rewrite Hr in H.
  - unfold s2tte_has_ripas. rewrite (built_is_table _ _ _ _ _ _ Hl Hlv Hb).
    rewrite <- (land_class lpa2) by (by destruct lpa2).
    destruct k; try discriminate Hr; cbn [class_bits] in Hc;
      try (destruct Hc as [Hc|Hc]); rewrite Hc; destruct lpa2; level_cases level; reflexivity.
Qed.

(** ** Constructors are total on valid arguments *)

Lemma aligned_pa_some ctx lpa2 pa level :
  s2tt_lpa2_enabled ctx = Some lpa2 -> s2tte_is_addr_lvl_aligned ctx pa level = Some true ->
  exists t, pa_to_s2tte ctx pa = Some t.
Proof. intros Hl Ha. destruct (pa_to_s2tte_spec _ _ _ _ Hl Ha) as (t & ? & _). eauto. Qed.

(** With a level-aligned output address at a block or page level, no
    constructor of a protected or device descriptor trips an assertion. *)
Theorem s2tte_constructors_total ctx lpa2 pa level ap ty :
  s2tt_lpa2_enabled ctx = Some lpa2 -> 1 <= level <= 3 ->
  s2tte_is_addr_lvl_aligned ctx pa level = Some true ->
  is_Some (s2tte_create_assigned_empty ctx pa level ap) /\
  is_Some (s2tte_create_assigned_ram ctx pa level ap) /\
  is_Some (s2tte_create_assigned_destroyed ctx pa level ap) /\
  is_Some (s2tte_create_assigned_dev_empty ctx pa level ap) /\
  is_Some (s2tte_create_assigned_dev_destroyed ctx pa level ap) /\
  is_Some (s2tte_create_assigned_dev_dev_coh_type ctx pa level ty ap) /\
  (level < 3 -> is_Some (s2tte_create_table ctx pa level)).
Proof.
  intros Hl Hlv Ha. destruct (aligned_pa_some _ _ _ _ Hl Ha) as [t Ht].
  assert (Hg : GRANULE_ALIGNED pa = true).
  { destruct (addr_lvl_aligned_inv _ _ _ _ Hl Ha) as (_ & _ & ->). apply GRANULE_ALIGNED_spec.
    exists (Z.land (Z.shiftr pa 12) (Z.shiftr (BIT_MASK_ULL (if lpa2 then 51 else 47) ((3 - level) * 9 + 12)) 12)).
    unfold GRANULE_SIZE, GRANULE_SHIFT. rewrite <- Z.shiftl_mul_pow2 by done.
    level_cases level; destruct lpa2; repeat s2tt_eval_step; mask_simpl; done. }
  unfold s2tte_create_assigned_empty, s2tte_create_assigned_ram, s2tte_create_assigned_destroyed,
    s2tte_create_assigned_dev_empty, s2tte_create_assigned_dev_destroyed,
    s2tte_create_assigned_dev_dev_coh_type, s2tte_create_assigned, s2tte_create_assigned_dev,
    create_assigned_dev_dev_attr, s2tte_create_table, S2TT_MIN_BLOCK_LEVEL, S2TT_MIN_DEV_BLOCK_LEVEL,
    S2TT_PAGE_LEVEL, S2TT_MIN_STARTING_LEVEL_LPA2, S2TT_MIN_STARTING_LEVEL.
  rewrite Hl, Ha, Ht. cbn [mbind option_bind]. rewrite Hg.
  rewrite (proj2 (Z.leb_le 1 level)), (proj2 (Z.leb_le level 3)) by lia.
  split_and!; try (destruct (level =? 3); by eexists).
  intros Hlt. rewrite (proj2 (Z.ltb_lt level 3)) by lia.
  destruct lpa2; rewrite (proj2 (Z.leb_le _ level)) by lia; by eexists.
Qed.

(** ** Deferred-drain metadata *)

(** Unassigned descriptors leave the software window and the address field clear. *)
Lemma built_unassigned_window ctx lpa2 level k pa v :
  s2tt_lpa2_enabled ctx = Some lpa2 -> built ctx level k pa v -> kind_live k = false ->
  Z.land v (BIT_MASK_ULL (S2TTE_OA_BITS_LPA2 - 1) GRANULE_SHIFT) = 0.
Proof.
  intros Hl Hb Hk. destruct Hb; try discriminate Hk.
  all: unfold s2tte_create_unassigned_empty, s2tte_create_unassigned_ram,
    s2tte_create_unassigned_destroyed, s2tte_create_unassigned_ns, s2tte_get_ap, s2tte_set_pi_index,
    S2TTE_DEF_BASE_PERM_IDX, S2AP_IND_BASE_PERM_IDX_RW_upX.
  all: try (destruct (indirect_s2ap ctx)); cbn [negb]; s2tt_simpl; done.
Qed.

Lemma built_unassigned_clear ctx level k pa v :
  built ctx level k pa v -> kind_live k = false -> Z.land v (not64 S2TTE_SW_DRAIN_MASK) = v.
Proof.
  intros Hb Hk. destruct Hb; try discriminate Hk.
  all: unfold s2tte_create_unassigned_empty, s2tte_create_unassigned_ram,
    s2tte_create_unassigned_destroyed, s2tte_create_unassigned_ns.
  all: try rewrite <- (s2tte_get_ap_masked ctx ap false); destruct (indirect_s2ap ctx);
    s2tt_simpl; done.
Qed.

(** What the RMM reads from a descriptor through masks outside the window. *)
Lemma drain_mask v h m :
  0 <= h < 2 ^ 16 -> Z.land m S2TTE_SW_DRAIN_MASK = 0 ->
  Z.land (Z.lor v (Z.lor S2TTE_SW_DRAIN_PENDING_BIT (INPLACE F_SW_HANDLE h))) m = Z.land v m.
Proof.
  intros Hh Hm%land_zero_lnot. rewrite Hm.
  assert (Hi : INPLACE F_SW_HANDLE h = Z.land (INPLACE F_SW_HANDLE h) (MASK F_SW_HANDLE))
    by (rewrite INPLACE_masked; [done|split; cbn; lia|done]).
  rewrite Hi. generalize (INPLACE F_SW_HANDLE h). intros w.
  rewrite (Z.land_comm m), Z.land_lor_distr_l, Z.land_lor_distr_l, !Z.land_assoc.
  rewrite <- (Z.land_assoc w). s2tt_simpl. done.
Qed.

(** What the RMM reads from the window itself. *)
Lemma drain_window h :
  0 <= h < 2 ^ 16 ->
  let m := Z.lor S2TTE_SW_DRAIN_PENDING_BIT (INPLACE F_SW_HANDLE h) in
  Z.land m S2TTE_SW_DRAIN_PENDING_BIT = S2TTE_SW_DRAIN_PENDING_BIT /\
  Z.land m (not64 S2TTE_SW_DRAIN_MASK) = 0 /\ u32 (EXTRACT F_SW_HANDLE m) = h.
Proof.
  intros Hh m. assert (Hf : field_ok F_SW_HANDLE) by (split; cbn; lia).
  assert (Hi : INPLACE F_SW_HANDLE h = Z.land (INPLACE F_SW_HANDLE h) (MASK F_SW_HANDLE))
    by (by rewrite INPLACE_masked).
  unfold m. split_and!.
  - rewrite Hi. generalize (INPLACE F_SW_HANDLE h). intros w. s2tt_simpl. done.
  - rewrite Hi. generalize (INPLACE F_SW_HANDLE h). intros w. s2tt_simpl. done.
  - rewrite EXTRACT_lor, EXTRACT_INPLACE by done. apply Z.mod_small. cbn. lia.
Qed.

(** Stamping a drain-pending mark and handle on an unassigned descriptor
    succeeds for every 16-bit handle, is visible to the readers, keeps the
    descriptor's class and permissions, and is undone exactly by clearing. *)
Theorem s2tte_drain_metadata_transparent ctx lpa2 level k pa v h k' :
  s2tt_lpa2_enabled ctx = Some lpa2 -> -1 <= level <= 3 -> built ctx level k pa v ->
  kind_live k = false -> 0 <= h < 2 ^ 16 ->
  exists v', s2tte_set_drain_pending v h = Some v' /\
    s2tte_drain_pending v = false /\ s2tte_drain_pending v' = true /\
    s2tte_drain_handle v' = Some h /\ s2tte_clear_drain_pending v' = v /\
    is_kind ctx v' level k' = is_kind ctx v level k' /\
    s2tte_is_live ctx v' level = false /\
    s2tte_get_ap ctx v' false = s2tte_get_ap ctx v false.
Proof.
  intros Hl Hlv Hb Hk Hh.
  pose proof (built_unassigned_window _ _ _ _ _ _ Hl Hb Hk) as Hw.
  pose proof (built_class_bits _ _ _ _ _ _ Hl Hb) as Hc.
  pose proof (class_bits_live ctx _ _ _ _ Hlv Hc) as Hlive. rewrite s2tte_has_pa_class in Hlive.
  assert (Hu : s2tte_has_hipas v S2TTE_INVALID_HIPAS_UNASSIGNED = true).
  { rewrite <- (land_class_hipas lpa2). destruct k; try discriminate Hk; cbn [class_bits] in Hc;
      rewrite Hc; reflexivity. }
  pose proof (built_unassigned_clear _ _ _ _ _ Hb Hk) as Hv.
  assert (Hp : Z.land v S2TTE_SW_DRAIN_PENDING_BIT = 0)
    by (rewrite <- Hv, <- Z.land_assoc; s2tt_simpl; done).
  assert (Hh0 : Z.land h (not64 (Z.shiftr S2TTE_SW_HANDLE_MASK (f_shift F_SW_HANDLE))) = 0).
  { rewrite <- (land_ones_small 16 h), <- Z.land_assoc by lia. apply Z.land_0_r. }
  pose proof (drain_mask v h) as Hd.
  set (m := Z.lor S2TTE_SW_DRAIN_PENDING_BIT (INPLACE F_SW_HANDLE h)) in *.
  destruct (drain_window h Hh) as (Hm1 & Hm2 & Hm3). fold m in Hm1, Hm2, Hm3.
  assert (Hhip : forall x, s2tte_has_hipas (Z.lor v m) x = s2tte_has_hipas v x)
    by (intros x; unfold s2tte_has_hipas; by rewrite !Hd).
  exists (Z.lor v m). split_and!.
  - unfold s2tte_set_drain_pending. rewrite Hh0, Hp, Hv, Hw. cbn [Z.eqb].
    by rewrite <- Z.lor_assoc.
  - unfold s2tte_drain_pending. rewrite Hp. apply andb_false_r.
  - unfold s2tte_drain_pending. rewrite Hhip, Hu, Z.land_lor_distr_l, Hp, Hm1. done.
  - unfold s2tte_drain_handle. rewrite Hhip, Hu, EXTRACT_lor.
    assert (EXTRACT F_SW_HANDLE v = 0) as ->; [|by rewrite Z.lor_0_l, Hm3].
    unfold EXTRACT. rewrite <- Hv, <- Z.land_assoc. s2tt_simpl. done.
  - unfold s2tte_clear_drain_pending. by rewrite Z.land_lor_distr_l, Hv, Hm2, Z.lor_0_r.
  - rewrite <- (is_kind_class _ _ (Z.lor v m) _ _ Hl), Hd by (by destruct lpa2).
    by apply is_kind_class.
  - unfold s2tte_is_live. rewrite <- (s2tte_has_pa_class _ lpa2), Hd by (by destruct lpa2).
    by rewrite s2tte_has_pa_class, Hlive.
  - unfold s2tte_get_ap. by rewrite !Hd.
Qed.
End Props.

(** All twelve answers of the predicates on a descriptor of kind [k]. *)
Ltac kind_answers H :=
  let go k := (let E := fresh "A" in pose proof (H k) as E;
               match type of E with context [@bool_decide ?P ?d] =>
                 let b := eval vm_compute in (@bool_decide P d) in
                 change (@bool_decide P d) with b in E end;
               cbn [is_kind] in E;
               lazymatch type of E with Some _ = Some _ => injection E as E | _ => idtac end) in
  go K_unassigned_empty; go K_unassigned_ram; go K_unassigned_destroyed; go K_unassigned_ns;
  go K_assigned_empty; go K_assigned_ram; go K_assigned_destroyed; go K_assigned_ns;
  go K_assigned_dev_empty; go K_assigned_dev_destroyed; go K_assigned_dev_dev; go K_table.

Ltac use_answers :=
  repeat match goal with
  | A : ?x = Some true |- context [?x] => rewrite A; cbn [mbind option_bind]
  | A : ?x = Some false |- context [?x] => rewrite A; cbn [mbind option_bind]
  | A : ?x = true |- context [?x] => rewrite A
  | A : ?x = false |- context [?x] => rewrite A
  end.

(** ** Concrete instances *)

(** A 40-bit realm with direct permissions, and a 52-bit one with indirection. *)
Definition demo_ctx : s2tt_context := S2Ctx 40 1 1 0 1 false 0 0 (2 ^ 40).
Definition demo_ctx_lpa2 : s2tt_context := S2Ctx 52 (-1) 1 0 1 true 0 0 (2 ^ 52).

#[local] Existing Instance demo_features.

Definition demo_ram : Z :=
  Eval vm_compute in default 0 (s2tte_create_assigned_ram demo_ctx_lpa2 0xC000040000000 2 0).


Lemma s2tte_pa_roundtrip_witness : s2tte_pa demo_ctx_lpa2 demo_ram 2 = Some 0xC000040000000.
Proof.
  apply (s2tte_pa_roundtrip demo_ctx_lpa2 true 2 K_assigned_ram);
    [reflexivity|apply (b_ar _ _ _ 0); vm_compute; reflexivity|reflexivity].
Defined.

Lemma s2tte_ripas_roundtrip_witness :
  s2tte_get_ripas demo_ctx_lpa2 demo_ram = Some RIPAS_RAM /\ s2tte_has_ripas demo_ctx_lpa2 demo_ram 2 = true.
Proof.
  apply (s2tte_ripas_roundtrip demo_ctx_lpa2 true 2 K_assigned_ram 0xC000040000000);
    [reflexivity|lia|apply (b_ar _ _ _ 0); vm_compute; reflexivity|reflexivity].
Defined.

Lemma s2tte_constructors_total_witness :
  is_Some (s2tte_create_assigned_empty demo_ctx 0x80000000 2 0).
Proof.
  destruct (s2tte_constructors_total demo_ctx false 0x80000000 2 0 DEV_MEM_COHERENT) as [H _];
    [reflexivity|lia|vm_compute; reflexivity|exact H].
Defined.

Lemma s2tte_drain_metadata_transparent_witness :
  exists v', s2tte_set_drain_pending (s2tte_create_unassigned_ram demo_ctx 0) 77 = Some v' /\
    s2tte_drain_handle v' = Some 77.
Proof.
  destruct (s2tte_drain_metadata_transparent demo_ctx false 2 K_unassigned_ram 0
    (s2tte_create_unassigned_ram demo_ctx 0) 77 K_unassigned_ram) as (v' & Hs & _ & _ & Hh & _);
    [reflexivity|lia|constructor|reflexivity|lia|].
  exists v'. split; assumption.
Defined.
