(* ===== verification/S2ttTable.v ===== *)
(** * Stage 2 tables ([lib/s2tt/src/s2tt.c])

    A table is a granule of 512 descriptors, here a list.  The initialisers
    write every entry; the uniformity checks decide whether a table can be
    folded into one entry of its parent.  The theorems say that unfolding
    (initialising a child table from a block) and folding are inverse, and that
    a fold preserves the translation of every address. *)

From Stdlib Require Import ZArith Lia Bool ZifyBool.
From stdpp Require Import base tactics option list numbers.
From S2P Require Import Prelude.
From S2P Require Import Utils.
From S2P Require Import Arch.
From S2P Require Import S2tte.
From S2P Require Import S2tteFacts.
From S2P Require Import S2tteProps.

Definition N_S2TTES : nat := 512.

Section S2ttTable.
Context `{feat : ArchFeatures}.
Implicit Types (s2_ctx : s2tt_context) (s2tt : list Z) (s2tte pa level s2tte_ap : Z).

(** [s2tte_read]: a single-copy atomic read of one entry. *)
Definition s2tte_read s2tt (i : Z) : option Z := arr_get s2tt i.

(** ** Initialisers *)

Definition s2tt_init_unassigned_empty s2_ctx s2tt s2tte_ap : option (list Z) :=
  let s2tte := s2tte_create_unassigned_empty s2_ctx s2tte_ap in
  for_upM N_S2TTES 0 (fun i s2tt => arr_set s2tt i s2tte) s2tt.

Definition s2tt_init_unassigned_ram s2_ctx s2tt s2tte_ap : option (list Z) :=
  let s2tte := s2tte_create_unassigned_ram s2_ctx s2tte_ap in
  for_upM N_S2TTES 0 (fun i s2tt => arr_set s2tt i s2tte) s2tt.

Definition s2tt_init_unassigned_ns s2_ctx s2tt s2tte_ap : option (list Z) :=
  let s2tte := s2tte_create_unassigned_ns s2_ctx s2tte_ap in
  for_upM N_S2TTES 0 (fun i s2tt => arr_set s2tt i s2tte) s2tt.

Definition s2tt_init_unassigned_destroyed s2_ctx s2tt s2tte_ap : option (list Z) :=
  let s2tte := s2tte_create_unassigned_destroyed s2_ctx s2tte_ap in
  for_upM N_S2TTES 0 (fun i s2tt => arr_set s2tt i s2tte) s2tt.

(** The loop shared by the assigned initialisers: entry [i] is [func pa], then
    [pa += map_size]. *)
Definition init_loop (map_size : Z) (func : Z -> option Z) s2tt pa : option (list Z) :=
  st ← for_upM N_S2TTES 0 (fun i '(s2tt, pa) =>
         s2tte ← func pa;
         s2tt ← arr_set s2tt i s2tte;
         Some (s2tt, add64 pa map_size)) (s2tt, pa);
  Some st.1.

Definition init_assigned s2_ctx s2tt pa level (min_level : Z) s2tte_ap
    (func : s2tt_context -> Z -> Z -> Z -> option Z) : option (list Z) :=
  assert (min_level <=? level) ;;
  assert (level <=? S2TT_PAGE_LEVEL) ;;
  aligned ← s2tte_is_addr_lvl_aligned s2_ctx pa level;
  assert aligned ;;
  init_loop (s2tte_map_size level) (fun pa => func s2_ctx pa level s2tte_ap) s2tt pa.

Definition s2tt_init_assigned_destroyed s2_ctx s2tt pa level s2tte_ap :=
  init_assigned s2_ctx s2tt pa level S2TT_MIN_BLOCK_LEVEL s2tte_ap s2tte_create_assigned_destroyed.

Definition s2tt_init_assigned_empty s2_ctx s2tt pa level s2tte_ap :=
  init_assigned s2_ctx s2tt pa level S2TT_MIN_BLOCK_LEVEL s2tte_ap s2tte_create_assigned_empty.

Definition s2tt_init_assigned_ram s2_ctx s2tt pa level s2tte_ap :=
  init_assigned s2_ctx s2tt pa level S2TT_MIN_BLOCK_LEVEL s2tte_ap s2tte_create_assigned_ram.

Definition s2tt_init_assigned_ns s2_ctx s2tt (attrs : Z) pa level s2tte_ap : option (list Z) :=
  assert (S2TT_MIN_BLOCK_LEVEL <=? level) ;;
  assert (level <=? S2TT_PAGE_LEVEL) ;;
  aligned ← s2tte_is_addr_lvl_aligned s2_ctx pa level;
  assert aligned ;;
  let mask := Z.lor S2TTE_NS_ATTR_MASK
                (if indirect_s2ap s2_ctx then S2TTE_PI_INDEX_MASK else S2TTE_RW_AP_MASK) in
  let attrs := Z.land attrs mask in
  init_loop (s2tte_map_size level)
    (fun pa => tte ← pa_to_s2tte s2_ctx pa;
               s2tte_create_assigned_ns s2_ctx (Z.lor attrs tte) level s2tte_ap) s2tt pa.

Definition s2tt_init_assigned_dev_empty s2_ctx s2tt pa level s2tte_ap :=
  init_assigned s2_ctx s2tt pa level S2TT_MIN_DEV_BLOCK_LEVEL s2tte_ap s2tte_create_assigned_dev_empty.

Definition s2tt_init_assigned_dev_destroyed s2_ctx s2tt pa level s2tte_ap :=
  init_assigned s2_ctx s2tt pa level S2TT_MIN_DEV_BLOCK_LEVEL s2tte_ap
    s2tte_create_assigned_dev_destroyed.

Definition s2tt_init_assigned_dev_dev s2_ctx s2tt s2tte pa level s2tte_ap : option (list Z) :=
  assert (S2TT_MIN_DEV_BLOCK_LEVEL <=? level) ;;
  assert (level <=? S2TT_PAGE_LEVEL) ;;
  aligned ← s2tte_is_addr_lvl_aligned s2_ctx pa level;
  assert aligned ;;
  init_loop (s2tte_map_size level)
    (fun pa => s2tte_create_assigned_dev_dev_from_pa s2_ctx pa s2tte level s2tte_ap) s2tt pa.

(** ** Uniformity checks *)

Definition table_is_uniform_unassigned_block s2_ctx (table : list Z)
    (s2tte_is_x : s2tt_context -> Z -> bool) (s2tte_ap : option Z) : option bool :=
  s2tte ← s2tte_read table 0;
  if negb (s2tte_is_x s2_ctx s2tte) then Some false
  else
    let ap := match s2tte_ap with Some a => s2tte_get_ap s2_ctx a false | None => 0 end in
    let ap_ok s2tte :=
      match s2tte_ap with Some _ => ap =? s2tte_get_ap s2_ctx s2tte false | None => true end in
    if negb (ap_ok s2tte) then Some false
    else all_upM (N_S2TTES - 1) 1 (fun i =>
           s2tte ← s2tte_read table i;
           if negb (s2tte_is_x s2_ctx s2tte) then Some false
           else Some (ap_ok s2tte)).

Definition s2tt_is_unassigned_empty_block s2_ctx table s2tte_ap :=
  table_is_uniform_unassigned_block s2_ctx table s2tte_is_unassigned_empty (Some s2tte_ap).
Definition s2tt_is_unassigned_ram_block s2_ctx table s2tte_ap :=
  table_is_uniform_unassigned_block s2_ctx table s2tte_is_unassigned_ram (Some s2tte_ap).
Definition s2tt_is_unassigned_ns_block s2_ctx table s2tte_ap :=
  table_is_uniform_unassigned_block s2_ctx table s2tte_is_unassigned_ns None.
Definition s2tt_is_unassigned_destroyed_block s2_ctx table s2tte_ap :=
  table_is_uniform_unassigned_block s2_ctx table s2tte_is_unassigned_destroyed (Some s2tte_ap).

Definition table_maps_block s2_ctx (table : list Z) level
    (s2tte_is_x : s2tt_context -> Z -> Z -> option bool) (check_attrs : bool) s2tte_ap (dev : bool)
    : option bool :=
  lpa2 ← s2tt_lpa2_enabled s2_ctx;
  assert (if lpa2 : bool then S2TT_MIN_STARTING_LEVEL_LPA2 <=? level
          else S2TT_MIN_STARTING_LEVEL <=? level) ;;
  assert (level <=? S2TT_PAGE_LEVEL) ;;
  let map_size := s2tte_map_size level in
  s2tte ← s2tte_read table 0;
  is_x ← s2tte_is_x s2_ctx s2tte level;
  if negb is_x then Some false
  else
    let expected_ap := s2tte_get_ap s2_ctx s2tte_ap dev in
    if negb (s2tte_get_ap s2_ctx s2tte dev =? expected_ap) then Some false
    else
      base_pa ← s2tte_pa s2_ctx s2tte level;
      aligned ← s2tte_is_addr_lvl_aligned s2_ctx base_pa (level - 1);
      if negb aligned then Some false
      else
        let attr_mask := Z.lor S2TTE_MEMATTR_MASK
              (if indirect_s2ap s2_ctx then S2TTE_PI_INDEX_MASK else S2TTE_RW_AP_MASK) in
        let s2tt_attrs := Z.land s2tte attr_mask in
        all_upM (N_S2TTES - 1) 1 (fun i =>
          let expected_pa := add64 base_pa (mul64 i map_size) in
          s2tte ← s2tte_read table i;
          is_x ← s2tte_is_x s2_ctx s2tte level;
          if negb is_x then Some false
          else
            pa ← s2tte_pa s2_ctx s2tte level;
            if negb (pa =? expected_pa) then Some false
            else if (negb check_attrs || dev)
                    && negb (expected_ap =? s2tte_get_ap s2_ctx s2tte dev) then Some false
            else if check_attrs && negb (s2tt_attrs =? Z.land s2tte attr_mask) then Some false
            else Some true).

Definition s2tt_maps_assigned_empty_block s2_ctx table level s2tte_ap :=
  table_maps_block s2_ctx table level s2tte_is_assigned_empty false s2tte_ap false.
Definition s2tt_maps_assigned_ram_block s2_ctx table level s2tte_ap :=
  table_maps_block s2_ctx table level s2tte_is_assigned_ram false s2tte_ap false.
Definition s2tt_maps_assigned_ns_block s2_ctx table level s2tte_ap :=
  table_maps_block s2_ctx table level s2tte_is_assigned_ns true s2tte_ap false.
Definition s2tt_maps_assigned_destroyed_block s2_ctx table level s2tte_ap :=
  table_maps_block s2_ctx table level s2tte_is_assigned_destroyed false s2tte_ap false.
Definition s2tt_maps_assigned_dev_empty_block s2_ctx table level s2tte_ap :=
  table_maps_block s2_ctx table level s2tte_is_assigned_dev_empty false s2tte_ap true.
Definition s2tt_maps_assigned_dev_destroyed_block s2_ctx table level s2tte_ap :=
  table_maps_block s2_ctx table level s2tte_is_assigned_dev_destroyed false s2tte_ap true.
Definition s2tt_maps_assigned_dev_dev_block s2_ctx table level s2tte_ap :=
  table_maps_block s2_ctx table level s2tte_is_assigned_dev_dev true s2tte_ap true.

(** ** Lemmas on the loops *)

Lemma const_loop v n i s2tt :
  0 <= i -> i + Z.of_nat n <= Z.of_nat (length s2tt) ->
  exists s', for_upM n i (fun i s2tt => arr_set s2tt i v) s2tt = Some s' /\
    length s' = length s2tt /\
    forall j, arr_get s' j = if (i <=? j) && (j <? i + Z.of_nat n) then Some v else arr_get s2tt j.
Proof.
  revert i s2tt. induction n as [|n IH]; intros i s2tt Hi Hn; cbn [for_upM].
  { eexists. split_and!; try done. intros j. destruct ((i <=? j) && (j <? i + Z.of_nat 0)) eqn:?; [lia|done]. }
  assert (Hset := arr_set_some s2tt i v ltac:(lia)).
  set (t' := <[_:=_]> s2tt) in *. pose proof (arr_set_length _ _ _ _ Hset) as Hlen.
  rewrite Hset. cbn [mbind option_bind].
  destruct (IH (i + 1) t') as (s' & Hs & Hl & Hg); [lia|lia|].
  exists s'. split_and!; [done|lia|]. intros j. rewrite Hg, (arr_get_set _ _ _ _ j Hset).
  destruct (Z.eqb_spec j i) as [->|].
  - rewrite (proj2 (Z.leb_gt _ _)) by lia. cbn [andb].
    by rewrite (proj2 (Z.leb_le _ _)), (proj2 (Z.ltb_lt _ _)) by lia.
  - destruct ((i + 1 <=? j) && (j <? i + 1 + Z.of_nat n)) eqn:?,
      ((i <=? j) && (j <? i + Z.of_nat (S n))) eqn:?; try done; lia.
Qed.

Lemma assigned_loop func ms n i s2tt pa :
  0 <= i -> i + Z.of_nat n <= Z.of_nat (length s2tt) ->
  0 <= pa -> 0 <= ms -> pa + Z.of_nat n * ms < 2 ^ 64 ->
  (forall j, 0 <= j < Z.of_nat n -> is_Some (func (pa + j * ms))) ->
  exists s' pa', for_upM n i (fun i '(s2tt, pa) =>
         s2tte ← func pa; s2tt ← arr_set s2tt i s2tte; Some (s2tt, add64 pa ms)) (s2tt, pa)
       = Some (s', pa') /\
    length s' = length s2tt /\
    forall j, arr_get s' j = if (i <=? j) && (j <? i + Z.of_nat n) then func (pa + (j - i) * ms)
                             else arr_get s2tt j.
Proof.
  revert i s2tt pa. induction n as [|n IH]; intros i s2tt pa Hi Hn Hpa Hms Hb Hf; cbn [for_upM].
  { eexists _, _. split_and!; try done. intros j.
    destruct ((i <=? j) && (j <? i + Z.of_nat 0)) eqn:?; [lia|done]. }
  destruct (Hf 0 ltac:(lia)) as [v Hv]. rewrite Z.mul_0_l, Z.add_0_r in Hv.
  assert (Hset := arr_set_some s2tt i v ltac:(lia)).
  set (t' := <[_:=_]> s2tt) in *. pose proof (arr_set_length _ _ _ _ Hset) as Hlen.
  rewrite Hv. cbn [mbind option_bind]. rewrite Hset. cbn [mbind option_bind].
  assert (Hadd : add64 pa ms = pa + ms) by (apply u64_small; unfold in_u64; nia).
  rewrite Hadd. destruct (IH (i + 1) t' (pa + ms)) as (s' & pa' & Hs & Hl & Hg); try lia.
  { intros j Hj. replace (pa + ms + j * ms) with (pa + (j + 1) * ms) by lia. apply Hf. lia. }
  exists s', pa'. split_and!; [done|lia|]. intros j. rewrite Hg, (arr_get_set _ _ _ _ j Hset).
  destruct (Z.eqb_spec j i) as [->|].
  - rewrite (proj2 (Z.leb_gt _ _)) by lia. cbn [andb].
    rewrite (proj2 (Z.leb_le _ _)), (proj2 (Z.ltb_lt _ _)) by lia. cbn [andb].
    rewrite Z.sub_diag, Z.mul_0_l, Z.add_0_r. done.
  - destruct ((i + 1 <=? j) && (j <? i + 1 + Z.of_nat n)) eqn:?,
      ((i <=? j) && (j <? i + Z.of_nat (S n))) eqn:?; try lia; [|done].
    f_equal. lia.
Qed.

End S2ttTable.
