(* ===== verification/S2ttWalk.v ===== *)
(** * Stage 2 table walks ([lib/s2tt/src/s2tt.c])

    The memory of the walk: the descriptor word of each granule and the contents
    of each table granule.  A [struct granule *] is an opaque name; the mapping
    between names and physical addresses is the interface [GranuleNames], which
    the tracking-region code implements.  The walk is hand-over-hand: the theorem
    says that it ends, holds exactly the lock of the table it returns, and finds
    the entry a lock-free walk of the same tables finds. *)

From Stdlib Require Import ZArith Lia Bool ZifyBool.
From stdpp Require Import base tactics option list numbers gmap.
From S2P Require Import Prelude.
From S2P Require Import Utils.
From S2P Require Import Granule.
From S2P Require Import Mem.
From S2P Require Import Arch.
From S2P Require Import S2tte.
From S2P Require Import S2tteFacts.
From S2P Require Import S2tteProps.
From S2P Require Import S2ttTable.

Record s2tt_walk := Walk { g_llt : Z; index : Z; last_level : Z }.

(** A tree of tables: the level of each of its granules. *)
Abbreviation tree := (gmap Z Z).

Section Walk.
Context `{feat : ArchFeatures} `{names : GranuleNames}.
Implicit Types (s2_ctx : s2tt_context) (g : Z).

Definition s2_addr_to_idx (addr level : Z) : Z :=
  let s2tte_stride := if level <? S2TT_MIN_STARTING_LEVEL then S2TTE_STRIDE_LM1 else S2TTE_STRIDE in
  let levels := S2TT_PAGE_LEVEL - level in
  let lsb := levels * S2TTE_STRIDE + GRANULE_SHIFT in
  Z.land (Z.shiftr addr lsb) (shl64 1 s2tte_stride - 1).

Definition s2_sl_addr_to_idx (addr start_level ipa_bits : Z) : Z :=
  let levels := S2TT_PAGE_LEVEL - start_level in
  let lsb := levels * S2TTE_STRIDE + GRANULE_SHIFT in
  Z.shiftr (Z.land addr (shl64 1 ipa_bits - 1)) lsb.

Definition entry_is_table (entry : Z) : bool :=
  Z.land entry S2TT_DESC_TYPE_MASK =? S2TTE_L012_TABLE.

(** [table_get_entry]: the granule is mapped, one entry is read, it is unmapped. *)
Definition table_get_entry s2_ctx g_tbl (idx : Z) : M Z := fun m =>
  table ← tables m !! g_tbl; entry ← s2tte_read table idx; Some (entry, m).

Definition find_next_level_idx s2_ctx g_tbl (idx : Z) : M (option Z) :=
  entry <-! table_get_entry s2_ctx g_tbl idx ;;
  if negb (entry_is_table entry) then ret None
  else
    pa <-! lift (table_entry_to_phys s2_ctx entry) ;;
    g <-! lift (tr_addr_to_granule pa) ;;
    ret (Some g).

Definition find_lock_next_level s2_ctx g_tbl (map_addr level : Z) : M (option Z) :=
  let idx := s2_addr_to_idx map_addr level in
  g <-! find_next_level_idx s2_ctx g_tbl idx ;;
  match g with
  | Some g' => _ <-! m_granule_lock g' GRANULE_STATE_RTT ;; ret (Some g')
  | None => ret None
  end.

(** [for (i = start_level; i < level; i++)]; [n] counts the turns left.  Returns
    the last table and its level. *)
Fixpoint walk_loop s2_ctx (map_addr : Z) (n : nat) (i : Z) g : M (Z * Z) :=
  match n with
  | O => ret (g, i)
  | S n' =>
      next <-! find_lock_next_level s2_ctx g map_addr i ;;
      match next with
      | None => ret (g, i)
      | Some g' => _ <-! m_granule_unlock g ;; walk_loop s2_ctx map_addr n' (i + 1) g'
      end
  end.

(** The table the walk starts at: a concatenated root when the index says so. *)
Definition walk_root s2_ctx (map_addr : Z) : M Z :=
  let start_level := s2_starting_level s2_ctx in
  let g_root := g_rtt s2_ctx in
  let sl_idx := s2_sl_addr_to_idx map_addr start_level (ipa_bits s2_ctx) in
  if S2TTES_PER_S2TT <=? sl_idx then
    let tt_num := u32 (Z.shiftr sl_idx S2TTE_STRIDE) in
    _ <-! guard (tt_num <? num_root_rtts s2_ctx) ;;
    root_addr <-! lift (tr_granule_addr g_root) ;;
    g_concat_root <-! lift (tr_addr_to_granule (add64 root_addr (mul64 tt_num GRANULE_SIZE))) ;;
    _ <-! m_granule_lock g_concat_root GRANULE_STATE_RTT ;;
    _ <-! m_granule_unlock g_root ;;
    ret g_concat_root
  else ret g_root.

Definition s2tt_walk_lock_unlock s2_ctx (map_addr level : Z) : M s2tt_walk :=
  let start_level := s2_starting_level s2_ctx in
  _ <-! guard (start_level <=? level) ;;
  _ <-! guard (level <=? S2TT_PAGE_LEVEL) ;;
  _ <-! guard (map_addr <? shl64 1 (ipa_bits s2_ctx)) ;;
  lpa2 <-! lift (s2tt_lpa2_enabled s2_ctx) ;;
  _ <-! guard (if lpa2 : bool then ipa_bits s2_ctx <=? S2TTE_OA_BITS_LPA2
               else ipa_bits s2_ctx <=? S2TTE_OA_BITS) ;;
  g_root <-! walk_root s2_ctx map_addr ;;
  last <-! walk_loop s2_ctx map_addr (Z.to_nat (level - start_level)) start_level g_root ;;
  let '(g, last_level) := last in
  ret (Walk g (s2_addr_to_idx map_addr last_level) last_level).

(** The scan of [s2tt_skip_non_live_entries] from entry [i], [n] entries left:
    the index of the first live entry, or of the end. *)
Fixpoint skip_loop s2_ctx (table : list Z) (level : Z) (n : nat) (i : Z) : option Z :=
  match n with
  | O => Some i
  | S n' =>
      s2tte ← s2tte_read table i;
      if s2tte_is_live s2_ctx s2tte level then Some i else skip_loop s2_ctx table level n' (i + 1)
  end.

Definition s2tt_skip_non_live_entries s2_ctx (addr : Z) (table : list Z) (wi : s2tt_walk) : option Z :=
  assert (index wi <=? S2TTES_PER_S2TT) ;;
  assert (last_level wi <=? S2TT_PAGE_LEVEL) ;;
  lpa2 ← s2tt_lpa2_enabled s2_ctx;
  let min_starting_level :=
    if lpa2 : bool then S2TT_MIN_STARTING_LEVEL_LPA2 else S2TT_MIN_STARTING_LEVEL in
  assert (min_starting_level <=? last_level wi) ;;
  let level := last_level wi in
  s2tte ← s2tte_read table (index wi);
  if s2tte_is_live s2_ctx s2tte level then Some addr
  else
    let map_size := s2tte_map_size level in
    let addr := Z.land addr (not64 (sub64 map_size 1)) in
    i ← skip_loop s2_ctx table level (Z.to_nat (S2TTES_PER_S2TT - (index wi + 1))) (index wi + 1);
    Some (add64 addr (mul64 (i - index wi) map_size)).

(** ** A walk without locks *)

Definition next_table s2_ctx m g (map_addr i : Z) : option Z :=
  table ← tables m !! g;
  entry ← arr_get table (s2_addr_to_idx map_addr i);
  if entry_is_table entry then
    pa ← table_entry_to_phys s2_ctx entry; tr_addr_to_granule pa
  else None.

(** The table and level a translation of [map_addr] ends at. *)
Fixpoint pure_walk s2_ctx m (map_addr : Z) (n : nat) (i : Z) g : Z * Z :=
  match n with
  | O => (g, i)
  | S n' =>
      match next_table s2_ctx m g map_addr i with
      | None => (g, i)
      | Some g' => pure_walk s2_ctx m map_addr n' (i + 1) g'
      end
  end.

(** The roots of a realm: [num_root_rtts] tables at consecutive granules. *)
Definition pure_root s2_ctx (map_addr : Z) : option Z :=
  let sl_idx := s2_sl_addr_to_idx map_addr (s2_starting_level s2_ctx) (ipa_bits s2_ctx) in
  root_addr ← tr_granule_addr (g_rtt s2_ctx);
  tr_addr_to_granule (root_addr + (sl_idx / 512) * GRANULE_SIZE).

(** ** Well-formed table trees *)

(** Every granule of the tree is an unlocked RTT granule with 512 entries, and a
    table entry above the page level points to a granule of the tree one level
    down. *)
Record tree_ok s2_ctx m (T : tree) : Prop := {
  tree_granule : forall g l, T !! g = Some l ->
    exists r, granule_at m g (AGranule false GRANULE_STATE_RTT r);
  tree_table : forall g l, T !! g = Some l ->
    exists tbl, tables m !! g = Some tbl /\ length tbl = N_S2TTES;
  tree_next : forall g l tbl idx e,
    T !! g = Some l -> tables m !! g = Some tbl -> l < S2TT_PAGE_LEVEL -> arr_get tbl idx = Some e ->
    entry_is_table e = true ->
    exists pa g', table_entry_to_phys s2_ctx e = Some pa /\ tr_addr_to_granule pa = Some g' /\
      T !! g' = Some (l + 1)
}.

Lemma lock_table s2_ctx m T g l :
  tree_ok s2_ctx m T -> T !! g = Some l ->
  m_granule_lock g GRANULE_STATE_RTT m = Some (tt, with_lock m g).
Proof.
  intros [Hgr _ _] Hg. destruct (Hgr g l Hg) as (r & Ha).
  by apply (with_lock_lock m g (AGranule false GRANULE_STATE_RTT r)).
Qed.

Lemma unlock_table s2_ctx m T g l :
  tree_ok s2_ctx m T -> T !! g = Some l -> m_granule_unlock g (with_lock m g) = Some (tt, m).
Proof.
  intros [Hgr _ _] Hg. destruct (Hgr g l Hg) as (r & Ha).
  by apply (with_lock_unlock m g (AGranule false GRANULE_STATE_RTT r)).
Qed.

(** Locking a granule outside the tree does not concern the tree. *)
Lemma tree_ok_with_lock s2_ctx m T g :
  tree_ok s2_ctx m T -> T !! g = None -> tree_ok s2_ctx (with_lock m g) T.
Proof.
  intros [Hgr Htb Hnx] Hg. split; [|exact Htb|exact Hnx].
  intros x l Hx. destruct (Hgr x l Hx) as (r & Ha). exists r.
  apply granule_at_with_lock_ne; [congruence|done].
Qed.

(** Hand over: lock [g'], release [g]. *)
Lemma handover s2_ctx m T g l g' l' :
  tree_ok s2_ctx m T -> T !! g = Some l -> T !! g' = Some l' -> g' <> g ->
  (_ <-! m_granule_lock g' GRANULE_STATE_RTT ;; m_granule_unlock g) (with_lock m g)
  = Some (tt, with_lock m g').
Proof.
  intros [Hgr _ _] Hg Hg' Hne. destruct (Hgr g l Hg) as (r & Ha). destruct (Hgr g' l' Hg') as (r' & Ha').
  unfold bind. rewrite (with_lock_lock (with_lock m g) g' (AGranule false GRANULE_STATE_RTT r')); try done.
  - rewrite with_lock_comm by done.
    apply (with_lock_unlock (with_lock m g') g (AGranule false GRANULE_STATE_RTT r)); [|done].
    by apply granule_at_with_lock_ne.
  - by apply granule_at_with_lock_ne.
Qed.

Lemma s2_addr_to_idx_range addr level :
  -1 <= level <= 3 -> 0 <= s2_addr_to_idx addr level < 512.
Proof.
  intros Hlv. unfold s2_addr_to_idx, S2TT_MIN_STARTING_LEVEL, S2TTE_STRIDE_LM1, S2TTE_STRIDE.
  destruct (level <? 0).
  - change (shl64 1 4 - 1) with (2 ^ 4 - 1).
    pose proof (land_range 4 (Z.shiftr addr ((S2TT_PAGE_LEVEL - level) * 9 + GRANULE_SHIFT)) (2 ^ 4 - 1)). lia.
  - change (shl64 1 9 - 1) with (2 ^ 9 - 1).
    pose proof (land_range 9 (Z.shiftr addr ((S2TT_PAGE_LEVEL - level) * 9 + GRANULE_SHIFT)) (2 ^ 9 - 1)). lia.
Qed.

(** One turn of the loop. *)
Lemma find_next_ok s2_ctx m T g addr i :
  tree_ok s2_ctx m T -> T !! g = Some i -> -1 <= i < 3 ->
  find_next_level_idx s2_ctx g (s2_addr_to_idx addr i) m = Some (next_table s2_ctx m g addr i, m) /\
  forall g', next_table s2_ctx m g addr i = Some g' -> T !! g' = Some (i + 1).
Proof.
  intros [_ Htb Hnext] Hg Hi. destruct (Htb g i Hg) as (tbl & Ht & Hlen).
  unfold find_next_level_idx, next_table, bind, table_get_entry.
  rewrite Ht. cbn [mbind option_bind]. unfold s2tte_read.
  destruct (arr_get_some tbl (s2_addr_to_idx addr i)) as [e He].
  { rewrite Hlen. pose proof (s2_addr_to_idx_range addr i). unfold N_S2TTES. lia. }
  rewrite He. cbn [mbind option_bind]. destruct (entry_is_table e) eqn:E; cbn [negb].
  - destruct (Hnext g i tbl _ e Hg Ht ltac:(unfold S2TT_PAGE_LEVEL; lia) He E) as (pa & g' & Hpa & Hg' & Hlv).
    unfold lift, ret. rewrite Hpa. cbn [mbind option_bind]. rewrite Hg'. split; [done|]. congruence.
  - split; [done|]. done.
Qed.

Lemma next_table_tables s2_ctx m1 m g addr i :
  tables m1 = tables m -> next_table s2_ctx m1 g addr i = next_table s2_ctx m g addr i.
Proof. intros Htb. unfold next_table. by rewrite Htb. Qed.

Lemma pure_walk_tables s2_ctx m1 m addr n i g :
  tables m1 = tables m -> pure_walk s2_ctx m1 addr n i g = pure_walk s2_ctx m addr n i g.
Proof.
  intros Htb. revert i g. induction n as [|n IH]; intros i g; cbn [pure_walk]; [done|].
  rewrite (next_table_tables s2_ctx m1 m) by done. case_match; [apply IH|done].
Qed.

(** Reading a table does not look at locks. *)
Lemma find_next_locked s2_ctx m T h g addr i :
  tree_ok s2_ctx m T -> T !! g = Some i -> -1 <= i < 3 ->
  find_next_level_idx s2_ctx g (s2_addr_to_idx addr i) (with_lock m h)
    = Some (next_table s2_ctx m g addr i, with_lock m h).
Proof.
  intros Ht Hg Hi. destruct (find_next_ok s2_ctx m T g addr i Ht Hg Hi) as [Hf _]. revert Hf.
  generalize (next_table s2_ctx m g addr i). intros r.
  unfold find_next_level_idx, bind, table_get_entry, lift, ret. rewrite with_lock_tables.
  destruct (tables m !! g); [|done]. cbn [mbind option_bind].
  destruct (s2tte_read _ _); [|done]. cbn [mbind option_bind]. case_match; [congruence|].
  destruct (table_entry_to_phys _ _) as [pa|]; [|done]. destruct (tr_addr_to_granule pa); [|done]. congruence.
Qed.

Lemma walk_loop_ok s2_ctx m T addr n :
  tree_ok s2_ctx m T -> forall i g, T !! g = Some i -> -1 <= i -> i + Z.of_nat n <= 3 ->
  exists gl il, walk_loop s2_ctx addr n i g (with_lock m g) = Some ((gl, il), with_lock m gl) /\
    (gl, il) = pure_walk s2_ctx m addr n i g /\ T !! gl = Some il /\ i <= il <= i + Z.of_nat n /\
    (il < i + Z.of_nat n -> next_table s2_ctx m gl addr il = None).
Proof.
  intros Ht. induction n as [|n IH]; intros i g Hg Hi Hb; cbn [walk_loop pure_walk].
  { exists g, i. split_and!; try done; lia. }
  destruct (find_next_ok s2_ctx m T g addr i Ht Hg ltac:(lia)) as [_ Hnx].
  unfold bind at 1, find_lock_next_level, bind at 1.
  rewrite (find_next_locked s2_ctx m T g g addr i Ht Hg) by lia.
  destruct (next_table s2_ctx m g addr i) as [g'|] eqn:En.
  - specialize (Hnx g' eq_refl). assert (Hne : g' <> g) by (intros ->; simplify_eq; lia).
    pose proof (handover s2_ctx m T g _ g' _ Ht Hg Hnx Hne) as Hm1. unfold bind in Hm1. unfold bind.
    destruct (m_granule_lock g' GRANULE_STATE_RTT (with_lock m g)) as [[[] m0]|]; [|done]. unfold ret.
    rewrite Hm1. destruct (IH (i + 1) g' Hnx ltac:(lia) ltac:(lia)) as (gl & il & Hw & Hp & Hs & Hil & Hstop).
    exists gl, il. rewrite Hw. split_and!; try done; try lia. intros Hlt. apply Hstop. lia.
  - exists g, i. unfold ret. split_and!; try done; lia.
Qed.

(** The roots of a realm are tables at its starting level. *)
Definition roots_ok s2_ctx (T : tree) : Prop :=
  exists root_addr, tr_addr_to_granule root_addr = Some (g_rtt s2_ctx) /\ 0 <= root_addr < 2 ^ 52 /\
    T !! g_rtt s2_ctx = Some (s2_starting_level s2_ctx) /\
    forall n, 0 <= n < num_root_rtts s2_ctx ->
      exists g, tr_addr_to_granule (root_addr + n * GRANULE_SIZE) = Some g /\
        T !! g = Some (s2_starting_level s2_ctx).

Lemma sl_idx_range addr start_level bits :
  0 <= addr < 2 ^ bits -> 0 <= bits <= 52 -> -1 <= start_level <= 3 ->
  s2_sl_addr_to_idx addr start_level bits = addr / 2 ^ ((3 - start_level) * 9 + 12) /\
  0 <= s2_sl_addr_to_idx addr start_level bits < 2 ^ 52.
Proof.
  intros Ha Hb Hs. unfold s2_sl_addr_to_idx, S2TT_PAGE_LEVEL, S2TTE_STRIDE, GRANULE_SHIFT, shl64.
  rewrite Z.shiftl_mul_pow2, Z.mul_1_l by lia.
  assert (2 ^ bits <= 2 ^ 52) by (apply Z.pow_le_mono_r; lia).
  rewrite u64_small by (unfold in_u64; lia).
  replace (2 ^ bits - 1) with (Z.ones bits) by (rewrite Z.ones_equiv; lia).
  rewrite land_ones_small by lia. rewrite Z.shiftr_div_pow2 by lia. split; [done|].
  assert (0 < 2 ^ ((3 - start_level) * 9 + 12)) by (apply Z.pow_pos_nonneg; lia).
  split; [apply Z.div_pos; lia|]. apply Z.div_lt_upper_bound; [lia|]. nia.
Qed.

Lemma walk_root_ok s2_ctx m T addr :
  roots_ok s2_ctx T -> tree_ok s2_ctx m T ->
  0 <= addr < 2 ^ ipa_bits s2_ctx -> 0 <= ipa_bits s2_ctx <= 52 -> -1 <= s2_starting_level s2_ctx <= 3 ->
  addr / 2 ^ ((3 - s2_starting_level s2_ctx) * 9 + 12) / 512 < num_root_rtts s2_ctx ->
  num_root_rtts s2_ctx <= 16 ->
  exists g, walk_root s2_ctx addr (with_lock m (g_rtt s2_ctx)) = Some (g, with_lock m g) /\
    pure_root s2_ctx addr = Some g /\ T !! g = Some (s2_starting_level s2_ctx).
Proof.
  intros (ra & Hra0 & Hrr & Hroot & Hroots) Hid Ha Hb Hs Hnum H16.
  destruct (sl_idx_range addr _ _ Ha Hb Hs) as [Hsl Hslr].
  pose proof (granule_names_inverse _ _ Hra0) as Hra.
  unfold walk_root, pure_root, S2TTES_PER_S2TT. rewrite <- Hsl in Hnum.
  set (sl := s2_sl_addr_to_idx addr _ _) in *. rewrite Hra. cbn [mbind option_bind].
  assert (Hq : 0 <= sl / 512) by (apply Z.div_pos; lia).
  destruct (Hroots (sl / 512) ltac:(lia)) as (g & Hg & Hgt).
  destruct (Z.leb_spec 512 sl).
  - assert (Hq1 : 1 <= sl / 512) by (apply Z.div_le_lower_bound; lia).
    assert (Htt : u32 (Z.shiftr sl S2TTE_STRIDE) = sl / 512).
    { unfold S2TTE_STRIDE. rewrite Z.shiftr_div_pow2 by lia. change (2 ^ 9) with 512.
      apply Z.mod_small. lia. }
    rewrite Htt. unfold bind at 1, guard. rewrite (proj2 (Z.ltb_lt _ _)) by done.
    unfold bind at 1, lift. unfold bind at 1.
    assert (Hadd : add64 ra (mul64 (sl / 512) GRANULE_SIZE) = ra + sl / 512 * GRANULE_SIZE).
    { change GRANULE_SIZE with 4096. unfold add64, mul64. rewrite (u64_small (_ * 4096)) by (unfold in_u64; lia).
      apply u64_small. unfold in_u64. lia. }
    rewrite Hadd, Hg.
    assert (Hne : g <> g_rtt s2_ctx).
    { intros ->. apply granule_names_inverse in Hg. rewrite Hra in Hg. injection Hg as Hg.
      change GRANULE_SIZE with 4096 in Hg. lia. }
    pose proof (handover s2_ctx m T (g_rtt s2_ctx) _ g _ Hid Hroot Hgt Hne) as Hm1.
    unfold bind in *. destruct (m_granule_lock g GRANULE_STATE_RTT _) as [[[] m0]|]; [|done].
    rewrite Hm1. unfold ret. by exists g.
  - assert (Hz : sl / 512 = 0) by (apply Z.div_small; lia). rewrite Hz in Hg.
    rewrite Z.mul_0_l, Z.add_0_r, Hra0 in Hg. injection Hg as <-.
    rewrite Hz, Z.mul_0_l, Z.add_0_r. exists (g_rtt s2_ctx). unfold ret. done.
Qed.

(** A realm's translation context: its IPA space fits the tables it starts with. *)
Record ctx_ok s2_ctx (lpa2 : bool) : Prop := {
  ctx_lpa2 : s2tt_lpa2_enabled s2_ctx = Some lpa2;
  ctx_bits : 0 <= ipa_bits s2_ctx <= (if lpa2 then 52 else 48);
  ctx_level : (if lpa2 then -1 else 0) <= s2_starting_level s2_ctx <= 3;
  ctx_roots : num_root_rtts s2_ctx <= 16;
  ctx_fits : forall addr, 0 <= addr < 2 ^ ipa_bits s2_ctx ->
    addr / 2 ^ ((3 - s2_starting_level s2_ctx) * 9 + 12) / 512 < num_root_rtts s2_ctx
}.

(** The walk moves the lock from the root to the last table and does nothing else. *)
Lemma walk_ok s2_ctx m T addr level lpa2 :
  ctx_ok s2_ctx lpa2 -> tree_ok s2_ctx m T -> roots_ok s2_ctx T ->
  0 <= addr < 2 ^ ipa_bits s2_ctx -> s2_starting_level s2_ctx <= level <= 3 ->
  exists root wi,
    s2tt_walk_lock_unlock s2_ctx addr level (with_lock m (g_rtt s2_ctx)) = Some (wi, with_lock m (g_llt wi)) /\
    pure_root s2_ctx addr = Some root /\
    (g_llt wi, last_level wi) = pure_walk s2_ctx m addr
       (Z.to_nat (level - s2_starting_level s2_ctx)) (s2_starting_level s2_ctx) root /\
    index wi = s2_addr_to_idx addr (last_level wi) /\ 0 <= index wi < S2TTES_PER_S2TT /\
    T !! g_llt wi = Some (last_level wi) /\
    s2_starting_level s2_ctx <= last_level wi <= level /\
    (last_level wi < level -> next_table s2_ctx m (g_llt wi) addr (last_level wi) = None).
Proof.
  intros [Hl Hib Hsl H16 Hfit] Ht Hr Ha Hlv. unfold s2tt_walk_lock_unlock.
  assert (Hib52 : 0 <= ipa_bits s2_ctx <= 52) by (destruct lpa2; lia).
  assert (Hsl1 : -1 <= s2_starting_level s2_ctx <= 3) by (destruct lpa2; lia).
  destruct (walk_root_ok s2_ctx m T addr Hr Ht Ha Hib52 Hsl1 (Hfit addr Ha) H16)
    as (root & Hroot & Hpr & Hrt).
  destruct (walk_loop_ok s2_ctx m T addr (Z.to_nat (level - s2_starting_level s2_ctx)) Ht
    (s2_starting_level s2_ctx) root Hrt ltac:(lia) ltac:(lia))
    as (gl & il & Hw & Hp & Hs & Hil & Hstop).
  unfold bind, guard, lift. rewrite Hl.
  rewrite (proj2 (Z.leb_le _ level)), (proj2 (Z.leb_le level S2TT_PAGE_LEVEL))
    by (unfold S2TT_PAGE_LEVEL; lia).
  assert (Hsh : (addr <? shl64 1 (ipa_bits s2_ctx)) = true).
  { unfold shl64. rewrite Z.shiftl_mul_pow2, Z.mul_1_l by lia.
    assert (2 ^ ipa_bits s2_ctx <= 2 ^ 52) by (apply Z.pow_le_mono_r; lia).
    rewrite u64_small by (unfold in_u64; lia). lia. }
  rewrite Hsh. replace (if lpa2 then _ else _) with true
    by (destruct lpa2; unfold S2TTE_OA_BITS_LPA2, S2TTE_OA_BITS; lia).
  rewrite Hroot, Hw. unfold ret.
  exists root, (Walk gl (s2_addr_to_idx addr il) il). cbn [g_llt index last_level].
  split_and!; try done; try lia.
  - apply s2_addr_to_idx_range. lia.
  - apply s2_addr_to_idx_range. lia.
  - intros Hlt. apply Hstop. lia.
Qed.

(** C30: on a well-formed tree, started with the root table locked, the walk never
    blocks on its own locks or trips an assertion; when it ends, the lock has moved
    from the root to the table it returns and nothing else has changed; that
    table, its level and the index are those a walk of the same tables without
    locks finds; and it stops short of the requested level only at an entry that
    is not a table. *)
Theorem s2tt_walk_correct s2_ctx m T addr level lpa2 :
  ctx_ok s2_ctx lpa2 -> tree_ok s2_ctx m T -> roots_ok s2_ctx T ->
  0 <= addr < 2 ^ ipa_bits s2_ctx -> s2_starting_level s2_ctx <= level <= 3 ->
  exists root wi,
    s2tt_walk_lock_unlock s2_ctx addr level (with_lock m (g_rtt s2_ctx)) = Some (wi, with_lock m (g_llt wi)) /\
    pure_root s2_ctx addr = Some root /\
    (g_llt wi, last_level wi) = pure_walk s2_ctx m addr
       (Z.to_nat (level - s2_starting_level s2_ctx)) (s2_starting_level s2_ctx) root /\
    index wi = s2_addr_to_idx addr (last_level wi) /\ 0 <= index wi < S2TTES_PER_S2TT /\
    T !! g_llt wi = Some (last_level wi) /\
    s2_starting_level s2_ctx <= last_level wi <= level /\
    (last_level wi < level -> next_table s2_ctx m (g_llt wi) addr (last_level wi) = None).
Proof. apply walk_ok. Qed.

(** ** Skipping entries that map nothing *)

Definition live_at s2_ctx (table : list Z) (level i : Z) : Prop :=
  exists e, arr_get table i = Some e /\ s2tte_is_live s2_ctx e level = true.

Lemma skip_loop_ok s2_ctx table level n i :
  0 <= i -> i + Z.of_nat n <= Z.of_nat (length table) ->
  exists j, skip_loop s2_ctx table level n i = Some j /\ i <= j <= i + Z.of_nat n /\
    (forall k, i <= k < j -> ~ live_at s2_ctx table level k) /\
    (j < i + Z.of_nat n -> live_at s2_ctx table level j).
Proof.
  revert i. induction n as [|n IH]; intros i Hi Hn; cbn [skip_loop].
  { exists i. split_and!; try done; lia. }
  destruct (arr_get_some table i ltac:(lia)) as [e He]. unfold s2tte_read. rewrite He.
  cbn [mbind option_bind]. destruct (s2tte_is_live s2_ctx e level) eqn:Hl.
  - exists i. split_and!; try done; try lia. intros _. by exists e.
  - destruct (IH (i + 1) ltac:(lia) ltac:(lia)) as (j & Hj & Hr & Hno & Hyes).
    exists j. split_and!; try done; try lia.
    + intros k Hk. destruct (decide (k = i)) as [->|]; [|apply Hno; lia].
      intros (e' & He' & Hl'). congruence.
    + intros Hlt. apply Hyes. lia.
Qed.

Lemma skip_non_live_ok s2_ctx lpa2 addr table wi :
  s2tt_lpa2_enabled s2_ctx = Some lpa2 -> length table = N_S2TTES ->
  0 <= index wi < S2TTES_PER_S2TT -> (if lpa2 then -1 else 0) <= last_level wi <= 3 ->
  0 <= addr -> addr + 512 * s2tte_map_size (last_level wi) < 2 ^ 64 ->
  exists j, index wi <= j <= S2TTES_PER_S2TT /\
    (forall k, index wi <= k < j -> ~ live_at s2_ctx table (last_level wi) k) /\
    (j < S2TTES_PER_S2TT -> live_at s2_ctx table (last_level wi) j) /\
    s2tt_skip_non_live_entries s2_ctx addr table wi =
      Some (if j =? index wi then addr
            else addr - addr mod s2tte_map_size (last_level wi)
                 + (j - index wi) * s2tte_map_size (last_level wi)).
Proof.
  intros Hl Hlen Hi Hlv Ha Hb. unfold s2tt_skip_non_live_entries, S2TTES_PER_S2TT, S2TT_PAGE_LEVEL in *.
  assert (Hlv' : -1 <= last_level wi <= 3) by (destruct lpa2; lia).
  rewrite (proj2 (Z.leb_le (index wi) 512)), (proj2 (Z.leb_le (last_level wi) 3)), Hl by lia.
  cbn [mbind option_bind]. unfold S2TT_MIN_STARTING_LEVEL_LPA2, S2TT_MIN_STARTING_LEVEL.
  rewrite (proj2 (Z.leb_le _ (last_level wi))) by (destruct lpa2; lia).
  destruct (arr_get_some table (index wi)) as [e He]; [unfold N_S2TTES in Hlen; lia|].
  unfold s2tte_read. rewrite He. cbn [mbind option_bind].
  destruct (s2tte_is_live s2_ctx e (last_level wi)) eqn:Hlive.
  { exists (index wi). rewrite Z.eqb_refl. split_and!; try lia; try done. intros _. by exists e. }
  destruct (skip_loop_ok s2_ctx table (last_level wi) (Z.to_nat (512 - (index wi + 1))) (index wi + 1))
    as (j & Hj & Hr & Hno & Hyes); [lia|unfold N_S2TTES in Hlen; lia|].
  exists j. split; [lia|]. split.
  { intros k Hk. destruct (decide (k = index wi)) as [->|]; [|apply Hno; lia].
    intros (e' & He' & Hl'). congruence. }
  split; [intros Hlt; apply Hyes; lia|].
  rewrite Hj. cbn [mbind option_bind]. rewrite (proj2 (Z.eqb_neq j (index wi))) by lia. f_equal.
  rewrite s2tte_map_size_eq in * by lia. set (sh := (3 - last_level wi) * 9 + 12) in *.
  assert (Hp : 0 < 2 ^ sh) by (apply Z.pow_pos_nonneg; lia).
  assert (Hrd : Z.land addr (not64 (sub64 (2 ^ sh) 1)) = addr - addr mod 2 ^ sh)
    by (apply (round_down_spec addr sh); [unfold in_u64; lia|lia]).
  rewrite Hrd. pose proof (Z.mod_pos_bound addr (2 ^ sh) Hp). pose proof (Z.mod_le addr (2 ^ sh) Ha Hp).
  unfold add64, mul64. rewrite (u64_small ((j - index wi) * _)) by (unfold in_u64; nia).
  apply u64_small. unfold in_u64. nia.
Qed.

(** From an entry that maps nothing, the scan returns the base address of the
    first live entry after it, or the end of the table; every address it skips is
    mapped by no live entry.  From a live entry it returns the address itself. *)
Theorem s2tt_skip_non_live_correct s2_ctx lpa2 addr table wi :
  s2tt_lpa2_enabled s2_ctx = Some lpa2 -> length table = N_S2TTES ->
  0 <= index wi < S2TTES_PER_S2TT -> (if lpa2 then -1 else 0) <= last_level wi <= 3 ->
  0 <= addr -> addr + 512 * s2tte_map_size (last_level wi) < 2 ^ 64 ->
  exists j, index wi <= j <= S2TTES_PER_S2TT /\
    (forall k, index wi <= k < j -> ~ live_at s2_ctx table (last_level wi) k) /\
    (j < S2TTES_PER_S2TT -> live_at s2_ctx table (last_level wi) j) /\
    s2tt_skip_non_live_entries s2_ctx addr table wi =
      Some (if j =? index wi then addr
            else addr - addr mod s2tte_map_size (last_level wi)
                 + (j - index wi) * s2tte_map_size (last_level wi)).
Proof. apply skip_non_live_ok. Qed.

End Walk.

(** ** Concrete instances *)

(** Granule [n] stands for address [4096 * n]. *)
Definition demo_names : GranuleNames.
Proof.
  refine {| tr_addr_to_granule := fun a => if a mod 4096 =? 0 then Some (a / 4096) else None;
            tr_granule_addr := fun g => Some (g * 4096) |}.
  - intros addr g H. destruct (addr mod 4096 =? 0) eqn:E; [|discriminate H]. injection H as <-.
    apply Z.eqb_eq in E. f_equal. pose proof (Z.div_mod addr 4096 ltac:(lia)). lia.
  - intros addr g H. destruct (addr mod 4096 =? 0) eqn:E; [|discriminate H].
    exact E.
Defined.

#[local] Existing Instance demo_features.
#[local] Existing Instance demo_names.

Definition demo_walk_ctx : s2tt_context := S2Ctx 30 2 1 100 1 false 0 0 (2 ^ 40).

(** A level 2 root (granule 100) whose entry 1 points to a level 3 table
    (granule 101) of unassigned entries. *)
Definition demo_root : list Z :=
  <[1%nat := Z.lor (101 * 4096) S2TTE_TABLE]> (replicate N_S2TTES 0).
Definition demo_mem : mem :=
  Mem (<[100 := encode GRN (AGranule false GRANULE_STATE_RTT 1)]>
        (<[101 := encode GRN (AGranule false GRANULE_STATE_RTT 0)]> ∅))
      (<[100 := demo_root]> (<[101 := replicate N_S2TTES 0]> ∅)).
Definition demo_tree : tree := <[100 := 2]> (<[101 := 3]> ∅).

Lemma demo_tree_lookup g l : demo_tree !! g = Some l -> (g = 100 /\ l = 2) \/ (g = 101 /\ l = 3).
Proof.
  unfold demo_tree. intros [[<- <-]|[_ H]]%lookup_insert_Some; [by left|].
  apply lookup_insert_Some in H as [[<- <-]|[_ H]]; [by right|]. by rewrite lookup_empty in H.
Qed.

Lemma demo_ctx_ok : ctx_ok demo_walk_ctx false.
Proof.
  split; try (cbn; lia); [reflexivity|]. intros addr Ha. change (ipa_bits demo_walk_ctx) with 30 in Ha.
  change (2 ^ _) with (2 ^ 21). change (num_root_rtts demo_walk_ctx) with 1.
  assert (addr / 2 ^ 21 < 512) by (apply Z.div_lt_upper_bound; lia).
  assert (0 <= addr / 2 ^ 21) by (apply Z.div_pos; lia). rewrite Z.div_small; lia.
Qed.

Lemma demo_tree_ok : tree_ok demo_walk_ctx demo_mem demo_tree.
Proof.
  split.
  - intros g l [[-> _]|[-> _]]%demo_tree_lookup; [exists 1|exists 0];
      (split; [reflexivity|split; [repeat split; cbv; congruence|reflexivity]]).
  - intros g l [[-> _]|[-> _]]%demo_tree_lookup; eexists; split; reflexivity.
  - intros g l tbl idx e [[-> ->]|[-> ->]]%demo_tree_lookup Htb Hlv He Ht; [|by vm_compute in Hlv].
    assert (tbl = demo_root) as -> by (injection Htb; done).
    unfold arr_get, demo_root in He. destruct (0 <=? idx) eqn:Hi; [|done].
    apply list_lookup_insert_Some in He as [(_ & <- & _)|[_ He]].
    + exists (101 * 4096), 101. split_and!; reflexivity.
    + apply lookup_replicate in He as [-> _]. by vm_compute in Ht.
Qed.

Lemma demo_roots_ok : roots_ok demo_walk_ctx demo_tree.
Proof.
  exists (100 * 4096). split_and!; try reflexivity; try lia.
  intros n Hn. cbn in Hn. assert (n = 0) as -> by lia. exists 100. split; reflexivity.
Qed.

Lemma s2tt_walk_correct_witness :
  exists root wi, s2tt_walk_lock_unlock demo_walk_ctx 0x203000 3 (with_lock demo_mem 100)
      = Some (wi, with_lock demo_mem (g_llt wi)) /\
    pure_root demo_walk_ctx 0x203000 = Some root.
Proof.
  destruct (s2tt_walk_correct demo_walk_ctx demo_mem demo_tree 0x203000 3 false)
    as (root & wi & Hw & Hr & _);
    [exact demo_ctx_ok|exact demo_tree_ok|exact demo_roots_ok|cbn; lia|cbn; lia|].
  exists root, wi. split; [exact Hw|exact Hr].
Defined.

Lemma s2tt_skip_non_live_correct_witness :
  exists j, s2tt_skip_non_live_entries demo_walk_ctx 0x5000 demo_root (Walk 100 0 2)
    = Some (if j =? 0 then 0x5000 else 0x5000 - 0x5000 mod 0x200000 + (j - 0) * 0x200000).
Proof.
  destruct (s2tt_skip_non_live_correct demo_walk_ctx false 0x5000 demo_root (Walk 100 0 2))
    as (j & _ & _ & _ & H); [reflexivity|reflexivity|cbv; split; congruence|cbn; lia|lia|
     vm_compute; reflexivity|].
  exists j. exact H.
Defined.
