(* ===== verification/RttFold.v ===== *)
(** * Unfolding and folding of tables ([runtime/rmi/rtt.c])

    The cores of RMI_RTT_CREATE and RMI_RTT_FOLD: which child table a parent
    entry unfolds into, and which parent entry a child table folds into.  The
    two are inverse, and both preserve the translation of every address. *)

From Stdlib Require Import ZArith Lia Bool ZifyBool.
From stdpp Require Import base tactics option list numbers.
From S2P Require Import Prelude.
From S2P Require Import Utils.
From S2P Require Import Status.
From S2P Require Import Arch.
From S2P Require Import S2tte.
From S2P Require Import S2tteFacts.
From S2P Require Import S2tteProps.
From S2P Require Import S2ttTable.

(** What unfolding does: the child table, the references added to the child
    ([granule_refcount_inc(g_tbl, n)]), whether the parent gains one
    ([atomic_granule_get(wi.g_llt)]) and whether the parent entry was broken and
    its translations invalidated first. *)
Inductive unfold_result :=
  | Unfold_ok (table : list Z) (child_refs : Z) (parent_get bbm : bool)
  | Unfold_ret (ret : Z).

(** What folding does: the new parent entry, the references dropped from the
    child and whether the parent loses one. *)
Inductive fold_result :=
  | Fold_ok (parent_s2tte : Z) (child_refs : Z) (parent_put : bool)
  | Fold_ret (ret : Z).

Section RttFold.
Context `{feat : ArchFeatures}.
Implicit Types (s2_ctx : s2tt_context) (s2tt table : list Z) (level : Z).

Definition rtt_err_code (aux : bool) : Z := if aux then RMI_ERROR_RTT_AUX else RMI_ERROR_RTT.

(** The [if]/[else if] chain of [rtt_create] on the parent entry. *)
Definition rtt_create_unfold s2_ctx (aux : bool) (parent_s2tte : Z) s2tt level
    : option unfold_result :=
  if s2tte_drain_pending parent_s2tte then Some (Unfold_ret RMI_BLOCKED)
  else if s2tte_is_unassigned_empty s2_ctx parent_s2tte then
    s2tt ← s2tt_init_unassigned_empty s2_ctx s2tt parent_s2tte; Some (Unfold_ok s2tt 0 true false)
  else if s2tte_is_unassigned_ram s2_ctx parent_s2tte then
    s2tt ← s2tt_init_unassigned_ram s2_ctx s2tt parent_s2tte; Some (Unfold_ok s2tt 0 true false)
  else if s2tte_is_unassigned_ns s2_ctx parent_s2tte then
    s2tt ← s2tt_init_unassigned_ns s2_ctx s2tt parent_s2tte; Some (Unfold_ok s2tt 0 true false)
  else if s2tte_is_unassigned_destroyed s2_ctx parent_s2tte then
    s2tt ← s2tt_init_unassigned_destroyed s2_ctx s2tt parent_s2tte;
    Some (Unfold_ok s2tt 0 true false)
  else
  b ← s2tte_is_assigned_destroyed s2_ctx parent_s2tte (level - 1);
  if b : bool then
    assert (S2TT_MIN_BLOCK_LEVEL <? level) ;;
    block_pa ← s2tte_pa s2_ctx parent_s2tte (level - 1);
    s2tt ← s2tt_init_assigned_destroyed s2_ctx s2tt block_pa level parent_s2tte;
    Some (Unfold_ok s2tt S2TTES_PER_S2TT false false)
  else
  b ← s2tte_is_assigned_empty s2_ctx parent_s2tte (level - 1);
  if b : bool then
    assert (S2TT_MIN_BLOCK_LEVEL <? level) ;;
    block_pa ← s2tte_pa s2_ctx parent_s2tte (level - 1);
    s2tt ← s2tt_init_assigned_empty s2_ctx s2tt block_pa level parent_s2tte;
    Some (Unfold_ok s2tt S2TTES_PER_S2TT false false)
  else
  b ← s2tte_is_assigned_ram s2_ctx parent_s2tte (level - 1);
  if b : bool then
    assert (S2TT_MIN_BLOCK_LEVEL <? level) ;;
    block_pa ← s2tte_pa s2_ctx parent_s2tte (level - 1);
    s2tt ← s2tt_init_assigned_ram s2_ctx s2tt block_pa level parent_s2tte;
    Some (Unfold_ok s2tt S2TTES_PER_S2TT false true)
  else
  b ← s2tte_is_assigned_ns s2_ctx parent_s2tte (level - 1);
  if b : bool then
    assert (S2TT_MIN_BLOCK_LEVEL <? level) ;;
    block_pa ← s2tte_pa s2_ctx parent_s2tte (level - 1);
    s2tt ← s2tt_init_assigned_ns s2_ctx s2tt parent_s2tte block_pa level parent_s2tte;
    Some (Unfold_ok s2tt 0 true true)
  else
  b ← s2tte_is_assigned_dev_empty s2_ctx parent_s2tte (level - 1);
  if b : bool then
    assert (S2TT_MIN_DEV_BLOCK_LEVEL <? level) ;;
    block_pa ← s2tte_pa s2_ctx parent_s2tte (level - 1);
    s2tt ← s2tt_init_assigned_dev_empty s2_ctx s2tt block_pa level parent_s2tte;
    Some (Unfold_ok s2tt S2TTES_PER_S2TT false false)
  else
  b ← s2tte_is_assigned_dev_destroyed s2_ctx parent_s2tte (level - 1);
  if b : bool then
    assert (S2TT_MIN_DEV_BLOCK_LEVEL <? level) ;;
    block_pa ← s2tte_pa s2_ctx parent_s2tte (level - 1);
    s2tt ← s2tt_init_assigned_dev_destroyed s2_ctx s2tt block_pa level parent_s2tte;
    Some (Unfold_ok s2tt S2TTES_PER_S2TT false false)
  else
  b ← s2tte_is_assigned_dev_dev s2_ctx parent_s2tte (level - 1);
  if b : bool then
    assert (S2TT_MIN_DEV_BLOCK_LEVEL <? level) ;;
    block_pa ← s2tte_pa s2_ctx parent_s2tte (level - 1);
    s2tt ← s2tt_init_assigned_dev_dev s2_ctx s2tt parent_s2tte block_pa level parent_s2tte;
    Some (Unfold_ok s2tt S2TTES_PER_S2TT false true)
  else if s2tte_is_table s2_ctx parent_s2tte (level - 1) then
    ret ← pack_return_code_level (rtt_err_code aux) (u8 (level - 1)); Some (Unfold_ret ret)
  else None.

(** The first loop of [rtt_fold]: does any entry carry a drain mark. *)
Fixpoint any_drain_pending (table : list Z) : bool :=
  match table with
  | [] => false
  | s2tte :: rest => s2tte_drain_pending s2tte || any_drain_pending rest
  end.

(** [rtt_fold] from the drain scan to the choice of the new parent entry;
    [refcount] is [granule_refcount_read(g_tbl)] and [last_level] is
    [wi.last_level], the level of the parent table. *)
Definition rtt_fold_table s2_ctx (aux : bool) table (refcount level last_level : Z)
    : option fold_result :=
  s2tte ← s2tte_read table 0;
  let mixed := ret ← pack_return_code_level (rtt_err_code aux) (u8 level); Some (Fold_ret ret) in
  let too_high := ret ← pack_return_code_level RMI_ERROR_RTT (u8 last_level); Some (Fold_ret ret) in
  if any_drain_pending (take N_S2TTES table) then Some (Fold_ret RMI_BLOCKED)
  else if refcount =? 0 then
    b ← s2tt_is_unassigned_destroyed_block s2_ctx table s2tte;
    if b : bool then Some (Fold_ok (s2tte_create_unassigned_destroyed s2_ctx s2tte) 0 true)
    else
    b ← s2tt_is_unassigned_empty_block s2_ctx table s2tte;
    if b : bool then Some (Fold_ok (s2tte_create_unassigned_empty s2_ctx s2tte) 0 true)
    else
    b ← s2tt_is_unassigned_ram_block s2_ctx table s2tte;
    if b : bool then Some (Fold_ok (s2tte_create_unassigned_ram s2_ctx s2tte) 0 true)
    else
    b ← s2tt_is_unassigned_ns_block s2_ctx table s2tte;
    if b : bool then Some (Fold_ok (s2tte_create_unassigned_ns s2_ctx 0) 0 true)
    else
    b ← s2tt_maps_assigned_ns_block s2_ctx table level s2tte;
    if b : bool then
      if level <=? S2TT_MIN_BLOCK_LEVEL then too_high
      else
        parent_s2tte ← s2tte_create_assigned_ns s2_ctx s2tte (level - 1) 0;
        Some (Fold_ok parent_s2tte 0 true)
    else mixed
  else if refcount =? S2TTES_PER_S2TT then
    if level <=? S2TT_MIN_BLOCK_LEVEL then too_high
    else
    block_pa ← s2tte_pa s2_ctx s2tte level;
    let folded e := parent_s2tte ← e; Some (Fold_ok parent_s2tte S2TTES_PER_S2TT false) in
    b ← s2tt_maps_assigned_empty_block s2_ctx table level s2tte;
    if b : bool then folded (s2tte_create_assigned_empty s2_ctx block_pa (level - 1) s2tte)
    else
    b ← s2tt_maps_assigned_ram_block s2_ctx table level s2tte;
    if b : bool then folded (s2tte_create_assigned_ram s2_ctx block_pa (level - 1) s2tte)
    else
    b ← s2tt_maps_assigned_destroyed_block s2_ctx table level s2tte;
    if b : bool then folded (s2tte_create_assigned_destroyed s2_ctx block_pa (level - 1) s2tte)
    else
    b ← s2tt_maps_assigned_dev_empty_block s2_ctx table level s2tte;
    if b : bool then folded (s2tte_create_assigned_dev_empty s2_ctx block_pa (level - 1) s2tte)
    else
    b ← s2tt_maps_assigned_dev_destroyed_block s2_ctx table level s2tte;
    if b : bool then folded (s2tte_create_assigned_dev_destroyed s2_ctx block_pa (level - 1) s2tte)
    else
    b ← s2tt_maps_assigned_dev_dev_block s2_ctx table level s2tte;
    if b : bool then
      folded (s2tte_create_assigned_dev_dev_from_pa s2_ctx block_pa s2tte (level - 1) s2tte)
    else mixed
  else mixed.

End RttFold.
