(* ===== verification/RttFoldProps.v ===== *)
(** * Unfold and fold are inverse and preserve translations *)

From Stdlib Require Import ZArith Lia Bool ZifyBool.
From stdpp Require Import base tactics option list numbers.
From S2P Require Import Prelude.
From S2P Require Import Utils.
From S2P Require Import Status.
From S2P Require Import Arch.
From S2P Require Import S2tte.
From S2P Require Import S2tteFacts.
From S2P Require Import S2tteProps.
From S2P Require Import S2ttTable.
From S2P Require Import RttFold.

(** The bits, besides the output address, of a leaf of kind [k] at [level]
    made from the attributes of [src]. *)
Definition desc_type (level : Z) : Z := if level =? 3 then S2TTE_L3_PAGE else S2TTE_L012_BLOCK.

Definition dev_attr_mask (lpa2 : bool) : Z :=
  Z.lor (Z.lor S2TTE_DEV_ATTRS_MASK S2TTE_MEMATTR_MASK) (if lpa2 then 0 else S2TTE_SH_MASK).

Definition is_leaf (k : s2tte_kind) : bool :=
  match k with K_table => false | _ => kind_live k end.

Definition kind_dev (k : s2tte_kind) : bool :=
  match k with K_assigned_dev_empty | K_assigned_dev_destroyed | K_assigned_dev_dev => true
  | _ => false end.

Definition leaf_const (lpa2 : bool) (k : s2tte_kind) (level : Z) : Z :=
  match k with
  | K_assigned_empty => S2TTE_INVALID_HIPAS_ASSIGNED
  | K_assigned_ram => Z.lor (if lpa2 then S2TTE_ATTRS_LPA2 else S2TTE_ATTRS) (desc_type level)
  | K_assigned_destroyed => Z.lor S2TTE_INVALID_HIPAS_ASSIGNED S2TTE_INVALID_RIPAS_DESTROYED
  | K_assigned_dev_empty => S2TTE_INVALID_HIPAS_ASSIGNED_DEV
  | K_assigned_dev_destroyed => Z.lor S2TTE_INVALID_HIPAS_ASSIGNED_DEV S2TTE_INVALID_RIPAS_DESTROYED
  | K_assigned_dev_dev => desc_type level
  | _ => 0
  end.

Section RttFoldProps.
Context `{feat : ArchFeatures}.
Implicit Types (ctx : s2tt_context) (table : list Z) (level : Z).

Definition leaf_bits ctx (lpa2 : bool) (k : s2tte_kind) level (src : Z) : Z :=
  match k with
  | K_assigned_ns =>
      Z.lor (Z.land src (ns_attr_mask (indirect_s2ap ctx))) (ns_rmm_bits lpa2 (indirect_s2ap ctx) level)
  | K_assigned_dev_dev =>
      Z.lor (s2tte_get_ap ctx src true) (Z.lor (Z.land src (dev_attr_mask lpa2)) (desc_type level))
  | _ => Z.lor (s2tte_get_ap ctx src (kind_dev k)) (leaf_const lpa2 k level)
  end.

(** A leaf of kind [k] at [pa] with the attributes of [src], by the function the
    unfold uses. *)
Definition recreate ctx (k : s2tte_kind) (pa src level : Z) : option Z :=
  match k with
  | K_assigned_empty => s2tte_create_assigned_empty ctx pa level src
  | K_assigned_ram => s2tte_create_assigned_ram ctx pa level src
  | K_assigned_destroyed => s2tte_create_assigned_destroyed ctx pa level src
  | K_assigned_ns =>
      tte ← pa_to_s2tte ctx pa;
      s2tte_create_assigned_ns ctx (Z.lor (Z.land src (ns_attr_mask (indirect_s2ap ctx))) tte) level src
  | K_assigned_dev_empty => s2tte_create_assigned_dev_empty ctx pa level src
  | K_assigned_dev_destroyed => s2tte_create_assigned_dev_destroyed ctx pa level src
  | K_assigned_dev_dev => s2tte_create_assigned_dev_dev_from_pa ctx pa src level src
  | _ => None
  end.

(** What the attributes of [src] must satisfy to make a leaf of kind [k]. *)
Definition src_ok ctx (lpa2 : bool) (k : s2tte_kind) (src : Z) : Prop :=
  match k with
  | K_assigned_ns => indirect_s2ap ctx = true -> s2tte_get_pi_index src <= S2AP_IND_BASE_PERM_IDX_RW
  | K_assigned_dev_dev =>
      Z.land src (dev_attr_mask lpa2) = Z.lor S2TTE_DEV_COH_ATTRS (if lpa2 then 0 else S2TTE_SH_IS) \/
      Z.land src (dev_attr_mask lpa2) = Z.lor S2TTE_DEV_NCOH_ATTRS (if lpa2 then 0 else S2TTE_SH_OS)
  | _ => True
  end.

Lemma pi_index_masked s : s2tte_get_pi_index (Z.land s S2TTE_PI_INDEX_MASK) = s2tte_get_pi_index s.
Proof.
  unfold s2tte_get_pi_index. s2tt_simpl. done.
Qed.

Lemma pi_index_lor_oa lpa2 level t s :
  -1 <= level <= 3 -> Z.land t (oa_mask lpa2 level) = t ->
  s2tte_get_pi_index (Z.lor t s) = s2tte_get_pi_index s.
Proof.
  intros Hlv Ht. rewrite <- (pi_index_masked (Z.lor t s)), <- Ht.
  level_cases level; destruct lpa2; rewrite Z.land_lor_distr_l, <- Z.land_assoc;
    match goal with |- context [Z.land t ?c] => fold_closed c end;
    rewrite Z.land_0_r, Z.lor_0_l; apply pi_index_masked.
Qed.

Lemma create_ns_some ctx lpa2 s level ap :
  s2tt_lpa2_enabled ctx = Some lpa2 -> 1 <= level <= 3 ->
  (indirect_s2ap ctx = true -> s2tte_get_pi_index s <= S2AP_IND_BASE_PERM_IDX_RW) ->
  is_Some (s2tte_create_assigned_ns ctx s level ap).
Proof.
  intros Hl Hlv Hp. unfold s2tte_create_assigned_ns, S2TT_MIN_BLOCK_LEVEL, S2TT_PAGE_LEVEL.
  rewrite Hl, !(proj2 (Z.leb_le _ _)) by lia. cbn [mbind option_bind].
  destruct (indirect_s2ap ctx); [rewrite (proj2 (Z.leb_le _ _)) by auto|]; case_match; eauto.
Qed.

Lemma recreate_ns_value ctx lpa2 t src level ap :
  s2tt_lpa2_enabled ctx = Some lpa2 -> 1 <= level <= 3 -> Z.land t (oa_mask lpa2 level) = t ->
  src_ok ctx lpa2 K_assigned_ns src ->
  s2tte_create_assigned_ns ctx (Z.lor (Z.land src (ns_attr_mask (indirect_s2ap ctx))) t) level ap
  = Some (Z.lor t (leaf_bits ctx lpa2 K_assigned_ns level src)).
Proof.
  intros Hl Hlv Hm Hs. rewrite Z.lor_comm.
  set (attrs := Z.land src _).
  assert (Hat : Z.land attrs (ns_attr_mask (indirect_s2ap ctx)) = attrs)
    by (unfold attrs; by rewrite <- Z.land_assoc, Z.land_diag).
  destruct (create_ns_some ctx lpa2 (Z.lor t attrs) level ap Hl Hlv) as [v Hv].
  { intros Hi. rewrite (pi_index_lor_oa lpa2 level), <- pi_index_masked by (done || lia).
    unfold attrs. rewrite Hi, <- Z.land_assoc. unfold ns_attr_mask.
    match goal with |- context [Z.land src ?c] => fold_closed c end.
    etrans; [|exact (Hs Hi)]. rewrite <- (pi_index_masked src). done. }
  rewrite Hv. destruct (create_ns_value _ _ _ _ _ _ _ Hl Hm Hat Hv) as [_ ->]. done.
Qed.

(** Each leaf constructor writes the output address and [leaf_bits]. *)
Lemma recreate_value ctx lpa2 k pa src level :
  s2tt_lpa2_enabled ctx = Some lpa2 -> is_leaf k = true -> 1 <= level <= 3 ->
  s2tte_is_addr_lvl_aligned ctx pa level = Some true -> src_ok ctx lpa2 k src ->
  exists t, pa_to_s2tte ctx pa = Some t /\ Z.land t (oa_mask lpa2 level) = t /\
    recreate ctx k pa src level = Some (Z.lor t (leaf_bits ctx lpa2 k level src)).
Proof.
  intros Hl Hk Hlv Ha Hs. destruct (pa_to_s2tte_spec _ _ _ _ Hl Ha) as (t & Ht & Hm & _).
  exists t. split_and!; [done..|].
  destruct k; try discriminate Hk; cbn [recreate leaf_bits kind_dev leaf_const].
  all: unfold s2tte_create_assigned_empty, s2tte_create_assigned_ram, s2tte_create_assigned_destroyed,
    s2tte_create_assigned_dev_empty, s2tte_create_assigned_dev_destroyed,
    s2tte_create_assigned_dev_dev_from_pa, s2tte_create_assigned, s2tte_create_assigned_dev,
    create_assigned_dev_dev_attr, S2TT_MIN_BLOCK_LEVEL, S2TT_MIN_DEV_BLOCK_LEVEL, S2TT_PAGE_LEVEL.
  all: rewrite ?Ht, ?Hl, ?Ha; cbn [mbind option_bind]; unfold desc_type, dev_attr_mask.
  all: rewrite ?(proj2 (Z.leb_le 1 level)), ?(proj2 (Z.leb_le level 3)) by lia.
  4: by apply recreate_ns_value.
  all: cbn -[Z.lor Z.land s2tte_get_ap S2TTE_PAGE S2TTE_BLOCK S2TTE_PAGE_LPA2 S2TTE_BLOCK_LPA2].
  all: try (destruct (level =? 3)); destruct lpa2;
    cbn -[Z.lor Z.land s2tte_get_ap S2TTE_PAGE S2TTE_BLOCK S2TTE_PAGE_LPA2 S2TTE_BLOCK_LPA2].
  all: change S2TTE_PAGE with (Z.lor S2TTE_ATTRS S2TTE_L3_PAGE);
    change S2TTE_BLOCK with (Z.lor S2TTE_ATTRS S2TTE_L012_BLOCK);
    change S2TTE_PAGE_LPA2 with (Z.lor S2TTE_ATTRS_LPA2 S2TTE_L3_PAGE);
    change S2TTE_BLOCK_LPA2 with (Z.lor S2TTE_ATTRS_LPA2 S2TTE_L012_BLOCK).
  all: rewrite ?Z.lor_0_r; f_equal; lor_ac.
Qed.

Lemma oa_ap_disjoint lpa2 level ind t :
  -1 <= level <= 3 -> Z.land t (oa_mask lpa2 level) = t -> Z.land t (ap_mask ind) = 0.
Proof.
  intros Hlv <-. rewrite <- Z.land_assoc.
  level_cases level; destruct lpa2, ind;
    match goal with |- Z.land t ?c = 0 => fold_closed c end; apply Z.land_0_r.
Qed.

(** Rewriting an address-masked part away under a constant mask. *)
Lemma oa_masked_away lpa2 level t r m :
  -1 <= level <= 3 -> Z.land t (oa_mask lpa2 level) = t -> Z.land (oa_mask lpa2 level) m = 0 ->
  Z.land (Z.lor t r) m = Z.land r m.
Proof. intros Hlv Ht Hm. by rewrite Z.land_lor_distr_l, <- Ht, <- Z.land_assoc, Hm, Z.land_0_r. Qed.

Lemma get_ap_masked_dev ctx src dev m :
  Z.land (ap_mask (indirect_s2ap ctx)) m = 0 -> Z.land (s2tte_get_ap ctx src dev) m = 0.
Proof. intros H. rewrite <- s2tte_get_ap_masked, <- Z.land_assoc, H. apply Z.land_0_r. Qed.

(** The attributes of a leaf are those of its source. *)
Lemma leaf_ns_attrs ctx lpa2 level t src :
  1 <= level <= 3 -> Z.land t (oa_mask lpa2 level) = t ->
  Z.land (Z.lor t (leaf_bits ctx lpa2 K_assigned_ns level src)) (ns_attr_mask (indirect_s2ap ctx))
  = Z.land src (ns_attr_mask (indirect_s2ap ctx)).
Proof.
  intros Hlv Ht. rewrite (oa_masked_away lpa2 level) by
    (try done; try lia; level_cases level; destruct lpa2, (indirect_s2ap ctx); reflexivity).
  cbn [leaf_bits]. rewrite Z.land_lor_distr_l, <- Z.land_assoc, Z.land_diag.
  assert (Z.land (ns_rmm_bits lpa2 (indirect_s2ap ctx) level) (ns_attr_mask (indirect_s2ap ctx)) = 0)
    as ->; [|by rewrite Z.lor_0_r].
  level_cases level; destruct lpa2, (indirect_s2ap ctx); reflexivity.
Qed.

Lemma leaf_dev_attrs ctx lpa2 level t src :
  1 <= level <= 3 -> Z.land t (oa_mask lpa2 level) = t ->
  Z.land (Z.lor t (leaf_bits ctx lpa2 K_assigned_dev_dev level src)) (dev_attr_mask lpa2)
  = Z.land src (dev_attr_mask lpa2).
Proof.
  intros Hlv Ht. rewrite (oa_masked_away lpa2 level) by
    (try done; try lia; level_cases level; destruct lpa2; reflexivity).
  cbn [leaf_bits]. rewrite Z.land_lor_distr_l, get_ap_masked_dev
    by (destruct lpa2, (indirect_s2ap ctx); reflexivity).
  rewrite Z.lor_0_l, Z.land_lor_distr_l, <- Z.land_assoc, Z.land_diag.
  assert (Z.land (desc_type level) (dev_attr_mask lpa2) = 0) as ->; [|by rewrite Z.lor_0_r].
  level_cases level; destruct lpa2; reflexivity.
Qed.

Lemma pi_index_ns_mask ctx s :
  indirect_s2ap ctx = true ->
  s2tte_get_pi_index (Z.land s (ns_attr_mask (indirect_s2ap ctx))) = s2tte_get_pi_index s.
Proof.
  intros ->. rewrite <- pi_index_masked, <- Z.land_assoc. unfold ns_attr_mask.
  match goal with |- context [Z.land s ?c] => fold_closed c end. apply pi_index_masked.
Qed.

Lemma src_ok_leaf ctx lpa2 k level t src :
  is_leaf k = true -> 1 <= level <= 3 -> Z.land t (oa_mask lpa2 level) = t ->
  src_ok ctx lpa2 k src -> src_ok ctx lpa2 k (Z.lor t (leaf_bits ctx lpa2 k level src)).
Proof.
  intros Hk Hlv Ht Hs. destruct k; try exact I; cbn [src_ok] in *.
  - intros Hi. rewrite <- (pi_index_ns_mask ctx), leaf_ns_attrs, pi_index_ns_mask by done. auto.
  - by rewrite leaf_dev_attrs.
Qed.

Lemma leaf_get_ap ctx lpa2 k level t src :
  is_leaf k = true -> k <> K_assigned_ns -> 1 <= level <= 3 -> Z.land t (oa_mask lpa2 level) = t ->
  s2tte_get_ap ctx (Z.lor t (leaf_bits ctx lpa2 k level src)) (kind_dev k)
  = s2tte_get_ap ctx src (kind_dev k).
Proof.
  intros Hk Hns Hlv Ht.
  assert (Hap : forall c dev, Z.land c (ap_mask (indirect_s2ap ctx)) = 0 ->
    s2tte_get_ap ctx (Z.lor t (Z.lor (s2tte_get_ap ctx src dev) c)) dev = s2tte_get_ap ctx src dev).
  { intros c dev Hc. rewrite Z.lor_assoc, (Z.lor_comm t), <- Z.lor_assoc.
    apply s2tte_get_ap_idem, lor_disjoint; [|done].
    eapply oa_ap_disjoint; [|exact Ht]. lia. }
  destruct k; try discriminate Hk; try done; cbn [leaf_bits]; apply Hap.
  1-5: level_cases level; destruct lpa2, (indirect_s2ap ctx); reflexivity.
  rewrite Z.land_lor_distr_l, <- Z.land_assoc.
  level_cases level; destruct lpa2, (indirect_s2ap ctx);
    repeat match goal with |- context [Z.land src ?c] => fold_closed c end;
    rewrite Z.land_0_r; reflexivity.
Qed.

(** Making a leaf from a leaf changes only what depends on the level. *)
Lemma leaf_bits_stable ctx lpa2 k level level' t src :
  is_leaf k = true -> 1 <= level <= 3 -> 1 <= level' <= 3 ->
  Z.land t (oa_mask lpa2 level) = t ->
  leaf_bits ctx lpa2 k level' (Z.lor t (leaf_bits ctx lpa2 k level src)) = leaf_bits ctx lpa2 k level' src.
Proof.
  intros Hk Hlv Hlv' Ht. pose proof (leaf_get_ap ctx lpa2 k level t src Hk) as Hap.
  destruct k; try discriminate Hk; cbn [kind_dev] in Hap; unfold leaf_bits at 1; cbn [kind_dev].
  1-3, 5-6: by rewrite Hap.
  - by rewrite leaf_ns_attrs.
  - by rewrite leaf_dev_attrs, Hap.
Qed.

(** What [recreate] makes is a built descriptor. *)
Lemma recreate_built ctx lpa2 k pa src level v :
  s2tt_lpa2_enabled ctx = Some lpa2 -> is_leaf k = true ->
  s2tte_is_addr_lvl_aligned ctx pa level = Some true -> src_ok ctx lpa2 k src ->
  recreate ctx k pa src level = Some v -> built ctx level k pa v.
Proof.
  intros Hl Hk Ha Hs H. destruct k; try discriminate Hk; cbn [recreate] in H.
  1-3, 5-6: econstructor; eassumption.
  - inv_some H. rewrite Z.lor_comm in H. eapply b_an; [done|exact E| |exact H].
    by rewrite <- Z.land_assoc, Z.land_diag.
  - unfold s2tte_create_assigned_dev_dev_from_pa in H. rewrite Hl in H. cbn [mbind option_bind] in H.
    assert (Hmask : (if negb lpa2 then Z.lor (Z.lor S2TTE_DEV_ATTRS_MASK S2TTE_MEMATTR_MASK) S2TTE_SH_MASK
      else Z.lor S2TTE_DEV_ATTRS_MASK S2TTE_MEMATTR_MASK) = dev_attr_mask lpa2) by (by destruct lpa2).
    rewrite Hmask in H. cbn [src_ok] in Hs.
    destruct Hs as [Hs|Hs]; rewrite Hs in H;
      [apply (b_dev _ _ _ DEV_MEM_COHERENT src)|apply (b_dev _ _ _ DEV_MEM_NON_COHERENT src)];
      unfold s2tte_create_assigned_dev_dev_coh_type; rewrite Hl; cbn [mbind option_bind];
      rewrite <- H; destruct lpa2; reflexivity.
Qed.

(** A built leaf is [leaf_bits] of some source. *)
Lemma built_src ctx lpa2 k pa level v :
  s2tt_lpa2_enabled ctx = Some lpa2 -> is_leaf k = true -> built ctx level k pa v ->
  exists src, src_ok ctx lpa2 k src /\ recreate ctx k pa src level = Some v.
Proof.
  intros Hl Hk Hb. destruct Hb as [| | | |pa ap v H|pa ap v H|pa ap v H|pa t attrs ap v Ha Ht Hat H
    |pa ap v H|pa ap v H|pa ty ap v H|pa v Ha H]; try discriminate Hk.
  1-3, 5-6: exists ap; split; [exact I|exact H].
  - exists attrs. cbn [src_ok recreate]. rewrite Ht. cbn [mbind option_bind]. rewrite Hat, Z.lor_comm.
    destruct (pa_to_s2tte_spec _ _ _ _ Hl Ha) as (t' & Ht' & Hm & _).
    destruct (addr_lvl_aligned_inv _ _ _ _ Hl Ha) as (Hlv & _).
    rewrite Ht in Ht'. injection Ht' as <-. split.
    + intros Hi. unfold s2tte_create_assigned_ns in H. rewrite Hl, Hi in H. inv_some H;
      match goal with E : (s2tte_get_pi_index _ <=? _) = true |- _ =>
        apply Z.leb_le in E; by rewrite (pi_index_lor_oa lpa2 level) in E end.
    + rewrite <- H. unfold s2tte_create_assigned_ns. done.
  - unfold s2tte_create_assigned_dev_dev_coh_type in H. rewrite Hl in H. cbn [mbind option_bind] in H.
    set (attr := match ty with DEV_MEM_COHERENT => _ | DEV_MEM_NON_COHERENT => _ end) in H.
    assert (Hc : Z.land (Z.lor (s2tte_get_ap ctx ap true) attr) (dev_attr_mask lpa2) = attr).
    { rewrite Z.land_lor_distr_l, get_ap_masked_dev, Z.lor_0_l
        by (destruct lpa2, (indirect_s2ap ctx); reflexivity).
      destruct ty, lpa2; reflexivity. }
    exists (Z.lor (s2tte_get_ap ctx ap true) attr). split.
    + cbn [src_ok]. rewrite Hc. destruct ty, lpa2; (left; reflexivity) || (right; reflexivity).
    + cbn [recreate]. unfold s2tte_create_assigned_dev_dev_from_pa. rewrite Hl. cbn [mbind option_bind].
      assert (Hmask : (if negb lpa2 then Z.lor (Z.lor S2TTE_DEV_ATTRS_MASK S2TTE_MEMATTR_MASK) S2TTE_SH_MASK
        else Z.lor S2TTE_DEV_ATTRS_MASK S2TTE_MEMATTR_MASK) = dev_attr_mask lpa2) by (by destruct lpa2).
      rewrite Hmask, Hc, <- H. unfold create_assigned_dev_dev_attr.
      rewrite s2tte_get_ap_idem; [done|]. destruct ty, lpa2, (indirect_s2ap ctx); reflexivity.
Qed.

(** ** Child tables of a block *)

Lemma aligned_child ctx lpa2 pa level j :
  s2tt_lpa2_enabled ctx = Some lpa2 -> 1 <= level <= 3 -> 0 <= j < 512 ->
  s2tte_is_addr_lvl_aligned ctx pa (level - 1) = Some true ->
  s2tte_is_addr_lvl_aligned ctx (pa + j * s2tte_map_size level) level = Some true /\
  0 <= pa /\ pa + 512 * s2tte_map_size level < 2 ^ 64.
Proof.
  intros Hl Hlv Hj Ha.
  apply (addr_lvl_aligned_arith _ _ _ _ Hl) in Ha as (Hlv' & _ & Hpa & [q Hq]).
  rewrite s2tte_map_size_eq in Hq by lia.
  assert (Hms : 2 ^ ((3 - (level - 1)) * 9 + 12) = 512 * s2tte_map_size level)
    by (rewrite s2tte_map_size_eq by lia; level_cases level; reflexivity).
  rewrite Hms in Hq.
  assert (Hb : 512 * s2tte_map_size level * (2 ^ oa_bits lpa2 / (512 * s2tte_map_size level)) = 2 ^ oa_bits lpa2
    /\ 0 < s2tte_map_size level /\ 2 ^ oa_bits lpa2 <= 2 ^ 52 /\ s2tte_map_size level <= 2 ^ 30).
  { rewrite s2tte_map_size_eq by lia. level_cases level; destruct lpa2; vm_compute;
      split_and!; done. }
  destruct Hb as (Hb1 & Hb2 & Hb3 & Hb4).
  set (ms := s2tte_map_size level) in *. set (d := 2 ^ oa_bits lpa2 / _) in *.
  split_and!; [|lia|lia].
  apply (addr_lvl_aligned_arith _ _ _ _ Hl). split_and!; try lia; try nia.
  - assert (q < d) by nia. nia.
  - exists (q * 512 + j). fold ms. lia.
Qed.

Lemma init_leaf_table ctx lpa2 k pa src level s2tt :
  s2tt_lpa2_enabled ctx = Some lpa2 -> is_leaf k = true -> 1 <= level <= 3 ->
  s2tte_is_addr_lvl_aligned ctx pa (level - 1) = Some true -> src_ok ctx lpa2 k src ->
  length s2tt = N_S2TTES ->
  exists t, init_loop (s2tte_map_size level) (fun pa => recreate ctx k pa src level) s2tt pa = Some t /\
    length t = N_S2TTES /\
    forall j, 0 <= j < 512 -> arr_get t j = recreate ctx k (pa + j * s2tte_map_size level) src level.
Proof.
  intros Hl Hk Hlv Ha Hs Hlen.
  destruct (aligned_child _ _ _ _ 0 Hl Hlv ltac:(lia) Ha) as (_ & Hpa & Hb).
  assert (Hms : 0 <= s2tte_map_size level) by (rewrite s2tte_map_size_eq by lia; apply Z.pow_nonneg; lia).
  destruct (assigned_loop (fun pa => recreate ctx k pa src level) (s2tte_map_size level)
    N_S2TTES 0 s2tt pa) as (t & pa' & Ht & Hlt & Hg); try (unfold N_S2TTES in *; lia).
  { intros j Hj. destruct (aligned_child _ _ _ _ j Hl Hlv Hj Ha) as (Haj & _).
    destruct (recreate_value _ _ _ _ _ _ Hl Hk Hlv Haj Hs) as (? & _ & _ & ->). eauto. }
  exists t. unfold init_loop. rewrite Ht. split_and!; [done|congruence|].
  intros j Hj. rewrite Hg.
  rewrite (proj2 (Z.leb_le _ _)), (proj2 (Z.ltb_lt _ _)) by (unfold N_S2TTES in *; lia).
  cbn [andb]. by rewrite Z.sub_0_r.
Qed.

(** ** Uniformity checks decide *)

Lemma get_ap_oa ctx lpa2 level t r dev :
  -1 <= level <= 3 -> Z.land t (oa_mask lpa2 level) = t ->
  s2tte_get_ap ctx (Z.lor t r) dev = s2tte_get_ap ctx r dev.
Proof.
  intros Hlv Ht. unfold s2tte_get_ap.
  rewrite !(oa_masked_away lpa2 level t r) by (try done; level_cases level; destruct lpa2; reflexivity).
  done.
Qed.

Definition checker (k : s2tte_kind) (ctx : s2tt_context) (s2tte level : Z) : option bool :=
  is_kind ctx s2tte level k.

(** A table whose entry [j] is the leaf at [pa + j * map_size] passes the check
    of its kind, whatever the check looks at. *)
Lemma maps_block_true ctx lpa2 k pa src level table check_attrs dev s0 :
  s2tt_lpa2_enabled ctx = Some lpa2 -> is_leaf k = true -> 1 <= level <= 3 ->
  s2tte_is_addr_lvl_aligned ctx pa (level - 1) = Some true -> src_ok ctx lpa2 k src ->
  (forall j, 0 <= j < 512 ->
     arr_get table j = recreate ctx k (pa + j * s2tte_map_size level) src level) ->
  arr_get table 0 = Some s0 ->
  table_maps_block ctx table level (checker k) check_attrs s0 dev = Some true.
Proof.
  intros Hl Hk Hlv Ha Hs Hg H0.
  assert (He : forall j, 0 <= j < 512 -> exists t, Z.land t (oa_mask lpa2 level) = t /\
    arr_get table j = Some (Z.lor t (leaf_bits ctx lpa2 k level src)) /\
    built ctx level k (pa + j * s2tte_map_size level) (Z.lor t (leaf_bits ctx lpa2 k level src))).
  { intros j Hj. destruct (aligned_child _ _ _ _ j Hl Hlv Hj Ha) as (Haj & _).
    destruct (recreate_value _ _ _ _ _ _ Hl Hk Hlv Haj Hs) as (t & _ & Hm & Hr).
    exists t. rewrite Hg by done. split_and!; [done..|]. by eapply recreate_built. }
  assert (Hlive : kind_live k = true) by (by destruct k).
  destruct (He 0 ltac:(lia)) as (t0 & Hm0 & Ht0 & Hb0). rewrite H0 in Ht0. injection Ht0 as ->.
  rewrite Z.mul_0_l, Z.add_0_r in Hb0.
  unfold table_maps_block, s2tte_read, checker. rewrite Hl. cbn [mbind option_bind].
  replace (if lpa2 then _ else _) with true
    by (destruct lpa2; unfold S2TT_MIN_STARTING_LEVEL_LPA2, S2TT_MIN_STARTING_LEVEL; lia).
  rewrite (proj2 (Z.leb_le level S2TT_PAGE_LEVEL)) by (unfold S2TT_PAGE_LEVEL; lia).
  rewrite H0. cbn [mbind option_bind].
  rewrite (built_is_kind _ _ level _ _ _ _ Hl ltac:(lia) Hb0), bool_decide_true by done. cbn [mbind option_bind negb].
  rewrite Z.eqb_refl. cbn [negb]. rewrite (built_pa _ _ _ _ _ _ Hl Hb0 Hlive). cbn [mbind option_bind].
  rewrite Ha. cbn [mbind option_bind negb]. apply all_upM_true. intros j Hj.
  destruct (aligned_child _ _ _ _ 0 Hl Hlv ltac:(lia) Ha) as (_ & Hpa & Hbd).
  assert (Hms : 0 <= s2tte_map_size level) by (rewrite s2tte_map_size_eq by lia; apply Z.pow_nonneg; lia).
  destruct (He j) as (t & Hm & Ht & Hb); [unfold N_S2TTES in *; lia|]. rewrite Ht. cbn [mbind option_bind].
  rewrite (built_is_kind _ _ level _ _ _ _ Hl ltac:(lia) Hb), bool_decide_true by done. cbn [mbind option_bind negb].
  rewrite (built_pa _ _ _ _ _ _ Hl Hb Hlive). cbn [mbind option_bind].
  assert (Hj' : 1 <= j < 512) by (unfold N_S2TTES in Hj; lia).
  assert (mul64 j (s2tte_map_size level) = j * s2tte_map_size level) as ->
    by (apply u64_small; unfold in_u64; nia).
  assert (add64 pa (j * s2tte_map_size level) = pa + j * s2tte_map_size level) as ->
    by (apply u64_small; unfold in_u64; nia).
  rewrite Z.eqb_refl. cbn [negb].
  rewrite !(get_ap_oa ctx lpa2 level) by (done || lia). rewrite Z.eqb_refl. cbn [negb].
  rewrite andb_false_r.
  rewrite !(oa_masked_away lpa2 level) by
    (try done; try lia; level_cases level; destruct lpa2, (indirect_s2ap ctx); reflexivity).
  rewrite Z.eqb_refl. by destruct check_attrs.
Qed.

(** A table whose first entry is of another kind does not. *)
Lemma maps_block_false ctx lpa2 k k' pa s0 level table check_attrs ap dev :
  s2tt_lpa2_enabled ctx = Some lpa2 -> (if lpa2 then -1 <= level <= 3 else 0 <= level <= 3) ->
  arr_get table 0 = Some s0 -> built ctx level k pa s0 -> k <> k' ->
  table_maps_block ctx table level (checker k') check_attrs ap dev = Some false.
Proof.
  intros Hl Hlv H0 Hb Hk. unfold table_maps_block, s2tte_read, checker. rewrite Hl. cbn [mbind option_bind].
  replace (if lpa2 then S2TT_MIN_STARTING_LEVEL_LPA2 <=? level else _) with true
    by (destruct lpa2; unfold S2TT_MIN_STARTING_LEVEL_LPA2, S2TT_MIN_STARTING_LEVEL; lia).
  rewrite (proj2 (Z.leb_le level S2TT_PAGE_LEVEL)) by (unfold S2TT_PAGE_LEVEL; destruct lpa2; lia).
  rewrite H0. cbn [mbind option_bind].
  rewrite (built_is_kind _ _ level _ _ _ k' Hl ltac:(destruct lpa2; lia) Hb), bool_decide_false by done. done.
Qed.

Lemma unassigned_block_true ctx table f ap v0 :
  (forall j, 0 <= j < 512 -> arr_get table j = Some v0) -> f ctx v0 = true ->
  ap = None \/ ap = Some v0 -> table_is_uniform_unassigned_block ctx table f ap = Some true.
Proof.
  intros Hg Hf Hap. unfold table_is_uniform_unassigned_block, s2tte_read.
  rewrite Hg by lia. cbn [mbind option_bind]. rewrite Hf. cbn [negb].
  assert (Hok : match ap with Some _ => match ap with Some a => s2tte_get_ap ctx a false | None => 0 end
      =? s2tte_get_ap ctx v0 false | None => true end = true)
    by (destruct Hap as [->| ->]; [done|apply Z.eqb_refl]).
  rewrite Hok. cbn [negb]. apply all_upM_true. intros j Hj.
  rewrite Hg by (unfold N_S2TTES in *; lia). cbn [mbind option_bind]. by rewrite Hf, Hok.
Qed.

Lemma unassigned_block_false ctx table f ap v0 :
  arr_get table 0 = Some v0 -> f ctx v0 = false ->
  table_is_uniform_unassigned_block ctx table f ap = Some false.
Proof.
  intros Hg Hf. unfold table_is_uniform_unassigned_block, s2tte_read.
  rewrite Hg. cbn [mbind option_bind]. by rewrite Hf.
Qed.

Lemma built_not_pending ctx lpa2 level k pa v :
  s2tt_lpa2_enabled ctx = Some lpa2 -> -1 <= level <= 3 -> built ctx level k pa v ->
  s2tte_drain_pending v = false.
Proof.
  intros Hl Hlv Hb. unfold s2tte_drain_pending. destruct (kind_live k) eqn:Hk.
  - pose proof (built_class_bits _ _ _ _ _ _ Hl Hb) as Hc.
    rewrite <- (land_class_hipas lpa2). destruct k; try discriminate Hk; cbn [class_bits] in Hc.
    all: try (destruct Hc as (m & Hm%memattr_values & Hc); destruct_or! Hm; subst m);
         try (destruct Hc as [Hc|Hc]); rewrite Hc; destruct lpa2; level_cases level; reflexivity.
  - rewrite <- (built_unassigned_clear _ _ _ _ _ Hb Hk), <- Z.land_assoc.
    match goal with |- context [Z.land v ?c =? 0] => fold_closed c end.
    rewrite Z.land_0_r. apply andb_false_r.
Qed.

Lemma any_drain_pending_false table :
  length table = N_S2TTES ->
  (forall j v, 0 <= j < 512 -> arr_get table j = Some v -> s2tte_drain_pending v = false) ->
  any_drain_pending (take N_S2TTES table) = false.
Proof.
  intros Hlen H. rewrite <- Hlen, firstn_all.
  assert (Hall : Forall (fun v => s2tte_drain_pending v = false) table).
  { apply Forall_lookup. intros i v Hi. apply (H (Z.of_nat i)).
    - apply lookup_lt_Some in Hi. unfold N_S2TTES in Hlen. lia.
    - unfold arr_get. rewrite (proj2 (Z.leb_le _ _)), Nat2Z.id by lia. done. }
  clear H Hlen. induction Hall as [|v t Hv _ IH]; [done|]. cbn. by rewrite Hv, IH.
Qed.

(** Refolding an NS table takes its first entry with its attributes. *)
Lemma ns_fold_value ctx lpa2 t src level :
  s2tt_lpa2_enabled ctx = Some lpa2 -> 2 <= level <= 3 ->
  Z.land t (oa_mask lpa2 (level - 1)) = t -> src_ok ctx lpa2 K_assigned_ns src ->
  s2tte_create_assigned_ns ctx (Z.lor t (leaf_bits ctx lpa2 K_assigned_ns level src)) (level - 1) 0
  = Some (Z.lor t (leaf_bits ctx lpa2 K_assigned_ns (level - 1) src)).
Proof.
  intros Hl Hlv Hm Hs.
  assert (Hm' : Z.land t (oa_mask lpa2 level) = t).
  { rewrite <- Hm, <- Z.land_assoc. level_cases level; destruct lpa2;
      match goal with |- Z.land t ?a = Z.land t ?b => fold_closed a; fold_closed b end; done. }
  destruct (create_ns_some ctx lpa2 (Z.lor t (leaf_bits ctx lpa2 K_assigned_ns level src))
    (level - 1) 0 Hl ltac:(lia)) as [v Hv].
  { apply (src_ok_leaf ctx lpa2 K_assigned_ns level t src); (done || lia). }
  rewrite Hv. f_equal. unfold s2tte_create_assigned_ns in Hv. rewrite Hl in Hv.
  cbn [mbind option_bind leaf_bits] in *. unfold S2TT_MIN_BLOCK_LEVEL, S2TT_PAGE_LEVEL in *.
  inv_some Hv; subst v; unfold s2tte_set_po_index.
  all: rewrite <- Hm; unfold ns_attr_mask; level_cases level; try discriminate;
       destruct lpa2; cbn [negb].
  all: repeat match goal with |- context [ns_rmm_bits ?a ?b ?c] => fold_closed (ns_rmm_bits a b c) end.
  all: unfold S2TTE_DEF_UNPROT_OVERLAY_IDX, S2AP_IND_PERM_IDX_COUNT; s2tt_simpl; done.
Qed.

(** ** The dispatch chains *)

(** References an unfold adds to the child, and whether the parent gains one. *)
Definition unfold_refs (k : s2tte_kind) : Z :=
  if is_leaf k then match k with K_assigned_ns => 0 | _ => S2TTES_PER_S2TT end else 0.
Definition unfold_get (k : s2tte_kind) : bool := unfold_refs k =? 0.
Definition unfold_bbm (k : s2tte_kind) : bool :=
  match k with K_assigned_ram | K_assigned_ns | K_assigned_dev_dev => true | _ => false end.

(** Refute every uniformity check of an unassigned kind other than the entry's. *)
Ltac refute_unassigned H0 :=
  repeat match goal with
  | A : ?f ?ctx ?v = false |- context [table_is_uniform_unassigned_block ?ctx ?table ?f ?ap] =>
      rewrite (unassigned_block_false ctx table f ap v H0 A); cbn [mbind option_bind]
  end.

Lemma unfold_leaf ctx lpa2 aux k pa v s2tt level :
  s2tt_lpa2_enabled ctx = Some lpa2 -> is_leaf k = true -> 2 <= level <= 3 ->
  built ctx (level - 1) k pa v -> s2tte_is_addr_lvl_aligned ctx pa (level - 1) = Some true ->
  rtt_create_unfold ctx aux v s2tt level =
    (t ← init_loop (s2tte_map_size level) (fun pa => recreate ctx k pa v level) s2tt pa;
     Some (Unfold_ok t (unfold_refs k) (unfold_get k) (unfold_bbm k))).
Proof.
  intros Hl Hk Hlv Hb Ha.
  pose proof (fun k' => built_is_kind _ _ (level - 1) _ _ _ k' Hl ltac:(lia) Hb) as Hkind.
  pose proof (built_not_pending _ _ (level - 1) _ _ _ Hl ltac:(lia) Hb) as Hp.
  pose proof (built_pa _ _ _ _ _ _ Hl Hb ltac:(by destruct k)) as Hpa.
  destruct (aligned_child _ _ _ level 0 Hl ltac:(lia) ltac:(lia) Ha) as (Ha' & _).
  rewrite Z.mul_0_l, Z.add_0_r in Ha'.
  unfold rtt_create_unfold, s2tt_init_assigned_destroyed, s2tt_init_assigned_empty,
    s2tt_init_assigned_ram, s2tt_init_assigned_ns, s2tt_init_assigned_dev_empty,
    s2tt_init_assigned_dev_destroyed, s2tt_init_assigned_dev_dev, init_assigned,
    S2TT_MIN_BLOCK_LEVEL, S2TT_MIN_DEV_BLOCK_LEVEL, S2TT_PAGE_LEVEL.
  rewrite Hp, Hpa, (proj2 (Z.ltb_lt 1 level)), (proj2 (Z.leb_le 1 level)), (proj2 (Z.leb_le level 3)) by lia.
  destruct k; try discriminate Hk; kind_answers Hkind; use_answers; reflexivity.
Qed.

Definition remake ctx (k : s2tte_kind) (src : Z) : Z :=
  match k with
  | K_unassigned_empty => s2tte_create_unassigned_empty ctx src
  | K_unassigned_ram => s2tte_create_unassigned_ram ctx src
  | K_unassigned_destroyed => s2tte_create_unassigned_destroyed ctx src
  | _ => s2tte_create_unassigned_ns ctx src
  end.

Lemma remake_built ctx level k pa v :
  built ctx level k pa v -> kind_live k = false -> remake ctx k v = v.
Proof.
  intros Hb Hk. destruct Hb; try discriminate Hk; cbn [remake]; [..|done].
  all: unfold s2tte_create_unassigned_empty, s2tte_create_unassigned_ram, s2tte_create_unassigned_destroyed.
  2: rewrite !(Z.lor_comm (Z.lor _ S2TTE_INVALID_RIPAS_RAM)).
  all: rewrite s2tte_get_ap_idem; [done|destruct (indirect_s2ap ctx); reflexivity].
Qed.

Lemma unfold_unassigned ctx lpa2 aux k pa v s2tt level :
  s2tt_lpa2_enabled ctx = Some lpa2 -> kind_live k = false -> -1 <= level - 1 <= 3 ->
  built ctx (level - 1) k pa v ->
  rtt_create_unfold ctx aux v s2tt level =
    (t ← for_upM N_S2TTES 0 (fun i s2tt => arr_set s2tt i v) s2tt;
     Some (Unfold_ok t (unfold_refs k) (unfold_get k) (unfold_bbm k))).
Proof.
  intros Hl Hk Hlv Hb.
  pose proof (fun k' => built_is_kind _ _ (level - 1) _ _ _ k' Hl ltac:(lia) Hb) as Hkind.
  pose proof (built_not_pending _ _ (level - 1) _ _ _ Hl ltac:(lia) Hb) as Hp.
  pose proof (remake_built _ _ _ _ _ Hb Hk) as Hr.
  unfold rtt_create_unfold, s2tt_init_unassigned_empty, s2tt_init_unassigned_ram,
    s2tt_init_unassigned_ns, s2tt_init_unassigned_destroyed. rewrite Hp.
  destruct k; try discriminate Hk; kind_answers Hkind; use_answers; cbn [remake] in Hr;
    rewrite Hr; reflexivity.
Qed.

(** Folding a table all of whose entries are one unassigned descriptor. *)
Lemma fold_unassigned ctx lpa2 aux k pa v table level :
  s2tt_lpa2_enabled ctx = Some lpa2 -> kind_live k = false -> -1 <= level <= 3 ->
  built ctx level k pa v -> length table = N_S2TTES ->
  (forall j, 0 <= j < 512 -> arr_get table j = Some v) ->
  rtt_fold_table ctx aux table 0 level (level - 1) = Some (Fold_ok v 0 true).
Proof.
  intros Hl Hk Hlv Hb Hlen Hg.
  pose proof (fun k' => built_is_kind _ _ level _ _ _ k' Hl ltac:(lia) Hb) as Hkind.
  pose proof (remake_built _ _ _ _ _ Hb Hk) as Hr.
  assert (H0 : arr_get table 0 = Some v) by (apply Hg; lia).
  unfold rtt_fold_table, s2tte_read. rewrite H0. cbn [mbind option_bind].
  rewrite any_drain_pending_false; [|done|].
  2: { intros j w Hj Hw. rewrite Hg in Hw by done. injection Hw as <-.
       by eapply (built_not_pending ctx lpa2 level). }
  cbn [Z.eqb]. unfold s2tt_is_unassigned_destroyed_block, s2tt_is_unassigned_empty_block,
    s2tt_is_unassigned_ram_block, s2tt_is_unassigned_ns_block.
  destruct k; try discriminate Hk; kind_answers Hkind; cbn [remake] in Hr.
  all: refute_unassigned H0; rewrite (unassigned_block_true ctx table _ _ v) by auto; cbn [mbind option_bind].
  all: do 2 f_equal; exact Hr.
Qed.

(** Folding a table of contiguous leaves gives the block leaf made from the
    attributes of its first entry. *)
Lemma fold_leaf ctx lpa2 aux k pa src table level :
  s2tt_lpa2_enabled ctx = Some lpa2 -> is_leaf k = true -> 2 <= level <= 3 ->
  s2tte_is_addr_lvl_aligned ctx pa (level - 1) = Some true -> src_ok ctx lpa2 k src ->
  length table = N_S2TTES ->
  (forall j, 0 <= j < 512 ->
     arr_get table j = recreate ctx k (pa + j * s2tte_map_size level) src level) ->
  exists t, pa_to_s2tte ctx pa = Some t /\
    rtt_fold_table ctx aux table (unfold_refs k) level (level - 1)
    = Some (Fold_ok (Z.lor t (leaf_bits ctx lpa2 k (level - 1) src)) (unfold_refs k) (unfold_get k)).
Proof.
  intros Hl Hk Hlv Ha Hs Hlen Hg.
  destruct (aligned_child _ _ _ level 0 Hl ltac:(lia) ltac:(lia) Ha) as (Ha0 & _).
  rewrite Z.mul_0_l, Z.add_0_r in Ha0.
  destruct (recreate_value ctx lpa2 k pa src level Hl Hk ltac:(lia) Ha0 Hs) as (t & Ht & Hm & Hr).
  pose proof (Hg 0 ltac:(lia)) as H0. rewrite Z.mul_0_l, Z.add_0_r, Hr in H0.
  set (s0 := Z.lor t (leaf_bits ctx lpa2 k level src)) in *.
  assert (Hb0 : built ctx level k pa s0) by (by eapply recreate_built).
  destruct (recreate_value ctx lpa2 k pa s0 (level - 1) Hl Hk ltac:(lia) Ha) as (t' & Ht' & Hm' & Hr').
  { apply src_ok_leaf; (done || lia). }
  assert (t' = t) as -> by congruence.
  unfold s0 in Hr' at 2. rewrite leaf_bits_stable in Hr' by (done || lia).
  exists t. split; [done|].
  pose proof (fun k' => built_is_kind _ _ level _ _ _ k' Hl ltac:(lia) Hb0) as Hkind.
  unfold rtt_fold_table, s2tte_read. rewrite H0. cbn [mbind option_bind].
  rewrite any_drain_pending_false; [|done|].
  2: { intros j w Hj Hw. rewrite Hg in Hw by done.
       destruct (aligned_child _ _ _ level j Hl ltac:(lia) Hj Ha) as (Haj & _).
       eapply (built_not_pending ctx lpa2 level); [done|lia|]. by eapply recreate_built. }
  unfold s2tt_is_unassigned_destroyed_block, s2tt_is_unassigned_empty_block,
    s2tt_is_unassigned_ram_block, s2tt_is_unassigned_ns_block, s2tt_maps_assigned_ns_block,
    s2tt_maps_assigned_empty_block, s2tt_maps_assigned_ram_block, s2tt_maps_assigned_destroyed_block,
    s2tt_maps_assigned_dev_empty_block, s2tt_maps_assigned_dev_destroyed_block,
    s2tt_maps_assigned_dev_dev_block, S2TT_MIN_BLOCK_LEVEL.
  rewrite (proj2 (Z.leb_gt level 1)) by lia.
  rewrite (built_pa _ _ _ _ _ _ Hl Hb0) by (by destruct k). cbn [mbind option_bind].
  assert (Hlv' : if lpa2 then -1 <= level <= 3 else 0 <= level <= 3) by (destruct lpa2; lia).
  change s2tte_is_assigned_ns with (checker K_assigned_ns).
  change s2tte_is_assigned_empty with (checker K_assigned_empty).
  change s2tte_is_assigned_ram with (checker K_assigned_ram).
  change s2tte_is_assigned_destroyed with (checker K_assigned_destroyed).
  change s2tte_is_assigned_dev_empty with (checker K_assigned_dev_empty).
  change s2tte_is_assigned_dev_destroyed with (checker K_assigned_dev_destroyed).
  change s2tte_is_assigned_dev_dev with (checker K_assigned_dev_dev).
  assert (Hyes : forall ca dev, table_maps_block ctx table level (checker k) ca s0 dev = Some true)
    by (intros; eapply maps_block_true; eauto; lia).
  assert (Hno : forall k' ca ap dev, k <> k' ->
    table_maps_block ctx table level (checker k') ca ap dev = Some false)
    by (intros; eapply maps_block_false; eauto).
  destruct k; try discriminate Hk; kind_answers Hkind.
  all: cbn [unfold_refs is_leaf kind_live unfold_get]; cbn [Z.eqb S2TTES_PER_S2TT Pos.eqb].
  all: refute_unassigned H0.
  all: repeat first [rewrite Hyes by done | rewrite Hno by done]; cbn [mbind option_bind].
  all: cbn [recreate] in Hr'; rewrite ?Hr'; try done.
  unfold s0. rewrite (ns_fold_value ctx lpa2) by (done || lia). done.
Qed.

(** What unfolding makes of a built entry: a table of entries of its kind, which
    folds back into the entry. *)
Lemma unfold_ok ctx lpa2 aux level k pa v s2tt :
  s2tt_lpa2_enabled ctx = Some lpa2 -> -1 <= level - 1 -> level <= 3 -> k <> K_table ->
  built ctx (level - 1) k pa v -> length s2tt = N_S2TTES ->
  exists table,
    rtt_create_unfold ctx aux v s2tt level
      = Some (Unfold_ok table (unfold_refs k) (unfold_get k) (unfold_bbm k)) /\
    length table = N_S2TTES /\
    (forall j, 0 <= j < 512 -> exists e pa', arr_get table j = Some e /\ built ctx level k pa' e) /\
    rtt_fold_table ctx aux table (unfold_refs k) level (level - 1) = Some (Fold_ok v (unfold_refs k) (unfold_get k)).
Proof.
  intros Hl Hlv1 Hlv2 Hk Hb Hlen. destruct (kind_live k) eqn:Hlive.
  - assert (Hleaf : is_leaf k = true) by (by destruct k).
    assert (Hlk : level_ok k (level - 1)) by (by eapply built_level).
    assert (Hlv : 2 <= level <= 3) by (destruct k; cbn in Hlk; (done || lia)).
    destruct (built_src _ _ _ _ _ _ Hl Hleaf Hb) as (src & Hs & Hrec).
    destruct (built_live_shape _ _ _ _ _ _ Hl Hb Hlive) as (? & ? & _ & _ & Ha & _).
    assert (Hpl : pa_level k (level - 1) = level - 1) by (by destruct k). rewrite Hpl in Ha.
    destruct (recreate_value ctx lpa2 k pa src (level - 1) Hl Hleaf ltac:(lia) Ha Hs)
      as (t & Ht & Hm & Hv). rewrite Hrec in Hv. injection Hv as Hv.
    assert (Hsv : src_ok ctx lpa2 k v) by (rewrite Hv; apply src_ok_leaf; (done || lia)).
    destruct (init_leaf_table ctx lpa2 k pa v level s2tt) as (tb & Htb & Hltb & Hg); try (done || lia).
    rewrite (unfold_leaf ctx lpa2 aux k pa) by (done || lia). rewrite Htb. cbn [mbind option_bind].
    exists tb. split_and!; [done..| |].
    { intros j Hj. destruct (aligned_child _ _ _ level j Hl ltac:(lia) Hj Ha) as (Haj & _).
      destruct (recreate_value _ _ _ _ _ level Hl Hleaf ltac:(lia) Haj Hsv) as (tj & _ & _ & Hr).
      eexists _, _. rewrite Hg, Hr by done. split; [done|]. eapply recreate_built; eauto. }
    destruct (fold_leaf ctx lpa2 aux k pa v tb level) as (t' & Ht' & ->); try (done || lia).
    assert (t' = t) as -> by congruence.
    rewrite Hv at 1. rewrite leaf_bits_stable by (done || lia). by rewrite <- Hv.
  - rewrite (unfold_unassigned ctx lpa2 aux k pa) by (done || lia).
    destruct (const_loop v N_S2TTES 0 s2tt) as (tb & Htb & Hltb & Hg); [lia|rewrite Hlen; lia|].
    rewrite Htb. cbn [mbind option_bind]. exists tb.
    assert (Hgv : forall j, 0 <= j < 512 -> arr_get tb j = Some v).
    { intros j Hj. rewrite Hg, (proj2 (Z.leb_le _ _)), (proj2 (Z.ltb_lt _ _)) by (unfold N_S2TTES; lia). done. }
    assert (Hbv : built ctx level k pa v) by (destruct Hb; try discriminate Hlive; constructor).
    split_and!; [done|congruence| |].
    { intros j Hj. eexists _, _. rewrite Hgv by done. by split. }
    assert (Hrefs : unfold_refs k = 0 /\ unfold_get k = true) by (by destruct k).
    destruct Hrefs as [-> ->].
    apply (fold_unassigned ctx lpa2 aux k pa); (done || lia || congruence).
Qed.

(** C29: unfolding any block or unassigned entry into a child table and folding
    that table back gives the very same parent entry, with the reference counts
    the two operations add and drop equal.  Neither trips an assertion. *)
Theorem rtt_unfold_fold_inverse ctx lpa2 aux level k pa v s2tt :
  s2tt_lpa2_enabled ctx = Some lpa2 -> -1 <= level - 1 -> level <= 3 -> k <> K_table ->
  built ctx (level - 1) k pa v -> length s2tt = N_S2TTES ->
  exists table refs get bbm,
    rtt_create_unfold ctx aux v s2tt level = Some (Unfold_ok table refs get bbm) /\
    length table = N_S2TTES /\
    rtt_fold_table ctx aux table refs level (level - 1) = Some (Fold_ok v refs get).
Proof.
  intros Hl Hlv1 Hlv2 Hk Hb Hlen.
  destruct (unfold_ok ctx lpa2 aux level k pa v s2tt Hl Hlv1 Hlv2 Hk Hb Hlen) as (tb & H1 & H2 & _ & H3).
  by exists tb, (unfold_refs k), (unfold_get k), (unfold_bbm k).
Qed.

(** ** Soundness of a fold on any well-formed table *)

(** The entries of a table: descriptors the RMM built, or marked ones. *)
Definition table_wf ctx level table : Prop :=
  length table = N_S2TTES /\
  forall j e, arr_get table j = Some e ->
    s2tte_drain_pending e = true \/ exists k pa, built ctx level k pa e.

Definition attr_mask ctx : Z :=
  Z.lor S2TTE_MEMATTR_MASK (if indirect_s2ap ctx then S2TTE_PI_INDEX_MASK else S2TTE_RW_AP_MASK).

(** Same permissions and host attributes, as far as the kind has them. *)
Definition same_attrs ctx (k : s2tte_kind) (e p : Z) : Prop :=
  match k with
  | K_assigned_ns => Z.land e (attr_mask ctx) = Z.land p (attr_mask ctx)
  | K_assigned_dev_dev => s2tte_get_ap ctx e true = s2tte_get_ap ctx p true
      /\ Z.land e S2TTE_MEMATTR_MASK = Z.land p S2TTE_MEMATTR_MASK
  | K_unassigned_ns | K_table => True
  | _ => s2tte_get_ap ctx e (kind_dev k) = s2tte_get_ap ctx p (kind_dev k)
  end.

Lemma maps_block_inv ctx lpa2 k table level ca dev s0 :
  s2tt_lpa2_enabled ctx = Some lpa2 -> 1 <= level <= 3 ->
  arr_get table 0 = Some s0 ->
  table_maps_block ctx table level (checker k) ca s0 dev = Some true ->
  exists base, s2tte_pa ctx s0 level = Some base /\
    s2tte_is_addr_lvl_aligned ctx base (level - 1) = Some true /\
    forall j, 0 <= j < 512 -> exists e, arr_get table j = Some e /\
      is_kind ctx e level k = Some true /\
      s2tte_pa ctx e level = Some (base + j * s2tte_map_size level) /\
      (ca = false \/ dev = true -> s2tte_get_ap ctx e dev = s2tte_get_ap ctx s0 dev) /\
      (ca = true -> Z.land e (attr_mask ctx) = Z.land s0 (attr_mask ctx)).
Proof.
  intros Hl Hlv H0 H. unfold table_maps_block, s2tte_read, checker in H. rewrite Hl, H0 in H.
  cbn [mbind option_bind] in H.
  match type of H with (if ?b then _ else _) = _ => destruct b; [|done] end.
  inv_some H; try discriminate. rename z into base. destruct b; [|done]. destruct b0; [|done].
  exists base. split_and!; [done..|]. intros j Hj.
  destruct (aligned_child _ _ _ _ 0 Hl Hlv ltac:(lia) E4) as (_ & Hpa & Hbd).
  assert (Hms : 0 <= s2tte_map_size level) by (rewrite s2tte_map_size_eq by lia; apply Z.pow_nonneg; lia).
  destruct (decide (j = 0)) as [->|].
  { exists s0. rewrite Z.mul_0_l, Z.add_0_r. done. }
  pose proof (proj1 (all_upM_true _ _ _) H j ltac:(unfold N_S2TTES; lia)) as Hc. cbn beta in Hc.
  inv_some Hc; try discriminate. destruct b; [|done].
  match goal with E : negb (?p =? _) = false |- _ => rename p into paj; rename E into Ep end.
  match goal with E : arr_get table j = Some ?x |- _ => rename x into e end.
  exists e. split_and!; [done..| | |].
  - etrans; [eassumption|]. f_equal. apply negb_false_iff, Z.eqb_eq in Ep.
    rewrite Ep. unfold add64, mul64. rewrite (u64_small (j * _)) by (unfold in_u64; nia).
    apply u64_small. unfold in_u64. nia.
  - intros Hca. match goal with E : (negb ca || dev) && _ = false |- _ => rename E into Ea end.
    replace (negb ca || dev) with true in Ea by (destruct Hca as [->| ->]; [done|by destruct ca]).
    cbn [andb] in Ea. apply negb_false_iff, Z.eqb_eq in Ea. congruence.
  - intros ->. match goal with E : true && _ = false |- _ => rename E into Eb end.
    cbn [andb] in Eb. apply negb_false_iff, Z.eqb_eq in Eb. unfold attr_mask. congruence.
Qed.

Lemma unassigned_block_inv ctx table f ap v0 :
  arr_get table 0 = Some v0 -> ap = None \/ ap = Some v0 ->
  table_is_uniform_unassigned_block ctx table f ap = Some true ->
  forall j, 0 <= j < 512 -> exists e, arr_get table j = Some e /\ f ctx e = true /\
    (ap = Some v0 -> s2tte_get_ap ctx e false = s2tte_get_ap ctx v0 false).
Proof.
  intros H0 Hap H j Hj. unfold table_is_uniform_unassigned_block, s2tte_read in H.
  rewrite H0 in H. cbn [mbind option_bind] in H. inv_some H; try discriminate.
  destruct (decide (j = 0)) as [->|].
  { exists v0. split_and!; [done|by apply negb_false_iff|done]. }
  pose proof (proj1 (all_upM_true _ _ _) H j ltac:(unfold N_S2TTES; lia)) as Hc. cbn beta in Hc.
  inv_some Hc; try discriminate. eexists. split_and!; [done|by apply negb_false_iff|].
  intros ->. apply Z.eqb_eq in Hc. congruence.
Qed.

(** What a fold promises about the table it replaces. *)
Definition fold_refines ctx level table (k : s2tte_kind) (base p : Z) : Prop :=
  built ctx (level - 1) k base p /\
  forall j, 0 <= j < 512 -> exists e, arr_get table j = Some e /\
    is_kind ctx e level k = Some true /\ same_attrs ctx k e p /\
    (kind_live k = true ->
       s2tte_pa ctx e level = Some (base + j * s2tte_map_size level) /\
       s2tte_pa ctx p (level - 1) = Some base).

Lemma built_kind_eq ctx lpa2 level k k' pa v :
  s2tt_lpa2_enabled ctx = Some lpa2 -> -1 <= level <= 3 -> built ctx level k pa v ->
  is_kind ctx v level k' = Some true -> k = k'.
Proof.
  intros Hl Hlv Hb H. rewrite (built_is_kind _ _ _ _ _ _ k' Hl Hlv Hb) in H.
  injection H as H. by apply bool_decide_eq_true in H.
Qed.

Lemma fold_refines_leaf ctx lpa2 k ca level table s0 pa0 base p :
  s2tt_lpa2_enabled ctx = Some lpa2 -> is_leaf k = true -> 2 <= level <= 3 ->
  (ca = match k with K_assigned_ns | K_assigned_dev_dev => true | _ => false end) ->
  arr_get table 0 = Some s0 -> built ctx level k pa0 s0 ->
  table_maps_block ctx table level (checker k) ca s0 (kind_dev k) = Some true ->
  s2tte_pa ctx s0 level = Some base ->
  (match k with K_assigned_ns => s2tte_create_assigned_ns ctx s0 (level - 1) 0
   | _ => recreate ctx k base s0 (level - 1) end) = Some p ->
  fold_refines ctx level table k base p.
Proof.
  intros Hl Hk Hlv Hca H0 Hb0 Hm Hbase Hp.
  assert (Hlive : kind_live k = true) by (by destruct k).
  assert (base = pa0) as -> by (rewrite (built_pa _ _ _ _ _ _ Hl Hb0 Hlive) in Hbase; congruence).
  destruct (maps_block_inv _ _ _ _ level _ _ _ Hl ltac:(lia) H0 Hm) as (base & Hbase' & Ha & Hall).
  assert (base = pa0) as -> by congruence.
  destruct (aligned_child _ _ _ level 0 Hl ltac:(lia) ltac:(lia) Ha) as (Ha0 & _).
  rewrite Z.mul_0_l, Z.add_0_r in Ha0.
  destruct (built_src _ _ _ _ _ _ Hl Hk Hb0) as (src & Hs & Hrec).
  destruct (recreate_value ctx lpa2 k pa0 src level Hl Hk ltac:(lia) Ha0 Hs) as (t & Ht & Hmt & Hv).
  rewrite Hrec in Hv. injection Hv as Hv.
  destruct (recreate_value ctx lpa2 k pa0 src (level - 1) Hl Hk ltac:(lia) Ha Hs)
    as (t' & Ht' & Hmt' & Hv'). assert (t' = t) as -> by congruence.
  assert (Hpv : p = Z.lor t (leaf_bits ctx lpa2 k (level - 1) src) /\ recreate ctx k pa0 src (level - 1) = Some p).
  { assert (Hss : src_ok ctx lpa2 k s0) by (rewrite Hv; apply src_ok_leaf; (done || lia)).
    destruct (recreate_value ctx lpa2 k pa0 s0 (level - 1) Hl Hk ltac:(lia) Ha Hss)
      as (t' & Ht'' & _ & Hv''). assert (t' = t) as -> by congruence.
    rewrite Hv in Hv'' at 2. rewrite leaf_bits_stable in Hv'' by (done || lia).
    destruct k; try discriminate Hk; try (split; congruence).
    rewrite Hv, (ns_fold_value ctx lpa2) in Hp by (done || lia). split; congruence. }
  destruct Hpv as [Hpv Hrp].
  assert (Hbp : built ctx (level - 1) k pa0 p) by (by eapply recreate_built).
  split; [done|]. intros j Hj. destruct (Hall j Hj) as (e & He & Hke & Hpe & Hap & Hat).
  exists e. split_and!; [done..| |].
  2: { intros _. split; [done|]. by eapply built_pa. }
  assert (Hgap : k <> K_assigned_ns -> s2tte_get_ap ctx s0 (kind_dev k) = s2tte_get_ap ctx p (kind_dev k)).
  { intros Hns. by rewrite Hv, Hpv, !(leaf_get_ap ctx lpa2) by (done || lia). }
  destruct k; try discriminate Hk; cbn [same_attrs kind_dev] in *; subst ca.
  1-3, 5-6: rewrite Hap by auto; by apply Hgap.
  - rewrite Hat by done. rewrite Hv, Hpv.
    change (attr_mask ctx) with (ns_attr_mask (indirect_s2ap ctx)).
    by rewrite !leaf_ns_attrs by (done || lia).
  - split; [rewrite Hap by auto; by apply Hgap|].
    specialize (Hat eq_refl). apply (f_equal (fun z => Z.land z S2TTE_MEMATTR_MASK)) in Hat.
    rewrite <- !Z.land_assoc in Hat.
    assert (Hma : Z.land (attr_mask ctx) S2TTE_MEMATTR_MASK = S2TTE_MEMATTR_MASK)
      by (unfold attr_mask; destruct (indirect_s2ap ctx); reflexivity).
    rewrite Hma in Hat. rewrite Hat.
    assert (Hmd : forall x, Z.land x S2TTE_MEMATTR_MASK = Z.land (Z.land x (dev_attr_mask lpa2)) S2TTE_MEMATTR_MASK)
      by (intros x; rewrite <- Z.land_assoc; destruct lpa2; reflexivity).
    by rewrite (Hmd s0), (Hmd p), Hv, Hpv, !leaf_dev_attrs by (done || lia).
Qed.

Lemma fold_refines_unassigned ctx lpa2 k f level table s0 pa0 ap :
  s2tt_lpa2_enabled ctx = Some lpa2 -> kind_live k = false -> -1 <= level <= 3 ->
  (forall v, is_kind ctx v level k = Some (f ctx v)) ->
  arr_get table 0 = Some s0 -> built ctx level k pa0 s0 ->
  (ap = match k with K_unassigned_ns => None | _ => Some s0 end) ->
  table_is_uniform_unassigned_block ctx table f ap = Some true ->
  fold_refines ctx level table k 0 (remake ctx k s0).
Proof.
  intros Hl Hk Hlv Hf H0 Hb Hap Hu. rewrite (remake_built _ _ _ _ _ Hb Hk). split.
  { destruct Hb; try discriminate Hk; constructor. }
  intros j Hj.
  assert (Hap' : ap = None \/ ap = Some s0) by (subst ap; destruct k; auto).
  destruct (unassigned_block_inv _ _ _ _ _ H0 Hap' Hu j Hj) as (e & He & Hfe & Hape).
  exists e. rewrite Hf, Hfe. split_and!; [done..| |].
  - destruct k; try discriminate Hk; cbn [same_attrs kind_dev]; try exact I; by apply Hape.
  - by rewrite Hk.
Qed.

(** One branch of the fold on a table of leaves of kind [k]. *)
Lemma fold_leaf_branch ctx lpa2 k k0 pa0 ca level table s0 base p :
  s2tt_lpa2_enabled ctx = Some lpa2 -> is_leaf k = true -> 2 <= level <= 3 ->
  ca = match k with K_assigned_ns | K_assigned_dev_dev => true | _ => false end ->
  arr_get table 0 = Some s0 -> built ctx level k0 pa0 s0 ->
  table_maps_block ctx table level (checker k) ca s0 (kind_dev k) = Some true ->
  s2tte_pa ctx s0 level = Some base ->
  (match k with K_assigned_ns => s2tte_create_assigned_ns ctx s0 (level - 1) 0
   | _ => recreate ctx k base s0 (level - 1) end) = Some p ->
  fold_refines ctx level table k base p.
Proof.
  intros Hl Hk Hlv Hca H0 Hb Hm Hbase Hp.
  assert (k0 = k) as ->; [|by eapply fold_refines_leaf].
  destruct (maps_block_inv _ _ _ _ level _ _ _ Hl ltac:(lia) H0 Hm) as (b & _ & _ & Hall).
  destruct (Hall 0 ltac:(lia)) as (e & He & Hke & _). assert (e = s0) as -> by congruence.
  eapply (built_kind_eq ctx lpa2 level); eauto; lia.
Qed.

(** One branch of the fold on a table of unassigned entries of kind [k]. *)
Lemma fold_unassigned_branch ctx lpa2 k k0 pa0 f level table s0 ap :
  s2tt_lpa2_enabled ctx = Some lpa2 -> kind_live k = false -> -1 <= level <= 3 ->
  (forall v, is_kind ctx v level k = Some (f ctx v)) ->
  arr_get table 0 = Some s0 -> built ctx level k0 pa0 s0 ->
  ap = match k with K_unassigned_ns => None | _ => Some s0 end ->
  table_is_uniform_unassigned_block ctx table f ap = Some true ->
  fold_refines ctx level table k 0 (remake ctx k s0).
Proof.
  intros Hl Hk Hlv Hf H0 Hb Hap Hu.
  assert (k0 = k) as ->; [|by eapply fold_refines_unassigned].
  assert (Hap' : ap = None \/ ap = Some s0) by (subst ap; destruct k; auto).
  destruct (unassigned_block_inv _ _ _ _ _ H0 Hap' Hu 0 ltac:(lia)) as (e & He & Hfe & _).
  assert (e = s0) as -> by congruence.
  eapply (built_kind_eq ctx lpa2 level); [exact Hl|lia|exact Hb|]. by rewrite Hf, Hfe.
Qed.

(** The first entry of a table that passes the drain scan was built. *)
Lemma first_entry_built ctx level table s0 :
  table_wf ctx level table -> arr_get table 0 = Some s0 -> any_drain_pending (take N_S2TTES table) = false ->
  exists k0 pa0, built ctx level k0 pa0 s0.
Proof.
  intros [_ Hwf] H0 Hd. destruct (Hwf 0 s0 H0) as [Hp|]; [|done]. exfalso.
  unfold arr_get in H0. cbn in H0. destruct table as [|x tb]; [done|]. injection H0 as ->.
  cbn in Hd. by rewrite Hp in Hd.
Qed.

Lemma fold_sound ctx lpa2 aux table refs level p rc put :
  s2tt_lpa2_enabled ctx = Some lpa2 -> 0 <= level <= 3 -> table_wf ctx level table ->
  rtt_fold_table ctx aux table refs level (level - 1) = Some (Fold_ok p rc put) ->
  exists k base, k <> K_table /\ fold_refines ctx level table k base p /\
    refs = unfold_refs k /\ rc = unfold_refs k /\ put = unfold_get k.
Proof.
  intros Hl Hlv Hwf H. unfold rtt_fold_table, s2tte_read in H.
  destruct (arr_get table 0) as [s0|] eqn:H0; [|done]. cbn [mbind option_bind] in H.
  destruct (any_drain_pending (take N_S2TTES table)) eqn:Hd; [done|].
  destruct (first_entry_built _ _ _ _ Hwf H0 Hd) as (k0 & pa0 & Hb). clear Hwf Hd.
  assert (Hleaf : forall k ca base q, is_leaf k = true -> 2 <= level ->
    ca = match k with K_assigned_ns | K_assigned_dev_dev => true | _ => false end ->
    table_maps_block ctx table level (checker k) ca s0 (kind_dev k) = Some true ->
    s2tte_pa ctx s0 level = Some base ->
    (match k with K_assigned_ns => s2tte_create_assigned_ns ctx s0 (level - 1) 0
     | _ => recreate ctx k base s0 (level - 1) end) = Some q ->
    refs = unfold_refs k -> rc = unfold_refs k -> put = unfold_get k ->
    exists k base, k <> K_table /\ fold_refines ctx level table k base q /\
      refs = unfold_refs k /\ rc = unfold_refs k /\ put = unfold_get k).
  { intros k ca base q Hk Hlv2 Hca Hm Hbase Hq H1 H2 H3. exists k, base. split; [by destruct k|].
    split; [|done]. eapply fold_leaf_branch; eauto; lia. }
  assert (Hun : forall k f ap, kind_live k = false ->
    (forall v, is_kind ctx v level k = Some (f ctx v)) ->
    ap = match k with K_unassigned_ns => None | _ => Some s0 end ->
    table_is_uniform_unassigned_block ctx table f ap = Some true ->
    refs = 0 -> rc = 0 -> put = true ->
    exists k' base, k' <> K_table /\ fold_refines ctx level table k' base (remake ctx k s0) /\
      refs = unfold_refs k' /\ rc = unfold_refs k' /\ put = unfold_get k').
  { intros k f ap Hk Hf Hap Hu H1 H2 H3. exists k, 0. split; [by destruct k|]. split; [|by destruct k].
    eapply fold_unassigned_branch; eauto; lia. }
  unfold S2TT_MIN_BLOCK_LEVEL in *.
  destruct (Z.eqb_spec refs 0); [|destruct (Z.eqb_spec refs S2TTES_PER_S2TT); [|by inv_some H]].
  - inv_some H; try discriminate; subst.
    + by apply (Hun K_unassigned_destroyed s2tte_is_unassigned_destroyed (Some s0)).
    + by apply (Hun K_unassigned_empty s2tte_is_unassigned_empty (Some s0)).
    + by apply (Hun K_unassigned_ram s2tte_is_unassigned_ram (Some s0)).
    + by apply (Hun K_unassigned_ns s2tte_is_unassigned_ns None).
    + match goal with E : s2tt_maps_assigned_ns_block _ _ _ _ = _ |- _ =>
        destruct (maps_block_inv ctx lpa2 K_assigned_ns table level true false s0 Hl ltac:(lia) H0 E)
          as (base & Hbase & _) end.
      eapply (Hleaf K_assigned_ns true base); eauto; try done; lia.
  - inv_some H; try discriminate; subst.
    + eapply (Hleaf K_assigned_empty false); eauto; try done; lia.
    + eapply (Hleaf K_assigned_ram false); eauto; try done; lia.
    + eapply (Hleaf K_assigned_destroyed false); eauto; try done; lia.
    + eapply (Hleaf K_assigned_dev_empty false); eauto; try done; lia.
    + eapply (Hleaf K_assigned_dev_destroyed false); eauto; try done; lia.
    + eapply (Hleaf K_assigned_dev_dev true); eauto; try done; lia.
Qed.

(** Whatever table the RMM folds, if the fold succeeds then all 512 entries
    were of one kind [k] with the same permissions and attributes as the new
    parent entry, and entry [j] mapped [base + j * map_size] where the parent
    maps [base]: the fold preserves the translation of every address.  The
    references it drops are those the table was counted with. *)
Theorem rtt_fold_sound ctx lpa2 aux table refs level p rc put :
  s2tt_lpa2_enabled ctx = Some lpa2 -> 0 <= level <= 3 -> table_wf ctx level table ->
  rtt_fold_table ctx aux table refs level (level - 1) = Some (Fold_ok p rc put) ->
  rc = refs /\ exists k base, k <> K_table /\ fold_refines ctx level table k base p.
Proof.
  intros Hl Hlv Hwf H.
  destruct (fold_sound ctx lpa2 aux table refs level p rc put Hl Hlv Hwf H) as (k & base & Hk & Hf & -> & -> & _).
  split; [done|]. by exists k, base.
Qed.

End RttFoldProps.

(** ** Concrete instances *)

#[local] Existing Instance demo_features.

Definition demo_block : Z :=
  Eval vm_compute in default 0 (s2tte_create_assigned_ram demo_ctx 0x80000000 2 0).
Definition demo_table : list Z :=
  Eval vm_compute in
    match rtt_create_unfold demo_ctx false demo_block (replicate N_S2TTES 0) 3 with
    | Some (Unfold_ok t _ _ _) => t | _ => [] end.

Lemma rtt_unfold_fold_inverse_witness :
  exists table refs get bbm,
    rtt_create_unfold demo_ctx false demo_block (replicate N_S2TTES 0) 3
      = Some (Unfold_ok table refs get bbm) /\
    length table = N_S2TTES /\
    rtt_fold_table demo_ctx false table refs 3 2 = Some (Fold_ok demo_block refs get).
Proof.
  apply (rtt_unfold_fold_inverse demo_ctx false false 3 K_assigned_ram 0x80000000);
    [reflexivity|lia|lia|discriminate|apply (b_ar _ _ _ 0); vm_compute; reflexivity|reflexivity].
Defined.

Lemma demo_table_wf : table_wf demo_ctx 3 demo_table.
Proof.
  split; [reflexivity|]. intros j e He. right. exists K_assigned_ram, (0x80000000 + j * 0x1000).
  apply (b_ar _ _ _ demo_block).
  assert (Hall : forallb (fun j => bool_decide
    (s2tte_create_assigned_ram demo_ctx (0x80000000 + j * 0x1000) 3 demo_block = arr_get demo_table j))
    (map Z.of_nat (seq 0 512)) = true) by (vm_compute; reflexivity).
  rewrite forallb_forall in Hall. rewrite <- He. eapply (proj1 (bool_decide_eq_true _)), Hall.
  apply arr_get_lt in He. rewrite in_map_iff. exists (Z.to_nat j).
  change (Z.of_nat (length demo_table)) with 512 in He. rewrite in_seq. lia.
Qed.

Lemma rtt_fold_sound_witness :
  512 = 512 /\ exists k base, k <> K_table /\ fold_refines demo_ctx 3 demo_table k base demo_block.
Proof.
  apply (rtt_fold_sound demo_ctx false false demo_table 512 3 demo_block 512 false);
    [reflexivity|lia|apply demo_table_wf|vm_compute; reflexivity].
Defined.
