(* ===== verification/RttEntry.v ===== *)
(** * Single-entry operations of the RTT commands ([runtime/rmi/rtt.c], [rtt_map.c])

    RIPAS changes, the decoding of an entry for RMI_RTT_READ_ENTRY and the
    mapping of non-secure memory, each on one entry of a locked table. *)

From Stdlib Require Import ZArith Lia Bool ZifyBool.
From stdpp Require Import base tactics option list numbers.
From S2P Require Import Prelude.
From S2P Require Import Utils.
From S2P Require Import Status.
From S2P Require Import Arch.
From S2P Require Import S2tte.
From S2P Require Import S2tteFacts.
From S2P Require Import S2tteProps.
From S2P Require Import S2ttTable.
From S2P Require Import RttFold.
From S2P Require Import RttFoldProps.

(** Negative return values of [update_ripas]. *)
Inductive errno := EPERM | EAGAIN | EINVAL.

(** [enum ripas_change_destroyed]. *)
Inductive ripas_change_destroyed := NO_CHANGE_DESTROYED | CHANGE_DESTROYED.

#[export] Instance errno_eq_dec : EqDecision errno.
Proof. solve_decision. Defined.

Section RttEntry.
Context `{feat : ArchFeatures}.
Implicit Types (s2_ctx : s2tt_context) (s2tt : list Z) (s2tte level : Z).

(** [update_ripas]: the return value (an error, or 0/1 for "TLBI required") and
    the entry after the call. *)
Definition update_ripas s2_ctx s2tte level (ripas_val : ripas)
    (change_destroyed : ripas_change_destroyed) : option ((errno + Z) * Z) :=
  if negb (s2tte_has_ripas s2_ctx s2tte level) then Some (inl EPERM, s2tte)
  else if s2tte_drain_pending s2tte then Some (inl EAGAIN, s2tte)
  else
  match ripas_val with
  | RIPAS_RAM =>
      if s2tte_is_unassigned_empty s2_ctx s2tte then
        Some (inr 0, s2tte_create_unassigned_ram s2_ctx s2tte)
      else if s2tte_is_unassigned_destroyed s2_ctx s2tte then
        match change_destroyed with
        | CHANGE_DESTROYED => Some (inr 0, s2tte_create_unassigned_ram s2_ctx s2tte)
        | NO_CHANGE_DESTROYED => Some (inl EINVAL, s2tte)
        end
      else
      b ← s2tte_is_assigned_empty s2_ctx s2tte level;
      if b : bool then
        pa ← s2tte_pa s2_ctx s2tte level;
        new ← s2tte_create_assigned_ram s2_ctx pa level s2tte;
        Some (inr 0, new)
      else
      b ← s2tte_is_assigned_destroyed s2_ctx s2tte level;
      if b : bool then
        match change_destroyed with
        | CHANGE_DESTROYED =>
            pa ← s2tte_pa s2_ctx s2tte level;
            new ← s2tte_create_assigned_ram s2_ctx pa level s2tte;
            Some (inr 0, new)
        | NO_CHANGE_DESTROYED => Some (inl EINVAL, s2tte)
        end
      else
      b1 ← s2tte_is_assigned_dev_empty s2_ctx s2tte level;
      if b1 : bool then Some (inl EINVAL, s2tte) else
      b2 ← s2tte_is_assigned_dev_destroyed s2_ctx s2tte level;
      if b2 : bool then Some (inl EINVAL, s2tte) else
      b3 ← s2tte_is_assigned_dev_dev s2_ctx s2tte level;
      if b3 : bool then Some (inl EINVAL, s2tte)
      else Some (inr 0, s2tte)
  | RIPAS_EMPTY =>
      if s2tte_is_unassigned_ram s2_ctx s2tte || s2tte_is_unassigned_destroyed s2_ctx s2tte then
        Some (inr 0, s2tte_create_unassigned_empty s2_ctx s2tte)
      else
      b1 ← s2tte_is_assigned_ram s2_ctx s2tte level;
      b2 ← (if b1 : bool then Some true else s2tte_is_assigned_destroyed s2_ctx s2tte level);
      if b2 : bool then
        pa ← s2tte_pa s2_ctx s2tte level;
        new ← s2tte_create_assigned_empty s2_ctx pa level s2tte;
        Some (inr 1, new)
      else
      b3 ← s2tte_is_assigned_dev_dev s2_ctx s2tte level;
      b4 ← (if b3 : bool then Some true else s2tte_is_assigned_dev_destroyed s2_ctx s2tte level);
      if b4 : bool then
        pa ← s2tte_pa s2_ctx s2tte level;
        new ← s2tte_create_assigned_dev_empty s2_ctx pa level s2tte;
        Some (inr 1, new)
      else Some (inr 0, s2tte)
  | _ => None
  end.

(** The [if]/[else if] chain of [smc_rtt_read_entry]: x2 (state), x3 (descriptor
    or address) and x4 (RIPAS) of the entry the walk ended at. *)
Definition rtt_read_entry s2_ctx s2tte (last_level : Z) : option (Z * Z * Z) :=
  if s2tte_is_unassigned_empty s2_ctx s2tte then Some (RMI_UNASSIGNED, 0, ripas_code RIPAS_EMPTY)
  else if s2tte_is_unassigned_ram s2_ctx s2tte then Some (RMI_UNASSIGNED, 0, ripas_code RIPAS_RAM)
  else if s2tte_is_unassigned_destroyed s2_ctx s2tte then
    Some (RMI_UNASSIGNED, 0, ripas_code RIPAS_DESTROYED)
  else
  b ← s2tte_is_assigned_empty s2_ctx s2tte last_level;
  if b : bool then
    pa ← s2tte_pa s2_ctx s2tte last_level; Some (RMI_ASSIGNED, pa, ripas_code RIPAS_EMPTY)
  else
  b ← s2tte_is_assigned_ram s2_ctx s2tte last_level;
  if b : bool then
    pa ← s2tte_pa s2_ctx s2tte last_level; Some (RMI_ASSIGNED, pa, ripas_code RIPAS_RAM)
  else
  b ← s2tte_is_assigned_destroyed s2_ctx s2tte last_level;
  if b : bool then
    pa ← s2tte_pa s2_ctx s2tte last_level; Some (RMI_ASSIGNED, pa, ripas_code RIPAS_DESTROYED)
  else
  b ← s2tte_is_assigned_dev_empty s2_ctx s2tte last_level;
  if b : bool then
    pa ← s2tte_pa s2_ctx s2tte last_level; Some (RMI_ASSIGNED_DEV, pa, ripas_code RIPAS_EMPTY)
  else
  b ← s2tte_is_assigned_dev_destroyed s2_ctx s2tte last_level;
  if b : bool then
    pa ← s2tte_pa s2_ctx s2tte last_level; Some (RMI_ASSIGNED_DEV, pa, ripas_code RIPAS_DESTROYED)
  else
  b ← s2tte_is_assigned_dev_dev s2_ctx s2tte last_level;
  if b : bool then
    pa ← s2tte_pa s2_ctx s2tte last_level; Some (RMI_ASSIGNED_DEV, pa, ripas_code RIPAS_DEV)
  else if s2tte_is_unassigned_ns s2_ctx s2tte then Some (RMI_UNASSIGNED, 0, ripas_code RIPAS_EMPTY)
  else
  b ← s2tte_is_assigned_ns s2_ctx s2tte last_level;
  if b : bool then
    d ← host_ns_s2tte s2_ctx s2tte last_level; Some (RMI_ASSIGNED, d, ripas_code RIPAS_EMPTY)
  else if s2tte_is_table s2_ctx s2tte last_level then
    pa ← s2tte_pa s2_ctx s2tte last_level; Some (RMI_TABLE, pa, ripas_code RIPAS_EMPTY)
  else None.

Definition F_RMI_S2AP_DIRECT_WRITE : regfield := Field 0 1.
Definition F_RMI_S2AP_DIRECT_READ : regfield := Field 1 1.

(** [build_unprot_map_attrs]: the return code and [*base_attrs_out]. *)
Definition build_unprot_map_attrs s2_ctx (memattr s2ap : Z) : Z + Z :=
  let attrs := INPLACE F_MEMATTR memattr in
  if indirect_s2ap s2_ctx then
    let attrs := s2tte_set_pi_index attrs s2ap in
    if S2AP_IND_BASE_PERM_IDX_RW <? s2tte_get_pi_index attrs then inl RMI_ERROR_INPUT
    else inr attrs
  else
    let defined := Z.lor (MASK F_RMI_S2AP_DIRECT_READ) (MASK F_RMI_S2AP_DIRECT_WRITE) in
    if negb (Z.land s2ap (not64 defined) =? 0) then inl RMI_ERROR_INPUT
    else
      let attrs := if negb (Z.land s2ap (MASK F_RMI_S2AP_DIRECT_READ) =? 0)
                   then Z.lor attrs (INPLACE F_PERM_R 1) else attrs in
      let attrs := if negb (Z.land s2ap (MASK F_RMI_S2AP_DIRECT_WRITE) =? 0)
                   then Z.lor attrs (INPLACE F_PERM_W 1) else attrs in
      inr attrs.

(** [unprot_map_one_entry]: the return code and the table after the call. *)
Definition unprot_map_one_entry s2_ctx s2tt (index pa level base_attrs : Z) : option (Z * list Z) :=
  tte ← pa_to_s2tte s2_ctx pa;
  let host_s2tte := Z.lor tte base_attrs in
  valid ← host_ns_s2tte_is_valid s2_ctx host_s2tte level;
  if negb valid then Some (RMI_ERROR_INPUT, s2tt)
  else
    let error_rtt := ret ← pack_return_code_level RMI_ERROR_RTT (u8 level); Some (ret, s2tt) in
    s2tte ← s2tte_read s2tt index;
    if s2tte_drain_pending s2tte then error_rtt
    else
      new_s2tte ← s2tte_create_assigned_ns s2_ctx host_s2tte level 0;
      if negb (s2tte_is_unassigned_ns s2_ctx s2tte) then
        ns ← s2tte_is_assigned_ns s2_ctx s2tte level;
        if ns && (s2tte =? new_s2tte) then Some (RMI_SUCCESS, s2tt) else error_rtt
      else
        s2tt ← arr_set s2tt index new_s2tte;
        Some (RMI_SUCCESS, s2tt).

(** ** RIPAS transitions *)

Inductive ripas_outcome :=
  | R_error (e : errno)
  | R_keep
  | R_to (k : s2tte_kind) (tlbi : Z).

(** The contract: which kind an entry becomes, and whether a TLBI is needed. *)
Definition ripas_transition (k : s2tte_kind) (target : ripas) (cd : ripas_change_destroyed)
    : ripas_outcome :=
  match k, target with
  | (K_unassigned_ns | K_assigned_ns | K_table), _ => R_error EPERM
  | K_unassigned_empty, RIPAS_RAM => R_to K_unassigned_ram 0
  | K_unassigned_destroyed, RIPAS_RAM =>
      match cd with CHANGE_DESTROYED => R_to K_unassigned_ram 0 | _ => R_error EINVAL end
  | K_assigned_empty, RIPAS_RAM => R_to K_assigned_ram 0
  | K_assigned_destroyed, RIPAS_RAM =>
      match cd with CHANGE_DESTROYED => R_to K_assigned_ram 0 | _ => R_error EINVAL end
  | (K_assigned_dev_empty | K_assigned_dev_destroyed | K_assigned_dev_dev), RIPAS_RAM => R_error EINVAL
  | (K_unassigned_ram | K_unassigned_destroyed), RIPAS_EMPTY => R_to K_unassigned_empty 0
  | (K_assigned_ram | K_assigned_destroyed), RIPAS_EMPTY => R_to K_assigned_empty 1
  | (K_assigned_dev_dev | K_assigned_dev_destroyed), RIPAS_EMPTY => R_to K_assigned_dev_empty 1
  | _, _ => R_keep
  end.

Lemma built_has_ripas ctx lpa2 level k pa v :
  s2tt_lpa2_enabled ctx = Some lpa2 -> -1 <= level <= 3 -> built ctx level k pa v ->
  s2tte_has_ripas ctx v level = match kind_ripas k with Some _ => true | None => false end.
Proof.
  intros Hl Hlv Hb. pose proof (built_class_bits _ _ _ _ _ _ Hl Hb) as Hc.
  unfold s2tte_has_ripas. rewrite (built_is_table _ _ _ _ _ _ Hl Hlv Hb).
  rewrite <- (land_class lpa2) by (by destruct lpa2).
  destruct k; cbn [class_bits] in Hc;
    try (destruct Hc as (m & Hm%memattr_values & Hc); destruct_or! Hm; subst m);
    try (destruct Hc as [Hc|Hc]); rewrite Hc; destruct lpa2; level_cases level; reflexivity.
Qed.

(** A leaf of kind [k] re-made as kind [k'] from its own bits. *)
Lemma rekind ctx lpa2 level k k' pa v :
  s2tt_lpa2_enabled ctx = Some lpa2 -> built ctx level k pa v -> is_leaf k = true ->
  is_leaf k' = true -> k' <> K_assigned_ns -> k' <> K_assigned_dev_dev ->
  exists v', recreate ctx k' pa v level = Some v' /\ built ctx level k' pa v' /\
    s2tte_get_ap ctx v' (kind_dev k') = s2tte_get_ap ctx v (kind_dev k').
Proof.
  intros Hl Hb Hk Hk' Hn1 Hn2.
  destruct (built_live_shape _ _ _ _ _ _ Hl Hb ltac:(by destruct k)) as (? & ? & _ & _ & Ha & Hlv & _ & Hlk & _).
  assert (Hpl : pa_level k level = level) by (by destruct k). rewrite Hpl in Ha.
  assert (1 <= level <= 3) by (destruct k; cbn in Hlk; (done || lia)).
  assert (Hs : src_ok ctx lpa2 k' v) by (destruct k'; done).
  destruct (recreate_value ctx lpa2 k' pa v level Hl Hk' ltac:(lia) Ha Hs) as (t & Ht & Hm & Hr).
  eexists. split; [exact Hr|]. split; [by eapply recreate_built|].
  by apply leaf_get_ap.
Qed.

Lemma unassigned_ap ctx k v :
  kind_live k = false -> k <> K_unassigned_ns ->
  s2tte_get_ap ctx (remake ctx k v) false = s2tte_get_ap ctx v false.
Proof.
  intros Hk Hn. destruct k; try discriminate Hk; try done; cbn [remake].
  all: unfold s2tte_create_unassigned_empty, s2tte_create_unassigned_ram, s2tte_create_unassigned_destroyed.
  2: rewrite !(Z.lor_comm (Z.lor _ S2TTE_INVALID_RIPAS_RAM)).
  all: rewrite s2tte_get_ap_idem; [done|destruct (indirect_s2ap ctx); reflexivity].
Qed.

(** [update_ripas] changes an entry exactly as the RIPAS transition table
    says: DESTROYED becomes RAM only when asked, device memory never does, the
    output address and the permissions are kept, and no assertion is tripped. *)
Theorem update_ripas_correct ctx lpa2 level k pa v target cd :
  s2tt_lpa2_enabled ctx = Some lpa2 -> -1 <= level <= 3 -> built ctx level k pa v ->
  target = RIPAS_RAM \/ target = RIPAS_EMPTY ->
  match ripas_transition k target cd with
  | R_error e => update_ripas ctx v level target cd = Some (inl e, v)
  | R_keep => update_ripas ctx v level target cd = Some (inr 0, v)
  | R_to k' tlbi => exists v', update_ripas ctx v level target cd = Some (inr tlbi, v') /\
      built ctx level k' pa v' /\
      s2tte_get_ap ctx v' (kind_dev k') = s2tte_get_ap ctx v (kind_dev k')
  end.
Proof.
  intros Hl Hlv Hb Ht.
  pose proof (fun k' => built_is_kind _ _ level _ _ _ k' Hl Hlv Hb) as Hkind.
  pose proof (built_not_pending _ _ level _ _ _ Hl Hlv Hb) as Hp.
  pose proof (built_has_ripas _ _ level _ _ _ Hl Hlv Hb) as Hr.
  assert (Hun : forall k', kind_live k' = false -> k' <> K_unassigned_ns ->
    built ctx level k' pa (remake ctx k' v) /\
    s2tte_get_ap ctx (remake ctx k' v) (kind_dev k') = s2tte_get_ap ctx v (kind_dev k')).
  { intros k' Hk' Hn. split; [destruct k'; try discriminate Hk'; try done; constructor|].
    replace (kind_dev k') with false by (by destruct k'). by apply unassigned_ap. }
  unfold update_ripas. rewrite Hp.
  destruct (is_leaf k) eqn:Hleaf.
  - pose proof (built_pa _ _ _ _ _ _ Hl Hb ltac:(by destruct k)) as Hpa.
    pose proof (fun k' => rekind _ _ _ _ k' _ _ Hl Hb Hleaf) as Hre. rewrite Hpa.
    destruct k; try discriminate Hleaf; cbn [kind_ripas] in Hr; rewrite Hr; cbn [negb];
      destruct Ht as [->| ->]; cbn [ripas_transition]; kind_answers Hkind; use_answers; try done;
      try (destruct cd; try done);
      try (match goal with |- exists v', _ /\ built _ _ ?k' _ _ /\ _ =>
        destruct (Hre k') as (v' & Hv' & Hb' & Ha'); [done..|]; cbn [recreate] in Hv'; rewrite Hv';
        exists v'; done end).
  - destruct k; try discriminate Hleaf; cbn [kind_ripas] in Hr; rewrite Hr; cbn [negb];
      destruct Ht as [->| ->]; cbn [ripas_transition]; kind_answers Hkind; use_answers; try done;
      cbn [orb]; try (destruct cd; try done);
      try (match goal with |- exists v', _ /\ built _ _ ?k' _ _ /\ _ =>
        exists (remake ctx k' v); split; [done|]; apply Hun; done end).
Qed.

(** a descriptor that translates (its valid bit is set) is never changed
    without the caller being told that a TLB invalidation is required. *)
Theorem update_ripas_tlbi_safe ctx level v v' target cd :
  Z.land v S2TT_DESC_VALID_MASK = S2TTE_VALID ->
  update_ripas ctx v level target cd = Some (inr 0, v') -> v' = v.
Proof.
  intros Hv H. unfold update_ripas, s2tte_is_unassigned_empty, s2tte_is_unassigned_destroyed,
    s2tte_is_unassigned_ram, s2tte_has_unassigned_ripas, s2tte_is_assigned_empty,
    s2tte_is_assigned_destroyed, s2tte_is_assigned_dev_empty, s2tte_is_assigned_dev_destroyed,
    s2tte_has_hipas in H.
  rewrite Hv in H. change (S2TTE_VALID =? S2TTE_INVALID) with false in H. cbn [negb andb] in H.
  rewrite !andb_false_r in H. cbn [orb mbind option_bind] in H. destruct target; inv_some H; congruence.
Qed.

(** What RMI_RTT_READ_ENTRY reports for each kind. *)
Definition kind_state (k : s2tte_kind) : Z :=
  match k with
  | K_unassigned_empty | K_unassigned_ram | K_unassigned_destroyed | K_unassigned_ns => RMI_UNASSIGNED
  | K_assigned_empty | K_assigned_ram | K_assigned_destroyed | K_assigned_ns => RMI_ASSIGNED
  | K_assigned_dev_empty | K_assigned_dev_destroyed | K_assigned_dev_dev => RMI_ASSIGNED_DEV
  | K_table => RMI_TABLE
  end.

Lemma built_ns_range ctx lpa2 level pa v :
  s2tt_lpa2_enabled ctx = Some lpa2 -> built ctx level K_assigned_ns pa v ->
  exists t src, 1 <= level <= 3 /\ pa_to_s2tte ctx pa = Some t /\ Z.land t (oa_mask lpa2 level) = t /\
    v = Z.lor t (leaf_bits ctx lpa2 K_assigned_ns level src) /\
    Z.land src (ns_attr_mask (indirect_s2ap ctx)) = src.
Proof.
  intros Hl Hb. inversion Hb as [| | | | | | |pa' t attrs ap v' Ha Ht Hat H| | | |]; subst.
  destruct (pa_to_s2tte_spec _ _ _ _ Hl Ha) as (t' & Ht' & Hm & _).
  rewrite Ht in Ht'. injection Ht' as <-.
  destruct (create_ns_value _ _ _ _ _ _ _ Hl Hm Hat H) as [Hlv ->].
  exists t, attrs. split_and!; try done; try lia. cbn [leaf_bits]. by rewrite Hat.
Qed.

Lemma host_ns_mask_some ctx lpa2 level :
  s2tt_lpa2_enabled ctx = Some lpa2 -> -1 <= level <= 3 ->
  host_ns_mask ctx level = Some (Z.lor (oa_mask lpa2 level) (ns_attr_mask (indirect_s2ap ctx))).
Proof.
  intros Hl Hlv. unfold host_ns_mask. rewrite Hl. cbn [mbind option_bind].
  rewrite s2tte_lvl_mask_eq by done. cbn [mbind option_bind]. unfold ns_attr_mask.
  by destruct (indirect_s2ap ctx); rewrite Z.lor_assoc.
Qed.

Lemma read_entry_ok ctx lpa2 level k pa v :
  s2tt_lpa2_enabled ctx = Some lpa2 -> -1 <= level <= 3 -> built ctx level k pa v ->
  exists desc, rtt_read_entry ctx v level =
      Some (kind_state k, desc, ripas_code (default RIPAS_EMPTY (kind_ripas k))) /\
    match k with
    | K_assigned_ns => host_ns_s2tte ctx v level = Some desc
    | _ => desc = if kind_live k then pa else 0
    end.
Proof.
  intros Hl Hlv Hb.
  pose proof (fun k' => built_is_kind _ _ level _ _ _ k' Hl Hlv Hb) as Hkind.
  assert (Hpa : kind_live k = true -> s2tte_pa ctx v level = Some pa) by (intros; by eapply built_pa).
  unfold rtt_read_entry.
  destruct k; kind_answers Hkind; cbn [kind_live kind_ripas default kind_state] in *;
    try rewrite (Hpa eq_refl); use_answers; try (eexists; split; [reflexivity|done]).
  destruct (built_ns_range _ _ _ _ _ Hl Hb) as (t & src & Hlv' & _).
  unfold host_ns_s2tte, S2TT_MIN_BLOCK_LEVEL. rewrite (host_ns_mask_some _ _ _ Hl Hlv).
  cbn [mbind option_bind]. rewrite (proj2 (Z.leb_le 1 level)) by lia. eexists. split; reflexivity.
Qed.

(** Entries that map nothing are decoded by their kind alone. *)
Lemma read_entry_unassigned ctx level k v :
  (forall k', is_kind ctx v level k' = Some (bool_decide (k = k'))) -> kind_live k = false ->
  rtt_read_entry ctx v level = Some (kind_state k, 0, ripas_code (default RIPAS_EMPTY (kind_ripas k))).
Proof.
  intros Hkind Hk. unfold rtt_read_entry.
  destruct k; try discriminate Hk; kind_answers Hkind; cbn [kind_ripas default kind_state]; use_answers; reflexivity.
Qed.

(** ** Non-secure mappings *)

Lemma build_attrs_ok ctx memattr s2ap attrs :
  0 <= memattr < 8 -> build_unprot_map_attrs ctx memattr s2ap = inr attrs ->
  Z.land attrs (ns_attr_mask (indirect_s2ap ctx)) = attrs /\
  (indirect_s2ap ctx = true -> s2tte_get_pi_index attrs <= S2AP_IND_BASE_PERM_IDX_RW).
Proof.
  intros Hm H. unfold build_unprot_map_attrs in H.
  assert (Hi : INPLACE F_MEMATTR memattr = Z.land (INPLACE F_MEMATTR memattr) (MASK F_MEMATTR))
    by (rewrite INPLACE_masked; [done|repeat split; cbn; lia|cbn; lia]).
  revert H. rewrite Hi. generalize (INPLACE F_MEMATTR memattr). intros w H.
  destruct (indirect_s2ap ctx).
  - destruct (S2AP_IND_BASE_PERM_IDX_RW <? _) eqn:E; [done|]. injection H as <-.
    split; [|intros _; lia]. unfold ns_attr_mask, s2tte_set_pi_index. s2tt_simpl. done.
  - destruct (negb _); [done|]. injection H as <-. split; [|done].
    do 2 case_match; unfold ns_attr_mask; s2tt_simpl; done.
Qed.

(** What the RMM guarantees of an NS descriptor, whatever the host asked for. *)
Definition ns_confined ctx (v : Z) : Prop :=
  Z.land v S2TTE_NS = S2TTE_NS /\
  if indirect_s2ap ctx
  then s2tte_get_pi_index v <= S2AP_IND_BASE_PERM_IDX_RW /\
       EXTRACT F_PO_INDEX v = S2TTE_DEF_UNPROT_OVERLAY_IDX
  else Z.land v S2TTE_PERM_XN_MASK = S2TTE_PERM_XNU_XNP.

Lemma leaf_ns_confined ctx lpa2 level t src :
  1 <= level <= 3 -> Z.land t (oa_mask lpa2 level) = t -> src_ok ctx lpa2 K_assigned_ns src ->
  ns_confined ctx (Z.lor t (leaf_bits ctx lpa2 K_assigned_ns level src)).
Proof.
  intros Hlv Ht Hs. split.
  - rewrite (oa_masked_away lpa2 level) by
      (try done; try lia; level_cases level; destruct lpa2; reflexivity).
    cbn [leaf_bits]. rewrite Z.land_lor_distr_l, <- Z.land_assoc.
    level_cases level; destruct lpa2, (indirect_s2ap ctx);
      match goal with |- context [Z.land src ?c] => fold_closed c end; rewrite Z.land_0_r; reflexivity.
  - destruct (indirect_s2ap ctx) eqn:Hi.
    + pose proof (src_ok_leaf ctx lpa2 K_assigned_ns level t src eq_refl Hlv Ht Hs) as H.
      split; [by apply H|]. unfold EXTRACT.
      rewrite (oa_masked_away lpa2 level) by
        (try done; try lia; level_cases level; destruct lpa2; reflexivity).
      cbn [leaf_bits]. rewrite Hi, Z.land_lor_distr_l, <- Z.land_assoc.
      level_cases level; destruct lpa2;
        match goal with |- context [Z.land src ?c] => fold_closed c end; rewrite Z.land_0_r; reflexivity.
    + rewrite (oa_masked_away lpa2 level) by
        (try done; try lia; level_cases level; destruct lpa2; reflexivity).
      cbn [leaf_bits]. rewrite Hi, Z.land_lor_distr_l, <- Z.land_assoc.
      level_cases level; destruct lpa2;
        match goal with |- context [Z.land src ?c] => fold_closed c end; rewrite Z.land_0_r; reflexivity.
Qed.

(** The host reads back from an NS leaf exactly the bits it asked for. *)
Lemma leaf_ns_host_bits ctx lpa2 level t attrs :
  s2tt_lpa2_enabled ctx = Some lpa2 -> 1 <= level <= 3 -> Z.land t (oa_mask lpa2 level) = t ->
  Z.land attrs (ns_attr_mask (indirect_s2ap ctx)) = attrs ->
  host_ns_s2tte ctx (Z.lor t (leaf_bits ctx lpa2 K_assigned_ns level attrs)) level = Some (Z.lor t attrs).
Proof.
  intros Hl Hlv Ht Hat. unfold host_ns_s2tte, S2TT_MIN_BLOCK_LEVEL.
  rewrite (host_ns_mask_some _ _ _ Hl) by lia. cbn [mbind option_bind].
  rewrite (proj2 (Z.leb_le 1 level)) by lia. f_equal. cbn [leaf_bits]. rewrite Hat.
  rewrite <- Ht at 1. rewrite <- Hat at 1. rewrite <- Ht at 2. rewrite <- Hat at 2.
  unfold ns_attr_mask, ns_rmm_bits.
  level_cases level; destruct lpa2, (indirect_s2ap ctx); s2tt_simpl; done.
Qed.

Lemma host_ns_valid_some ctx lpa2 level t attrs :
  s2tt_lpa2_enabled ctx = Some lpa2 -> 1 <= level <= 3 ->
  exists b, host_ns_s2tte_is_valid ctx (Z.lor t attrs) level = Some b.
Proof.
  intros Hl Hlv. unfold host_ns_s2tte_is_valid, S2TT_MIN_BLOCK_LEVEL.
  rewrite (proj2 (Z.leb_le 1 level)), (host_ns_mask_some _ _ _ Hl) by lia. cbn [mbind option_bind].
  repeat case_match; eauto.
Qed.

(** Mapping non-secure memory never trips an assertion, changes at most the
    requested entry, and then only from UNASSIGNED_NS to a non-secure, never
    executable descriptor for the requested address whose host-visible bits are
    those the host asked for. *)
Theorem unprot_map_confined ctx lpa2 s2tt index pa level memattr s2ap attrs e :
  s2tt_lpa2_enabled ctx = Some lpa2 -> 1 <= level <= 3 ->
  s2tte_is_addr_lvl_aligned ctx pa level = Some true ->
  0 <= memattr < 8 -> build_unprot_map_attrs ctx memattr s2ap = inr attrs ->
  arr_get s2tt index = Some e ->
  exists ret s2tt', unprot_map_one_entry ctx s2tt index pa level attrs = Some (ret, s2tt') /\
    (s2tt' = s2tt \/
     ret = RMI_SUCCESS /\ s2tte_is_unassigned_ns ctx e = true /\ s2tte_drain_pending e = false /\
     exists t new, pa_to_s2tte ctx pa = Some t /\ arr_set s2tt index new = Some s2tt' /\
       built ctx level K_assigned_ns pa new /\ ns_confined ctx new /\
       host_ns_s2tte ctx new level = Some (Z.lor t attrs)).
Proof.
  intros Hl Hlv Ha Hm Hat He. destruct (build_attrs_ok _ _ _ _ Hm Hat) as [Hmask Hpi].
  destruct (pa_to_s2tte_spec _ _ _ _ Hl Ha) as (t & Ht & Hmt & _).
  unfold unprot_map_one_entry. rewrite Ht. cbn [mbind option_bind].
  destruct (host_ns_valid_some ctx lpa2 level t attrs Hl Hlv) as [b ->]. cbn [mbind option_bind].
  destruct b; cbn [negb]; [|eauto 10]. unfold s2tte_read. rewrite He. cbn [mbind option_bind].
  assert (Herr : exists r, pack_return_code_level RMI_ERROR_RTT (u8 level) = Some r)
    by (level_cases level; eexists; reflexivity). destruct Herr as [r ->]. cbn [mbind option_bind].
  destruct (s2tte_drain_pending e) eqn:Hd; [eauto 10|].
  pose proof (recreate_ns_value ctx lpa2 t attrs level 0 Hl Hlv Hmt Hpi) as Hnew.
  rewrite Hmask, Z.lor_comm in Hnew. rewrite Hnew. cbn [mbind option_bind].
  destruct (s2tte_is_unassigned_ns ctx e) eqn:Hu; cbn [negb].
  2: { unfold s2tte_is_assigned_ns. cbn [mbind option_bind]. case_match; eauto 10. }
  destruct (arr_get_lt _ _ _ He) as [Hi1 Hi2].
  rewrite arr_set_some by lia. cbn [mbind option_bind].
  do 2 eexists. split; [reflexivity|]. right. split_and!; [done..|].
  eexists t, _. split_and!; [done| by rewrite arr_set_some by lia | | |].
  - eapply b_an; eauto.
  - by apply leaf_ns_confined.
  - by apply leaf_ns_host_bits.
Qed.

End RttEntry.

(** ** Concrete instances *)

#[local] Existing Instance demo_features.

Lemma update_ripas_correct_witness :
  exists v', update_ripas demo_ctx demo_block 2 RIPAS_EMPTY NO_CHANGE_DESTROYED = Some (inr 1, v') /\
    built demo_ctx 2 K_assigned_empty 0x80000000 v'.
Proof.
  destruct (update_ripas_correct demo_ctx false 2 K_assigned_ram 0x80000000 demo_block RIPAS_EMPTY
    NO_CHANGE_DESTROYED) as (v' & Hv & Hb & _);
    [reflexivity|lia|apply (b_ar _ _ _ 0); vm_compute; reflexivity|right; reflexivity|].
  exists v'. split; assumption.
Defined.

Lemma update_ripas_tlbi_safe_witness : demo_block = demo_block.
Proof.
  apply (update_ripas_tlbi_safe demo_ctx 2 demo_block demo_block RIPAS_RAM NO_CHANGE_DESTROYED);
    vm_compute; reflexivity.
Defined.

Definition demo_ns_attrs : Z :=
  Eval vm_compute in match build_unprot_map_attrs demo_ctx 6 3 with inr a => a | inl _ => 0 end.

Lemma unprot_map_confined_witness :
  exists ret s2tt', unprot_map_one_entry demo_ctx (replicate 512 S2TTE_NS) 7 0x90000000 2 demo_ns_attrs
    = Some (ret, s2tt').
Proof.
  destruct (unprot_map_confined demo_ctx false (replicate 512 S2TTE_NS) 7 0x90000000 2 6 3
    demo_ns_attrs S2TTE_NS) as (ret & s2tt' & H & _);
    [reflexivity|lia|vm_compute; reflexivity|lia|vm_compute; reflexivity|reflexivity|].
  exists ret, s2tt'. exact H.
Defined.
