(* ===== verification/Realm.v ===== *)
(** * Realm descriptors ([runtime/include/realm.h])

    The fields of [struct rd] that the RTT and life-cycle commands use, the
    geometry helpers, and the packed word [state_and_count]: realm state in bits
    [63:62], number of running RECs below.  The word is updated without the RD
    lock by [smc_rec_enter], and under it by activation, termination and PSCI
    SYSTEM_OFF, so its protocol is a step relation over all PEs. *)

From Stdlib Require Import ZArith Lia Bool ZifyBool.
From stdpp Require Import base tactics option list numbers.
From S2P Require Import Prelude.
From S2P Require Import Utils.
From S2P Require Import S2tte.

Definition REALM_NEW : Z := 0.
Definition REALM_ACTIVE : Z := 1.
Definition REALM_SYSTEM_OFF : Z := 2.
Definition REALM_ZOMBIE : Z := 3.

Definition PLANE_0_ID : Z := 0.
Definition PRIMARY_S2_CTX_ID : Z := PLANE_0_ID.

Record rd := Rd {
  state_and_count : Z;
  s2_ctxs : list s2tt_context;    (* s2_ctx[MAX_S2_CTXS] *)
  num_aux_planes : Z;
  rtt_tree_pp : bool;
  da_enabled : bool
}.

Definition set_state_and_count (r : rd) (v : Z) : rd :=
  Rd v (s2_ctxs r) (num_aux_planes r) (rtt_tree_pp r) (da_enabled r).

Lemma set_same_word (rd : rd) : set_state_and_count rd (state_and_count rd) = rd.
Proof. by destruct rd. Qed.

(** ** Geometry *)

Definition realm_num_planes (rd : rd) : Z := u32 (num_aux_planes rd + 1).
Definition realm_num_s2_contexts (rd : rd) : Z := realm_num_planes rd.
Definition realm_num_s2_rtts (rd : rd) : Z := if rtt_tree_pp rd then realm_num_s2_contexts rd else 1.

Definition plane_to_s2_context (rd : rd) (plane_id : Z) : option s2tt_context :=
  assert (plane_id <? realm_num_planes rd) ;;
  let index := u32 (plane_id + 1) mod realm_num_planes rd in
  arr_get (s2_ctxs rd) index.

Definition realm_ipa_bits (rd : rd) : option Z := ipa_bits <$> plane_to_s2_context rd PLANE_0_ID.
Definition realm_ipa_size (rd : rd) : option Z := shl64 1 <$> realm_ipa_bits rd.
Definition realm_par_size (rd : rd) : option Z := (fun s => Z.shiftr s 1) <$> realm_ipa_size rd.
Definition realm_rtt_starting_level (rd : rd) : option Z :=
  s2_starting_level <$> plane_to_s2_context rd PLANE_0_ID.

Definition addr_is_contained (container_base container_end address : Z) : bool :=
  if container_end <=? container_base then false
  else (container_base <=? address) && (address <? container_end).

Definition region_is_contained (container_base container_end region_base region_end : Z) : bool :=
  if container_end <=? container_base then false
  else if region_end <=? region_base then false
  else (container_base <=? region_base) && (region_end <=? container_end).

Definition addr_in_par (rd : rd) (addr : Z) : option bool := (fun p => addr <? p) <$> realm_par_size rd.

(** ** The state word *)

Definition RD_STATE_SHIFT : Z := 62.
Definition RD_COUNT_MASK : Z := sub64 (shl64 1 RD_STATE_SHIFT) 1.
Definition RD_PACK_SC (s c : Z) : Z := Z.lor (shl64 s RD_STATE_SHIFT) c.
Definition RD_UNPACK_STATE (v : Z) : Z := Z.shiftr v RD_STATE_SHIFT.
Definition RD_UNPACK_COUNT (v : Z) : Z := Z.land v RD_COUNT_MASK.

Definition get_rd_state_locked (rd : rd) : Z := RD_UNPACK_STATE (state_and_count rd).

(** [atomic_cas_acquire_release_64]. *)
Definition atomic_cas (word expected desired : Z) : bool * Z :=
  if word =? expected then (true, desired) else (false, word).

(** The value [set_rd_state] tries to store over [old]. *)
Definition set_rd_state_desired (old state : Z) : Z := RD_PACK_SC state (RD_UNPACK_COUNT old).

(** [set_rd_state] when nothing interferes: the first CAS succeeds. *)
Definition set_rd_state (word state : Z) : Z := snd (atomic_cas word word (set_rd_state_desired word state)).

Definition rd_cas_state_if_count_zero (word expected_state new_state : Z) : bool * Z :=
  atomic_cas word (RD_PACK_SC expected_state 0) (RD_PACK_SC new_state 0).

(** One turn of the loop of [rd_active_rec_count_inc_if_active] up to the CAS:
    [Some None] is [return false], [Some (Some new_val)] the value to store. *)
Definition inc_if_active_desired (old : Z) : option (option Z) :=
  if negb (RD_UNPACK_STATE old =? REALM_ACTIVE) then Some None
  else
    let new_val := add64 old 1 in
    assert (RD_UNPACK_STATE new_val =? REALM_ACTIVE) ;;
    Some (Some new_val).

Definition rd_active_rec_count_dec (word : Z) : option Z :=
  assert (0 <? RD_UNPACK_COUNT word) ;;
  Some (add64 word UINT64_MAX).

(** What the word stands for. *)
Definition sc (state count : Z) : Z := state * 2 ^ 62 + count.

Lemma lor_shiftl_add s c n : 0 <= n -> 0 <= c < 2 ^ n -> Z.lor (Z.shiftl s n) c = s * 2 ^ n + c.
Proof.
  intros Hn Hc. rewrite <- Z.shiftl_mul_pow2, <- Z.add_lor_land by done.
  assert (Z.land (Z.shiftl s n) c = 0) as ->; [|lia].
  rewrite <- (land_ones_small n c) by done. apply Z.bits_inj'. intros i Hi.
  rewrite !Z.land_spec, Z.shiftl_spec, Z.bits_0 by done. destruct (decide (i < n)).
  - by rewrite Z.testbit_neg_r by lia.
  - rewrite Z.ones_spec_high by lia. by rewrite !andb_false_r.
Qed.

Lemma pack_sc state count : 0 <= state < 4 -> 0 <= count < 2 ^ 62 -> RD_PACK_SC state count = sc state count.
Proof.
  intros Hs Hc. unfold RD_PACK_SC, RD_STATE_SHIFT, shl64, sc. rewrite Z.shiftl_mul_pow2 by lia.
  rewrite u64_small by (unfold in_u64; lia). rewrite <- Z.shiftl_mul_pow2 by lia.
  rewrite lor_shiftl_add by lia. by rewrite Z.shiftl_mul_pow2 by lia.
Qed.

Lemma unpack_state state count : 0 <= count < 2 ^ 62 -> RD_UNPACK_STATE (sc state count) = state.
Proof.
  intros Hc. unfold RD_UNPACK_STATE, RD_STATE_SHIFT, sc. rewrite Z.shiftr_div_pow2 by lia.
  rewrite Z.div_add_l by lia. rewrite Z.div_small by lia. lia.
Qed.

Lemma unpack_count state count : 0 <= count < 2 ^ 62 -> RD_UNPACK_COUNT (sc state count) = count.
Proof.
  intros Hc. unfold RD_UNPACK_COUNT, sc. change RD_COUNT_MASK with (Z.ones 62).
  rewrite Z.land_ones by lia. rewrite Z.add_comm, Z.mod_add by lia. by apply Z.mod_small.
Qed.

Lemma unpack_count_pack0 state : RD_UNPACK_COUNT (RD_PACK_SC state 0) = 0.
Proof.
  unfold RD_UNPACK_COUNT, RD_PACK_SC, RD_STATE_SHIFT, shl64, u64. rewrite Z.lor_0_r.
  change RD_COUNT_MASK with (Z.ones 62). rewrite Z.land_ones, Z.shiftl_mul_pow2 by lia.
  rewrite Z.mod_mod_divide by (by exists 4). by apply Z.mod_mul.
Qed.

(** ** The protocol of the word

    Where a PE is in the code that touches the word of one realm.  [R_inside]
    and the [R_off] points run a REC ([active_rec_count] counts them); the points
    marked below hold the RD lock. *)
Inductive pc :=
  | R_idle
  | R_enter_load                (* smc_rec_enter: about to load the word *)
  | R_enter_cas (old new : Z)   (* loaded an ACTIVE word, about to CAS *)
  | R_inside                    (* the REC runs *)
  | R_off_load                  (* PSCI SYSTEM_OFF, RD lock held, set_rd_state: about to load *)
  | R_off_cas (old : Z)         (* about to CAS; lock held *)
  | R_off_unlock                (* about to release the RD lock *)
  | R_act_check                 (* smc_realm_activate, lock held: about to test the state *)
  | R_act_load
  | R_act_cas (old : Z)
  | R_term_load                 (* smc_realm_terminate, lock held: get_rd_state_locked *)
  | R_term_cas (state : Z)
  | R_unlock.                   (* a command about to release the RD lock *)

Definition inside (p : pc) : bool :=
  match p with R_inside | R_off_load | R_off_cas _ | R_off_unlock => true | _ => false end.
Definition holds_rd (p : pc) : bool :=
  match p with
  | R_off_load | R_off_cas _ | R_off_unlock | R_act_check | R_act_load | R_act_cas _
  | R_term_load | R_term_cas _ | R_unlock => true
  | _ => false
  end.

Record rworld := RWorld { sc_word : Z; rd_locked : bool; rpcs : list pc }.

(** PE [i] moves to [p], the word becomes [v] and the RD lock [l]. *)
Definition move (w : rworld) (v : Z) (l : bool) (i : nat) (p : pc) : rworld :=
  RWorld v l (<[i := p]> (rpcs w)).

Inductive rstep (w : rworld) : rworld -> Prop :=
  | rs_enter i : rpcs w !! i = Some R_idle ->
      rstep w (move w (sc_word w) (rd_locked w) i R_enter_load)
  | rs_enter_refused i : rpcs w !! i = Some R_enter_load -> inc_if_active_desired (sc_word w) = Some None ->
      rstep w (move w (sc_word w) (rd_locked w) i R_idle)
  | rs_enter_loaded i new : rpcs w !! i = Some R_enter_load ->
      inc_if_active_desired (sc_word w) = Some (Some new) ->
      rstep w (move w (sc_word w) (rd_locked w) i (R_enter_cas (sc_word w) new))
  | rs_enter_cas i old new ok v : rpcs w !! i = Some (R_enter_cas old new) ->
      atomic_cas (sc_word w) old new = (ok, v) ->
      rstep w (move w v (rd_locked w) i (if ok : bool then R_inside else R_enter_load))
  | rs_exit i v : rpcs w !! i = Some R_inside -> rd_active_rec_count_dec (sc_word w) = Some v ->
      rstep w (move w v (rd_locked w) i R_idle)
  | rs_off_lock i : rpcs w !! i = Some R_inside -> rd_locked w = false ->
      rstep w (move w (sc_word w) true i R_off_load)
  | rs_off_load i : rpcs w !! i = Some R_off_load ->
      rstep w (move w (sc_word w) (rd_locked w) i (R_off_cas (sc_word w)))
  | rs_off_cas i old ok v : rpcs w !! i = Some (R_off_cas old) ->
      atomic_cas (sc_word w) old (set_rd_state_desired old REALM_SYSTEM_OFF) = (ok, v) ->
      rstep w (move w v (rd_locked w) i (if ok : bool then R_off_unlock else R_off_load))
  | rs_off_unlock i : rpcs w !! i = Some R_off_unlock -> rstep w (move w (sc_word w) false i R_inside)
  | rs_act_lock i : rpcs w !! i = Some R_idle -> rd_locked w = false ->
      rstep w (move w (sc_word w) true i R_act_check)
  | rs_act_check i : rpcs w !! i = Some R_act_check ->
      rstep w (move w (sc_word w) (rd_locked w) i
        (if RD_UNPACK_STATE (sc_word w) =? REALM_NEW then R_act_load else R_unlock))
  | rs_act_load i : rpcs w !! i = Some R_act_load ->
      rstep w (move w (sc_word w) (rd_locked w) i (R_act_cas (sc_word w)))
  | rs_act_cas i old ok v : rpcs w !! i = Some (R_act_cas old) ->
      atomic_cas (sc_word w) old (set_rd_state_desired old REALM_ACTIVE) = (ok, v) ->
      rstep w (move w v (rd_locked w) i (if ok : bool then R_unlock else R_act_load))
  | rs_term_lock i : rpcs w !! i = Some R_idle -> rd_locked w = false ->
      rstep w (move w (sc_word w) true i R_term_load)
  | rs_term_load i : rpcs w !! i = Some R_term_load ->
      rstep w (move w (sc_word w) (rd_locked w) i (R_term_cas (RD_UNPACK_STATE (sc_word w))))
  | rs_term_cas i state ok v : rpcs w !! i = Some (R_term_cas state) ->
      rd_cas_state_if_count_zero (sc_word w) state REALM_ZOMBIE = (ok, v) ->
      rstep w (move w v (rd_locked w) i R_unlock)
  | rs_unlock i : rpcs w !! i = Some R_unlock -> rstep w (move w (sc_word w) false i R_idle).

Inductive rreachable (w0 : rworld) : rworld -> Prop :=
  | rr_init : rreachable w0 w0
  | rr_step w w' : rreachable w0 w -> rstep w w' -> rreachable w0 w'.

(** A realm after its creation: NEW, no REC running, [n] PEs outside the code. *)
Definition rinitial (n : nat) : rworld := RWorld (sc REALM_NEW 0) false (replicate n R_idle).

(** ** The invariant *)

(** The word is a state and the number of PEs inside; only an ACTIVE or
    SYSTEM_OFF realm has PEs inside; one PE holds the RD lock iff it is taken; a
    PE that will activate the realm sees it NEW; a PE that will enter stores its
    ACTIVE word plus one. *)
Record rinv (w : rworld) : Prop := {
  ri_word : exists s, sc_word w = sc s (count inside (rpcs w)) /\ 0 <= s < 4 /\
    (s = REALM_NEW \/ s = REALM_ZOMBIE -> count inside (rpcs w) = 0) /\
    (forall i p, rpcs w !! i = Some p ->
       (p = R_act_load \/ exists old, p = R_act_cas old) -> s = REALM_NEW);
  ri_lock : count holds_rd (rpcs w) = if rd_locked w then 1 else 0;
  ri_enter : forall i old new, rpcs w !! i = Some (R_enter_cas old new) ->
    RD_UNPACK_STATE old = REALM_ACTIVE /\ new = add64 old 1;
  ri_bound : Z.of_nat (length (rpcs w)) < 2 ^ 62
}.

(** The invariant across a move that leaves the word alone. *)
Lemma rinv_move w i p q l :
  rinv w -> rpcs w !! i = Some p -> inside q = inside p ->
  (if l : bool then 1 else 0) = (if rd_locked w then 1 else 0) - (if holds_rd p then 1 else 0) + (if holds_rd q then 1 else 0) ->
  (forall old new, q = R_enter_cas old new -> RD_UNPACK_STATE old = REALM_ACTIVE /\ new = add64 old 1) ->
  (q = R_act_load \/ (exists old, q = R_act_cas old) -> RD_UNPACK_STATE (sc_word w) = REALM_NEW) ->
  rinv (move w (sc_word w) l i q).
Proof.
  intros [(s & Hw & Hs & Hz & Ha) Hl He Hb] Hi Hin Hlk Hen Hact.
  assert (Hc : count inside (<[i := q]> (rpcs w)) = count inside (rpcs w)).
  { rewrite (count_insert _ _ _ p) by done. rewrite Hin. lia. }
  pose proof (count_le_length inside (rpcs w)). pose proof (count_nonneg inside (rpcs w)).
  split; cbn [move sc_word rd_locked rpcs].
  - exists s. rewrite Hc. split_and!; try done; try lia.
    intros j r Hj Hr. destruct (decide (j = i)) as [->|Hne].
    + rewrite list_lookup_insert_eq in Hj by (by eapply lookup_lt_Some). injection Hj as <-.
      specialize (Hact Hr). rewrite Hw, unpack_state in Hact by lia. done.
    + rewrite list_lookup_insert_ne in Hj by done. eauto.
  - rewrite (count_insert _ _ _ p) by done. destruct l, (rd_locked w); lia.
  - intros j old new Hj. destruct (decide (j = i)) as [->|Hne].
    + rewrite list_lookup_insert_eq in Hj by (by eapply lookup_lt_Some). injection Hj as ->. eauto.
    + rewrite list_lookup_insert_ne in Hj by done. eauto.
  - by rewrite length_insert.
Qed.

(** The invariant across a successful update of the word by PE [i]. *)
Lemma rinv_store w i p q s s' :
  rinv w -> rpcs w !! i = Some p -> sc_word w = sc s (count inside (rpcs w)) -> 0 <= s' < 4 ->
  holds_rd q = holds_rd p -> (forall old new, q <> R_enter_cas old new) ->
  q <> R_act_load -> (forall old, q <> R_act_cas old) ->
  (s' <> s -> holds_rd p = true) ->
  (s' = REALM_NEW \/ s' = REALM_ZOMBIE -> count inside (<[i := q]> (rpcs w)) = 0) ->
  rinv (move w (sc s' (count inside (<[i := q]> (rpcs w)))) (rd_locked w) i q).
Proof.
  intros Hinv Hi Hw Hs' Hhq Hq1 Hq2 Hq3 Hh Hz'. pose proof Hinv as [(s0 & Hw0 & Hs & Hz & Ha) Hl He Hb].
  pose proof (count_le_length inside (rpcs w)). pose proof (count_nonneg inside (rpcs w)).
  assert (s0 = s) as ->.
  { rewrite Hw in Hw0. apply (f_equal RD_UNPACK_STATE) in Hw0. rewrite !unpack_state in Hw0 by lia. done. }
  split; cbn [move sc_word rd_locked rpcs].
  - exists s'. split_and!; try done; try lia.
    intros j r Hj Hr. destruct (decide (j = i)) as [->|Hne].
    + rewrite list_lookup_insert_eq in Hj by (by eapply lookup_lt_Some). injection Hj as <-.
      destruct Hr as [Hr|[old Hr]]; [done|by destruct (Hq3 old)].
    + rewrite list_lookup_insert_ne in Hj by done. pose proof (Ha j r Hj Hr) as Hsn.
      destruct (decide (s' = s)) as [->|Hch]; [done|]. exfalso. apply Hne.
      assert (Hhr : holds_rd r = true) by (by destruct Hr as [-> | [? ->]]).
      assert (Hone : count holds_rd (rpcs w) = 1).
      { pose proof (count_pos holds_rd _ _ _ Hj Hhr). destruct (rd_locked w); lia. }
      by eapply (count_one holds_rd R_idle); eauto.
  - rewrite (count_insert _ _ _ p) by done. rewrite Hhq. lia.
  - intros j old new Hj. destruct (decide (j = i)) as [->|Hne].
    + rewrite list_lookup_insert_eq in Hj by (by eapply lookup_lt_Some). injection Hj as ->.
      by destruct (Hq1 old new).
    + rewrite list_lookup_insert_ne in Hj by done. eauto.
  - by rewrite length_insert.
Qed.

Lemma atomic_cas_inv v old new ok v' :
  atomic_cas v old new = (ok, v') -> (ok = true /\ v = old /\ v' = new) \/ (ok = false /\ v' = v).
Proof. unfold atomic_cas. destruct (Z.eqb_spec v old); intros [= <- <-]; [by left|by right]. Qed.

Lemma sc_succ s c : 0 <= s < 4 -> 0 <= c -> c + 1 < 2 ^ 62 -> add64 (sc s c) 1 = sc s (c + 1).
Proof. intros. unfold add64, sc. rewrite u64_small by (unfold in_u64; lia). lia. Qed.

Lemma sc_pred s c : 0 <= s < 4 -> 0 < c < 2 ^ 62 -> add64 (sc s c) UINT64_MAX = sc s (c - 1).
Proof.
  intros. unfold add64, u64, sc, UINT64_MAX.
  replace (s * 2 ^ 62 + c + (2 ^ 64 - 1)) with (s * 2 ^ 62 + (c - 1) + 1 * 2 ^ 64) by lia.
  rewrite Z.mod_add by lia. apply Z.mod_small. lia.
Qed.

Lemma inc_desired_inv old new :
  inc_if_active_desired old = Some (Some new) -> RD_UNPACK_STATE old = REALM_ACTIVE /\ new = add64 old 1.
Proof.
  unfold inc_if_active_desired. destruct (Z.eqb_spec (RD_UNPACK_STATE old) REALM_ACTIVE); cbn [negb]; [|done].
  case_match; [|done]. by intros [= <-].
Qed.

(** Entry and exit on a packed word. *)
Lemma inc_sc s c : 0 <= s < 4 -> 0 <= c -> c + 1 < 2 ^ 62 ->
  inc_if_active_desired (sc s c) = Some (if s =? REALM_ACTIVE then Some (sc s (c + 1)) else None).
Proof.
  intros Hs Hc Hc'. unfold inc_if_active_desired. rewrite unpack_state by lia.
  destruct (s =? REALM_ACTIVE) eqn:E; [|done]. cbn [negb]. by rewrite sc_succ, unpack_state, E by lia.
Qed.

Lemma dec_sc s c : 0 <= s < 4 -> 0 < c < 2 ^ 62 -> rd_active_rec_count_dec (sc s c) = Some (sc s (c - 1)).
Proof.
  intros Hs Hc. unfold rd_active_rec_count_dec. rewrite unpack_count, (proj2 (Z.ltb_lt _ _)) by lia. by rewrite sc_pred.
Qed.

(** A PE holding the RD lock means that it is taken. *)
Lemma rinv_locked w i p : rinv w -> rpcs w !! i = Some p -> holds_rd p = true -> rd_locked w = true.
Proof.
  intros [_ Hl _ _] Hi Hp. pose proof (count_pos holds_rd _ _ _ Hi Hp). destruct (rd_locked w); [done|lia].
Qed.

(** A PE moves without touching the word. *)
Ltac rmove Hi :=
  eapply rinv_move; [eassumption|exact Hi|cbn [inside]; try reflexivity|cbn [holds_rd]; try lia|..];
  try (by intros ? ? [=]); try (intros [?|[? ?]]; discriminate).
(** PE [i] stores a word with state [s'] and moves to [q]. *)
Ltac rstore w Hi s' q :=
  match goal with |- rinv (move w ?v _ ?i _) =>
    replace v with (sc s' (count inside (<[i := q]> (rpcs w))));
    [eapply rinv_store; [eassumption|exact Hi|eassumption|..]; try done;
     unfold REALM_NEW, REALM_ACTIVE, REALM_SYSTEM_OFF, REALM_ZOMBIE in *; try lia
    |rewrite (count_insert inside _ _ _ _ Hi); cbn [inside]] end.

Lemma rinv_step w w' : rinv w -> rstep w w' -> rinv w'.
Proof.
  intros Hinv Hst. pose proof Hinv as [(s & Hw & Hs & Hz & Ha) Hl He Hb].
  pose proof (count_le_length inside (rpcs w)) as Hcl. pose proof (count_nonneg inside (rpcs w)) as Hc0.
  assert (Hsc : forall c, 0 <= c < 2 ^ 62 -> RD_UNPACK_STATE (sc s c) = s) by (intros; by apply unpack_state).
  assert (Hst0 : RD_UNPACK_STATE (sc_word w) = s) by (rewrite Hw; apply Hsc; lia).
  assert (Hct0 : RD_UNPACK_COUNT (sc_word w) = count inside (rpcs w)) by (rewrite Hw; apply unpack_count; lia).
  inversion Hst as [i Hi|i Hi Hd|i new Hi Hd|i old new ok v Hi Hd|i v Hi Hd|i Hi Hlk|i Hi|i old ok v Hi Hd|i Hi
    |i Hi Hlk|i Hi|i Hi|i old ok v Hi Hd|i Hi Hlk|i Hi|i state ok v Hi Hd|i Hi]; subst w'.
  - rmove Hi.
  - rmove Hi.
  - rmove Hi. intros ? ? [= <- <-]. by apply inc_desired_inv.
  - apply atomic_cas_inv in Hd as [(-> & Ho & ->)|(-> & ->)]; [|rmove Hi].
    destruct (He i old new Hi) as [Hact ->]. subst old. rewrite Hst0 in Hact.
    pose proof (count_le_length inside (<[i := R_inside]> (rpcs w))) as Hcl'.
    rewrite (count_insert inside _ _ _ _ Hi), length_insert in Hcl'. cbn [inside] in Hcl'.
    rstore w Hi s R_inside. rewrite Hw, sc_succ by lia. f_equal. lia.
  - unfold rd_active_rec_count_dec in Hd. case_match; [|done]. injection Hd as <-.
    rstore w Hi s R_idle. rewrite Hw, sc_pred by lia. f_equal. lia.
  - rmove Hi.
  - rmove Hi.
  - apply atomic_cas_inv in Hd as [(-> & Ho & ->)|(-> & ->)]; [|rmove Hi].
    rstore w Hi REALM_SYSTEM_OFF R_off_unlock.
    unfold set_rd_state_desired. rewrite <- Ho, Hct0, pack_sc by (done || lia). f_equal. lia.
  - pose proof (rinv_locked w i _ Hinv Hi eq_refl). rmove Hi.
  - rmove Hi.
  - destruct (Z.eqb_spec (RD_UNPACK_STATE (sc_word w)) REALM_NEW); rmove Hi. done.
  - rmove Hi. intros _. rewrite Hst0. eapply Ha; [exact Hi|by left].
  - pose proof (Ha i _ Hi ltac:(right; by eexists)) as Hn.
    apply atomic_cas_inv in Hd as [(-> & Ho & ->)|(-> & ->)]; [|rmove Hi; intros _; congruence].
    rstore w Hi REALM_ACTIVE R_unlock.
    unfold set_rd_state_desired. rewrite <- Ho, Hct0, pack_sc by (done || lia). f_equal. lia.
  - rmove Hi.
  - rmove Hi.
  - unfold rd_cas_state_if_count_zero in Hd.
    apply atomic_cas_inv in Hd as [(-> & Ho & ->)|(-> & ->)]; [|rmove Hi].
    assert (Hc : count inside (rpcs w) = 0).
    { by rewrite <- Hct0, Ho, unpack_count_pack0. }
    rstore w Hi REALM_ZOMBIE R_unlock.
    + rewrite (count_insert inside _ _ _ _ Hi). cbn [inside]. lia.
    + rewrite pack_sc by done. f_equal. lia.
  - pose proof (rinv_locked w i _ Hinv Hi eq_refl). rmove Hi.
Qed.

(** A PE outside leaves room in the count for itself. *)
Lemma count_room w i p : rpcs w !! i = Some p -> inside p = false ->
  count inside (rpcs w) + 1 <= Z.of_nat (length (rpcs w)).
Proof.
  intros Hi Hp. pose proof (count_le_length inside (<[i := R_inside]> (rpcs w))) as H.
  rewrite (count_insert inside _ _ _ _ Hi), length_insert, Hp in H. cbn [inside] in H. lia.
Qed.

(** Steps move the state forward. *)
Lemma state_monotone w w' :
  rinv w -> rstep w w' -> RD_UNPACK_STATE (sc_word w) <= RD_UNPACK_STATE (sc_word w').
Proof.
  intros Hinv Hst. pose proof (rinv_step w w' Hinv Hst) as [(s' & Hw' & Hs' & _) _ _ Hb'].
  pose proof Hinv as [(s & Hw & Hs & Hz & Ha) Hl He Hb].
  pose proof (count_le_length inside (rpcs w)). pose proof (count_nonneg inside (rpcs w)).
  pose proof (count_le_length inside (rpcs w')). pose proof (count_nonneg inside (rpcs w')).
  assert (Hst0 : RD_UNPACK_STATE (sc_word w) = s) by (rewrite Hw; apply unpack_state; lia).
  assert (Hct0 : RD_UNPACK_COUNT (sc_word w) = count inside (rpcs w)) by (rewrite Hw; apply unpack_count; lia).
  assert (Hsame : forall st c, 0 <= c < 2 ^ 62 -> sc_word w' = sc st c -> RD_UNPACK_STATE (sc_word w') = st)
    by (intros st c Hc ->; by apply unpack_state).
  inversion Hst as [i Hi|i Hi Hd|i new Hi Hd|i old new ok v Hi Hd|i v Hi Hd|i Hi Hlk|i Hi|i old ok v Hi Hd|i Hi
    |i Hi Hlk|i Hi|i Hi|i old ok v Hi Hd|i Hi Hlk|i Hi|i state ok v Hi Hd|i Hi]; subst w';
    cbn [move sc_word] in *; try lia.
  - apply atomic_cas_inv in Hd as [(-> & Ho & ->)|(-> & ->)]; [|lia].
    destruct (He i old new Hi) as [_ ->]. pose proof (count_room w i _ Hi eq_refl). subst old.
    rewrite (Hsame s (count inside (rpcs w) + 1)); [lia|lia|]. rewrite Hw. apply sc_succ; lia.
  - unfold rd_active_rec_count_dec in Hd. case_match; [|done]. injection Hd as <-.
    rewrite (Hsame s (count inside (rpcs w) - 1)); [lia|lia|]. rewrite Hw. apply sc_pred; lia.
  - apply atomic_cas_inv in Hd as [(-> & Ho & ->)|(-> & ->)]; [|lia].
    pose proof (count_pos inside _ _ _ Hi eq_refl).
    rewrite (Hsame REALM_SYSTEM_OFF (count inside (rpcs w))); unfold REALM_SYSTEM_OFF, REALM_ZOMBIE in *; try lia.
    unfold set_rd_state_desired. rewrite <- Ho, Hct0. apply pack_sc; lia.
  - apply atomic_cas_inv in Hd as [(-> & Ho & ->)|(-> & ->)]; [|lia].
    rewrite (Hsame REALM_ACTIVE (count inside (rpcs w))); [|lia|].
    + rewrite Hst0, (Ha i _ Hi ltac:(right; by eexists)). done.
    + unfold set_rd_state_desired. rewrite <- Ho, Hct0. apply pack_sc; (done || lia).
  - unfold rd_cas_state_if_count_zero in Hd.
    apply atomic_cas_inv in Hd as [(-> & Ho & ->)|(-> & ->)]; [|lia].
    rewrite (Hsame REALM_ZOMBIE 0); [unfold REALM_ZOMBIE; lia|lia|]. by apply pack_sc.
Qed.

Lemma rinv_initial n : Z.of_nat n < 2 ^ 62 -> rinv (rinitial n).
Proof.
  intros Hn.
  assert (Hc : forall f, f R_idle = false -> count f (replicate n R_idle) = 0).
  { intros f Hf. unfold count. clear Hn. induction n as [|n IH]; [done|]. cbn [replicate].
    rewrite filter_cons. case_decide; [congruence|done]. }
  split; cbn [rinitial sc_word rd_locked rpcs]; rewrite ?Hc by done; try done.
  - exists REALM_NEW. split_and!; try done.
  - intros i old new Hi. apply lookup_replicate in Hi as [Hi _]. done.
  - by rewrite length_replicate.
Qed.

Lemma rinv_reachable n w : Z.of_nat n < 2 ^ 62 -> rreachable (rinitial n) w -> rinv w.
Proof. intros Hn. induction 1; [by apply rinv_initial|by eapply rinv_step]. Qed.

(** C18: in every interleaving of REC entry and exit, activation, termination and
    PSCI SYSTEM_OFF, the packed word counts exactly the RECs that run; the realm
    state only moves forward (NEW, ACTIVE, SYSTEM_OFF, ZOMBIE), so that a
    terminated realm stays ZOMBIE and no REC of it runs or can be entered; and no
    assertion of the entry and exit code can fail. *)
Theorem realm_lifecycle n w :
  Z.of_nat n < 2 ^ 62 -> rreachable (rinitial n) w ->
  RD_UNPACK_COUNT (sc_word w) = count inside (rpcs w) /\
  (RD_UNPACK_STATE (sc_word w) = REALM_ZOMBIE -> count inside (rpcs w) = 0) /\
  (forall w', rstep w w' -> RD_UNPACK_STATE (sc_word w) <= RD_UNPACK_STATE (sc_word w')) /\
  (forall i, rpcs w !! i = Some R_enter_load -> is_Some (inc_if_active_desired (sc_word w))) /\
  (forall i, rpcs w !! i = Some R_inside -> is_Some (rd_active_rec_count_dec (sc_word w))).
Proof.
  intros Hn Hr. pose proof (rinv_reachable n w Hn Hr) as Hinv.
  pose proof Hinv as [(s & Hw & Hs & Hz & Ha) Hl He Hb].
  pose proof (count_le_length inside (rpcs w)). pose proof (count_nonneg inside (rpcs w)).
  assert (Hst0 : RD_UNPACK_STATE (sc_word w) = s) by (rewrite Hw; apply unpack_state; lia).
  assert (Hct0 : RD_UNPACK_COUNT (sc_word w) = count inside (rpcs w)) by (rewrite Hw; apply unpack_count; lia).
  split; [done|]. split; [rewrite Hst0; intros ->; apply Hz; by right|]. split.
  - intros w' Hst. by apply (state_monotone w w').
  - split.
    + intros i Hi. unfold inc_if_active_desired. pose proof (count_room w i _ Hi eq_refl).
      rewrite Hst0. destruct (s =? REALM_ACTIVE) eqn:E; cbn [negb]; [|by eexists].
      rewrite Hw, sc_succ, unpack_state, E by lia. by eexists.
    + intros i Hi. unfold rd_active_rec_count_dec. rewrite Hct0.
      pose proof (count_pos inside _ _ _ Hi eq_refl). rewrite (proj2 (Z.ltb_lt _ _)) by done. by eexists.
Qed.

(** Extend a run [H] by the step [c]. *)
Ltac run_step H c := eapply rr_step in H; [|apply c; reflexivity]; vm_compute in H.

(** PE 0 activates the realm, PE 1 runs a REC and leaves, PE 0 terminates. *)
Lemma demo_terminated_reachable :
  rreachable (rinitial 2) (RWorld (sc REALM_ZOMBIE 0) true [R_unlock; R_idle]).
Proof.
  pose proof (rr_init (rinitial 2)) as H.
  run_step H (rs_act_lock (rinitial 2) 0).
  run_step H (rs_act_check (RWorld (sc 0 0) true [R_act_check; R_idle]) 0).
  run_step H (rs_act_load (RWorld (sc 0 0) true [R_act_load; R_idle]) 0).
  run_step H (rs_act_cas (RWorld (sc 0 0) true [R_act_cas (sc 0 0); R_idle]) 0 (sc 0 0) true (sc 1 0)).
  run_step H (rs_unlock (RWorld (sc 1 0) true [R_unlock; R_idle]) 0).
  run_step H (rs_enter (RWorld (sc 1 0) false [R_idle; R_idle]) 1).
  run_step H (rs_enter_loaded (RWorld (sc 1 0) false [R_idle; R_enter_load]) 1 (sc 1 1)).
  run_step H (rs_enter_cas (RWorld (sc 1 0) false [R_idle; R_enter_cas (sc 1 0) (sc 1 1)]) 1
    (sc 1 0) (sc 1 1) true (sc 1 1)).
  run_step H (rs_exit (RWorld (sc 1 1) false [R_idle; R_inside]) 1 (sc 1 0)).
  run_step H (rs_term_lock (RWorld (sc 1 0) false [R_idle; R_idle]) 0).
  run_step H (rs_term_load (RWorld (sc 1 0) true [R_term_load; R_idle]) 0).
  run_step H (rs_term_cas (RWorld (sc 1 0) true [R_term_cas 1; R_idle]) 0 1 true (sc 3 0)).
  exact H.
Qed.

Lemma realm_lifecycle_witness :
  exists w, rreachable (rinitial 2) w /\ RD_UNPACK_STATE (sc_word w) = REALM_ZOMBIE /\
    count inside (rpcs w) = 0 /\
    forall w', rstep w w' -> RD_UNPACK_STATE (sc_word w) <= RD_UNPACK_STATE (sc_word w').
Proof.
  exists (RWorld (sc REALM_ZOMBIE 0) true [R_unlock; R_idle]).
  split; [exact demo_terminated_reachable|]. split; [reflexivity|].
  destruct (realm_lifecycle 2 _ ltac:(lia) demo_terminated_reachable) as (_ & Hz & Hm & _).
  split; [apply Hz; reflexivity|exact Hm].
Defined.
