(* ===== verification/RttTree.v ===== *)
(** * Translation trees: entries, reference counts, translations

    The invariant the RTT commands keep on the tables of a realm: every entry is
    a descriptor the RMM built (or an unassigned one with a drain mark), every
    table's reference count is the number of its entries that refer to something,
    every table but the roots has exactly one parent entry.  [translate] is what
    the tables say about an IPA; splitting a leaf into a table and joining a table
    into a leaf do not change it. *)

From Stdlib Require Import ZArith Lia Bool ZifyBool.
From stdpp Require Import base tactics option list numbers gmap.
From S2P Require Import Prelude.
From S2P Require Import Utils.
From S2P Require Import Status.
From S2P Require Import Granule.
From S2P Require Import Mem.
From S2P Require Import Arch.
From S2P Require Import S2tte.
From S2P Require Import S2tteFacts.
From S2P Require Import S2tteProps.
From S2P Require Import S2ttTable.
From S2P Require Import S2ttWalk.
From S2P Require Import RttFold.
From S2P Require Import RttFoldProps.

Section Entries.
Context `{feat : ArchFeatures}.
Implicit Types (ctx : s2tt_context) (table : list Z) (level e : Z).

(** ** Entries *)

(** An unassigned descriptor that carries a drain mark. *)
Definition marked ctx level e : Prop :=
  s2tte_drain_pending e = true /\
  exists k pa v, kind_live k = false /\ built ctx level k pa v /\ Z.land e (not64 S2TTE_SW_DRAIN_MASK) = v.

Definition entry_ok ctx level e : Prop := marked ctx level e \/ exists k pa, built ctx level k pa e.

(** The references an entry holds on its table. *)
Definition entry_refs ctx level e : Z :=
  if s2tte_drain_pending e then 1
  else if s2tte_is_live ctx e level then
    match s2tte_is_assigned_ns ctx e level with Some true => 0 | _ => 1 end
  else 0.

Fixpoint table_refs ctx level table : Z :=
  match table with [] => 0 | e :: rest => entry_refs ctx level e + table_refs ctx level rest end.

Definition kind_refs (k : s2tte_kind) : Z :=
  match k with
  | K_unassigned_empty | K_unassigned_ram | K_unassigned_destroyed | K_unassigned_ns | K_assigned_ns => 0
  | _ => 1
  end.

Lemma built_live ctx lpa2 level k pa v :
  s2tt_lpa2_enabled ctx = Some lpa2 -> -1 <= level <= 3 -> built ctx level k pa v ->
  s2tte_is_live ctx v level = kind_live k.
Proof.
  intros Hl Hlv Hb. unfold s2tte_is_live. rewrite <- (s2tte_has_pa_class ctx lpa2).
  eapply class_bits_live; eauto using built_class_bits.
Qed.

Lemma entry_refs_built ctx lpa2 level k pa v :
  s2tt_lpa2_enabled ctx = Some lpa2 -> -1 <= level <= 3 -> built ctx level k pa v ->
  entry_refs ctx level v = kind_refs k.
Proof.
  intros Hl Hlv Hb. unfold entry_refs.
  rewrite (built_not_pending ctx lpa2 level k pa v), (built_live ctx lpa2 level k pa v) by done.
  pose proof (built_is_kind ctx lpa2 level k pa v K_assigned_ns Hl Hlv Hb) as Hns. cbn [is_kind] in Hns.
  rewrite Hns. by destruct k.
Qed.

(** The drain window is not looked at by any classification. *)
Lemma drain_class lpa2 e :
  Z.land (Z.land e (not64 S2TTE_SW_DRAIN_MASK)) (class_mask lpa2) = Z.land e (class_mask lpa2).
Proof. rewrite <- Z.land_assoc. by destruct lpa2. Qed.

Lemma marked_kind ctx lpa2 level e :
  s2tt_lpa2_enabled ctx = Some lpa2 -> -1 <= level <= 3 -> marked ctx level e ->
  exists k, kind_live k = false /\ forall k', is_kind ctx e level k' = Some (bool_decide (k = k')).
Proof.
  intros Hl Hlv (_ & k & pa & v & Hk & Hb & Hv). exists k. split; [done|]. intros k'.
  rewrite <- (is_kind_class ctx lpa2), <- drain_class, Hv, is_kind_class by done.
  by eapply built_is_kind.
Qed.

Lemma marked_not_live ctx lpa2 level e :
  s2tt_lpa2_enabled ctx = Some lpa2 -> -1 <= level <= 3 -> marked ctx level e ->
  s2tte_is_live ctx e level = false.
Proof.
  intros Hl Hlv (_ & k & pa & v & Hk & Hb & Hv). unfold s2tte_is_live.
  rewrite <- (s2tte_has_pa_class ctx lpa2), <- drain_class, Hv, s2tte_has_pa_class.
  fold (s2tte_is_live ctx v level). by rewrite (built_live ctx lpa2 level k pa v).
Qed.

(** Every entry has a kind. *)
Lemma entry_kind ctx lpa2 level e :
  s2tt_lpa2_enabled ctx = Some lpa2 -> -1 <= level <= 3 -> entry_ok ctx level e ->
  exists k, forall k', is_kind ctx e level k' = Some (bool_decide (k = k')).
Proof.
  intros Hl Hlv [Hm|(k & pa & Hb)].
  - destruct (marked_kind _ _ _ _ Hl Hlv Hm) as (k & _ & H). eauto.
  - exists k. intros k'. by eapply built_is_kind.
Qed.

Lemma entry_refs_range ctx level e : 0 <= entry_refs ctx level e <= 1.
Proof. unfold entry_refs. repeat case_match; lia. Qed.

Lemma table_refs_range ctx level table : 0 <= table_refs ctx level table <= Z.of_nat (length table).
Proof.
  induction table as [|e table IH]; cbn [table_refs length]; [lia|].
  pose proof (entry_refs_range ctx level e). lia.
Qed.

Lemma table_refs_app ctx level t1 t2 :
  table_refs ctx level (t1 ++ t2) = table_refs ctx level t1 + table_refs ctx level t2.
Proof. induction t1 as [|e t1 IH]; cbn [table_refs app]; [lia|]. rewrite IH. lia. Qed.

Lemma table_refs_set ctx level table j e v table' :
  arr_get table j = Some e -> arr_set table j v = Some table' ->
  table_refs ctx level table' = table_refs ctx level table - entry_refs ctx level e + entry_refs ctx level v.
Proof.
  unfold arr_get, arr_set. intros He Hs. inv_some He. inv_some Hs. subst table'.
  rewrite (insert_take_drop table (Z.to_nat j) v) by (by eapply lookup_lt_Some).
  rewrite <- (take_drop_middle table (Z.to_nat j) e He) at 3. rewrite !table_refs_app.
  cbn [table_refs]. lia.
Qed.

(** A table of entries with the same count. *)
Lemma table_refs_const ctx level table c :
  (forall j e, arr_get table j = Some e -> entry_refs ctx level e = c) ->
  table_refs ctx level table = c * Z.of_nat (length table).
Proof.
  induction table as [|e table IH]; intros H; cbn [table_refs length]; [lia|].
  rewrite IH; [rewrite (H 0 e) by done; lia|].
  intros j e' He'. apply (H (j + 1)). apply arr_get_lt in He' as Hj. revert He'. unfold arr_get.
  rewrite !(proj2 (Z.leb_le _ _)) by lia. by replace (Z.to_nat (j + 1)) with (S (Z.to_nat j)) by lia.
Qed.

(** Extreme counts. *)
Lemma table_refs_zero ctx level table j e :
  table_refs ctx level table = 0 -> arr_get table j = Some e -> entry_refs ctx level e = 0.
Proof.
  intros Hz He. pose proof (arr_get_lt _ _ _ He) as Hj.
  pose proof (arr_set_some table j e Hj) as Hs. revert He Hs.
  unfold arr_get. rewrite (proj2 (Z.leb_le _ _)) by lia. intros He _.
  rewrite <- (take_drop_middle table (Z.to_nat j) e He) in Hz. rewrite table_refs_app in Hz.
  cbn [table_refs] in Hz. pose proof (entry_refs_range ctx level e).
  pose proof (table_refs_range ctx level (take (Z.to_nat j) table)).
  pose proof (table_refs_range ctx level (drop (S (Z.to_nat j)) table)). lia.
Qed.

Lemma table_refs_full ctx level table j e :
  table_refs ctx level table = Z.of_nat (length table) -> arr_get table j = Some e -> entry_refs ctx level e = 1.
Proof.
  intros Hz He. pose proof (arr_get_lt _ _ _ He) as Hj. revert He.
  unfold arr_get. rewrite (proj2 (Z.leb_le _ _)) by lia. intros He.
  rewrite <- (take_drop_middle table (Z.to_nat j) e He) in Hz. rewrite table_refs_app, length_app in Hz.
  cbn [table_refs length] in Hz. pose proof (entry_refs_range ctx level e).
  pose proof (table_refs_range ctx level (take (Z.to_nat j) table)).
  pose proof (table_refs_range ctx level (drop (S (Z.to_nat j)) table)). lia.
Qed.

(** ** Folding never trips an assertion *)

Lemma all_upM_some n i check :
  (forall j, i <= j < i + Z.of_nat n -> is_Some (check j)) -> is_Some (all_upM n i check).
Proof.
  revert i. induction n as [|n IH]; intros i H; cbn [all_upM]; [by eexists|].
  destruct (H i ltac:(lia)) as [b ->]. cbn [mbind option_bind]. destruct b; [|by eexists].
  apply IH. intros j Hj. apply H. lia.
Qed.

Lemma entry_ok_pa ctx lpa2 level e :
  s2tt_lpa2_enabled ctx = Some lpa2 -> -1 <= level <= 3 -> entry_ok ctx level e ->
  s2tte_is_live ctx e level = true -> exists k pa, kind_live k = true /\ built ctx level k pa e.
Proof.
  intros Hl Hlv [Hm|(k & pa & Hb)] Hlive.
  - rewrite (marked_not_live _ _ _ _ Hl Hlv Hm) in Hlive. done.
  - exists k, pa. split; [|done]. by rewrite (built_live _ _ _ _ _ _ Hl Hlv Hb) in Hlive.
Qed.

(** A recognised leaf is one. *)
Lemma entry_is_leaf ctx lpa2 level e k :
  s2tt_lpa2_enabled ctx = Some lpa2 -> -1 <= level <= 3 -> entry_ok ctx level e ->
  is_leaf k = true -> is_kind ctx e level k = Some true -> exists pa, built ctx level k pa e.
Proof.
  intros Hl Hlv [Hm|(k' & pa & Hb)] Hk He.
  - destruct (marked_kind _ _ _ _ Hl Hlv Hm) as (k' & Hk' & H). rewrite H in He. injection He as He.
    apply bool_decide_eq_true in He as ->. by destruct k.
  - exists pa. pose proof (built_kind_eq _ _ _ _ _ _ _ Hl Hlv Hb He). by subst.
Qed.

Ltac case_test := match goal with |- is_Some (if ?b then _ else _) => destruct b end.

Lemma uniform_block_total ctx table f ap :
  length table = N_S2TTES -> is_Some (table_is_uniform_unassigned_block ctx table f ap).
Proof.
  intros Hlen. unfold table_is_uniform_unassigned_block, s2tte_read.
  assert (Hg : forall j, 0 <= j < 512 -> is_Some (arr_get table j))
    by (intros j Hj; apply arr_get_some; unfold N_S2TTES in Hlen; lia).
  destruct (Hg 0 ltac:(lia)) as [e0 ->]. cbn [mbind option_bind]. do 2 (case_test; [by eexists|]).
  apply all_upM_some. intros j Hj. destruct (Hg j) as [e ->]; [unfold N_S2TTES in Hj; lia|].
  cbn [mbind option_bind]. case_test; by eexists.
Qed.

Lemma maps_block_total ctx lpa2 table level k ca ap dev :
  s2tt_lpa2_enabled ctx = Some lpa2 -> (if lpa2 then -1 else 0) <= level <= 3 ->
  length table = N_S2TTES -> (forall j e, arr_get table j = Some e -> entry_ok ctx level e) ->
  is_leaf k = true -> is_Some (table_maps_block ctx table level (checker k) ca ap dev).
Proof.
  intros Hl Hlv Hlen Hok Hk. assert (Hlv' : -1 <= level <= 3) by (destruct lpa2; lia).
  assert (Hg : forall j, 0 <= j < 512 -> exists e b, arr_get table j = Some e /\ entry_ok ctx level e /\
    is_kind ctx e level k = Some b /\ (b = true -> exists pa, built ctx level k pa e)).
  { intros j Hj. destruct (arr_get_some table j) as [e He]; [unfold N_S2TTES in Hlen; lia|].
    destruct (entry_kind _ _ _ _ Hl Hlv' (Hok j e He)) as (k' & Hke). exists e, (bool_decide (k' = k)).
    split_and!; [done|eauto|done|]. intros Hb. eapply entry_is_leaf; eauto. by rewrite Hke, Hb. }
  assert (Hpa : forall e pa, built ctx level k pa e -> s2tte_pa ctx e level = Some pa /\ 1 <= level)
    by (intros e pa Hb; split; [eapply built_pa; eauto; by destruct k|];
        pose proof (built_level _ _ _ _ _ _ Hl Hb ltac:(by destruct k)) as Hlk; by destruct k).
  unfold table_maps_block, s2tte_read, checker. rewrite Hl. cbn [mbind option_bind].
  replace (if lpa2 then _ else _) with true
    by (destruct lpa2; unfold S2TT_MIN_STARTING_LEVEL_LPA2, S2TT_MIN_STARTING_LEVEL; lia).
  rewrite (proj2 (Z.leb_le level S2TT_PAGE_LEVEL)) by (unfold S2TT_PAGE_LEVEL; lia).
  destruct (Hg 0 ltac:(lia)) as (e0 & b0 & -> & _ & Hb0 & Hpa0). cbn [mbind option_bind]. rewrite Hb0.
  cbn [mbind option_bind]. destruct b0; cbn [negb]; [|by eexists].
  destruct (Hpa0 eq_refl) as [pa0 Hbt0]. destruct (Hpa _ _ Hbt0) as [-> Hlv1].
  case_test; [by eexists|]. cbn [mbind option_bind].
  assert (Hal : is_Some (s2tte_is_addr_lvl_aligned ctx pa0 (level - 1))).
  { unfold s2tte_is_addr_lvl_aligned, S2TT_PAGE_LEVEL, S2TT_MIN_STARTING_LEVEL_LPA2, S2TT_MIN_STARTING_LEVEL.
    rewrite Hl. cbn [mbind option_bind]. rewrite (proj2 (Z.leb_le (level - 1) 3)) by lia.
    replace ((if lpa2 then -1 else 0) <=? level - 1) with true by (destruct lpa2; lia). by eexists. }
  destruct Hal as [al ->]. cbn [mbind option_bind]. destruct al; cbn [negb]; [|by eexists].
  apply all_upM_some. intros j Hj.
  destruct (Hg j) as (e & b & -> & _ & Hb & Hpj); [unfold N_S2TTES in Hj; lia|]. cbn [mbind option_bind].
  rewrite Hb. cbn [mbind option_bind]. destruct b; cbn [negb]; [|by eexists].
  destruct (Hpj eq_refl) as [pa Hbt]. destruct (Hpa _ _ Hbt) as [-> _]. cbn [mbind option_bind].
  do 3 (case_test; [by eexists|]). by eexists.
Qed.

(** A block that the check accepts can be made. *)
Lemma fold_leaf_some ctx lpa2 k table level ca dev s0 base :
  s2tt_lpa2_enabled ctx = Some lpa2 -> is_leaf k = true -> 2 <= level <= 3 ->
  arr_get table 0 = Some s0 -> entry_ok ctx level s0 ->
  table_maps_block ctx table level (checker k) ca s0 dev = Some true ->
  s2tte_pa ctx s0 level = Some base ->
  is_Some (match k with K_assigned_ns => s2tte_create_assigned_ns ctx s0 (level - 1) 0
           | _ => recreate ctx k base s0 (level - 1) end).
Proof.
  intros Hl Hk Hlv H0 Hok Hm Hbase.
  destruct (maps_block_inv ctx lpa2 k table level ca dev s0 Hl ltac:(lia) H0 Hm) as (b & Hb & Ha & Hall).
  assert (b = base) as -> by congruence. destruct (Hall 0 ltac:(lia)) as (e & He & Hke & _).
  assert (e = s0) as -> by congruence.
  destruct (entry_is_leaf ctx lpa2 level s0 k Hl ltac:(lia) Hok Hk Hke) as [pa Hbt].
  destruct (built_src _ _ _ _ _ _ Hl Hk Hbt) as (src & Hs & Hr).
  pose proof (built_pa _ _ _ _ _ _ Hl Hbt ltac:(by destruct k)) as Hpa. assert (pa = base) as -> by congruence.
  destruct (aligned_child _ _ _ level 0 Hl ltac:(lia) ltac:(lia) Ha) as (Ha0 & _).
  rewrite Z.mul_0_l, Z.add_0_r in Ha0.
  destruct (recreate_value ctx lpa2 k base src level Hl Hk ltac:(lia) Ha0 Hs) as (t & Ht & Hmt & Hv).
  rewrite Hr in Hv. injection Hv as ->.
  assert (Hss : src_ok ctx lpa2 k (Z.lor t (leaf_bits ctx lpa2 k level src))) by (apply src_ok_leaf; (done || lia)).
  destruct k; try discriminate Hk.
  4: { apply (create_ns_some ctx lpa2); [done|lia|]. exact Hss. }
  all: match goal with |- is_Some (recreate _ ?k _ _ _) =>
    destruct (recreate_value ctx lpa2 k base _ (level - 1) Hl eq_refl ltac:(lia) Ha Hss) as (? & _ & _ & ->) end;
    by eexists.
Qed.

(** The error results of the commands. *)
Lemma rtt_error_some aux level :
  exists ret, pack_return_code_level (rtt_err_code aux) (u8 level) = Some ret /\ ret <> RMI_SUCCESS.
Proof. destruct aux; apply pack_level_some; unfold u8; try done; by apply Z.mod_pos_bound. Qed.

Lemma full_first_live ctx lpa2 table level s0 :
  s2tt_lpa2_enabled ctx = Some lpa2 -> -1 <= level <= 3 ->
  length table = N_S2TTES -> (forall j e, arr_get table j = Some e -> entry_ok ctx level e) ->
  table_refs ctx level table = S2TTES_PER_S2TT -> arr_get table 0 = Some s0 ->
  any_drain_pending (take N_S2TTES table) = false -> exists base, s2tte_pa ctx s0 level = Some base.
Proof.
  intros Hl Hlv Hlen Hok Hr H0 Hd.
  assert (Hwf : table_wf ctx level table).
  { split; [done|]. intros j e He. destruct (Hok j e He) as [[Hp _]|]; [by left|by right]. }
  destruct (first_entry_built _ _ _ _ Hwf H0 Hd) as (k0 & pa0 & Hb).
  assert (Hr1 : entry_refs ctx level s0 = 1)
    by (eapply table_refs_full; [|exact H0]; rewrite Hr, Hlen; done).
  rewrite (entry_refs_built ctx lpa2 level k0 pa0) in Hr1 by done.
  exists pa0. eapply built_pa; eauto. by destruct k0.
Qed.

Definition fold_reports (r : option fold_result) : Prop :=
  exists r', r = Some r' /\ forall ret, r' = Fold_ret ret -> ret <> RMI_SUCCESS.

Lemma fold_reports_ok p rc put : fold_reports (Some (Fold_ok p rc put)).
Proof. eexists. by split. Qed.

Lemma fold_reports_error s level : s = RMI_ERROR_RTT \/ s = RMI_ERROR_RTT_AUX ->
  fold_reports (ret ← pack_return_code_level s (u8 level); Some (Fold_ret ret)).
Proof.
  intros Hs. assert (Ha : exists aux, s = rtt_err_code aux)
    by (destruct Hs as [-> | ->]; [by exists false|by exists true]).
  destruct Ha as [aux ->]. destruct (rtt_error_some aux level) as (ret & -> & Hne).
  eexists. split; [done|]. by intros ? [= <-].
Qed.

(** One branch of the chain of block checks. *)
Ltac block Hblk k ca dev :=
  apply (Hblk k ca dev); try done; try lia; try (intros; apply fold_reports_ok).

(** On a table whose reference count is exact, [rtt_fold] always reaches a
    decision. *)
Lemma fold_total ctx lpa2 aux table level :
  s2tt_lpa2_enabled ctx = Some lpa2 -> (if lpa2 then 0 else 1) <= level <= 3 ->
  length table = N_S2TTES -> (forall j e, arr_get table j = Some e -> entry_ok ctx level e) ->
  fold_reports (rtt_fold_table ctx aux table (table_refs ctx level table) level (level - 1)).
Proof.
  intros Hl Hlv Hlen Hok. assert (Hlv' : (if lpa2 then -1 else 0) <= level <= 3) by (destruct lpa2; lia).
  assert (Hlv1 : -1 <= level <= 3) by (destruct lpa2; lia).
  unfold rtt_fold_table, s2tte_read.
  destruct (arr_get_some table 0) as [s0 H0]; [unfold N_S2TTES in Hlen; lia|]. rewrite H0. cbn [mbind option_bind].
  destruct (any_drain_pending (take N_S2TTES table)) eqn:Hd; [eexists; split; [done|]; by intros ? [= <-]|].
  assert (Herr : forall l, fold_reports (ret ← pack_return_code_level (rtt_err_code aux) (u8 l); Some (Fold_ret ret)))
    by (intros l; apply fold_reports_error; destruct aux; auto).
  assert (Hhigh : forall l, fold_reports (ret ← pack_return_code_level RMI_ERROR_RTT (u8 l); Some (Fold_ret ret)))
    by (intros l; apply fold_reports_error; auto).
  assert (Hblk : forall k ca dev (F : Z -> option fold_result) no, is_leaf k = true -> 2 <= level ->
    (forall p, fold_reports (F p)) -> fold_reports no ->
    forall base, s2tte_pa ctx s0 level = Some base ->
    fold_reports (b ← table_maps_block ctx table level (checker k) ca s0 dev;
      if b : bool then
        (p ← match k with K_assigned_ns => s2tte_create_assigned_ns ctx s0 (level - 1) 0
             | _ => recreate ctx k base s0 (level - 1) end; F p)
      else no)).
  { intros k ca dev F no Hk Hlv2 HF Hno base Hbase.
    destruct (maps_block_total ctx lpa2 table level k ca s0 dev Hl Hlv' Hlen Hok Hk) as [b Hb]. rewrite Hb.
    cbn [mbind option_bind]. destruct b; [|done].
    destruct (fold_leaf_some ctx lpa2 k table level ca dev s0 base Hl Hk ltac:(lia) H0 (Hok 0 s0 H0) Hb Hbase)
      as [p ->]. cbn [mbind option_bind]. apply HF. }
  assert (Hun : forall f ap yes no, fold_reports yes -> fold_reports no ->
    fold_reports (b ← table_is_uniform_unassigned_block ctx table f ap; if b : bool then yes else no)).
  { intros f ap yes no Hy Hn. destruct (uniform_block_total ctx table f ap Hlen) as [b ->].
    cbn [mbind option_bind]. by destruct b. }
  destruct (Z.eqb_spec (table_refs ctx level table) 0) as [Hz|Hz].
  - do 4 (apply Hun; [apply fold_reports_ok|]).
    unfold s2tt_maps_assigned_ns_block, S2TT_MIN_BLOCK_LEVEL.
    change s2tte_is_assigned_ns with (checker K_assigned_ns).
    destruct (Z.leb_spec level 1).
    + destruct (maps_block_total ctx lpa2 table level K_assigned_ns true s0 false Hl Hlv' Hlen Hok eq_refl) as [b ->].
      cbn [mbind option_bind]. destruct b; auto.
    + destruct (maps_block_total ctx lpa2 table level K_assigned_ns true s0 false Hl Hlv' Hlen Hok eq_refl) as [b Hb].
      rewrite Hb. cbn [mbind option_bind]. destruct b; [|auto].
      destruct (maps_block_inv ctx lpa2 K_assigned_ns table level true false s0 Hl ltac:(lia) H0 Hb) as (base & Hbase & _).
      destruct (fold_leaf_some ctx lpa2 K_assigned_ns table level true false s0 base Hl eq_refl ltac:(lia) H0
        (Hok 0 s0 H0) Hb Hbase) as [p ->]. apply fold_reports_ok.
  - destruct (Z.eqb_spec (table_refs ctx level table) S2TTES_PER_S2TT) as [Hf|]; [|auto].
    unfold S2TT_MIN_BLOCK_LEVEL. destruct (Z.leb_spec level 1); [auto|].
    destruct (full_first_live ctx lpa2 table level s0) as [base Hbase]; try done. rewrite Hbase. cbn [mbind option_bind].
    unfold s2tt_maps_assigned_empty_block, s2tt_maps_assigned_ram_block, s2tt_maps_assigned_destroyed_block,
      s2tt_maps_assigned_dev_empty_block, s2tt_maps_assigned_dev_destroyed_block, s2tt_maps_assigned_dev_dev_block.
    block Hblk K_assigned_empty false false. block Hblk K_assigned_ram false false.
    block Hblk K_assigned_destroyed false false. block Hblk K_assigned_dev_empty false true.
    block Hblk K_assigned_dev_destroyed false true. block Hblk K_assigned_dev_dev true true.
Qed.

End Entries.

(** ** Translations *)

Section Translate.
Context `{feat : ArchFeatures} `{names : GranuleNames}.
Implicit Types (ctx : s2tt_context) (m : mem) (table : list Z) (level e : Z).

(** The kind of an entry, by the code's own predicates. *)
Definition kind_of ctx level e : option s2tte_kind :=
  list_find (fun k => is_kind ctx e level k = Some true) all_kinds ≫= fun p => Some (snd p).

(** Permissions and attributes, as far as the kind has them. *)
Definition entry_attrs ctx (k : s2tte_kind) e : Z * Z :=
  match k with
  | K_assigned_ns => (Z.land e (attr_mask ctx), 0)
  | K_assigned_dev_dev => (s2tte_get_ap ctx e true, Z.land e S2TTE_MEMATTR_MASK)
  | K_unassigned_ns | K_table => (0, 0)
  | _ => (s2tte_get_ap ctx e (kind_dev k), 0)
  end.

(** What an entry says about the address [addr] it covers. *)
Definition entry_meaning ctx level e (addr : Z) : option (s2tte_kind * Z * (Z * Z)) :=
  k ← kind_of ctx level e;
  out ← (if kind_live k then pa ← s2tte_pa ctx e level; Some (pa + addr mod s2tte_map_size level)
         else Some 0);
  Some (k, out, entry_attrs ctx k e).

(** The tables' answer for an IPA: the kind of the entry that decides it, the
    output address and the attributes. *)
Definition translate ctx m (addr : Z) : option (s2tte_kind * Z * (Z * Z)) :=
  root ← pure_root ctx addr;
  let '(g, level) := pure_walk ctx m addr (Z.to_nat (S2TT_PAGE_LEVEL - s2_starting_level ctx))
                       (s2_starting_level ctx) root in
  table ← tables m !! g;
  e ← arr_get table (s2_addr_to_idx addr level);
  entry_meaning ctx level e addr.

Lemma same_attrs_eq ctx k e p : same_attrs ctx k e p <-> entry_attrs ctx k e = entry_attrs ctx k p.
Proof. destruct k; cbn [same_attrs entry_attrs]; intuition congruence. Qed.

Lemma kind_of_spec ctx level e k :
  (forall k', is_kind ctx e level k' = Some (bool_decide (k = k'))) -> kind_of ctx level e = Some k.
Proof.
  intros H. unfold kind_of.
  assert (Hf : list_find (fun k' => is_kind ctx e level k' = Some true) all_kinds
             = list_find (fun k' => k = k') all_kinds).
  { apply list_find_ext. intros k'. rewrite H. split; [intros [= Hb]; by apply bool_decide_eq_true in Hb|].
    intros ->. by rewrite bool_decide_true. }
  rewrite Hf. by destruct k.
Qed.

Lemma kind_of_built ctx lpa2 level k pa v :
  s2tt_lpa2_enabled ctx = Some lpa2 -> -1 <= level <= 3 -> built ctx level k pa v -> kind_of ctx level v = Some k.
Proof. intros Hl Hlv Hb. apply kind_of_spec. intros k'. by eapply built_is_kind. Qed.

(** The address within a block, seen one level down. *)
Lemma map_size_split addr level :
  0 <= level <= 3 -> 0 <= addr ->
  addr mod s2tte_map_size (level - 1) =
    s2_addr_to_idx addr level * s2tte_map_size level + addr mod s2tte_map_size level.
Proof.
  intros Hlv Ha. rewrite !s2tte_map_size_eq by lia.
  replace ((3 - (level - 1)) * 9 + 12) with (((3 - level) * 9 + 12) + 9) by lia.
  unfold s2_addr_to_idx, S2TT_MIN_STARTING_LEVEL, S2TTE_STRIDE, S2TT_PAGE_LEVEL, GRANULE_SHIFT.
  rewrite (proj2 (Z.ltb_ge level 0)) by lia. change (shl64 1 9 - 1) with (Z.ones 9).
  set (sh := (3 - level) * 9 + 12). assert (0 <= sh) by lia.
  rewrite Z.land_ones, Z.shiftr_div_pow2, Z.pow_add_r, Z.rem_mul_r by lia. lia.
Qed.

(** An entry of a table that folds into [p] means what [p] means. *)
Lemma fold_meaning ctx lpa2 level table k base p addr e :
  s2tt_lpa2_enabled ctx = Some lpa2 -> 0 <= level <= 3 -> 0 <= addr ->
  fold_refines ctx level table k base p -> k <> K_table ->
  (forall j e, arr_get table j = Some e -> entry_ok ctx level e) ->
  arr_get table (s2_addr_to_idx addr level) = Some e ->
  entry_meaning ctx level e addr = entry_meaning ctx (level - 1) p addr /\ entry_is_table e = false \/ level = 3 /\
  entry_meaning ctx level e addr = entry_meaning ctx (level - 1) p addr.
Proof.
  intros Hl Hlv Ha [Hbp Hall] Hk Hok He.
  destruct (Hall (s2_addr_to_idx addr level)) as (e' & He' & Hke & Hat & Hpa).
  { pose proof (s2_addr_to_idx_range addr level). lia. }
  assert (e' = e) as -> by congruence.
  destruct (entry_kind ctx lpa2 level e Hl ltac:(lia) (Hok _ e He)) as (k' & Hk').
  assert (k' = k) as -> by (rewrite Hk' in Hke; injection Hke as Hke; by apply bool_decide_eq_true in Hke).
  assert (Hm : entry_meaning ctx level e addr = entry_meaning ctx (level - 1) p addr).
  { unfold entry_meaning. rewrite (kind_of_spec ctx level e k Hk').
    rewrite (kind_of_built ctx lpa2 (level - 1) k base p Hl ltac:(lia) Hbp). cbn [mbind option_bind].
    apply same_attrs_eq in Hat. rewrite Hat. destruct (kind_live k) eqn:Hlive; [|done].
    destruct (Hpa eq_refl) as [-> ->]. cbn [mbind option_bind]. rewrite map_size_split by lia.
    by rewrite Z.add_assoc. }
  destruct (decide (level = 3)) as [->|]; [by right|left]. split; [done|].
  pose proof (Hk' K_table) as Ht. cbn [is_kind] in Ht. rewrite bool_decide_false in Ht by done.
  injection Ht as Ht. unfold s2tte_is_table, S2TT_PAGE_LEVEL in Ht.
  rewrite (proj2 (Z.ltb_lt level 3)) in Ht by lia. done.
Qed.

(** ** Splitting a leaf into a table

    [m2] is [m1] with leaf [p], entry [j] of table [gp], replaced by the table
    [gc], which folds into [p].  Nothing else of the tree [T] differs. *)
Record split_at ctx m1 m2 (T : tree) (gp lp j gc : Z) : Prop := {
  sp_closed : forall g l addr g', T !! g = Some l -> l < S2TT_PAGE_LEVEL ->
    next_table ctx m1 g addr l = Some g' -> T !! g' = Some (l + 1);
  sp_level : T !! gp = Some lp /\ -1 <= lp < S2TT_PAGE_LEVEL;
  sp_frame : forall g l, T !! g = Some l -> g <> gp -> tables m2 !! g = tables m1 !! g;
  sp_entry : exists t1 t2 p e2 pa, tables m1 !! gp = Some t1 /\ tables m2 !! gp = Some t2 /\
    arr_get t1 j = Some p /\ entry_is_table p = false /\
    arr_get t2 j = Some e2 /\ entry_is_table e2 = true /\
    table_entry_to_phys ctx e2 = Some pa /\ tr_addr_to_granule pa = Some gc /\
    (forall i, i <> j -> arr_get t2 i = arr_get t1 i) /\
    exists tc k base, tables m2 !! gc = Some tc /\ length tc = N_S2TTES /\
      (forall i e, arr_get tc i = Some e -> entry_ok ctx (lp + 1) e) /\
      k <> K_table /\ fold_refines ctx (lp + 1) tc k base p
}.

(** Where the walks of [addr] end: at the same entry, or at the leaf and at the
    entry of the new table that replaces it. *)
Lemma split_walk ctx lpa2 m1 m2 T gp lp j gc addr :
  s2tt_lpa2_enabled ctx = Some lpa2 -> split_at ctx m1 m2 T gp lp j gc -> 0 <= addr ->
  forall n i g, T !! g = Some i -> -1 <= i -> i + Z.of_nat n = 3 ->
  let '(gl, il) := pure_walk ctx m1 addr n i g in
  T !! gl = Some il /\ -1 <= il <= 3 /\
  pure_walk ctx m2 addr n i g =
    if decide (gl = gp /\ s2_addr_to_idx addr il = j) then (gc, il + 1) else (gl, il).
Proof.
  intros Hl [Hcl [Hgp Hlp] Hfr (t1 & t2 & p & e2 & pa & H1 & H2 & Hp & Hnt & He2 & Ht2 & Hpa & Hgc & Hoth & Htc)] Ha.
  unfold S2TT_PAGE_LEVEL in *. induction n as [|n IH]; intros i g Hg Hi Hn; cbn [pure_walk].
  { split_and!; try done; try lia. case_decide as Hd; [|done]. destruct Hd as [-> _]. simplify_eq. lia. }
  destruct (decide (g = gp)) as [->|Hne].
  - assert (i = lp) as -> by congruence.
    destruct (decide (s2_addr_to_idx addr lp = j)) as [Hj|Hj].
    + assert (Hn1 : next_table ctx m1 gp addr lp = None).
      { unfold next_table. rewrite H1. cbn [mbind option_bind]. rewrite Hj, Hp. cbn [mbind option_bind]. by rewrite Hnt. }
      assert (Hn2 : next_table ctx m2 gp addr lp = Some gc).
      { unfold next_table. rewrite H2. cbn [mbind option_bind]. rewrite Hj, He2. cbn [mbind option_bind].
        rewrite Ht2, Hpa. done. }
      rewrite Hn1, Hn2, decide_True by done. split_and!; [done|lia|lia|].
      destruct n as [|n]; [done|]. cbn [pure_walk].
      destruct Htc as (tc & k & base & Htc & Hlen & Hok & Hk & Hf).
      destruct (arr_get_some tc (s2_addr_to_idx addr (lp + 1))) as [e He].
      { rewrite Hlen. pose proof (s2_addr_to_idx_range addr (lp + 1)). unfold N_S2TTES. lia. }
      destruct (fold_meaning ctx lpa2 (lp + 1) tc k base p addr e Hl ltac:(lia) Ha Hf Hk Hok He)
        as [[_ Hent]|[Hx _]]; [|lia].
      unfold next_table. rewrite Htc. cbn [mbind option_bind]. rewrite He. cbn [mbind option_bind]. by rewrite Hent.
    + assert (Hn2 : next_table ctx m2 gp addr lp = next_table ctx m1 gp addr lp).
      { unfold next_table. rewrite H1, H2. cbn [mbind option_bind]. by rewrite Hoth. }
      rewrite Hn2. destruct (next_table ctx m1 gp addr lp) as [g'|] eqn:Hnx.
      * apply IH; [eapply Hcl; eauto; lia|lia|lia].
      * split_and!; try done; try lia. by rewrite decide_False by (by intros [_ ?]).
  - assert (Hn2 : next_table ctx m2 g addr i = next_table ctx m1 g addr i).
    { unfold next_table. by rewrite (Hfr g i Hg Hne). }
    rewrite Hn2. destruct (next_table ctx m1 g addr i) as [g'|] eqn:Hnx.
    + apply IH; [eapply Hcl; eauto; lia|lia|lia].
    + split_and!; try done; try lia. by rewrite decide_False by (by intros [? _]).
Qed.

(** The split does not change the translation of any address. *)
Lemma split_translate ctx lpa2 m1 m2 T gp lp j gc addr :
  s2tt_lpa2_enabled ctx = Some lpa2 -> split_at ctx m1 m2 T gp lp j gc -> 0 <= addr ->
  -1 <= s2_starting_level ctx <= 3 ->
  (forall root, pure_root ctx addr = Some root -> T !! root = Some (s2_starting_level ctx)) ->
  translate ctx m2 addr = translate ctx m1 addr.
Proof.
  intros Hl Hsp Ha Hst Hroot. unfold translate. destruct (pure_root ctx addr) as [root|]; [|done].
  cbn [mbind option_bind]. specialize (Hroot root eq_refl). unfold S2TT_PAGE_LEVEL.
  pose proof (split_walk ctx lpa2 m1 m2 T gp lp j gc addr Hl Hsp Ha
    (Z.to_nat (3 - s2_starting_level ctx)) (s2_starting_level ctx) root Hroot ltac:(lia) ltac:(lia)) as Hw.
  destruct (pure_walk ctx m1 addr _ _ root) as [gl il]. destruct Hw as (Hgl & Hil & ->).
  destruct Hsp as [_ [Hgp Hlp] Hfr (t1 & t2 & p & e2 & pa & H1 & H2 & Hp & Hnt & He2 & Ht2 & Hpa & Hgc & Hoth & Htc)].
  case_decide as Hd.
  - destruct Hd as [-> Hj]. assert (il = lp) as -> by congruence.
    destruct Htc as (tc & k & base & Htc & Hlen & Hok & Hk & Hf). rewrite Htc, H1. cbn [mbind option_bind].
    rewrite Hj, Hp. cbn [mbind option_bind]. unfold S2TT_PAGE_LEVEL in *.
    destruct (arr_get_some tc (s2_addr_to_idx addr (lp + 1))) as [e He].
    { rewrite Hlen. pose proof (s2_addr_to_idx_range addr (lp + 1)). unfold N_S2TTES. lia. }
    rewrite He. cbn [mbind option_bind]. replace lp with (lp + 1 - 1) at 2 by lia.
    by destruct (fold_meaning ctx lpa2 (lp + 1) tc k base p addr e Hl ltac:(lia) Ha Hf Hk Hok He) as [[? _]|[_ ?]].
  - destruct (decide (gl = gp)) as [->|Hne]; [|by rewrite (Hfr gl il Hgl Hne)].
    rewrite H1, H2. cbn [mbind option_bind]. rewrite Hoth; [done|]. intros Hj. by apply Hd.
Qed.

End Translate.

(** ** The invariant of a translation tree *)

Section Tree.
Context `{feat : ArchFeatures} `{names : GranuleNames}.
Implicit Types (ctx : s2tt_context) (m : mem) (T : tree) (table : list Z) (level e g : Z).

(** Entry [j] of table [g] is a table entry for granule [c]. *)
Definition points ctx m T g (j c : Z) : Prop :=
  exists l table e pa, T !! g = Some l /\ l < S2TT_PAGE_LEVEL /\ tables m !! g = Some table /\
    arr_get table j = Some e /\ entry_is_table e = true /\
    table_entry_to_phys ctx e = Some pa /\ tr_addr_to_granule pa = Some c.

Definition is_root ctx g : Prop :=
  exists root_addr n, tr_addr_to_granule root_addr = Some (g_rtt ctx) /\ 0 <= n < num_root_rtts ctx /\
    tr_addr_to_granule (root_addr + n * GRANULE_SIZE) = Some g.

(** A table of the tree: an unlocked RTT granule with 512 entries, each built by
    the RMM, and a reference count equal to the references they hold. *)
Definition table_ok ctx m g level : Prop :=
  exists table, tables m !! g = Some table /\ length table = N_S2TTES /\
    granule_at m g (AGranule false GRANULE_STATE_RTT (table_refs ctx level table)) /\
    forall j e, arr_get table j = Some e -> entry_ok ctx level e.

Record rtt_inv ctx m T : Prop := {
  ri_level : forall g l, T !! g = Some l -> s2_starting_level ctx <= l <= 3;
  ri_table : forall g l, T !! g = Some l -> table_ok ctx m g l;
  ri_next : forall g l table j e,
    T !! g = Some l -> tables m !! g = Some table -> l < S2TT_PAGE_LEVEL -> arr_get table j = Some e ->
    entry_is_table e = true ->
    exists pa c, table_entry_to_phys ctx e = Some pa /\ tr_addr_to_granule pa = Some c /\ T !! c = Some (l + 1);
  ri_unique : forall g1 j1 g2 j2 c, points ctx m T g1 j1 c -> points ctx m T g2 j2 c -> g1 = g2 /\ j1 = j2;
  ri_child : forall g j c, points ctx m T g j c -> ~ is_root ctx c;
  ri_roots : roots_ok ctx T;
  ri_named : forall g l, T !! g = Some l -> exists addr, tr_addr_to_granule addr = Some g;
  ri_parent : forall g l, T !! g = Some l -> is_root ctx g \/ exists g' j, points ctx m T g' j g
}.

Lemma rtt_inv_tree ctx m T : rtt_inv ctx m T -> tree_ok ctx m T.
Proof.
  intros [_ Ht Hn _ _ _ _ _]. split; [| |exact Hn].
  - intros g l Hg. destruct (Ht g l Hg) as (tbl & _ & _ & Hgr & _). eauto.
  - intros g l Hg. destruct (Ht g l Hg) as (tbl & H1 & H2 & _). eauto.
Qed.

Lemma ref_ok_rtt r : 0 <= r <= 512 -> ref_ok GRANULE_STATE_RTT r = true.
Proof.
  intros Hr. unfold ref_ok, granule_unlocked_invariants.
  rewrite encode_refcount; [|by left|split; [cbn; lia|change (REFCOUNT_MAX GRN) with 1023; cbn [a_ref]; lia]].
  cbn [a_ref]. cbn -[Z.leb Z.ltb]. unfold RTT_REFCOUNT_MAX. lia.
Qed.

Lemma ref_ok_table ctx level table :
  length table = N_S2TTES ->
  a_wf GRN (AGranule false GRANULE_STATE_RTT (table_refs ctx level table)) /\
  ref_ok GRANULE_STATE_RTT (table_refs ctx level table) = true.
Proof.
  intros Hlen. pose proof (table_refs_range ctx level table) as Hr. rewrite Hlen in Hr. unfold N_S2TTES in Hr.
  split; [|apply ref_ok_rtt; lia]. split; [by cbn|]. change (REFCOUNT_MAX GRN) with 1023. cbn [a_ref]. lia.
Qed.

(** A table entry is recognised as one, and decodes to its address. *)
Lemma built_table_entry ctx lpa2 level k pa v :
  s2tt_lpa2_enabled ctx = Some lpa2 -> -1 <= level < 3 -> built ctx level k pa v ->
  entry_is_table v = bool_decide (k = K_table) /\ (k = K_table -> table_entry_to_phys ctx v = Some pa).
Proof.
  intros Hl Hlv Hb. pose proof (built_is_table ctx lpa2 level k pa v Hl ltac:(lia) Hb) as Ht.
  unfold s2tte_is_table, S2TT_PAGE_LEVEL in Ht. rewrite (proj2 (Z.ltb_lt level 3)) in Ht by lia. cbn [andb] in Ht.
  split; [exact Ht|]. intros ->. pose proof (built_pa ctx lpa2 level K_table pa v Hl Hb eq_refl) as Hpa.
  unfold s2tte_pa in Hpa. rewrite Hl in Hpa. cbn [mbind option_bind] in Hpa. inv_some Hpa; [done|].
  exfalso. unfold s2tte_is_table, S2TT_PAGE_LEVEL in *. rewrite (proj2 (Z.ltb_lt level 3)) in * by lia.
  cbn [andb] in *. rewrite bool_decide_true in Ht by done. congruence.
Qed.

(** Reading through another granule's update. *)
Lemma table_ok_frame ctx m m' g level :
  tables m' !! g = tables m !! g -> descs m' !! g = descs m !! g -> table_ok ctx m g level -> table_ok ctx m' g level.
Proof.
  intros Ht Hd (tbl & H1 & H2 & (H3 & H4 & H5) & H6). exists tbl. rewrite Ht. split_and!; try done.
  split_and!; try done. by rewrite Hd.
Qed.

(** What changes when entry [j] of [gp] becomes [v'], the count following. *)
Record entry_set ctx m m' T (gp lp j v' : Z) : Prop := {
  es_level : T !! gp = Some lp;
  es_table : exists tp tp', tables m !! gp = Some tp /\ arr_set tp j v' = Some tp' /\ tables m' !! gp = Some tp';
  es_ok : table_ok ctx m' gp lp;
  es_frame : forall g l, T !! g = Some l -> g <> gp ->
    tables m' !! g = tables m !! g /\ descs m' !! g = descs m !! g
}.

(** Pointers after the update: the old ones except those of entry [j], or what
    [v'] points to. *)
Lemma entry_set_points ctx m m' T gp lp j v' g i c :
  entry_set ctx m m' T gp lp j v' -> points ctx m' T g i c ->
  (points ctx m T g i c /\ (g, i) <> (gp, j)) \/
  (g = gp /\ i = j /\ entry_is_table v' = true /\
   exists pa, table_entry_to_phys ctx v' = Some pa /\ tr_addr_to_granule pa = Some c).
Proof.
  intros [Hgp (tp & tp' & Htp & Hset & Htp') _ Hfr] (l & tbl & e & pa & Hg & Hl & Ht & He & Hent & Hpa & Hc).
  destruct (decide (g = gp)) as [->|Hne].
  - rewrite Htp' in Ht. injection Ht as <-. rewrite (arr_get_set _ _ _ _ i Hset) in He.
    destruct (Z.eqb_spec i j) as [->|Hij].
    + injection He as <-. right. split_and!; try done. by exists pa.
    + left. split; [|congruence]. exists l, tp, e, pa. split_and!; done.
  - left. split; [|congruence]. destruct (Hfr g l Hg Hne) as [Htg _]. rewrite Htg in Ht.
    exists l, tbl, e, pa. split_and!; done.
Qed.

(** Pointers of other entries survive the update. *)
Lemma entry_set_keeps ctx m m' T T' gp lp j v' g i c :
  entry_set ctx m m' T gp lp j v' -> points ctx m T g i c -> (g, i) <> (gp, j) ->
  T' !! g = T !! g -> points ctx m' T' g i c.
Proof.
  intros [Hgp (tp & tp' & Htp & Hset & Htp') _ Hfr] (l & tbl & e & pa & Hg & Hl & Ht & He & Hrest) Hne HT'.
  destruct (decide (g = gp)) as [->|Hgne].
  - rewrite Htp in Ht. injection Ht as <-. exists l, tp', e, pa. rewrite HT'. split_and!; try done; try tauto.
    rewrite (arr_get_set _ _ _ _ i Hset), (proj2 (Z.eqb_neq i j)); [done|congruence].
  - exists l, tbl, e, pa. rewrite HT'. destruct (Hfr g l Hg Hgne) as [Htg _]. rewrite Htg. tauto.
Qed.

(** Entry [j] of [gp], which is no table entry, becomes [v'], which is none. *)
Lemma rtt_inv_set ctx m m' T gp lp j v' :
  rtt_inv ctx m T -> entry_set ctx m m' T gp lp j v' ->
  (forall c, ~ points ctx m T gp j c) -> (lp < S2TT_PAGE_LEVEL -> entry_is_table v' = false) ->
  rtt_inv ctx m' T.
Proof.
  intros [Hlv Htb Hnx Huq Hch Hrt Hnm Hpar] Hes Hleaf Hent.
  pose proof Hes as [Hgp (tp & tp' & Htp & Hset & Htp') Hok Hfr].
  assert (Hpts : forall g i c, points ctx m' T g i c -> points ctx m T g i c /\ (g, i) <> (gp, j)).
  { intros g i c Hp. destruct (entry_set_points ctx m m' T gp lp j v' g i c Hes Hp) as [?|(-> & -> & Ht & _)]; [done|].
    destruct Hp as (l & _ & _ & _ & Hg & Hl & _). assert (l = lp) as -> by congruence. by rewrite Hent in Ht. }
  split; try done.
  - intros g l Hg. destruct (decide (g = gp)) as [->|Hne]; [by assert (l = lp) as -> by congruence|].
    destruct (Hfr g l Hg Hne). eapply table_ok_frame; eauto.
  - intros g l tbl i e Hg Ht Hl He Hte. destruct (decide (g = gp)) as [->|Hne].
    + rewrite Htp' in Ht. injection Ht as <-. rewrite (arr_get_set _ _ _ _ i Hset) in He.
      destruct (Z.eqb_spec i j) as [->|]; [|by eapply Hnx].
      injection He as <-. assert (l = lp) as -> by congruence. by rewrite Hent in Hte.
    + destruct (Hfr g l Hg Hne) as [Htg _]. rewrite Htg in Ht. by eapply Hnx.
  - intros g1 j1 g2 j2 c [H1 _]%Hpts [H2 _]%Hpts. eauto.
  - intros g i c [Hp _]%Hpts. eauto.
  - intros g l Hg. destruct (Hpar g l Hg) as [|(g' & i & Hp)]; [by left|right]. exists g', i.
    eapply entry_set_keeps; [exact Hes|exact Hp| |done]. intros [= -> ->]. by eapply Hleaf.
Qed.

(** A new child [gc] for entry [j] of [gp]. *)
Lemma rtt_inv_add ctx lpa2 m m' T gp lp j v' gc pa tc k :
  s2tt_lpa2_enabled ctx = Some lpa2 -> (if lpa2 then -1 else 0) <= s2_starting_level ctx ->
  rtt_inv ctx m T -> entry_set ctx m m' T gp lp j v' -> T !! gc = None -> lp < 3 ->
  (forall c, ~ points ctx m T gp j c) -> built ctx lp K_table pa v' -> tr_addr_to_granule pa = Some gc ->
  tables m' !! gc = Some tc -> length tc = N_S2TTES -> k <> K_table ->
  (forall i e, arr_get tc i = Some e -> exists pa', built ctx (lp + 1) k pa' e) ->
  granule_at m' gc (AGranule false GRANULE_STATE_RTT (table_refs ctx (lp + 1) tc)) ->
  rtt_inv ctx m' (<[gc := lp + 1]> T).
Proof.
  intros Hl Hst [Hlv Htb Hnx Huq Hch Hrt Hnm Hpar] Hes Hgc Hlp Hleaf Hv' Hpa Htc Hlen Hk Htb' Hgr.
  pose proof Hes as [Hgp (tp & tp' & Htp & Hset & Htp') Hok Hfr].
  pose proof (Hlv gp lp Hgp). assert (Hlp1 : -1 <= lp < 3) by (destruct lpa2; lia).
  destruct (built_table_entry ctx lpa2 lp K_table pa v' Hl Hlp1 Hv') as [Hent Hphys].
  specialize (Hphys eq_refl). rewrite bool_decide_true in Hent by done.
  assert (Hne : gc <> gp) by congruence.
  (* entries of the child are no table entries *)
  assert (Hno : forall i e, lp + 1 < 3 -> arr_get tc i = Some e -> entry_is_table e = false).
  { intros i e Hlt He. destruct (Htb' i e He) as [pa' Hb].
    destruct (built_table_entry ctx lpa2 (lp + 1) k pa' e Hl ltac:(lia) Hb) as [-> _].
    by rewrite bool_decide_false. }
  assert (Hpts : forall g i c, points ctx m' (<[gc := lp + 1]> T) g i c ->
    (points ctx m T g i c /\ (g, i) <> (gp, j)) \/ (g = gp /\ i = j /\ c = gc)).
  { intros g i c Hp. destruct (decide (g = gc)) as [->|Hgne].
    - destruct Hp as (l & tbl & e & pa1 & Hg & Hll & Ht & He & Hente & _).
      rewrite lookup_insert_eq in Hg. injection Hg as <-. rewrite Htc in Ht. injection Ht as <-.
      unfold S2TT_PAGE_LEVEL in Hll. by rewrite (Hno i e Hll He) in Hente.
    - assert (Hp' : points ctx m' T g i c).
      { destruct Hp as (l & tbl & e & pa1 & Hg & Hrest). rewrite lookup_insert_ne in Hg by done.
        exists l, tbl, e, pa1. by split. }
      destruct (entry_set_points ctx m m' T gp lp j v' g i c Hes Hp') as [?|(-> & -> & _ & pa1 & Hpa1 & Hc)]; [by left|].
      right. split_and!; congruence. }
  split.
  - intros g l Hg. apply lookup_insert_Some in Hg as [[<- <-]|[_ Hg]]; [lia|eauto].
  - intros g l Hg. apply lookup_insert_Some in Hg as [[<- <-]|[Hgne Hg]].
    + exists tc. split_and!; try done. intros i e He. right. destruct (Htb' i e He). eauto.
    + destruct (decide (g = gp)) as [->|Hgp']; [by assert (l = lp) as -> by congruence|].
      destruct (Hfr g l Hg Hgp'). eapply table_ok_frame; eauto.
  - intros g l tbl i e Hg Ht Hll He Hente. apply lookup_insert_Some in Hg as [[<- <-]|[Hgne Hg]].
    { rewrite Htc in Ht. injection Ht as <-. unfold S2TT_PAGE_LEVEL in Hll. by rewrite (Hno i e Hll He) in Hente. }
    assert (Hold : forall tbl0, tables m !! g = Some tbl0 -> arr_get tbl0 i = Some e ->
      exists pa c, table_entry_to_phys ctx e = Some pa /\ tr_addr_to_granule pa = Some c /\
        <[gc := lp + 1]> T !! c = Some (l + 1)).
    { intros tbl0 Ht0 He0. destruct (Hnx g l tbl0 i e Hg Ht0 Hll He0 Hente) as (pa1 & c & H1 & H2 & H3).
      exists pa1, c. split_and!; try done. rewrite lookup_insert_ne; congruence. }
    destruct (decide (g = gp)) as [->|Hgp'].
    + rewrite Htp' in Ht. injection Ht as <-. rewrite (arr_get_set _ _ _ _ i Hset) in He.
      destruct (Z.eqb_spec i j) as [->|]; [|by eapply Hold].
      injection He as <-. exists pa, gc. assert (l = lp) as -> by congruence.
      split_and!; try done. by rewrite lookup_insert_eq.
    + destruct (Hfr g l Hg Hgp') as [Htg _]. rewrite Htg in Ht. by eapply Hold.
  - assert (Hold : forall g i, points ctx m T g i gc -> False).
    { intros g i (l & tbl & e & pa1 & Hg & Hll & Ht & He & Hente & Hpa1 & Hc).
      destruct (Hnx g l tbl i e Hg Ht Hll He Hente) as (pa2 & c2 & H1 & H2 & H3). congruence. }
    intros g1 j1 g2 j2 c H1%Hpts H2%Hpts.
    destruct H1 as [[H1 _]|(-> & -> & ->)], H2 as [[H2 _]|(-> & -> & Hc)]; [eauto| | |done].
    + subst c. by destruct (Hold g1 j1).
    + by destruct (Hold g2 j2).
  - intros g i c [[Hp _]|(-> & -> & ->)]%Hpts; [eauto|].
    intros (ra & n & Hra & Hn & Hrg). destruct Hrt as (ra' & Hra' & _ & _ & Hroots).
    pose proof (granule_names_inverse _ _ Hra). pose proof (granule_names_inverse _ _ Hra').
    assert (ra' = ra) as -> by congruence. destruct (Hroots n Hn) as (g & Hg & HT). congruence.
  - destruct Hrt as (ra & Hra & Hrr & Hr0 & Hroots). exists ra. split_and!; try done; try lia.
    + rewrite lookup_insert_ne; [done|]. congruence.
    + intros n Hn. destruct (Hroots n Hn) as (g & Hg & HT). exists g. split; [done|].
      rewrite lookup_insert_ne; [done|]. congruence.
  - intros g l Hg. apply lookup_insert_Some in Hg as [[<- <-]|[_ Hg]]; eauto.
  - intros g l Hg. apply lookup_insert_Some in Hg as [[<- <-]|[_ Hg]].
    + right. exists gp, j, lp, tp', v', pa. rewrite lookup_insert_ne by done. unfold S2TT_PAGE_LEVEL. split_and!; try done.
      by rewrite (arr_get_set _ _ _ _ j Hset), Z.eqb_refl.
    + destruct (Hpar g l Hg) as [|(g' & i & Hp)]; [by left|right]. exists g', i.
      assert (g' <> gc) by (destruct Hp as (l' & _ & _ & _ & Hg' & _); congruence).
      eapply entry_set_keeps; [exact Hes|exact Hp| |by rewrite lookup_insert_ne].
      intros [= -> ->]. by eapply Hleaf.
Qed.

(** Entry [j] of [gp], a table entry for [gc], becomes [v'], which is none. *)
Lemma rtt_inv_remove ctx lpa2 m m' T gp lp j v' gc k pa :
  s2tt_lpa2_enabled ctx = Some lpa2 -> (if lpa2 then -1 else 0) <= s2_starting_level ctx ->
  rtt_inv ctx m T -> entry_set ctx m m' (delete gc T) gp lp j v' -> points ctx m T gp j gc -> lp < 3 ->
  (forall i c, ~ points ctx m T gc i c) ->
  built ctx lp k pa v' -> k <> K_table ->
  rtt_inv ctx m' (delete gc T).
Proof.
  intros Hl Hst [Hlv Htb Hnx Huq Hch Hrt Hnm Hpar] Hes Hpt Hlp Hless Hv' Hk.
  pose proof Hes as [Hgp (tp & tp' & Htp & Hset & Htp') Hok Hfr].
  apply lookup_delete_Some in Hgp as [Hne Hgp].
  pose proof (Hlv gp lp Hgp). assert (Hlp1 : -1 <= lp < 3) by (destruct lpa2; lia).
  destruct (built_table_entry ctx lpa2 lp k pa v' Hl Hlp1 Hv') as [Hent _].
  rewrite bool_decide_false in Hent by done.
  assert (Hpts : forall g i c, points ctx m' (delete gc T) g i c ->
    points ctx m T g i c /\ (g, i) <> (gp, j)).
  { intros g i c Hp.
    destruct (entry_set_points ctx m m' _ gp lp j v' g i c Hes Hp) as [[Hp' Hn]|(_ & _ & ? & _)]; [|congruence].
    split; [|done]. destruct Hp' as (l & tbl & e & pa1 & Hg & Hrest). apply lookup_delete_Some in Hg as [_ Hg].
    exists l, tbl, e, pa1. by split. }
  split.
  - intros g l [_ Hg]%lookup_delete_Some. eauto.
  - intros g l Hg. destruct (decide (g = gp)) as [->|Hgne].
    + apply lookup_delete_Some in Hg as [_ Hg]. by assert (l = lp) as -> by congruence.
    + destruct (Hfr g l Hg Hgne). apply lookup_delete_Some in Hg as [_ Hg]. eapply table_ok_frame; eauto.
  - intros g l tbl i e Hg Ht Hll He Hente. pose proof Hg as [Hgc HgT]%lookup_delete_Some.
    assert (Hold : forall tbl0, tables m !! g = Some tbl0 -> arr_get tbl0 i = Some e -> (g, i) <> (gp, j) ->
      exists pa c, table_entry_to_phys ctx e = Some pa /\ tr_addr_to_granule pa = Some c /\
        delete gc T !! c = Some (l + 1)).
    { intros tbl0 Ht0 He0 Hn. destruct (Hnx g l tbl0 i e HgT Ht0 Hll He0 Hente) as (pa1 & c & H1 & H2 & H3).
      exists pa1, c. split_and!; try done. apply lookup_delete_Some. split; [|done]. intros <-.
      apply Hn. destruct (Huq g i gp j gc) as [-> ->]; try done. by exists l, tbl0, e, pa1. }
    destruct (decide (g = gp)) as [->|Hgne].
    + rewrite Htp' in Ht. injection Ht as <-. rewrite (arr_get_set _ _ _ _ i Hset) in He.
      destruct (Z.eqb_spec i j) as [->|Hij]; [congruence|]. eapply Hold; eauto. congruence.
    + destruct (Hfr g l Hg Hgne) as [Htg _]. rewrite Htg in Ht. eapply Hold; eauto. congruence.
  - intros g1 j1 g2 j2 c [H1 _]%Hpts [H2 _]%Hpts. eauto.
  - intros g i c [Hp _]%Hpts. eauto.
  - pose proof (Hch gp j gc Hpt) as Hnr.
    destruct Hrt as (ra & Hra & Hrr & Hr0 & Hroots). exists ra.
    assert (Hkeep : forall n g, 0 <= n < num_root_rtts ctx -> tr_addr_to_granule (ra + n * GRANULE_SIZE) = Some g ->
      T !! g = Some (s2_starting_level ctx) -> delete gc T !! g = Some (s2_starting_level ctx)).
    { intros n g Hn Hg HT. apply lookup_delete_Some. split; [|done]. intros <-. apply Hnr. by exists ra, n. }
    split_and!; try done; try lia.
    + destruct (decide (gc = g_rtt ctx)) as [->|]; [|by rewrite lookup_delete_ne].
      exfalso. destruct Hpt as (l & tbl & e & pa1 & Hg & Hll & Ht & He & Hente & Hpa1 & Hc).
      destruct (Hnx gp l tbl j e Hg Ht Hll He Hente) as (pa2 & c2 & H1 & H2 & H3).
      assert (c2 = g_rtt ctx) as -> by congruence. assert (l = lp) as -> by congruence.
      rewrite Hr0 in H3. injection H3 as H3. lia.
    + intros n Hn. destruct (Hroots n Hn) as (g & Hg & HT). exists g. split; [done|]. by eapply Hkeep.
  - intros g l [_ Hg]%lookup_delete_Some. eauto.
  - intros g l [Hgc Hg]%lookup_delete_Some. destruct (Hpar g l Hg) as [|(g' & i & Hp)]; [by left|right]. exists g', i.
    assert (Hg' : g' <> gc) by (intros ->; by eapply Hless).
    assert (Hp' : points ctx m (delete gc T) g' i g).
    { destruct Hp as (l' & tbl & e & pa1 & H1 & H2). exists l', tbl, e, pa1. split; [|exact H2]. by rewrite lookup_delete_ne. }
    eapply entry_set_keeps; [exact Hes|exact Hp'| |done].
    intros [= -> ->]. apply Hgc. destruct Hp as (l1 & t1 & e1 & p1 & _ & _ & A1 & A2 & _ & A3 & A4).
    destruct Hpt as (l2 & t2 & e2 & p2 & _ & _ & B1 & B2 & _ & B3 & B4). congruence.
Qed.

End Tree.
