(* ===== verification/Rmm.v ===== *)
(** * The state the commands work on

    Memory, the realm descriptors held in RD granules, VTTBR_EL2, and the log of
    what hardware observes in order: writes of table entries, TLB maintenance and
    SMMU invalidations, memory given back, and what is added to a realm's initial
    measurement.  Commands are state passing and may fail: [None] is a
    failed assertion, a panic, an access out of bounds or a PE waiting for a lock
    it holds itself.  [runs] is total correctness of such code, proved one
    statement at a time. *)

From Stdlib Require Import ZArith Lia Bool ZifyBool.
From stdpp Require Import base tactics option list numbers gmap.
From S2P Require Import Prelude.
From S2P Require Import Utils.
From S2P Require Import Granule.
From S2P Require Import Mem.
From S2P Require Import Arch.
From S2P Require Import S2tte.
From S2P Require Import S2tlbi.
From S2P Require Import S2ttTable.
From S2P Require Import Realm.

Inductive event :=
  | E_write (g idx v : Z)                               (* s2tte_write *)
  | E_tlbi (ops : list tlbi_op)                         (* stage 2 TLB maintenance *)
  | E_smmu (vmids : list Z) (addr level num : Z) (leaf : bool)
  | E_measure_data (g_rd ipa flags : Z) (data : list Z) (* measurement_data_granule_measure *)
  | E_measure_ripas (g_rd base top : Z)                 (* measurement_init_ripas_measure *)
  | E_cmd_sync                                          (* CMD_SYNC found complete *)
  | E_clean (pa : Z)                                    (* cache maintenance of a page *)
  | E_delegated (g : Z)                                 (* a granule becomes DELEGATED *)
  | E_dev_delegated (g : Z).

Record rmm := Rmm {
  r_mem : mem;
  r_rds : gmap Z rd;
  r_vttbr : Z;
  r_log : list event
}.

(** Code of a command. *)
Definition H : Type -> Type := ST rmm.

(** The SMMU driver: the status of an invalidation. *)
Class SmmuDriver := {
  smmuv3_inv_at_level_per_vmids : list Z -> Z -> Z -> Z -> bool -> Z
}.

Definition with_mem (w : rmm) (m : mem) : rmm := Rmm m (r_rds w) (r_vttbr w) (r_log w).
Definition with_log (w : rmm) (evs : list event) : rmm := Rmm (r_mem w) (r_rds w) (r_vttbr w) (r_log w ++ evs).

Definition on_mem {A} (c : M A) : H A := fun w =>
  match c (r_mem w) with Some (x, m) => Some (x, with_mem w m) | None => None end.
Definition get {A} (f : rmm -> option A) : H A := fun w => x ← f w; Some (x, w).
Definition emit (e : event) : H unit := fun w => Some (tt, with_log w [e]).

(** [buffer_granule_map] of an RD granule, and of a granule used as a table;
    unmapping has no effect on this state. *)
Definition map_rd (g : Z) : H rd := get (fun w => r_rds w !! g).
Definition map_table (g : Z) : H (list Z) := get (fun w => tables (r_mem w) !! g).

(** A store to the mapped RD. *)
Definition store_rd (g : Z) (r : rd) : H unit := fun w =>
  Some (tt, Rmm (r_mem w) (<[g := r]> (r_rds w)) (r_vttbr w) (r_log w)).

(** Store a whole granule before it becomes a table. *)
Definition fill_table (g : Z) (t : list Z) : H unit := fun w =>
  Some (tt, with_mem w (Mem (descs (r_mem w)) (<[g := t]> (tables (r_mem w))))).

(** [s2tte_write(&table[idx], v)]. *)
Definition s2tte_write (g idx v : Z) : H unit := fun w =>
  t ← tables (r_mem w) !! g;
  t' ← arr_set t idx v;
  Some (tt, with_log (with_mem w (Mem (descs (r_mem w)) (<[g := t']> (tables (r_mem w))))) [E_write g idx v]).

Definition h_granule_lock (g state : Z) : H unit := on_mem (m_granule_lock g state).
Definition h_granule_unlock (g : Z) : H unit := on_mem (m_granule_unlock g).
Definition h_on_desc (g : Z) (f : Z -> option Z) : H unit := on_mem (on_desc g f).
Definition h_desc {A} (g : Z) (f : Z -> option A) : H A := get (fun w => descs (r_mem w) !! g ≫= f).

(** A conversion of [unsigned long] to [long]. *)
Definition to_long (x : Z) : Z := if x <? 2 ^ 63 then x else x - 2 ^ 64.

(** ** Total correctness *)

Definition runs {S A} (c : ST S A) (s : S) (Q : A -> S -> Prop) : Prop :=
  exists x s', c s = Some (x, s') /\ Q x s'.

Lemma runs_ret {S A} (x : A) (s : S) (Q : A -> S -> Prop) : Q x s -> runs (ret x) s Q.
Proof. intros HQ. by exists x, s. Qed.

Lemma runs_bind {S A B} (c : ST S A) (k : A -> ST S B) (s : S) Q :
  runs c s (fun x s' => runs (k x) s' Q) -> runs (bind c k) s Q.
Proof. intros (x & s' & Hc & y & s2 & Hk & HQ). exists y, s2. unfold bind. by rewrite Hc. Qed.

Lemma runs_mono {S A} (c : ST S A) (s : S) (P Q : A -> S -> Prop) :
  runs c s P -> (forall x s', P x s' -> Q x s') -> runs c s Q.
Proof. intros (x & s' & Hc & HP) HPQ. exists x, s'. auto. Qed.

Lemma runs_lift {S A} (o : option A) (x : A) (s : S) (Q : A -> S -> Prop) : o = Some x -> Q x s -> runs (lift o) s Q.
Proof. intros -> HQ. by exists x, s. Qed.

Lemma runs_guard {S} b (s : S) (Q : unit -> S -> Prop) : b = true -> Q tt s -> runs (guard b) s Q.
Proof. intros -> HQ. by exists tt, s. Qed.

Lemma runs_get {A} (f : rmm -> option A) x w (Q : A -> rmm -> Prop) : f w = Some x -> Q x w -> runs (get f) w Q.
Proof. intros Hf HQ. exists x, w. unfold get. by rewrite Hf. Qed.

Lemma runs_on_mem {A} (c : M A) x m w (Q : A -> rmm -> Prop) :
  c (r_mem w) = Some (x, m) -> Q x (with_mem w m) -> runs (on_mem c) w Q.
Proof. intros Hc HQ. exists x, (with_mem w m). unfold on_mem. by rewrite Hc. Qed.

Lemma runs_emit e w (Q : unit -> rmm -> Prop) : Q tt (with_log w [e]) -> runs (emit e) w Q.
Proof. intros HQ. by exists tt, (with_log w [e]). Qed.

Lemma with_mem_mem w m m' : with_mem (with_mem w m) m' = with_mem w m'.
Proof. done. Qed.
Lemma with_mem_id w : with_mem w (r_mem w) = w.
Proof. by destruct w. Qed.
Lemma r_mem_with_mem w m : r_mem (with_mem w m) = m.
Proof. done. Qed.
