(* ===== verification/SroPool.v ===== *)
(** * The pool of stateful operations

    [lib/sro_context] refines a list of slots: a slot is free, holds a sealed
    operation, or holds one that a PE works on.  Reserving, finding, sealing and
    releasing a context are the transitions of a slot; no two PEs ever work on the
    same operation. *)

From Stdlib Require Import ZArith Lia Bool ZifyBool.
From stdpp Require Import base tactics option list numbers.
From S2P Require Import Prelude.
From S2P Require Import Utils.
From S2P Require Import Status.
From S2P Require Import Smc.
From S2P Require Import Granule.
From S2P Require Import Mem.
From S2P Require Import AddrList.
From S2P Require Import Sro.
From S2P Require Import Rmm.

(** The spinlock makes each operation atomic; handles are 32-bit, and the stage 2
    descriptors keep 16 bits of them. *)
Definition MAX_HANDLES : Z := 2 ^ 16.

Section Pool.
Context {C : Type} `{payloads : SroPayload C}.
Implicit Types (c : sro_context C) (l : sro_lib C).

(** ** The abstract pool *)

Inductive slot := Slot_free | Slot_sealed (x : sro_context C) | Slot_held (pe : Z) (x : sro_context C).
Implicit Types (sl : list slot) (s : slot).

Definition slot_is_free s : bool := match s with Slot_free => true | _ => false end.
Definition slot_is_sealed s : bool := match s with Slot_sealed _ => true | _ => false end.
Definition put_slot sl (i : Z) s : list slot := <[Z.to_nat i := s]> sl.

(** The first free slot becomes the PE's. *)
Definition slot_reserve (pe : Z) (x : sro_context C) sl : Z * list slot :=
  match list_find (fun s => slot_is_free s = true) sl with
  | Some (i, _) => (RMI_SUCCESS, <[i := Slot_held pe x]> sl)
  | None => (if forallb slot_is_sealed sl then RMI_BLOCKED else RMI_BUSY, sl)
  end.
(** A sealed operation is taken up by its handle. *)
Definition slot_find (pe handle : Z) sl : bool * list slot :=
  match arr_get sl handle with
  | Some (Slot_sealed x) => (true, put_slot sl handle (Slot_held pe x))
  | _ => (false, sl)
  end.

Definition holding sl (pe i : Z) (x : sro_context C) : Prop := arr_get sl i = Some (Slot_held pe x).
Definition idle sl (pe : Z) : Prop := forall i x, ~ holding sl pe i x.

(** ** The relation *)

Definition slot_at (refs : list sro_cpu_ctx_ref) (i : Z) s c : Prop :=
  match s with
  | Slot_free => state c = SRO_STATE_FREE
  | Slot_sealed x => c = set_sro_state SRO_STATE_SEALED x
  | Slot_held pe x => c = set_sro_state SRO_STATE_RESERVED x /\ arr_get refs pe = Some (CpuRef (Some i) i)
  end.

Record pool_is l sl : Prop := {
  pi_live : exists cs, pool l = Some (Pool true cs) /\ length cs = length sl /\
    forall i s, arr_get sl i = Some s -> exists c, arr_get cs i = Some c /\ slot_at (cpu_sro_ctx l) i s c;
  pi_ref : forall pe r i, arr_get (cpu_sro_ctx l) pe = Some r -> ref_ctx r = Some i -> exists x, holding sl pe i x;
  pi_small : Z.of_nat (length sl) <= MAX_HANDLES
}.

Definition pe_ok l (pe : Z) : Prop := 0 <= pe < Z.of_nat (length (cpu_sro_ctx l)).

Lemma get_put sl i s j : 0 <= i < Z.of_nat (length sl) -> arr_get (put_slot sl i s) j = if j =? i then Some s else arr_get sl j.
Proof. intros Hi. apply (arr_get_set sl). by apply arr_set_some. Qed.

Lemma put_length sl i s : length (put_slot sl i s) = length sl.
Proof. apply length_insert. Qed.

Lemma u32_handle i : 0 <= i < MAX_HANDLES -> u32 i = i.
Proof. intros H. unfold u32. apply Z.mod_small. unfold MAX_HANDLES in H. lia. Qed.

Lemma handle_range l sl i s : pool_is l sl -> arr_get sl i = Some s -> 0 <= i < MAX_HANDLES.
Proof. intros [_ _ Hs] Hi. apply arr_get_lt in Hi. lia. Qed.

Lemma idle_ref l sl pe : pool_is l sl -> pe_ok l pe -> idle sl pe ->
  exists h, arr_get (cpu_sro_ctx l) pe = Some (CpuRef None h).
Proof.
  intros [_ Hr _] Hp Hi. destruct (arr_get_some _ _ Hp) as [[[i|] h] Hg]; [|by exists h].
  destruct (Hr pe _ i Hg eq_refl) as [x Hx]. by destruct (Hi i x).
Qed.

Lemma held_ref l sl pe i x : pool_is l sl -> holding sl pe i x ->
  arr_get (cpu_sro_ctx l) pe = Some (CpuRef (Some i) i) /\
  exists cs, pool l = Some (Pool true cs) /\ arr_get cs i = Some (set_sro_state SRO_STATE_RESERVED x).
Proof.
  intros [(cs & Hp & _ & Hs) _ _] Hh. destruct (Hs i _ Hh) as (c & Hc & [-> Hr]). split; [done|]. by exists cs.
Qed.

(** No two PEs work on one operation, and no PE on two. *)
Lemma holding_unique l sl pe i x j y : pool_is l sl -> holding sl pe i x -> holding sl pe j y -> i = j /\ x = y.
Proof.
  intros Hp H1 H2. destruct (held_ref _ _ _ _ _ Hp H1) as [R1 _], (held_ref _ _ _ _ _ Hp H2) as [R2 _].
  rewrite R1 in R2. injection R2 as ->. unfold holding in *. rewrite H1 in H2. by injection H2.
Qed.

Lemma set_state_state v v' c : set_sro_state v (set_sro_state v' c) = set_sro_state v c.
Proof. by destruct c. Qed.

(** Changing one slot and the reference of the PE that changes it. *)
Lemma pool_put l sl pe i s c' cs cs' r refs :
  pool_is l sl -> pool l = Some (Pool true cs) -> arr_set cs i c' = Some cs' -> arr_set (cpu_sro_ctx l) pe r = Some refs ->
  slot_at refs i s c' ->
  (forall x, s = Slot_held pe x -> r = CpuRef (Some i) i) -> (forall pe' x, s = Slot_held pe' x -> pe' = pe) ->
  (forall j, ref_ctx r = Some j -> exists x, j = i /\ s = Slot_held pe x) ->
  (forall j x, holding sl pe j x -> j = i) -> (forall pe' x, holding sl pe' i x -> pe' = pe) ->
  pool_is (SroLib (Some (Pool true cs')) refs) (put_slot sl i s).
Proof.
  intros [(cs0 & Hp & Hlen & Hsl) Hrf Hsm] Hp0 Hcs Hrefs Hat Hs1 Hs2 Hr Hone Hone'. assert (cs0 = cs) as -> by congruence.
  assert (Hi : 0 <= i < Z.of_nat (length sl)).
  { rewrite <- Hlen. unfold arr_set in Hcs. destruct (_ && _) eqn:E; [|done]. lia. }
  split.
  - exists cs'. cbn. split_and!; [done|by rewrite put_length, (arr_set_length _ _ _ _ Hcs)|]. intros j t. rewrite get_put by done.
    rewrite (arr_get_set _ _ _ _ j Hcs). destruct (Z.eqb_spec j i) as [->|Hne]; [intros [= <-]; by exists c'|]. intros Hj.
    destruct (Hsl j t Hj) as (c & Hc & Ht). exists c. split; [done|]. destruct t as [|x|pe' x]; try done. destruct Ht as [-> Hpe].
    split; [done|]. rewrite (arr_get_set _ _ _ _ pe' Hrefs). destruct (Z.eqb_spec pe' pe) as [->|]; [|done]. by rewrite (Hone j x Hj) in Hne.
  - cbn. intros pe' r' j. rewrite (arr_get_set _ _ _ _ pe' Hrefs). unfold holding. rewrite get_put by done. destruct (Z.eqb_spec pe' pe) as [->|Hne].
    + intros [= <-] Hj. destruct (Hr j Hj) as (x & -> & ->). exists x. by rewrite Z.eqb_refl.
    + intros Hg Hj. destruct (Hrf pe' r' j Hg Hj) as [x Hx]. exists x. destruct (Z.eqb_spec j i) as [->|]; [|done]. by rewrite (Hone' pe' x Hx) in Hne.
  - by rewrite put_length.
Qed.

(** ** The operations *)

Lemma reserve_loop_spec cs sl refs i sealed :
  length cs = length sl -> (forall j s, sl !! j = Some s -> exists c, cs !! j = Some c /\ slot_at refs (i + Z.of_nat j) s c) ->
  0 <= sealed -> sealed + Z.of_nat (length sl) <= MAX_HANDLES ->
  match list_find (fun s => slot_is_free s = true) sl with
  | Some (j, _) => reserve_loop cs i sealed = inl (i + Z.of_nat j)
  | None => exists n, reserve_loop cs i sealed = inr n /\ (n = sealed + Z.of_nat (length cs) <-> forallb slot_is_sealed sl = true) /\
      n <= sealed + Z.of_nat (length cs)
  end.
Proof.
  revert sl i sealed. induction cs as [|c cs IH]; intros [|s sl] i sealed Hlen Hat Hs Hsm; cbn in Hlen; try lia.
  { cbn. exists sealed. split_and!; [done|split; [done|lia]|lia]. }
  destruct (Hat 0%nat s eq_refl) as (c0 & [= <-] & Hc). cbn [list_find reserve_loop]. cbn [length] in Hsm.
  destruct (decide (slot_is_free s = true)) as [Hf|Hf].
  - destruct s; try discriminate Hf. cbn in Hc. unfold sro_state_is. rewrite bool_decide_true by done. f_equal. lia.
  - assert (Hstate : sro_state_is (state c) SRO_STATE_FREE = false /\ sro_state_is (state c) SRO_STATE_SEALED = slot_is_sealed s).
    { destruct s as [|x|pe x]; [done| |]; cbn in Hc; [subst c|destruct Hc as [-> _]]; by destruct x. }
    destruct Hstate as [-> ->]. assert (Hu : u32 (sealed + 1) = sealed + 1) by (unfold u32; apply Z.mod_small; unfold MAX_HANDLES in Hsm; lia).
    rewrite Hu. specialize (IH sl (i + 1) (if slot_is_sealed s then sealed + 1 else sealed) ltac:(lia)).
    assert (Hat' : forall j s0, sl !! j = Some s0 -> exists c0, cs !! j = Some c0 /\ slot_at refs (i + 1 + Z.of_nat j) s0 c0).
    { intros j s0 Hj. destruct (Hat (S j) s0 Hj) as (c0 & Hc0 & Hx). exists c0. split; [done|]. by replace (i + 1 + Z.of_nat j) with (i + Z.of_nat (S j)) by lia. }
    specialize (IH Hat' ltac:(destruct (slot_is_sealed s); lia) ltac:(destruct (slot_is_sealed s); lia)).
    destruct (list_find _ sl) as [[j t]|]; cbn.
    + rewrite IH. f_equal. lia.
    + destruct IH as (n & -> & Hn & Hle). exists n. split; [done|]. destruct (slot_is_sealed s); cbn [andb length].
      * rewrite <- Hn. split; [split; lia|lia].
      * split; [split; [lia|done]|lia].
Qed.

Lemma reserve_ok l sl pe command xfer cancel contig fid (Q : Z -> sro_lib C -> Prop) :
  pool_is l sl -> pe_ok l pe -> idle sl pe ->
  (forall st l' sl', slot_reserve pe (reserved_context command xfer cancel contig fid) sl = (st, sl') -> pool_is l' sl' ->
     length (cpu_sro_ctx l') = length (cpu_sro_ctx l) -> Q st l') ->
  runs (sro_ctx_reserve pe command xfer cancel contig fid) l Q.
Proof.
  intros Hp Hpe Hi HQ. destruct (idle_ref _ _ _ Hp Hpe Hi) as [h Hr]. pose proof Hp as [(cs & Hpl & Hlen & Hsl) _ Hsm].
  unfold runs, sro_ctx_reserve, live_pool. rewrite Hpl, Hr. cbn [mbind option_bind pool_init ctxs ref_ctx].
  pose proof (reserve_loop_spec cs sl (cpu_sro_ctx l) 0 0 Hlen) as Hloop. unfold slot_reserve in HQ.
  assert (Hat : forall j s, sl !! j = Some s -> exists c, cs !! j = Some c /\ slot_at (cpu_sro_ctx l) (0 + Z.of_nat j) s c).
  { intros j s Hj. destruct (Hsl (Z.of_nat j) s) as (c & Hc & Hx).
    - unfold arr_get. by rewrite (proj2 (Z.leb_le _ _)), Nat2Z.id by lia.
    - exists c. split; [|done]. unfold arr_get in Hc. by rewrite (proj2 (Z.leb_le _ _)), Nat2Z.id in Hc by lia. }
  specialize (Hloop Hat ltac:(lia) ltac:(lia)). destruct (list_find _ sl) as [[j t]|] eqn:Ef.
  - rewrite Hloop. apply list_find_Some in Ef as (Hj & Hfree & _). set (i := 0 + Z.of_nat j). pose proof (lookup_lt_Some _ _ _ Hj) as Hjl.
    assert (Hi2 : 0 <= i < Z.of_nat (length cs)) by lia. rewrite (arr_set_some cs i _ Hi2). cbn [mbind option_bind].
    rewrite (arr_set_some (cpu_sro_ctx l) pe) by done. cbn [mbind option_bind]. eexists _, _. split; [done|].
    assert (Hu : u32 i = i) by (apply u32_handle; lia). apply HQ with (sl' := <[j := Slot_held pe (reserved_context command xfer cancel contig fid)]> sl); [done| |].
    + unfold with_ref, with_ctxs. rewrite Hpl. cbn. assert (Hji : j = Z.to_nat i) by (unfold i; lia). rewrite Hji. rewrite Hu.
      eapply (pool_put l sl pe i (Slot_held pe (reserved_context command xfer cancel contig fid))); try done.
      * apply arr_set_some. lia.
      * by apply arr_set_some.
      * split; [done|]. rewrite (arr_get_set (cpu_sro_ctx l) _ pe (CpuRef (Some i) i) pe), Z.eqb_refl; [done|]. by apply arr_set_some.
      * intros pe' x [= -> _]. done.
      * intros k [= <-]. by eexists.
      * intros k x Hk. by destruct (Hi k x).
      * intros pe' x Hk. unfold holding, arr_get in Hk. destruct (0 <=? i); [|done]. rewrite <- Hji, Hj in Hk. injection Hk as ->. done.
    + cbn. apply length_insert.
  - destruct Hloop as (n & -> & Hn & _). eexists _, l. split; [done|]. apply HQ with (sl' := sl); [|done|done]. f_equal.
    rewrite Z.add_0_l in Hn. destruct (Z.eqb_spec n (Z.of_nat (length cs))) as [E|E]; [by rewrite (proj1 Hn E)|].
    destruct (forallb slot_is_sealed sl); [|done]. by destruct E; apply Hn.
Qed.

Lemma find_ok l sl pe handle (Q : bool -> sro_lib C -> Prop) :
  pool_is l sl -> pe_ok l pe -> idle sl pe -> 0 <= handle ->
  (forall b l' sl', slot_find pe handle sl = (b, sl') -> pool_is l' sl' -> length (cpu_sro_ctx l') = length (cpu_sro_ctx l) -> Q b l') ->
  runs (sro_ctx_find pe handle) l Q.
Proof.
  intros Hp Hpe Hi Hh HQ. pose proof Hp as [(cs & Hpl & Hlen & Hsl) _ Hsm]. unfold runs, sro_ctx_find, live_pool. rewrite Hpl. cbn [mbind option_bind pool_init ctxs].
  unfold slot_find in HQ. destruct (Z.leb_spec (Z.of_nat (length cs)) handle) as [Hbig|Hlt].
  { destruct (arr_get sl handle) as [s|] eqn:Es; [apply arr_get_lt in Es; lia|]. eexists _, l. split; [done|]. by eapply HQ. }
  destruct (arr_get_some sl handle) as [s Es]; [lia|]. rewrite Es in HQ. destruct (Hsl _ _ Es) as (c & Hc & Hat). rewrite Hc. cbn [mbind option_bind].
  destruct s as [|x|pe' x]; cbn in Hat.
  - rewrite Hat. cbn. eexists _, l. split; [done|]. by eapply HQ.
  - subst c. cbn. rewrite (arr_set_some cs) by lia. cbn [mbind option_bind]. rewrite (arr_set_some (cpu_sro_ctx l)) by done. cbn [mbind option_bind].
    eexists _, _. split; [done|]. eapply HQ; [done| |cbn; apply length_insert]. unfold with_ref, with_ctxs. rewrite Hpl. cbn.
    rewrite u32_handle by lia. eapply (pool_put l sl pe handle (Slot_held pe x)); try done.
    + apply arr_set_some. lia.
    + by apply arr_set_some.
    + split; [by rewrite set_state_state|]. rewrite (arr_get_set (cpu_sro_ctx l) _ pe (CpuRef (Some handle) handle) pe), Z.eqb_refl; [done|]. by apply arr_set_some.
    + intros pe' y [= -> _]. done.
    + intros k [= <-]. by eexists.
    + intros k y Hk. by destruct (Hi k y).
    + intros pe' y Hk. unfold holding in Hk. congruence.
  - destruct Hat as [-> _]. cbn. eexists _, l. split; [done|]. by eapply HQ.
Qed.

Section Held.
Context (l : sro_lib C) (sl : list slot) (pe i : Z) (x : sro_context C).
Hypothesis Hp : pool_is l sl.
Hypothesis Hh : holding sl pe i x.

(** The four ways a PE ends or inspects its work, as updates of its slot. *)
Lemma release_slot s c' :
  slot_is_free s = true \/ slot_is_sealed s = true -> slot_at [] i s c' ->
  exists cs cs' refs, pool l = Some (Pool true cs) /\ arr_get cs i = Some (set_sro_state SRO_STATE_RESERVED x) /\
    arr_set cs i c' = Some cs' /\ arr_set (cpu_sro_ctx l) pe (CpuRef None i) = Some refs /\
    pool_is (SroLib (Some (Pool true cs')) refs) (put_slot sl i s) /\ length refs = length (cpu_sro_ctx l).
Proof.
  intros Hs Hat. destruct (held_ref _ _ _ _ _ Hp Hh) as (Hr & cs & Hpl & Hc).
  pose proof (arr_get_lt _ _ _ Hr) as Hpe. pose proof (arr_get_lt _ _ _ Hc) as Hci.
  exists cs, (<[Z.to_nat i := c']> cs), (<[Z.to_nat pe := CpuRef None i]> (cpu_sro_ctx l)).
  pose proof (arr_set_some cs i c' Hci) as H1. pose proof (arr_set_some (cpu_sro_ctx l) pe (CpuRef None i) Hpe) as H2.
  split_and!; try done; [|apply length_insert]. eapply (pool_put l sl pe i s c'); try done.
  - destruct s as [|y|pe' y]; try done. by destruct Hs.
  - intros y ->. by destruct Hs.
  - intros pe' y ->. by destruct Hs.
  - intros j y Hj. by destruct (holding_unique _ _ _ _ _ _ _ Hp Hj Hh).
  - intros pe' y Hj. unfold holding in *. rewrite Hh in Hj. by injection Hj.
Qed.

Lemma seal_ok (Q : Z -> sro_lib C -> Prop) :
  (forall l', pool_is l' (put_slot sl i (Slot_sealed x)) -> length (cpu_sro_ctx l') = length (cpu_sro_ctx l) -> Q i l') ->
  runs (sro_ctx_seal pe) l Q.
Proof.
  intros HQ. destruct (held_ref _ _ _ _ _ Hp Hh) as (Hr & _). destruct (release_slot (Slot_sealed x) (set_sro_state SRO_STATE_SEALED x)) as (cs & cs' & refs & Hpl & Hc & Hcs & Hrefs & Hp' & Hlen);
    [by right|done|]. unfold runs, sro_ctx_seal, live_pool. rewrite Hpl, Hr. cbn [mbind option_bind pool_init ctxs ref_ctx op_handler]. rewrite Hc. cbn [mbind option_bind].
  change (sro_state_is (state (set_sro_state SRO_STATE_RESERVED x)) SRO_STATE_FREE) with false. cbn [negb]. rewrite set_state_state, Hcs. cbn [mbind option_bind]. rewrite Hrefs.
  cbn [mbind option_bind]. eexists _, _. split; [done|]. unfold with_ref, with_ctxs. rewrite Hpl. cbn. by apply HQ.
Qed.

Lemma release_ok (Q : unit -> sro_lib C -> Prop) :
  (forall l', pool_is l' (put_slot sl i Slot_free) -> length (cpu_sro_ctx l') = length (cpu_sro_ctx l) -> Q tt l') ->
  runs (sro_ctx_release pe) l Q.
Proof.
  intros HQ. destruct (held_ref _ _ _ _ _ Hp Hh) as (Hr & _). destruct (release_slot Slot_free (set_sro_state SRO_STATE_FREE x)) as (cs & cs' & refs & Hpl & Hc & Hcs & Hrefs & Hp' & Hlen);
    [by left|done|]. unfold runs, sro_ctx_release, live_pool. rewrite Hpl, Hr. cbn [mbind option_bind pool_init ctxs ref_ctx op_handler]. rewrite Hc. cbn [mbind option_bind].
  change (sro_state_is (state (set_sro_state SRO_STATE_RESERVED x)) SRO_STATE_RESERVED) with true. cbn iota. rewrite set_state_state, Hcs. cbn [mbind option_bind]. rewrite Hrefs.
  cbn [mbind option_bind]. eexists _, _. split; [done|]. unfold with_ref, with_ctxs. rewrite Hpl. cbn. by apply HQ.
Qed.

Lemma my_sro_ctx_ok (Q : Z -> sro_lib C -> Prop) : Q i l -> runs (my_sro_ctx pe) l Q.
Proof.
  intros HQ. destruct (held_ref _ _ _ _ _ Hp Hh) as (Hr & cs & Hpl & _). unfold runs, my_sro_ctx, live_pool. rewrite Hpl, Hr. cbn. by eexists _, _.
Qed.

Lemma my_handle_ok (Q : Z -> sro_lib C -> Prop) : Q i l -> runs (sro_ctx_my_handle pe) l Q.
Proof.
  intros HQ. destruct (held_ref _ _ _ _ _ Hp Hh) as (Hr & cs & Hpl & _). unfold runs, sro_ctx_my_handle, live_pool. rewrite Hpl, Hr. cbn. by eexists _, _.
Qed.

Lemma load_ok (Q : sro_context C -> sro_lib C -> Prop) : Q (set_sro_state SRO_STATE_RESERVED x) l -> runs (load_sro i) l Q.
Proof.
  intros HQ. destruct (held_ref _ _ _ _ _ Hp Hh) as (_ & cs & Hpl & Hc). unfold runs, load_sro, live_pool. rewrite Hpl. cbn. rewrite Hc. cbn. by eexists _, _.
Qed.

(** A store through the PE's pointer; the code stores to other members only. *)
Lemma store_ok f (Q : unit -> sro_lib C -> Prop) :
  (forall v c, f (set_sro_state v c) = set_sro_state v (f c)) ->
  (forall l', pool_is l' (put_slot sl i (Slot_held pe (f x))) -> length (cpu_sro_ctx l') = length (cpu_sro_ctx l) -> Q tt l') ->
  runs (store_sro i f) l Q.
Proof.
  intros Hf HQ. destruct (held_ref _ _ _ _ _ Hp Hh) as (Hr & cs & Hpl & Hc). pose proof (arr_get_lt _ _ _ Hc) as Hci. pose proof (arr_get_lt _ _ _ Hr) as Hpe.
  unfold runs, store_sro, live_pool. rewrite Hpl. cbn [mbind option_bind pool_init ctxs]. rewrite Hc. cbn [mbind option_bind].
  rewrite (arr_set_some cs i _ Hci). cbn [mbind option_bind]. eexists _, _. split; [done|]. unfold with_ctxs. rewrite Hpl. cbn. apply HQ; [|done].
  assert (Hrefs : arr_set (cpu_sro_ctx l) pe (CpuRef (Some i) i) = Some (cpu_sro_ctx l)).
  { rewrite arr_set_some by done. f_equal. apply list_insert_id. unfold arr_get in Hr. by rewrite (proj2 (Z.leb_le _ _)) in Hr by lia. }
  eapply (pool_put l sl pe i (Slot_held pe (f x)) (f (set_sro_state SRO_STATE_RESERVED x))); try done.
  - by apply arr_set_some.
  - by intros pe' y [= ->].
  - intros k [= <-]. by eexists.
  - intros j y Hj. by destruct (holding_unique _ _ _ _ _ _ _ Hp Hj Hh).
  - intros pe' y Hj. unfold holding in *. rewrite Hh in Hj. by injection Hj.
Qed.

End Held.

(** ** Refinement *)

(** The operations a PE performs on the pool. *)
Inductive pool_op := PO_reserve (command xfer : Z) (cancel contig : bool) (fid : Z) | PO_find (handle : Z) | PO_seal | PO_release | PO_my_handle.

Definition conc_step (pe : Z) (op : pool_op) : ST (sro_lib C) Z :=
  match op with
  | PO_reserve command xfer cancel contig fid => sro_ctx_reserve pe command xfer cancel contig fid
  | PO_find handle => b <-! sro_ctx_find pe handle ;; ret (Z.b2z b)
  | PO_seal => sro_ctx_seal pe
  | PO_release => _ <-! sro_ctx_release pe ;; ret 0
  | PO_my_handle => sro_ctx_my_handle pe
  end.

Definition held_by (pe : Z) s : bool := match s with Slot_held pe' _ => pe' =? pe | _ => false end.
Definition pe_slot (pe : Z) sl : option (Z * sro_context C) :=
  match list_find (fun s => held_by pe s = true) sl with
  | Some (i, Slot_held _ x) => Some (Z.of_nat i, x)
  | _ => None
  end.

(** A PE works on one operation at a time: it reserves or finds one, then seals or
    releases it. *)
Definition abs_step (pe : Z) (op : pool_op) sl : option (Z * list slot) :=
  match op, pe_slot pe sl with
  | PO_reserve command xfer cancel contig fid, None => Some (slot_reserve pe (reserved_context command xfer cancel contig fid) sl)
  | PO_find handle, None => if 0 <=? handle then Some (Z.b2z (fst (slot_find pe handle sl)), snd (slot_find pe handle sl)) else None
  | PO_seal, Some (i, x) => Some (i, put_slot sl i (Slot_sealed x))
  | PO_release, Some (i, _) => Some (0, put_slot sl i Slot_free)
  | PO_my_handle, Some (i, _) => Some (i, sl)
  | _, _ => None
  end.

Fixpoint conc_run (ops : list (Z * pool_op)) : ST (sro_lib C) (list Z) :=
  match ops with
  | [] => ret []
  | (pe, op) :: ops => out <-! conc_step pe op ;; outs <-! conc_run ops ;; ret (out :: outs)
  end.
Fixpoint abs_run (ops : list (Z * pool_op)) sl : option (list Z * list slot) :=
  match ops with
  | [] => Some ([], sl)
  | (pe, op) :: ops => r ← abs_step pe op sl; q ← abs_run ops (snd r); Some (fst r :: fst q, snd q)
  end.

Lemma pe_slot_some pe sl i x : pe_slot pe sl = Some (i, x) -> holding sl pe i x.
Proof.
  unfold pe_slot. destruct (list_find _ sl) as [[j s]|] eqn:Ef; [|done]. apply list_find_Some in Ef as (Hj & Hs & _). destruct s as [| |pe' y]; try done.
  intros [= <- <-]. cbn in Hs. apply Z.eqb_eq in Hs as ->. unfold holding, arr_get. by rewrite (proj2 (Z.leb_le _ _)), Nat2Z.id by lia.
Qed.

Lemma pe_slot_none pe sl : pe_slot pe sl = None -> idle sl pe.
Proof.
  unfold pe_slot. destruct (list_find _ sl) as [[j s]|] eqn:Ef.
  - apply list_find_Some in Ef as (_ & Hs & _). by destruct s.
  - intros _ i x Hi. unfold holding, arr_get in Hi. destruct (0 <=? i); [|done]. apply list_find_None in Ef. rewrite Forall_lookup in Ef.
    apply (Ef _ _ Hi). cbn. apply Z.eqb_refl.
Qed.

Lemma step_refines pe op l sl out sl' :
  pool_is l sl -> pe_ok l pe -> abs_step pe op sl = Some (out, sl') ->
  runs (conc_step pe op) l (fun x l' => x = out /\ pool_is l' sl' /\ length (cpu_sro_ctx l') = length (cpu_sro_ctx l)).
Proof.
  intros Hp Hpe. unfold abs_step, conc_step. destruct (pe_slot pe sl) as [[i x]|] eqn:Es.
  - apply pe_slot_some in Es. destruct op; try done; intros [= <- <-].
    + eapply (seal_ok l sl pe i x); [done|done|]. done.
    + apply runs_bind. eapply (release_ok l sl pe i x); [done|done|]. intros l' H1 H2. by apply runs_ret.
    + by eapply (my_handle_ok l sl pe i x).
  - apply pe_slot_none in Es. destruct op; try done.
    + intros [= Hr]. eapply (reserve_ok l sl pe); try done. intros st l' sl2 Hr2 Hp2 Hl2. rewrite Hr2 in Hr. injection Hr as <- <-. done.
    + destruct (Z.leb_spec 0 handle) as [Hh|]; [|done]. intros [= <- <-]. apply runs_bind. eapply (find_ok l sl pe handle); try done.
      intros b l' sl2 Hr2 Hp2 Hl2. rewrite Hr2. by apply runs_ret.
Qed.

(** C15: the pool of stateful operations is a list of slots, each free, sealed, or held
    by one PE.  For every interleaving of the operations of any number of PEs, each
    following the protocol (a PE reserves or finds an operation when it holds none,
    and seals, releases or names the one it holds), the implementation returns what
    the slots return and stays related to them: a reservation takes the first free
    slot and reports BLOCKED only if all are sealed, BUSY otherwise; a handle finds
    its operation exactly when it is sealed; and no two PEs ever hold the same
    operation, nor one PE two. *)
Theorem sro_pool_refines ops l sl outs sl' :
  pool_is l sl -> (forall pe op, (pe, op) ∈ ops -> pe_ok l pe) -> abs_run ops sl = Some (outs, sl') ->
  runs (conc_run ops) l (fun x l' => x = outs /\ pool_is l' sl' /\
    (forall pe i x j y, holding sl' pe i x -> holding sl' pe j y -> i = j /\ x = y)).
Proof.
  revert l sl outs sl'. induction ops as [|[pe op] ops IH]; intros l sl outs sl' Hp Hpe; cbn [abs_run conc_run].
  - intros [= <- <-]. apply runs_ret. split_and!; [done|done|]. intros. by eapply holding_unique.
  - destruct (abs_step pe op sl) as [[out sl1]|] eqn:Ea; [|done]. cbn [mbind option_bind snd fst]. destruct (abs_run ops sl1) as [[outs1 sl2]|] eqn:Er; [|done].
    cbn [mbind option_bind snd fst]. intros [= <- <-]. apply runs_bind. eapply runs_mono; [apply (step_refines pe op l sl out sl1 Hp); [by eapply Hpe; left|done]|].
    intros x l1 (-> & Hp1 & Hl1). apply runs_bind. eapply runs_mono; [eapply (IH l1 sl1); [done| |exact Er]|].
    + intros pe' op' Hin. unfold pe_ok. rewrite Hl1. eapply Hpe. by right.
    + intros x l2 (-> & Hp2 & Hu). by apply runs_ret.
Qed.

(** ** Initialisation *)

Lemma init_ok (stored : sro_ctx_pool C) max_cpus l :
  pool l = None -> pool_init stored = false -> (forall pe r, arr_get (cpu_sro_ctx l) pe = Some r -> ref_ctx r = None) ->
  Z.of_nat (length (ctxs stored)) = max_cpus * SRO_CTX_PER_CPU -> Z.of_nat (length (ctxs stored)) <= MAX_HANDLES ->
  exists l', sro_ctx_init stored max_cpus true l = Some l' /\ pool_is l' (replicate (length (ctxs stored)) Slot_free) /\
    cpu_sro_ctx l' = cpu_sro_ctx l.
Proof.
  intros Hn Hi Hr Hlen Hmax. unfold sro_ctx_init. rewrite Hn, Hi. eexists. split; [done|]. split; [|done]. rewrite <- Hlen, Nat2Z.id, take_ge by lia. split.
  - eexists. cbn. split; [done|]. rewrite length_fmap, length_replicate. split; [done|]. intros i s Hs.
    assert (s = Slot_free /\ (Z.to_nat i < length (ctxs stored))%nat /\ 0 <= i) as (-> & Hlt & H0).
    { unfold arr_get in Hs. destruct (Z.leb_spec 0 i); [|done]. apply lookup_replicate_1 in Hs as [-> ?]. done. }
    destruct (lookup_lt_is_Some_2 (ctxs stored) (Z.to_nat i) Hlt) as [c Hc]. exists (set_sro_state SRO_STATE_FREE c). split; [|done].
    unfold arr_get. rewrite (proj2 (Z.leb_le 0 i)) by done. by rewrite list_lookup_fmap, Hc.
  - cbn. intros pe r i Hg Hx. by rewrite (Hr pe r Hg) in Hx.
  - by rewrite length_replicate.
Qed.

End Pool.


(** ** Two PEs *)

#[local] Instance unit_payload : SroPayload unit := {| zero_payload := tt |}.

Definition two_pes : sro_lib unit := SroLib (Some (Pool true (replicate 20 zero_context))) (replicate 2 (CpuRef None 0)).

Lemma two_pes_idle : pool_is two_pes (replicate 20 Slot_free).
Proof.
  destruct (init_ok (Pool false (replicate 20 zero_context)) 2 (SroLib None (replicate 2 (CpuRef None 0)))) as (l' & Hl & Hp & _); try done.
  - intros pe r H. unfold arr_get in H. destruct (0 <=? pe); [|done]. cbn [cpu_sro_ctx] in H. by apply lookup_replicate_1 in H as [-> _].
  - vm_compute in Hl. by injection Hl as <-.
Qed.

(** Both PEs reserve; the first seals its operation, which the second takes up after
    it has released its own. *)
Definition two_pes_ops : list (Z * pool_op) :=
  [(0, PO_reserve SMC_RMI_RTT_DATA_UNMAP 0 false false SMC_RMI_OP_CONTINUE);
   (1, PO_reserve SMC_RMI_RTT_DATA_UNMAP 0 false false SMC_RMI_OP_CONTINUE);
   (0, PO_my_handle); (1, PO_my_handle); (0, PO_seal); (1, PO_release); (0, PO_find 1); (1, PO_find 0); (0, PO_find 0); (1, PO_my_handle)].

Lemma sro_pool_refines_witness :
  runs (conc_run two_pes_ops) two_pes (fun outs _ => outs = [RMI_SUCCESS; RMI_SUCCESS; 0; 1; 0; 0; 0; 1; 0; 0]).
Proof.
  eapply runs_mono.
  - eapply (sro_pool_refines two_pes_ops two_pes (replicate 20 Slot_free)); [exact two_pes_idle| |vm_compute; reflexivity].
    intros pe op H. unfold two_pes_ops in H.
    repeat (apply elem_of_cons in H as [H|H]; [injection H as -> _; vm_compute; split; congruence|]). apply elem_of_nil in H. destruct H.
  - intros outs l' [-> _]. reflexivity.
Defined.
