(* ===== verification/Psci.v ===== *)
(** * Power management of a realm's RECs ([runtime/rsi/psci.c])

    The PSCI service of a realm, the two RMI commands that take part in it
    ([RMI_PSCI_COMPLETE] of [rmi/rec.c] and the entry and exit of
    [RMI_REC_ENTER] of [rmi/run.c]) and the helpers on [struct rec] they use.
    A handler is state passing code on the state of the realms: the granule
    descriptors, the RDs with their table of RECs (a sorted array), and the RECs.
    Mapping and unmapping of a granule has no effect on this state; a mapped
    structure is the one held by its granule. *)

From Stdlib Require Import ZArith Lia Bool ZifyBool.
From stdpp Require Import base tactics option list numbers gmap.
From S2P Require Import Prelude.
From S2P Require Import Utils.
From S2P Require Import Status.
From S2P Require Import Smc.
From S2P Require Import Granule.
From S2P Require Import Mem.
From S2P Require Import Sarray.
From S2P Require Import Realm.

(** ** SMC function identifiers *)

Definition SMC32_PSCI_FNUM_MIN : Z := 0.
Definition SMC32_PSCI_FNUM_MAX : Z := 0x14.
Definition SMC64_PSCI_FNUM_MIN : Z := 0.
Definition SMC64_PSCI_FNUM_MAX : Z := 0x14.
Definition SMC32_PSCI_FID (offset : Z) : Z :=
  Z.lor (SMC_SET_FIELD SMC_STD_CALL_BASE SMC_CC 0)
        (SMC_SET_FIELD SMC_STD_CALL_BASE SMC_FNUM (SMC32_PSCI_FNUM_MIN + offset)).
Definition SMC64_PSCI_FID (offset : Z) : Z :=
  Z.lor (SMC_SET_FIELD SMC_STD_CALL_BASE SMC_CC 1)
        (SMC_SET_FIELD SMC_STD_CALL_BASE SMC_FNUM (SMC64_PSCI_FNUM_MIN + offset)).

Definition SMC32_PSCI_FID_MIN : Z := SMC32_PSCI_FID SMC32_PSCI_FNUM_MIN.
Definition SMC32_PSCI_FID_MAX : Z := SMC32_PSCI_FID SMC32_PSCI_FNUM_MAX.
Definition SMC64_PSCI_FID_MIN : Z := SMC64_PSCI_FID SMC64_PSCI_FNUM_MIN.
Definition SMC64_PSCI_FID_MAX : Z := SMC64_PSCI_FID SMC64_PSCI_FNUM_MAX.

Definition SMCCC_VERSION : Z := 0x80000000.
Definition SMC32_PSCI_VERSION : Z := SMC32_PSCI_FID 0.
Definition SMC32_PSCI_CPU_SUSPEND : Z := SMC32_PSCI_FID 1.
Definition SMC64_PSCI_CPU_SUSPEND : Z := SMC64_PSCI_FID 1.
Definition SMC32_PSCI_CPU_OFF : Z := SMC32_PSCI_FID 2.
Definition SMC32_PSCI_CPU_ON : Z := SMC32_PSCI_FID 3.
Definition SMC64_PSCI_CPU_ON : Z := SMC64_PSCI_FID 3.
Definition SMC32_PSCI_AFFINITY_INFO : Z := SMC32_PSCI_FID 4.
Definition SMC64_PSCI_AFFINITY_INFO : Z := SMC64_PSCI_FID 4.
Definition SMC32_PSCI_SYSTEM_OFF : Z := SMC32_PSCI_FID 8.
Definition SMC32_PSCI_SYSTEM_RESET : Z := SMC32_PSCI_FID 9.
Definition SMC32_PSCI_FEATURES : Z := SMC32_PSCI_FID 0xA.

Definition PSCI_RETURN_SUCCESS : Z := 0.
Definition PSCI_RETURN_NOT_SUPPORTED : Z := u64 (-1).
Definition PSCI_RETURN_INVALID_PARAMS : Z := u64 (-2).
Definition PSCI_RETURN_DENIED : Z := u64 (-3).
Definition PSCI_RETURN_ALREADY_ON : Z := u64 (-4).
Definition PSCI_RETURN_INTERNAL_FAILURE : Z := u64 (-6).
Definition PSCI_RETURN_INVALID_ADDRESS : Z := u64 (-9).
Definition PSCI_AFFINITY_INFO_ON : Z := 0.
Definition PSCI_AFFINITY_INFO_OFF : Z := 1.

(** ** Results of a service *)

Definition FLAG_UPDATE_REC : Z := 1.
Definition FLAG_EXIT_TO_HOST : Z := 2.
Definition FLAG_STAGE_2_ABORT : Z := 4.
Definition FLAG_PLANE_CHANGED : Z := 8.
Definition UPDATE_REC_RETURN_TO_REALM : Z := FLAG_UPDATE_REC.
Definition EXIT_TO_HOST : Z := FLAG_EXIT_TO_HOST.
Definition UPDATE_REC_EXIT_TO_HOST : Z := Z.lor FLAG_UPDATE_REC FLAG_EXIT_TO_HOST.

Definition SMC_RESULT_REGS : Z := 8.
Definition REC_EXIT_NR_GPRS : Z := 31.
Definition RMI_EXIT_PSCI : Z := 3.

(** [struct rsi_result] (the level of a stage 2 abort is not used by PSCI) and the
    part of [struct rmi_rec_exit] that PSCI writes. *)
Record rsi_result := RsiResult { action : Z; smc_res : list Z }.
Record rmi_rec_exit := RecExit { exit_reason : Z; gprs : list Z }.

Definition set_action (a : Z) (res : rsi_result) : rsi_result := RsiResult a (smc_res res).
(** [res->smc_res.x[0] = v]. *)
Definition set_res0 (v : Z) (res : rsi_result) : rsi_result := RsiResult (action res) (<[0%nat := v]> (smc_res res)).

(** ** RECs *)

Definition REC_PENDING_NONE : Z := 0.
Definition REC_PENDING_PSCI_COMPLETE : Z := 1.

(** [struct rec_plane]: the fields PSCI uses. *)
Record rec_plane := RecPlane { regs : list Z; plane_pc : Z; plane_pstate : Z }.

(** [struct rec]; [sysregs] is SCTLR_EL1 in the auxiliary sysregs of each plane,
    [plane_n] is [plane[1]], shared by the auxiliary planes. *)
Record rec := Rec {
  g_rec : Z;
  mpidr : Z;
  runnable : bool;
  pending_op : Z;
  target_rec_addr : Z;
  plane_0 : rec_plane;
  plane_n : rec_plane;
  g_rd : Z;                     (* realm_info.g_rd *)
  ri_ipa_bits : Z;              (* realm_info.primary_s2_ctx.ipa_bits *)
  ri_num_aux_planes : Z;        (* realm_info.num_aux_planes *)
  sysregs : list Z;
  active_plane_id : Z
}.

Definition set_runnable (v : bool) (r : rec) : rec :=
  Rec (g_rec r) (mpidr r) v (pending_op r) (target_rec_addr r) (plane_0 r) (plane_n r) (g_rd r) (ri_ipa_bits r)
    (ri_num_aux_planes r) (sysregs r) (active_plane_id r).
Definition set_pending_op (v : Z) (r : rec) : rec :=
  Rec (g_rec r) (mpidr r) (runnable r) v (target_rec_addr r) (plane_0 r) (plane_n r) (g_rd r) (ri_ipa_bits r)
    (ri_num_aux_planes r) (sysregs r) (active_plane_id r).
Definition set_target_rec_addr (v : Z) (r : rec) : rec :=
  Rec (g_rec r) (mpidr r) (runnable r) (pending_op r) v (plane_0 r) (plane_n r) (g_rd r) (ri_ipa_bits r)
    (ri_num_aux_planes r) (sysregs r) (active_plane_id r).
Definition set_planes (p0 pn : rec_plane) (sys : list Z) (active : Z) (r : rec) : rec :=
  Rec (g_rec r) (mpidr r) (runnable r) (pending_op r) (target_rec_addr r) p0 pn (g_rd r) (ri_ipa_bits r)
    (ri_num_aux_planes r) sys active.

Definition rec_num_planes (r : rec) : Z := u32 (ri_num_aux_planes r + 1).
Definition rec_is_plane_0_active (r : rec) : bool := active_plane_id r =? PLANE_0_ID.
Definition rec_active_plane (r : rec) : rec_plane := if rec_is_plane_0_active r then plane_0 r else plane_n r.

(** A store through [rec_active_plane(rec)]. *)
Definition set_active_plane (p : rec_plane) (r : rec) : rec :=
  if rec_is_plane_0_active r then set_planes p (plane_n r) (sysregs r) (active_plane_id r) r
  else set_planes (plane_0 r) p (sysregs r) (active_plane_id r) r.
Definition set_plane_0 (p : rec_plane) (r : rec) : rec := set_planes p (plane_n r) (sysregs r) (active_plane_id r) r.

(** [rec_active_plane_sysregs(rec)->pp_sysregs.sctlr_el1]. *)
Definition active_sctlr_el1 (r : rec) : option Z :=
  assert (active_plane_id r <? rec_num_planes r) ;; arr_get (sysregs r) (active_plane_id r).

Definition rec_ipa_size (r : rec) : Z := shl64 1 (ri_ipa_bits r).
Definition rec_par_size (r : rec) : Z := Z.shiftr (rec_ipa_size r) 1.
Definition addr_in_rec_par (r : rec) (addr : Z) : bool := addr <? rec_par_size r.

(** ** MPIDR formats *)

Definition MPIDR_EL1_AFF0 : regfield := Field 0 4.
Definition MPIDR_EL1_AFF1 : regfield := Field 8 8.
Definition MPIDR_EL1_AFF2 : regfield := Field 16 8.
Definition MPIDR_EL1_AFF3 : regfield := Field 32 8.
Definition RMI_MPIDR_AFF0 : regfield := Field 0 4.
Definition RMI_MPIDR_AFF1 : regfield := Field 8 8.
Definition RMI_MPIDR_AFF2 : regfield := Field 16 8.
Definition RMI_MPIDR_AFF3 : regfield := Field 24 8.

Definition rec_mpidr_is_valid (rec_mpidr : Z) : bool :=
  Z.land rec_mpidr (not64 (Z.lor (Z.lor (Z.lor (MASK RMI_MPIDR_AFF0) (MASK RMI_MPIDR_AFF1)) (MASK RMI_MPIDR_AFF2))
                                 (MASK RMI_MPIDR_AFF3))) =? 0.

Definition mpidr_to_rec_mpidr (mpidr : Z) : Z :=
  Z.lor (Z.land mpidr (Z.lor (Z.lor (MASK MPIDR_EL1_AFF0) (MASK MPIDR_EL1_AFF1)) (MASK MPIDR_EL1_AFF2)))
        (Z.shiftr (Z.land mpidr (MASK MPIDR_EL1_AFF3)) (f_shift MPIDR_EL1_AFF3 - f_shift RMI_MPIDR_AFF3)).

Definition rec_mpidr_to_mpidr (rec_mpidr : Z) : Z :=
  Z.lor (Z.land rec_mpidr (Z.lor (Z.lor (MASK RMI_MPIDR_AFF0) (MASK RMI_MPIDR_AFF1)) (MASK RMI_MPIDR_AFF2)))
        (shl64 (Z.land rec_mpidr (MASK RMI_MPIDR_AFF3)) (f_shift MPIDR_EL1_AFF3 - f_shift RMI_MPIDR_AFF3)).

(** ** The state *)

(** [struct mpidr_rec_map]: a sorted array of [struct rec_map] (key and REC
    address: two words). *)
Record mpidr_rec_map := MpidrRecMap { rec_map_hnd : sarray_hdr; rec_map_mem : buffer }.
Definition REC_MAP_SIZE : Z := 16.

Record realms := Realms {
  s_mem : mem;
  s_rds : gmap Z rd;
  s_rec_maps : gmap Z mpidr_rec_map;    (* rd_aux->mpidr_rec_map, by RD *)
  s_recs : gmap Z rec
}.

Definition P : Type -> Type := ST realms.

Definition p_mem {A} (c : M A) : P A := fun s =>
  match c (s_mem s) with
  | Some (x, m) => Some (x, Realms m (s_rds s) (s_rec_maps s) (s_recs s))
  | None => None
  end.
Definition p_get {A} (f : realms -> option A) : P A := fun s => x ← f s; Some (x, s).
Definition map_rec (g : Z) : P rec := p_get (fun s => s_recs s !! g).
Definition store_rec (g : Z) (r : rec) : P unit := fun s =>
  Some (tt, Realms (s_mem s) (s_rds s) (s_rec_maps s) (<[g := r]> (s_recs s))).
(** A store to fields of the REC mapped from [g]. *)
Definition update_rec (g : Z) (f : rec -> rec) : P unit := r <-! map_rec g ;; store_rec g (f r).
Definition p_map_rd (g : Z) : P rd := p_get (fun s => s_rds s !! g).
Definition p_store_rd (g : Z) (r : rd) : P unit := fun s =>
  Some (tt, Realms (s_mem s) (<[g := r]> (s_rds s)) (s_rec_maps s) (s_recs s)).
Definition map_rd_aux (g : Z) : P mpidr_rec_map := p_get (fun s => s_rec_maps s !! g).
Definition p_unlock (g : Z) : P unit := p_mem (m_granule_unlock g).
(** [granule_refcount_read_acquire]. *)
Definition refcount_acquire (g : Z) : P Z := p_get (fun s => descs (s_mem s) !! g ≫= refcount_read_acquire GRN).

Definition rec_set_pending_op (g : Z) (op : Z) : P unit :=
  r <-! map_rec g ;;
  _ <-! guard ((op =? REC_PENDING_NONE) || (pending_op r =? REC_PENDING_NONE)) ;;
  store_rec g (set_pending_op op r).

Section Lookup.
Context `{pairs : PairLookup}.

Definition map_mpidr_to_rec (map : mpidr_rec_map) (mpidr : Z) : option (option Z) :=
  ptr ← _sarray_lookup_locked (Some (rec_map_hnd map)) (rec_map_mem map) REC_MAP_SIZE mpidr;
  if ptr =? 0 then Some None
  else rec_map ← load_words (rec_map_mem map) (word_of (rec_map_hnd map) ptr) (REC_MAP_SIZE / 8);
       rec ← rec_map !! 1%nat;
       g ← tr_addr_to_granule rec;
       Some (Some g).

(** ** Services *)

(** The two loops over [rec_exit->gprs]. *)
Definition forward_args_to_host (count : Z) (plane : rec_plane) (exit : rmi_rec_exit) : option rmi_rec_exit :=
  assert (count <=? 4) ;;
  g1 ← for_upM (Z.to_nat count) 0 (fun i g => v ← arr_get (regs plane) i; arr_set g i v) (gprs exit);
  g2 ← for_upM (Z.to_nat (REC_EXIT_NR_GPRS - count)) count (fun i g => arr_set g i 0) g1;
  Some (RecExit (exit_reason exit) g2).

Definition psci_version (res : rsi_result) : rsi_result :=
  set_res0 (Z.lor (Z.shiftl 1 16) 1) (set_action UPDATE_REC_RETURN_TO_REALM res).

Definition psci_cpu_suspend (plane : rec_plane) (exit : rmi_rec_exit) (res : rsi_result)
    : P (rmi_rec_exit * rsi_result) :=
  let res := set_action UPDATE_REC_EXIT_TO_HOST res in
  exit <-! lift (forward_args_to_host 1 plane exit) ;;
  ret (exit, set_res0 PSCI_RETURN_SUCCESS res).

Definition psci_cpu_off (g : Z) (exit : rmi_rec_exit) (res : rsi_result) : P (rmi_rec_exit * rsi_result) :=
  let res := set_action UPDATE_REC_EXIT_TO_HOST res in
  _ <-! update_rec g (set_runnable false) ;;
  rec <-! map_rec g ;;
  exit <-! lift (forward_args_to_host 1 (rec_active_plane rec) exit) ;;
  ret (exit, set_res0 PSCI_RETURN_SUCCESS res).

Definition SPSR_EL2_MODE : regfield := Field 0 4.
Definition SPSR_EL2_nRW : regfield := Field 4 1.
Definition SPSR_EL2_F_BIT : Z := shl64 1 6.
Definition SPSR_EL2_I_BIT : Z := shl64 1 7.
Definition SPSR_EL2_A_BIT : Z := shl64 1 8.
Definition SPSR_EL2_D_BIT : Z := shl64 1 9.
Definition SCTLR_ELx_SA_BIT : Z := shl64 1 3.
Definition SCTLR_ELx_SA0_BIT : Z := shl64 1 4.
Definition SCTLR_ELx_CP15BEN_BIT : Z := shl64 1 5.
Definition SCTLR_ELx_nAA_BIT : Z := shl64 1 6.
Definition SCTLR_ELx_EOS_BIT : Z := shl64 1 11.
Definition SCTLR_ELx_nTWI_BIT : Z := shl64 1 16.
Definition SCTLR_ELx_nTWE_BIT : Z := shl64 1 18.
Definition SCTLR_ELx_EIS_BIT : Z := shl64 1 22.
Definition SCTLR_ELx_SPAN_BIT : Z := shl64 1 23.
Definition SCTLR_ELx_EE_BIT : Z := shl64 1 25.
Definition SCTLR_EL1_FLAGS : Z :=
  Z.lor (Z.lor (Z.lor (Z.lor (Z.lor (Z.lor (Z.lor (Z.lor SCTLR_ELx_SPAN_BIT SCTLR_ELx_EIS_BIT) SCTLR_ELx_nTWE_BIT)
    SCTLR_ELx_nTWI_BIT) SCTLR_ELx_EOS_BIT) SCTLR_ELx_nAA_BIT) SCTLR_ELx_CP15BEN_BIT) SCTLR_ELx_SA0_BIT) SCTLR_ELx_SA_BIT.

(** The PSTATE and SCTLR_EL1 [psci_reset_rec] stores. *)
Definition reset_pstate : Z :=
  Z.lor (Z.lor (Z.lor (Z.lor (Z.lor (INPLACE SPSR_EL2_MODE 5) (INPLACE SPSR_EL2_nRW 0)) SPSR_EL2_F_BIT) SPSR_EL2_I_BIT)
    SPSR_EL2_A_BIT) SPSR_EL2_D_BIT.
Definition reset_sctlr_el1 (caller_sctlr_el1 : Z) : Z :=
  Z.lor SCTLR_EL1_FLAGS (Z.land caller_sctlr_el1 SCTLR_ELx_EE_BIT).

(** [psci_reset_rec] of plane 0: its PSTATE and its SCTLR_EL1. *)
Definition psci_reset_rec (caller_sctlr_el1 : Z) (r : rec) : option rec :=
  sys ← arr_set (sysregs r) PLANE_0_ID (reset_sctlr_el1 caller_sctlr_el1);
  Some (set_planes (RecPlane (regs (plane_0 r)) (plane_pc (plane_0 r)) reset_pstate) (plane_n r) sys (active_plane_id r) r).

Definition psci_cpu_on (g : Z) (exit : rmi_rec_exit) (res : rsi_result) : P (rmi_rec_exit * rsi_result) :=
  rec <-! map_rec g ;;
  let plane := rec_active_plane rec in
  target_cpu <-! lift (arr_get (regs plane) 1) ;;
  entry_point_address <-! lift (arr_get (regs plane) 2) ;;
  let res := set_action UPDATE_REC_RETURN_TO_REALM res in
  if negb (addr_in_rec_par rec entry_point_address) then ret (exit, set_res0 PSCI_RETURN_INVALID_ADDRESS res) else
  let target_rec_mpidr := mpidr_to_rec_mpidr target_cpu in
  if target_rec_mpidr =? mpidr rec then ret (exit, set_res0 PSCI_RETURN_ALREADY_ON res) else
  matched <-! p_mem (granule_lock_on_state_match (g_rd rec) GRANULE_STATE_RD) ;;
  if negb matched then ret (exit, set_res0 PSCI_RETURN_INTERNAL_FAILURE res) else
  _ <-! p_map_rd (g_rd rec) ;;
  rd_aux <-! map_rd_aux (g_rd rec) ;;
  g_target_cpu <-! lift (map_mpidr_to_rec rd_aux target_rec_mpidr) ;;
  _ <-! match g_target_cpu with
        | Some g_target => addr <-! lift (tr_granule_addr g_target) ;; update_rec g (set_target_rec_addr addr)
        | None => ret tt
        end ;;
  _ <-! p_unlock (g_rd rec) ;;
  match g_target_cpu with
  | None => ret (exit, set_res0 PSCI_RETURN_INVALID_PARAMS res)
  | Some _ =>
      _ <-! rec_set_pending_op g REC_PENDING_PSCI_COMPLETE ;;
      exit <-! lift (forward_args_to_host 2 plane exit) ;;
      ret (exit, set_action EXIT_TO_HOST res)
  end.

Definition psci_affinity_info (g : Z) (res : rsi_result) : P rsi_result :=
  rec <-! map_rec g ;;
  let plane := rec_active_plane rec in
  target_affinity <-! lift (arr_get (regs plane) 1) ;;
  lowest_affinity_level <-! lift (arr_get (regs plane) 2) ;;
  let res := set_action UPDATE_REC_RETURN_TO_REALM res in
  if negb (lowest_affinity_level =? 0) then ret (set_res0 PSCI_RETURN_INVALID_PARAMS res) else
  let target_rec_mpidr := mpidr_to_rec_mpidr target_affinity in
  if target_rec_mpidr =? mpidr rec then ret (set_res0 PSCI_AFFINITY_INFO_ON res) else
  _ <-! p_mem (m_granule_lock (g_rd rec) GRANULE_STATE_RD) ;;
  _ <-! p_map_rd (g_rd rec) ;;
  rd_aux <-! map_rd_aux (g_rd rec) ;;
  found <-! lift (map_mpidr_to_rec rd_aux target_rec_mpidr) ;;
  g_target_rec <-! match found with
                   | Some gt =>
                       matched <-! p_mem (granule_lock_on_state_match gt GRANULE_STATE_REC) ;;
                       ret (if matched : bool then Some gt else None)
                   | None => ret None
                   end ;;
  _ <-! p_unlock (g_rd rec) ;;
  match g_target_rec with
  | None => ret (set_res0 PSCI_RETURN_INVALID_PARAMS res)
  | Some gt =>
      target_rec <-! map_rec gt ;;
      res <-! (if negb (g_rd target_rec =? g_rd rec) || negb (mpidr target_rec =? target_rec_mpidr) then
                 ret (set_res0 PSCI_AFFINITY_INFO_OFF res)
               else
                 count <-! refcount_acquire gt ;;
                 ret (set_res0 (if negb (count =? 0) || runnable target_rec
                                then PSCI_AFFINITY_INFO_ON else PSCI_AFFINITY_INFO_OFF) res)) ;;
      _ <-! p_unlock gt ;;
      ret res
  end.

Definition system_off_reboot (g : Z) : P unit :=
  rec <-! map_rec g ;;
  _ <-! p_mem (m_granule_lock (g_rd rec) GRANULE_STATE_RD) ;;
  rd <-! p_map_rd (g_rd rec) ;;
  _ <-! p_store_rd (g_rd rec) (set_state_and_count rd (set_rd_state (state_and_count rd) REALM_SYSTEM_OFF)) ;;
  p_unlock (g_rd rec).

Definition psci_system_off_reset (g : Z) (exit : rmi_rec_exit) (res : rsi_result) : P (rmi_rec_exit * rsi_result) :=
  _ <-! system_off_reboot g ;;
  rec <-! map_rec g ;;
  exit <-! lift (forward_args_to_host 1 (rec_active_plane rec) exit) ;;
  ret (exit, set_action EXIT_TO_HOST res).

Definition psci_function_id (plane : rec_plane) : option Z := u32 <$> arr_get (regs plane) 0.

Definition psci_features (plane : rec_plane) (res : rsi_result) : option rsi_result :=
  id ← u32 <$> arr_get (regs plane) 1;
  let res :=
    if existsb (Z.eqb id) [SMC32_PSCI_VERSION; SMC32_PSCI_CPU_SUSPEND; SMC64_PSCI_CPU_SUSPEND; SMC32_PSCI_CPU_OFF;
                           SMC32_PSCI_CPU_ON; SMC64_PSCI_CPU_ON; SMC32_PSCI_AFFINITY_INFO; SMC64_PSCI_AFFINITY_INFO;
                           SMC32_PSCI_SYSTEM_OFF; SMC32_PSCI_SYSTEM_RESET; SMC32_PSCI_FEATURES; SMCCC_VERSION]
    then set_res0 PSCI_RETURN_SUCCESS res else set_res0 PSCI_RETURN_NOT_SUPPORTED res in
  Some (set_action UPDATE_REC_RETURN_TO_REALM res).

Definition is_cpu_on (function_id : Z) : bool :=
  (function_id =? SMC32_PSCI_CPU_ON) || (function_id =? SMC64_PSCI_CPU_ON).

(** The switch of [handle_psci]. *)
Definition psci_dispatch (g : Z) (plane : rec_plane) (function_id : Z) (exit : rmi_rec_exit) (res : rsi_result)
    : P (rmi_rec_exit * rsi_result) :=
  if function_id =? SMC32_PSCI_VERSION then ret (exit, psci_version res)
  else if (function_id =? SMC32_PSCI_CPU_SUSPEND) || (function_id =? SMC64_PSCI_CPU_SUSPEND) then
    psci_cpu_suspend plane exit res
  else if function_id =? SMC32_PSCI_CPU_OFF then psci_cpu_off g exit res
  else if is_cpu_on function_id then psci_cpu_on g exit res
  else if (function_id =? SMC32_PSCI_AFFINITY_INFO) || (function_id =? SMC64_PSCI_AFFINITY_INFO) then
    res <-! psci_affinity_info g res ;; ret (exit, res)
  else if (function_id =? SMC32_PSCI_SYSTEM_OFF) || (function_id =? SMC32_PSCI_SYSTEM_RESET) then
    psci_system_off_reset g exit res
  else if function_id =? SMC32_PSCI_FEATURES then
    res <-! lift (psci_features plane res) ;; ret (exit, res)
  else ret (exit, set_res0 PSCI_RETURN_NOT_SUPPORTED (set_action UPDATE_REC_RETURN_TO_REALM res)).

Definition handle_psci (g : Z) (exit : rmi_rec_exit) (res : rsi_result) : P (rmi_rec_exit * rsi_result) :=
  rec <-! map_rec g ;;
  let plane := rec_active_plane rec in
  function_id <-! lift (psci_function_id plane) ;;
  r <-! psci_dispatch g plane function_id exit res ;;
  let '(exit, res) := r in
  if negb (Z.land (action res) FLAG_EXIT_TO_HOST =? 0) then ret (RecExit RMI_EXIT_PSCI (gprs exit), res)
  else ret (exit, res).

(** ** The service call

    [handle_realm_rsi] when plane 0 makes a call whose function identifier, less
    the SVE hint, is in a PSCI range (other identifiers are other services).
    PSCI neither changes planes nor aborts, so the PC always advances. *)
Definition is_psci_fid (function_id : Z) : bool :=
  ((SMC32_PSCI_FID_MIN <=? function_id) && (function_id <=? SMC32_PSCI_FID_MAX)) ||
  ((SMC64_PSCI_FID_MIN <=? function_id) && (function_id <=? SMC64_PSCI_FID_MAX)).

(** The function identifier [handle_realm_rsi] dispatches on. *)
Definition rsi_function_id (plane : rec_plane) : option Z :=
  id ← arr_get (regs plane) 0; Some (Z.land (u32 id) (Z.lxor SMC_SVE_HINT (2 ^ 32 - 1))).

(** [for (i = lo; i < lo + n; ++i) dst[i] = src[i]]. *)
Definition copy_regs (n : nat) (lo : Z) (src dst : list Z) : option (list Z) :=
  for_upM n lo (fun i d => v ← arr_get src i; arr_set d i v) dst.

(** [advance_pc]: the PC of the running plane. *)
Definition advance_pc (p : rec_plane) : rec_plane := RecPlane (regs p) (add64 (plane_pc p) 4) (plane_pstate p).

(** The end of [handle_realm_rsi], after the service. *)
Definition handle_realm_rsi_end (g : Z) (exit : rmi_rec_exit) (res : rsi_result) : P (rmi_rec_exit * bool) :=
  _ <-! guard (Z.land (action res) (Z.lor FLAG_PLANE_CHANGED FLAG_STAGE_2_ABORT) =? 0) ;;
  _ <-! update_rec g (fun rec => set_active_plane (advance_pc (rec_active_plane rec)) rec) ;;
  _ <-! (if negb (Z.land (action res) FLAG_UPDATE_REC =? 0) then
           rec <-! map_rec g ;;
           let plane := rec_active_plane rec in
           regs' <-! lift (copy_regs (Z.to_nat SMC_RESULT_REGS) 0 (smc_res res) (regs plane)) ;;
           store_rec g (set_active_plane (RecPlane regs' (plane_pc plane) (plane_pstate plane)) rec)
         else ret tt) ;;
  ret (exit, Z.land (action res) FLAG_EXIT_TO_HOST =? 0).

Definition handle_realm_rsi_psci (g : Z) (exit : rmi_rec_exit) : P (rmi_rec_exit * bool) :=
  rec <-! map_rec g ;;
  let plane := rec_active_plane rec in
  function_id <-! lift (rsi_function_id plane) ;;
  x <-! lift (copy_regs 4 4 (regs plane) (replicate (Z.to_nat SMC_RESULT_REGS) 0)) ;;
  _ <-! guard (rec_is_plane_0_active rec && is_psci_fid function_id) ;;
  r <-! handle_psci g exit (RsiResult UPDATE_REC_RETURN_TO_REALM x) ;;
  handle_realm_rsi_end g (fst r) (snd r).

(** ** Completion of a request *)

Definition complete_psci_cpu_on (g_target : Z) (entry_point_address context_id caller_sctlr_el1 status : Z) : P Z :=
  target_rec <-! map_rec g_target ;;
  count <-! refcount_acquire (g_rec target_rec) ;;
  if negb (count =? 0) || runnable target_rec then ret PSCI_RETURN_ALREADY_ON else
  if status =? PSCI_RETURN_DENIED then ret PSCI_RETURN_DENIED else
  r <-! lift (psci_reset_rec caller_sctlr_el1 target_rec) ;;
  regs' <-! lift (arr_set (regs (plane_0 r)) 0 context_id) ;;
  _ <-! store_rec g_target
          (set_runnable true (set_plane_0 (RecPlane regs' entry_point_address (plane_pstate (plane_0 r))) r)) ;;
  ret PSCI_RETURN_SUCCESS.

(** The result of the call, in X0 to X3 of the caller. *)
Definition set_call_result (v : Z) (p : rec_plane) : option rec_plane :=
  r0 ← arr_set (regs p) 0 v; r1 ← arr_set r0 1 0; r2 ← arr_set r1 2 0; r3 ← arr_set r2 3 0;
  Some (RecPlane r3 (plane_pc p) (plane_pstate p)).

Definition psci_complete_denied_request (g : Z) : P Z :=
  rec <-! map_rec g ;;
  let plane := rec_active_plane rec in
  function_id <-! lift (psci_function_id plane) ;;
  _ <-! guard (rec_is_plane_0_active rec) ;;
  if negb (pending_op rec =? REC_PENDING_PSCI_COMPLETE) then ret RMI_ERROR_INPUT else
  if is_cpu_on function_id then
    plane' <-! lift (set_call_result PSCI_RETURN_DENIED plane) ;;
    _ <-! store_rec g (set_active_plane plane' rec) ;;
    _ <-! rec_set_pending_op g REC_PENDING_NONE ;;
    ret RMI_SUCCESS
  else ret RMI_ERROR_INPUT.

Definition psci_target_rec_matches (g_calling g_target : Z) : P bool :=
  calling_rec <-! map_rec g_calling ;;
  target_rec <-! map_rec g_target ;;
  _ <-! guard (rec_is_plane_0_active calling_rec) ;;
  x1 <-! lift (arr_get (regs (rec_active_plane calling_rec)) 1) ;;
  ret ((g_rd calling_rec =? g_rd target_rec) && (mpidr_to_rec_mpidr x1 =? mpidr target_rec)).

Definition psci_complete_request (g_calling g_target status : Z) : P Z :=
  calling_rec <-! map_rec g_calling ;;
  let plane := rec_active_plane calling_rec in
  function_id <-! lift (psci_function_id plane) ;;
  sctlr <-! lift (active_sctlr_el1 calling_rec) ;;
  _ <-! guard (rec_is_plane_0_active calling_rec) ;;
  if negb (pending_op calling_rec =? REC_PENDING_PSCI_COMPLETE) then ret RMI_ERROR_INPUT else
  matches <-! psci_target_rec_matches g_calling g_target ;;
  if negb matches then ret RMI_ERROR_INPUT else
  _ <-! guard (is_cpu_on function_id) ;;
  if negb (status =? PSCI_RETURN_SUCCESS) && negb (status =? PSCI_RETURN_DENIED) then ret RMI_ERROR_INPUT else
  x2 <-! lift (arr_get (regs plane) 2) ;;
  x3 <-! lift (arr_get (regs plane) 3) ;;
  rec_ret <-! complete_psci_cpu_on g_target x2 x3 sctlr status ;;
  let status' := if (status =? PSCI_RETURN_DENIED) && (rec_ret =? PSCI_RETURN_ALREADY_ON)
                 then RMI_ERROR_INPUT else RMI_SUCCESS in
  plane' <-! lift (set_call_result rec_ret plane) ;;
  _ <-! update_rec g_calling (set_active_plane plane') ;;
  _ <-! rec_set_pending_op g_calling REC_PENDING_NONE ;;
  ret status'.

(** Status, and the granule of the REC when it is [RMI_SUCCESS]. *)
Definition find_lock_map_psci_calling_rec (calling_rec_addr : Z) : P (Z * option Z) :=
  found <-! p_mem (find_lock_fine_granule calling_rec_addr GRANULE_STATE_REC) ;;
  if negb (fst found =? RMI_SUCCESS) then ret (fst found, None) else
  g <-! lift (snd found) ;;
  count <-! refcount_acquire g ;;
  if negb (count =? 0) then _ <-! p_unlock g ;; ret (RMI_ERROR_INPUT, None) else
  rec <-! map_rec g ;;
  if negb (pending_op rec =? REC_PENDING_PSCI_COMPLETE) then _ <-! p_unlock g ;; ret (RMI_ERROR_INPUT, None) else
  ret (RMI_SUCCESS, Some g).

Definition smc_psci_complete_denied (calling_rec_addr : Z) : P Z :=
  r <-! find_lock_map_psci_calling_rec calling_rec_addr ;;
  match r with
  | (status, None) => ret status
  | (_, Some g) =>
      status <-! psci_complete_denied_request g ;;
      _ <-! p_unlock g ;;
      ret status
  end.

(** [smc_psci_complete] up to the point where it holds no lock: the status to
    return, or the address of the target. *)
Definition psci_complete_begin (calling_rec_addr : Z) : P (Z + Z) :=
  if negb (GRANULE_ALIGNED calling_rec_addr) then ret (inl RMI_ERROR_INPUT) else
  r <-! find_lock_map_psci_calling_rec calling_rec_addr ;;
  match r with
  | (status, None) => ret (inl status)
  | (_, Some g) =>
      rec <-! map_rec g ;;
      _ <-! p_unlock g ;;
      ret (inr (target_rec_addr rec))
  end.

(** The rest of it. *)
Definition psci_complete_finish (calling_rec_addr target_rec_addr status : Z) : P Z :=
  found <-! p_mem (find_lock_two_fine_granules calling_rec_addr GRANULE_STATE_REC target_rec_addr GRANULE_STATE_REC) ;;
  let '(st, g1, g2) := found in
  if negb (st =? RMI_SUCCESS) then
    if (status =? PSCI_RETURN_DENIED) && (st =? RMI_ERROR_INPUT) then smc_psci_complete_denied calling_rec_addr
    else ret st
  else
  g_calling <-! lift g1 ;;
  g_target <-! lift g2 ;;
  count <-! refcount_acquire g_calling ;;
  st <-! (if negb (count =? 0) then ret RMI_ERROR_INPUT else
          matches <-! psci_target_rec_matches g_calling g_target ;;
          if negb matches then
            if status =? PSCI_RETURN_DENIED then psci_complete_denied_request g_calling else ret RMI_ERROR_INPUT
          else psci_complete_request g_calling g_target status) ;;
  _ <-! p_unlock g_calling ;;
  _ <-! p_unlock g_target ;;
  ret st.

Definition smc_psci_complete (calling_rec_addr status : Z) : P Z :=
  r <-! psci_complete_begin calling_rec_addr ;;
  match r with
  | inl st => ret st
  | inr target => psci_complete_finish calling_rec_addr target status
  end.

(** ** Entry and exit of a REC

    [smc_rec_enter] in the parts between which it holds no lock. *)

(** Up to the release of the REC lock: the status to return, or the REC with its
    reference taken. *)
Definition rec_enter_lock (rec_addr rec_run_addr : Z) : P (Z + Z) :=
  if negb (GRANULE_ALIGNED rec_run_addr) then ret (inl RMI_ERROR_INPUT) else
  found <-! p_mem (find_lock_fine_granule rec_addr GRANULE_STATE_REC) ;;
  if negb (fst found =? RMI_SUCCESS) then ret (inl (fst found)) else
  g <-! lift (snd found) ;;
  count <-! refcount_acquire g ;;
  if negb (count =? 0) then _ <-! p_unlock g ;; ret (inl RMI_ERROR_REC) else
  rec <-! map_rec g ;;
  if negb (runnable rec) then _ <-! p_unlock g ;; ret (inl RMI_ERROR_REC) else
  _ <-! p_mem (on_desc g atomic_granule_get) ;;
  _ <-! p_unlock g ;;
  ret (inr g).

(** From [out_unmap_buffers]: leave the realm and drop the reference. *)
Definition rec_enter_out (g : Z) : P unit :=
  rec <-! map_rec g ;;
  rd <-! p_map_rd (g_rd rec) ;;
  word <-! lift (rd_active_rec_count_dec (state_and_count rd)) ;;
  _ <-! p_store_rd (g_rd rec) (set_state_and_count rd word) ;;
  p_mem (on_desc g atomic_granule_put_release).

(** The checks after the release of the lock ([ns_ok]: the run structure could be
    read): the status to return, or nothing when the REC may run. *)
Definition rec_enter_admit (g : Z) (ns_ok : bool) : P (option Z) :=
  if negb ns_ok then _ <-! p_mem (on_desc g atomic_granule_put_release) ;; ret (Some RMI_ERROR_INPUT) else
  rec <-! map_rec g ;;
  rd <-! p_map_rd (g_rd rec) ;;
  inc <-! lift (inc_if_active_desired (state_and_count rd)) ;;
  match inc with
  | None => _ <-! p_mem (on_desc g atomic_granule_put_release) ;; ret (Some RMI_ERROR_REALM)
  | Some word =>
      _ <-! p_store_rd (g_rd rec) (set_state_and_count rd word) ;;
      if negb (pending_op rec =? REC_PENDING_NONE) then
        _ <-! guard (pending_op rec =? REC_PENDING_PSCI_COMPLETE) ;;
        _ <-! rec_enter_out g ;;
        ret (Some RMI_ERROR_REC)
      else ret None
  end.

End Lookup.
