(* ===== verification/PsciProps.v ===== *)
(** * Lemmas on PSCI: register copies, MPIDR formats, one service at a time *)

From Stdlib Require Import ZArith Lia Bool ZifyBool.
From stdpp Require Import base tactics option list numbers gmap.
From S2P Require Import Prelude.
From S2P Require Import Utils.
From S2P Require Import Status.
From S2P Require Import Granule.
From S2P Require Import Mem.
From S2P Require Import Sarray.
From S2P Require Import Realm.
From S2P Require Import Rmm.
From S2P Require Import Psci.

(** ** Register copies *)

(** A loop that stores [f i] at each index [i] of a range of an array. *)
Lemma for_upM_store (f : Z -> option Z) n : forall lo (d vals : list Z),
  0 <= lo -> length vals = n -> lo + Z.of_nat n <= Z.of_nat (length d) ->
  (forall k v, vals !! k = Some v -> f (lo + Z.of_nat k) = Some v) ->
  for_upM n lo (fun i d => v ← f i; arr_set d i v) d =
    Some (take (Z.to_nat lo) d ++ vals ++ drop (Z.to_nat lo + n) d).
Proof.
  induction n as [|n IH]; intros lo d vals Hlo Hv Hd Hf; cbn [for_upM].
  - destruct vals; [|discriminate Hv]. by rewrite Nat.add_0_r, app_nil_l, take_drop.
  - destruct vals as [|v vals]; [discriminate Hv|]. pose proof (Hf 0%nat v eq_refl) as H0. rewrite Z.add_0_r in H0.
    rewrite H0. cbn [mbind option_bind]. rewrite arr_set_some by lia. cbn [mbind option_bind].
    rewrite (IH (lo + 1) _ vals); [|lia|by injection Hv|rewrite length_insert; lia|].
    + f_equal. replace (Z.to_nat (lo + 1)) with (S (Z.to_nat lo)) by lia.
      rewrite (insert_take_drop d (Z.to_nat lo) v) by lia.
      assert (Hl : length (take (Z.to_nat lo) d) = Z.to_nat lo) by (rewrite length_take; lia).
      rewrite take_app_ge, drop_app_ge by lia. rewrite Hl.
      replace (S (Z.to_nat lo) - Z.to_nat lo)%nat with 1%nat by lia.
      replace (S (Z.to_nat lo) + n - Z.to_nat lo)%nat with (S n) by lia.
      cbn [take drop]. rewrite drop_drop, take_0, <- app_assoc. f_equal. cbn [app]. f_equal. f_equal. f_equal. lia.
    + intros k w Hk. rewrite <- (Hf (S k) w Hk). f_equal. lia.
Qed.

Lemma copy_regs_ok n lo src d :
  0 <= lo -> lo + Z.of_nat n <= Z.of_nat (length src) -> lo + Z.of_nat n <= Z.of_nat (length d) ->
  copy_regs n lo src d =
    Some (take (Z.to_nat lo) d ++ take n (drop (Z.to_nat lo) src) ++ drop (Z.to_nat lo + n) d).
Proof.
  intros Hlo Hs Hd. apply for_upM_store; [lia|rewrite length_take, length_drop; lia|lia|].
  intros k v Hk. assert (k < n)%nat by (apply lookup_lt_Some in Hk; rewrite length_take in Hk; lia).
  rewrite lookup_take_lt, lookup_drop in Hk by done. unfold arr_get.
  rewrite (proj2 (Z.leb_le _ _)) by lia. rewrite <- Hk. f_equal. lia.
Qed.

(** The first [count] registers go to the host, the others are zero. *)
Lemma forward_args_ok count plane exit :
  0 <= count <= 4 -> length (regs plane) = 31%nat -> length (gprs exit) = 31%nat ->
  forward_args_to_host count plane exit =
    Some (RecExit (exit_reason exit) (take (Z.to_nat count) (regs plane) ++ replicate (Z.to_nat (31 - count)) 0)).
Proof.
  intros Hc Hr Hg. unfold forward_args_to_host. rewrite (proj2 (Z.leb_le _ _)) by lia.
  change (for_upM (Z.to_nat count) 0 _ (gprs exit)) with (copy_regs (Z.to_nat count) 0 (regs plane) (gprs exit)).
  rewrite copy_regs_ok by lia. change (Z.to_nat 0) with 0%nat. rewrite drop_0, Nat.add_0_l, take_0, app_nil_l.
  cbn [mbind option_bind].
  rewrite (for_upM_store (fun _ => Some 0) _ count _ (replicate (Z.to_nat (31 - count)) 0)).
  - cbn [mbind option_bind]. rewrite take_app_le, drop_ge, app_nil_r by
      (rewrite ?length_app, ?length_drop, ?length_take; unfold REC_EXIT_NR_GPRS; lia).
    rewrite take_take. by replace (Z.to_nat count `min` Z.to_nat count)%nat with (Z.to_nat count) by lia.
  - lia.
  - rewrite length_replicate. done.
  - rewrite length_app, length_drop, length_take. unfold REC_EXIT_NR_GPRS. lia.
  - intros k v Hk. apply lookup_replicate in Hk as [<- _]. done.
Qed.

Lemma set_call_result_ok v p :
  (4 <= length (regs p))%nat ->
  set_call_result v p = Some (RecPlane (v :: 0 :: 0 :: 0 :: drop 4 (regs p)) (plane_pc p) (plane_pstate p)).
Proof.
  intros H. unfold set_call_result. destruct (regs p) as [|a [|b [|c [|d l]]]]; cbn in H; try lia.
  do 4 (rewrite arr_set_some by (rewrite ?length_insert; cbn [length]; lia); cbn [mbind option_bind]). done.
Qed.

(** ** MPIDR formats *)

(** The masks of the two formats. *)
Lemma mpidr_to_rec_mask m :
  mpidr_to_rec_mpidr m = Z.lor (Z.land m 0xFFFF0F) (Z.shiftr (Z.land m 0xFF00000000) 8).
Proof. reflexivity. Qed.
Lemma rec_mpidr_to_mask m :
  rec_mpidr_to_mpidr m = Z.lor (Z.land m 0xFFFF0F) (u64 (Z.shiftl (Z.land m 0xFF000000) 8)).
Proof. reflexivity. Qed.
Lemma rec_mpidr_valid_mask m : rec_mpidr_is_valid m = (Z.land m 0xFFFFFFFF000000F0 =? 0).
Proof. reflexivity. Qed.

Lemma field_land m w s : 0 <= w -> 0 <= s -> Z.land m (Z.shiftl (Z.ones w) s) = Z.shiftl ((m / 2 ^ s) mod 2 ^ w) s.
Proof.
  intros Hw Hs. rewrite <- Z.land_ones, <- Z.shiftr_div_pow2, Z.shiftl_land by done. symmetry. apply land_shiftl_shiftr; [done|].
  apply Z.bits_inj'. intros i Hi. rewrite Z.land_spec, Z.shiftl_spec, Z.bits_0 by lia. destruct (Z.lt_ge_cases i s).
  - by rewrite Z.testbit_neg_r by lia.
  - by rewrite (Z.ones_spec_high s), andb_false_r by lia.
Qed.

(** A conversion is the four affinity fields, side by side. *)
Lemma mpidr_fields m :
  mpidr_to_rec_mpidr m = EXTRACT MPIDR_EL1_AFF0 m + EXTRACT MPIDR_EL1_AFF1 m * 2 ^ 8 +
    EXTRACT MPIDR_EL1_AFF2 m * 2 ^ 16 + EXTRACT MPIDR_EL1_AFF3 m * 2 ^ 24.
Proof.
  rewrite !EXTRACT_spec by (repeat split; cbv; congruence). cbn [f_shift f_width MPIDR_EL1_AFF0 MPIDR_EL1_AFF1 MPIDR_EL1_AFF2 MPIDR_EL1_AFF3].
  set (a0 := (m / 2 ^ 0) mod 2 ^ 4). set (a1 := (m / 2 ^ 8) mod 2 ^ 8). set (a2 := (m / 2 ^ 16) mod 2 ^ 8). set (a3 := (m / 2 ^ 32) mod 2 ^ 8).
  assert (0 <= a0 < 2 ^ 4 /\ 0 <= a1 < 2 ^ 8 /\ 0 <= a2 < 2 ^ 8 /\ 0 <= a3 < 2 ^ 8) as (H0 & H1 & H2 & H3)
    by (split_and!; apply Z.mod_pos_bound; lia).
  assert (E : mpidr_to_rec_mpidr m = Z.lor (Z.shiftl a3 24) (Z.lor (Z.shiftl a2 16) (Z.lor (Z.shiftl a1 8) a0))).
  { rewrite mpidr_to_rec_mask. change 0xFFFF0F with (Z.lor (Z.shiftl (Z.ones 8) 16) (Z.lor (Z.shiftl (Z.ones 8) 8) (Z.shiftl (Z.ones 4) 0))).
    change 0xFF00000000 with (Z.shiftl (Z.ones 8) 32). rewrite !Z.land_lor_distr_r, !field_land by lia. fold a0 a1 a2 a3.
    rewrite Z.shiftl_0_r. rewrite Z.shiftr_shiftl_l by lia. change (32 - 8) with 24. lor_ac. }
  rewrite E, (lor_shiftl_add a1 a0 8), (lor_shiftl_add a2 _ 16), (lor_shiftl_add a3 _ 24) by lia. lia.
Qed.

(** The two MPIDR formats.  A REC's MPIDR survives the trip through the
    register format, so that a realm which names the MPIDR_EL1 of a REC names
    that REC; the conversion of any register value is a valid REC MPIDR, and two
    register values have the same conversion exactly when they agree on the
    affinity fields. *)
Theorem mpidr_formats_roundtrip m m' :
  in_u64 m -> in_u64 m' ->
  (rec_mpidr_is_valid m = true -> mpidr_to_rec_mpidr (rec_mpidr_to_mpidr m) = m) /\
  rec_mpidr_is_valid (mpidr_to_rec_mpidr m) = true /\
  (mpidr_to_rec_mpidr m = mpidr_to_rec_mpidr m' <->
   EXTRACT MPIDR_EL1_AFF0 m = EXTRACT MPIDR_EL1_AFF0 m' /\ EXTRACT MPIDR_EL1_AFF1 m = EXTRACT MPIDR_EL1_AFF1 m' /\
   EXTRACT MPIDR_EL1_AFF2 m = EXTRACT MPIDR_EL1_AFF2 m' /\ EXTRACT MPIDR_EL1_AFF3 m = EXTRACT MPIDR_EL1_AFF3 m').
Proof.
  intros Hm Hm'. split_and!.
  - rewrite rec_mpidr_valid_mask. intros Hv%Z.eqb_eq. rewrite mpidr_to_rec_mask, rec_mpidr_to_mask. mask_simpl.
    rewrite <- Z.land_lor_distr_r. change (Z.lor 16776975 4278190080) with (Z.lxor 0xFFFFFFFF000000F0 UINT64_MAX).
    rewrite <- (u64_small m Hm) at 2. rewrite u64_land. apply Z.bits_inj'. intros i Hi.
    apply (f_equal (fun z => Z.testbit z i)) in Hv. rewrite Z.bits_0, Z.land_spec in Hv.
    rewrite !Z.land_spec, Z.lxor_spec. destruct (Z.testbit m i); [|done]. cbn [andb] in *. by rewrite Hv, xorb_false_l.
  - rewrite rec_mpidr_valid_mask, mpidr_to_rec_mask. mask_simpl. done.
  - rewrite !mpidr_fields, !EXTRACT_spec by (repeat split; cbv; congruence).
    cbn [f_shift f_width MPIDR_EL1_AFF0 MPIDR_EL1_AFF1 MPIDR_EL1_AFF2 MPIDR_EL1_AFF3].
    pose proof (fun k => Z.mod_pos_bound (m / 2 ^ k) (2 ^ 4) ltac:(lia)) as B4.
    pose proof (fun k => Z.mod_pos_bound (m / 2 ^ k) (2 ^ 8) ltac:(lia)) as B8.
    pose proof (fun k => Z.mod_pos_bound (m' / 2 ^ k) (2 ^ 4) ltac:(lia)) as B4'.
    pose proof (fun k => Z.mod_pos_bound (m' / 2 ^ k) (2 ^ 8) ltac:(lia)) as B8'.
    pose proof (B4 0). pose proof (B8 8). pose proof (B8 16). pose proof (B8 32).
    pose proof (B4' 0). pose proof (B8' 8). pose proof (B8' 16). pose proof (B8' 32). lia.
Qed.

Lemma mpidr_formats_roundtrip_witness :
  rec_mpidr_is_valid 0x12000003 = true /\ mpidr_to_rec_mpidr (rec_mpidr_to_mpidr 0x12000003) = 0x12000003.
Proof.
  split; [reflexivity|].
  apply (mpidr_formats_roundtrip 0x12000003 0); [split; [discriminate|reflexivity]|split; [discriminate|reflexivity]|reflexivity].
Defined.
