(* ===== verification/PsciInv.v ===== *)
(** * RECs on several PEs: the steps and the invariant

    A PE is idle, or is inside [RMI_REC_ENTER] (after its reference to the REC is
    taken, while the realm runs, or on the way out), or is between the two halves
    of [RMI_PSCI_COMPLETE].  One step of a PE is the code it runs from one point
    where it holds no lock to the next; between two steps of a PE any other PE may
    act.  What the realm does on its own while a REC runs is arbitrary: it can
    leave any contents in the registers of the planes and any plane active. *)

From Stdlib Require Import ZArith Lia Bool ZifyBool.
From stdpp Require Import base tactics option list numbers gmap.
From S2P Require Import Prelude.
From S2P Require Import Utils.
From S2P Require Import Status.
From S2P Require Import Granule.
From S2P Require Import Mem.
From S2P Require Import Sarray.
From S2P Require Import Realm.
From S2P Require Import Rmm.
From S2P Require Import Psci.
From S2P Require Import PsciProps.

(** [x0] is the result of the last command. *)
Inductive pe :=
  | P_idle (x0 : Z)
  | P_enter (g : Z)
  | P_run (g : Z)
  | P_leave (g : Z)
  | P_complete (calling_rec_addr target_rec_addr status : Z).

(** What a PE is asked to do. *)
Inductive request :=
  | Q_rec_enter (rec_addr rec_run_addr : Z)
  | Q_admit (ns_ok : bool)
  | Q_realm (p0 pn : rec_plane) (sys : list Z) (active : Z)
  | Q_psci
  | Q_exit
  | Q_leave (status : Z)
  | Q_complete (calling_rec_addr status : Z)
  | Q_finish.

Definition REC_NR_GPRS : nat := 31.

(** The shape of [struct rec]: the register files have 31 registers, there are
    sysregs for each plane, and the active plane is one of them. *)
Definition rec_shape (r : rec) : bool :=
  Nat.eqb (length (regs (plane_0 r))) REC_NR_GPRS && Nat.eqb (length (regs (plane_n r))) REC_NR_GPRS &&
  (0 <=? active_plane_id r) && (active_plane_id r <? rec_num_planes r) &&
  (rec_num_planes r <=? Z.of_nat (length (sysregs r))).

(** The realm leaves these planes behind. *)
Definition realm_runs (g : Z) (p0 pn : rec_plane) (sys : list Z) (active : Z) : P unit :=
  rec <-! map_rec g ;;
  let rec' := set_planes p0 pn sys active rec in
  if rec_shape rec' then store_rec g rec' else ret tt.

(** Whether the pending call of the realm is a PSCI call by plane 0. *)
Definition psci_call_pending (g : Z) : P bool :=
  rec <-! map_rec g ;;
  function_id <-! lift (rsi_function_id (rec_active_plane rec)) ;;
  ret (rec_is_plane_0_active rec && is_psci_fid function_id).

Definition zero_exit : rmi_rec_exit := RecExit 0 (replicate REC_NR_GPRS 0).

Section Steps.
Context `{pairs : PairLookup}.

(** The code a PE runs for a request, when it can act on it. *)
Definition pe_step (p : pe) (q : request) : option (P pe) :=
  match p, q with
  | P_idle _, Q_rec_enter rec_addr rec_run_addr => Some
      (r <-! rec_enter_lock rec_addr rec_run_addr ;;
       ret (match r with inl status => P_idle status | inr g => P_enter g end))
  | P_enter g, Q_admit ns_ok => Some
      (r <-! rec_enter_admit g ns_ok ;;
       ret (match r with Some status => P_idle status | None => P_run g end))
  | P_run g, Q_realm p0 pn sys active => Some (_ <-! realm_runs g p0 pn sys active ;; ret (P_run g))
  | P_run g, Q_psci => Some
      (called <-! psci_call_pending g ;;
       if called : bool then
         r <-! handle_realm_rsi_psci g zero_exit ;;
         ret (if snd r : bool then P_run g else P_leave g)
       else ret (P_run g))
  | P_run g, Q_exit => Some (ret (P_leave g))
  | P_leave g, Q_leave status => Some (_ <-! rec_enter_out g ;; ret (P_idle status))
  | P_idle _, Q_complete calling_rec_addr status => Some
      (r <-! psci_complete_begin calling_rec_addr ;;
       ret (match r with inl st => P_idle st | inr target => P_complete calling_rec_addr target status end))
  | P_complete calling_rec_addr target status, Q_finish => Some
      (st <-! psci_complete_finish calling_rec_addr target status ;; ret (P_idle st))
  | _, _ => None
  end.

End Steps.

(** A world: the state of the realms and what each PE does. *)
Record pworld := PWorld { w_st : realms; w_pes : list pe }.

Inductive pstep `{pairs : PairLookup} (w : pworld) : nat -> request -> pworld -> Prop :=
  | pstep_intro i p q c p' s' :
      w_pes w !! i = Some p -> pe_step p q = Some c -> c (w_st w) = Some (p', s') ->
      pstep w i q (PWorld s' (<[i := p']> (w_pes w))).

Inductive preachable `{pairs : PairLookup} (w0 : pworld) : pworld -> Prop :=
  | pr_init : preachable w0 w0
  | pr_step w i q w' : preachable w0 w -> pstep w i q w' -> preachable w0 w'.

(** ** The invariant *)

(** [p] holds the reference to the REC of [g]. *)
Definition holds (g : Z) (p : pe) : bool :=
  match p with P_enter h | P_run h | P_leave h => h =? g | _ => false end.

(** [p] is counted in the realm of RD [x]. *)
Definition counted (recs : gmap Z rec) (x : Z) (p : pe) : bool :=
  match p with
  | P_run h | P_leave h => match recs !! h with Some r => g_rd r =? x | None => false end
  | _ => false
  end.

(** A pending request is a CPU_ON of plane 0. *)
Definition pending_ok (r : rec) : Prop :=
  pending_op r = REC_PENDING_NONE \/
  (pending_op r = REC_PENDING_PSCI_COMPLETE /\ active_plane_id r = PLANE_0_ID /\
   exists id, psci_function_id (plane_0 r) = Some id /\ is_cpu_on id = true).

Record rec_ok (rds : gmap Z rd) (g : Z) (r : rec) : Prop := {
  ro_self : g_rec r = g;
  ro_rd : is_Some (rds !! g_rd r);
  ro_shape : rec_shape r = true;
  ro_pending : pending_ok r;
  ro_off : runnable r = false -> active_plane_id r = PLANE_0_ID /\ pending_op r = REC_PENDING_NONE
}.

Section Inv.
Context `{names : GranuleNames}.

(** The table of RECs of a realm names granules. *)
Definition rec_map_ok (mm : mpidr_rec_map) : Prop :=
  h_elem_sz (rec_map_hnd mm) = REC_MAP_SIZE /\
  exists t, represents (rec_map_hnd mm) (rec_map_mem mm) t /\
    forall k v, t !! k = Some v -> exists addr g, v = [addr] /\ tr_addr_to_granule addr = Some g.

(** The packed word of a realm counts the PEs inside. *)
Record rd_ok (m : mem) (maps : gmap Z mpidr_rec_map) (n : Z) (x : Z) (d : rd) : Prop := {
  do_granule : exists c, granule_at m x (AGranule false GRANULE_STATE_RD c);
  do_word : exists st, 0 <= st < 4 /\ state_and_count d = sc st n;
  do_map : exists mm, maps !! x = Some mm /\ rec_map_ok mm
}.

Definition pe_ok (recs : gmap Z rec) (p : pe) : Prop :=
  match p with
  | P_enter g => exists r, recs !! g = Some r /\ runnable r = true
  | P_run g => exists r, recs !! g = Some r /\ runnable r = true /\ pending_op r = REC_PENDING_NONE
  | P_leave g => is_Some (recs !! g)
  | _ => True
  end.

Record pinv (w : pworld) : Prop := {
  pi_granules : forall addr g, tr_addr_to_granule addr = Some g ->
    exists a, granule_at (s_mem (w_st w)) g a /\ a_locked a = false;
  pi_refs : forall g r, s_recs (w_st w) !! g = Some r ->
    granule_at (s_mem (w_st w)) g (AGranule false GRANULE_STATE_REC (count (holds g) (w_pes w)));
  pi_states : forall g a, granule_at (s_mem (w_st w)) g a -> a_state a = GRANULE_STATE_REC -> is_Some (s_recs (w_st w) !! g);
  pi_recs : forall g r, s_recs (w_st w) !! g = Some r -> rec_ok (s_rds (w_st w)) g r;
  pi_rds : forall x d, s_rds (w_st w) !! x = Some d ->
    rd_ok (s_mem (w_st w)) (s_rec_maps (w_st w)) (count (counted (s_recs (w_st w)) x) (w_pes w)) x d;
  pi_pes : forall i p, w_pes w !! i = Some p -> pe_ok (s_recs (w_st w)) p;
  pi_bound : Z.of_nat (length (w_pes w)) < 2 ^ 62
}.

(** ** What keeps it *)

Implicit Types (w : pworld) (s : realms) (p : pe) (r : rec) (d : rd).

Lemma counted_ext recs recs' x p :
  (forall h, g_rd <$> recs' !! h = g_rd <$> recs !! h) -> counted recs' x p = counted recs x p.
Proof.
  intros H. destruct p as [|g|g|g|]; try done; cbn; specialize (H g); destruct (recs' !! g), (recs !! g); cbn in H; congruence.
Qed.

Lemma count_ext {A} (f f' : A -> bool) l : (forall x, f x = f' x) -> count f l = count f' l.
Proof.
  intros H. unfold count. f_equal. f_equal. apply list_filter_iff. intros x. by rewrite H.
Qed.

Lemma ref_ok_rec c : 0 <= c <= REFCOUNT_MAX GRN -> ref_ok GRANULE_STATE_REC c = (c <=? 1).
Proof.
  intros Hc. unfold ref_ok, granule_unlocked_invariants. rewrite encode_refcount; [done|by left|]. split; [cbn; lia|exact Hc].
Qed.

Lemma holds_le w g r : pinv w -> s_recs (w_st w) !! g = Some r -> 0 <= count (holds g) (w_pes w) <= 1.
Proof.
  intros Hinv Hr. pose proof (count_nonneg (holds g) (w_pes w)). destruct (pi_refs w Hinv g r Hr) as (_ & [_ Hwf] & Hok).
  cbn [a_state a_ref] in Hok, Hwf. rewrite ref_ok_rec in Hok by done. lia.
Qed.

Lemma pe_ok_held recs p g : pe_ok recs p -> holds g p = true -> is_Some (recs !! g).
Proof.
  destruct p as [|h|h|h|]; cbn; try done.
  - intros (r & Hr & _) ->%Z.eqb_eq. by exists r.
  - intros (r & Hr & _) ->%Z.eqb_eq. by exists r.
  - intros Hr ->%Z.eqb_eq. done.
Qed.

(** At most one PE holds a REC. *)
Lemma holds_unique w g i j p q :
  pinv w -> w_pes w !! i = Some p -> w_pes w !! j = Some q -> holds g p = true -> holds g q = true -> i = j.
Proof.
  intros Hinv Hi Hj Hp Hq. destruct (pe_ok_held _ p g (pi_pes w Hinv i p Hi) Hp) as [r Hr].
  pose proof (holds_le w g r Hinv Hr). pose proof (count_pos (holds g) _ _ _ Hi Hp).
  eapply (count_one (holds g) (P_idle 0)); eauto. lia.
Qed.

Lemma pe_ok_frame recs recs' p :
  (forall g, holds g p = true -> recs' !! g = recs !! g) -> pe_ok recs p -> pe_ok recs' p.
Proof. intros H. destruct p as [|h|h|h|]; cbn; rewrite ?(H h) by (cbn; apply Z.eqb_refl); done. Qed.

(** A change of RECs that PE [i] holds, or that nobody holds, does not matter to
    the other PEs. *)
Lemma pe_ok_others w i p recs' :
  pinv w -> w_pes w !! i = Some p ->
  (forall g, recs' !! g = s_recs (w_st w) !! g \/ holds g p = true \/ count (holds g) (w_pes w) = 0) ->
  forall j q, j <> i -> w_pes w !! j = Some q -> pe_ok recs' q.
Proof.
  intros Hinv Hi Hch j q Hj Hq. eapply pe_ok_frame; [|by eapply pi_pes]. intros g Hg.
  destruct (Hch g) as [|[Hp|H0]]; [done| |].
  - exfalso. apply Hj. by eapply (holds_unique w g).
  - by rewrite (count_zero _ _ _ _ H0 Hq) in Hg.
Qed.

(** What a step may do to the descriptors. *)
Definition refs_step (m m' : mem) (recs : gmap Z rec) (pes' : list pe) (p p' : pe) : Prop :=
  (m' = m /\ forall g, holds g p' = holds g p) \/
  (exists g0, is_Some (recs !! g0) /\ 0 <= count (holds g0) pes' <= 1 /\
     m' = set_granule m g0 (AGranule false GRANULE_STATE_REC (count (holds g0) pes')) /\
     forall g, g <> g0 -> holds g p' = holds g p).

Lemma rec_granule_wf c : 0 <= c <= 1 ->
  a_wf GRN (AGranule false GRANULE_STATE_REC c) /\ ref_ok GRANULE_STATE_REC c = true.
Proof. intros Hc. assert (c = 0 \/ c = 1) as [-> | ->] by lia; repeat split; cbn; cbv; congruence. Qed.

Lemma holds_insert w i p p' g : w_pes w !! i = Some p -> holds g p' = holds g p ->
  count (holds g) (<[i := p']> (w_pes w)) = count (holds g) (w_pes w).
Proof. intros Hi Hp. rewrite (count_insert _ _ _ _ _ Hi), Hp. lia. Qed.

(** Descriptors other than the REC's stay. *)
Lemma refs_step_other w i p p' m' g a :
  pinv w -> w_pes w !! i = Some p -> refs_step (s_mem (w_st w)) m' (s_recs (w_st w)) (<[i := p']> (w_pes w)) p p' ->
  granule_at (s_mem (w_st w)) g a -> a_state a <> GRANULE_STATE_REC -> granule_at m' g a.
Proof.
  intros Hinv Hi [[-> _]|(g0 & [r Hr] & Hc & -> & _)] Ha Hs; [done|].
  destruct (rec_granule_wf _ Hc) as [H1 H2]. apply granule_at_set; try done. right. split; [|done].
  intros ->. pose proof (granule_at_inj _ _ _ _ Ha (pi_refs w Hinv g0 r Hr)) as ->. done.
Qed.

Lemma refs_step_refs w i p p' m' g r :
  pinv w -> w_pes w !! i = Some p -> refs_step (s_mem (w_st w)) m' (s_recs (w_st w)) (<[i := p']> (w_pes w)) p p' ->
  s_recs (w_st w) !! g = Some r ->
  granule_at m' g (AGranule false GRANULE_STATE_REC (count (holds g) (<[i := p']> (w_pes w)))).
Proof.
  intros Hinv Hi [[-> Hh]|(g0 & _ & Hc & -> & Hh)] Hr.
  - rewrite (holds_insert w i p) by auto. by eapply pi_refs.
  - destruct (rec_granule_wf _ Hc) as [H1 H2]. apply granule_at_set; try done.
    destruct (decide (g = g0)) as [->|Hne]; [by left|right]. split; [done|].
    rewrite (holds_insert w i p) by auto. by eapply pi_refs.
Qed.

Lemma refs_step_back w i p p' m' g a :
  pinv w -> w_pes w !! i = Some p -> refs_step (s_mem (w_st w)) m' (s_recs (w_st w)) (<[i := p']> (w_pes w)) p p' ->
  granule_at m' g a -> is_Some (s_recs (w_st w) !! g) \/ granule_at (s_mem (w_st w)) g a.
Proof.
  intros Hinv Hi [[-> Hh]|(g0 & Hs & Hc & -> & Hh)] Ha; [by right|].
  destruct (decide (g = g0)) as [->|Hne]; [by left|right]. destruct Ha as (Hd & H1 & H2). split; [|done].
  cbn [set_granule descs] in Hd. by rewrite lookup_insert_ne in Hd by done.
Qed.

Lemma pinv_step w i p s' p' :
  pinv w -> w_pes w !! i = Some p ->
  (forall h, g_rd <$> s_recs s' !! h = g_rd <$> s_recs (w_st w) !! h) ->
  s_rec_maps s' = s_rec_maps (w_st w) ->
  refs_step (s_mem (w_st w)) (s_mem s') (s_recs (w_st w)) (<[i := p']> (w_pes w)) p p' ->
  (forall g r', s_recs s' !! g = Some r' -> rec_ok (s_rds s') g r') ->
  (forall x d', s_rds s' !! x = Some d' -> is_Some (s_rds (w_st w) !! x) /\
     exists st, 0 <= st < 4 /\ state_and_count d' = sc st (count (counted (s_recs (w_st w)) x) (<[i := p']> (w_pes w)))) ->
  (forall j q, j <> i -> w_pes w !! j = Some q -> pe_ok (s_recs s') q) -> pe_ok (s_recs s') p' ->
  pinv (PWorld s' (<[i := p']> (w_pes w))).
Proof.
  intros Hinv Hi Hid Hmaps Hrefs Hrecs Hrds Hothers Hp'.
  assert (Hback : forall g, is_Some (s_recs s' !! g) <-> is_Some (s_recs (w_st w) !! g)).
  { intros g. specialize (Hid g). rewrite !is_Some_alt. by destruct (s_recs s' !! g), (s_recs (w_st w) !! g). }
  split; cbn [w_st w_pes].
  - intros addr g Hg. destruct (pi_granules w Hinv addr g Hg) as (a & Ha & Hl).
    destruct (decide (a_state a = GRANULE_STATE_REC)) as [Hs|Hs].
    + destruct (pi_states w Hinv g a Ha Hs) as [r Hr]. eexists. split; [by eapply refs_step_refs|done].
    + exists a. split; [|done]. by eapply (refs_step_other w i p p').
  - intros g r' Hr'. destruct (proj1 (Hback g) ltac:(by exists r')) as [r Hr]. by eapply refs_step_refs.
  - intros g a Ha Hs. apply Hback. destruct (refs_step_back w i p p' _ g a Hinv Hi Hrefs Ha) as [|Ha0]; [done|].
    by eapply pi_states.
  - exact Hrecs.
  - intros x d' Hd'. destruct (Hrds x d' Hd') as ([d Hd] & st & Hst & Hw).
    destruct (pi_rds w Hinv x d Hd) as [(c & Hc) _ Hm]. split.
    + exists c. by eapply (refs_step_other w i p p').
    + exists st. split; [done|]. rewrite Hw. f_equal. apply count_ext. intros q. symmetry. by apply counted_ext.
    + by rewrite Hmaps.
  - intros j q Hj. destruct (decide (j = i)) as [->|Hne].
    + rewrite list_lookup_insert_eq in Hj by (by eapply lookup_lt_Some). by injection Hj as <-.
    + rewrite list_lookup_insert_ne in Hj by done. by eapply Hothers.
  - rewrite length_insert. apply (pi_bound w Hinv).
Qed.

End Inv.
