(* ===== verification/PsciRun.v ===== *)
(** * What the code of a step does

    The code of each step, run in a state that satisfies the invariant: it
    returns, holds no lock at the end, and its effect on the state is given
    exactly. *)

From Stdlib Require Import ZArith Lia Bool ZifyBool.
From stdpp Require Import base tactics option list numbers gmap.
From S2P Require Import Prelude.
From S2P Require Import Utils.
From S2P Require Import Status.
From S2P Require Import Granule.
From S2P Require Import Mem.
From S2P Require Import Sarray.
From S2P Require Import Realm.
From S2P Require Import Rmm.
From S2P Require Import Psci.
From S2P Require Import PsciProps.
From S2P Require Import PsciInv.

Section Run.
Context `{pairs : PairLookup}.
Implicit Types (w : pworld) (s : realms) (p : pe) (r : rec) (d : rd).

Definition with_smem s (m : mem) : realms := Realms m (s_rds s) (s_rec_maps s) (s_recs s).
Definition with_recs s (recs : gmap Z rec) : realms := Realms (s_mem s) (s_rds s) (s_rec_maps s) recs.
Definition with_rds s (rds : gmap Z rd) : realms := Realms (s_mem s) rds (s_rec_maps s) (s_recs s).
(** [s] with granule [g] locked. *)
Definition with_slock s (g : Z) : realms := with_smem s (with_lock (s_mem s) g).

Lemma runs_p_get {A} (f : realms -> option A) x s (Q : A -> realms -> Prop) : f s = Some x -> Q x s -> runs (p_get f) s Q.
Proof. intros Hf HQ. exists x, s. unfold p_get. by rewrite Hf. Qed.

Lemma runs_p_mem {A} (c : M A) x m s (Q : A -> realms -> Prop) :
  c (s_mem s) = Some (x, m) -> Q x (with_smem s m) -> runs (p_mem c) s Q.
Proof. intros Hc HQ. exists x, (with_smem s m). unfold p_mem. by rewrite Hc. Qed.

Lemma runs_store_rec g r s (Q : unit -> realms -> Prop) :
  Q tt (with_recs s (<[g := r]> (s_recs s))) -> runs (store_rec g r) s Q.
Proof. intros HQ. by eexists tt, _. Qed.

Lemma runs_update_rec g f r s (Q : unit -> realms -> Prop) :
  s_recs s !! g = Some r -> Q tt (with_recs s (<[g := f r]> (s_recs s))) -> runs (update_rec g f) s Q.
Proof. intros Hr HQ. eapply runs_bind, runs_p_get; [exact Hr|]. by apply runs_store_rec. Qed.

Lemma runs_unlock s m g a (Q : unit -> realms -> Prop) :
  s_mem s = with_lock m g -> granule_at m g a -> a_locked a = false -> Q tt (with_smem s m) -> runs (p_unlock g) s Q.
Proof. intros Hm Ha Hl HQ. eapply runs_p_mem; [|exact HQ]. rewrite Hm. by eapply with_lock_unlock. Qed.

Lemma with_smem_id s : with_smem s (s_mem s) = s.
Proof. by destruct s. Qed.
Lemma with_smem_slock s g : with_smem (with_slock s g) (s_mem s) = s.
Proof. by destruct s. Qed.

Lemma rec_granule w g r : pinv w -> s_recs (w_st w) !! g = Some r ->
  granule_at (s_mem (w_st w)) g (AGranule false GRANULE_STATE_REC (count (holds g) (w_pes w))).
Proof. intros Hinv Hr. by eapply pi_refs. Qed.

(** Looking a REC up by address. *)
Lemma lock_rec w addr (Q : Z * option Z -> realms -> Prop) :
  pinv w -> (forall st, st <> RMI_SUCCESS -> Q (st, None) (w_st w)) ->
  (forall g r, tr_addr_to_granule addr = Some g -> s_recs (w_st w) !! g = Some r ->
     Q (RMI_SUCCESS, Some g) (with_slock (w_st w) g)) ->
  runs (p_mem (find_lock_fine_granule addr GRANULE_STATE_REC)) (w_st w) Q.
Proof.
  intros Hinv Hno Hyes. destruct (find_lock_fine_spec addr) as [(st & Hst & Hrun)|(g & Hg & Hrun)].
  { eapply runs_p_mem; [apply Hrun|]. rewrite with_smem_id. by apply Hno. }
  destruct (pi_granules w Hinv addr g Hg) as (a & Ha & Hl). specialize (Hrun (s_mem (w_st w)) GRANULE_STATE_REC a Ha).
  rewrite Hl in Hrun. destruct (Z.eqb_spec (a_state a) GRANULE_STATE_REC) as [Hs|Hs]; cbn [negb] in Hrun.
  - destruct (pi_states w Hinv g a Ha Hs) as [r Hr]. eapply runs_p_mem; [exact Hrun|]. by apply (Hyes g r).
  - eapply runs_p_mem; [exact Hrun|]. rewrite with_smem_id. by apply Hno.
Qed.

Lemma refcount_rec w g r s :
  pinv w -> s_recs (w_st w) !! g = Some r -> s_mem s = with_lock (s_mem (w_st w)) g ->
  descs (s_mem s) !! g ≫= refcount_read_acquire GRN = Some (count (holds g) (w_pes w)).
Proof. intros Hinv Hr ->. exact (refcount_locked _ _ _ (rec_granule w g r Hinv Hr) eq_refl). Qed.

Lemma unlock_rec w g r s (Q : unit -> realms -> Prop) :
  pinv w -> s_recs (w_st w) !! g = Some r -> s_mem s = with_lock (s_mem (w_st w)) g ->
  Q tt (with_smem s (s_mem (w_st w))) -> runs (p_unlock g) s Q.
Proof. intros Hinv Hr Hm. eapply runs_unlock; [exact Hm|exact (rec_granule w g r Hinv Hr)|done]. Qed.

(** The calling REC is locked, is not held by a PE, and has a request pending. *)
Lemma find_calling_ok w addr (Q : Z * option Z -> realms -> Prop) :
  pinv w -> (forall st, st <> RMI_SUCCESS -> Q (st, None) (w_st w)) ->
  (forall g r, tr_addr_to_granule addr = Some g -> s_recs (w_st w) !! g = Some r -> count (holds g) (w_pes w) = 0 ->
     pending_op r = REC_PENDING_PSCI_COMPLETE -> Q (RMI_SUCCESS, Some g) (with_slock (w_st w) g)) ->
  runs (find_lock_map_psci_calling_rec addr) (w_st w) Q.
Proof.
  intros Hinv Hno Hyes. apply runs_bind, (lock_rec w); [done| |].
  { intros st Hst. cbn [fst]. rewrite (proj2 (Z.eqb_neq _ _) Hst). apply runs_ret. by apply Hno. }
  intros g r Hg Hr. cbn [fst snd]. rewrite Z.eqb_refl. cbn [negb]. eapply runs_bind, runs_lift; [done|].
  eapply runs_bind, runs_p_get; [by eapply (refcount_rec w)|].
  destruct (Z.eqb_spec (count (holds g) (w_pes w)) 0) as [H0|H0]; cbn [negb].
  2: { apply runs_bind. eapply (unlock_rec w); try done. apply runs_ret. rewrite with_smem_slock. by apply Hno. }
  eapply runs_bind, runs_p_get; [exact Hr|].
  destruct (Z.eqb_spec (pending_op r) REC_PENDING_PSCI_COMPLETE) as [Hp|Hp]; cbn [negb].
  2: { apply runs_bind. eapply (unlock_rec w); try done. apply runs_ret. rewrite with_smem_slock. by apply Hno. }
  apply runs_ret. by eapply Hyes.
Qed.

Lemma complete_begin_ok w addr :
  pinv w -> runs (psci_complete_begin addr) (w_st w) (fun x s' => s' = w_st w).
Proof.
  intros Hinv. unfold psci_complete_begin. case_match; [by apply runs_ret|].
  apply runs_bind, (find_calling_ok w); [done|intros; by apply runs_ret|].
  intros g r Hg Hr H0 Hp. eapply runs_bind, runs_p_get; [exact Hr|]. apply runs_bind.
  eapply (unlock_rec w); try done. apply runs_ret. by rewrite with_smem_slock.
Qed.

(** ** Completing a request *)

(** The caller after its call returned [v]. *)
Definition call_done (v : Z) r : rec :=
  set_pending_op REC_PENDING_NONE
    (set_plane_0 (RecPlane (v :: 0 :: 0 :: 0 :: drop 4 (regs (plane_0 r))) (plane_pc (plane_0 r)) (plane_pstate (plane_0 r))) r).

(** The target after it was powered on. *)
Definition powered_on (entry context_id caller_sctlr_el1 : Z) r : rec :=
  set_runnable true
    (set_planes (RecPlane (context_id :: drop 1 (regs (plane_0 r))) entry reset_pstate) (plane_n r)
       (<[0%nat := reset_sctlr_el1 caller_sctlr_el1]> (sysregs r)) (active_plane_id r) r).

Lemma shape_inv r : rec_shape r = true ->
  length (regs (plane_0 r)) = 31%nat /\ length (regs (plane_n r)) = 31%nat /\
  0 <= active_plane_id r < rec_num_planes r /\ rec_num_planes r <= Z.of_nat (length (sysregs r)).
Proof. unfold rec_shape, REC_NR_GPRS. rewrite !andb_true_iff, !Nat.eqb_eq. intros ((((? & ?) & ?) & ?) & ?). split_and!; (done || lia). Qed.

Lemma reg_some r i : rec_shape r = true -> 0 <= i < 31 -> exists v, arr_get (regs (plane_0 r)) i = Some v.
Proof. intros (H & _)%shape_inv Hi. apply arr_get_some. rewrite H. lia. Qed.

Lemma plane_0_active r : active_plane_id r = PLANE_0_ID -> rec_is_plane_0_active r = true /\ rec_active_plane r = plane_0 r.
Proof. intros H. unfold rec_active_plane, rec_is_plane_0_active. by rewrite H. Qed.

Lemma set_active_0 pl r : active_plane_id r = PLANE_0_ID -> set_active_plane pl r = set_plane_0 pl r.
Proof. intros H. unfold set_active_plane, rec_is_plane_0_active. by rewrite (proj2 (Z.eqb_eq _ _) H). Qed.

Lemma set_pending_none_ok g r s (Q : unit -> realms -> Prop) :
  s_recs s !! g = Some r -> Q tt (with_recs s (<[g := set_pending_op REC_PENDING_NONE r]> (s_recs s))) ->
  runs (rec_set_pending_op g REC_PENDING_NONE) s Q.
Proof.
  intros Hr HQ. eapply runs_bind, runs_p_get; [exact Hr|]. eapply runs_bind, runs_guard; [done|]. by apply runs_store_rec.
Qed.

(** Storing the result and dropping the request. *)
Lemma with_recs_recs s recs recs' : with_recs (with_recs s recs) recs' = with_recs s recs'.
Proof. done. Qed.

Lemma denied_ok s g r (Q : Z -> realms -> Prop) :
  s_recs s !! g = Some r -> rec_shape r = true -> pending_ok r -> active_plane_id r = PLANE_0_ID ->
  (pending_op r = REC_PENDING_PSCI_COMPLETE -> Q RMI_SUCCESS (with_recs s (<[g := call_done PSCI_RETURN_DENIED r]> (s_recs s)))) ->
  (pending_op r <> REC_PENDING_PSCI_COMPLETE -> Q RMI_ERROR_INPUT s) ->
  runs (psci_complete_denied_request g) s Q.
Proof.
  intros Hr Hsh Hp Ha Hyes Hno. destruct (plane_0_active r Ha) as [H0 Hpl].
  eapply runs_bind, runs_p_get; [exact Hr|]. cbn zeta. rewrite Hpl.
  destruct (reg_some r 0 Hsh ltac:(lia)) as [v0 Hv0].
  eapply runs_bind, runs_lift; [unfold psci_function_id; by rewrite Hv0|]. eapply runs_bind, runs_guard; [done|].
  destruct (Z.eqb_spec (pending_op r) REC_PENDING_PSCI_COMPLETE) as [Hpe|Hpe]; cbn [negb]; [|apply runs_ret; by apply Hno].
  destruct Hp as [Hp|(_ & _ & id & Hid & Hon)]; [by rewrite Hp in Hpe|].
  unfold psci_function_id in Hid. rewrite Hv0 in Hid. injection Hid as ->. rewrite Hon.
  destruct (shape_inv r Hsh) as (Hl & _). eapply runs_bind, runs_lift; [apply set_call_result_ok; lia|].
  eapply runs_bind, runs_store_rec, runs_bind, set_pending_none_ok; [apply lookup_insert_eq|].
  apply runs_ret. cbn [s_recs with_recs]. rewrite insert_insert_eq, set_active_0 by done. by apply Hyes.
Qed.

(** Both RECs locked. *)
Definition with_two s (gc gt : Z) : realms := with_smem s (with_lock (with_lock (s_mem s) gc) gt).

Lemma refcount_first w gc gt rc rt :
  pinv w -> s_recs (w_st w) !! gc = Some rc -> s_recs (w_st w) !! gt = Some rt -> gc <> gt ->
  descs (with_lock (with_lock (s_mem (w_st w)) gc) gt) !! gc ≫= refcount_read_acquire GRN = Some (count (holds gc) (w_pes w)).
Proof.
  intros Hinv Hc Ht Hne. rewrite with_lock_comm by done.
  pose proof (rec_granule w gc rc Hinv Hc) as Ha.
  exact (refcount_locked _ gc _ (proj2 (granule_at_with_lock_ne _ gt gc _ Hne) Ha) eq_refl).
Qed.

Lemma refcount_second w gc gt rc rt :
  pinv w -> s_recs (w_st w) !! gc = Some rc -> s_recs (w_st w) !! gt = Some rt -> gc <> gt ->
  descs (with_lock (with_lock (s_mem (w_st w)) gc) gt) !! gt ≫= refcount_read_acquire GRN = Some (count (holds gt) (w_pes w)).
Proof. intros Hinv Hc Ht Hne. rewrite with_lock_comm by done. by eapply (refcount_first w gt gc). Qed.

Lemma unlock_two {A} w gc gt rc rt s (x : A) (Q : A -> realms -> Prop) :
  pinv w -> s_recs (w_st w) !! gc = Some rc -> s_recs (w_st w) !! gt = Some rt -> gc <> gt ->
  s_mem s = with_lock (with_lock (s_mem (w_st w)) gc) gt -> Q x (with_smem s (s_mem (w_st w))) ->
  runs (_ <-! p_unlock gc ;; _ <-! p_unlock gt ;; ret x) s Q.
Proof.
  intros Hinv Hc Ht Hne Hm HQ. apply runs_bind. rewrite with_lock_comm in Hm by done.
  pose proof (rec_granule w gc rc Hinv Hc) as Ha.
  eapply runs_unlock; [exact Hm|by apply granule_at_with_lock_ne|done|].
  apply runs_bind. eapply (unlock_rec w gt rt); try done. by apply runs_ret.
Qed.

(** A request that can be completed: the REC of [gc] at [calling] has one
    pending and is not held by a PE. *)
Record request_of w (calling gc : Z) (rc : rec) : Prop := {
  rq_named : tr_addr_to_granule calling = Some gc;
  rq_rec : s_recs (w_st w) !! gc = Some rc;
  rq_free : count (holds gc) (w_pes w) = 0;
  rq_pending : pending_op rc = REC_PENDING_PSCI_COMPLETE
}.

(** [rt] is the REC the call of [rc] names. *)
Definition names_target (rc rt : rec) : Prop :=
  g_rd rc = g_rd rt /\ exists x1, arr_get (regs (plane_0 rc)) 1 = Some x1 /\ mpidr_to_rec_mpidr x1 = mpidr rt.

(** A REC is on when a PE holds it or it can be entered. *)
Definition is_on w (g : Z) r : bool := negb (count (holds g) (w_pes w) =? 0) || runnable r.

(** The address names a REC granule that can be locked. *)
Definition rec_available w (addr : Z) : Prop :=
  exists g m, find_lock_fine_granule addr GRANULE_STATE_REC (s_mem (w_st w)) = Some ((RMI_SUCCESS, Some g), m).

(** Why a completion is refused: the RECs cannot both be locked, the calling REC
    has no request that can be completed, the target is not the REC the request
    names, or the status is not one the host may give. *)
Definition refusable w (calling target status : Z) : Prop :=
  (calling = target \/ ~ rec_available w calling \/ ~ rec_available w target) \/
  (forall gc rc, ~ request_of w calling gc rc) \/
  (exists gc rc gt rt, s_recs (w_st w) !! gc = Some rc /\ s_recs (w_st w) !! gt = Some rt /\
     tr_addr_to_granule calling = Some gc /\ tr_addr_to_granule target = Some gt /\ ~ names_target rc rt) \/
  (status <> PSCI_RETURN_SUCCESS /\ status <> PSCI_RETURN_DENIED).

(** The outcomes of the second half of [RMI_PSCI_COMPLETE]. *)
Inductive completed w (calling target status : Z) : Z -> realms -> Prop :=
  | cp_refused st : st <> RMI_SUCCESS -> refusable w calling target status ->
      completed w calling target status st (w_st w)
  | cp_denied gc rc :
      request_of w calling gc rc -> status = PSCI_RETURN_DENIED ->
      completed w calling target status RMI_SUCCESS
        (with_recs (w_st w) (<[gc := call_done PSCI_RETURN_DENIED rc]> (s_recs (w_st w))))
  | cp_already gc rc gt rt st :
      request_of w calling gc rc -> tr_addr_to_granule target = Some gt -> s_recs (w_st w) !! gt = Some rt ->
      names_target rc rt -> is_on w gt rt = true ->
      st = (if status =? PSCI_RETURN_DENIED then RMI_ERROR_INPUT else RMI_SUCCESS) ->
      completed w calling target status st
        (with_recs (w_st w) (<[gc := call_done PSCI_RETURN_ALREADY_ON rc]> (s_recs (w_st w))))
  | cp_on gc rc gt rt entry context_id sctlr :
      request_of w calling gc rc -> tr_addr_to_granule target = Some gt -> s_recs (w_st w) !! gt = Some rt -> gc <> gt ->
      names_target rc rt -> is_on w gt rt = false -> status = PSCI_RETURN_SUCCESS ->
      arr_get (regs (plane_0 rc)) 2 = Some entry -> arr_get (regs (plane_0 rc)) 3 = Some context_id ->
      arr_get (sysregs rc) PLANE_0_ID = Some sctlr ->
      completed w calling target status RMI_SUCCESS
        (with_recs (w_st w) (<[gc := call_done PSCI_RETURN_SUCCESS rc]>
                               (<[gt := powered_on entry context_id sctlr rt]> (s_recs (w_st w))))).

Lemma complete_cpu_on_ok s g r n entry context_id sctlr status (Q : Z -> realms -> Prop) :
  s_recs s !! g = Some r -> g_rec r = g -> rec_shape r = true ->
  descs (s_mem s) !! g ≫= refcount_read_acquire GRN = Some n ->
  (negb (n =? 0) || runnable r = true -> Q PSCI_RETURN_ALREADY_ON s) ->
  (negb (n =? 0) || runnable r = false -> status = PSCI_RETURN_DENIED -> Q PSCI_RETURN_DENIED s) ->
  (negb (n =? 0) || runnable r = false -> status <> PSCI_RETURN_DENIED ->
     Q PSCI_RETURN_SUCCESS (with_recs s (<[g := powered_on entry context_id sctlr r]> (s_recs s)))) ->
  runs (complete_psci_cpu_on g entry context_id sctlr status) s Q.
Proof.
  intros Hr Hg Hsh Hn Hon Hden Hoff. destruct (shape_inv r Hsh) as (Hl & _ & Ha & Hsys).
  eapply runs_bind, runs_p_get; [exact Hr|]. rewrite Hg. eapply runs_bind, runs_p_get; [exact Hn|].
  destruct (negb (n =? 0) || runnable r); [by apply runs_ret, Hon|].
  destruct (Z.eqb_spec status PSCI_RETURN_DENIED); [by apply runs_ret, Hden|].
  eapply runs_bind, runs_lift.
  { unfold psci_reset_rec. rewrite arr_set_some; [reflexivity|]. unfold PLANE_0_ID. lia. }
  cbn [plane_0 set_planes regs].
  eapply runs_bind, runs_lift; [apply arr_set_some; lia|]. eapply runs_bind, runs_store_rec, runs_ret.
  specialize (Hoff eq_refl ltac:(done)). unfold powered_on in Hoff. unfold set_plane_0, set_planes in *. cbn in *.
  destruct (regs (plane_0 r)) as [|x0 xs]; [discriminate Hl|]. cbn in *. by rewrite drop_0 in Hoff.
Qed.

Lemma matches_ok s gc gt rc rt (Q : bool -> realms -> Prop) :
  s_recs s !! gc = Some rc -> s_recs s !! gt = Some rt -> rec_shape rc = true -> active_plane_id rc = PLANE_0_ID ->
  (names_target rc rt -> Q true s) -> (~ names_target rc rt -> Q false s) ->
  runs (psci_target_rec_matches gc gt) s Q.
Proof.
  intros Hc Ht Hsh Ha Hyes Hno. destruct (plane_0_active rc Ha) as [H0 Hpl].
  do 2 (eapply runs_bind, runs_p_get; [eassumption|]). eapply runs_bind, runs_guard; [done|]. rewrite Hpl.
  destruct (reg_some rc 1 Hsh ltac:(lia)) as [x1 Hx]. eapply runs_bind, runs_lift; [exact Hx|]. apply runs_ret.
  destruct ((g_rd rc =? g_rd rt) && (mpidr_to_rec_mpidr x1 =? mpidr rt)) eqn:E.
  - apply andb_true_iff in E as [E1%Z.eqb_eq E2%Z.eqb_eq]. apply Hyes. split; [done|]. by exists x1.
  - apply Hno. intros (E1 & y & Hy & E2). rewrite Hx in Hy. injection Hy as <-.
    rewrite E1, E2, !Z.eqb_refl in E. discriminate E.
Qed.

(** The result of the call is stored and the request dropped. *)
Lemma store_result_ok s g r v st (Q : Z -> realms -> Prop) :
  s_recs s !! g = Some r -> rec_shape r = true -> active_plane_id r = PLANE_0_ID ->
  Q st (with_recs s (<[g := call_done v r]> (s_recs s))) ->
  runs (plane' <-! lift (set_call_result v (plane_0 r)) ;;
        _ <-! update_rec g (set_active_plane plane') ;;
        _ <-! rec_set_pending_op g REC_PENDING_NONE ;; ret st) s Q.
Proof.
  intros Hr Hsh Ha HQ. destruct (shape_inv r Hsh) as (Hl & _). eapply runs_bind, runs_lift; [apply set_call_result_ok; lia|].
  eapply runs_bind, runs_update_rec; [exact Hr|]. eapply runs_bind, set_pending_none_ok; [apply lookup_insert_eq|].
  apply runs_ret. cbn [s_recs with_recs]. by rewrite insert_insert_eq, set_active_0 by done.
Qed.

Lemma sctlr_some r : rec_shape r = true -> active_plane_id r = PLANE_0_ID ->
  exists v, active_sctlr_el1 r = Some v /\ arr_get (sysregs r) PLANE_0_ID = Some v.
Proof.
  intros (_ & _ & Ha & Hs)%shape_inv H0. unfold active_sctlr_el1. rewrite (proj2 (Z.ltb_lt _ _)) by lia. rewrite H0 in *.
  destruct (arr_get_some (sysregs r) PLANE_0_ID) as [v Hv]; [lia|]. by exists v.
Qed.

Lemma complete_request_ok w calling target gc gt rc rt status (Q : Z -> realms -> Prop) :
  pinv w -> tr_addr_to_granule calling = Some gc -> tr_addr_to_granule target = Some gt -> gc <> gt ->
  s_recs (w_st w) !! gc = Some rc -> s_recs (w_st w) !! gt = Some rt ->
  count (holds gc) (w_pes w) = 0 -> active_plane_id rc = PLANE_0_ID -> names_target rc rt ->
  (forall st s', completed w calling target status st s' -> Q st (with_two s' gc gt)) ->
  runs (psci_complete_request gc gt status) (with_two (w_st w) gc gt) Q.
Proof.
  intros Hinv Hnc Hnt Hne Hc Ht H0 Ha Hm HQ.
  pose proof (pi_recs w Hinv gc rc Hc) as [_ _ Hshc Hpc _]. pose proof (pi_recs w Hinv gt rt Ht) as [Hself _ Hsht _ _].
  destruct (plane_0_active rc Ha) as [Hp0 Hpl].
  assert (Href : refusable w calling target status -> Q RMI_ERROR_INPUT (with_two (w_st w) gc gt)) by (intros; by apply HQ, cp_refused).
  eapply runs_bind, runs_p_get; [exact Hc|]. cbn zeta. rewrite Hpl. destruct (reg_some rc 0 Hshc ltac:(lia)) as [x0 Hx0].
  eapply runs_bind, runs_lift; [unfold psci_function_id; by rewrite Hx0|]. cbn [fmap option_fmap option_map].
  destruct (sctlr_some rc Hshc Ha) as (sctlr & Hs1 & Hs2). eapply runs_bind, runs_lift; [exact Hs1|].
  eapply runs_bind, runs_guard; [done|].
  destruct (Z.eqb_spec (pending_op rc) REC_PENDING_PSCI_COMPLETE) as [Hpe|Hpe]; cbn [negb].
  2: { apply runs_ret, Href. right. left. intros g r [Hg Hr _ Hp]. congruence. }
  eapply runs_bind, matches_ok; [exact Hc|exact Ht|done|done| |done]. intros _. cbn [negb].
  destruct Hpc as [Hpc|(_ & _ & id & Hid & Hon)]; [by rewrite Hpc in Hpe|]. unfold psci_function_id in Hid. rewrite Hx0 in Hid.
  injection Hid as ->. eapply runs_bind, runs_guard; [done|].
  assert (Hrq : request_of w calling gc rc) by done.
  destruct (negb (status =? PSCI_RETURN_SUCCESS) && negb (status =? PSCI_RETURN_DENIED)) eqn:Hst.
  { apply runs_ret, Href. do 3 right. lia. }
  destruct (reg_some rc 2 Hshc ltac:(lia)) as [x2 Hx2], (reg_some rc 3 Hshc ltac:(lia)) as [x3 Hx3].
  do 2 (eapply runs_bind, runs_lift; [eassumption|]). apply runs_bind.
  eapply (complete_cpu_on_ok _ gt rt (count (holds gt) (w_pes w))); try done.
  { by eapply (refcount_second w). }
  - intros Hison. rewrite andb_true_r. eapply store_result_ok; [exact Hc|done|done|].
    eapply (HQ _ (with_recs (w_st w) _)), (cp_already w calling target status gc rc gt rt); try done.
  - intros Hoff ->. eapply store_result_ok; [exact Hc|done|done|]. cbn.
    eapply (HQ _ (with_recs (w_st w) _)), (cp_denied w calling target _ gc rc); done.
  - intros Hoff Hnd. rewrite (proj2 (Z.eqb_neq _ _) Hnd). cbn [andb]. eapply store_result_ok; [|done|done|].
    { cbn. by rewrite lookup_insert_ne by done. }
    cbn [s_recs with_recs]. eapply (HQ _ (with_recs (w_st w) _)), (cp_on w calling target status gc rc gt rt); try done.
    apply andb_false_iff in Hst as [Hst|Hst]; [by apply negb_false_iff, Z.eqb_eq in Hst|].
    by apply negb_false_iff, Z.eqb_eq in Hst.
Qed.

Lemma denied_smc_ok w calling target :
  pinv w -> refusable w calling target PSCI_RETURN_DENIED -> runs (smc_psci_complete_denied calling) (w_st w) (completed w calling target PSCI_RETURN_DENIED).
Proof.
  intros Hinv Hwhy. apply runs_bind, (find_calling_ok w); [done|intros; by apply runs_ret, cp_refused|].
  intros g r Hg Hr H0 Hp. pose proof (pi_recs w Hinv g r Hr) as [_ _ Hsh Hpo _].
  assert (Ha : active_plane_id r = PLANE_0_ID) by (destruct Hpo as [Hpo|(_ & Ha & _)]; [by rewrite Hpo in Hp|done]).
  apply runs_bind. eapply denied_ok; [exact Hr|done|done|done| |done]. intros _. apply runs_bind.
  eapply (unlock_rec w g r); [done|done|done|]. apply runs_ret. by apply (cp_denied w calling target _ g r).
Qed.

(** Code that fails. *)
Definition fails {A} (c : P A) s : Prop := c s = None.

Lemma fails_here {A B} (c : P A) (k : A -> P B) s : fails c s -> fails (bind c k) s.
Proof. unfold fails, bind. by intros ->. Qed.
Lemma fails_later {A B} (c : P A) (k : A -> P B) s : runs c s (fun x s' => fails (k x) s') -> fails (bind c k) s.
Proof. intros (x & s' & Hc & Hk). unfold fails, bind in *. by rewrite Hc. Qed.

(** A REC that no PE holds, with a plane other than plane 0 active. *)
Definition stale_plane w (calling gc : Z) (rc : rec) : Prop :=
  tr_addr_to_granule calling = Some gc /\ s_recs (w_st w) !! gc = Some rc /\ count (holds gc) (w_pes w) = 0 /\
  active_plane_id rc <> PLANE_0_ID.

(** The second half returns, unless the calling REC was left in a plane other than
    plane 0: then an assertion fails. *)
Lemma complete_finish_ok w calling target status :
  pinv w ->
  runs (psci_complete_finish calling target status) (w_st w) (completed w calling target status) \/
  (fails (psci_complete_finish calling target status) (w_st w) /\ exists gc rc, stale_plane w calling gc rc).
Proof.
  intros Hinv. unfold psci_complete_finish.
  destruct (find_lock_two_spec (s_mem (w_st w)) calling GRANULE_STATE_REC target GRANULE_STATE_REC)
    as [(st & Hst & Hrun & Hwhy)|(gc & gt & a1 & a2 & Hne & Hnc & Hnt & Ha1 & Hs1 & Ha2 & Hs2 & Hrun)].
  1,2: done.
  { intros addr g _. by apply pi_granules. }
  { assert (Hno : refusable w calling target status).
    { left. destruct Hwhy as [|[Hwhy|Hwhy]]; [by left|right; left|right; right]; intros (g & m & E); by apply (Hwhy g m). }
    left. eapply runs_bind, runs_p_mem; [exact Hrun|]. rewrite with_smem_id, (proj2 (Z.eqb_neq _ _) Hst). cbn [negb].
    destruct ((status =? PSCI_RETURN_DENIED) && (st =? RMI_ERROR_INPUT)) eqn:E; [|by apply runs_ret, cp_refused].
    apply andb_true_iff in E as [->%Z.eqb_eq _]. by apply denied_smc_ok. }
  destruct (pi_states w Hinv gc a1 Ha1 Hs1) as [rc Hc], (pi_states w Hinv gt a2 Ha2 Hs2) as [rt Ht].
  assert (Hend : forall st s', completed w calling target status st s' ->
    runs (_ <-! p_unlock gc ;; _ <-! p_unlock gt ;; ret st) (with_two s' gc gt) (completed w calling target status)).
  { intros st s' Hs. assert (Hm : s_mem s' = s_mem (w_st w)) by (by destruct Hs). eapply (unlock_two w gc gt rc rt); try done.
    - cbn [with_two with_smem s_mem]. by rewrite Hm.
    - rewrite <- Hm. by destruct s'. }
  destruct (Z.eqb_spec (count (holds gc) (w_pes w)) 0) as [H0|H0].
  2: { left. eapply runs_bind, runs_p_mem; [exact Hrun|]. change (RMI_SUCCESS =? RMI_SUCCESS) with true. cbn [negb].
       do 2 (eapply runs_bind, runs_lift; [done|]). eapply runs_bind, runs_p_get; [by eapply (refcount_first w)|].
       rewrite (proj2 (Z.eqb_neq _ _) H0). apply runs_bind, runs_ret. apply Hend, cp_refused; [done|].
       right. left. intros g r [Hg Hr Hz _]. congruence. }
  pose proof (pi_recs w Hinv gc rc Hc) as [_ _ Hsh Hpo _].
  destruct (decide (active_plane_id rc = PLANE_0_ID)) as [Ha|Ha]; [left|right].
  - eapply runs_bind, runs_p_mem; [exact Hrun|]. change (RMI_SUCCESS =? RMI_SUCCESS) with true. cbn [negb].
    do 2 (eapply runs_bind, runs_lift; [done|]). eapply runs_bind, runs_p_get; [by eapply (refcount_first w)|].
    rewrite H0. apply runs_bind. cbn [negb Z.eqb].
    eapply runs_bind, matches_ok; [exact Hc|exact Ht|done|done| |]; intros Hm; cbn [negb].
    + eapply complete_request_ok; try done.
    + destruct (Z.eqb_spec status PSCI_RETURN_DENIED) as [->|].
      2: { apply runs_ret, Hend, cp_refused; [done|]. right. right. left. by exists gc, rc, gt, rt. }
      eapply denied_ok; [exact Hc|done|done|done| |].
      * intros Hp. apply (Hend _ (with_recs (w_st w) _)), (cp_denied w calling target _ gc rc); done.
      * intros Hp. apply Hend, cp_refused; [done|]. right. left. intros g r [Hg Hr _ Hp']. congruence.
  - split; [|by exists gc, rc]. eapply fails_later, runs_p_mem; [exact Hrun|]. change (RMI_SUCCESS =? RMI_SUCCESS) with true. cbn [negb].
    do 2 (eapply fails_later, runs_lift; [done|]). eapply fails_later, runs_p_get; [by eapply (refcount_first w)|].
    rewrite H0. apply fails_here. cbn [negb Z.eqb]. apply fails_here.
    do 2 (eapply fails_later, runs_p_get; [eassumption|]). apply fails_here.
    unfold fails, guard, rec_is_plane_0_active. by rewrite (proj2 (Z.eqb_neq _ _) Ha).
Qed.

(** ** Entry and exit of a REC *)

(** [s] with the reference count of the REC of [g] set to [c]. *)
Definition with_ref s (g c : Z) : realms := with_smem s (set_granule (s_mem s) g (AGranule false GRANULE_STATE_REC c)).

(** The first part of [RMI_REC_ENTER] refuses, or takes the reference of a REC that
    no PE holds and that can run. *)
Definition entered w (x : Z + Z) s' : Prop :=
  (exists st, x = inl st /\ s' = w_st w) \/
  (exists g r, x = inr g /\ s_recs (w_st w) !! g = Some r /\ count (holds g) (w_pes w) = 0 /\ runnable r = true /\
     s' = with_ref (w_st w) g 1).

Lemma rec_enter_lock_ok w rec_addr rec_run_addr :
  pinv w -> runs (rec_enter_lock rec_addr rec_run_addr) (w_st w) (entered w).
Proof.
  intros Hinv. unfold rec_enter_lock. case_match; [apply runs_ret; left; by eexists|].
  apply runs_bind, (lock_rec w); [done| |].
  { intros st Hst. cbn [fst]. rewrite (proj2 (Z.eqb_neq _ _) Hst). apply runs_ret. left. by eexists. }
  intros g r Hg Hr. cbn [fst snd]. rewrite Z.eqb_refl. cbn [negb]. eapply runs_bind, runs_lift; [done|].
  eapply runs_bind, runs_p_get; [by eapply (refcount_rec w)|].
  assert (Hbad : forall st, runs (_ <-! p_unlock g ;; ret (inl st)) (with_slock (w_st w) g) (entered w)).
  { intros st. apply runs_bind. eapply (unlock_rec w); try done. apply runs_ret. left. exists st. by rewrite with_smem_slock. }
  destruct (Z.eqb_spec (count (holds g) (w_pes w)) 0) as [H0|H0]; cbn [negb]; [|apply Hbad].
  eapply runs_bind, runs_p_get; [exact Hr|]. destruct (runnable r) eqn:Hrun; cbn [negb]; [|apply Hbad].
  pose proof (rec_granule w g r Hinv Hr) as Ha. rewrite H0 in Ha.
  pose proof (granule_at_with_lock _ _ _ Ha eq_refl) as (Hd & Hwf & Hok).
  eapply runs_bind, runs_p_mem.
  { unfold on_desc. cbn [s_mem with_slock with_smem]. rewrite Hd. cbn [mbind option_bind]. unfold atomic_granule_get.
    rewrite refcount_inc_refines by (done || by left). reflexivity. }
  cbn [a_locked a_state a_ref locked Z.add andb]. set (m1 := Mem _ _).
  assert (Hm1 : m1 = set_granule (s_mem (w_st w)) g (AGranule true GRANULE_STATE_REC 1)).
  { unfold m1. rewrite (with_lock_set _ _ _ Ha eq_refl). apply (set_granule_set _ g). }
  assert (Hg1 : granule_at m1 g (AGranule true GRANULE_STATE_REC 1)).
  { rewrite Hm1. apply granule_at_set; [by apply (rec_granule_wf 1)|done|by left]. }
  eapply runs_bind, runs_p_mem; [by apply (m_granule_unlock_ok _ _ _ Hg1)|]. apply runs_ret. right. exists g, r.
  split_and!; try done. unfold with_ref, with_smem. cbn. by rewrite Hm1, set_granule_set.
Qed.

Lemma put_release_ok m g :
  granule_at m g (AGranule false GRANULE_STATE_REC 1) ->
  on_desc g atomic_granule_put_release m = Some (tt, set_granule m g (AGranule false GRANULE_STATE_REC 0)).
Proof.
  intros (Hd & Hwf & _). unfold on_desc. rewrite Hd. cbn [mbind option_bind]. unfold atomic_granule_put_release.
  by rewrite put_release_refines by (done || by left).
Qed.

(** What the count of a held REC and of its realm are. *)
Lemma held_facts w i p g r :
  pinv w -> w_pes w !! i = Some p -> holds g p = true -> s_recs (w_st w) !! g = Some r ->
  granule_at (s_mem (w_st w)) g (AGranule false GRANULE_STATE_REC 1) /\
  exists d st n, s_rds (w_st w) !! g_rd r = Some d /\ 0 <= st < 4 /\ state_and_count d = sc st n /\
    n = count (counted (s_recs (w_st w)) (g_rd r)) (w_pes w) /\ 0 <= n < 2 ^ 62 /\
    (counted (s_recs (w_st w)) (g_rd r) p = true -> 0 < n) /\
    (counted (s_recs (w_st w)) (g_rd r) p = false -> n + 1 < 2 ^ 62).
Proof.
  intros Hinv Hi Hh Hr. pose proof (rec_granule w g r Hinv Hr) as Ha. pose proof (holds_le w g r Hinv Hr).
  pose proof (count_pos (holds g) _ _ _ Hi Hh). replace (count (holds g) (w_pes w)) with 1 in Ha by lia. split; [done|].
  destruct (pi_recs w Hinv g r Hr) as [_ [d Hd] _ _ _]. destruct (pi_rds w Hinv _ d Hd) as [_ (st & Hst & Hw) _].
  pose proof (count_nonneg (counted (s_recs (w_st w)) (g_rd r)) (w_pes w)).
  pose proof (count_le_length (counted (s_recs (w_st w)) (g_rd r)) (w_pes w)). pose proof (pi_bound w Hinv).
  eexists d, st, _. split_and!; try done; try lia.
  - intros Hc. by apply (count_pos _ _ i p).
  - intros Hc. pose proof (count_insert (counted (s_recs (w_st w)) (g_rd r)) (w_pes w) i p (P_run g) Hi) as E.
    rewrite Hc in E. cbn [counted] in E. rewrite Hr, Z.eqb_refl in E.
    pose proof (count_le_length (counted (s_recs (w_st w)) (g_rd r)) (<[i := P_run g]> (w_pes w))) as L. rewrite length_insert in L. lia.
Qed.

(** [s] with the packed word of realm [x] set to [v]. *)
Definition with_sword s (x : Z) d (v : Z) : realms := with_rds s (<[x := set_state_and_count d v]> (s_rds s)).

Lemma rec_enter_out_ok s g r d st n :
  s_recs s !! g = Some r -> s_rds s !! g_rd r = Some d -> 0 <= st < 4 -> state_and_count d = sc st n -> 0 < n < 2 ^ 62 ->
  granule_at (s_mem s) g (AGranule false GRANULE_STATE_REC 1) ->
  runs (rec_enter_out g) s (fun _ s' => s' = with_sword (with_ref s g 0) (g_rd r) d (sc st (n - 1))).
Proof.
  intros Hr Hd Hst Hw Hn Ha. eapply runs_bind, runs_p_get; [exact Hr|]. eapply runs_bind, runs_p_get; [exact Hd|].
  eapply runs_bind, runs_lift; [rewrite Hw; by apply dec_sc|]. apply runs_bind. eexists tt, _. split; [done|].
  eapply runs_p_mem; [by apply put_release_ok|]. done.
Qed.

Lemma rec_enter_admit_ok w i g ns_ok :
  pinv w -> w_pes w !! i = Some (P_enter g) ->
  runs (rec_enter_admit g ns_ok) (w_st w) (fun x s' =>
    (exists st, x = Some st /\ s' = with_ref (w_st w) g 0) \/
    (exists r d st, x = None /\ s_recs (w_st w) !! g = Some r /\ pending_op r = REC_PENDING_NONE /\ runnable r = true /\
       s_rds (w_st w) !! g_rd r = Some d /\ st = REALM_ACTIVE /\
       s' = with_sword (w_st w) (g_rd r) d (sc st (count (counted (s_recs (w_st w)) (g_rd r)) (w_pes w) + 1)))).
Proof.
  intros Hinv Hi. pose proof (pi_pes w Hinv i _ Hi) as (r & Hr & Hrun).
  destruct (held_facts w i (P_enter g) g r Hinv Hi ltac:(cbn; apply Z.eqb_refl) Hr)
    as (Ha & d & st & n & Hd & Hst & Hw & Hn & Hb & _ & Hroom). specialize (Hroom eq_refl).
  unfold rec_enter_admit. destruct ns_ok; cbn [negb].
  2: { eapply runs_bind, runs_p_mem; [by apply put_release_ok|]. apply runs_ret. left. by eexists. }
  eapply runs_bind, runs_p_get; [exact Hr|]. eapply runs_bind, runs_p_get; [exact Hd|].
  eapply runs_bind, runs_lift; [rewrite Hw; apply inc_sc; lia|]. destruct (Z.eqb_spec st REALM_ACTIVE) as [Hact|_].
  2: { eapply runs_bind, runs_p_mem; [by apply put_release_ok|]. apply runs_ret. left. by eexists. }
  apply runs_bind. eexists tt, _. split; [done|].
  destruct (Z.eqb_spec (pending_op r) REC_PENDING_NONE) as [Hp|Hp]; cbn [negb].
  - apply runs_ret. right. exists r, d, st. rewrite <- Hn. done.
  - destruct (pi_recs w Hinv g r Hr) as [_ _ _ [|(Hp' & _)] _]; [done|].
    eapply runs_bind, runs_guard; [by apply Z.eqb_eq|]. apply runs_bind. eapply runs_mono.
    { eapply (rec_enter_out_ok _ g r _ st (n + 1)); [exact Hr|apply lookup_insert_eq|done|done|lia|exact Ha]. }
    intros _ s' ->. apply runs_ret. left. eexists. split; [done|]. unfold with_sword, with_ref, with_rds, with_smem. cbn.
    rewrite insert_insert_eq. replace (n + 1 - 1) with n by lia. f_equal.
    unfold set_state_and_count; cbn. rewrite <- Hw. rewrite insert_id; [done|]. rewrite Hd. by destruct d.
Qed.

(** ** The services *)

(** The table of RECs of a realm, as a map from MPIDR to the address of the REC. *)
Definition rec_table w (x : Z) (t : gmap Z (list Z)) : Prop :=
  exists mm, s_rec_maps (w_st w) !! x = Some mm /\ h_elem_sz (rec_map_hnd mm) = REC_MAP_SIZE /\
    represents (rec_map_hnd mm) (rec_map_mem mm) t /\
    forall k v, t !! k = Some v -> exists addr g, v = [addr] /\ tr_addr_to_granule addr = Some g.

(** The REC named [k] in a table. *)
Definition table_rec (t : gmap Z (list Z)) (k : Z) : option Z := t !! k ≫= head.

Lemma map_mpidr_ok mm t k :
  h_elem_sz (rec_map_hnd mm) = REC_MAP_SIZE -> represents (rec_map_hnd mm) (rec_map_mem mm) t ->
  (forall k v, t !! k = Some v -> exists addr g, v = [addr] /\ tr_addr_to_granule addr = Some g) ->
  exists o, map_mpidr_to_rec mm k = Some o /\
    match o with
    | None => table_rec t k = None
    | Some g => exists addr, table_rec t k = Some addr /\ tr_addr_to_granule addr = Some g
    end.
Proof.
  intros Hsz Hrep Hval. destruct (lookup_refines _ _ t k Hrep) as (ptr & Hlk & Hptr).
  unfold map_mpidr_to_rec, table_rec. rewrite <- Hsz, Hlk. cbn [mbind option_bind]. rewrite Hsz in *.
  destruct (t !! k) as [v|] eqn:Htk.
  - destruct Hptr as [Hnz Hld]. destruct (Hval k v Htk) as (addr & g & -> & Hg). rewrite (proj2 (Z.eqb_neq _ _) Hnz).
    cbn [mbind option_bind] in *. rewrite Hld. cbn [mbind option_bind lookup list_lookup head]. rewrite Hg. cbn [mbind option_bind].
    exists (Some g). split; [done|]. by exists addr.
  - subst ptr. exists None. done.
Qed.

Lemma rd_table w x d : pinv w -> s_rds (w_st w) !! x = Some d ->
  (exists c, granule_at (s_mem (w_st w)) x (AGranule false GRANULE_STATE_RD c)) /\ exists t, rec_table w x t.
Proof.
  intros Hinv Hd. destruct (pi_rds w Hinv x d Hd) as [Hc _ (mm & Hm & Hsz & t & Hr & Hv)]. split; [done|].
  exists t, mm. done.
Qed.

(** What [PSCI_CPU_ON] answers at once ([inl]), or the target whose power-on the
    host has to complete ([inr]). *)
Definition cpu_on_verdict r (t : gmap Z (list Z)) (target_cpu entry : Z) : Z + Z :=
  if negb (addr_in_rec_par r entry) then inl PSCI_RETURN_INVALID_ADDRESS
  else if mpidr_to_rec_mpidr target_cpu =? mpidr r then inl PSCI_RETURN_ALREADY_ON
  else match table_rec t (mpidr_to_rec_mpidr target_cpu) with
       | None => inl PSCI_RETURN_INVALID_PARAMS
       | Some addr => inr addr
       end.

(** A REC with a CPU_ON of [addr] pending. *)
Definition cpu_on_requested (addr : Z) r : rec :=
  set_pending_op REC_PENDING_PSCI_COMPLETE (set_target_rec_addr addr r).

Lemma lock_rd_ok w x c :
  granule_at (s_mem (w_st w)) x (AGranule false GRANULE_STATE_RD c) ->
  granule_lock_on_state_match x GRANULE_STATE_RD (s_mem (w_st w)) = Some (true, with_lock (s_mem (w_st w)) x).
Proof. intros Ha. rewrite (lock_on_state_match_ok _ _ _ _ Ha). cbn. by rewrite (with_lock_set _ _ _ Ha eq_refl). Qed.

Lemma psci_cpu_on_ok w g r t exit res x1 x2 (Q : rmi_rec_exit * rsi_result -> realms -> Prop) :
  pinv w -> s_recs (w_st w) !! g = Some r -> active_plane_id r = PLANE_0_ID -> pending_op r = REC_PENDING_NONE ->
  rec_table w (g_rd r) t -> length (gprs exit) = 31%nat ->
  arr_get (regs (plane_0 r)) 1 = Some x1 -> arr_get (regs (plane_0 r)) 2 = Some x2 ->
  match cpu_on_verdict r t x1 x2 with
  | inl v => Q (exit, set_res0 v (set_action UPDATE_REC_RETURN_TO_REALM res)) (w_st w)
  | inr addr =>
      Q (RecExit (exit_reason exit) (take 2 (regs (plane_0 r)) ++ replicate 29 0), set_action EXIT_TO_HOST res)
        (with_recs (w_st w) (<[g := cpu_on_requested addr r]> (s_recs (w_st w))))
  end ->
  runs (psci_cpu_on g exit res) (w_st w) Q.
Proof.
  intros Hinv Hr Ha Hp (mm & Hmm & Hsz & Hrep & Hval) Hex Hx1 Hx2 HQ. destruct (plane_0_active r Ha) as [H0 Hpl].
  destruct (pi_recs w Hinv g r Hr) as [_ [d Hd] Hsh _ _]. destruct (shape_inv r Hsh) as (Hl & _).
  destruct (rd_table w _ d Hinv Hd) as [[c Hc] _]. unfold psci_cpu_on.
  eapply runs_bind, runs_p_get; [exact Hr|]. cbn zeta. rewrite Hpl. do 2 (eapply runs_bind, runs_lift; [eassumption|]).
  unfold cpu_on_verdict in HQ. destruct (addr_in_rec_par r x2); cbn [negb] in *; [|by apply runs_ret].
  destruct (mpidr_to_rec_mpidr x1 =? mpidr r); [by apply runs_ret|].
  eapply runs_bind, runs_p_mem; [by apply (lock_rd_ok w _ c)|]. cbn [negb].
  eapply runs_bind, runs_p_get; [exact Hd|]. eapply runs_bind, runs_p_get; [exact Hmm|].
  destruct (map_mpidr_ok mm t (mpidr_to_rec_mpidr x1) Hsz Hrep Hval) as (o & Ho & Hspec).
  eapply runs_bind, runs_lift; [exact Ho|]. destruct o as [gt|].
  - destruct Hspec as (addr & Haddr & Hgt). rewrite Haddr in HQ. apply runs_bind.
    eapply runs_bind, runs_lift; [by apply granule_names_inverse|]. eapply runs_update_rec; [exact Hr|].
    apply runs_bind. eapply runs_unlock; [done|exact Hc|done|].
    apply runs_bind. eapply runs_bind, runs_p_get; [apply lookup_insert_eq|].
    eapply runs_bind, runs_guard; [cbn; by rewrite Hp|]. apply runs_store_rec.
    eapply runs_bind, runs_lift; [apply forward_args_ok; (lia || done)|]. apply runs_ret.
    cbn [with_recs with_smem s_mem s_rds s_rec_maps s_recs]. rewrite insert_insert_eq. exact HQ.
  - rewrite Hspec in HQ. eapply runs_bind, runs_ret, runs_bind. eapply runs_unlock; [done|exact Hc|done|].
    apply runs_ret. fold (with_slock (w_st w) (g_rd r)). rewrite with_smem_slock. exact HQ.
Qed.

(** What [PSCI_AFFINITY_INFO] answers. *)
Definition affinity_verdict w r (t : gmap Z (list Z)) (target level : Z) (v : Z) : Prop :=
  if negb (level =? 0) then v = PSCI_RETURN_INVALID_PARAMS
  else if mpidr_to_rec_mpidr target =? mpidr r then v = PSCI_AFFINITY_INFO_ON
  else match table_rec t (mpidr_to_rec_mpidr target) with
       | None => v = PSCI_RETURN_INVALID_PARAMS
       | Some addr => exists gt, tr_addr_to_granule addr = Some gt /\
           match s_recs (w_st w) !! gt with
           | None => v = PSCI_RETURN_INVALID_PARAMS
           | Some rt => v = if (g_rd rt =? g_rd r) && (mpidr rt =? mpidr_to_rec_mpidr target) && is_on w gt rt
                            then PSCI_AFFINITY_INFO_ON else PSCI_AFFINITY_INFO_OFF
           end
       end.

(** The target is locked before the RD is released. *)
Lemma lock_target w x c gt (Q : bool -> realms -> Prop) :
  pinv w -> granule_at (s_mem (w_st w)) x (AGranule false GRANULE_STATE_RD c) -> (exists addr, tr_addr_to_granule addr = Some gt) ->
  (s_recs (w_st w) !! gt = None -> Q false (with_slock (w_st w) x)) ->
  (forall rt, s_recs (w_st w) !! gt = Some rt -> gt <> x -> Q true (with_two (w_st w) x gt)) ->
  runs (p_mem (granule_lock_on_state_match gt GRANULE_STATE_REC)) (with_slock (w_st w) x) Q.
Proof.
  intros Hinv Hx (addr & Hgt) Hno Hyes. destruct (s_recs (w_st w) !! gt) as [rt|] eqn:Hrt.
  - pose proof (rec_granule w gt rt Hinv Hrt) as Ha.
    assert (Hne : gt <> x) by (intros ->; pose proof (granule_at_inj _ _ _ _ Ha Hx) as E; injection E as E _; discriminate E).
    pose proof (proj2 (granule_at_with_lock_ne (s_mem (w_st w)) x gt _ Hne) Ha) as Ha'.
    eapply runs_p_mem; [|by apply (Hyes rt)]. cbn [s_mem with_slock with_smem].
    rewrite (lock_on_state_match_ok _ _ _ _ Ha'). cbn [a_state a_locked]. rewrite Z.eqb_refl. cbn [negb].
    by rewrite (with_lock_set _ _ _ Ha' eq_refl).
  - destruct (pi_granules w Hinv addr gt Hgt) as (a & Ha & Hl).
    assert (Hs : a_state a <> GRANULE_STATE_REC).
    { intros Hs. destruct (pi_states w Hinv gt a Ha Hs) as [? ?]. congruence. }
    assert (Ha' : exists a', granule_at (with_lock (s_mem (w_st w)) x) gt a' /\ a_state a' <> GRANULE_STATE_REC).
    { destruct (decide (gt = x)) as [->|Hne].
      - exists (locked (AGranule false GRANULE_STATE_RD c)). split; [by apply granule_at_with_lock|done].
      - exists a. split; [by apply granule_at_with_lock_ne|done]. }
    destruct Ha' as (a' & Ha' & Hs'). eapply runs_p_mem; [|by apply Hno].
    cbn [s_mem with_slock with_smem]. rewrite (lock_on_state_match_ok _ _ _ _ Ha'), (proj2 (Z.eqb_neq _ _) Hs'). done.
Qed.

Lemma psci_affinity_ok w g r t res x1 x2 (Q : rsi_result -> realms -> Prop) :
  pinv w -> s_recs (w_st w) !! g = Some r -> active_plane_id r = PLANE_0_ID -> rec_table w (g_rd r) t ->
  arr_get (regs (plane_0 r)) 1 = Some x1 -> arr_get (regs (plane_0 r)) 2 = Some x2 ->
  (forall v, affinity_verdict w r t x1 x2 v -> Q (set_res0 v (set_action UPDATE_REC_RETURN_TO_REALM res)) (w_st w)) ->
  runs (psci_affinity_info g res) (w_st w) Q.
Proof.
  intros Hinv Hr Ha (mm & Hmm & Hsz & Hrep & Hval) Hx1 Hx2 HQ. destruct (plane_0_active r Ha) as [H0 Hpl].
  destruct (pi_recs w Hinv g r Hr) as [_ [d Hd] Hsh _ _].
  destruct (rd_table w _ d Hinv Hd) as [[c Hc] _]. unfold psci_affinity_info.
  eapply runs_bind, runs_p_get; [exact Hr|]. cbn zeta. rewrite Hpl. do 2 (eapply runs_bind, runs_lift; [eassumption|]).
  unfold affinity_verdict in HQ. destruct (x2 =? 0); cbn [negb] in *; [|by apply runs_ret, HQ].
  destruct (mpidr_to_rec_mpidr x1 =? mpidr r); [by apply runs_ret, HQ|].
  eapply runs_bind, runs_p_mem; [by apply (with_lock_lock _ _ _ _ Hc)|].
  eapply runs_bind, runs_p_get; [exact Hd|]. eapply runs_bind, runs_p_get; [exact Hmm|].
  destruct (map_mpidr_ok mm t (mpidr_to_rec_mpidr x1) Hsz Hrep Hval) as (o & Ho & Hspec).
  eapply runs_bind, runs_lift; [exact Ho|]. apply runs_bind. fold (with_slock (w_st w) (g_rd r)).
  assert (Hnone : Q (set_res0 PSCI_RETURN_INVALID_PARAMS (set_action UPDATE_REC_RETURN_TO_REALM res)) (w_st w) ->
    runs (_ <-! p_unlock (g_rd r) ;; ret (set_res0 PSCI_RETURN_INVALID_PARAMS (set_action UPDATE_REC_RETURN_TO_REALM res)))
      (with_slock (w_st w) (g_rd r)) Q).
  { intros Hv. apply runs_bind. eapply runs_unlock; [done|exact Hc|done|]. apply runs_ret. by rewrite with_smem_slock. }
  destruct o as [gt|].
  2: { rewrite Hspec in HQ. apply runs_ret. cbn beta iota. by apply Hnone, HQ. }
  destruct Hspec as (addr & Haddr & Hgt). rewrite Haddr in HQ. apply runs_bind. eapply (lock_target w _ c); [done|done|by exists addr| |].
  { intros Hrt. apply runs_ret. cbn beta iota. apply Hnone, HQ. exists gt. by rewrite Hrt. }
  intros rt Hrt Hne. apply runs_ret. cbn beta iota. apply runs_bind.
  assert (Hgr : granule_at (s_mem (w_st w)) gt (AGranule false GRANULE_STATE_REC (count (holds gt) (w_pes w)))) by (by eapply rec_granule).
  eapply (runs_unlock _ (with_lock (s_mem (w_st w)) gt) _ (AGranule false GRANULE_STATE_RD c)); [cbn [s_mem with_two with_smem]; by rewrite with_lock_comm| |done|].
  { apply granule_at_with_lock_ne; [done|exact Hc]. }
  change (with_smem (with_two (w_st w) (g_rd r) gt) (with_lock (s_mem (w_st w)) gt)) with (with_slock (w_st w) gt).
  eapply runs_bind, runs_p_get; [exact Hrt|]. apply runs_bind.
  assert (Hfin : forall v, v = (if (g_rd rt =? g_rd r) && (mpidr rt =? mpidr_to_rec_mpidr x1) && is_on w gt rt
                            then PSCI_AFFINITY_INFO_ON else PSCI_AFFINITY_INFO_OFF) ->
    runs (_ <-! p_unlock gt ;; ret (set_res0 v (set_action UPDATE_REC_RETURN_TO_REALM res))) (with_slock (w_st w) gt) Q).
  { intros v Hv. apply runs_bind. eapply (unlock_rec w gt rt); [done|done|done|]. apply runs_ret. rewrite with_smem_slock.
    apply HQ. exists gt. by rewrite Hrt. }
  destruct (g_rd rt =? g_rd r); cbn [negb orb andb] in *; [|by apply runs_ret, Hfin].
  destruct (mpidr rt =? mpidr_to_rec_mpidr x1); cbn [negb andb] in *; [|by apply runs_ret, Hfin].
  eapply runs_bind, runs_p_get; [by eapply (refcount_rec w gt rt)|]. apply runs_ret, Hfin. done.
Qed.

End Run.
