(* ===== verification/PsciCall.v ===== *)
(** * A PSCI call of a running REC

    [handle_realm_rsi] for PSCI: every outcome of a call, with its effect on the
    caller's registers and on the realm. *)

From Stdlib Require Import ZArith Lia Bool ZifyBool.
From stdpp Require Import base tactics option list numbers gmap.
From S2P Require Import Prelude.
From S2P Require Import Utils.
From S2P Require Import Status.
From S2P Require Import Granule.
From S2P Require Import Mem.
From S2P Require Import Sarray.
From S2P Require Import Realm.
From S2P Require Import Rmm.
From S2P Require Import Psci.
From S2P Require Import PsciProps.
From S2P Require Import PsciInv.
From S2P Require Import PsciRun.

Section Call.
Context `{pairs : PairLookup}.
Implicit Types (w : pworld) (s : realms) (p : pe) (r : rec) (d : rd).

(** The caller after the call returned [v] to it, and after a call that leaves its
    registers alone. *)
Definition returned (v : Z) r : rec :=
  set_plane_0 (RecPlane (v :: 0 :: 0 :: 0 :: drop 4 (regs (plane_0 r))) (add64 (plane_pc (plane_0 r)) 4)
                 (plane_pstate (plane_0 r))) r.
Definition advanced r : rec := set_plane_0 (advance_pc (plane_0 r)) r.

Definition psci_supported : list Z :=
  [SMC32_PSCI_VERSION; SMC32_PSCI_CPU_SUSPEND; SMC64_PSCI_CPU_SUSPEND; SMC32_PSCI_CPU_OFF; SMC32_PSCI_CPU_ON;
   SMC64_PSCI_CPU_ON; SMC32_PSCI_AFFINITY_INFO; SMC64_PSCI_AFFINITY_INFO; SMC32_PSCI_SYSTEM_OFF; SMC32_PSCI_SYSTEM_RESET;
   SMC32_PSCI_FEATURES; SMCCC_VERSION].

(** The services that answer without the host, and their answers. *)
Definition answers w r (id v : Z) : Prop :=
  exists t x1 x2, rec_table w (g_rd r) t /\ arr_get (regs (plane_0 r)) 1 = Some x1 /\ arr_get (regs (plane_0 r)) 2 = Some x2 /\
    if id =? SMC32_PSCI_VERSION then v = 0x10001
    else if is_cpu_on id then cpu_on_verdict r t x1 x2 = inl v
    else if (id =? SMC32_PSCI_AFFINITY_INFO) || (id =? SMC64_PSCI_AFFINITY_INFO) then affinity_verdict w r t x1 x2 v
    else if id =? SMC32_PSCI_FEATURES then
      v = if existsb (Z.eqb (u32 x1)) psci_supported then PSCI_RETURN_SUCCESS else PSCI_RETURN_NOT_SUPPORTED
    else v = PSCI_RETURN_NOT_SUPPORTED.

(** The exit to the host passes the first [n] registers. *)
Definition psci_exit (n : nat) r : rmi_rec_exit :=
  RecExit RMI_EXIT_PSCI (take n (regs (plane_0 r)) ++ replicate (31 - n) 0).

(** The outcomes of a call: the exit record, whether the realm continues, and the
    new state. *)
Inductive called w (g : Z) r (id : Z) : rmi_rec_exit -> bool -> realms -> Prop :=
  | ca_return v : answers w r id v ->
      called w g r id zero_exit true (with_recs (w_st w) (<[g := returned v r]> (s_recs (w_st w))))
  | ca_suspend : id = SMC32_PSCI_CPU_SUSPEND \/ id = SMC64_PSCI_CPU_SUSPEND ->
      called w g r id (psci_exit 1 r) false
        (with_recs (w_st w) (<[g := returned PSCI_RETURN_SUCCESS r]> (s_recs (w_st w))))
  | ca_off : id = SMC32_PSCI_CPU_OFF ->
      called w g r id (psci_exit 1 r) false
        (with_recs (w_st w) (<[g := returned PSCI_RETURN_SUCCESS (set_runnable false r)]> (s_recs (w_st w))))
  | ca_on t x1 x2 addr : is_cpu_on id = true -> rec_table w (g_rd r) t ->
      arr_get (regs (plane_0 r)) 1 = Some x1 -> arr_get (regs (plane_0 r)) 2 = Some x2 ->
      cpu_on_verdict r t x1 x2 = inr addr ->
      called w g r id (psci_exit 2 r) false
        (with_recs (w_st w) (<[g := advanced (cpu_on_requested addr r)]> (s_recs (w_st w))))
  | ca_system d st n : id = SMC32_PSCI_SYSTEM_OFF \/ id = SMC32_PSCI_SYSTEM_RESET ->
      s_rds (w_st w) !! g_rd r = Some d -> 0 <= st < 4 -> state_and_count d = sc st n -> 0 <= n < 2 ^ 62 ->
      called w g r id (psci_exit 1 r) false
        (with_sword (with_recs (w_st w) (<[g := advanced r]> (s_recs (w_st w)))) (g_rd r) d (sc REALM_SYSTEM_OFF n)).

(** What the switch of [handle_psci] leaves: before the PC and the registers of the
    caller are updated. *)
Inductive served w (g : Z) r (id : Z) (x : list Z) : rmi_rec_exit -> rsi_result -> realms -> Prop :=
  | sv_return v : answers w r id v ->
      served w g r id x zero_exit (RsiResult UPDATE_REC_RETURN_TO_REALM (v :: x)) (w_st w)
  | sv_suspend : id = SMC32_PSCI_CPU_SUSPEND \/ id = SMC64_PSCI_CPU_SUSPEND ->
      served w g r id x (RecExit 0 (gprs (psci_exit 1 r))) (RsiResult UPDATE_REC_EXIT_TO_HOST (PSCI_RETURN_SUCCESS :: x)) (w_st w)
  | sv_off : id = SMC32_PSCI_CPU_OFF ->
      served w g r id x (RecExit 0 (gprs (psci_exit 1 r))) (RsiResult UPDATE_REC_EXIT_TO_HOST (PSCI_RETURN_SUCCESS :: x))
        (with_recs (w_st w) (<[g := set_runnable false r]> (s_recs (w_st w))))
  | sv_on t x1 x2 addr : is_cpu_on id = true -> rec_table w (g_rd r) t ->
      arr_get (regs (plane_0 r)) 1 = Some x1 -> arr_get (regs (plane_0 r)) 2 = Some x2 ->
      cpu_on_verdict r t x1 x2 = inr addr ->
      served w g r id x (RecExit 0 (gprs (psci_exit 2 r))) (RsiResult EXIT_TO_HOST (0 :: x))
        (with_recs (w_st w) (<[g := cpu_on_requested addr r]> (s_recs (w_st w))))
  | sv_system d st n : id = SMC32_PSCI_SYSTEM_OFF \/ id = SMC32_PSCI_SYSTEM_RESET ->
      s_rds (w_st w) !! g_rd r = Some d -> 0 <= st < 4 -> state_and_count d = sc st n -> 0 <= n < 2 ^ 62 ->
      served w g r id x (RecExit 0 (gprs (psci_exit 1 r))) (RsiResult EXIT_TO_HOST (0 :: x))
        (with_sword (w_st w) (g_rd r) d (sc REALM_SYSTEM_OFF n)).

Lemma forward_zero n r : (n <= 4)%nat -> rec_shape r = true ->
  forward_args_to_host (Z.of_nat n) (plane_0 r) zero_exit = Some (RecExit 0 (gprs (psci_exit n r))).
Proof.
  intros Hn (Hl & _)%shape_inv. rewrite forward_args_ok; [|lia|done|done]. unfold psci_exit. cbn [exit_reason gprs zero_exit].
  rewrite Nat2Z.id. by replace (Z.to_nat (31 - Z.of_nat n)) with (31 - n)%nat by lia.
Qed.

(** A running REC that calls from plane 0. *)
Record calling w (i : nat) (g : Z) r : Prop := {
  cl_pe : w_pes w !! i = Some (P_run g);
  cl_rec : s_recs (w_st w) !! g = Some r;
  cl_active : active_plane_id r = PLANE_0_ID
}.

Lemma dispatch_ok w i g r id x :
  pinv w -> calling w i g r -> psci_function_id (plane_0 r) = Some id ->
  runs (psci_dispatch g (plane_0 r) id zero_exit (RsiResult UPDATE_REC_RETURN_TO_REALM (0 :: x))) (w_st w)
    (fun out s' => served w g r id x (fst out) (snd out) s').
Proof.
  intros Hinv [Hpe Hr Ha] Hid. pose proof (pi_pes w Hinv i _ Hpe) as (r' & Hr' & _ & Hpend).
  assert (r' = r) as -> by congruence. destruct (pi_recs w Hinv g r Hr) as [_ [d Hd] Hsh _ _].
  destruct (held_facts w i _ g r Hinv Hpe ltac:(cbn; apply Z.eqb_refl) Hr) as (_ & d' & st & n & Hd' & Hst & Hw & _ & Hb & _).
  assert (d' = d) as -> by congruence. destruct (rd_table w _ d Hinv Hd) as [[c Hc] [t Ht]].
  destruct (reg_some r 1 Hsh ltac:(lia)) as [x1 Hx1], (reg_some r 2 Hsh ltac:(lia)) as [x2 Hx2].
  destruct (plane_0_active r Ha) as [Hp0 Hpl]. unfold psci_dispatch.
  assert (Hans : forall v, (if id =? SMC32_PSCI_VERSION then v = 0x10001
    else if is_cpu_on id then cpu_on_verdict r t x1 x2 = inl v
    else if (id =? SMC32_PSCI_AFFINITY_INFO) || (id =? SMC64_PSCI_AFFINITY_INFO) then affinity_verdict w r t x1 x2 v
    else if id =? SMC32_PSCI_FEATURES then
      v = if existsb (Z.eqb (u32 x1)) psci_supported then PSCI_RETURN_SUCCESS else PSCI_RETURN_NOT_SUPPORTED
    else v = PSCI_RETURN_NOT_SUPPORTED) -> answers w r id v) by (intros v Hv; by exists t, x1, x2).
  destruct (Z.eqb_spec id SMC32_PSCI_VERSION) as [->|Hn1].
  { apply runs_ret. cbn [fst snd]. apply (sv_return w g r _ x 0x10001). by apply Hans. }
  destruct ((id =? SMC32_PSCI_CPU_SUSPEND) || (id =? SMC64_PSCI_CPU_SUSPEND)) eqn:Hsus.
  { eapply runs_bind, runs_lift; [apply (forward_zero 1); [lia|done]|]. apply runs_ret. cbn. apply sv_suspend. lia. }
  destruct (Z.eqb_spec id SMC32_PSCI_CPU_OFF) as [->|Hn2].
  { eapply runs_bind, runs_update_rec; [exact Hr|]. eapply runs_bind, runs_p_get; [apply lookup_insert_eq|].
    eapply runs_bind, runs_lift.
    { unfold rec_active_plane, rec_is_plane_0_active. cbn [active_plane_id set_runnable]. rewrite Ha. apply (forward_zero 1); [lia|done]. }
    apply runs_ret. by apply sv_off. }
  destruct (is_cpu_on id) eqn:Hon.
  { eapply (psci_cpu_on_ok w g r t); try done. destruct (cpu_on_verdict r t x1 x2) as [v|addr] eqn:Hv.
    - exact (sv_return w g r id x v (Hans v eq_refl)).
    - exact (sv_on w g r id x t x1 x2 addr Hon Ht Hx1 Hx2 Hv). }
  destruct ((id =? SMC32_PSCI_AFFINITY_INFO) || (id =? SMC64_PSCI_AFFINITY_INFO)) eqn:Haff.
  { apply runs_bind. eapply (psci_affinity_ok w g r t); try done. intros v Hv. apply runs_ret. exact (sv_return w g r id x v (Hans v Hv)). }
  destruct ((id =? SMC32_PSCI_SYSTEM_OFF) || (id =? SMC32_PSCI_SYSTEM_RESET)) eqn:Hsys.
  { apply runs_bind. eapply runs_bind, runs_p_get; [exact Hr|].
    eapply runs_bind, runs_p_mem; [by apply (with_lock_lock _ _ _ _ Hc)|]. eapply runs_bind, runs_p_get; [exact Hd|].
    apply runs_bind. eexists tt, _. split; [done|]. eapply runs_unlock; [done|exact Hc|done|].
    eapply runs_bind, runs_p_get; [exact Hr|]. rewrite Hpl. eapply runs_bind, runs_lift; [apply (forward_zero 1); [lia|done]|]. apply runs_ret.
    cbn [fst snd]. rewrite Hw. unfold set_rd_state, atomic_cas. rewrite Z.eqb_refl. cbn [snd].
    unfold set_rd_state_desired. rewrite unpack_count, pack_sc by (done || lia). eapply (sv_system w g r id x d st n); try done. lia. }
  destruct (Z.eqb_spec id SMC32_PSCI_FEATURES) as [->|Hn3].
  { eapply runs_bind, runs_lift; [unfold psci_features; rewrite Hx1; reflexivity|]. apply runs_ret. cbn [fst snd].
    fold psci_supported. specialize (Hans _ eq_refl).
    destruct (existsb _ psci_supported); by apply sv_return. }
  apply runs_ret. exact (sv_return w g r id x _ (Hans _ eq_refl)).
Qed.

(** The registers the caller gets back. *)
Definition result_tail r : list Z := 0 :: 0 :: 0 :: take 4 (drop 4 (regs (plane_0 r))).

Lemma initial_result r : rec_shape r = true ->
  copy_regs 4 4 (regs (plane_0 r)) (replicate (Z.to_nat SMC_RESULT_REGS) 0) = Some (0 :: result_tail r).
Proof.
  intros (Hl & _)%shape_inv. rewrite copy_regs_ok by (rewrite ?Hl, ?length_replicate; unfold SMC_RESULT_REGS; lia). cbn.
  by rewrite app_nil_r.
Qed.

Lemma final_regs r v : rec_shape r = true ->
  copy_regs (Z.to_nat SMC_RESULT_REGS) 0 (v :: result_tail r) (regs (plane_0 r)) =
    Some (v :: 0 :: 0 :: 0 :: drop 4 (regs (plane_0 r))).
Proof.
  intros (Hl & _)%shape_inv. unfold result_tail.
  rewrite copy_regs_ok; [|lia|cbn [length]; rewrite length_take, length_drop, Hl; unfold SMC_RESULT_REGS; lia|rewrite Hl; unfold SMC_RESULT_REGS; lia].
  change (Z.to_nat 0) with 0%nat. change (Z.to_nat SMC_RESULT_REGS) with 8%nat. cbn [take drop app Nat.add]. do 5 f_equal.
  rewrite take_take. cbn [Nat.min]. rewrite <- (take_drop 4 (drop 4 (regs (plane_0 r)))) at 2. by rewrite drop_drop.
Qed.

(** The end of [handle_realm_rsi]: the PC advances, the registers are updated if
    asked for. *)
Lemma rsi_tail_ok s g r (res : rsi_result) exit v (Q : rmi_rec_exit * bool -> realms -> Prop) :
  s_recs s !! g = Some r -> rec_shape r = true -> active_plane_id r = PLANE_0_ID ->
  smc_res res = v :: result_tail r -> Z.land (action res) (Z.lor FLAG_PLANE_CHANGED FLAG_STAGE_2_ABORT) = 0 ->
  Q (exit, Z.land (action res) FLAG_EXIT_TO_HOST =? 0)
    (with_recs s (<[g := if negb (Z.land (action res) FLAG_UPDATE_REC =? 0) then returned v r else advanced r]> (s_recs s))) ->
  runs (handle_realm_rsi_end g exit res) s Q.
Proof.
  intros Hr Hsh Ha Hres Hfl HQ. destruct (plane_0_active r Ha) as [Hp0 Hpl].
  eapply runs_bind, runs_guard; [by apply Z.eqb_eq|]. eapply runs_bind, runs_update_rec; [exact Hr|].
  rewrite set_active_0, Hpl by done. apply runs_bind. destruct (negb (Z.land (action res) FLAG_UPDATE_REC =? 0)).
  - eapply runs_bind, runs_p_get; [apply lookup_insert_eq|]. cbn zeta.
    destruct (plane_0_active (set_plane_0 (advance_pc (plane_0 r)) r) Ha) as [_ Hpl'].
    rewrite Hpl', Hres. eapply runs_bind, runs_lift; [exact (final_regs r v Hsh)|].
    rewrite set_active_0 by done. apply runs_store_rec, runs_ret. cbn [s_recs with_recs]. rewrite insert_insert_eq. exact HQ.
  - apply runs_ret, runs_ret. exact HQ.
Qed.

Lemma psci_call_ok w i g r fid id :
  pinv w -> calling w i g r -> rsi_function_id (plane_0 r) = Some fid -> is_psci_fid fid = true ->
  psci_function_id (plane_0 r) = Some id ->
  runs (handle_realm_rsi_psci g zero_exit) (w_st w) (fun out s' => called w g r id (fst out) (snd out) s').
Proof.
  intros Hinv Hcl Hfid Hps Hid. pose proof Hcl as [Hpe Hr Ha]. pose proof (pi_recs w Hinv g r Hr) as [_ _ Hsh _ _].
  destruct (plane_0_active r Ha) as [Hp0 Hpl].
  eapply runs_bind, runs_p_get; [exact Hr|]. cbn zeta. rewrite Hpl. eapply runs_bind, runs_lift; [exact Hfid|].
  eapply runs_bind, runs_lift; [by apply initial_result|]. eapply runs_bind, runs_guard; [by rewrite Hp0, Hps|].
  apply runs_bind. eapply runs_bind, runs_p_get; [exact Hr|]. cbn zeta. rewrite Hpl. eapply runs_bind, runs_lift; [exact Hid|].
  apply runs_bind. eapply runs_mono; [by apply (dispatch_ok w i g r id (result_tail r))|].
  intros [exit res] s' Hs. cbn [fst snd] in Hs. destruct Hs as [v Hv|Hc|Hc|t x1 x2 addr Hon Ht Hx1 Hx2 Hv|d st n Hc Hd Hst Hw Hb].
  - apply runs_ret. eapply (rsi_tail_ok _ g r _ _ v); try done. by apply ca_return.
  - apply runs_ret. eapply (rsi_tail_ok _ g r _ _ PSCI_RETURN_SUCCESS); try done. by apply ca_suspend.
  - apply runs_ret. eapply (rsi_tail_ok _ g (set_runnable false r) _ _ PSCI_RETURN_SUCCESS); try done.
    { apply lookup_insert_eq. }
    cbn [s_recs with_recs]. rewrite insert_insert_eq. by apply ca_off.
  - apply runs_ret. eapply (rsi_tail_ok _ g (cpu_on_requested addr r) _ _ 0); try done.
    { apply lookup_insert_eq. }
    cbn [s_recs with_recs]. rewrite insert_insert_eq. by apply (ca_on w g r id t x1 x2).
  - apply runs_ret. eapply (rsi_tail_ok _ g r _ _ 0); try done. by apply (ca_system w g r id d st n).
Qed.

End Call.
