(* ===== verification/PsciSafe.v ===== *)
(** * Power management is safe

    The steps of [PsciInv] keep the invariant, and what follows from it: a REC runs
    on one PE at a time and is changed by that PE only, a REC is powered on only at
    the request of a REC of its own realm, with the state PSCI asks for, and the
    code never fails an assertion or waits for ever, except in one race that is
    exhibited. *)

From Stdlib Require Import ZArith Lia Bool ZifyBool.
From stdpp Require Import base tactics option list numbers gmap.
From S2P Require Import Prelude.
From S2P Require Import Utils.
From S2P Require Import Status.
From S2P Require Import Granule.
From S2P Require Import Mem.
From S2P Require Import Sarray.
From S2P Require Import Realm.
From S2P Require Import Rmm.
From S2P Require Import Psci.
From S2P Require Import PsciProps.
From S2P Require Import PsciInv.
From S2P Require Import PsciRun.
From S2P Require Import PsciCall.

Section Safe.
Context `{pairs : PairLookup}.
Implicit Types (w : pworld) (s : realms) (p : pe) (r : rec) (d : rd).

(** What one step of a PE does. *)
Inductive effect w (q : request) : pe -> pe -> realms -> Prop :=
  | ef_none p p' : (forall g, holds g p' = holds g p) -> (forall recs x, counted recs x p' = counted recs x p) ->
      pe_ok (s_recs (w_st w)) p' -> effect w q p p' (w_st w)
  | ef_enter x0 g r : s_recs (w_st w) !! g = Some r -> count (holds g) (w_pes w) = 0 -> runnable r = true ->
      effect w q (P_idle x0) (P_enter g) (with_ref (w_st w) g 1)
  | ef_drop g x0 : effect w q (P_enter g) (P_idle x0) (with_ref (w_st w) g 0)
  | ef_admit g r d : s_recs (w_st w) !! g = Some r -> pending_op r = REC_PENDING_NONE -> runnable r = true ->
      s_rds (w_st w) !! g_rd r = Some d ->
      effect w q (P_enter g) (P_run g)
        (with_sword (w_st w) (g_rd r) d (sc REALM_ACTIVE (count (counted (s_recs (w_st w)) (g_rd r)) (w_pes w) + 1)))
  | ef_realm g r pl0 pln sys active : s_recs (w_st w) !! g = Some r -> rec_shape (set_planes pl0 pln sys active r) = true ->
      effect w q (P_run g) (P_run g) (with_recs (w_st w) (<[g := set_planes pl0 pln sys active r]> (s_recs (w_st w))))
  | ef_call g r id exit (continue : bool) s' : s_recs (w_st w) !! g = Some r -> active_plane_id r = PLANE_0_ID ->
      psci_function_id (plane_0 r) = Some id -> called w g r id exit continue s' ->
      effect w q (P_run g) (if continue then P_run g else P_leave g) s'
  | ef_out g r d st n x0 : s_recs (w_st w) !! g = Some r -> s_rds (w_st w) !! g_rd r = Some d -> 0 <= st < 4 ->
      n = count (counted (s_recs (w_st w)) (g_rd r)) (w_pes w) ->
      effect w q (P_leave g) (P_idle x0) (with_sword (with_ref (w_st w) g 0) (g_rd r) d (sc st (n - 1)))
  | ef_finish calling target status st s' : q = Q_finish -> completed w calling target status st s' ->
      effect w q (P_complete calling target status) (P_idle st) s'.

Lemma function_id_some r : rec_shape r = true -> exists id fid,
  psci_function_id (plane_0 r) = Some id /\ rsi_function_id (plane_0 r) = Some fid.
Proof.
  intros Hsh. destruct (reg_some r 0 Hsh ltac:(lia)) as [x0 Hx0]. unfold psci_function_id, rsi_function_id. rewrite Hx0. by eexists _, _.
Qed.

Lemma plane_n_shape r : rec_shape r = true -> exists v, rsi_function_id (rec_active_plane r) = Some v.
Proof.
  intros (H0 & Hn & _)%shape_inv. unfold rsi_function_id.
  destruct (arr_get_some (regs (rec_active_plane r)) 0) as [v Hv]; [unfold rec_active_plane; case_match; lia|]. rewrite Hv. by eexists.
Qed.

Lemma step_ok w i p q c :
  pinv w -> w_pes w !! i = Some p -> pe_step p q = Some c ->
  runs c (w_st w) (effect w q p) \/
  (fails c (w_st w) /\ exists calling target status gc rc,
     p = P_complete calling target status /\ stale_plane w calling gc rc).
Proof.
  intros Hinv Hi Hq. destruct p as [x0|g|g|g|calling target status], q; try discriminate Hq; injection Hq as <-; [left..|].
  - apply runs_bind. eapply runs_mono; [by apply rec_enter_lock_ok|]. intros x s' [(st & -> & ->)|(g & r & -> & Hr & H0 & Hrun & ->)].
    + apply runs_ret. by apply ef_none.
    + apply runs_ret. by eapply ef_enter.
  - apply runs_bind. eapply runs_mono; [by apply complete_begin_ok|]. intros [st|t] s' ->; apply runs_ret; by apply ef_none.
  - apply runs_bind. eapply runs_mono; [by apply (rec_enter_admit_ok w i)|].
    intros x s' [(st & -> & ->)|(r & d & st & -> & Hr & Hp & Hrun & Hd & -> & ->)]; apply runs_ret; [by apply ef_drop|by apply ef_admit].
  - pose proof (pi_pes w Hinv i _ Hi) as (r & Hr & Hrun & Hpe). apply runs_bind. eapply runs_bind, runs_p_get; [exact Hr|]. cbn zeta.
    destruct (rec_shape (set_planes p0 pn sys active r)) eqn:Hsh.
    + apply runs_store_rec, runs_ret. by apply ef_realm.
    + apply runs_ret, runs_ret. apply ef_none; try done. by exists r.
  - pose proof (pi_pes w Hinv i _ Hi) as (r & Hr & Hrun & Hpe). pose proof (pi_recs w Hinv g r Hr) as [_ _ Hsh _ _].
    destruct (plane_n_shape r Hsh) as [v Hv]. apply runs_bind. eapply runs_bind, runs_p_get; [exact Hr|].
    eapply runs_bind, runs_lift; [exact Hv|]. apply runs_ret. destruct (rec_is_plane_0_active r && is_psci_fid v) eqn:E.
    + apply andb_true_iff in E as [Ha%Z.eqb_eq Hf]. destruct (plane_0_active r Ha) as [_ Hpl]. rewrite Hpl in Hv.
      destruct (function_id_some r Hsh) as (id & fid & Hid & Hfid). apply runs_bind.
      eapply runs_mono; [by eapply (psci_call_ok w i g r v id)|]. intros [exit cont] s' Hc. apply runs_ret. by eapply ef_call.
    + apply runs_ret. apply ef_none; try done. by exists r.
  - apply runs_ret. apply ef_none; try done. pose proof (pi_pes w Hinv i _ Hi) as (r & Hr & _). by exists r.
  - pose proof (pi_pes w Hinv i _ Hi) as [r Hr].
    destruct (held_facts w i (P_leave g) g r Hinv Hi ltac:(cbn; apply Z.eqb_refl) Hr)
      as (Ha & d & st & n & Hd & Hst & Hw & Hn & Hb & Hpos & _).
    apply runs_bind. eapply runs_mono.
    { eapply (rec_enter_out_ok _ g r d st n); try done. split; [|lia]. apply Hpos. cbn. rewrite Hr. apply Z.eqb_refl. }
    intros _ s' ->. apply runs_ret. by eapply ef_out.
  - destruct (complete_finish_ok w calling target status Hinv) as [Hok|[Hbad (gc & rc & Hst)]]; [left|right].
    + apply runs_bind. eapply runs_mono; [exact Hok|]. intros st s' Hs. apply runs_ret. by apply ef_finish.
    + split; [by apply fails_here|]. by exists calling, target, status, gc, rc.
Qed.

(** ** The invariant is kept *)

Lemma counted_insert w i p p' recs x : w_pes w !! i = Some p -> counted recs x p' = counted recs x p ->
  count (counted recs x) (<[i := p']> (w_pes w)) = count (counted recs x) (w_pes w).
Proof. intros Hi E. rewrite (count_insert _ _ _ _ _ Hi), E. lia. Qed.

(** Words that need no change. *)
Lemma words_keep w i p p' x d :
  pinv w -> w_pes w !! i = Some p -> counted (s_recs (w_st w)) x p' = counted (s_recs (w_st w)) x p ->
  s_rds (w_st w) !! x = Some d -> is_Some (s_rds (w_st w) !! x) /\
    exists st, 0 <= st < 4 /\ state_and_count d = sc st (count (counted (s_recs (w_st w)) x) (<[i := p']> (w_pes w))).
Proof.
  intros Hinv Hi E Hd. split; [by exists d|]. destruct (pi_rds w Hinv x d Hd) as [_ (st & Hst & Hw) _].
  exists st. by rewrite (counted_insert w i p).
Qed.

Lemma recs_insert rds (recs : gmap Z rec) g r r' :
  (forall h r, recs !! h = Some r -> rec_ok rds h r) -> recs !! g = Some r -> rec_ok rds g r' ->
  forall h r'', <[g := r']> recs !! h = Some r'' -> rec_ok rds h r''.
Proof. intros H Hr Hr' h r'' Hh. apply lookup_insert_Some in Hh as [[<- <-]|[_ Hh]]; [done|by apply H]. Qed.

Lemma ids_insert (recs : gmap Z rec) g r r' : recs !! g = Some r -> g_rd r' = g_rd r ->
  forall h, g_rd <$> <[g := r']> recs !! h = g_rd <$> recs !! h.
Proof.
  intros Hr E h. destruct (decide (h = g)) as [->|Hne]; [|by rewrite lookup_insert_ne].
  rewrite lookup_insert_eq, Hr. cbn. by rewrite E.
Qed.

(** RECs of this state stay well formed when the words change. *)
Lemma rec_ok_rds rds rds' g r : (forall x, is_Some (rds !! x) -> is_Some (rds' !! x)) -> rec_ok rds g r -> rec_ok rds' g r.
Proof. intros H [H1 H2 H3 H4 H5]. split; auto. Qed.

Lemma insert_is_some {A} (m : gmap Z A) k v x : is_Some (m !! x) -> is_Some (<[k := v]> m !! x).
Proof. intros H. destruct (decide (x = k)) as [->|]; [by rewrite lookup_insert_eq|by rewrite lookup_insert_ne]. Qed.

(** A step that only changes RECs. *)
Lemma inv_recs w i p p' recs' :
  pinv w -> w_pes w !! i = Some p -> (forall g, holds g p' = holds g p) ->
  (forall x, counted (s_recs (w_st w)) x p' = counted (s_recs (w_st w)) x p) ->
  (forall h, g_rd <$> recs' !! h = g_rd <$> s_recs (w_st w) !! h) ->
  (forall h r', recs' !! h = Some r' -> rec_ok (s_rds (w_st w)) h r') ->
  (forall g, recs' !! g = s_recs (w_st w) !! g \/ holds g p = true \/ count (holds g) (w_pes w) = 0) ->
  pe_ok recs' p' -> pinv (PWorld (with_recs (w_st w) recs') (<[i := p']> (w_pes w))).
Proof.
  intros Hinv Hi Hh Hc Hid Hrecs Hch Hp'. eapply (pinv_step w i p); try done.
  - by left.
  - intros x d Hd. by eapply words_keep.
  - by eapply pe_ok_others.
Qed.

(** A step that only changes the reference of the REC [g], and words. *)
Lemma pinv_ref w i p p' g r c rds' :
  pinv w -> w_pes w !! i = Some p -> s_recs (w_st w) !! g = Some r ->
  c = count (holds g) (<[i := p']> (w_pes w)) -> 0 <= c <= 1 -> (forall h, h <> g -> holds h p' = holds h p) ->
  (forall x, is_Some (s_rds (w_st w) !! x) -> is_Some (rds' !! x)) ->
  (forall x d', rds' !! x = Some d' -> is_Some (s_rds (w_st w) !! x) /\
     exists st, 0 <= st < 4 /\ state_and_count d' = sc st (count (counted (s_recs (w_st w)) x) (<[i := p']> (w_pes w)))) ->
  pe_ok (s_recs (w_st w)) p' -> pinv (PWorld (with_rds (with_ref (w_st w) g c) rds') (<[i := p']> (w_pes w))).
Proof.
  intros Hinv Hi Hr -> Hc Hh Hsub Hrds Hp'. eapply (pinv_step w i p); try done.
  - right. exists g. split_and!; try done; lia.
  - intros h r' Hr'. eapply rec_ok_rds; [exact Hsub|by apply (pi_recs w)].
  - intros j q _ Hj. by apply (pi_pes w Hinv j).
Qed.

(** The word of one realm changes. *)
Lemma words_update w i p p' x0 d v :
  pinv w -> w_pes w !! i = Some p -> s_rds (w_st w) !! x0 = Some d ->
  (forall x, x <> x0 -> counted (s_recs (w_st w)) x p' = counted (s_recs (w_st w)) x p) ->
  (exists st, 0 <= st < 4 /\ v = sc st (count (counted (s_recs (w_st w)) x0) (<[i := p']> (w_pes w)))) ->
  forall x d', <[x0 := set_state_and_count d v]> (s_rds (w_st w)) !! x = Some d' -> is_Some (s_rds (w_st w) !! x) /\
    exists st, 0 <= st < 4 /\ state_and_count d' = sc st (count (counted (s_recs (w_st w)) x) (<[i := p']> (w_pes w))).
Proof.
  intros Hinv Hi Hd Hc Hv x d' Hx. apply lookup_insert_Some in Hx as [[<- <-]|[Hne Hx]].
  - split; [by exists d|]. exact Hv.
  - eapply words_keep; [done|exact Hi|by apply Hc|exact Hx].
Qed.

Lemma shape_plane_0 pl r : length (regs pl) = 31%nat -> rec_shape r = true -> rec_shape (set_plane_0 pl r) = true.
Proof. unfold rec_shape. intros Hl. cbn. rewrite Hl. by destruct (Nat.eqb (length (regs (plane_0 r))) REC_NR_GPRS). Qed.

Lemma returned_shape v r : rec_shape r = true -> rec_shape (returned v r) = true.
Proof. intros Hsh. apply shape_plane_0; [|done]. destruct (shape_inv r Hsh) as (Hl & _). cbn [regs length]. rewrite length_drop, Hl. done. Qed.

Lemma advanced_shape r : rec_shape r = true -> rec_shape (advanced r) = true.
Proof. intros Hsh. apply shape_plane_0; [|done]. by destruct (shape_inv r Hsh). Qed.

Lemma call_done_shape v r : rec_shape r = true -> rec_shape (call_done v r) = true.
Proof. intros Hsh. apply shape_plane_0; [|done]. destruct (shape_inv r Hsh) as (Hl & _). cbn [regs length]. rewrite length_drop, Hl. done. Qed.

Lemma powered_on_shape e c v r : rec_shape r = true -> rec_shape (powered_on e c v r) = true.
Proof.
  intros Hsh. pose proof (shape_inv r Hsh) as (Hl & _). unfold rec_shape in *. cbn.
  rewrite length_insert, length_drop, Hl. rewrite Hl in Hsh. exact Hsh.
Qed.

(** A call leaves a well-formed caller. *)
Lemma call_recs w i g r id exit continue s' :
  pinv w -> w_pes w !! i = Some (P_run g) -> s_recs (w_st w) !! g = Some r -> active_plane_id r = PLANE_0_ID ->
  psci_function_id (plane_0 r) = Some id -> called w g r id exit continue s' ->
  exists r', s_recs s' = <[g := r']> (s_recs (w_st w)) /\ g_rd r' = g_rd r /\ rec_ok (s_rds (w_st w)) g r' /\
    (continue = true -> runnable r' = true /\ pending_op r' = REC_PENDING_NONE) /\
    s_mem s' = s_mem (w_st w) /\ s_rec_maps s' = s_rec_maps (w_st w).
Proof.
  intros Hinv Hi Hr Ha Hid Hc. pose proof (pi_pes w Hinv i _ Hi) as (r0 & Hr0 & Hrun & Hpend).
  assert (r0 = r) as -> by congruence. destruct (pi_recs w Hinv g r Hr) as [Hself Hrd Hsh Hpo Hoff].
  destruct Hc as [v Hv|Hc|Hc|t x1 x2 addr Hon Ht Hx1 Hx2 Hv|d st n Hc Hd Hst Hw Hb]; eexists; (split; [done|]); (split; [done|]).
  - split; [|done]. split; try done; first [by apply returned_shape|by left].
  - split; [|done]. split; try done; first [by apply returned_shape|by left].
  - split; [|done]. split; try done; first [by apply returned_shape|by left].
  - split; [|done]. split; try done; [|cbn; congruence]. right. split; [done|]. split; [done|]. by exists id.
  - split; [|done]. split; try done; first [by apply advanced_shape|by left].
Qed.

Lemma call_done_ok w g r v : pinv w -> s_recs (w_st w) !! g = Some r -> rec_ok (s_rds (w_st w)) g (call_done v r).
Proof.
  intros Hinv Hr. destruct (pi_recs w Hinv g r Hr) as [Hself Hrd Hsh Hpo Hoff]. split; try done.
  - by apply call_done_shape.
  - by left.
  - intros Hrun. by destruct (Hoff Hrun).
Qed.

Lemma powered_on_ok w g r e c v : pinv w -> s_recs (w_st w) !! g = Some r -> runnable r = false ->
  rec_ok (s_rds (w_st w)) g (powered_on e c v r).
Proof.
  intros Hinv Hr Hrun. destruct (pi_recs w Hinv g r Hr) as [Hself Hrd Hsh Hpo Hoff]. destruct (Hoff Hrun) as [_ Hp]. split; try done.
  - by apply powered_on_shape.
  - by left.
Qed.

Lemma finish_inv w i calling target status st s' :
  pinv w -> w_pes w !! i = Some (P_complete calling target status) -> completed w calling target status st s' ->
  pinv (PWorld s' (<[i := P_idle st]> (w_pes w))).
Proof.
  intros Hinv Hi Hc.
  assert (Hone : forall gc rc v, request_of w calling gc rc ->
    pinv (PWorld (with_recs (w_st w) (<[gc := call_done v rc]> (s_recs (w_st w)))) (<[i := P_idle st]> (w_pes w)))).
  { intros gc rc v [_ Hr H0 _]. eapply (inv_recs w i (P_complete calling target status)); try done.
    - by eapply ids_insert.
    - eapply recs_insert; [by apply (pi_recs w)|exact Hr|by apply call_done_ok].
    - intros h. destruct (decide (h = gc)) as [->|Hne]; [by right; right|left; by rewrite lookup_insert_ne]. }
  destruct Hc as [st Hst Hwhy|gc rc Hrq _|gc rc gt rt st Hrq _ _ _ _ _|gc rc gt rt e c sctlr Hrq _ Ht Hne _ Hoff _ _ _ _].
  - eapply (inv_recs w i _ (P_idle st) (s_recs (w_st w))) in Hinv as Hgoal; try done.
    + by destruct (w_st w).
    + by apply (pi_recs w).
    + intros g. by left.
  - by eapply Hone.
  - by eapply Hone.
  - destruct Hrq as [_ Hr H0 Hp]. unfold is_on in Hoff. apply orb_false_iff in Hoff as [Ht0%negb_false_iff%Z.eqb_eq Hrun].
    pose proof (ids_insert _ gt rt (powered_on e c sctlr rt) Ht eq_refl) as Hid1.
    assert (Hr' : <[gt := powered_on e c sctlr rt]> (s_recs (w_st w)) !! gc = Some rc) by (by rewrite lookup_insert_ne).
    eapply (inv_recs w i _ (P_idle RMI_SUCCESS)); try done.
    + intros h. rewrite (ids_insert _ gc rc (call_done PSCI_RETURN_SUCCESS rc) Hr' eq_refl). apply Hid1.
    + eapply recs_insert; [|exact Hr'|by apply call_done_ok].
      eapply recs_insert; [by apply (pi_recs w)|exact Ht|by apply powered_on_ok].
    + intros h. destruct (decide (h = gc)) as [->|]; [by right; right|]. rewrite lookup_insert_ne by done.
      destruct (decide (h = gt)) as [->|]; [by right; right|left; by rewrite lookup_insert_ne].
Qed.

Lemma effect_inv w i q p p' s' :
  pinv w -> w_pes w !! i = Some p -> effect w q p p' s' -> pinv (PWorld s' (<[i := p']> (w_pes w))).
Proof.
  intros Hinv Hi He.
  destruct He as [p p' Hh Hc Hp'|x0 g r Hr H0 Hrun|g x0|g r d Hr Hp Hrun Hd|g r pl0 pln sys active Hr Hsh
    |g r id exit continue s' Hr Ha Hid Hc|g r d st n x0 Hr Hd Hst Hn|calling target status st s' _ Hc].
  - eapply (inv_recs w i p p' (s_recs (w_st w))) in Hinv as Hgoal; try done.
    + by destruct (w_st w).
    + by apply (pi_recs w).
    + intros g. by left.
  - eapply (pinv_ref w i _ (P_enter g) g r 1 (s_rds (w_st w))) in Hinv as Hgoal; try done.
    + rewrite (count_insert _ _ _ _ _ Hi), H0. cbn. rewrite Z.eqb_refl. done.
    + intros h Hne. cbn. by apply Z.eqb_neq.
    + intros x d Hd. by eapply words_keep.
    + by exists r.
  - pose proof (pi_pes w Hinv i _ Hi) as (r & Hr & _). pose proof (holds_le w g r Hinv Hr).
    pose proof (count_pos (holds g) _ _ _ Hi ltac:(cbn; apply Z.eqb_refl)).
    eapply (pinv_ref w i _ (P_idle x0) g r 0 (s_rds (w_st w))) in Hinv as Hgoal; try done.
    + rewrite (count_insert _ _ _ _ _ Hi). cbn. rewrite Z.eqb_refl. lia.
    + intros h Hne. cbn. symmetry. by apply Z.eqb_neq.
    + intros x d Hd. by eapply words_keep.
  - eapply (pinv_step w i _); try done.
    + by left.
    + intros h r' Hr'. eapply rec_ok_rds; [|by apply (pi_recs w)]. intros x. apply insert_is_some.
    + eapply words_update; try done.
      * intros x Hx. cbn. rewrite Hr. by apply Z.eqb_neq.
      * exists REALM_ACTIVE. split; [done|]. rewrite (count_insert _ _ _ _ _ Hi). cbn. rewrite Hr, Z.eqb_refl. f_equal. lia.
    + intros j q' _ Hj. by apply (pi_pes w Hinv j).
    + by exists r.
  - pose proof (pi_pes w Hinv i _ Hi) as (r0 & Hr0 & Hrun & Hpend). assert (r0 = r) as -> by congruence.
    destruct (pi_recs w Hinv g r Hr) as [Hself Hrd _ Hpo Hoff].
    eapply (inv_recs w i _ (P_run g)); try done.
    + by eapply ids_insert.
    + eapply recs_insert; [by apply (pi_recs w)|exact Hr|]. split; try done; [by left|]. cbn. congruence.
    + intros h. destruct (decide (h = g)) as [->|Hne]; [right; left; cbn; apply Z.eqb_refl|left; by rewrite lookup_insert_ne].
    + exists (set_planes pl0 pln sys active r). rewrite lookup_insert_eq. done.
  - destruct (call_recs w i g r id exit continue s' Hinv Hi Hr Ha Hid Hc) as (r' & Hrecs & Hg & Hok & Hcont & Hm & Hmaps).
    assert (Hheld : forall h, holds h (if continue then P_run g else P_leave g) = holds h (P_run g)) by (by destruct continue).
    assert (Hcnt : forall recs x, counted recs x (if continue then P_run g else P_leave g) = counted recs x (P_run g)) by (by destruct continue).
    assert (Hsub : forall x, is_Some (s_rds (w_st w) !! x) -> is_Some (s_rds s' !! x)).
    { destruct Hc; cbn; auto. intros x. apply insert_is_some. }
    eapply (pinv_step w i _); try done; rewrite ?Hrecs.
    + by eapply ids_insert.
    + left. done.
    + intros h r'' Hh. eapply rec_ok_rds; [exact Hsub|]. by eapply recs_insert; [by apply (pi_recs w)|exact Hr|exact Hok|].
    + destruct Hc as [| | | |d st n ? Hd Hst Hw Hb]; cbn; intros x d'; try (intros Hd'; by eapply words_keep).
      eapply words_update; try done. exists REALM_SYSTEM_OFF. split; [done|]. rewrite (counted_insert w i (P_run g)) by done.
      destruct (pi_rds w Hinv _ d Hd) as [_ (st' & Hst' & Hw') _]. f_equal. rewrite Hw in Hw'.
      pose proof (count_nonneg (counted (s_recs (w_st w)) (g_rd r)) (w_pes w)).
      pose proof (count_le_length (counted (s_recs (w_st w)) (g_rd r)) (w_pes w)). pose proof (pi_bound w Hinv). unfold sc in Hw'. lia.
    + eapply pe_ok_others; try done. intros h. destruct (decide (h = g)) as [->|Hne]; [right; left; cbn; apply Z.eqb_refl|].
      left. by rewrite lookup_insert_ne.
    + destruct continue; cbn; rewrite lookup_insert_eq; [|done]. exists r'. split; [done|]. by apply Hcont.
  - pose proof (holds_le w g r Hinv Hr). pose proof (count_pos (holds g) _ _ _ Hi ltac:(cbn; apply Z.eqb_refl)).
    eapply (pinv_ref w i _ (P_idle x0) g r 0 _); try done.
    + rewrite (count_insert _ _ _ _ _ Hi). cbn. rewrite Z.eqb_refl. lia.
    + intros h Hne. cbn. symmetry. by apply Z.eqb_neq.
    + intros x. apply insert_is_some.
    + eapply words_update; try done.
      * intros x Hx. cbn. rewrite Hr. symmetry. apply Z.eqb_neq. congruence.
      * exists st. split; [done|]. rewrite (count_insert _ _ _ _ _ Hi). cbn. rewrite Hr, Z.eqb_refl. f_equal. lia.
  - eapply (finish_inv w i calling target status); [done|exact Hi|exact Hc].
Qed.

Lemma pstep_effect w i q w' : pinv w -> pstep w i q w' ->
  exists p p' s', w_pes w !! i = Some p /\ w' = PWorld s' (<[i := p']> (w_pes w)) /\ effect w q p p' s'.
Proof.
  intros Hinv Hst. destruct Hst as [i p q c p' s' Hi Hq Hc]. exists p, p', s'. split; [done|]. split; [done|].
  destruct (step_ok w i p q c Hinv Hi Hq) as [(x & s2 & Hc' & He)|[Hf _]]; unfold fails in *; congruence.
Qed.

Lemma preachable_inv w0 w : pinv w0 -> preachable w0 w -> pinv w.
Proof.
  intros Hinv. induction 1 as [|w i q w' Hr IH Hst]; [done|].
  destruct (pstep_effect w i q w' IH Hst) as (p & p' & s' & Hi & -> & He). by eapply effect_inv.
Qed.

(** Which RECs a step changes. *)
Lemma effect_recs w i q p p' s' g :
  pinv w -> w_pes w !! i = Some p -> effect w q p p' s' ->
  s_recs s' !! g = s_recs (w_st w) !! g \/ holds g p = true \/ count (holds g) (w_pes w) = 0.
Proof.
  intros Hinv Hi He. assert (Hins : forall (recs : gmap Z rec) h r, <[h := r]> recs !! g = recs !! g \/ (h =? g) = true).
  { intros recs h r. destruct (Z.eqb_spec h g); [by right|left; by rewrite lookup_insert_ne]. }
  destruct He as [| | | |h r pl0 pln sys active Hr Hsh|h r id exit continue s' Hr Ha Hid Hc| |calling target status st s' _ Hc]; try (by left).
  - destruct (Hins (s_recs (w_st w)) h (set_planes pl0 pln sys active r)); [by left|by right; left].
  - destruct (call_recs w i h r id exit continue s' Hinv Hi Hr Ha Hid Hc) as (r' & -> & _).
    destruct (Hins (s_recs (w_st w)) h r'); [by left|by right; left].
  - destruct Hc as [st Hst Hwhy|gc rc [_ _ H0 _] _|gc rc gt rt st [_ _ H0 _] _ _ _ _ _|gc rc gt rt e c sctlr [_ _ H0 _] _ Ht Hne _ Hoff _ _ _ _].
    + by left.
    + destruct (Hins (s_recs (w_st w)) gc (call_done PSCI_RETURN_DENIED rc)) as [| ->%Z.eqb_eq]; [by left|by right; right].
    + destruct (Hins (s_recs (w_st w)) gc (call_done PSCI_RETURN_ALREADY_ON rc)) as [| ->%Z.eqb_eq]; [by left|by right; right].
    + unfold is_on in Hoff. apply orb_false_iff in Hoff as [Ht0%negb_false_iff%Z.eqb_eq _]. cbn [s_recs with_recs].
      destruct (decide (g = gc)) as [->|]; [by right; right|]. destruct (decide (g = gt)) as [->|]; [by right; right|].
      left. by rewrite !lookup_insert_ne by done.
Qed.

(** ** Theorems *)

(** C19: no step of REC entry and exit, of a PSCI call, or of the completion of a
    PSCI request fails an assertion or waits for ever, and every step keeps the
    invariant (reference counts are the PEs that hold a REC, the packed word counts
    the RECs inside, a REC that runs has no request pending, a pending request is a
    CPU_ON by plane 0), with one exception: the second half of
    [RMI_PSCI_COMPLETE] fails when another PE has meanwhile run the calling REC and
    left it in an auxiliary plane. *)
Theorem psci_steps_safe w i p q c :
  pinv w -> w_pes w !! i = Some p -> pe_step p q = Some c ->
  (exists p' s', c (w_st w) = Some (p', s') /\ pinv (PWorld s' (<[i := p']> (w_pes w)))) \/
  (c (w_st w) = None /\ exists calling target status gc rc,
     p = P_complete calling target status /\ stale_plane w calling gc rc /\ 1 < rec_num_planes rc).
Proof.
  intros Hinv Hi Hq.
  destruct (step_ok w i p q c Hinv Hi Hq) as [(p' & s' & Hc & He)|(Hf & calling & target & status & gc & rc & -> & Hst)].
  - left. exists p', s'. split; [done|]. by eapply effect_inv.
  - right. split; [done|]. exists calling, target, status, gc, rc. split; [done|]. split; [done|].
    destruct Hst as (_ & Hr & _ & Ha). destruct (pi_recs w Hinv gc rc Hr) as [_ _ Hsh _ _].
    destruct (shape_inv rc Hsh) as (_ & _ & Hact & _). unfold PLANE_0_ID in Ha. lia.
Qed.

(** C21: in every interleaving, a REC is held by one PE at a time, and while a PE
    holds it no other PE changes anything of it. *)
Theorem rec_execution_exclusive w0 w g i p :
  pinv w0 -> preachable w0 w -> w_pes w !! i = Some p -> holds g p = true ->
  (forall j q, w_pes w !! j = Some q -> holds g q = true -> j = i) /\
  (forall j q w', pstep w j q w' -> j <> i -> s_recs (w_st w') !! g = s_recs (w_st w) !! g).
Proof.
  intros Hinv0 Hr Hi Hg. pose proof (preachable_inv w0 w Hinv0 Hr) as Hinv. split.
  - intros j q Hj Hq. by eapply (holds_unique w g).
  - intros j q w' Hst Hne. destruct (pstep_effect w j q w' Hinv Hst) as (pj & p' & s' & Hj & -> & He).
    destruct (effect_recs w j q pj p' s' g Hinv Hj He) as [|[Hh|H0]]; [done| |].
    + exfalso. apply Hne. by eapply (holds_unique w g).
    + by rewrite (count_zero _ _ _ _ H0 Hi) in Hg.
Qed.

(** A step that turns a REC on is a completion. *)
Lemma effect_power_on w i q p p' s' g r r' :
  pinv w -> w_pes w !! i = Some p -> effect w q p p' s' ->
  s_recs (w_st w) !! g = Some r -> runnable r = false -> s_recs s' !! g = Some r' -> runnable r' = true ->
  exists calling target status st, p = P_complete calling target status /\ p' = P_idle st /\
    completed w calling target status st s'.
Proof.
  intros Hinv Hi He Hr Hoff Hr' Hon.
  destruct He as [| | | |h r0 pl0 pln sys active Hr0 Hsh|h r0 id exit continue s' Hr0 Ha Hid Hc| |calling target status st s' _ Hc];
    cbn in Hr'; try congruence.
  - apply lookup_insert_Some in Hr' as [[-> <-]|[_ Hr']]; [|congruence]. cbn in Hon. congruence.
  - pose proof (pi_pes w Hinv i _ Hi) as (r1 & Hr1 & Hrun & _). destruct (decide (h = g)) as [->|Hne]; [congruence|].
    destruct (call_recs w i h r0 id exit continue s' Hinv Hi Hr0 Ha Hid Hc) as (r2 & E & _). rewrite E, lookup_insert_ne in Hr' by done. congruence.
  - by exists calling, target, status, st.
Qed.

(** C20: a REC that is off is turned on only by the completion, accepted by the
    host, of a CPU_ON request of another REC of the same realm that named its
    MPIDR; at that moment no PE holds either REC.  The REC then starts in plane 0 at
    the entry point and with the context the request gave, with exceptions masked,
    MMU and caches off and the caller's endianness; the caller's request is closed
    with [PSCI_SUCCESS], and no other REC changes. *)
Theorem psci_power_on_authorised w i q w' g r r' :
  pinv w -> pstep w i q w' -> s_recs (w_st w) !! g = Some r -> runnable r = false ->
  s_recs (w_st w') !! g = Some r' -> runnable r' = true ->
  exists calling target gc rc entry context_id sctlr,
    w_pes w !! i = Some (P_complete calling target PSCI_RETURN_SUCCESS) /\
    request_of w calling gc rc /\ gc <> g /\ names_target rc r /\ count (holds g) (w_pes w) = 0 /\
    arr_get (regs (plane_0 rc)) 2 = Some entry /\ arr_get (regs (plane_0 rc)) 3 = Some context_id /\
    arr_get (sysregs rc) PLANE_0_ID = Some sctlr /\
    r' = powered_on entry context_id sctlr r /\ active_plane_id r' = PLANE_0_ID /\
    s_recs (w_st w') !! gc = Some (call_done PSCI_RETURN_SUCCESS rc) /\
    forall h, h <> g -> h <> gc -> s_recs (w_st w') !! h = s_recs (w_st w) !! h.
Proof.
  intros Hinv Hst Hr Hoff Hr' Hon. destruct (pstep_effect w i q w' Hinv Hst) as (p & p' & s' & Hi & -> & He).
  destruct (effect_power_on w i q p p' s' g r r' Hinv Hi He Hr Hoff Hr' Hon) as (calling & target & status & st & -> & -> & Hc).
  cbn [w_st] in *. destruct Hc as [st Hst' Hwhy|gc rc [_ Hgc _ _] _|gc rc gt rt st [_ Hgc _ _] _ _ _ _ _
    |gc rc gt rt entry context_id sctlr Hrq _ Ht Hne Hm Hison Hstat He2 He3 Hs]; cbn in Hr'.
  1: congruence.
  1,2: apply lookup_insert_Some in Hr' as [[-> <-]|[_ Hr']]; cbn in Hon; congruence.
  subst status. pose proof Hrq as [_ Hgc _ _]. apply lookup_insert_Some in Hr' as [[-> <-]|[Hne' Hr']]; [cbn in Hon; congruence|].
  apply lookup_insert_Some in Hr' as [[-> <-]|[_ Hr']]; [|congruence]. assert (rt = r) as -> by congruence.
  unfold is_on in Hison. apply orb_false_iff in Hison as [H0%negb_false_iff%Z.eqb_eq _].
  destruct (pi_recs w Hinv g r Hr) as [_ _ _ _ Hoff']. destruct (Hoff' Hoff) as [Hact _].
  exists calling, target, gc, rc, entry, context_id, sctlr. split_and!; try done.
  - apply lookup_insert_eq.
  - intros h H1 H2. cbn. by rewrite !lookup_insert_ne by done.
Qed.


(** No PSCI function identifier has the SVE hint set. *)
Lemma hint_not_psci x0 : Z.testbit x0 16 = true ->
  Forall (fun id => u32 x0 <> id) psci_supported.
Proof.
  intros Hb. assert (Hu : Z.testbit (u32 x0) 16 = true) by (unfold u32; rewrite Z.mod_pow2_bits_low by lia; done).
  repeat constructor; intros E; rewrite E in Hu; vm_compute in Hu; discriminate Hu.
Qed.

(** A PSCI call made with the SVE hint of the SMC calling convention set is
    dispatched to the PSCI service like any other ([handle_realm_rsi] ignores the
    hint), but [handle_psci] reads the identifier again with the hint, and answers
    [PSCI_NOT_SUPPORTED] whatever the call is. *)
Theorem psci_sve_hint_not_supported w i g r fid x0 :
  pinv w -> calling w i g r -> rsi_function_id (plane_0 r) = Some fid -> is_psci_fid fid = true ->
  arr_get (regs (plane_0 r)) 0 = Some x0 -> Z.testbit x0 16 = true ->
  handle_realm_rsi_psci g zero_exit (w_st w) =
    Some ((zero_exit, true), with_recs (w_st w) (<[g := returned PSCI_RETURN_NOT_SUPPORTED r]> (s_recs (w_st w)))).
Proof.
  intros Hinv Hcl Hfid Hps Hx0 Hb. assert (Hid : psci_function_id (plane_0 r) = Some (u32 x0)) by (unfold psci_function_id; by rewrite Hx0).
  destruct (psci_call_ok w i g r fid _ Hinv Hcl Hfid Hps Hid) as ([exit c] & s' & Hrun & Hc). rewrite Hrun. cbn [fst snd] in Hc.
  pose proof (hint_not_psci x0 Hb) as Hno. unfold psci_supported in Hno. rewrite !Forall_cons in Hno.
  assert (Hon : is_cpu_on (u32 x0) = false) by (unfold is_cpu_on; lia).
  destruct Hc as [v (t & x1 & x2 & _ & _ & _ & Hv)|Hc|Hc|? ? ? ? Hc|? ? ? Hc]; try (exfalso; (lia || congruence)).
  rewrite Hon in Hv. rewrite (proj2 (Z.eqb_neq (u32 x0) SMC32_PSCI_VERSION)) in Hv by lia.
  rewrite (proj2 (Z.eqb_neq (u32 x0) SMC32_PSCI_AFFINITY_INFO)), (proj2 (Z.eqb_neq (u32 x0) SMC64_PSCI_AFFINITY_INFO)) in Hv by lia.
  rewrite (proj2 (Z.eqb_neq (u32 x0) SMC32_PSCI_FEATURES)) in Hv by lia. cbn [orb] in Hv. by subst v.
Qed.

(** The two halves in a row, for a request that can be completed. *)
Lemma complete_whole_ok w calling gc rc status :
  pinv w -> request_of w calling gc rc -> rec_available w calling ->
  runs (smc_psci_complete calling status) (w_st w) (completed w calling (target_rec_addr rc) status).
Proof.
  intros Hinv [Hnc Hc H0 Hp] (g1 & m1 & Hl1). pose proof (pi_recs w Hinv gc rc Hc) as [_ _ _ Hpo _].
  assert (Ha : active_plane_id rc = PLANE_0_ID) by (destruct Hpo as [Hpo|(_ & Ha & _)]; [by rewrite Hpo in Hp|done]).
  unfold smc_psci_complete, psci_complete_begin. rewrite (granule_names_aligned _ _ Hnc). cbn [negb].
  apply runs_bind, runs_bind, runs_bind. eapply runs_p_mem; [exact Hl1|].
  destruct (find_lock_fine_spec calling) as [(st & Hst & Hrun)|(g & Hg & Hrun)].
  { rewrite Hrun in Hl1. congruence. }
  rewrite Hnc in Hg. injection Hg as <-. pose proof (rec_granule w gc rc Hinv Hc) as Hgr. rewrite (Hrun _ _ _ Hgr) in Hl1.
  cbn in Hl1. injection Hl1 as <- <-. fold (with_slock (w_st w) gc). cbn [fst snd].
  change (negb (RMI_SUCCESS =? RMI_SUCCESS)) with false. cbn iota. eapply runs_bind, runs_lift; [done|].
  eapply runs_bind, runs_p_get; [by eapply (refcount_rec w)|]. rewrite H0. cbn [Z.eqb negb].
  eapply runs_bind, runs_p_get; [exact Hc|]. rewrite Hp. change (negb (REC_PENDING_PSCI_COMPLETE =? REC_PENDING_PSCI_COMPLETE)) with false.
  cbn iota. apply runs_ret. eapply runs_bind, runs_p_get; [exact Hc|]. apply runs_bind. eapply (unlock_rec w); try done.
  apply runs_ret. rewrite with_smem_slock.
  destruct (complete_finish_ok w calling (target_rec_addr rc) status Hinv) as [|[_ (g & r & Hg & Hr & _ & Hbad)]]; [done|].
  rewrite Hnc in Hg. injection Hg as <-. congruence.
Qed.

(** C23: the host can complete a CPU_ON request: with the calling REC not running
    and the target still the REC the request named, [RMI_PSCI_COMPLETE] with
    [PSCI_SUCCESS] succeeds; it closes the request, and the target is on
    afterwards, whether it was before ([PSCI_ALREADY_ON] to the caller, and the
    target is left alone) or not ([PSCI_SUCCESS]). *)
Theorem psci_complete_progress w calling gc rc gt rt :
  pinv w -> request_of w calling gc rc -> tr_addr_to_granule (target_rec_addr rc) = Some gt ->
  s_recs (w_st w) !! gt = Some rt -> gc <> gt -> names_target rc rt ->
  rec_available w calling -> rec_available w (target_rec_addr rc) ->
  exists s', smc_psci_complete calling PSCI_RETURN_SUCCESS (w_st w) = Some (RMI_SUCCESS, s') /\
    (s_recs s' !! gc = Some (call_done (if is_on w gt rt then PSCI_RETURN_ALREADY_ON else PSCI_RETURN_SUCCESS) rc)) /\
    exists rt', s_recs s' !! gt = Some rt' /\ (is_on w gt rt = true -> rt' = rt) /\ (is_on w gt rt = false -> runnable rt' = true).
Proof.
  intros Hinv Hrq Hnt Ht Hne Hm (g1 & m1 & Hl1) (g2 & m2 & Hl2). pose proof Hrq as [Hnc Hc H0 Hp].
  destruct (complete_whole_ok w calling gc rc PSCI_RETURN_SUCCESS Hinv Hrq) as (st & s' & Hrun & Hcp); [by exists g1, m1|].
  destruct Hcp as [st Hst Hwhy|g r _ Hd|g r g' r' st [Hg Hr _ _] Hg' Hr' _ Hon ->
    |g r g' r' entry context_id sctlr [Hg Hr _ _] Hg' Hr' _ _ Hoff _ _ _ _].
  - exfalso. destruct Hwhy as [[E|[E|E]]|[E|[(g & r & g' & r' & Hr & Hr' & Hg & Hg' & E)|E]]].
    + rewrite E in Hnc. congruence.
    + apply E. by exists g1, m1.
    + apply E. by exists g2, m2.
    + by apply (E gc rc).
    + rewrite Hnc in Hg. rewrite Hnt in Hg'. injection Hg as <-. injection Hg' as <-. congruence.
    + by destruct E.
  - discriminate Hd.
  - rewrite Hnc in Hg. rewrite Hnt in Hg'. injection Hg as <-. injection Hg' as <-. assert (r = rc) as -> by congruence.
    assert (r' = rt) as -> by congruence. eexists. split; [exact Hrun|]. cbn. rewrite Hon, lookup_insert_eq, lookup_insert_ne by done.
    split; [done|]. by exists rt.
  - rewrite Hnc in Hg. rewrite Hnt in Hg'. injection Hg as <-. injection Hg' as <-. assert (r = rc) as -> by congruence.
    assert (r' = rt) as -> by congruence. eexists. split; [exact Hrun|]. cbn. rewrite Hoff, lookup_insert_eq, lookup_insert_ne by done.
    split; [done|]. eexists. split; [apply lookup_insert_eq|]. done.
Qed.

End Safe.
