(* ===== verification/PsciDemo.v ===== *)
(** * Two RECs, two PEs

    The RD of an active realm (99), a REC with two planes that can run (100, MPIDR
    0) and a REC that is off (101, MPIDR 1).  PE 0 runs the first REC, which asks for
    the second to be turned on; the host completes the request, and in one order of
    the steps an assertion of the RMM fails. *)

From Stdlib Require Import ZArith Lia Bool ZifyBool.
From stdpp Require Import base tactics option list numbers gmap.
From S2P Require Import Prelude.
From S2P Require Import Smc.
From S2P Require Import Utils.
From S2P Require Import Status.
From S2P Require Import Granule.
From S2P Require Import Mem.
From S2P Require Import SmallNames.
From S2P Require Import Sarray.
From S2P Require Import Realm.
From S2P Require Import Rmm.
From S2P Require Import Psci.
From S2P Require Import PsciProps.
From S2P Require Import PsciInv.
From S2P Require Import PsciRun.
From S2P Require Import PsciCall.
From S2P Require Import PsciSafe.

#[local] Existing Instance small_lookup.
#[local] Existing Instance small_pairs.

Definition duo_plane : rec_plane := RecPlane (replicate REC_NR_GPRS 0) 0 0.
Definition duo_rec (g mpidr : Z) (on : bool) : rec :=
  Rec g mpidr on REC_PENDING_NONE 0 duo_plane duo_plane 99 33 1 [0; 0; 0; 0] 0.

Definition duo_descs : list (Z * agranule) :=
  [ (99, AGranule false GRANULE_STATE_RD 2); (100, AGranule false GRANULE_STATE_REC 0);
    (101, AGranule false GRANULE_STATE_REC 0); (102, AGranule false GRANULE_STATE_DELEGATED 0) ].
Definition duo_mem : mem := Mem (list_to_map (prod_map id (encode GRN) <$> duo_descs)) ∅.
Definition duo_map : mpidr_rec_map :=
  MpidrRecMap (SarrayHdr 0x1000 16 4 2) [0; 100 * 4096; 1; 101 * 4096; 0; 0; 0; 0].
Definition duo_state : realms :=
  Realms duo_mem {[ 99 := Rd (sc REALM_ACTIVE 0) [] 1 false false ]} {[ 99 := duo_map ]}
    {[ 100 := duo_rec 100 0 true; 101 := duo_rec 101 1 false ]}.
Definition duo : pworld := PWorld duo_state [P_idle 0; P_idle 0].

Lemma duo_granule g a : (g, a) ∈ duo_descs -> granule_at duo_mem g a.
Proof.
  intros H. unfold duo_descs in H. rewrite !elem_of_cons, elem_of_nil in H.
  destruct H as [[= -> ->]|[[= -> ->]|[[= -> ->]|[[= -> ->]|[]]]]];
    (split; [reflexivity|]); (split; [|reflexivity]); repeat split; cbv; congruence.
Qed.

Lemma duo_granule_inv g a : granule_at duo_mem g a -> (g, a) ∈ duo_descs.
Proof.
  intros Ha. pose proof Ha as (Hd & _). cbn [descs duo_mem] in Hd. apply elem_of_list_to_map_2 in Hd.
  apply list_elem_of_fmap in Hd as ([g' a'] & E & Hin). cbn in E. injection E as -> _.
  by rewrite (granule_at_inj _ _ _ _ Ha (duo_granule g' a' Hin)).
Qed.

Lemma duo_map_ok : rec_map_ok duo_map.
Proof.
  split; [reflexivity|]. exists (list_to_map (entry_of <$> [[0; 100 * 4096]; [1; 101 * 4096]])). split.
  - exists [[0; 100 * 4096]; [1; 101 * 4096]]. split; [|done]. split.
    + split; cbn; try reflexivity; unfold UINT64_MAX; lia.
    + by exists [0; 0; 0; 0].
    + reflexivity.
    + repeat constructor.
    + repeat constructor; cbv; reflexivity.
  - intros k v Hk. apply elem_of_list_to_map_2 in Hk. cbn in Hk. rewrite !elem_of_cons, elem_of_nil in Hk.
    destruct Hk as [[= -> ->]|[[= -> ->]|[]]]; [exists (100 * 4096), 100|exists (101 * 4096), 101]; split; reflexivity.
Qed.

Lemma duo_recs_inv g r : s_recs duo_state !! g = Some r ->
  (g = 100 /\ r = duo_rec 100 0 true) \/ (g = 101 /\ r = duo_rec 101 1 false).
Proof.
  cbn [s_recs duo_state]. intros H. apply lookup_insert_Some in H as [[<- <-]|[_ H]]; [by left|].
  apply lookup_singleton_Some in H as [<- <-]. by right.
Qed.

Lemma duo_inv : pinv duo.
Proof.
  split.
  - intros addr g Hg. apply small_name_inv in Hg as [_ Hr].
    assert (g = 99 \/ g = 100 \/ g = 101 \/ g = 102) as [->|[->|[->| ->]]] by lia;
      eexists; (split; [apply duo_granule; unfold duo_descs; rewrite !elem_of_cons; by eauto 6|done]).
  - intros g r [[-> ->]|[-> ->]]%duo_recs_inv; apply duo_granule; unfold duo_descs; rewrite !elem_of_cons; by eauto 6.
  - intros g a Ha%duo_granule_inv Hs. unfold duo_descs in Ha. rewrite !elem_of_cons, elem_of_nil in Ha.
    destruct Ha as [[= -> ->]|[[= -> ->]|[[= -> ->]|[[= -> ->]|[]]]]]; try discriminate Hs; by eexists.
  - intros g r [[-> ->]|[-> ->]]%duo_recs_inv; (split; [done|by eexists|reflexivity|by left|done]).
  - intros x d Hd. cbn in Hd. apply lookup_singleton_Some in Hd as [<- <-]. split.
    + exists 2. apply duo_granule. unfold duo_descs. by rewrite !elem_of_cons; left.
    + exists REALM_ACTIVE. split; [done|reflexivity].
    + exists duo_map. split; [reflexivity|exact duo_map_ok].
  - intros i p Hi. destruct i as [|[|i]]; cbn in Hi; try discriminate Hi; by injection Hi as <-.
  - reflexivity.
Qed.

(** ** Running a schedule *)

(** Let PE [i] act on each request in turn. *)
Fixpoint run_schedule (steps : list (nat * request)) (w : pworld) : option pworld :=
  match steps with
  | [] => Some w
  | (i, q) :: rest =>
      p ← w_pes w !! i; c ← pe_step p q; r ← c (w_st w);
      run_schedule rest (PWorld (snd r) (<[i := fst r]> (w_pes w)))
  end.

Lemma run_schedule_reachable steps : forall w0 w w', preachable w0 w -> run_schedule steps w = Some w' -> preachable w0 w'.
Proof.
  induction steps as [|[i q] steps IH]; intros w0 w w' Hr Hrun; cbn in Hrun; [by injection Hrun as <-|].
  destruct (w_pes w !! i) as [p|] eqn:Hi; cbn in Hrun; [|discriminate Hrun].
  destruct (pe_step p q) as [c|] eqn:Hq; cbn in Hrun; [|discriminate Hrun].
  destruct (c (w_st w)) as [[p' s']|] eqn:Hc; cbn in Hrun; [|discriminate Hrun].
  eapply IH; [|exact Hrun]. eapply pr_step; [exact Hr|]. by eapply pstep_intro.
Qed.

Lemma run_one_pstep i q w w' : run_schedule [(i, q)] w = Some w' -> pstep w i q w'.
Proof.
  cbn. intros Hrun. destruct (w_pes w !! i) as [p|] eqn:Hi; cbn in Hrun; [|discriminate Hrun].
  destruct (pe_step p q) as [c|] eqn:Hq; cbn in Hrun; [|discriminate Hrun].
  destruct (c (w_st w)) as [[p' s']|] eqn:Hc; cbn in Hrun; [|discriminate Hrun]. injection Hrun as <-. by eapply pstep_intro.
Qed.

(** CPU_ON of MPIDR 1 at 0x1000 with context 7. *)
Definition cpu_on_regs : list Z := SMC64_PSCI_CPU_ON :: 1 :: 0x1000 :: 7 :: replicate 27 0.
Definition cpu_on_plane : rec_plane := RecPlane cpu_on_regs 0x800 0.

Definition pe0 : nat := 0.
Definition pe1 : nat := 1.

(** PE 0 runs the first REC until its CPU_ON call is back at the host. *)
Definition ask : list (nat * request) :=
  [(pe0, Q_rec_enter (100 * 4096) 0); (pe0, Q_admit true); (pe0, Q_realm cpu_on_plane duo_plane [0; 0; 0; 0] 0);
   (pe0, Q_psci); (pe0, Q_leave RMI_SUCCESS)].

(** Both PEs begin to complete the request, PE 1 does, runs the REC again, and
    leaves it in plane 1. *)
Definition race : list (nat * request) :=
  ask ++ [(pe0, Q_complete (100 * 4096) PSCI_RETURN_SUCCESS); (pe1, Q_complete (100 * 4096) PSCI_RETURN_SUCCESS); (pe1, Q_finish);
   (pe1, Q_rec_enter (100 * 4096) 0); (pe1, Q_admit true); (pe1, Q_realm duo_plane duo_plane [0; 0; 0; 0] 1); (pe1, Q_exit);
   (pe1, Q_leave RMI_SUCCESS)].

Definition asked : pworld := Eval vm_compute in default duo (run_schedule ask duo).
Definition raced : pworld := Eval vm_compute in default duo (run_schedule race duo).

Example asked_runs : run_schedule ask duo = Some asked.
Proof. vm_compute. reflexivity. Qed.

Lemma asked_reachable : preachable duo asked.
Proof. eapply run_schedule_reachable; [apply pr_init|exact asked_runs]. Qed.

Lemma asked_inv : pinv asked.
Proof. exact (preachable_inv duo asked duo_inv asked_reachable). Qed.

Lemma raced_reachable : preachable duo raced.
Proof. eapply (run_schedule_reachable race); [apply pr_init|]. vm_compute. reflexivity. Qed.

(** C24: an assertion of [RMI_PSCI_COMPLETE] can fail.  Between its two halves the
    command holds no lock on the calling REC; when the request is meanwhile
    completed by another PE and the REC runs again and exits from an auxiliary plane,
    the second half checks the reference count, which is zero, and then asserts that
    plane 0 is active before it looks at [pending_op] again. *)
Theorem psci_complete_race_asserts :
  exists w calling target, preachable duo w /\ w_pes w !! pe0 = Some (P_complete calling target PSCI_RETURN_SUCCESS) /\
    psci_complete_finish calling target PSCI_RETURN_SUCCESS (w_st w) = None.
Proof.
  exists raced, (100 * 4096), (101 * 4096). split; [exact raced_reachable|]. split; vm_compute; reflexivity.
Qed.

(** ** Witnesses *)

Lemma psci_steps_safe_witness :
  exists c p' s', pe_step (P_idle 0) (Q_rec_enter (100 * 4096) 0) = Some c /\ c (w_st duo) = Some (p', s') /\
    pinv (PWorld s' (<[0%nat := p']> (w_pes duo))).
Proof.
  eexists. destruct (psci_steps_safe duo 0 (P_idle 0) (Q_rec_enter (100 * 4096) 0) _ duo_inv eq_refl eq_refl)
    as [(p' & s' & Hc & Hinv)|(Hc & ? & ? & ? & ? & ? & E & _)]; [|discriminate E].
  exists p', s'. split; [reflexivity|]. split; [exact Hc|exact Hinv].
Defined.

(** PE 0 inside the first REC. *)
Definition inside : pworld := Eval vm_compute in default duo (run_schedule (take 2 ask) duo).
Lemma inside_reachable : preachable duo inside.
Proof. eapply (run_schedule_reachable (take 2 ask)); [apply pr_init|]. vm_compute. reflexivity. Qed.

Lemma rec_execution_exclusive_witness :
  w_pes inside !! 0%nat = Some (P_run 100) /\
  forall j q, w_pes inside !! j = Some q -> holds 100 q = true -> j = 0%nat.
Proof.
  split; [reflexivity|]. destruct (rec_execution_exclusive duo inside 100 0 (P_run 100) duo_inv inside_reachable eq_refl eq_refl) as [H _].
  exact H.
Defined.

(** The second half of the completion, on PE 0. *)
Definition half_done : pworld :=
  Eval vm_compute in default duo (run_schedule [(pe0, Q_complete (100 * 4096) PSCI_RETURN_SUCCESS)] asked).
Definition powered : pworld := Eval vm_compute in default duo (run_schedule [(pe0, Q_finish)] half_done).

Lemma half_done_inv : pinv half_done.
Proof.
  apply (preachable_inv asked half_done asked_inv).
  eapply (run_schedule_reachable [(pe0, Q_complete (100 * 4096) PSCI_RETURN_SUCCESS)]); [apply pr_init|]. vm_compute. reflexivity.
Qed.

Lemma psci_power_on_authorised_witness :
  exists r', s_recs (w_st powered) !! 101 = Some r' /\ runnable r' = true /\ plane_pc (plane_0 r') = 0x1000 /\
    exists calling target gc rc, w_pes half_done !! pe0 = Some (P_complete calling target PSCI_RETURN_SUCCESS) /\
      request_of half_done calling gc rc.
Proof.
  eexists. split; [vm_compute; reflexivity|]. split; [reflexivity|]. split; [reflexivity|].
  destruct (psci_power_on_authorised half_done pe0 Q_finish powered 101 (duo_rec 101 1 false) _ half_done_inv
    ltac:(apply run_one_pstep; vm_compute; reflexivity) ltac:(vm_compute; reflexivity) ltac:(reflexivity) ltac:(vm_compute; reflexivity) ltac:(reflexivity))
    as (calling & target & gc & rc & _ & _ & _ & H1 & H2 & _).
  exists calling, target, gc, rc. split; [exact H1|exact H2].
Defined.

Definition asked_rec : rec := Eval vm_compute in default (duo_rec 0 0 false) (s_recs (w_st asked) !! 100).

Lemma asked_request : request_of asked (100 * 4096) 100 asked_rec.
Proof. split; vm_compute; reflexivity. Qed.

Lemma asked_target : names_target asked_rec (duo_rec 101 1 false).
Proof. split; [reflexivity|]. exists 1. split; reflexivity. Qed.

Lemma psci_complete_progress_witness :
  exists s', smc_psci_complete (100 * 4096) PSCI_RETURN_SUCCESS (w_st asked) = Some (RMI_SUCCESS, s').
Proof.
  destruct (psci_complete_progress asked (100 * 4096) 100 asked_rec 101 (duo_rec 101 1 false) asked_inv asked_request)
    as (s' & H & _); [reflexivity|vm_compute; reflexivity|discriminate|exact asked_target| | |exists s'; exact H].
  - eexists _, _. vm_compute. reflexivity.
  - eexists _, _. vm_compute. reflexivity.
Defined.

(** The first REC about to call, without and with the SVE hint. *)
Definition about_to_call : pworld := Eval vm_compute in default duo (run_schedule (take 3 ask) duo).
Definition calling_rec : rec := Eval vm_compute in default (duo_rec 0 0 false) (s_recs (w_st about_to_call) !! 100).
Definition hint_plane : rec_plane := RecPlane (<[0%nat := Z.lor SMC32_PSCI_VERSION SMC_SVE_HINT]> cpu_on_regs) 0x800 0.
Definition hinted : pworld :=
  Eval vm_compute in default duo (run_schedule [(pe0, Q_realm hint_plane duo_plane [0; 0; 0; 0] 0)] about_to_call).
Definition hinted_rec : rec := Eval vm_compute in default (duo_rec 0 0 false) (s_recs (w_st hinted) !! 100).

Lemma about_inv : pinv about_to_call.
Proof.
  apply (preachable_inv duo about_to_call duo_inv). eapply (run_schedule_reachable (take 3 ask)); [apply pr_init|]. vm_compute. reflexivity.
Qed.
Lemma hinted_inv : pinv hinted.
Proof.
  apply (preachable_inv about_to_call hinted about_inv).
  eapply (run_schedule_reachable [(pe0, Q_realm hint_plane duo_plane [0; 0; 0; 0] 0)]); [apply pr_init|]. vm_compute. reflexivity.
Qed.


Lemma psci_sve_hint_not_supported_witness :
  handle_realm_rsi_psci 100 zero_exit (w_st hinted) =
    Some ((zero_exit, true), with_recs (w_st hinted) (<[100 := returned PSCI_RETURN_NOT_SUPPORTED hinted_rec]> (s_recs (w_st hinted)))).
Proof.
  apply (psci_sve_hint_not_supported hinted 0 100 hinted_rec SMC32_PSCI_VERSION (Z.lor SMC32_PSCI_VERSION SMC_SVE_HINT) hinted_inv);
    [split; vm_compute; reflexivity|vm_compute; reflexivity..].
Defined.
