(* ===== verification/RttCmds.v ===== *)
(** * RTT commands of the host ([runtime/rmi/rtt.c])

    RMI_RTT_CREATE, RMI_RTT_FOLD, RMI_RTT_DESTROY, their AUX variants and
    RMI_RTT_READ_ENTRY, from the lookup of the RD to the release of the last
    lock.  A [goto] to a label that releases what was acquired is a definition
    whose caller releases it. *)

From Stdlib Require Import ZArith Lia Bool ZifyBool.
From stdpp Require Import base tactics option list numbers gmap.
From S2P Require Import Prelude.
From S2P Require Import Utils.
From S2P Require Import Status.
From S2P Require Import Smc.
From S2P Require Import Granule.
From S2P Require Import Mem.
From S2P Require Import Arch.
From S2P Require Import S2tte.
From S2P Require Import S2tlbi.
From S2P Require Import S2ttTable.
From S2P Require Import S2ttWalk.
From S2P Require Import RttFold.
From S2P Require Import RttEntry.
From S2P Require Import Realm.
From S2P Require Import Rmm.

Definition S2TTE_DEF_PROT_OVERLAY_IDX : Z := 0.

Section Cmds.
Context `{feat : ArchFeatures} `{lookup : GranuleLookup} `{smmu : SmmuDriver}.
Implicit Types (rd : rd) (s2_ctx : s2tt_context) (wi : s2tt_walk) (aux : bool) (res : smc_result).

(** ** Validation of the arguments *)

Definition validate_map_addr (map_addr level : Z) rd : option bool :=
  size ← realm_ipa_size rd;
  if map_addr <? size then
    s2_ctx ← arr_get (s2_ctxs rd) PRIMARY_S2_CTX_ID;
    s2tte_is_addr_lvl_aligned s2_ctx map_addr level
  else Some false.

Definition validate_rtt_structure_cmds (map_addr level : Z) rd : option bool :=
  start ← realm_rtt_starting_level rd;
  let min_level := start + 1 in
  if (level <? min_level) || (S2TT_PAGE_LEVEL <? level) then Some false
  else validate_map_addr map_addr (level - 1) rd.

Definition validate_rtt_entry_cmds (map_addr level : Z) rd : option bool :=
  start ← realm_rtt_starting_level rd;
  if (level <? start) || (S2TT_PAGE_LEVEL <? level) then Some false
  else validate_map_addr map_addr level rd.

Definition default_protected_ap s2_ctx : option Z :=
  s2tte_update_prot_ap s2_ctx 0 S2TTE_DEF_BASE_PERM_IDX S2TTE_DEF_PROT_OVERLAY_IDX.

Definition validate_aux_rtt_args rd (s2tt_idx map_addr : Z) : option bool :=
  in_par ← addr_in_par rd map_addr;
  Some (negb (negb in_par || negb (rtt_tree_pp rd) || (s2tt_idx =? PRIMARY_S2_CTX_ID)
              || (realm_num_s2_contexts rd <=? s2tt_idx))).

(** The [if (aux)] of the structure commands: the context the command works on,
    or [None] when the arguments of an AUX command are refused. *)
Definition structure_cmd_ctx rd aux (s2tt_index map_addr : Z) : option (option s2tt_context) :=
  if aux then
    ok ← validate_aux_rtt_args rd s2tt_index map_addr;
    if ok : bool then s2_ctx ← arr_get (s2_ctxs rd) s2tt_index; Some (Some s2_ctx) else Some None
  else s2_ctx ← arr_get (s2_ctxs rd) PRIMARY_S2_CTX_ID; Some (Some s2_ctx).

Definition find_lock_rtt_backing_granule (g_rd : Z) wi (backing_addr : Z) : H (Z * option Z) :=
  state <-! h_desc g_rd (get_state GRN) ;;
  _ <-! guard (state =? GRANULE_STATE_RD) ;;
  state <-! h_desc (g_llt wi) (get_state GRN) ;;
  _ <-! guard (state =? GRANULE_STATE_RTT) ;;
  rd_addr <-! lift (tr_granule_addr g_rd) ;;
  llt_addr <-! lift (tr_granule_addr (g_llt wi)) ;;
  if (backing_addr =? rd_addr) || (backing_addr =? llt_addr) then ret (RMI_ERROR_INPUT, None)
  else on_mem (find_lock_fine_granule backing_addr GRANULE_STATE_DELEGATED).

(** ** Invalidation *)

(** The loop over the planes of [rtt_tlbi_vmids]. *)
Fixpoint plane_vmids rd (n : nat) (i : Z) : option (list Z) :=
  match n with
  | O => Some []
  | S n' =>
      s2_ctx ← plane_to_s2_context rd i;
      rest ← plane_vmids rd n' (i + 1);
      Some (vmid s2_ctx :: rest)
  end.

Definition rtt_tlbi_vmids rd s2_ctx (ns : bool) : option (list Z) :=
  if ns || indirect_s2ap s2_ctx then
    let nvmids := realm_num_planes rd in
    assert (negb (indirect_s2ap s2_ctx) || negb (rtt_tree_pp rd)) ;;
    assert (nvmids <=? MAX_TOTAL_PLANES) ;;
    plane_vmids rd (Z.to_nat nvmids) 0
  else Some [vmid s2_ctx].

(** [smmuv3_inv_at_level_per_vmids] when the realm has devices; a failure is a
    panic. *)
Definition smmu_invalidate rd (vmids : list Z) (addr level num : Z) (leaf : bool) : H unit :=
  if da_enabled rd then
    _ <-! emit (E_smmu vmids addr level num leaf) ;;
    guard (smmuv3_inv_at_level_per_vmids vmids addr level num leaf =? 0)
  else ret tt.

Definition invalidate_page_block s2_ctx rd (map_addr level : Z) (leaf : bool) : H unit :=
  in_par <-! lift (addr_in_par rd map_addr) ;;
  vmids <-! lift (rtt_tlbi_vmids rd s2_ctx (negb in_par)) ;;
  lpa2 <-! lift (s2tt_lpa2_enabled s2_ctx) ;;
  ops <-! get (fun w => s2tt_invalidate_page_block_per_vmids (r_vttbr w) lpa2 vmids map_addr level) ;;
  _ <-! emit (E_tlbi ops) ;;
  smmu_invalidate rd vmids map_addr (if leaf then level else S2TT_PAGE_LEVEL) 1 leaf.

Definition invalidate_pages_in_block s2_ctx rd (map_addr level : Z) : H unit :=
  in_par <-! lift (addr_in_par rd map_addr) ;;
  vmids <-! lift (rtt_tlbi_vmids rd s2_ctx (negb in_par)) ;;
  lpa2 <-! lift (s2tt_lpa2_enabled s2_ctx) ;;
  ops <-! get (fun w => s2tt_invalidate_pages_in_block_per_vmids (r_vttbr w) lpa2 vmids map_addr level) ;;
  _ <-! emit (E_tlbi ops) ;;
  smmu_invalidate rd vmids map_addr level S2TTES_PER_S2TT false.

(** ** RMI_RTT_CREATE *)

(** From the maps of the two tables to [out_unmap_table].  The child is filled
    before any entry refers to it. *)
Definition rtt_create_entry rd s2_ctx wi (g_tbl rtt_addr map_addr level : Z) aux : H Z :=
  parent_s2tt <-! map_table (g_llt wi) ;;
  parent_s2tte <-! lift (s2tte_read parent_s2tt (index wi)) ;;
  s2tt <-! map_table g_tbl ;;
  r <-! lift (rtt_create_unfold s2_ctx aux parent_s2tte s2tt level) ;;
  match r with
  | Unfold_ret status => ret status
  | Unfold_ok table child_refs parent_get bbm =>
      _ <-! (if bbm then
               _ <-! s2tte_write (g_llt wi) (index wi) 0 ;;
               invalidate_page_block s2_ctx rd map_addr (level - 1) true
             else ret tt) ;;
      _ <-! fill_table g_tbl table ;;
      _ <-! (if negb (child_refs =? 0) then h_on_desc g_tbl (fun d => granule_refcount_inc d child_refs)
             else ret tt) ;;
      _ <-! (if parent_get then h_on_desc (g_llt wi) atomic_granule_get else ret tt) ;;
      parent_s2tte <-! lift (s2tte_create_table s2_ctx rtt_addr (level - 1)) ;;
      _ <-! s2tte_write (g_llt wi) (index wi) parent_s2tte ;;
      ret RMI_SUCCESS
  end.

(** From the lock of the root to the unlock of the new table. *)
Definition rtt_create_walk rd (g_rd : Z) s2_ctx (rtt_addr map_addr level : Z) aux : H Z :=
  _ <-! h_granule_lock (g_rtt s2_ctx) GRANULE_STATE_RTT ;;
  wi <-! on_mem (s2tt_walk_lock_unlock s2_ctx map_addr (level - 1)) ;;
  if last_level wi <? level - 1 then
    status <-! lift (pack_return_code_level (rtt_err_code aux) (u8 (last_level wi))) ;;
    _ <-! h_granule_unlock (g_llt wi) ;;
    ret status
  else
    found <-! find_lock_rtt_backing_granule g_rd wi rtt_addr ;;
    if negb (fst found =? RMI_SUCCESS) then
      _ <-! h_granule_unlock (g_llt wi) ;;
      ret (fst found)
    else
      g_tbl <-! lift (snd found) ;;
      status <-! rtt_create_entry rd s2_ctx wi g_tbl rtt_addr map_addr level aux ;;
      _ <-! h_granule_unlock (g_llt wi) ;;
      _ <-! (if status =? RMI_SUCCESS
             then h_on_desc g_tbl (fun d => granule_unlock_transition d GRANULE_STATE_RTT)
             else h_granule_unlock g_tbl) ;;
      ret status.

(** From the map of the RD to [out_unmap_rd]. *)
Definition rtt_create_rd rd (g_rd rtt_addr map_addr level s2tt_index : Z) aux : H Z :=
  ok <-! lift (validate_rtt_structure_cmds map_addr level rd) ;;
  if negb ok then ret RMI_ERROR_INPUT else
  sel <-! lift (structure_cmd_ctx rd aux s2tt_index map_addr) ;;
  match sel with
  | None => ret RMI_ERROR_INPUT
  | Some s2_ctx =>
      if s2oa_limit s2_ctx <=? rtt_addr then ret RMI_ERROR_INPUT
      else rtt_create_walk rd g_rd s2_ctx rtt_addr map_addr level aux
  end.

Definition rtt_create (rd_addr rtt_addr map_addr ulevel s2tt_index : Z) aux : H Z :=
  let level := to_long ulevel in
  found <-! on_mem (find_lock_fine_granule rd_addr GRANULE_STATE_RD) ;;
  if negb (fst found =? RMI_SUCCESS) then ret (fst found) else
  g_rd <-! lift (snd found) ;;
  rd <-! map_rd g_rd ;;
  status <-! rtt_create_rd rd g_rd rtt_addr map_addr level s2tt_index aux ;;
  _ <-! h_granule_unlock g_rd ;;
  ret status.

Definition smc_rtt_create (rd_addr rtt_addr map_addr ulevel : Z) res : H smc_result :=
  status <-! rtt_create rd_addr rtt_addr map_addr ulevel 0 false ;;
  ret (set_x0 status res).

Definition smc_rtt_aux_create (rd_addr rtt_addr map_addr ulevel index : Z) res : H smc_result :=
  status <-! rtt_create rd_addr rtt_addr map_addr ulevel index true ;;
  ret (set_x0 status res).

(** ** Auxiliary references *)

(** The loop of [ipa_is_aux_ref] over the auxiliary trees, [n] left from [i]. *)
Fixpoint aux_ref_loop rd (ipa : Z) (n : nat) (i : Z) : H bool :=
  match n with
  | O => ret false
  | S n' =>
      aux_ctx <-! lift (arr_get (s2_ctxs rd) (i + 1)) ;;
      _ <-! h_granule_lock (g_rtt aux_ctx) GRANULE_STATE_RTT ;;
      aux_walk <-! on_mem (s2tt_walk_lock_unlock aux_ctx ipa (s2_starting_level aux_ctx)) ;;
      aux_s2tt <-! map_table (g_llt aux_walk) ;;
      aux_s2tte <-! lift (s2tte_read aux_s2tt (index aux_walk)) ;;
      _ <-! h_granule_unlock (g_llt aux_walk) ;;
      if negb (s2tte_is_unassigned_ns aux_ctx aux_s2tte) then ret true
      else aux_ref_loop rd ipa n' (i + 1)
  end.

Definition ipa_is_aux_ref rd (ipa : Z) : H bool := aux_ref_loop rd ipa (Z.to_nat (num_aux_planes rd)) 0.

(** The condition under which the commands look for auxiliary references. *)
Definition aux_ref_check rd s2_ctx (map_addr level : Z) aux (in_par : bool) : H bool :=
  if negb aux && negb in_par && rtt_tree_pp rd && (s2_starting_level s2_ctx <? level)
  then ipa_is_aux_ref rd map_addr else ret false.

(** ** RMI_RTT_FOLD *)

Definition valid_leaves s2_ctx (parent_s2tte level : Z) : option bool :=
  b ← s2tte_is_assigned_ram s2_ctx parent_s2tte level;
  if b : bool then Some true
  else
  b ← s2tte_is_assigned_ns s2_ctx parent_s2tte level;
  if b : bool then Some true else s2tte_is_assigned_dev_dev s2_ctx parent_s2tte level.

(** From the lock of the child to its unlock. *)
Definition rtt_fold_child rd s2_ctx wi (parent_s2tte map_addr level : Z) aux res : H (Z * smc_result) :=
  rtt_addr <-! lift (s2tte_pa s2_ctx parent_s2tte (level - 1)) ;;
  g_tbl <-! lift (tr_addr_to_granule rtt_addr) ;;
  _ <-! h_granule_lock g_tbl GRANULE_STATE_RTT ;;
  table <-! map_table g_tbl ;;
  refcount <-! h_desc g_tbl (fun d => Some (refcount_read GRN d)) ;;
  r <-! lift (rtt_fold_table s2_ctx aux table refcount level (last_level wi)) ;;
  match r with
  | Fold_ret status =>
      _ <-! h_granule_unlock g_tbl ;;
      ret (status, res)
  | Fold_ok parent_s2tte child_refs parent_put =>
      _ <-! (if parent_put then h_on_desc (g_llt wi) atomic_granule_put
             else h_on_desc g_tbl (fun d => granule_refcount_dec d child_refs)) ;;
      leaves <-! lift (valid_leaves s2_ctx parent_s2tte (level - 1)) ;;
      _ <-! s2tte_write (g_llt wi) (index wi) 0 ;;
      _ <-! (if leaves : bool then invalidate_pages_in_block s2_ctx rd map_addr level
             else invalidate_page_block s2_ctx rd map_addr level false) ;;
      _ <-! s2tte_write (g_llt wi) (index wi) parent_s2tte ;;
      _ <-! h_on_desc g_tbl granule_unlock_transition_to_delegated ;;
      ret (RMI_SUCCESS, set_x1 rtt_addr res)
  end.

(** Up to [out_unlock_parent_table]. *)
Definition rtt_fold_parent rd s2_ctx wi (map_addr level : Z) aux (in_par : bool) res : H (Z * smc_result) :=
  if last_level wi <? level - 1 then
    status <-! lift (pack_return_code_level (rtt_err_code aux) (u8 (last_level wi))) ;;
    ret (status, res)
  else
    parent_s2tt <-! map_table (g_llt wi) ;;
    parent_s2tte <-! lift (s2tte_read parent_s2tt (index wi)) ;;
    if negb (s2tte_is_table s2_ctx parent_s2tte (level - 1)) then
      status <-! lift (pack_return_code_level (rtt_err_code aux) (u8 (level - 1))) ;;
      ret (status, res)
    else
      refd <-! aux_ref_check rd s2_ctx map_addr level aux in_par ;;
      if refd : bool then
        status <-! lift (pack_return_code_level RMI_ERROR_RTT (u8 (last_level wi))) ;;
        ret (status, res)
      else rtt_fold_child rd s2_ctx wi parent_s2tte map_addr level aux res.

Definition rtt_fold (rd_addr map_addr ulevel s2tt_index : Z) aux res : H smc_result :=
  let level := to_long ulevel in
  found <-! on_mem (find_lock_fine_granule rd_addr GRANULE_STATE_RD) ;;
  if negb (fst found =? RMI_SUCCESS) then ret (set_x0 (fst found) res) else
  g_rd <-! lift (snd found) ;;
  rd <-! map_rd g_rd ;;
  in_par <-! lift (addr_in_par rd map_addr) ;;
  ok <-! lift (validate_rtt_structure_cmds map_addr level rd) ;;
  if negb ok then
    _ <-! h_granule_unlock g_rd ;;
    ret (set_x0 RMI_ERROR_INPUT res)
  else
  sel <-! lift (structure_cmd_ctx rd aux s2tt_index map_addr) ;;
  match sel with
  | None =>
      _ <-! h_granule_unlock g_rd ;;
      ret (set_x2 0 (set_x0 RMI_ERROR_INPUT res))
  | Some s2_ctx =>
      _ <-! h_granule_lock (g_rtt s2_ctx) GRANULE_STATE_RTT ;;
      wi <-! on_mem (s2tt_walk_lock_unlock s2_ctx map_addr (level - 1)) ;;
      out <-! rtt_fold_parent rd s2_ctx wi map_addr level aux in_par res ;;
      _ <-! h_granule_unlock g_rd ;;
      _ <-! h_granule_unlock (g_llt wi) ;;
      ret (set_x0 (fst out) (snd out))
  end.

Definition smc_rtt_fold (rd_addr map_addr ulevel : Z) res : H smc_result :=
  rtt_fold rd_addr map_addr ulevel 0 false res.
Definition smc_rtt_aux_fold (rd_addr map_addr ulevel index : Z) res : H smc_result :=
  rtt_fold rd_addr map_addr ulevel index true res.

(** ** RMI_RTT_DESTROY *)

(** The new parent entry. *)
Definition destroyed_parent s2_ctx (in_par : bool) : option Z :=
  if in_par then ap ← default_protected_ap s2_ctx; Some (s2tte_create_unassigned_destroyed s2_ctx ap)
  else Some (s2tte_create_unassigned_ns s2_ctx 0).

(** From the break of the parent entry to the unlock of the child. *)
Definition rtt_destroy_child rd s2_ctx wi (g_tbl map_addr level : Z) (in_par : bool) : H unit :=
  parent_s2tte <-! lift (destroyed_parent s2_ctx in_par) ;;
  _ <-! h_on_desc (g_llt wi) atomic_granule_put ;;
  _ <-! s2tte_write (g_llt wi) (index wi) 0 ;;
  _ <-! (if negb in_par then invalidate_pages_in_block s2_ctx rd map_addr level
         else invalidate_page_block s2_ctx rd map_addr level false) ;;
  _ <-! s2tte_write (g_llt wi) (index wi) parent_s2tte ;;
  _ <-! h_on_desc g_tbl granule_unlock_transition_to_delegated ;;
  ret tt.

(** Up to [out_unmap_parent_table]: the status, the registers and
    [skip_non_live]. *)
Definition rtt_destroy_parent rd s2_ctx wi (map_addr level : Z) aux (in_par : bool) res
    : H (Z * smc_result * bool) :=
  parent_s2tt <-! map_table (g_llt wi) ;;
  parent_s2tte <-! lift (s2tte_read parent_s2tt (index wi)) ;;
  if (last_level wi <? level - 1) || negb (s2tte_is_table s2_ctx parent_s2tte (level - 1)) then
    status <-! lift (pack_return_code_level (rtt_err_code aux) (u8 (last_level wi))) ;;
    ret (status, res, true)
  else
    rtt_addr <-! lift (s2tte_pa s2_ctx parent_s2tte (level - 1)) ;;
    g_tbl <-! lift (tr_addr_to_granule rtt_addr) ;;
    _ <-! h_granule_lock g_tbl GRANULE_STATE_RTT ;;
    refcount <-! h_desc g_tbl (fun d => Some (refcount_read GRN d)) ;;
    if negb (refcount =? 0) then
      status <-! lift (pack_return_code_level (rtt_err_code aux) (u8 level)) ;;
      _ <-! h_granule_unlock g_tbl ;;
      ret (status, res, false)
    else
      refd <-! aux_ref_check rd s2_ctx map_addr level aux in_par ;;
      if refd : bool then
        status <-! lift (pack_return_code_level RMI_ERROR_RTT (u8 (last_level wi))) ;;
        _ <-! h_granule_unlock g_tbl ;;
        ret (status, res, false)
      else
        _ <-! rtt_destroy_child rd s2_ctx wi g_tbl map_addr level in_par ;;
        ret (RMI_SUCCESS, set_x1 rtt_addr res, true).

Definition rtt_destroy (rd_addr map_addr ulevel s2tt_index : Z) aux res : H smc_result :=
  let level := to_long ulevel in
  found <-! on_mem (find_lock_fine_granule rd_addr GRANULE_STATE_RD) ;;
  if negb (fst found =? RMI_SUCCESS) then ret (set_x2 0 (set_x0 (fst found) res)) else
  g_rd <-! lift (snd found) ;;
  rd <-! map_rd g_rd ;;
  in_par <-! lift (addr_in_par rd map_addr) ;;
  ok <-! lift (validate_rtt_structure_cmds map_addr level rd) ;;
  if negb ok then
    _ <-! h_granule_unlock g_rd ;;
    ret (set_x2 0 (set_x0 RMI_ERROR_INPUT res))
  else
  sel <-! lift (structure_cmd_ctx rd aux s2tt_index map_addr) ;;
  match sel with
  | None =>
      _ <-! h_granule_unlock g_rd ;;
      ret (set_x2 0 (set_x0 RMI_ERROR_INPUT res))
  | Some s2_ctx =>
      _ <-! h_granule_lock (g_rtt s2_ctx) GRANULE_STATE_RTT ;;
      wi <-! on_mem (s2tt_walk_lock_unlock s2_ctx map_addr (level - 1)) ;;
      out <-! rtt_destroy_parent rd s2_ctx wi map_addr level aux in_par res ;;
      let '(status, res, skip_non_live) := out in
      top <-! (if skip_non_live : bool then
                 parent_s2tt <-! map_table (g_llt wi) ;;
                 lift (s2tt_skip_non_live_entries s2_ctx
                         (round_down map_addr (s2tte_map_size (last_level wi))) parent_s2tt wi)
               else ret map_addr) ;;
      _ <-! h_granule_unlock (g_llt wi) ;;
      _ <-! h_granule_unlock g_rd ;;
      ret (set_x0 status (set_x2 top res))
  end.

Definition smc_rtt_destroy (rd_addr map_addr ulevel : Z) res : H smc_result :=
  rtt_destroy rd_addr map_addr ulevel 0 false res.
Definition smc_rtt_aux_destroy (rd_addr map_addr ulevel index : Z) res : H smc_result :=
  rtt_destroy rd_addr map_addr ulevel index true res.

(** ** RMI_RTT_READ_ENTRY *)

Definition smc_rtt_read_entry (rd_addr map_addr ulevel : Z) res : H smc_result :=
  let level := to_long ulevel in
  found <-! on_mem (find_lock_fine_granule rd_addr GRANULE_STATE_RD) ;;
  if negb (fst found =? RMI_SUCCESS) then ret (set_x0 (fst found) res) else
  g_rd <-! lift (snd found) ;;
  rd <-! map_rd g_rd ;;
  ok <-! lift (validate_rtt_entry_cmds map_addr level rd) ;;
  if negb ok then
    _ <-! h_granule_unlock g_rd ;;
    ret (set_x0 RMI_ERROR_INPUT res)
  else
  s2_ctx <-! lift (arr_get (s2_ctxs rd) PRIMARY_S2_CTX_ID) ;;
  _ <-! h_granule_lock (g_rtt s2_ctx) GRANULE_STATE_RTT ;;
  _ <-! h_granule_unlock g_rd ;;
  wi <-! on_mem (s2tt_walk_lock_unlock s2_ctx map_addr level) ;;
  s2tt <-! map_table (g_llt wi) ;;
  s2tte <-! lift (s2tte_read s2tt (index wi)) ;;
  out <-! lift (rtt_read_entry s2_ctx s2tte (last_level wi)) ;;
  let '(v2, v3, v4) := out in
  _ <-! h_granule_unlock (g_llt wi) ;;
  ret (SmcResult RMI_SUCCESS (u64 (last_level wi)) v2 v3 v4).

End Cmds.
