(* ===== verification/RttUnmap.v ===== *)
(** * Unmapping ([runtime/rmi/rtt_unmap.c])

    RMI_RTT_DATA_UNMAP, RMI_RTT_UNPROT_UNMAP and RMI_RTT_DEV_UNMAP.  A call sweeps
    one leaf table: live entries become unassigned ones that carry the handle of
    the operation, and the addresses they mapped are collected.  Deferred work
    follows: the TLBs are invalidated entry by entry, then the memory is returned
    to DELEGATED granule by granule, then the marks are cleared.  Deferred work
    yields when an interrupt is pending, and RMI_OP_CONTINUE resumes it.

    Interrupts and the completion of SMMU commands are inputs: the answer of the
    n-th sample.  The unmap context and the address list of an operation belong to
    its SRO context, which only the PE that holds it accesses; they are threaded
    through the code and stored when it returns. *)

From Stdlib Require Import ZArith Lia Bool ZifyBool.
From stdpp Require Import base tactics option list numbers gmap.
From S2P Require Import Prelude.
From S2P Require Import Utils.
From S2P Require Import Status.
From S2P Require Import Smc.
From S2P Require Import Granule.
From S2P Require Import Mem.
From S2P Require Import Arch.
From S2P Require Import AddrList.
From S2P Require Import Sro.
From S2P Require Import S2tte.
From S2P Require Import S2tlbi.
From S2P Require Import S2ttTable.
From S2P Require Import S2ttWalk.
From S2P Require Import RttFold.
From S2P Require Import Realm.
From S2P Require Import Rmm.
From S2P Require Import RttCmds.

Definition RMI_ADDR_TYPE_NONE : Z := 0.
Definition RMI_ADDR_TYPE_SINGLE : Z := 1.
Definition RMI_ADDR_TYPE_LIST : Z := 2.
Definition F_RMI_RTT_UNMAP_FLAGS_OADDR_TYPE : regfield := Field 0 2.
Definition F_RMI_RTT_UNMAP_FLAGS_LIST_COUNT : regfield := Field 2 14.
Definition RMI_OP_CANNOT_CANCEL : Z := 0.
(** [~0UL]: no address. *)
Definition NO_ADDR : Z := not64 0.

(** [enum rtt_unmap_flavor], [enum data_unmap_step], [enum rtt_unmap_run_result]. *)
Inductive rtt_unmap_flavor := RTT_UNMAP_FLAVOR_DATA | RTT_UNMAP_FLAVOR_UNPROT | RTT_UNMAP_FLAVOR_DEV.
Inductive data_unmap_step := DATA_UNMAP_STEP_DONE | DATA_UNMAP_STEP_ERROR.
Inductive rtt_unmap_run_result := RTT_UNMAP_RUN_DONE | RTT_UNMAP_RUN_YIELD.
#[export] Instance flavor_eq_dec : EqDecision rtt_unmap_flavor.
Proof. solve_decision. Defined.
Definition flavor_is (f f' : rtt_unmap_flavor) : bool := bool_decide (f = f').

Definition rtt_unmap_flavor_from_fid (fid : Z) : option rtt_unmap_flavor :=
  if fid =? SMC_RMI_RTT_DATA_UNMAP then Some RTT_UNMAP_FLAVOR_DATA
  else if fid =? SMC_RMI_RTT_UNPROT_UNMAP then Some RTT_UNMAP_FLAVOR_UNPROT
  else if fid =? SMC_RMI_RTT_DEV_UNMAP then Some RTT_UNMAP_FLAVOR_DEV
  else None.

(** [struct sro_unmap_ctx]; [vmid_list] holds [nvmids] elements, a null pointer is
    [None].  The words the SMMU writes on completion are inputs. *)
Record sro_unmap_ctx := UnmapCtx {
  backing_addr : Z;
  u_g_llt : option Z;
  g_coarse : option Z;
  g_coarse_dev : option Z;
  tlbi_done : bool;
  oaddr : Z;
  cur_base : Z;
  oaddr_type : Z;
  pending_desc_idx : Z;
  pending_blk_idx : Z;
  pending_pa : Z;
  sro_handle : Z;
  u_mecid : Z;
  enable_lpa2 : bool;
  vmid_list : list Z;
  u_da_enabled : bool;
  leaf_base_ipa : Z;
  leaf_level : Z;
  smmu_tlbi_idx : Z;
  smmu_tlbi_pending : bool
}.

Definition zero_unmap_ctx : sro_unmap_ctx :=
  UnmapCtx 0 None None None false 0 0 0 0 0 0 0 0 false [] false 0 0 0 false.
#[export] Instance unmap_payload : SroPayload sro_unmap_ctx := {| zero_payload := zero_unmap_ctx |}.

Section Setters.
Implicit Types (c : sro_unmap_ctx).
Definition set_backing (v : Z) c := UnmapCtx v (u_g_llt c) (g_coarse c) (g_coarse_dev c) (tlbi_done c) (oaddr c)
  (cur_base c) (oaddr_type c) (pending_desc_idx c) (pending_blk_idx c) (pending_pa c) (sro_handle c) (u_mecid c)
  (enable_lpa2 c) (vmid_list c) (u_da_enabled c) (leaf_base_ipa c) (leaf_level c) (smmu_tlbi_idx c) (smmu_tlbi_pending c).
Definition set_g_llt (v : option Z) c := UnmapCtx (backing_addr c) v (g_coarse c) (g_coarse_dev c) (tlbi_done c) (oaddr c)
  (cur_base c) (oaddr_type c) (pending_desc_idx c) (pending_blk_idx c) (pending_pa c) (sro_handle c) (u_mecid c)
  (enable_lpa2 c) (vmid_list c) (u_da_enabled c) (leaf_base_ipa c) (leaf_level c) (smmu_tlbi_idx c) (smmu_tlbi_pending c).
Definition set_coarse (g d : option Z) c := UnmapCtx (backing_addr c) (u_g_llt c) g d (tlbi_done c) (oaddr c)
  (cur_base c) (oaddr_type c) (pending_desc_idx c) (pending_blk_idx c) (pending_pa c) (sro_handle c) (u_mecid c)
  (enable_lpa2 c) (vmid_list c) (u_da_enabled c) (leaf_base_ipa c) (leaf_level c) (smmu_tlbi_idx c) (smmu_tlbi_pending c).
Definition set_tlbi_done (v : bool) c := UnmapCtx (backing_addr c) (u_g_llt c) (g_coarse c) (g_coarse_dev c) v (oaddr c)
  (cur_base c) (oaddr_type c) (pending_desc_idx c) (pending_blk_idx c) (pending_pa c) (sro_handle c) (u_mecid c)
  (enable_lpa2 c) (vmid_list c) (u_da_enabled c) (leaf_base_ipa c) (leaf_level c) (smmu_tlbi_idx c) (smmu_tlbi_pending c).
Definition set_cur_base (v : Z) c := UnmapCtx (backing_addr c) (u_g_llt c) (g_coarse c) (g_coarse_dev c) (tlbi_done c)
  (oaddr c) v (oaddr_type c) (pending_desc_idx c) (pending_blk_idx c) (pending_pa c) (sro_handle c) (u_mecid c)
  (enable_lpa2 c) (vmid_list c) (u_da_enabled c) (leaf_base_ipa c) (leaf_level c) (smmu_tlbi_idx c) (smmu_tlbi_pending c).
Definition set_cursor (desc blk pa : Z) c := UnmapCtx (backing_addr c) (u_g_llt c) (g_coarse c) (g_coarse_dev c)
  (tlbi_done c) (oaddr c) (cur_base c) (oaddr_type c) desc blk pa (sro_handle c) (u_mecid c)
  (enable_lpa2 c) (vmid_list c) (u_da_enabled c) (leaf_base_ipa c) (leaf_level c) (smmu_tlbi_idx c) (smmu_tlbi_pending c).
Definition set_leaf (base level : Z) c := UnmapCtx (backing_addr c) (u_g_llt c) (g_coarse c) (g_coarse_dev c)
  (tlbi_done c) (oaddr c) (cur_base c) (oaddr_type c) (pending_desc_idx c) (pending_blk_idx c) (pending_pa c)
  (sro_handle c) (u_mecid c) (enable_lpa2 c) (vmid_list c) (u_da_enabled c) base level (smmu_tlbi_idx c) (smmu_tlbi_pending c).
Definition set_smmu (idx : Z) (pend : bool) c := UnmapCtx (backing_addr c) (u_g_llt c) (g_coarse c) (g_coarse_dev c)
  (tlbi_done c) (oaddr c) (cur_base c) (oaddr_type c) (pending_desc_idx c) (pending_blk_idx c) (pending_pa c)
  (sro_handle c) (u_mecid c) (enable_lpa2 c) (vmid_list c) (u_da_enabled c) (leaf_base_ipa c) (leaf_level c) idx pend.
Definition set_pending_pa (v : Z) c := set_cursor (pending_desc_idx c) (pending_blk_idx c) v c.
End Setters.

(** [struct rtt_unmap_coarse_lock]. *)
Record rtt_unmap_coarse_lock := CoarseLock { coarse_data : option Z; coarse_dev : option Z }.
Definition no_coarse : rtt_unmap_coarse_lock := CoarseLock None None.

(** ** The state *)

Record urmm := URmm {
  u_rmm : rmm;
  u_devs : gmap Z Z;             (* words of the device granules *)
  u_sro : sro_lib sro_unmap_ctx;
  u_isr : nat;                   (* samples of ISR_EL1 so far *)
  u_polls : nat                  (* polls of CMD_SYNC so far *)
}.

Definition U : Type -> Type := ST urmm.

Definition on_rmm {A} (c : H A) : U A := fun u =>
  match c (u_rmm u) with
  | Some (x, w) => Some (x, URmm w (u_devs u) (u_sro u) (u_isr u) (u_polls u))
  | None => None
  end.
Definition on_devs {A} (c : ST (gmap Z Z) A) : U A := fun u =>
  match c (u_devs u) with
  | Some (x, d) => Some (x, URmm (u_rmm u) d (u_sro u) (u_isr u) (u_polls u))
  | None => None
  end.
(** Apply a descriptor operation to device granule [g]. *)
Definition on_dev_desc (g : Z) (f : Z -> option Z) : U unit :=
  on_devs (fun ds => d ← ds !! g; d' ← f d; Some (tt, <[g := d']> ds)).

#[export] Program Instance urmm_sro : SroState urmm sro_unmap_ctx := {|
  get_sro := u_sro;
  put_sro l u := URmm (u_rmm u) (u_devs u) l (u_isr u) (u_polls u)
|}.
Solve Obligations with (intros; try (by destruct s); done).

(** ** The environment *)

(** Interrupts and the SMMU: what the n-th sample of ISR_EL1 and the n-th poll of
    CMD_SYNC say, and the status of a submission.  An SMMU completes its commands:
    after finitely many polls, [sync_bound] at most, a poll succeeds. *)
Class UnmapEnv := {
  isr_pending : nat -> bool;
  cmd_sync_complete : nat -> bool;
  smmuv3_inv_at_level_per_vmids_submit : list Z -> Z -> Z -> Z -> bool -> Z;
  sync_bound : nat;
  sync_completes : forall t, exists k, (k < sync_bound)%nat /\ cmd_sync_complete (t + k) = true
}.

(** The granule, or device granule, that represents an address now, locked when
    it is in the expected state: result, granule and tracking size
    ([tr_find_lock_active_granule], [tr_find_lock_active_dev_granule]). *)
Class ActiveLookup `{lookup : GranuleLookup} := {
  tracking_region_get_size : Z;
  find_lock_active_granule : Z -> Z -> M (Z * option Z * option Z);
  find_lock_active_dev_granule : Z -> Z -> ST (gmap Z Z) (Z * option Z * option Z)
}.

(** A write of descriptors to the host's buffer. *)
Class UnmapHost := { list_writable : Z -> bool }.

Section Unmap.
Context `{feat : ArchFeatures} `{lookup : GranuleLookup} `{active : !ActiveLookup} `{env : UnmapEnv} `{host : UnmapHost}.
Implicit Types (rd : rd) (s2_ctx : s2tt_context) (wi : s2tt_walk) (res : smc_result) (ctx : sro_unmap_ctx)
  (coarse : rtt_unmap_coarse_lock) (flavor : rtt_unmap_flavor) (al : addr_list).

Definition rtt_unmap_irq_pending : U bool := fun u =>
  Some (isr_pending (u_isr u), URmm (u_rmm u) (u_devs u) (u_sro u) (S (u_isr u)) (u_polls u)).
Definition smmuv3_cmd_sync_is_complete : U bool := fun u =>
  Some (cmd_sync_complete (u_polls u), URmm (u_rmm u) (u_devs u) (u_sro u) (u_isr u) (S (u_polls u))).

(** ** Validation *)

(** [inl] is an error, [inr] the type and the effective length of the list. *)
Definition validate_unmap_inputs (base top flags oaddr : Z) rd (in_par : bool) : option (Z + Z * Z) :=
  let oaddr_type := EXTRACT F_RMI_RTT_UNMAP_FLAGS_OADDR_TYPE flags in
  let list_count := EXTRACT F_RMI_RTT_UNMAP_FLAGS_LIST_COUNT flags in
  if negb (GRANULE_ALIGNED base) || negb (GRANULE_ALIGNED top) || (top <=? base) then Some (inl RMI_ERROR_INPUT) else
  ok ← validate_map_addr base S2TT_PAGE_LEVEL rd;
  ok ← (if ok : bool then validate_map_addr (top - GRANULE_SIZE) S2TT_PAGE_LEVEL rd else Some false);
  if negb ok then Some (inl RMI_ERROR_INPUT) else
  base_in ← addr_in_par rd base;
  top_in ← addr_in_par rd (top - GRANULE_SIZE);
  if (if in_par then negb base_in || negb top_in else base_in || top_in) then Some (inl RMI_ERROR_INPUT) else
  if (oaddr_type =? RMI_ADDR_TYPE_NONE) || (oaddr_type =? RMI_ADDR_TYPE_SINGLE) then
    if negb (oaddr =? 0) || negb (list_count =? 0) then Some (inl RMI_ERROR_INPUT)
    else Some (inr (oaddr_type, list_count))
  else if oaddr_type =? RMI_ADDR_TYPE_LIST then
    if list_count =? 0 then Some (inl RMI_ERROR_INPUT)
    else if negb (ALIGNED oaddr 8) then Some (inl RMI_ERROR_INPUT)
    else
      let offset_slots := Z.land oaddr (not64 GRANULE_MASK) / 8 in
      let granule_remaining := sub64 ADDR_LIST_MAX_RANGES offset_slots in
      assert (0 <? granule_remaining) ;;
      Some (inr (oaddr_type, Z.min (Z.min list_count ADDR_LIST_MAX_RANGES) granule_remaining))
  else Some (inl RMI_ERROR_INPUT).

(** ** Backing memory *)

Definition rtt_unmap_coarse_unlock coarse : U unit :=
  _ <-! match coarse_data coarse with Some g => on_rmm (h_granule_unlock g) | None => ret tt end ;;
  match coarse_dev coarse with Some g => on_dev_desc g dev_granule_unlock | None => ret tt end.

Definition rtt_unmap_coarse_claim ctx coarse : U sro_unmap_ctx :=
  _ <-! guard (match g_coarse ctx, g_coarse_dev ctx with None, None => true | _, _ => false end) ;;
  match coarse_data coarse, coarse_dev coarse with
  | Some _, Some _ => lift None
  | Some g, None =>
      _ <-! on_rmm (h_on_desc g (fun d => granule_unlock_transition d GRANULE_STATE_PARTIAL)) ;;
      ret (set_coarse (Some g) None ctx)
  | None, Some g =>
      _ <-! on_dev_desc g (fun d => dev_granule_unlock_transition d DEV_GRANULE_STATE_PARTIAL) ;;
      ret (set_coarse None (Some g) ctx)
  | None, None => ret ctx
  end.

(** One granule of the loop of [rtt_unmap_tracking_validate], at [addr] with
    [left] bytes to go: the result, the lock retained and the tracking size. *)
Definition validate_one (addr left : Z) flavor : U (Z * rtt_unmap_coarse_lock * Z) :=
  let data := flavor_is flavor RTT_UNMAP_FLAVOR_DATA in
  r <-! (if data then on_rmm (on_mem (find_lock_active_granule addr GRANULE_STATE_DATA))
         else on_devs (find_lock_active_dev_granule addr DEV_GRANULE_STATE_MAPPED)) ;;
  let '(status, g, size) := r in
  if negb (status =? RMI_SUCCESS) then ret (status, no_coarse, 0)
  else
    g <-! lift g ;;
    tracking_size <-! lift size ;;
    has_aux <-! (if data then on_rmm (h_desc g (refcount_read_acquire GRN))
                 else on_devs (fun ds => d ← ds !! g; r ← refcount_read_acquire DEV_GRN d; Some (r, ds))) ;;
    status <-! lift (if (left <? tracking_size) || negb (ALIGNED addr tracking_size)
                     then pack_return_code_level_addr RMI_ERROR_TRACKING 0 addr
                     else if negb (has_aux =? 0) then pack_return_code_level RMI_ERROR_RTT_AUX 0
                     else Some RMI_SUCCESS) ;;
    if (status =? RMI_SUCCESS) && (tracking_size =? tracking_region_get_size) then
      ret (status, if data then CoarseLock (Some g) None else CoarseLock None (Some g), tracking_size)
    else
      _ <-! (if data then on_rmm (h_granule_unlock g) else on_dev_desc g dev_granule_unlock) ;;
      ret (status, no_coarse, tracking_size).

(** The loop, [fuel] granules at most; a granule stands for 4KB at least. *)
Fixpoint tracking_validate_loop (fuel : nat) (pa map_size offset : Z) flavor coarse : U (Z * rtt_unmap_coarse_lock) :=
  if offset <? map_size then
    match fuel with
    | O => lift None
    | S fuel =>
        r <-! validate_one (add64 pa offset) (map_size - offset) flavor ;;
        let '(status, locked, tracking_size) := r in
        let coarse := match locked with CoarseLock None None => coarse | _ => locked end in
        if negb (status =? RMI_SUCCESS) then ret (status, coarse)
        else tracking_validate_loop fuel pa map_size (offset + tracking_size) flavor coarse
    end
  else ret (RMI_SUCCESS, coarse).

Definition rtt_unmap_tracking_validate (pa map_size : Z) flavor coarse : U (Z * rtt_unmap_coarse_lock) :=
  _ <-! guard (match coarse with CoarseLock None None => true | _ => false end) ;;
  _ <-! guard (negb (flavor_is flavor RTT_UNMAP_FLAVOR_UNPROT)) ;;
  tracking_validate_loop (Z.to_nat (map_size / GRANULE_SIZE)) pa map_size 0 flavor coarse.

(** ** The sweep of one table *)

(** The flavours of entry each command owns; [None] is a failed assertion. *)
Definition unmap_flavor_valid s2_ctx (s2tte level : Z) flavor : option bool :=
  match flavor with
  | RTT_UNMAP_FLAVOR_DATA =>
      if s2tte_is_assigned_dev s2_ctx s2tte then Some false
      else b ← s2tte_is_assigned_dev_dev s2_ctx s2tte level; Some (negb b)
  | RTT_UNMAP_FLAVOR_DEV =>
      b ← s2tte_is_assigned_dev_dev s2_ctx s2tte level;
      if b : bool then Some true else
      b ← s2tte_is_assigned_dev_empty s2_ctx s2tte level;
      if b : bool then Some true else s2tte_is_assigned_dev_destroyed s2_ctx s2tte level
  | RTT_UNMAP_FLAVOR_UNPROT =>
      b ← s2tte_is_assigned_ns s2_ctx s2tte level;
      assert b ;; Some true
  end.

(** The entry that replaces a live one, and whether it was valid for hardware. *)
Definition unmap_make_new_s2tte s2_ctx (s2tte level : Z) flavor : option (Z * bool) :=
  match flavor with
  | RTT_UNMAP_FLAVOR_DATA =>
      b ← s2tte_is_assigned_ram s2_ctx s2tte level;
      if b : bool then
        ap ← default_protected_ap s2_ctx;
        Some (s2tte_create_unassigned_destroyed s2_ctx ap, true)
      else
      b ← s2tte_is_assigned_empty s2_ctx s2tte level;
      if b : bool then Some (s2tte_create_unassigned_empty s2_ctx s2tte, false)
      else
      b ← s2tte_is_assigned_destroyed s2_ctx s2tte level;
      assert b ;;
      Some (s2tte_create_unassigned_destroyed s2_ctx s2tte, false)
  | RTT_UNMAP_FLAVOR_DEV =>
      b ← s2tte_is_assigned_dev_dev s2_ctx s2tte level;
      if b : bool then Some (s2tte_create_unassigned_destroyed s2_ctx s2tte, true)
      else
      b ← s2tte_is_assigned_dev_empty s2_ctx s2tte level;
      if b : bool then Some (s2tte_create_unassigned_empty s2_ctx s2tte, false)
      else
      b ← s2tte_is_assigned_dev_destroyed s2_ctx s2tte level;
      assert b ;;
      Some (s2tte_create_unassigned_destroyed s2_ctx s2tte, false)
  | RTT_UNMAP_FLAVOR_UNPROT =>
      b ← s2tte_is_assigned_ns s2_ctx s2tte level;
      assert b ;;
      Some (s2tte_create_unassigned_ns s2_ctx 0, true)
  end.

(** The new entry with its marks. *)
Definition unmap_stamp s2_ctx (s2tte level : Z) flavor (handle : Z) : option Z :=
  '(new_s2tte, tlbi_needed) ← unmap_make_new_s2tte s2_ctx s2tte level flavor;
  new_s2tte ← s2tte_set_drain_pending new_s2tte handle;
  if tlbi_needed : bool then s2tte_set_tlbi_pending new_s2tte else Some new_s2tte.

(** What the loop carries besides its cursor. *)
Record sweep := Sweep { sw_ctx : sro_unmap_ctx; sw_list : addr_list; sw_coarse : rtt_unmap_coarse_lock; sw_res : smc_result }.

(** How the checks on an entry end: go on with it, stop the sweep, or an error
    code, which is reported for the first entry and stops the sweep after it. *)
Inductive entry_check := Check_go | Check_stop | Check_error (code : Z).

(** The checks on the backing memory of an entry that maps [pa]. *)
Definition unmap_backing_check (pa map_size : Z) flavor ctx coarse
    : U (entry_check * sro_unmap_ctx * rtt_unmap_coarse_lock) :=
  if flavor_is flavor RTT_UNMAP_FLAVOR_UNPROT then ret (Check_go, ctx, coarse)
  else if tracking_region_get_size <? map_size then
    code <-! lift (pack_return_code_level_addr RMI_ERROR_TRACKING 0 pa) ;;
    ret (Check_error code, ctx, coarse)
  else if negb (backing_addr ctx =? NO_ADDR)
       && negb (round_down pa tracking_region_get_size =? round_down (backing_addr ctx) tracking_region_get_size)
  then ret (Check_stop, ctx, coarse)
  else
    let ctx := set_backing pa ctx in
    r <-! rtt_unmap_tracking_validate pa map_size flavor coarse ;;
    ret (if fst r =? RMI_SUCCESS then Check_go else Check_error (fst r), ctx, snd r).

Section Sweep.
Variable s2_ctx : s2tt_context.
Variables g_llt start_idx top level map_size : Z.
Variable flavor : rtt_unmap_flavor.

Definition blk_status : Z :=
  if flavor_is flavor RTT_UNMAP_FLAVOR_UNPROT then RMI_OP_MEM_UNDELEGATED else RMI_OP_MEM_DELEGATED.

(** [sweep_done]: the cursor is where the sweep stopped. *)
Definition sweep_done (addr : Z) (s : sweep) : data_unmap_step * sweep :=
  (DATA_UNMAP_STEP_DONE, Sweep (set_cur_base addr (sw_ctx s)) (sw_list s) (sw_coarse s) (sw_res s)).
Definition sweep_error (code : Z) (s : sweep) : data_unmap_step * sweep :=
  (DATA_UNMAP_STEP_ERROR, Sweep (sw_ctx s) (sw_list s) (sw_coarse s) (set_x1 0 (set_x0 code (sw_res s)))).

(** An error for the first entry of the sweep, the end of the sweep otherwise. *)
Definition first_or_done (idx addr : Z) (code : option Z) (s : sweep) : U (data_unmap_step * sweep) :=
  if idx =? start_idx then code <-! lift code ;; ret (sweep_error code s) else ret (sweep_done addr s).
Definition rtt_error_here : option Z := pack_return_code_level RMI_ERROR_RTT (u8 level).

(** From the write of the entry to the end of an iteration; the flag tells that a
    coarse unit was claimed, which ends the sweep. *)
Definition unmap_entry (idx s2tte : Z) (s : sweep) : U (bool * sweep) :=
  new_s2tte <-! lift (unmap_stamp s2_ctx s2tte level flavor (sro_handle (sw_ctx s))) ;;
  _ <-! on_rmm (s2tte_write g_llt idx new_s2tte) ;;
  _ <-! (if flavor_is flavor RTT_UNMAP_FLAVOR_UNPROT then on_rmm (h_on_desc g_llt atomic_granule_get) else ret tt) ;;
  match sw_coarse s with
  | CoarseLock None None => ret (false, s)
  | _ =>
      ctx <-! rtt_unmap_coarse_claim (sw_ctx s) (sw_coarse s) ;;
      ret (true, Sweep ctx (sw_list s) no_coarse (sw_res s))
  end.

(** A live entry that is not a table and fits: the checks that follow.  The
    result is an error code, or whether the entry was taken and the sweep goes
    on. *)
Definition unmap_live_entry (idx addr prev_pa s2tte : Z) (s : sweep)
    : U (Z * sweep + option bool * Z * sweep) :=
  valid <-! lift (unmap_flavor_valid s2_ctx s2tte level flavor) ;;
  if negb valid then
    code <-! lift rtt_error_here ;;
    if idx =? start_idx then ret (inl (code, s))
    else
      let res := match flavor with RTT_UNMAP_FLAVOR_DATA => set_x1 0 (set_x0 code (sw_res s)) | _ => sw_res s end in
      ret (inr (None, prev_pa, Sweep (sw_ctx s) (sw_list s) (sw_coarse s) res))
  else
    pa <-! lift (s2tte_pa s2_ctx s2tte level) ;;
    r <-! unmap_backing_check pa map_size flavor (sw_ctx s) (sw_coarse s) ;;
    let '(check, ctx, coarse) := r in
    let s := Sweep ctx (sw_list s) coarse (sw_res s) in
    match check with
    | Check_error code => if idx =? start_idx then ret (inl (code, s)) else ret (inr (None, prev_pa, s))
    | Check_stop => ret (inr (None, prev_pa, s))
    | Check_go =>
        if (oaddr_type ctx =? RMI_ADDR_TYPE_SINGLE) && negb (prev_pa =? NO_ADDR)
           && negb (pa =? add64 prev_pa map_size) then ret (inr (None, prev_pa, s))
        else
          a <-! lift (addr_list_add_block (sw_list s) pa level blk_status) ;;
          let s := Sweep ctx (snd a) coarse (sw_res s) in
          if negb (fst a) then ret (inr (None, prev_pa, s))
          else
            e <-! unmap_entry idx s2tte s ;;
            ret (inr (Some (fst e), pa, snd e))
    end.

(** The loop from entry [idx], which covers [addr], with [n] entries left. *)
Fixpoint one_table_loop (n : nat) (idx addr prev_pa : Z) (s : sweep) : U (data_unmap_step * sweep) :=
  match n with
  | O => ret (sweep_done addr s)
  | S n' =>
      s2tt <-! on_rmm (map_table g_llt) ;;
      s2tte <-! lift (s2tte_read s2tt idx) ;;
      if negb (s2tte_is_live s2_ctx s2tte level) then
        if top <? add64 addr map_size then first_or_done idx addr rtt_error_here s
        else one_table_loop n' (idx + 1) (add64 addr map_size) prev_pa s
      else if (level <? S2TT_PAGE_LEVEL) && s2tte_is_table s2_ctx s2tte level then
        first_or_done idx addr rtt_error_here s
      else if top <? add64 addr map_size then first_or_done idx addr rtt_error_here s
      else
        r <-! unmap_live_entry idx addr prev_pa s2tte s ;;
        match r with
        | inl (code, s) => ret (sweep_error code s)
        | inr (None, _, s) => ret (sweep_done addr s)
        | inr (Some claimed, prev_pa, s) =>
            if claimed : bool then ret (sweep_done (add64 addr map_size) s)
            else one_table_loop n' (idx + 1) (add64 addr map_size) prev_pa s
        end
  end.

Definition rtt_unmap_one_table (start_addr : Z) (s : sweep) : U (data_unmap_step * sweep) :=
  one_table_loop (Z.to_nat (S2TTES_PER_S2TT - start_idx)) start_idx start_addr NO_ADDR s.

End Sweep.

(** ** Returning the memory *)

(** The page loop of [rtt_unmap_drain_coarse], [n] pages at most. *)
Fixpoint drain_coarse_loop (n : nat) (end_ : Z) ctx : U (bool * sro_unmap_ctx) :=
  if pending_pa ctx <? end_ then
    match n with
    | O => lift None
    | S n' =>
        _ <-! on_rmm (emit (E_clean (pending_pa ctx))) ;;
        let ctx := set_pending_pa (add64 (pending_pa ctx) GRANULE_SIZE) ctx in
        irq <-! (if pending_pa ctx <? end_ then rtt_unmap_irq_pending else ret false) ;;
        if irq : bool then ret (true, ctx) else drain_coarse_loop n' end_ ctx
    end
  else ret (false, ctx).

Definition rtt_unmap_drain_coarse ctx (end_ : Z) : U (bool * sro_unmap_ctx) :=
  _ <-! guard (ALIGNED (backing_addr ctx) tracking_region_get_size) ;;
  match g_coarse ctx, g_coarse_dev ctx with
  | Some g, None =>
      r <-! drain_coarse_loop (Z.to_nat (tracking_region_get_size / GRANULE_SIZE)) end_ ctx ;;
      let '(yielded, ctx) := r in
      if yielded : bool then ret (true, ctx)
      else
        _ <-! on_rmm (h_granule_lock g GRANULE_STATE_PARTIAL) ;;
        _ <-! on_rmm (h_on_desc g (fun d => granule_unlock_transition d GRANULE_STATE_DELEGATED)) ;;
        _ <-! on_rmm (emit (E_delegated g)) ;;
        ret (false, set_coarse None None ctx)
  | None, Some g =>
      _ <-! on_dev_desc g (fun d => dev_granule_lock d DEV_GRANULE_STATE_PARTIAL) ;;
      _ <-! on_dev_desc g (fun d => dev_granule_unlock_transition d DEV_GRANULE_STATE_DELEGATED) ;;
      _ <-! on_rmm (emit (E_dev_delegated g)) ;;
      ret (false, set_coarse None None ctx)
  | _, _ => lift None
  end.

(** One granule of [rtt_unmap_drain_fine]. *)
Definition drain_fine_one (pa : Z) flavor : U Z :=
  let data := flavor_is flavor RTT_UNMAP_FLAVOR_DATA in
  r <-! (if data then on_rmm (on_mem (find_lock_active_granule pa GRANULE_STATE_DATA))
         else on_devs (find_lock_active_dev_granule pa DEV_GRANULE_STATE_MAPPED)) ;;
  let '(status, g, size) := r in
  _ <-! guard (status =? RMI_SUCCESS) ;;
  g <-! lift g ;;
  tracking_size <-! lift size ;;
  _ <-! guard (tracking_size =? GRANULE_SIZE) ;;
  _ <-! (if data then
           _ <-! on_rmm (h_on_desc g granule_unlock_transition_to_delegated) ;;
           on_rmm (emit (E_delegated g))
         else
           _ <-! on_dev_desc g (fun d => dev_granule_unlock_transition d DEV_GRANULE_STATE_DELEGATED) ;;
           on_rmm (emit (E_dev_delegated g))) ;;
  ret tracking_size.

Fixpoint drain_fine_loop (n : nat) (end_ : Z) flavor ctx : U (bool * sro_unmap_ctx) :=
  if pending_pa ctx <? end_ then
    match n with
    | O => lift None
    | S n' =>
        irq <-! rtt_unmap_irq_pending ;;
        if irq : bool then ret (true, ctx)
        else
          tracking_size <-! drain_fine_one (pending_pa ctx) flavor ;;
          drain_fine_loop n' end_ flavor (set_pending_pa (add64 (pending_pa ctx) tracking_size) ctx)
    end
  else ret (false, ctx).

Definition rtt_unmap_drain_fine ctx (end_ : Z) flavor : U (bool * sro_unmap_ctx) :=
  drain_fine_loop (Z.to_nat ((end_ - pending_pa ctx) / GRANULE_SIZE)) end_ flavor ctx.

(** One block, [blk_base] to [blk_base + blk_size], of the list. *)
Definition drain_block ctx al flavor (cnt blk_base blk_size : Z) : U (bool * sro_unmap_ctx) :=
  let blk_end := add64 blk_base blk_size in
  let ctx := if pending_pa ctx =? NO_ADDR then set_pending_pa blk_base ctx else ctx in
  _ <-! guard (blk_base <=? pending_pa ctx) ;;
  _ <-! guard (pending_pa ctx <? blk_end) ;;
  match g_coarse ctx, g_coarse_dev ctx with
  | None, None => rtt_unmap_drain_fine ctx blk_end flavor
  | _, _ =>
      _ <-! guard ((al_count al =? 1) && (cnt =? 1)) ;;
      _ <-! guard (blk_base =? backing_addr ctx) ;;
      _ <-! guard (blk_size =? tracking_region_get_size) ;;
      rtt_unmap_drain_coarse ctx blk_end
  end.

(** The loop over descriptors and blocks, [n] iterations at most. *)
Fixpoint drain_pending_loop (n : nat) al flavor ctx : U (bool * sro_unmap_ctx) :=
  if pending_desc_idx ctx <? al_count al then
    match n with
    | O => lift None
    | S n' =>
        d <-! lift (addr_list_peek_desc al (pending_desc_idx ctx)) ;;
        d <-! lift d ;;
        let '(base, level, cnt, st) := d in
        let blk_size := XLAT_BLOCK_SIZE level in
        if cnt <=? pending_blk_idx ctx then
          drain_pending_loop n' al flavor (set_cursor (u32 (pending_desc_idx ctx + 1)) 0 NO_ADDR ctx)
        else
          r <-! drain_block ctx al flavor cnt (add64 base (mul64 (pending_blk_idx ctx) blk_size)) blk_size ;;
          let '(yielded, ctx) := r in
          if yielded : bool then ret (true, ctx)
          else drain_pending_loop n' al flavor
                 (set_cursor (pending_desc_idx ctx) (pending_blk_idx ctx + 1) NO_ADDR ctx)
    end
  else ret (false, ctx).

(** A leaf table has [S2TTES_PER_S2TT] entries, so a list has that many blocks and
    descriptors at most. *)
Definition rtt_unmap_drain_pending ctx al flavor : U (bool * sro_unmap_ctx) :=
  _ <-! guard (negb (flavor_is flavor RTT_UNMAP_FLAVOR_UNPROT)) ;;
  drain_pending_loop (Z.to_nat (2 * S2TTES_PER_S2TT)) al flavor ctx.

(** ** Invalidation *)

(** The poll loop; [sync_bound] polls are enough. *)
Fixpoint sync_loop (n : nat) : U bool :=
  match n with
  | O => lift None
  | S n' =>
      complete <-! smmuv3_cmd_sync_is_complete ;;
      if complete : bool then ret false
      else irq <-! rtt_unmap_irq_pending ;; if irq : bool then ret true else sync_loop n'
  end.
Definition rtt_unmap_smmu_sync_yield ctx : U bool :=
  _ <-! guard (smmu_tlbi_pending ctx) ;;
  yielded <-! sync_loop sync_bound ;;
  _ <-! (if yielded : bool then ret tt else on_rmm (emit E_cmd_sync)) ;;
  ret yielded.

Definition rtt_unmap_invalidate_pending ctx (addr level s2tte_idx : Z) : U (bool * sro_unmap_ctx) :=
  _ <-! (if u_da_enabled ctx then
           _ <-! on_rmm (emit (E_smmu (vmid_list ctx) addr level 1 true)) ;;
           guard (smmuv3_inv_at_level_per_vmids_submit (vmid_list ctx) addr level 1 true =? 0)
         else ret tt) ;;
  ops <-! on_rmm (get (fun w => s2tt_invalidate_page_block_per_vmids (r_vttbr w) (enable_lpa2 ctx) (vmid_list ctx) addr level)) ;;
  _ <-! on_rmm (emit (E_tlbi ops)) ;;
  if negb (u_da_enabled ctx) then ret (false, ctx)
  else
    let ctx := set_smmu s2tte_idx true ctx in
    yielded <-! rtt_unmap_smmu_sync_yield ctx ;;
    if yielded : bool then ret (true, ctx) else ret (false, set_smmu s2tte_idx false ctx).

(** Does the entry carry our handle. *)
Definition s2tte_is_mine (s2tte handle : Z) : option bool :=
  if s2tte_drain_pending s2tte then h ← s2tte_drain_handle s2tte; Some (h =? handle) else Some false.

(** The loop over the entries, [n] left from [i]. *)
Fixpoint tlbi_loop (n : nat) (g_llt map_size i : Z) ctx : U (bool * sro_unmap_ctx) :=
  match n with
  | O => ret (false, set_tlbi_done true ctx)
  | S n' =>
      irq <-! rtt_unmap_irq_pending ;;
      if irq : bool then ret (true, ctx)
      else
        s2tt <-! on_rmm (map_table g_llt) ;;
        s2tte <-! lift (s2tte_read s2tt i) ;;
        mine <-! lift (s2tte_is_mine s2tte (sro_handle ctx)) ;;
        if mine && s2tte_tlbi_pending s2tte then
          r <-! rtt_unmap_invalidate_pending ctx (add64 (leaf_base_ipa ctx) (mul64 i map_size)) (leaf_level ctx) i ;;
          let '(yielded, ctx) := r in
          if yielded : bool then ret (true, ctx)
          else
            _ <-! on_rmm (s2tte_write g_llt i (s2tte_clear_tlbi_pending s2tte)) ;;
            tlbi_loop n' g_llt map_size (i + 1) ctx
        else tlbi_loop n' g_llt map_size (i + 1) ctx
  end.

Definition rtt_unmap_tlbi_pending ctx (g_llt : Z) : U (bool * sro_unmap_ctx) :=
  if tlbi_done ctx then ret (false, ctx)
  else
    let map_size := s2tte_map_size (leaf_level ctx) in
    yielded <-! (if smmu_tlbi_pending ctx then rtt_unmap_smmu_sync_yield ctx else ret false) ;;
    if yielded : bool then ret (true, ctx)
    else
      ctx <-! (if smmu_tlbi_pending ctx then
                 s2tt <-! on_rmm (map_table g_llt) ;;
                 s2tte <-! lift (s2tte_read s2tt (smmu_tlbi_idx ctx)) ;;
                 mine <-! lift (s2tte_is_mine s2tte (sro_handle ctx)) ;;
                 _ <-! guard (mine && s2tte_tlbi_pending s2tte) ;;
                 _ <-! on_rmm (s2tte_write g_llt (smmu_tlbi_idx ctx) (s2tte_clear_tlbi_pending s2tte)) ;;
                 ret (set_smmu (smmu_tlbi_idx ctx) false ctx)
               else ret ctx) ;;
      tlbi_loop (Z.to_nat S2TTES_PER_S2TT) g_llt map_size 0 ctx.

(** ** Clearing the marks *)

Fixpoint clear_loop (n : nat) (g_llt i handle : Z) : U unit :=
  match n with
  | O => ret tt
  | S n' =>
      s2tt <-! on_rmm (map_table g_llt) ;;
      s2tte <-! lift (s2tte_read s2tt i) ;;
      mine <-! lift (s2tte_is_mine s2tte handle) ;;
      _ <-! (if mine : bool then
               _ <-! guard (negb (s2tte_tlbi_pending s2tte)) ;;
               _ <-! on_rmm (s2tte_write g_llt i (s2tte_clear_drain_pending s2tte)) ;;
               on_rmm (h_on_desc g_llt atomic_granule_put_release)
             else ret tt) ;;
      clear_loop n' g_llt (i + 1) handle
  end.
Definition rtt_unmap_clear_marks_and_drop ctx (g_llt : Z) : U unit :=
  clear_loop (Z.to_nat S2TTES_PER_S2TT) g_llt 0 (sro_handle ctx).

Definition rtt_unmap_drain_and_clear ctx al (g_llt : Z) flavor : U (bool * sro_unmap_ctx) :=
  r <-! rtt_unmap_tlbi_pending ctx g_llt ;;
  let '(yielded, ctx) := r in
  if yielded : bool then ret (true, ctx)
  else
    r <-! (if flavor_is flavor RTT_UNMAP_FLAVOR_UNPROT then ret (false, ctx) else rtt_unmap_drain_pending ctx al flavor) ;;
    let '(yielded, ctx) := r in
    if yielded : bool then ret (true, ctx)
    else
      _ <-! rtt_unmap_clear_marks_and_drop ctx g_llt ;;
      ret (false, ctx).

(** ** Results *)

Definition rtt_unmap_format_result (oaddr_type oaddr : Z) al (out_top : Z) res : option (smc_result * addr_list) :=
  let res := SmcResult RMI_SUCCESS out_top 0 0 (res_x4 res) in
  if addr_list_is_empty al then Some (res, al)
  else if oaddr_type =? RMI_ADDR_TYPE_SINGLE then
    d ← addr_list_peek_desc al 0;
    '(base, level, cnt, st) ← d;
    sz ← xlat_blk_sz_to_addr_list_sz (XLAT_BLOCK_SIZE level);
    Some (set_x2 (Z.lor (Z.lor base (INPLACE F_ADDR_RDESC_4K_CNT cnt)) (INPLACE F_ADDR_RDESC_4K_SZ sz)) res, al)
  else if oaddr_type =? RMI_ADDR_TYPE_LIST then
    r ← addr_list_partial_copy_to_host al oaddr (max_count al) (list_writable oaddr);
    Some (set_x3 (match fst r with Some ds => Z.of_nat (length ds) | None => 0 end) res, snd r)
  else Some (res, al).

(** ** The commands *)

(** From the sweep to [out_unmap_ll]. *)
Definition rtt_unmap_leaf s2_ctx wi flavor (top : Z) (s : sweep) : U (rtt_unmap_run_result * sweep) :=
  let level := last_level wi in
  let map_size := s2tte_map_size level in
  if negb (Z.land (cur_base (sw_ctx s)) (map_size - 1) =? 0) then
    code <-! lift (pack_return_code_level RMI_ERROR_RTT (u8 level)) ;;
    ret (RTT_UNMAP_RUN_DONE, Sweep (sw_ctx s) (sw_list s) (sw_coarse s) (SmcResult code 0 0 0 (res_x4 (sw_res s))))
  else
    let ctx := set_leaf (sub64 (cur_base (sw_ctx s)) (mul64 (index wi) map_size)) level (sw_ctx s) in
    r <-! rtt_unmap_one_table s2_ctx (g_llt wi) (index wi) top level map_size flavor (cur_base ctx)
            (Sweep ctx (sw_list s) (sw_coarse s) (sw_res s)) ;;
    let '(step, s) := r in
    match step with
    | DATA_UNMAP_STEP_ERROR => ret (RTT_UNMAP_RUN_DONE, s)
    | DATA_UNMAP_STEP_DONE =>
        al <-! lift (if flavor_is flavor RTT_UNMAP_FLAVOR_UNPROT then Some (sw_list s)
                     else addr_list_sort_by_addr (sw_list s)) ;;
        r <-! rtt_unmap_drain_and_clear (sw_ctx s) al (g_llt wi) flavor ;;
        let '(yielded, ctx) := r in
        if yielded : bool then ret (RTT_UNMAP_RUN_YIELD, Sweep ctx al (sw_coarse s) (sw_res s))
        else
          f <-! lift (rtt_unmap_format_result (oaddr_type ctx) (oaddr ctx) al (cur_base ctx) (sw_res s)) ;;
          ret (RTT_UNMAP_RUN_DONE, Sweep (set_g_llt None ctx) (snd f) (sw_coarse s) (fst f))
    end.

Definition rtt_unmap_run (g_rd : Z) rd flavor (top : Z) ctx al res : U (rtt_unmap_run_result * sweep) :=
  s2_ctx <-! lift (arr_get (s2_ctxs rd) PRIMARY_S2_CTX_ID) ;;
  _ <-! on_rmm (h_granule_lock (g_rtt s2_ctx) GRANULE_STATE_RTT) ;;
  _ <-! on_rmm (h_granule_unlock g_rd) ;;
  wi <-! on_rmm (on_mem (s2tt_walk_lock_unlock s2_ctx (cur_base ctx) S2TT_PAGE_LEVEL)) ;;
  let ctx := set_tlbi_done false (set_coarse None None (set_g_llt (Some (g_llt wi)) ctx)) in
  r <-! rtt_unmap_leaf s2_ctx wi flavor top (Sweep ctx al no_coarse res) ;;
  _ <-! rtt_unmap_coarse_unlock (sw_coarse (snd r)) ;;
  _ <-! on_rmm (h_granule_unlock (g_llt wi)) ;;
  ret r.

(** The part of the context that the three commands set up from the realm. *)
Definition unmap_vmids rd flavor : option (list Z) :=
  primary_ctx ← arr_get (s2_ctxs rd) PRIMARY_S2_CTX_ID;
  if flavor_is flavor RTT_UNMAP_FLAVOR_UNPROT || indirect_s2ap primary_ctx then
    let nplanes := realm_num_planes rd in
    assert (nplanes <=? MAX_TOTAL_PLANES) ;;
    plane_vmids rd (Z.to_nat nplanes) 0
  else Some [vmid primary_ctx].

Definition unmap_init_ctx rd flavor (handle base oaddr oaddr_type : Z) ctx : option sro_unmap_ctx :=
  s2_ctx ← arr_get (s2_ctxs rd) PRIMARY_S2_CTX_ID;
  lpa2 ← s2tt_lpa2_enabled s2_ctx;
  vmids ← unmap_vmids rd flavor;
  let '(desc, blk, pa) := if flavor_is flavor RTT_UNMAP_FLAVOR_UNPROT
    then (pending_desc_idx ctx, pending_blk_idx ctx, pending_pa ctx) else (0, 0, NO_ADDR) in
  Some (UnmapCtx (backing_addr ctx) None (g_coarse ctx) (g_coarse_dev ctx) (tlbi_done ctx) oaddr base oaddr_type
          desc blk pa handle (mecid s2_ctx) lpa2 vmids (da_enabled rd) 0 S2TT_PAGE_LEVEL 0 false).

Definition unmap_max_count (oaddr_type list_count : Z) : Z :=
  if oaddr_type =? RMI_ADDR_TYPE_LIST then list_count
  else if oaddr_type =? RMI_ADDR_TYPE_SINGLE then 1 else ADDR_LIST_MAX_RANGES.

Definition unmap_fid flavor : Z :=
  match flavor with
  | RTT_UNMAP_FLAVOR_DATA => SMC_RMI_RTT_DATA_UNMAP
  | RTT_UNMAP_FLAVOR_UNPROT => SMC_RMI_RTT_UNPROT_UNMAP
  | RTT_UNMAP_FLAVOR_DEV => SMC_RMI_RTT_DEV_UNMAP
  end.

Variable cpuid : Z.

(** Everything after the lookup of the RD. *)
Definition rtt_unmap_rd (g_rd i base top flags oaddr : Z) flavor res : U smc_result :=
  rd <-! on_rmm (map_rd g_rd) ;;
  v <-! lift (validate_unmap_inputs base top flags oaddr rd (negb (flavor_is flavor RTT_UNMAP_FLAVOR_UNPROT))) ;;
  match v with
  | inl code =>
      _ <-! on_rmm (h_granule_unlock g_rd) ;;
      _ <-! on_sro (sro_ctx_release cpuid) ;;
      ret (set_x0 code res)
  | inr (oaddr_type, list_count) =>
      handle <-! on_sro (sro_ctx_my_handle cpuid) ;;
      sro <-! on_sro (load_sro i) ;;
      ctx <-! lift (unmap_init_ctx rd flavor handle base oaddr oaddr_type (payload sro)) ;;
      al <-! lift (addr_list_init LIST_TYPE_OUTPUT (u32 (unmap_max_count oaddr_type list_count))) ;;
      r <-! rtt_unmap_run g_rd rd flavor top ctx al res ;;
      let '(step, s) := r in
      _ <-! on_sro (store_sro i (fun c => set_payload (sw_ctx s) (set_addr_list (sw_list s) c))) ;;
      match step with
      | RTT_UNMAP_RUN_YIELD =>
          code <-! lift (pack_return_code_incomplete RMI_OP_MEM_REQ_NONE RMI_OP_CANNOT_CANCEL) ;;
          handle <-! on_sro (sro_ctx_seal cpuid) ;;
          ret (set_x1 handle (set_x0 code (sw_res s)))
      | RTT_UNMAP_RUN_DONE =>
          _ <-! on_sro (sro_ctx_release cpuid) ;;
          ret (sw_res s)
      end
  end.

(** The common shape of the three commands. *)
Definition smc_rtt_unmap flavor (rd_addr base top flags oaddr : Z) res : U smc_result :=
  let res := set_x0 RMI_ERROR_INPUT res in
  status <-! on_sro (sro_ctx_reserve cpuid (unmap_fid flavor) 0 false false SMC_RMI_OP_CONTINUE) ;;
  if negb (status =? RMI_SUCCESS) then ret (set_x0 status res)
  else
    i <-! on_sro (my_sro_ctx cpuid) ;;
    _ <-! (if flavor_is flavor RTT_UNMAP_FLAVOR_UNPROT then ret tt
           else on_sro (store_sro i (fun c => set_payload (set_backing NO_ADDR (payload c)) c))) ;;
    found <-! on_rmm (on_mem (find_lock_fine_granule rd_addr GRANULE_STATE_RD)) ;;
    if negb (fst found =? RMI_SUCCESS) then
      _ <-! on_sro (sro_ctx_release cpuid) ;;
      ret (set_x0 (fst found) res)
    else
      g_rd <-! lift (snd found) ;;
      rtt_unmap_rd g_rd i base top flags oaddr flavor res.

Definition smc_rtt_data_unmap := smc_rtt_unmap RTT_UNMAP_FLAVOR_DATA.
Definition smc_rtt_unprot_unmap := smc_rtt_unmap RTT_UNMAP_FLAVOR_UNPROT.
Definition smc_rtt_dev_unmap := smc_rtt_unmap RTT_UNMAP_FLAVOR_DEV.

Definition rtt_unmap_continue_handler (fid : Z) res : U smc_result :=
  i <-! on_sro (my_sro_ctx cpuid) ;;
  sro <-! on_sro (load_sro i) ;;
  _ <-! guard (fid =? SMC_RMI_OP_CONTINUE) ;;
  flavor <-! lift (rtt_unmap_flavor_from_fid (init_command sro)) ;;
  let ctx := payload sro in
  g_llt <-! lift (u_g_llt ctx) ;;
  _ <-! on_rmm (h_granule_lock g_llt GRANULE_STATE_RTT) ;;
  r <-! rtt_unmap_drain_and_clear ctx (sro_addr_list sro) g_llt flavor ;;
  let '(yielded, ctx) := r in
  _ <-! on_rmm (h_granule_unlock g_llt) ;;
  if yielded : bool then
    _ <-! on_sro (store_sro i (set_payload ctx)) ;;
    code <-! lift (pack_return_code_incomplete RMI_OP_MEM_REQ_NONE RMI_OP_CANNOT_CANCEL) ;;
    ret (set_x1 0 (set_x0 code res))
  else
    f <-! lift (rtt_unmap_format_result (oaddr_type ctx) (oaddr ctx) (sro_addr_list sro) (cur_base ctx) res) ;;
    _ <-! on_sro (store_sro i (fun c => set_payload (set_g_llt None ctx) (set_addr_list (snd f) c))) ;;
    ret (fst f).

(** The table of callbacks of [runtime/rmi/sro.c]; the entries of other commands are
    a parameter. *)
Definition unmap_handles (others : Z -> option (Z -> smc_result -> U smc_result)) : SroHandlers urmm := {|
  sro_handles id :=
    if (id =? RMI_HANDLER_ID SMC_RMI_RTT_DATA_UNMAP) || (id =? RMI_HANDLER_ID SMC_RMI_RTT_UNPROT_UNMAP)
       || (id =? RMI_HANDLER_ID SMC_RMI_RTT_DEV_UNMAP)
    then Some rtt_unmap_continue_handler else others id
|}.

End Unmap.
