(* ===== verification/RttInv.v ===== *)
(** * The invariant of the RTT commands

    Between commands no granule is locked, every granule in RD state holds a
    descriptor whose contexts share one geometry, and each of the realm's trees
    satisfies the tree invariant; trees do not share tables.  The lemmas here
    are the statements that all RTT commands have in common: finding the RD,
    validating the arguments, walking, invalidating. *)

From Stdlib Require Import ZArith Lia Bool ZifyBool.
From stdpp Require Import base tactics option list numbers gmap.
From S2P Require Import Prelude.
From S2P Require Import Utils.
From S2P Require Import Status.
From S2P Require Import Granule.
From S2P Require Import Mem.
From S2P Require Import Arch.
From S2P Require Import S2tte.
From S2P Require Import S2tteFacts.
From S2P Require Import S2tteProps.
From S2P Require Import S2tlbi.
From S2P Require Import S2ttTable.
From S2P Require Import S2ttWalk.
From S2P Require Import RttFold.
From S2P Require Import RttFoldProps.
From S2P Require Import RttEntry.
From S2P Require Import Realm.
From S2P Require Import RttTree.
From S2P Require Import Rmm.
From S2P Require Import RttCmds.

(** The tree of each translation context: realm descriptor and context index. *)
Abbreviation forest := (gmap (Z * Z) tree).

(** The default permissions exist. *)
Lemma default_ap_some (ctx : s2tt_context) : is_Some (default_protected_ap ctx).
Proof.
  unfold default_protected_ap, s2tte_update_prot_ap. cbn [s2ap_is_ovrl_perm_index_valid]. cbn -[s2tte_get_flattened_ap].
  destruct (indirect_s2ap ctx); [by eexists|]. unfold s2tte_get_flattened_ap.
  assert (Hi : 0 <= S2AP_IND_GET_PERM_VALUE (overlay_perm ctx) S2TTE_DEF_PROT_OVERLAY_IDX < 16).
  { apply (land_range 4); [lia|]. unfold S2AP_PII_MASK. lia. }
  destruct (ovr_encodings !! Z.to_nat (S2AP_IND_GET_PERM_VALUE (overlay_perm ctx) S2TTE_DEF_PROT_OVERLAY_IDX)) as [o|] eqn:Ho.
  - cbn. by eexists.
  - apply lookup_ge_None in Ho. cbn in Ho. lia.
Qed.

Definition set_table (m : mem) (g : Z) (t : list Z) : mem := Mem (descs m) (<[g := t]> (tables m)).

(** Memory after a structure command: parent [gp] and child [gc]. *)
Definition mem_upd (m : mem) (gp : Z) (ap : agranule) (tp : list Z) (gc : Z) (ac : agranule) (tc : list Z) : mem :=
  Mem (<[gp := encode GRN ap]> (<[gc := encode GRN ac]> (descs m)))
      (<[gp := tp]> (<[gc := tc]> (tables m))).

(** ** Statements on granules and tables *)

Lemma runs_on_desc g f a a' w (Q : unit -> rmm -> Prop) :
  descs (r_mem w) !! g = Some (encode GRN a) -> f (encode GRN a) = Some (encode GRN a') ->
  Q tt (with_mem w (set_granule (r_mem w) g a')) -> runs (h_on_desc g f) w Q.
Proof.
  intros Hd Hf HQ. eapply runs_on_mem; [|exact HQ]. unfold on_desc. rewrite Hd.
  cbn [mbind option_bind]. rewrite Hf. done.
Qed.

Lemma runs_write g idx v t t' w (Q : unit -> rmm -> Prop) :
  tables (r_mem w) !! g = Some t -> arr_set t idx v = Some t' ->
  Q tt (with_log (with_mem w (set_table (r_mem w) g t')) [E_write g idx v]) -> runs (s2tte_write g idx v) w Q.
Proof.
  intros Ht Hs HQ. eexists tt, _. split; [|exact HQ]. unfold s2tte_write. rewrite Ht. cbn [mbind option_bind].
  by rewrite Hs.
Qed.

(** Operations on a locked granule's word. *)
Lemma wf_count l s r : 0 <= s < 32 -> 0 <= r <= 1023 -> a_wf GRN (AGranule l s r).
Proof. intros Hs Hr. split; [exact Hs|exact Hr]. Qed.

Lemma inc_locked s r v :
  0 <= s < 32 -> 0 <= r -> 0 <= v -> r + v <= 1023 ->
  granule_refcount_inc (encode GRN (AGranule true s r)) v = Some (encode GRN (AGranule true s (r + v))).
Proof.
  intros Hs Hr Hv Hb. unfold granule_refcount_inc. rewrite refcount_inc_refines by first [by left|apply wf_count; lia|lia].
  cbn [a_locked a_state a_ref andb]. change (REFCOUNT_MAX GRN) with 1023. by rewrite (proj2 (Z.leb_le _ _)) by lia.
Qed.

Lemma dec_locked s r v :
  0 <= s < 32 -> r <= 1023 -> 0 <= v <= r ->
  granule_refcount_dec (encode GRN (AGranule true s r)) v = Some (encode GRN (AGranule true s (r - v))).
Proof.
  intros Hs Hr Hv. unfold granule_refcount_dec. rewrite refcount_dec_refines by first [by left|apply wf_count; lia|lia].
  cbn [a_locked a_state a_ref andb]. by rewrite (proj2 (Z.leb_le _ _)) by lia.
Qed.

Lemma unlock_locked s r :
  0 <= s < 32 -> 0 <= r <= 1023 -> ref_ok s r = true ->
  granule_unlock (encode GRN (AGranule true s r)) = Some (encode GRN (AGranule false s r)).
Proof.
  intros Hs Hr Hok. rewrite granule_unlock_refines by (by apply wf_count). unfold a_unlock.
  cbn [a_locked a_state a_ref andb]. by rewrite Hok.
Qed.

Lemma transition_to_rtt r :
  0 <= r <= 512 ->
  granule_unlock_transition (encode GRN (AGranule true GRANULE_STATE_DELEGATED r)) GRANULE_STATE_RTT
  = Some (encode GRN (AGranule false GRANULE_STATE_RTT r)).
Proof.
  intros Hr. rewrite unlock_transition_refines by first [apply wf_count; (done || lia)|done]. unfold a_unlock.
  cbn [a_locked a_state a_ref a_set andb]. rewrite ref_ok_rtt by lia. done.
Qed.

Lemma rtt_to_delegated :
  granule_unlock_transition_to_delegated (encode GRN (AGranule true GRANULE_STATE_RTT 0))
  = Some (encode GRN (AGranule false GRANULE_STATE_DELEGATED 0)).
Proof. reflexivity. Qed.

Lemma runs_fill g t w (Q : unit -> rmm -> Prop) :
  Q tt (with_mem w (set_table (r_mem w) g t)) -> runs (fill_table g t) w Q.
Proof. intros HQ. by eexists tt, _. Qed.

Lemma arr_set_set {A} (t t1 : list A) j a b : arr_set t j a = Some t1 -> arr_set t1 j b = arr_set t j b.
Proof.
  intros H. pose proof (arr_set_length _ _ _ _ H) as Hlen. unfold arr_set in *. rewrite Hlen. inv_some H. subst t1.
  by rewrite list_insert_insert_eq.
Qed.

Lemma mem_ext (m m' : mem) :
  (forall g, descs m !! g = descs m' !! g) -> (forall g, tables m !! g = tables m' !! g) -> m = m'.
Proof. destruct m, m'; cbn. intros H1 H2. f_equal; by apply map_eq. Qed.

Lemma granule_at_descs m m' g a : descs m' !! g = descs m !! g -> granule_at m g a -> granule_at m' g a.
Proof. intros Hd (H1 & H2 & H3). split_and!; try done. by rewrite Hd. Qed.

(** ** Frames *)

Section Frame.
Context `{feat : ArchFeatures} `{names : GranuleNames}.

(** [m'] is [m] as far as the granules of [T] are concerned. *)
Definition agree (T : tree) (m m' : mem) : Prop :=
  forall g l, T !! g = Some l -> tables m' !! g = tables m !! g /\ descs m' !! g = descs m !! g.

Lemma agree_sym T m m' : agree T m m' -> agree T m' m.
Proof. intros H g l Hg. destruct (H g l Hg) as [-> ->]. done. Qed.

Lemma points_frame ctx m m' T g j c : agree T m m' -> points ctx m' T g j c -> points ctx m T g j c.
Proof.
  intros Ha (l & t & e & pa & Hg & Hl & Ht & Hrest). destruct (Ha g l Hg) as [Heq _]. rewrite Heq in Ht.
  exists l, t, e, pa. tauto.
Qed.

Lemma rtt_inv_frame ctx m m' T : agree T m m' -> rtt_inv ctx m T -> rtt_inv ctx m' T.
Proof.
  intros Ha [Hlv Htb Hnx Huq Hch Hrt Hnm Hpar]. split.
  - exact Hlv.
  - intros g l Hg. destruct (Ha g l Hg). eapply table_ok_frame; eauto.
  - intros g l t j e Hg Ht. destruct (Ha g l Hg) as [Heq _]. rewrite Heq in Ht. eauto.
  - intros g1 j1 g2 j2 c H1 H2. eapply Huq; eapply points_frame; eauto.
  - intros g j c H. eapply Hch, points_frame; eauto.
  - exact Hrt.
  - exact Hnm.
  - intros g l Hg. destruct (Hpar g l Hg) as [|(g' & j & Hp)]; [by left|right]. exists g', j.
    eapply points_frame; [by apply agree_sym|done].
Qed.

Lemma next_table_closed ctx m T g addr i g' :
  rtt_inv ctx m T -> T !! g = Some i -> i < S2TT_PAGE_LEVEL -> next_table ctx m g addr i = Some g' ->
  T !! g' = Some (i + 1).
Proof.
  intros Hinv Hg Hi H. unfold next_table in H. inv_some H.
  match goal with Ht : tables m !! g = Some ?t, He : arr_get ?t ?j = Some ?e, Hb : entry_is_table ?e = true |- _ =>
    destruct (ri_next ctx m T Hinv g i t j e Hg Ht Hi He Hb) as (pa & c & H1 & H2 & H3) end.
  congruence.
Qed.

Lemma pure_walk_frame ctx m m' T addr n :
  rtt_inv ctx m T -> agree T m m' -> forall i g, T !! g = Some i -> i + Z.of_nat n <= 3 ->
  pure_walk ctx m' addr n i g = pure_walk ctx m addr n i g /\
  exists l, T !! fst (pure_walk ctx m addr n i g) = Some l.
Proof.
  intros Hinv Ha. induction n as [|n IH]; intros i g Hg Hb; cbn [pure_walk]; [cbn; eauto|].
  assert (Hn : next_table ctx m' g addr i = next_table ctx m g addr i)
    by (unfold next_table; by destruct (Ha g i Hg) as [-> _]).
  rewrite Hn. destruct (next_table ctx m g addr i) as [g'|] eqn:E; [|cbn; eauto].
  apply IH; [|lia]. eapply next_table_closed; eauto. unfold S2TT_PAGE_LEVEL. lia.
Qed.

Lemma pure_root_tree ctx T addr root :
  roots_ok ctx T -> 0 <= addr < 2 ^ ipa_bits ctx -> 0 <= ipa_bits ctx <= 52 -> -1 <= s2_starting_level ctx <= 3 ->
  addr / 2 ^ ((3 - s2_starting_level ctx) * 9 + 12) / 512 < num_root_rtts ctx ->
  pure_root ctx addr = Some root -> T !! root = Some (s2_starting_level ctx).
Proof.
  intros (ra & Hra & Hrr & _ & Hroots) Ha Hb Hs Hn H.
  destruct (sl_idx_range addr _ _ Ha Hb Hs) as [Hsl Hslr].
  unfold pure_root in H. rewrite (granule_names_inverse _ _ Hra) in H. cbn [mbind option_bind] in H.
  rewrite Hsl in H. destruct (Hroots (addr / 2 ^ ((3 - s2_starting_level ctx) * 9 + 12) / 512)) as (g & Hg & HT).
  { split; [|done]. apply Z.div_pos; [|lia]. rewrite <- Hsl. lia. }
  congruence.
Qed.

(** The root a context's addresses start from is in the tree. *)
Lemma ctx_root ctx lpa2 T addr root :
  ctx_ok ctx lpa2 -> roots_ok ctx T -> 0 <= addr < 2 ^ ipa_bits ctx -> pure_root ctx addr = Some root ->
  T !! root = Some (s2_starting_level ctx).
Proof.
  intros [Hl Hb Hs _ Hf] Hr Ha H. eapply pure_root_tree; eauto; destruct lpa2; lia.
Qed.

(** Updates outside a tree do not change its translations. *)
Lemma translate_frame ctx lpa2 m m' T addr :
  ctx_ok ctx lpa2 -> rtt_inv ctx m T -> agree T m m' -> 0 <= addr < 2 ^ ipa_bits ctx ->
  translate ctx m' addr = translate ctx m addr.
Proof.
  intros Hc Hinv Ha Had. unfold translate. destruct (pure_root ctx addr) as [root|] eqn:Hroot; [|done].
  cbn [mbind option_bind]. pose proof (ctx_root _ _ _ _ _ Hc (ri_roots _ _ _ Hinv) Had Hroot) as Hr.
  pose proof (ctx_level _ _ Hc) as Hs. assert (-1 <= s2_starting_level ctx <= 3) by (destruct lpa2; lia).
  unfold S2TT_PAGE_LEVEL.
  destruct (pure_walk_frame ctx m m' T addr (Z.to_nat (3 - s2_starting_level ctx)) Hinv Ha _ root Hr ltac:(lia))
    as [-> [l Hl]].
  destruct (pure_walk _ _ _ _ _ _) as [g i]. cbn [fst] in Hl. by destruct (Ha g l Hl) as [-> _].
Qed.

End Frame.

(** ** Realm descriptors *)

Section RealmOk.
Context `{feat : ArchFeatures}.
Implicit Types (rd : rd) (ctx : s2tt_context).

(** A realm whose contexts share one geometry; with a tree per plane there is no
    indirect permission scheme. *)
Record rd_ok rd (lpa2 : bool) (bits sl : Z) : Prop := {
  rd_planes : 0 <= num_aux_planes rd <= MAX_AUX_PLANES;
  rd_ctxs : Z.of_nat (length (s2_ctxs rd)) = MAX_TOTAL_PLANES;
  rd_ctx_ok : forall i ctx, 0 <= i < realm_num_planes rd -> arr_get (s2_ctxs rd) i = Some ctx ->
    ctx_ok ctx lpa2 /\ ipa_bits ctx = bits /\ s2_starting_level ctx = sl /\
    s2oa_limit ctx <= 2 ^ oa_bits lpa2 /\ (rtt_tree_pp rd = true -> indirect_s2ap ctx = false)
}.

Lemma num_planes_eq rd lpa2 bits sl :
  rd_ok rd lpa2 bits sl -> realm_num_planes rd = num_aux_planes rd + 1 /\ 1 <= realm_num_planes rd <= 4.
Proof.
  intros [Hp _ _]. unfold MAX_AUX_PLANES in Hp. unfold realm_num_planes, u32. rewrite Z.mod_small; lia.
Qed.

Lemma rd_get_ctx rd lpa2 bits sl i :
  rd_ok rd lpa2 bits sl -> 0 <= i < realm_num_planes rd -> exists ctx, arr_get (s2_ctxs rd) i = Some ctx.
Proof.
  intros Hr Hi. pose proof (num_planes_eq _ _ _ _ Hr) as [_ Hn]. destruct Hr as [_ Hc _].
  unfold MAX_TOTAL_PLANES, MAX_AUX_PLANES in Hc. apply arr_get_some. lia.
Qed.

Lemma rd_plane rd lpa2 bits sl i :
  rd_ok rd lpa2 bits sl -> 0 <= i < realm_num_planes rd ->
  let j := (i + 1) mod realm_num_planes rd in
  exists ctx, plane_to_s2_context rd i = Some ctx /\ arr_get (s2_ctxs rd) j = Some ctx /\ 0 <= j < realm_num_planes rd.
Proof.
  intros Hr Hi j. pose proof (num_planes_eq _ _ _ _ Hr) as [_ Hn].
  assert (Hj : 0 <= j < realm_num_planes rd) by (apply Z.mod_pos_bound; lia).
  destruct (rd_get_ctx _ _ _ _ j Hr Hj) as [ctx Hctx]. exists ctx. split_and!; try done; try lia.
  unfold plane_to_s2_context. rewrite (proj2 (Z.ltb_lt _ _)) by lia.
  assert (u32 (i + 1) = i + 1) as -> by (unfold u32; apply Z.mod_small; lia). done.
Qed.

(** What the helpers of [realm.h] return. *)
Lemma rd_sizes rd lpa2 bits sl :
  rd_ok rd lpa2 bits sl -> 0 <= bits <= oa_bits lpa2 /\
  realm_ipa_size rd = Some (2 ^ bits) /\ realm_rtt_starting_level rd = Some sl /\
  forall addr, addr_in_par rd addr = Some (addr <? Z.shiftr (2 ^ bits) 1).
Proof.
  intros Hr. pose proof (num_planes_eq _ _ _ _ Hr) as [_ Hn].
  destruct (rd_plane rd lpa2 bits sl 0 Hr ltac:(lia)) as (ctx & Hp & Hc & Hj).
  destruct (rd_ctx_ok _ _ _ _ Hr _ _ Hj Hc) as ([Hl Hb Hs _ _] & Hbits & Hsl & _).
  assert (H52 : 0 <= bits <= oa_bits lpa2) by (unfold oa_bits; destruct lpa2; lia).
  assert (Hsz : realm_ipa_size rd = Some (2 ^ bits)).
  { unfold realm_ipa_size, realm_ipa_bits, PLANE_0_ID. rewrite Hp. cbn [fmap option_fmap option_map].
    rewrite Hbits. f_equal. unfold shl64. rewrite Z.shiftl_mul_pow2, Z.mul_1_l by lia. apply u64_small. unfold in_u64.
    assert (2 ^ bits <= 2 ^ 52) by (apply Z.pow_le_mono_r; unfold oa_bits in H52; destruct lpa2; lia). lia. }
  split_and!; try done; try lia.
  - unfold realm_rtt_starting_level, PLANE_0_ID. rewrite Hp. cbn. by rewrite Hsl.
  - intros addr. unfold addr_in_par, realm_par_size. by rewrite Hsz.
Qed.

Lemma aligned_total ctx lpa2 addr level :
  s2tt_lpa2_enabled ctx = Some lpa2 -> (if lpa2 then -1 else 0) <= level <= 3 ->
  exists b, s2tte_is_addr_lvl_aligned ctx addr level = Some b.
Proof.
  intros Hl Hlv. unfold s2tte_is_addr_lvl_aligned, S2TT_PAGE_LEVEL, S2TT_MIN_STARTING_LEVEL_LPA2,
    S2TT_MIN_STARTING_LEVEL. rewrite Hl. cbn [mbind option_bind]. rewrite (proj2 (Z.leb_le level 3)) by lia.
  replace ((if lpa2 then -1 else 0) <=? level) with true by (destruct lpa2; lia). by eexists.
Qed.

Lemma map_addr_valid rd lpa2 bits sl addr level :
  rd_ok rd lpa2 bits sl -> 0 <= addr -> sl <= level <= 3 ->
  exists b, validate_map_addr addr level rd = Some b /\
    (b = true -> addr < 2 ^ bits /\ (s2tte_map_size level | addr)).
Proof.
  intros Hr Ha Hlv. destruct (rd_sizes _ _ _ _ Hr) as (Hb & Hsz & _).
  pose proof (num_planes_eq _ _ _ _ Hr) as [_ Hn].
  destruct (rd_get_ctx _ _ _ _ 0 Hr ltac:(lia)) as [ctx Hc].
  destruct (rd_ctx_ok _ _ _ _ Hr _ _ ltac:(split; [reflexivity|]; lia) Hc) as ([Hl _ Hs _ _] & _ & Hsl & _).
  unfold validate_map_addr, PRIMARY_S2_CTX_ID, PLANE_0_ID. rewrite Hsz. cbn [mbind option_bind].
  destruct (Z.ltb_spec addr (2 ^ bits)); [|by eexists]. rewrite Hc. cbn [mbind option_bind].
  destruct (aligned_total ctx lpa2 addr level Hl ltac:(destruct lpa2; lia)) as [b Hal]. exists b. split; [done|].
  intros ->. apply (addr_lvl_aligned_arith _ lpa2) in Hal; [|done]. tauto.
Qed.

Lemma structure_valid rd lpa2 bits sl addr level :
  rd_ok rd lpa2 bits sl -> 0 <= addr ->
  exists b, validate_rtt_structure_cmds addr level rd = Some b /\
    (b = true -> sl + 1 <= level <= 3 /\ addr < 2 ^ bits /\ (s2tte_map_size (level - 1) | addr)).
Proof.
  intros Hr Ha. destruct (rd_sizes _ _ _ _ Hr) as (_ & _ & Hsl & _). unfold validate_rtt_structure_cmds, S2TT_PAGE_LEVEL.
  rewrite Hsl. cbn [mbind option_bind]. destruct (_ || _) eqn:Hb; [by eexists|].
  destruct (map_addr_valid rd lpa2 bits sl addr (level - 1) Hr Ha ltac:(lia)) as (b & Hv & Hok).
  exists b. split; [done|]. intros Hbt. destruct (Hok Hbt). split_and!; try done; lia.
Qed.

Lemma entry_valid rd lpa2 bits sl addr level :
  rd_ok rd lpa2 bits sl -> 0 <= addr ->
  exists b, validate_rtt_entry_cmds addr level rd = Some b /\
    (b = true -> sl <= level <= 3 /\ addr < 2 ^ bits /\ (s2tte_map_size level | addr)).
Proof.
  intros Hr Ha. destruct (rd_sizes _ _ _ _ Hr) as (_ & _ & Hsl & _). unfold validate_rtt_entry_cmds, S2TT_PAGE_LEVEL.
  rewrite Hsl. cbn [mbind option_bind]. destruct (_ || _) eqn:Hb; [by eexists|].
  destruct (map_addr_valid rd lpa2 bits sl addr level Hr Ha ltac:(lia)) as (b & Hv & Hok).
  exists b. split; [done|]. intros Hbt. destruct (Hok Hbt). split_and!; try done; lia.
Qed.

(** The context a structure command selects: 0, or the index of the AUX command. *)
Definition cmd_index (aux : bool) (index : Z) : Z := if aux then index else PRIMARY_S2_CTX_ID.

Lemma cmd_ctx rd lpa2 bits sl aux idx addr :
  rd_ok rd lpa2 bits sl -> 0 <= idx ->
  exists sel, structure_cmd_ctx rd aux idx addr = Some sel /\
    forall ctx, sel = Some ctx ->
      0 <= cmd_index aux idx < realm_num_s2_rtts rd /\ arr_get (s2_ctxs rd) (cmd_index aux idx) = Some ctx.
Proof.
  intros Hr Hi. destruct (rd_sizes _ _ _ _ Hr) as (_ & _ & _ & Hpar). pose proof (num_planes_eq _ _ _ _ Hr) as [_ Hn].
  unfold structure_cmd_ctx, cmd_index, PRIMARY_S2_CTX_ID, PLANE_0_ID, realm_num_s2_rtts, realm_num_s2_contexts. destruct aux.
  - unfold validate_aux_rtt_args, realm_num_s2_contexts. rewrite Hpar. cbn [mbind option_bind].
    match goal with |- context [if ?b then _ else Some None] => destruct b eqn:Hb end; [|by eexists].
    destruct (rd_get_ctx _ _ _ _ idx Hr ltac:(lia)) as [ctx Hc]. rewrite Hc. cbn [mbind option_bind].
    eexists. split; [done|]. intros ? [= <-]. split; [|done].
    destruct (rtt_tree_pp rd); [lia|]. cbn in Hb. lia.
  - destruct (rd_get_ctx _ _ _ _ 0 Hr ltac:(lia)) as [ctx Hc]. rewrite Hc. cbn [mbind option_bind].
    eexists. split; [done|]. intros ? [= <-]. split; [|done]. destruct (rtt_tree_pp rd); lia.
Qed.

(** A context that has a tree is one of the planes'. *)
Lemma rtts_planes rd lpa2 bits sl i :
  rd_ok rd lpa2 bits sl -> 0 <= i < realm_num_s2_rtts rd -> 0 <= i < realm_num_planes rd.
Proof.
  intros Hr. pose proof (num_planes_eq _ _ _ _ Hr) as [_ Hn]. unfold realm_num_s2_rtts, realm_num_s2_contexts.
  destruct (rtt_tree_pp rd); lia.
Qed.

(** ** VMIDs *)

Lemma plane_vmids_ok rd lpa2 bits sl n i :
  rd_ok rd lpa2 bits sl -> 0 <= i -> i + Z.of_nat n <= realm_num_planes rd ->
  exists vs, plane_vmids rd n i = Some vs /\ length vs = n /\
    forall j, i <= j < i + Z.of_nat n -> exists ctx, plane_to_s2_context rd j = Some ctx /\ vmid ctx ∈ vs.
Proof.
  intros Hr. revert i. induction n as [|n IH]; intros i Hi Hn; cbn [plane_vmids].
  { eexists. split_and!; try done. intros j Hj. lia. }
  destruct (rd_plane _ _ _ _ i Hr ltac:(lia)) as (ctx & Hp & _). rewrite Hp. cbn [mbind option_bind].
  destruct (IH (i + 1) ltac:(lia) ltac:(lia)) as (vs & -> & Hlen & Hall). cbn [mbind option_bind].
  eexists. split; [done|]. split; [cbn; lia|]. intros j Hj. destruct (decide (j = i)) as [->|].
  - exists ctx. split; [done|left].
  - destruct (Hall j ltac:(lia)) as (c & Hc & Hin). exists c. split; [done|by right].
Qed.

(** The VMIDs under which translations of the entry may be cached: those of all
    planes when the planes share the table, otherwise the context's own. *)
Definition vmids_complete rd ctx (ns : bool) (vs : list Z) : Prop :=
  if ns || indirect_s2ap ctx
  then forall i c, 0 <= i < realm_num_planes rd -> arr_get (s2_ctxs rd) i = Some c -> vmid c ∈ vs
  else vs = [vmid ctx].

Lemma vmids_ok rd lpa2 bits sl ctx i ns :
  rd_ok rd lpa2 bits sl -> 0 <= i < realm_num_planes rd -> arr_get (s2_ctxs rd) i = Some ctx ->
  exists vs, rtt_tlbi_vmids rd ctx ns = Some vs /\ vs <> [] /\ vmids_complete rd ctx ns vs.
Proof.
  intros Hr Hi Hc. pose proof (num_planes_eq _ _ _ _ Hr) as [_ Hn].
  destruct (rd_ctx_ok _ _ _ _ Hr i ctx Hi Hc) as (_ & _ & _ & _ & Hind).
  unfold rtt_tlbi_vmids, vmids_complete. destruct (ns || indirect_s2ap ctx) eqn:Hb; [|by eexists].
  assert (negb (indirect_s2ap ctx) || negb (rtt_tree_pp rd) = true) as ->
    by (destruct (rtt_tree_pp rd); [by rewrite Hind|by rewrite orb_true_r]).
  rewrite (proj2 (Z.leb_le _ MAX_TOTAL_PLANES)) by (unfold MAX_TOTAL_PLANES, MAX_AUX_PLANES; lia).
  destruct (plane_vmids_ok rd lpa2 bits sl (Z.to_nat (realm_num_planes rd)) 0 Hr ltac:(lia) ltac:(lia))
    as (vs & Hv & Hlen & Hall). exists vs. split; [done|]. split; [intros ->; cbn in Hlen; lia|].
  intros j c Hj Hcj. destruct (Hall ((j - 1) mod realm_num_planes rd)) as (c' & Hc' & Hin).
  { rewrite Z2Nat.id by lia. pose proof (Z.mod_pos_bound (j - 1) (realm_num_planes rd)). lia. }
  destruct (rd_plane rd lpa2 bits sl ((j - 1) mod realm_num_planes rd) Hr) as (c2 & Hp2 & Hg2 & _).
  { apply Z.mod_pos_bound. lia. }
  rewrite Z.add_mod_idemp_l in Hg2 by lia. replace (j - 1 + 1) with j in Hg2 by lia.
  rewrite Z.mod_small in Hg2 by lia. assert (c' = c) as -> by congruence. done.
Qed.

End RealmOk.

(** ** Invalidations *)

Section Invalidate.
Context `{feat : ArchFeatures} `{smmu : SmmuDriver}.
Context (smmu_ok : forall vs addr level num leaf, smmuv3_inv_at_level_per_vmids vs addr level num leaf = 0).
Implicit Types (rd : rd) (ctx : s2tt_context).

(** The events of one invalidation of [size] bytes at [addr]: TLB maintenance
    that names every granule of the range (or everything, for a range above 1GB)
    under a complete list of VMIDs and leaves VTTBR_EL2 as it was, and the same
    for the SMMUs of a realm with devices. *)
Definition flushes rd ctx (vttbr addr size level num : Z) (leaf : bool) (evs : list event) : Prop :=
  exists in_par lpa2 vs ops,
    addr_in_par rd addr = Some in_par /\ s2tt_lpa2_enabled ctx = Some lpa2 /\ vmids_complete rd ctx (negb in_par) vs /\
    (forall cur, invalidated lpa2 cur ops = concat (map (vmid_expected addr size) vs) /\ final_vttbr cur ops = vttbr) /\
    evs = E_tlbi ops :: (if da_enabled rd then [E_smmu vs addr level num leaf] else []).

Lemma with_log_nil w : with_log w [] = w.
Proof. destruct w. unfold with_log. cbn. by rewrite app_nil_r. Qed.
Lemma with_log_app w a b : with_log (with_log w a) b = with_log w (a ++ b).
Proof. destruct w. unfold with_log. cbn. by rewrite app_assoc. Qed.

Lemma smmu_invalidate_ok rd vs addr level num leaf w (Q : unit -> rmm -> Prop) :
  Q tt (with_log w (if da_enabled rd then [E_smmu vs addr level num leaf] else [])) ->
  runs (smmu_invalidate rd vs addr level num leaf) w Q.
Proof.
  intros HQ. unfold smmu_invalidate. destruct (da_enabled rd).
  - apply runs_bind, runs_emit, runs_guard; [by rewrite smmu_ok|done].
  - apply runs_ret. by rewrite with_log_nil in HQ.
Qed.

Lemma aligned_granule addr level :
  -1 <= level <= 3 -> (s2tte_map_size level | addr) -> ALIGNED addr GRANULE_SIZE = true.
Proof.
  intros Hlv Hd. apply ALIGNED_spec; [done|]. etransitivity; [|exact Hd]. rewrite s2tte_map_size_eq by done.
  change GRANULE_SIZE with (2 ^ 12). exists (2 ^ ((3 - level) * 9)). rewrite <- Z.pow_add_r by lia. f_equal; lia.
Qed.

(** An aligned range that starts below the top ends at or below it. *)
Lemma range_top (lpa2 : bool) addr level bits :
  0 <= addr < 2 ^ bits -> 0 <= bits <= oa_bits lpa2 -> (if lpa2 then -1 else 0) <= level <= 3 ->
  (s2tte_map_size level | addr) -> addr + s2tte_map_size level <= 2 ^ oa_bits lpa2.
Proof.
  intros Ha Hb Hlv Hd. rewrite s2tte_map_size_eq in * by (destruct lpa2; lia).
  set (k := (3 - level) * 9 + 12) in *. assert (Hk : 0 <= k <= 48) by (destruct lpa2; lia).
  assert (Hob : k <= oa_bits lpa2) by (unfold oa_bits; destruct lpa2; lia).
  assert (H2 : addr < 2 ^ oa_bits lpa2)
    by (assert (2 ^ bits <= 2 ^ oa_bits lpa2) by (apply Z.pow_le_mono_r; lia); lia).
  assert (Hsplit : 2 ^ oa_bits lpa2 = 2 ^ k * 2 ^ (oa_bits lpa2 - k)) by (rewrite <- Z.pow_add_r by lia; f_equal; lia).
  destruct Hd as [q ->]. assert (0 < 2 ^ k) by (apply Z.pow_pos_nonneg; lia).
  rewrite Hsplit in *. replace (q * 2 ^ k + 2 ^ k) with (2 ^ k * (q + 1)) by lia.
  apply Z.mul_le_mono_nonneg_l; [lia|]. rewrite (Z.mul_comm q) in H2. apply Z.mul_lt_mono_pos_l in H2; lia.
Qed.

Lemma map_size_ge level : -1 <= level <= 3 -> GRANULE_SIZE <= s2tte_map_size level /\ ALIGNED (s2tte_map_size level) GRANULE_SIZE = true.
Proof. intros. level_cases level; (split; [vm_compute; congruence|reflexivity]). Qed.

(** Both kinds of invalidation, for the entry at [level] that covers [addr]. *)
Lemma invalidate_ok rd lpa2 bits sl i ctx addr level (whole : bool) lv (leaf : bool) w (Q : unit -> rmm -> Prop) :
  rd_ok rd lpa2 bits sl -> 0 <= i < realm_num_planes rd -> arr_get (s2_ctxs rd) i = Some ctx ->
  0 <= addr < 2 ^ bits -> (if lpa2 then -1 else 0) <= level <= 3 -> (s2tte_map_size level | addr) ->
  (whole = true -> lv = level + 1) ->
  (forall evs, flushes rd ctx (r_vttbr w) addr (if whole then s2tte_map_size level else GRANULE_SIZE)
     (if whole then lv else if leaf then lv else S2TT_PAGE_LEVEL) (if whole then S2TTES_PER_S2TT else 1)
     (if whole then false else leaf) evs -> Q tt (with_log w evs)) ->
  runs (if whole then invalidate_pages_in_block ctx rd addr lv else invalidate_page_block ctx rd addr lv leaf) w Q.
Proof.
  intros Hr Hi Hc Ha Hlv Hd Hwh HQ. destruct (rd_sizes _ _ _ _ Hr) as (Hb & _ & _ & Hpar).
  assert (Hlv1 : -1 <= level <= 3) by (destruct lpa2; lia).
  destruct (rd_ctx_ok _ _ _ _ Hr i ctx Hi Hc) as ([Hl _ _ _ _] & _).
  pose proof (range_top lpa2 addr level bits Ha Hb Hlv Hd) as Htop. destruct (map_size_ge level Hlv1) as [Hge Hal].
  pose proof (aligned_granule addr level Hlv1 Hd) as Haa.
  destruct (vmids_ok rd lpa2 bits sl ctx i (negb (addr <? Z.shiftr (2 ^ bits) 1)) Hr Hi Hc) as (vs & Hvs & Hne & Hcomp).
  assert (Hseq : exists ops, stage2_tlbi_ipa_per_vmids (r_vttbr w) lpa2 vs addr
      (if whole then s2tte_map_size level else GRANULE_SIZE) = Some ops /\
    forall cur, invalidated lpa2 cur ops =
      concat (map (vmid_expected addr (if whole then s2tte_map_size level else GRANULE_SIZE)) vs) /\
      final_vttbr cur ops = r_vttbr w).
  { assert (0 < GRANULE_SIZE) by done. unfold oa_bits in Htop.
    apply per_vmids_ok; try done; destruct whole; try done; lia. }
  destruct Hseq as (ops & Hops & Hinv).
  unfold invalidate_pages_in_block, invalidate_page_block, s2tt_invalidate_pages_in_block_per_vmids,
    s2tt_invalidate_page_block_per_vmids.
  destruct whole; [rewrite (Hwh eq_refl) in *; replace (level + 1 - 1) with level by lia|].
  all: eapply runs_bind, runs_lift; [apply Hpar|]; eapply runs_bind, runs_lift; [exact Hvs|];
       eapply runs_bind, runs_lift; [exact Hl|]; eapply runs_bind, runs_get; [exact Hops|];
       eapply runs_bind, runs_emit; apply smmu_invalidate_ok; rewrite with_log_app; apply HQ;
       eexists _, lpa2, vs, ops; split_and!; try done; apply Hpar.
Qed.

End Invalidate.

(** ** The world *)

Section World.
Context `{feat : ArchFeatures} `{lookup : GranuleLookup}.
Implicit Types (w : rmm) (F : forest) (rd : rd) (ctx : s2tt_context) (T : tree).

Definition granule_ok (m : mem) (g : Z) : Prop :=
  (exists a, granule_at m g a /\ a_locked a = false) /\
  exists t, tables m !! g = Some t /\ length t = N_S2TTES.

(** Realm [g] with descriptor [rd] owns tree [T] for its context [i], [ctx]. *)
Record owns w (g i : Z) rd ctx T : Prop := {
  own_rd : r_rds w !! g = Some rd;
  own_index : 0 <= i < realm_num_s2_rtts rd;
  own_ctx : arr_get (s2_ctxs rd) i = Some ctx;
  own_ok : exists lpa2 bits sl, rd_ok rd lpa2 bits sl;
  own_tree : rtt_inv ctx (r_mem w) T
}.

Record inv w F : Prop := {
  inv_granule : forall addr g, tr_addr_to_granule addr = Some g -> granule_ok (r_mem w) g;
  inv_rd : forall g r, granule_at (r_mem w) g (AGranule false GRANULE_STATE_RD r) ->
    exists rd lpa2 bits sl, r_rds w !! g = Some rd /\ rd_ok rd lpa2 bits sl /\
      forall i, 0 <= i < realm_num_s2_rtts rd -> exists T, F !! (g, i) = Some T;
  inv_own : forall g i T, F !! (g, i) = Some T -> exists rd ctx, owns w g i rd ctx T;
  inv_disjoint : forall k1 k2 T1 T2 g l1 l2,
    F !! k1 = Some T1 -> F !! k2 = Some T2 -> T1 !! g = Some l1 -> T2 !! g = Some l2 -> k1 = k2
}.

(** Tables are in RTT state, so no granule in another state is one. *)
Lemma not_in_tree ctx m T g a :
  rtt_inv ctx m T -> granule_at m g a -> a_state a <> GRANULE_STATE_RTT -> T !! g = None.
Proof.
  intros Hinv Ha Hs. destruct (T !! g) as [l|] eqn:E; [|done]. exfalso.
  destruct (ri_table _ _ _ Hinv g l E) as (t & _ & _ & Hg & _). by rewrite (granule_at_inj _ _ _ _ Ha Hg) in Hs.
Qed.

Lemma with_lock_agree T m g : T !! g = None -> agree T m (with_lock m g).
Proof.
  intros Hg x l Hx. split; [done|]. cbn [with_lock descs]. rewrite lookup_alter_ne; [done|congruence].
Qed.

(** The tree of a context of a realm. *)
Lemma realm_tree w F g rd i ctx :
  inv w F -> r_rds w !! g = Some rd ->
  (forall i, 0 <= i < realm_num_s2_rtts rd -> exists T, F !! (g, i) = Some T) ->
  0 <= i < realm_num_s2_rtts rd -> arr_get (s2_ctxs rd) i = Some ctx ->
  exists T, F !! (g, i) = Some T /\ owns w g i rd ctx T.
Proof.
  intros Hinv Hrd HF Hi Hc. destruct (HF i Hi) as [T HT]. exists T. split; [done|].
  destruct (inv_own _ _ Hinv _ _ _ HT) as (rd' & ctx' & Hown). pose proof Hown as [H1 _ H2 _ _].
  assert (rd' = rd) as -> by congruence. by assert (ctx' = ctx) as -> by congruence.
Qed.

(** ** Finding and locking the RD *)

(** The RD command argument [rd_addr] names granule [g], in RD state. *)
Definition names_rd w (rd_addr g : Z) : Prop :=
  tr_addr_to_granule rd_addr = Some g /\ exists r, granule_at (r_mem w) g (AGranule false GRANULE_STATE_RD r).

(** The lookup of [addr] in [state] reports [st]. *)
Definition lookup_refuses w (addr state st : Z) : Prop :=
  find_lock_fine_granule addr state (r_mem w) = Some ((st, None), r_mem w).

Lemma lock_rd w F rd_addr (Q : Z * option Z -> rmm -> Prop) :
  inv w F ->
  (forall status, status <> RMI_SUCCESS -> lookup_refuses w rd_addr GRANULE_STATE_RD status -> Q (status, None) w) ->
  (forall g, names_rd w rd_addr g -> Q (RMI_SUCCESS, Some g) (with_mem w (with_lock (r_mem w) g))) ->
  runs (on_mem (find_lock_fine_granule rd_addr GRANULE_STATE_RD)) w Q.
Proof.
  intros Hinv Herr Hok.
  assert (Hrun : forall x m, find_lock_fine_granule rd_addr GRANULE_STATE_RD (r_mem w) = Some (x, m) ->
    Q x (with_mem w m) -> runs (on_mem (find_lock_fine_granule rd_addr GRANULE_STATE_RD)) w Q)
    by (intros; eapply runs_on_mem; eauto).
  destruct (find_lock_fine_spec rd_addr) as [(st & Hst & Hf)|(g & Hg & Hf)].
  { eapply Hrun; [apply Hf|]. rewrite with_mem_id. apply Herr; [done|apply Hf]. }
  destruct (inv_granule _ _ Hinv _ _ Hg) as ((a & Ha & Hl) & _).
  pose proof (Hf (r_mem w) GRANULE_STATE_RD a Ha) as Hrn. rewrite Hl in Hrn.
  destruct (Z.eqb_spec (a_state a) GRANULE_STATE_RD) as [Hs|]; cbn [negb] in Hrn.
  - eapply Hrun; [exact Hrn|]. apply Hok. split; [done|]. exists (a_ref a).
    destruct a; cbn in *; by subst.
  - eapply Hrun; [exact Hrn|]. rewrite with_mem_id. by apply Herr.
Qed.

Lemma unlock_rd w rd_addr g x (Q : unit -> rmm -> Prop) :
  names_rd w rd_addr g -> Q tt w -> x = with_mem w (with_lock (r_mem w) g) -> runs (h_granule_unlock g) x Q.
Proof.
  intros (_ & r & Hg) HQ ->. eapply runs_on_mem; [|].
  - cbn [r_mem with_mem]. by apply (with_lock_unlock (r_mem w) g (AGranule false GRANULE_STATE_RD r)).
  - rewrite with_mem_mem, with_mem_id. done.
Qed.

(** ** Locking the root and walking *)

(** What the commands know after the walk towards table level [level]. *)
Record walked w (ctx : s2tt_context) T (addr level : Z) (wi : s2tt_walk) : Prop := {
  wk_root : exists root, pure_root ctx addr = Some root /\
    (g_llt wi, last_level wi) = pure_walk ctx (r_mem w) addr
      (Z.to_nat (level - s2_starting_level ctx)) (s2_starting_level ctx) root;
  wk_index : index wi = s2_addr_to_idx addr (last_level wi) /\ 0 <= index wi < S2TTES_PER_S2TT;
  wk_tree : T !! g_llt wi = Some (last_level wi);
  wk_level : s2_starting_level ctx <= last_level wi <= level;
  wk_stop : last_level wi < level -> next_table ctx (r_mem w) (g_llt wi) addr (last_level wi) = None
}.

Lemma lock_walk {A} w g_rd ctx lpa2 T addr level (K : s2tt_walk -> H A) (Q : A -> rmm -> Prop) :
  ctx_ok ctx lpa2 -> rtt_inv ctx (r_mem w) T -> T !! g_rd = None ->
  0 <= addr < 2 ^ ipa_bits ctx -> s2_starting_level ctx <= level <= 3 ->
  (forall wi, walked w ctx T addr level wi ->
     runs (K wi) (with_mem w (with_lock (with_lock (r_mem w) g_rd) (g_llt wi))) Q) ->
  runs (_ <-! h_granule_lock (g_rtt ctx) GRANULE_STATE_RTT ;;
        wi <-! on_mem (s2tt_walk_lock_unlock ctx addr level) ;; K wi)
    (with_mem w (with_lock (r_mem w) g_rd)) Q.
Proof.
  intros Hc Hinv Hrd Ha Hlv HQ. pose proof (rtt_inv_tree _ _ _ Hinv) as Ht.
  pose proof (tree_ok_with_lock _ _ _ _ Ht Hrd) as Ht1.
  assert (Hr0 : T !! g_rtt ctx = Some (s2_starting_level ctx)) by (by destruct (ri_roots _ _ _ Hinv) as (ra & _ & _ & H & _)).
  apply runs_bind. eapply runs_on_mem; [eapply lock_table; [exact Ht1|exact Hr0]|]. apply runs_bind.
  destruct (walk_ok ctx (with_lock (r_mem w) g_rd) T addr level lpa2 Hc Ht1 (ri_roots _ _ _ Hinv) Ha Hlv)
    as (root & wi & Hw & Hroot & Hpw & Hidx & Hir & HT & Hll & Hstop).
  eapply runs_on_mem; [exact Hw|]. rewrite !with_mem_mem. apply HQ. split; try done.
  exists root. split; [done|]. by rewrite Hpw, (pure_walk_tables ctx _ (r_mem w)).
Qed.

(** Release of a table locked on top of the RD. *)
Lemma unlock_llt w g_rd ctx T g l x (Q : unit -> rmm -> Prop) :
  rtt_inv ctx (r_mem w) T -> T !! g_rd = None -> T !! g = Some l ->
  x = with_mem w (with_lock (with_lock (r_mem w) g_rd) g) ->
  Q tt (with_mem w (with_lock (r_mem w) g_rd)) -> runs (h_granule_unlock g) x Q.
Proof.
  intros Hinv Hrd Hg -> HQ. pose proof (tree_ok_with_lock _ _ _ _ (rtt_inv_tree _ _ _ Hinv) Hrd) as Ht1.
  eapply runs_on_mem; [eapply unlock_table; [exact Ht1|exact Hg]|]. done.
Qed.

(** ** Updates of one tree *)

Lemma mem_upd_other m gp ap tp gc ac tc x :
  x <> gp -> x <> gc ->
  descs (mem_upd m gp ap tp gc ac tc) !! x = descs m !! x /\
  tables (mem_upd m gp ap tp gc ac tc) !! x = tables m !! x.
Proof. intros H1 H2. cbn. by rewrite !lookup_insert_ne by done. Qed.

Lemma mem_upd_parent m gp ap tp gc ac tc :
  descs (mem_upd m gp ap tp gc ac tc) !! gp = Some (encode GRN ap) /\
  tables (mem_upd m gp ap tp gc ac tc) !! gp = Some tp.
Proof. cbn. by rewrite !lookup_insert_eq. Qed.

Lemma mem_upd_child m gp ap tp gc ac tc :
  gp <> gc ->
  descs (mem_upd m gp ap tp gc ac tc) !! gc = Some (encode GRN ac) /\
  tables (mem_upd m gp ap tp gc ac tc) !! gc = Some tc.
Proof. intros H. split; cbn; rewrite lookup_insert_ne by done; apply lookup_insert_eq. Qed.

(** A structure command changes its own tree's parent and child only; the
    invariant needs the tree invariant of the new tree. *)
Lemma inv_upd w w' F g i rd ctx T T' gp lp rp tp gc ac tc :
  inv w F -> F !! (g, i) = Some T -> owns w g i rd ctx T ->
  r_rds w' = r_rds w ->
  r_mem w' = mem_upd (r_mem w) gp (AGranule false GRANULE_STATE_RTT rp) tp gc ac tc ->
  T !! gp = Some lp -> gp <> gc ->
  (forall k T0 l, F !! k = Some T0 -> T0 !! gc = Some l -> k = (g, i)) ->
  0 <= rp <= 512 -> length tp = N_S2TTES -> length tc = N_S2TTES ->
  a_wf GRN ac -> ref_ok (a_state ac) (a_ref ac) = true -> a_locked ac = false -> a_state ac <> GRANULE_STATE_RD ->
  (forall x l, T' !! x = Some l -> x = gc \/ exists l', T !! x = Some l') ->
  rtt_inv ctx (r_mem w') T' -> inv w' (<[(g, i) := T']> F).
Proof.
  intros Hinv HF Hown Hrds Hmem Hgp Hne Hgc Hrp Hltp Hltc Hwf Hrok Hul Hst Hsub HT'.
  assert (Hap : granule_at (r_mem w') gp (AGranule false GRANULE_STATE_RTT rp)).
  { rewrite Hmem. split; [apply mem_upd_parent|]. split; [apply wf_count; (done || lia)|by apply ref_ok_rtt]. }
  assert (Hac : granule_at (r_mem w') gc ac) by (rewrite Hmem; split; [by apply mem_upd_child|done]).
  assert (Hoth : forall x, x <> gp -> x <> gc ->
    descs (r_mem w') !! x = descs (r_mem w) !! x /\ tables (r_mem w') !! x = tables (r_mem w) !! x)
    by (intros; rewrite Hmem; by apply mem_upd_other).
  split.
  - intros addr x Hx. destruct (decide (x = gp)) as [->|Hxp].
    { split; [by eexists|]. exists tp. rewrite Hmem. split; [apply mem_upd_parent|done]. }
    destruct (decide (x = gc)) as [->|Hxc].
    { split; [by eexists|]. exists tc. rewrite Hmem. split; [by apply mem_upd_child|done]. }
    destruct (Hoth x Hxp Hxc) as [H1 H2]. destruct (inv_granule _ _ Hinv _ _ Hx) as ((a & Ha & Hl) & t & Ht & Hlt).
    split; [exists a; split; [by eapply granule_at_descs|done]|exists t; by rewrite H2].
  - intros x r Hx. assert (Hxp : x <> gp) by (intros ->; by pose proof (granule_at_inj _ _ _ _ Hx Hap)).
    assert (Hxc : x <> gc) by (intros ->; by rewrite <- (granule_at_inj _ _ _ _ Hx Hac) in Hst).
    destruct (Hoth x Hxp Hxc) as [H1 _].
    destruct (inv_rd _ _ Hinv x r) as (rd' & l2 & b & s & Hr & Hok & HFr); [by eapply granule_at_descs|].
    exists rd', l2, b, s. rewrite Hrds. split_and!; try done. intros i' Hi'.
    destruct (decide ((x, i') = (g, i))) as [Heq|Hn]; [exists T'; by rewrite Heq, lookup_insert_eq|].
    rewrite lookup_insert_ne by done. by apply HFr.
  - intros g0 i0 T0 [[Heq <-]|[Hn H0]]%lookup_insert_Some.
    { injection Heq as <- <-. exists rd, ctx. destruct Hown. split; try done. by rewrite Hrds. }
    destruct (inv_own _ _ Hinv g0 i0 T0 H0) as (rd0 & ctx0 & [O1 O2 O3 O4 O5]). exists rd0, ctx0.
    split; try done; [by rewrite Hrds|]. eapply rtt_inv_frame; [|exact O5].
    intros x l Hx. assert (Hxp : x <> gp) by (intros ->; by apply Hn, (inv_disjoint _ _ Hinv _ _ T T0 gp lp l)).
    assert (Hxc : x <> gc) by (intros ->; by rewrite (Hgc _ _ _ H0 Hx) in Hn). destruct (Hoth x Hxp Hxc). done.
  - assert (Hmix : forall k2 T2 x l1 l2, (g, i) <> k2 -> F !! k2 = Some T2 -> T' !! x = Some l1 -> T2 !! x = Some l2 -> False).
    { intros k2 T2 x l1 l2 Hn H2 Hx1 Hx2. destruct (Hsub x l1 Hx1) as [->|[l' Hl']].
      - by rewrite (Hgc _ _ _ H2 Hx2) in Hn.
      - by apply Hn, (inv_disjoint _ _ Hinv _ _ T T2 x l' l2). }
    intros k1 k2 T1 T2 x l1 l2 [[<- <-]|[Hn1 H1]]%lookup_insert_Some [[<- <-]|[Hn2 H2]]%lookup_insert_Some Hx1 Hx2;
      [done|exfalso; eapply (Hmix k2); eauto|exfalso; eapply (Hmix k1); eauto|eapply inv_disjoint; eauto].
Qed.

(** Contents of granules change, not their states. *)
Lemma inv_contents w w' F :
  inv w F -> descs (r_mem w') = descs (r_mem w) -> r_rds w' = r_rds w ->
  (forall x t, tables (r_mem w) !! x = Some t -> length t = N_S2TTES ->
     exists t', tables (r_mem w') !! x = Some t' /\ length t' = N_S2TTES) ->
  (forall g i T rd ctx, F !! (g, i) = Some T -> owns w g i rd ctx T -> rtt_inv ctx (r_mem w') T) -> inv w' F.
Proof.
  intros [H1 H2 H3 H4] Hd Hr Ht HT. split; try done.
  - intros addr g Hg. destruct (H1 addr g Hg) as ((a & Ha & Hl) & t & Htb & Hlt). split; [|by eapply Ht].
    exists a. split; [|done]. eapply granule_at_descs; [|exact Ha]. by rewrite Hd.
  - intros g r Hg. rewrite Hr. apply (H2 g r). eapply granule_at_descs; [|exact Hg]. by rewrite Hd.
  - intros g i T HF. destruct (H3 g i T HF) as (rd & ctx & Hown). exists rd, ctx.
    pose proof (HT _ _ _ _ _ HF Hown). destruct Hown. split; try done. by rewrite Hr.
Qed.

End World.
