(* ===== verification/UnmapPass.v ===== *)
(** * Deferred work on the leaf table: invalidation and clearing of marks

    What the invalidation pass and the clearing pass of [rtt_unmap.c] do to a
    table, whatever interrupts arrive.  The invalidation pass clears the TLBI mark
    of an entry only after the TLBs (and the SMMUs, with their CMD_SYNC found
    complete) were told about it; when it finishes no entry of the operation owes
    an invalidation. *)

From Stdlib Require Import ZArith Lia Bool ZifyBool.
From stdpp Require Import base tactics option list numbers gmap.
From S2P Require Import Prelude.
From S2P Require Import Utils.
From S2P Require Import Status.
From S2P Require Import Granule.
From S2P Require Import Mem.
From S2P Require Import Arch.
From S2P Require Import AddrList.
From S2P Require Import Sro.
From S2P Require Import S2tte.
From S2P Require Import S2tteFacts.
From S2P Require Import S2tteProps.
From S2P Require Import S2tlbi.
From S2P Require Import S2ttTable.
From S2P Require Import RttFold.
From S2P Require Import RttFoldProps.
From S2P Require Import RttTree.
From S2P Require Import Rmm.
From S2P Require Import RttUnmap.
From S2P Require Import RttInv.

(** ** Marks *)

(** The entry carries the mark of operation [h], and owes an invalidation. *)
Definition mineb (e h : Z) : bool := s2tte_drain_pending e && (u32 (EXTRACT F_SW_HANDLE e) =? h).
Definition owes (e h : Z) : bool := mineb e h && s2tte_tlbi_pending e.

Lemma is_mine_eq e h : s2tte_is_mine e h = Some (mineb e h).
Proof.
  unfold s2tte_is_mine, mineb. destruct (s2tte_drain_pending e) eqn:Hp; [|done]. unfold s2tte_drain_handle.
  unfold s2tte_drain_pending in Hp. apply andb_prop in Hp as [-> _]. done.
Qed.

(** Clearing the TLBI mark leaves the rest of the mark. *)
Lemma land_not_tlbi e m :
  Z.land S2TTE_SW_TLBI_PENDING_BIT m = 0 -> 0 <= m < 2 ^ 64 ->
  Z.land (s2tte_clear_tlbi_pending e) m = Z.land e m.
Proof.
  intros Hm Hr. unfold s2tte_clear_tlbi_pending. rewrite <- Z.land_assoc. f_equal.
  apply Z.bits_inj'. intros i Hi. pose proof (f_equal (fun z => Z.testbit z i) Hm) as Hb. cbn beta in Hb.
  rewrite Z.land_spec, Z.bits_0 in Hb. rewrite Z.land_spec. unfold not64. rewrite Z.lxor_spec.
  destruct (Z.testbit m i) eqn:Em; [|by rewrite andb_false_r]. rewrite andb_true_r in *.
  rewrite Hb, xorb_false_l. destruct (decide (i < 64)).
  - change UINT64_MAX with (Z.ones 64). by rewrite Z.ones_spec_low by lia.
  - by rewrite (testbit_small 64 m i) in Em by lia.
Qed.

Lemma hipas_clear_tlbi e x : s2tte_has_hipas (s2tte_clear_tlbi_pending e) x = s2tte_has_hipas e x.
Proof. unfold s2tte_has_hipas. by rewrite !land_not_tlbi. Qed.

Lemma clear_tlbi_facts e h :
  s2tte_drain_pending (s2tte_clear_tlbi_pending e) = s2tte_drain_pending e /\
  mineb (s2tte_clear_tlbi_pending e) h = mineb e h /\ owes (s2tte_clear_tlbi_pending e) h = false /\
  s2tte_clear_drain_pending (s2tte_clear_tlbi_pending e) = s2tte_clear_drain_pending e.
Proof.
  assert (Hd : s2tte_drain_pending (s2tte_clear_tlbi_pending e) = s2tte_drain_pending e)
    by (unfold s2tte_drain_pending; by rewrite hipas_clear_tlbi, land_not_tlbi).
  assert (Hm : mineb (s2tte_clear_tlbi_pending e) h = mineb e h)
    by (unfold mineb, EXTRACT; by rewrite Hd, land_not_tlbi).
  split_and!; [done|done| |unfold s2tte_clear_drain_pending; by rewrite land_not_tlbi].
  unfold owes, s2tte_tlbi_pending, s2tte_clear_tlbi_pending. rewrite <- Z.land_assoc.
  change (Z.land (not64 S2TTE_SW_TLBI_PENDING_BIT) S2TTE_SW_TLBI_PENDING_BIT) with 0.
  by rewrite Z.land_0_r, !andb_false_r.
Qed.

(** ** Statements on the state of the commands *)

Section Stmts.
Context `{env : UnmapEnv}.

(** Table [g] replaced by [t], events added, clocks moved. *)
Definition leaf_upd (u : urmm) (g : Z) (t : list Z) (evs : list event) (k p : nat) : urmm :=
  URmm (with_log (with_mem (u_rmm u) (set_table (r_mem (u_rmm u)) g t)) evs) (u_devs u) (u_sro u) k p.

Definition leaf_at (u : urmm) (g : Z) (t : list Z) : Prop := tables (r_mem (u_rmm u)) !! g = Some t.

Lemma leaf_upd_upd u g t1 e1 k1 p1 t2 e2 k2 p2 :
  leaf_upd (leaf_upd u g t1 e1 k1 p1) g t2 e2 k2 p2 = leaf_upd u g t2 (e1 ++ e2) k2 p2.
Proof.
  unfold leaf_upd, set_table, with_log, with_mem. cbn. by rewrite insert_insert_eq, app_assoc.
Qed.

Lemma leaf_upd_id u g t : leaf_at u g t -> leaf_upd u g t [] (u_isr u) (u_polls u) = u.
Proof.
  intros H. unfold leaf_at in H. destruct u as [[[ds ts] rds vt lg] dv sr ci cp]. unfold leaf_upd, set_table, with_log, with_mem. cbn in *.
  by rewrite insert_id, app_nil_r.
Qed.

Lemma leaf_at_upd u g t evs k p : leaf_at (leaf_upd u g t evs k p) g t.
Proof. unfold leaf_at, leaf_upd, set_table. cbn. apply lookup_insert_eq. Qed.

Lemma runs_on_rmm {A} (c : H A) u (Q : A -> urmm -> Prop) :
  runs c (u_rmm u) (fun x w => Q x (URmm w (u_devs u) (u_sro u) (u_isr u) (u_polls u))) -> runs (on_rmm c) u Q.
Proof. intros (x & w & Hc & HQ). eexists x, _. unfold on_rmm. rewrite Hc. by split. Qed.

Lemma runs_irq u (Q : bool -> urmm -> Prop) :
  Q (isr_pending (u_isr u)) (URmm (u_rmm u) (u_devs u) (u_sro u) (S (u_isr u)) (u_polls u)) -> runs rtt_unmap_irq_pending u Q.
Proof. intros HQ. eexists _, _. by split. Qed.

Lemma runs_read_entry {A} u g t i e (K : Z -> U A) (Q : A -> urmm -> Prop) :
  leaf_at u g t -> arr_get t i = Some e -> runs (K e) u Q ->
  runs (s2tt <-! on_rmm (map_table g) ;; s2tte <-! lift (s2tte_read s2tt i) ;; K s2tte) u Q.
Proof.
  intros Ht He HK. apply runs_bind, runs_on_rmm. eapply runs_get; [exact Ht|].
  apply runs_bind. eapply runs_lift; [exact He|]. by destruct u.
Qed.

Lemma runs_write_entry u g t i v t' (Q : unit -> urmm -> Prop) :
  leaf_at u g t -> arr_set t i v = Some t' ->
  Q tt (leaf_upd u g t' [E_write g i v] (u_isr u) (u_polls u)) -> runs (on_rmm (s2tte_write g i v)) u Q.
Proof. intros Ht Hs HQ. apply runs_on_rmm. eapply runs_write; [exact Ht|exact Hs|]. exact HQ. Qed.

Lemma runs_emit_leaf u g t ev (Q : unit -> urmm -> Prop) :
  leaf_at u g t -> Q tt (leaf_upd u g t [ev] (u_isr u) (u_polls u)) -> runs (on_rmm (emit ev)) u Q.
Proof.
  intros Ht HQ. apply runs_on_rmm, runs_emit. unfold leaf_at in Ht. 
  assert (Hid : with_mem (u_rmm u) (set_table (r_mem (u_rmm u)) g t) = u_rmm u).
  { destruct u as [[[ds ts] rds vt lg] dv sr ci cp]. unfold with_mem, set_table. cbn in *. by rewrite insert_id. }
  unfold leaf_upd in HQ. by rewrite Hid in HQ.
Qed.

(** Between samples [a] and [k] of ISR_EL1: code that yields found one pending. *)
Definition ticks (a : nat) (y : bool) (k : nat) : Prop :=
  (a <= k)%nat /\ (y = true -> exists i, (a <= i < k)%nat /\ isr_pending i = true).

Lemma ticks_done a k : (a <= k)%nat -> ticks a false k.
Proof. intros H. by split. Qed.
Lemma ticks_irq a b : isr_pending b = true -> (a <= b)%nat -> ticks a true (S b).
Proof. intros H Hb. split; [lia|]. intros _. exists b. split; [lia|done]. Qed.
Lemma ticks_trans a b y k : ticks b y k -> (a <= b)%nat -> ticks a y k.
Proof. intros [Hb Hy] Ha. split; [lia|]. intros (i & Hi & Hp)%Hy. exists i. split; [lia|done]. Qed.

(** The poll loop ends: a poll succeeds in time, or an interrupt comes first. *)
Lemma sync_loop_ok n u (Q : bool -> urmm -> Prop) :
  (exists k, (k < n)%nat /\ cmd_sync_complete (u_polls u + k) = true) ->
  (forall y k p, ticks (u_isr u) y k -> Q y (URmm (u_rmm u) (u_devs u) (u_sro u) k p)) -> runs (sync_loop n) u Q.
Proof.
  revert u. induction n as [|n IH]; intros u (k & Hk & Hc) HQ; [lia|]. cbn [sync_loop].
  apply runs_bind. eexists _, _. split; [done|]. destruct (cmd_sync_complete (u_polls u)) eqn:E; [by apply runs_ret, HQ, ticks_done|].
  apply runs_bind, runs_irq. cbn [u_isr]. destruct (isr_pending (u_isr u)) eqn:Ei; [by apply runs_ret, HQ, ticks_irq|].
  apply IH; [|intros y k' p Hy; apply HQ; by apply (ticks_trans _ _ _ _ Hy), Nat.le_succ_diag_r]. cbn [u_polls u_rmm u_devs u_sro u_isr]. exists (k - 1)%nat.
  destruct k; [by rewrite Nat.add_0_r, E in Hc|]. split; [lia|]. by replace (S (u_polls u) + (S k - 1))%nat with (u_polls u + S k)%nat by lia.
Qed.

Lemma sync_yield_ok ctx u g t (Q : bool -> urmm -> Prop) :
  leaf_at u g t -> smmu_tlbi_pending ctx = true ->
  (forall (y : bool) k p, ticks (u_isr u) y k -> Q y (leaf_upd u g t (if y then [] else [E_cmd_sync]) k p)) ->
  runs (rtt_unmap_smmu_sync_yield ctx) u Q.
Proof.
  intros Ht Hp HQ. unfold rtt_unmap_smmu_sync_yield. apply runs_bind, runs_guard; [done|]. apply runs_bind.
  apply sync_loop_ok; [apply sync_completes|]. intros y k p Hy. set (u1 := URmm _ _ _ k p).
  assert (Ht1 : leaf_at u1 g t) by done. apply runs_bind. destruct y.
  - apply runs_ret, runs_ret. specialize (HQ true k p Hy). by rewrite <- (leaf_upd_id u1 g t Ht1).
  - apply (runs_emit_leaf u1 g t); [done|]. apply runs_ret. apply (HQ false k p Hy).
Qed.

End Stmts.

(** ** Invalidation *)

Section Pass.
Context `{env : UnmapEnv}.
Context (submit_ok : forall vs addr level num leaf, smmuv3_inv_at_level_per_vmids_submit vs addr level num leaf = 0).
Implicit Types (ctx : sro_unmap_ctx) (evs : list event) (t : list Z).

(** What an operation is about: its handle, and the realm and leaf it works on. *)
Record opid := Op { op_handle : Z; op_lpa2 : bool; op_vmids : list Z; op_da : bool; op_base : Z; op_level : Z }.
Definition op_of ctx : opid :=
  Op (sro_handle ctx) (enable_lpa2 ctx) (vmid_list ctx) (u_da_enabled ctx) (leaf_base_ipa ctx) (leaf_level ctx).
Implicit Types (o : opid).

(** The IPA an entry of the leaf translates. *)
Definition entry_ipa o (j : Z) : Z := op_base o + j * s2tte_map_size (op_level o).

(** What the operation knows about its leaf, and about entries that owe an
    invalidation: their addresses are addresses. *)
Record op_geo o : Prop := {
  og_level : (if op_lpa2 o then -1 else 0) <= op_level o <= 3;
  og_base : 0 <= op_base o;
  og_align : (s2tte_map_size (op_level o) | op_base o);
  og_vmids : op_vmids o <> []
}.
Definition owed_in_range o t : Prop :=
  forall j e, arr_get t j = Some e -> owes e (op_handle o) = true ->
    entry_ipa o j + s2tte_map_size (op_level o) <= 2 ^ oa_bits (op_lpa2 o).

(** TLB maintenance for entry [j], for each VMID. *)
Definition flush_ops o (vttbr j : Z) (ops : list tlbi_op) : Prop :=
  forall cur, invalidated (op_lpa2 o) cur ops =
      concat (map (vmid_expected (entry_ipa o j) GRANULE_SIZE) (op_vmids o)) /\ final_vttbr cur ops = vttbr.
Definition smmu_flush o (j : Z) : event := E_smmu (op_vmids o) (entry_ipa o j) (op_level o) 1 true.

(** The events invalidate entry [j] in the TLBs and, when the realm has devices, in
    the SMMUs, whose completion was seen; [submitted] up to that completion. *)
Definition flushed o (vttbr j : Z) evs : Prop :=
  exists e1 e2 ops, evs = e1 ++ E_tlbi ops :: e2 /\ flush_ops o vttbr j ops /\
    (op_da o = true -> smmu_flush o j ∈ e1 /\ E_cmd_sync ∈ e2).
Definition submitted o (vttbr j : Z) evs : Prop :=
  exists e1 e2 ops, evs = e1 ++ E_tlbi ops :: e2 /\ flush_ops o vttbr j ops /\ smmu_flush o j ∈ e1.

Lemma flushed_app o vttbr j e1 e2 evs : flushed o vttbr j evs -> flushed o vttbr j (e1 ++ evs ++ e2).
Proof.
  intros (a & b & ops & -> & Hf & Hd). exists (e1 ++ a), (b ++ e2), ops. rewrite <- !app_assoc. cbn. split_and!; [done|done|].
  intros Hda. destruct (Hd Hda). split; apply elem_of_app; auto.
Qed.
Lemma submitted_app o vttbr j e1 e2 evs : submitted o vttbr j evs -> submitted o vttbr j (e1 ++ evs ++ e2).
Proof.
  intros (a & b & ops & -> & Hf & Hd). exists (e1 ++ a), (b ++ e2), ops. rewrite <- !app_assoc. cbn. split_and!; [done|done|].
  apply elem_of_app; auto.
Qed.
Lemma submitted_sync o vttbr j evs : submitted o vttbr j evs -> flushed o vttbr j (evs ++ [E_cmd_sync]).
Proof.
  intros (a & b & ops & -> & Hf & Hd). exists a, (b ++ [E_cmd_sync]), ops. rewrite <- !app_assoc. cbn. split_and!; [done|done|].
  intros _. split; [done|]. apply elem_of_app. right. by left.
Qed.

Lemma flushed_l o vttbr j e1 evs : flushed o vttbr j evs -> flushed o vttbr j (e1 ++ evs).
Proof. intros H%(flushed_app _ _ _ e1 []). by rewrite app_nil_r in H. Qed.
Lemma flushed_r o vttbr j e2 evs : flushed o vttbr j evs -> flushed o vttbr j (evs ++ e2).
Proof. apply (flushed_app _ _ _ [] e2). Qed.
Lemma submitted_l o vttbr j e1 evs : submitted o vttbr j evs -> submitted o vttbr j (e1 ++ evs).
Proof. intros H%(submitted_app _ _ _ e1 []). by rewrite app_nil_r in H. Qed.

(** No event gives memory back. *)
Definition keeps_memory evs : Prop := forall x, (E_delegated x ∉ evs) /\ (E_dev_delegated x ∉ evs).

Lemma keeps_nil : keeps_memory [].
Proof. intros x. split; apply not_elem_of_nil. Qed.
Lemma keeps_app e1 e2 : keeps_memory e1 -> keeps_memory e2 -> keeps_memory (e1 ++ e2).
Proof. intros H1 H2 x. destruct (H1 x), (H2 x). rewrite !elem_of_app. tauto. Qed.
Lemma keeps_one ev : (match ev with E_delegated _ | E_dev_delegated _ => False | _ => True end) -> keeps_memory [ev].
Proof. intros H x. rewrite !list_elem_of_singleton. split; intros <-; done. Qed.

(** What the invalidation pass does to the table: marks of entries that owed an
    invalidation are cleared after that invalidation. *)
Record pass o (vttbr : Z) pre t t' evs : Prop := {
  ps_len : length t' = length t;
  ps_entry : forall j e, arr_get t j = Some e -> exists e', arr_get t' j = Some e' /\
    (e' = e \/ (owes e (op_handle o) = true /\ e' = s2tte_clear_tlbi_pending e /\ flushed o vttbr j (pre ++ evs)));
  ps_memory : keeps_memory evs
}.

Lemma pass_refl o vttbr pre t evs : keeps_memory evs -> pass o vttbr pre t t evs.
Proof. intros Hk. split; try done. eauto. Qed.

Lemma pass_trans o vttbr pre t t1 t2 e1 e2 :
  pass o vttbr pre t t1 e1 -> pass o vttbr (pre ++ e1) t1 t2 e2 -> pass o vttbr pre t t2 (e1 ++ e2).
Proof.
  intros [L1 E1 M1] [L2 E2 M2]. split; [lia| |by apply keeps_app]. intros j e He. rewrite app_assoc.
  destruct (E1 j e He) as (e' & He' & H1). destruct (E2 j e' He') as (e'' & He'' & H2). exists e''. split; [done|].
  destruct H1 as [->|(Ho & -> & Hf)]; [done|]. right. destruct H2 as [->|(Ho2 & _)]; [by auto using flushed_r|].
  by rewrite (proj1 (proj2 (proj2 (clear_tlbi_facts e (op_handle o))))) in Ho2.
Qed.

(** Clearing one entry after its invalidation. *)
Lemma pass_one o vttbr pre t i e t' evs :
  arr_get t i = Some e -> owes e (op_handle o) = true -> arr_set t i (s2tte_clear_tlbi_pending e) = Some t' ->
  flushed o vttbr i (pre ++ evs) -> keeps_memory evs -> pass o vttbr pre t t' evs.
Proof.
  intros He Ho Hs Hf Hk. split; [by eapply arr_set_length| |done]. intros j x Hx.
  rewrite (arr_get_set _ _ _ _ j Hs). destruct (Z.eqb_spec j i) as [->|]; [|by eauto].
  eexists. split; [done|]. right. assert (x = e) as -> by congruence. done.
Qed.

Lemma entry_addr o t j e :
  op_geo o -> owed_in_range o t -> arr_get t j = Some e -> owes e (op_handle o) = true ->
  add64 (op_base o) (mul64 j (s2tte_map_size (op_level o))) = entry_ipa o j /\
  0 <= entry_ipa o j /\ entry_ipa o j + s2tte_map_size (op_level o) <= 2 ^ oa_bits (op_lpa2 o) /\
  ALIGNED (entry_ipa o j) GRANULE_SIZE = true.
Proof.
  intros [Hlv Hb Hal _] Hr He Ho. pose proof (arr_get_lt _ _ _ He) as Hj. pose proof (Hr j e He Ho) as Htop.
  assert (Hlv1 : -1 <= op_level o <= 3) by (destruct (op_lpa2 o); lia).
  destruct (map_size_ge _ Hlv1) as [Hge _]. assert (Hms : 0 < s2tte_map_size (op_level o)) by (change GRANULE_SIZE with 4096 in Hge; lia).
  assert (H52 : 2 ^ oa_bits (op_lpa2 o) <= 2 ^ 52) by (apply Z.pow_le_mono_r; unfold oa_bits; destruct (op_lpa2 o); lia).
  unfold entry_ipa in *. assert (Hm : 0 <= j * s2tte_map_size (op_level o)) by nia. split_and!; try lia.
  - unfold mul64, add64. rewrite (u64_small (j * _)) by (unfold in_u64; lia). apply u64_small. unfold in_u64. lia.
  - apply (aligned_granule _ (op_level o)); [done|]. apply Z.divide_add_r; [done|apply Z.divide_factor_r].
Qed.

Lemma smmu_same ctx : smmu_tlbi_pending ctx = false -> set_smmu (smmu_tlbi_idx ctx) false ctx = ctx.
Proof. destruct ctx. cbn. by intros ->. Qed.

Lemma invalidate_pending_ok ctx u g t i e (Q : bool * sro_unmap_ctx -> urmm -> Prop) :
  op_geo (op_of ctx) -> owed_in_range (op_of ctx) t -> leaf_at u g t -> arr_get t i = Some e -> owes e (sro_handle ctx) = true ->
  smmu_tlbi_pending ctx = false ->
  (forall (y : bool) evs k p idx, ticks (u_isr u) y k -> keeps_memory evs -> (y = true -> idx = i) ->
     (if y then submitted (op_of ctx) (r_vttbr (u_rmm u)) i evs else flushed (op_of ctx) (r_vttbr (u_rmm u)) i evs) ->
     Q (y, set_smmu idx y ctx) (leaf_upd u g t evs k p)) ->
  runs (rtt_unmap_invalidate_pending ctx (entry_ipa (op_of ctx) i) (leaf_level ctx) i) u Q.
Proof.
  intros Hgeo Hr Ht He Ho Hp HQ. destruct (entry_addr (op_of ctx) t i e Hgeo Hr He Ho) as (_ & H0 & Htop & Hal).
  assert (Hops : exists ops, stage2_tlbi_ipa_per_vmids (r_vttbr (u_rmm u)) (enable_lpa2 ctx) (vmid_list ctx) (entry_ipa (op_of ctx) i) GRANULE_SIZE
      = Some ops /\ flush_ops (op_of ctx) (r_vttbr (u_rmm u)) i ops).
  { destruct (map_size_ge (leaf_level ctx)) as [Hge _]; [destruct Hgeo as [Hl _ _ _]; cbn in Hl; destruct (enable_lpa2 ctx); lia|].
    apply per_vmids_ok; [apply Hgeo|done|done|done|done|]. unfold oa_bits in Htop. cbn [op_of op_level op_lpa2] in Htop. change GRANULE_SIZE with 4096 in *. lia. }
  destruct Hops as (ops & Hops & Hfl).
  assert (Htail : forall e0 p0, keeps_memory e0 ->
    (u_da_enabled ctx = true -> smmu_flush (op_of ctx) i ∈ e0) ->
    runs (ops <-! on_rmm (get (fun w => s2tt_invalidate_page_block_per_vmids (r_vttbr w) (enable_lpa2 ctx) (vmid_list ctx) (entry_ipa (op_of ctx) i) (leaf_level ctx))) ;;
      _ <-! on_rmm (emit (E_tlbi ops)) ;;
      if negb (u_da_enabled ctx) then ret (false, ctx)
      else
        let ctx := set_smmu i true ctx in
        yielded <-! rtt_unmap_smmu_sync_yield ctx ;;
        if yielded : bool then ret (true, ctx) else ret (false, set_smmu i false ctx)) (leaf_upd u g t e0 (u_isr u) p0) Q).
  { intros e0 p0 Hk0 Hda. apply runs_bind, runs_on_rmm. eapply runs_get; [exact Hops|].
    apply runs_bind. apply (runs_emit_leaf (leaf_upd u g t e0 (u_isr u) p0) g t); [apply leaf_at_upd|]. rewrite leaf_upd_upd.
    assert (Hk1 : keeps_memory (e0 ++ [E_tlbi ops])) by (apply keeps_app; [done|by apply keeps_one]).
    destruct (u_da_enabled ctx) eqn:Eda; cbn [negb].
    - assert (Hsub : submitted (op_of ctx) (r_vttbr (u_rmm u)) i (e0 ++ [E_tlbi ops])) by (exists e0, [], ops; auto).
      apply runs_bind. apply (sync_yield_ok _ _ g t); [apply leaf_at_upd|done|]. intros y k p Hy. rewrite leaf_upd_upd. destruct y; apply runs_ret.
      + rewrite app_nil_r. by apply (HQ true).
      + apply (HQ false); [done|apply keeps_app; [done|by apply keeps_one]|done|by apply submitted_sync].
    - apply runs_ret. rewrite <- (smmu_same ctx Hp) at 1. apply (HQ false); [by apply ticks_done|done|done|]. exists e0, [], ops. split_and!; try done. cbn; congruence. }
  unfold rtt_unmap_invalidate_pending. apply runs_bind. destruct (u_da_enabled ctx) eqn:Eda.
  - apply runs_bind, (runs_emit_leaf _ g t); [done|]. apply runs_guard; [by rewrite submit_ok|].
    apply (Htail [smmu_flush (op_of ctx) i]); [by apply keeps_one|intros _; by left].
  - apply runs_ret. rewrite <- (leaf_upd_id u g t Ht). apply (Htail []); [apply keeps_nil|done].
Qed.

(** How the pass ends: nothing is owed any more, or an interrupt is pending, perhaps
    between the submission of an entry's invalidation and its completion. *)
Definition pass_end ctx (vttbr : Z) pre (y : bool) ctx' t' evs : Prop :=
  if y then exists idx b, ctx' = set_smmu idx b ctx /\
    (b = true -> submitted (op_of ctx) vttbr idx (pre ++ evs) /\ exists e, arr_get t' idx = Some e /\ owes e (sro_handle ctx) = true)
  else exists idx, ctx' = set_tlbi_done true (set_smmu idx false ctx) /\
    forall j e, arr_get t' j = Some e -> owes e (sro_handle ctx) = false.

Lemma owed_pass o vttbr pre t t' evs : owed_in_range o t -> length t' = length t -> pass o vttbr pre t t' evs -> owed_in_range o t'.
Proof.
  intros Hr Hlen [_ Hps _] j e' He' Ho. pose proof (arr_get_lt _ _ _ He') as Hj. rewrite Hlen in Hj.
  destruct (arr_get_some t j Hj) as [e He]. destruct (Hps j e He) as (e2 & He2 & [->|(Ho2 & _)]).
  - apply (Hr j e He). congruence.
  - by apply (Hr j e He).
Qed.

Lemma tlbi_loop_ok n : forall i ctx u g t pre (Q : bool * sro_unmap_ctx -> urmm -> Prop),
  Z.of_nat n = S2TTES_PER_S2TT - i -> 0 <= i -> length t = N_S2TTES -> leaf_at u g t ->
  op_geo (op_of ctx) -> owed_in_range (op_of ctx) t -> smmu_tlbi_pending ctx = false ->
  (forall j e, j < i -> arr_get t j = Some e -> owes e (sro_handle ctx) = false) ->
  (forall y ctx' t' evs k p, ticks (u_isr u) y k -> pass (op_of ctx) (r_vttbr (u_rmm u)) pre t t' evs ->
     pass_end ctx (r_vttbr (u_rmm u)) pre y ctx' t' evs -> Q (y, ctx') (leaf_upd u g t' evs k p)) ->
  runs (tlbi_loop n g (s2tte_map_size (leaf_level ctx)) i ctx) u Q.
Proof.
  induction n as [|n IH]; intros i ctx u g t pre Q Hn Hi Hlen Ht Hgeo Hr Hp Hlow HQ; cbn [tlbi_loop].
  { apply runs_ret. rewrite <- (leaf_upd_id u g t Ht). apply HQ; [by apply ticks_done|apply pass_refl, keeps_nil|].
    exists (smmu_tlbi_idx ctx). rewrite (smmu_same ctx Hp). split; [done|]. intros j e He. apply (Hlow j); [|done].
    apply arr_get_lt in He. unfold S2TTES_PER_S2TT, N_S2TTES in *. lia. }
  apply runs_bind, runs_irq. set (u1 := URmm _ _ _ _ _). assert (Ht1 : leaf_at u1 g t) by done.
  destruct (isr_pending (u_isr u)) eqn:Ei.
  { apply runs_ret. rewrite <- (leaf_upd_id u1 g t Ht1). apply (HQ true); [by apply ticks_irq|apply pass_refl, keeps_nil|].
    exists (smmu_tlbi_idx ctx), false. by rewrite (smmu_same ctx Hp). }
  destruct (arr_get_some t i) as [e He]; [unfold S2TTES_PER_S2TT, N_S2TTES in *; lia|].
  apply (runs_read_entry u1 g t i e); [done|done|]. apply runs_bind. eapply runs_lift; [apply is_mine_eq|].
  fold (owes e (sro_handle ctx)). destruct (owes e (sro_handle ctx)) eqn:Ho.
  - destruct (entry_addr (op_of ctx) t i e Hgeo Hr He Ho) as (Ha & _). cbn [op_of op_base op_level] in Ha. rewrite Ha. apply runs_bind.
    apply (invalidate_pending_ok ctx u1 g t i e); try done. intros y evs k p idx Hy Hk Hidx Hev.
    apply (ticks_trans (u_isr u)) in Hy; [|cbn; lia]. destruct y.
    + apply runs_ret. apply (HQ true); [done|by apply pass_refl|]. rewrite (Hidx eq_refl). exists i, true. split; [done|]. eauto using submitted_l.
    + destruct (arr_set t i (s2tte_clear_tlbi_pending e)) as [t1|] eqn:Hs;
        [|rewrite arr_set_some in Hs by (by apply arr_get_lt in He); done].
      assert (Hpass : pass (op_of ctx) (r_vttbr (u_rmm u)) pre t t1 (evs ++ [E_write g i (s2tte_clear_tlbi_pending e)])).
      { eapply pass_one; try done; [by apply flushed_l, flushed_r|by apply keeps_app, keeps_one]. }
      pose proof (ps_len _ _ _ _ _ _ Hpass) as Hl1. apply runs_bind.
      apply (runs_write_entry _ g t i _ t1); [apply leaf_at_upd|done|]. rewrite leaf_upd_upd.
      apply (IH _ (set_smmu idx false ctx) _ g t1 (pre ++ evs ++ [E_write g i (s2tte_clear_tlbi_pending e)])); [lia|lia|lia|apply leaf_at_upd|exact Hgeo| |done| |].
      * exact (owed_pass (op_of ctx) _ _ t t1 _ Hr Hl1 Hpass).
      * intros j x Hj Hx. rewrite (arr_get_set _ _ _ _ j Hs) in Hx. destruct (Z.eqb_spec j i) as [->|].
        -- injection Hx as <-. apply clear_tlbi_facts.
        -- apply (Hlow j); [lia|done].
      * intros y ctx' t' evs' k' p' Hy' Hps' Hend'. rewrite leaf_upd_upd. apply (ticks_trans (u_isr u)) in Hy'; [|apply Hy].
        apply HQ; [done|exact (pass_trans _ _ _ _ _ _ _ _ Hpass Hps')|]. destruct y; cbn in Hend' |- *; [|done].
        destruct Hend' as (idx' & b & -> & Hb). exists idx', b. split; [done|]. intros Hbt. rewrite app_assoc. by apply Hb.
  - apply (IH (i + 1) ctx u1 g t pre); try done; try lia.
    + intros j x Hj Hx. destruct (decide (j = i)) as [->|]; [congruence|]. apply (Hlow j); [lia|done].
    + intros y ctx' t' evs k p Hy. apply HQ. apply (ticks_trans _ _ _ _ Hy). cbn. lia.
Qed.

(** The whole pass, after [pre] since the entries were stamped. *)
Lemma tlbi_pending_ok ctx u g t pre (Q : bool * sro_unmap_ctx -> urmm -> Prop) :
  length t = N_S2TTES -> leaf_at u g t -> op_geo (op_of ctx) -> owed_in_range (op_of ctx) t ->
  (tlbi_done ctx = true -> smmu_tlbi_pending ctx = false /\
     forall j e, arr_get t j = Some e -> owes e (sro_handle ctx) = false) ->
  (smmu_tlbi_pending ctx = true -> submitted (op_of ctx) (r_vttbr (u_rmm u)) (smmu_tlbi_idx ctx) pre /\
     exists e, arr_get t (smmu_tlbi_idx ctx) = Some e /\ owes e (sro_handle ctx) = true) ->
  (forall y ctx' t' evs k p, ticks (u_isr u) y k -> pass (op_of ctx) (r_vttbr (u_rmm u)) pre t t' evs ->
     pass_end ctx (r_vttbr (u_rmm u)) pre y ctx' t' evs -> Q (y, ctx') (leaf_upd u g t' evs k p)) ->
  runs (rtt_unmap_tlbi_pending ctx g) u Q.
Proof.
  intros Hlen Ht Hgeo Hr Hdone Hpend HQ. unfold rtt_unmap_tlbi_pending. destruct (tlbi_done ctx) eqn:Ed.
  { destruct (Hdone eq_refl) as [Hp Hno]. apply runs_ret. rewrite <- (leaf_upd_id u g t Ht). apply HQ; [by apply ticks_done|apply pass_refl, keeps_nil|].
    exists (smmu_tlbi_idx ctx). split; [|done]. rewrite (smmu_same ctx Hp). destruct ctx. cbn in *. by subst. }
  destruct (smmu_tlbi_pending ctx) eqn:Ep.
  - destruct (Hpend eq_refl) as (Hsub & e & He & Ho). apply runs_bind, (sync_yield_ok _ _ g t); [done|done|].
    intros y k p Hy. destruct y.
    { apply runs_ret. apply (HQ true); [done|apply pass_refl, keeps_nil|]. exists (smmu_tlbi_idx ctx), true. rewrite app_nil_r.
      split; [destruct ctx; cbn in *; by subst|]. eauto. }
    apply runs_bind. apply (runs_read_entry _ g t (smmu_tlbi_idx ctx) e); [apply leaf_at_upd|done|].
    apply runs_bind. eapply runs_lift; [apply is_mine_eq|]. apply runs_bind, runs_guard; [exact Ho|].
    destruct (arr_set t (smmu_tlbi_idx ctx) (s2tte_clear_tlbi_pending e)) as [t1|] eqn:Hs;
      [|rewrite arr_set_some in Hs by (by apply arr_get_lt in He); done].
    apply runs_bind, (runs_write_entry _ g t _ _ t1); [apply leaf_at_upd|done|]. rewrite leaf_upd_upd. apply runs_ret.
    set (wr := E_write g _ _).
    assert (Hpass : pass (op_of ctx) (r_vttbr (u_rmm u)) pre t t1 ([E_cmd_sync] ++ [wr])).
    { eapply pass_one; try done; [|apply keeps_app; by apply keeps_one]. rewrite app_assoc. by apply flushed_r, submitted_sync. }
    pose proof (ps_len _ _ _ _ _ _ Hpass) as Hl1.
    apply (tlbi_loop_ok _ 0 (set_smmu (smmu_tlbi_idx ctx) false ctx) _ g t1 (pre ++ [E_cmd_sync] ++ [wr]));
      [done|done|lia|apply leaf_at_upd|exact Hgeo|exact (owed_pass _ _ _ t t1 _ Hr Hl1 Hpass)|done| |].
    { intros j x Hj Hx. apply arr_get_lt in Hx. lia. }
    intros y ctx' t' evs k' p' Hy' Hps' Hend'. rewrite leaf_upd_upd. apply (ticks_trans (u_isr u)) in Hy'; [|apply Hy].
    apply HQ; [done|exact (pass_trans _ _ _ _ _ _ _ _ Hpass Hps')|].
    destruct y; cbn in Hend' |- *; [|done]. destruct Hend' as (idx' & b & -> & Hb). exists idx', b. split; [done|].
    intros Hbt. destruct (Hb Hbt) as [Hs' Hw]. split; [|done]. by rewrite <- app_assoc in Hs'.
  - apply runs_bind, runs_ret. apply runs_bind, runs_ret.
    apply (tlbi_loop_ok _ 0 ctx u g t pre); try done. intros j x Hj Hx. apply arr_get_lt in Hx. lia.
Qed.

End Pass.

(** ** Clearing the marks *)

(** The leaf [g], locked, with reference count [r] and table [t]. *)
Definition leaf_set (u : urmm) (g r : Z) (t : list Z) (evs : list event) : urmm :=
  let m := r_mem (u_rmm u) in
  URmm (with_log (with_mem (u_rmm u) (Mem (<[g := encode GRN (AGranule true GRANULE_STATE_RTT r)]> (descs m)) (<[g := t]> (tables m)))) evs)
    (u_devs u) (u_sro u) (u_isr u) (u_polls u).

Lemma leaf_set_set u g r1 t1 e1 r2 t2 e2 :
  leaf_set (leaf_set u g r1 t1 e1) g r2 t2 e2 = leaf_set u g r2 t2 (e1 ++ e2).
Proof. unfold leaf_set, with_log, with_mem. cbn. by rewrite !insert_insert_eq, app_assoc. Qed.

Definition leaf_locked (u : urmm) (g r : Z) : Prop :=
  descs (r_mem (u_rmm u)) !! g = Some (encode GRN (AGranule true GRANULE_STATE_RTT r)).

Lemma leaf_set_id u g r t : leaf_at u g t -> leaf_locked u g r -> leaf_set u g r t [] = u.
Proof.
  unfold leaf_at, leaf_locked. destruct u as [[[ds ts] rds vt lg] dv sr ci cp]. unfold leaf_set, with_log, with_mem. cbn.
  intros. by rewrite !insert_id, app_nil_r.
Qed.
Lemma leaf_at_set u g r t evs : leaf_at (leaf_set u g r t evs) g t.
Proof. apply lookup_insert_eq. Qed.
Lemma leaf_locked_set u g r t evs : leaf_locked (leaf_set u g r t evs) g r.
Proof. apply lookup_insert_eq. Qed.

Section Clear.
Context `{feat : ArchFeatures}.
Context (ctx : s2tt_context) (lpa2 : bool) (level : Z).
Hypothesis Hl : s2tt_lpa2_enabled ctx = Some lpa2.
Hypothesis Hlv : -1 <= level <= 3.

(** An entry of an operation is unassigned, and holds a reference until its mark is
    cleared. *)
Lemma clear_mark e h :
  entry_ok ctx level e -> mineb e h = true ->
  marked ctx level e /\ entry_refs ctx level e = 1 /\
  exists k pa, kind_live k = false /\ built ctx level k pa (s2tte_clear_drain_pending e) /\
    entry_refs ctx level (s2tte_clear_drain_pending e) = 0 /\ s2tte_drain_pending (s2tte_clear_drain_pending e) = false.
Proof.
  intros Hok Hm. unfold mineb in Hm. apply andb_prop in Hm as [Hd _].
  destruct Hok as [Hmk|(k & pa & Hb)]; [|by rewrite (built_not_pending ctx lpa2 level k pa e) in Hd].
  split; [done|]. split; [unfold entry_refs; by rewrite Hd|]. destruct Hmk as (_ & k & pa & v & Hk & Hb & Hv).
  exists k, pa. unfold s2tte_clear_drain_pending. rewrite Hv. split_and!; try done.
  - rewrite (entry_refs_built ctx lpa2 level k pa v) by done. by destruct k.
  - by rewrite (built_not_pending ctx lpa2 level k pa v).
Qed.

Lemma marked_clear_tlbi e : marked ctx level e -> marked ctx level (s2tte_clear_tlbi_pending e).
Proof.
  intros (Hd & k & pa & v & Hk & Hb & Hv). destruct (clear_tlbi_facts e 0) as (Hd' & _ & _ & Hc).
  split; [by rewrite Hd'|]. exists k, pa, v. split_and!; try done. by rewrite <- Hv.
Qed.

Lemma put_release_locked r :
  0 < r <= 512 -> atomic_granule_put_release (encode GRN (AGranule true GRANULE_STATE_RTT r))
    = Some (encode GRN (AGranule true GRANULE_STATE_RTT (r - 1))).
Proof.
  intros Hr. unfold atomic_granule_put_release. rewrite put_release_refines; [|by left|apply wf_count; [done|lia]].
  cbn [a_ref a_locked a_state]. by rewrite (proj2 (Z.eqb_neq _ _)) by lia.
Qed.

(** What clearing does to the entries from index [i] on. *)
Definition cleared (h i : Z) (t t' : list Z) : Prop :=
  length t' = length t /\
  forall j e, arr_get t j = Some e ->
    arr_get t' j = Some (if (i <=? j) && mineb e h then s2tte_clear_drain_pending e else e).

Lemma clear_loop_ok n : forall i u g h t (Q : unit -> urmm -> Prop),
  Z.of_nat n = S2TTES_PER_S2TT - i -> 0 <= i -> length t = N_S2TTES ->
  leaf_at u g t -> leaf_locked u g (table_refs ctx level t) ->
  (forall j e, arr_get t j = Some e -> entry_ok ctx level e) ->
  (forall j e, arr_get t j = Some e -> owes e h = false) ->
  (forall t' evs, cleared h i t t' -> keeps_memory evs -> Q tt (leaf_set u g (table_refs ctx level t') t' evs)) ->
  runs (clear_loop n g i h) u Q.
Proof.
  induction n as [|n IH]; intros i u g h t Q Hn Hi Hlen Ht Hd Hok Hno HQ; cbn [clear_loop].
  { apply runs_ret. rewrite <- (leaf_set_id u g (table_refs ctx level t) t Ht Hd). apply HQ; [|apply keeps_nil].
    split; [done|]. intros j e He. rewrite (proj2 (Z.leb_gt i j)); [done|].
    apply arr_get_lt in He. unfold S2TTES_PER_S2TT, N_S2TTES in *. lia. }
  destruct (arr_get_some t i) as [e He]; [unfold S2TTES_PER_S2TT, N_S2TTES in *; lia|].
  apply (runs_read_entry u g t i e); [done|done|]. apply runs_bind. eapply runs_lift; [apply is_mine_eq|].
  apply runs_bind. destruct (mineb e h) eqn:Hm.
  - pose proof (Hno i e He) as Ho. unfold owes in Ho. rewrite Hm in Ho. cbn in Ho.
    destruct (clear_mark e h (Hok i e He) Hm) as (_ & Hr1 & k & pa & Hk & Hb & Hr0 & Hnd).
    set (v := s2tte_clear_drain_pending e) in *. destruct (arr_set t i v) as [t1|] eqn:Hs;
      [|rewrite arr_set_some in Hs by (by apply arr_get_lt in He); done].
    pose proof (table_refs_set ctx level t i e v t1 He Hs) as Hrefs. pose proof (table_refs_range ctx level t1) as Hrg.
    pose proof (arr_set_length _ _ _ _ Hs) as Hl1. rewrite Hl1, Hlen in Hrg. change (Z.of_nat N_S2TTES) with 512 in Hrg.
    apply runs_bind, runs_guard; [by rewrite Ho|]. apply runs_bind, (runs_write_entry u g t i v t1); [done|done|].
    apply runs_on_rmm. pose proof (table_refs_range ctx level t) as Hrt. rewrite Hlen in Hrt. change (Z.of_nat N_S2TTES) with 512 in Hrt.
    eapply runs_on_desc; [exact Hd|apply put_release_locked; lia|].
    assert (Hnx : forall j x, arr_get t1 j = Some x -> (j = i /\ x = v) \/ (j <> i /\ arr_get t j = Some x)).
    { intros j x Hx. rewrite (arr_get_set _ _ _ _ j Hs) in Hx. destruct (Z.eqb_spec j i); [left|right]; split; congruence. }
    replace (table_refs ctx level t - 1) with (table_refs ctx level t1) by lia.
    match goal with |- runs _ ?s _ => assert (Hu : s = leaf_set u g (table_refs ctx level t1) t1 [E_write g i v]) by done; rewrite Hu; clear Hu end.
    apply (IH (i + 1) _ g h t1); [lia|lia|lia|apply leaf_at_set|apply leaf_locked_set| | |].
    + intros j x [[_ ->]|[_ Hx]]%Hnx; [right; eauto|eauto].
    + intros j x [[_ ->]|[_ Hx]]%Hnx; [|eauto]. unfold owes, mineb. by rewrite Hnd.
    + intros t' evs [Hlt Hcl] Hke. rewrite leaf_set_set. apply HQ; [|apply keeps_app; [by apply keeps_one|done]].
      split; [lia|]. intros j x Hx. destruct (decide (j = i)) as [->|Hne].
      * assert (x = e) as -> by congruence. rewrite Z.leb_refl, Hm. cbn [andb].
        rewrite (Hcl i v) by (by rewrite (arr_get_set _ _ _ _ i Hs), Z.eqb_refl). by rewrite (proj2 (Z.leb_gt _ _)) by lia.
      * rewrite (Hcl j x) by (rewrite (arr_get_set _ _ _ _ j Hs); by rewrite (proj2 (Z.eqb_neq _ _))).
        assert ((i + 1 <=? j) = (i <=? j)) as -> by lia. done.
  - apply runs_ret. apply (IH (i + 1) u g h t); try done; try lia.
    intros t' evs [Hlt Hcl] Hke. apply HQ; [|done]. split; [done|]. intros j x Hx. rewrite (Hcl j x Hx).
    destruct (decide (j = i)) as [->|Hne].
    + assert (x = e) as -> by congruence. by rewrite Hm, !andb_false_r.
    + by assert ((i + 1 <=? j) = (i <=? j)) as -> by lia.
Qed.

End Clear.
