(* ===== verification/UnmapDrain.v ===== *)
(** * Deferred work on the memory: return to DELEGATED

    The drain of [rtt_unmap.c] for realm data: the blocks of the address list are
    returned granule by granule, from where the cursor of the operation points, or
    as one coarse unit.  Whatever interrupts arrive, what has been returned and
    what the cursor says is left always add up to the list. *)

From Stdlib Require Import ZArith Lia Bool ZifyBool.
From stdpp Require Import base tactics option list numbers gmap.
From S2P Require Import Prelude.
From S2P Require Import Utils.
From S2P Require Import Status.
From S2P Require Import Granule.
From S2P Require Import Mem.
From S2P Require Import Arch.
From S2P Require Import AddrList.
From S2P Require Import Sro.
From S2P Require Import S2tte.
From S2P Require Import S2ttTable.
From S2P Require Import Rmm.
From S2P Require Import RttUnmap.
From S2P Require Import RttInv.
From S2P Require Import UnmapPass.

(** ** The lookup of the granule that represents an address *)

(** For each address, either there is no such granule, whatever its state, or
    there is one, of 4KB or of the size of a tracking region, and it is locked
    when it is in the expected state.  A coarse granule is not a fine one, and
    represents all granules of its region. *)
Class ActiveLaws `{active : ActiveLookup} := {
  active_of : Z -> option (Z * Z);
  region_level : exists level, 0 <= level <= 2 /\ tracking_region_get_size = XLAT_BLOCK_SIZE level;
  active_none : forall addr, active_of addr = None ->
    exists status, status <> RMI_SUCCESS /\
      forall m s, exists z, find_lock_active_granule addr s m = Some ((status, None, z), m);
  active_some : forall addr g size, active_of addr = Some (g, size) ->
    exists status, status <> RMI_SUCCESS /\
      forall m s a, granule_at m g a ->
        if negb (a_state a =? s) then exists z, find_lock_active_granule addr s m = Some ((status, None, z), m)
        else if a_locked a then find_lock_active_granule addr s m = None
        else find_lock_active_granule addr s m = Some ((RMI_SUCCESS, Some g, Some size), with_lock m g);
  active_kind : forall addr g size, active_of addr = Some (g, size) ->
    (size = GRANULE_SIZE /\ tr_addr_to_granule addr = Some g) \/
    (size = tracking_region_get_size /\ forall p, tr_addr_to_granule p <> Some g);
  active_region : forall addr addr' g, active_of addr = Some (g, tracking_region_get_size) -> (GRANULE_SIZE | addr') ->
    addr' / tracking_region_get_size = addr / tracking_region_get_size -> active_of addr' = Some (g, tracking_region_get_size)
}.

(** Memory changed and events logged by code that does not touch tables. *)
Definition mem_step (u : urmm) (m : mem) (evs : list event) (k : nat) : urmm :=
  URmm (with_log (with_mem (u_rmm u) m) evs) (u_devs u) (u_sro u) k (u_polls u).

Lemma mem_step_step u m1 e1 k1 m2 e2 k2 : mem_step (mem_step u m1 e1 k1) m2 e2 k2 = mem_step u m2 (e1 ++ e2) k2.
Proof. unfold mem_step, with_log, with_mem. cbn. by rewrite app_assoc. Qed.

Lemma mem_step_id u : mem_step u (r_mem (u_rmm u)) [] (u_isr u) = u.
Proof. destruct u as [[m rds vt lg] dv sr ci cp]. unfold mem_step, with_log, with_mem. cbn. by rewrite app_nil_r. Qed.

(** [m'] is [m] with the granules of [X] returned. *)
Record drained (m m' : mem) (X : Z -> Prop) : Prop := {
  dr_tables : tables m' = tables m;
  dr_in : forall x, X x -> granule_at m x (AGranule false GRANULE_STATE_DATA 0) /\
    granule_at m' x (AGranule false GRANULE_STATE_DELEGATED 0);
  dr_out : forall x, ~ X x -> descs m' !! x = descs m !! x
}.

Lemma drained_none m X : (forall x, ~ X x) -> drained m m X.
Proof. intros H. split; try done. intros x Hx. by destruct (H x). Qed.

Lemma drained_ext m m' X Y : (forall x, X x <-> Y x) -> drained m m' X -> drained m m' Y.
Proof. intros He [H1 H2 H3]. split; [done| |]; intros x Hx; [apply H2|apply H3]; by rewrite He. Qed.

Lemma drained_trans m m1 m2 X Y :
  drained m m1 X -> drained m1 m2 Y -> (forall x, X x -> Y x -> False) ->
  (forall x, X x \/ ~ X x) -> drained m m2 (fun x => X x \/ Y x).
Proof.
  intros [T1 I1 O1] [T2 I2 O2] Hd Hdec. split; [congruence| |].
  - intros x [Hx|Hy].
    + destruct (I1 x Hx) as [H1 H2]. split; [done|]. eapply granule_at_descs; [|exact H2]. apply O2. intros Hy. by eapply Hd.
    + destruct (I2 x Hy) as [H1 H2]. split; [|done]. eapply granule_at_descs; [|exact H1]. symmetry. apply O1. intros Hx. by eapply Hd.
  - intros x Hn. rewrite O2, O1; tauto.
Qed.

Lemma to_delegated_locked :
  granule_unlock_transition_to_delegated (encode GRN (AGranule true GRANULE_STATE_DATA 0))
  = Some (encode GRN (AGranule false GRANULE_STATE_DELEGATED 0)).
Proof. reflexivity. Qed.
Lemma partial_to_delegated :
  granule_unlock_transition (encode GRN (AGranule true GRANULE_STATE_PARTIAL 0)) GRANULE_STATE_DELEGATED
  = Some (encode GRN (AGranule false GRANULE_STATE_DELEGATED 0)).
Proof. reflexivity. Qed.
Lemma data_to_partial :
  granule_unlock_transition (encode GRN (AGranule true GRANULE_STATE_DATA 0)) GRANULE_STATE_PARTIAL
  = Some (encode GRN (AGranule false GRANULE_STATE_PARTIAL 0)).
Proof. reflexivity. Qed.

Lemma delegated_at ds ts g : granule_at (Mem (<[g := encode GRN (AGranule false GRANULE_STATE_DELEGATED 0)]> ds) ts) g
  (AGranule false GRANULE_STATE_DELEGATED 0).
Proof. split; [apply lookup_insert_eq|]. split; [apply wf_count; (done || lia)|done]. Qed.

Section Drain.
Context `{laws : ActiveLaws} `{env : UnmapEnv}.
Implicit Types (ctx : sro_unmap_ctx) (al : addr_list).

(** The granules of the pages from [lo] to [hi]. *)
Definition pages_in (lo hi x : Z) : Prop :=
  exists p, lo <= p < hi /\ (GRANULE_SIZE | p) /\ tr_addr_to_granule p = Some x.
(** Each page is a granule of its own, with realm data and no other reference. *)
Definition fine_data (m : mem) (lo hi : Z) : Prop :=
  forall p, lo <= p < hi -> (GRANULE_SIZE | p) ->
    exists g, active_of p = Some (g, GRANULE_SIZE) /\ granule_at m g (AGranule false GRANULE_STATE_DATA 0).

Lemma fine_size g p size : active_of p = Some (g, size) -> size = GRANULE_SIZE -> tr_addr_to_granule p = Some g.
Proof.
  intros Ha ->. destruct (active_kind _ _ _ Ha) as [[_ H]|[H _]]; [done|]. exfalso.
  destruct region_level as (l & Hl & He). rewrite He in H.
  assert (l = 0 \/ l = 1 \/ l = 2) as [-> | [-> | ->]] by lia; discriminate H.
Qed.

Lemma pages_in_unique p q x : tr_addr_to_granule p = Some x -> tr_addr_to_granule q = Some x -> p = q.
Proof. intros Hp%granule_names_inverse Hq%granule_names_inverse. congruence. Qed.

(** The page after [p] in steps of 4KB. *)
Lemma next_page p q : (GRANULE_SIZE | p) -> (GRANULE_SIZE | q) -> p <= q -> q <> p -> p + GRANULE_SIZE <= q.
Proof. intros [a ->] [b ->]. change GRANULE_SIZE with 4096. lia. Qed.

Lemma drain_one_ok u p g (Q : Z -> urmm -> Prop) :
  active_of p = Some (g, GRANULE_SIZE) -> granule_at (r_mem (u_rmm u)) g (AGranule false GRANULE_STATE_DATA 0) ->
  (forall m', drained (r_mem (u_rmm u)) m' (fun x => x = g) -> Q GRANULE_SIZE (mem_step u m' [E_delegated g] (u_isr u))) ->
  runs (drain_fine_one p RTT_UNMAP_FLAVOR_DATA) u Q.
Proof.
  intros Ha Hg HQ. unfold drain_fine_one. cbn [flavor_is bool_decide decide_rel].
  change (flavor_is RTT_UNMAP_FLAVOR_DATA RTT_UNMAP_FLAVOR_DATA) with true. cbn iota.
  destruct (active_some _ _ _ Ha) as (st & _ & Hf). pose proof (Hf _ GRANULE_STATE_DATA _ Hg) as Hl. cbn [a_state a_locked negb] in Hl.
  rewrite Z.eqb_refl in Hl. cbn [negb] in Hl. apply runs_bind, runs_on_rmm. eapply runs_on_mem; [exact Hl|].
  apply runs_bind, runs_guard; [done|]. apply runs_bind. eapply runs_lift; [done|]. apply runs_bind. eapply runs_lift; [done|].
  apply runs_bind, runs_guard; [done|]. apply runs_bind, runs_bind, runs_on_rmm.
  assert (Hlk : granule_at (with_lock (r_mem (u_rmm u)) g) g (AGranule true GRANULE_STATE_DATA 0))
    by (by apply (granule_at_with_lock _ _ (AGranule false GRANULE_STATE_DATA 0))).
  eapply runs_on_desc; [apply Hlk|apply to_delegated_locked|]. apply runs_on_rmm, runs_emit, runs_ret.
  match goal with |- Q _ ?s => assert (Hs : s = mem_step u (set_granule (with_lock (r_mem (u_rmm u)) g) g
      (AGranule false GRANULE_STATE_DELEGATED 0)) [E_delegated g] (u_isr u)) by done; rewrite Hs; clear Hs end.
  apply HQ. split; [done| |].
  - intros x ->. split; [done|]. apply delegated_at.
  - intros x Hx. cbn. rewrite lookup_insert_ne by congruence. by rewrite lookup_alter_ne by congruence.
Qed.

(** The loop over the granules of a block. *)
Lemma drain_fine_loop_ok n : forall end_ ctx u (Q : bool * sro_unmap_ctx -> urmm -> Prop),
  0 <= pending_pa ctx <= end_ -> end_ <= 2 ^ 52 -> (GRANULE_SIZE | pending_pa ctx) -> (GRANULE_SIZE | end_) ->
  end_ - pending_pa ctx = Z.of_nat n * GRANULE_SIZE -> fine_data (r_mem (u_rmm u)) (pending_pa ctx) end_ ->
  (forall (y : bool) mid m' evs k, ticks (u_isr u) y k -> pending_pa ctx <= mid <= end_ -> (GRANULE_SIZE | mid) -> (if y then mid < end_ else mid = end_) ->
     drained (r_mem (u_rmm u)) m' (pages_in (pending_pa ctx) mid) ->
     Q (y, set_pending_pa mid ctx) (mem_step u m' evs k)) ->
  runs (drain_fine_loop n end_ RTT_UNMAP_FLAVOR_DATA ctx) u Q.
Proof.
  induction n as [|n IH]; intros end_ ctx u Q Hlo H52 Hal Hae Hn Hfd HQ; cbn [drain_fine_loop].
  all: assert (Hnone : drained (r_mem (u_rmm u)) (r_mem (u_rmm u)) (pages_in (pending_pa ctx) (pending_pa ctx)))
    by (apply drained_none; intros x (p & Hp & _); lia).
  all: assert (Hsame : set_pending_pa (pending_pa ctx) ctx = ctx) by (by destruct ctx).
  { rewrite (proj2 (Z.ltb_ge _ _)) by lia. apply runs_ret. rewrite <- (mem_step_id u), <- Hsame.
    apply HQ; try done; try lia. }
  change GRANULE_SIZE with 4096 in Hn. rewrite (proj2 (Z.ltb_lt _ _)) by lia. apply runs_bind, runs_irq.
  set (u1 := URmm _ _ _ _ _). destruct (isr_pending (u_isr u)) eqn:Ei.
  { apply runs_ret. assert (Hu1 : u1 = mem_step u (r_mem (u_rmm u)) [] (S (u_isr u))).
    { destruct u as [[m rds vt lg] dv sr ci cp]. unfold u1, mem_step, with_log, with_mem. cbn. by rewrite app_nil_r. }
    rewrite Hu1, <- Hsame. apply (HQ true); try done; try lia. by apply ticks_irq. }
  destruct (Hfd (pending_pa ctx) ltac:(lia) Hal) as (g & Ha & Hg). pose proof (fine_size _ _ _ Ha eq_refl) as Hnm.
  apply runs_bind, (drain_one_ok u1 _ g); [done|done|]. intros m1 Hd1.
  assert (Hadd : add64 (pending_pa ctx) GRANULE_SIZE = pending_pa ctx + GRANULE_SIZE)
    by (unfold add64; apply u64_small; unfold in_u64; change GRANULE_SIZE with 4096; lia).
  rewrite Hadd. apply IH.
  - cbn. change GRANULE_SIZE with 4096. lia.
  - done.
  - cbn. apply Z.divide_add_r; [done|apply Z.divide_refl].
  - done.
  - cbn. change GRANULE_SIZE with 4096. lia.
  - intros p Hp Hap. cbn in Hp. change GRANULE_SIZE with 4096 in Hp. destruct (Hfd p ltac:(lia) Hap) as (g2 & Ha2 & Hg2).
    exists g2. split; [done|]. eapply granule_at_descs; [|exact Hg2]. apply (dr_out _ _ _ Hd1). intros ->.
    pose proof (pages_in_unique _ _ _ Hnm (fine_size _ _ _ Ha2 eq_refl)). lia.
  - intros y mid m' evs k Htk Hmid Ham Hy Hd2. apply (ticks_trans (u_isr u)) in Htk; [|cbn; lia]. cbn [pending_pa set_pending_pa set_cursor] in Hmid, Hd2.
    change (GRANULE_SIZE) with 4096 in Hmid. rewrite mem_step_step.
    apply HQ; [done|lia|done|done|].
    eapply drained_ext; [|eapply drained_trans; [exact Hd1|exact Hd2| |]].
    + intros x. split.
      * intros [->|(p & Hp & Hap & Hx)]; [exists (pending_pa ctx); split_and!; try done; lia|].
        exists p. change GRANULE_SIZE with 4096 in Hp. split_and!; try done; lia.
      * intros (p & Hp & Hap & Hx). destruct (decide (p = pending_pa ctx)) as [->|Hne]; [left; congruence|right].
        exists p. split_and!; try done; [|lia]. by apply next_page; [| |lia|].
    + intros x -> (p & Hp & _ & Hx). pose proof (pages_in_unique _ _ _ Hnm Hx). change GRANULE_SIZE with 4096 in Hp. lia.
    + intros x. destruct (decide (x = g)); auto.
Qed.

(** ** The pages of a list, and those the cursor has left *)

Definition pages_from (lo n : Z) : list Z := (fun i => lo + i * GRANULE_SIZE) <$> seqZ 0 n.
Definition block_pages (b : block) : list Z := let '(a, level, _) := b in pages_from a (level_size level / GRANULE_SIZE).
Definition pages_of (bs : list block) : list Z := bs ≫= block_pages.
Definition blocks_left al (d b : Z) : list block := drop (Z.to_nat b) (drop (Z.to_nat d) (descs_of al) ≫= desc_blocks).
Definition head_addr (bs : list block) : Z := match bs with (a, _, _) :: _ => a | [] => 0 end.
Definition pages_left al ctx : list Z :=
  let bs := blocks_left al (pending_desc_idx ctx) (pending_blk_idx ctx) in
  if pending_pa ctx =? NO_ADDR then pages_of bs
  else drop (Z.to_nat ((pending_pa ctx - head_addr bs) / GRANULE_SIZE)) (pages_of bs).

Definition granules_of (ps : list Z) (x : Z) : Prop := exists p, p ∈ ps /\ tr_addr_to_granule p = Some x.

Lemma elem_of_pages_from p lo n :
  p ∈ pages_from lo n <-> exists i, 0 <= i < n /\ p = lo + i * GRANULE_SIZE.
Proof.
  unfold pages_from. rewrite list_elem_of_fmap. split.
  - intros (i & -> & Hi%elem_of_seqZ). exists i. split; [lia|done].
  - intros (i & Hi & ->). exists i. split; [done|]. apply elem_of_seqZ. lia.
Qed.

Lemma pages_from_app lo n m : 0 <= n -> 0 <= m -> pages_from lo (n + m) = pages_from lo n ++ pages_from (lo + n * GRANULE_SIZE) m.
Proof.
  intros Hn Hm. unfold pages_from. rewrite seqZ_app, fmap_app by lia. f_equal. replace (0 + n) with (n + 0) by lia.
  rewrite <- (fmap_add_seqZ n 0), <- list_fmap_compose. apply list_fmap_ext. intros i x Hx. cbn. lia.
Qed.

Lemma pages_from_length lo n : length (pages_from lo n) = Z.to_nat n.
Proof. unfold pages_from. by rewrite length_fmap, length_seqZ. Qed.

Lemma level_size_pages level : 0 <= level <= 3 -> level_size level = level_size level / GRANULE_SIZE * GRANULE_SIZE /\
  0 < level_size level / GRANULE_SIZE /\ XLAT_BLOCK_SIZE level = level_size level.
Proof. intros H. assert (level = 0 \/ level = 1 \/ level = 2 \/ level = 3) as [-> | [-> | [-> | ->]]] by lia; by vm_compute. Qed.

Lemma pages_in_from lo k x : (GRANULE_SIZE | lo) -> 0 <= k ->
  pages_in lo (lo + k * GRANULE_SIZE) x <-> granules_of (pages_from lo k) x.
Proof.
  intros [c ->] Hk. change GRANULE_SIZE with 4096. unfold pages_in, granules_of. split.
  - intros (p & Hp & [q ->] & Hx). change GRANULE_SIZE with 4096 in *. exists (q * 4096). split; [|done].
    apply elem_of_pages_from. exists (q - c). change GRANULE_SIZE with 4096. lia.
  - intros (p & (i & Hi & ->)%elem_of_pages_from & Hx). eexists. split; [|split; [|exact Hx]].
    + change GRANULE_SIZE with 4096. lia.
    + apply Z.divide_add_r; [apply Z.divide_factor_r|apply Z.divide_factor_r].
Qed.

Lemma granules_of_app ps qs x : granules_of (ps ++ qs) x <-> granules_of ps x \/ granules_of qs x.
Proof.
  unfold granules_of. split.
  - intros (p & [Hp|Hp]%elem_of_app & Hx); [left|right]; by exists p.
  - intros [(p & Hp & Hx)|(p & Hp & Hx)]; exists p; (split; [apply elem_of_app; auto|done]).
Qed.

Lemma granules_of_dec ps x : granules_of ps x \/ ~ granules_of ps x.
Proof.
  induction ps as [|p ps IH]; [right; intros (p & Hp & _); by apply elem_of_nil in Hp|].
  destruct (decide (tr_addr_to_granule p = Some x)) as [H|H]; [left; exists p; split; [by left|done]|].
  destruct IH as [(q & Hq & Hx)|IH]; [left; exists q; split; [by right|done]|right].
  intros (q & [->|Hq]%elem_of_cons & Hx); [done|]. apply IH. by exists q.
Qed.

(** Draining the pages one after the other, all different, adds up. *)
Lemma drained_app m m1 m2 ps qs :
  NoDup (ps ++ qs) -> drained m m1 (granules_of ps) -> drained m1 m2 (granules_of qs) -> drained m m2 (granules_of (ps ++ qs)).
Proof.
  intros (_ & Hd & _)%NoDup_app H1 H2. eapply drained_ext; [|eapply (drained_trans _ _ _ _ _ H1 H2)].
  - intros x. by rewrite granules_of_app.
  - intros x (p & Hp & Hx) (q & Hq & Hy). rewrite (pages_in_unique _ _ _ Hx Hy) in Hp. by apply (Hd q).
  - apply granules_of_dec.
Qed.

(** Every page to drain is a granule of its own with realm data. *)
Definition fine_pages (m : mem) (ps : list Z) : Prop :=
  forall p, p ∈ ps -> exists g, active_of p = Some (g, GRANULE_SIZE) /\ granule_at m g (AGranule false GRANULE_STATE_DATA 0).

Lemma fine_pages_rest m m1 ps qs :
  NoDup (ps ++ qs) -> fine_pages m (ps ++ qs) -> drained m m1 (granules_of ps) -> fine_pages m1 qs.
Proof.
  intros (_ & Hd & _)%NoDup_app Hf H1 q Hq. destruct (Hf q) as (g & Ha & Hg); [apply elem_of_app; by right|].
  exists g. split; [done|]. eapply granule_at_descs; [|exact Hg]. apply (dr_out _ _ _ H1). intros (p & Hp & Hx).
  pose proof (fine_size _ _ _ Ha eq_refl) as Hy. rewrite (pages_in_unique _ _ _ Hx Hy) in Hp. by apply (Hd q).
Qed.

(** ** The cursor *)

Record cursor_ok al ctx : Prop := {
  co_desc : 0 <= pending_desc_idx ctx <= al_count al;
  co_blk : 0 <= pending_blk_idx ctx;
  co_in : forall d, descs_of al !! Z.to_nat (pending_desc_idx ctx) = Some d -> pending_blk_idx ctx <= get_cnt_from_desc d;
  co_pa : pending_pa ctx <> NO_ADDR -> exists d,
    descs_of al !! Z.to_nat (pending_desc_idx ctx) = Some d /\ pending_blk_idx ctx < get_cnt_from_desc d /\
    let base := get_addr_from_desc d + pending_blk_idx ctx * desc_blk_size d in
    base <= pending_pa ctx < base + desc_blk_size d /\ (GRANULE_SIZE | pending_pa ctx)
}.

Lemma blocks_left_desc al d i b :
  descs_of al !! Z.to_nat i = Some d -> 0 <= b <= get_cnt_from_desc d -> 0 <= i ->
  blocks_left al i b = drop (Z.to_nat b) (desc_blocks d) ++ blocks_left al (i + 1) 0.
Proof.
  intros Hd Hb Hi. unfold blocks_left. rewrite (drop_S _ _ _ Hd). cbn [mbind list_bind]. rewrite drop_0, Z2Nat.inj_add by lia.
  change (Z.to_nat 1) with 1%nat. rewrite Nat.add_1_r. apply drop_app_le. unfold desc_blocks, range_blocks.
  rewrite length_fmap, length_seqZ. lia.
Qed.

Lemma range_blocks_drop addr cnt sz st n : 0 <= n <= cnt ->
  drop (Z.to_nat n) (range_blocks addr cnt sz st) = range_blocks (addr + n * 2 ^ (12 + 9 * sz)) (cnt - n) sz st.
Proof.
  intros [Hn Hc]. revert addr cnt Hc. pattern n. apply natlike_ind; [|clear n Hn; intros n Hn IH|done]; intros addr cnt Hc.
  - change (Z.to_nat 0) with 0%nat. rewrite drop_0. f_equal; lia.
  - rewrite Z2Nat.inj_succ, (range_blocks_cons addr cnt) by lia. cbn [drop]. rewrite IH by lia. f_equal; lia.
Qed.

Lemma blocks_left_head al d i b :
  descs_of al !! Z.to_nat i = Some d -> 0 <= b < get_cnt_from_desc d -> 0 <= i ->
  blocks_left al i b = (get_addr_from_desc d + b * desc_blk_size d, 3 - get_sz_from_desc d, get_st_from_desc d) :: blocks_left al i (b + 1).
Proof.
  intros Hd Hb Hi. rewrite (blocks_left_desc al d i b), (blocks_left_desc al d i (b + 1)) by (done || lia).
  unfold desc_blocks. rewrite !range_blocks_drop by lia.
  rewrite range_blocks_cons by lia. rewrite (proj1 (blk_size_eq d)). cbn [app]. f_equal. f_equal. f_equal; lia.
Qed.

Lemma blocks_left_next al d i b :
  descs_of al !! Z.to_nat i = Some d -> b = get_cnt_from_desc d -> 0 <= i -> blocks_left al i b = blocks_left al (i + 1) 0.
Proof.
  intros Hd -> Hi. destruct (get_ranges d) as (Hc & _). rewrite (blocks_left_desc al d) by (done || lia).
  unfold desc_blocks. rewrite range_blocks_drop by lia. by rewrite Z.sub_diag.
Qed.

Lemma blocks_left_end al b : al_wf al -> blocks_left al (al_count al) b = [].
Proof.
  intros [Hl Hb _]. unfold blocks_left. rewrite (drop_ge (descs_of al)); [apply drop_nil|].
  unfold descs_of. rewrite length_take. lia.
Qed.

(** The last page of the current block drained, the next block is what is left. *)
Lemma pages_left_block al ctx d :
  descs_of al !! Z.to_nat (pending_desc_idx ctx) = Some d -> 0 <= pending_desc_idx ctx ->
  0 <= pending_blk_idx ctx < get_cnt_from_desc d ->
  let base := get_addr_from_desc d + pending_blk_idx ctx * desc_blk_size d in
  base <= pending_pa ctx <= base + desc_blk_size d -> (GRANULE_SIZE | pending_pa ctx) -> pending_pa ctx <> NO_ADDR ->
  pages_left al ctx = pages_from (pending_pa ctx) ((base + desc_blk_size d - pending_pa ctx) / GRANULE_SIZE)
    ++ pages_left al (set_cursor (pending_desc_idx ctx) (pending_blk_idx ctx + 1) NO_ADDR ctx).
Proof.
  intros Hd Hi Hb base Hpa Hal Hne. unfold pages_left. rewrite (proj2 (Z.eqb_neq _ _) Hne). cbn [pending_pa pending_desc_idx pending_blk_idx set_cursor].
  rewrite Z.eqb_refl, (blocks_left_head al d) by done. fold base. cbn [head_addr]. unfold pages_of. cbn [mbind list_bind].
  destruct (blk_size_eq d) as [Hsz Hszr]. destruct (get_ranges d) as (_ & _ & Hga).
  assert (Hls : level_size (3 - get_sz_from_desc d) = desc_blk_size d) by (unfold level_size; rewrite Hsz; f_equal; lia).
  destruct (level_size_pages (3 - get_sz_from_desc d)) as (Hm & Hpos & _); [lia|]. rewrite Hls in Hm, Hpos. unfold block_pages at 1. rewrite Hls.
  set (n := desc_blk_size d / GRANULE_SIZE) in *.
  assert (Hbase : (GRANULE_SIZE | base)).
  { apply Z.divide_add_r; [exact Hga|]. rewrite Hm. exists (pending_blk_idx ctx * n). lia. }
  destruct Hbase as [q Hq]. destruct Hal as [r Hr].
  assert (Hk1 : (pending_pa ctx - base) / GRANULE_SIZE = r - q) by (rewrite Hq, Hr, <- Z.mul_sub_distr_r; by rewrite Z.div_mul).
  assert (Hk2 : (base + desc_blk_size d - pending_pa ctx) / GRANULE_SIZE = n - (r - q)).
  { rewrite Hm, Hq, Hr. replace (q * GRANULE_SIZE + n * GRANULE_SIZE - r * GRANULE_SIZE) with ((n - (r - q)) * GRANULE_SIZE) by lia.
    by rewrite Z.div_mul. }
  rewrite Hk1, Hk2. rewrite Hm, Hq, Hr in Hpa. change GRANULE_SIZE with 4096 in Hpa.
  replace n with ((r - q) + (n - (r - q))) at 1 by lia. rewrite pages_from_app by lia.
  rewrite <- app_assoc, drop_app_length' by (rewrite pages_from_length; lia). f_equal.
  replace (base + (r - q) * GRANULE_SIZE) with (pending_pa ctx); [done|]. rewrite Hq, Hr. lia.
Qed.

Lemma pages_left_start al ctx d :
  descs_of al !! Z.to_nat (pending_desc_idx ctx) = Some d -> 0 <= pending_desc_idx ctx ->
  0 <= pending_blk_idx ctx < get_cnt_from_desc d -> pending_pa ctx = NO_ADDR ->
  get_addr_from_desc d + pending_blk_idx ctx * desc_blk_size d <> NO_ADDR ->
  pages_left al ctx = pages_left al (set_pending_pa (get_addr_from_desc d + pending_blk_idx ctx * desc_blk_size d) ctx).
Proof.
  intros Hd Hi Hb Hpa Hne. unfold pages_left. rewrite Hpa, Z.eqb_refl. cbn [pending_pa pending_desc_idx pending_blk_idx set_cursor set_pending_pa].
  rewrite (proj2 (Z.eqb_neq _ _) Hne), (blocks_left_head al d) by done. cbn [head_addr]. by rewrite Z.sub_diag.
Qed.

(** ** The loops over blocks and descriptors *)

Lemma block_geo al ctx d :
  al_wf al -> descs_of al !! Z.to_nat (pending_desc_idx ctx) = Some d -> 0 <= pending_blk_idx ctx < get_cnt_from_desc d ->
  let base := get_addr_from_desc d + pending_blk_idx ctx * desc_blk_size d in
  0 <= base /\ base + desc_blk_size d <= 2 ^ 52 /\ (GRANULE_SIZE | base) /\ (GRANULE_SIZE | desc_blk_size d) /\
  0 < desc_blk_size d /\ add64 (get_addr_from_desc d) (mul64 (pending_blk_idx ctx) (desc_blk_size d)) = base.
Proof.
  intros Hwf Hd Hb base. pose proof (Forall_lookup_1 _ _ _ _ (al_descs _ Hwf) Hd) as [_ Htop].
  destruct (blk_size_eq d) as [Hsz Hszr]. destruct (get_ranges d) as (Hc & Ha & Hga).
  assert (Hpos : 0 < desc_blk_size d) by (rewrite Hsz; apply Z.pow_pos_nonneg; lia).
  assert (Hdiv : (GRANULE_SIZE | desc_blk_size d)).
  { rewrite Hsz. exists (2 ^ (9 * get_sz_from_desc d)). change GRANULE_SIZE with (2 ^ 12). rewrite <- Z.pow_add_r by lia. f_equal. lia. }
  assert (H1 : 0 <= pending_blk_idx ctx * desc_blk_size d <= (get_cnt_from_desc d - 1) * desc_blk_size d) by nia.
  assert (Hle : 0 <= base /\ base + desc_blk_size d <= 2 ^ 52) by (unfold base; split; [lia|]; replace (get_cnt_from_desc d * desc_blk_size d)
    with ((get_cnt_from_desc d - 1) * desc_blk_size d + desc_blk_size d) in Htop by lia; lia).
  split_and!; try tauto.
  - apply Z.divide_add_r; [exact Hga|]. by apply Z.divide_mul_r.
  - unfold mul64, add64. rewrite (u64_small (_ * _)) by (unfold in_u64; lia). apply u64_small. unfold in_u64. fold base. lia.
Qed.

Lemma set_pa_twice a b ctx : set_pending_pa a (set_pending_pa b ctx) = set_pending_pa a ctx.
Proof. done. Qed.

Lemma drain_block_ok al ctx u d (Q : bool * sro_unmap_ctx -> urmm -> Prop) :
  al_wf al -> cursor_ok al ctx -> g_coarse ctx = None -> g_coarse_dev ctx = None ->
  descs_of al !! Z.to_nat (pending_desc_idx ctx) = Some d -> pending_blk_idx ctx < get_cnt_from_desc d ->
  fine_pages (r_mem (u_rmm u)) (pages_left al ctx) ->
  let base := get_addr_from_desc d + pending_blk_idx ctx * desc_blk_size d in
  let next y mid := if y : bool then set_pending_pa mid ctx
                    else set_cursor (pending_desc_idx ctx) (pending_blk_idx ctx + 1) NO_ADDR ctx in
  (forall (y : bool) mid m' evs k done, ticks (u_isr u) y k -> base <= mid <= base + desc_blk_size d -> (GRANULE_SIZE | mid) ->
     (y = true -> mid < base + desc_blk_size d) -> pages_left al ctx = done ++ pages_left al (next y mid) ->
     drained (r_mem (u_rmm u)) m' (granules_of done) -> Q (y, set_pending_pa mid ctx) (mem_step u m' evs k)) ->
  runs (drain_block ctx al RTT_UNMAP_FLAVOR_DATA (get_cnt_from_desc d) base (desc_blk_size d)) u Q.
Proof.
  intros Hwf [Hcd Hcb Hci Hcp] Hg1 Hg2 Hd Hb Hfp base next HQ.
  destruct (block_geo al ctx d Hwf Hd ltac:(lia)) as (Hb0 & Htop & Hba & Hsa & Hpos & _). fold base in Hb0, Htop, Hba.
  unfold drain_block. set (ctx0 := if pending_pa ctx =? NO_ADDR then set_pending_pa base ctx else ctx).
  assert (Hna : base + desc_blk_size d <= NO_ADDR) by (etransitivity; [exact Htop|]; by vm_compute).
  assert (H0 : base <= pending_pa ctx0 < base + desc_blk_size d /\ (GRANULE_SIZE | pending_pa ctx0) /\
     ctx0 = set_pending_pa (pending_pa ctx0) ctx /\ pages_left al ctx = pages_left al ctx0).
  { unfold ctx0. destruct (Z.eqb_spec (pending_pa ctx) NO_ADDR) as [E|E].
    - split_and!; [cbn; lia|cbn; lia|done|done|]. apply pages_left_start; try done; lia.
    - destruct (Hcp E) as (d' & Hd' & _ & Hr & Hdv). assert (d' = d) as -> by congruence. split_and!; try done; try (fold base in Hr; lia).
      by destruct ctx. }
  destruct H0 as (Hpa & Hpal & Hctx & Hpl). clearbody ctx0. set (pa := pending_pa ctx0) in *.
  assert (Hend : add64 base (desc_blk_size d) = base + desc_blk_size d) by (unfold add64; apply u64_small; unfold in_u64; lia).
  rewrite Hend. apply runs_bind, runs_guard; [lia|]. apply runs_bind, runs_guard; [lia|].
  assert (Hgs : g_coarse ctx0 = None /\ g_coarse_dev ctx0 = None) by (rewrite Hctx; done). destruct Hgs as [-> ->].
  assert (Hcur : pending_desc_idx ctx0 = pending_desc_idx ctx /\ pending_blk_idx ctx0 = pending_blk_idx ctx) by (rewrite Hctx; done).
  destruct Hcur as [Hc1 Hc2]. pose proof (pages_left_block al ctx0 d) as Hblk. rewrite Hc1, Hc2 in Hblk.
  specialize (Hblk Hd ltac:(lia) ltac:(lia)). fold base in Hblk. specialize (Hblk ltac:(fold pa; lia) ltac:(done) ltac:(fold pa; lia)).
  assert (Hedge : (GRANULE_SIZE | base + desc_blk_size d)) by (by apply Z.divide_add_r).
  destruct Hedge as [e He]. destruct Hpal as [q Hq]. change GRANULE_SIZE with 4096 in He, Hq.
  unfold rtt_unmap_drain_fine. apply drain_fine_loop_ok; fold pa; try lia; [exists q; done|exists e; done| | |].
  - rewrite He, Hq. change GRANULE_SIZE with 4096. rewrite <- Z.mul_sub_distr_r, Z.div_mul by lia. lia.
  - intros p Hp [r Hr]. apply Hfp. rewrite Hpl, Hblk. apply elem_of_app. left. apply elem_of_pages_from. exists (r - q).
    rewrite Hr, Hq, He in *. change GRANULE_SIZE with 4096 in *. fold pa. rewrite Hq, <- Z.mul_sub_distr_r, Z.div_mul by lia. lia.
  - intros y mid m' evs k Htk Hmid [r Hr] Hy Hdr. rewrite Hctx, set_pa_twice. change GRANULE_SIZE with 4096 in Hr.
    assert (Hrq : q <= r <= e) by lia. apply (HQ y mid m' evs k (pages_from pa (r - q))); [done|lia|exists r; done|by intros ->| |].
    + rewrite Hpl, Hblk. fold pa. replace ((base + desc_blk_size d - pa) / GRANULE_SIZE) with (e - q)
        by (rewrite He, Hq; change GRANULE_SIZE with 4096; by rewrite <- Z.mul_sub_distr_r, Z.div_mul by lia).
      replace (e - q) with ((r - q) + (e - r)) by lia. rewrite pages_from_app by lia. rewrite <- app_assoc. f_equal.
      replace (pa + (r - q) * GRANULE_SIZE) with mid by (change GRANULE_SIZE with 4096; lia). unfold next. destruct y.
      * pose proof (pages_left_block al (set_pending_pa mid ctx) d) as Hb2.
        cbn [pending_desc_idx pending_blk_idx pending_pa set_pending_pa set_cursor] in Hb2. fold base in Hb2.
        rewrite Hb2; [|done|lia|lia|lia|exists r; done|lia]. rewrite Hctx. f_equal. f_equal.
        rewrite He, Hr. change GRANULE_SIZE with 4096. by rewrite <- Z.mul_sub_distr_r, Z.div_mul by lia.
      * replace (e - r) with 0 by lia. cbn [app]. rewrite Hctx. done.
    + eapply drained_ext; [|exact Hdr]. intros x. replace mid with (pa + (r - q) * GRANULE_SIZE) by (change GRANULE_SIZE with 4096; lia).
      apply pages_in_from; [exists q; done|lia].
Qed.

Lemma peek_desc_eq al i : al_wf al -> 0 <= i < al_count al -> exists d, descs_of al !! Z.to_nat i = Some d /\
  addr_list_peek_desc al i = Some (Some (get_addr_from_desc d, 3 - get_sz_from_desc d, get_cnt_from_desc d, get_st_from_desc d)).
Proof.
  intros Hwf Hi. destruct (descs_some al i Hwf Hi) as (d & Hd & Hd' & _). exists d. split; [done|].
  unfold addr_list_peek_desc. rewrite (proj2 (Z.leb_gt _ _)) by lia. by rewrite Hd.
Qed.

Lemma drain_pending_loop_ok n : forall al ctx u (Q : bool * sro_unmap_ctx -> urmm -> Prop),
  al_wf al -> cursor_ok al ctx -> g_coarse ctx = None -> g_coarse_dev ctx = None ->
  al_count al - pending_desc_idx ctx + Z.of_nat (length (blocks_left al (pending_desc_idx ctx) (pending_blk_idx ctx))) <= Z.of_nat n ->
  NoDup (pages_left al ctx) -> fine_pages (r_mem (u_rmm u)) (pages_left al ctx) ->
  (forall (y : bool) d b pa m' evs k done, let ctx' := set_cursor d b pa ctx in
     ticks (u_isr u) y k -> cursor_ok al ctx' -> pages_left al ctx = done ++ pages_left al ctx' -> (y = false -> pages_left al ctx' = []) ->
     drained (r_mem (u_rmm u)) m' (granules_of done) -> Q (y, ctx') (mem_step u m' evs k)) ->
  runs (drain_pending_loop n al RTT_UNMAP_FLAVOR_DATA ctx) u Q.
Proof.
  induction n as [|n IH]; intros al ctx u Q Hwf Hco Hg1 Hg2 Hn Hnd Hfp HQ; cbn [drain_pending_loop];
    pose proof (co_desc _ _ Hco) as Hcd.
  all: destruct (Z.ltb_spec (pending_desc_idx ctx) (al_count al)) as [Hlt|Hge].
  1: lia.
  1, 3: assert (Hcx : ctx = set_cursor (pending_desc_idx ctx) (pending_blk_idx ctx) (pending_pa ctx) ctx) by (by destruct ctx);
    apply runs_ret; rewrite <- (mem_step_id u), Hcx; apply (HQ false _ _ _ _ _ _ []); rewrite <- ?Hcx; try done;
    [intros _; unfold pages_left; replace (pending_desc_idx ctx) with (al_count al) by lia; rewrite (blocks_left_end _ _ Hwf);
     destruct (_ =? _); [done|apply drop_nil]|apply drained_none; intros x (p & Hp & _); by apply elem_of_nil in Hp].
  destruct (peek_desc_eq al (pending_desc_idx ctx) Hwf ltac:(lia)) as (d & Hd & Hpk). pose proof (co_blk _ _ Hco) as Hb0.
  pose proof (co_in _ _ Hco d Hd) as Hbc. pose proof (al_bounds _ Hwf) as Hbd. unfold ADDR_LIST_MAX_RANGES in Hbd. change (GRANULE_SIZE / 8) with 512 in Hbd.
  apply runs_bind. eapply runs_lift; [exact Hpk|]. apply runs_bind. eapply runs_lift; [done|]. cbn beta iota zeta.
  destruct (Z.leb_spec (get_cnt_from_desc d) (pending_blk_idx ctx)) as [Hc|Hc].
  { assert (Heq : pending_blk_idx ctx = get_cnt_from_desc d) by lia.
    assert (Hpa : pending_pa ctx = NO_ADDR).
    { destruct (decide (pending_pa ctx = NO_ADDR)) as [|E]; [done|]. destruct (co_pa _ _ Hco E) as (d' & Hd' & Hlt' & _).
      assert (d' = d) as -> by congruence. lia. }
    rewrite (blocks_left_next al d _ _ Hd Heq ltac:(lia)) in Hn. unfold u32. rewrite Z.mod_small by lia.
    set (ctx1 := set_cursor _ _ _ ctx).
    assert (Hpl : pages_left al ctx = pages_left al ctx1)
      by (unfold pages_left, ctx1; rewrite Hpa; cbn; by rewrite (blocks_left_next al d _ _ Hd Heq ltac:(lia))).
    apply IH; try done; [|cbn; lia|by rewrite <- Hpl|by rewrite <- Hpl|].
    - split; cbn; [lia|lia|intros d' _; destruct (get_ranges d'); lia|done].
    - intros y d' b pa m' evs k dn ctx' Htk Hco' He Hy Hdr. apply (HQ y d' b pa m' evs k dn); try done. by rewrite Hpl. }
  destruct (block_geo al ctx d Hwf Hd ltac:(lia)) as (Hba0 & Htop & Hba & Hsa & Hpos & Hadd).
  destruct (blk_size_eq d) as [_ Hszr]. change (XLAT_BLOCK_SIZE (3 - get_sz_from_desc d)) with (desc_blk_size d).
  rewrite Hadd. apply runs_bind, (drain_block_ok al ctx u d); try done.
  intros y mid m1 evs k dn Htk Hmid Hma Hy Hpl Hdr. destruct y.
  - apply runs_ret. apply (HQ true _ _ mid m1 evs k dn); try done. split; cbn; try done.
    + intros d' Hd'. assert (d' = d) as -> by congruence. lia.
    + intros _. exists d. split_and!; try done; [lia|]. by apply Hy.
  - set (ctx1 := set_cursor _ _ _ _).
    assert (Hc1 : ctx1 = set_cursor (pending_desc_idx ctx) (pending_blk_idx ctx + 1) NO_ADDR ctx) by done.
    rewrite <- Hc1 in Hpl. rewrite Hpl in Hnd, Hfp. rewrite (blocks_left_head al d) in Hn by (done || lia). cbn [length] in Hn.
    apply IH; try done.
    + split; cbn; [lia|lia| |done]. intros d' Hd'. assert (d' = d) as -> by congruence. lia.
    + cbn. lia.
    + apply NoDup_app in Hnd. tauto.
    + by apply (fine_pages_rest (r_mem (u_rmm u)) m1 dn).
    + intros y d' b pa m' evs' k' dn' ctx' Htk' Hco' He Hy' Hdr'. apply (ticks_trans (u_isr u)) in Htk'; [|apply Htk]. rewrite mem_step_step. apply (HQ y d' b pa _ _ _ (dn ++ dn')); try done.
      * rewrite Hpl, He, app_assoc. done.
      * rewrite He, app_assoc in Hnd. apply NoDup_app in Hnd as (Hnd & _). by apply (drained_app _ m1).
Qed.

Lemma drain_pending_ok al ctx u (Q : bool * sro_unmap_ctx -> urmm -> Prop) :
  al_wf al -> cursor_ok al ctx -> g_coarse ctx = None -> g_coarse_dev ctx = None ->
  (length (blocks_left al (pending_desc_idx ctx) (pending_blk_idx ctx)) <= N_S2TTES)%nat ->
  NoDup (pages_left al ctx) -> fine_pages (r_mem (u_rmm u)) (pages_left al ctx) ->
  (forall (y : bool) d b pa m' evs k done, let ctx' := set_cursor d b pa ctx in
     ticks (u_isr u) y k -> cursor_ok al ctx' -> pages_left al ctx = done ++ pages_left al ctx' -> (y = false -> pages_left al ctx' = []) ->
     drained (r_mem (u_rmm u)) m' (granules_of done) -> Q (y, ctx') (mem_step u m' evs k)) ->
  runs (rtt_unmap_drain_pending ctx al RTT_UNMAP_FLAVOR_DATA) u Q.
Proof.
  intros Hwf Hco Hg1 Hg2 Hn Hnd Hfp HQ. unfold rtt_unmap_drain_pending. apply runs_bind, runs_guard; [done|].
  apply drain_pending_loop_ok; try done. pose proof (al_bounds _ Hwf) as Hbd. unfold ADDR_LIST_MAX_RANGES in Hbd.
  change (GRANULE_SIZE / 8) with 512 in Hbd. change (Z.of_nat (Z.to_nat (2 * S2TTES_PER_S2TT))) with 1024. unfold N_S2TTES in Hn.
  pose proof (co_desc _ _ Hco). lia.
Qed.

(** The last block drained, the loop ends. *)
Lemma drain_loop_last al ctx u d flavor (Q : bool * sro_unmap_ctx -> urmm -> Prop) n :
  al_wf al -> al_count al = 1 -> descs_of al = [d] -> pending_desc_idx ctx = 0 -> get_cnt_from_desc d <= pending_blk_idx ctx ->
  Q (false, set_cursor 1 0 NO_ADDR ctx) u -> runs (drain_pending_loop (S n) al flavor ctx) u Q.
Proof.
  intros Hwf Hc Hd Hi Hb HQ. cbn [drain_pending_loop]. rewrite Hi, Hc. change (0 <? 1) with true. cbn iota.
  destruct (peek_desc_eq al 0 Hwf ltac:(lia)) as (d' & Hd' & Hpk). rewrite Hd in Hd'. injection Hd' as <-.
  apply runs_bind. eapply runs_lift; [exact Hpk|]. apply runs_bind. eapply runs_lift; [done|]. cbn beta iota zeta.
  rewrite (proj2 (Z.leb_le _ _) Hb). change (u32 (0 + 1)) with 1. destruct n; cbn [drain_pending_loop pending_desc_idx set_cursor];
    rewrite Hc; change (1 <? 1) with false; by apply runs_ret.
Qed.

(** ** A coarse unit *)

Lemma drain_coarse_loop_ok n : forall left end_ ctx u (Q : bool * sro_unmap_ctx -> urmm -> Prop),
  0 <= pending_pa ctx -> end_ <= 2 ^ 52 -> end_ - pending_pa ctx = left * GRANULE_SIZE -> 0 <= left <= Z.of_nat n ->
  (forall (y : bool) j k, ticks (u_isr u) y k -> (if y then 0 < j < left else j = left) ->
     Q (y, set_pending_pa (pending_pa ctx + j * GRANULE_SIZE) ctx)
       (mem_step u (r_mem (u_rmm u)) (E_clean <$> pages_from (pending_pa ctx) j) k)) ->
  runs (drain_coarse_loop n end_ ctx) u Q.
Proof.
  induction n as [|n IH]; intros left end_ ctx u Q H0 H52 Hn Hle HQ; cbn [drain_coarse_loop]; change GRANULE_SIZE with 4096 in Hn.
  all: destruct (Z.ltb_spec (pending_pa ctx) end_) as [Hlt0|Hge0]; [|assert (left = 0) as -> by lia].
  1: lia.
  1, 3: apply runs_ret; specialize (HQ false 0 (u_isr u) (ticks_done _ _ (le_n _)) eq_refl);
    rewrite Z.add_0_r in HQ; change (E_clean <$> pages_from (pending_pa ctx) 0) with (@nil event) in HQ; rewrite mem_step_id in HQ;
    by destruct ctx.
  apply runs_bind, runs_on_rmm, runs_emit.
  assert (Hadd : add64 (pending_pa ctx) GRANULE_SIZE = pending_pa ctx + GRANULE_SIZE)
    by (unfold add64; apply u64_small; unfold in_u64; change GRANULE_SIZE with 4096; lia).
  rewrite Hadd. set (ctx1 := set_pending_pa _ ctx). set (u1 := URmm _ _ _ _ _).
  assert (Hone : forall j, 0 <= j -> pages_from (pending_pa ctx) (1 + j) = pending_pa ctx :: pages_from (pending_pa ctx1) j).
  { intros j Hj. rewrite pages_from_app by lia. change (pages_from (pending_pa ctx) 1) with [pending_pa ctx + 0 * GRANULE_SIZE].
    cbn. by rewrite Z.add_0_r. }
  assert (Hstep : forall k, URmm (u_rmm u1) (u_devs u1) (u_sro u1) k (u_polls u1)
    = mem_step u (r_mem (u_rmm u)) (E_clean <$> [pending_pa ctx]) k).
  { intros k. unfold u1, mem_step, with_log, with_mem. cbn. destruct u as [[m rds vt lg] dv sr ci cp]. done. }
  apply runs_bind.
  assert (Hrest : forall k, (u_isr u <= k)%nat -> runs (drain_coarse_loop n end_ ctx1) (mem_step u (r_mem (u_rmm u)) (E_clean <$> [pending_pa ctx]) k) Q).
  { intros k Hk. apply (IH (left - 1)); cbn [ctx1 pending_pa set_pending_pa set_cursor]; change GRANULE_SIZE with 4096; [lia|done|lia|lia|].
    intros y j k' Htk Hy. apply (ticks_trans (u_isr u)) in Htk; [|cbn; lia]. rewrite mem_step_step, <- fmap_app. cbn [app].
    change (pending_pa ctx + 4096) with (pending_pa ctx1). rewrite <- Hone by (destruct y; lia).
    replace (pending_pa ctx1 + j * 4096) with (pending_pa ctx + (1 + j) * GRANULE_SIZE) by (cbn; change GRANULE_SIZE with 4096; lia).
    apply (HQ y (1 + j) k'); [done|destruct y; lia]. }
  destruct (Z.ltb_spec (pending_pa ctx1) end_) as [Hlt|Hge].
  - apply runs_irq. rewrite Hstep. destruct (isr_pending _) eqn:Ei; [|apply Hrest; cbn; lia]. apply runs_ret.
    specialize (HQ true 1 (S (u_isr u1))). rewrite Z.mul_1_l in HQ. change (pages_from (pending_pa ctx) 1) with [pending_pa ctx + 0 * GRANULE_SIZE] in HQ.
    rewrite Z.add_0_r in HQ. cbn in Hlt. change GRANULE_SIZE with 4096 in Hlt. apply HQ; [by apply ticks_irq|lia].
  - apply runs_ret. specialize (Hrest (u_isr u) (le_n _)). rewrite <- Hstep in Hrest. exact Hrest.
Qed.

(** An operation on one coarse unit [g], represented by the only block of the list. *)
Record coarse_op al ctx (g : Z) : Prop := {
  cs_one : exists d, descs_of al = [d] /\ get_cnt_from_desc d = 1 /\ get_addr_from_desc d = backing_addr ctx /\
    desc_blk_size d = tracking_region_get_size;
  cs_wf : al_wf al;
  cs_g : g_coarse ctx = Some g /\ g_coarse_dev ctx = None;
  cs_aligned : (tracking_region_get_size | backing_addr ctx);
  cs_cursor : pending_desc_idx ctx = 0 /\ pending_blk_idx ctx = 0;
  cs_pa : pending_pa ctx = NO_ADDR \/ exists j, 0 <= j < tracking_region_get_size / GRANULE_SIZE /\
    pending_pa ctx = backing_addr ctx + j * GRANULE_SIZE
}.

(** The pages that are still to be cleaned. *)
Definition coarse_left ctx : list Z :=
  let pa := if pending_pa ctx =? NO_ADDR then backing_addr ctx else pending_pa ctx in
  pages_from pa ((backing_addr ctx + tracking_region_get_size - pa) / GRANULE_SIZE).

Lemma region_facts : exists n, 0 < n /\ tracking_region_get_size = n * GRANULE_SIZE /\ tracking_region_get_size / GRANULE_SIZE = n.
Proof.
  destruct region_level as (l & Hl & He). rewrite He. exists (level_size l / GRANULE_SIZE).
  destruct (level_size_pages l) as (H1 & H2 & H3); [lia|]. rewrite H3. by split_and!.
Qed.

Lemma coarse_start al ctx g :
  coarse_op al ctx g -> exists pa j, pa = (if pending_pa ctx =? NO_ADDR then backing_addr ctx else pending_pa ctx) /\
    0 <= j < tracking_region_get_size / GRANULE_SIZE /\ pa = backing_addr ctx + j * GRANULE_SIZE /\
    coarse_left ctx = pages_from pa (tracking_region_get_size / GRANULE_SIZE - j).
Proof.
  intros Hc. destruct region_facts as (n & Hn & Hr & Hq). rewrite Hq. unfold coarse_left.
  destruct (Z.eqb_spec (pending_pa ctx) NO_ADDR) as [E|E].
  - exists (backing_addr ctx), 0. split_and!; try done; try lia. f_equal. rewrite Z.add_simpl_l, Z.sub_0_r. done.
  - destruct (cs_pa _ _ _ Hc) as [|(j & Hj & Hpa)]; [done|]. rewrite Hq in Hj. exists (pending_pa ctx), j. split_and!; try done; try lia.
    f_equal. rewrite Hpa, Hr. replace (backing_addr ctx + n * GRANULE_SIZE - (backing_addr ctx + j * GRANULE_SIZE))
      with ((n - j) * GRANULE_SIZE) by lia. by rewrite Z.div_mul.
Qed.

Definition partial (m : mem) (g : Z) : Prop := granule_at m g (AGranule false GRANULE_STATE_PARTIAL 0).

(** Each resumption cleans a page at least; when all are clean the unit is
    DELEGATED. *)
Lemma drain_coarse_ok al ctx u g (Q : bool * sro_unmap_ctx -> urmm -> Prop) :
  coarse_op al ctx g -> partial (r_mem (u_rmm u)) g ->
  (forall pa done k, let ctx' := set_pending_pa pa ctx in
     ticks (u_isr u) true k -> coarse_op al ctx' g -> done <> [] -> coarse_left ctx = done ++ coarse_left ctx' ->
     Q (true, ctx') (mem_step u (r_mem (u_rmm u)) (E_clean <$> done) k)) ->
  (forall k, ticks (u_isr u) false k -> Q (false, set_cursor 1 0 NO_ADDR (set_coarse None None ctx))
     (mem_step u (set_granule (r_mem (u_rmm u)) g (AGranule false GRANULE_STATE_DELEGATED 0))
        ((E_clean <$> coarse_left ctx) ++ [E_delegated g]) k)) ->
  runs (rtt_unmap_drain_pending ctx al RTT_UNMAP_FLAVOR_DATA) u Q.
Proof.
  intros Hc Hg HQ1 HQ2. destruct (coarse_start al ctx g Hc) as (pa & j & Hpa & Hj & Hpj & Hleft).
  destruct region_facts as (n & Hn & Hr & Hq). rewrite Hq in Hj, Hleft. pose proof Hc as [(d & Hd & Hcnt & Hda & Hds) Hwf [Hg1 Hg2] Hal [Hci Hcb] _].
  assert (Hcount : al_count al = 1).
  { pose proof (f_equal length Hd) as Hlen. unfold descs_of in Hlen. rewrite length_take in Hlen. cbn in Hlen.
    pose proof (al_bounds _ Hwf). pose proof (al_len _ Hwf). lia. }
  unfold rtt_unmap_drain_pending. apply runs_bind, runs_guard; [done|]. change (Z.to_nat (2 * S2TTES_PER_S2TT)) with (S (S (Z.to_nat 1022))).
  remember (S (Z.to_nat 1022)) as f eqn:Hf.
  cbn [drain_pending_loop]. rewrite Hci, Hcount. change (0 <? 1) with true. cbn iota.
  destruct (peek_desc_eq al 0 Hwf ltac:(lia)) as (d' & Hd' & Hpk). rewrite Hd in Hd'. injection Hd' as <-.
  apply runs_bind. eapply runs_lift; [exact Hpk|]. apply runs_bind. eapply runs_lift; [done|]. cbn beta iota zeta.
  rewrite Hcnt, Hcb. change (1 <=? 0) with false. cbn iota. change (XLAT_BLOCK_SIZE (3 - get_sz_from_desc d)) with (desc_blk_size d).
  destruct (block_geo al ctx d Hwf) as (Hb0 & Htop & _ & _ & _ & Hadd); [by rewrite Hci, Hd|by rewrite Hcb, Hcnt|].
  rewrite Hcb in Hb0, Htop, Hadd. rewrite Z.mul_0_l, Z.add_0_r in Hb0, Htop, Hadd. rewrite Hda in Hb0, Htop, Hadd. rewrite Hds in Htop, Hadd.
  rewrite Hda, Hds, Hadd. change GRANULE_SIZE with 4096 in Hpj, Hr.
  apply runs_bind. unfold drain_block. set (ctx0 := if pending_pa ctx =? NO_ADDR then _ else ctx).
  assert (H0 : ctx0 = set_pending_pa pa ctx).
  { unfold ctx0. rewrite Hpa. destruct (pending_pa ctx =? NO_ADDR); [done|by destruct ctx]. }
  clearbody ctx0. subst ctx0.
  assert (Hend : add64 (backing_addr ctx) tracking_region_get_size = backing_addr ctx + tracking_region_get_size)
    by (unfold add64; apply u64_small; unfold in_u64; lia).
  rewrite Hend. apply runs_bind, runs_guard; [cbn; lia|]. apply runs_bind, runs_guard; [cbn; lia|].
  cbn [g_coarse g_coarse_dev set_pending_pa set_cursor]. rewrite Hg1, Hcount. cbn iota. apply runs_bind, runs_guard; [done|].
  apply runs_bind, runs_guard; [cbn; lia|]. apply runs_bind, runs_guard; [lia|].
  unfold rtt_unmap_drain_coarse. apply runs_bind, runs_guard; [apply ALIGNED_spec; [lia|done]|].
  cbn [g_coarse g_coarse_dev set_pending_pa set_cursor]. rewrite Hg1, Hg2, Hq. apply runs_bind.
  apply (drain_coarse_loop_ok _ (n - j)); cbn [pending_pa set_pending_pa set_cursor]; change GRANULE_SIZE with 4096; try lia.
  intros y i k Htk Hi. destruct y.
  { apply runs_ret, runs_ret. rewrite set_pa_twice. apply (HQ1 _ (pages_from pa i)); [done|..].
    - split; try done; [by exists d|]. cbn [pending_pa set_pending_pa set_cursor backing_addr]. right. exists (j + i).
      change GRANULE_SIZE with 4096. rewrite Hr, Z.div_mul; lia.
    - intros E%(f_equal length). rewrite pages_from_length in E. cbn in E. lia.
    - rewrite Hleft. unfold coarse_left. cbn [pending_pa set_pending_pa set_cursor backing_addr].
      assert (Hna : pa + i * 4096 <> NO_ADDR) by (assert (2 ^ 52 < NO_ADDR) by (by vm_compute); lia). rewrite (proj2 (Z.eqb_neq _ _) Hna).
      replace (n - j) with (i + (n - j - i)) by lia. rewrite pages_from_app by lia. f_equal. f_equal. rewrite Hpj, Hr. change GRANULE_SIZE with 4096.
      replace (backing_addr ctx + n * 4096 - (backing_addr ctx + j * 4096 + i * 4096)) with ((n - j - i) * 4096) by lia. by rewrite Z.div_mul. }
  subst i. rewrite <- Hleft. apply runs_bind, runs_on_rmm. eapply runs_on_mem; [exact (m_granule_lock_ok _ _ _ Hg eq_refl)|].
  apply runs_bind, runs_on_rmm. eapply runs_on_desc; [apply lookup_insert_eq|apply partial_to_delegated|].
  apply runs_bind, runs_on_rmm, runs_emit, runs_ret. cbn beta iota.
  match goal with |- runs _ ?s _ => assert (Hs : s = mem_step u (set_granule (r_mem (u_rmm u)) g (AGranule false GRANULE_STATE_DELEGATED 0))
      ((E_clean <$> coarse_left ctx) ++ [E_delegated g]) k) end.
  { unfold mem_step, with_log, with_mem, set_granule. cbn. by rewrite insert_insert_eq, app_assoc. }
  rewrite Hs, Hf. apply (drain_loop_last al _ _ d); [done|done|done|done|cbn; lia|].
  destruct ctx; by apply HQ2.
Qed.

End Drain.
