(* ===== verification/UnmapStep.v ===== *)
(** * Deferred work of an operation

    [rtt_unmap_drain_and_clear]: invalidation, then return of the memory, then
    clearing of the marks.  [op_ok] is what an operation that was interrupted
    maintains from one call to the next; [drain_and_clear_ok] says that a call keeps
    it or finishes the work, whatever interrupts arrive, and that no granule is
    given back before the TLBs were invalidated for every entry that mapped it. *)

From Stdlib Require Import ZArith Lia Bool ZifyBool.
From stdpp Require Import base tactics option list numbers gmap.
From S2P Require Import Prelude.
From S2P Require Import Utils.
From S2P Require Import Status.
From S2P Require Import Granule.
From S2P Require Import Mem.
From S2P Require Import Arch.
From S2P Require Import AddrList.
From S2P Require Import Sro.
From S2P Require Import S2tte.
From S2P Require Import S2tteFacts.
From S2P Require Import S2ttTable.
From S2P Require Import RttFold.
From S2P Require Import RttTree.
From S2P Require Import Rmm.
From S2P Require Import RttUnmap.
From S2P Require Import RttInv.
From S2P Require Import UnmapPass.
From S2P Require Import UnmapDrain.

Section Step.
Context `{feat : ArchFeatures} `{laws : ActiveLaws} `{env : UnmapEnv}.
Context (submit_ok : forall vs addr level num leaf, smmuv3_inv_at_level_per_vmids_submit vs addr level num leaf = 0).
Implicit Types (ctx : sro_unmap_ctx) (al : addr_list) (flavor : rtt_unmap_flavor) (t : list Z) (evs pre : list event).

(** ** The granules an operation holds *)

Definition held flavor al ctx (x : Z) : Prop :=
  match flavor, g_coarse ctx with
  | RTT_UNMAP_FLAVOR_UNPROT, _ => False
  | _, Some g => x = g
  | _, None => granules_of (pages_left al ctx) x
  end.
(** The pages of a coarse unit, which are cleaned one by one. *)
Definition unit_pages ctx : list Z :=
  match g_coarse ctx with Some _ => pages_from (backing_addr ctx) (tracking_region_get_size / GRANULE_SIZE) | None => [] end.

Record fine_op al ctx (m : mem) : Prop := {
  fo_coarse : g_coarse ctx = None /\ g_coarse_dev ctx = None;
  fo_list : al_wf al;
  fo_len : (length (blocks al) <= N_S2TTES)%nat;
  fo_cursor : cursor_ok al ctx;
  fo_nodup : NoDup (pages_left al ctx);
  fo_pages : fine_pages m (pages_left al ctx)
}.
Definition unit_op al ctx (m : mem) pre : Prop :=
  exists g, coarse_op al ctx g /\ partial m g /\
    forall p, p ∈ unit_pages ctx -> p ∈ coarse_left ctx \/ E_clean p ∈ pre.
Definition op_mem flavor al ctx (m : mem) pre : Prop :=
  match flavor with
  | RTT_UNMAP_FLAVOR_UNPROT => True
  | RTT_UNMAP_FLAVOR_DATA => fine_op al ctx m \/ unit_op al ctx m pre
  | RTT_UNMAP_FLAVOR_DEV => False
  end.

(** [m'] is [m] after the granules of [X] that are not in [X'] were given back. *)
Record handed (m m' : mem) (X X' : Z -> Prop) : Prop := {
  hd_tables : tables m' = tables m;
  hd_sub : forall x, X' x -> X x;
  hd_back : forall x, X x -> X' x \/ granule_at m' x (AGranule false GRANULE_STATE_DELEGATED 0);
  hd_same : forall x, (X' x \/ ~ X x) -> descs m' !! x = descs m !! x
}.

Lemma handed_refl m X : handed m m X X.
Proof. split; try done. auto. Qed.

(** ** The drain *)

Lemma split_after {A} (a b e1 e2 : list A) x :
  a ++ b = e1 ++ x :: e2 -> x ∉ a -> exists c, e1 = a ++ c /\ b = c ++ x :: e2.
Proof.
  revert e1. induction a as [|y a IH]; intros e1 He Hx; [by exists e1|]. destruct e1 as [|z e1]; cbn in He; injection He as -> He.
  - by destruct Hx; left.
  - destruct (IH e1 He) as (c & -> & ->); [|by exists c]. intros H. apply Hx. by right.
Qed.

Lemma split_before {A} (a b e1 e2 : list A) x :
  a ++ b = e1 ++ x :: e2 -> x ∉ b -> exists e2', a = e1 ++ x :: e2'.
Proof.
  revert e1. induction a as [|y a IH]; intros e1 He Hx.
  - cbn in He. subst b. destruct Hx. apply elem_of_app. right. by left.
  - destruct e1 as [|z e1]; cbn in He; injection He as -> He; [by exists a|]. destruct (IH e1 He Hx) as [e2' ->]. by exists e2'.
Qed.

Lemma blocks_left_len al i b : (length (blocks_left al i b) <= length (blocks al))%nat.
Proof.
  unfold blocks_left, blocks. rewrite length_drop.
  assert (Hd : forall ds, (length (drop (Z.to_nat i) ds ≫= desc_blocks) <= length (ds ≫= desc_blocks))%nat).
  { intros ds. rewrite <- (take_drop (Z.to_nat i) ds) at 2. rewrite bind_app, length_app. lia. }
  specialize (Hd (descs_of al)). lia.
Qed.

(** Whatever is held before is held, or DELEGATED, afterwards; a unit is cleaned
    before it is given back. *)
Lemma drain_ok flavor al ctx u pre (Q : bool * sro_unmap_ctx -> urmm -> Prop) :
  op_mem flavor al ctx (r_mem (u_rmm u)) pre ->
  (forall (y : bool) ctx' m' evs k, ticks (u_isr u) y k ->
     (exists d b pa, ctx' = set_cursor d b pa ctx \/ ctx' = set_cursor d b pa (set_coarse None None ctx)) ->
     handed (r_mem (u_rmm u)) m' (held flavor al ctx) (held flavor al ctx') ->
     (if y then op_mem flavor al ctx' m' (pre ++ evs) /\ unit_pages ctx' = unit_pages ctx else forall x, ~ held flavor al ctx' x) ->
     (forall x e1 e2, evs = e1 ++ E_delegated x :: e2 -> forall p, p ∈ unit_pages ctx -> E_clean p ∈ pre ++ e1) ->
     Q (y, ctx') (mem_step u m' evs k)) ->
  runs (if flavor_is flavor RTT_UNMAP_FLAVOR_UNPROT then ret (false, ctx) else rtt_unmap_drain_pending ctx al flavor) u Q.
Proof.
  intros Hm HQ. destruct flavor; [|cbn; apply runs_ret; rewrite <- (mem_step_id u)|done].
  2: { apply HQ; [by apply ticks_done| | |auto|intros x [|? e1] e2; discriminate].
       - exists (pending_desc_idx ctx), (pending_blk_idx ctx), (pending_pa ctx). left. by destruct ctx.
       - apply handed_refl. }
  cbn [flavor_is bool_decide decide_rel]. destruct Hm as [[[Hg1 Hg2] Hwf Hlen Hco Hnd Hfp]|(g & Hc & Hp & Hcl)].
  - apply drain_pending_ok; try done.
    { pose proof (blocks_left_len al (pending_desc_idx ctx) (pending_blk_idx ctx)). lia. }
    intros y d b pa m' evs k dn ctx' Htk Hco' He Hy Hdr. apply HQ; [done|by eauto| | |].
    + assert (Hg' : g_coarse ctx' = None) by done. unfold held. rewrite Hg1, Hg', He. split; [apply Hdr| | |].
      * intros x Hx. apply granules_of_app. auto.
      * intros x [Hx|Hx]%granules_of_app; [|auto]. right. by apply (dr_in _ _ _ Hdr).
      * intros x Hx. apply (dr_out _ _ _ Hdr). intros Hd. destruct Hx as [Hx|Hx]; [|apply Hx, granules_of_app; auto].
        rewrite He in Hnd. apply NoDup_app in Hnd as (_ & Hdis & _). destruct Hd as (p & Hp & Hx1), Hx as (q & Hq & Hx2).
        rewrite (pages_in_unique _ _ _ Hx1 Hx2) in Hp. by apply (Hdis q).
    + destruct y.
      * split; [|unfold unit_pages; cbn; by rewrite Hg1]. left. split; try done; rewrite He in Hnd, Hfp; [apply NoDup_app in Hnd; tauto|by eapply fine_pages_rest].
      * intros x. assert (Hg' : g_coarse ctx' = None) by done. unfold held. rewrite Hg', (Hy eq_refl). intros (p & Hp & _). by apply elem_of_nil in Hp.
    + unfold unit_pages. rewrite Hg1. intros x e1 e2 _ p Hp. by apply elem_of_nil in Hp.
  - pose proof (cs_g _ _ _ Hc) as [Hg1 Hg2]. apply (drain_coarse_ok al ctx u g); try done.
    + intros pa dn k ctx' Htk Hc' Hne He. apply HQ; [done|exists (pending_desc_idx ctx), (pending_blk_idx ctx), pa; by left| | |].
      * unfold held. cbn. rewrite Hg1. apply handed_refl.
      * split; [|done]. right. exists g. split_and!; try done. intros p Hin. destruct (Hcl p Hin) as [Hl|Hl]; [|right; apply elem_of_app; by left].
        rewrite He in Hl. apply elem_of_app in Hl as [Hl|Hl]; [|by left]. right. apply elem_of_app. right. by apply list_elem_of_fmap_2.
      * intros x e1 e2 Hev. exfalso. assert (Hin : E_delegated x ∈ E_clean <$> dn) by (rewrite Hev; apply elem_of_app; right; by left).
        by apply list_elem_of_fmap in Hin as (p & ? & _).
    + intros k Htk. apply HQ; [done|by exists 1, 0, NO_ADDR; right| | |].
      * unfold held. cbn [g_coarse set_cursor set_coarse]. rewrite Hg1. unfold pages_left. cbn [pending_pa pending_desc_idx pending_blk_idx set_cursor].
        rewrite Z.eqb_refl. pose proof (cs_one _ _ _ Hc) as (d & Hd & _). unfold blocks_left. rewrite Hd. 
        assert (Hno : forall x, ~ granules_of [] x) by (intros x (p & Hp' & _); by apply elem_of_nil in Hp').
        split; [done|by intros x ?%Hno| |].
        -- intros x ->. right. apply delegated_at.
        -- intros x [?%Hno|Hx]; [done|]. cbn. by rewrite lookup_insert_ne by congruence.
      * intros x. unfold held, pages_left, blocks_left. cbn. pose proof (cs_one _ _ _ Hc) as (d & Hd & _). rewrite Hd. 
        intros (p & Hp' & _). by apply elem_of_nil in Hp'.
      * intros x e1 e2 Hev p Hin. assert (e1 = E_clean <$> coarse_left ctx).
        { destruct (split_after _ _ _ _ _ Hev) as (c & -> & Hc2).
          - intros (q & Hq & _)%list_elem_of_fmap. done.
          - destruct c as [|? [|]]; [by rewrite app_nil_r|discriminate|discriminate]. }
        subst e1. destruct (Hcl p Hin) as [Hl|Hl]; apply elem_of_app; [right|by left]. by apply list_elem_of_fmap_2.
Qed.

(** ** The leaf table *)

Lemma table_refs_ext c level t : forall t', length t' = length t ->
  (forall j e e', arr_get t j = Some e -> arr_get t' j = Some e' -> entry_refs c level e = entry_refs c level e') ->
  table_refs c level t' = table_refs c level t.
Proof.
  induction t as [|e t IH]; intros [|e' t'] Hl H; try done. cbn [table_refs].
  rewrite (H 0 e e' eq_refl eq_refl). rewrite (IH t'); [done|by injection Hl|]. intros j x x' Hx Hx'.
  apply arr_get_lt in Hx as Hj. assert (Hs : forall (a : Z) l, arr_get (a :: l) (j + 1) = arr_get l j).
  { intros a l. unfold arr_get. rewrite !(proj2 (Z.leb_le _ _)) by lia. by replace (Z.to_nat (j + 1)) with (S (Z.to_nat j)) by lia. }
  apply (H (j + 1)); by rewrite Hs.
Qed.

Lemma pass_refs c level o vttbr pre t t' evs : pass o vttbr pre t t' evs -> table_refs c level t' = table_refs c level t.
Proof.
  intros [Hl He _]. apply table_refs_ext; [done|]. intros j e e' Hj Hj'. destruct (He j e Hj) as (x & Hx & [->|(Ho & -> & _)]); [congruence|].
  assert (e' = s2tte_clear_tlbi_pending e) as -> by congruence. destruct (clear_tlbi_facts e (op_handle o)) as (Hd & _).
  unfold owes, mineb in Ho. apply andb_prop in Ho as [[Hp _]%andb_prop _]. unfold entry_refs. by rewrite Hd, Hp.
Qed.

(** The state of the leaf between two calls: [S] are the entries that were valid for
    hardware when they were stamped, [pre] the events since. *)
Record op_table (s2 : s2tt_context) ctx t (vttbr : Z) (S : Z -> Prop) pre : Prop := {
  ot_len : length t = N_S2TTES;
  ot_ok : forall j e, arr_get t j = Some e -> entry_ok s2 (leaf_level ctx) e;
  ot_geo : op_geo (op_of ctx);
  ot_range : owed_in_range (op_of ctx) t;
  ot_done : tlbi_done ctx = true -> smmu_tlbi_pending ctx = false /\
    forall j e, arr_get t j = Some e -> owes e (sro_handle ctx) = false;
  ot_sync : smmu_tlbi_pending ctx = true -> submitted (op_of ctx) vttbr (smmu_tlbi_idx ctx) pre /\
    exists e, arr_get t (smmu_tlbi_idx ctx) = Some e /\ owes e (sro_handle ctx) = true;
  ot_owed : forall j, S j -> flushed (op_of ctx) vttbr j pre \/ exists e, arr_get t j = Some e /\ owes e (sro_handle ctx) = true
}.

(** The leaf afterwards: marks of the operation cleared, or some TLBI marks. *)
Definition leaf_step (h : Z) (y : bool) t t' : Prop :=
  length t' = length t /\ forall j e, arr_get t j = Some e -> exists e', arr_get t' j = Some e' /\
    if y then e' = e \/ (owes e h = true /\ e' = s2tte_clear_tlbi_pending e)
    else e' = if mineb e h then s2tte_clear_drain_pending e else e.

(** Memory afterwards: the leaf [g] and the granules given back. *)
Record step_mem (m m' : mem) (g : Z) t' (r : Z) (X X' : Z -> Prop) : Prop := {
  sm_tables : tables m' = <[g := t']> (tables m);
  sm_leaf : descs m' !! g = Some (encode GRN (AGranule true GRANULE_STATE_RTT r));
  sm_sub : forall x, X' x -> X x;
  sm_back : forall x, X x -> X' x \/ granule_at m' x (AGranule false GRANULE_STATE_DELEGATED 0);
  sm_same : forall x, x <> g -> (X' x \/ ~ X x) -> descs m' !! x = descs m !! x
}.

(** What must have happened before a granule is given back. *)
Definition may_return ctx (vttbr : Z) (S : Z -> Prop) evs : Prop :=
  (forall j, S j -> flushed (op_of ctx) vttbr j evs) /\ forall p, p ∈ unit_pages ctx -> E_clean p ∈ evs.

Definition with_rmm (u : urmm) (m : mem) evs (k p : nat) : urmm :=
  URmm (with_log (with_mem (u_rmm u) m) evs) (u_devs u) (u_sro u) k p.

Lemma op_mem_tables flavor al ctx m m' pre pre' :
  descs m' = descs m -> (forall p, E_clean p ∈ pre -> E_clean p ∈ pre') -> op_mem flavor al ctx m pre -> op_mem flavor al ctx m' pre'.
Proof.
  intros Hd Hp. destruct flavor; [|done|done]. intros [[H1 H2 H3 H4 H5 H6]|(g & H1 & H2 & H3)]; [left|right].
  - split; try done. intros p Hin. destruct (H6 p Hin) as (g & Ha & Hg). exists g. split; [done|]. eapply granule_at_descs; [|exact Hg]. by rewrite Hd.
  - exists g. split_and!; [done| |].
    + eapply granule_at_descs; [|exact H2]. by rewrite Hd.
    + intros p [?|?]%H3; auto.
Qed.

Lemma held_not_rtt flavor al ctx m pre g r :
  op_mem flavor al ctx m pre -> 0 <= r <= 512 -> descs m !! g = Some (encode GRN (AGranule true GRANULE_STATE_RTT r)) -> ~ held flavor al ctx g.
Proof.
  intros Hm Hr Hd Hh. assert (Hne : forall s, 0 <= s < 32 -> ~ granule_at m g (AGranule false s 0)).
  { intros s Hs (Hd' & Hwf & _). rewrite Hd in Hd'. injection Hd' as Hd'. apply encode_inj in Hd'; [done| |done]. apply wf_count; [done|lia]. }
  destruct flavor; try done. cbn in Hm. unfold held in Hh. destruct Hm as [[[H1 _] _ _ _ _ H6]|(g' & H1 & H2 & _)].
  - rewrite H1 in Hh. destruct Hh as (p & Hp & Hx). destruct (H6 p Hp) as (x & Ha & Hg).
    pose proof (fine_size _ _ _ Ha eq_refl) as Hx'. assert (x = g) as -> by congruence. by apply (Hne GRANULE_STATE_DATA).
  - rewrite (proj1 (cs_g _ _ _ H1)) in Hh. subst g'. by apply (Hne GRANULE_STATE_PARTIAL).
Qed.

(** ** From one call to the next *)

(** What does not change about an operation. *)
Definition static ctx := (op_of ctx, backing_addr ctx, u_g_llt ctx, (oaddr ctx, oaddr_type ctx, cur_base ctx)).

(** Fields the memory does not depend on. *)
Lemma op_mem_flags flavor al ctx m pre td idx b :
  op_mem flavor al ctx m pre -> op_mem flavor al (set_tlbi_done td (set_smmu idx b ctx)) m pre.
Proof.
  destruct flavor; [|done|done]. intros [[H1 H2 H3 [C1 C2 C3 C4] H5 H6]|(g & [C1 C2 C3 C4 C5 C6] & H2 & H3)]; [left|right].
  - split; [done|done|done|by split|done|done].
  - exists g. split; [by split|done].
Qed.

Lemma entry_pass s2 lpa2 level o vttbr pre t t' evs :
  s2tt_lpa2_enabled s2 = Some lpa2 -> -1 <= level <= 3 -> pass o vttbr pre t t' evs ->
  (forall j e, arr_get t j = Some e -> entry_ok s2 level e) -> forall j e, arr_get t' j = Some e -> entry_ok s2 level e.
Proof.
  intros Hl Hlv [Hlen He _] Hok j e' He'. pose proof (arr_get_lt _ _ _ He') as Hj. rewrite Hlen in Hj.
  destruct (arr_get_some t j Hj) as [e Hje]. destruct (He j e Hje) as (x & Hx & H). assert (e' = x) as -> by congruence.
  destruct H as [->|(Ho & -> & _)]; [by eapply Hok|]. unfold owes in Ho. apply andb_prop in Ho as [Hm _].
  destruct (clear_mark s2 lpa2 level Hl Hlv e (op_handle o) (Hok j e Hje) Hm) as (Hmk & _). left. by apply marked_clear_tlbi.
Qed.

Lemma pass_owed o vttbr pre t t' evs j e :
  pass o vttbr pre t t' evs -> arr_get t j = Some e -> owes e (op_handle o) = true ->
  flushed o vttbr j (pre ++ evs) \/ exists e', arr_get t' j = Some e' /\ owes e' (op_handle o) = true.
Proof. intros [_ He _] Hj Ho. destruct (He j e Hj) as (e' & Hj' & [->|(_ & _ & Hf)]); eauto. Qed.

Lemma pass_none o vttbr pre t t' evs : pass o vttbr pre t t' evs ->
  (forall j e, arr_get t j = Some e -> owes e (op_handle o) = false) -> forall j e, arr_get t' j = Some e -> owes e (op_handle o) = false.
Proof.
  intros [Hlen He _] Hno j e' He'. pose proof (arr_get_lt _ _ _ He') as Hj. rewrite Hlen in Hj.
  destruct (arr_get_some t j Hj) as [e Hje]. destruct (He j e Hje) as (x & Hx & [->|(Ho & _)]).
  - assert (e' = e) as -> by congruence. eauto.
  - by rewrite (Hno j e Hje) in Ho.
Qed.

(** Interrupted during invalidation. *)
Lemma op_table_pass s2 lpa2 ctx ctx' t t' vttbr S pre evs :
  s2tt_lpa2_enabled s2 = Some lpa2 -> op_table s2 ctx t vttbr S pre -> pass (op_of ctx) vttbr pre t t' evs ->
  pass_end ctx vttbr pre true ctx' t' evs -> op_table s2 ctx' t' vttbr S (pre ++ evs).
Proof.
  intros Hl [H1 H2 H3 H4 H5 H6 H7] Hp (idx & b & -> & Hb).
  assert (Hlv : -1 <= leaf_level ctx <= 3) by (pose proof (og_level _ H3) as Hlv; cbn in Hlv; destruct (enable_lpa2 ctx); lia).
  split; try done.
  - by rewrite (ps_len _ _ _ _ _ _ Hp).
  - by eapply (entry_pass s2 lpa2 (leaf_level ctx)).
  - eapply (owed_pass (op_of ctx)); [done|apply Hp|done].
  - intros Hd. destruct (H5 Hd) as [_ Hno]. pose proof (pass_none _ _ _ _ _ _ Hp Hno) as Hno'. split; [|exact Hno'].
    cbn. destruct b; [|done]. destruct (Hb eq_refl) as (_ & e & He & Ho). pose proof (Hno' _ _ He) as Hc. cbn in Hc. congruence.
  - intros j [Hf|(e & He & Ho)]%H7; [left; by apply flushed_r|]. by apply (pass_owed _ _ _ _ _ _ j e Hp).
Qed.

(** Invalidation finished: every entry that was valid is flushed. *)
Lemma op_table_done s2 lpa2 ctx ctx' t t' vttbr S pre evs :
  s2tt_lpa2_enabled s2 = Some lpa2 -> op_table s2 ctx t vttbr S pre -> pass (op_of ctx) vttbr pre t t' evs ->
  pass_end ctx vttbr pre false ctx' t' evs ->
  op_table s2 ctx' t' vttbr S (pre ++ evs) /\ forall j, S j -> flushed (op_of ctx) vttbr j (pre ++ evs).
Proof.
  intros Hl [H1 H2 H3 H4 H5 H6 H7] Hp (idx & -> & Hno).
  assert (Hlv : -1 <= leaf_level ctx <= 3) by (pose proof (og_level _ H3) as Hlv; cbn in Hlv; destruct (enable_lpa2 ctx); lia).
  assert (Hfl : forall j, S j -> flushed (op_of ctx) vttbr j (pre ++ evs)).
  { intros j [Hf|(e & He & Ho)]%H7; [by apply flushed_r|]. destruct (pass_owed _ _ _ _ _ _ j e Hp He Ho) as [?|(e' & He' & Ho')]; [done|].
    pose proof (Hno j e' He') as Hc. cbn in Ho'. congruence. }
  split; [|done]. split; try done.
  - by rewrite (ps_len _ _ _ _ _ _ Hp).
  - by eapply (entry_pass s2 lpa2 (leaf_level ctx)).
  - eapply (owed_pass (op_of ctx)); [done|apply Hp|done].
  - intros j Hj. left. by apply Hfl.
Qed.

Lemma pass_leaf o vttbr pre t t' evs : pass o vttbr pre t t' evs -> leaf_step (op_handle o) true t t'.
Proof. intros [Hl He _]. split; [done|]. intros j e (e' & He' & H)%He. exists e'. split; [done|]. destruct H as [?|(? & ? & _)]; auto. Qed.

Lemma cleared_leaf o vttbr pre t t1 t' evs :
  pass o vttbr pre t t1 evs -> cleared (op_handle o) 0 t1 t' -> leaf_step (op_handle o) false t t'.
Proof.
  intros [Hl He _] [Hl' Hc]. split; [lia|]. intros j e Hj. destruct (He j e Hj) as (e1 & Hj1 & H). eexists. split; [apply (Hc j e1 Hj1)|].
  rewrite (proj2 (Z.leb_le 0 j)) by (apply arr_get_lt in Hj; lia). cbn [andb]. destruct H as [->|(Ho & -> & _)]; [done|].
  destruct (clear_tlbi_facts e (op_handle o)) as (_ & -> & _ & ->). unfold owes in Ho. apply andb_prop in Ho as [-> _]. done.
Qed.

Lemma handed_step m m1 m2 g t1 r X X' :
  m1 = set_table m g t1 -> descs m !! g = Some (encode GRN (AGranule true GRANULE_STATE_RTT r)) -> ~ X g ->
  handed m1 m2 X X' -> step_mem m m2 g t1 r X X'.
Proof.
  intros -> Hd Hg [H1 H2 H3 H4]. split; [exact H1|rewrite H4 by auto; exact Hd|done|done|]. intros x _ Hx. by apply H4.
Qed.

Lemma leaf_set_step m m1 m2 g t1 t' r r' X X' :
  step_mem m m2 g t1 r X X' -> ~ X g -> m1 = Mem (<[g := encode GRN (AGranule true GRANULE_STATE_RTT r')]> (descs m2)) (<[g := t']> (tables m2)) ->
  step_mem m m1 g t' r' X X'.
Proof.
  intros [H1 H2 H3 H4 H5] Hg ->. split; cbn; [by rewrite H1, insert_insert_eq|by rewrite lookup_insert_eq|done| |].
  - intros x Hx. destruct (H4 x Hx) as [|Hb]; [by left|right]. eapply granule_at_descs; [|exact Hb]. cbn. rewrite lookup_insert_ne; [done|]. congruence.
  - intros x Hx Hn. rewrite lookup_insert_ne by congruence. auto.
Qed.

Lemma drain_and_clear_ok s2 lpa2 flavor al ctx u g t S pre (Q : bool * sro_unmap_ctx -> urmm -> Prop) :
  let m := r_mem (u_rmm u) in let vttbr := r_vttbr (u_rmm u) in
  s2tt_lpa2_enabled s2 = Some lpa2 -> leaf_at u g t -> leaf_locked u g (table_refs s2 (leaf_level ctx) t) ->
  op_table s2 ctx t vttbr S pre -> op_mem flavor al ctx m pre ->
  (forall (y : bool) ctx' t' m' evs k p, ticks (u_isr u) y k -> static ctx' = static ctx ->
     leaf_step (sro_handle ctx) y t t' ->
     step_mem m m' g t' (table_refs s2 (leaf_level ctx) t') (held flavor al ctx) (held flavor al ctx') ->
     (forall x e1 e2, evs = e1 ++ E_delegated x :: e2 -> may_return ctx vttbr S (pre ++ e1)) ->
     (if y then op_table s2 ctx' t' vttbr S (pre ++ evs) /\ op_mem flavor al ctx' m' (pre ++ evs) /\ unit_pages ctx' = unit_pages ctx
      else (forall x, ~ held flavor al ctx' x) /\ forall j, S j -> flushed (op_of ctx) vttbr j (pre ++ evs)) ->
     Q (y, ctx') (with_rmm u m' evs k p)) ->
  runs (rtt_unmap_drain_and_clear ctx al g flavor) u Q.
Proof.
  intros m vttbr Hl Ht Hlk Hot Hom HQ. unfold rtt_unmap_drain_and_clear.
  pose proof (table_refs_range s2 (leaf_level ctx) t) as Hrg. rewrite (ot_len _ _ _ _ _ _ Hot) in Hrg. change (Z.of_nat N_S2TTES) with 512 in Hrg.
  pose proof (held_not_rtt _ _ _ _ _ _ _ Hom Hrg Hlk) as Hng.
  assert (Hlv : -1 <= leaf_level ctx <= 3) by (pose proof (og_level _ (ot_geo _ _ _ _ _ _ Hot)) as Hlv; cbn in Hlv; destruct (enable_lpa2 ctx); lia).
  apply runs_bind, (tlbi_pending_ok submit_ok ctx u g t pre); [by apply Hot|done|by apply Hot|by apply Hot|by apply Hot|by apply Hot|].
  fold vttbr. intros y1 ctx1 t1 evs1 k1 p1 Htk1 Hps Hend. pose proof (pass_refs s2 (leaf_level ctx) _ _ _ _ _ _ Hps) as Hrefs.
  destruct y1.
  { pose proof (op_table_pass s2 lpa2 ctx ctx1 t t1 vttbr S pre evs1 Hl Hot Hps Hend) as Hot1.
    destruct Hend as (idx & b & -> & _). apply runs_ret.
    apply (HQ true _ t1 (set_table m g t1) evs1 k1 p1); [done|done|exact (pass_leaf _ _ _ _ _ _ Hps)| | |].
    - rewrite Hrefs. eapply handed_step; [done|exact Hlk|exact Hng|apply handed_refl].
    - intros x e1 e2 ->. destruct (ps_memory _ _ _ _ _ _ Hps x) as [[] _]. apply elem_of_app. right. by left.
    - split; [exact Hot1|]. split; [|done]. replace (set_smmu idx b ctx) with (set_tlbi_done (tlbi_done ctx) (set_smmu idx b ctx)) by (by destruct ctx).
      apply op_mem_flags. eapply op_mem_tables; [| |exact Hom]; [done|]. intros p Hp. apply elem_of_app. by left. }
  destruct (op_table_done s2 lpa2 ctx ctx1 t t1 vttbr S pre evs1 Hl Hot Hps Hend) as [Hot1 Hfl].
  destruct Hend as (idx & Hctx1 & Hno). set (u1 := leaf_upd u g t1 evs1 k1 p1).
  assert (Hstat : static ctx1 = static ctx /\ held flavor al ctx1 = held flavor al ctx /\ unit_pages ctx1 = unit_pages ctx) by (by subst ctx1).
  destruct Hstat as (Hstat & Hheld & Hunit). apply runs_bind, (drain_ok flavor al ctx1 u1 (pre ++ evs1)).
  { rewrite Hctx1. apply op_mem_flags. eapply op_mem_tables; [| |exact Hom]; [done|]. intros p Hp. apply elem_of_app. by left. }
  rewrite Hheld, Hunit. intros y2 ctx2 m2 evs2 k2 Htk2 Hshape Hhd Hres Hcl. apply (ticks_trans (u_isr u)) in Htk2; [|apply Htk1].
  assert (Hstat2 : static ctx2 = static ctx /\ sro_handle ctx2 = sro_handle ctx)
    by (rewrite <- Hstat; subst ctx1; by destruct Hshape as (d & b & pa & [-> | ->])).
  destruct Hstat2 as [Hstat2 Hh2].
  assert (Hsm : step_mem m m2 g t1 (table_refs s2 (leaf_level ctx) t1) (held flavor al ctx) (held flavor al ctx2)).
  { rewrite Hrefs. eapply handed_step; [done|exact Hlk|exact Hng|exact Hhd]. }
  assert (Hord : forall e3, keeps_memory e3 -> forall x e1 e2, evs1 ++ evs2 ++ e3 = e1 ++ E_delegated x :: e2 -> may_return ctx vttbr S (pre ++ e1)).
  { intros e3 Hk3 x e1 e2 Hev. destruct (split_after _ _ _ _ _ Hev) as (c & -> & Hev2); [apply Hps|]. rewrite app_assoc. split.
    - intros j Hj. by apply flushed_r, Hfl.
    - intros p Hp. assert (exists e2', evs2 = c ++ E_delegated x :: e2') as [e2' ->]; [|by eapply Hcl].
      eapply split_before; [exact Hev2|apply Hk3]. }
  destruct y2.
  { apply runs_ret. specialize (HQ true ctx2 t1 m2 (evs1 ++ evs2) k2 p1 Htk2 Hstat2 (pass_leaf _ _ _ _ _ _ Hps) Hsm).
    assert (Hu : mem_step u1 m2 evs2 k2 = with_rmm u m2 (evs1 ++ evs2) k2 p1)
      by (unfold mem_step, with_rmm, u1, leaf_upd, with_log, with_mem; cbn; by rewrite app_assoc).
    rewrite Hu. destruct Hres as [Hres Hup]. apply HQ; [|rewrite app_assoc; split; [|done]].
    - specialize (Hord [] keeps_nil). by rewrite app_nil_r in Hord.
    - destruct Hot1 as [T1 T2 T3 T4 T5 T6 T7]. destruct Hshape as (d & b & pa & Hs).
      assert (Hsm0 : smmu_tlbi_pending ctx1 = false) by (by subst ctx1).
      assert (Hop : op_of ctx2 = op_of ctx) by (exact (f_equal (fun s => fst (fst (fst s))) Hstat2)).
      destruct Hs as [-> | ->]; (split; [exact T1|exact T2|exact T3|exact T4|exact T5| |]);
        try (cbn; by rewrite Hsm0); intros j Hj; left; apply flushed_r; rewrite Hop; by apply Hfl. }
  apply runs_bind. unfold rtt_unmap_clear_marks_and_drop. rewrite Hh2.
  apply (clear_loop_ok s2 lpa2 (leaf_level ctx) Hl Hlv _ 0 _ g (sro_handle ctx) t1).
  - done.
  - done.
  - by apply Hot1.
  - unfold leaf_at. cbn. rewrite (sm_tables _ _ _ _ _ _ _ Hsm). apply lookup_insert_eq.
  - exact (sm_leaf _ _ _ _ _ _ _ Hsm).
  - pose proof (ot_ok _ _ _ _ _ _ Hot1) as Hok1. subst ctx1. exact Hok1.
  - exact Hno.
  - intros t' evs3 Hclr Hk3. apply runs_ret.
    set (m' := Mem (<[g := encode GRN (AGranule true GRANULE_STATE_RTT (table_refs s2 (leaf_level ctx) t'))]> (descs m2)) (<[g := t']> (tables m2))).
    assert (Hu : leaf_set (mem_step u1 m2 evs2 k2) g (table_refs s2 (leaf_level ctx) t') t' evs3 = with_rmm u m' (evs1 ++ evs2 ++ evs3) k2 p1)
      by (unfold leaf_set, mem_step, with_rmm, u1, leaf_upd, with_log, with_mem; cbn; by rewrite !app_assoc).
    rewrite Hu. apply (HQ false ctx2 t'); [done|done|exact (cleared_leaf _ _ _ _ _ _ _ Hps Hclr)| |by apply Hord|].
    + by eapply leaf_set_step.
    + split; [done|]. intros j Hj. rewrite app_assoc. by apply flushed_r, Hfl.
Qed.

End Step.
