(* ===== verification/UnmapStamp.v ===== *)
(** * Entries the sweep stamps

    What an entry becomes when [rtt_unmap_one_table] takes it: unassigned, with the
    handle of the operation, and with a TLBI mark exactly when the entry it replaces
    was valid for hardware. *)

From Stdlib Require Import ZArith Lia Bool ZifyBool.
From stdpp Require Import base tactics option list numbers gmap.
From S2P Require Import Prelude.
From S2P Require Import Utils.
From S2P Require Import Arch.
From S2P Require Import Granule.
From S2P Require Import Mem.
From S2P Require Import S2tte.
From S2P Require Import S2tteFacts.
From S2P Require Import S2tteProps.
From S2P Require Import S2ttTable.
From S2P Require Import RttFold.
From S2P Require Import RttFoldProps.
From S2P Require Import RttTree.
From S2P Require Import RttCmds.
From S2P Require Import RttUnmap.
From S2P Require Import RttInv.
From S2P Require Import UnmapPass.

Section Stamp.
Context `{feat : ArchFeatures}.
Context (s2 : s2tt_context) (lpa2 : bool) (level : Z).
Hypothesis Hl : s2tt_lpa2_enabled s2 = Some lpa2.
Hypothesis Hlv : -1 <= level <= 3.
Implicit Types (k : s2tte_kind) (flavor : rtt_unmap_flavor).

(** The entries a command takes, and those it may find next to them. *)
Definition takes flavor k : bool :=
  match flavor, k with
  | RTT_UNMAP_FLAVOR_DATA, (K_assigned_empty | K_assigned_ram | K_assigned_destroyed) => true
  | RTT_UNMAP_FLAVOR_UNPROT, K_assigned_ns => true
  | RTT_UNMAP_FLAVOR_DEV, (K_assigned_dev_empty | K_assigned_dev_destroyed | K_assigned_dev_dev) => true
  | _, _ => false
  end.
Definition half flavor k : bool :=
  match flavor with
  | RTT_UNMAP_FLAVOR_UNPROT => match k with K_assigned_ns => true | _ => negb (kind_live k) || bool_decide (k = K_table) end
  | _ => match k with K_assigned_ns => false | _ => true end
  end.
(** Valid for hardware. *)
Definition hw_valid k : bool := match k with K_assigned_ram | K_assigned_ns | K_assigned_dev_dev => true | _ => false end.
(** What is left of an entry. *)
Definition vacated k : s2tte_kind :=
  match k with
  | K_assigned_empty | K_assigned_dev_empty => K_unassigned_empty
  | K_assigned_ns => K_unassigned_ns
  | _ => K_unassigned_destroyed
  end.

Lemma kind_test k pa e k' : built s2 level k pa e -> is_kind s2 e level k' = Some (bool_decide (k = k')).
Proof. intros Hb. by eapply built_is_kind. Qed.

Lemma assigned_dev_test k pa e : built s2 level k pa e -> k <> K_assigned_ns -> k <> K_table ->
  s2tte_is_assigned_dev s2 e = match k with K_assigned_dev_empty | K_assigned_dev_destroyed => true | _ => false end.
Proof.
  intros Hb Hns Htb. unfold s2tte_is_assigned_dev. rewrite <- (land_class_hipas lpa2).
  pose proof (built_class_bits _ _ _ _ _ _ Hl Hb) as Hc.
  destruct k; try done; cbn [class_bits] in Hc; try (rewrite Hc; destruct lpa2, (level =? 3); reflexivity).
  destruct Hc as [-> | ->]; destruct lpa2, (level =? 3); reflexivity.
Qed.

Lemma flavor_valid_ok flavor k pa e :
  built s2 level k pa e -> half flavor k = true -> kind_live k = true -> k <> K_table ->
  unmap_flavor_valid s2 e level flavor = Some (takes flavor k).
Proof.
  intros Hb Hh Hk Ht. pose proof (fun k' => kind_test k pa e k' Hb) as Hi.
  pose proof (Hi K_assigned_dev_dev) as H1. pose proof (Hi K_assigned_dev_empty) as H2.
  pose proof (Hi K_assigned_dev_destroyed) as H3. pose proof (Hi K_assigned_ns) as H4. cbn [is_kind] in H1, H2, H3, H4.
  destruct flavor; cbn [unmap_flavor_valid].
  - assert (Hns : k <> K_assigned_ns) by (by intros ->). rewrite (assigned_dev_test k pa e) by done. rewrite H1. by destruct k.
  - rewrite H4. by destruct k.
  - rewrite H1, H2, H3. by destruct k.
Qed.

Lemma make_new_ok flavor k pa e :
  built s2 level k pa e -> takes flavor k = true -> exists v,
    unmap_make_new_s2tte s2 e level flavor = Some (v, hw_valid k) /\ built s2 level (vacated k) 0 v.
Proof.
  intros Hb Ht. pose proof (fun k' => kind_test k pa e k' Hb) as Hi.
  pose proof (Hi K_assigned_ram) as H0. pose proof (Hi K_assigned_empty) as H1. pose proof (Hi K_assigned_destroyed) as H2.
  pose proof (Hi K_assigned_dev_dev) as H3. pose proof (Hi K_assigned_dev_empty) as H4.
  pose proof (Hi K_assigned_dev_destroyed) as H5. pose proof (Hi K_assigned_ns) as H6. cbn [is_kind] in H0, H1, H2, H3, H4, H5, H6.
  destruct (default_ap_some s2) as [ap Hap].
  destruct flavor, k; try discriminate Ht; cbn [unmap_make_new_s2tte]; rewrite ?H0, ?H1, ?H2, ?H3, ?H4, ?H5, ?H6, ?Hap; cbn -[s2tte_create_unassigned_empty
    s2tte_create_unassigned_destroyed s2tte_create_unassigned_ns]; (eexists; split; [reflexivity|constructor]).
Qed.

(** The TLBI mark is not looked at by anything else. *)
Lemma lor_tlbi e m : Z.land S2TTE_SW_TLBI_PENDING_BIT m = 0 -> Z.land (Z.lor e S2TTE_SW_TLBI_PENDING_BIT) m = Z.land e m.
Proof. intros Hm. by rewrite Z.land_lor_distr_l, Hm, Z.lor_0_r. Qed.

Lemma set_tlbi_ok e h :
  mineb e h = true -> exists e', s2tte_set_tlbi_pending e = Some e' /\ s2tte_drain_pending e' = s2tte_drain_pending e /\
    (forall h', mineb e' h' = mineb e h') /\ owes e' h = true /\ s2tte_clear_drain_pending e' = s2tte_clear_drain_pending e.
Proof.
  intros Hm. unfold mineb in Hm. apply andb_prop in Hm as [Hd Hh]. pose proof Hd as Hd0. unfold s2tte_drain_pending in Hd.
  apply andb_prop in Hd as [Hu Hp]. unfold s2tte_set_tlbi_pending. rewrite Hp. eexists. split; [done|].
  assert (Hhip : forall x, s2tte_has_hipas (Z.lor e S2TTE_SW_TLBI_PENDING_BIT) x = s2tte_has_hipas e x)
    by (intros x; unfold s2tte_has_hipas; by rewrite !lor_tlbi).
  assert (Hd1 : s2tte_drain_pending (Z.lor e S2TTE_SW_TLBI_PENDING_BIT) = s2tte_drain_pending e)
    by (unfold s2tte_drain_pending; by rewrite Hhip, lor_tlbi).
  assert (Hmm : forall h', mineb (Z.lor e S2TTE_SW_TLBI_PENDING_BIT) h' = mineb e h')
    by (intros h'; unfold mineb, EXTRACT; by rewrite Hd1, lor_tlbi).
  split_and!; [done|done| |unfold s2tte_clear_drain_pending; by rewrite lor_tlbi].
  unfold owes. rewrite Hmm. unfold mineb. rewrite Hd0, Hh. unfold s2tte_tlbi_pending. rewrite Hhip, Hu, Z.land_lor_distr_l.
  change (Z.land S2TTE_SW_TLBI_PENDING_BIT S2TTE_SW_TLBI_PENDING_BIT) with S2TTE_SW_TLBI_PENDING_BIT. cbn [andb].
  destruct (Z.eqb_spec (Z.lor (Z.land e S2TTE_SW_TLBI_PENDING_BIT) S2TTE_SW_TLBI_PENDING_BIT) 0) as [H|]; [|done].
  apply Z.lor_eq_0_iff in H as [_ H]. discriminate H.
Qed.

(** An entry just stamped. *)
Record stamped (h : Z) k e' : Prop := {
  st_marked : marked s2 level e';
  st_mine : forall h', mineb e' h' = (h =? h');
  st_owes : owes e' h = hw_valid k;
  st_clear : built s2 level (vacated k) 0 (s2tte_clear_drain_pending e')
}.

Lemma stamp_ok flavor k pa e h :
  built s2 level k pa e -> takes flavor k = true -> 0 <= h < 2 ^ 16 ->
  exists e', unmap_stamp s2 e level flavor h = Some e' /\ stamped h k e'.
Proof.
  intros Hb Ht Hh. destruct (make_new_ok flavor k pa e Hb Ht) as (v & Hv & Hbv).
  assert (Hdead : kind_live (vacated k) = false) by (by destruct k).
  destruct (s2tte_drain_metadata_transparent s2 lpa2 level _ 0 v h K_table Hl Hlv Hbv Hdead Hh)
    as (v1 & Hs1 & _ & Hd1 & Hh1 & Hc1 & _). unfold unmap_stamp. rewrite Hv. cbn [mbind option_bind]. rewrite Hs1. cbn [mbind option_bind].
  assert (Hm1 : forall h', mineb v1 h' = (h =? h')).
  { intros h'. unfold mineb. rewrite Hd1. unfold s2tte_drain_handle in Hh1. unfold s2tte_drain_pending in Hd1.
    apply andb_prop in Hd1 as [Hu _]. rewrite Hu in Hh1. cbn iota in Hh1. injection Hh1 as Hh1. by rewrite Hh1. }
  assert (Hmk : forall e', s2tte_drain_pending e' = true -> s2tte_clear_drain_pending e' = v -> marked s2 level e').
  { intros e' Hd Hc. split; [done|]. exists (vacated k), 0, v. done. }
  destruct (hw_valid k) eqn:Hw.
  - destruct (set_tlbi_ok v1 h) as (v2 & Hs2 & Hd2 & Hm2 & Ho2 & Hc2); [by rewrite Hm1, Z.eqb_refl|].
    exists v2. split; [done|]. split; [apply Hmk; congruence|intros h'; by rewrite Hm2|by rewrite Hw|by rewrite Hc2, Hc1].
  - exists v1. split; [done|]. split; [by apply Hmk|done| |by rewrite Hc1].
    rewrite Hw. unfold owes. rewrite Hm1, Z.eqb_refl. cbn [andb]. unfold s2tte_tlbi_pending.
    (* [v1] is [v] with the pending bit and the handle *)
    unfold s2tte_set_drain_pending in Hs1. inv_some Hs1. subst v1.
    rewrite !Z.land_lor_distr_l.
    assert (Hi : Z.land (INPLACE F_SW_HANDLE h) S2TTE_SW_TLBI_PENDING_BIT = 0).
    { rewrite <- (INPLACE_masked F_SW_HANDLE h) by (try done; split; cbn; lia). rewrite <- Z.land_assoc.
      change (Z.land (MASK F_SW_HANDLE) S2TTE_SW_TLBI_PENDING_BIT) with 0. apply Z.land_0_r. }
    rewrite Hi, <- Z.land_assoc. change (Z.land (not64 S2TTE_SW_DRAIN_MASK) S2TTE_SW_TLBI_PENDING_BIT) with 0.
    change (Z.land S2TTE_SW_DRAIN_PENDING_BIT S2TTE_SW_TLBI_PENDING_BIT) with 0. rewrite Z.land_0_r. by rewrite andb_false_r.
Qed.

End Stamp.
