(* ===== verification/UnmapValid.v ===== *)
(** * Checks on the memory behind an entry

    [rtt_unmap_tracking_validate] for realm data: it succeeds exactly when every
    page of the block is a granule of its own with realm data and no other
    reference, or when the block is one coarse unit, which is then locked. *)

From Stdlib Require Import ZArith Lia Bool ZifyBool.
From stdpp Require Import base tactics option list numbers gmap.
From S2P Require Import Prelude.
From S2P Require Import Utils.
From S2P Require Import Status.
From S2P Require Import Granule.
From S2P Require Import Mem.
From S2P Require Import AddrList.
From S2P Require Import Sro.
From S2P Require Import S2tte.
From S2P Require Import Rmm.
From S2P Require Import RttUnmap.
From S2P Require Import RttInv.
From S2P Require Import UnmapPass.
From S2P Require Import UnmapDrain.

Lemma tracking_code_some addr :
  0 <= addr < 2 ^ 52 -> (GRANULE_SIZE | addr) ->
  exists p, pack_return_code_level_addr RMI_ERROR_TRACKING 0 addr = Some p /\ p <> RMI_SUCCESS.
Proof.
  intros Ha Hd. apply pack_level_addr_some; [done|lia|lia|]. unfold result_addr_ok. apply andb_true_iff. split.
  - by apply ALIGNED_spec.
  - assert (Hs : Z.shiftr addr GRANULE_SHIFT < 2 ^ 40).
    { rewrite Z.shiftr_div_pow2 by (unfold GRANULE_SHIFT; lia). apply Z.div_lt_upper_bound; unfold GRANULE_SHIFT; lia. }
    by apply Z.ltb_lt.
Qed.

Section Valid.
Context `{laws : ActiveLaws} `{env : UnmapEnv}.

(** No granule with realm data is locked. *)
Definition active_free (m : mem) : Prop :=
  forall addr g size, active_of addr = Some (g, size) ->
    exists a, granule_at m g a /\ (a_state a = GRANULE_STATE_DATA -> a_locked a = false).

Definition data_granule (m : mem) (addr g size : Z) : Prop :=
  active_of addr = Some (g, size) /\ granule_at m g (AGranule false GRANULE_STATE_DATA 0).

Lemma sizes_ne : GRANULE_SIZE <> tracking_region_get_size.
Proof. destruct region_level as (l & Hl & ->). assert (l = 0 \/ l = 1 \/ l = 2) as [-> | [-> | ->]] by lia; discriminate. Qed.

(** One granule: an error, a granule of 4KB, or a coarse unit. *)
Lemma validate_one_ok u addr left (Q : Z * rtt_unmap_coarse_lock * Z -> urmm -> Prop) :
  active_free (r_mem (u_rmm u)) -> 0 <= addr < 2 ^ 52 -> (GRANULE_SIZE | addr) ->
  (forall st size, st <> RMI_SUCCESS -> Q (st, no_coarse, size) u) ->
  (forall g, data_granule (r_mem (u_rmm u)) addr g GRANULE_SIZE -> GRANULE_SIZE <= left -> Q (RMI_SUCCESS, no_coarse, GRANULE_SIZE) u) ->
  (forall g, data_granule (r_mem (u_rmm u)) addr g tracking_region_get_size -> tracking_region_get_size <= left ->
     (tracking_region_get_size | addr) ->
     Q (RMI_SUCCESS, CoarseLock (Some g) None, tracking_region_get_size)
       (URmm (with_mem (u_rmm u) (with_lock (r_mem (u_rmm u)) g)) (u_devs u) (u_sro u) (u_isr u) (u_polls u))) ->
  runs (validate_one addr left RTT_UNMAP_FLAVOR_DATA) u Q.
Proof.
  intros Hfree Ha Had Herr Hfine Hcoarse. unfold validate_one.
  change (flavor_is RTT_UNMAP_FLAVOR_DATA RTT_UNMAP_FLAVOR_DATA) with true. cbn iota. apply runs_bind, runs_on_rmm.
  assert (Hid : URmm (with_mem (u_rmm u) (r_mem (u_rmm u))) (u_devs u) (u_sro u) (u_isr u) (u_polls u) = u)
    by (rewrite with_mem_id; by destruct u).
  destruct (active_of addr) as [[g size]|] eqn:Ea.
  2: { destruct (active_none _ Ea) as (st & Hst & Hf). destruct (Hf (r_mem (u_rmm u)) GRANULE_STATE_DATA) as (z & Hz).
       eapply runs_on_mem; [exact Hz|]. cbn beta iota. rewrite Hid, (proj2 (Z.eqb_neq _ _) Hst). by apply runs_ret, Herr. }
  destruct (Hfree _ _ _ Ea) as (a & Hg & Hlk). destruct (active_some _ _ _ Ea) as (st & Hst & Hf). specialize (Hf _ GRANULE_STATE_DATA _ Hg).
  destruct (Z.eqb_spec (a_state a) GRANULE_STATE_DATA) as [Es|Es]; cbn [negb] in Hf.
  2: { destruct Hf as (z & Hz). eapply runs_on_mem; [exact Hz|]. cbn beta iota. rewrite Hid, (proj2 (Z.eqb_neq _ _) Hst). by apply runs_ret, Herr. }
  rewrite (Hlk Es) in Hf. eapply runs_on_mem; [exact Hf|]. cbn beta iota. rewrite Z.eqb_refl. cbn [negb].
  apply runs_bind. eapply runs_lift; [done|]. apply runs_bind. eapply runs_lift; [done|].
  apply runs_bind, runs_on_rmm. eapply runs_get; [exact (refcount_locked _ _ _ Hg (Hlk Es))|].
  set (u1 := URmm _ _ _ _ _).
  assert (Hsize : size = GRANULE_SIZE \/ size = tracking_region_get_size) by (by destruct (active_kind _ _ _ Ea) as [[? _]|[? _]]; auto).
  assert (Hunlock : forall x, Q x u -> runs (_ <-! on_rmm (h_granule_unlock g) ;; ret x) u1 Q).
  { intros x Hx. apply runs_bind, runs_on_rmm. eapply runs_on_mem; [exact (with_lock_unlock _ _ _ Hg (Hlk Es))|].
    apply runs_ret. cbn. rewrite with_mem_mem, with_mem_id. by destruct u. }
  apply runs_bind. destruct ((left <? size) || negb (ALIGNED addr size)) eqn:Ec.
  { destruct (tracking_code_some addr Ha Had) as (p & Hp & Hpn). eapply runs_lift; [exact Hp|].
    rewrite (proj2 (Z.eqb_neq _ _) Hpn). cbn [andb]. apply Hunlock. by apply Herr. }
  apply orb_false_iff in Ec as [El Eal%negb_false_iff].
  destruct (Z.eqb_spec (a_ref a) 0) as [Er|Er]; cbn [negb].
  2: { destruct (pack_level_some RMI_ERROR_RTT_AUX 0) as (p & Hp & Hpn); [done|lia|]. eapply runs_lift; [exact Hp|].
       rewrite (proj2 (Z.eqb_neq _ _) Hpn). cbn [andb]. apply Hunlock. by apply Herr. }
  eapply runs_lift; [done|]. rewrite Z.eqb_refl. cbn [andb].
  assert (Hdata : granule_at (r_mem (u_rmm u)) g (AGranule false GRANULE_STATE_DATA 0))
    by (pose proof (Hlk Es); destruct a; cbn in *; by subst).
  assert (Hpos : 0 < size) by (destruct region_facts as (n & ? & Hr & _); change GRANULE_SIZE with 4096 in *; lia).
  apply ALIGNED_spec in Eal; [|lia].
  destruct (Z.eqb_spec size tracking_region_get_size) as [->|Hne].
  - apply runs_ret. apply Hcoarse; [by split|lia|done].
  - destruct Hsize as [-> | ]; [|done]. apply Hunlock. apply (Hfine g); [by split|lia].
Qed.

Definition locked_unit (u : urmm) (g : Z) : urmm :=
  URmm (with_mem (u_rmm u) (with_lock (r_mem (u_rmm u)) g)) (u_devs u) (u_sro u) (u_isr u) (u_polls u).

Lemma validate_end n pa map_size offset flavor coarse u (Q : Z * rtt_unmap_coarse_lock -> urmm -> Prop) :
  map_size <= offset -> Q (RMI_SUCCESS, coarse) u -> runs (tracking_validate_loop n pa map_size offset flavor coarse) u Q.
Proof. intros H HQ. destruct n; cbn [tracking_validate_loop]; rewrite (proj2 (Z.ltb_ge _ _) H); by apply runs_ret. Qed.

Lemma tracking_loop_ok n : forall left pa offset u (Q : Z * rtt_unmap_coarse_lock -> urmm -> Prop),
  let map_size := offset + left * GRANULE_SIZE in
  active_free (r_mem (u_rmm u)) -> 0 <= left <= Z.of_nat n -> 0 <= offset -> (GRANULE_SIZE | offset) ->
  0 <= pa -> pa + map_size <= 2 ^ 52 -> (GRANULE_SIZE | pa) -> map_size <= tracking_region_get_size ->
  (forall st, st <> RMI_SUCCESS -> Q (st, no_coarse) u) ->
  ((forall p, p ∈ pages_from (pa + offset) left -> exists g, data_granule (r_mem (u_rmm u)) p g GRANULE_SIZE) -> Q (RMI_SUCCESS, no_coarse) u) ->
  (forall g, offset = 0 -> map_size = tracking_region_get_size -> (tracking_region_get_size | pa) ->
     data_granule (r_mem (u_rmm u)) pa g tracking_region_get_size ->
     Q (RMI_SUCCESS, CoarseLock (Some g) None) (locked_unit u g)) ->
  runs (tracking_validate_loop n pa map_size offset RTT_UNMAP_FLAVOR_DATA no_coarse) u Q.
Proof.
  induction n as [|n IH]; intros left pa offset u Q map_size Hfree Hle H0 Hdo Hpa H52 Hdp Hreg Herr Hfine Hcoarse;
    change GRANULE_SIZE with 4096 in *.
  { apply validate_end; [unfold map_size; lia|]. apply Hfine. intros p (i & Hi & _)%elem_of_pages_from. lia. }
  destruct (decide (left = 0)) as [Hz|Hnz].
  { apply validate_end; [unfold map_size; lia|]. apply Hfine. intros p (i & Hi & _)%elem_of_pages_from. lia. }
  cbn [tracking_validate_loop].
  rewrite (proj2 (Z.ltb_lt offset map_size)) by (unfold map_size; lia).
  assert (Hadd : add64 pa offset = pa + offset) by (unfold add64; apply u64_small; unfold in_u64, map_size in *; lia).
  rewrite Hadd. apply runs_bind, validate_one_ok; [done|unfold map_size in *; lia|by apply Z.divide_add_r| | |].
  - intros st size Hst. cbn beta iota. rewrite (proj2 (Z.eqb_neq _ _) Hst). by apply runs_ret, Herr.
  - intros g Hg _. cbn beta iota. rewrite Z.eqb_refl. cbn [negb].
    assert (Hms : map_size = offset + 4096 + (left - 1) * 4096) by (unfold map_size; lia). rewrite Hms.
    apply (IH (left - 1) pa (offset + 4096)); change GRANULE_SIZE with 4096; try done; try lia;
      [apply Z.divide_add_r; [done|apply Z.divide_refl]|].
    intros Hall. apply Hfine. intros p Hp. replace left with (1 + (left - 1)) in Hp by lia. rewrite pages_from_app in Hp by lia.
    apply elem_of_app in Hp as [(i & Hi & ->)%elem_of_pages_from|Hp].
    + assert (i = 0) as -> by lia. exists g. by rewrite Z.mul_0_l, Z.add_0_r.
    + apply Hall. by replace (pa + (offset + 4096)) with (pa + offset + 1 * GRANULE_SIZE) by (change GRANULE_SIZE with 4096; lia).
  - intros g Hg Hleft Hdiv. cbn beta iota. rewrite Z.eqb_refl. cbn [negb]. assert (offset = 0) as -> by lia.
    apply validate_end; [lia|]. rewrite Z.add_0_r in Hg, Hdiv. apply Hcoarse; [done|lia|done|done].
Qed.

Lemma tracking_validate_ok left pa u (Q : Z * rtt_unmap_coarse_lock -> urmm -> Prop) :
  let map_size := left * GRANULE_SIZE in
  active_free (r_mem (u_rmm u)) -> 0 <= left -> 0 <= pa -> pa + map_size <= 2 ^ 52 -> (GRANULE_SIZE | pa) -> map_size <= tracking_region_get_size ->
  (forall st, st <> RMI_SUCCESS -> Q (st, no_coarse) u) ->
  ((forall p, p ∈ pages_from pa left -> exists g, data_granule (r_mem (u_rmm u)) p g GRANULE_SIZE) -> Q (RMI_SUCCESS, no_coarse) u) ->
  (forall g, map_size = tracking_region_get_size -> (tracking_region_get_size | pa) ->
     data_granule (r_mem (u_rmm u)) pa g tracking_region_get_size ->
     Q (RMI_SUCCESS, CoarseLock (Some g) None) (locked_unit u g)) ->
  runs (rtt_unmap_tracking_validate pa map_size RTT_UNMAP_FLAVOR_DATA no_coarse) u Q.
Proof.
  intros map_size Hfree Hle Hpa H52 Hdp Hreg Herr Hfine Hcoarse. change GRANULE_SIZE with 4096 in *. unfold rtt_unmap_tracking_validate.
  apply runs_bind, runs_guard; [done|]. apply runs_bind, runs_guard; [done|].
  replace (map_size) with (0 + left * 4096) by (unfold map_size; lia).
  apply (tracking_loop_ok _ left pa 0); try done; fold map_size; try lia.
  - change GRANULE_SIZE with 4096. unfold map_size. rewrite Z.add_0_l, Z.div_mul by done. lia.
  - apply Z.divide_0_r.
  - intros Hall. apply Hfine. by rewrite Z.add_0_r in Hall.
  - intros g _ Hms. apply Hcoarse. rewrite <- Hms. unfold map_size. change GRANULE_SIZE with 4096. lia.
Qed.

End Valid.
