(* ===== verification/UnmapSweep.v ===== *)
(** * The sweep of one table

    [rtt_unmap_one_table] for realm data and for unprotected memory: which entries
    it takes, what they become, and what the address list denotes afterwards. *)

From Stdlib Require Import ZArith Lia Bool ZifyBool.
From stdpp Require Import base tactics option list numbers gmap.
From S2P Require Import Prelude.
From S2P Require Import Utils.
From S2P Require Import Status.
From S2P Require Import Smc.
From S2P Require Import Granule.
From S2P Require Import Mem.
From S2P Require Import Arch.
From S2P Require Import AddrList.
From S2P Require Import Sro.
From S2P Require Import S2tte.
From S2P Require Import S2tteFacts.
From S2P Require Import S2tteProps.
From S2P Require Import S2ttTable.
From S2P Require Import RttFold.
From S2P Require Import RttFoldProps.
From S2P Require Import RttTree.
From S2P Require Import Rmm.
From S2P Require Import RttUnmap.
From S2P Require Import RttInv.
From S2P Require Import UnmapPass.
From S2P Require Import UnmapDrain.
From S2P Require Import UnmapStep.
From S2P Require Import UnmapStamp.
From S2P Require Import UnmapValid.

(** ** Addresses *)

Lemma pow2_divide a b : 0 <= a <= b -> (2 ^ a | 2 ^ b).
Proof. intros H. exists (2 ^ (b - a)). rewrite <- Z.pow_add_r by lia. f_equal. lia. Qed.

Lemma divide_below n a b : 0 < n -> (n | a) -> (n | b) -> a < b -> a + n <= b.
Proof.
  intros Hn [x ->] [y ->] H. apply Z.mul_lt_mono_pos_r in H; [|done]. replace (x * n + n) with ((x + 1) * n) by lia.
  apply Z.mul_le_mono_nonneg_r; lia.
Qed.

(** The block a leaf entry maps. *)
Lemma leaf_pa `{ArchFeatures} s2 lpa2 level k pa e :
  s2tt_lpa2_enabled s2 = Some lpa2 -> built s2 level k pa e -> kind_live k = true -> k <> K_table ->
  1 <= level <= 3 /\ 0 <= pa /\ (s2tte_map_size level | pa) /\ pa + s2tte_map_size level <= 2 ^ 52 /\
  s2tte_map_size level = level_size level.
Proof.
  intros Hl Hb Hk Ht. destruct (built_live_shape _ _ _ _ _ _ Hl Hb Hk) as (t & r & _ & _ & Ha & Hlv & _ & Hlk & _).
  assert (Hpl : pa_level k level = level) by (by destruct k). rewrite Hpl in Ha.
  assert (H1 : 1 <= level) by (destruct k; done). apply (addr_lvl_aligned_arith s2 lpa2 pa level Hl) in Ha as (_ & _ & Hr & Hd).
  assert (Heq : s2tte_map_size level = level_size level) by (rewrite s2tte_map_size_eq by lia; unfold level_size; f_equal; lia).
  split_and!; try done; try lia. rewrite s2tte_map_size_eq in Hd |- * by lia.
  assert (Hp : pa + 2 ^ ((3 - level) * 9 + 12) <= 2 ^ oa_bits lpa2).
  { apply divide_below; [apply Z.pow_pos_nonneg; lia|done| |lia]. apply pow2_divide. unfold oa_bits. destruct lpa2; lia. }
  assert (2 ^ oa_bits lpa2 <= 2 ^ 52) by (apply Z.pow_le_mono_r; unfold oa_bits; destruct lpa2; lia). lia.
Qed.

Section Sweep.
Context `{feat : ArchFeatures} `{laws : ActiveLaws} `{env : UnmapEnv}.
Context (s2 : s2tt_context) (lpa2 : bool) (level : Z) (flavor : rtt_unmap_flavor) (h : Z).
Hypothesis Hl : s2tt_lpa2_enabled s2 = Some lpa2.
Hypothesis Hlv : -1 <= level <= 3.
Hypothesis Hfl : flavor <> RTT_UNMAP_FLAVOR_DEV.
Hypothesis Hh : 0 <= h < 2 ^ 16.
Implicit Types (ctx : sro_unmap_ctx) (al : addr_list) (t : list Z) (evs : list event) (k : s2tte_kind) (taken : list (Z * Z)).

(** ** The table *)

(** A table of the tree. *)
Definition leaf_ok t : Prop := length t = N_S2TTES /\ forall j e, arr_get t j = Some e -> entry_ok s2 level e.

(** What entry [j] maps, when the command takes it. *)
Definition maps_at t (j pa : Z) k : Prop := exists e, arr_get t j = Some e /\ built s2 level k pa e /\ takes flavor k = true.

(** Different entries from [lo] to [hi] map different blocks of realm memory. *)
Definition distinct (lo hi : Z) t : Prop := flavor = RTT_UNMAP_FLAVOR_DATA -> forall j1 j2 pa k1 k2,
  lo <= j1 < hi -> lo <= j2 < hi -> maps_at t j1 pa k1 -> maps_at t j2 pa k2 -> j1 = j2.

(** [t] is [t0] with the entries of [taken], all below [idx], stamped. *)
Record swept (start idx : Z) t0 t taken : Prop := {
  sw_len : length t = length t0;
  sw_entry : forall j e, arr_get t0 j = Some e ->
    (arr_get t j = Some e /\ (forall pa, (j, pa) ∉ taken) /\ (start <= j < idx -> s2tte_is_live s2 e level = false)) \/
    (exists k pa e', built s2 level k pa e /\ takes flavor k = true /\ arr_get t j = Some e' /\ stamped s2 level h k e' /\ (j, pa) ∈ taken);
  sw_taken : forall j pa, (j, pa) ∈ taken -> start <= j < idx /\ exists k, maps_at t0 j pa k;
  sw_nodup : NoDup taken
}.

Lemma swept_start start t0 : swept start start t0 t0 [].
Proof. split; try done; [|intros j pa Hj; by apply elem_of_nil in Hj|constructor]. intros j e He. left. split_and!; [done| |lia]. intros pa Hp. by apply elem_of_nil in Hp. Qed.

(** An entry that is not live is passed over. *)
Lemma swept_skip start idx t0 t taken e :
  swept start idx t0 t taken -> arr_get t0 idx = Some e -> s2tte_is_live s2 e level = false -> swept start (idx + 1) t0 t taken.
Proof.
  intros [H1 H2 H3 H4] He Hd. split; try done.
  - intros j x Hx. destruct (H2 j x Hx) as [(Ha & Hb & Hc)|?]; [left|by right]. split_and!; try done. intros Hj.
    destruct (decide (j = idx)) as [->|]; [|apply Hc; lia]. congruence.
  - intros j pa [Hj ?]%H3. split; [lia|done].
Qed.

(** A live entry is stamped. *)
Lemma swept_take start idx t0 t taken e e' k pa t1 :
  swept start idx t0 t taken -> start <= idx -> arr_get t0 idx = Some e -> built s2 level k pa e -> takes flavor k = true ->
  stamped s2 level h k e' -> arr_set t idx e' = Some t1 -> swept start (idx + 1) t0 t1 ((idx, pa) :: taken).
Proof.
  intros [H1 H2 H3 H4] Hs He Hb Ht Hst Hset. split.
  - by rewrite (arr_set_length _ _ _ _ Hset).
  - intros j x Hx. rewrite (arr_get_set _ _ _ _ j Hset). destruct (Z.eqb_spec j idx) as [->|Hne].
    + right. assert (x = e) as -> by congruence. exists k, pa, e'. split_and!; try done. by left.
    + destruct (H2 j x Hx) as [(Ha & Hb' & Hc)|(k1 & pa1 & e1 & K1 & K2 & K3 & K4 & K5)]; [left|right].
      * split_and!; [done| |intros Hj; apply Hc; lia]. intros p [[= ? ?]|Hp]%elem_of_cons; [done|by eapply Hb'].
      * exists k1, pa1, e1. split_and!; try done. by right.
  - intros j p [[= -> ->]|[Hj Hm]%H3]%elem_of_cons; [|split; [lia|done]]. split; [lia|]. exists k, e. done.
  - constructor; [|done]. intros [Hj _]%H3. lia.
Qed.

(** Each entry keeps its place before it is reached. *)
Lemma swept_ahead start idx t0 t taken : swept start idx t0 t taken -> arr_get t idx = arr_get t0 idx.
Proof.
  intros [H1 H2 H3 _]. destruct (arr_get t0 idx) as [e|] eqn:E.
  - destruct (H2 idx e E) as [(Ha & _)|(k & pa & e' & _ & _ & _ & _ & Hin)]; [done|]. apply H3 in Hin as [? _]. lia.
  - destruct (arr_get t idx) as [e|] eqn:E'; [|done]. apply arr_get_lt in E'. rewrite H1 in E'. destruct (arr_get_some t0 idx E') as [x Hx]. congruence.
Qed.

(** ** The pages of what is taken *)

Definition map_size : Z := s2tte_map_size level.
Definition block_of (x : Z * Z) : block := (x.2, level, blk_status flavor).
Definition entry_pages (pa : Z) : list Z := pages_from pa (map_size / GRANULE_SIZE).

Lemma pages_from_nodup lo n : NoDup (pages_from lo n).
Proof. apply NoDup_fmap_2_strong; [|apply NoDup_seqZ]. intros x y _ _ H. change GRANULE_SIZE with 4096 in H. lia. Qed.

Lemma entry_block_eq pa1 pa2 p : 1 <= level <= 3 -> (map_size | pa1) -> (map_size | pa2) -> p ∈ entry_pages pa1 -> p ∈ entry_pages pa2 -> pa1 = pa2.
Proof.
  intros Hl1 [x ->] [y ->] (i & Hi & ->)%elem_of_pages_from (j & Hj & He)%elem_of_pages_from.
  destruct (level_size_pages level) as (Hm & Hpos & _); [lia|].
  assert (Heq : map_size = level_size level) by (unfold map_size; rewrite s2tte_map_size_eq by lia; unfold level_size; f_equal; lia).
  rewrite <- Heq in Hm, Hpos. set (n := map_size / GRANULE_SIZE) in *. rewrite Hm in He |- *. change GRANULE_SIZE with 4096 in *.
  assert (x * n + i = y * n + j) by lia. assert (x = y) as ->; [|done]. nia.
Qed.

Lemma taken_live k : takes flavor k = true -> kind_live k = true /\ k <> K_table.
Proof. by destruct flavor, k. Qed.

Lemma maps_at_block t j pa k : maps_at t j pa k ->
  1 <= level <= 3 /\ 0 <= pa /\ (map_size | pa) /\ pa + map_size <= 2 ^ 52 /\ map_size = level_size level.
Proof. intros (e & He & Hb & Ht). destruct (taken_live k Ht). by eapply leaf_pa. Qed.

Lemma fmap_then_bind {A B C} (f : A -> B) (g : B -> list C) l : (f <$> l) ≫= g = l ≫= (g ∘ f).
Proof. induction l as [|x l IH]; [done|]. cbn. by f_equal. Qed.

Lemma taken_pages start idx t0 t taken :
  swept start idx t0 t taken -> distinct start idx t0 -> flavor = RTT_UNMAP_FLAVOR_DATA -> NoDup (pages_of (block_of <$> taken)).
Proof.
  intros [_ _ H3 H4] Hd Hdat. unfold pages_of. rewrite fmap_then_bind.
  assert (Hb : forall j pa, (j, pa) ∈ taken -> block_pages (block_of (j, pa)) = entry_pages pa).
  { intros j pa [_ [k Hk]]%H3. apply maps_at_block in Hk as (_ & _ & _ & _ & Heq). cbn. unfold entry_pages. by rewrite Heq. }
  apply NoDup_bind; [|intros [j pa] Hin; cbn [compose]; rewrite (Hb j pa Hin); apply pages_from_nodup|done].
  intros [j1 pa1] [j2 pa2] p Hin1 Hin2. cbn [compose]. rewrite (Hb _ _ Hin1), (Hb _ _ Hin2). intros Hp1 Hp2.
  apply H3 in Hin1 as (Hj1 & k1 & Hk1). apply H3 in Hin2 as (Hj2 & k2 & Hk2).
  pose proof (maps_at_block _ _ _ _ Hk1) as (Hlv1 & _ & Hd1 & _). pose proof (maps_at_block _ _ _ _ Hk2) as (_ & _ & Hd2 & _).
  assert (pa1 = pa2) as -> by (by eapply entry_block_eq). by rewrite (Hd Hdat j1 j2 pa2 k1 k2 Hj1 Hj2).
Qed.

(** ** What the sweep has gathered *)

Record gathered (m : mem) al ctx (prev_pa : Z) taken : Prop := {
  ga_list : al_wf al /\ al_type al = LIST_TYPE_OUTPUT /\ all_used al /\ 0 < max_count al;
  ga_blocks : blocks al ≡ₚ (block_of <$> taken);
  ga_ctx : g_coarse ctx = None /\ g_coarse_dev ctx = None /\ sro_handle ctx = h;
  ga_prev : prev_pa <> NO_ADDR -> taken <> [];
  ga_first : flavor = RTT_UNMAP_FLAVOR_DATA -> taken = [] -> backing_addr ctx = NO_ADDR;
  ga_pages : flavor = RTT_UNMAP_FLAVOR_DATA -> forall j pa, (j, pa) ∈ taken ->
    (forall p, p ∈ entry_pages pa -> exists g, data_granule m p g GRANULE_SIZE) /\
    backing_addr ctx <> NO_ADDR /\ pa / tracking_region_get_size = backing_addr ctx / tracking_region_get_size
}.

Lemma region_pow2 : exists n, 12 <= n < 64 /\ tracking_region_get_size = 2 ^ n.
Proof.
  destruct region_level as (l & Hl' & ->). assert (l = 0 \/ l = 1 \/ l = 2) as [-> | [-> | ->]] by lia; [exists 39|exists 30|exists 21]; by split.
Qed.

Lemma same_region a b :
  in_u64 a -> in_u64 b -> (round_down a tracking_region_get_size =? round_down b tracking_region_get_size)
    = (a / tracking_region_get_size =? b / tracking_region_get_size).
Proof.
  intros Ha Hb. destruct region_pow2 as (n & Hn & ->). rewrite !round_down_spec by (done || lia).
  assert (0 < 2 ^ n) by (apply Z.pow_pos_nonneg; lia).
  pose proof (Z.div_mod a (2 ^ n) ltac:(lia)) as H1. pose proof (Z.div_mod b (2 ^ n) ltac:(lia)) as H2.
  destruct (Z.eqb_spec (a / 2 ^ n) (b / 2 ^ n)) as [E|E]; [rewrite E in H1; apply Z.eqb_eq; lia|].
  apply Z.eqb_neq. intros He. apply E. apply (Z.mul_reg_l _ _ (2 ^ n)); lia.
Qed.

(** How the check on the memory of an entry that maps [pa] ends. *)
Lemma sweep_backing_ok u pa ctx t j k (Q : entry_check * sro_unmap_ctx * rtt_unmap_coarse_lock -> urmm -> Prop) :
  active_free (r_mem (u_rmm u)) -> maps_at t j pa k -> (flavor = RTT_UNMAP_FLAVOR_DATA -> backing_addr ctx <> NO_ADDR -> in_u64 (backing_addr ctx)) ->
  (forall code b, code <> RMI_SUCCESS -> flavor = RTT_UNMAP_FLAVOR_DATA -> Q (Check_error code, set_backing b ctx, no_coarse) u) ->
  (flavor = RTT_UNMAP_FLAVOR_DATA -> backing_addr ctx <> NO_ADDR -> Q (Check_stop, ctx, no_coarse) u) ->
  (flavor <> RTT_UNMAP_FLAVOR_DATA -> Q (Check_go, ctx, no_coarse) u) ->
  (forall c, flavor = RTT_UNMAP_FLAVOR_DATA ->
     (backing_addr ctx <> NO_ADDR -> pa / tracking_region_get_size = backing_addr ctx / tracking_region_get_size) ->
     (c = None /\ (forall p, p ∈ entry_pages pa -> exists g, data_granule (r_mem (u_rmm u)) p g GRANULE_SIZE) \/
      exists g, c = Some g /\ map_size = tracking_region_get_size /\ data_granule (r_mem (u_rmm u)) pa g tracking_region_get_size) ->
     Q (Check_go, set_backing pa ctx, CoarseLock c None) (match c with Some g => locked_unit u g | None => u end)) ->
  runs (unmap_backing_check pa map_size flavor ctx no_coarse) u Q.
Proof.
  intros Hfree Hm Hbk Herr Hstop Hgo Hdata. pose proof (maps_at_block _ _ _ _ Hm) as (Hl1 & Hp0 & Hdv & Hp52 & Heq).
  destruct (level_size_pages level) as (Hmul & Hpos & _); [lia|]. rewrite <- Heq in Hmul, Hpos.
  assert (Hself : set_backing (backing_addr ctx) ctx = ctx) by (by destruct ctx).
  unfold unmap_backing_check. destruct flavor; [|by apply runs_ret, Hgo|done]. cbn [flavor_is bool_decide decide_rel]. clear Hgo.
  change (flavor_is RTT_UNMAP_FLAVOR_DATA RTT_UNMAP_FLAVOR_UNPROT) with false. cbn iota.
  assert (Hdg : (GRANULE_SIZE | pa)) by (etransitivity; [|exact Hdv]; rewrite Hmul; apply Z.divide_factor_r).
  assert (Hmp : 0 < map_size) by (rewrite Hmul; apply Z.mul_pos_pos; [exact Hpos|done]).
  destruct (Z.ltb_spec tracking_region_get_size map_size) as [Hbig|Hfit].
  { destruct (tracking_code_some pa) as (p & Hp & Hpn); [lia|done|]. apply runs_bind. eapply runs_lift; [exact Hp|]. apply runs_ret.
    rewrite <- Hself. by apply Herr. }
  assert (Hu : in_u64 pa) by (unfold in_u64; lia).
  destruct (negb (backing_addr ctx =? NO_ADDR) && negb (round_down pa tracking_region_get_size =? round_down (backing_addr ctx) tracking_region_get_size)) eqn:Ereg.
  { apply andb_prop in Ereg as [E1%negb_true_iff%Z.eqb_neq _]. by apply runs_ret, Hstop. }
  assert (Hsame : backing_addr ctx <> NO_ADDR -> pa / tracking_region_get_size = backing_addr ctx / tracking_region_get_size).
  { intros Hb. rewrite (proj2 (Z.eqb_neq _ _) Hb) in Ereg. cbn in Ereg. rewrite same_region in Ereg by auto. lia. }
  apply runs_bind. rewrite Hmul. set (left := map_size / GRANULE_SIZE) in *.
  apply (tracking_validate_ok left); try done; try lia; try (change GRANULE_SIZE with 4096 in *; lia).
  - intros st Hst. apply runs_ret. cbn [fst snd]. rewrite (proj2 (Z.eqb_neq _ _) Hst). by apply Herr.
  - intros Hall. apply runs_ret. cbn [fst snd]. rewrite Z.eqb_refl. apply (Hdata None); [done|done|]. left. done.
  - intros g Hms Hdr Hg. apply runs_ret. cbn [fst snd]. rewrite Z.eqb_refl. apply (Hdata (Some g)); [done|done|]. right. exists g. split_and!; [done|lia|done].
Qed.

(** ** Taking an entry *)

Definition after_coarse (u : urmm) (c : option Z) : urmm :=
  match c with
  | Some g => URmm (with_mem (u_rmm u) (set_granule (r_mem (u_rmm u)) g (AGranule false GRANULE_STATE_PARTIAL 0))) (u_devs u) (u_sro u) (u_isr u) (u_polls u)
  | None => u
  end.
Definition while_coarse (u : urmm) (c : option Z) : urmm := match c with Some g => locked_unit u g | None => u end.

Lemma taken_refs t idx e e' k pa t1 :
  arr_get t idx = Some e -> built s2 level k pa e -> takes flavor k = true -> stamped s2 level h k e' -> arr_set t idx e' = Some t1 ->
  table_refs s2 level t1 = table_refs s2 level t + (if flavor_is flavor RTT_UNMAP_FLAVOR_UNPROT then 1 else 0).
Proof.
  intros He Hb Ht [Hmk _ _ _] Hs. rewrite (table_refs_set s2 level t idx e e' t1 He Hs).
  rewrite (entry_refs_built s2 lpa2 level k pa e) by done.
  assert (Hr : entry_refs s2 level e' = 1) by (unfold entry_refs; by destruct Hmk as [-> _]). rewrite Hr.
  assert (Hk : kind_refs k = if flavor_is flavor RTT_UNMAP_FLAVOR_UNPROT then 0 else 1) by (by destruct flavor, k).
  rewrite Hk. destruct (flavor_is _ _); lia.
Qed.

Lemma leaf_desc_ne m g gc r s : descs m !! g = Some (encode GRN (AGranule true GRANULE_STATE_RTT r)) -> 0 <= r <= 512 ->
  granule_at m gc (AGranule false s 0) -> gc <> g.
Proof.
  intros Hd Hr (Hd' & Hwf & _) ->. rewrite Hd in Hd'. injection Hd' as Hd'. apply encode_inj in Hd'; [discriminate| |done]. apply wf_count; [done|lia].
Qed.

Lemma unmap_entry_ok u c g t idx e k pa s (Q : bool * sweep -> urmm -> Prop) :
  leaf_at u g t -> leaf_locked u g (table_refs s2 level t) -> length t = N_S2TTES ->
  arr_get t idx = Some e -> built s2 level k pa e -> takes flavor k = true -> sro_handle (sw_ctx s) = h ->
  sw_coarse s = CoarseLock c None -> g_coarse (sw_ctx s) = None -> g_coarse_dev (sw_ctx s) = None ->
  (forall gc, c = Some gc -> granule_at (r_mem (u_rmm u)) gc (AGranule false GRANULE_STATE_DATA 0)) ->
  (forall e' t1, stamped s2 level h k e' -> arr_set t idx e' = Some t1 ->
     Q (match c with Some gc => (true, Sweep (set_coarse (Some gc) None (sw_ctx s)) (sw_list s) no_coarse (sw_res s)) | None => (false, s) end)
       (leaf_set (after_coarse u c) g (table_refs s2 level t1) t1 [E_write g idx e'])) ->
  runs (unmap_entry s2 g level flavor idx e s) (while_coarse u c) Q.
Proof.
  intros Ht Hd Hlen He Hb Htk Hhd Hsc Hg1 Hg2 Hc HQ. unfold unmap_entry.
  destruct (stamp_ok s2 lpa2 level Hl Hlv flavor k pa e h Hb Htk Hh) as (e' & Hst & Hstd). rewrite Hhd.
  destruct (arr_set t idx e') as [t1|] eqn:Hs; [|rewrite arr_set_some in Hs by (by apply arr_get_lt in He); done].
  specialize (HQ e' t1 Hstd Hs). pose proof (taken_refs t idx e e' k pa t1 He Hb Htk Hstd Hs) as Hrefs.
  pose proof (table_refs_range s2 level t1) as Hr1. pose proof (table_refs_range s2 level t) as Hr0.
  rewrite (arr_set_length _ _ _ _ Hs), Hlen in Hr1. rewrite Hlen in Hr0. change (Z.of_nat N_S2TTES) with 512 in Hr0, Hr1.
  assert (Hne : forall gc, c = Some gc -> gc <> g) by (intros gc Hgc; exact (leaf_desc_ne _ _ _ _ _ Hd Hr0 (Hc gc Hgc))).
  assert (Hd1 : leaf_locked (while_coarse u c) g (table_refs s2 level t)).
  { destruct c as [gc|]; [|done]. unfold leaf_locked. cbn. rewrite lookup_alter_ne; [exact Hd|]. by apply Hne. }
  apply runs_bind. eapply runs_lift; [exact Hst|]. apply runs_bind.
  apply (runs_write_entry _ g t idx e' t1); [by destruct c|done|]. apply runs_bind.
  set (u1 := leaf_upd _ _ _ _ _ _).
  assert (Hgets : runs (if flavor_is flavor RTT_UNMAP_FLAVOR_UNPROT then on_rmm (h_on_desc g atomic_granule_get) else ret tt) u1
    (fun _ w => w = leaf_set (while_coarse u c) g (table_refs s2 level t1) t1 [E_write g idx e'])).
  { destruct (flavor_is flavor RTT_UNMAP_FLAVOR_UNPROT).
    - apply runs_on_rmm. eapply runs_on_desc; [exact Hd1|apply inc_locked; (done || lia)|]. rewrite Hrefs. done.
    - apply runs_ret. rewrite Hrefs, Z.add_0_r. unfold u1, leaf_upd, leaf_set, set_table. by rewrite (insert_id (descs _)) by exact Hd1. }
  eapply runs_mono; [exact Hgets|]. intros [] w ->. rewrite Hsc. destruct c as [gc|]; [|by apply runs_ret].
  specialize (Hne gc eq_refl). pose proof (Hc gc eq_refl) as Hgc. apply runs_bind. unfold rtt_unmap_coarse_claim. rewrite Hg1, Hg2.
  apply runs_bind, runs_guard; [done|]. cbn [coarse_data coarse_dev]. apply runs_bind, runs_on_rmm.
  eapply runs_on_desc; [|apply data_to_partial|].
  { cbn. rewrite lookup_insert_ne by congruence. apply (granule_at_with_lock _ _ _ Hgc eq_refl). }
  apply runs_ret, runs_ret.
  match goal with |- Q _ ?s => assert (Hu : s = leaf_set (after_coarse u (Some gc)) g (table_refs s2 level t1) t1 [E_write g idx e']); [|by rewrite Hu] end.
  unfold leaf_set, after_coarse, while_coarse, locked_unit, with_log, with_mem, set_granule, with_lock. cbn.
  rewrite insert_insert_ne by congruence. by rewrite insert_alter_eq.
Qed.

(** ** The checks on a live entry *)

Definition list_use al : Prop := al_wf al /\ al_type al = LIST_TYPE_OUTPUT /\ all_used al /\ 0 < max_count al.

Lemma data_granule_leaf u g r t evs r0 p x size :
  leaf_locked u g r0 -> 0 <= r0 <= 512 -> data_granule (r_mem (u_rmm u)) p x size -> data_granule (r_mem (u_rmm (leaf_set u g r t evs))) p x size.
Proof.
  intros Hd Hr [Ha Hg]. split; [done|]. eapply granule_at_descs; [|exact Hg]. cbn. apply lookup_insert_ne.
  pose proof (leaf_desc_ne _ _ _ _ _ Hd Hr Hg). congruence.
Qed.

Lemma active_free_leaf u g r t evs : 0 <= r <= 512 -> active_free (r_mem (u_rmm u)) -> active_free (r_mem (u_rmm (leaf_set u g r t evs))).
Proof.
  intros Hr Hf addr x size Ha. destruct (Hf _ _ _ Ha) as (a & Hg & Hlk). destruct (decide (x = g)) as [->|Hne].
  - exists (AGranule true GRANULE_STATE_RTT r). split; [|done]. split; [apply lookup_insert_eq|]. split; [apply wf_count; (done || lia)|by apply ref_ok_rtt].
  - exists a. split; [|done]. eapply granule_at_descs; [|exact Hg]. cbn. by apply lookup_insert_ne.
Qed.

Lemma gathered_empty m al ctx prev_pa : gathered m al ctx prev_pa [] -> al_count al = 0.
Proof.
  intros [(Hwf & _ & Hu & _) Hb _ _ _ _]. cbn in Hb. apply Permutation_nil_r in Hb. pose proof (al_bounds _ Hwf). pose proof (al_len _ Hwf).
  destruct (decide (al_count al = 0)) as [|Hne]; [done|]. destruct (descs_some al 0 Hwf ltac:(lia)) as (d & _ & Hd & _).
  unfold all_used in Hu. rewrite Forall_forall in Hu. specialize (Hu d (list_elem_of_lookup_2 _ _ _ Hd)).
  unfold blocks in Hb. destruct (descs_of al) as [|d' ds]; [done|]. cbn in Hd. injection Hd as ->. cbn in Hb.
  apply app_eq_nil in Hb as [Hb _]. unfold desc_blocks in Hb. by rewrite range_blocks_cons in Hb.
Qed.

(** A block that maps a whole region is alone. *)
Lemma unit_alone m al ctx prev_pa start idx t0 t taken pa k :
  gathered m al ctx prev_pa taken -> swept start idx t0 t taken -> start <= idx -> distinct start (idx + 1) t0 -> flavor = RTT_UNMAP_FLAVOR_DATA ->
  maps_at t0 idx pa k -> map_size = tracking_region_get_size ->
  (backing_addr ctx <> NO_ADDR -> pa / tracking_region_get_size = backing_addr ctx / tracking_region_get_size) -> taken = [].
Proof.
  intros Hga Hsw Hsi Hdis Hdata Hm Hms Hreg. destruct taken as [|[j pa'] taken]; [done|]. exfalso.
  assert (Hin : (j, pa') ∈ (j, pa') :: taken) by (by left). destruct (ga_pages _ _ _ _ _ Hga Hdata j pa' Hin) as (_ & Hb & Hq).
  destruct (sw_taken _ _ _ _ _ Hsw j pa' Hin) as (Hj & k' & Hm'). rewrite <- (Hreg Hb) in Hq.
  pose proof (maps_at_block _ _ _ _ Hm) as (_ & _ & [x Hx] & _). pose proof (maps_at_block _ _ _ _ Hm') as (_ & _ & [y Hy] & _).
  rewrite Hms in Hx, Hy. assert (Hpos : tracking_region_get_size <> 0).
  { destruct region_facts as (n & Hn & Hr & _). change GRANULE_SIZE with 4096 in Hr. lia. }
  rewrite Hx, Hy, !Z.div_mul in Hq by done. assert (pa' = pa) as -> by (rewrite Hx, Hy; congruence).
  assert (idx = j) by (apply (Hdis Hdata idx j pa k k'); [lia|lia|done|done]). lia.
Qed.

Lemma gathered_take m al al' ctx ctx' prev_pa start idx t0 t taken pa k :
  gathered m al ctx prev_pa taken -> swept start idx t0 t taken -> maps_at t0 idx pa k -> list_use al' ->
  blocks al' ≡ₚ (pa, level, blk_status flavor) :: blocks al ->
  g_coarse ctx' = None /\ g_coarse_dev ctx' = None /\ sro_handle ctx' = h ->
  (flavor = RTT_UNMAP_FLAVOR_DATA -> backing_addr ctx' = pa /\
     (backing_addr ctx <> NO_ADDR -> pa / tracking_region_get_size = backing_addr ctx / tracking_region_get_size) /\
     forall p, p ∈ entry_pages pa -> exists g, data_granule m p g GRANULE_SIZE) ->
  gathered m al' ctx' pa ((idx, pa) :: taken).
Proof.
  intros [L B C P F G] Hsw Hm Hl' Hb Hc Hd. split; try done.
  - rewrite Hb, B. done.
  - intros Hdat. destruct (Hd Hdat) as (Hbk & Hreg & Hpg). pose proof (maps_at_block _ _ _ _ Hm) as (_ & Hp0 & _ & Hp52 & _).
    assert (Hna : pa <> NO_ADDR) by (assert (2 ^ 52 < NO_ADDR) by (by vm_compute); assert (0 <= map_size) by (unfold map_size; rewrite s2tte_map_size_eq by done; apply Z.pow_nonneg; lia); lia).
    intros j pa' [[= -> ->]|Hin]%elem_of_cons; rewrite Hbk; [done|]. destruct (G Hdat j pa' Hin) as (G1 & G2 & G3). split_and!; [done|done|].
    rewrite G3. symmetry. by apply Hreg.
Qed.

(** Where the sweep of table [g] is: at entry [idx], with [t] in place of [t0]. *)
Record sweeping (u : urmm) (g start idx prev_pa : Z) t0 t taken (s : sweep) : Prop := {
  sg_at : leaf_at u g t;
  sg_locked : leaf_locked u g (table_refs s2 level t);
  sg_free : active_free (r_mem (u_rmm u));
  sg_swept : swept start idx t0 t taken;
  sg_got : gathered (r_mem (u_rmm u)) (sw_list s) (sw_ctx s) prev_pa taken;
  sg_coarse : sw_coarse s = no_coarse;
  sg_back : flavor = RTT_UNMAP_FLAVOR_DATA -> backing_addr (sw_ctx s) <> NO_ADDR -> in_u64 (backing_addr (sw_ctx s))
}.

(** The sweep of a table takes one more entry: its state afterwards. *)
Lemma sweeping_take u g start idx prev_pa t0 t taken s ctx' al' res' e e' k pa t1 :
  sweeping u g start idx prev_pa t0 t taken s -> start <= idx -> length t0 = N_S2TTES ->
  arr_get t0 idx = Some e -> built s2 level k pa e -> takes flavor k = true -> stamped s2 level h k e' -> arr_set t idx e' = Some t1 ->
  gathered (r_mem (u_rmm u)) al' ctx' pa ((idx, pa) :: taken) ->
  (flavor = RTT_UNMAP_FLAVOR_DATA -> backing_addr ctx' <> NO_ADDR -> in_u64 (backing_addr ctx')) ->
  sweeping (leaf_set u g (table_refs s2 level t1) t1 [E_write g idx e']) g start (idx + 1) pa t0 t1 ((idx, pa) :: taken) (Sweep ctx' al' no_coarse res').
Proof.
  intros [A1 A2 A3 A4 A5 A6 A7] Hs Hlen He Hb Htk Hst Hset Hga Hbk.
  assert (Hrng : forall x, length x = N_S2TTES -> 0 <= table_refs s2 level x <= 512).
  { intros x Hx. pose proof (table_refs_range s2 level x) as Hr. rewrite Hx in Hr. exact Hr. }
  pose proof (sw_len _ _ _ _ _ A4) as Hlt. pose proof (arr_set_length _ _ _ _ Hset) as Hl1.
  split; [apply leaf_at_set|apply leaf_locked_set|apply active_free_leaf; [apply Hrng; lia|done]| | |done|done].
  - by eapply swept_take.
  - destruct Hga as [G1 G2 G3 G4 G5 G6]. split; try done. intros Hdat j p Hin. destruct (G6 Hdat j p Hin) as (H1 & H2). split; [|done].
    intros q Hq. destruct (H1 q Hq) as (x & Hx). exists x. eapply data_granule_leaf; [exact A2|apply Hrng; lia|done].
Qed.

Lemma blk_status_ok : blk_status flavor = RMI_OP_MEM_DELEGATED \/ blk_status flavor = RMI_OP_MEM_UNDELEGATED.
Proof. destruct flavor; [by left|by right|done]. Qed.

Lemma live_entry_ok u g start idx addr prev_pa t0 t taken s e k pa (Q : Z * sweep + option bool * Z * sweep -> urmm -> Prop) :
  sweeping u g start idx prev_pa t0 t taken s -> start <= idx -> leaf_ok t0 -> distinct start (idx + 1) t0 ->
  arr_get t0 idx = Some e -> built s2 level k pa e -> half flavor k = true -> kind_live k = true -> k <> K_table ->
  (forall code b, code <> RMI_SUCCESS -> idx = start -> Q (inl (code, Sweep (set_backing b (sw_ctx s)) (sw_list s) no_coarse (sw_res s))) u) ->
  (forall al' b res', idx <> start -> list_use al' -> descs_of al' = descs_of (sw_list s) ->
     Q (inr (None, prev_pa, Sweep (set_backing b (sw_ctx s)) al' no_coarse res')) u) ->
  (forall al' b e' t1, takes flavor k = true -> stamped s2 level h k e' -> arr_set t idx e' = Some t1 ->
     let s' := Sweep (set_backing b (sw_ctx s)) al' no_coarse (sw_res s) in
     let u' := leaf_set u g (table_refs s2 level t1) t1 [E_write g idx e'] in
     sweeping u' g start (idx + 1) pa t0 t1 ((idx, pa) :: taken) s' -> Q (inr (Some false, pa, s')) u') ->
  (forall al' e' t1 gc, flavor = RTT_UNMAP_FLAVOR_DATA -> takes flavor k = true -> taken = [] ->
     stamped s2 level h k e' -> arr_set t idx e' = Some t1 ->
     data_granule (r_mem (u_rmm u)) pa gc tracking_region_get_size -> map_size = tracking_region_get_size ->
     list_use al' -> blocks al' = [(pa, level, blk_status flavor)] ->
     Q (inr (Some true, pa, Sweep (set_coarse (Some gc) None (set_backing pa (sw_ctx s))) al' no_coarse (sw_res s)))
       (leaf_set (after_coarse u (Some gc)) g (table_refs s2 level t1) t1 [E_write g idx e'])) ->
  runs (unmap_live_entry s2 g start level map_size flavor idx addr prev_pa e s) u Q.
Proof.
  intros Hsg Hsi Hok Hdis He Hb Hhalf Hlive Htb Herr Hstop Htake Hunit. pose proof Hsg as [A1 A2 A3 A4 A5 A6 A7].
  pose proof A5 as [Hlist Hblk (C1 & C2 & C3) _ _ _].
  assert (Hnew : idx = start -> taken = []).
  { intros ->. destruct taken as [|[j p] taken]; [done|]. destruct (sw_taken _ _ _ _ _ A4 j p) as [? _]; [by left|lia]. }
  assert (Hself : Sweep (set_backing (backing_addr (sw_ctx s)) (sw_ctx s)) (sw_list s) no_coarse (sw_res s) = s)
    by (destruct s as [c ? ? ?]; cbn in *; subst; by destruct c).
  destruct (pack_level_some RMI_ERROR_RTT (u8 level)) as (code & Hcode & Hcne); [done|unfold u8; apply Z.mod_pos_bound; lia|].
  unfold unmap_live_entry. apply runs_bind. eapply runs_lift; [by eapply flavor_valid_ok|].
  destruct (takes flavor k) eqn:Htk; cbn [negb].
  2: { apply runs_bind. eapply runs_lift; [exact Hcode|]. destruct (Z.eqb_spec idx start) as [Hi|Hi]; apply runs_ret.
       - specialize (Herr code (backing_addr (sw_ctx s)) Hcne Hi). by rewrite Hself in Herr.
       - replace (sw_ctx s) with (set_backing (backing_addr (sw_ctx s)) (sw_ctx s)) at 1 by (by destruct (sw_ctx s)). rewrite A6. by apply Hstop. }
  assert (Hm : maps_at t0 idx pa k) by (by exists e). pose proof (maps_at_block _ _ _ _ Hm) as (Hl1 & Hp0 & Hdv & Hp52 & Heq).
  destruct (level_size_pages level) as (Hmul & Hms0 & Hxl); [lia|].
  assert (Hmp : 0 < map_size) by (rewrite Heq, Hmul; apply Z.mul_pos_pos; [exact Hms0|done]).
  apply runs_bind. eapply runs_lift; [by eapply built_pa|]. apply runs_bind. rewrite A6.
  set (ctx1 := fun b => set_backing b (sw_ctx s)).
  assert (Hprev : taken = [] -> prev_pa = NO_ADDR).
  { intros Htn. destruct (decide (prev_pa = NO_ADDR)) as [|Hn]; [done|]. by destruct (ga_prev _ _ _ _ _ A5 Hn). }
  assert (Hidx : taken <> [] -> idx <> start) by (intros Htn Hi; by apply Htn, Hnew).
  assert (Htail : forall b c,
    ((c = None /\
      forall al', list_use al' -> blocks al' ≡ₚ (pa, level, blk_status flavor) :: blocks (sw_list s) ->
        gathered (r_mem (u_rmm u)) al' (ctx1 b) pa ((idx, pa) :: taken) /\ (flavor = RTT_UNMAP_FLAVOR_DATA -> b <> NO_ADDR -> in_u64 b)) \/
     exists gc, c = Some gc /\ b = pa /\ flavor = RTT_UNMAP_FLAVOR_DATA /\ taken = [] /\ map_size = tracking_region_get_size /\
       data_granule (r_mem (u_rmm u)) pa gc tracking_region_get_size) ->
    runs (if (oaddr_type (ctx1 b) =? RMI_ADDR_TYPE_SINGLE) && negb (prev_pa =? NO_ADDR) && negb (pa =? add64 prev_pa map_size)
          then ret (inr (None, prev_pa, Sweep (ctx1 b) (sw_list s) (CoarseLock c None) (sw_res s)))
          else a <-! lift (addr_list_add_block (sw_list s) pa level (blk_status flavor)) ;;
               (let s := Sweep (ctx1 b) (snd a) (CoarseLock c None) (sw_res s) in
                if negb (fst a) then ret (inr (None, prev_pa, s))
                else e0 <-! unmap_entry s2 g level flavor idx e s ;; ret (inr (Some (fst e0), pa, snd e0)))) (while_coarse u c) Q).
  { intros b c Hc.
    assert (Hcn : taken <> [] -> c = None) by (intros Htn; destruct Hc as [(? & _)|(gc & _ & _ & _ & ? & _)]; done).
    destruct ((oaddr_type (ctx1 b) =? RMI_ADDR_TYPE_SINGLE) && negb (prev_pa =? NO_ADDR) && negb (pa =? add64 prev_pa map_size)) eqn:Es.
    { apply andb_prop in Es as [[_ Ep%negb_true_iff%Z.eqb_neq]%andb_prop _].
      assert (Htn : taken <> []) by (intros Htn; by apply Ep, Hprev). rewrite (Hcn Htn). apply runs_ret. by apply Hstop; [apply Hidx| |]. }
    destruct Hlist as (L1 & L2 & L3 & L4).
    destruct (addr_list_add_block_correct (sw_list s) pa level (blk_status flavor)) as (r & al' & Hadd & W1 & W3 & [W2 W4] & Hr);
      [done|done|done|done|lia|apply blk_status_ok|done|lia|].
    assert (Huse : list_use al') by (split_and!; [done|congruence|done|congruence]).
    apply runs_bind. eapply runs_lift; [exact Hadd|]. cbn [fst snd]. destruct r; cbn [negb].
    - apply runs_bind. apply (unmap_entry_ok u c g t idx e k pa (Sweep (ctx1 b) al' (CoarseLock c None) (sw_res s))); try done.
      + rewrite (sw_len _ _ _ _ _ A4). apply Hok.
      + by rewrite (swept_ahead _ _ _ _ _ A4).
      + intros gc ->. destruct Hc as [(? & _)|(gc' & [= <-] & _ & _ & _ & _ & [_ Hg])]; done.
      + intros e' t1 Hst Hset. destruct Hc as [(-> & Hga)|(gc & -> & -> & Hdat & Htn & Hms & Hdg)].
        * destruct (Hga al' Huse Hr) as [Hga' Hbk]. apply runs_ret. apply (Htake al' b e' t1); try done.
          eapply (sweeping_take u g start idx prev_pa t0 t taken s); try done. apply Hok.
        * apply runs_ret. apply Hunit; try done. rewrite Htn in Hblk. cbn in Hblk. rewrite Hblk in Hr. by apply Permutation_singleton_r in Hr.
    - destruct Hr as [Hds Hwhy]. assert (Htn : taken <> []).
      { intros Htn. rewrite Htn in A5. pose proof (gathered_empty _ _ _ _ A5) as Hz. destruct Hwhy as [Hna|Hfull]; [|lia].
        apply Hna. rewrite Hxl, <- Heq. exact Hdv. }
      rewrite (Hcn Htn). apply runs_ret. apply Hstop; [by apply Hidx|done|done]. }
  apply (sweep_backing_ok u pa (sw_ctx s) t0 idx k); try done.
  - intros c b Hcn Hdat. destruct (Z.eqb_spec idx start); apply runs_ret; [by apply Herr|]. by apply Hstop.
  - intros Hdat Hbn. apply runs_ret. replace (sw_ctx s) with (set_backing (backing_addr (sw_ctx s)) (sw_ctx s)) at 1 by (by destruct (sw_ctx s)).
    apply Hstop; [|done|done]. apply Hidx. intros Htn. apply Hbn. by apply (ga_first _ _ _ _ _ A5).
  - intros Hnd. assert (Hc1 : ctx1 (backing_addr (sw_ctx s)) = sw_ctx s) by (unfold ctx1; by destruct (sw_ctx s)).
    specialize (Htail (backing_addr (sw_ctx s)) None). rewrite Hc1 in Htail. apply Htail. left. split; [done|].
    intros al' Huse Hbl. split; [|done]. eapply gathered_take; [exact A5|exact A4|exact Hm|done|done|done|done].
  - intros c Hdat Hreg Hcase. apply (Htail pa c). destruct Hcase as [(-> & Hpg)|(gc & -> & Hms & Hdg)]; [left|right].
    + split; [done|]. intros al' Huse Hbl. split; [|intros _ _; unfold in_u64; lia].
      eapply gathered_take; [exact A5|exact A4|exact Hm|done|done|done|done].
    + exists gc. split_and!; try done. by eapply unit_alone.
Qed.

(** ** The loop *)

(** Where the sweep stopped: at entry [idx] of [S2TTES_PER_S2TT], below [top]. *)
Definition stopped (start base top idx addr : Z) : Prop :=
  start < idx <= S2TTES_PER_S2TT /\ addr = base + (idx - start) * map_size /\ addr <= top.

(** What a sweep that takes single granules or nothing leaves behind. *)
Record swept_fine (u' : urmm) start idx t0 t' taken al : Prop := {
  sf_swept : swept start idx t0 t' taken;
  sf_list : list_use al;
  sf_blocks : blocks al ≡ₚ (block_of <$> taken);
  sf_pages : flavor = RTT_UNMAP_FLAVOR_DATA -> forall j pa, (j, pa) ∈ taken ->
    forall p, p ∈ entry_pages pa -> exists x, data_granule (r_mem (u_rmm u')) p x GRANULE_SIZE
}.

(** A sweep that takes one coarse unit. *)
Record swept_unit (u : urmm) start idx t0 t' al (gc pa : Z) : Prop := {
  su_data : flavor = RTT_UNMAP_FLAVOR_DATA;
  su_swept : swept start idx t0 t' [(idx - 1, pa)];
  su_list : list_use al;
  su_blocks : blocks al = [(pa, level, blk_status flavor)];
  su_unit : data_granule (r_mem (u_rmm u)) pa gc tracking_region_get_size;
  su_size : map_size = tracking_region_get_size
}.

Lemma sweeping_fine u g start idx prev_pa t0 t taken s al' :
  sweeping u g start idx prev_pa t0 t taken s -> list_use al' -> descs_of al' = descs_of (sw_list s) ->
  swept_fine u start idx t0 t taken al'.
Proof.
  intros [_ _ _ A4 [_ B _ _ _ G] _ _] Hl' Hd. split; try done.
  - unfold blocks. by rewrite Hd.
  - intros Hdat j pa Hin. by apply (G Hdat j pa Hin).
Qed.

Lemma swept_nil start idx t0 t : swept start idx t0 t [] -> t = t0.
Proof.
  intros [H1 H2 _ _]. apply list_eq_same_length with (length t0); [done|done|]. intros i x y Hi Hx Hy.
  assert (Hg : forall l (z : Z), l !! i = Some z -> arr_get l (Z.of_nat i) = Some z)
    by (intros l z Hz; unfold arr_get; rewrite (proj2 (Z.leb_le _ _)) by lia; by rewrite Nat2Z.id).
  destruct (H2 _ _ (Hg _ _ Hy)) as [(Ha & _)|(k & pa & e' & _ & _ & _ & _ & Hin)]; [|by apply elem_of_nil in Hin].
  rewrite (Hg _ _ Hx) in Ha. congruence.
Qed.

Section Loop.
Context (g start base top : Z) (t0 : list Z).
Hypothesis Hok : leaf_ok t0.
Hypothesis Hdis : forall hi, hi <= S2TTES_PER_S2TT -> base + (hi - start) * map_size <= top -> distinct start hi t0.
Hypothesis Hbase : 0 <= base < 2 ^ 52.
Hypothesis Hstart : 0 <= start.
(** Below [top] there are only entries of the half of the address space that the
    command is for. *)
Hypothesis Hhalves : forall j e k pa, arr_get t0 j = Some e -> start <= j -> base + (j + 1 - start) * map_size <= top ->
  built s2 level k pa e -> half flavor k = true.

(** What follows a sweep that is at entry [idx]. *)
Definition sweep_stop (u : urmm) (idx : Z) taken (s : sweep) (Q : data_unmap_step * sweep -> urmm -> Prop) : Prop :=
  (idx = start -> forall code b, code <> RMI_SUCCESS ->
     Q (DATA_UNMAP_STEP_ERROR, Sweep (set_backing b (sw_ctx s)) (sw_list s) no_coarse (set_x1 0 (set_x0 code (sw_res s)))) u) /\
  (forall al' b res' idx' addr' t' taken' evs, let u' := leaf_set u g (table_refs s2 level t') t' evs in
     stopped start base top idx' addr' -> keeps_memory evs -> swept_fine u' start idx' t0 t' taken' al' ->
     Q (DATA_UNMAP_STEP_DONE, Sweep (set_cur_base addr' (set_backing b (sw_ctx s))) al' no_coarse res') u') /\
  (forall al' res' idx' addr' t' pa gc evs, taken = [] -> stopped start base top idx' addr' -> keeps_memory evs ->
     swept_unit u start idx' t0 t' al' gc pa ->
     Q (DATA_UNMAP_STEP_DONE, Sweep (set_cur_base addr' (set_coarse (Some gc) None (set_backing pa (sw_ctx s)))) al' no_coarse res')
       (leaf_set (after_coarse u (Some gc)) g (table_refs s2 level t') t' evs)).

(** The sweep stops before entry [idx], which is not the first. *)
Lemma stop_here u idx addr prev_pa t taken s al' b res' (Q : data_unmap_step * sweep -> urmm -> Prop) :
  start < idx <= S2TTES_PER_S2TT -> addr = base + (idx - start) * map_size -> addr <= top ->
  sweeping u g start idx prev_pa t0 t taken s -> list_use al' -> descs_of al' = descs_of (sw_list s) ->
  sweep_stop u idx taken s Q -> Q (DATA_UNMAP_STEP_DONE, Sweep (set_cur_base addr (set_backing b (sw_ctx s))) al' no_coarse res') u.
Proof.
  intros Hi Ha Ht Hsg Hl' Hd (_ & HQ & _). pose proof (leaf_set_id u g (table_refs s2 level t) t (sg_at _ _ _ _ _ _ _ _ _ Hsg) (sg_locked _ _ _ _ _ _ _ _ _ Hsg)) as Hid.
  rewrite <- Hid. apply (HQ al' b res' idx addr t taken []); [done|apply keeps_nil|]. rewrite Hid. by eapply sweeping_fine.
Qed.

Lemma map_size_bounds : 0 < map_size <= 2 ^ 48.
Proof.
  unfold map_size. rewrite s2tte_map_size_eq by done. split; [apply Z.pow_pos_nonneg; lia|apply Z.pow_le_mono_r; lia].
Qed.

Lemma first_or_stop u idx addr prev_pa t taken s (Q : data_unmap_step * sweep -> urmm -> Prop) :
  start <= idx <= S2TTES_PER_S2TT -> addr = base + (idx - start) * map_size -> (start < idx -> addr <= top) ->
  sweeping u g start idx prev_pa t0 t taken s -> sweep_stop u idx taken s Q ->
  runs (first_or_done start idx addr (rtt_error_here level) s) u Q.
Proof.
  intros Hi Ha Ht Hsg HQ. unfold first_or_done. pose proof (sg_coarse _ _ _ _ _ _ _ _ _ Hsg) as Hc.
  assert (Hcx : set_backing (backing_addr (sw_ctx s)) (sw_ctx s) = sw_ctx s) by (by destruct (sw_ctx s)).
  destruct (Z.eqb_spec idx start) as [E|E].
  - destruct (pack_level_some RMI_ERROR_RTT (u8 level)) as (code & Hcode & Hcne); [done|unfold u8; apply Z.mod_pos_bound; lia|].
    apply runs_bind. eapply runs_lift; [exact Hcode|]. apply runs_ret. unfold sweep_error. rewrite Hc. destruct HQ as (HQ & _). specialize (HQ E code (backing_addr (sw_ctx s)) Hcne). by rewrite Hcx in HQ.
  - apply runs_ret. unfold sweep_done. rewrite Hc.
    pose proof (stop_here u idx addr prev_pa t taken s (sw_list s) (backing_addr (sw_ctx s)) (sw_res s) Q) as Hs. rewrite Hcx in Hs.
    apply Hs; try done; [lia|apply Ht; lia|apply Hsg].
Qed.

Lemma one_table_loop_ok n : forall idx addr prev_pa u t taken s (Q : data_unmap_step * sweep -> urmm -> Prop),
  Z.of_nat n = S2TTES_PER_S2TT - idx -> start <= idx -> addr = base + (idx - start) * map_size -> (start < idx -> addr <= top) ->
  start < S2TTES_PER_S2TT -> sweeping u g start idx prev_pa t0 t taken s -> sweep_stop u idx taken s Q ->
  runs (one_table_loop s2 g start top level map_size flavor n idx addr prev_pa s) u Q.
Proof.
  induction n as [|n IH]; intros idx addr prev_pa u t taken s Q Hn Hsi Ha Htop Hst Hsg HQ; cbn [one_table_loop].
  { apply runs_ret. unfold sweep_done. rewrite (sg_coarse _ _ _ _ _ _ _ _ _ Hsg).
    assert (Hcx : set_backing (backing_addr (sw_ctx s)) (sw_ctx s) = sw_ctx s) by (by destruct (sw_ctx s)).
    pose proof (stop_here u idx addr prev_pa t taken s (sw_list s) (backing_addr (sw_ctx s)) (sw_res s) Q) as Hs. rewrite Hcx in Hs.
    apply Hs; try done; [lia|apply Htop; lia|apply Hsg]. }
  pose proof map_size_bounds as Hms. pose proof Hok as [Hlen Hent].
  destruct (arr_get_some t0 idx) as [e He]; [rewrite Hlen; unfold S2TTES_PER_S2TT, N_S2TTES in *; lia|].
  apply (runs_read_entry u g t idx e); [apply Hsg|by rewrite (swept_ahead _ _ _ _ _ (sg_swept _ _ _ _ _ _ _ _ _ Hsg))|].
  assert (Hadd : add64 addr map_size = base + (idx + 1 - start) * map_size).
  { assert (0 <= (idx - start) * map_size <= 512 * 2 ^ 48).
    { split; [apply Z.mul_nonneg_nonneg; lia|]. apply Z.mul_le_mono_nonneg; unfold S2TTES_PER_S2TT in *; lia. }
    unfold add64. rewrite u64_small by (unfold in_u64; lia). lia. }
  rewrite Hadd. assert (Hir : start <= idx <= S2TTES_PER_S2TT) by lia.
  destruct (s2tte_is_live s2 e level) eqn:Elive; cbn [negb].
  2: { destruct (Z.ltb_spec top (base + (idx + 1 - start) * map_size)); [by eapply first_or_stop|].
       apply (IH (idx + 1) _ prev_pa u t taken s); try done; try lia.
       - destruct Hsg. split; try done. by eapply swept_skip.
       - destruct HQ as (_ & H2 & H3). split; [lia|done]. }
  destruct ((level <? S2TT_PAGE_LEVEL) && s2tte_is_table s2 e level) eqn:Etab; [by eapply first_or_stop|].
  destruct (Z.ltb_spec top (base + (idx + 1 - start) * map_size)); [by eapply first_or_stop|].
  destruct (Hent idx e He) as [Hmk|(k & pa & Hb)]; [by rewrite (marked_not_live s2 lpa2) in Elive|].
  assert (Hhalf : half flavor k = true) by (by eapply Hhalves).
  rewrite (built_live s2 lpa2 level k pa e) in Elive by done.
  assert (Hnt : k <> K_table).
  { intros ->. rewrite (built_is_table s2 lpa2 level K_table pa e) in Etab by done. rewrite bool_decide_true, andb_true_r in Etab by done.
    pose proof (built_level _ _ _ _ _ _ Hl Hb eq_refl) as Hlvk. cbn in Hlvk. unfold S2TT_PAGE_LEVEL in Etab. lia. }
  apply runs_bind. apply (live_entry_ok u g start idx addr prev_pa t0 t taken s e k pa); try done; [apply Hdis; lia|..].
  - intros code b Hcne Hi. apply runs_ret. unfold sweep_error. by apply HQ.
  - intros al' b res' Hi Hl' Hd. apply runs_ret. apply (stop_here u idx addr prev_pa t taken s al' b res' Q); try done; [lia|apply Htop; lia].
  - intros al' b e' t1 Htk Hstd Hset s' u' Hsg'. apply (IH (idx + 1) _ pa u' t1 ((idx, pa) :: taken) s'); try done; try lia.
    destruct HQ as (_ & H2 & _). split; [lia|]. split; [|done].
    intros al2 b2 res2 idx2 addr2 t2 taken2 evs2 u2 Hstop Hk2 Hf2.
    assert (Hu2 : u2 = leaf_set u g (table_refs s2 level t2) t2 ([E_write g idx e'] ++ evs2)) by (unfold u2, u'; apply leaf_set_set).
    rewrite Hu2 in *. apply (H2 al2 b2 res2 idx2 addr2 t2 taken2); [done|apply keeps_app; [by apply keeps_one|done]|done].
  - intros al' e' t1 gc Hdat Htk Htn Hstd Hset Hdg Hsz Hl' Hbl. apply runs_ret. unfold sweep_done. destruct HQ as (_ & _ & H3).
    apply (H3 al' _ (idx + 1) _ t1 pa gc); [done|split_and!; lia|by apply keeps_one|]. split; try done.
    replace (idx + 1 - 1) with idx by lia. rewrite <- Htn. eapply swept_take; try done. apply Hsg.
Qed.

End Loop.

End Sweep.
