(* ===== verification/UnmapLeaf.v ===== *)
(** * One call on one table

    [rtt_unmap_leaf]: the sweep, the sort of the address list and the deferred work
    that follows, up to completion or to the first interrupt. *)

From Stdlib Require Import ZArith Lia Bool ZifyBool.
From stdpp Require Import base tactics option list numbers gmap.
From S2P Require Import Prelude.
From S2P Require Import Utils.
From S2P Require Import Status.
From S2P Require Import Smc.
From S2P Require Import Granule.
From S2P Require Import Mem.
From S2P Require Import Arch.
From S2P Require Import AddrList.
From S2P Require Import Sro.
From S2P Require Import S2tte.
From S2P Require Import S2tteFacts.
From S2P Require Import S2tteProps.
From S2P Require Import S2ttTable.
From S2P Require Import S2ttWalk.
From S2P Require Import RttFold.
From S2P Require Import RttFoldProps.
From S2P Require Import RttTree.
From S2P Require Import Rmm.
From S2P Require Import RttUnmap.
From S2P Require Import RttInv.
From S2P Require Import UnmapPass.
From S2P Require Import UnmapDrain.
From S2P Require Import UnmapStep.
From S2P Require Import UnmapStamp.
From S2P Require Import UnmapValid.
From S2P Require Import UnmapSweep.

Section Leaf.
Context `{feat : ArchFeatures} `{laws : ActiveLaws} `{env : UnmapEnv} `{host : UnmapHost}.
Context (submit_ok : forall vs addr level num leaf, smmuv3_inv_at_level_per_vmids_submit vs addr level num leaf = 0).
Context (s2 : s2tt_context) (lpa2 : bool) (level : Z) (flavor : rtt_unmap_flavor) (h : Z).
Hypothesis Hl : s2tt_lpa2_enabled s2 = Some lpa2.
Hypothesis Hlv : (if lpa2 then -1 else 0) <= level <= 3.
Hypothesis Hfl : flavor <> RTT_UNMAP_FLAVOR_DEV.
Hypothesis Hh : 0 <= h < 2 ^ 16.
Implicit Types (ctx : sro_unmap_ctx) (al : addr_list) (t : list Z) (evs : list event) (k : s2tte_kind) (taken : list (Z * Z)).

Abbreviation swept := (swept s2 level flavor h).
Abbreviation maps_at := (maps_at s2 level flavor).
Abbreviation map_size := (map_size level).
Abbreviation stamped := (stamped s2 level h).

Lemma level_range : -1 <= level <= 3.
Proof. destruct lpa2; lia. Qed.

Lemma kind_unique k k' pa pa' e : built s2 level k pa e -> built s2 level k' pa' e -> k = k'.
Proof.
  intros Hb Hb'. apply (built_kind_eq s2 lpa2 level k k' pa e Hl level_range Hb).
  rewrite (built_is_kind s2 lpa2 level k' pa' e k' Hl level_range Hb'). by rewrite bool_decide_true.
Qed.

(** ** The table between the sweep and the deferred work *)

(** Entries the sweep took that the hardware could see. *)
Definition visible (start idx : Z) t0 (j : Z) : Prop :=
  start <= j < idx /\ exists pa k, maps_at t0 j pa k /\ hw_valid k = true.

(** What the operation knows when the sweep has ended. *)
Record fresh_op ctx (base start idx top addr : Z) : Prop := {
  fr_ids : sro_handle ctx = h /\ enable_lpa2 ctx = lpa2 /\ vmid_list ctx <> [];
  fr_leaf : leaf_base_ipa ctx = base - start * map_size /\ leaf_level ctx = level;
  fr_clean : tlbi_done ctx = false /\ smmu_tlbi_pending ctx = false;
  fr_base : 0 <= leaf_base_ipa ctx /\ (map_size | base);
  fr_stop : stopped level start base top idx addr;
  fr_top : top <= 2 ^ oa_bits lpa2
}.

(** No entry carries the handle yet. *)
Definition unmarked t : Prop := forall j e, arr_get t j = Some e -> mineb e h = false.

Lemma swept_entry_inv start idx t0 t taken j e' :
  swept start idx t0 t taken -> arr_get t j = Some e' -> exists e, arr_get t0 j = Some e /\
    ((e' = e /\ (start <= j < idx -> s2tte_is_live s2 e level = false)) \/
     exists k pa, built s2 level k pa e /\ takes flavor k = true /\ stamped k e' /\ (j, pa) ∈ taken).
Proof.
  intros [H1 H2 _ _] He'. pose proof (arr_get_lt _ _ _ He') as Hj. rewrite H1 in Hj. destruct (arr_get_some t0 j Hj) as [e He].
  exists e. split; [done|]. destruct (H2 j e He) as [(Ha & _ & Hd)|(k & pa & e1 & Hb & Ht & Ha & Hs & Hin)]; [left|right].
  - split; [congruence|done].
  - assert (e1 = e') as -> by congruence. by exists k, pa.
Qed.

Lemma swept_op_table ctx base start idx top addr t0 t taken vttbr :
  fresh_op ctx base start idx top addr -> leaf_ok s2 level t0 -> unmarked t0 -> swept start idx t0 t taken ->
  op_table s2 ctx t vttbr (visible start idx t0) [].
Proof.
  intros [(I1 & I2 & I3) [L1 L2] [C1 C2] [B1 B2] [Hs1 [Hs2 Hs3]] Htp] [Hlen Hok] Hun Hsw. pose proof level_range as Hlr. split.
  - by rewrite (sw_len _ _ _ _ _ _ _ _ _ Hsw).
  - intros j e' He'. rewrite L2. destruct (swept_entry_inv _ _ _ _ _ _ _ Hsw He') as (e & He & [[-> _]|(k & pa & _ & _ & [Hm _ _ _] & _)]);
      [by eapply Hok|by left].
  - split; cbn; rewrite ?L1, ?L2, ?I2; try done; [by rewrite <- L1|]. apply Z.divide_sub_r; [done|apply Z.divide_factor_r].
  - intros j e' He' Ho. cbn in Ho |- *. rewrite I1 in Ho. unfold entry_ipa. cbn. rewrite L1, L2, I2.
    destruct (swept_entry_inv _ _ _ _ _ _ _ Hsw He') as (e & He & [[-> _]|(k & pa & _ & _ & _ & Hin)]).
    + unfold owes in Ho. by rewrite (Hun j e He) in Ho.
    + apply (sw_taken _ _ _ _ _ _ _ _ _ Hsw) in Hin as [Hj _]. pose proof (map_size_bounds level ltac:(lia)) as Hm. unfold UnmapSweep.map_size in *. nia.
  - rewrite C1. done.
  - rewrite C2. done.
  - intros j (Hj & pa & k & (e & He & Hb & Ht) & Hw). right.
    destruct (sw_entry _ _ _ _ _ _ _ _ _ Hsw j e He) as [(_ & _ & Hd)|(k' & pa' & e' & Hb' & _ & He' & Hst & _)].
    + specialize (Hd Hj). rewrite (built_live s2 lpa2 level k pa e Hl Hlr Hb) in Hd. destruct (taken_live flavor Hfl k Ht). congruence.
    + exists e'. split; [done|]. rewrite I1, (st_owes _ _ _ _ _ Hst). by rewrite <- (kind_unique _ _ _ _ _ Hb Hb').
Qed.

(** ** The memory between the sweep and the deferred work *)

(** Granule [x] is behind the block at [pa]. *)
Definition backs (pa x : Z) : Prop :=
  (exists p, p ∈ entry_pages level pa /\ active_of p = Some (x, GRANULE_SIZE)) \/
  (map_size = tracking_region_get_size /\ active_of pa = Some (x, tracking_region_get_size)).
(** It is behind an entry the sweep took. *)
Definition given (start idx : Z) t0 (x : Z) : Prop :=
  flavor = RTT_UNMAP_FLAVOR_DATA /\ exists j pa k, start <= j < idx /\ maps_at t0 j pa k /\ backs pa x.

Lemma maps_at_pa t j pa pa' k k' : maps_at t j pa k -> maps_at t j pa' k' -> pa = pa'.
Proof.
  intros (e & He & Hb & Ht) (e' & He' & Hb' & Ht'). assert (e' = e) as -> by congruence.
  destruct (taken_live flavor Hfl k Ht) as [Hk _], (taken_live flavor Hfl k' Ht') as [Hk' _].
  pose proof (built_pa s2 lpa2 level k pa e Hl Hb Hk). pose proof (built_pa s2 lpa2 level k' pa' e Hl Hb' Hk'). congruence.
Qed.

Lemma taken_exact start idx t0 t taken j pa k :
  swept start idx t0 t taken -> start <= j < idx -> maps_at t0 j pa k -> (j, pa) ∈ taken.
Proof.
  intros Hsw Hj Hm. pose proof Hm as (e & He & Hb & Ht). destruct (taken_live flavor Hfl k Ht) as [Hk _].
  destruct (sw_entry _ _ _ _ _ _ _ _ _ Hsw j e He) as [(_ & _ & Hd)|(k' & pa' & e' & Hb' & Ht' & _ & _ & Hin)].
  - specialize (Hd Hj). rewrite (built_live s2 lpa2 level k pa e Hl level_range Hb) in Hd. congruence.
  - assert (pa' = pa) as -> by (eapply (maps_at_pa t0 j); [by exists e|exact Hm]). done.
Qed.

Lemma taken_length start idx t0 t taken :
  swept start idx t0 t taken -> 0 <= start -> idx <= 512 -> (length taken <= N_S2TTES)%nat.
Proof.
  intros Hsw Hs Hi. assert (Hnd : NoDup (fst <$> taken)).
  { apply NoDup_fmap_2_strong; [|apply Hsw]. intros [j1 pa1] [j2 pa2] Hx Hy Heq. cbn in Heq. subst j2. f_equal.
    apply (sw_taken _ _ _ _ _ _ _ _ _ Hsw) in Hx as (_ & k1 & H1). apply (sw_taken _ _ _ _ _ _ _ _ _ Hsw) in Hy as (_ & k2 & H2).
    by eapply maps_at_pa. }
  assert (Hsub : (fst <$> taken) ⊆+ seqZ 0 512).
  { apply NoDup_submseteq; [done|]. intros j ([j' pa] & -> & Hin)%list_elem_of_fmap. apply (sw_taken _ _ _ _ _ _ _ _ _ Hsw) in Hin as [Hj _].
    apply elem_of_seqZ. cbn. lia. }
  apply submseteq_length in Hsub. rewrite length_fmap, length_seqZ in Hsub. exact Hsub.
Qed.

Lemma cursor_start al ctx : al_wf al -> pending_desc_idx ctx = 0 -> pending_blk_idx ctx = 0 -> pending_pa ctx = NO_ADDR ->
  cursor_ok al ctx /\ pages_left al ctx = pages_of (blocks al).
Proof.
  intros Hwf H1 H2 H3. split.
  - split; rewrite ?H1, ?H2; [pose proof (al_bounds _ Hwf); lia|lia| |done]. intros d _. destruct (get_ranges d). lia.
  - unfold pages_left, blocks_left, blocks. rewrite H1, H2, H3, Z.eqb_refl. done.
Qed.

(** The list, in order of address, of a sweep that took single granules. *)
Lemma fine_op_start u start idx t0 t taken al al1 ctx :
  swept_fine s2 level flavor h u start idx t0 t taken al -> distinct s2 level flavor start idx t0 -> flavor = RTT_UNMAP_FLAVOR_DATA ->
  0 <= start -> idx <= 512 -> al_wf al1 -> blocks al1 ≡ₚ blocks al -> g_coarse ctx = None -> g_coarse_dev ctx = None ->
  pending_desc_idx ctx = 0 -> pending_blk_idx ctx = 0 -> pending_pa ctx = NO_ADDR ->
  fine_op al1 ctx (r_mem (u_rmm u)) /\
  (forall x, held flavor al1 ctx x <-> given start idx t0 x) /\
  (forall x, given start idx t0 x -> granule_at (r_mem (u_rmm u)) x (AGranule false GRANULE_STATE_DATA 0)).
Proof.
  intros [Hsw _ Hbl Hpg] Hdis Hdat Hs Hi Hwf Hp1 Hg1 Hg2 H1 H2 H3. destruct (cursor_start al1 ctx Hwf H1 H2 H3) as [Hco Hpl].
  assert (Hperm : pages_of (blocks al1) ≡ₚ pages_of (block_of level flavor <$> taken)).
  { unfold pages_of. apply bind_Permutation. by rewrite Hp1, Hbl. }
  assert (Hin : forall p, p ∈ pages_of (blocks al1) <-> exists j pa, (j, pa) ∈ taken /\ p ∈ entry_pages level pa).
  { intros p. rewrite Hperm. unfold pages_of. rewrite fmap_then_bind, list_elem_of_bind. split.
    - intros ([j pa] & Hp & Hin). exists j, pa. split; [done|]. pose proof (sw_taken _ _ _ _ _ _ _ _ _ Hsw j pa Hin) as (_ & k & Hm).
      apply maps_at_block with (lpa2 := lpa2) in Hm as (_ & _ & _ & _ & Heq); [|done..]. cbn in Hp. unfold entry_pages. by rewrite Heq.
    - intros (j & pa & Hin & Hp). exists (j, pa). split; [|done]. pose proof (sw_taken _ _ _ _ _ _ _ _ _ Hsw j pa Hin) as (_ & k & Hm).
      apply maps_at_block with (lpa2 := lpa2) in Hm as (_ & _ & _ & _ & Heq); [|done..]. cbn. unfold entry_pages in Hp. by rewrite <- Heq. }
  assert (Hfp : fine_pages (r_mem (u_rmm u)) (pages_of (blocks al1))).
  { intros p (j & pa & Hjn & Hp)%Hin. destruct (Hpg Hdat j pa Hjn p Hp) as (x & Ha & Hg). by exists x. }
  assert (Hheld : forall x, granules_of (pages_of (blocks al1)) x <-> given start idx t0 x).
  { intros x. split.
    - intros (p & Hp & Hx). pose proof Hp as (j & pa & Hjn & Hpp)%Hin. split; [done|].
      destruct (sw_taken _ _ _ _ _ _ _ _ _ Hsw j pa Hjn) as (Hj & k & Hm). exists j, pa, k. split_and!; [lia|lia|done|]. left. exists p. split; [done|].
      destruct (Hfp p Hp) as (y & Ha & _). pose proof (fine_size _ _ _ Ha eq_refl). congruence.
    - intros (_ & j & pa & k & Hj & Hm & Hb). pose proof (taken_exact _ _ _ _ _ _ _ _ Hsw Hj Hm) as Hjn.
      destruct Hb as [(p & Hp & Ha)|[Hms Ha]].
      + exists p. split; [apply Hin; by exists j, pa|by eapply fine_size].
      + exfalso. destruct (Hpg Hdat j pa Hjn pa) as (y & Ha' & _); [|pose proof sizes_ne; congruence].
        apply elem_of_pages_from. exists 0. destruct region_facts as (n & Hn & _ & Hq). rewrite Hms, Hq. lia. }
  split; [|split].
  - split; try done.
    + apply Permutation_length in Hbl. rewrite Hp1, Hbl, length_fmap. by eapply taken_length.
    + rewrite Hpl, Hperm. eapply (taken_pages s2 lpa2 level flavor h); try done. apply level_range.
    + by rewrite Hpl.
  - intros x. rewrite <- Hheld, <- Hpl. unfold held. rewrite Hg1, Hdat. done.
  - intros x Hx. apply Hheld in Hx as (p & Hp & Hx). destruct (Hfp p Hp) as (y & Ha & Hg).
    pose proof (fine_size _ _ _ Ha eq_refl). by assert (x = y) as -> by congruence.
Qed.

(** The list of a sweep that took one coarse unit. *)
Lemma one_desc al pa st lv : al_wf al -> all_used al -> 0 <= lv <= 3 -> blocks al = [(pa, lv, st)] ->
  exists d, descs_of al = [d] /\ get_cnt_from_desc d = 1 /\ get_addr_from_desc d = pa /\ desc_blk_size d = level_size lv.
Proof.
  intros Hwf Hu Hlv0 Hb. unfold blocks in Hb. unfold all_used in Hu. destruct (descs_of al) as [|d ds]; [done|].
  apply Forall_cons in Hu as [Hd Hds]. cbn in Hb. unfold desc_blocks at 1 in Hb. rewrite range_blocks_cons in Hb by done. cbn in Hb.
  injection Hb as Ha Hs Hst Hb. apply app_eq_nil in Hb as [Hb1 Hb2].
  assert (Hc : get_cnt_from_desc d = 1).
  { destruct (decide (get_cnt_from_desc d = 1)) as [|Hne]; [done|]. by rewrite range_blocks_cons in Hb1 by lia. }
  exists d. split_and!; [|done|done|].
  - destruct ds as [|d' ds]; [done|]. apply Forall_cons in Hds as [Hd' _]. cbn in Hb2. unfold desc_blocks at 1 in Hb2.
    by rewrite range_blocks_cons in Hb2 by done.
  - destruct (blk_size_eq d) as [-> _]. unfold level_size. f_equal. lia.
Qed.

Lemma unit_op_start u start idx t0 t al al1 ctx gc pa :
  swept_unit s2 level flavor h u start idx t0 t al gc pa ->
  al_wf al1 -> descs_of al1 ≡ₚ descs_of al -> g_coarse ctx = Some gc -> g_coarse_dev ctx = None -> backing_addr ctx = pa ->
  pending_desc_idx ctx = 0 -> pending_blk_idx ctx = 0 -> pending_pa ctx = NO_ADDR ->
  coarse_op al1 ctx gc /\ (forall x, given start idx t0 x <-> x = gc) /\ unit_pages ctx = coarse_left ctx.
Proof.
  intros [Hdat Hsw (W1 & _ & W3 & _) Hbl [Ha Hg] Hms] Hwf Hp Hg1 Hg2 Hbk H1 H2 H3.
  pose proof (sw_taken _ _ _ _ _ _ _ _ _ Hsw (idx - 1) pa ltac:(by left)) as (Hj & k & Hm).
  pose proof (maps_at_block s2 lpa2 level flavor Hl Hfl t0 _ _ _ Hm) as (Hl1 & _ & Hdv & _ & Heq).
  destruct (one_desc al pa (blk_status flavor) level W1 W3 ltac:(lia) Hbl) as (d & Hd & Hc & Had & Hsz).
  rewrite Hd in Hp. apply Permutation_singleton_r in Hp. split; [|split].
  - split; try done; [|rewrite Hbk, <- Hms; exact Hdv|by left]. exists d. split_and!; try done; [congruence|]. by rewrite Hsz, <- Heq.
  - intros x. split.
    + intros (_ & j & pa' & k' & Hj' & Hm' & Hb). pose proof (taken_exact _ _ _ _ _ _ _ _ Hsw Hj' Hm') as Hin.
      apply list_elem_of_singleton in Hin. injection Hin as -> ->. destruct Hb as [(p & Hp' & Ha')|[_ Ha']]; [|congruence].
      exfalso. apply elem_of_pages_from in Hp' as (i & Hi & ->). destruct region_facts as (n & Hn & Hr & Hq). rewrite Hms, Hq in Hi.
      rewrite (active_region pa _ gc Ha) in Ha'; [by injection Ha' as _ Hx; destruct sizes_ne| |].
      * destruct Hdv as [y ->]. rewrite Hms, Hr. exists (y * n + i). lia.
      * destruct Hdv as [y ->]. rewrite Hms. assert (Hpos : tracking_region_get_size <> 0) by (rewrite Hr; change GRANULE_SIZE with 4096; lia).
        rewrite Z.div_add_l, Z.div_mul, (Z.div_small (i * GRANULE_SIZE)); [lia| |done|done]. rewrite Hr. change GRANULE_SIZE with 4096. lia.
    + intros ->. split; [done|]. exists (idx - 1), pa, k. split_and!; [lia|lia|done|]. by right.
  - unfold unit_pages, coarse_left. rewrite Hg1, H3, Z.eqb_refl. f_equal. f_equal. lia.
Qed.

(** Each block the sweep takes is a set of granules of its own, or one coarse unit. *)
Definition backed (start idx : Z) t0 : Prop := flavor = RTT_UNMAP_FLAVOR_DATA -> forall j pa k, start <= j < idx -> maps_at t0 j pa k ->
  (forall p, p ∈ entry_pages level pa -> exists x, active_of p = Some (x, GRANULE_SIZE)) \/
  (map_size = tracking_region_get_size /\ exists x, active_of pa = Some (x, tracking_region_get_size)).

Lemma fine_backed u start idx t0 t taken al : swept_fine s2 level flavor h u start idx t0 t taken al -> backed start idx t0.
Proof.
  intros [Hsw _ _ Hpg] Hdat j pa k Hj Hm. left. intros p Hp. pose proof (taken_exact _ _ _ _ _ _ _ _ Hsw Hj Hm) as Hin.
  destruct (Hpg Hdat j pa Hin p Hp) as (x & Ha & _). by exists x.
Qed.

Lemma unit_backed u start idx t0 t al gc pa : swept_unit s2 level flavor h u start idx t0 t al gc pa -> backed start idx t0.
Proof.
  intros [_ Hsw _ _ [Ha _] Hms] Hdat j pa' k Hj Hm. right. pose proof (taken_exact _ _ _ _ _ _ _ _ Hsw Hj Hm) as Hin.
  apply list_elem_of_singleton in Hin. injection Hin as -> ->. split; [done|by exists gc].
Qed.

(** ** What a call leaves behind *)

(** What is in place of an entry of kind [k] that was taken: while the operation
    goes on, with its mark. *)
Definition left_behind (y : bool) k (e' : Z) : Prop :=
  if y then marked s2 level e' /\ (forall h', mineb e' h' = (h =? h')) /\ built s2 level (vacated k) 0 (s2tte_clear_drain_pending e')
  else built s2 level (vacated k) 0 e'.
(** Entries from [start] to [idx] no longer map anything. *)
Definition unmapped (y : bool) (start idx : Z) t0 t' : Prop :=
  length t' = length t0 /\ forall j e, arr_get t0 j = Some e -> exists e', arr_get t' j = Some e' /\
    if bool_decide (start <= j < idx) && s2tte_is_live s2 e level
    then exists k pa, built s2 level k pa e /\ takes flavor k = true /\ left_behind y k e'
    else e' = e.

(** The operation holds every page of a coarse unit the sweep took. *)
Definition covers (start idx : Z) t0 ctx : Prop := flavor = RTT_UNMAP_FLAVOR_DATA ->
  forall j pa k p x, start <= j < idx -> maps_at t0 j pa k -> active_of pa = Some (x, tracking_region_get_size) ->
    p ∈ entry_pages level pa -> p ∈ unit_pages ctx.

Record leaf_run (y : bool) (u : urmm) (m' : mem) evs (g start idx : Z) t0 t' al ctx' : Prop := {
  lr_tables : tables m' = <[g := t']> (tables (r_mem (u_rmm u)));
  lr_entries : unmapped y start idx t0 t';
  lr_leaf : descs m' !! g = Some (encode GRN (AGranule true GRANULE_STATE_RTT (table_refs s2 level t')));
  lr_data : forall x, given start idx t0 x -> granule_at (r_mem (u_rmm u)) x (AGranule false GRANULE_STATE_DATA 0);
  lr_backed : backed start idx t0;
  lr_back : forall x, given start idx t0 x -> held flavor al ctx' x \/ granule_at m' x (AGranule false GRANULE_STATE_DELEGATED 0);
  lr_sub : forall x, held flavor al ctx' x -> given start idx t0 x;
  lr_same : forall x, x <> g -> given start idx t0 x \/ descs m' !! x = descs (r_mem (u_rmm u)) !! x;
  lr_order : forall x e1 e2, evs = e1 ++ E_delegated x :: e2 ->
    (forall j, visible start idx t0 j -> flushed (op_of ctx') (r_vttbr (u_rmm u)) j e1) /\
    (flavor = RTT_UNMAP_FLAVOR_DATA -> forall j pa k p, start <= j < idx -> maps_at t0 j pa k -> active_of pa = Some (x, tracking_region_get_size) ->
       p ∈ entry_pages level pa -> E_clean p ∈ e1);
  lr_next : if y then exists e0 pre, evs = e0 ++ pre /\
      op_table s2 ctx' t' (r_vttbr (u_rmm u)) (visible start idx t0) pre /\ op_mem flavor al ctx' m' pre /\ covers start idx t0 ctx'
    else (forall x, ~ held flavor al ctx' x) /\ forall j, visible start idx t0 j -> flushed (op_of ctx') (r_vttbr (u_rmm u)) j evs
}.

Lemma held_dec al ctx x : held flavor al ctx x \/ ~ held flavor al ctx x.
Proof.
  unfold held. assert (Hg : granules_of (pages_left al ctx) x \/ ~ granules_of (pages_left al ctx) x).
  { destruct (decide (Exists (fun p => tr_addr_to_granule p = Some x) (pages_left al ctx))) as [H|H].
    - left. by apply Exists_exists in H.
    - right. intros Hx. by apply H, Exists_exists. }
  destruct flavor; [|right; intros []|]; (destruct (g_coarse ctx) as [g|]; [destruct (decide (x = g)); auto|done]).
Qed.

Lemma step_unmapped y start idx t0 t1 t' taken :
  swept start idx t0 t1 taken -> unmarked t0 -> leaf_step h y t1 t' -> unmapped y start idx t0 t'.
Proof.
  intros Hsw Hun [Hlen Hst]. split; [by rewrite Hlen, (sw_len _ _ _ _ _ _ _ _ _ Hsw)|]. intros j e He.
  destruct (sw_entry _ _ _ _ _ _ _ _ _ Hsw j e He) as [(He1 & _ & Hd)|(k & pa & e1 & Hb & Ht & He1 & [Hmk Hm _ Hc] & Hin)];
    destruct (Hst j _ He1) as (e' & He' & Hx); exists e'; (split; [done|]).
  - assert (e' = e) as ->.
    { pose proof (Hun j e He) as Hu. destruct y; [|by rewrite Hu in Hx]. destruct Hx as [|[Ho _]]; [done|]. unfold owes in Ho. by rewrite Hu in Ho. }
    destruct (bool_decide (start <= j < idx)) eqn:Ed; [|done]. apply bool_decide_eq_true in Ed. by rewrite (Hd Ed).
  - destruct (sw_taken _ _ _ _ _ _ _ _ _ Hsw j pa Hin) as (Hj & _). rewrite bool_decide_true by done.
    rewrite (built_live s2 lpa2 level k pa e Hl level_range Hb). destruct (taken_live flavor Hfl k Ht) as [-> _]. cbn [andb].
    exists k, pa. split_and!; try done. destruct y; cbn.
    + destruct Hx as [->|[_ ->]]; [done|]. split; [by apply marked_clear_tlbi|]. split; [|by rewrite (proj2 (proj2 (proj2 (clear_tlbi_facts e1 h))))].
      intros h'. by rewrite (proj1 (proj2 (clear_tlbi_facts e1 h'))).
    + rewrite Hm, Z.eqb_refl in Hx. by subst e'.
Qed.

(** The deferred work after a sweep that ended in state [u1], with [al] the list in
    order of address. *)
Lemma after_sweep u u1 g start idx t0 t1 taken evs1 ctx1 al ctx' y t' m2 evs2 :
  swept start idx t0 t1 taken -> unmarked t0 -> leaf_locked u g (table_refs s2 level t0) -> 0 <= table_refs s2 level t0 <= 512 ->
  tables (r_mem (u_rmm u1)) = <[g := t1]> (tables (r_mem (u_rmm u))) ->
  (forall x, x <> g -> ~ given start idx t0 x -> descs (r_mem (u_rmm u1)) !! x = descs (r_mem (u_rmm u)) !! x) ->
  r_vttbr (u_rmm u1) = r_vttbr (u_rmm u) -> sro_handle ctx1 = h -> leaf_level ctx1 = level ->
  (forall x, given start idx t0 x -> granule_at (r_mem (u_rmm u)) x (AGranule false GRANULE_STATE_DATA 0)) ->
  (forall x, held flavor al ctx1 x <-> given start idx t0 x) ->
  covers start idx t0 ctx1 -> backed start idx t0 ->
  keeps_memory evs1 -> static ctx' = static ctx1 -> leaf_step (sro_handle ctx1) y t1 t' ->
  step_mem (r_mem (u_rmm u1)) m2 g t' (table_refs s2 (leaf_level ctx1) t') (held flavor al ctx1) (held flavor al ctx') ->
  (forall x e1 e2, evs2 = e1 ++ E_delegated x :: e2 -> may_return ctx1 (r_vttbr (u_rmm u1)) (visible start idx t0) e1) ->
  (if y then op_table s2 ctx' t' (r_vttbr (u_rmm u1)) (visible start idx t0) evs2 /\ op_mem flavor al ctx' m2 evs2 /\ unit_pages ctx' = unit_pages ctx1
   else (forall x, ~ held flavor al ctx' x) /\ forall j, visible start idx t0 j -> flushed (op_of ctx1) (r_vttbr (u_rmm u1)) j evs2) ->
  leaf_run y u m2 (evs1 ++ evs2) g start idx t0 t' al ctx'.
Proof.
  intros Hsw Hun Hlk Hr Htb Hds Hvt Hsh Hlev Hdat Hheld Hunit Hbacked Hk1 Hstat Hls Hsm Hord Hnext.
  assert (Hop : op_of ctx' = op_of ctx1) by (exact (f_equal (fun s => fst (fst (fst s))) Hstat)). rewrite Hvt in Hord, Hnext. rewrite Hlev in Hsm.
  split.
  - rewrite (sm_tables _ _ _ _ _ _ _ Hsm), Htb. by rewrite insert_insert_eq.
  - rewrite Hsh in Hls. by eapply step_unmapped.
  - exact (sm_leaf _ _ _ _ _ _ _ Hsm).
  - done.
  - done.
  - intros x Hx. by apply (sm_back _ _ _ _ _ _ _ Hsm), Hheld.
  - intros x Hx. by apply Hheld, (sm_sub _ _ _ _ _ _ _ Hsm).
  - intros x Hx. destruct (held_dec al ctx1 x) as [Hin|Hn]; [by left; apply Hheld|right].
    rewrite (sm_same _ _ _ _ _ _ _ Hsm x Hx); [|by right]. apply Hds; [done|]. by rewrite <- Hheld.
  - intros x e1 e2 Hev. destruct (split_after _ _ _ _ _ Hev) as (c & -> & Hev2); [apply Hk1|].
    destruct (Hord x c e2 Hev2) as [Hf Hc]. rewrite Hop. split.
    + intros j Hj. by apply flushed_l, Hf.
    + intros Hd j pa k p Hj Hm Ha Hp. apply elem_of_app. right. by eapply Hc, Hunit.
  - destruct y; [|rewrite Hop; split; [apply Hnext|]; intros j Hj; by apply flushed_l, Hnext]. destruct Hnext as (Hn1 & Hn2 & Hn3). exists evs1, evs2. split_and!; try done. intros Hd j pa k p x. rewrite Hn3. by apply Hunit.
Qed.

Lemma format_ok oaddr_type oaddr al top res :
  al_wf al -> al_type al = LIST_TYPE_OUTPUT -> (oaddr_type = RMI_ADDR_TYPE_LIST -> ALIGNED oaddr 8 = true) ->
  exists res' al', rtt_unmap_format_result oaddr_type oaddr al top res = Some (res', al') /\
    res_x0 res' = RMI_SUCCESS /\ res_x1 res' = top.
Proof.
  intros Hwf Ht Hal. unfold rtt_unmap_format_result. destruct (addr_list_is_empty al) eqn:Ee; [by eexists _, _|].
  unfold addr_list_is_empty in Ee. apply Z.eqb_neq in Ee. pose proof (al_bounds _ Hwf) as Hb.
  destruct (Z.eqb_spec oaddr_type RMI_ADDR_TYPE_SINGLE) as [E|E].
  - destruct (peek_desc_eq al 0 Hwf ltac:(lia)) as (d & _ & ->). cbn [mbind option_bind].
    destruct (blk_size_eq d) as [_ Hs]. assert (Hx : exists sz, xlat_blk_sz_to_addr_list_sz (XLAT_BLOCK_SIZE (3 - get_sz_from_desc d)) = Some sz).
    { generalize dependent (get_sz_from_desc d). intros z Hz. assert (z = 0 \/ z = 1 \/ z = 2 \/ z = 3) as [-> | [-> | [-> | ->]]] by lia; by eexists. }
    destruct Hx as [sz ->]. by eexists _, _.
  - destruct (Z.eqb_spec oaddr_type RMI_ADDR_TYPE_LIST) as [El|El]; [|by eexists _, _].
    unfold addr_list_partial_copy_to_host, is_type. rewrite bool_decide_true, (Hal El) by done.
    destruct (list_writable oaddr); cbn [negb mbind option_bind]; by eexists _, _.
Qed.

(** ** The call *)

(** The operation as the commands set it up. *)
Record new_op ctx al : Prop := {
  no_ids : sro_handle ctx = h /\ enable_lpa2 ctx = lpa2 /\ vmid_list ctx <> [];
  no_unit : g_coarse ctx = None /\ g_coarse_dev ctx = None;
  no_clean : tlbi_done ctx = false /\ smmu_tlbi_pending ctx = false;
  no_cursor : flavor = RTT_UNMAP_FLAVOR_DATA -> backing_addr ctx = NO_ADDR /\
    pending_desc_idx ctx = 0 /\ pending_blk_idx ctx = 0 /\ pending_pa ctx = NO_ADDR;
  no_list : list_use al /\ blocks al = [];
  no_addr : oaddr_type ctx = RMI_ADDR_TYPE_LIST -> ALIGNED (oaddr ctx) 8 = true
}.

(** The table the walk ended at, and its entries. *)
Record leaf_table (u : urmm) (g start base top : Z) t0 : Prop := {
  lt_at : leaf_at u g t0;
  lt_locked : leaf_locked u g (table_refs s2 level t0);
  lt_free : active_free (r_mem (u_rmm u));
  lt_ok : leaf_ok s2 level t0;
  lt_distinct : (map_size | base) -> forall hi, hi <= S2TTES_PER_S2TT -> base + (hi - start) * map_size <= top -> distinct s2 level flavor start hi t0;
  lt_unmarked : unmarked t0;
  lt_halves : (map_size | base) -> forall j e k pa, arr_get t0 j = Some e -> start <= j -> base + (j + 1 - start) * map_size <= top ->
    built s2 level k pa e -> half flavor k = true;
  lt_start : 0 <= start < S2TTES_PER_S2TT;
  lt_base : 0 <= base < 2 ^ 52 /\ start * map_size <= base;
  lt_top : top <= 2 ^ oa_bits lpa2
}.

Lemma refs_bounds t : length t = N_S2TTES -> 0 <= table_refs s2 level t <= 512.
Proof. intros H. pose proof (table_refs_range s2 level t) as Hr. rewrite H in Hr. exact Hr. Qed.

Lemma leaf_set_mem u g r t evs : tables (r_mem (u_rmm (leaf_set u g r t evs))) = <[g := t]> (tables (r_mem (u_rmm u))) /\
  forall x, x <> g -> descs (r_mem (u_rmm (leaf_set u g r t evs))) !! x = descs (r_mem (u_rmm u)) !! x.
Proof. split; [done|]. intros x Hx. cbn. by rewrite lookup_insert_ne by congruence. Qed.

(** The state in which a call that got past the sweep leaves the machine. *)
Definition ran (u : urmm) (y : bool) (g start base top : Z) t0 t' al ctx' (u' : urmm) : Prop :=
  exists m' evs n p idx, u' = with_rmm u m' evs n p /\ ticks (u_isr u) y n /\
    stopped level start base top idx (cur_base ctx') /\ leaf_run y u m' evs g start idx t0 t' al ctx'.

(** The deferred work after a sweep that ended in [u1]. *)
Lemma run_deferred u u1 g start base top idx t0 t1 taken evs1 ctx1 al1 (Q : bool * sro_unmap_ctx -> urmm -> Prop) :
  leaf_table u g start base top t0 -> swept start idx t0 t1 taken ->
  u1 = with_rmm u (r_mem (u_rmm u1)) evs1 (u_isr u) (u_polls u) ->
  leaf_at u1 g t1 -> leaf_locked u1 g (table_refs s2 level t1) ->
  tables (r_mem (u_rmm u1)) = <[g := t1]> (tables (r_mem (u_rmm u))) ->
  (forall x, x <> g -> ~ given start idx t0 x -> descs (r_mem (u_rmm u1)) !! x = descs (r_mem (u_rmm u)) !! x) ->
  fresh_op ctx1 base start idx top (cur_base ctx1) -> keeps_memory evs1 ->
  (forall x, given start idx t0 x -> granule_at (r_mem (u_rmm u)) x (AGranule false GRANULE_STATE_DATA 0)) ->
  (forall x, held flavor al1 ctx1 x <-> given start idx t0 x) ->
  covers start idx t0 ctx1 -> backed start idx t0 ->
  op_mem flavor al1 ctx1 (r_mem (u_rmm u1)) [] ->
  (forall y ctx' t' u', static ctx' = static ctx1 -> ran u y g start base top t0 t' al1 ctx' u' -> Q (y, ctx') u') ->
  runs (rtt_unmap_drain_and_clear ctx1 al1 g flavor) u1 Q.
Proof.
  intros Hlt Hsw Hu1 Hat Hlk Htb Hds Hfr Hk1 Hgd Hheld Hunit Hbacked Hom HQ. pose proof Hfr as [(I1 & _ & _) [_ L2] _ _ Hstop _].
  assert (Hvt : r_vttbr (u_rmm u1) = r_vttbr (u_rmm u)) by (by rewrite Hu1).
  assert (Hisr : u_isr u1 = u_isr u) by (by rewrite Hu1).
  apply (drain_and_clear_ok submit_ok s2 lpa2 flavor al1 ctx1 u1 g t1 (visible start idx t0) []); try done; [by rewrite L2| |].
  { eapply swept_op_table; [exact Hfr|apply Hlt|apply Hlt|exact Hsw]. }
  intros y ctx' t' m2 evs2 n p Htk Hstat Hls Hsm Hord Hnext. rewrite Hisr in Htk. apply (HQ y ctx' t'); [done|].
  assert (Hcb : cur_base ctx' = cur_base ctx1) by (exact (f_equal (fun s => snd (snd s)) Hstat)).
  exists m2, (evs1 ++ evs2), n, p, idx. split_and!; [|done|by rewrite Hcb|].
  - rewrite Hu1. unfold with_rmm, with_log, with_mem. cbn. by rewrite app_assoc.
  - eapply (after_sweep u u1 g start idx t0 t1 taken evs1 ctx1); try done; try apply Hlt. apply refs_bounds. apply Hlt.
Qed.

Lemma sweep_begin u g start base top t0 ctx al res :
  leaf_table u g start base top t0 -> new_op ctx al ->
  sweeping s2 level flavor h u g start start NO_ADDR t0 t0 [] (Sweep ctx al no_coarse res).
Proof.
  intros [A1 A2 A3 A4 A5 A6 A7 A8 A9 A10] [(I1 & I2 & I3) [G1 G2] _ Hc [Hl1 Hl2] _].
  split; try done; [apply swept_start| |intros Hd Hb; by destruct (Hc Hd) as [Hn _]].
  split; cbn [sw_list sw_ctx]; try done; [by rewrite Hl2| |].
  - intros Hd _. by apply Hc.
  - intros _ j pa Hin. by apply elem_of_nil in Hin.
Qed.

Lemma sort_list al : list_use al -> exists al1,
  (if flavor_is flavor RTT_UNMAP_FLAVOR_UNPROT then Some al else addr_list_sort_by_addr al) = Some al1 /\
  al_wf al1 /\ al_type al1 = LIST_TYPE_OUTPUT /\ descs_of al1 ≡ₚ descs_of al.
Proof.
  intros (H1 & H2 & _). destruct (flavor_is _ _); [by exists al|].
  destruct (sort_ok al H1 H2) as (l & Hs & Hw & _ & _ & Ht & Hp & _). by exists l.
Qed.

Definition leaf_res (res : smc_result) (y : bool) ctx' (s' : sweep) al1 : Prop :=
  sw_coarse s' = no_coarse /\
  if y then sw_ctx s' = ctx' /\ sw_list s' = al1
  else sw_ctx s' = set_g_llt None ctx' /\ res_x0 (sw_res s') = RMI_SUCCESS /\ res_x1 (sw_res s') = cur_base ctx'.

(** The end of the call, after the deferred work. *)
Lemma leaf_tail u u1 g start base top t0 ctx1 al1 res (Q : rtt_unmap_run_result * sweep -> urmm -> Prop) :
  al_wf al1 -> al_type al1 = LIST_TYPE_OUTPUT -> (oaddr_type ctx1 = RMI_ADDR_TYPE_LIST -> ALIGNED (oaddr ctx1) 8 = true) ->
  (forall P : bool * sro_unmap_ctx -> urmm -> Prop,
     (forall y ctx' t' u', static ctx' = static ctx1 -> ran u y g start base top t0 t' al1 ctx' u' -> P (y, ctx') u') ->
     runs (rtt_unmap_drain_and_clear ctx1 al1 g flavor) u1 P) ->
  (forall (y : bool) ctx' t' s' u', static ctx' = static ctx1 -> ran u y g start base top t0 t' al1 ctx' u' -> leaf_res res y ctx' s' al1 ->
     Q (if y then RTT_UNMAP_RUN_YIELD else RTT_UNMAP_RUN_DONE, s') u') ->
  runs (r <-! rtt_unmap_drain_and_clear ctx1 al1 g flavor ;;
        let '(yielded, ctx) := r in
        if yielded : bool then ret (RTT_UNMAP_RUN_YIELD, Sweep ctx al1 no_coarse res)
        else
          f <-! lift (rtt_unmap_format_result (oaddr_type ctx) (oaddr ctx) al1 (cur_base ctx) res) ;;
          ret (RTT_UNMAP_RUN_DONE, Sweep (set_g_llt None ctx) (snd f) no_coarse (fst f))) u1 Q.
Proof.
  intros Hwf Hty Hal Hrun HQ. apply runs_bind, Hrun. intros y ctx' t' u' Hst Hran. destruct y.
  - apply runs_ret. by apply (HQ true ctx' t').
  - pose proof (f_equal snd Hst) as Ho. cbn in Ho. injection Ho as Ho1 Ho2 _.
    destruct (format_ok (oaddr_type ctx') (oaddr ctx') al1 (cur_base ctx') res Hwf Hty) as (res' & al' & Hf & H0 & H1); [by rewrite Ho1, Ho2|].
    apply runs_bind. eapply runs_lift; [exact Hf|]. apply runs_ret. by apply (HQ false ctx' t').
Qed.

(** A granule a realm page is backed by is no table. *)
Lemma data_not_leaf u g r x s : leaf_locked u g r -> 0 <= r <= 512 -> granule_at (r_mem (u_rmm u)) x (AGranule false s 0) -> x <> g.
Proof.
  intros Hlk Hr (Hd & Hwf & _) ->. unfold leaf_locked in Hlk. rewrite Hlk in Hd. injection Hd as Hd.
  apply encode_inj in Hd; [done| |done]. apply wf_count; [done|lia].
Qed.

Lemma fine_covers u start idx t0 t taken al ctx : swept_fine s2 level flavor h u start idx t0 t taken al -> covers start idx t0 ctx.
Proof.
  intros [Hsw _ _ Hpg] Hdat j pa k p x Hj Hm Ha Hp. exfalso. pose proof (taken_exact _ _ _ _ _ _ _ _ Hsw Hj Hm) as Hin.
  apply elem_of_pages_from in Hp as (i & Hi & _). destruct (Hpg Hdat j pa Hin pa) as (y & Ha' & _); [apply elem_of_pages_from; exists 0; lia|].
  pose proof sizes_ne. congruence.
Qed.

Lemma unit_covers u start idx t0 t al gc pa ctx : swept_unit s2 level flavor h u start idx t0 t al gc pa ->
  g_coarse ctx = Some gc -> backing_addr ctx = pa -> covers start idx t0 ctx.
Proof.
  intros [_ Hsw _ _ _ Hms] Hg Hb _ j pa' k p x Hj Hm _ Hp. pose proof (taken_exact _ _ _ _ _ _ _ _ Hsw Hj Hm) as Hin.
  apply list_elem_of_singleton in Hin. injection Hin as -> ->. unfold unit_pages. rewrite Hg, Hb, <- Hms. exact Hp.
Qed.

Lemma blocks_perm al al1 : descs_of al1 ≡ₚ descs_of al -> blocks al1 ≡ₚ blocks al.
Proof. intros Hp. unfold blocks. by apply bind_Permutation. Qed.

(** The deferred work after a sweep that took single granules, or no memory. *)
Lemma fine_run u g start base top idx t0 t1 taken al al1 evs ctx1 (P : bool * sro_unmap_ctx -> urmm -> Prop) :
  let u1 := leaf_set u g (table_refs s2 level t1) t1 evs in
  leaf_table u g start base top t0 -> swept_fine s2 level flavor h u1 start idx t0 t1 taken al ->
  al_wf al1 -> descs_of al1 ≡ₚ descs_of al -> fresh_op ctx1 base start idx top (cur_base ctx1) -> keeps_memory evs ->
  g_coarse ctx1 = None -> g_coarse_dev ctx1 = None ->
  (flavor = RTT_UNMAP_FLAVOR_DATA -> pending_desc_idx ctx1 = 0 /\ pending_blk_idx ctx1 = 0 /\ pending_pa ctx1 = NO_ADDR) ->
  (forall y ctx' t' u', static ctx' = static ctx1 -> ran u y g start base top t0 t' al1 ctx' u' -> P (y, ctx') u') ->
  runs (rtt_unmap_drain_and_clear ctx1 al1 g flavor) u1 P.
Proof.
  intros u1 Hlt Hf Hwf Hp Hfr Hk Hg1 Hg2 Hcur HP. pose proof (refs_bounds t0 (proj1 (lt_ok _ _ _ _ _ _ Hlt))) as Hr0.
  assert (Hr1 : 0 <= table_refs s2 level t1 <= 512).
  { apply refs_bounds. rewrite (sw_len _ _ _ _ _ _ _ _ _ (sf_swept _ _ _ _ _ _ _ _ _ _ _ Hf)). apply Hlt. }
  destruct (leaf_set_mem u g (table_refs s2 level t1) t1 evs) as [Htb Hds]. fold u1 in Htb, Hds.
  assert (Hlk1 : leaf_locked u1 g (table_refs s2 level t1)) by apply lookup_insert_eq.
  assert (Hlo : 0 <= start /\ idx <= 512) by (pose proof (lt_start _ _ _ _ _ _ Hlt); destruct (fr_stop _ _ _ _ _ _ Hfr) as [? _]; unfold S2TTES_PER_S2TT in *; lia).
  assert (Hdis : distinct s2 level flavor start idx t0).
  { destruct (fr_stop _ _ _ _ _ _ Hfr) as (Hi & Ha & Ht). apply (lt_distinct _ _ _ _ _ _ Hlt); [apply Hfr|lia|lia]. }
  assert (Hmem : (forall x, given start idx t0 x -> granule_at (r_mem (u_rmm u)) x (AGranule false GRANULE_STATE_DATA 0)) /\
    (forall x, held flavor al1 ctx1 x <-> given start idx t0 x) /\ op_mem flavor al1 ctx1 (r_mem (u_rmm u1)) []).
  { destruct (decide (flavor = RTT_UNMAP_FLAVOR_DATA)) as [Hdat|Hn].
    - destruct (Hcur Hdat) as (C1 & C2 & C3).
      destruct (fine_op_start u1 start idx t0 t1 taken al al1 ctx1 Hf Hdis Hdat ltac:(lia) ltac:(lia) Hwf (blocks_perm _ _ Hp) Hg1 Hg2 C1 C2 C3) as (F1 & F2 & F3).
      split_and!; [|done|rewrite Hdat; by left]. intros x Hx. pose proof (F3 x Hx) as Hg.
      eapply granule_at_descs; [|exact Hg]. symmetry. apply Hds. by eapply data_not_leaf.
    - assert (flavor = RTT_UNMAP_FLAVOR_UNPROT) as Hun by (destruct flavor; done). unfold given. split_and!.
      + intros x [Hd _]. congruence.
      + intros x. rewrite Hun. cbn. split; [done|]. intros [Hd _]. congruence.
      + by rewrite Hun. }
  destruct Hmem as (Hgd & Hheld & Hom). eapply (run_deferred u u1 g start base top idx t0 t1 taken evs); try done.
  - apply Hf.
  - apply lookup_insert_eq.
  - intros x Hx _. by apply Hds.
  - by eapply fine_covers.
  - by eapply fine_backed.
Qed.

(** The deferred work after a sweep that claimed one coarse unit. *)
Lemma unit_run u g start base top idx t0 t1 al al1 gc pa evs ctx1 (P : bool * sro_unmap_ctx -> urmm -> Prop) :
  let u1 := leaf_set (after_coarse u (Some gc)) g (table_refs s2 level t1) t1 evs in
  leaf_table u g start base top t0 -> swept_unit s2 level flavor h u start idx t0 t1 al gc pa ->
  al_wf al1 -> descs_of al1 ≡ₚ descs_of al -> fresh_op ctx1 base start idx top (cur_base ctx1) -> keeps_memory evs ->
  g_coarse ctx1 = Some gc -> g_coarse_dev ctx1 = None -> backing_addr ctx1 = pa ->
  pending_desc_idx ctx1 = 0 /\ pending_blk_idx ctx1 = 0 /\ pending_pa ctx1 = NO_ADDR ->
  (forall y ctx' t' u', static ctx' = static ctx1 -> ran u y g start base top t0 t' al1 ctx' u' -> P (y, ctx') u') ->
  runs (rtt_unmap_drain_and_clear ctx1 al1 g flavor) u1 P.
Proof.
  intros u1 Hlt Hsu Hwf Hp Hfr Hk Hg1 Hg2 Hb (C1 & C2 & C3) HP. pose proof (refs_bounds t0 (proj1 (lt_ok _ _ _ _ _ _ Hlt))) as Hr0.
  destruct (unit_op_start u start idx t0 t1 al al1 ctx1 gc pa Hsu Hwf Hp Hg1 Hg2 Hb C1 C2 C3) as (Hco & Hgiv & Hup).
  destruct (su_unit _ _ _ _ _ _ _ _ _ _ _ _ Hsu) as [_ Hdata]. pose proof (data_not_leaf _ _ _ _ _ (lt_locked _ _ _ _ _ _ Hlt) Hr0 Hdata) as Hne.
  assert (Hds : forall x, x <> g -> x <> gc -> descs (r_mem (u_rmm u1)) !! x = descs (r_mem (u_rmm u)) !! x).
  { intros x Hx Hxc. cbn. by rewrite !lookup_insert_ne by congruence. }
  assert (Hpart : partial (r_mem (u_rmm u1)) gc).
  { split; [|done]. cbn. rewrite lookup_insert_ne by congruence. apply lookup_insert_eq. }
  eapply (run_deferred u u1 g start base top idx t0 t1 [(idx - 1, pa)] evs); try done.
  - apply Hsu.
  - apply lookup_insert_eq.
  - apply lookup_insert_eq.
  - intros x Hx Hn. apply Hds; [done|]. intros ->. apply Hn. by apply Hgiv.
  - intros x ->%Hgiv. done.
  - intros x. rewrite Hgiv. unfold held. rewrite (su_data _ _ _ _ _ _ _ _ _ _ _ _ Hsu), Hg1. done.
  - by eapply unit_covers.
  - by eapply unit_backed.
  - rewrite (su_data _ _ _ _ _ _ _ _ _ _ _ _ Hsu). right. exists gc. split_and!; try done. intros p. rewrite Hup. by left.
Qed.

Lemma land_size base : 0 <= base -> Z.land base (map_size - 1) = 0 <-> (map_size | base).
Proof.
  intros Hb. pose proof level_range as Hlr. unfold UnmapSweep.map_size. rewrite s2tte_map_size_eq by done.
  replace (2 ^ ((3 - level) * 9 + 12) - 1) with (Z.ones ((3 - level) * 9 + 12)) by (rewrite Z.ones_equiv; lia).
  rewrite Z.land_ones by lia. apply Z.mod_divide. apply Z.pow_nonzero; lia.
Qed.

Lemma static_upd ctx' ctx b addr lb : static ctx' = static (set_cur_base addr (set_backing b (set_leaf lb level ctx))) ->
  static ctx' = static (set_cur_base (cur_base ctx') (set_leaf lb level (set_backing (backing_addr ctx') ctx))).
Proof.
  intros H. assert (cur_base ctx' = addr) as -> by (exact (f_equal (fun s => snd (snd s)) H)).
  assert (backing_addr ctx' = b) as -> by (exact (f_equal (fun s => snd (fst (fst s))) H)). done.
Qed.

Lemma unmap_leaf_ok u wi base top t0 ctx al res (Q : rtt_unmap_run_result * sweep -> urmm -> Prop) :
  last_level wi = level -> cur_base ctx = base ->
  leaf_table u (g_llt wi) (index wi) base top t0 -> new_op ctx al ->
  (forall s', sw_coarse s' = no_coarse -> res_x0 (sw_res s') <> RMI_SUCCESS -> Q (RTT_UNMAP_RUN_DONE, s') u) ->
  (forall (y : bool) ctx' t' al1 s' u', (map_size | base) ->
     static ctx' = static (set_cur_base (cur_base ctx') (set_leaf (base - index wi * map_size) level (set_backing (backing_addr ctx') ctx))) ->
     ran u y (g_llt wi) (index wi) base top t0 t' al1 ctx' u' -> al_wf al1 -> al_type al1 = LIST_TYPE_OUTPUT -> leaf_res res y ctx' s' al1 ->
     Q (if y then RTT_UNMAP_RUN_YIELD else RTT_UNMAP_RUN_DONE, s') u') ->
  runs (rtt_unmap_leaf s2 wi flavor top (Sweep ctx al no_coarse res)) u Q.
Proof.
  intros Hlev Hbase Hlt Hnew Herr HQ. unfold rtt_unmap_leaf. rewrite Hlev. cbn [sw_ctx sw_list sw_coarse sw_res]. fold map_size. rewrite Hbase.
  pose proof Hlt as [A1 A2 A3 A4 A5 A6 A7 [A8 A8'] [[A9 A9'] A9''] A10]. pose proof level_range as Hlr.
  pose proof (map_size_bounds level Hlr) as Hms. pose proof (land_size base A9) as Hal.
  destruct (Z.eqb_spec (Z.land base (map_size - 1)) 0) as [Hz|Hz]; cbn [negb].
  2: { destruct (pack_level_some RMI_ERROR_RTT (u8 level)) as (code & Hcode & Hcne); [done|unfold u8; apply Z.mod_pos_bound; lia|].
       apply runs_bind. eapply runs_lift; [exact Hcode|]. by apply runs_ret, Herr. }
  apply Hal in Hz.
  assert (Hleaf : sub64 base (mul64 (index wi) map_size) = base - index wi * map_size).
  { unfold sub64, mul64. rewrite (u64_small (index wi * map_size)) by (unfold in_u64; nia). rewrite u64_small; [done|unfold in_u64; nia]. }
  rewrite Hleaf. set (ctxL := set_leaf (base - index wi * map_size) level ctx). change (cur_base ctxL) with (cur_base ctx). rewrite Hbase.
  assert (Hnew' : new_op ctxL al) by (by destruct Hnew).
  pose proof Hnew' as [(I1 & I2 & I3) [G1 G2] [C1 C2] Hcur _ Hoa].
  assert (Hfr : forall b addr' idx', stopped level (index wi) base top idx' addr' ->
    fresh_op (set_cur_base addr' (set_backing b ctxL)) base (index wi) idx' top addr').
  { intros b addr' idx' Hst. split; try done; cbn. split; [nia|done]. }
  apply runs_bind. unfold rtt_unmap_one_table.
  eapply (one_table_loop_ok s2 lpa2 level flavor h Hl Hlr Hfl Hh (g_llt wi) (index wi) base top t0 A4 (A5 Hz) ltac:(lia) A8 (A7 Hz));
    [unfold S2TTES_PER_S2TT in *; lia|lia|lia|lia|done|by apply (sweep_begin u (g_llt wi) (index wi) base top)|].
  cbn [sw_ctx sw_list sw_res]. split; [|split].
  - intros _ code b Hc. apply runs_ret. by apply Herr.
  - intros al' b res' idx' addr' t' taken' evs u' Hst Hk Hf. cbn [sw_ctx sw_list sw_coarse sw_res].
    destruct (sort_list al' (sf_list _ _ _ _ _ _ _ _ _ _ _ Hf)) as (al1 & Hs & Hwf & Hty & Hp). apply runs_bind. eapply runs_lift; [exact Hs|].
    apply (leaf_tail u u' (g_llt wi) (index wi) base top t0); try done.
    + intros P HP. eapply fine_run; try done; [by apply Hfr|]. intros Hd. by apply Hcur in Hd as [_ Hd].
    + intros y ctx' t2 s' u2 Hst' Hran Hres. apply (HQ y ctx' t2 al1); try done. by apply static_upd in Hst'.
  - intros al' res' idx' addr' t' pa gc evs _ Hst Hk Hsu. cbn [sw_ctx sw_list sw_coarse sw_res].
    destruct (sort_list al' (su_list _ _ _ _ _ _ _ _ _ _ _ _ Hsu)) as (al1 & Hs & Hwf & Hty & Hp). apply runs_bind. eapply runs_lift; [exact Hs|].
    apply (leaf_tail u (leaf_set (after_coarse u (Some gc)) (g_llt wi) (table_refs s2 level t') t' evs) (g_llt wi) (index wi) base top t0); try done.
    + intros P HP. eapply unit_run; try done; [by destruct (Hfr pa addr' idx' Hst)|]. apply Hcur. apply Hsu.
    + intros y ctx' t2 s' u2 Hst' Hran Hres. apply (HQ y ctx' t2 al1); try done. by apply static_upd in Hst'.
Qed.

(** ** Resuming *)

Lemma split_either {A} (a b e1 e2 : list A) x : a ++ b = e1 ++ x :: e2 ->
  (exists e2', a = e1 ++ x :: e2') \/ exists c, e1 = a ++ c /\ b = c ++ x :: e2.
Proof.
  intros [([|z k] & -> & Hk)|(k & -> & Hk)]%app_eq_inv; [right; exists []; by rewrite !app_nil_r|left|right; by exists k].
  injection Hk as <- _. by exists k.
Qed.

Lemma resume_entries y start idx t0 t1 t2 :
  unmarked t0 -> unmapped true start idx t0 t1 -> leaf_step h y t1 t2 -> unmapped y start idx t0 t2.
Proof.
  intros Hun [Hl1 H1] [Hl2 H2]. split; [congruence|]. intros j e He. destruct (H1 j e He) as (e1 & He1 & Hc). destruct (H2 j e1 He1) as (e2 & He2 & Hx).
  exists e2. split; [done|]. destruct (bool_decide _ && _).
  - destruct Hc as (k & pa & Hb & Ht & Hm & Hmine & Hcl). exists k, pa. split_and!; try done. destruct y; cbn.
    + destruct Hx as [->|[_ ->]]; [done|]. split; [by apply marked_clear_tlbi|]. split; [|by rewrite (proj2 (proj2 (proj2 (clear_tlbi_facts e1 h))))].
      intros h'. by rewrite (proj1 (proj2 (clear_tlbi_facts e1 h'))).
    + rewrite Hmine, Z.eqb_refl in Hx. by subst e2.
  - subst e1. pose proof (Hun j e He) as Hu. destruct y; [|by rewrite Hu in Hx]. destruct Hx as [|[Ho _]]; [done|]. unfold owes in Ho. by rewrite Hu in Ho.
Qed.

(** An operation that yielded goes on from where it stopped: what has been done since
    the sweep began is again a run. *)
Lemma resume_ok u u1 g start idx t0 t1 evs1 al ctx1 (Q : bool * sro_unmap_ctx -> urmm -> Prop) :
  unmarked t0 -> leaf_locked u g (table_refs s2 level t0) -> length t0 = N_S2TTES -> sro_handle ctx1 = h -> leaf_level ctx1 = level ->
  leaf_run true u (r_mem (u_rmm u1)) evs1 g start idx t0 t1 al ctx1 -> r_vttbr (u_rmm u1) = r_vttbr (u_rmm u) ->
  (forall y ctx2 t2 m2 evs2 n p, ticks (u_isr u1) y n -> static ctx2 = static ctx1 ->
     leaf_run y u m2 (evs1 ++ evs2) g start idx t0 t2 al ctx2 -> Q (y, ctx2) (with_rmm u1 m2 evs2 n p)) ->
  runs (rtt_unmap_drain_and_clear ctx1 al g flavor) u1 Q.
Proof.
  intros Hun Hlk Hlen Hsh Hlev [R1 R2 R3 R4 R5 R6 R7 R8 R9 (e0 & pre & -> & Hot & Hom & Hcov)] Hvt HQ.
  assert (Hng : forall x, given start idx t0 x -> x <> g) by (intros x Hx; eapply data_not_leaf; [exact Hlk|by apply refs_bounds|by apply R4]).
  rewrite <- Hvt in Hot, R9. apply (drain_and_clear_ok submit_ok s2 lpa2 flavor al ctx1 u1 g t1 (visible start idx t0) pre); try done.
  { unfold leaf_at. rewrite R1. apply lookup_insert_eq. }
  { unfold leaf_locked. rewrite R3, Hlev. done. }
  intros y ctx2 t2 m2 evs2 n p Htk Hstat Hls Hsm Hord Hnext. rewrite Hlev in Hsm. rewrite Hsh in Hls. apply (HQ y ctx2 t2); [done|done|].
  assert (Hop : op_of ctx2 = op_of ctx1) by (exact (f_equal (fun s => fst (fst (fst s))) Hstat)). rewrite Hvt in Hord, Hnext, R9.
  split.
  - rewrite (sm_tables _ _ _ _ _ _ _ Hsm), R1. by rewrite insert_insert_eq.
  - by eapply resume_entries.
  - exact (sm_leaf _ _ _ _ _ _ _ Hsm).
  - done.
  - done.
  - intros x Hx. destruct (held_dec al ctx1 x) as [Hhd|Hhd]; [by apply (sm_back _ _ _ _ _ _ _ Hsm)|]. destruct (R6 x Hx) as [|Hd]; [done|right].
    eapply granule_at_descs; [|exact Hd]. apply (sm_same _ _ _ _ _ _ _ Hsm); [by apply Hng|by right].
  - intros x Hx. by apply R7, (sm_sub _ _ _ _ _ _ _ Hsm).
  - intros x Hx. destruct (R8 x Hx) as [|He]; [by left|]. destruct (held_dec al ctx1 x) as [Hhd|Hhd]; [left; by apply R7|right].
    rewrite (sm_same _ _ _ _ _ _ _ Hsm x Hx); [done|by right].
  - intros x e1 e2 Hev. rewrite Hop. destruct (split_either _ _ _ _ _ Hev) as [(e2' & He)|(c & -> & Hev2)].
    { by apply (R9 x e1 e2'). }
    destruct (Hord x c e2 Hev2) as [Hf Hc]. split.
    + intros j Hj. rewrite <- app_assoc. by apply flushed_l, Hf.
    + intros Hd j pa k p0 Hj Hm Ha Hp. rewrite <- app_assoc. apply elem_of_app. right. by eapply Hc, Hcov.
  - destruct y; [|rewrite Hop, <- app_assoc; split; [apply Hnext|]; intros j Hj; by apply flushed_l, Hnext]. destruct Hnext as (N1 & N2 & N3). exists e0, (pre ++ evs2). split_and!; [by rewrite app_assoc|done|done|].
    intros Hd j pa k p0 x. rewrite N3. by apply Hcov.
Qed.

End Leaf.
