(* ===== verification/RttPath.v ===== *)
(** * Paths through a translation tree

    Which tables the walk of an IPA visits.  A table has one parent entry, so two
    IPAs that reach the same table agree on every bit above its range. *)

From Stdlib Require Import ZArith Lia Bool ZifyBool.
From stdpp Require Import base tactics option list numbers gmap.
From S2P Require Import Prelude.
From S2P Require Import Utils.
From S2P Require Import Granule.
From S2P Require Import Mem.
From S2P Require Import Arch.
From S2P Require Import S2tte.
From S2P Require Import S2tteFacts.
From S2P Require Import S2tteProps.
From S2P Require Import S2ttTable.
From S2P Require Import S2ttWalk.
From S2P Require Import RttTree.
From S2P Require Import Rmm.
From S2P Require Import RttCmds.
From S2P Require Import RttInv.

Section Path.
Context `{feat : ArchFeatures} `{names : GranuleNames}.
Implicit Types (ctx : s2tt_context) (m : mem) (T : tree).

(** The walk of [a] visits table [g] at level [l]. *)
Inductive visits ctx m (a : Z) : Z -> Z -> Prop :=
  | v_root g : pure_root ctx a = Some g -> visits ctx m a g (s2_starting_level ctx)
  | v_step g l g' : visits ctx m a g l -> l < S2TT_PAGE_LEVEL -> next_table ctx m g a l = Some g' ->
      visits ctx m a g' (l + 1).

(** The number of bytes a table at level [l] covers, as a power of two. *)
Definition span (l : Z) : Z := (3 - l) * 9 + 12 + 9.

Lemma visits_tree ctx lpa2 m T a g l :
  ctx_ok ctx lpa2 -> rtt_inv ctx m T -> 0 <= a < 2 ^ ipa_bits ctx -> visits ctx m a g l ->
  T !! g = Some l /\ s2_starting_level ctx <= l <= 3.
Proof.
  intros Hc HT Ha. pose proof (ctx_level _ _ Hc). induction 1 as [g Hr|g l g' Hv [IH IHl] Hl Hn].
  - split; [by eapply ctx_root; eauto using ri_roots|]. lia.
  - unfold S2TT_PAGE_LEVEL in Hl. split; [by eapply next_table_closed|lia].
Qed.

Lemma next_points ctx m T g a l g' :
  T !! g = Some l -> l < S2TT_PAGE_LEVEL -> next_table ctx m g a l = Some g' ->
  points ctx m T g (s2_addr_to_idx a l) g'.
Proof.
  intros Hg Hl Hn. unfold next_table in Hn. inv_some Hn.
  match goal with Ht : tables m !! g = Some ?t, He : arr_get ?t _ = Some ?e, Hp : table_entry_to_phys _ _ = Some ?pa |- _ =>
    exists l, t, e, pa end. by split_and!.
Qed.

(** The index at a level, arithmetically. *)
Lemma idx_arith a l : -1 <= l <= 3 -> 0 <= a < 2 ^ 52 ->
  s2_addr_to_idx a l = (a / 2 ^ ((3 - l) * 9 + 12)) mod 512.
Proof.
  intros Hl Ha. unfold s2_addr_to_idx, S2TT_MIN_STARTING_LEVEL, S2TTE_STRIDE, S2TTE_STRIDE_LM1, S2TT_PAGE_LEVEL, GRANULE_SHIFT.
  rewrite Z.shiftr_div_pow2 by lia. destruct (Z.ltb_spec l 0) as [Hneg|].
  - assert (l = -1) as -> by lia. change (shl64 1 4 - 1) with (Z.ones 4). rewrite Z.land_ones by lia.
    change ((3 - -1) * 9 + 12) with 48. assert (0 <= a / 2 ^ 48 < 16).
    { split; [apply Z.div_pos; lia|]. apply Z.div_lt_upper_bound; lia. }
    rewrite !Z.mod_small; lia.
  - change (shl64 1 9 - 1) with (Z.ones 9). by rewrite Z.land_ones by lia.
Qed.

Lemma div_span a l : -1 <= l <= 3 -> 0 <= a -> a / 2 ^ span l = a / 2 ^ ((3 - l) * 9 + 12) / 512.
Proof.
  intros Hl Ha. unfold span. rewrite Z.pow_add_r by lia. change (2 ^ 9) with 512.
  rewrite Z.div_div; [done|apply Z.pow_nonzero; lia|lia].
Qed.

(** Same table and same index: same entry range. *)
Lemma same_entry a b l :
  -1 <= l <= 3 -> 0 <= a < 2 ^ 52 -> 0 <= b < 2 ^ 52 -> a / 2 ^ span l = b / 2 ^ span l ->
  s2_addr_to_idx a l = s2_addr_to_idx b l -> a / s2tte_map_size l = b / s2tte_map_size l.
Proof.
  intros Hl Ha Hb Hs Hi. rewrite !div_span in Hs by lia. rewrite !idx_arith in Hi by lia.
  rewrite s2tte_map_size_eq by done.
  rewrite (Z.div_mod (a / 2 ^ ((3 - l) * 9 + 12)) 512), (Z.div_mod (b / 2 ^ ((3 - l) * 9 + 12)) 512) by lia. congruence.
Qed.

(** Two IPAs that reach the same table agree above its span. *)
Lemma visits_unique ctx lpa2 m T a b g l :
  ctx_ok ctx lpa2 -> rtt_inv ctx m T -> 0 <= a < 2 ^ ipa_bits ctx -> 0 <= b < 2 ^ ipa_bits ctx ->
  visits ctx m a g l -> visits ctx m b g l -> a / 2 ^ span l = b / 2 ^ span l.
Proof.
  intros Hc HT Ha Hb. pose proof Hc as [_ Hbits Hsl _ _]. assert (Hsl1 : -1 <= s2_starting_level ctx <= 3) by (destruct lpa2; lia).
  assert (Hib : 0 <= ipa_bits ctx <= 52) by (destruct lpa2; lia).
  assert (H52 : 2 ^ ipa_bits ctx <= 2 ^ 52) by (apply Z.pow_le_mono_r; lia).
  induction 1 as [g Hr|g1 l g Hv IH Hl Hn] in b, Hb |- *; intros Hvb.
  - inversion Hvb as [g0 Hrb|g0 l0 g' Hv0 Hl0 Hn0 Hg' Hl']; subst.
    + rewrite !div_span by lia.
      destruct (ri_roots _ _ _ HT) as (ra & Hra & _).
      unfold pure_root in Hr, Hrb. rewrite (granule_names_inverse _ _ Hra) in Hr, Hrb. cbn [mbind option_bind] in Hr, Hrb.
      apply granule_names_inverse in Hr. apply granule_names_inverse in Hrb. rewrite Hr in Hrb. injection Hrb as Heq.
      rewrite (proj1 (sl_idx_range a _ _ Ha Hib Hsl1)), (proj1 (sl_idx_range b _ _ Hb Hib Hsl1)) in Heq.
      change GRANULE_SIZE with 4096 in Heq. lia.
    + destruct (visits_tree _ _ _ _ _ _ _ Hc HT Hb Hv0). lia.
  - destruct (visits_tree _ _ _ _ _ _ _ Hc HT Ha Hv) as [Hg1 Hl1].
    inversion Hvb as [g0 Hrb Hg' Hl'|g2 l2 g' Hv2 Hl2 Hn2 Hg' Hl']; subst; [lia|].
    assert (l2 = l) as -> by lia. destruct (visits_tree _ _ _ _ _ _ _ Hc HT Hb Hv2) as [Hg2 _].
    destruct (ri_unique _ _ _ HT g1 (s2_addr_to_idx a l) g2 (s2_addr_to_idx b l) g) as [-> Hidx];
      [by eapply next_points|by eapply next_points|].
    pose proof (same_entry a b l ltac:(lia) ltac:(lia) ltac:(lia) (IH b Hb Hv2) Hidx) as He.
    rewrite s2tte_map_size_eq in He by lia. unfold span. by replace ((3 - (l + 1)) * 9 + 12 + 9) with ((3 - l) * 9 + 12) by lia.
Qed.

(** Same entry range: same table span and same index. *)
Lemma same_entry_inv a b l :
  -1 <= l <= 3 -> 0 <= a < 2 ^ 52 -> 0 <= b < 2 ^ 52 -> a / s2tte_map_size l = b / s2tte_map_size l ->
  a / 2 ^ span l = b / 2 ^ span l /\ s2_addr_to_idx a l = s2_addr_to_idx b l.
Proof.
  intros Hl Ha Hb He. rewrite s2tte_map_size_eq in He by done. rewrite !div_span, !idx_arith by lia. by rewrite He.
Qed.

(** IPAs that agree above a table's span reach it together. *)
Lemma visits_same ctx lpa2 m T a b g l :
  ctx_ok ctx lpa2 -> rtt_inv ctx m T -> 0 <= a < 2 ^ ipa_bits ctx -> 0 <= b < 2 ^ ipa_bits ctx ->
  visits ctx m b g l -> a / 2 ^ span l = b / 2 ^ span l -> visits ctx m a g l.
Proof.
  intros Hc HT Ha Hb. pose proof Hc as [_ Hbits Hsl _ _]. assert (Hsl1 : -1 <= s2_starting_level ctx <= 3) by (destruct lpa2; lia).
  assert (Hib : 0 <= ipa_bits ctx <= 52) by (destruct lpa2; lia).
  assert (H52 : 2 ^ ipa_bits ctx <= 2 ^ 52) by (apply Z.pow_le_mono_r; lia).
  induction 1 as [g Hr|g l g' Hv IH Hl Hn]; intros Hs.
  - apply v_root. rewrite <- Hr. unfold pure_root.
    rewrite (proj1 (sl_idx_range a _ _ Ha Hib Hsl1)), (proj1 (sl_idx_range b _ _ Hb Hib Hsl1)).
    rewrite !div_span in Hs by lia. by rewrite Hs.
  - destruct (visits_tree _ _ _ _ _ _ _ Hc HT Hb Hv) as [_ Hlv]. unfold S2TT_PAGE_LEVEL in Hl.
    assert (He : a / s2tte_map_size l = b / s2tte_map_size l).
    { rewrite s2tte_map_size_eq by lia. unfold span in Hs. by replace ((3 - (l + 1)) * 9 + 12 + 9) with ((3 - l) * 9 + 12) in Hs by lia. }
    destruct (same_entry_inv a b l ltac:(lia) ltac:(lia) ltac:(lia) He) as [Hsp Hix].
    eapply v_step; [by apply IH|done|]. unfold next_table in *. by rewrite Hix.
Qed.

(** The walk ends at a table it visits. *)
Lemma walk_visits ctx m a n i g :
  visits ctx m a g i -> i + Z.of_nat n <= 3 ->
  visits ctx m a (fst (pure_walk ctx m a n i g)) (snd (pure_walk ctx m a n i g)).
Proof.
  revert i g. induction n as [|n IH]; intros i g Hv Hb; cbn [pure_walk]; [done|].
  destruct (next_table ctx m g a i) as [g'|] eqn:E; [|done]. apply IH; [|lia].
  eapply v_step; eauto. unfold S2TT_PAGE_LEVEL. lia.
Qed.

(** ** Changing one entry *)

(** [m'] is [m] with entry [j] of table [gp] changed, as far as tree [T] sees. *)
Record entry_changed m m' T (gp j : Z) : Prop := {
  ec_other : forall g l, T !! g = Some l -> g <> gp -> tables m' !! g = tables m !! g;
  ec_parent : exists t t', tables m !! gp = Some t /\ tables m' !! gp = Some t' /\
    forall i, i <> j -> arr_get t' i = arr_get t i
}.

(** [m'] is [m] with the contents of table [gp] changed, and IPA [a] uses an entry
    that is as before. *)
Record spared ctx m m' T (gp lp a : Z) : Prop := {
  sp_other : forall g l, T !! g = Some l -> g <> gp -> tables m' !! g = tables m !! g;
  sp_entry : visits ctx m a gp lp -> exists t t', tables m !! gp = Some t /\ tables m' !! gp = Some t' /\
    arr_get t' (s2_addr_to_idx a lp) = arr_get t (s2_addr_to_idx a lp)
}.

(** Such an IPA is translated as before. *)
Lemma walk_spared ctx lpa2 m m' T gp lp a n i g :
  ctx_ok ctx lpa2 -> rtt_inv ctx m T -> 0 <= a < 2 ^ ipa_bits ctx -> T !! gp = Some lp -> spared ctx m m' T gp lp a ->
  visits ctx m a g i -> i + Z.of_nat n <= 3 ->
  pure_walk ctx m' a n i g = pure_walk ctx m a n i g.
Proof.
  intros Hc HT Ha Hgp [Ho Hs]. revert i g. induction n as [|n IH]; intros i g Hv Hb; cbn [pure_walk]; [done|].
  destruct (visits_tree _ _ _ _ _ _ _ Hc HT Ha Hv) as [Hg Hl].
  assert (Hn : next_table ctx m' g a i = next_table ctx m g a i).
  { unfold next_table. destruct (decide (g = gp)) as [->|Hne]; [|by rewrite (Ho g i Hg Hne)].
    assert (i = lp) as -> by congruence. destruct (Hs Hv) as (t & t' & Ht & Ht' & Hi). rewrite Ht, Ht'. cbn [mbind option_bind]. by rewrite Hi. }
  rewrite Hn. destruct (next_table ctx m g a i) as [g'|] eqn:E; [|done]. apply IH; [|lia].
  eapply v_step; eauto. unfold S2TT_PAGE_LEVEL. lia.
Qed.

Lemma translate_spared ctx lpa2 m m' T gp lp a :
  ctx_ok ctx lpa2 -> rtt_inv ctx m T -> 0 <= a < 2 ^ ipa_bits ctx -> T !! gp = Some lp -> spared ctx m m' T gp lp a ->
  translate ctx m' a = translate ctx m a.
Proof.
  intros Hc HT Ha Hgp Hsp. unfold translate. destruct (pure_root ctx a) as [root|] eqn:Hr; [|done]. cbn [mbind option_bind].
  pose proof (ctx_level _ _ Hc). unfold S2TT_PAGE_LEVEL.
  assert (Hb : s2_starting_level ctx + Z.of_nat (Z.to_nat (3 - s2_starting_level ctx)) <= 3) by lia.
  pose proof (v_root ctx m a root Hr) as Hv. rewrite (walk_spared ctx lpa2 m m' T gp lp a _ _ root Hc HT Ha Hgp Hsp Hv Hb).
  pose proof (walk_visits ctx m a _ _ root Hv Hb) as Hend. destruct (pure_walk _ _ _ _ _ _) as [g i]. cbn [fst snd] in Hend.
  destruct (visits_tree _ _ _ _ _ _ _ Hc HT Ha Hend) as [Hg _]. destruct Hsp as [Ho Hs].
  destruct (decide (g = gp)) as [->|Hne]; [|by rewrite (Ho g i Hg Hne)].
  assert (i = lp) as -> by congruence. destruct (Hs Hend) as (t & t' & Ht & Ht' & Hi). rewrite Ht, Ht'. cbn [mbind option_bind]. by rewrite Hi.
Qed.

(** One entry changed that the walk does not use. *)
Lemma translate_away ctx lpa2 m m' T gp lp j a :
  ctx_ok ctx lpa2 -> rtt_inv ctx m T -> 0 <= a < 2 ^ ipa_bits ctx -> T !! gp = Some lp -> entry_changed m m' T gp j ->
  (visits ctx m a gp lp -> s2_addr_to_idx a lp <> j) ->
  translate ctx m' a = translate ctx m a.
Proof.
  intros Hc HT Ha Hgp [Ho (t & t' & Ht & Ht' & Hi)] Haway. eapply translate_spared; try done. split; [done|].
  intros Hv. exists t, t'. split_and!; try done. by apply Hi, Haway.
Qed.

(** The walk down to the changed table stays. *)
Lemma visits_below ctx lpa2 m m' T gp lp a g l :
  ctx_ok ctx lpa2 -> rtt_inv ctx m T -> 0 <= a < 2 ^ ipa_bits ctx -> T !! gp = Some lp ->
  (forall x lx, T !! x = Some lx -> x <> gp -> tables m' !! x = tables m !! x) ->
  visits ctx m a g l -> l <= lp -> visits ctx m' a g l.
Proof.
  intros Hc HT Ha Hgp Ho. induction 1 as [g Hr|g l g' Hv IH Hl Hn]; intros Hle; [by apply v_root|].
  destruct (visits_tree _ _ _ _ _ _ _ Hc HT Ha Hv) as [Hg _].
  assert (Hne : g <> gp) by (intros ->; assert (l = lp) by congruence; lia).
  eapply v_step; [apply IH; lia|done|]. rewrite <- Hn. unfold next_table. by rewrite (Ho g l Hg Hne).
Qed.

Lemma visits_changed ctx lpa2 m m' T gp lp j a g l :
  ctx_ok ctx lpa2 -> rtt_inv ctx m T -> 0 <= a < 2 ^ ipa_bits ctx -> T !! gp = Some lp -> entry_changed m m' T gp j ->
  visits ctx m a g l -> l <= lp -> visits ctx m' a g l.
Proof. intros Hc HT Ha Hgp [Ho _]. by apply (visits_below ctx lpa2 m m' T gp lp). Qed.

(** An IPA whose walk uses the entry gets the meaning of its new value, when that
    is not a table entry. *)
Lemma translate_at ctx lpa2 m m' T gp lp j a t' p :
  ctx_ok ctx lpa2 -> rtt_inv ctx m T -> 0 <= a < 2 ^ ipa_bits ctx ->
  (forall x lx, T !! x = Some lx -> x <> gp -> tables m' !! x = tables m !! x) ->
  visits ctx m a gp lp -> s2_addr_to_idx a lp = j -> tables m' !! gp = Some t' -> arr_get t' j = Some p ->
  (lp < 3 -> entry_is_table p = false) ->
  translate ctx m' a = entry_meaning ctx lp p a.
Proof.
  intros Hc HT Ha Hec Hv Hj Ht' Hp Hleaf.
  assert (Hstop : forall n, lp + Z.of_nat n <= 3 -> pure_walk ctx m' a n lp gp = (gp, lp)).
  { intros [|n] Hn; [done|]. cbn [pure_walk]. unfold next_table. rewrite Ht'. cbn [mbind option_bind]. rewrite Hj, Hp.
    cbn [mbind option_bind]. by rewrite Hleaf by lia. }
  pose proof (ctx_level _ _ Hc) as Hsl.
  (* the walk in [m'] follows the visits of [m] down to [gp] *)
  assert (Hdown : forall g l, visits ctx m a g l -> forall n, lp <= l + Z.of_nat n -> l + Z.of_nat n <= 3 -> l <= lp ->
    (forall n', Z.of_nat n' = l + Z.of_nat n - s2_starting_level ctx -> forall root, pure_root ctx a = Some root ->
       pure_walk ctx m' a n' (s2_starting_level ctx) root = pure_walk ctx m' a n l g)).
  { induction 1 as [g Hr|g l g' Hv' IH Hl Hn]; intros n H1 H2 H3 n' Hn' root Hroot.
    - assert (n' = n) as -> by lia. congruence.
    - rewrite (IH (S n) ltac:(lia) ltac:(lia) ltac:(lia) n' ltac:(lia) root Hroot). cbn [pure_walk].
      destruct (visits_tree _ _ _ _ _ _ _ Hc HT Ha Hv') as [Hg _].
      assert (Hne : g <> gp).
      { intros ->. destruct (visits_tree _ _ _ _ _ _ _ Hc HT Ha Hv) as [Hg2 _]. assert (l = lp) by congruence. lia. }
      assert (Hn2 : next_table ctx m' g a l = Some g') by (rewrite <- Hn; unfold next_table; by rewrite (Hec g l Hg Hne)).
      by rewrite Hn2. }
  destruct (visits_tree _ _ _ _ _ _ _ Hc HT Ha Hv) as [Hgp Hlp].
  assert (Hroot : exists root, pure_root ctx a = Some root) by (clear -Hv; induction Hv; eauto).
  destruct Hroot as [root Hroot]. unfold translate. rewrite Hroot. cbn [mbind option_bind]. unfold S2TT_PAGE_LEVEL.
  rewrite (Hdown gp lp Hv (Z.to_nat (3 - lp)) ltac:(lia) ltac:(lia) ltac:(lia)
    (Z.to_nat (3 - s2_starting_level ctx)) ltac:(lia) root Hroot).
  rewrite Hstop by lia. rewrite Ht'. cbn [mbind option_bind]. by rewrite Hj, Hp.
Qed.

(** The effect of a new non-table value [p] in entry [j] of [gp], the entry that
    the walk of [b] uses: the IPAs of its range get the meaning of [p], the others
    keep theirs. *)
Lemma translate_changed ctx lpa2 m m' T gp lp b t' p a :
  ctx_ok ctx lpa2 -> rtt_inv ctx m T -> 0 <= a < 2 ^ ipa_bits ctx -> 0 <= b < 2 ^ ipa_bits ctx ->
  entry_changed m m' T gp (s2_addr_to_idx b lp) -> visits ctx m b gp lp ->
  tables m' !! gp = Some t' -> arr_get t' (s2_addr_to_idx b lp) = Some p -> (lp < 3 -> entry_is_table p = false) ->
  translate ctx m' a = if decide (a / s2tte_map_size lp = b / s2tte_map_size lp)
                       then entry_meaning ctx lp p a else translate ctx m a.
Proof.
  intros Hc HT Ha Hb Hec Hv Ht' Hp Hleaf. destruct (visits_tree _ _ _ _ _ _ _ Hc HT Hb Hv) as [Hgp Hlv].
  pose proof Hc as [_ Hbits Hsl _ _]. assert (Hib : 0 <= ipa_bits ctx <= 52) by (destruct lpa2; lia).
  assert (H52 : 2 ^ ipa_bits ctx <= 2 ^ 52) by (apply Z.pow_le_mono_r; lia). assert (Hlv1 : -1 <= lp <= 3) by (destruct lpa2; lia).
  case_decide as Hd.
  - destruct (same_entry_inv a b lp Hlv1 ltac:(lia) ltac:(lia) Hd) as [Hsp Hix].
    eapply (translate_at ctx lpa2 m m' T gp lp (s2_addr_to_idx b lp)); try done; [apply Hec|]. by apply (visits_same ctx lpa2 m T a b).
  - eapply (translate_away ctx lpa2 m m' T gp lp (s2_addr_to_idx b lp)); try done. intros Hva Hix. apply Hd.
    apply same_entry; try done; try lia. by apply (visits_unique ctx lpa2 m T a b gp).
Qed.

(** What the entry the walk of [b] ends at says. *)
Lemma translate_here ctx lpa2 m T gp lp b t e a :
  ctx_ok ctx lpa2 -> rtt_inv ctx m T -> 0 <= a < 2 ^ ipa_bits ctx -> 0 <= b < 2 ^ ipa_bits ctx ->
  visits ctx m b gp lp -> tables m !! gp = Some t -> arr_get t (s2_addr_to_idx b lp) = Some e ->
  (lp < 3 -> entry_is_table e = false) -> a / s2tte_map_size lp = b / s2tte_map_size lp ->
  translate ctx m a = entry_meaning ctx lp e a.
Proof.
  intros Hc HT Ha Hb Hv Ht He Hleaf Heq.
  rewrite (translate_changed ctx lpa2 m m T gp lp b t e a Hc HT Ha Hb); try done; [by rewrite decide_True|].
  split; [done|]. by exists t, t.
Qed.

End Path.

(** The table a command's walk ends at. *)
Lemma walked_visits `{feat : ArchFeatures} `{lookup : GranuleLookup} w ctx T addr level wi :
  walked w ctx T addr level wi -> level <= 3 ->
  visits ctx (r_mem w) addr (g_llt wi) (last_level wi) /\ index wi = s2_addr_to_idx addr (last_level wi).
Proof.
  intros [(root & Hroot & Hpw) [Hidx _] _ Hll _] Hlv. split; [|done].
  pose proof (walk_visits ctx (r_mem w) addr (Z.to_nat (level - s2_starting_level ctx)) _ root (v_root _ _ _ _ Hroot) ltac:(lia)) as H.
  by rewrite <- Hpw in H.
Qed.
