(* ===== verification/RttRefuse.v ===== *)
(** * Why RTT commands are refused

    Each error code of a structure command has a cause in the state it was given:
    no realm at the address, arguments out of range, or something the command
    finds where the walk of the IPA ends.  The theorems on the commands say that
    a command fails only for one of these causes, with the code of that cause. *)

From Stdlib Require Import ZArith Lia Bool ZifyBool.
From stdpp Require Import base tactics option list numbers gmap.
From S2P Require Import Prelude.
From S2P Require Import Utils.
From S2P Require Import Status.
From S2P Require Import Granule.
From S2P Require Import Mem.
From S2P Require Import Arch.
From S2P Require Import S2tte.
From S2P Require Import S2tteProps.
From S2P Require Import S2ttWalk.
From S2P Require Import RttFold.
From S2P Require Import Realm.
From S2P Require Import RttTree.
From S2P Require Import Rmm.
From S2P Require Import RttCmds.
From S2P Require Import RttInv.
From S2P Require Import RttPath.

Section Refuse.
Context `{feat : ArchFeatures} `{lookup : GranuleLookup}.
Implicit Types (w : rmm) (rd : rd) (ctx : s2tt_context) (T : tree) (aux : bool).

(** The entry of table [g] for [addr]. *)
Definition entry_at w (g addr l e : Z) : Prop :=
  exists t, tables (r_mem w) !! g = Some t /\ arr_get t (s2_addr_to_idx addr l) = Some e.

(** An auxiliary tree of the realm has something other than unassigned NS for the
    IPA in its root. *)
Definition aux_referenced w rd (ipa : Z) : Prop :=
  exists j ctx g e, 1 <= j < realm_num_planes rd /\ arr_get (s2_ctxs rd) j = Some ctx /\
    visits ctx (r_mem w) ipa g (s2_starting_level ctx) /\ entry_at w g ipa (s2_starting_level ctx) e /\
    s2tte_is_unassigned_ns ctx e = false.

(** Locks do not change what the tables say. *)
Lemma visits_tables ctx m m' a g l : tables m' = tables m -> visits ctx m a g l -> visits ctx m' a g l.
Proof.
  intros Ht. induction 1 as [g Hg|g l g' _ IH Hl Hn]; [by apply v_root|]. eapply v_step; [done..|].
  by rewrite (next_table_tables ctx m' m).
Qed.

Lemma aux_referenced_tables w w' rd ipa :
  tables (r_mem w') = tables (r_mem w) -> aux_referenced w' rd ipa -> aux_referenced w rd ipa.
Proof.
  intros Ht (j & ctx & g & e & Hj & Hc & Hv & (t & Htb & He) & Hns). exists j, ctx, g, e. split_and!; try done; try lia.
  - by eapply visits_tables.
  - exists t. by rewrite <- Ht.
Qed.

(** [stop rd ctx gp l st]: what a command finds at table [gp], of level [l], in
    which the walk ended, makes it return [st]. *)
Inductive refused w (rd_addr map_addr level idx : Z) aux (bad : s2tt_context -> Prop)
    (stop : rd -> s2tt_context -> Z -> Z -> Z -> Prop) : Z -> Prop :=
  | ref_rd st : lookup_refuses w rd_addr GRANULE_STATE_RD st ->
      refused w rd_addr map_addr level idx aux bad stop st
  | ref_args g rd : names_rd w rd_addr g -> r_rds w !! g = Some rd ->
      validate_rtt_structure_cmds map_addr level rd = Some false \/
      structure_cmd_ctx rd aux idx map_addr = Some None \/
      (exists ctx, structure_cmd_ctx rd aux idx map_addr = Some (Some ctx) /\ bad ctx) ->
      refused w rd_addr map_addr level idx aux bad stop RMI_ERROR_INPUT
  | ref_stop g rd ctx T gp l st : names_rd w rd_addr g -> owns w g (cmd_index aux idx) rd ctx T ->
      visits ctx (r_mem w) map_addr gp l -> l <= level - 1 ->
      (l < level - 1 -> next_table ctx (r_mem w) gp map_addr l = None) -> stop rd ctx gp l st ->
      refused w rd_addr map_addr level idx aux bad stop st.

(** The error of a walk that ended at level [l]. *)
Definition rtt_error aux (l st : Z) : Prop := pack_return_code_level (rtt_err_code aux) (u8 l) = Some st.

Definition create_stop w (rd_addr rtt_addr map_addr level : Z) aux (_ : rd) ctx (gp l st : Z) : Prop :=
  (l < level - 1 /\ rtt_error aux l st) \/
  (l = level - 1 /\ (rtt_addr = rd_addr \/ tr_addr_to_granule rtt_addr = Some gp) /\ st = RMI_ERROR_INPUT) \/
  (l = level - 1 /\ lookup_refuses w rtt_addr GRANULE_STATE_DELEGATED st) \/
  (l = level - 1 /\ exists e, entry_at w gp map_addr l e /\
     ((s2tte_drain_pending e = true /\ st = RMI_BLOCKED) \/ (s2tte_is_table ctx e l = true /\ rtt_error aux l st))).

Definition create_refused w (rd_addr rtt_addr map_addr level idx : Z) aux : Z -> Prop :=
  refused w rd_addr map_addr level idx aux (fun ctx => s2oa_limit ctx <= rtt_addr)
    (create_stop w rd_addr rtt_addr map_addr level aux).

(** What the search for auxiliary references depends on. *)
Definition aux_blocked w rd ctx (map_addr level : Z) aux : Prop :=
  aux = false /\ addr_in_par rd map_addr = Some false /\ rtt_tree_pp rd = true /\
  s2_starting_level ctx < level /\ aux_referenced w rd map_addr.

Definition fold_stop w (map_addr level : Z) aux rd ctx (gp l st : Z) : Prop :=
  exists e, entry_at w gp map_addr l e /\
  ((l < level - 1 /\ rtt_error aux l st) \/
   (l = level - 1 /\ s2tte_is_table ctx e l = false /\ rtt_error aux l st) \/
   (l = level - 1 /\ s2tte_is_table ctx e l = true /\ aux_blocked w rd ctx map_addr level aux /\ rtt_error false l st) \/
   (l = level - 1 /\ s2tte_is_table ctx e l = true /\ exists pa gc tc,
      s2tte_pa ctx e l = Some pa /\ tr_addr_to_granule pa = Some gc /\ tables (r_mem w) !! gc = Some tc /\
      rtt_fold_table ctx aux tc (table_refs ctx level tc) level l = Some (Fold_ret st))).

Definition fold_refused w (rd_addr map_addr level idx : Z) aux : Z -> Prop :=
  refused w rd_addr map_addr level idx aux (fun _ => False) (fold_stop w map_addr level aux).

Definition destroy_stop w (map_addr level : Z) aux rd ctx (gp l st : Z) : Prop :=
  exists e, entry_at w gp map_addr l e /\
  (((l < level - 1 \/ s2tte_is_table ctx e l = false) /\ rtt_error aux l st) \/
   (l = level - 1 /\ s2tte_is_table ctx e l = true /\ exists pa gc tc,
      s2tte_pa ctx e l = Some pa /\ tr_addr_to_granule pa = Some gc /\ tables (r_mem w) !! gc = Some tc /\
      ((table_refs ctx level tc <> 0 /\ rtt_error aux level st) \/
       (table_refs ctx level tc = 0 /\ aux_blocked w rd ctx map_addr level aux /\ rtt_error false l st)))).

Definition destroy_refused w (rd_addr map_addr level idx : Z) aux : Z -> Prop :=
  refused w rd_addr map_addr level idx aux (fun _ => False) (destroy_stop w map_addr level aux).

End Refuse.
