(* ===== verification/RttCreate.v ===== *)
(** * RMI_RTT_CREATE and RMI_RTT_AUX_CREATE *)

From Stdlib Require Import ZArith Lia Bool ZifyBool.
From stdpp Require Import base tactics option list numbers gmap.
From S2P Require Import Prelude.
From S2P Require Import Utils.
From S2P Require Import Status.
From S2P Require Import Granule.
From S2P Require Import Mem.
From S2P Require Import Arch.
From S2P Require Import S2tte.
From S2P Require Import S2tteFacts.
From S2P Require Import S2tteProps.
From S2P Require Import S2tlbi.
From S2P Require Import S2ttTable.
From S2P Require Import S2ttWalk.
From S2P Require Import RttFold.
From S2P Require Import RttFoldProps.
From S2P Require Import Realm.
From S2P Require Import RttTree.
From S2P Require Import Rmm.
From S2P Require Import RttCmds.
From S2P Require Import RttInv.
From S2P Require Import RttPath.
From S2P Require Import RttRefuse.

Section Entry.
Context `{feat : ArchFeatures}.
Implicit Types (ctx : s2tt_context).

(** Skip a branch for a kind the entry does not have. *)
Ltac refute_kind Hno k :=
  let H := fresh in
  assert (H := Hno k ltac:(discriminate)); cbn [is_kind] in H;
  first [rewrite H | injection H as H; rewrite H]; cbn [mbind option_bind]; clear H.

(** What unfolding answers for each entry that can be in a table. *)
Lemma unfold_total ctx lpa2 aux level e s2tt :
  s2tt_lpa2_enabled ctx = Some lpa2 -> -1 <= level - 1 -> level <= 3 ->
  entry_ok ctx (level - 1) e -> length s2tt = N_S2TTES ->
  exists r, rtt_create_unfold ctx aux e s2tt level = Some r /\
    match r with
    | Unfold_ret status => status <> RMI_SUCCESS /\
        ((s2tte_drain_pending e = true /\ status = RMI_BLOCKED) \/
         (s2tte_is_table ctx e (level - 1) = true /\ rtt_error aux (level - 1) status))
    | Unfold_ok table refs get bbm => exists k pa,
        k <> K_table /\ built ctx (level - 1) k pa e /\
        refs = unfold_refs k /\ get = unfold_get k /\ bbm = unfold_bbm k /\
        length table = N_S2TTES /\ (forall j v, arr_get table j = Some v -> exists pa', built ctx level k pa' v) /\
        exists base, fold_refines ctx level table k base e
    end.
Proof.
  intros Hl Hlv1 Hlv2 He Hlen. destruct (s2tte_drain_pending e) eqn:Hd.
  { eexists. unfold rtt_create_unfold. rewrite Hd. split; [done|]. split; [done|by left]. }
  destruct He as [[Hp _]|(k & pa & Hb)]; [congruence|].
  destruct (decide (k = K_table)) as [->|Hk].
  - assert (Hno : forall k', k' <> K_table -> is_kind ctx e (level - 1) k' = Some false).
    { intros k' Hk'. rewrite (built_is_kind ctx lpa2 (level - 1) _ _ _ k' Hl ltac:(lia) Hb). by rewrite bool_decide_false by congruence. }
    pose proof (built_is_table ctx lpa2 (level - 1) _ _ _ Hl ltac:(lia) Hb) as Ht. rewrite bool_decide_true in Ht by done.
    destruct (rtt_error_some aux (level - 1)) as (st & Hst & Hne).
    exists (Unfold_ret st). split; [|split; [done|by right]]. unfold rtt_create_unfold. rewrite Hd.
    refute_kind Hno K_unassigned_empty. refute_kind Hno K_unassigned_ram. refute_kind Hno K_unassigned_ns.
    refute_kind Hno K_unassigned_destroyed. refute_kind Hno K_assigned_destroyed. refute_kind Hno K_assigned_empty.
    refute_kind Hno K_assigned_ram. refute_kind Hno K_assigned_ns. refute_kind Hno K_assigned_dev_empty.
    refute_kind Hno K_assigned_dev_destroyed. refute_kind Hno K_assigned_dev_dev.
    rewrite Ht, Hst. done.
  - destruct (unfold_ok ctx lpa2 aux level k pa e s2tt Hl Hlv1 Hlv2 Hk Hb Hlen) as (t & Hu & Ht & Hbt & Hf).
    eexists. split; [exact Hu|]. cbn. exists k, pa. split_and!; try done.
    + intros j v Hv. pose proof (arr_get_lt _ _ _ Hv) as Hj. rewrite Ht in Hj. unfold N_S2TTES in Hj.
      destruct (Hbt j ltac:(lia)) as (v' & pa' & Hv' & Hbv). assert (v' = v) as -> by congruence. eauto.
    + assert (Hwf : table_wf ctx level t).
      { split; [done|]. intros j v Hv. right. pose proof (arr_get_lt _ _ _ Hv) as Hj. rewrite Ht in Hj. unfold N_S2TTES in Hj.
        destruct (Hbt j ltac:(lia)) as (v' & pa' & Hv' & Hbv). assert (v' = v) as -> by congruence. eauto. }
      destruct (fold_sound ctx lpa2 aux t _ level _ _ _ Hl ltac:(lia) Hwf Hf) as (k2 & base & Hk2 & Hfr & _).
      assert (k2 = k) as ->; [|by exists base]. destruct Hfr as [Hbk _].
      pose proof (built_is_kind ctx lpa2 (level - 1) _ _ _ k2 Hl ltac:(lia) Hb) as H1.
      rewrite (built_is_kind ctx lpa2 (level - 1) _ _ _ k2 Hl ltac:(lia) Hbk) in H1. rewrite bool_decide_true in H1 by done.
      injection H1 as H1. symmetry in H1. by apply bool_decide_eq_true in H1.
Qed.

End Entry.

(** ** Counts *)

Section Counts.
Context `{feat : ArchFeatures}.
Implicit Types (ctx : s2tt_context).

(** The count of a table whose entry [e] of kind [k] becomes a table entry, or
    back: it changes exactly when the kind holds no reference. *)
Lemma refs_to_table ctx lpa2 level k pa pa' t t' j e v :
  s2tt_lpa2_enabled ctx = Some lpa2 -> -1 <= level <= 3 ->
  built ctx level k pa e -> k <> K_table -> built ctx level K_table pa' v ->
  arr_get t j = Some e -> arr_set t j v = Some t' ->
  table_refs ctx level t' = table_refs ctx level t + (if unfold_get k then 1 else 0).
Proof.
  intros Hl Hlv He Hk Hv Hg Hs. rewrite (table_refs_set ctx level t j e v t' Hg Hs).
  rewrite (entry_refs_built ctx lpa2 level k pa e Hl Hlv He), (entry_refs_built ctx lpa2 level K_table pa' v Hl Hlv Hv).
  destruct k; try done; cbn [kind_refs unfold_get unfold_refs is_leaf kind_live]; cbn; lia.
Qed.

Lemma refs_of_child ctx lpa2 level k t :
  s2tt_lpa2_enabled ctx = Some lpa2 -> -1 <= level <= 3 -> k <> K_table -> length t = N_S2TTES ->
  (forall j v, arr_get t j = Some v -> exists pa', built ctx level k pa' v) ->
  table_refs ctx level t = unfold_refs k.
Proof.
  intros Hl Hlv Hk Hlen Hb. rewrite (table_refs_const ctx level t (kind_refs k)).
  - rewrite Hlen. by destruct k.
  - intros j v Hv. destruct (Hb j v Hv) as [pa' Hbv]. by apply (entry_refs_built ctx lpa2 level k pa').
Qed.

End Counts.

(** ** The child and the parent entry *)

Section Create.
Context `{feat : ArchFeatures} `{lookup : GranuleLookup} `{smmu : SmmuDriver}.
Context (smmu_ok : forall vs addr level num leaf, smmuv3_inv_at_level_per_vmids vs addr level num leaf = 0).
Implicit Types (w : rmm) (F : forest) (rd : rd) (ctx : s2tt_context) (T : tree).

(** Break before make of entry [j] of table [gp]: zero, invalidate, new value. *)
Definition bbm_events rd ctx (vttbr addr size level num : Z) (leaf : bool) (gp j v : Z) (evs : list event) : Prop :=
  exists fl, flushes rd ctx vttbr addr size level num leaf fl /\ evs = E_write gp j 0 :: fl ++ [E_write gp j v].

Lemma table_entry_total ctx lpa2 pa level :
  s2tt_lpa2_enabled ctx = Some lpa2 -> (if lpa2 then -1 else 0) <= level < 3 ->
  GRANULE_ALIGNED pa = true -> 0 <= pa < 2 ^ oa_bits lpa2 ->
  exists v, s2tte_create_table ctx pa level = Some v /\ built ctx level K_table pa v.
Proof.
  intros Hl Hlv Hg Hpa. assert (Ha : s2tte_is_addr_lvl_aligned ctx pa S2TT_PAGE_LEVEL = Some true).
  { apply (addr_lvl_aligned_arith _ lpa2); [done|]. unfold S2TT_PAGE_LEVEL. split_and!; try lia.
    change (s2tte_map_size 3) with GRANULE_SIZE. by apply GRANULE_ALIGNED_spec. }
  destruct (aligned_pa_some _ _ _ _ Hl Ha) as [t Ht].
  assert (Hc : s2tte_create_table ctx pa level = Some (Z.lor t S2TTE_TABLE)).
  { unfold s2tte_create_table, S2TT_PAGE_LEVEL, S2TT_MIN_STARTING_LEVEL_LPA2, S2TT_MIN_STARTING_LEVEL.
    rewrite Hl. cbn [mbind option_bind]. rewrite (proj2 (Z.ltb_lt level 3)), Hg by lia.
    replace ((if lpa2 then -1 else 0) <=? level) with true by (destruct lpa2; lia). by rewrite Ht. }
  exists (Z.lor t S2TTE_TABLE). split; [done|]. by apply b_tbl.
Qed.

(** [rtt_create_entry] with the parent, locked, and the delegated child, locked:
    an error that changes nothing, or the child filled and linked. *)
Lemma create_entry_ok rd lpa2 bits sl i ctx wi gc rtt_addr addr level aux x e t0 tp (Q : Z -> rmm -> Prop) :
  rd_ok rd lpa2 bits sl -> 0 <= i < realm_num_planes rd -> arr_get (s2_ctxs rd) i = Some ctx ->
  0 <= addr < 2 ^ bits -> sl + 1 <= level <= 3 -> (s2tte_map_size (level - 1) | addr) ->
  GRANULE_ALIGNED rtt_addr = true -> 0 <= rtt_addr < s2oa_limit ctx ->
  g_llt wi <> gc -> tables (r_mem x) !! g_llt wi = Some tp -> length tp = N_S2TTES ->
  tables (r_mem x) !! gc = Some t0 -> length t0 = N_S2TTES ->
  arr_get tp (index wi) = Some e -> entry_ok ctx (level - 1) e ->
  descs (r_mem x) !! g_llt wi = Some (encode GRN (AGranule true GRANULE_STATE_RTT (table_refs ctx (level - 1) tp))) ->
  descs (r_mem x) !! gc = Some (encode GRN (AGranule true GRANULE_STATE_DELEGATED 0)) ->
  (forall st, st <> RMI_SUCCESS ->
     (s2tte_drain_pending e = true /\ st = RMI_BLOCKED) \/
     (s2tte_is_table ctx e (level - 1) = true /\ rtt_error aux (level - 1) st) -> Q st x) ->
  (forall k pa v tp' tc base evs,
     k <> K_table -> built ctx (level - 1) k pa e -> built ctx (level - 1) K_table rtt_addr v ->
     arr_set tp (index wi) v = Some tp' -> length tc = N_S2TTES ->
     (forall j u, arr_get tc j = Some u -> exists pa', built ctx level k pa' u) ->
     fold_refines ctx level tc k base e ->
     (if unfold_bbm k
      then bbm_events rd ctx (r_vttbr x) addr GRANULE_SIZE (level - 1) 1 true (g_llt wi) (index wi) v evs
      else evs = [E_write (g_llt wi) (index wi) v]) ->
     Q RMI_SUCCESS (with_log (with_mem x (mem_upd (r_mem x)
         (g_llt wi) (AGranule true GRANULE_STATE_RTT (table_refs ctx (level - 1) tp')) tp'
         gc (AGranule true GRANULE_STATE_DELEGATED (table_refs ctx level tc)) tc)) evs)) ->
  runs (rtt_create_entry rd ctx wi gc rtt_addr addr level aux) x Q.
Proof.
  intros Hr Hi Hc Ha Hlv Hd Hga Hpa Hne Htp Hlp Ht0 Hl0 He Hok Hdp Hdc Herr HQ.
  destruct (rd_ctx_ok _ _ _ _ Hr i ctx Hi Hc) as ([Hl _ Hsl _ _] & _ & Hsl' & Hoa & _).
  unfold rtt_create_entry. eapply runs_bind, runs_get; [exact Htp|]. eapply runs_bind, runs_lift; [exact He|].
  eapply runs_bind, runs_get; [exact Ht0|].
  destruct (unfold_total ctx lpa2 aux level e t0 Hl ltac:(destruct lpa2; lia) ltac:(lia) Hok Hl0) as (r & Hr' & Hres).
  eapply runs_bind, runs_lift; [exact Hr'|]. destruct r as [tc refs get bbm|st]; [|apply runs_ret; destruct Hres; auto].
  destruct Hres as (k & pa & Hk & Hb & -> & -> & -> & Hltc & Hbt & base & Hfr).
  destruct (table_entry_total ctx lpa2 rtt_addr (level - 1) Hl ltac:(destruct lpa2; lia) Hga ltac:(lia)) as (v & Hv & Hbv).
  destruct (arr_set tp (index wi) v) as [tp'|] eqn:Hset; [|by rewrite (arr_set_some _ _ _ (arr_get_lt _ _ _ He)) in Hset].
  destruct (arr_set tp (index wi) 0) as [tp0|] eqn:Hset0; [|by rewrite (arr_set_some _ _ _ (arr_get_lt _ _ _ He)) in Hset0].
  assert (Hset' : arr_set tp0 (index wi) v = Some tp') by (by rewrite (arr_set_set _ _ _ _ v Hset0)).
  pose proof (refs_to_table ctx lpa2 (level - 1) k pa rtt_addr tp tp' _ e v Hl ltac:(destruct lpa2; lia) Hb Hk Hbv He Hset) as Hrp.
  pose proof (table_refs_range ctx (level - 1) tp) as Hrg. rewrite Hlp in Hrg. unfold N_S2TTES in Hrg.
  pose proof (refs_of_child ctx lpa2 level k tc Hl ltac:(destruct lpa2; lia) Hk Hltc Hbt) as Hrc.
  assert (Hbrk : forall Q' : unit -> rmm -> Prop,
    (forall fl, (if unfold_bbm k then exists f, flushes rd ctx (r_vttbr x) addr GRANULE_SIZE (level - 1) 1 true f /\
                   fl = E_write (g_llt wi) (index wi) 0 :: f else fl = []) ->
       Q' tt (with_log (with_mem x (if unfold_bbm k then set_table (r_mem x) (g_llt wi) tp0 else r_mem x)) fl)) ->
    runs (if unfold_bbm k then (_ <-! s2tte_write (g_llt wi) (index wi) 0 ;;
                                invalidate_page_block ctx rd addr (level - 1) true) else ret tt) x Q').
  { intros Q' HQ'. destruct (unfold_bbm k).
    - eapply runs_bind, runs_write; [exact Htp|exact Hset0|].
      apply (invalidate_ok smmu_ok rd lpa2 bits sl i ctx addr (level - 1) false (level - 1) true); try done;
        [destruct lpa2; lia|]. intros evs Hev. rewrite with_log_app. apply HQ'. by exists evs.
    - apply runs_ret. rewrite <- (with_log_nil x). by apply HQ'. }
  apply runs_bind, Hbrk. intros fl Hfl. apply runs_bind, runs_fill.
  assert (Hfin : forall ds,
    (forall g, ds !! g = <[g_llt wi := encode GRN (AGranule true GRANULE_STATE_RTT (table_refs ctx (level - 1) tp'))]>
       (<[gc := encode GRN (AGranule true GRANULE_STATE_DELEGATED (table_refs ctx level tc))]> (descs (r_mem x))) !! g) ->
    runs (parent_s2tte <-! lift (s2tte_create_table ctx rtt_addr (level - 1)) ;;
          _ <-! s2tte_write (g_llt wi) (index wi) parent_s2tte ;; ret RMI_SUCCESS)
      (with_log (with_mem x (Mem ds (<[gc := tc]> (tables (if unfold_bbm k then set_table (r_mem x) (g_llt wi) tp0
                                                          else r_mem x))))) fl) Q).
  { intros ds Hds. apply map_eq in Hds as ->. eapply runs_bind, runs_lift; [exact Hv|].
    eapply runs_bind, (runs_write _ _ _ (if unfold_bbm k then tp0 else tp) tp').
    { cbn. rewrite lookup_insert_ne by done. destruct (unfold_bbm k); [apply lookup_insert_eq|done]. }
    { by destruct (unfold_bbm k). }
    apply runs_ret.
    match goal with |- Q _ ?y => replace y with (with_log (with_mem x (mem_upd (r_mem x)
      (g_llt wi) (AGranule true GRANULE_STATE_RTT (table_refs ctx (level - 1) tp')) tp'
      gc (AGranule true GRANULE_STATE_DELEGATED (table_refs ctx level tc)) tc)) (fl ++ [E_write (g_llt wi) (index wi) v])) end.
    - eapply HQ; eauto. destruct (unfold_bbm k); [|by rewrite Hfl]. destruct Hfl as (f & Hf & ->). by exists f.
    - unfold with_log, with_mem, mem_upd, set_table. cbn. rewrite <- app_assoc. do 2 f_equal.
      destruct (unfold_bbm k); cbn; [|done].
      by rewrite (insert_insert_ne _ gc (g_llt wi) tc tp0), insert_insert_eq by done. }
  unfold unfold_get in *. destruct (Z.eqb_spec (unfold_refs k) 0) as [Hz|Hz]; cbn [negb].
  - eapply runs_bind, runs_ret, runs_bind, runs_on_desc.
    { cbn. destruct (unfold_bbm k); exact Hdp. }
    { apply (inc_locked GRANULE_STATE_RTT _ 1); try done; lia. }
    rewrite <- Hrp. apply Hfin. intros g. cbn. rewrite Hrc, Hz. destruct (unfold_bbm k); cbn; by rewrite (insert_id _ gc).
  - eapply runs_bind, runs_on_desc.
    { cbn. destruct (unfold_bbm k); exact Hdc. }
    { apply inc_locked; try done; destruct k; vm_compute; congruence. }
    eapply runs_bind, runs_ret, Hfin. intros g. cbn. rewrite Hrc, Hrp, Z.add_0_r, Z.add_0_l.
    rewrite insert_insert_ne by done. destruct (unfold_bbm k); cbn; by rewrite (insert_id (descs _) (g_llt wi)).
Qed.

(** ** Locking the backing granule *)

Lemma get_state_locked m g s r :
  0 <= s < 32 -> 0 <= r <= 1023 -> descs m !! g = Some (encode GRN (AGranule true s r)) ->
  (descs m !! g ≫= get_state GRN) = Some s.
Proof.
  intros Hs Hr ->. cbn [mbind option_bind]. rewrite get_state_refines; [done|by left|by apply wf_count].
Qed.

Lemma locked_desc m g s r :
  granule_at m g (AGranule false s r) ->
  descs (with_lock m g) !! g = Some (encode GRN (AGranule true s r)) /\ 0 <= s < 32 /\ 0 <= r <= 1023.
Proof.
  intros Ha. destruct (granule_at_with_lock m g _ Ha eq_refl) as (H & [Hs Hr] & _). split; [exact H|].
  cbn in Hs, Hr. change (REFCOUNT_MAX GRN) with 1023 in Hr. done.
Qed.

Lemma with_lock_desc_ne m g x : x <> g -> descs (with_lock m g) !! x = descs m !! x.
Proof. intros Hn. cbn. by rewrite lookup_alter_ne. Qed.

(** The table [gp] of the tree, with its contents. *)
Lemma tree_table_at ctx m T gp lp :
  rtt_inv ctx m T -> T !! gp = Some lp ->
  exists tp, tables m !! gp = Some tp /\ length tp = N_S2TTES /\ 0 <= table_refs ctx lp tp <= 512 /\
    granule_at m gp (AGranule false GRANULE_STATE_RTT (table_refs ctx lp tp)) /\
    forall j e, arr_get tp j = Some e -> entry_ok ctx lp e.
Proof.
  intros Hinv Hgp. destruct (ri_table _ _ _ Hinv gp lp Hgp) as (tp & H1 & H2 & H3 & H4). exists tp. split_and!; try done.
  all: pose proof (table_refs_range ctx lp tp) as H; rewrite H2 in H; unfold N_S2TTES in H; lia.
Qed.

Lemma backing_ok w F rd_addr g_rd ctx T wi backing (Q : Z * option Z -> rmm -> Prop) :
  inv w F -> names_rd w rd_addr g_rd -> rtt_inv ctx (r_mem w) T -> T !! g_llt wi = Some (last_level wi) ->
  let x := with_mem w (with_lock (with_lock (r_mem w) g_rd) (g_llt wi)) in
  (forall st, st <> RMI_SUCCESS ->
     ((backing = rd_addr \/ tr_addr_to_granule backing = Some (g_llt wi)) /\ st = RMI_ERROR_INPUT) \/
     lookup_refuses w backing GRANULE_STATE_DELEGATED st -> Q (st, None) x) ->
  (forall gc, tr_addr_to_granule backing = Some gc -> gc <> g_rd -> gc <> g_llt wi ->
     granule_at (r_mem w) gc (AGranule false GRANULE_STATE_DELEGATED 0) ->
     Q (RMI_SUCCESS, Some gc) (with_mem w (with_lock (r_mem x) gc))) ->
  runs (find_lock_rtt_backing_granule g_rd wi backing) x Q.
Proof.
  intros Hinv (Hrd & r & Hrg) HT Hgp x Herr HQ.
  assert (Hne : g_llt wi <> g_rd) by (intros E; rewrite E in Hgp; by rewrite (not_in_tree _ _ _ _ _ HT Hrg) in Hgp).
  destruct (tree_table_at _ _ _ _ _ HT Hgp) as (tp & _ & _ & Hrf & Hpg & _).
  destruct (ri_named _ _ _ HT _ _ Hgp) as [gp_addr Hpa].
  destruct (locked_desc _ _ _ _ Hrg) as (Hd1 & Hs1 & Hr1).
  unfold find_lock_rtt_backing_granule. eapply runs_bind, runs_get.
  { eapply get_state_locked; [exact Hs1|exact Hr1|]. cbn [r_mem with_mem x]. rewrite with_lock_desc_ne by done. exact Hd1. }
  eapply runs_bind, runs_guard; [done|]. eapply runs_bind, runs_get.
  { assert (Hpg' : granule_at (with_lock (r_mem w) g_rd) (g_llt wi) (AGranule false GRANULE_STATE_RTT (table_refs ctx (last_level wi) tp)))
      by (by apply granule_at_with_lock_ne).
    destruct (locked_desc _ _ _ _ Hpg') as (Hd2 & Hs2 & Hr2). eapply get_state_locked; [exact Hs2|exact Hr2|exact Hd2]. }
  eapply runs_bind, runs_guard; [done|].
  eapply runs_bind, runs_lift; [by apply granule_names_inverse|]. eapply runs_bind, runs_lift; [by apply granule_names_inverse|].
  destruct (Z.eqb_spec backing rd_addr) as [->|Hn1]; cbn [orb]; [apply runs_ret; apply Herr; [done|left; by auto]|].
  destruct (Z.eqb_spec backing gp_addr) as [->|Hn2]; [apply runs_ret; apply Herr; [done|left; by auto]|].
  assert (Hrun : forall o m', find_lock_fine_granule backing GRANULE_STATE_DELEGATED (r_mem x) = Some (o, m') ->
    Q o (with_mem w m') -> runs (on_mem (find_lock_fine_granule backing GRANULE_STATE_DELEGATED)) x Q)
    by (intros; eapply runs_on_mem; eauto).
  destruct (find_lock_fine_spec backing) as [(st & Hst & Hf)|(gc & Hgc & Hf)].
  { eapply Hrun; [apply Hf|]. apply Herr; [done|]. right. apply Hf. }
  assert (Hc1 : gc <> g_rd) by (intros ->; apply granule_names_inverse in Hgc; apply granule_names_inverse in Hrd; congruence).
  assert (Hc2 : gc <> g_llt wi) by (intros ->; apply granule_names_inverse in Hgc; apply granule_names_inverse in Hpa; congruence).
  destruct (inv_granule _ _ Hinv _ _ Hgc) as ((a & Ha & Hl) & _).
  assert (Ha' : granule_at (r_mem x) gc a) by (cbn; apply granule_at_with_lock_ne; [done|]; by apply granule_at_with_lock_ne).
  pose proof (Hf (r_mem x) GRANULE_STATE_DELEGATED a Ha') as Hrn. rewrite Hl in Hrn.
  destruct (Z.eqb_spec (a_state a) GRANULE_STATE_DELEGATED) as [Hs|]; cbn [negb] in Hrn.
  - eapply Hrun; [exact Hrn|]. apply HQ; try done. destruct a as [l s rf]. cbn in Hl, Hs. subst l s.
    assert (rf = 0) as ->; [|done]. destruct Ha as (_ & [_ Hwr] & Hok). cbn in Hok, Hwr.
    unfold ref_ok, granule_unlocked_invariants in Hok. cbn in Hok.
    rewrite encode_refcount in Hok by (by left || (split; [done|exact Hwr])). cbn in Hok. lia.
  - eapply Hrun; [exact Hrn|]. apply Herr; [done|]. right. pose proof (Hf (r_mem w) GRANULE_STATE_DELEGATED a Ha) as Hw.
    by rewrite (proj2 (Z.eqb_neq _ _)) in Hw by done.
Qed.


(** ** The command *)

(** Everything a successful creation did: entry [j] of table [gp], [e] of kind
    [k], is now the table entry [v] for [gc], whose entries fold into [e]. *)
Record created w w' rd ctx T (gp lp j gc rtt_addr addr : Z) : Prop := {
  cr_parent : T !! gp = Some lp;
  cr_level : (if default false (s2tt_lpa2_enabled ctx) then -1 else 0) <= lp < 3;
  cr_ne : gp <> gc;
  cr_index : 0 <= j < 512;
  cr_old : granule_at (r_mem w) gc (AGranule false GRANULE_STATE_DELEGATED 0);
  cr_name : tr_addr_to_granule rtt_addr = Some gc;
  cr_entry : exists k pa e v tp tp' tc base evs,
    tables (r_mem w) !! gp = Some tp /\ length tp = N_S2TTES /\
    arr_get tp j = Some e /\ k <> K_table /\ built ctx lp k pa e /\
    built ctx lp K_table rtt_addr v /\ arr_set tp j v = Some tp' /\
    (forall i u, arr_get tp i = Some u -> entry_ok ctx lp u) /\
    length tc = N_S2TTES /\ (forall i u, arr_get tc i = Some u -> exists pa', built ctx (lp + 1) k pa' u) /\
    fold_refines ctx (lp + 1) tc k base e /\
    (if unfold_bbm k then bbm_events rd ctx (r_vttbr w) addr GRANULE_SIZE lp 1 true gp j v evs
     else evs = [E_write gp j v]) /\
    w' = with_log (with_mem w (mem_upd (r_mem w)
           gp (AGranule false GRANULE_STATE_RTT (table_refs ctx lp tp')) tp'
           gc (AGranule false GRANULE_STATE_RTT (table_refs ctx (lp + 1) tc)) tc)) evs
}.

(** Releasing the locks of the parent and of the claimed granule, which gets state
    [s]. *)
Lemma release3 m g_rd r gp rp rp' tp' gc s rc tc :
  granule_at m g_rd (AGranule false GRANULE_STATE_RD r) ->
  granule_at m gp (AGranule false GRANULE_STATE_RTT rp) ->
  granule_at m gc (AGranule false GRANULE_STATE_DELEGATED 0) ->
  gp <> g_rd -> gc <> g_rd -> gp <> gc ->
  let m1 := with_lock (with_lock (with_lock m g_rd) gp) gc in
  let m2 := mem_upd m1 gp (AGranule true GRANULE_STATE_RTT rp') tp' gc (AGranule true GRANULE_STATE_DELEGATED rc) tc in
  set_granule (set_granule m2 gp (AGranule false GRANULE_STATE_RTT rp')) gc (AGranule false s rc)
  = with_lock (mem_upd m gp (AGranule false GRANULE_STATE_RTT rp') tp' gc (AGranule false s rc) tc) g_rd.
Proof.
  intros Hr Hp Hc H1 H2 H3 m1 m2. apply mem_ext; [|done]. intros x. unfold m2, m1. cbn.
  destruct (decide (x = gc)) as [->|Hxc].
  { rewrite lookup_insert_eq, lookup_alter_ne, lookup_insert_ne, lookup_insert_eq by done. done. }
  destruct (decide (x = gp)) as [->|Hxp].
  { rewrite lookup_insert_ne, lookup_insert_eq, lookup_alter_ne, lookup_insert_eq by done. done. }
  rewrite !lookup_insert_ne by done. rewrite !(lookup_alter_ne _ _ gc), !(lookup_alter_ne _ _ gp) by done.
  destruct (decide (x = g_rd)) as [->|Hxr].
  - rewrite !lookup_alter_eq, !lookup_insert_ne by done. done.
  - rewrite !lookup_alter_ne, !lookup_insert_ne by done. done.
Qed.

Lemma create_walk_ok w F rd_addr g_rd rd lpa2 bits sl i ctx T rtt_addr addr level aux (Q : Z -> rmm -> Prop) :
  inv w F -> names_rd w rd_addr g_rd -> rd_ok rd lpa2 bits sl ->
  0 <= i < realm_num_planes rd -> arr_get (s2_ctxs rd) i = Some ctx -> rtt_inv ctx (r_mem w) T ->
  0 <= addr < 2 ^ bits -> sl + 1 <= level <= 3 -> (s2tte_map_size (level - 1) | addr) ->
  0 <= rtt_addr < s2oa_limit ctx ->
  (forall st gp l, st <> RMI_SUCCESS -> visits ctx (r_mem w) addr gp l -> l <= level - 1 ->
     (l < level - 1 -> next_table ctx (r_mem w) gp addr l = None) ->
     create_stop w rd_addr rtt_addr addr level aux rd ctx gp l st ->
     Q st (with_mem w (with_lock (r_mem w) g_rd))) ->
  (forall w' gp j gc, created w w' rd ctx T gp (level - 1) j gc rtt_addr addr ->
     gc <> g_rd -> gp <> g_rd -> Q RMI_SUCCESS (with_mem w' (with_lock (r_mem w') g_rd))) ->
  runs (rtt_create_walk rd g_rd ctx rtt_addr addr level aux) (with_mem w (with_lock (r_mem w) g_rd)) Q.
Proof.
  intros Hinv Hnm Hr Hi Hc HT Ha Hlv Hd Hra Herr HQ. pose proof Hnm as (Hrd & r & Hrg).
  destruct (rd_ctx_ok _ _ _ _ Hr i ctx Hi Hc) as (Hctx & Hbits & Hsl & _).
  assert (HTrd : T !! g_rd = None) by (by eapply not_in_tree).
  unfold rtt_create_walk. apply (lock_walk w g_rd ctx lpa2 T); try done; [by rewrite Hbits|lia|].
  intros wi Hwk. destruct (walked_visits _ _ _ _ _ _ Hwk ltac:(lia)) as [Hvis Hix].
  destruct Hwk as [_ [_ Hidx] Hgp Hll Hstop]. set (gp := g_llt wi) in *.
  assert (Hgr : gp <> g_rd) by congruence.
  assert (Hunl : forall K : H Z, runs K (with_mem w (with_lock (r_mem w) g_rd)) Q ->
     runs (_ <-! h_granule_unlock gp ;; K) (with_mem w (with_lock (with_lock (r_mem w) g_rd) gp)) Q)
    by (intros K HK; apply runs_bind; by eapply unlock_llt).
  destruct (Z.ltb_spec (last_level wi) (level - 1)) as [Hlt|Hge].
  { destruct (rtt_error_some aux (last_level wi)) as (st & Hst & Hne).
    eapply runs_bind, runs_lift; [exact Hst|]. apply Hunl, runs_ret. eapply Herr; eauto; [lia|]. left. by split. }
  assert (Hlast : last_level wi = level - 1) by lia. rewrite Hlast in *.
  apply runs_bind. apply (backing_ok w F rd_addr g_rd ctx T); try done; [by rewrite Hlast| |].
  { intros st Hst Hwhy. cbn [fst]. rewrite (proj2 (Z.eqb_neq st RMI_SUCCESS)) by done. cbn [negb].
    apply Hunl, runs_ret. eapply Herr; eauto. right. destruct Hwhy; eauto. }
  intros gc Hgc Hgcr Hgcp Hdel. cbn [fst snd]. rewrite Z.eqb_refl. cbn [negb]. eapply runs_bind, runs_lift; [done|].
  destruct (tree_table_at _ _ _ _ _ HT Hgp) as (tp & Htp & Hltp & Hrp & Hpg & Hentries).
  destruct (inv_granule _ _ Hinv _ _ Hgc) as (_ & t0 & Ht0 & Hl0).
  destruct (arr_get_some tp (index wi)) as [e He]; [rewrite Hltp; unfold N_S2TTES, S2TTES_PER_S2TT in *; lia|].
  assert (Hpg1 : granule_at (with_lock (r_mem w) g_rd) gp (AGranule false GRANULE_STATE_RTT (table_refs ctx (level - 1) tp)))
    by (by apply granule_at_with_lock_ne).
  assert (Hdel2 : granule_at (with_lock (with_lock (r_mem w) g_rd) gp) gc (AGranule false GRANULE_STATE_DELEGATED 0))
    by (apply granule_at_with_lock_ne; [done|]; by apply granule_at_with_lock_ne).
  apply runs_bind.
  eapply (create_entry_ok rd lpa2 bits sl i ctx wi gc rtt_addr addr level aux _ e t0 tp); try done;
    [by eapply granule_names_aligned|by eapply Hentries| | | |].
  { cbn [r_mem with_mem]. rewrite with_lock_desc_ne by (by apply not_eq_sym). by apply locked_desc. }
  { by apply locked_desc. }
  - intros st Hst Hwhy. rewrite (proj2 (Z.eqb_neq st RMI_SUCCESS)) by done. apply runs_bind.
    eapply runs_on_mem; [|].
    { cbn [r_mem with_mem]. rewrite with_lock_comm by done.
      apply (with_lock_unlock (with_lock (with_lock (r_mem w) g_rd) gc) gp (AGranule false GRANULE_STATE_RTT (table_refs ctx (level - 1) tp))); [|done].
      apply granule_at_with_lock_ne; [by apply not_eq_sym|done]. }
    apply runs_bind. eapply runs_on_mem.
    { cbn [r_mem with_mem]. apply (with_lock_unlock (with_lock (r_mem w) g_rd) gc (AGranule false GRANULE_STATE_DELEGATED 0)); [|done].
      by apply granule_at_with_lock_ne. }
    apply runs_ret. eapply Herr; eauto. do 3 right. split; [done|]. exists e. split; [|done]. exists tp. by rewrite <- Hix.
  - intros k pa v tp' tc base evs Hk Hb Hbv Hset Hltc Hbt Hfr Hev. rewrite Z.eqb_refl.
    pose proof (table_refs_range ctx (level - 1) tp') as Hrp'. rewrite (arr_set_length _ _ _ _ Hset), Hltp in Hrp'.
    pose proof (table_refs_range ctx level tc) as Hrc. rewrite Hltc in Hrc. unfold N_S2TTES in Hrp', Hrc.
    apply runs_bind. eapply runs_on_desc; [apply mem_upd_parent|apply unlock_locked; [done|lia|apply ref_ok_rtt; lia]|].
    apply runs_bind. eapply runs_on_desc;
      [cbn; rewrite lookup_insert_ne by (by apply not_eq_sym); rewrite lookup_insert_ne by (by apply not_eq_sym); apply lookup_insert_eq
      |apply transition_to_rtt; lia|].
    apply runs_ret.
    pose proof (release3 (r_mem w) g_rd r gp _ (table_refs ctx (level - 1) tp') tp' gc GRANULE_STATE_RTT (table_refs ctx level tc) tc Hrg Hpg Hdel Hgr Hgcr
      ltac:(by apply not_eq_sym)) as Hrel. cbv zeta in Hrel.
    set (w' := with_log (with_mem w (mem_upd (r_mem w) gp (AGranule false GRANULE_STATE_RTT (table_refs ctx (level - 1) tp')) tp'
      gc (AGranule false GRANULE_STATE_RTT (table_refs ctx level tc)) tc)) evs).
    match goal with |- Q _ ?y => replace y with (with_mem w' (with_lock (r_mem w') g_rd)) end.
    + eapply (HQ w' gp (index wi) gc); [|done|done]. split; try done.
      { destruct Hctx as [Hl _ Hlv' _ _]. rewrite Hl. cbn. destruct lpa2; lia. }
      exists k, pa, e, v, tp, tp', tc, base, evs. replace (level - 1 + 1) with level by lia. split_and!; try done.
    + unfold w', with_mem, with_log. cbn [r_mem r_rds r_vttbr r_log]. f_equal. symmetry. exact Hrel.
Qed.


Lemma created_mem w w' rd ctx T gp lp j gc rtt_addr addr :
  created w w' rd ctx T gp lp j gc rtt_addr addr ->
  r_rds w' = r_rds w /\
  (forall x, x <> gp -> x <> gc ->
     descs (r_mem w') !! x = descs (r_mem w) !! x /\ tables (r_mem w') !! x = tables (r_mem w) !! x).
Proof.
  intros [_ _ _ _ _ _ (k & pa & e & v & tp & tp' & tc & base & evs & _ & _ & _ & _ & _ & _ & _ & _ & _ & _ & _ & _ & ->)].
  split; [done|]. intros x H1 H2. cbn [r_mem with_log with_mem]. by apply mem_upd_other.
Qed.

(** The new tree satisfies the tree invariant. *)
Lemma created_tree w w' rd ctx lpa2 T gp lp j gc rtt_addr addr :
  ctx_ok ctx lpa2 -> rtt_inv ctx (r_mem w) T -> created w w' rd ctx T gp lp j gc rtt_addr addr ->
  rtt_inv ctx (r_mem w') (<[gc := lp + 1]> T).
Proof.
  intros [Hl _ Hsl _ _] HT Hcr. pose proof (created_mem _ _ _ _ _ _ _ _ _ _ _ Hcr) as [_ Hfr].
  destruct Hcr as [Hgp Hlv Hne Hj Hold Hnm (k & pa & e & v & tp & tp' & tc & base & evs & Htp & Hltp & He & Hk & Hb & Hbv &
    Hset & Hok & Hltc & Hbt & Hf & _ & Hw')].
  rewrite Hl in Hlv. cbn in Hlv. assert (Hlv1 : -1 <= lp < 3) by (destruct lpa2; lia).
  assert (HTc : T !! gc = None) by (by eapply not_in_tree).
  pose proof (arr_set_length _ _ _ _ Hset) as Hltp'. rewrite Hltp in Hltp'.
  assert (Hp' : descs (r_mem w') !! gp = Some (encode GRN (AGranule false GRANULE_STATE_RTT (table_refs ctx lp tp'))) /\
    tables (r_mem w') !! gp = Some tp') by (subst w'; apply mem_upd_parent).
  assert (Hc' : descs (r_mem w') !! gc = Some (encode GRN (AGranule false GRANULE_STATE_RTT (table_refs ctx (lp + 1) tc))) /\
    tables (r_mem w') !! gc = Some tc) by (subst w'; by apply mem_upd_child).
  destruct Hp' as [Hdp Htp'], Hc' as [Hdc Htc'].
  eapply (rtt_inv_add ctx lpa2 (r_mem w) (r_mem w') T gp lp j v gc rtt_addr tc k); try done; try lia.
  - split; try done; [by exists tp, tp'| |].
    + exists tp'. split_and!; try done; [split; [exact Hdp|by apply ref_ok_table]|].
      intros x u Hu. rewrite (arr_get_set _ _ _ _ x Hset) in Hu. destruct (x =? j); [|eauto].
      injection Hu as <-. right. eauto.
    + intros x l Hx Hxp. destruct (Hfr x Hxp) as [-> ->]; [congruence|done].
  - intros c (l & t & u & p & _ & _ & Ht & Hu & Hent & _).
    destruct (built_table_entry ctx lpa2 lp k pa e Hl Hlv1 Hb) as [Hee _]. rewrite bool_decide_false in Hee by done. congruence.
  - split; [exact Hdc|by apply ref_ok_table].
Qed.

(** No translation of the realm's own tree changes. *)
Lemma created_translate w w' rd ctx lpa2 T gp lp j gc rtt_addr addr a :
  ctx_ok ctx lpa2 -> rtt_inv ctx (r_mem w) T -> created w w' rd ctx T gp lp j gc rtt_addr addr ->
  0 <= a < 2 ^ ipa_bits ctx -> translate ctx (r_mem w') a = translate ctx (r_mem w) a.
Proof.
  intros Hctx HT Hcr Ha. pose proof (created_mem _ _ _ _ _ _ _ _ _ _ _ Hcr) as [_ Hfr]. pose proof Hctx as [Hl _ Hsl _ _].
  destruct Hcr as [Hgp Hlv Hne Hj Hold Hnm (k & pa & e & v & tp & tp' & tc & base & evs & Htp & Hltp & He & Hk & Hb & Hbv &
    Hset & Hok & Hltc & Hbt & Hf & _ & Hw')].
  rewrite Hl in Hlv. cbn in Hlv. assert (Hlv1 : -1 <= lp < 3) by (destruct lpa2; lia).
  assert (HTc : T !! gc = None) by (by eapply not_in_tree).
  destruct (built_table_entry ctx lpa2 lp K_table rtt_addr v Hl Hlv1 Hbv) as [Hev Hph].
  destruct (built_table_entry ctx lpa2 lp k pa e Hl Hlv1 Hb) as [Hee _].
  eapply (split_translate ctx lpa2 (r_mem w) (r_mem w') T gp lp j gc a); try done; try lia; [| |].
  2: { destruct lpa2; lia. }
  2: { intros root Hroot. eapply ctx_root; eauto. apply (ri_roots _ _ _ HT). }
  split.
  - intros x l b x' Hx Hlx Hn. by eapply next_table_closed.
  - split; [done|]. unfold S2TT_PAGE_LEVEL. lia.
  - intros x l Hx Hxp. apply (Hfr x Hxp). congruence.
  - exists tp, tp', e, v, rtt_addr. split_and!; try done.
    + subst w'. apply mem_upd_parent.
    + rewrite Hee. by rewrite bool_decide_false.
    + rewrite (arr_get_set _ _ _ _ j Hset). by rewrite Z.eqb_refl.
    + by apply Hph.
    + intros i Hi. rewrite (arr_get_set _ _ _ _ i Hset). by rewrite (proj2 (Z.eqb_neq i j)).
    + exists tc, k, base. split_and!; try done; [subst w'; by apply mem_upd_child|].
      intros x u Hu. right. destruct (Hbt x u Hu). eauto.
Qed.

(** ** The whole command *)

(** What a host observes of a structure command that succeeds on context [i] of
    realm [g]: the forest [F'] is the new shape of the trees, every translation
    of every tree of every realm is as before, and memory differs only in the
    parent [gp] and the child [gc]. *)
Record restructured w w' F F' (gp gc : Z) : Prop := {
  rs_inv : inv w' F';
  rs_rds : r_rds w' = r_rds w;
  rs_vttbr : r_vttbr w' = r_vttbr w;
  rs_frame : forall x, x <> gp -> x <> gc ->
    descs (r_mem w') !! x = descs (r_mem w) !! x /\ tables (r_mem w') !! x = tables (r_mem w) !! x;
  rs_translate : forall g i T rd ctx a, F !! (g, i) = Some T -> owns w g i rd ctx T ->
    0 <= a < 2 ^ ipa_bits ctx -> translate ctx (r_mem w') a = translate ctx (r_mem w) a
}.

Lemma owns_unique w g i rd ctx T rd' ctx' T' :
  owns w g i rd ctx T -> owns w g i rd' ctx' T' -> rd' = rd /\ ctx' = ctx.
Proof. intros [H1 _ H2 _ _] [H3 _ H4 _ _]. split; congruence. Qed.

Lemma owns_ctx_ok w g i rd ctx T : owns w g i rd ctx T -> exists lpa2, ctx_ok ctx lpa2.
Proof.
  intros [_ Hi Hc (lpa2 & bits & sl & Hr) _]. exists lpa2.
  by destruct (rd_ctx_ok _ _ _ _ Hr i ctx (rtts_planes _ _ _ _ _ Hr Hi) Hc).
Qed.

(** Updates of one tree leave the others' translations alone. *)
Lemma others_translate w w' F g i T gp lp gc g0 i0 T0 rd0 ctx0 a :
  inv w F -> F !! (g, i) = Some T -> T !! gp = Some lp ->
  (forall k T1 l, F !! k = Some T1 -> T1 !! gc = Some l -> k = (g, i)) ->
  (forall x, x <> gp -> x <> gc ->
     descs (r_mem w') !! x = descs (r_mem w) !! x /\ tables (r_mem w') !! x = tables (r_mem w) !! x) ->
  F !! (g0, i0) = Some T0 -> (g0, i0) <> (g, i) -> owns w g0 i0 rd0 ctx0 T0 ->
  0 <= a < 2 ^ ipa_bits ctx0 -> translate ctx0 (r_mem w') a = translate ctx0 (r_mem w) a.
Proof.
  intros Hinv HF Hgp Hgc Hfr H0 Hn Hown Ha. destruct (owns_ctx_ok _ _ _ _ _ _ Hown) as [lpa2 Hctx].
  eapply translate_frame; [exact Hctx|apply (own_tree _ _ _ _ _ _ Hown)| |done]. intros x l Hx.
  assert (x <> gp) by (intros ->; by apply Hn, (inv_disjoint _ _ Hinv _ _ T0 T gp l lp)).
  assert (x <> gc) by (intros ->; by apply Hn, (Hgc _ _ _ H0 Hx)). by destruct (Hfr x) as [-> ->].
Qed.

Lemma created_restructured w w' F g i rd ctx T gp lp j gc rtt_addr addr :
  inv w F -> F !! (g, i) = Some T -> owns w g i rd ctx T -> created w w' rd ctx T gp lp j gc rtt_addr addr ->
  restructured w w' F (<[(g, i) := <[gc := lp + 1]> T]> F) gp gc.
Proof.
  intros Hinv HF Hown Hcr. destruct (owns_ctx_ok _ _ _ _ _ _ Hown) as [lpa2 Hctx].
  pose proof (own_tree _ _ _ _ _ _ Hown) as HT. pose proof (created_mem _ _ _ _ _ _ _ _ _ _ _ Hcr) as [Hrds Hfr].
  pose proof (created_tree _ _ _ _ _ _ _ _ _ _ _ _ Hctx HT Hcr) as HT'.
  assert (Hno : forall k T0 l, F !! k = Some T0 -> T0 !! gc = Some l -> k = (g, i)).
  { intros [g0 i0] T0 l H0 Hl. destruct (inv_own _ _ Hinv _ _ _ H0) as (rd0 & ctx0 & [_ _ _ _ HT0]).
    by rewrite (not_in_tree _ _ _ _ _ HT0 (cr_old _ _ _ _ _ _ _ _ _ _ _ Hcr)) in Hl. }
  pose proof Hcr as [Hgp Hlv Hne Hj Hold Hnm (k & pa & e & v & tp & tp' & tc & base & evs & Htp & Hltp & He & Hk & Hb & Hbv &
    Hset & Hok & Hltc & Hbt & Hf & _ & Hw')].
  pose proof (arr_set_length _ _ _ _ Hset) as Hltp'. rewrite Hltp in Hltp'.
  pose proof (table_refs_range ctx lp tp') as Hr1. rewrite Hltp' in Hr1. unfold N_S2TTES in Hr1.
  split; try done; [|by subst w'|].
  - eapply (inv_upd w w' F g i rd ctx T _ gp lp (table_refs ctx lp tp') tp' gc
      (AGranule false GRANULE_STATE_RTT (table_refs ctx (lp + 1) tc)) tc); try done; try lia; [by subst w'| | |].
    + exact (proj1 (ref_ok_table ctx (lp + 1) tc Hltc)).
    + exact (proj2 (ref_ok_table ctx (lp + 1) tc Hltc)).
    + intros x l [[<- _]|[_ Hx]]%lookup_insert_Some; [by left|right; eauto].
  - intros g0 i0 T0 rd0 ctx0 a H0 Hown0 Ha. destruct (decide ((g0, i0) = (g, i))) as [[= -> ->]|Hn].
    + destruct (owns_unique _ _ _ _ _ _ _ _ _ Hown Hown0) as [-> ->]. by eapply created_translate.
    + by eapply (others_translate w w' F g i T gp lp gc g0 i0 T0 rd0).
Qed.


Lemma create_ok w F rd_addr rtt_addr map_addr ulevel idx aux :
  inv w F -> 0 <= rtt_addr -> 0 <= map_addr -> 0 <= idx ->
  runs (rtt_create rd_addr rtt_addr map_addr ulevel idx aux) w (fun status w' =>
    (status <> RMI_SUCCESS /\ create_refused w rd_addr rtt_addr map_addr (to_long ulevel) idx aux status /\ w' = w) \/
    (status = RMI_SUCCESS /\ exists g rd ctx T gp j gc,
       names_rd w rd_addr g /\ owns w g (cmd_index aux idx) rd ctx T /\ F !! (g, cmd_index aux idx) = Some T /\
       0 <= map_addr < 2 ^ ipa_bits ctx /\
       created w w' rd ctx T gp (to_long ulevel - 1) j gc rtt_addr map_addr)).
Proof.
  intros Hinv Hra Hma Hidx. unfold rtt_create. set (level := to_long ulevel). apply runs_bind. apply (lock_rd w F); [done| |].
  { intros st Hst Hwhy. cbn [fst]. rewrite (proj2 (Z.eqb_neq st RMI_SUCCESS)) by done. cbn [negb]. apply runs_ret. left.
    split; [done|]. split; [by apply ref_rd|done]. }
  intros g Hg. cbn [fst snd]. rewrite Z.eqb_refl. cbn [negb]. eapply runs_bind, runs_lift; [done|].
  pose proof Hg as (Hga & r & Hrg). destruct (inv_rd _ _ Hinv g r Hrg) as (rd & lpa2 & bits & sl & Hrd & Hok & HF).
  eapply runs_bind, runs_get; [exact Hrd|]. apply runs_bind.
  assert (Herr : forall st, st <> RMI_SUCCESS -> create_refused w rd_addr rtt_addr map_addr level idx aux st ->
    runs (_ <-! h_granule_unlock g ;; ret st) (with_mem w (with_lock (r_mem w) g)) (fun status w' =>
    (status <> RMI_SUCCESS /\ create_refused w rd_addr rtt_addr map_addr (to_long ulevel) idx aux status /\ w' = w) \/
    (status = RMI_SUCCESS /\ exists g rd ctx T gp j gc,
       names_rd w rd_addr g /\ owns w g (cmd_index aux idx) rd ctx T /\ F !! (g, cmd_index aux idx) = Some T /\
       0 <= map_addr < 2 ^ ipa_bits ctx /\
       created w w' rd ctx T gp (level - 1) j gc rtt_addr map_addr))).
  { intros st Hst Hwhy. apply runs_bind. eapply unlock_rd; [exact Hg| |done]. apply runs_ret. by left. }
  unfold rtt_create_rd. destruct (structure_valid rd lpa2 bits sl map_addr level Hok Hma) as (b & Hb & Hbt).
  eapply runs_bind, runs_lift; [exact Hb|]. destruct b; cbn [negb]; [|apply runs_ret; apply Herr; [done|]; eapply ref_args; eauto].
  destruct (Hbt eq_refl) as (Hlv & Hlt & Hd).
  destruct (cmd_ctx rd lpa2 bits sl aux idx map_addr Hok Hidx) as (sel & Hsel & Hctx).
  eapply runs_bind, runs_lift; [exact Hsel|]. destruct sel as [ctx|]; [|apply runs_ret; apply Herr; [done|]; eapply ref_args; eauto].
  destruct (Hctx ctx eq_refl) as [Hi Hc]. destruct (Z.leb_spec (s2oa_limit ctx) rtt_addr);
    [apply runs_ret; apply Herr; [done|]; eapply ref_args; eauto 6|].
  destruct (realm_tree _ _ _ _ _ _ Hinv Hrd HF Hi Hc) as (T & HT & Hown).
  pose proof (rtts_planes _ _ _ _ _ Hok Hi) as Hip.
  destruct (rd_ctx_ok _ _ _ _ Hok _ _ Hip Hc) as (_ & Hbits & _).
  apply (create_walk_ok w F rd_addr g rd lpa2 bits sl (cmd_index aux idx) ctx T); try done; [by destruct Hown| |].
  { intros st gp l Hst Hvis Hl Hstop Hwhy. apply Herr; [done|]. eapply ref_stop; eauto. }
  intros w' gp j gc Hcr Hgc Hgp. apply runs_bind. eapply (unlock_rd w' rd_addr g); [|apply runs_ret|done].
  - split; [done|]. exists r. eapply granule_at_descs; [|exact Hrg].
    apply (created_mem _ _ _ _ _ _ _ _ _ _ _ Hcr); by apply not_eq_sym.
  - right. split; [done|]. exists g, rd, ctx, T, gp, j, gc. split_and!; try done. by rewrite Hbits.
Qed.



End Create.
