(* ===== verification/RttUnlink.v ===== *)
(** * RMI_RTT_FOLD, RMI_RTT_DESTROY and their AUX variants

    Both replace a table entry by an entry that is none and give the child back
    to the host; fold keeps every translation, destroy keeps those outside the
    range of the entry. *)

From Stdlib Require Import ZArith Lia Bool ZifyBool.
From stdpp Require Import base tactics option list numbers gmap.
From S2P Require Import Prelude.
From S2P Require Import Smc.
From S2P Require Import Utils.
From S2P Require Import Status.
From S2P Require Import Granule.
From S2P Require Import Mem.
From S2P Require Import Arch.
From S2P Require Import S2tte.
From S2P Require Import S2tteFacts.
From S2P Require Import S2tteProps.
From S2P Require Import S2tlbi.
From S2P Require Import S2ttTable.
From S2P Require Import S2ttWalk.
From S2P Require Import RttFold.
From S2P Require Import RttFoldProps.
From S2P Require Import Realm.
From S2P Require Import RttTree.
From S2P Require Import Rmm.
From S2P Require Import RttCmds.
From S2P Require Import RttInv.
From S2P Require Import RttPath.
From S2P Require Import RttRefuse.
From S2P Require Import RttCreate.

Section Unlink.
Context `{feat : ArchFeatures} `{lookup : GranuleLookup} `{smmu : SmmuDriver}.
Context (smmu_ok : forall vs addr level num leaf, smmuv3_inv_at_level_per_vmids vs addr level num leaf = 0).
Implicit Types (w x : rmm) (F : forest) (rd : rd) (ctx : s2tt_context) (T : tree).

(** ** Auxiliary references *)

(** The search walks trees that are idle and leaves everything as it was. *)
Lemma aux_loop_ok rd lpa2 bits sl ipa x n i (Q : bool -> rmm -> Prop) :
  rd_ok rd lpa2 bits sl -> 0 <= ipa < 2 ^ bits ->
  (forall j ctx, 1 <= j < realm_num_planes rd -> arr_get (s2_ctxs rd) j = Some ctx ->
     exists T, rtt_inv ctx (r_mem x) T) ->
  0 <= i -> i + Z.of_nat n < realm_num_planes rd -> Q false x -> (aux_referenced x rd ipa -> Q true x) ->
  runs (aux_ref_loop rd ipa n i) x Q.
Proof.
  intros Hr Ha HT. revert i. induction n as [|n IH]; intros i Hi Hn HQ HQt; cbn [aux_ref_loop]; [by apply runs_ret|].
  destruct (rd_get_ctx rd lpa2 bits sl (i + 1) Hr ltac:(lia)) as [ctx Hc].
  destruct (rd_ctx_ok _ _ _ _ Hr (i + 1) ctx ltac:(lia) Hc) as (Hctx & Hbits & Hsl & _).
  destruct (HT (i + 1) ctx ltac:(lia) Hc) as [T Hinv]. pose proof (rtt_inv_tree _ _ _ Hinv) as Ht.
  assert (Hr0 : T !! g_rtt ctx = Some (s2_starting_level ctx)) by (by destruct (ri_roots _ _ _ Hinv) as (ra & _ & _ & H & _)).
  eapply runs_bind, runs_lift; [exact Hc|]. apply runs_bind. eapply runs_on_mem; [eapply lock_table; [exact Ht|exact Hr0]|].
  destruct Hctx as [Hl Hb Hs H16 Hf] eqn:E; clear E.
  destruct (walk_ok ctx (r_mem x) T ipa (s2_starting_level ctx) lpa2 Hctx Ht (ri_roots _ _ _ Hinv) ltac:(by rewrite Hbits)
    ltac:(destruct lpa2; lia)) as (root & wi & Hw & Hroot & Hpw & Hix & Hidx & HTg & _).
  replace (Z.to_nat (s2_starting_level ctx - s2_starting_level ctx)) with O in Hpw by lia. injection Hpw as Hgw Hlw.
  apply runs_bind. eapply runs_on_mem; [exact Hw|]. destruct (tree_table_at _ _ _ _ _ Hinv HTg) as (t & Htb & Hlen & _).
  eapply runs_bind, runs_get; [exact Htb|].
  destruct (arr_get_some t (index wi)) as [e He]; [rewrite Hlen; unfold N_S2TTES, S2TTES_PER_S2TT in *; lia|].
  eapply runs_bind, runs_lift; [exact He|]. apply runs_bind. eapply runs_on_mem; [eapply unlock_table; [exact Ht|exact HTg]|].
  rewrite !with_mem_mem, with_mem_id. destruct (s2tte_is_unassigned_ns ctx e) eqn:Hns; cbn [negb]; [apply IH; try done; lia|].
  apply runs_ret, HQt. exists (i + 1), ctx, root, e. rewrite Hgw in Htb. rewrite Hlw in Hix.
  split_and!; try done; try lia; [by apply v_root|exists t; by rewrite <- Hix].
Qed.

Lemma aux_check_ok rd lpa2 bits sl ctx addr level aux in_par x (Q : bool -> rmm -> Prop) :
  rd_ok rd lpa2 bits sl -> 0 <= addr < 2 ^ bits ->
  (aux = false -> rtt_tree_pp rd = true -> forall j ctx, 1 <= j < realm_num_planes rd -> arr_get (s2_ctxs rd) j = Some ctx ->
     exists T, rtt_inv ctx (r_mem x) T) ->
  Q false x -> (aux = false -> in_par = false -> rtt_tree_pp rd = true -> s2_starting_level ctx < level ->
     aux_referenced x rd addr -> Q true x) ->
  runs (aux_ref_check rd ctx addr level aux in_par) x Q.
Proof.
  intros Hr Ha HT HQ HQt. unfold aux_ref_check, ipa_is_aux_ref. pose proof (num_planes_eq _ _ _ _ Hr) as [Hp Hn].
  pose proof (rd_planes _ _ _ _ Hr). destruct aux; [by apply runs_ret|]. destruct in_par; [by apply runs_ret|].
  destruct (rtt_tree_pp rd); [|by apply runs_ret]. cbn [negb andb].
  destruct (Z.ltb_spec (s2_starting_level ctx) level); [|by apply runs_ret]. eapply aux_loop_ok; eauto; lia.
Qed.

(** ** Breaking and replacing the parent entry *)

(** The tail both commands share, with [gc] locked and unreferenced. *)
Lemma relink_ok {A} rd lpa2 bits sl i ctx addr level (whole : bool) p gp j gc tp tp' (K : H A) x (Q : A -> rmm -> Prop) :
  rd_ok rd lpa2 bits sl -> 0 <= i < realm_num_planes rd -> arr_get (s2_ctxs rd) i = Some ctx ->
  0 <= addr < 2 ^ bits -> sl + 1 <= level <= 3 -> (s2tte_map_size (level - 1) | addr) ->
  gp <> gc -> tables (r_mem x) !! gp = Some tp -> arr_set tp j p = Some tp' ->
  descs (r_mem x) !! gc = Some (encode GRN (AGranule true GRANULE_STATE_RTT 0)) ->
  (forall evs, bbm_events rd ctx (r_vttbr x) addr (if whole then s2tte_map_size (level - 1) else GRANULE_SIZE)
       (if whole then level else S2TT_PAGE_LEVEL) (if whole then S2TTES_PER_S2TT else 1) false gp j p evs ->
     runs K (with_log (with_mem x
       (Mem (<[gc := encode GRN (AGranule false GRANULE_STATE_DELEGATED 0)]> (descs (r_mem x)))
            (<[gp := tp']> (tables (r_mem x))))) evs) Q) ->
  runs (_ <-! s2tte_write gp j 0 ;;
        _ <-! (if whole then invalidate_pages_in_block ctx rd addr level
               else invalidate_page_block ctx rd addr level false) ;;
        _ <-! s2tte_write gp j p ;;
        _ <-! h_on_desc gc granule_unlock_transition_to_delegated ;; K) x Q.
Proof.
  intros Hr Hi Hc Ha Hlv Hd Hne Htp Hset Hgc HQ. assert (Hj : 0 <= j < Z.of_nat (length tp)).
  { unfold arr_set in Hset. inv_some Hset. lia. }
  destruct (rd_ctx_ok _ _ _ _ Hr i ctx Hi Hc) as ([Hl _ Hs _ _] & _ & Hsl & _).
  pose proof (arr_set_some tp j 0 Hj) as Hset0. eapply runs_bind, runs_write; [exact Htp|exact Hset0|].
  apply runs_bind. apply (invalidate_ok smmu_ok rd lpa2 bits sl i ctx addr (level - 1) whole level false); try done;
    [destruct lpa2; lia|intros; lia|]. intros fl Hfl.
  apply runs_bind. eapply runs_write; [cbn; apply lookup_insert_eq|by rewrite (arr_set_set _ _ _ _ p Hset0)|].
  apply runs_bind. eapply runs_on_desc; [exact Hgc|exact rtt_to_delegated|].
  assert (Hev : bbm_events rd ctx (r_vttbr x) addr (if whole then s2tte_map_size (level - 1) else GRANULE_SIZE)
       (if whole then level else S2TT_PAGE_LEVEL) (if whole then S2TTES_PER_S2TT else 1) false gp j p
       (E_write gp j 0 :: fl ++ [E_write gp j p])) by (exists fl; split; [by destruct whole|done]).
  specialize (HQ _ Hev). unfold with_log, with_mem, set_table, set_granule in *. cbn in *.
  by rewrite <- !app_assoc, insert_insert_eq.
Qed.


(** ** What the commands do *)

(** Entry [j] of [gp], the table entry for [gc] at [rtt_addr], became [p], of kind
    [k]; [gc] is delegated again. *)
Record unlinked w w' rd ctx T (gp lp j gc rtt_addr addr : Z) (k : s2tte_kind) (p : Z) (whole : bool) : Prop := {
  ul_parent : T !! gp = Some lp;
  ul_level : (if default false (s2tt_lpa2_enabled ctx) then -1 else 0) <= lp < 3;
  ul_points : points ctx (r_mem w) T gp j gc;
  ul_visits : visits ctx (r_mem w) addr gp lp /\ j = s2_addr_to_idx addr lp;
  ul_name : tr_addr_to_granule rtt_addr = Some gc;
  ul_kind : k <> K_table /\ exists base, built ctx lp k base p;
  ul_entry : exists e tp tp' tc evs,
    tables (r_mem w) !! gp = Some tp /\ arr_get tp j = Some e /\ built ctx lp K_table rtt_addr e /\
    arr_set tp j p = Some tp' /\ tables (r_mem w) !! gc = Some tc /\
    bbm_events rd ctx (r_vttbr w) addr (if whole then s2tte_map_size lp else GRANULE_SIZE)
      (if whole then lp + 1 else S2TT_PAGE_LEVEL) (if whole then S2TTES_PER_S2TT else 1) false gp j p evs /\
    w' = with_log (with_mem w (mem_upd (r_mem w)
           gp (AGranule false GRANULE_STATE_RTT (table_refs ctx lp tp')) tp'
           gc (AGranule false GRANULE_STATE_DELEGATED 0) tc)) evs
}.

(** The parent entry, once known to be a table entry. *)
Lemma parent_is_table ctx lpa2 m T gp lp tp j e :
  s2tt_lpa2_enabled ctx = Some lpa2 -> -1 <= lp < 3 -> rtt_inv ctx m T -> T !! gp = Some lp ->
  tables m !! gp = Some tp -> arr_get tp j = Some e -> entry_ok ctx lp e -> s2tte_is_table ctx e lp = true ->
  exists pa gc, built ctx lp K_table pa e /\ s2tte_pa ctx e lp = Some pa /\ tr_addr_to_granule pa = Some gc /\
    T !! gc = Some (lp + 1) /\ points ctx m T gp j gc.
Proof.
  intros Hl Hlv HT Hgp Htp He Hok Hit.
  assert (Hb : exists pa, built ctx lp K_table pa e).
  { destruct Hok as [Hm|(k & pa & Hb)].
    - destruct (marked_kind ctx lpa2 lp e Hl ltac:(lia) Hm) as (k & Hk & H). pose proof (H K_table) as H1. cbn [is_kind] in H1.
      rewrite Hit in H1. injection H1 as H1. symmetry in H1. apply bool_decide_eq_true in H1 as ->. done.
    - exists pa. rewrite (built_is_table ctx lpa2 lp k pa e Hl ltac:(lia) Hb) in Hit. by apply bool_decide_eq_true in Hit as ->. }
  destruct Hb as [pa Hb]. destruct (built_table_entry ctx lpa2 lp K_table pa e Hl Hlv Hb) as [Hent Hph].
  rewrite bool_decide_true in Hent by done.
  destruct (ri_next _ _ _ HT gp lp tp j e Hgp Htp (proj2 Hlv) He Hent) as (pa' & gc & H1 & H2 & H3).
  rewrite (Hph eq_refl) in H1. injection H1 as <-. exists pa, gc. split_and!; try done.
  - by apply (built_pa ctx lpa2 lp K_table).
  - exists lp, tp, e, pa. unfold S2TT_PAGE_LEVEL. split_and!; try done; [lia|by apply Hph].
Qed.

(** Counts: the parent loses one reference exactly when [p] holds none. *)
Lemma refs_from_table ctx lpa2 level k pa pa' t t' j e p :
  s2tt_lpa2_enabled ctx = Some lpa2 -> -1 <= level <= 3 ->
  built ctx level K_table pa' e -> built ctx level k pa p -> k <> K_table ->
  arr_get t j = Some e -> arr_set t j p = Some t' ->
  table_refs ctx level t' = table_refs ctx level t - (if unfold_get k then 1 else 0).
Proof.
  intros Hl Hlv He Hp Hk Hg Hs. rewrite (table_refs_set ctx level t j e p t' Hg Hs).
  rewrite (entry_refs_built ctx lpa2 level k pa p Hl Hlv Hp), (entry_refs_built ctx lpa2 level K_table pa' e Hl Hlv He).
  destruct k; try done; cbn [kind_refs unfold_get unfold_refs is_leaf kind_live]; cbn; lia.
Qed.

Lemma table_refs_pos ctx lpa2 level pa t j e :
  s2tt_lpa2_enabled ctx = Some lpa2 -> -1 <= level <= 3 -> built ctx level K_table pa e -> arr_get t j = Some e ->
  1 <= table_refs ctx level t.
Proof.
  intros Hl Hlv Hb He. destruct (decide (table_refs ctx level t = 0)) as [Hz|].
  - pose proof (table_refs_zero ctx level t j e Hz He) as H.
    by rewrite (entry_refs_built ctx lpa2 level K_table pa e Hl Hlv Hb) in H.
  - pose proof (table_refs_range ctx level t). lia.
Qed.

Lemma valid_leaves_ok ctx lpa2 level k base p :
  s2tt_lpa2_enabled ctx = Some lpa2 -> -1 <= level <= 3 -> built ctx level k base p ->
  valid_leaves ctx p level = Some (unfold_bbm k).
Proof.
  intros Hl Hlv Hb. pose proof (fun k' => built_is_kind ctx lpa2 level k base p k' Hl Hlv Hb) as H.
  unfold valid_leaves. rewrite (H K_assigned_ram : s2tte_is_assigned_ram _ _ _ = _). cbn [mbind option_bind].
  rewrite (H K_assigned_ns : s2tte_is_assigned_ns _ _ _ = _). cbn [mbind option_bind].
  rewrite (H K_assigned_dev_dev : s2tte_is_assigned_dev_dev _ _ _ = _). by destruct k.
Qed.

(** The state in which both commands replace the entry: RD, parent and child
    locked; and the state they leave, RD and parent locked. *)
Lemma release2 m g_rd r gp rp rp' tp' gc rc tc :
  granule_at m g_rd (AGranule false GRANULE_STATE_RD r) ->
  granule_at m gp (AGranule false GRANULE_STATE_RTT rp) ->
  granule_at m gc (AGranule false GRANULE_STATE_RTT rc) -> tables m !! gc = Some tc ->
  gp <> g_rd -> gc <> g_rd -> gp <> gc ->
  Mem (<[gc := encode GRN (AGranule false GRANULE_STATE_DELEGATED 0)]>
        (<[gp := encode GRN (AGranule true GRANULE_STATE_RTT rp')]> (descs (with_lock m g_rd))))
      (<[gp := tp']> (tables m))
  = with_lock (with_lock (mem_upd m gp (AGranule false GRANULE_STATE_RTT rp') tp'
                            gc (AGranule false GRANULE_STATE_DELEGATED 0) tc) g_rd) gp.
Proof.
  intros Hr Hp Hc Ht H1 H2 H3. apply mem_ext; cbn.
  - intros x. destruct (decide (x = gc)) as [->|Hxc].
    { rewrite lookup_insert_eq, !lookup_alter_ne, lookup_insert_ne, lookup_insert_eq by done. done. }
    rewrite lookup_insert_ne by done. destruct (decide (x = gp)) as [->|Hxp].
    { rewrite lookup_insert_eq, lookup_alter_eq, lookup_alter_ne, lookup_insert_eq by done. cbn. f_equal.
      unfold encode. cbn. lia. }
    rewrite lookup_insert_ne, (lookup_alter_ne _ _ gp) by done. destruct (decide (x = g_rd)) as [->|Hxr].
    + rewrite !lookup_alter_eq, !lookup_insert_ne by done. done.
    + rewrite !lookup_alter_ne, !lookup_insert_ne by done. done.
  - intros x. destruct (decide (x = gp)) as [->|]; [by rewrite !lookup_insert_eq|]. rewrite !lookup_insert_ne by done.
    destruct (decide (x = gc)) as [->|]; [by rewrite lookup_insert_eq|by rewrite lookup_insert_ne].
Qed.


(** What is known when a command has found the parent entry to be a table entry. *)
Record at_parent w rd lpa2 bits sl g_rd i ctx T wi (addr level : Z) tp e pa gc tc : Prop := {
  ap_rd : exists rd_addr, names_rd w rd_addr g_rd;
  ap_ok : rd_ok rd lpa2 bits sl;
  ap_i : 0 <= i < realm_num_planes rd;
  ap_ctx : arr_get (s2_ctxs rd) i = Some ctx;
  ap_tree : rtt_inv ctx (r_mem w) T;
  ap_addr : 0 <= addr < 2 ^ bits /\ sl + 1 <= level <= 3 /\ (s2tte_map_size (level - 1) | addr);
  ap_walk : T !! g_llt wi = Some (level - 1) /\ last_level wi = level - 1;
  ap_visits : visits ctx (r_mem w) addr (g_llt wi) (level - 1) /\ index wi = s2_addr_to_idx addr (level - 1);
  ap_table : tables (r_mem w) !! g_llt wi = Some tp /\ length tp = N_S2TTES /\ arr_get tp (index wi) = Some e;
  ap_entry : built ctx (level - 1) K_table pa e /\ s2tte_pa ctx e (level - 1) = Some pa;
  ap_child : tr_addr_to_granule pa = Some gc /\ T !! gc = Some level /\ points ctx (r_mem w) T (g_llt wi) (index wi) gc;
  ap_contents : tables (r_mem w) !! gc = Some tc /\ length tc = N_S2TTES /\
    granule_at (r_mem w) gc (AGranule false GRANULE_STATE_RTT (table_refs ctx level tc)) /\
    forall j u, arr_get tc j = Some u -> entry_ok ctx level u
}.

(** The granules involved are distinct, and the level is one a table can have. *)
Lemma at_parent_ne w rd lpa2 bits sl g_rd i ctx T wi addr level tp e pa gc tc :
  at_parent w rd lpa2 bits sl g_rd i ctx T wi addr level tp e pa gc tc ->
  g_llt wi <> g_rd /\ gc <> g_rd /\ g_llt wi <> gc /\
  s2tt_lpa2_enabled ctx = Some lpa2 /\ (if lpa2 then -1 else 0) <= level - 1 < 3.
Proof.
  intros [(ra & _ & r & Hrg) Hr Hi Hc HT (_ & Hlv & _) [Hgp _] _ _ _ (_ & Hgc & _) _].
  pose proof (not_in_tree _ _ _ _ _ HT Hrg ltac:(done)) as Hno.
  destruct (rd_ctx_ok _ _ _ _ Hr i ctx Hi Hc) as ([Hl _ Hs _ _] & _ & Hsl & _).
  split_and!; try congruence; [|destruct lpa2; lia|lia].
  intros E. rewrite E, Hgc in Hgp. injection Hgp as Hgp. lia.
Qed.

(** The parent's own granule and the states with two and three locks. *)
Lemma at_parent_descs w rd lpa2 bits sl g_rd i ctx T wi addr level tp e pa gc tc :
  at_parent w rd lpa2 bits sl g_rd i ctx T wi addr level tp e pa gc tc ->
  let m2 := with_lock (with_lock (r_mem w) g_rd) (g_llt wi) in
  granule_at m2 gc (AGranule false GRANULE_STATE_RTT (table_refs ctx level tc)) /\
  descs m2 !! g_llt wi = Some (encode GRN (AGranule true GRANULE_STATE_RTT (table_refs ctx (level - 1) tp))) /\
  descs (with_lock m2 gc) !! gc = Some (encode GRN (AGranule true GRANULE_STATE_RTT (table_refs ctx level tc))) /\
  descs (with_lock m2 gc) !! g_llt wi = Some (encode GRN (AGranule true GRANULE_STATE_RTT (table_refs ctx (level - 1) tp))) /\
  0 <= table_refs ctx (level - 1) tp <= 512 /\ 0 <= table_refs ctx level tc <= 512 /\ 1 <= table_refs ctx (level - 1) tp /\
  exists r rp, granule_at (r_mem w) g_rd (AGranule false GRANULE_STATE_RD r) /\
    granule_at (r_mem w) (g_llt wi) (AGranule false GRANULE_STATE_RTT rp).
Proof.
  intros Hap m2. destruct (at_parent_ne _ _ _ _ _ _ _ _ _ _ _ _ _ _ _ _ _ Hap) as (N1 & N2 & N3 & Hl & Hlv).
  destruct Hap as [(ra & _ & r & Hrg) Hr Hi Hc HT _ [Hgp _] _ (Htp & Hltp & He) [Hb _] _ (Htc & Hltc & Hgg & _)].
  destruct (tree_table_at _ _ _ _ _ HT Hgp) as (tp2 & Htp2 & _ & Hrp & Hpg & _).
  assert (tp2 = tp) as -> by congruence.
  assert (Hpg1 : granule_at (with_lock (r_mem w) g_rd) (g_llt wi) (AGranule false GRANULE_STATE_RTT (table_refs ctx (level - 1) tp)))
    by (by apply granule_at_with_lock_ne).
  assert (Hgg2 : granule_at m2 gc (AGranule false GRANULE_STATE_RTT (table_refs ctx level tc)))
    by (apply granule_at_with_lock_ne; [by apply not_eq_sym|]; by apply granule_at_with_lock_ne).
  assert (Hd2 : descs m2 !! g_llt wi = Some (encode GRN (AGranule true GRANULE_STATE_RTT (table_refs ctx (level - 1) tp))))
    by (by apply locked_desc).
  pose proof (table_refs_range ctx level tc) as Hrc. rewrite Hltc in Hrc. unfold N_S2TTES in Hrc.
  pose proof (table_refs_pos ctx lpa2 (level - 1) pa tp (index wi) e Hl ltac:(destruct lpa2; lia) Hb He) as Hpos.
  split_and!; try done; try lia; [by apply locked_desc|by rewrite with_lock_desc_ne|by exists r, (table_refs ctx (level - 1) tp)].
Qed.

(** The final state of a successful unlink, as the record has it. *)
Lemma unlink_done w rd lpa2 bits sl g_rd i ctx T wi addr level tp e pa gc tc k base p tp' whole evs ds :
  at_parent w rd lpa2 bits sl g_rd i ctx T wi addr level tp e pa gc tc ->
  k <> K_table -> built ctx (level - 1) k base p -> arr_set tp (index wi) p = Some tp' ->
  bbm_events rd ctx (r_vttbr w) addr (if whole : bool then s2tte_map_size (level - 1) else GRANULE_SIZE)
    (if whole then level else S2TT_PAGE_LEVEL) (if whole then S2TTES_PER_S2TT else 1) false (g_llt wi) (index wi) p evs ->
  (forall y : Z, y <> gc -> ds !! y = <[g_llt wi := encode GRN (AGranule true GRANULE_STATE_RTT (table_refs ctx (level - 1) tp'))]>
     (descs (with_lock (r_mem w) g_rd)) !! y) ->
  exists w', unlinked w w' rd ctx T (g_llt wi) (level - 1) (index wi) gc pa addr k p whole /\
    with_mem w' (with_lock (with_lock (r_mem w') g_rd) (g_llt wi)) =
    with_log (with_mem w (Mem (<[gc := encode GRN (AGranule false GRANULE_STATE_DELEGATED 0)]> ds)
                              (<[g_llt wi := tp']> (tables (r_mem w))))) evs.
Proof.
  intros Hap Hk Hb Hset Hev Hds. destruct (at_parent_ne _ _ _ _ _ _ _ _ _ _ _ _ _ _ _ _ _ Hap) as (N1 & N2 & N3 & Hl & Hlv).
  destruct (at_parent_descs _ _ _ _ _ _ _ _ _ _ _ _ _ _ _ _ _ Hap) as (_ & _ & _ & _ & _ & _ & _ & r & rp & Hrg & Hpg).
  destruct Hap as [_ Hr Hi Hc HT (_ & Hlv' & _) [Hgp _] Hvis (Htp & Hltp & He) [Hbe _] (Hnm & Hgc & Hpt) (Htc & Hltc & Hgg & _)].
  exists (with_log (with_mem w (mem_upd (r_mem w)
           (g_llt wi) (AGranule false GRANULE_STATE_RTT (table_refs ctx (level - 1) tp')) tp'
           gc (AGranule false GRANULE_STATE_DELEGATED 0) tc)) evs). split.
  - split; try done; [rewrite Hl; cbn; lia|by split; [|exists base]|].
    exists e, tp, tp', tc, evs. replace (level - 1 + 1) with level by lia. by split_and!.
  - unfold with_mem, with_log. cbn [r_mem r_rds r_vttbr r_log]. f_equal. symmetry.
    rewrite <- (release2 (r_mem w) g_rd r (g_llt wi) rp _ tp' gc _ tc Hrg Hpg Hgg Htc N1 N2 N3). f_equal.
    apply map_eq. intros x. destruct (decide (x = gc)) as [->|Hx]; [by rewrite !lookup_insert_eq|].
    rewrite !(lookup_insert_ne _ gc) by done. by apply Hds.
Qed.


(** ** Fold *)

(** What a successful fold found in the child. *)
Definition folds ctx (m : mem) (level gc : Z) (k : s2tte_kind) (p : Z) : Prop :=
  exists tc base, tables m !! gc = Some tc /\ length tc = N_S2TTES /\
    (forall j u, arr_get tc j = Some u -> entry_ok ctx level u) /\ fold_refines ctx level tc k base p.

(** The counter statement of a fold: the parent loses a reference, or the child
    loses all of them. *)
Lemma fold_counts {A} w rd lpa2 bits sl g_rd i ctx T wi addr level tp e pa gc tc k base p tp' (K : H A) (Q : A -> rmm -> Prop) :
  at_parent w rd lpa2 bits sl g_rd i ctx T wi addr level tp e pa gc tc ->
  k <> K_table -> built ctx (level - 1) k base p -> arr_set tp (index wi) p = Some tp' ->
  table_refs ctx level tc = unfold_refs k ->
  let m3 := with_lock (with_lock (with_lock (r_mem w) g_rd) (g_llt wi)) gc in
  (forall ds, ds !! gc = Some (encode GRN (AGranule true GRANULE_STATE_RTT 0)) ->
     (forall y : Z, y <> gc -> ds !! y =
        <[g_llt wi := encode GRN (AGranule true GRANULE_STATE_RTT (table_refs ctx (level - 1) tp'))]>
          (descs (with_lock (r_mem w) g_rd)) !! y) ->
     runs K (with_mem w (Mem ds (tables (r_mem w)))) Q) ->
  runs (_ <-! (if unfold_get k then h_on_desc (g_llt wi) atomic_granule_put
               else h_on_desc gc (fun d => granule_refcount_dec d (unfold_refs k))) ;; K) (with_mem w m3) Q.
Proof.
  intros Hap Hk Hb Hset Hrefs m3 HK. destruct (at_parent_ne _ _ _ _ _ _ _ _ _ _ _ _ _ _ _ _ _ Hap) as (N1 & N2 & N3 & Hl & Hlv).
  destruct (at_parent_descs _ _ _ _ _ _ _ _ _ _ _ _ _ _ _ _ _ Hap) as (_ & Hd2 & Hdc & Hdp & Hrp & Hrc & Hpos & _).
  pose proof (ap_table _ _ _ _ _ _ _ _ _ _ _ _ _ _ _ _ _ Hap) as (Htp & Hltp & He).
  pose proof (ap_entry _ _ _ _ _ _ _ _ _ _ _ _ _ _ _ _ _ Hap) as [Hbe _].
  pose proof (refs_from_table ctx lpa2 (level - 1) k base pa tp tp' _ e p Hl ltac:(destruct lpa2; lia) Hbe Hb Hk He Hset) as Hrp'.
  apply runs_bind. destruct (unfold_get k) eqn:Hg.
  - assert (Hz : table_refs ctx level tc = 0) by (rewrite Hrefs; unfold unfold_get in Hg; lia).
    eapply runs_on_desc; [exact Hdp|apply (dec_locked _ _ 1); try done; lia|]. apply HK; cbn.
    + rewrite lookup_insert_ne by done. etransitivity; [exact Hdc|by rewrite Hz].
    + intros y Hy. rewrite Hrp'. destruct (decide (y = g_llt wi)) as [->|]; [by rewrite !lookup_insert_eq|].
      rewrite !lookup_insert_ne by done. by rewrite (lookup_alter_ne _ _ gc), (lookup_alter_ne _ _ (g_llt wi)) by done.
  - eapply runs_on_desc; [exact Hdc|rewrite Hrefs in *; apply dec_locked; try done; lia|]. rewrite Z.sub_diag. apply HK; cbn.
    + apply lookup_insert_eq.
    + intros y Hy. rewrite (lookup_insert_ne _ gc), (lookup_alter_ne _ _ gc) by done.
      destruct (decide (y = g_llt wi)) as [->|]; [|by rewrite lookup_insert_ne, (lookup_alter_ne _ _ (g_llt wi)) by done].
      rewrite lookup_insert_eq. rewrite Hrp', Z.sub_0_r. exact Hd2.
Qed.

Lemma fold_child_ok w rd lpa2 bits sl g_rd i ctx T wi addr level tp e pa gc tc aux res (Q : Z * smc_result -> rmm -> Prop) :
  at_parent w rd lpa2 bits sl g_rd i ctx T wi addr level tp e pa gc tc ->
  let x1 := with_mem w (with_lock (with_lock (r_mem w) g_rd) (g_llt wi)) in
  (forall st, st <> RMI_SUCCESS ->
     rtt_fold_table ctx aux tc (table_refs ctx level tc) level (level - 1) = Some (Fold_ret st) -> Q (st, res) x1) ->
  (forall w' k p, unlinked w w' rd ctx T (g_llt wi) (level - 1) (index wi) gc pa addr k p (unfold_bbm k) ->
     folds ctx (r_mem w) level gc k p ->
     Q (RMI_SUCCESS, set_x1 pa res) (with_mem w' (with_lock (with_lock (r_mem w') g_rd) (g_llt wi)))) ->
  runs (rtt_fold_child rd ctx wi e addr level aux res) x1 Q.
Proof.
  intros Hap x1 Herr HQ. subst x1. destruct (at_parent_ne _ _ _ _ _ _ _ _ _ _ _ _ _ _ _ _ _ Hap) as (N1 & N2 & N3 & Hl & Hlv).
  destruct (at_parent_descs _ _ _ _ _ _ _ _ _ _ _ _ _ _ _ _ _ Hap) as (Hgg2 & _ & Hdc & _ & _ & Hrc & _).
  pose proof Hap as [_ Hr Hi Hc HT (Haddr & Hlvl & Hd) [Hgp Hlast] _ (Htp & Hltp & He) [Hbe Hpa] (Hnm & Hgc & Hpt) (Htc & Hltc & Hgg & Hent)].
  unfold rtt_fold_child. eapply runs_bind, runs_lift; [exact Hpa|]. eapply runs_bind, runs_lift; [exact Hnm|].
  eapply runs_bind, runs_on_mem; [by eapply with_lock_lock|]. rewrite with_mem_mem.
  eapply runs_bind, runs_get; [exact Htc|]. eapply runs_bind, runs_get.
  { cbn [r_mem with_mem]. rewrite Hdc. cbn [mbind option_bind]. unfold refcount_read.
    by rewrite encode_refcount by (by left || (apply wf_count; (done || lia))). }
  cbn [a_ref]. destruct (fold_total ctx lpa2 aux tc level Hl ltac:(destruct lpa2; lia) Hltc Hent) as (fr & Hfr & Hne).
  rewrite Hlast. eapply runs_bind, runs_lift; [exact Hfr|]. destruct fr as [p rc put|st].
  2: { apply runs_bind. eapply runs_on_mem; [by eapply with_lock_unlock|]. apply runs_ret. apply Herr; [by apply Hne|done]. }
  assert (Hwf : table_wf ctx level tc).
  { split; [done|]. intros j u Hu. destruct (Hent j u Hu) as [[Hp _]|]; [by left|by right]. }
  destruct (fold_sound ctx lpa2 aux tc _ level p rc put Hl ltac:(destruct lpa2; lia) Hwf Hfr) as (k & base & Hk & Hfold & Hrefs & -> & ->).
  pose proof Hfold as [Hb _]. destruct (arr_set tp (index wi) p) as [tp'|] eqn:Hset;
    [|by rewrite (arr_set_some _ _ _ (arr_get_lt _ _ _ He)) in Hset].
  eapply fold_counts; [exact Hap|exact Hk|exact Hb|exact Hset|exact Hrefs|]. intros ds Hds1 Hds2.
  eapply runs_bind, runs_lift; [by apply (valid_leaves_ok ctx lpa2 (level - 1) k base); [|destruct lpa2; lia|]|].
  eapply (relink_ok rd lpa2 bits sl i ctx addr level (unfold_bbm k) p (g_llt wi) (index wi) gc tp tp'); try done.
  intros evs Hev. apply runs_ret.
  destruct (unlink_done _ _ _ _ _ _ _ _ _ _ _ _ _ _ _ _ _ k base p tp' (unfold_bbm k) evs ds Hap Hk Hb Hset Hev Hds2) as (w' & Hul & Hw').
  cbn [r_mem with_mem r_rds r_vttbr r_log descs tables]. rewrite with_mem_mem, <- Hw'. eapply HQ; [exact Hul|].
  exists tc, base. by split_and!.
Qed.


Lemma at_parent_intro w rd_addr rd lpa2 bits sl g_rd i ctx T wi addr level tp e :
  names_rd w rd_addr g_rd -> rd_ok rd lpa2 bits sl -> 0 <= i < realm_num_planes rd -> arr_get (s2_ctxs rd) i = Some ctx ->
  rtt_inv ctx (r_mem w) T -> 0 <= addr < 2 ^ bits -> sl + 1 <= level <= 3 -> (s2tte_map_size (level - 1) | addr) ->
  T !! g_llt wi = Some (level - 1) -> last_level wi = level - 1 ->
  visits ctx (r_mem w) addr (g_llt wi) (level - 1) -> index wi = s2_addr_to_idx addr (level - 1) ->
  tables (r_mem w) !! g_llt wi = Some tp -> length tp = N_S2TTES -> arr_get tp (index wi) = Some e ->
  entry_ok ctx (level - 1) e -> s2tte_is_table ctx e (level - 1) = true ->
  exists pa gc tc, at_parent w rd lpa2 bits sl g_rd i ctx T wi addr level tp e pa gc tc.
Proof.
  intros Hnm Hr Hi Hc HT Ha Hlv Hd Hgp Hlast Hvis Hix Htp Hltp He Hok Hit.
  destruct (rd_ctx_ok _ _ _ _ Hr i ctx Hi Hc) as ([Hl _ Hs _ _] & _ & Hsl & _).
  destruct (parent_is_table ctx lpa2 (r_mem w) T (g_llt wi) (level - 1) tp (index wi) e Hl ltac:(destruct lpa2; lia)
    HT Hgp Htp He Hok Hit) as (pa & gc & Hb & Hpa & Hg & Hgc & Hpt).
  replace (level - 1 + 1) with level in Hgc by lia.
  destruct (tree_table_at _ _ _ _ _ HT Hgc) as (tc & Htc & Hltc & _ & Hgg & Hent). exists pa, gc, tc.
  split; try done. by exists rd_addr.
Qed.

(** The other trees of the realm are idle while RD and one table (and its child)
    are locked: the search for auxiliary references can walk them. *)
Lemma idle_trees w F g rd lpa2 bits sl i ctx T (m' : mem) :
  inv w F -> r_rds w !! g = Some rd -> rd_ok rd lpa2 bits sl ->
  (forall i, 0 <= i < realm_num_s2_rtts rd -> exists T, F !! (g, i) = Some T) ->
  F !! (g, i) = Some T -> i = 0 -> owns w g i rd ctx T -> rtt_tree_pp rd = true ->
  (forall T0, (forall y l, T0 !! y = Some l -> T !! y = None) ->
     (exists c, rtt_inv c (r_mem w) T0) -> agree T0 (r_mem w) m') ->
  forall j c, 1 <= j < realm_num_planes rd -> arr_get (s2_ctxs rd) j = Some c -> exists T0, rtt_inv c m' T0.
Proof.
  intros Hinv Hrd Hr HF HT -> Hown Hpp Hag j c Hj Hc.
  destruct (realm_tree w F g rd j c Hinv Hrd HF) as (T0 & HT0 & Hown0); [|done|].
  { unfold realm_num_s2_rtts, realm_num_s2_contexts. rewrite Hpp. lia. }
  exists T0. eapply rtt_inv_frame; [|apply (own_tree _ _ _ _ _ _ Hown0)]. apply Hag.
  - intros y l Hy. destruct (T !! y) as [l'|] eqn:E; [|done]. exfalso.
    pose proof (inv_disjoint _ _ Hinv _ _ _ _ y l l' HT0 HT Hy E) as Heq. injection Heq as Heq. lia.
  - exists c. apply (own_tree _ _ _ _ _ _ Hown0).
Qed.

(** Locks on the RD and on tables of [T] are invisible to another tree. *)
Lemma locks_agree w rd_addr g_rd T T0 ctx0 gp :
  names_rd w rd_addr g_rd -> (exists l, T !! gp = Some l) -> (forall y l, T0 !! y = Some l -> T !! y = None) ->
  rtt_inv ctx0 (r_mem w) T0 -> agree T0 (r_mem w) (with_lock (with_lock (r_mem w) g_rd) gp).
Proof.
  intros (_ & r & Hrg) [l Hgp] Hdis HT0 y l0 Hy. pose proof (Hdis y l0 Hy).
  assert (y <> g_rd) by (intros ->; by rewrite (not_in_tree _ _ _ _ _ HT0 Hrg) in Hy).
  assert (y <> gp) by congruence. cbn. by rewrite !lookup_alter_ne by done.
Qed.

(** [rtt_fold_parent], with RD and the last table of the walk locked. *)
Lemma fold_parent_ok w F rd_addr g_rd rd lpa2 bits sl i ctx T wi addr level aux in_par res (Q : Z * smc_result -> rmm -> Prop) :
  inv w F -> names_rd w rd_addr g_rd -> r_rds w !! g_rd = Some rd -> rd_ok rd lpa2 bits sl ->
  (forall i, 0 <= i < realm_num_s2_rtts rd -> exists T, F !! (g_rd, i) = Some T) ->
  i = cmd_index aux i -> F !! (g_rd, i) = Some T -> owns w g_rd i rd ctx T ->
  0 <= addr < 2 ^ bits -> sl + 1 <= level <= 3 -> (s2tte_map_size (level - 1) | addr) ->
  walked w ctx T addr (level - 1) wi ->
  let x1 := with_mem w (with_lock (with_lock (r_mem w) g_rd) (g_llt wi)) in
  addr_in_par rd addr = Some in_par ->
  (forall st, st <> RMI_SUCCESS -> fold_stop w addr level aux rd ctx (g_llt wi) (last_level wi) st -> Q (st, res) x1) ->
  (forall w' k p gc pa, unlinked w w' rd ctx T (g_llt wi) (level - 1) (index wi) gc pa addr k p (unfold_bbm k) ->
     folds ctx (r_mem w) level gc k p -> gc <> g_rd ->
     Q (RMI_SUCCESS, set_x1 pa res) (with_mem w' (with_lock (with_lock (r_mem w') g_rd) (g_llt wi)))) ->
  runs (rtt_fold_parent rd ctx wi addr level aux in_par res) x1 Q.
Proof.
  intros Hinv Hnm Hrd Hr HF Hi0 HT Hown Ha Hlv Hd Hwk x1 Hpar Herr HQ. subst x1.
  destruct (walked_visits _ _ _ _ _ _ Hwk ltac:(lia)) as [Hvis Hix]. destruct Hwk as [_ [_ Hidx] Hgp Hll _].
  pose proof Hown as [_ Hi Hc _ Htree]. pose proof (rtts_planes _ _ _ _ _ Hr Hi) as Hip. unfold rtt_fold_parent.
  destruct (tree_table_at _ _ _ _ _ Htree Hgp) as (tp & Htp & Hltp & _ & _ & Hent).
  destruct (arr_get_some tp (index wi)) as [e He]; [rewrite Hltp; unfold N_S2TTES, S2TTES_PER_S2TT in *; lia|].
  assert (Hat : entry_at w (g_llt wi) addr (last_level wi) e) by (exists tp; by rewrite <- Hix).
  destruct (Z.ltb_spec (last_level wi) (level - 1)).
  { destruct (rtt_error_some aux (last_level wi)) as (st & Hst & Hne). eapply runs_bind, runs_lift; [exact Hst|].
    apply runs_ret. apply Herr; [done|]. exists e. split; [done|]. by left. }
  assert (Hlast : last_level wi = level - 1) by lia. rewrite Hlast in *.
  eapply runs_bind, runs_get; [exact Htp|]. eapply runs_bind, runs_lift; [exact He|].
  destruct (s2tte_is_table ctx e (level - 1)) eqn:Hit; cbn [negb].
  2: { destruct (rtt_error_some aux (level - 1)) as (st & Hst & Hne). eapply runs_bind, runs_lift; [exact Hst|].
       apply runs_ret. apply Herr; [done|]. exists e. split; [done|]. right. by left. }
  destruct (at_parent_intro w rd_addr rd lpa2 bits sl g_rd i ctx T wi addr level tp e) as (pa & gc & tc & Hap); eauto.
  apply runs_bind. apply (aux_check_ok rd lpa2 bits sl); [done|done| | |].
  { intros -> Hpp. cbn [cmd_index] in Hi0. eapply (idle_trees w F g_rd rd lpa2 bits sl i ctx T); eauto.
    intros T0 Hdis [c0 HT0]. eapply locks_agree; eauto. }
  2: { intros -> -> Hpp Hsl Href. destruct (rtt_error_some false (level - 1)) as (st & Hst & Hne).
       eapply runs_bind, runs_lift; [exact Hst|]. apply runs_ret. apply Herr; [done|]. exists e. split; [done|].
       do 2 right. left. unfold aux_blocked. split_and!; try done. by eapply aux_referenced_tables; [|exact Href]. }
  pose proof (ap_entry _ _ _ _ _ _ _ _ _ _ _ _ _ _ _ _ _ Hap) as [_ Hpa].
  pose proof (ap_child _ _ _ _ _ _ _ _ _ _ _ _ _ _ _ _ _ Hap) as (Hgn & _).
  pose proof (ap_contents _ _ _ _ _ _ _ _ _ _ _ _ _ _ _ _ _ Hap) as (Htc & _).
  eapply fold_child_ok; [exact Hap| |].
  - intros st Hst Hfr. apply Herr; [done|]. exists e. split; [done|]. do 3 right. split_and!; try done. by exists pa, gc, tc.
  - intros w' k p Hul Hf. eapply HQ; [exact Hul|exact Hf|].
    by destruct (at_parent_ne _ _ _ _ _ _ _ _ _ _ _ _ _ _ _ _ _ Hap) as (_ & ? & _).
Qed.


(** ** Consequences *)

Lemma unlinked_mem w w' rd ctx T gp lp j gc ra addr k p whole :
  unlinked w w' rd ctx T gp lp j gc ra addr k p whole ->
  r_rds w' = r_rds w /\ r_vttbr w' = r_vttbr w /\
  (forall y, y <> gp -> y <> gc ->
     descs (r_mem w') !! y = descs (r_mem w) !! y /\ tables (r_mem w') !! y = tables (r_mem w) !! y).
Proof.
  intros [_ _ _ _ _ _ (e & tp & tp' & tc & evs & _ & _ & _ & _ & _ & _ & ->)].
  split_and!; try done. intros y H1 H2. cbn [r_mem with_log with_mem]. by apply mem_upd_other.
Qed.

Definition childless ctx (m : mem) T (gc : Z) : Prop := forall i c, ~ points ctx m T gc i c.

(** The level of the child, and that it is not the parent. *)
Lemma unlinked_child w w' rd ctx T gp lp j gc ra addr k p whole :
  rtt_inv ctx (r_mem w) T -> unlinked w w' rd ctx T gp lp j gc ra addr k p whole ->
  T !! gc = Some (lp + 1) /\ gp <> gc.
Proof.
  intros HT [Hgp _ Hpt _ _ _ _].
  destruct Hpt as (l & t & e & pa & Hg & Hl & Ht & He & Hent & Hpa & Hc).
  destruct (ri_next _ _ _ HT gp l t j e Hg Ht Hl He Hent) as (pa' & c' & H1 & H2 & H3).
  assert (c' = gc) as -> by congruence. assert (l = lp) as -> by congruence. split; [done|].
  intros ->. rewrite Hgp in H3. injection H3 as H3. lia.
Qed.

Lemma unlinked_tree w w' rd ctx lpa2 T gp lp j gc ra addr k p whole :
  ctx_ok ctx lpa2 -> rtt_inv ctx (r_mem w) T -> unlinked w w' rd ctx T gp lp j gc ra addr k p whole ->
  childless ctx (r_mem w) T gc -> rtt_inv ctx (r_mem w') (delete gc T).
Proof.
  intros [Hl _ Hsl _ _] HT Hul Hch. destruct (unlinked_child _ _ _ _ _ _ _ _ _ _ _ _ _ _ HT Hul) as [Hgc Hne].
  pose proof (unlinked_mem _ _ _ _ _ _ _ _ _ _ _ _ _ _ Hul) as (_ & _ & Hfr).
  destruct Hul as [Hgp Hlv Hpt Hvis Hnm (Hk & base & Hb) (e & tp & tp' & tc & evs & Htp & He & Hbe & Hset & Htc & _ & Hw')].
  rewrite Hl in Hlv. cbn in Hlv. destruct (tree_table_at _ _ _ _ _ HT Hgp) as (tp2 & Htp2 & Hltp & _ & _ & Hent).
  assert (tp2 = tp) as -> by congruence. pose proof (arr_set_length _ _ _ _ Hset) as Hltp'. rewrite Hltp in Hltp'.
  assert (Hp' : descs (r_mem w') !! gp = Some (encode GRN (AGranule false GRANULE_STATE_RTT (table_refs ctx lp tp'))) /\
    tables (r_mem w') !! gp = Some tp') by (subst w'; apply mem_upd_parent). destruct Hp' as [Hdp Htp'].
  eapply (rtt_inv_remove ctx lpa2 (r_mem w) (r_mem w') T gp lp j p gc k base); try done; try lia.
  split; [by rewrite lookup_delete_ne by done|by exists tp, tp'| |].
  - exists tp'. split_and!; try done; [split; [exact Hdp|by apply ref_ok_table]|].
    intros y u Hu. rewrite (arr_get_set _ _ _ _ y Hset) in Hu. destruct (y =? j); [|eauto].
    injection Hu as <-. right. eauto.
  - intros y l [Hy1 _]%lookup_delete_Some Hy2. destruct (Hfr y Hy2) as [-> ->]; [by apply not_eq_sym|done].
Qed.

(** The world invariant after an unlink. *)
Lemma unlinked_inv w w' F g i rd ctx T gp lp j gc ra addr k p whole :
  inv w F -> F !! (g, i) = Some T -> owns w g i rd ctx T ->
  unlinked w w' rd ctx T gp lp j gc ra addr k p whole -> childless ctx (r_mem w) T gc ->
  inv w' (<[(g, i) := delete gc T]> F).
Proof.
  intros Hinv HF Hown Hul Hch. destruct (owns_ctx_ok _ _ _ _ _ _ Hown) as [lpa2 Hctx].
  pose proof (own_tree _ _ _ _ _ _ Hown) as HT. destruct (unlinked_child _ _ _ _ _ _ _ _ _ _ _ _ _ _ HT Hul) as [Hgc Hne].
  pose proof (unlinked_mem _ _ _ _ _ _ _ _ _ _ _ _ _ _ Hul) as (Hrds & _ & _).
  pose proof (unlinked_tree _ _ _ _ _ _ _ _ _ _ _ _ _ _ _ Hctx HT Hul Hch) as HT'.
  destruct Hul as [Hgp Hlv Hpt Hvis Hnm (Hk & base & Hb) (e & tp & tp' & tc & evs & Htp & He & Hbe & Hset & Htc & _ & Hw')].
  destruct (tree_table_at _ _ _ _ _ HT Hgp) as (tp2 & Htp2 & Hltp & _). assert (tp2 = tp) as -> by congruence.
  destruct (tree_table_at _ _ _ _ _ HT Hgc) as (tc2 & Htc2 & Hltc & _). assert (tc2 = tc) as -> by congruence.
  pose proof (arr_set_length _ _ _ _ Hset) as Hltp'. rewrite Hltp in Hltp'.
  pose proof (table_refs_range ctx lp tp') as Hr1. rewrite Hltp' in Hr1. unfold N_S2TTES in Hr1.
  eapply (inv_upd w w' F g i rd ctx T _ gp lp (table_refs ctx lp tp') tp' gc
      (AGranule false GRANULE_STATE_DELEGATED 0) tc); try done; try lia; [by subst w'| |].
  - intros k0 T0 l0 H0 Hl0. exact (inv_disjoint _ _ Hinv _ _ T0 T gc l0 (lp + 1) H0 HF Hl0 Hgc).
  - intros y l [_ Hy]%lookup_delete_Some. right. eauto.
Qed.

(** Translations of the other trees. *)
Lemma unlinked_others w w' F g i rd ctx T gp lp j gc ra addr k p whole g0 i0 T0 rd0 ctx0 a :
  inv w F -> F !! (g, i) = Some T -> owns w g i rd ctx T ->
  unlinked w w' rd ctx T gp lp j gc ra addr k p whole ->
  F !! (g0, i0) = Some T0 -> (g0, i0) <> (g, i) -> owns w g0 i0 rd0 ctx0 T0 ->
  0 <= a < 2 ^ ipa_bits ctx0 -> translate ctx0 (r_mem w') a = translate ctx0 (r_mem w) a.
Proof.
  intros Hinv HF Hown Hul H0 Hn Hown0 Ha. pose proof (own_tree _ _ _ _ _ _ Hown) as HT.
  destruct (unlinked_child _ _ _ _ _ _ _ _ _ _ _ _ _ _ HT Hul) as [Hgc Hne].
  pose proof (unlinked_mem _ _ _ _ _ _ _ _ _ _ _ _ _ _ Hul) as (_ & _ & Hfr).
  eapply (others_translate w w' F g i T gp lp gc g0 i0 T0 rd0); try done; [by destruct Hul|].
  intros k0 T1 l0 H1 Hl0. exact (inv_disjoint _ _ Hinv _ _ T1 T gc l0 (lp + 1) H1 HF Hl0 Hgc).
Qed.

Lemma folds_childless ctx lpa2 m T lp gc k p :
  s2tt_lpa2_enabled ctx = Some lpa2 -> -1 <= lp < 3 -> T !! gc = Some (lp + 1) -> k <> K_table ->
  folds ctx m (lp + 1) gc k p -> childless ctx m T gc.
Proof.
  intros Hl Hlv Hgc Hk (tc & base & Htc & Hlen & Hent & _ & Hall) i c (l & t & u & pa & Hg & Hll & Ht & Hu & Hit & _).
  assert (l = lp + 1) as -> by congruence. assert (t = tc) as -> by congruence. unfold S2TT_PAGE_LEVEL in Hll.
  pose proof (arr_get_lt _ _ _ Hu) as Hi. rewrite Hlen in Hi. unfold N_S2TTES in Hi.
  destruct (Hall i ltac:(lia)) as (u' & Hu' & Hku & _). assert (u' = u) as -> by congruence.
  destruct (entry_kind ctx lpa2 (lp + 1) u Hl ltac:(lia) (Hent i u Hu)) as (k' & Hk').
  pose proof (Hk' k) as H1. rewrite Hku in H1. injection H1 as H1. symmetry in H1. apply bool_decide_eq_true in H1 as ->.
  pose proof (Hk' K_table) as H2. cbn [is_kind] in H2. rewrite bool_decide_false in H2 by done. injection H2 as H2.
  unfold s2tte_is_table, S2TT_PAGE_LEVEL in H2. rewrite (proj2 (Z.ltb_lt (lp + 1) 3)) in H2 by lia. cbn in H2.
  unfold entry_is_table in Hit. congruence.
Qed.

(** Folding keeps the translations of the tree itself. *)
Lemma folded_translate w w' rd ctx lpa2 T gp lp j gc ra addr k p whole a :
  ctx_ok ctx lpa2 -> rtt_inv ctx (r_mem w) T -> unlinked w w' rd ctx T gp lp j gc ra addr k p whole ->
  folds ctx (r_mem w) (lp + 1) gc k p -> 0 <= a < 2 ^ ipa_bits ctx ->
  translate ctx (r_mem w') a = translate ctx (r_mem w) a.
Proof.
  intros Hctx HT Hul Hfold Ha. pose proof Hctx as [Hl _ Hsl _ _].
  destruct (unlinked_child _ _ _ _ _ _ _ _ _ _ _ _ _ _ HT Hul) as [Hgc Hne].
  pose proof (ul_level _ _ _ _ _ _ _ _ _ _ _ _ _ _ Hul) as Hlv. rewrite Hl in Hlv. cbn in Hlv.
  pose proof (ul_kind _ _ _ _ _ _ _ _ _ _ _ _ _ _ Hul) as (Hk & base & Hb).
  assert (Hlv1 : -1 <= lp < 3) by (destruct lpa2; lia).
  pose proof (folds_childless ctx lpa2 (r_mem w) T lp gc k p Hl Hlv1 Hgc Hk Hfold) as Hch.
  pose proof (unlinked_tree _ _ _ _ _ _ _ _ _ _ _ _ _ _ _ Hctx HT Hul Hch) as HT'.
  pose proof (unlinked_mem _ _ _ _ _ _ _ _ _ _ _ _ _ _ Hul) as (_ & _ & Hfr).
  destruct Hul as [Hgp _ Hpt Hvis Hnm _ (e & tp & tp' & tc & evs & Htp & He & Hbe & Hset & Htc & _ & Hw')].
  destruct (built_table_entry ctx lpa2 lp K_table ra e Hl Hlv1 Hbe) as [Hee Hph].
  destruct (built_table_entry ctx lpa2 lp k base p Hl Hlv1 Hb) as [Hep _].
  symmetry. apply (split_translate ctx lpa2 (r_mem w') (r_mem w) (delete gc T) gp lp j gc a); try done; try lia; [| |].
  2: { destruct lpa2; lia. }
  2: { intros root Hroot. eapply ctx_root; eauto. apply (ri_roots _ _ _ HT'). }
  split.
  - intros y l b y' Hy Hly Hn. by eapply next_table_closed.
  - split; [by rewrite lookup_delete_ne|]. unfold S2TT_PAGE_LEVEL. lia.
  - intros y l [Hy1 _]%lookup_delete_Some Hy2. symmetry. apply Hfr; [done|by apply not_eq_sym].
  - exists tp', tp, p, e, ra. split_and!; try done.
    + subst w'. apply mem_upd_parent.
    + by rewrite (arr_get_set _ _ _ _ j Hset), Z.eqb_refl.
    + by rewrite Hep, bool_decide_false.
    + by apply Hph.
    + intros y Hy. by rewrite (arr_get_set _ _ _ _ y Hset), (proj2 (Z.eqb_neq y j)).
    + destruct Hfold as (tc2 & base2 & Htc2 & Hlen & Hent & Hf). exists tc2, k, base2. by split_and!.
Qed.


(** ** RMI_RTT_FOLD *)

(** Releases of RD and parent, in either order. *)
Lemma release_both {A} w g_rd r gp rp (K : H A) (Q : A -> rmm -> Prop) :
  granule_at (r_mem w) g_rd (AGranule false GRANULE_STATE_RD r) ->
  granule_at (r_mem w) gp (AGranule false GRANULE_STATE_RTT rp) ->
  runs K w Q ->
  let x := with_mem w (with_lock (with_lock (r_mem w) g_rd) gp) in
  runs (_ <-! h_granule_unlock g_rd ;; _ <-! h_granule_unlock gp ;; K) x Q /\
  runs (_ <-! h_granule_unlock gp ;; _ <-! h_granule_unlock g_rd ;; K) x Q.
Proof.
  intros Hr Hp HK x. subst x. assert (Hne : gp <> g_rd) by (intros ->; by pose proof (granule_at_inj _ _ _ _ Hr Hp)). split.
  - apply runs_bind. eapply runs_on_mem.
    { cbn [r_mem with_mem]. rewrite with_lock_comm by done.
      apply (with_lock_unlock (with_lock (r_mem w) gp) g_rd (AGranule false GRANULE_STATE_RD r)); [|done].
      apply granule_at_with_lock_ne; [by apply not_eq_sym|done]. }
    apply runs_bind. eapply runs_on_mem.
    { cbn [r_mem with_mem]. by apply (with_lock_unlock (r_mem w) gp (AGranule false GRANULE_STATE_RTT rp)). }
    by rewrite !with_mem_mem, with_mem_id.
  - apply runs_bind. eapply runs_on_mem.
    { cbn [r_mem with_mem]. apply (with_lock_unlock (with_lock (r_mem w) g_rd) gp (AGranule false GRANULE_STATE_RTT rp)); [|done].
      by apply granule_at_with_lock_ne. }
    apply runs_bind. eapply runs_on_mem.
    { cbn [r_mem with_mem]. by apply (with_lock_unlock (r_mem w) g_rd (AGranule false GRANULE_STATE_RD r)). }
    by rewrite !with_mem_mem, with_mem_id.
Qed.

(** Both granules after an unlink. *)
Lemma unlinked_granules w w' rd ctx T gp lp j gc ra addr k p whole g_rd r :
  unlinked w w' rd ctx T gp lp j gc ra addr k p whole -> rtt_inv ctx (r_mem w) T ->
  granule_at (r_mem w) g_rd (AGranule false GRANULE_STATE_RD r) -> gc <> g_rd ->
  granule_at (r_mem w') g_rd (AGranule false GRANULE_STATE_RD r) /\
  exists rp, granule_at (r_mem w') gp (AGranule false GRANULE_STATE_RTT rp).
Proof.
  intros Hul HT Hr Hgc. pose proof (unlinked_mem _ _ _ _ _ _ _ _ _ _ _ _ _ _ Hul) as (_ & _ & Hfr).
  destruct Hul as [Hgp _ _ _ _ _ (e & tp & tp' & tc & evs & Htp & He & Hbe & Hset & Htc & _ & Hw')].
  destruct (tree_table_at _ _ _ _ _ HT Hgp) as (tp2 & Htp2 & Hltp & _). assert (tp2 = tp) as -> by congruence.
  split.
  - eapply granule_at_descs; [|exact Hr]. apply Hfr; [|by apply not_eq_sym].
    intros ->. by rewrite (not_in_tree _ _ _ _ _ HT Hr) in Hgp.
  - eexists. subst w'. split; [apply mem_upd_parent|]. apply ref_ok_table.
    by rewrite (arr_set_length _ _ _ _ Hset).
Qed.

Lemma fold_ok w F rd_addr map_addr ulevel idx aux res :
  inv w F -> 0 <= map_addr -> 0 <= idx ->
  runs (rtt_fold rd_addr map_addr ulevel idx aux res) w (fun out w' =>
    (res_x0 out <> RMI_SUCCESS /\ fold_refused w rd_addr map_addr (to_long ulevel) idx aux (res_x0 out) /\ w' = w) \/
    (exists g rd ctx T gp j gc ra k p,
       out = set_x0 RMI_SUCCESS (set_x1 ra res) /\
       names_rd w rd_addr g /\ owns w g (cmd_index aux idx) rd ctx T /\ F !! (g, cmd_index aux idx) = Some T /\
       0 <= map_addr < 2 ^ ipa_bits ctx /\
       unlinked w w' rd ctx T gp (to_long ulevel - 1) j gc ra map_addr k p (unfold_bbm k) /\
       folds ctx (r_mem w) (to_long ulevel) gc k p)).
Proof.
  intros Hinv Hma Hidx. unfold rtt_fold. set (level := to_long ulevel). apply runs_bind. apply (lock_rd w F); [done| |].
  { intros st Hst Hwhy. cbn [fst]. rewrite (proj2 (Z.eqb_neq st RMI_SUCCESS)) by done. cbn [negb]. apply runs_ret. left.
    split; [done|]. split; [by apply ref_rd|done]. }
  intros g Hg. cbn [fst snd]. rewrite Z.eqb_refl. cbn [negb]. eapply runs_bind, runs_lift; [done|].
  pose proof Hg as (Hga & r & Hrg). destruct (inv_rd _ _ Hinv g r Hrg) as (rd & lpa2 & bits & sl & Hrd & Hok & HF).
  destruct (rd_sizes _ _ _ _ Hok) as (_ & _ & _ & Hpar).
  eapply runs_bind, runs_get; [exact Hrd|]. eapply runs_bind, runs_lift; [apply Hpar|].
  destruct (structure_valid rd lpa2 bits sl map_addr level Hok Hma) as (b & Hb & Hbt).
  eapply runs_bind, runs_lift; [exact Hb|]. destruct b; cbn [negb].
  2: { apply runs_bind. eapply unlock_rd; [exact Hg| |done]. apply runs_ret. left. split; [done|].
       split; [eapply ref_args; eauto|done]. }
  destruct (Hbt eq_refl) as (Hlv & Hlt & Hd).
  destruct (cmd_ctx rd lpa2 bits sl aux idx map_addr Hok Hidx) as (sel & Hsel & Hctx).
  eapply runs_bind, runs_lift; [exact Hsel|]. destruct sel as [ctx|].
  2: { apply runs_bind. eapply unlock_rd; [exact Hg| |done]. apply runs_ret. left. split; [done|].
       split; [eapply ref_args; eauto|done]. }
  destruct (Hctx ctx eq_refl) as [Hi Hc]. destruct (realm_tree _ _ _ _ _ _ Hinv Hrd HF Hi Hc) as (T & HT & Hown).
  pose proof (own_tree _ _ _ _ _ _ Hown) as Htree. pose proof (rtts_planes _ _ _ _ _ Hok Hi) as Hip.
  destruct (rd_ctx_ok _ _ _ _ Hok _ _ Hip Hc) as (Hcok & Hbits & Hsl & _).
  apply (lock_walk w g ctx lpa2 T); try done; [by eapply not_in_tree|by rewrite Hbits|lia|].
  intros wi Hwk. pose proof (wk_tree _ _ _ _ _ _ Hwk) as Hgp.
  destruct (tree_table_at _ _ _ _ _ Htree Hgp) as (tp & _ & _ & _ & Hpg & _). apply runs_bind.
  eapply (fold_parent_ok w F rd_addr g rd lpa2 bits sl (cmd_index aux idx) ctx T); try done; [by destruct aux| |].
  - intros st Hst Hwhy. eapply (release_both w g r (g_llt wi)); [exact Hrg|exact Hpg|]. apply runs_ret. left.
    split; [exact Hst|]. split; [|done]. destruct (walked_visits _ _ _ _ _ _ Hwk ltac:(lia)) as [Hvis _].
    destruct Hwk as [_ _ _ Hll Hstop]. eapply ref_stop; eauto. lia.
  - intros w' k p gc pa Hul Hf Hgc.
    destruct (unlinked_granules _ _ _ _ _ _ _ _ _ _ _ _ _ _ g r Hul Htree Hrg Hgc) as (Hrg' & rp & Hpg').
    eapply (release_both w' g r (g_llt wi)); [exact Hrg'|exact Hpg'|]. apply runs_ret. right.
    exists g, rd, ctx, T, (g_llt wi), (index wi), gc, pa, k, p. rewrite Hbits. by split_and!.
Qed.

(** A folded table had no children, so the tree loses exactly this table. *)
Lemma folded_childless w w' g i rd ctx T gp level j gc ra addr k p whole :
  owns w g i rd ctx T -> unlinked w w' rd ctx T gp (level - 1) j gc ra addr k p whole ->
  folds ctx (r_mem w) level gc k p -> childless ctx (r_mem w) T gc.
Proof.
  intros Hown Hul Hf. destruct (owns_ctx_ok _ _ _ _ _ _ Hown) as [lpa2 [Hl _ _ _ _]].
  pose proof (own_tree _ _ _ _ _ _ Hown) as HT. destruct (unlinked_child _ _ _ _ _ _ _ _ _ _ _ _ _ _ HT Hul) as [Hgc Hne].
  pose proof (ul_level _ _ _ _ _ _ _ _ _ _ _ _ _ _ Hul) as Hlv. rewrite Hl in Hlv. cbn in Hlv.
  replace level with (level - 1 + 1) in Hf by lia.
  eapply folds_childless; eauto; [destruct lpa2; lia|apply (ul_kind _ _ _ _ _ _ _ _ _ _ _ _ _ _ Hul)].
Qed.

Lemma folded_inv w w' F g i rd ctx T gp level j gc ra addr k p whole :
  inv w F -> F !! (g, i) = Some T -> owns w g i rd ctx T ->
  unlinked w w' rd ctx T gp (level - 1) j gc ra addr k p whole ->
  folds ctx (r_mem w) level gc k p -> inv w' (<[(g, i) := delete gc T]> F).
Proof. intros Hinv HF Hown Hul Hf. eapply unlinked_inv; eauto using folded_childless. Qed.

Lemma folded_restructured w w' F g i rd ctx T gp level j gc ra addr k p whole :
  inv w F -> F !! (g, i) = Some T -> owns w g i rd ctx T ->
  unlinked w w' rd ctx T gp (level - 1) j gc ra addr k p whole ->
  folds ctx (r_mem w) level gc k p -> restructured w w' F (<[(g, i) := delete gc T]> F) gp gc.
Proof.
  intros Hinv HF Hown Hul Hf. destruct (owns_ctx_ok _ _ _ _ _ _ Hown) as [lpa2 Hctx].
  pose proof (own_tree _ _ _ _ _ _ Hown) as HT.
  pose proof (folded_childless _ _ _ _ _ _ _ _ _ _ _ _ _ _ _ _ Hown Hul Hf) as Hch.
  replace level with (level - 1 + 1) in Hf by lia.
  pose proof (unlinked_mem _ _ _ _ _ _ _ _ _ _ _ _ _ _ Hul) as (Hrds & Hvt & Hfr).
  split; try done; [by eapply unlinked_inv|].
  intros g0 i0 T0 rd0 ctx0 a H0 Hown0 Ha. destruct (decide ((g0, i0) = (g, i))) as [[= -> ->]|Hn].
  - destruct (owns_unique _ _ _ _ _ _ _ _ _ Hown Hown0) as [-> ->]. by eapply folded_translate.
  - by eapply (unlinked_others w w' F g i rd ctx T).
Qed.

(** C5: from any state that satisfies the invariant, with any
    arguments, RMI_RTT_FOLD and
    RMI_RTT_AUX_FOLD return, with every lock released; a refused command changes
    nothing and has one of the causes of [fold_refused], and a successful one returns the table in X1, delegated again,
    removes it from the realm's tree, keeps the invariant, and changes no
    translation of any address of any tree of any realm. *)
Theorem rtt_fold_correct w F rd_addr map_addr ulevel idx aux res :
  inv w F -> 0 <= map_addr -> 0 <= idx ->
  runs (rtt_fold rd_addr map_addr ulevel idx aux res) w (fun out w' =>
    (res_x0 out <> RMI_SUCCESS /\ fold_refused w rd_addr map_addr (to_long ulevel) idx aux (res_x0 out) /\ w' = w) \/
    (res_x0 out = RMI_SUCCESS /\ exists g T gp gc,
       names_rd w rd_addr g /\ F !! (g, cmd_index aux idx) = Some T /\
       T !! gc = Some (to_long ulevel) /\ tr_addr_to_granule (res_x1 out) = Some gc /\
       granule_at (r_mem w') gc (AGranule false GRANULE_STATE_DELEGATED 0) /\
       restructured w w' F (<[(g, cmd_index aux idx) := delete gc T]> F) gp gc)).
Proof.
  intros Hinv Hma Hidx. eapply runs_mono; [by eapply fold_ok|].
  intros out w' [Herr|(g & rd & ctx & T & gp & j & gc & ra & k & p & -> & Hg & Hown & HF & _ & Hul & Hf)]; [by left|right].
  split; [done|]. exists g, T, gp, gc.
  destruct (unlinked_child _ _ _ _ _ _ _ _ _ _ _ _ _ _ (own_tree _ _ _ _ _ _ Hown) Hul) as [Hgc Hne].
  replace (to_long ulevel - 1 + 1) with (to_long ulevel) in Hgc by lia. split_and!; try done.
  - apply (ul_name _ _ _ _ _ _ _ _ _ _ _ _ _ _ Hul).
  - destruct (ul_entry _ _ _ _ _ _ _ _ _ _ _ _ _ _ Hul) as (e & tp & tp' & tc & evs & _ & _ & _ & _ & _ & _ & ->).
    split; [by apply mem_upd_child|]. split; [apply wf_count; (done || lia)|reflexivity].
  - by eapply folded_restructured.
Qed.

(** ** RMI_RTT_DESTROY *)

Definition destroyed_kind (in_par : bool) : s2tte_kind := if in_par then K_unassigned_destroyed else K_unassigned_ns.

Lemma destroyed_parent_ok ctx in_par level :
  exists p, destroyed_parent ctx in_par = Some p /\ built ctx level (destroyed_kind in_par) 0 p.
Proof.
  unfold destroyed_parent, destroyed_kind. destruct in_par; [|eexists; split; [done|constructor]].
  destruct (default_ap_some ctx) as [ap ->]. cbn [mbind option_bind]. eexists. split; [done|constructor].
Qed.

Lemma destroy_child_ok w rd lpa2 bits sl g_rd i ctx T wi addr level tp e pa gc tc in_par (Q : unit -> rmm -> Prop) :
  at_parent w rd lpa2 bits sl g_rd i ctx T wi addr level tp e pa gc tc -> table_refs ctx level tc = 0 ->
  (forall w' p, unlinked w w' rd ctx T (g_llt wi) (level - 1) (index wi) gc pa addr (destroyed_kind in_par) p (negb in_par) ->
     Q tt (with_mem w' (with_lock (with_lock (r_mem w') g_rd) (g_llt wi)))) ->
  runs (rtt_destroy_child rd ctx wi gc addr level in_par)
    (with_mem w (with_lock (with_lock (with_lock (r_mem w) g_rd) (g_llt wi)) gc)) Q.
Proof.
  intros Hap Hrefs HQ. destruct (at_parent_ne _ _ _ _ _ _ _ _ _ _ _ _ _ _ _ _ _ Hap) as (N1 & N2 & N3 & Hl & Hlv).
  pose proof Hap as [_ Hr Hi Hc HT (Haddr & Hlvl & Hd) [Hgp Hlast] _ (Htp & Hltp & He) [Hbe Hpa] _ _].
  unfold rtt_destroy_child. destruct (destroyed_parent_ok ctx in_par (level - 1)) as (p & Hp & Hb).
  eapply runs_bind, runs_lift; [exact Hp|].
  destruct (arr_set tp (index wi) p) as [tp'|] eqn:Hset; [|by rewrite (arr_set_some _ _ _ (arr_get_lt _ _ _ He)) in Hset].
  assert (Hk : destroyed_kind in_par <> K_table) by (by destruct in_par).
  assert (Hg : unfold_get (destroyed_kind in_par) = true) by (by destruct in_par).
  assert (Hr0 : table_refs ctx level tc = unfold_refs (destroyed_kind in_par)) by (by destruct in_par).
  match goal with |- runs (bind _ (fun _ => ?K)) _ _ =>
    pose proof (fold_counts w rd lpa2 bits sl g_rd i ctx T wi addr level tp e pa gc tc (destroyed_kind in_par) 0 p tp' K Q
      Hap Hk Hb Hset Hr0) as Hfc end.
  cbv zeta in Hfc. rewrite Hg in Hfc. apply Hfc. clear Hfc. intros ds Hds1 Hds2.
  eapply (relink_ok rd lpa2 bits sl i ctx addr level (negb in_par) p (g_llt wi) (index wi) gc tp tp'); try done.
  intros evs Hev. apply runs_ret.
  destruct (unlink_done _ _ _ _ _ _ _ _ _ _ _ _ _ _ _ _ _ (destroyed_kind in_par) 0 p tp' (negb in_par) evs ds Hap Hk Hb Hset Hev Hds2)
    as (w' & Hul & Hw').
  cbn [r_mem with_mem r_rds r_vttbr r_log descs tables]. rewrite with_mem_mem, <- Hw'. by eapply HQ.
Qed.

(** Locks on RD, parent and child are invisible to another tree. *)
Lemma locks3_agree w rd_addr g_rd T T0 ctx0 gp gc :
  names_rd w rd_addr g_rd -> (exists l, T !! gp = Some l) -> (exists l, T !! gc = Some l) ->
  (forall y l, T0 !! y = Some l -> T !! y = None) -> rtt_inv ctx0 (r_mem w) T0 ->
  agree T0 (r_mem w) (with_lock (with_lock (with_lock (r_mem w) g_rd) gp) gc).
Proof.
  intros Hnm Hgp [l Hgc] Hdis HT0 y l0 Hy. destruct (locks_agree w rd_addr g_rd T T0 ctx0 gp Hnm Hgp Hdis HT0 y l0 Hy) as [H1 H2].
  pose proof (Hdis y l0 Hy). assert (y <> gc) by congruence. split; [exact H1|]. by rewrite with_lock_desc_ne.
Qed.

(** [rtt_destroy_parent], with RD and the last table of the walk locked. *)
Lemma destroy_parent_ok w F rd_addr g_rd rd lpa2 bits sl i ctx T wi addr level aux in_par res (Q : Z * smc_result * bool -> rmm -> Prop) :
  inv w F -> names_rd w rd_addr g_rd -> r_rds w !! g_rd = Some rd -> rd_ok rd lpa2 bits sl ->
  (forall i, 0 <= i < realm_num_s2_rtts rd -> exists T, F !! (g_rd, i) = Some T) ->
  i = cmd_index aux i -> F !! (g_rd, i) = Some T -> owns w g_rd i rd ctx T ->
  0 <= addr < 2 ^ bits -> sl + 1 <= level <= 3 -> (s2tte_map_size (level - 1) | addr) ->
  walked w ctx T addr (level - 1) wi ->
  let x1 := with_mem w (with_lock (with_lock (r_mem w) g_rd) (g_llt wi)) in
  addr_in_par rd addr = Some in_par ->
  (forall st skip, st <> RMI_SUCCESS -> destroy_stop w addr level aux rd ctx (g_llt wi) (last_level wi) st -> Q (st, res, skip) x1) ->
  (forall w' p gc pa tc,
     unlinked w w' rd ctx T (g_llt wi) (level - 1) (index wi) gc pa addr (destroyed_kind in_par) p (negb in_par) ->
     tables (r_mem w) !! gc = Some tc -> table_refs ctx level tc = 0 -> last_level wi = level - 1 -> gc <> g_rd ->
     Q (RMI_SUCCESS, set_x1 pa res, true) (with_mem w' (with_lock (with_lock (r_mem w') g_rd) (g_llt wi)))) ->
  runs (rtt_destroy_parent rd ctx wi addr level aux in_par res) x1 Q.
Proof.
  intros Hinv Hnm Hrd Hr HF Hi0 HT Hown Ha Hlv Hd Hwk x1 Hpar Herr HQ. subst x1.
  destruct (walked_visits _ _ _ _ _ _ Hwk ltac:(lia)) as [Hvis Hix]. destruct Hwk as [_ [_ Hidx] Hgp Hll _].
  pose proof Hown as [_ Hi Hc _ Htree]. pose proof (rtts_planes _ _ _ _ _ Hr Hi) as Hip. unfold rtt_destroy_parent.
  destruct (tree_table_at _ _ _ _ _ Htree Hgp) as (tp & Htp & Hltp & _ & _ & Hent).
  destruct (arr_get_some tp (index wi)) as [e He]; [rewrite Hltp; unfold N_S2TTES, S2TTES_PER_S2TT in *; lia|].
  eapply runs_bind, runs_get; [exact Htp|]. eapply runs_bind, runs_lift; [exact He|].
  assert (Hat : entry_at w (g_llt wi) addr (last_level wi) e) by (exists tp; by rewrite <- Hix).
  assert (Hpack : forall a l (K : Z -> H (Z * smc_result * bool)) y, (forall st, st <> RMI_SUCCESS -> rtt_error a l st -> runs (K st) y Q) ->
    runs (status <-! lift (pack_return_code_level (rtt_err_code a) (u8 l)) ;; K status) y Q).
  { intros a l K y HK. destruct (rtt_error_some a l) as (st & Hst & Hne). eapply runs_bind, runs_lift; [exact Hst|]. by apply HK. }
  destruct (_ || _) eqn:Hcond.
  { apply Hpack. intros st Hst Hrt. apply runs_ret. apply Herr; [done|]. exists e. split; [done|]. left. split; [|done].
    destruct (decide (last_level wi < level - 1)); [by left|right]. replace (last_level wi) with (level - 1) by lia.
    apply orb_true_iff in Hcond as [|Hcond]; [lia|]. by destruct (s2tte_is_table ctx e (level - 1)). }
  apply orb_false_iff in Hcond as [Hc1 Hc2]. assert (Hlast : last_level wi = level - 1) by lia. apply negb_false_iff in Hc2.
  rewrite Hlast in Hgp, Hvis, Hix, Hent, Hat, Herr.
  destruct (at_parent_intro w rd_addr rd lpa2 bits sl g_rd i ctx T wi addr level tp e) as (pa & gc & tc & Hap); eauto.
  destruct (at_parent_ne _ _ _ _ _ _ _ _ _ _ _ _ _ _ _ _ _ Hap) as (_ & N2 & _).
  destruct (at_parent_descs _ _ _ _ _ _ _ _ _ _ _ _ _ _ _ _ _ Hap) as (Hgg2 & _ & Hdc & _ & _ & Hrc & _).
  pose proof (ap_child _ _ _ _ _ _ _ _ _ _ _ _ _ _ _ _ _ Hap) as (Hgn & Hgc & _).
  pose proof (ap_contents _ _ _ _ _ _ _ _ _ _ _ _ _ _ _ _ _ Hap) as (Htc & _).
  pose proof (ap_entry _ _ _ _ _ _ _ _ _ _ _ _ _ _ _ _ _ Hap) as [_ Hpa].
  eapply runs_bind, runs_lift; [exact Hpa|]. eapply runs_bind, runs_lift; [exact Hgn|]. eapply runs_bind, runs_on_mem; [by eapply with_lock_lock|]. rewrite with_mem_mem.
  eapply runs_bind, runs_get.
  { cbn [r_mem with_mem]. rewrite Hdc. cbn [mbind option_bind]. unfold refcount_read.
    by rewrite encode_refcount by (by left || (apply wf_count; (done || lia))). }
  assert (Hback : forall K : H (Z * smc_result * bool), runs K (with_mem w (with_lock (with_lock (r_mem w) g_rd) (g_llt wi))) Q ->
    runs (_ <-! h_granule_unlock gc ;; K) (with_mem w (with_lock (with_lock (with_lock (r_mem w) g_rd) (g_llt wi)) gc)) Q)
    by (intros K HK; apply runs_bind; eapply runs_on_mem; [by eapply with_lock_unlock|done]).
  cbn [a_ref]. destruct (Z.eqb_spec (table_refs ctx level tc) 0) as [Hz|]; cbn [negb].
  2: { apply Hpack. intros st Hst Hrt. apply Hback, runs_ret. apply Herr; [done|]. exists e. split; [done|]. right.
       split_and!; try done. exists pa, gc, tc. split_and!; try done. by left. }
  apply runs_bind. apply (aux_check_ok rd lpa2 bits sl); [done|done| | |].
  { intros -> Hpp. cbn [cmd_index] in Hi0. eapply (idle_trees w F g_rd rd lpa2 bits sl i ctx T); eauto.
    intros T0 Hdis [c0 HT0]. eapply locks3_agree; eauto. }
  2: { intros -> -> Hpp Hsl Href. rewrite Hlast. apply (Hpack false). intros st Hst Hrt. apply Hback, runs_ret. apply Herr; [done|].
       exists e. split; [done|]. right. split_and!; try done. exists pa, gc, tc. split_and!; try done. right.
       unfold aux_blocked. split_and!; try done. by eapply aux_referenced_tables; [|exact Href]. }
  apply runs_bind. eapply destroy_child_ok; [exact Hap|exact Hz|]. intros w' p Hul. apply runs_ret. by eapply HQ.
Qed.


(** An unreferenced table has no table entries. *)
Lemma unreferenced_childless ctx lpa2 m T level gc tc :
  s2tt_lpa2_enabled ctx = Some lpa2 -> -1 <= level <= 3 -> rtt_inv ctx m T -> T !! gc = Some level ->
  tables m !! gc = Some tc -> table_refs ctx level tc = 0 -> childless ctx m T gc.
Proof.
  intros Hl Hlv HT Hgc Htc Hz i c (l & t & u & pa & Hg & Hll & Ht & Hu & Hit & _).
  assert (l = level) as -> by congruence. assert (t = tc) as -> by congruence. unfold S2TT_PAGE_LEVEL in Hll.
  destruct (tree_table_at _ _ _ _ _ HT Hgc) as (tc2 & Htc2 & _ & _ & _ & Hent). assert (tc2 = tc) as -> by congruence.
  pose proof (table_refs_zero ctx level tc i u Hz Hu) as Hr.
  assert (Htab : s2tte_is_table ctx u level = true)
    by (unfold s2tte_is_table, S2TT_PAGE_LEVEL; rewrite (proj2 (Z.ltb_lt level 3)) by lia; exact Hit).
  destruct (Hent i u Hu) as [Hm|(k & pa' & Hb)].
  - destruct (marked_kind ctx lpa2 level u Hl Hlv Hm) as (k & Hk & H). pose proof (H K_table) as H1. cbn [is_kind] in H1.
    rewrite Htab in H1. injection H1 as H1. symmetry in H1. apply bool_decide_eq_true in H1 as ->. done.
  - rewrite (built_is_table ctx lpa2 level k pa' u Hl Hlv Hb) in Htab. apply bool_decide_eq_true in Htab as ->.
    by rewrite (entry_refs_built ctx lpa2 level K_table pa' u Hl Hlv Hb) in Hr.
Qed.

(** The address the command reports. *)
Lemma skip_total ctx lpa2 addr t wi :
  s2tt_lpa2_enabled ctx = Some lpa2 -> length t = N_S2TTES -> 0 <= index wi < S2TTES_PER_S2TT ->
  (if lpa2 then -1 else 0) <= last_level wi <= 3 -> 0 <= addr < 2 ^ 52 ->
  is_Some (s2tt_skip_non_live_entries ctx (round_down addr (s2tte_map_size (last_level wi))) t wi).
Proof.
  intros Hl Hlen Hi Hlv Ha. assert (Hlv1 : -1 <= last_level wi <= 3) by (destruct lpa2; lia).
  assert (Hms : s2tte_map_size (last_level wi) <= 2 ^ 48)
    by (rewrite s2tte_map_size_eq by done; apply Z.pow_le_mono_r; lia).
  assert (Hrd : 0 <= round_down addr (s2tte_map_size (last_level wi)) <= addr).
  { rewrite s2tte_map_size_eq by done. rewrite round_down_spec; [|unfold in_u64; lia|lia].
    pose proof (Z.mod_pos_bound addr (2 ^ ((3 - last_level wi) * 9 + 12)) ltac:(apply Z.pow_pos_nonneg; lia)).
    pose proof (Z.mod_le addr (2 ^ ((3 - last_level wi) * 9 + 12)) ltac:(lia) ltac:(apply Z.pow_pos_nonneg; lia)). lia. }
  destruct (skip_non_live_ok ctx lpa2 (round_down addr (s2tte_map_size (last_level wi))) t wi Hl Hlen Hi Hlv) as (j & _ & _ & _ & ->);
    [lia|lia|by eexists].
Qed.

Lemma destroyed_childless w w' g i rd ctx T gp level j gc ra addr k p whole tc :
  owns w g i rd ctx T -> unlinked w w' rd ctx T gp (level - 1) j gc ra addr k p whole ->
  tables (r_mem w) !! gc = Some tc -> table_refs ctx level tc = 0 -> childless ctx (r_mem w) T gc.
Proof.
  intros Hown Hul Htc Hz. destruct (owns_ctx_ok _ _ _ _ _ _ Hown) as [lpa2 [Hl _ _ _ _]].
  pose proof (own_tree _ _ _ _ _ _ Hown) as HT. destruct (unlinked_child _ _ _ _ _ _ _ _ _ _ _ _ _ _ HT Hul) as [Hgc Hne].
  pose proof (ul_level _ _ _ _ _ _ _ _ _ _ _ _ _ _ Hul) as Hlv. rewrite Hl in Hlv. cbn in Hlv.
  replace (level - 1 + 1) with level in Hgc by lia.
  eapply (unreferenced_childless ctx lpa2 (r_mem w) T level); eauto. destruct lpa2; lia.
Qed.

Lemma destroyed_inv w w' F g i rd ctx T gp level j gc ra addr k p whole tc :
  inv w F -> F !! (g, i) = Some T -> owns w g i rd ctx T ->
  unlinked w w' rd ctx T gp (level - 1) j gc ra addr k p whole ->
  tables (r_mem w) !! gc = Some tc -> table_refs ctx level tc = 0 -> inv w' (<[(g, i) := delete gc T]> F).
Proof. intros Hinv HF Hown Hul Htc Hz. eapply unlinked_inv; eauto using destroyed_childless. Qed.

Lemma destroy_ok w F rd_addr map_addr ulevel idx aux res :
  inv w F -> 0 <= map_addr -> 0 <= idx ->
  runs (rtt_destroy rd_addr map_addr ulevel idx aux res) w (fun out w' =>
    (res_x0 out <> RMI_SUCCESS /\ destroy_refused w rd_addr map_addr (to_long ulevel) idx aux (res_x0 out) /\ w' = w) \/
    (exists g rd ctx T gp j gc ra p in_par tc,
       res_x0 out = RMI_SUCCESS /\ res_x1 out = ra /\
       names_rd w rd_addr g /\ owns w g (cmd_index aux idx) rd ctx T /\ F !! (g, cmd_index aux idx) = Some T /\
       0 <= map_addr < 2 ^ ipa_bits ctx /\ addr_in_par rd map_addr = Some in_par /\
       unlinked w w' rd ctx T gp (to_long ulevel - 1) j gc ra map_addr (destroyed_kind in_par) p (negb in_par) /\
       tables (r_mem w) !! gc = Some tc /\ table_refs ctx (to_long ulevel) tc = 0)).
Proof.
  intros Hinv Hma Hidx. unfold rtt_destroy. set (level := to_long ulevel). apply runs_bind. apply (lock_rd w F); [done| |].
  { intros st Hst Hwhy. cbn [fst]. rewrite (proj2 (Z.eqb_neq st RMI_SUCCESS)) by done. cbn [negb]. apply runs_ret. left.
    split; [done|]. split; [by apply ref_rd|done]. }
  intros g Hg. cbn [fst snd]. rewrite Z.eqb_refl. cbn [negb]. eapply runs_bind, runs_lift; [done|].
  pose proof Hg as (Hga & r & Hrg). destruct (inv_rd _ _ Hinv g r Hrg) as (rd & lpa2 & bits & sl & Hrd & Hok & HF).
  destruct (rd_sizes _ _ _ _ Hok) as (Hbb & _ & _ & Hpar).
  eapply runs_bind, runs_get; [exact Hrd|]. eapply runs_bind, runs_lift; [apply Hpar|].
  destruct (structure_valid rd lpa2 bits sl map_addr level Hok Hma) as (b & Hb & Hbt).
  eapply runs_bind, runs_lift; [exact Hb|]. destruct b; cbn [negb].
  2: { apply runs_bind. eapply unlock_rd; [exact Hg| |done]. apply runs_ret. left. split; [done|].
       split; [eapply ref_args; eauto|done]. }
  destruct (Hbt eq_refl) as (Hlv & Hlt & Hd).
  destruct (cmd_ctx rd lpa2 bits sl aux idx map_addr Hok Hidx) as (sel & Hsel & Hctx).
  eapply runs_bind, runs_lift; [exact Hsel|]. destruct sel as [ctx|].
  2: { apply runs_bind. eapply unlock_rd; [exact Hg| |done]. apply runs_ret. left. split; [done|].
       split; [eapply ref_args; eauto|done]. }
  destruct (Hctx ctx eq_refl) as [Hi Hc]. destruct (realm_tree _ _ _ _ _ _ Hinv Hrd HF Hi Hc) as (T & HT & Hown).
  pose proof (own_tree _ _ _ _ _ _ Hown) as Htree. pose proof (rtts_planes _ _ _ _ _ Hok Hi) as Hip.
  destruct (rd_ctx_ok _ _ _ _ Hok _ _ Hip Hc) as (Hcok & Hbits & Hsl & _). pose proof Hcok as [Hl _ Hs _ _].
  assert (H52 : map_addr < 2 ^ 52)
    by (assert (2 ^ bits <= 2 ^ 52) by (apply Z.pow_le_mono_r; unfold oa_bits in Hbb; destruct lpa2; lia); lia).
  apply (lock_walk w g ctx lpa2 T); try done; [by eapply not_in_tree|by rewrite Hbits|lia|].
  intros wi Hwk. pose proof (wk_tree _ _ _ _ _ _ Hwk) as Hgp. pose proof (wk_index _ _ _ _ _ _ Hwk) as [_ Hix].
  pose proof (wk_level _ _ _ _ _ _ Hwk) as Hll.
  destruct (tree_table_at _ _ _ _ _ Htree Hgp) as (tp & Htp & Hltp & _ & Hpg & _). apply runs_bind.
  eapply (destroy_parent_ok w F rd_addr g rd lpa2 bits sl (cmd_index aux idx) ctx T); try done; [by destruct aux| |].
  - intros st skip Hst Hwhy. apply runs_bind.
    assert (Htop : forall Q : Z -> rmm -> Prop, (forall top, Q top (with_mem w (with_lock (with_lock (r_mem w) g) (g_llt wi)))) ->
      runs (if skip then parent_s2tt <-! map_table (g_llt wi) ;;
              lift (s2tt_skip_non_live_entries ctx (round_down map_addr (s2tte_map_size (last_level wi))) parent_s2tt wi)
            else ret map_addr) (with_mem w (with_lock (with_lock (r_mem w) g) (g_llt wi))) Q).
    { intros Q HQ. destruct skip; [|by apply runs_ret]. eapply runs_bind, runs_get; [exact Htp|].
      destruct (skip_total ctx lpa2 map_addr tp wi Hl Hltp Hix ltac:(destruct lpa2; lia) ltac:(lia)) as [top Ht].
      by eapply runs_lift. }
    apply Htop. intros top. eapply (release_both w g r (g_llt wi)); [exact Hrg|exact Hpg|]. apply runs_ret. left.
    split; [exact Hst|]. split; [|done]. destruct (walked_visits _ _ _ _ _ _ Hwk ltac:(lia)) as [Hvis _].
    destruct Hwk as [_ _ _ _ Hstop]. eapply ref_stop; eauto. lia.
  - intros w' p gc pa tc Hul Htc Hz Hlast Hgc.
    destruct (unlinked_granules _ _ _ _ _ _ _ _ _ _ _ _ _ _ g r Hul Htree Hrg Hgc) as (Hrg' & rp & Hpg').
    destruct (ul_entry _ _ _ _ _ _ _ _ _ _ _ _ _ _ Hul) as (e & tp2 & tp' & tc2 & evs & Htp2 & _ & _ & Hset & _ & _ & Hw').
    assert (tp2 = tp) as -> by congruence. apply runs_bind. eapply runs_bind, runs_get.
    { instantiate (1 := tp'). rewrite Hw'. apply mem_upd_parent. }
    destruct (skip_total ctx lpa2 map_addr tp' wi Hl ltac:(by rewrite (arr_set_length _ _ _ _ Hset)) Hix
      ltac:(destruct lpa2; lia) ltac:(lia)) as [top Ht]. eapply runs_lift; [exact Ht|].
    eapply (release_both w' g r (g_llt wi)); [exact Hrg'|exact Hpg'|]. apply runs_ret. right.
    exists g, rd, ctx, T, (g_llt wi), (index wi), gc, pa, p, (map_addr <? Z.shiftr (2 ^ bits) 1), tc.
    rewrite Hbits. split_and!; try done; try (apply Hpar).
Qed.

(** Translations of the tree itself after a destroy. *)
Lemma destroyed_translate w w' rd ctx lpa2 T gp lp j gc ra addr in_par p whole a :
  ctx_ok ctx lpa2 -> rtt_inv ctx (r_mem w) T ->
  unlinked w w' rd ctx T gp lp j gc ra addr (destroyed_kind in_par) p whole -> childless ctx (r_mem w) T gc ->
  0 <= a < 2 ^ ipa_bits ctx -> 0 <= addr < 2 ^ ipa_bits ctx ->
  translate ctx (r_mem w') a =
    if decide (a / s2tte_map_size lp = addr / s2tte_map_size lp)
    then Some (destroyed_kind in_par, 0, entry_attrs ctx (destroyed_kind in_par) p) else translate ctx (r_mem w) a.
Proof.
  intros Hctx HT Hul Hch Ha Had. pose proof Hctx as [Hl _ Hsl _ _].
  destruct (unlinked_child _ _ _ _ _ _ _ _ _ _ _ _ _ _ HT Hul) as [Hgc Hne].
  pose proof (unlinked_mem _ _ _ _ _ _ _ _ _ _ _ _ _ _ Hul) as (_ & _ & Hfr).
  destruct Hul as [Hgp Hlv Hpt [Hvis Hj] Hnm (Hk & base & Hb) (e & tp & tp' & tc & evs & Htp & He & Hbe & Hset & Htc & _ & Hw')].
  rewrite Hl in Hlv. cbn in Hlv. assert (Hlv1 : -1 <= lp < 3) by (destruct lpa2; lia).
  destruct (built_table_entry ctx lpa2 lp (destroyed_kind in_par) base p Hl Hlv1 Hb) as [Hep _].
  assert (Hmean : entry_meaning ctx lp p a = Some (destroyed_kind in_par, 0, entry_attrs ctx (destroyed_kind in_par) p)).
  { unfold entry_meaning. rewrite (kind_of_built ctx lpa2 lp (destroyed_kind in_par) base p Hl ltac:(lia) Hb). by destruct in_par. }
  rewrite <- Hmean. subst j.
  (* the child leaves the tree, so the walk is compared on the tree without it *)
  eapply (translate_changed ctx lpa2 (r_mem w) (r_mem w') T gp lp addr tp' p a); try done.
  - split.
    + intros y l Hy Hyp. destruct (decide (y = gc)) as [->|Hyc]; [|by apply Hfr].
      subst w'. cbn [r_mem with_log with_mem]. rewrite (proj2 (mem_upd_child _ _ _ _ _ _ _ Hne)). congruence.
    + exists tp, tp'. split_and!; try done; [subst w'; apply mem_upd_parent|].
      intros y Hy. by rewrite (arr_get_set _ _ _ _ y Hset), (proj2 (Z.eqb_neq y _)).
  - subst w'. apply mem_upd_parent.
  - by rewrite (arr_get_set _ _ _ _ _ Hset), Z.eqb_refl.
  - intros _. rewrite Hep. destruct in_par; done.
Qed.



End Unlink.
