(* ===== verification/RttData.v ===== *)
(** * Initial contents of a realm: RMI_RTT_DATA_MAP_INIT ([runtime/rmi/rtt_map.c])

    Before a realm is activated the host gives it its initial memory, one granule
    at a time: a delegated granule is filled from non-secure memory, measured and
    mapped.  The whole handler, and its correctness. *)

From Stdlib Require Import ZArith Lia Bool ZifyBool.
From stdpp Require Import base tactics option list numbers gmap.
From S2P Require Import Prelude.
From S2P Require Import Smc.
From S2P Require Import Utils.
From S2P Require Import Status.
From S2P Require Import Granule.
From S2P Require Import Mem.
From S2P Require Import Arch.
From S2P Require Import S2tte.
From S2P Require Import S2tteFacts.
From S2P Require Import S2tteProps.
From S2P Require Import S2tlbi.
From S2P Require Import S2ttTable.
From S2P Require Import S2ttWalk.
From S2P Require Import RttFold.
From S2P Require Import RttFoldProps.
From S2P Require Import Realm.
From S2P Require Import RttTree.
From S2P Require Import Rmm.
From S2P Require Import RttCmds.
From S2P Require Import RttInv.
From S2P Require Import RttPath.
From S2P Require Import RttRefuse.
From S2P Require Import RttCreate.

Definition RMI_NO_MEASURE_CONTENT : Z := 0.
Definition RMI_MEASURE_CONTENT : Z := 1.

(** Non-secure memory: whether a granule can be read in full, and what reading it
    leaves in a destination that held [old]. *)
Class NsMemory := {
  ns_buffer_read_addr : Z -> list Z -> bool * list Z;
  ns_buffer_read_length : forall addr old, length (snd (ns_buffer_read_addr addr old)) = length old
}.

Section Cmd.
Context `{feat : ArchFeatures} `{lookup : GranuleLookup} `{ns : NsMemory}.
Implicit Types (rd : rd) (s2_ctx : s2tt_context) (wi : s2tt_walk) (res : smc_result).

(** From the map of the data granule to [out_unmap_ll_table]. *)
Definition data_map_init_data (g_rd : Z) s2_ctx wi (g_data s2tte data_addr map_addr src_addr flags : Z) : H Z :=
  data <-! map_table g_data ;;
  let '(ns_access_ok, data) := ns_buffer_read_addr src_addr data in
  _ <-! fill_table g_data data ;;
  if negb ns_access_ok then
    _ <-! h_granule_unlock g_data ;;
    ret RMI_ERROR_INPUT
  else
    _ <-! emit (E_measure_data g_rd map_addr flags data) ;;
    s2tte <-! lift (s2tte_create_assigned_ram s2_ctx data_addr S2TT_PAGE_LEVEL s2tte) ;;
    _ <-! s2tte_write (g_llt wi) (index wi) s2tte ;;
    _ <-! h_on_desc (g_llt wi) atomic_granule_get ;;
    _ <-! h_on_desc g_data (fun d => granule_unlock_transition d GRANULE_STATE_DATA) ;;
    ret RMI_SUCCESS.

(** From the end of the walk to [out_unlock_ll_table]. *)
Definition data_map_init_llt (g_rd : Z) s2_ctx wi (data_addr map_addr src_addr flags : Z) : H Z :=
  if negb (last_level wi =? S2TT_PAGE_LEVEL) then
    lift (pack_return_code_level RMI_ERROR_RTT (u8 (last_level wi)))
  else
    s2tt <-! map_table (g_llt wi) ;;
    s2tte <-! lift (s2tte_read s2tt (index wi)) ;;
    if negb (s2tte_is_unassigned s2_ctx s2tte) then
      lift (pack_return_code_level RMI_ERROR_RTT (u8 S2TT_PAGE_LEVEL))
    else if s2tte_drain_pending s2tte then ret RMI_BUSY
    else
      found <-! find_lock_rtt_backing_granule g_rd wi data_addr ;;
      if negb (fst found =? RMI_SUCCESS) then ret (fst found)
      else
        g_data <-! lift (snd found) ;;
        data_map_init_data g_rd s2_ctx wi g_data s2tte data_addr map_addr src_addr flags.

(** From the map of the RD to [out_unmap_rd]. *)
Definition data_map_init_rd rd (g_rd data_addr map_addr src_addr flags : Z) : H Z :=
  if negb (get_rd_state_locked rd =? REALM_NEW) then ret RMI_ERROR_REALM else
  in_par <-! lift (addr_in_par rd map_addr) ;;
  ok <-! lift (if in_par : bool then validate_map_addr map_addr S2TT_PAGE_LEVEL rd else Some false) ;;
  if negb ok then ret RMI_ERROR_INPUT else
  s2_ctx <-! lift (arr_get (s2_ctxs rd) PRIMARY_S2_CTX_ID) ;;
  if s2oa_limit s2_ctx <=? data_addr then ret RMI_ERROR_INPUT else
  _ <-! h_granule_lock (g_rtt s2_ctx) GRANULE_STATE_RTT ;;
  wi <-! on_mem (s2tt_walk_lock_unlock s2_ctx map_addr S2TT_PAGE_LEVEL) ;;
  status <-! data_map_init_llt g_rd s2_ctx wi data_addr map_addr src_addr flags ;;
  _ <-! h_granule_unlock (g_llt wi) ;;
  ret status.

Definition smc_rtt_data_map_init (rd_addr data_addr map_addr src_addr flags : Z) res : H smc_result :=
  if negb (GRANULE_ALIGNED src_addr)
     || (negb (flags =? RMI_NO_MEASURE_CONTENT) && negb (flags =? RMI_MEASURE_CONTENT))
  then ret (set_x0 RMI_ERROR_INPUT res) else
  found <-! on_mem (find_lock_fine_granule rd_addr GRANULE_STATE_RD) ;;
  if negb (fst found =? RMI_SUCCESS) then ret (set_x0 (fst found) res) else
  g_rd <-! lift (snd found) ;;
  rd <-! map_rd g_rd ;;
  status <-! data_map_init_rd rd g_rd data_addr map_addr src_addr flags ;;
  _ <-! h_granule_unlock g_rd ;;
  ret (set_x0 status res).

End Cmd.

(** ** Correctness *)

Section Correct.
Context `{feat : ArchFeatures} `{lookup : GranuleLookup} `{ns : NsMemory}.
Implicit Types (w : rmm) (F : forest) (rd : rd) (ctx : s2tt_context) (T : tree).

Lemma class_bits_hipas lpa2 level k c :
  -1 <= level <= 3 -> class_bits lpa2 level k c -> kind_live k = true -> s2tte_has_hipas c S2TTE_INVALID_HIPAS_UNASSIGNED = false.
Proof.
  intros Hlv Hc Hk. destruct k; cbn [class_bits kind_live] in *; try discriminate Hk; clear Hk.
  all: try (destruct Hc as (m & Hm%memattr_values & Hc)); try (destruct Hc as [Hc|Hc]).
  all: level_cases level; destruct lpa2; try (destruct_or! Hm); subst; reflexivity.
Qed.

(** An entry that is unassigned and carries no drain mark was built so. *)
Lemma unassigned_built ctx lpa2 level e :
  s2tt_lpa2_enabled ctx = Some lpa2 -> -1 <= level <= 3 -> entry_ok ctx level e ->
  s2tte_is_unassigned ctx e = true -> s2tte_drain_pending e = false ->
  exists k pa, kind_live k = false /\ built ctx level k pa e.
Proof.
  intros Hl Hlv [[Hd _]|(k & pa & Hb)] Hu Hnd; [congruence|]. exists k, pa. split; [|done].
  destruct (kind_live k) eqn:Hk; [|done]. exfalso. unfold s2tte_is_unassigned in Hu.
  rewrite <- (land_class_hipas lpa2), (class_bits_hipas lpa2 level k) in Hu; [done|done| |done].
  by eapply built_class_bits.
Qed.


(** Everything a successful command did: entry for [addr] of the last-level table
    [gp], unassigned, now maps the granule [gc], filled with [data]. *)
Record data_mapped w w' (g_rd : Z) ctx T (gp gc data_addr addr flags : Z) (data : list Z) : Prop := {
  dm_table : T !! gp = Some S2TT_PAGE_LEVEL;
  dm_visits : visits ctx (r_mem w) addr gp S2TT_PAGE_LEVEL;
  dm_ne : gp <> gc;
  dm_old : granule_at (r_mem w) gc (AGranule false GRANULE_STATE_DELEGATED 0);
  dm_name : tr_addr_to_granule data_addr = Some gc;
  dm_data : length data = N_S2TTES;
  dm_entry : exists k pa e v tp tp', let j := s2_addr_to_idx addr S2TT_PAGE_LEVEL in
    tables (r_mem w) !! gp = Some tp /\ length tp = N_S2TTES /\ arr_get tp j = Some e /\
    kind_live k = false /\ built ctx S2TT_PAGE_LEVEL k pa e /\
    s2tte_create_assigned_ram ctx data_addr S2TT_PAGE_LEVEL e = Some v /\ arr_set tp j v = Some tp' /\
    (forall i u, arr_get tp i = Some u -> entry_ok ctx S2TT_PAGE_LEVEL u) /\
    w' = with_log (with_mem w (mem_upd (r_mem w)
           gp (AGranule false GRANULE_STATE_RTT (table_refs ctx S2TT_PAGE_LEVEL tp')) tp'
           gc (AGranule false GRANULE_STATE_DATA 0) data))
         [E_measure_data g_rd addr flags data; E_write gp j v]
}.

Lemma ram_entry_total ctx lpa2 pa e :
  s2tt_lpa2_enabled ctx = Some lpa2 -> GRANULE_ALIGNED pa = true -> 0 <= pa < 2 ^ oa_bits lpa2 ->
  exists v, s2tte_create_assigned_ram ctx pa S2TT_PAGE_LEVEL e = Some v.
Proof.
  intros Hl Hg Hpa. assert (Ha : s2tte_is_addr_lvl_aligned ctx pa S2TT_PAGE_LEVEL = Some true).
  { apply (addr_lvl_aligned_arith _ lpa2); [done|]. unfold S2TT_PAGE_LEVEL. split_and!; try lia.
    change (s2tte_map_size 3) with GRANULE_SIZE. by apply GRANULE_ALIGNED_spec. }
  destruct (aligned_pa_some _ _ _ _ Hl Ha) as [t Ht].
  unfold s2tte_create_assigned_ram, s2tte_create_assigned. cbv zeta. rewrite ?Hl, Ha, Ht. cbn. by eexists.
Qed.

Lemma transition_to_data :
  granule_unlock_transition (encode GRN (AGranule true GRANULE_STATE_DELEGATED 0)) GRANULE_STATE_DATA
  = Some (encode GRN (AGranule false GRANULE_STATE_DATA 0)).
Proof. reflexivity. Qed.

(** The count of the table: one more reference. *)
Lemma refs_to_data ctx lpa2 k pa t t' j e v data_addr :
  s2tt_lpa2_enabled ctx = Some lpa2 -> built ctx S2TT_PAGE_LEVEL k pa e -> kind_live k = false ->
  s2tte_create_assigned_ram ctx data_addr S2TT_PAGE_LEVEL e = Some v ->
  arr_get t j = Some e -> arr_set t j v = Some t' ->
  table_refs ctx S2TT_PAGE_LEVEL t' = table_refs ctx S2TT_PAGE_LEVEL t + 1.
Proof.
  intros Hl He Hk Hv Hg Hs. rewrite (table_refs_set ctx S2TT_PAGE_LEVEL t j e v t' Hg Hs).
  rewrite (entry_refs_built ctx lpa2 S2TT_PAGE_LEVEL k pa e Hl) by (unfold S2TT_PAGE_LEVEL; done || lia).
  rewrite (entry_refs_built ctx lpa2 S2TT_PAGE_LEVEL K_assigned_ram data_addr v Hl);
    [|unfold S2TT_PAGE_LEVEL; lia|by eapply b_ar]. destruct k; try discriminate Hk; cbn; lia.
Qed.

(** ** Refusals *)

Definition data_stop w (rd_addr data_addr map_addr : Z) ctx (gp l st : Z) : Prop :=
  (l < S2TT_PAGE_LEVEL /\ rtt_error false l st) \/
  (l = S2TT_PAGE_LEVEL /\ exists e, entry_at w gp map_addr l e /\
     ((s2tte_is_unassigned ctx e = false /\ rtt_error false l st) \/ (s2tte_drain_pending e = true /\ st = RMI_BUSY))) \/
  (l = S2TT_PAGE_LEVEL /\ (data_addr = rd_addr \/ tr_addr_to_granule data_addr = Some gp) /\ st = RMI_ERROR_INPUT) \/
  (l = S2TT_PAGE_LEVEL /\ lookup_refuses w data_addr GRANULE_STATE_DELEGATED st).

Inductive data_refused w (rd_addr data_addr map_addr src_addr flags : Z) : Z -> Prop :=
  | dr_args : GRANULE_ALIGNED src_addr = false \/ (flags <> RMI_NO_MEASURE_CONTENT /\ flags <> RMI_MEASURE_CONTENT) ->
      data_refused w rd_addr data_addr map_addr src_addr flags RMI_ERROR_INPUT
  | dr_rd st : lookup_refuses w rd_addr GRANULE_STATE_RD st ->
      data_refused w rd_addr data_addr map_addr src_addr flags st
  | dr_state g rd : names_rd w rd_addr g -> r_rds w !! g = Some rd -> get_rd_state_locked rd <> REALM_NEW ->
      data_refused w rd_addr data_addr map_addr src_addr flags RMI_ERROR_REALM
  | dr_addr g rd ctx : names_rd w rd_addr g -> r_rds w !! g = Some rd ->
      arr_get (s2_ctxs rd) PRIMARY_S2_CTX_ID = Some ctx ->
      addr_in_par rd map_addr = Some false \/ validate_map_addr map_addr S2TT_PAGE_LEVEL rd = Some false \/
      s2oa_limit ctx <= data_addr ->
      data_refused w rd_addr data_addr map_addr src_addr flags RMI_ERROR_INPUT
  | dr_stop g rd ctx T gp l st : names_rd w rd_addr g -> owns w g PRIMARY_S2_CTX_ID rd ctx T ->
      visits ctx (r_mem w) map_addr gp l -> l <= S2TT_PAGE_LEVEL ->
      (l < S2TT_PAGE_LEVEL -> next_table ctx (r_mem w) gp map_addr l = None) ->
      data_stop w rd_addr data_addr map_addr ctx gp l st ->
      data_refused w rd_addr data_addr map_addr src_addr flags st.

(** The source could not be read: only the contents of the granule, still
    delegated, may have changed. *)
Definition source_fault w w' (data_addr src_addr : Z) : Prop :=
  exists gc old, tr_addr_to_granule data_addr = Some gc /\
    granule_at (r_mem w) gc (AGranule false GRANULE_STATE_DELEGATED 0) /\
    tables (r_mem w) !! gc = Some old /\ fst (ns_buffer_read_addr src_addr old) = false /\
    w' = with_mem w (set_table (r_mem w) gc (snd (ns_buffer_read_addr src_addr old))).

(** ** The command *)

(** The granule is filled; when the source was read in full, measured and mapped. *)
Lemma data_fill_ok w g_rd ctx lpa2 wi k pa e tp gc old data_addr addr src_addr flags (Q : Z -> rmm -> Prop) :
  let m1 := with_lock (with_lock (r_mem w) g_rd) (g_llt wi) in
  let data := snd (ns_buffer_read_addr src_addr old) in
  s2tt_lpa2_enabled ctx = Some lpa2 -> GRANULE_ALIGNED data_addr = true -> 0 <= data_addr < 2 ^ oa_bits lpa2 ->
  granule_at m1 gc (AGranule false GRANULE_STATE_DELEGATED 0) -> gc <> g_llt wi ->
  tables (r_mem w) !! gc = Some old -> tables (r_mem w) !! g_llt wi = Some tp -> length tp = N_S2TTES ->
  descs m1 !! g_llt wi = Some (encode GRN (AGranule true GRANULE_STATE_RTT (table_refs ctx S2TT_PAGE_LEVEL tp))) ->
  arr_get tp (index wi) = Some e -> kind_live k = false -> built ctx S2TT_PAGE_LEVEL k pa e ->
  (fst (ns_buffer_read_addr src_addr old) = false -> Q RMI_ERROR_INPUT (with_mem w (set_table m1 gc data))) ->
  (forall v tp', fst (ns_buffer_read_addr src_addr old) = true ->
     s2tte_create_assigned_ram ctx data_addr S2TT_PAGE_LEVEL e = Some v -> arr_set tp (index wi) v = Some tp' ->
     Q RMI_SUCCESS (with_log (with_mem w (set_granule (mem_upd (with_lock m1 gc)
         (g_llt wi) (AGranule true GRANULE_STATE_RTT (table_refs ctx S2TT_PAGE_LEVEL tp')) tp'
         gc (AGranule true GRANULE_STATE_DELEGATED 0) data) gc (AGranule false GRANULE_STATE_DATA 0)))
       [E_measure_data g_rd addr flags data; E_write (g_llt wi) (index wi) v])) ->
  runs (data_map_init_data g_rd ctx wi gc e data_addr addr src_addr flags) (with_mem w (with_lock m1 gc)) Q.
Proof.
  intros m1 data Hl Hga Hda Hdel Hne Hold Htp Hltp Hdp He Hk Hb Hflt HQ. unfold data_map_init_data.
  eapply runs_bind, runs_get; [exact Hold|]. unfold data in *.
  destruct (ns_buffer_read_addr src_addr old) as [ok data']; cbn [fst snd] in *. apply runs_bind, runs_fill.
  destruct ok; cbn [negb].
  2: { apply runs_bind. eapply runs_on_mem; [|apply runs_ret, (Hflt eq_refl)].
       assert (granule_at (set_table m1 gc data') gc (AGranule false GRANULE_STATE_DELEGATED 0)) as Hd' by done.
       exact (with_lock_unlock _ _ _ Hd' eq_refl). }
  apply runs_bind, runs_emit. destruct (ram_entry_total ctx lpa2 data_addr e Hl Hga Hda) as [v Hv].
  destruct (arr_set tp (index wi) v) as [tp'|] eqn:Hset; [|by rewrite (arr_set_some _ _ _ (arr_get_lt _ _ _ He)) in Hset].
  pose proof (refs_to_data ctx lpa2 k pa tp tp' _ e v data_addr Hl Hb Hk Hv He Hset) as Hrp.
  pose proof (table_refs_range ctx S2TT_PAGE_LEVEL tp) as Hrg. rewrite Hltp in Hrg. unfold N_S2TTES in Hrg.
  destruct (locked_desc _ _ _ _ Hdel) as [Hdc _].
  eapply runs_bind, runs_lift; [exact Hv|]. eapply runs_bind, runs_write; [|exact Hset|].
  { cbn. rewrite lookup_insert_ne by done. exact Htp. }
  eapply runs_bind, runs_on_desc.
  { cbn. rewrite lookup_alter_ne by done. exact Hdp. }
  { apply (inc_locked GRANULE_STATE_RTT _ 1); try done; lia. }
  eapply runs_bind, runs_on_desc; [|exact transition_to_data|].
  { cbn. rewrite lookup_insert_ne by (by apply not_eq_sym). exact Hdc. }
  apply runs_ret. specialize (HQ v tp' eq_refl Hv Hset). rewrite Hrp in HQ.
  match goal with HQ : Q _ ?a |- Q _ ?b => replace b with a; [exact HQ|] end.
  unfold with_log, with_mem, mem_upd, set_table, set_granule. cbn. rewrite <- app_assoc. do 3 f_equal.
  by rewrite (insert_id (alter _ gc _) gc).
Qed.

(** From the walk on, with the RD locked. *)
Lemma data_walk_ok w F rd_addr g_rd rd lpa2 bits sl ctx T data_addr addr src_addr flags (Q : Z -> rmm -> Prop) :
  inv w F -> names_rd w rd_addr g_rd -> rd_ok rd lpa2 bits sl ->
  arr_get (s2_ctxs rd) PRIMARY_S2_CTX_ID = Some ctx -> rtt_inv ctx (r_mem w) T ->
  0 <= addr < 2 ^ bits -> 0 <= data_addr < s2oa_limit ctx ->
  (forall st gp l, st <> RMI_SUCCESS -> visits ctx (r_mem w) addr gp l -> l <= S2TT_PAGE_LEVEL ->
     (l < S2TT_PAGE_LEVEL -> next_table ctx (r_mem w) gp addr l = None) ->
     data_stop w rd_addr data_addr addr ctx gp l st -> Q st (with_mem w (with_lock (r_mem w) g_rd))) ->
  (forall w', source_fault w w' data_addr src_addr -> tr_addr_to_granule data_addr <> Some g_rd ->
     Q RMI_ERROR_INPUT (with_mem w' (with_lock (r_mem w') g_rd))) ->
  (forall w' gp gc old, data_mapped w w' g_rd ctx T gp gc data_addr addr flags (snd (ns_buffer_read_addr src_addr old)) ->
     tables (r_mem w) !! gc = Some old -> fst (ns_buffer_read_addr src_addr old) = true ->
     gc <> g_rd -> gp <> g_rd -> Q RMI_SUCCESS (with_mem w' (with_lock (r_mem w') g_rd))) ->
  runs (_ <-! h_granule_lock (g_rtt ctx) GRANULE_STATE_RTT ;;
        wi <-! on_mem (s2tt_walk_lock_unlock ctx addr S2TT_PAGE_LEVEL) ;;
        status <-! data_map_init_llt g_rd ctx wi data_addr addr src_addr flags ;;
        _ <-! h_granule_unlock (g_llt wi) ;;
        ret status) (with_mem w (with_lock (r_mem w) g_rd)) Q.
Proof.
  intros Hinv Hnm Hr Hc HT Ha Hda Herr Hflt HQ. pose proof Hnm as (Hrd & r & Hrg).
  pose proof (num_planes_eq _ _ _ _ Hr) as [_ Hnp].
  destruct (rd_ctx_ok _ _ _ _ Hr 0 ctx ltac:(lia) Hc) as (Hctx & Hbits & Hsl & Hoa & _). pose proof Hctx as [Hl _ Hs _ _].
  assert (HTrd : T !! g_rd = None) by (by eapply not_in_tree).
  apply (lock_walk w g_rd ctx lpa2 T); try done; [by rewrite Hbits|unfold S2TT_PAGE_LEVEL; lia|].
  intros wi Hwk. destruct (walked_visits _ _ _ _ _ _ Hwk ltac:(done)) as [Hvis Hix].
  destruct Hwk as [_ [_ Hidx] Hgp Hll Hstop]. set (gp := g_llt wi) in *.
  assert (Hgr : gp <> g_rd) by congruence.
  assert (Hfail : forall st, st <> RMI_SUCCESS -> data_stop w rd_addr data_addr addr ctx gp (last_level wi) st ->
    runs (_ <-! h_granule_unlock gp ;; ret st) (with_mem w (with_lock (with_lock (r_mem w) g_rd) gp)) Q).
  { intros st Hst Hwhy. apply runs_bind. eapply unlock_llt; eauto. apply runs_ret. eapply Herr; eauto. lia. }
  apply runs_bind. unfold data_map_init_llt. destruct (Z.eqb_spec (last_level wi) S2TT_PAGE_LEVEL) as [Hlast|Hlt]; cbn [negb].
  2: { destruct (rtt_error_some false (last_level wi)) as (st & Hst & Hne). eapply runs_lift; [exact Hst|].
       apply Hfail; [done|]. left. split; [unfold S2TT_PAGE_LEVEL in *; lia|done]. }
  rewrite Hlast in *. destruct (tree_table_at _ _ _ _ _ HT Hgp) as (tp & Htp & Hltp & Hrp & Hpg & Hentries).
  destruct (arr_get_some tp (index wi)) as [e He]; [rewrite Hltp; unfold N_S2TTES, S2TTES_PER_S2TT in *; lia|].
  assert (Hat : entry_at w gp addr S2TT_PAGE_LEVEL e) by (exists tp; by rewrite <- Hix).
  eapply runs_bind, runs_get; [exact Htp|]. eapply runs_bind, runs_lift; [exact He|].
  destruct (s2tte_is_unassigned ctx e) eqn:Hun; cbn [negb].
  2: { destruct (rtt_error_some false S2TT_PAGE_LEVEL) as (st & Hst & Hne). eapply runs_lift; [exact Hst|].
       apply Hfail; [done|]. right. left. split; [done|]. exists e. split; [done|by left]. }
  destruct (s2tte_drain_pending e) eqn:Hdp.
  { apply runs_ret. apply Hfail; [done|]. right. left. split; [done|]. exists e. split; [done|by right]. }
  apply runs_bind. apply (backing_ok w F rd_addr g_rd ctx T); try done; [by rewrite Hlast| |].
  { intros st Hst Hwhy. cbn [fst]. rewrite (proj2 (Z.eqb_neq st RMI_SUCCESS)) by done. cbn [negb].
    apply runs_ret. apply Hfail; [done|]. unfold data_stop. tauto. }
  intros gc Hgc Hgcr Hgcp Hdel. cbn [fst snd]. rewrite Z.eqb_refl. cbn [negb]. eapply runs_bind, runs_lift; [done|].
  destruct (inv_granule _ _ Hinv _ _ Hgc) as (_ & old & Hold & Hlold).
  destruct (unassigned_built ctx lpa2 S2TT_PAGE_LEVEL e Hl ltac:(done) (Hentries _ _ He) Hun Hdp) as (k & pa & Hk & Hb).
  assert (Hpg1 : granule_at (with_lock (r_mem w) g_rd) gp (AGranule false GRANULE_STATE_RTT (table_refs ctx S2TT_PAGE_LEVEL tp)))
    by (by apply granule_at_with_lock_ne).
  assert (Hdel1 : granule_at (with_lock (r_mem w) g_rd) gc (AGranule false GRANULE_STATE_DELEGATED 0))
    by (by apply granule_at_with_lock_ne).
  eapply (data_fill_ok w g_rd ctx lpa2 wi k pa e tp gc old); try done; [by eapply granule_names_aligned|lia| | | |].
  { by apply granule_at_with_lock_ne. }
  { by apply locked_desc. }
  - intros Hf. apply runs_bind. eapply runs_on_mem.
    { cbn [r_mem with_mem]. exact (with_lock_unlock (set_table (with_lock (r_mem w) g_rd) gc _) gp _ Hpg1 eq_refl). }
    apply runs_ret. eapply (Hflt (with_mem w (set_table (r_mem w) gc (snd (ns_buffer_read_addr src_addr old))))).
    + by exists gc, old.
    + congruence.
  - intros v tp' Hok Hv Hset.
    pose proof (table_refs_range ctx S2TT_PAGE_LEVEL tp') as Hrp'. rewrite (arr_set_length _ _ _ _ Hset), Hltp in Hrp'. unfold N_S2TTES in Hrp'.
    set (data := snd (ns_buffer_read_addr src_addr old)).
    set (w' := with_log (with_mem w (mem_upd (r_mem w) gp (AGranule false GRANULE_STATE_RTT (table_refs ctx S2TT_PAGE_LEVEL tp')) tp'
      gc (AGranule false GRANULE_STATE_DATA 0) data)) [E_measure_data g_rd addr flags data; E_write gp (index wi) v]).
    apply runs_bind. eapply runs_on_desc.
    { cbn. rewrite lookup_insert_ne by done. apply lookup_insert_eq. }
    { apply unlock_locked; [done|lia|apply ref_ok_rtt; lia]. }
    apply runs_ret.
    pose proof (release3 (r_mem w) g_rd r gp _ (table_refs ctx S2TT_PAGE_LEVEL tp') tp' gc GRANULE_STATE_DATA 0 data Hrg Hpg Hdel Hgr Hgcr
      ltac:(by apply not_eq_sym)) as Hrel. cbv zeta in Hrel.
    match goal with |- Q _ ?y => replace y with (with_mem w' (with_lock (r_mem w') g_rd)) end.
    + eapply (HQ w' gp gc old); try done. split; try done.
      * unfold data. by rewrite ns_buffer_read_length.
      * exists k, pa, e, v, tp, tp'. rewrite <- Hix. by split_and!.
    + unfold w', with_mem, with_log. cbn [r_mem r_rds r_vttbr r_log]. f_equal. rewrite <- Hrel.
      unfold set_granule. cbn [descs tables]. f_equal. by rewrite insert_insert_ne.
Qed.

(** The whole command. *)
Lemma data_map_init_ok w F rd_addr data_addr map_addr src_addr flags res :
  inv w F -> 0 <= data_addr -> 0 <= map_addr ->
  runs (smc_rtt_data_map_init rd_addr data_addr map_addr src_addr flags res) w (fun out w' =>
    (res_x0 out <> RMI_SUCCESS /\ data_refused w rd_addr data_addr map_addr src_addr flags (res_x0 out) /\ w' = w) \/
    (res_x0 out = RMI_ERROR_INPUT /\ source_fault w w' data_addr src_addr) \/
    (res_x0 out = RMI_SUCCESS /\ exists g rd ctx T gp gc old,
       names_rd w rd_addr g /\ owns w g PRIMARY_S2_CTX_ID rd ctx T /\ F !! (g, PRIMARY_S2_CTX_ID) = Some T /\
       get_rd_state_locked rd = REALM_NEW /\ addr_in_par rd map_addr = Some true /\
       0 <= map_addr < 2 ^ ipa_bits ctx /\ (GRANULE_SIZE | map_addr) /\
       tables (r_mem w) !! gc = Some old /\ fst (ns_buffer_read_addr src_addr old) = true /\
       data_mapped w w' g ctx T gp gc data_addr map_addr flags (snd (ns_buffer_read_addr src_addr old)))).
Proof.
  intros Hinv Hda Hma. unfold smc_rtt_data_map_init.
  match goal with |- context [if ?b then ret _ else _] => destruct b eqn:Hargs end.
  { apply runs_ret. left. split; [done|]. split; [|done]. apply dr_args. destruct (GRANULE_ALIGNED src_addr); [right|by left]. lia. }
  apply runs_bind. apply (lock_rd w F); [done| |].
  { intros st Hst Hwhy. cbn [fst]. rewrite (proj2 (Z.eqb_neq st RMI_SUCCESS)) by done. cbn [negb]. apply runs_ret. left.
    split; [done|]. split; [by apply dr_rd|done]. }
  intros g Hg. cbn [fst snd]. rewrite Z.eqb_refl. cbn [negb]. eapply runs_bind, runs_lift; [done|].
  pose proof Hg as (Hga & r & Hrg). destruct (inv_rd _ _ Hinv g r Hrg) as (rd & lpa2 & bits & sl & Hrd & Hok & HF).
  eapply runs_bind, runs_get; [exact Hrd|]. apply runs_bind.
  match goal with |- runs _ _ (fun st s' => runs _ s' ?P) => set (Post := P) end.
  assert (Herr : forall st, st <> RMI_SUCCESS -> data_refused w rd_addr data_addr map_addr src_addr flags st ->
    runs (_ <-! h_granule_unlock g ;; ret (set_x0 st res)) (with_mem w (with_lock (r_mem w) g)) Post).
  { intros st Hst Hwhy. apply runs_bind. eapply unlock_rd; [exact Hg| |done]. apply runs_ret. by left. }
  unfold data_map_init_rd. destruct (Z.eqb_spec (get_rd_state_locked rd) REALM_NEW) as [Hnew|Hnew]; cbn [negb];
    [|apply runs_ret; apply Herr; [done|]; by eapply dr_state].
  pose proof (num_planes_eq _ _ _ _ Hok) as [_ Hn]. destruct (rd_get_ctx _ _ _ _ 0 Hok ltac:(lia)) as [ctx Hc].
  destruct (rd_ctx_ok _ _ _ _ Hok 0 ctx ltac:(lia) Hc) as (Hctx & Hbits & Hsl & _). pose proof Hctx as [_ _ Hs _ _].
  destruct (rd_sizes _ _ _ _ Hok) as (_ & _ & _ & Hpar). set (in_par := map_addr <? Z.shiftr (2 ^ bits) 1) in *.
  eapply runs_bind, runs_lift; [apply Hpar|]. fold in_par.
  destruct (map_addr_valid rd lpa2 bits sl map_addr S2TT_PAGE_LEVEL Hok Hma ltac:(unfold S2TT_PAGE_LEVEL; lia)) as (b & Hb & Hbt).
  eapply runs_bind, (runs_lift _ (in_par && b)); [by destruct in_par|].
  destruct (in_par && b) eqn:Hib; cbn [negb].
  2: { apply runs_ret. apply Herr; [done|]. eapply dr_addr; eauto. pose proof (Hpar map_addr) as Hp. fold in_par in Hp. destruct in_par; [|by auto].
       cbn in Hib. subst b. by auto. }
  apply andb_true_iff in Hib as [Hin ->]. destruct (Hbt eq_refl) as [Hlt Hal].
  eapply runs_bind, runs_lift; [exact Hc|].
  destruct (Z.leb_spec (s2oa_limit ctx) data_addr); [apply runs_ret; apply Herr; [done|]; eapply dr_addr; eauto|].
  assert (Hi : 0 <= 0 < realm_num_s2_rtts rd)
    by (unfold realm_num_s2_rtts, realm_num_s2_contexts; destruct (rtt_tree_pp rd); lia).
  destruct (realm_tree _ _ _ _ _ _ Hinv Hrd HF Hi Hc) as (T & HT & Hown).
  apply (data_walk_ok w F rd_addr g rd lpa2 bits sl ctx T); try done; [by destruct Hown| | |].
  { intros st gp l Hst Hvis Hl Hstop Hwhy. apply Herr; [done|]. eapply dr_stop; eauto. }
  { intros w' Hf Hng. apply runs_bind. eapply (unlock_rd w' rd_addr g); [|apply runs_ret; right; left; by split|done].
    destruct Hf as (gc & old & Hgc & _ & _ & _ & ->). split; [done|]. by exists r. }
  intros w' gp gc old Hdm Hold Hrdok Hgc Hgp. apply runs_bind. eapply (unlock_rd w' rd_addr g); [|apply runs_ret|done].
  - split; [done|]. exists r. eapply granule_at_descs; [|exact Hrg].
    destruct Hdm as [_ _ _ _ _ _ (k & pa & e & v & tp & tp' & _ & _ & _ & _ & _ & _ & _ & _ & ->)].
    by apply mem_upd_other; apply not_eq_sym.
  - right. right. split; [done|]. exists g, rd, ctx, T, gp, gc, old. rewrite Hbits. split_and!; try done.
    rewrite Hpar. fold in_par. by rewrite Hin.
Qed.

(** ** Effects *)

Lemma ram_entry_ap ctx lpa2 pa e v :
  s2tt_lpa2_enabled ctx = Some lpa2 -> s2tte_create_assigned_ram ctx pa S2TT_PAGE_LEVEL e = Some v ->
  s2tte_get_ap ctx v false = s2tte_get_ap ctx e false.
Proof.
  intros Hl Hv. pose proof (b_ar ctx S2TT_PAGE_LEVEL pa e v Hv) as Hb.
  destruct (built_live_shape _ _ _ _ _ _ Hl Hb eq_refl) as (? & ? & _ & _ & Ha & _). cbn [pa_level] in Ha.
  destruct (recreate_value ctx lpa2 K_assigned_ram pa e S2TT_PAGE_LEVEL Hl eq_refl ltac:(done) Ha) as (t & Ht & Hm & Hr); [done|].
  cbn [recreate] in Hr. assert (v = Z.lor t (leaf_bits ctx lpa2 K_assigned_ram S2TT_PAGE_LEVEL e)) as -> by congruence.
  by apply (leaf_get_ap ctx lpa2 K_assigned_ram).
Qed.

Lemma data_mapped_mem w w' g_rd ctx T gp gc data_addr addr flags data :
  data_mapped w w' g_rd ctx T gp gc data_addr addr flags data ->
  r_rds w' = r_rds w /\ r_vttbr w' = r_vttbr w /\
  (forall x, x <> gp -> x <> gc ->
     descs (r_mem w') !! x = descs (r_mem w) !! x /\ tables (r_mem w') !! x = tables (r_mem w) !! x) /\
  granule_at (r_mem w') gc (AGranule false GRANULE_STATE_DATA 0) /\ tables (r_mem w') !! gc = Some data.
Proof.
  intros [_ _ Hne _ _ _ (k & pa & e & v & tp & tp' & _ & _ & _ & _ & _ & _ & _ & _ & ->)]. split_and!; try done.
  - intros x H1 H2. by apply mem_upd_other.
  - split; [|done]. by apply mem_upd_child.
  - by apply mem_upd_child.
Qed.

(** The granule was in no tree. *)
Lemma delegated_outside w F gc :
  inv w F -> granule_at (r_mem w) gc (AGranule false GRANULE_STATE_DELEGATED 0) ->
  forall k T l, F !! k = Some T -> T !! gc = Some l -> False.
Proof.
  intros Hinv Hgc [g i] T l HF Hl. destruct (inv_own _ _ Hinv _ _ _ HF) as (rd & ctx & [_ _ _ _ HT]).
  by rewrite (not_in_tree _ _ _ _ _ HT Hgc) in Hl.
Qed.

Lemma data_mapped_tree w w' g_rd ctx lpa2 T gp gc data_addr addr flags data :
  ctx_ok ctx lpa2 -> rtt_inv ctx (r_mem w) T -> data_mapped w w' g_rd ctx T gp gc data_addr addr flags data ->
  rtt_inv ctx (r_mem w') T.
Proof.
  intros [Hl _ _ _ _] HT Hdm. pose proof (data_mapped_mem _ _ _ _ _ _ _ _ _ _ _ Hdm) as (_ & _ & Hfr & _).
  destruct Hdm as [Hgp _ Hne Hold _ _ (k & pa & e & v & tp & tp' & Htp & Hltp & He & Hk & Hb & Hv & Hset & Hok & Hw')].
  assert (HTc : T !! gc = None) by (by eapply not_in_tree).
  pose proof (arr_set_length _ _ _ _ Hset) as Hltp'. rewrite Hltp in Hltp'.
  assert (Hp' : descs (r_mem w') !! gp = Some (encode GRN (AGranule false GRANULE_STATE_RTT (table_refs ctx S2TT_PAGE_LEVEL tp'))) /\
    tables (r_mem w') !! gp = Some tp') by (subst w'; apply mem_upd_parent). destruct Hp' as [Hdp Htp'].
  eapply (rtt_inv_set ctx (r_mem w) (r_mem w') T gp S2TT_PAGE_LEVEL _ v); [done| | |].
  - split; try done; [by exists tp, tp'| |].
    + exists tp'. split_and!; try done; [split; [exact Hdp|by apply ref_ok_table]|].
      intros x u Hu. rewrite (arr_get_set _ _ _ _ x Hset) in Hu. destruct (x =? _); [|eauto].
      injection Hu as <-. right. exists K_assigned_ram, data_addr. by apply (b_ar _ _ _ e).
    + intros x l Hx Hxp. destruct (Hfr x Hxp) as [-> ->]; [congruence|done].
  - intros c (l & t & u & p & Hg & Hlt & _). assert (l = S2TT_PAGE_LEVEL) as -> by congruence. lia.
  - lia.
Qed.

Lemma data_mapped_inv w w' F g i rd ctx T gp gc data_addr addr flags data :
  inv w F -> F !! (g, i) = Some T -> owns w g i rd ctx T ->
  data_mapped w w' g ctx T gp gc data_addr addr flags data -> inv w' F.
Proof.
  intros Hinv HF Hown Hdm. destruct (owns_ctx_ok _ _ _ _ _ _ Hown) as [lpa2 Hctx].
  pose proof (data_mapped_tree _ _ _ _ _ _ _ _ _ _ _ _ Hctx (own_tree _ _ _ _ _ _ Hown) Hdm) as HT'.
  pose proof (data_mapped_mem _ _ _ _ _ _ _ _ _ _ _ Hdm) as (Hrds & _).
  pose proof Hdm as [Hgp _ Hne Hold _ Hd (k & pa & e & v & tp & tp' & Htp & Hltp & He & Hk & Hb & Hv & Hset & Hok & Hw')].
  pose proof (arr_set_length _ _ _ _ Hset) as Hltp'. rewrite Hltp in Hltp'.
  pose proof (table_refs_range ctx S2TT_PAGE_LEVEL tp') as Hr. rewrite Hltp' in Hr. unfold N_S2TTES in Hr.
  rewrite <- (insert_id F (g, i) T HF).
  eapply (inv_upd w w' F g i rd ctx T T gp S2TT_PAGE_LEVEL (table_refs ctx S2TT_PAGE_LEVEL tp') tp' gc
    (AGranule false GRANULE_STATE_DATA 0) data); try done; try lia; [by subst w'| |].
  - intros k0 T0 l H0 Hl0. by destruct (delegated_outside w F gc Hinv Hold k0 T0 l).
  - intros x l Hx. right. eauto.
Qed.

(** The page is mapped to the granule, with the permissions its entry had; every
    other address of every tree translates as before. *)
Lemma data_mapped_translate w w' F g rd ctx T gp gc data_addr addr flags data a :
  inv w F -> F !! (g, PRIMARY_S2_CTX_ID) = Some T -> owns w g PRIMARY_S2_CTX_ID rd ctx T ->
  data_mapped w w' g ctx T gp gc data_addr addr flags data ->
  0 <= addr < 2 ^ ipa_bits ctx -> 0 <= a < 2 ^ ipa_bits ctx ->
  exists k e, kind_live k = false /\
  if decide (a / GRANULE_SIZE = addr / GRANULE_SIZE)
  then translate ctx (r_mem w) a = Some (k, 0, entry_attrs ctx k e) /\
       translate ctx (r_mem w') a = Some (K_assigned_ram, data_addr + a mod GRANULE_SIZE, (s2tte_get_ap ctx e false, 0))
  else translate ctx (r_mem w') a = translate ctx (r_mem w) a.
Proof.
  intros Hinv HF Hown Hdm Had Ha. destruct (owns_ctx_ok _ _ _ _ _ _ Hown) as [lpa2 Hctx]. pose proof Hctx as [Hl _ _ _ _].
  pose proof (own_tree _ _ _ _ _ _ Hown) as HT. pose proof (data_mapped_mem _ _ _ _ _ _ _ _ _ _ _ Hdm) as (_ & _ & Hfr & _).
  destruct Hdm as [Hgp Hvis Hne Hold _ _ (k & pa & e & v & tp & tp' & Htp & Hltp & He & Hk & Hb & Hv & Hset & Hok & Hw')].
  exists k, e. split; [done|]. pose proof (b_ar ctx S2TT_PAGE_LEVEL data_addr e v Hv) as Hbv.
  assert (HTc : T !! gc = None) by (by eapply not_in_tree).
  assert (Htp' : tables (r_mem w') !! gp = Some tp') by (subst w'; apply mem_upd_parent).
  pose proof (translate_changed ctx lpa2 (r_mem w) (r_mem w') T gp S2TT_PAGE_LEVEL addr tp' v a Hctx HT Ha Had) as Hnew.
  change (s2tte_map_size S2TT_PAGE_LEVEL) with GRANULE_SIZE in Hnew.
  rewrite Hnew; [|split|done|done| |by intros ?].
  2: { intros x l Hx Hxp. apply Hfr; congruence. }
  2: { exists tp, tp'. split_and!; try done. intros i Hi. by rewrite (arr_get_set _ _ _ _ i Hset), (proj2 (Z.eqb_neq _ _)). }
  2: { rewrite (arr_get_set _ _ _ _ _ Hset). by rewrite Z.eqb_refl. }
  case_decide as Hd; [|done]. split.
  - rewrite (translate_here ctx lpa2 (r_mem w) T gp S2TT_PAGE_LEVEL addr tp e a) by done. unfold entry_meaning.
    rewrite (kind_of_built ctx lpa2 S2TT_PAGE_LEVEL k pa e Hl ltac:(done) Hb). cbn [mbind option_bind]. by rewrite Hk.
  - unfold entry_meaning. rewrite (kind_of_built ctx lpa2 S2TT_PAGE_LEVEL _ _ v Hl ltac:(done) Hbv). cbn [mbind option_bind kind_live].
    rewrite (built_pa ctx lpa2 S2TT_PAGE_LEVEL _ _ v Hl Hbv eq_refl). cbn. by rewrite (ram_entry_ap ctx lpa2 data_addr e v).
Qed.

Lemma data_mapped_others w w' F g rd ctx T gp gc data_addr addr flags data g0 i0 T0 rd0 ctx0 a :
  inv w F -> F !! (g, PRIMARY_S2_CTX_ID) = Some T -> owns w g PRIMARY_S2_CTX_ID rd ctx T ->
  data_mapped w w' g ctx T gp gc data_addr addr flags data ->
  F !! (g0, i0) = Some T0 -> (g0, i0) <> (g, PRIMARY_S2_CTX_ID) -> owns w g0 i0 rd0 ctx0 T0 ->
  0 <= a < 2 ^ ipa_bits ctx0 -> translate ctx0 (r_mem w') a = translate ctx0 (r_mem w) a.
Proof.
  intros Hinv HF Hown Hdm H0 Hn Hown0 Ha. pose proof (data_mapped_mem _ _ _ _ _ _ _ _ _ _ _ Hdm) as (_ & _ & Hfr & _).
  eapply (others_translate w w' F g PRIMARY_S2_CTX_ID T gp S2TT_PAGE_LEVEL gc g0 i0 T0 rd0); try done; [by destruct Hdm|].
  intros k0 T1 l H1 Hl1. by destruct (delegated_outside w F gc Hinv (dm_old _ _ _ _ _ _ _ _ _ _ _ Hdm) k0 T1 l).
Qed.

(** A failed read keeps the invariant and every translation. *)
Lemma source_fault_agree w w' F data_addr src_addr :
  inv w F -> source_fault w w' data_addr src_addr ->
  forall k T, F !! k = Some T -> agree T (r_mem w) (r_mem w').
Proof.
  intros Hinv (gc & old & _ & Hdel & _ & _ & ->) k T HF x l Hx. split; [|done]. cbn. rewrite lookup_insert_ne; [done|].
  intros <-. by eapply delegated_outside.
Qed.

Lemma source_fault_inv w w' F data_addr src_addr :
  inv w F -> source_fault w w' data_addr src_addr -> inv w' F.
Proof.
  intros Hinv Hf. pose proof (source_fault_agree _ _ _ _ _ Hinv Hf) as Hag.
  destruct Hf as (gc & old & _ & Hdel & Hold & _ & ->). eapply inv_contents; [done|done|done| |].
  - intros x t Ht Hlt. cbn. destruct (decide (gc = x)) as [<-|Hne]; [|exists t; by rewrite lookup_insert_ne].
    rewrite lookup_insert_eq. eexists. split; [done|]. rewrite ns_buffer_read_length. congruence.
  - intros g i T rd ctx HF [_ _ _ _ O5]. eapply rtt_inv_frame; [|exact O5]. by eapply Hag.
Qed.

(** C7: from any state that satisfies the invariant, with any arguments,
    RMI_RTT_DATA_MAP_INIT returns and releases its locks.  A refused command
    changes nothing and has one of the causes of [data_refused], with its code.
    When the source cannot be read, at most the contents of the granule change,
    which stays with the host, and nothing is measured or mapped.  A successful
    command, which needs a realm that is not yet activated and a protected address
    that nothing is mapped at, moves the granule to the DATA state with the
    contents of the source, measures these contents for that address, and maps
    exactly that page to exactly that granule; every other address of every tree
    of every realm translates as before. *)
Theorem rtt_data_map_init_correct w F rd_addr data_addr map_addr src_addr flags res :
  inv w F -> 0 <= data_addr -> 0 <= map_addr ->
  runs (smc_rtt_data_map_init rd_addr data_addr map_addr src_addr flags res) w (fun out w' =>
    inv w' F /\
    ((res_x0 out <> RMI_SUCCESS /\ data_refused w rd_addr data_addr map_addr src_addr flags (res_x0 out) /\ w' = w) \/
     (res_x0 out = RMI_ERROR_INPUT /\ source_fault w w' data_addr src_addr) \/
     (res_x0 out = RMI_SUCCESS /\ exists g rd ctx T gp gc old v,
        let data := snd (ns_buffer_read_addr src_addr old) in
        names_rd w rd_addr g /\ owns w g PRIMARY_S2_CTX_ID rd ctx T /\ F !! (g, PRIMARY_S2_CTX_ID) = Some T /\
        get_rd_state_locked rd = REALM_NEW /\ addr_in_par rd map_addr = Some true /\
        0 <= map_addr < 2 ^ ipa_bits ctx /\ (GRANULE_SIZE | map_addr) /\
        tr_addr_to_granule data_addr = Some gc /\
        granule_at (r_mem w) gc (AGranule false GRANULE_STATE_DELEGATED 0) /\ tables (r_mem w) !! gc = Some old /\
        fst (ns_buffer_read_addr src_addr old) = true /\
        granule_at (r_mem w') gc (AGranule false GRANULE_STATE_DATA 0) /\ tables (r_mem w') !! gc = Some data /\
        r_rds w' = r_rds w /\ r_vttbr w' = r_vttbr w /\
        r_log w' = r_log w ++ [E_measure_data g map_addr flags data; E_write gp (s2_addr_to_idx map_addr S2TT_PAGE_LEVEL) v] /\
        (forall x, x <> gp -> x <> gc ->
           descs (r_mem w') !! x = descs (r_mem w) !! x /\ tables (r_mem w') !! x = tables (r_mem w) !! x) /\
        (forall a, 0 <= a < 2 ^ ipa_bits ctx -> exists k e, kind_live k = false /\
           if decide (a / GRANULE_SIZE = map_addr / GRANULE_SIZE)
           then translate ctx (r_mem w) a = Some (k, 0, entry_attrs ctx k e) /\
                translate ctx (r_mem w') a
                = Some (K_assigned_ram, data_addr + a mod GRANULE_SIZE, (s2tte_get_ap ctx e false, 0))
           else translate ctx (r_mem w') a = translate ctx (r_mem w) a) /\
        (forall g0 i0 T0 rd0 ctx0 a, F !! (g0, i0) = Some T0 -> (g0, i0) <> (g, PRIMARY_S2_CTX_ID) ->
           owns w g0 i0 rd0 ctx0 T0 -> 0 <= a < 2 ^ ipa_bits ctx0 ->
           translate ctx0 (r_mem w') a = translate ctx0 (r_mem w) a)))).
Proof.
  intros Hinv Hda Hma. eapply runs_mono; [by eapply data_map_init_ok|]. intros out w'
    [(Hne & Href & ->)|[(H0 & Hf)|(H0 & g & rd & ctx & T & gp & gc & old & Hg & Hown & HF & Hnew & Hpar & Hm & Hal & Hold & Hrd & Hdm)]].
  - split; [done|]. by left.
  - split; [by eapply source_fault_inv|]. right. by left.
  - split; [by eapply data_mapped_inv|]. right. right. split; [done|].
    pose proof (data_mapped_mem _ _ _ _ _ _ _ _ _ _ _ Hdm) as (H1 & H2 & H3 & H4 & H5).
    pose proof Hdm as [_ _ _ Hdel Hnm _ (? & ? & ? & v & ? & ? & _ & _ & _ & _ & _ & _ & _ & _ & Hw')].
    exists g, rd, ctx, T, gp, gc, old, v. split_and!; try done; try lia.
    + by subst w'.
    + intros a Ha. by eapply data_mapped_translate.
    + intros g0 i0 T0 rd0 ctx0 a HF0 Hn Hown0 Ha. by eapply (data_mapped_others w w' F g rd ctx T).
Qed.

End Correct.
