(* ===== verification/RttRange.v ===== *)
(** * Relabelling a range of leaf entries

    Several commands walk to one table and then change its entries one by one,
    from the entry of [base] on, without moving memory: the RIPAS of the entries
    changes, their output addresses and permissions do not.  What such a loop has
    done when it has reached an address, and how one more entry extends it. *)

From Stdlib Require Import ZArith Lia Bool ZifyBool.
From stdpp Require Import base tactics option list numbers gmap.
From S2P Require Import Prelude.
From S2P Require Import Utils.
From S2P Require Import Granule.
From S2P Require Import Mem.
From S2P Require Import Arch.
From S2P Require Import S2tte.
From S2P Require Import S2tteFacts.
From S2P Require Import S2tteProps.
From S2P Require Import S2ttTable.
From S2P Require Import S2ttWalk.
From S2P Require Import Realm.
From S2P Require Import RttTree.
From S2P Require Import Rmm.
From S2P Require Import RttInv.
From S2P Require Import RttPath.
From S2P Require Import RttCreate.

Section Range.
Context `{feat : ArchFeatures} `{lookup : GranuleLookup}.
Implicit Types (w : rmm) (F : forest) (rd : rd) (ctx : s2tt_context) (T : tree) (tr : s2tte_kind -> option s2tte_kind).

(** The translation after the kind was changed: same output address and
    permissions; the memory attributes of device memory go with the kind. *)
Definition relabel tr (x : s2tte_kind * Z * (Z * Z)) : option (s2tte_kind * Z * (Z * Z)) :=
  let '(k, out, (ap, attr)) := x in
  k' ← tr k; Some (k', out, (ap, if decide (k' = k) then attr else 0)).

(** [w'] is [w] after the loop over table [gp] of level [l] went from [base] to
    [addr]. *)
Record relabelled w w' F (g i : Z) rd ctx T (gp l base addr : Z) tr : Prop := {
  rl_inv : inv w' F;
  rl_own : owns w' g i rd ctx T;
  rl_rds : r_rds w' = r_rds w;
  rl_vttbr : r_vttbr w' = r_vttbr w;
  rl_descs : descs (r_mem w') = descs (r_mem w);
  rl_tables : forall x, x <> gp -> tables (r_mem w') !! x = tables (r_mem w) !! x;
  rl_visits : visits ctx (r_mem w') base gp l;
  rl_translate : forall a, 0 <= a < 2 ^ ipa_bits ctx -> translate ctx (r_mem w') a =
    if decide (base <= a < addr) then translate ctx (r_mem w) a ≫= relabel tr else translate ctx (r_mem w) a;
  rl_defined : forall a, base <= a < addr -> is_Some (translate ctx (r_mem w) a ≫= relabel tr);
  rl_others : forall g0 i0 T0 rd0 ctx0 a, F !! (g0, i0) = Some T0 -> (g0, i0) <> (g, i) ->
    owns w g0 i0 rd0 ctx0 T0 -> 0 <= a < 2 ^ ipa_bits ctx0 ->
    translate ctx0 (r_mem w') a = translate ctx0 (r_mem w) a;
  rl_start : addr <= base -> w' = w
}.

Lemma relabelled_start w F g i rd ctx T gp l base tr :
  inv w F -> owns w g i rd ctx T -> visits ctx (r_mem w) base gp l ->
  relabelled w w F g i rd ctx T gp l base base tr.
Proof. intros Hinv Hown Hv. split; try done; [intros a Ha; case_decide; [lia|done]|lia]. Qed.

(** ** The entries of one table *)

(** Entry [n] after the one of [base]: its address, index and table. *)
Lemma nth_entry ctx lpa2 m T base gp l n :
  ctx_ok ctx lpa2 -> rtt_inv ctx m T -> 0 <= base < 2 ^ ipa_bits ctx -> (s2tte_map_size l | base) ->
  visits ctx m base gp l -> 0 <= n -> s2_addr_to_idx base l + n < 512 -> base + n * s2tte_map_size l < 2 ^ ipa_bits ctx ->
  let a := base + n * s2tte_map_size l in
  visits ctx m a gp l /\ s2_addr_to_idx a l = s2_addr_to_idx base l + n /\ (s2tte_map_size l | a).
Proof.
  intros Hc HT Hb Hal Hv Hn Hi Hr a. destruct (visits_tree _ _ _ _ _ _ _ Hc HT Hb Hv) as [_ Hl].
  pose proof Hc as [_ Hbits Hsl _ _]. assert (Hlv : -1 <= l <= 3) by (destruct lpa2; lia).
  assert (H52 : 2 ^ ipa_bits ctx <= 2 ^ 52) by (apply Z.pow_le_mono_r; destruct lpa2; lia).
  assert (Hms : 0 < s2tte_map_size l) by (rewrite s2tte_map_size_eq by done; apply Z.pow_pos_nonneg; lia).
  assert (Ha : 0 <= a < 2 ^ ipa_bits ctx) by (unfold a in *; nia).
  assert (Hdiv : a / s2tte_map_size l = base / s2tte_map_size l + n).
  { unfold a. rewrite Z.div_add by lia. lia. }
  rewrite idx_arith in Hi by lia. rewrite (idx_arith a), (idx_arith base) by lia.
  rewrite s2tte_map_size_eq in Hdiv by done. rewrite Hdiv.
  set (q := base / 2 ^ ((3 - l) * 9 + 12)) in *.
  assert (Hmod : (q + n) mod 512 = q mod 512 + n /\ (q + n) / 512 = q / 512).
  { pose proof (Z.mod_pos_bound q 512). pose proof (Z.div_mod q 512). 
    assert (Hq : q + n = (q / 512) * 512 + (q mod 512 + n)) by lia. split.
    - rewrite Hq, Z.add_comm, Z.mod_add by lia. apply Z.mod_small. lia.
    - rewrite Hq, Z.div_add_l by lia. rewrite (Z.div_small (q mod 512 + n)) by lia. lia. }
  destruct Hmod as [Hm1 Hm2]. split_and!; [|done|].
  - eapply (visits_same ctx lpa2 m T a base gp l); try done. rewrite !div_span by lia. by rewrite Hdiv.
  - unfold a. apply Z.divide_add_r; [done|]. apply Z.divide_factor_r.
Qed.

(** The addresses of an entry. *)
Lemma same_block a b ms : 0 < ms -> (ms | b) -> (a / ms = b / ms <-> b <= a < b + ms).
Proof.
  intros Hms [q ->]. rewrite Z.div_mul by lia. split; intros H.
  - pose proof (Z.div_mod a ms ltac:(lia)). pose proof (Z.mod_pos_bound a ms Hms). nia.
  - symmetry. apply (Z.div_unique a ms q (a - q * ms)); lia.
Qed.

(** What an entry says, before and after the change of its kind. *)
Lemma relabel_meaning ctx lpa2 l k k' pa e v a tr :
  s2tt_lpa2_enabled ctx = Some lpa2 -> -1 <= l <= 3 -> built ctx l k pa e -> built ctx l k' pa v ->
  kind_live k' = kind_live k -> tr k = Some k' ->
  fst (entry_attrs ctx k' v) = fst (entry_attrs ctx k e) ->
  snd (entry_attrs ctx k' v) = (if decide (k' = k) then snd (entry_attrs ctx k e) else 0) ->
  entry_meaning ctx l v a = entry_meaning ctx l e a ≫= relabel tr /\ is_Some (entry_meaning ctx l e a ≫= relabel tr).
Proof.
  intros Hl Hlv He Hv Hlive Htr H1 H2. unfold entry_meaning.
  rewrite (kind_of_built ctx lpa2 l k pa e Hl Hlv He), (kind_of_built ctx lpa2 l k' pa v Hl Hlv Hv). cbn [mbind option_bind].
  rewrite Hlive. destruct (entry_attrs ctx k e) as [ap at0], (entry_attrs ctx k' v) as [ap' at']. cbn in H1, H2. subst ap' at'.
  destruct (kind_live k) eqn:Hk.
  - rewrite (built_pa ctx lpa2 l k pa e Hl He Hk), (built_pa ctx lpa2 l k' pa v Hl Hv) by congruence.
    cbn. rewrite Htr. cbn. by split.
  - cbn. rewrite Htr. cbn. by split.
Qed.

Lemma leaf_not_table ctx lpa2 l k pa e :
  s2tt_lpa2_enabled ctx = Some lpa2 -> -1 <= l <= 3 -> built ctx l k pa e -> k <> K_table ->
  l < S2TT_PAGE_LEVEL -> entry_is_table e = false.
Proof.
  unfold S2TT_PAGE_LEVEL. intros Hl Hlv Hb Hk Hlt.
  destruct (built_table_entry ctx lpa2 l k pa e Hl ltac:(lia) Hb) as [-> _]. by rewrite bool_decide_false.
Qed.

(** The entry reached, as one of the unlocked state. *)
Record at_entry w F (g i : Z) rd ctx T (gp l base addr : Z) (k : s2tte_kind) (pa e : Z) (tp : list Z) : Prop := {
  ae_forest : F !! (g, i) = Some T;
  ae_base : 0 <= base <= addr /\ addr < 2 ^ ipa_bits ctx;
  ae_range : addr + s2tte_map_size l <= 2 ^ ipa_bits ctx;
  ae_aligned : (s2tte_map_size l | addr);
  ae_visits : visits ctx (r_mem w) addr gp l;
  ae_table : tables (r_mem w) !! gp = Some tp;
  ae_entry : arr_get tp (s2_addr_to_idx addr l) = Some e;
  ae_built : built ctx l k pa e;
  ae_leaf : k <> K_table
}.

Lemma at_entry_translate w F g i rd ctx lpa2 T gp l base addr k pa e tp a :
  ctx_ok ctx lpa2 -> rtt_inv ctx (r_mem w) T -> at_entry w F g i rd ctx T gp l base addr k pa e tp ->
  addr <= a < addr + s2tte_map_size l ->
  -1 <= l <= 3 /\ 0 <= a < 2 ^ ipa_bits ctx /\ 0 <= addr < 2 ^ ipa_bits ctx /\ T !! gp = Some l /\
  (l < 3 -> entry_is_table e = false) /\ translate ctx (r_mem w) a = entry_meaning ctx l e a.
Proof.
  intros Hc HT [_ Hb Hr Hal Hv Ht He Hbt Hk] Ha. pose proof Hc as [Hl _ Hsl _ _].
  assert (Had : 0 <= addr < 2 ^ ipa_bits ctx) by lia.
  destruct (visits_tree _ _ _ _ _ _ _ Hc HT Had Hv) as [Hgp Hlv]. assert (Hl1 : -1 <= l <= 3) by (destruct lpa2; lia).
  assert (Hnt : l < 3 -> entry_is_table e = false) by (by apply (leaf_not_table ctx lpa2 l k pa)).
  split_and!; try done; try lia. eapply translate_here; try done; [lia|].
  apply same_block; [rewrite s2tte_map_size_eq by done; apply Z.pow_pos_nonneg; lia|done|done].
Qed.

(** The addresses below [addr'] have the kind they should get. *)
Lemma relabelled_same w wk F g i rd ctx T gp l base addr addr' tr :
  relabelled w wk F g i rd ctx T gp l base addr tr -> base <= addr <= addr' ->
  (forall a, addr <= a < addr' -> 0 <= a < 2 ^ ipa_bits ctx /\
     exists k out attrs, translate ctx (r_mem wk) a = Some (k, out, attrs) /\ tr k = Some k) ->
  relabelled w wk F g i rd ctx T gp l base addr' tr.
Proof.
  intros [R1 R2 R3 R4 R5 R6 R7 R8 R9 R10 R11] Hle Hsame.
  assert (Hnew : forall a, addr <= a < addr' -> 0 <= a < 2 ^ ipa_bits ctx /\
    translate ctx (r_mem wk) a = translate ctx (r_mem w) a /\
    translate ctx (r_mem w) a ≫= relabel tr = translate ctx (r_mem w) a /\ is_Some (translate ctx (r_mem w) a)).
  { intros a Ha. destruct (Hsame a Ha) as (Har & k & out & [ap at0] & Ht & Htr). pose proof (R8 a Har) as Ho.
    rewrite decide_False in Ho by lia. rewrite <- Ho, Ht. split; [done|]. split; [done|]. split; [|by eexists]. cbn [mbind option_bind relabel]. rewrite Htr. cbn. by rewrite decide_True. }
  split; try done.
  - intros a Ha. rewrite R8 by done. destruct (decide (addr <= a < addr')) as [Hin|Hout].
    + rewrite decide_False, decide_True by lia. symmetry. by apply Hnew.
    + destruct (decide (base <= a < addr)); [by rewrite decide_True by lia|by rewrite decide_False by lia].
  - intros a Ha. destruct (decide (a < addr)); [apply R9; lia|]. destruct (Hnew a ltac:(lia)) as (_ & _ & -> & H). done.
  - intros Hb. apply R11. lia.
Qed.

(** The kind is already as wanted, for the part of the entry below [addr']. *)
Lemma relabelled_keep w wk F g i rd ctx lpa2 T gp l base addr addr' k pa e tp tr :
  ctx_ok ctx lpa2 -> relabelled w wk F g i rd ctx T gp l base addr tr ->
  at_entry wk F g i rd ctx T gp l base addr k pa e tp -> tr k = Some k ->
  addr <= addr' <= addr + s2tte_map_size l ->
  relabelled w wk F g i rd ctx T gp l base addr' tr.
Proof.
  intros Hc Hrl Hat Htr Hr. pose proof (ae_base _ _ _ _ _ _ _ _ _ _ _ _ _ _ _ Hat) as Hb.
  eapply relabelled_same; [exact Hrl|lia|]. intros a Ha.
  destruct (at_entry_translate _ _ _ _ _ _ _ _ _ _ _ _ _ _ _ _ a Hc (own_tree _ _ _ _ _ _ (rl_own _ _ _ _ _ _ _ _ _ _ _ _ _ Hrl)) Hat ltac:(lia))
    as (Hl1 & Har & _ & _ & _ & Ht).
  split; [done|]. rewrite Ht.
  destruct (relabel_meaning ctx lpa2 l k k pa e e a tr) as [_ H]; try done; [apply Hc|apply Hat..|by rewrite decide_True|].
  pose proof (kind_of_built ctx lpa2 l k pa e (ctx_lpa2 _ _ Hc) Hl1 (ae_built _ _ _ _ _ _ _ _ _ _ _ _ _ _ _ Hat)) as Hk.
  unfold entry_meaning in *. rewrite Hk in *. cbn [mbind option_bind] in *.
  destruct (if kind_live k then _ else _) as [out|]; [|by destruct H]. cbn. by eexists _, _, _.
Qed.

(** Writing the entry with a new leaf of the same reference count. *)
Lemma leaf_write w F g i rd ctx lpa2 T gp l base addr k k' pa pa' e v tp tp' evs :
  ctx_ok ctx lpa2 -> inv w F -> owns w g i rd ctx T -> at_entry w F g i rd ctx T gp l base addr k pa e tp ->
  built ctx l k' pa' v -> k' <> K_table -> kind_refs k' = kind_refs k ->
  arr_set tp (s2_addr_to_idx addr l) v = Some tp' ->
  let w' := with_log (with_mem w (set_table (r_mem w) gp tp')) evs in
  inv w' F /\ owns w' g i rd ctx T /\ entry_changed (r_mem w) (r_mem w') T gp (s2_addr_to_idx addr l) /\
  (forall g0 i0 T0 rd0 ctx0, F !! (g0, i0) = Some T0 -> (g0, i0) <> (g, i) -> owns w g0 i0 rd0 ctx0 T0 ->
     agree T0 (r_mem w) (r_mem w')).
Proof.
  intros Hc Hinv Hown Hat Hv Hk' Hrf Hset w'. pose proof (own_tree _ _ _ _ _ _ Hown) as HT. pose proof Hc as [Hl _ _ _ _].
  pose proof Hat as [HF Hb Hrg Hal Hvis Htp He Hbt Hk]. assert (Had : 0 <= addr < 2 ^ ipa_bits ctx) by lia.
  destruct (visits_tree _ _ _ _ _ _ _ Hc HT Had Hvis) as [Hgp Hsl].
  assert (Hlv : -1 <= l <= 3) by (pose proof (ctx_level _ _ Hc); destruct lpa2; lia).
  assert (Htp' : tables (r_mem w') !! gp = Some tp') by (apply lookup_insert_eq).
  assert (Hoth : forall x, x <> gp -> tables (r_mem w') !! x = tables (r_mem w) !! x) by (intros x Hx; cbn; by rewrite lookup_insert_ne).
  destruct (tree_table_at _ _ _ _ _ HT Hgp) as (tp2 & Htp2 & Hltp & _ & Hpg & Hok). assert (tp2 = tp) as -> by congruence.
  assert (Hrefs : table_refs ctx l tp' = table_refs ctx l tp).
  { rewrite (table_refs_set ctx l tp _ e v tp' He Hset).
    rewrite (entry_refs_built ctx lpa2 l k pa e), (entry_refs_built ctx lpa2 l k' pa' v) by done. lia. }
  pose proof (arr_set_length _ _ _ _ Hset) as Hltp'. rewrite Hltp in Hltp'.
  assert (Hfr : forall g0 i0 T0 rd0 ctx0, F !! (g0, i0) = Some T0 -> (g0, i0) <> (g, i) -> owns w g0 i0 rd0 ctx0 T0 ->
     agree T0 (r_mem w) (r_mem w')).
  { intros g0 i0 T0 rd0 ctx0 HF0 Hn _ x lx Hx. split; [|done]. apply Hoth. intros ->.
    by apply Hn, (inv_disjoint _ _ Hinv _ _ T0 T gp lx l). }
  assert (HT' : rtt_inv ctx (r_mem w') T).
  { eapply (rtt_inv_set ctx (r_mem w) (r_mem w') T gp l _ v); [done| | |by intros; eapply (leaf_not_table ctx lpa2 l k')].
    - split; try done; [by exists tp, tp'| |by intros x lx _ Hx; split; [apply Hoth|]].
      exists tp'. split_and!; try done; [by rewrite Hrefs|].
      intros x u Hu. rewrite (arr_get_set _ _ _ _ x Hset) in Hu. destruct (x =? _); [|eauto]. injection Hu as <-. right. eauto.
    - intros c (lx & t & u & p & Hx & Hlt & Ht & Hu & Hent & _). assert (lx = l) as -> by congruence.
      assert (u = e) as -> by congruence. by rewrite (leaf_not_table ctx lpa2 l k pa e) in Hent. }
  split_and!; [|destruct Hown; by split| |done].
  - eapply inv_contents; [exact Hinv|done|done| |].
    + intros x t Ht Hlt. destruct (decide (x = gp)) as [->|Hx]; [by exists tp'|]. exists t. by rewrite Hoth.
    + intros g0 i0 T0 rd0 ctx0 HF0 Hown0. destruct (decide ((g0, i0) = (g, i))) as [[= -> ->]|Hn].
      * destruct (owns_unique _ _ _ _ _ _ _ _ _ Hown Hown0) as [-> ->]. by assert (T0 = T) as -> by congruence.
      * eapply rtt_inv_frame; [by eapply Hfr|by destruct Hown0].
  - split; [intros x lx _ Hx; by apply Hoth|]. exists tp, tp'. split_and!; try done.
    intros j Hj. by rewrite (arr_get_set _ _ _ _ j Hset), (proj2 (Z.eqb_neq _ _)).
Qed.

(** One more entry, whose new kind refers to the same memory. *)
Lemma relabelled_write w wk F g i rd ctx lpa2 T gp l base addr k k' pa e v tp tp' evs tr :
  ctx_ok ctx lpa2 -> relabelled w wk F g i rd ctx T gp l base addr tr ->
  at_entry wk F g i rd ctx T gp l base addr k pa e tp ->
  built ctx l k' pa v -> k' <> K_table -> kind_refs k' = kind_refs k -> kind_live k' = kind_live k -> tr k = Some k' ->
  fst (entry_attrs ctx k' v) = fst (entry_attrs ctx k e) ->
  snd (entry_attrs ctx k' v) = (if decide (k' = k) then snd (entry_attrs ctx k e) else 0) ->
  arr_set tp (s2_addr_to_idx addr l) v = Some tp' ->
  relabelled w (with_log (with_mem wk (set_table (r_mem wk) gp tp')) evs) F g i rd ctx T gp l base
    (addr + s2tte_map_size l) tr.
Proof.
  intros Hc Hrl Hat Hv Hk' Hrf Hlive Htr Hat1 Hat2 Hset. pose proof Hrl as [R1 R2 R3 R4 R5 R6 R7 R8 R9 R10 R11].
  destruct (leaf_write wk F g i rd ctx lpa2 T gp l base addr k k' pa pa e v tp tp' evs Hc R1 R2 Hat Hv Hk' Hrf Hset)
    as (Hinv' & Hown' & Hech & Hfr). set (w' := with_log _ evs) in *.
  pose proof (own_tree _ _ _ _ _ _ R2) as HT. pose proof Hc as [Hl _ _ _ _].
  pose proof Hat as [HF Hb Hrg Hal Hvis Htp He Hbt Hk]. assert (Had : 0 <= addr < 2 ^ ipa_bits ctx) by lia.
  destruct (visits_tree _ _ _ _ _ _ _ Hc HT Had Hvis) as [Hgp Hsl].
  assert (Hlv : -1 <= l <= 3) by (pose proof (ctx_level _ _ Hc); destruct lpa2; lia).
  assert (Hms : 0 < s2tte_map_size l) by (rewrite s2tte_map_size_eq by done; apply Z.pow_pos_nonneg; lia).
  assert (Htr' : forall a, 0 <= a < 2 ^ ipa_bits ctx -> translate ctx (r_mem w') a =
    if decide (addr <= a < addr + s2tte_map_size l) then entry_meaning ctx l v a else translate ctx (r_mem wk) a).
  { intros a Ha. rewrite (translate_changed ctx lpa2 (r_mem wk) (r_mem w') T gp l addr tp' v a Hc HT Ha Had Hech Hvis);
      [|apply lookup_insert_eq|by rewrite (arr_get_set _ _ _ _ _ Hset), Z.eqb_refl|by intros; eapply (leaf_not_table ctx lpa2 l k')].
    pose proof (same_block a addr (s2tte_map_size l) Hms Hal) as Hsb. destruct (decide (a / s2tte_map_size l = _)) as [Hd|Hd].
    - rewrite decide_True; [done|by apply Hsb].
    - rewrite decide_False; [done|]. intros Hin. by apply Hd, Hsb. }
  assert (Hnew : forall a, addr <= a < addr + s2tte_map_size l ->
    translate ctx (r_mem w) a ≫= relabel tr = entry_meaning ctx l v a /\ is_Some (translate ctx (r_mem w) a ≫= relabel tr)).
  { intros a Ha. destruct (at_entry_translate _ _ _ _ _ _ _ _ _ _ _ _ _ _ _ _ a Hc HT Hat Ha) as (_ & Har & _ & _ & _ & Ht).
    pose proof (R8 a Har) as Ho. rewrite decide_False in Ho by lia. rewrite <- Ho, Ht.
    destruct (relabel_meaning ctx lpa2 l k k' pa e v a tr Hl Hlv Hbt Hv Hlive Htr Hat1 Hat2) as [-> H]. done. }
  split; try done.
  - intros x Hx. cbn. rewrite lookup_insert_ne by done. by apply R6.
  - by eapply (visits_changed ctx lpa2 (r_mem wk) (r_mem w') T gp l); try done; lia.
  - intros a Ha. rewrite Htr' by done. destruct (decide (addr <= a < addr + s2tte_map_size l)) as [Hin|Hout].
    + rewrite decide_True by lia. symmetry. by apply Hnew.
    + rewrite R8 by done. destruct (decide (base <= a < addr)); [by rewrite decide_True by lia|by rewrite decide_False by lia].
  - intros a Ha. destruct (decide (a < addr)); [apply R9; lia|]. apply Hnew. lia.
  - intros g0 i0 T0 rd0 ctx0 a HF0 Hn Hown0 Ha. rewrite <- (R10 g0 i0 T0 rd0 ctx0 a) by done.
    destruct (owns_ctx_ok _ _ _ _ _ _ Hown0) as [lpa20 Hctx0].
    destruct (inv_own _ _ R1 _ _ _ HF0) as (rd1 & ctx1 & Hown1).
    assert (ctx1 = ctx0) as -> by (destruct Hown0 as [P1 _ P3 _ _], Hown1 as [O1 _ O3 _ _]; rewrite R3 in O1; congruence).
    eapply translate_frame; [exact Hctx0|by destruct Hown1|by eapply Hfr|done].
  - lia.
Qed.

End Range.
