(* ===== verification/RttRipas.v ===== *)
(** * Initial RIPAS of a realm: RMI_RTT_INIT_RIPAS ([runtime/rmi/rtt.c])

    Before a realm is activated the host declares which of its protected addresses
    are RAM.  The handler changes the entries of one table from [base] on, until an
    entry it cannot change, the end of the table or [top], and measures the range
    it covered. *)

From Stdlib Require Import ZArith Lia Bool ZifyBool.
From stdpp Require Import base tactics option list numbers gmap.
From S2P Require Import Prelude.
From S2P Require Import Smc.
From S2P Require Import Utils.
From S2P Require Import Status.
From S2P Require Import Granule.
From S2P Require Import Mem.
From S2P Require Import Arch.
From S2P Require Import S2tte.
From S2P Require Import S2tteFacts.
From S2P Require Import S2tteProps.
From S2P Require Import S2ttTable.
From S2P Require Import S2ttWalk.
From S2P Require Import RttFold.
From S2P Require Import RttFoldProps.
From S2P Require Import RttEntry.
From S2P Require Import Realm.
From S2P Require Import RttTree.
From S2P Require Import Rmm.
From S2P Require Import RttCmds.
From S2P Require Import RttInv.
From S2P Require Import RttPath.
From S2P Require Import RttRefuse.
From S2P Require Import RttCreate.
From S2P Require Import RttRange.

Definition S2TTES_PER_S2TT_LM1 : Z := shl64 1 S2TTE_STRIDE_LM1.

(** What the loop does with one entry. *)
Inductive ripas_entry := Re_stop | Re_keep | Re_write (s2tte : Z).

(** How the loop over the entries ended: at a drain mark in the first entry, or
    having covered everything below an address. *)
Inductive ripas_scan := Scan_blocked | Scan_done (addr : Z).

Section Cmd.
Context `{feat : ArchFeatures} `{lookup : GranuleLookup}.
Implicit Types (rd : rd) (s2_ctx : s2tt_context) (wi : s2tt_walk) (res : smc_result).

Definition init_ripas_entry s2_ctx (s2tte level : Z) : option ripas_entry :=
  if s2tte_is_unassigned_empty s2_ctx s2tte || s2tte_is_unassigned_destroyed s2_ctx s2tte then
    Some (Re_write (s2tte_create_unassigned_ram s2_ctx s2tte))
  else
    empty ← s2tte_is_assigned_empty s2_ctx s2tte level;
    assigned ← (if empty : bool then Some true else s2tte_is_assigned_destroyed s2_ctx s2tte level);
    if assigned : bool then
      pa ← s2tte_pa s2_ctx s2tte level;
      Re_write <$> s2tte_create_assigned_ram s2_ctx pa level s2tte
    else
      ram ← s2tte_is_assigned_ram s2_ctx s2tte level;
      Some (if negb ram && negb (s2tte_is_unassigned_ram s2_ctx s2tte) then Re_stop else Re_keep).

(** The loop over the entries from [index] on, [n] of them left. *)
Fixpoint init_ripas_loop s2_ctx (g_llt base top map_size level : Z) (n : nat) (index addr : Z) : H ripas_scan :=
  match n with
  | O => ret (Scan_done addr)
  | S n' =>
      let next := add64 addr map_size in
      if top <? next then ret (Scan_done addr)
      else
        s2tt <-! map_table g_llt ;;
        s2tte <-! lift (s2tte_read s2tt index) ;;
        if s2tte_drain_pending s2tte then ret (if addr =? base then Scan_blocked else Scan_done addr)
        else
          r <-! lift (init_ripas_entry s2_ctx s2tte level) ;;
          match r with
          | Re_stop => ret (Scan_done addr)
          | Re_keep => init_ripas_loop s2_ctx g_llt base top map_size level n' (index + 1) next
          | Re_write s2tte =>
              _ <-! s2tte_write g_llt index s2tte ;;
              init_ripas_loop s2_ctx g_llt base top map_size level n' (index + 1) next
          end
  end.

(** From the end of the walk to [out_unmap_llt]. *)
Definition init_ripas_llt (g_rd : Z) s2_ctx wi (base top : Z) res : H smc_result :=
  let level := last_level wi in
  let map_size := s2tte_map_size level in
  let addr := Z.land base (not64 (sub64 map_size 1)) in
  if negb (addr =? base) then
    status <-! lift (pack_return_code_level RMI_ERROR_RTT (u8 level)) ;;
    ret (set_x0 status res)
  else
    let s2ttes_per_s2tt := if level =? S2TT_MIN_STARTING_LEVEL_LPA2 then S2TTES_PER_S2TT_LM1 else S2TTES_PER_S2TT in
    scan <-! init_ripas_loop s2_ctx (g_llt wi) base top map_size level
               (Z.to_nat (s2ttes_per_s2tt - index wi)) (index wi) addr ;;
    match scan with
    | Scan_blocked => ret (set_x0 RMI_BLOCKED res)
    | Scan_done addr =>
        if base <? addr then
          _ <-! emit (E_measure_ripas g_rd base addr) ;;
          ret (set_x1 addr (set_x0 RMI_SUCCESS res))
        else
          status <-! lift (pack_return_code_level RMI_ERROR_RTT (u8 level)) ;;
          ret (set_x0 status res)
    end.

(** The checks of the address range, in the order of the code. *)
Definition init_ripas_range_ok rd (base top : Z) : option bool :=
  b ← validate_map_addr base S2TT_PAGE_LEVEL rd;
  if negb b then Some false else
  b ← validate_map_addr top S2TT_PAGE_LEVEL rd;
  if negb b then Some false else
  b ← addr_in_par rd base;
  if negb b then Some false else addr_in_par rd (sub64 top GRANULE_SIZE).

Definition smc_rtt_init_ripas (rd_addr base top : Z) res : H smc_result :=
  if top <=? base then ret (set_x0 RMI_ERROR_INPUT res) else
  found <-! on_mem (find_lock_fine_granule rd_addr GRANULE_STATE_RD) ;;
  if negb (fst found =? RMI_SUCCESS) then ret (set_x0 (fst found) res) else
  g_rd <-! lift (snd found) ;;
  rd <-! map_rd g_rd ;;
  ok <-! lift (init_ripas_range_ok rd base top) ;;
  if negb ok then
    _ <-! h_granule_unlock g_rd ;;
    ret (set_x0 RMI_ERROR_INPUT res)
  else if negb (get_rd_state_locked rd =? REALM_NEW) then
    _ <-! h_granule_unlock g_rd ;;
    ret (set_x0 RMI_ERROR_REALM res)
  else
  s2_ctx <-! lift (arr_get (s2_ctxs rd) PRIMARY_S2_CTX_ID) ;;
  _ <-! h_granule_lock (g_rtt s2_ctx) GRANULE_STATE_RTT ;;
  wi <-! on_mem (s2tt_walk_lock_unlock s2_ctx base S2TT_PAGE_LEVEL) ;;
  res <-! init_ripas_llt g_rd s2_ctx wi base top res ;;
  _ <-! h_granule_unlock (g_llt wi) ;;
  _ <-! h_granule_unlock g_rd ;;
  ret res.

End Cmd.

(** ** Correctness *)

(** The kind an entry gets; other kinds end the loop. *)
Definition init_kind (k : s2tte_kind) : option s2tte_kind :=
  match k with
  | K_unassigned_empty | K_unassigned_destroyed | K_unassigned_ram => Some K_unassigned_ram
  | K_assigned_empty | K_assigned_destroyed | K_assigned_ram => Some K_assigned_ram
  | _ => None
  end.

Section Correct.
Context `{feat : ArchFeatures} `{lookup : GranuleLookup}.
Implicit Types (w : rmm) (F : forest) (rd : rd) (ctx : s2tt_context) (T : tree).

(** One entry: its kind decides, and a rewritten one keeps output address,
    permissions and reference count. *)
Lemma init_entry_ok ctx lpa2 level k pa e :
  s2tt_lpa2_enabled ctx = Some lpa2 -> -1 <= level <= 3 -> built ctx level k pa e ->
  exists r, init_ripas_entry ctx e level = Some r /\
    match r with
    | Re_stop => init_kind k = None
    | Re_keep => init_kind k = Some k
    | Re_write v => exists k', init_kind k = Some k' /\ built ctx level k' pa v /\
        k' <> K_table /\ k <> K_table /\ kind_refs k' = kind_refs k /\ kind_live k' = kind_live k /\
        fst (entry_attrs ctx k' v) = fst (entry_attrs ctx k e) /\
        snd (entry_attrs ctx k' v) = (if decide (k' = k) then snd (entry_attrs ctx k e) else 0)
    end.
Proof.
  intros Hl Hlv Hb. pose proof (fun k' => built_is_kind _ _ level _ _ _ k' Hl Hlv Hb) as Hkind. unfold init_ripas_entry.
  destruct (is_leaf k) eqn:Hleaf.
  - pose proof (built_pa _ _ _ _ _ _ Hl Hb ltac:(by destruct k)) as Hpa.
    pose proof (rekind _ _ _ _ K_assigned_ram _ _ Hl Hb Hleaf eq_refl ltac:(done) ltac:(done)) as (v' & Hv' & Hb' & Ha').
    cbn [recreate kind_dev] in Hv', Ha'.
    destruct k; try discriminate Hleaf; kind_answers Hkind; use_answers; cbn; rewrite ?Hpa; cbn; rewrite ?Hv'; cbn;
      eexists; (split; [reflexivity|]); cbn; try done; eexists; split_and!; done.
  - destruct k; try discriminate Hleaf; kind_answers Hkind; use_answers; cbn;
      eexists; (split; [reflexivity|]); cbn; try done.
    all: exists K_unassigned_ram; split_and!; try done; [constructor|]; by apply (unassigned_ap ctx K_unassigned_ram).
Qed.

(** Both locks of the loop. *)
Definition in_loop w (g_rd gp : Z) : rmm := with_mem w (with_lock (with_lock (r_mem w) g_rd) gp).

(** Why the loop ended at [addr]: the entries of the table are used up, the next
    one reaches above [top], or it cannot be changed. *)
Definition scan_end w ctx (gp l base top limit addr : Z) : Prop :=
  limit * s2tte_map_size l <= s2_addr_to_idx base l * s2tte_map_size l + (addr - base) \/
  top < addr + s2tte_map_size l \/
  exists e, entry_at w gp addr l e /\
    (s2tte_drain_pending e = true \/ exists k pa, built ctx l k pa e /\ init_kind k = None).

(** The events of the loop are writes to its table. *)
Definition only_writes w w' (gp : Z) : Prop :=
  exists evs, r_log w' = r_log w ++ evs /\ Forall (fun ev => exists j v, ev = E_write gp j v) evs.

Lemma init_loop_ok w F g_rd g i rd ctx lpa2 T gp l base top limit n (Q : ripas_scan -> rmm -> Prop) :
  ctx_ok ctx lpa2 -> F !! (g, i) = Some T -> 0 <= base -> base + s2tte_map_size l <= 2 ^ 53 ->
  0 <= top <= 2 ^ ipa_bits ctx -> (s2tte_map_size l | base) -> limit <= 512 -> -1 <= l <= 3 ->
  (forall wk addr, relabelled w wk F g i rd ctx T gp l base addr init_kind -> base <= addr -> addr <= base \/ addr <= top ->
     (s2tte_map_size l | addr) -> only_writes w wk gp ->
     scan_end wk ctx gp l base top limit addr -> Q (Scan_done addr) (in_loop wk g_rd gp)) ->
  (forall e, entry_at w gp base l e -> s2tte_drain_pending e = true -> Q Scan_blocked (in_loop w g_rd gp)) ->
  forall wk j, relabelled w wk F g i rd ctx T gp l base (base + j * s2tte_map_size l) init_kind ->
  only_writes w wk gp -> 0 <= j -> s2_addr_to_idx base l + j + Z.of_nat n = limit ->
  j = 0 \/ base + j * s2tte_map_size l <= top ->
  runs (init_ripas_loop ctx gp base top (s2tte_map_size l) l n (s2_addr_to_idx base l + j) (base + j * s2tte_map_size l))
    (in_loop wk g_rd gp) Q.
Proof.
  intros Hc HF Hb Hb2 Htop Hal Hlim Hlv HQ Hblk. pose proof Hc as [Hl Hbits _ _ _].
  assert (H52 : 2 ^ ipa_bits ctx <= 2 ^ 52) by (apply Z.pow_le_mono_r; destruct lpa2; lia).
  assert (Hms : 0 < s2tte_map_size l) by (rewrite s2tte_map_size_eq by done; apply Z.pow_pos_nonneg; lia).
  assert (Hms2 : s2tte_map_size l <= 2 ^ 48) by (rewrite s2tte_map_size_eq by done; apply Z.pow_le_mono_r; lia).
  assert (Hdiv : forall j, (s2tte_map_size l | base + j * s2tte_map_size l))
    by (intros j; apply Z.divide_add_r; [done|apply Z.divide_factor_r]).
  induction n as [|n IH]; intros wk j Hrl Hlog Hj Hidx Hle; cbn [init_ripas_loop];
    set (addr := base + j * s2tte_map_size l) in *; assert (Hge : base <= addr) by (unfold addr; nia).
  all: assert (Hend : scan_end wk ctx gp l base top limit addr -> Q (Scan_done addr) (in_loop wk g_rd gp))
    by (intros Hend; apply HQ; try done; [destruct Hle as [->|]; [left; unfold addr; lia|by right]|apply Hdiv]).
  { apply runs_ret, Hend. left. unfold addr. nia. }
  assert (Hadd : add64 addr (s2tte_map_size l) = addr + s2tte_map_size l).
  { unfold add64. apply u64_small. unfold in_u64. destruct Hle as [->|]; [unfold addr; lia|lia]. }
  rewrite Hadd. destruct (Z.ltb_spec top (addr + s2tte_map_size l)).
  { apply runs_ret, Hend. right. by left. }
  pose proof (rl_own _ _ _ _ _ _ _ _ _ _ _ _ _ Hrl) as Hown. pose proof (own_tree _ _ _ _ _ _ Hown) as HT.
  destruct (nth_entry ctx lpa2 (r_mem wk) T base gp l j Hc HT ltac:(lia) Hal (rl_visits _ _ _ _ _ _ _ _ _ _ _ _ _ Hrl) Hj
    ltac:(lia) ltac:(unfold addr in *; lia)) as (Hvis & Hix & _). fold addr in Hvis, Hix.
  assert (Had : 0 <= addr < 2 ^ ipa_bits ctx) by lia.
  destruct (visits_tree _ _ _ _ _ _ _ Hc HT Had Hvis) as [Hgp _].
  destruct (tree_table_at _ _ _ _ _ HT Hgp) as (tp & Htp & Hltp & _ & _ & Hok).
  eapply runs_bind, runs_get; [exact Htp|]. rewrite <- Hix.
  destruct (arr_get_some tp (s2_addr_to_idx addr l)) as [e He];
    [rewrite Hltp; unfold N_S2TTES; pose proof (s2_addr_to_idx_range addr l); lia|].
  assert (Hat : entry_at wk gp addr l e) by (by exists tp).
  eapply runs_bind, runs_lift; [exact He|]. destruct (s2tte_drain_pending e) eqn:Hdp.
  { apply runs_ret. destruct (Z.eqb_spec addr base) as [Heq|Hne].
    - pose proof (rl_start _ _ _ _ _ _ _ _ _ _ _ _ _ Hrl ltac:(lia)) as ->. eapply Hblk; [|exact Hdp]. by rewrite <- Heq.
    - apply Hend. right. right. exists e. auto. }
  destruct (Hok _ _ He) as [[Hm _]|(k & pa & Hbt)]; [congruence|].
  destruct (init_entry_ok ctx lpa2 l k pa e Hl Hlv Hbt) as (r & Hr & Hres). eapply runs_bind, runs_lift; [exact Hr|].
  assert (Hnext : addr + s2tte_map_size l = base + (j + 1) * s2tte_map_size l) by (unfold addr; lia).
  assert (Hi2 : s2_addr_to_idx addr l + 1 = s2_addr_to_idx base l + (j + 1)) by lia.
  assert (Hae : k <> K_table -> at_entry wk F g i rd ctx T gp l base addr k pa e tp) by (intros Hk; split; try done; [lia|lia|apply Hdiv]).
  destruct r as [| |v].
  - apply runs_ret, Hend. right. right. exists e. split; [done|]. right. eauto.
  - rewrite Hi2, Hnext. apply IH; try done; try lia. rewrite <- Hnext.
    eapply relabelled_keep; [exact Hc|exact Hrl|apply Hae; by destruct k|exact Hres|lia].
  - destruct Hres as (k' & Hk' & Hbv & Hn1 & Hn2 & Hrf & Hlive & Ha1 & Ha2).
    destruct (arr_set tp (s2_addr_to_idx addr l) v) as [tp'|] eqn:Hset; [|by rewrite (arr_set_some _ _ _ (arr_get_lt _ _ _ He)) in Hset].
    eapply runs_bind, runs_write; [exact Htp|exact Hset|]. rewrite Hi2, Hnext.
    apply (IH (with_log (with_mem wk (set_table (r_mem wk) gp tp')) [E_write gp (s2_addr_to_idx addr l) v])); try lia.
    + rewrite <- Hnext. by eapply (relabelled_write w wk); eauto.
    + destruct Hlog as (evs & Hev & Hall). exists (evs ++ [E_write gp (s2_addr_to_idx addr l) v]). split.
      * cbn. by rewrite Hev, app_assoc.
      * apply Forall_app. split; [done|]. apply Forall_singleton. eauto.
Qed.

(** ** The command *)

Definition level_limit (l : Z) : Z := if l =? S2TT_MIN_STARTING_LEVEL_LPA2 then S2TTES_PER_S2TT_LM1 else S2TTES_PER_S2TT.

Lemma level_limit_ok a l : -1 <= l <= 3 -> 0 <= s2_addr_to_idx a l < level_limit l /\ level_limit l <= 512.
Proof.
  intros Hl. unfold level_limit. destruct (Z.eqb_spec l S2TT_MIN_STARTING_LEVEL_LPA2) as [->|Hne].
  - change S2TTES_PER_S2TT_LM1 with 16. split; [|lia]. unfold s2_addr_to_idx.
    change (S2TT_MIN_STARTING_LEVEL_LPA2 <? S2TT_MIN_STARTING_LEVEL) with true. cbv iota.
    change (shl64 1 S2TTE_STRIDE_LM1 - 1) with (Z.ones 4). rewrite Z.land_ones by lia. by apply Z.mod_pos_bound.
  - unfold S2TTES_PER_S2TT. pose proof (s2_addr_to_idx_range a l Hl). lia.
Qed.

Inductive ripas_refused w (rd_addr base top : Z) : Z -> Prop :=
  | rr_args : top <= base -> ripas_refused w rd_addr base top RMI_ERROR_INPUT
  | rr_rd st : lookup_refuses w rd_addr GRANULE_STATE_RD st -> ripas_refused w rd_addr base top st
  | rr_range g rd : names_rd w rd_addr g -> r_rds w !! g = Some rd -> init_ripas_range_ok rd base top = Some false ->
      ripas_refused w rd_addr base top RMI_ERROR_INPUT
  | rr_state g rd : names_rd w rd_addr g -> r_rds w !! g = Some rd -> get_rd_state_locked rd <> REALM_NEW ->
      ripas_refused w rd_addr base top RMI_ERROR_REALM
  | rr_blocked g rd ctx T gp l e : names_rd w rd_addr g -> owns w g PRIMARY_S2_CTX_ID rd ctx T ->
      visits ctx (r_mem w) base gp l -> entry_at w gp base l e -> s2tte_drain_pending e = true ->
      ripas_refused w rd_addr base top RMI_BLOCKED
  | rr_stop g rd ctx T gp l st : names_rd w rd_addr g -> owns w g PRIMARY_S2_CTX_ID rd ctx T ->
      visits ctx (r_mem w) base gp l -> (l < S2TT_PAGE_LEVEL -> next_table ctx (r_mem w) gp base l = None) ->
      ~ (s2tte_map_size l | base) \/ scan_end w ctx gp l base top (level_limit l) base ->
      rtt_error false l st -> ripas_refused w rd_addr base top st.

Lemma relabelled_log w w' F g i rd ctx T gp l base addr tr evs :
  relabelled w w' F g i rd ctx T gp l base addr tr -> base < addr ->
  relabelled w (with_log w' evs) F g i rd ctx T gp l base addr tr.
Proof.
  intros [[I1 I2 I3 I4] [O1 O2 O3 O4 O5] R3 R4 R5 R6 R7 R8 R9 R10 R11] Hlt. split; try done; [|lia].
  split; try done. intros g0 i0 T0 HF. destruct (I3 g0 i0 T0 HF) as (rd0 & ctx0 & [P1 P2 P3 P4 P5]).
  exists rd0, ctx0. by split.
Qed.

Lemma aligned_round base l : -1 <= l <= 3 -> 0 <= base < 2 ^ 64 ->
  (Z.land base (not64 (sub64 (s2tte_map_size l) 1)) = base <-> (s2tte_map_size l | base)).
Proof.
  intros Hl Hb. rewrite s2tte_map_size_eq by done. set (n := (3 - l) * 9 + 12).
  pose proof (round_down_spec base n Hb ltac:(lia)) as Hr. unfold round_down in Hr. rewrite Hr.
  assert (0 < 2 ^ n) by (apply Z.pow_pos_nonneg; lia). rewrite <- Z.mod_divide by lia. lia.
Qed.

Lemma range_ok_spec rd lpa2 bits sl base top :
  rd_ok rd lpa2 bits sl -> 0 <= base -> 0 <= top ->
  exists b, init_ripas_range_ok rd base top = Some b /\ (b = true -> base < 2 ^ bits /\ top < 2 ^ bits).
Proof.
  intros Hr Hb Ht. pose proof (rd_sizes _ _ _ _ Hr) as (_ & _ & _ & Hpar).
  pose proof (num_planes_eq _ _ _ _ Hr) as [_ Hn]. destruct (rd_get_ctx _ _ _ _ 0 Hr ltac:(lia)) as [ctx Hc].
  destruct (rd_ctx_ok _ _ _ _ Hr 0 ctx ltac:(lia) Hc) as ([_ _ Hs _ _] & _ & Hsl & _). unfold init_ripas_range_ok.
  destruct (map_addr_valid rd lpa2 bits sl base S2TT_PAGE_LEVEL Hr Hb ltac:(unfold S2TT_PAGE_LEVEL; lia)) as (b1 & -> & H1).
  destruct (map_addr_valid rd lpa2 bits sl top S2TT_PAGE_LEVEL Hr Ht ltac:(unfold S2TT_PAGE_LEVEL; lia)) as (b2 & -> & H2).
  rewrite !Hpar. cbn [mbind option_bind]. destruct b1; cbn [negb]; [|by eexists]. destruct b2; cbn [negb]; [|by eexists].
  destruct (H1 eq_refl), (H2 eq_refl). destruct (base <? _); cbn [negb]; by eexists.
Qed.

(** The two releases at the end of the command. *)
Lemma release_loop {A} w F rd_addr g i rd ctx T gp l (x : A) (Q : A -> rmm -> Prop) :
  inv w F -> names_rd w rd_addr g -> owns w g i rd ctx T -> T !! gp = Some l -> Q x w ->
  runs (_ <-! h_granule_unlock gp ;; _ <-! h_granule_unlock g ;; ret x) (in_loop w g gp) Q.
Proof.
  intros Hinv Hnm Hown Hgp HQ. pose proof Hnm as (_ & r & Hrg). pose proof (own_tree _ _ _ _ _ _ Hown) as HT.
  apply runs_bind. eapply unlock_llt; [exact HT|by eapply not_in_tree|exact Hgp|done|].
  apply runs_bind. eapply unlock_rd; [exact Hnm| |done]. by apply runs_ret.
Qed.

Lemma init_llt_ok w F rd_addr g rd ctx lpa2 T wi base top res (Q : smc_result -> rmm -> Prop) :
  let gp := g_llt wi in
  let l := last_level wi in
  ctx_ok ctx lpa2 -> inv w F -> names_rd w rd_addr g -> F !! (g, PRIMARY_S2_CTX_ID) = Some T ->
  owns w g PRIMARY_S2_CTX_ID rd ctx T -> -1 <= l <= 3 -> 0 <= base < 2 ^ ipa_bits ctx -> 0 <= top < 2 ^ ipa_bits ctx ->
  visits ctx (r_mem w) base gp l -> (l < S2TT_PAGE_LEVEL -> next_table ctx (r_mem w) gp base l = None) ->
  index wi = s2_addr_to_idx base l ->
  (forall st, st <> RMI_SUCCESS -> ripas_refused w rd_addr base top st -> Q (set_x0 st res) (in_loop w g gp)) ->
  (forall wk addr, relabelled w wk F g PRIMARY_S2_CTX_ID rd ctx T gp l base addr init_kind -> base < addr <= top ->
     only_writes w wk gp -> scan_end wk ctx gp l base top (level_limit l) addr ->
     Q (set_x1 addr (set_x0 RMI_SUCCESS res)) (in_loop (with_log wk [E_measure_ripas g base addr]) g gp)) ->
  runs (init_ripas_llt g ctx wi base top res) (in_loop w g gp) Q.
Proof.
  intros gp l Hc Hinv Hg HF Hown Hlv Hb Ht Hvis Hstop Hix Herr HQ. unfold init_ripas_llt. fold gp l.
  pose proof Hc as [_ Hbits _ _ _].
  assert (H52 : 2 ^ ipa_bits ctx <= 2 ^ 52) by (apply Z.pow_le_mono_r; destruct lpa2; lia).
  pose proof (aligned_round base l Hlv ltac:(lia)) as Hal.
  destruct (rtt_error_some false l) as (st & Hst & Hne).
  destruct (Z.eqb_spec (Z.land base (not64 (sub64 (s2tte_map_size l) 1))) base) as [Hbase|Hbase]; cbn [negb].
  2: { eapply runs_bind, runs_lift; [exact Hst|]. apply runs_ret. apply Herr; [done|]. eapply rr_stop; eauto. left. by intros ?%Hal. }
  rewrite Hbase. fold (level_limit l). destruct (level_limit_ok base l Hlv) as [Hlim Hlim2].
  assert (Hms2 : s2tte_map_size l <= 2 ^ 48) by (rewrite s2tte_map_size_eq by done; apply Z.pow_le_mono_r; lia).
  apply runs_bind. replace base with (base + 0 * s2tte_map_size l) at 2 by lia. rewrite Hix.
  replace (s2_addr_to_idx base l) with (s2_addr_to_idx base l + 0) at 2 by lia.
  eapply (init_loop_ok w F g g PRIMARY_S2_CTX_ID rd ctx lpa2 T gp l base top (level_limit l)); try done; try lia; [by apply Hal| | | |].
  - intros wk addr Hrl Hge Hle Hd Hlog Hend. destruct (Z.ltb_spec base addr) as [Hlt|Hnlt].
    + apply runs_bind, runs_emit, runs_ret. apply HQ; try done. lia.
    + assert (addr = base) as -> by lia. pose proof (rl_start _ _ _ _ _ _ _ _ _ _ _ _ _ Hrl ltac:(lia)) as ->.
      eapply runs_bind, runs_lift; [exact Hst|]. apply runs_ret. apply Herr; [done|]. eapply rr_stop; eauto.
  - intros e He Hdp. apply runs_ret. apply Herr; [done|]. by eapply rr_blocked.
  - rewrite Z.mul_0_l, Z.add_0_r. by apply relabelled_start.
  - exists []. by rewrite app_nil_r.
Qed.

Lemma init_ripas_ok w F rd_addr base top res :
  inv w F -> 0 <= base -> 0 <= top ->
  runs (smc_rtt_init_ripas rd_addr base top res) w (fun out w' =>
    (res_x0 out <> RMI_SUCCESS /\ ripas_refused w rd_addr base top (res_x0 out) /\ w' = w) \/
    (res_x0 out = RMI_SUCCESS /\ exists g rd ctx T gp l w1,
       names_rd w rd_addr g /\ F !! (g, PRIMARY_S2_CTX_ID) = Some T /\ owns w g PRIMARY_S2_CTX_ID rd ctx T /\
       get_rd_state_locked rd = REALM_NEW /\ init_ripas_range_ok rd base top = Some true /\
       base < res_x1 out <= top /\ top <= 2 ^ ipa_bits ctx /\
       relabelled w w' F g PRIMARY_S2_CTX_ID rd ctx T gp l base (res_x1 out) init_kind /\
       scan_end w1 ctx gp l base top (level_limit l) (res_x1 out) /\ only_writes w w1 gp /\
       w' = with_log w1 [E_measure_ripas g base (res_x1 out)])).
Proof.
  intros Hinv Hb Ht. unfold smc_rtt_init_ripas. destruct (Z.leb_spec top base).
  { apply runs_ret. left. split; [done|]. split; [by apply rr_args|done]. }
  apply runs_bind. apply (lock_rd w F); [done| |].
  { intros st Hst Hwhy. cbn [fst]. rewrite (proj2 (Z.eqb_neq st RMI_SUCCESS)) by done. cbn [negb]. apply runs_ret. left.
    split; [done|]. split; [by apply rr_rd|done]. }
  intros g Hg. cbn [fst snd]. rewrite Z.eqb_refl. cbn [negb]. eapply runs_bind, runs_lift; [done|].
  pose proof Hg as (Hga & r & Hrg). destruct (inv_rd _ _ Hinv g r Hrg) as (rd & lpa2 & bits & sl & Hrd & Hok & HF).
  eapply runs_bind, runs_get; [exact Hrd|].
  destruct (range_ok_spec rd lpa2 bits sl base top Hok Hb Ht) as (b & Hrange & Hbt).
  eapply runs_bind, runs_lift; [exact Hrange|]. destruct b; cbn [negb].
  2: { apply runs_bind. eapply unlock_rd; [exact Hg| |done]. apply runs_ret. left. split; [done|].
       split; [by eapply rr_range|done]. }
  destruct (Hbt eq_refl) as [Hb2 Ht2].
  destruct (Z.eqb_spec (get_rd_state_locked rd) REALM_NEW) as [Hnew|Hnew]; cbn [negb].
  2: { apply runs_bind. eapply unlock_rd; [exact Hg| |done]. apply runs_ret. left. split; [done|].
       split; [by eapply rr_state|done]. }
  pose proof (num_planes_eq _ _ _ _ Hok) as [_ Hn]. destruct (rd_get_ctx _ _ _ _ 0 Hok ltac:(lia)) as [ctx Hc].
  destruct (rd_ctx_ok _ _ _ _ Hok 0 ctx ltac:(lia) Hc) as (Hctx & Hbits & Hsl & _). pose proof Hctx as [Hl Hbb Hs _ _].
  assert (H52 : 2 ^ bits <= 2 ^ 52) by (rewrite <- Hbits; apply Z.pow_le_mono_r; destruct lpa2; lia).
  assert (Hi : 0 <= 0 < realm_num_s2_rtts rd)
    by (unfold realm_num_s2_rtts, realm_num_s2_contexts; destruct (rtt_tree_pp rd); lia).
  destruct (realm_tree _ _ _ _ _ _ Hinv Hrd HF Hi Hc) as (T & HT & Hown). pose proof (own_tree _ _ _ _ _ _ Hown) as Htree.
  eapply runs_bind, runs_lift; [exact Hc|].
  apply (lock_walk w g ctx lpa2 T); try done; [by eapply not_in_tree|by rewrite Hbits|unfold S2TT_PAGE_LEVEL; lia|].
  intros wi Hwk. destruct (walked_visits _ _ _ _ _ _ Hwk ltac:(done)) as [Hvis Hix].
  destruct Hwk as [_ _ Hgp Hll Hstop]. set (gp := g_llt wi) in *. set (l := last_level wi) in *.
  assert (Hlv : -1 <= l <= 3) by (unfold S2TT_PAGE_LEVEL in Hll; destruct lpa2; lia).
  change (with_mem w (with_lock (with_lock (r_mem w) g) gp)) with (in_loop w g gp).
  apply runs_bind. eapply (init_llt_ok w F rd_addr g rd ctx lpa2 T wi base top); try done; [by rewrite Hbits..| |]; fold gp l.
  - intros st Hst Hwhy. eapply release_loop; try done. by left.
  - intros wk addr Hrl Hle Hlog Hend.
    pose proof (relabelled_log _ _ _ _ _ _ _ _ _ _ _ _ _ [E_measure_ripas g base addr] Hrl ltac:(lia)) as Hrl'.
    pose proof Hrl' as [I' O' Hr' _ Hd' _ _ _ _ _ _]. eapply release_loop; [exact I'| |exact O'|exact Hgp|].
    + split; [done|]. exists r. eapply granule_at_descs; [|exact Hrg]. by rewrite Hd'.
    + right. split; [done|]. exists g, rd, ctx, T, gp, l, wk. rewrite Hbits. split_and!; try done; cbn; lia.
Qed.

(** C8: from any state that satisfies the invariant, with any arguments,
    RMI_RTT_INIT_RIPAS returns and releases its locks; a refused command changes
    nothing and has one of the causes of [ripas_refused], with its code.  A
    successful one covers [base] up to the address it returns in X1: all of that
    range now has RIPAS RAM, was EMPTY, DESTROYED or RAM before, and keeps its
    memory and permissions; every other address of every tree of every realm
    translates as before; the range measured is exactly the range covered, and it
    ends only at [top], at the end of the table or at an entry that cannot be
    changed. *)
Theorem rtt_init_ripas_correct w F rd_addr base top res :
  inv w F -> 0 <= base -> 0 <= top ->
  runs (smc_rtt_init_ripas rd_addr base top res) w (fun out w' =>
    (res_x0 out <> RMI_SUCCESS /\ ripas_refused w rd_addr base top (res_x0 out) /\ w' = w) \/
    (res_x0 out = RMI_SUCCESS /\ exists g rd ctx T gp l w1, let addr := res_x1 out in
       names_rd w rd_addr g /\ owns w g PRIMARY_S2_CTX_ID rd ctx T /\ get_rd_state_locked rd = REALM_NEW /\
       base < addr <= top /\ inv w' F /\ descs (r_mem w') = descs (r_mem w) /\ r_rds w' = r_rds w /\
       (forall a, 0 <= a < 2 ^ ipa_bits ctx -> translate ctx (r_mem w') a =
          if decide (base <= a < addr) then translate ctx (r_mem w) a ≫= relabel init_kind
          else translate ctx (r_mem w) a) /\
       (forall a, base <= a < addr -> is_Some (translate ctx (r_mem w) a ≫= relabel init_kind)) /\
       (forall g0 i0 T0 rd0 ctx0 a, F !! (g0, i0) = Some T0 -> (g0, i0) <> (g, PRIMARY_S2_CTX_ID) ->
          owns w g0 i0 rd0 ctx0 T0 -> 0 <= a < 2 ^ ipa_bits ctx0 ->
          translate ctx0 (r_mem w') a = translate ctx0 (r_mem w) a) /\
       scan_end w1 ctx gp l base top (level_limit l) addr /\ only_writes w w1 gp /\
       w' = with_log w1 [E_measure_ripas g base addr])).
Proof.
  intros Hinv Hb Ht. eapply runs_mono; [by eapply init_ripas_ok|]. intros out w'
    [Herr|(H0 & g & rd & ctx & T & gp & l & w1 & Hg & HF & Hown & Hnew & _ & Hle & _ & [R1 R2 R3 R4 R5 R6 R7 R8 R9 R10 R11] & Hend & Hlog & Hw)];
    [by left|right]. split; [done|]. exists g, rd, ctx, T, gp, l, w1. split_and!; try done; lia.
Qed.

End Correct.
