(* ===== verification/RttSetRipas.v ===== *)
(** * RIPAS changes a realm asks for ([rsi/memory.c], [rmi/rtt.c], [rmi/run.c])

    A realm asks with RSI_IPA_STATE_SET for a RIPAS change of a range of its
    protected addresses.  The request is kept in the REC, which exits to the host;
    the host applies it piece by piece with RMI_RTT_SET_RIPAS, each piece in one
    table; when the host enters the REC again the realm learns how far it came. *)

From Stdlib Require Import ZArith Lia Bool ZifyBool.
From stdpp Require Import base tactics option list numbers gmap.
From S2P Require Import Prelude.
From S2P Require Import Utils.
From S2P Require Import Status.
From S2P Require Import Smc.
From S2P Require Import Granule.
From S2P Require Import Mem.
From S2P Require Import Arch.
From S2P Require Import S2tte.
From S2P Require Import S2ttTable.
From S2P Require Import S2ttWalk.
From S2P Require Import RttEntry.
From S2P Require Import Realm.
From S2P Require Import Rmm.
From S2P Require Import Psci.
From S2P Require Import RttCmds.
From S2P Require Import RttUnmap.

Definition RSI_SUCCESS : Z := 0.
Definition RSI_ERROR_INPUT : Z := 1.
Definition RSI_ACCEPT : Z := 0.
Definition RSI_REJECT : Z := 1.
Definition RMI_EXIT_RIPAS_CHANGE : Z := 4.
Definition REC_ENTRY_FLAG_RIPAS_RESPONSE : Z := shl64 1 4.
Definition F_RSI_RIPAS_CHANGE_FLAGS_DESTROYED : regfield := Field 0 1.
Definition F_RSI_IPA_STATE_SET_RIPAS : regfield := Field 0 8.

#[export] Instance ripas_eq_dec : EqDecision ripas.
Proof. solve_decision. Defined.

(** [enum host_response]. *)
Inductive host_response := ACCEPT | REJECT.

(** [rec->set_ripas]. *)
Record set_ripas := SetRipas {
  sr_base : Z;
  sr_top : Z;
  sr_addr : Z;
  sr_ripas_val : ripas;
  sr_change_destroyed : ripas_change_destroyed;
  sr_response : host_response
}.

(** A REC with its pending RIPAS change. *)
Record ripas_rec := RipasRec { rr_rec : rec; rr_set : set_ripas }.

(** What RSI_IPA_STATE_SET writes to [struct rmi_rec_exit]. *)
Record ripas_exit := RipasExit { re_reason : Z; re_base : Z; re_top : Z; re_value : Z }.

(** ** The request of the realm *)

Definition region_is_contained (container_base container_end region_base region_end : Z) : bool :=
  if container_end <=? container_base then false
  else if region_end <=? region_base then false
  else (container_base <=? region_base) && (region_end <=? container_end).

Definition region_in_rec_par (r : rec) (base top : Z) : bool := region_is_contained 0 (rec_par_size r) base top.

Definition change_destroyed_of (v : Z) : ripas_change_destroyed := if v =? 0 then NO_CHANGE_DESTROYED else CHANGE_DESTROYED.

Definition handle_rsi_ipa_state_set (r : ripas_rec) (exit : ripas_exit) (res : rsi_result)
    : option (ripas_rec * ripas_exit * rsi_result) :=
  let plane := plane_0 (rr_rec r) in
  base ← regs plane !! 1%nat;
  top ← regs plane !! 2%nat;
  x3 ← regs plane !! 3%nat;
  x4 ← regs plane !! 4%nat;
  let ripas_val := EXTRACT F_RSI_IPA_STATE_SET_RIPAS x3 in
  let change_destroyed := change_destroyed_of (EXTRACT F_RSI_RIPAS_CHANGE_FLAGS_DESTROYED x4) in
  assert (rec_is_plane_0_active (rr_rec r)) ;;
  if (ripas_code RIPAS_RAM <? ripas_val) || negb (GRANULE_ALIGNED base) || negb (GRANULE_ALIGNED top)
     || (top <=? base) || negb (region_in_rec_par (rr_rec r) base top) then
    Some (r, exit, set_res0 RSI_ERROR_INPUT (set_action UPDATE_REC_RETURN_TO_REALM res))
  else
    Some (RipasRec (rr_rec r) (SetRipas base top base (ripas_of_code ripas_val) change_destroyed (sr_response (rr_set r))),
          RipasExit RMI_EXIT_RIPAS_CHANGE base top ripas_val,
          RsiResult UPDATE_REC_EXIT_TO_HOST (<[1%nat := top]> (<[0%nat := RSI_SUCCESS]> (smc_res res)))).

(** ** The answer to the realm *)

Definition complete_set_ripas (r : ripas_rec) : option ripas_rec :=
  let s := rr_set r in
  if sr_base s =? sr_top s then Some r
  else
    assert (rec_is_plane_0_active (rr_rec r)) ;;
    let plane := plane_0 (rr_rec r) in
    let reject := bool_decide (sr_ripas_val s = RIPAS_RAM) && negb (sr_addr s =? sr_top s)
                  && match sr_response s with REJECT => true | ACCEPT => false end in
    gpr ← arr_set (regs plane) 0 RSI_SUCCESS;
    gpr ← arr_set gpr 1 (sr_addr s);
    gpr ← arr_set gpr 2 (if reject then RSI_REJECT else RSI_ACCEPT);
    Some (RipasRec (set_plane_0 (RecPlane gpr (plane_pc plane) (plane_pstate plane)) (rr_rec r))
            (SetRipas 0 0 (sr_addr s) (sr_ripas_val s) (sr_change_destroyed s) (sr_response s))).

(** The part of [smc_rec_enter] that completes a pending change. *)
Definition rec_enter_set_ripas (flags : Z) (r : ripas_rec) : option ripas_rec :=
  let s := rr_set r in
  let response := if Z.land flags REC_ENTRY_FLAG_RIPAS_RESPONSE =? 0 then ACCEPT else REJECT in
  complete_set_ripas (RipasRec (rr_rec r)
    (SetRipas (sr_base s) (sr_top s) (sr_addr s) (sr_ripas_val s) (sr_change_destroyed s) response)).

(** ** The host's command *)

Record srmm := SRmm { s_rmm : rmm; s_rrecs : gmap Z ripas_rec }.

Definition on_world {A} (c : H A) : ST srmm A := fun s =>
  match c (s_rmm s) with Some (x, w) => Some (x, SRmm w (s_rrecs s)) | None => None end.
Definition map_ripas_rec (g : Z) : ST srmm ripas_rec := fun s => r ← s_rrecs s !! g; Some (r, s).
(** [rec->set_ripas.addr = addr]. *)
Definition set_ripas_addr (addr : Z) (r : ripas_rec) : ripas_rec :=
  let x := rr_set r in
  RipasRec (rr_rec r) (SetRipas (sr_base x) (sr_top x) addr (sr_ripas_val x) (sr_change_destroyed x) (sr_response x)).
Definition store_ripas_addr (g addr : Z) : ST srmm unit := fun s =>
  r ← s_rrecs s !! g; Some (tt, SRmm (s_rmm s) (<[g := set_ripas_addr addr r]> (s_rrecs s))).

(** How the loop over the entries ended: everything below an address is done, or
    the granule at an address is mapped in an auxiliary tree. *)
Inductive ripas_range := Range_to (addr : Z) | Range_aux (ipa : Z).

Section SetRipas.
Context `{feat : ArchFeatures} `{lookup : GranuleLookup} `{active : !ActiveLookup} `{pairs : !PairLookup} `{smmu : SmmuDriver}.
Implicit Types (rd : rd) (s2_ctx : s2tt_context) (wi : s2tt_walk) (res : smc_result).

(** The loop of [not_aux_mappings], [fuel] granules at most. *)
Fixpoint not_aux_loop (fuel : nat) (data_addr map_size offset : Z) : H Z :=
  if offset <? map_size then
    match fuel with
    | O => lift None
    | S fuel =>
        r <-! on_mem (find_lock_active_granule (add64 data_addr offset) GRANULE_STATE_DATA) ;;
        let '(status, g_data, tracking_size) := r in
        _ <-! guard (status =? RMI_SUCCESS) ;;
        g_data <-! lift g_data ;;
        tracking_size <-! lift tracking_size ;;
        _ <-! guard (tracking_size <=? map_size - offset) ;;
        refs <-! h_desc g_data (refcount_read_acquire GRN) ;;
        _ <-! h_granule_unlock g_data ;;
        if 0 <? refs then ret offset
        else not_aux_loop fuel data_addr map_size (offset + tracking_size)
    end
  else ret offset.

Definition not_aux_mappings s2_ctx (s2tte level : Z) : H Z :=
  let map_size := s2tte_map_size level in
  data_addr <-! lift (s2tte_pa s2_ctx s2tte level) ;;
  not_aux_loop (Z.to_nat (map_size / GRANULE_SIZE)) data_addr map_size 0.

(** [s2tte_has_ripas(...) && (s2tte_get_ripas(...) == ripas_val)]. *)
Definition has_this_ripas s2_ctx (s2tte level : Z) (ripas_val : ripas) : option bool :=
  if s2tte_has_ripas s2_ctx s2tte level then
    r ← s2tte_get_ripas s2_ctx s2tte; Some (bool_decide (r = ripas_val))
  else Some false.

(** How much of the entry is free of auxiliary mappings, where that matters. *)
Definition aux_free s2_ctx rd (s2tte level : Z) (ripas_val : ripas) : H Z :=
  ram <-! lift (if rtt_tree_pp rd && bool_decide (ripas_val = RIPAS_EMPTY)
                then s2tte_is_assigned_ram s2_ctx s2tte level else Some false) ;;
  if ram : bool then
    _ <-! guard (S2TT_MIN_BLOCK_LEVEL <=? level) ;;
    not_aux_mappings s2_ctx s2tte level
  else ret (s2tte_map_size level).

(** [update_ripas] of the entry in place: it is stored if it changes, and the
    result is [None] for an error, or whether a TLBI is required. *)
Definition update_ripas_at s2_ctx (g_llt index level : Z) (ripas_val : ripas) (cd : ripas_change_destroyed)
    : H (option bool) :=
  s2tt <-! map_table g_llt ;;
  s2tte <-! lift (s2tte_read s2tt index) ;;
  r <-! lift (update_ripas s2_ctx s2tte level ripas_val cd) ;;
  match r with
  | (inl _, _) => ret None
  | (inr tlbi, s2tte') =>
      _ <-! (if s2tte' =? s2tte then ret tt else s2tte_write g_llt index s2tte') ;;
      ret (Some (negb (tlbi =? 0)))
  end.

(** The loop of [rtt_set_ripas_range] from [index] on, [n] entries left. *)
Fixpoint set_ripas_loop s2_ctx rd (g_llt top level : Z) (ripas_val : ripas) (cd : ripas_change_destroyed)
    (n : nat) (index addr : Z) : H ripas_range :=
  let map_size := s2tte_map_size level in
  match n with
  | O => ret (Range_to addr)
  | S n' =>
      s2tt <-! map_table g_llt ;;
      s2tte <-! lift (s2tte_read s2tt index) ;;
      if top <? add64 addr map_size then
        same <-! lift (has_this_ripas s2_ctx s2tte level ripas_val) ;;
        ret (Range_to (if same : bool then top else addr))
      else
        aux_rtt_offset <-! aux_free s2_ctx rd s2tte level ripas_val ;;
        if aux_rtt_offset <? map_size then ret (Range_aux (add64 addr aux_rtt_offset))
        else
          r <-! update_ripas_at s2_ctx g_llt index level ripas_val cd ;;
          match r with
          | None => ret (Range_to addr)
          | Some tlbi =>
              _ <-! (if tlbi : bool then invalidate_page_block s2_ctx rd addr level true else ret tt) ;;
              set_ripas_loop s2_ctx rd g_llt top level ripas_val cd n' (index + 1) (add64 addr map_size)
          end
  end.

Definition rtt_set_ripas_range s2_ctx (base top : Z) wi (ripas_val : ripas) (cd : ripas_change_destroyed) res rd
    : H smc_result :=
  let level := last_level wi in
  let addr := Z.land base (not64 (sub64 (s2tte_map_size level) 1)) in
  if negb (addr =? base) then
    status <-! lift (pack_return_code_level RMI_ERROR_RTT (u8 level)) ;;
    ret (set_x0 status res)
  else
    r <-! set_ripas_loop s2_ctx rd (g_llt wi) top level ripas_val cd
            (Z.to_nat (S2TTES_PER_S2TT - index wi)) (index wi) addr ;;
    match r with
    | Range_aux ipa => ret (set_x1 ipa (set_x0 RMI_ERROR_RTT_AUX res))
    | Range_to addr =>
        if base <? addr then ret (set_x1 addr (set_x0 RMI_SUCCESS res))
        else
          status <-! lift (pack_return_code_level RMI_ERROR_RTT (u8 level)) ;;
          ret (set_x0 status res)
    end.

(** From the end of the walk to the store of the progress. *)
Definition set_ripas_llt s2_ctx rd wi (base top : Z) (ripas_val : ripas) (cd : ripas_change_destroyed) res : H smc_result :=
  ok <-! lift (validate_map_addr base (last_level wi) rd) ;;
  if negb ok then
    s2tt <-! map_table (g_llt wi) ;;
    s2tte <-! lift (s2tte_read s2tt (index wi)) ;;
    let map_size := s2tte_map_size (last_level wi) in
    let entry_top := add64 (Z.land base (not64 (sub64 map_size 1))) map_size in
    same <-! lift (has_this_ripas s2_ctx s2tte (last_level wi) ripas_val) ;;
    if same : bool then ret (set_x1 (Z.min top entry_top) (set_x0 RMI_SUCCESS res))
    else
      status <-! lift (pack_return_code_level RMI_ERROR_RTT (u8 (last_level wi))) ;;
      ret (set_x0 status res)
  else rtt_set_ripas_range s2_ctx base top wi ripas_val cd res rd.

(** With both granules locked, up to [out_unlock_rec_rd]. *)
Definition set_ripas_locked (g_rd g_rec base top : Z) res : ST srmm smc_result :=
  refs <-! on_world (h_desc g_rec (refcount_read_acquire GRN)) ;;
  if negb (refs =? 0) then ret (set_x0 RMI_ERROR_REC res) else
  rec <-! map_ripas_rec g_rec ;;
  if negb (g_rd =? Psci.g_rd (rr_rec rec)) then ret (set_x0 RMI_ERROR_REC res) else
  let s := rr_set rec in
  if negb (base =? sr_addr s) || (sr_top s <? top) then ret (set_x0 RMI_ERROR_INPUT res) else
  rd <-! on_world (map_rd g_rd) ;;
  ok <-! lift (validate_map_addr base S2TT_PAGE_LEVEL rd) ;;
  _ <-! guard ok ;;
  s2_ctx <-! lift (arr_get (s2_ctxs rd) PRIMARY_S2_CTX_ID) ;;
  _ <-! on_world (h_granule_lock (g_rtt s2_ctx) GRANULE_STATE_RTT) ;;
  wi <-! on_world (on_mem (s2tt_walk_lock_unlock s2_ctx base S2TT_PAGE_LEVEL)) ;;
  res <-! on_world (set_ripas_llt s2_ctx rd wi base top (sr_ripas_val s) (sr_change_destroyed s) res) ;;
  _ <-! (if res_x0 res =? RMI_SUCCESS then store_ripas_addr g_rec (res_x1 res) else ret tt) ;;
  _ <-! on_world (h_granule_unlock (g_llt wi)) ;;
  ret res.

Definition smc_rtt_set_ripas (rd_addr rec_addr base top : Z) res : ST srmm smc_result :=
  if (top <=? base) || negb (GRANULE_ALIGNED top) then ret (set_x0 RMI_ERROR_INPUT res) else
  found <-! on_world (on_mem (find_lock_two_fine_granules rd_addr GRANULE_STATE_RD rec_addr GRANULE_STATE_REC)) ;;
  let '(status, g_rd, g_rec) := found in
  if negb (status =? RMI_SUCCESS) then ret (set_x0 status res) else
  g_rd <-! lift g_rd ;;
  g_rec <-! lift g_rec ;;
  res <-! set_ripas_locked g_rd g_rec base top res ;;
  _ <-! on_world (h_granule_unlock g_rec) ;;
  _ <-! on_world (h_granule_unlock g_rd) ;;
  ret res.

End SetRipas.
