(* ===== verification/SetRipasEntry.v ===== *)
(** * One entry of a RIPAS change

    What [update_ripas] makes of an entry, in terms of kinds; which entries already
    have the RIPAS asked for; and the search for auxiliary mappings of the memory
    behind an entry. *)

From Stdlib Require Import ZArith Lia Bool ZifyBool.
From stdpp Require Import base tactics option list numbers gmap.
From S2P Require Import Prelude.
From S2P Require Import Utils.
From S2P Require Import Status.
From S2P Require Import Granule.
From S2P Require Import Mem.
From S2P Require Import Arch.
From S2P Require Import AddrList.
From S2P Require Import S2tte.
From S2P Require Import S2tteFacts.
From S2P Require Import S2tteProps.
From S2P Require Import S2ttTable.
From S2P Require Import RttFold.
From S2P Require Import RttFoldProps.
From S2P Require Import RttEntry.
From S2P Require Import Realm.
From S2P Require Import RttTree.
From S2P Require Import Rmm.
From S2P Require Import RttCmds.
From S2P Require Import RttUnmap.
From S2P Require Import RttInv.
From S2P Require Import UnmapDrain.
From S2P Require Import UnmapStamp.
From S2P Require Import RttRange.
From S2P Require Import RttSetRipas.

(** The kind an entry gets; [None] ends the loop. *)
Definition set_kind (val : ripas) (cd : ripas_change_destroyed) (k : s2tte_kind) : option s2tte_kind :=
  match ripas_transition k val cd with
  | R_error _ => None
  | R_keep => Some k
  | R_to k' _ => Some k'
  end.

Definition data_kind (k : s2tte_kind) : bool :=
  match k with K_assigned_empty | K_assigned_ram | K_assigned_destroyed => true | _ => false end.

(** The values a realm can ask for. *)
Definition askable (val : ripas) : Prop := val = RIPAS_RAM \/ val = RIPAS_EMPTY.

Lemma set_kind_same val cd k : kind_ripas k = Some val -> askable val -> set_kind val cd k = Some k.
Proof. intros Hk [-> | ->]; destruct k; try discriminate Hk; done. Qed.

(** A second change does nothing. *)
Lemma set_kind_idem val cd k k' : askable val -> set_kind val cd k = Some k' -> set_kind val cd k' = Some k'.
Proof. intros [-> | ->]; destruct k, cd; cbn; intros [= <-]; done. Qed.

(** The kind reached has the RIPAS asked for. *)
Lemma set_kind_ripas val cd k k' : askable val -> set_kind val cd k = Some k' -> kind_ripas k' = Some val.
Proof. intros [-> | ->]; destruct k, cd; cbn; intros [= <-]; done. Qed.

Section Entry.
Context `{feat : ArchFeatures}.
Implicit Types (ctx : s2tt_context).

(** A change keeps output address, permissions and reference count, and tells when
    hardware may have cached the entry. *)
Record changed ctx (level pa : Z) val cd (k : s2tte_kind) (e t : Z) (k' : s2tte_kind) (v : Z) : Prop := {
  ch_kind : set_kind val cd k = Some k';
  ch_built : built ctx level k' pa v;
  ch_new : k' <> K_table;
  ch_old : k <> K_table;
  ch_refs : kind_refs k' = kind_refs k;
  ch_live : kind_live k' = kind_live k;
  ch_data : data_kind k' = data_kind k;
  ch_ap : fst (entry_attrs ctx k' v) = fst (entry_attrs ctx k e);
  ch_attr : snd (entry_attrs ctx k' v) = (if decide (k' = k) then snd (entry_attrs ctx k e) else 0);
  ch_tlbi : t = 0 -> hw_valid k = false
}.

Lemma update_entry_ok ctx lpa2 level k pa e val cd :
  s2tt_lpa2_enabled ctx = Some lpa2 -> -1 <= level <= 3 -> built ctx level k pa e -> askable val ->
  (exists er, update_ripas ctx e level val cd = Some (inl er, e) /\ set_kind val cd k = None) \/
  (update_ripas ctx e level val cd = Some (inr 0, e) /\ set_kind val cd k = Some k) \/
  (exists k' t v, update_ripas ctx e level val cd = Some (inr t, v) /\ v <> e /\ changed ctx level pa val cd k e t k' v).
Proof.
  intros Hl Hlv Hb Ha. pose proof (update_ripas_correct ctx lpa2 level k pa e val cd Hl Hlv Hb Ha) as Hu.
  destruct (ripas_transition k val cd) as [er| |k' t] eqn:Ht.
  - left. exists er. split; [done|]. unfold set_kind. by rewrite Ht.
  - right. left. split; [done|]. unfold set_kind. by rewrite Ht.
  - right. right. destruct Hu as (v & Hv & Hbv & Hap). exists k', t, v. split; [done|].
    assert (Hne : k' <> k) by (intros ->; destruct Ha as [-> | ->]; destruct k, cd; discriminate Ht). split.
    + intros ->. apply Hne. pose proof (kind_of_built _ _ _ _ _ _ Hl Hlv Hb). pose proof (kind_of_built _ _ _ _ _ _ Hl Hlv Hbv). congruence.
    + assert (Hk : set_kind val cd k = Some k') by (unfold set_kind; by rewrite Ht).
      destruct Ha as [-> | ->]; destruct k; try discriminate Ht; try (destruct cd; try discriminate Ht);
        injection Ht as <- <-; split; done.
Qed.

Lemma marked_update ctx level e val cd : marked ctx level e -> exists er, update_ripas ctx e level val cd = Some (inl er, e).
Proof.
  intros [Hd _]. unfold update_ripas. destruct (s2tte_has_ripas ctx e level); cbn [negb]; [|by eexists]. rewrite Hd. by eexists.
Qed.

(** The classification of an entry, marked or not. *)
Lemma entry_ripas ctx lpa2 level e val :
  s2tt_lpa2_enabled ctx = Some lpa2 -> -1 <= level <= 3 -> entry_ok ctx level e ->
  exists k, (forall k', is_kind ctx e level k' = Some (bool_decide (k = k'))) /\
    has_this_ripas ctx e level val = Some (bool_decide (kind_ripas k = Some val)).
Proof.
  intros Hl Hlv He.
  assert (Hb : exists k pa v, built ctx level k pa v /\ Z.land v (class_mask lpa2) = Z.land e (class_mask lpa2)).
  { destruct He as [(_ & k & pa & v & _ & Hb & Hv)|(k & pa & Hb)]; [|by exists k, pa, e].
    exists k, pa, v. split; [done|]. by rewrite <- Hv, drain_class. }
  destruct Hb as (k & pa & v & Hb & Hcl). exists k. split.
  { intros k'. rewrite <- (is_kind_class ctx lpa2), <- Hcl, is_kind_class by done. by eapply built_is_kind. }
  pose proof (built_has_ripas _ _ _ _ _ _ Hl Hlv Hb) as Hr. unfold has_this_ripas.
  assert (Hh : s2tte_has_ripas ctx e level = s2tte_has_ripas ctx v level).
  { unfold s2tte_has_ripas. assert (Hns : forall x, Z.land x S2TTE_NS = Z.land (Z.land x (class_mask lpa2)) S2TTE_NS)
      by (intros x; by rewrite land_class by (by destruct lpa2)). rewrite (Hns e), (Hns v), Hcl. f_equal. f_equal.
    pose proof (is_kind_class ctx lpa2 e level K_table Hl) as H1. pose proof (is_kind_class ctx lpa2 v level K_table Hl) as H2.
    rewrite Hcl, H1 in H2. cbn [is_kind] in H2. congruence. }
  rewrite Hh, Hr, <- (s2tte_get_ripas_class ctx lpa2 e), <- Hcl, s2tte_get_ripas_class.
  destruct (kind_ripas k) as [r|] eqn:Hk; [|done].
  destruct (s2tte_ripas_roundtrip ctx lpa2 level k pa v r Hl Hlv Hb Hk) as [-> _]. cbn. f_equal.
  apply bool_decide_ext. split; congruence.
Qed.

End Entry.

(** ** Auxiliary mappings *)

Section Aux.
Context `{laws : ActiveLaws}.

(** The memory from [lo] to [hi] is tracked by DATA granules, each within it, with
    reference counts in [P]. *)
Inductive data_tiled (P : Z -> Prop) (m : mem) : Z -> Z -> Prop :=
  | tiled_end a : data_tiled P m a a
  | tiled_step lo hi g size n : active_of lo = Some (g, size) -> granule_at m g (AGranule false GRANULE_STATE_DATA n) ->
      P n -> size <= hi - lo -> data_tiled P m (lo + size) hi -> data_tiled P m lo hi.

Lemma active_size a g size : active_of a = Some (g, size) -> GRANULE_SIZE <= size.
Proof.
  intros [[-> _]|[-> _]]%active_kind; [lia|]. destruct region_level as (l & Hl & ->).
  assert (l = 0 \/ l = 1 \/ l = 2) as [-> | [-> | ->]] by lia; vm_compute; discriminate.
Qed.

Lemma tiled_le P m lo hi : data_tiled P m lo hi -> lo <= hi.
Proof. induction 1 as [a|lo hi g size n Ha _ _ _ _ IH]; [lia|]. pose proof (active_size _ _ _ Ha). change GRANULE_SIZE with 4096 in *. lia. Qed.

Lemma tiled_descs P m m' lo hi : descs m' = descs m -> data_tiled P m lo hi -> data_tiled P m' lo hi.
Proof.
  intros Hd. induction 1 as [a|lo hi g size n Ha Hg Hn Hs _ IH]; [constructor|].
  econstructor; [exact Ha| |exact Hn|exact Hs|exact IH]. eapply granule_at_descs; [|exact Hg]. by rewrite Hd.
Qed.

Lemma tiled_snoc P m lo mid hi :
  data_tiled P m lo mid -> data_tiled P m mid hi -> data_tiled P m lo hi.
Proof.
  induction 1 as [a|lo mid g size n Ha Hg Hn Hs Ht IH]; [done|]. intros H2. specialize (IH H2).
  econstructor; [exact Ha|exact Hg|exact Hn| |exact IH]. pose proof (tiled_le _ _ _ _ H2). lia.
Qed.

(** What the search finds: nothing, or the first granule with a reference. *)
Definition aux_found (m : mem) (pa off map_size r : Z) : Prop :=
  data_tiled (eq 0) m (pa + off) (pa + r) /\
  (r = map_size \/
   (off <= r < map_size /\ exists g size n, active_of (pa + r) = Some (g, size) /\
      granule_at m g (AGranule false GRANULE_STATE_DATA n) /\ 0 < n)).

(** Granules of the data are as in [m], the other locks of the PE are not theirs. *)
Lemma not_aux_loop_ok m w pa map_size hi (Q : Z -> rmm -> Prop) :
  (forall g n, granule_at m g (AGranule false GRANULE_STATE_DATA n) -> granule_at (r_mem w) g (AGranule false GRANULE_STATE_DATA n)) ->
  0 <= pa -> hi < 2 ^ 64 -> hi = pa + map_size ->
  forall lo, data_tiled (fun _ => True) m lo hi -> forall fuel off,
  lo = pa + off -> 0 <= off -> map_size - off <= Z.of_nat fuel * GRANULE_SIZE ->
  (forall r, aux_found m pa off map_size r -> Q r w) ->
  runs (not_aux_loop fuel pa map_size off) w Q.
Proof.
  intros Hm Hpa Hhi Heq lo Ht. change GRANULE_SIZE with 4096. induction Ht as [a|lo hi g size n Ha Hg _ Hs Ht IH]; intros fuel off Hlo Hoff Hfuel HQ.
  { assert (map_size = off) by lia. destruct fuel; cbn [not_aux_loop]; rewrite (proj2 (Z.ltb_ge off map_size)) by lia;
      apply runs_ret, HQ; (split; [constructor|by left]). }
  pose proof (active_size _ _ _ Ha) as Hsz. change GRANULE_SIZE with 4096 in Hsz. pose proof (tiled_le _ _ _ _ Ht).
  destruct fuel as [|fuel]; [lia|]. cbn [not_aux_loop]. rewrite (proj2 (Z.ltb_lt off map_size)) by lia.
  assert (add64 pa off = lo) as -> by (unfold add64; rewrite u64_small; [lia|unfold in_u64; lia]).
  pose proof (Hm _ _ Hg) as Hgw. destruct (active_some _ _ _ Ha) as (st & _ & Hf).
  pose proof (Hf _ GRANULE_STATE_DATA _ Hgw) as Hfind. cbn [a_state a_locked] in Hfind. rewrite Z.eqb_refl in Hfind. cbn [negb] in Hfind.
  apply runs_bind. eapply runs_on_mem; [exact Hfind|]. apply runs_bind, runs_guard; [done|].
  apply runs_bind. eapply runs_lift; [done|]. apply runs_bind. eapply runs_lift; [done|].
  apply runs_bind, runs_guard; [apply Z.leb_le; lia|].
  eapply runs_bind, runs_get; [apply (refcount_locked _ _ _ Hgw eq_refl)|]. cbn [a_ref].
  apply runs_bind. eapply runs_on_mem; [apply (with_lock_unlock _ _ _ Hgw eq_refl)|]. rewrite with_mem_mem, with_mem_id.
  destruct (Z.ltb_spec 0 n) as [Hn|Hn].
  - apply runs_ret, HQ. split; [constructor|]. right. split; [lia|]. exists g, size, n. by rewrite <- Hlo.
  - assert (n = 0) as -> by (destruct Hg as (_ & [_ Hw] & _); cbn in Hw; lia).
    apply IH; try lia. intros r [Hf1 Hf2]. apply HQ. split.
    + eapply tiled_step; [by rewrite <- Hlo|exact Hg|done| |]; [|by replace (pa + off + size) with (pa + (off + size)) by lia].
      pose proof (tiled_le _ _ _ _ Hf1). lia.
    + destruct Hf2 as [->|(Hr & H1)]; [by left|right]. split; [lia|done].
Qed.

(** The assertion on the tracking size: a page or block whose memory is tracked by
    a larger unit stops the RMM.  Such entries exist once a block that one tracking
    unit represents has been unfolded. *)
Lemma not_aux_coarse_asserts `{feat : ArchFeatures} w ctx lpa2 level pa e g size n :
  s2tt_lpa2_enabled ctx = Some lpa2 -> -1 <= level <= 3 -> built ctx level K_assigned_ram pa e ->
  active_of pa = Some (g, size) -> granule_at (r_mem w) g (AGranule false GRANULE_STATE_DATA n) ->
  s2tte_map_size level < size -> not_aux_mappings ctx e level w = None.
Proof.
  intros Hl Hlv Hb Ha Hg Hsz. unfold not_aux_mappings, bind, lift. rewrite (built_pa ctx lpa2 level _ pa e Hl Hb eq_refl).
  destruct (built_live_shape _ _ _ _ _ _ Hl Hb eq_refl) as (? & ? & _ & _ & Hal & _ & _ & Hlk & _). cbn [pa_level] in Hal.
  apply (addr_lvl_aligned_arith _ lpa2) in Hal as (_ & _ & Hpa & _); [|done].
  assert (H52 : 2 ^ oa_bits lpa2 <= 2 ^ 52) by (apply Z.pow_le_mono_r; unfold oa_bits; destruct lpa2; lia).
  destruct (Z.to_nat (s2tte_map_size level / GRANULE_SIZE)) as [|fuel] eqn:Hf; cbn [not_aux_loop].
  { by destruct (0 <? s2tte_map_size level) eqn:Hz; [|rewrite s2tte_map_size_eq in Hz by done; apply Z.ltb_ge in Hz;
      pose proof (Z.pow_pos_nonneg 2 ((3 - level) * 9 + 12)); lia]. }
  assert (0 < s2tte_map_size level) by (rewrite s2tte_map_size_eq by done; apply Z.pow_pos_nonneg; lia).
  rewrite (proj2 (Z.ltb_lt 0 _)) by done.
  assert (add64 pa 0 = pa) as -> by (unfold add64; rewrite Z.add_0_r; apply u64_small; unfold in_u64; lia).
  destruct (active_some _ _ _ Ha) as (st & _ & Hfind). specialize (Hfind _ GRANULE_STATE_DATA _ Hg). cbn [a_state a_locked] in Hfind.
  rewrite Z.eqb_refl in Hfind. cbn [negb] in Hfind. unfold bind, on_mem. rewrite Hfind. cbn. unfold guard.
  by rewrite (proj2 (Z.leb_gt size (s2tte_map_size level - 0))) by lia.
Qed.

End Aux.
