(* ===== verification/SetRipasLoop.v ===== *)
(** * The loop of RMI_RTT_SET_RIPAS

    The loop goes from entry to entry of one table until an entry it may not
    change, the end of the table, the end of the request, or memory that is also
    mapped in an auxiliary tree. *)

From Stdlib Require Import ZArith Lia Bool ZifyBool.
From stdpp Require Import base tactics option list numbers gmap.
From S2P Require Import Prelude.
From S2P Require Import Utils.
From S2P Require Import Status.
From S2P Require Import Smc.
From S2P Require Import Granule.
From S2P Require Import Mem.
From S2P Require Import Arch.
From S2P Require Import S2tte.
From S2P Require Import S2tteFacts.
From S2P Require Import S2tteProps.
From S2P Require Import S2ttTable.
From S2P Require Import S2ttWalk.
From S2P Require Import RttFoldProps.
From S2P Require Import RttEntry.
From S2P Require Import Realm.
From S2P Require Import RttTree.
From S2P Require Import Rmm.
From S2P Require Import RttCmds.
From S2P Require Import RttUnmap.
From S2P Require Import RttInv.
From S2P Require Import UnmapDrain.
From S2P Require Import UnmapStamp.
From S2P Require Import RttPath.
From S2P Require Import RttRefuse.
From S2P Require Import RttCreate.
From S2P Require Import RttRange.
From S2P Require Import RttSetRipas.
From S2P Require Import SetRipasEntry.

Section Loop.
Context `{feat : ArchFeatures} `{laws : ActiveLaws} `{smmu : SmmuDriver}.
Hypothesis smmu_ok : forall vs addr level num leaf, smmuv3_inv_at_level_per_vmids vs addr level num leaf = 0.
Implicit Types (w : rmm) (F : forest) (rd : rd) (ctx : s2tt_context) (T : tree).

(** ** Memory behind the entries *)

(** In a realm with a tree per plane, the memory of each data entry of the primary
    tree is tracked by DATA granules. *)
Definition tree_backed ctx (m : mem) T : Prop :=
  forall gp l t j e k pa, T !! gp = Some l -> tables m !! gp = Some t -> arr_get t j = Some e ->
    built ctx l k pa e -> data_kind k = true -> data_tiled (fun _ => True) m pa (pa + s2tte_map_size l).

Definition ram_backed w F : Prop :=
  forall g rd ctx T, F !! (g, PRIMARY_S2_CTX_ID) = Some T -> r_rds w !! g = Some rd ->
    arr_get (s2_ctxs rd) PRIMARY_S2_CTX_ID = Some ctx -> rtt_tree_pp rd = true -> tree_backed ctx (r_mem w) T.

Lemma ram_backed_write w F g rd ctx lpa2 T gp l base addr k k' pa e v tp tp' evs :
  ctx_ok ctx lpa2 -> inv w F -> owns w g PRIMARY_S2_CTX_ID rd ctx T ->
  at_entry w F g PRIMARY_S2_CTX_ID rd ctx T gp l base addr k pa e tp -> built ctx l k' pa v -> data_kind k' = data_kind k ->
  arr_set tp (s2_addr_to_idx addr l) v = Some tp' -> ram_backed w F ->
  ram_backed (with_log (with_mem w (set_table (r_mem w) gp tp')) evs) F.
Proof.
  intros Hc Hinv Hown [HF Hb Hrg Hal Hvis Htp He Hbt Hk] Hbv Hdk Hset Hback g0 rd0 ctx0 T0 HF0 Hrd0 Hc0 Hpp gx lx t j x kx pax Hx Ht Hj Hbx Hdx.
  assert (Hd : data_tiled (fun _ => True) (r_mem w) pax (pax + s2tte_map_size lx)); [|by apply (tiled_descs _ (r_mem w))].
  pose proof (Hback g0 rd0 ctx0 T0 HF0 Hrd0 Hc0 Hpp) as Hb0. cbn in Ht. apply lookup_insert_Some in Ht as [[<- <-]|[Hne Ht]]; [|by eapply Hb0].
  pose proof (own_tree _ _ _ _ _ _ Hown) as HT. assert (Had : 0 <= addr < 2 ^ ipa_bits ctx) by lia.
  destruct (visits_tree _ _ _ _ _ _ _ Hc HT Had Hvis) as [Hgp Hlv].
  assert (Hkey : (g0, PRIMARY_S2_CTX_ID) = (g, PRIMARY_S2_CTX_ID)) by (by eapply inv_disjoint).
  injection Hkey as ->. assert (T0 = T) as -> by congruence. assert (lx = l) as -> by congruence.
  assert (ctx0 = ctx) as -> by (destruct Hown as [O1 _ O3 _ _]; cbn in Hrd0; congruence).
  rewrite (arr_get_set _ _ _ _ j Hset) in Hj. destruct (Z.eqb_spec j (s2_addr_to_idx addr l)) as [->|]; [|by eapply Hb0].
  injection Hj as <-. pose proof Hc as [Hl _ Hs _ _]. assert (Hlv1 : -1 <= l <= 3) by (destruct lpa2; lia).
  assert (kx = k') as -> by (pose proof (kind_of_built _ _ _ _ _ _ Hl Hlv1 Hbx); pose proof (kind_of_built _ _ _ _ _ _ Hl Hlv1 Hbv); congruence).
  assert (pax = pa) as ->.
  { assert (kind_live k' = true) by (by destruct k').
    pose proof (built_pa ctx lpa2 l k' pa v Hl Hbv ltac:(done)). pose proof (built_pa ctx lpa2 l k' pax v Hl Hbx ltac:(done)). congruence. }
  eapply Hb0; [exact Hgp|exact Htp|exact He|exact Hbt|congruence].
Qed.

(** ** What hardware sees *)

(** The events of the loop: an entry that was valid for hardware is invalidated
    right after it was rewritten. *)
Inductive ripas_trace (m : mem) rd ctx (vttbr gp l : Z) : Z -> Z -> list event -> Prop :=
  | rt_start a : ripas_trace m rd ctx vttbr gp l a a []
  | rt_keep a b b' evs : ripas_trace m rd ctx vttbr gp l a b evs -> b <= b' -> ripas_trace m rd ctx vttbr gp l a b' evs
  | rt_write a b evs v k out attrs : ripas_trace m rd ctx vttbr gp l a b evs ->
      translate ctx m b = Some (k, out, attrs) -> hw_valid k = false ->
      ripas_trace m rd ctx vttbr gp l a (b + s2tte_map_size l) (evs ++ [E_write gp (s2_addr_to_idx b l) v])
  | rt_flush a b evs v fl : ripas_trace m rd ctx vttbr gp l a b evs ->
      flushes rd ctx vttbr b GRANULE_SIZE l 1 true fl ->
      ripas_trace m rd ctx vttbr gp l a (b + s2tte_map_size l) (evs ++ E_write gp (s2_addr_to_idx b l) v :: fl).

Definition trace_log w wk rd ctx (gp l base addr : Z) : Prop :=
  exists evs, r_log wk = r_log w ++ evs /\ ripas_trace (r_mem w) rd ctx (r_vttbr w) gp l base addr evs.

(** ** Why the loop ended *)

Definition set_stops wk ctx (gp l base top : Z) val cd (addr : Z) : Prop :=
  S2TTES_PER_S2TT * s2tte_map_size l <= s2_addr_to_idx base l * s2tte_map_size l + (addr - base) \/
  addr = top \/
  exists e, entry_at wk gp addr l e /\
    (s2tte_drain_pending e = true \/
     exists k pa, built ctx l k pa e /\ (set_kind val cd k = None \/ (top < addr + s2tte_map_size l /\ kind_ripas k <> Some val))).

(** The memory behind the entry at [addr] is mapped in an auxiliary tree as well,
    first at [ipa]. *)
Definition aux_mapped wk rd ctx (gp l addr ipa : Z) : Prop :=
  rtt_tree_pp rd = true /\ exists e pa, entry_at wk gp addr l e /\ built ctx l K_assigned_ram pa e /\
    addr <= ipa < addr + s2tte_map_size l /\ aux_found (r_mem wk) pa 0 (s2tte_map_size l) (ipa - addr).

(** The three locks of the loop. *)
Definition in_set w (g_rd g_rec gp : Z) : rmm := with_mem w (with_lock (with_lock (with_lock (r_mem w) g_rd) g_rec) gp).

(** A granule other than the locked ones. *)
Lemma in_set_granule w g_rd g_rec gp a1 a2 a3 x n :
  granule_at (r_mem w) g_rd a1 -> a_state a1 <> GRANULE_STATE_DATA ->
  granule_at (r_mem w) g_rec a2 -> a_state a2 <> GRANULE_STATE_DATA ->
  granule_at (r_mem w) gp a3 -> a_state a3 <> GRANULE_STATE_DATA ->
  granule_at (r_mem w) x (AGranule false GRANULE_STATE_DATA n) ->
  granule_at (r_mem (in_set w g_rd g_rec gp)) x (AGranule false GRANULE_STATE_DATA n).
Proof.
  intros H1 S1 H2 S2 H3 S3 Hx. assert (Hne : forall y a, granule_at (r_mem w) y a -> a_state a <> GRANULE_STATE_DATA -> x <> y)
    by (intros y a Hy Hs ->; by rewrite (granule_at_inj _ _ _ _ Hy Hx) in Hs).
  cbn [in_set with_mem r_mem]. rewrite !granule_at_with_lock_ne; eauto.
Qed.

Lemma aux_free_ok w wx rd ctx lpa2 F g T gp l tp j e val (Q : Z -> rmm -> Prop) :
  s2tt_lpa2_enabled ctx = Some lpa2 -> -1 <= l <= 3 -> F !! (g, PRIMARY_S2_CTX_ID) = Some T ->
  owns w g PRIMARY_S2_CTX_ID rd ctx T -> T !! gp = Some l -> tables (r_mem w) !! gp = Some tp -> arr_get tp j = Some e ->
  entry_ok ctx l e -> ram_backed w F ->
  (forall x n, granule_at (r_mem w) x (AGranule false GRANULE_STATE_DATA n) -> granule_at (r_mem wx) x (AGranule false GRANULE_STATE_DATA n)) ->
  Q (s2tte_map_size l) wx ->
  (forall r pa, rtt_tree_pp rd = true -> built ctx l K_assigned_ram pa e -> 0 <= r < s2tte_map_size l ->
     aux_found (r_mem w) pa 0 (s2tte_map_size l) r -> Q r wx) ->
  runs (aux_free ctx rd e l val) wx Q.
Proof.
  intros Hl Hlv HF Hown Hgp Ht He Hok Hback Hdata Hfull Haux. unfold aux_free.
  destruct (rtt_tree_pp rd && bool_decide (val = RIPAS_EMPTY)) eqn:Hpp.
  2: { eapply runs_bind, runs_lift; [done|]. by apply runs_ret. }
  apply andb_true_iff in Hpp as [Hpp _]. destruct (entry_kind _ _ _ _ Hl Hlv Hok) as (k & Hk). pose proof (Hk K_assigned_ram) as Hr.
  cbn [is_kind] in Hr. eapply runs_bind, runs_lift; [exact Hr|]. case_bool_decide as Hkr; [|by apply runs_ret]. subst k.
  destruct Hok as [Hm|(k & pa & Hb)].
  { destruct (marked_kind _ _ _ _ Hl Hlv Hm) as (k2 & Hlive & Hk2). pose proof (Hk2 K_assigned_ram) as H2. rewrite (Hk K_assigned_ram) in H2.
    rewrite bool_decide_true in H2 by done. injection H2 as H2. symmetry in H2. apply bool_decide_eq_true in H2. by subst k2. }
  assert (k = K_assigned_ram) as ->.
  { pose proof (built_is_kind _ _ _ _ _ _ K_assigned_ram Hl Hlv Hb) as H2. rewrite (Hk K_assigned_ram), bool_decide_true in H2 by done.
    injection H2 as H2. symmetry in H2. by apply bool_decide_eq_true in H2. }
  destruct (built_live_shape _ _ _ _ _ _ Hl Hb eq_refl) as (? & ? & _ & _ & Hal & _ & _ & Hlk & _). cbn [pa_level] in Hal. cbn in Hlk.
  apply (addr_lvl_aligned_arith _ lpa2) in Hal as (_ & _ & Hpa & _); [|done].
  assert (H52 : 2 ^ oa_bits lpa2 <= 2 ^ 52) by (apply Z.pow_le_mono_r; unfold oa_bits; destruct lpa2; lia).
  assert (Hms : 4096 <= s2tte_map_size l <= 2 ^ 48) by (rewrite s2tte_map_size_eq by done; change 4096 with (2 ^ 12); split; apply Z.pow_le_mono_r; lia).
  apply runs_bind, runs_guard; [unfold S2TT_MIN_BLOCK_LEVEL; lia|]. unfold not_aux_mappings.
  eapply runs_bind, runs_lift; [by apply (built_pa ctx lpa2 l _ pa e Hl Hb)|].
  assert (Htile : data_tiled (fun _ => True) (r_mem w) pa (pa + s2tte_map_size l)).
  { destruct Hown as [O1 _ O3 _ _]. by eapply (Hback g rd ctx T HF O1 O3 Hpp gp l tp j e K_assigned_ram pa). }
  eapply (not_aux_loop_ok (r_mem w) wx pa (s2tte_map_size l)); [exact Hdata|lia| |done|exact Htile|lia|lia| |]; [lia| |].
  - change GRANULE_SIZE with 4096. pose proof (Z.div_mod (s2tte_map_size l) 4096 ltac:(lia)). 
    assert (s2tte_map_size l mod 4096 = 0).
    { rewrite s2tte_map_size_eq by done. replace ((3 - l) * 9 + 12) with (12 + (3 - l) * 9) by lia. rewrite Z.pow_add_r, Z.mul_comm by lia. by apply Z.mod_mul. }
    pose proof (Z.div_pos (s2tte_map_size l) 4096). lia.
  - intros r Hfd. pose proof Hfd as [_ [->|(Hr2 & _)]]; [done|]. eapply Haux; [done|exact Hb|lia|exact Hfd].
Qed.

(** ** The loop *)

(** [wk] is [w] after the loop has reached [addr]. *)
Record progress w wk F (g : Z) rd ctx T (gp l base addr : Z) val cd : Prop := {
  pg_relabelled : relabelled w wk F g PRIMARY_S2_CTX_ID rd ctx T gp l base addr (set_kind val cd);
  pg_backed : ram_backed wk F;
  pg_log : trace_log w wk rd ctx gp l base addr
}.

Lemma progress_start w F g rd ctx T gp l base val cd :
  inv w F -> owns w g PRIMARY_S2_CTX_ID rd ctx T -> visits ctx (r_mem w) base gp l -> ram_backed w F ->
  progress w w F g rd ctx T gp l base base val cd.
Proof. intros Hi Ho Hv Hb. split; [by apply relabelled_start|done|]. exists []. rewrite app_nil_r. split; [done|constructor]. Qed.

Lemma log_keep w wk rd ctx gp l base addr addr' : trace_log w wk rd ctx gp l base addr -> addr <= addr' -> trace_log w wk rd ctx gp l base addr'.
Proof. intros (evs & Hl & Ht) Hle. exists evs. split; [done|]. by eapply rt_keep. Qed.

(** One entry: [update_ripas] and the invalidation. *)
Lemma set_entry_ok {A} w wk F g g_rec rd lpa2 bits sl ctx T gp l base addr val cd k pa e tp (K1 K2 : H A) (Q : A -> rmm -> Prop) :
  rd_ok rd lpa2 bits sl -> ctx_ok ctx lpa2 -> ipa_bits ctx = bits -> askable val ->
  progress w wk F g rd ctx T gp l base addr val cd ->
  at_entry wk F g PRIMARY_S2_CTX_ID rd ctx T gp l base addr k pa e tp ->
  (set_kind val cd k = None -> runs K1 (in_set wk g g_rec gp) Q) ->
  (forall wk', progress w wk' F g rd ctx T gp l base (addr + s2tte_map_size l) val cd -> runs K2 (in_set wk' g g_rec gp) Q) ->
  runs (r <-! update_ripas_at ctx gp (s2_addr_to_idx addr l) l val cd ;;
        match r with
        | None => K1
        | Some tlbi => _ <-! (if tlbi : bool then invalidate_page_block ctx rd addr l true else ret tt) ;; K2
        end) (in_set wk g g_rec gp) Q.
Proof.
  intros Hrd Hc Hbits Hval [Hrl Hback Hlog] Hat HK1 HK2. pose proof Hc as [Hl _ Hs _ _]. pose proof Hat as [HF Hb Hrg Hal Hvis Htp He Hbt Hk].
  pose proof (rl_own _ _ _ _ _ _ _ _ _ _ _ _ _ Hrl) as Hown. pose proof (own_tree _ _ _ _ _ _ Hown) as HT.
  assert (Had : 0 <= addr < 2 ^ ipa_bits ctx) by lia. destruct (visits_tree _ _ _ _ _ _ _ Hc HT Had Hvis) as [Hgp Hsl].
  assert (Hlv : -1 <= l <= 3) by (destruct lpa2; lia).
  assert (Hms : 0 < s2tte_map_size l) by (rewrite s2tte_map_size_eq by done; apply Z.pow_pos_nonneg; lia).
  assert (Hw : translate ctx (r_mem w) addr = entry_meaning ctx l e addr).
  { destruct (at_entry_translate _ _ _ _ _ _ _ _ _ _ _ _ _ _ _ _ addr Hc HT Hat ltac:(lia)) as (_ & _ & _ & _ & _ & <-).
    rewrite (rl_translate _ _ _ _ _ _ _ _ _ _ _ _ _ Hrl) by done. by rewrite decide_False by lia. }
  apply runs_bind. unfold update_ripas_at. eapply runs_bind, runs_get; [exact Htp|]. eapply runs_bind, runs_lift; [exact He|].
  destruct (update_entry_ok ctx lpa2 l k pa e val cd Hl Hlv Hbt Hval) as [(er & Hu & Hn)|[(Hu & Hn)|(k' & t & v & Hu & Hne & Hch)]];
    (eapply runs_bind, runs_lift; [exact Hu|]); cbv beta iota.
  - apply runs_ret. by apply HK1.
  - rewrite Z.eqb_refl. apply runs_bind, runs_ret, runs_ret. cbn [negb Z.eqb]. apply runs_bind, runs_ret, HK2. split; [|done|].
    + eapply relabelled_keep; [exact Hc|exact Hrl|exact Hat|exact Hn|lia].
    + eapply log_keep; [exact Hlog|lia].
  - destruct Hch as [C1 C2 C3 C4 C5 C6 C7 C8 C9 C10]. rewrite (proj2 (Z.eqb_neq v e)) by done.
    destruct (arr_set tp (s2_addr_to_idx addr l) v) as [tp'|] eqn:Hset; [|by rewrite (arr_set_some _ _ _ (arr_get_lt _ _ _ He)) in Hset].
    apply runs_bind. eapply runs_write; [exact Htp|exact Hset|]. apply runs_ret.
    set (w1 := with_log (with_mem wk (set_table (r_mem wk) gp tp')) [E_write gp (s2_addr_to_idx addr l) v]).
    change (with_log _ [E_write _ _ _]) with (in_set w1 g g_rec gp).
    assert (Hrl' : forall evs, relabelled w (with_log (with_mem wk (set_table (r_mem wk) gp tp')) evs) F g PRIMARY_S2_CTX_ID rd ctx T gp l base
      (addr + s2tte_map_size l) (set_kind val cd)) by (intros evs; by eapply (relabelled_write w wk); eauto).
    assert (Hbk' : forall evs, ram_backed (with_log (with_mem wk (set_table (r_mem wk) gp tp')) evs) F)
      by (intros evs; by eapply (ram_backed_write wk); eauto using rl_inv).
    destruct Hlog as (evs0 & Hlg & Htrc). destruct (Z.eqb_spec t 0) as [->|Ht]; cbn [negb].
    + apply runs_bind, runs_ret, HK2. split; [apply Hrl'|apply Hbk'|]. exists (evs0 ++ [E_write gp (s2_addr_to_idx addr l) v]).
      split; [cbn; by rewrite Hlg, app_assoc|].
      assert (Hm : exists out, translate ctx (r_mem w) addr = Some (k, out, entry_attrs ctx k e)).
      { rewrite Hw. unfold entry_meaning. rewrite (kind_of_built ctx lpa2 l k pa e) by done. cbn [mbind option_bind].
        destruct (kind_live k) eqn:Hlive; [|by eexists]. rewrite (built_pa ctx lpa2 l k pa e) by done. by eexists. }
      destruct Hm as [out Hm]. eapply rt_write; [exact Htrc|exact Hm|by apply C10].
    + apply runs_bind. pose proof (num_planes_eq _ _ _ _ Hrd) as [_ Hn].
      eapply (invalidate_ok smmu_ok rd lpa2 bits sl PRIMARY_S2_CTX_ID ctx addr l false l true); try done;
        [split; [done|unfold PRIMARY_S2_CTX_ID, PLANE_0_ID; lia]|apply Hown|by rewrite <- Hbits|destruct lpa2; lia|].
      intros fl Hfl. change (with_log (in_set w1 g g_rec gp) fl) with (in_set (with_log w1 fl) g g_rec gp). unfold w1. rewrite with_log_app.
      apply HK2. split; [apply Hrl'|apply Hbk'|]. exists (evs0 ++ E_write gp (s2_addr_to_idx addr l) v :: fl).
      split; [cbn; by rewrite Hlg, app_assoc|]. eapply rt_flush; [exact Htrc|].
      cbn in Hfl. by rewrite (rl_vttbr _ _ _ _ _ _ _ _ _ _ _ _ _ Hrl) in Hfl.
Qed.

Lemma drain_not_table e : s2tte_drain_pending e = true -> entry_is_table e = false.
Proof.
  unfold s2tte_drain_pending, s2tte_has_hipas, entry_is_table. intros H. apply andb_true_iff in H as [H _].
  apply andb_true_iff in H as [H%Z.eqb_eq _]. apply Z.eqb_neq. intros Ht.
  assert (Hv : Z.land e S2TT_DESC_VALID_MASK = Z.land (Z.land e S2TT_DESC_TYPE_MASK) S2TT_DESC_VALID_MASK) by (by rewrite <- Z.land_assoc).
  rewrite H, Ht in Hv. discriminate Hv.
Qed.

(** What an entry that has a RIPAS says about its addresses. *)
Lemma ripas_translate w F g rd ctx lpa2 T gp l addr e tp val a :
  ctx_ok ctx lpa2 -> inv w F -> owns w g PRIMARY_S2_CTX_ID rd ctx T -> 0 <= addr < 2 ^ ipa_bits ctx ->
  visits ctx (r_mem w) addr gp l -> tables (r_mem w) !! gp = Some tp -> arr_get tp (s2_addr_to_idx addr l) = Some e ->
  has_this_ripas ctx e l val = Some true -> 0 <= a < 2 ^ ipa_bits ctx -> a / s2tte_map_size l = addr / s2tte_map_size l ->
  exists k out attrs, translate ctx (r_mem w) a = Some (k, out, attrs) /\ kind_ripas k = Some val.
Proof.
  intros Hc Hinv Hown Had Hvis Htp He Hr Ha Hblk. pose proof Hc as [Hl _ Hs _ _]. pose proof (own_tree _ _ _ _ _ _ Hown) as HT.
  destruct (visits_tree _ _ _ _ _ _ _ Hc HT Had Hvis) as [Hgp Hsl]. assert (Hlv : -1 <= l <= 3) by (destruct lpa2; lia).
  destruct (tree_table_at _ _ _ _ _ HT Hgp) as (tp2 & Htp2 & _ & _ & _ & Hok). assert (tp2 = tp) as -> by congruence.
  pose proof (Hok _ _ He) as Heok. destruct (entry_ripas ctx lpa2 l e val Hl Hlv Heok) as (k & Hk & Hr2).
  rewrite Hr in Hr2. injection Hr2 as Hr2. symmetry in Hr2. apply bool_decide_eq_true in Hr2.
  assert (Hnt : l < 3 -> entry_is_table e = false).
  { intros Hlt. destruct Heok as [[Hm _]|(k2 & pa & Hb)].
    - by apply drain_not_table.
    - assert (k2 = k) as -> by (pose proof (kind_of_built _ _ _ _ _ _ Hl Hlv Hb); pose proof (kind_of_spec _ _ _ _ Hk); congruence).
      eapply (leaf_not_table ctx lpa2 l k pa e Hl Hlv Hb); [by destruct k|unfold S2TT_PAGE_LEVEL; lia]. }
  rewrite (translate_here ctx lpa2 (r_mem w) T gp l addr tp e a Hc HT Ha Had Hvis Htp He Hnt Hblk).
  unfold entry_meaning. rewrite (kind_of_spec _ _ _ _ Hk). cbn [mbind option_bind].
  assert (Hlive : kind_live k = true -> exists pa, s2tte_pa ctx e l = Some pa).
  { intros Hlive. destruct Heok as [Hm|(k2 & pa & Hb)].
    - destruct (marked_kind _ _ _ _ Hl Hlv Hm) as (k2 & Hl2 & Hk2). pose proof (kind_of_spec _ _ _ _ Hk). pose proof (kind_of_spec _ _ _ _ Hk2). congruence.
    - exists pa. apply (built_pa ctx lpa2 l k2 pa e Hl Hb).
      by assert (k2 = k) as -> by (pose proof (kind_of_built _ _ _ _ _ _ Hl Hlv Hb); pose proof (kind_of_spec _ _ _ _ Hk); congruence). }
  destruct (kind_live k); [destruct (Hlive eq_refl) as [pa ->]|]; cbn; by eexists _, _, _.
Qed.

Lemma same_ripas_translate w F g rd ctx lpa2 T gp l addr e tp val cd a :
  ctx_ok ctx lpa2 -> inv w F -> owns w g PRIMARY_S2_CTX_ID rd ctx T -> 0 <= addr < 2 ^ ipa_bits ctx -> askable val ->
  visits ctx (r_mem w) addr gp l -> tables (r_mem w) !! gp = Some tp -> arr_get tp (s2_addr_to_idx addr l) = Some e ->
  has_this_ripas ctx e l val = Some true -> 0 <= a < 2 ^ ipa_bits ctx -> a / s2tte_map_size l = addr / s2tte_map_size l ->
  exists k out attrs, translate ctx (r_mem w) a = Some (k, out, attrs) /\ set_kind val cd k = Some k.
Proof.
  intros Hc Hinv Hown Had Hval Hvis Htp He Hr Ha Hblk.
  destruct (ripas_translate w F g rd ctx lpa2 T gp l addr e tp val a Hc Hinv Hown Had Hvis Htp He Hr Ha Hblk) as (k & out & attrs & Ht & Hk).
  exists k, out, attrs. split; [done|]. by apply set_kind_same.
Qed.

Lemma set_loop_ok w F g g_rec rd lpa2 bits sl ctx T gp l base top val cd n (Q : ripas_range -> rmm -> Prop) :
  rd_ok rd lpa2 bits sl -> ctx_ok ctx lpa2 -> ipa_bits ctx = bits -> askable val ->
  F !! (g, PRIMARY_S2_CTX_ID) = Some T -> -1 <= l <= 3 -> 0 <= base -> top < 2 ^ ipa_bits ctx ->
  (s2tte_map_size l | base) ->
  (forall wk x n, descs (r_mem wk) = descs (r_mem w) -> granule_at (r_mem wk) x (AGranule false GRANULE_STATE_DATA n) ->
     granule_at (r_mem (in_set wk g g_rec gp)) x (AGranule false GRANULE_STATE_DATA n)) ->
  (forall wk addr, progress w wk F g rd ctx T gp l base addr val cd -> base <= addr <= top ->
     (s2tte_map_size l | addr) \/ addr = top -> set_stops wk ctx gp l base top val cd addr ->
     Q (Range_to addr) (in_set wk g g_rec gp)) ->
  (forall wk addr ipa, progress w wk F g rd ctx T gp l base addr val cd -> base <= addr < top ->
     aux_mapped wk rd ctx gp l addr ipa -> Q (Range_aux ipa) (in_set wk g g_rec gp)) ->
  forall wk j, progress w wk F g rd ctx T gp l base (base + j * s2tte_map_size l) val cd ->
  0 <= j -> s2_addr_to_idx base l + j + Z.of_nat n = S2TTES_PER_S2TT -> base + j * s2tte_map_size l <= top ->
  runs (set_ripas_loop ctx rd gp top l val cd n (s2_addr_to_idx base l + j) (base + j * s2tte_map_size l))
    (in_set wk g g_rec gp) Q.
Proof.
  intros Hrd Hc Hbits Hval HF Hlv Hb Htop Hal Hdata HQ Haux. pose proof Hc as [Hl Hbb _ _ _].
  assert (H52 : 2 ^ ipa_bits ctx <= 2 ^ 52) by (apply Z.pow_le_mono_r; destruct lpa2; lia).
  assert (Hms : 0 < s2tte_map_size l <= 2 ^ 48)
    by (rewrite s2tte_map_size_eq by done; split; [apply Z.pow_pos_nonneg; lia|apply Z.pow_le_mono_r; lia]).
  induction n as [|n IH]; intros wk j Hpg Hj Hidx Hle; cbn [set_ripas_loop];
    set (addr := base + j * s2tte_map_size l) in *; assert (Hge : base <= addr) by (unfold addr; nia).
  all: assert (Hdiv : (s2tte_map_size l | addr)) by (apply Z.divide_add_r; [done|apply Z.divide_factor_r]).
  { apply runs_ret, HQ; [done|lia|by left|]. left. unfold addr. nia. }
  pose proof Hpg as [Hrl Hback Hlog]. pose proof (rl_own _ _ _ _ _ _ _ _ _ _ _ _ _ Hrl) as Hown. pose proof (own_tree _ _ _ _ _ _ Hown) as HT.
  assert (Had : 0 <= addr < 2 ^ ipa_bits ctx) by lia. unfold S2TTES_PER_S2TT in Hidx.
  destruct (nth_entry ctx lpa2 (r_mem wk) T base gp l j Hc HT ltac:(lia) Hal (rl_visits _ _ _ _ _ _ _ _ _ _ _ _ _ Hrl) Hj
    ltac:(lia) ltac:(unfold addr in *; lia)) as (Hvis & Hix & _). fold addr in Hvis, Hix. rewrite <- Hix.
  destruct (visits_tree _ _ _ _ _ _ _ Hc HT Had Hvis) as [Hgp _].
  destruct (tree_table_at _ _ _ _ _ HT Hgp) as (tp & Htp & Hltp & _ & _ & Hok).
  destruct (arr_get_some tp (s2_addr_to_idx addr l)) as [e He];
    [rewrite Hltp; unfold N_S2TTES; pose proof (s2_addr_to_idx_range addr l); lia|].
  assert (Hat : entry_at wk gp addr l e) by (by exists tp). pose proof (Hok _ _ He) as Heok.
  eapply runs_bind, runs_get; [exact Htp|]. eapply runs_bind, runs_lift; [exact He|].
  assert (add64 addr (s2tte_map_size l) = addr + s2tte_map_size l) as ->
    by (unfold add64; apply u64_small; unfold in_u64; lia).
  destruct (Z.ltb_spec top (addr + s2tte_map_size l)) as [Hpart|Hwhole].
  { destruct (entry_ripas ctx lpa2 l e val Hl Hlv Heok) as (k & Hk & Hr). eapply runs_bind, runs_lift; [exact Hr|]. apply runs_ret.
    case_bool_decide as Hkr.
    - apply HQ; [|lia|by right|right; by left]. split; [|done|by eapply log_keep]. eapply relabelled_same; [exact Hrl|lia|].
      intros a Ha. split; [lia|]. eapply (same_ripas_translate wk F g rd ctx lpa2 T gp l addr e tp val cd a); try done;
        [apply Hrl|lia|apply same_block; try done; lia].
    - apply HQ; [done|lia|by left|]. right. right. exists e. split; [done|].
      destruct Heok as [[Hm _]|(k2 & pa & Hbt)]; [by left|right]. exists k2, pa. split; [done|]. right. split; [lia|].
      by assert (k2 = k) as -> by (pose proof (kind_of_built _ _ _ _ _ _ Hl Hlv Hbt); pose proof (kind_of_spec _ _ _ _ Hk); congruence). }
  apply runs_bind. eapply (aux_free_ok wk (in_set wk g g_rec gp) rd ctx lpa2 F g T gp l tp _ e val); try done.
  { intros x m. apply Hdata. apply Hrl. }
  2: { intros r pa Hpp Hbt Hr Hfd. rewrite (proj2 (Z.ltb_lt _ _)) by lia. apply runs_ret.
       assert (add64 addr r = addr + r) as -> by (unfold add64; apply u64_small; unfold in_u64; lia).
       apply (Haux wk addr); [done|lia|]. split; [done|]. exists e, pa. split_and!; try done; try lia.
       by replace (addr + r - addr) with r by lia. }
  rewrite Z.ltb_irrefl.
  assert (Hstop : s2tte_drain_pending e = true \/ (exists k pa, built ctx l k pa e /\ set_kind val cd k = None) ->
    runs (ret (Range_to addr)) (in_set wk g g_rec gp) Q).
  { intros Hs. apply runs_ret, HQ; [done|lia|by left|]. right. right. exists e. split; [done|].
    destruct Hs as [Hs|(k & pa & Hbt & Hs)]; [by left|right]. exists k, pa. split; [done|]. by left. }
  destruct Heok as [Hm|(k & pa & Hbt)].
  { destruct (marked_update ctx l e val cd Hm) as [er Hu]. apply runs_bind. unfold update_ripas_at.
    eapply runs_bind, runs_get; [exact Htp|]. eapply runs_bind, runs_lift; [exact He|]. eapply runs_bind, runs_lift; [exact Hu|].
    apply runs_ret, Hstop. left. apply Hm. }
  destruct (decide (k = K_table)) as [->|Hk].
  { apply runs_bind. unfold update_ripas_at. eapply runs_bind, runs_get; [exact Htp|]. eapply runs_bind, runs_lift; [exact He|].
    pose proof (update_ripas_correct ctx lpa2 l K_table pa e val cd Hl Hlv Hbt Hval) as Hu. cbn [ripas_transition] in Hu.
    eapply runs_bind, runs_lift; [exact Hu|]. apply runs_ret, Hstop. right. by exists K_table, pa. }
  assert (Hae : at_entry wk F g PRIMARY_S2_CTX_ID rd ctx T gp l base addr k pa e tp) by (split; try done; lia).
  assert (Hnext : addr + s2tte_map_size l = base + (j + 1) * s2tte_map_size l) by (unfold addr; lia).
  eapply (set_entry_ok w wk F g g_rec rd lpa2 bits sl ctx T gp l base addr val cd k pa e tp); try done.
  - intros Hn. apply Hstop. right. eauto.
  - intros wk' Hpg'. rewrite Hnext in *. replace (s2_addr_to_idx addr l + 1) with (s2_addr_to_idx base l + (j + 1)) by lia.
    apply IH; try done; try lia. unfold S2TTES_PER_S2TT. lia.
Qed.

End Loop.
