(* ===== verification/SetRipasCmd.v ===== *)
(** * RMI_RTT_SET_RIPAS

    The command from the lookup of RD and REC to the release of the last lock: how
    it is refused, and what it has done when it succeeds or meets memory that is
    mapped in an auxiliary tree. *)

From Stdlib Require Import ZArith Lia Bool ZifyBool.
From stdpp Require Import base tactics option list numbers gmap.
From S2P Require Import Prelude.
From S2P Require Import Utils.
From S2P Require Import Status.
From S2P Require Import Smc.
From S2P Require Import Granule.
From S2P Require Import Mem.
From S2P Require Import Arch.
From S2P Require Import S2tte.
From S2P Require Import S2tteFacts.
From S2P Require Import S2tteProps.
From S2P Require Import S2ttTable.
From S2P Require Import S2ttWalk.
From S2P Require Import RttFoldProps.
From S2P Require Import RttEntry.
From S2P Require Import Realm.
From S2P Require Import RttTree.
From S2P Require Import Rmm.
From S2P Require Import Psci.
From S2P Require Import RttCmds.
From S2P Require Import RttUnmap.
From S2P Require Import RttInv.
From S2P Require Import UnmapDrain.
From S2P Require Import RttPath.
From S2P Require Import RttRefuse.
From S2P Require Import RttCreate.
From S2P Require Import RttRange.
From S2P Require Import RttRipas.
From S2P Require Import RttSetRipas.
From S2P Require Import SetRipasEntry.
From S2P Require Import SetRipasLoop.

Lemma runs_bind_inv {S A B} (c : ST S A) (k : A -> ST S B) (s : S) Q :
  runs (bind c k) s Q -> runs c s (fun x s' => runs (k x) s' Q).
Proof.
  intros (y & s2 & H & HQ). unfold bind in H. destruct (c s) as [[x s1]|] eqn:Hc; [|done]. exists x, s1. split; [done|]. by exists y, s2.
Qed.

Lemma runs_on_world {A} (c : H A) s (Q : A -> srmm -> Prop) :
  runs c (s_rmm s) (fun x w => Q x (SRmm w (s_rrecs s))) -> runs (on_world c) s Q.
Proof. intros (x & w & Hc & HQ). eexists x, _. unfold on_world. rewrite Hc. by split. Qed.

Section Cmd.
Context `{feat : ArchFeatures} `{laws : ActiveLaws} `{pairs : !PairLookup} `{smmu : SmmuDriver}.
Hypothesis smmu_ok : forall vs addr level num leaf, smmuv3_inv_at_level_per_vmids vs addr level num leaf = 0.
Implicit Types (w : rmm) (s : srmm) (F : forest) (rd : rd) (ctx : s2tt_context) (T : tree).

(** ** The request kept in a REC *)

Record request_ok w (r : ripas_rec) : Prop := {
  rq_addr : 0 <= sr_addr (rr_set r) /\ (GRANULE_SIZE | sr_addr (rr_set r));
  rq_val : askable (sr_ripas_val (rr_set r));
  rq_top : forall rd size, r_rds w !! g_rd (rr_rec r) = Some rd -> realm_ipa_size rd = Some size ->
    sr_top (rr_set r) <= Z.shiftr size 1
}.

Definition requests_ok s : Prop :=
  forall g n, granule_at (r_mem (s_rmm s)) g (AGranule false GRANULE_STATE_REC n) ->
    exists r, s_rrecs s !! g = Some r /\ request_ok (s_rmm s) r.

Record sinv s F : Prop := {
  si_inv : inv (s_rmm s) F;
  si_backed : ram_backed (s_rmm s) F;
  si_requests : requests_ok s
}.

(** ** Refusals *)

Inductive set_refused s (rd_addr rec_addr base top : Z) : Z -> Prop :=
  | sf_args : top <= base \/ ~ (GRANULE_SIZE | top) -> set_refused s rd_addr rec_addr base top RMI_ERROR_INPUT
  | sf_lookup st : find_lock_two_fine_granules rd_addr GRANULE_STATE_RD rec_addr GRANULE_STATE_REC (r_mem (s_rmm s))
        = Some ((st, None, None), r_mem (s_rmm s)) -> set_refused s rd_addr rec_addr base top st
  | sf_running g n : tr_addr_to_granule rec_addr = Some g ->
      granule_at (r_mem (s_rmm s)) g (AGranule false GRANULE_STATE_REC n) -> n <> 0 ->
      set_refused s rd_addr rec_addr base top RMI_ERROR_REC
  | sf_foreign g g_rec r : names_rd (s_rmm s) rd_addr g -> tr_addr_to_granule rec_addr = Some g_rec ->
      s_rrecs s !! g_rec = Some r -> g_rd (rr_rec r) <> g -> set_refused s rd_addr rec_addr base top RMI_ERROR_REC
  | sf_piece g_rec r : tr_addr_to_granule rec_addr = Some g_rec -> s_rrecs s !! g_rec = Some r ->
      base <> sr_addr (rr_set r) \/ sr_top (rr_set r) < top -> set_refused s rd_addr rec_addr base top RMI_ERROR_INPUT
  | sf_stop g rd ctx T gp l g_rec r st : names_rd (s_rmm s) rd_addr g ->
      owns (s_rmm s) g PRIMARY_S2_CTX_ID rd ctx T -> tr_addr_to_granule rec_addr = Some g_rec -> s_rrecs s !! g_rec = Some r ->
      visits ctx (r_mem (s_rmm s)) base gp l ->
      (~ (s2tte_map_size l | base) /\ exists e, entry_at (s_rmm s) gp base l e /\ has_this_ripas ctx e l (sr_ripas_val (rr_set r)) = Some false) \/
      set_stops (s_rmm s) ctx gp l base top (sr_ripas_val (rr_set r)) (sr_change_destroyed (rr_set r)) base ->
      rtt_error false l st -> set_refused s rd_addr rec_addr base top st.

(** ** The table *)

Lemma map_addr_exact rd lpa2 bits sl ctx addr level :
  rd_ok rd lpa2 bits sl -> arr_get (s2_ctxs rd) PRIMARY_S2_CTX_ID = Some ctx -> ctx_ok ctx lpa2 -> ipa_bits ctx = bits ->
  0 <= addr < 2 ^ bits -> sl <= level <= 3 -> s2_starting_level ctx = sl ->
  exists b, validate_map_addr addr level rd = Some b /\ (b = true <-> (s2tte_map_size level | addr)).
Proof.
  intros Hr Hc [Hl Hbb Hs _ _] Hbits Ha Hlv Hsl. destruct (rd_sizes _ _ _ _ Hr) as (Hb & Hsz & _).
  unfold validate_map_addr. rewrite Hsz, Hc. cbn [mbind option_bind]. rewrite (proj2 (Z.ltb_lt _ _)) by lia.
  destruct (aligned_total ctx lpa2 addr level Hl ltac:(destruct lpa2; lia)) as [b Hal]. exists b. split; [done|].
  pose proof (addr_lvl_aligned_arith ctx lpa2 addr level Hl) as Hx. rewrite Hal in Hx.
  assert (2 ^ bits <= 2 ^ oa_bits lpa2) by (apply Z.pow_le_mono_r; lia).
  split; [intros ->; tauto|]. intros Hd.
  assert (Hf : Some b = Some true) by (apply Hx; split_and!; try done; try lia; destruct lpa2; lia). by injection Hf.
Qed.

(** How far a successful call got: to an entry that stops it, or to the end of the
    one entry whose middle it started in. *)
Definition reached w wk ctx (gp l base top : Z) val cd (addr : Z) : Prop :=
  set_stops wk ctx gp l base top val cd addr \/
  (wk = w /\ ~ (s2tte_map_size l | base) /\ addr = Z.min top (base / s2tte_map_size l * s2tte_map_size l + s2tte_map_size l)).

Lemma set_llt_ok w F g g_rec rd lpa2 bits sl ctx T wi base top val cd res (Q : smc_result -> rmm -> Prop) :
  let gp := g_llt wi in
  let l := last_level wi in
  rd_ok rd lpa2 bits sl -> ctx_ok ctx lpa2 -> ipa_bits ctx = bits -> s2_starting_level ctx = sl -> askable val ->
  inv w F -> ram_backed w F -> F !! (g, PRIMARY_S2_CTX_ID) = Some T -> owns w g PRIMARY_S2_CTX_ID rd ctx T ->
  sl <= l <= 3 -> 0 <= base < top -> top < 2 ^ ipa_bits ctx -> (GRANULE_SIZE | top) ->
  visits ctx (r_mem w) base gp l -> index wi = s2_addr_to_idx base l ->
  (forall wk x n, descs (r_mem wk) = descs (r_mem w) -> granule_at (r_mem wk) x (AGranule false GRANULE_STATE_DATA n) ->
     granule_at (r_mem (in_set wk g g_rec gp)) x (AGranule false GRANULE_STATE_DATA n)) ->
  (forall st, rtt_error false l st -> st <> RMI_SUCCESS ->
     (~ (s2tte_map_size l | base) /\ exists e, entry_at w gp base l e /\ has_this_ripas ctx e l val = Some false) \/
     set_stops w ctx gp l base top val cd base -> Q (set_x0 st res) (in_set w g g_rec gp)) ->
  (forall wk addr, progress w wk F g rd ctx T gp l base addr val cd -> base < addr <= top -> (GRANULE_SIZE | addr) ->
     reached w wk ctx gp l base top val cd addr -> Q (set_x1 addr (set_x0 RMI_SUCCESS res)) (in_set wk g g_rec gp)) ->
  (forall wk addr ipa, progress w wk F g rd ctx T gp l base addr val cd -> base <= addr < top ->
     aux_mapped wk rd ctx gp l addr ipa -> Q (set_x1 ipa (set_x0 RMI_ERROR_RTT_AUX res)) (in_set wk g g_rec gp)) ->
  runs (set_ripas_llt ctx rd wi base top val cd res) (in_set w g g_rec gp) Q.
Proof.
  intros gp l Hrd Hc Hbits Hsl Hval Hinv Hback HF Hown Hl Hb Htop Htal Hvis Hix Hdata Herr HQ Haux.
  pose proof Hc as [Hlp Hbb Hs _ _]. assert (Hlv : -1 <= l <= 3) by (destruct lpa2; lia).
  assert (H52 : 2 ^ ipa_bits ctx <= 2 ^ 52) by (apply Z.pow_le_mono_r; destruct lpa2; lia).
  assert (Hms : 0 < s2tte_map_size l <= 2 ^ 48)
    by (rewrite s2tte_map_size_eq by done; split; [apply Z.pow_pos_nonneg; lia|apply Z.pow_le_mono_r; lia]).
  assert (Hgr : (GRANULE_SIZE | s2tte_map_size l)) by (by apply GRANULE_ALIGNED_spec, (map_size_ge l Hlv)).
  destruct (rtt_error_some false l) as (st & Hst & Hne).
  unfold set_ripas_llt. fold gp l. destruct (map_addr_exact rd lpa2 bits sl ctx base l) as (b & Hv & Hal);
    [done|apply Hown|done|done|rewrite <- Hbits; lia|done|done|].
  eapply runs_bind, runs_lift; [exact Hv|]. destruct b; cbn [negb]; [apply proj1 in Hal; specialize (Hal eq_refl)|
    assert (Hna : ~ (s2tte_map_size l | base)) by (intros Hd; apply Hal in Hd; done)].
  - unfold rtt_set_ripas_range. fold gp l.
    assert (Z.land base (not64 (sub64 (s2tte_map_size l) 1)) = base) as -> by (apply aligned_round; (done || lia)).
    rewrite Z.eqb_refl. cbn [negb]. apply runs_bind. rewrite Hix.
    replace (s2_addr_to_idx base l) with (s2_addr_to_idx base l + 0) at 2 by lia.
    replace base with (base + 0 * s2tte_map_size l) at 3 by lia.
    pose proof (s2_addr_to_idx_range base l Hlv).
    eapply (set_loop_ok smmu_ok w F g g_rec rd lpa2 bits sl ctx T gp l base top val cd); try done; try lia.
    + intros wk addr Hpg Hle Hda Hstop. destruct (Z.ltb_spec base addr) as [Hlt|Hge].
      * apply runs_ret, HQ; [done|lia| |by left]. destruct Hda as [Hda| ->]; [by etrans|done].
      * assert (addr = base) as -> by lia. eapply runs_bind, runs_lift; [exact Hst|]. apply runs_ret.
        pose proof (rl_start _ _ _ _ _ _ _ _ _ _ _ _ _ (pg_relabelled _ _ _ _ _ _ _ _ _ _ _ _ _ Hpg) ltac:(lia)) as ->.
        apply Herr; [done|done|by right].
    + intros wk addr ipa Hpg Hle Ha. apply runs_ret. by eapply Haux.
    + rewrite Z.mul_0_l, Z.add_0_r. by apply progress_start.
    + unfold S2TTES_PER_S2TT. lia.
  - pose proof (own_tree _ _ _ _ _ _ Hown) as HT. assert (Had : 0 <= base < 2 ^ ipa_bits ctx) by lia.
    destruct (visits_tree _ _ _ _ _ _ _ Hc HT Had Hvis) as [Hgp _].
    destruct (tree_table_at _ _ _ _ _ HT Hgp) as (tp & Htp & Hltp & _ & _ & Hok). rewrite Hix.
    destruct (arr_get_some tp (s2_addr_to_idx base l)) as [e He];
      [rewrite Hltp; unfold N_S2TTES; pose proof (s2_addr_to_idx_range base l); lia|].
    eapply runs_bind, runs_get; [exact Htp|]. eapply runs_bind, runs_lift; [exact He|].
    destruct (entry_ripas ctx lpa2 l e val Hlp Hlv (Hok _ _ He)) as (k & _ & Hr). eapply runs_bind, runs_lift; [exact Hr|].
    case_bool_decide as Hkr.
    2: { eapply runs_bind, runs_lift; [exact Hst|]. apply runs_ret, Herr; [done|done|]. left. split; [done|]. exists e. split; [by exists tp|done]. }
    assert (Hrd2 : Z.land base (not64 (sub64 (s2tte_map_size l) 1)) = base / s2tte_map_size l * s2tte_map_size l).
    { rewrite s2tte_map_size_eq by done. pose proof (round_down_spec base ((3 - l) * 9 + 12) ltac:(unfold in_u64; lia) ltac:(lia)) as Hx. unfold round_down in Hx.
      rewrite Hx. assert (0 < 2 ^ ((3 - l) * 9 + 12)) by (apply Z.pow_pos_nonneg; lia).
      pose proof (Z.div_mod base (2 ^ ((3 - l) * 9 + 12)) ltac:(lia)). lia. }
    rewrite Hrd2. set (q := base / s2tte_map_size l) in *.
    assert (Hq : q * s2tte_map_size l <= base < q * s2tte_map_size l + s2tte_map_size l).
    { pose proof (Z.div_mod base (s2tte_map_size l) ltac:(lia)). pose proof (Z.mod_pos_bound base (s2tte_map_size l) ltac:(lia)). lia. }
    assert (add64 (q * s2tte_map_size l) (s2tte_map_size l) = q * s2tte_map_size l + s2tte_map_size l) as ->
      by (unfold add64; apply u64_small; unfold in_u64; nia).
    apply runs_ret, HQ; [|lia| |right; done].
    2: { destruct (Z.min_spec top (q * s2tte_map_size l + s2tte_map_size l)) as [[_ ->]|[_ ->]]; [done|].
         apply Z.divide_add_r; [by apply Z.divide_mul_r|done]. }
    pose proof (progress_start w F g rd ctx T gp l base val cd Hinv Hown Hvis Hback) as [P1 P2 P3].
    split; [|done|eapply log_keep; [exact P3|lia]]. eapply relabelled_same; [exact P1|lia|]. intros a Ha. split; [lia|].
    eapply (same_ripas_translate w F g rd ctx lpa2 T gp l base e tp val cd a); try done; [lia|].
    symmetry. fold q. apply (Z.div_unique a _ _ (a - q * s2tte_map_size l)); lia.
Qed.

(** ** The command *)

(** The command concerns the pending request [r] of REC [g_rec] of realm [g]. *)
Record applies s F (rd_addr rec_addr base top g g_rec : Z) rd ctx T (r : ripas_rec) : Prop := {
  ap_rd : names_rd (s_rmm s) rd_addr g;
  ap_rec : tr_addr_to_granule rec_addr = Some g_rec /\ granule_at (r_mem (s_rmm s)) g_rec (AGranule false GRANULE_STATE_REC 0);
  ap_tree : F !! (g, PRIMARY_S2_CTX_ID) = Some T;
  ap_own : owns (s_rmm s) g PRIMARY_S2_CTX_ID rd ctx T;
  ap_request : s_rrecs s !! g_rec = Some r /\ g_rd (rr_rec r) = g /\ base = sr_addr (rr_set r) /\ top <= sr_top (rr_set r);
  ap_range : 0 <= base < top /\ top < 2 ^ ipa_bits ctx
}.

Definition set_outcome s F (rd_addr rec_addr base top : Z) (out : smc_result) s' : Prop :=
  (res_x0 out <> RMI_SUCCESS /\ set_refused s rd_addr rec_addr base top (res_x0 out) /\ s' = s) \/
  (exists g g_rec rd ctx T r gp l addr, let val := sr_ripas_val (rr_set r) in let cd := sr_change_destroyed (rr_set r) in
     applies s F rd_addr rec_addr base top g g_rec rd ctx T r /\
     progress (s_rmm s) (s_rmm s') F g rd ctx T gp l base addr val cd /\ sinv s' F /\
     ((res_x0 out = RMI_SUCCESS /\ res_x1 out = addr /\ base < addr <= top /\
       reached (s_rmm s) (s_rmm s') ctx gp l base top val cd addr /\
       s_rrecs s' = <[g_rec := set_ripas_addr addr r]> (s_rrecs s)) \/
      (res_x0 out = RMI_ERROR_RTT_AUX /\ base <= addr < top /\ aux_mapped (s_rmm s') rd ctx gp l addr (res_x1 out) /\
       s_rrecs s' = s_rrecs s))).

Lemma unlock_top w m g a x (Q : unit -> rmm -> Prop) :
  granule_at m g a -> a_locked a = false -> x = with_mem w (with_lock m g) -> Q tt (with_mem w m) -> runs (h_granule_unlock g) x Q.
Proof. intros Ha Hl -> HQ. eapply runs_on_mem; [by eapply with_lock_unlock|done]. Qed.

(** The state after the command: requests stay well-formed. *)
Lemma requests_step s w' R' F g rd ctx T gp l base addr val cd g_rec r :
  sinv s F -> progress (s_rmm s) w' F g rd ctx T gp l base addr val cd -> s_rrecs s !! g_rec = Some r ->
  R' = s_rrecs s \/ (R' = <[g_rec := set_ripas_addr addr r]> (s_rrecs s) /\ 0 <= addr /\ (GRANULE_SIZE | addr)) -> sinv (SRmm w' R') F.
Proof.
  intros [Hinv _ Hreq] [Hrl Hbk _] Hr HR. split; [apply Hrl|done|]. intros x n Hx. cbn [s_rmm s_rrecs] in *.
  destruct Hrl as [_ _ Hrds _ Hd _ _ _ _ _ _].
  assert (Hx0 : granule_at (r_mem (s_rmm s)) x (AGranule false GRANULE_STATE_REC n)) by (eapply granule_at_descs; [|exact Hx]; by rewrite Hd).
  destruct (Hreq x n Hx0) as (rx & Hrx & [Q1 Q2 Q3]). destruct HR as [->|(-> & Ha & Hda)].
  { exists rx. split; [done|]. split; try done. intros rd0 size. rewrite Hrds. apply Q3. }
  destruct (decide (x = g_rec)) as [->|Hne].
  - assert (rx = r) as -> by congruence. exists (set_ripas_addr addr r). rewrite lookup_insert_eq. split; [done|].
    split; try done. intros rd0 size. rewrite Hrds. apply Q3.
  - exists rx. rewrite lookup_insert_ne by done. split; [done|]. split; try done. intros rd0 size. rewrite Hrds. apply Q3.
Qed.

(** With both granules locked. *)
Definition rd_rec_locked s (g g_rec : Z) : srmm := SRmm (with_mem (s_rmm s) (with_lock (with_lock (r_mem (s_rmm s)) g) g_rec)) (s_rrecs s).

Lemma request_range w r rd lpa2 bits sl base top :
  request_ok w r -> r_rds w !! g_rd (rr_rec r) = Some rd -> rd_ok rd lpa2 bits sl -> base = sr_addr (rr_set r) -> top <= sr_top (rr_set r) ->
  base < top -> 0 <= base < top /\ top < 2 ^ bits /\ (s2tte_map_size S2TT_PAGE_LEVEL | base).
Proof.
  intros [[Q1 Q2] _ Q3] Hrd Hok -> Htop Hlt. destruct (rd_sizes _ _ _ _ Hok) as (Hb & Hsz & _). pose proof (Q3 rd _ Hrd Hsz) as Hpar.
  rewrite Z.shiftr_div_pow2 in Hpar by lia. change (2 ^ 1) with 2 in Hpar.
  assert (0 < 2 ^ bits) by (apply Z.pow_pos_nonneg; lia). split; [lia|]. split; [|done].
  pose proof (Z.div_lt (2 ^ bits) 2). lia.
Qed.

(** The walk below two locked granules. *)
Lemma lock_walk2 w g g_rec ctx lpa2 T addr level (Q : s2tt_walk -> rmm -> Prop) :
  ctx_ok ctx lpa2 -> rtt_inv ctx (r_mem w) T -> T !! g = None -> T !! g_rec = None ->
  0 <= addr < 2 ^ ipa_bits ctx -> s2_starting_level ctx <= level <= 3 ->
  (forall wi, walked w ctx T addr level wi -> Q wi (in_set w g g_rec (g_llt wi))) ->
  runs (h_granule_lock (g_rtt ctx) GRANULE_STATE_RTT) (with_mem w (with_lock (with_lock (r_mem w) g) g_rec))
    (fun _ x => runs (on_mem (s2tt_walk_lock_unlock ctx addr level)) x Q).
Proof.
  intros Hc HT Hg Hgr Ha Hlv HQ. set (w1 := with_mem w (with_lock (r_mem w) g)).
  assert (HT1 : rtt_inv ctx (r_mem w1) T) by (eapply rtt_inv_frame; [by apply with_lock_agree|done]).
  pose proof (lock_walk (A := s2tt_walk) w1 g_rec ctx lpa2 T addr level ret Q Hc HT1 Hgr Ha Hlv) as Hx.
  apply runs_bind_inv in Hx.
  - eapply runs_mono; [exact Hx|]. intros [] x Hy. cbv beta in Hy. apply runs_bind_inv in Hy. eapply runs_mono; [exact Hy|].
    intros wi x2 (y & s2 & [= <- <-] & H). exact H.
  - intros wi [(root & Hr & Hpw) H1 H2 H3 H4]. apply runs_ret, HQ. split; try done.
    + exists root. split; [done|]. rewrite Hpw. by rewrite (pure_walk_tables ctx (r_mem w1) (r_mem w)).
Qed.

Lemma set_locked_ok s F rd_addr rec_addr g g_rec n r1 base top res (Q : smc_result -> srmm -> Prop) :
  sinv s F -> base < top -> (GRANULE_SIZE | top) -> tr_addr_to_granule rd_addr = Some g -> tr_addr_to_granule rec_addr = Some g_rec ->
  granule_at (r_mem (s_rmm s)) g (AGranule false GRANULE_STATE_RD r1) ->
  granule_at (r_mem (s_rmm s)) g_rec (AGranule false GRANULE_STATE_REC n) ->
  (forall out s', set_outcome s F rd_addr rec_addr base top out s' -> descs (r_mem (s_rmm s')) = descs (r_mem (s_rmm s)) ->
     Q out (rd_rec_locked s' g g_rec)) ->
  runs (set_ripas_locked g g_rec base top res) (rd_rec_locked s g g_rec) Q.
Proof.
  intros Hsi Hlt Htal Hrda Hreca Hg Hgr HQ. pose proof Hsi as [Hinv Hback Hreq].
  assert (Hne : g_rec <> g) by (intros ->; by pose proof (granule_at_inj _ _ _ _ Hg Hgr)).
  assert (Hnm : names_rd (s_rmm s) rd_addr g) by (split; [done|by exists r1]).
  assert (Href : forall st, st <> RMI_SUCCESS -> set_refused s rd_addr rec_addr base top st ->
    Q (set_x0 st res) (rd_rec_locked s g g_rec)) by (intros st Hst Hwhy; apply HQ; [left; by split|done]).
  unfold set_ripas_locked. apply runs_bind, runs_on_world.
  eapply runs_get; [apply (refcount_locked (with_lock (r_mem (s_rmm s)) g) g_rec (AGranule false GRANULE_STATE_REC n)); [by apply granule_at_with_lock_ne|done]|].
  cbn [a_ref]. destruct (Z.eqb_spec n 0) as [->|Hn]; cbn [negb].
  2: { apply runs_ret. apply Href; [done|]. by eapply sf_running. }
  destruct (Hreq g_rec 0 Hgr) as (r & Hr & Hrok). apply runs_bind. eexists r, _. split; [unfold map_ripas_rec; cbn; by rewrite Hr|].
  destruct (Z.eqb_spec g (g_rd (rr_rec r))) as [Hgd|Hgd]; cbn [negb].
  2: { apply runs_ret. apply Href; [done|]. eapply sf_foreign; eauto. }
  destruct (Z.eqb_spec base (sr_addr (rr_set r))) as [Hba|Hba]; cbn [negb orb].
  2: { apply runs_ret. apply Href; [done|]. eapply sf_piece; eauto. }
  destruct (Z.ltb_spec (sr_top (rr_set r)) top) as [Hto|Hto].
  { apply runs_ret. apply Href; [done|]. eapply sf_piece; eauto. }
  destruct (inv_rd _ _ Hinv g r1 Hg) as (rd & lpa2 & bits & sl & Hrd & Hok & HF).
  apply runs_bind, runs_on_world. eapply runs_get; [exact Hrd|].
  destruct (request_range (s_rmm s) r rd lpa2 bits sl base top Hrok ltac:(by rewrite <- Hgd) Hok Hba Hto Hlt) as (Hb & Ht2 & Hpg).
  pose proof (num_planes_eq _ _ _ _ Hok) as [_ Hnp]. destruct (rd_get_ctx _ _ _ _ 0 Hok ltac:(lia)) as [ctx Hc].
  destruct (rd_ctx_ok _ _ _ _ Hok 0 ctx ltac:(lia) Hc) as (Hctx & Hbits & Hsl & _). pose proof Hctx as [Hl Hbb Hs _ _].
  destruct (map_addr_exact rd lpa2 bits sl ctx base S2TT_PAGE_LEVEL Hok Hc Hctx Hbits ltac:(lia) ltac:(unfold S2TT_PAGE_LEVEL; destruct lpa2; lia) Hsl)
    as (b & Hv & Hb1). eapply runs_bind, runs_lift; [exact Hv|]. apply runs_bind, runs_guard; [by apply Hb1|].
  eapply runs_bind, runs_lift; [exact Hc|].
  assert (Hi : 0 <= 0 < realm_num_s2_rtts rd)
    by (unfold realm_num_s2_rtts, realm_num_s2_contexts; destruct (rtt_tree_pp rd); lia).
  destruct (realm_tree _ _ _ _ _ _ Hinv Hrd HF Hi Hc) as (T & HT & Hown). pose proof (own_tree _ _ _ _ _ _ Hown) as Htree.
  assert (HgT : T !! g = None) by (by eapply not_in_tree). assert (HrT : T !! g_rec = None) by (by eapply not_in_tree).
  apply runs_bind, runs_on_world. cbn [s_rmm rd_rec_locked].
  eapply runs_mono; [apply (lock_walk2 (s_rmm s) g g_rec ctx lpa2 T base S2TT_PAGE_LEVEL (fun wi x => walked (s_rmm s) ctx T base S2TT_PAGE_LEVEL wi /\ x = in_set (s_rmm s) g g_rec (g_llt wi)))|];
    try done; [rewrite Hbits; lia|unfold S2TT_PAGE_LEVEL; lia|].
  intros [] x Hwx. cbv beta. apply runs_bind, runs_on_world. eapply runs_mono; [exact Hwx|]. intros wi x2 [Hwk ->]. cbn [s_rrecs].
  destruct (walked_visits _ _ _ _ _ _ Hwk ltac:(done)) as [Hvis Hix]. destruct Hwk as [_ _ Hgp Hll _].
  set (gp := g_llt wi) in *. set (l := last_level wi) in *. unfold S2TT_PAGE_LEVEL in Hll.
  destruct (tree_table_at _ _ _ _ _ Htree Hgp) as (tp & _ & _ & _ & Hgpa & _).
  assert (Hap : applies s F rd_addr rec_addr base top g g_rec rd ctx T r) by (split; try done; by rewrite Hbits).
  assert (Hun : forall w' R' out, descs (r_mem w') = descs (r_mem (s_rmm s)) ->
    set_outcome s F rd_addr rec_addr base top out (SRmm w' R') ->
    runs (_ <-! on_world (h_granule_unlock gp) ;; ret out) (SRmm (in_set w' g g_rec gp) R') Q).
  { intros w' R' out Hd Hout. apply runs_bind, runs_on_world. cbn [s_rmm].
    eapply (unlock_top w' (with_lock (with_lock (r_mem w') g) g_rec) gp); [| |done|].
    - apply granule_at_with_lock_ne; [intros ->; congruence|]. apply granule_at_with_lock_ne; [intros ->; congruence|].
      eapply granule_at_descs; [|exact Hgpa]. by rewrite Hd.
    - done.
    - apply runs_ret. by apply (HQ out (SRmm w' R')). }
  apply runs_bind, runs_on_world. cbn [s_rmm s_rrecs].
  eapply (set_llt_ok (s_rmm s) F g g_rec rd lpa2 bits sl ctx T wi base top); fold gp l; try done; try (rewrite ?Hbits; lia).
  - apply Hrok.
  - intros wk y m Hd Hy. eapply in_set_granule; [| |  | | | |exact Hy].
    1: eapply granule_at_descs; [|exact Hg]; by rewrite Hd. 2: eapply granule_at_descs; [|exact Hgr]; by rewrite Hd.
    3: eapply granule_at_descs; [|exact Hgpa]; by rewrite Hd. all: done.
  - intros st Hst Hne2 Hwhy. cbn [res_x0 set_x0]. rewrite (proj2 (Z.eqb_neq st RMI_SUCCESS)) by done. apply runs_bind, runs_ret.
    apply Hun; [done|]. left. split; [done|]. split; [|by destruct s]. by eapply (sf_stop s rd_addr rec_addr base top g rd ctx T gp l g_rec r).
  - intros wk addr Hpr Hle Hda Hre. cbn [res_x0 res_x1 set_x0 set_x1]. rewrite Z.eqb_refl. apply runs_bind.
    eexists tt, _. split; [unfold store_ripas_addr; cbn [s_rrecs]; by rewrite Hr|]. cbn [s_rmm].
    apply Hun; [apply Hpr|]. right. exists g, g_rec, rd, ctx, T, r, gp, l, addr. split; [done|]. split; [done|].
    split; [eapply requests_step; [exact Hsi|exact Hpr|exact Hr|right; split; [done|]; split; [lia|done]]|]. left. split_and!; try done; lia.
  - intros wk addr ipa Hpr Hle Ham. cbn [res_x0 res_x1 set_x0 set_x1]. change (RMI_ERROR_RTT_AUX =? RMI_SUCCESS) with false. cbn iota. apply runs_bind, runs_ret.
    apply Hun; [apply Hpr|]. right. exists g, g_rec, rd, ctx, T, r, gp, l, addr. split; [done|]. split; [done|].
    split; [eapply requests_step; [exact Hsi|exact Hpr|exact Hr|by left]|]. right. split_and!; try done; lia.
Qed.

Lemma set_ripas_ok s F rd_addr rec_addr base top res :
  sinv s F -> runs (smc_rtt_set_ripas rd_addr rec_addr base top res) s (set_outcome s F rd_addr rec_addr base top).
Proof.
  intros Hsi. pose proof Hsi as [Hinv _ _]. unfold smc_rtt_set_ripas.
  destruct ((top <=? base) || negb (GRANULE_ALIGNED top)) eqn:Hargs.
  { apply runs_ret. left. split; [done|]. split; [|done]. apply sf_args. apply orb_true_iff in Hargs as [Ha|Ha].
    - left. lia.
    - right. intros Hd%GRANULE_ALIGNED_spec. by rewrite Hd in Ha. }
  apply orb_false_iff in Hargs as [Hlt%Z.leb_gt Hal%negb_false_iff%GRANULE_ALIGNED_spec].
  apply runs_bind, runs_on_world.
  assert (Hav : forall addr g, addr = rd_addr \/ addr = rec_addr -> tr_addr_to_granule addr = Some g ->
    exists a, granule_at (r_mem (s_rmm s)) g a /\ a_locked a = false)
    by (intros addr g _ Hg; destruct (inv_granule _ _ Hinv addr g Hg) as (Ha & _); exact Ha).
  destruct (find_lock_two_spec (r_mem (s_rmm s)) rd_addr GRANULE_STATE_RD rec_addr GRANULE_STATE_REC ltac:(done) ltac:(done) Hav)
    as [(st & Hst & Hf & _)|(g & g_rec & [lk1 s1 r1] & [lk2 s2 n] & Hne & Hg & Hgr & Hga & Hs1 & Hgra & Hs2 & Hf)].
  { eapply runs_on_mem; [exact Hf|]. rewrite with_mem_id. cbv beta iota. rewrite (proj2 (Z.eqb_neq st RMI_SUCCESS)) by done. cbn [negb].
    apply runs_ret. left. split; [done|]. split; [by apply sf_lookup|by destruct s]. }
  cbn [a_state] in Hs1, Hs2. subst s1 s2.
  assert (lk1 = false) as -> by (destruct (Hav rd_addr g ltac:(by left) Hg) as (a & Ha & Hl); by rewrite <- (granule_at_inj _ _ _ _ Hga Ha) in Hl).
  assert (lk2 = false) as -> by (destruct (Hav rec_addr g_rec ltac:(by right) Hgr) as (a & Ha & Hl); by rewrite <- (granule_at_inj _ _ _ _ Hgra Ha) in Hl).
  eapply runs_on_mem; [exact Hf|]. cbv beta iota. rewrite Z.eqb_refl. cbn [negb].
  eapply runs_bind, runs_lift; [done|]. eapply runs_bind, runs_lift; [done|]. apply runs_bind.
  eapply (set_locked_ok s F rd_addr rec_addr g g_rec n r1 base top); try done.
  intros out s' Hout Hd. apply runs_bind, runs_on_world. cbn [s_rmm rd_rec_locked].
  eapply (unlock_top (s_rmm s') (with_lock (r_mem (s_rmm s')) g) g_rec); [| |done|].
  { apply granule_at_with_lock_ne; [done|]. eapply granule_at_descs; [|exact Hgra]. by rewrite Hd. }
  { done. }
  apply runs_bind, runs_on_world. cbn [s_rmm s_rrecs].
  eapply (unlock_top (s_rmm s') (r_mem (s_rmm s')) g); [| |done|].
  { eapply granule_at_descs; [|exact Hga]. by rewrite Hd. }
  { done. }
  apply runs_ret. rewrite with_mem_id. by destruct s'.
Qed.

End Cmd.
