(* ===== verification/SetRipasCorrect.v ===== *)
(** * RIPAS changes a realm asks for: correctness

    What one RMI_RTT_SET_RIPAS does, and what a realm may rely on when its request
    is answered, whatever commands the host issued in between. *)

From Stdlib Require Import ZArith Lia Bool ZifyBool.
From stdpp Require Import base tactics option list numbers gmap.
From S2P Require Import Prelude.
From S2P Require Import Utils.
From S2P Require Import Status.
From S2P Require Import Smc.
From S2P Require Import Granule.
From S2P Require Import Mem.
From S2P Require Import Arch.
From S2P Require Import S2tte.
From S2P Require Import S2tteProps.
From S2P Require Import S2ttTable.
From S2P Require Import S2ttWalk.
From S2P Require Import RttFoldProps.
From S2P Require Import RttEntry.
From S2P Require Import Realm.
From S2P Require Import RttTree.
From S2P Require Import Rmm.
From S2P Require Import Psci.
From S2P Require Import RttUnmap.
From S2P Require Import RttInv.
From S2P Require Import UnmapDrain.
From S2P Require Import RttCreate.
From S2P Require Import RttRange.
From S2P Require Import RttSetRipas.
From S2P Require Import SetRipasEntry.
From S2P Require Import SetRipasLoop.
From S2P Require Import SetRipasCmd.

Section Correct.
Context `{feat : ArchFeatures} `{laws : ActiveLaws} `{pairs : !PairLookup} `{smmu : SmmuDriver}.
Hypothesis smmu_ok : forall vs addr level num leaf, smmuv3_inv_at_level_per_vmids vs addr level num leaf = 0.
Implicit Types (w : rmm) (s : srmm) (F : forest) (rd : rd) (ctx : s2tt_context) (T : tree).


(** ** From the request to the answer *)

(** The commands of the host: RD, REC, base and top of each. *)
Fixpoint host_sets (cmds : list (Z * Z * Z * Z)) : ST srmm unit :=
  match cmds with
  | [] => ret tt
  | (rd_addr, rec_addr, base, top) :: rest =>
      _ <-! smc_rtt_set_ripas rd_addr rec_addr base top (SmcResult 0 0 0 0 0) ;; host_sets rest
  end.

(** Memory [m] against memory [m0] when the range from [base] to [top] is to change
    and [addr] has been reached: the part below [addr] has changed, the part above
    may have, nothing else has. *)
Definition honoured ctx (m0 m : mem) (base addr top : Z) (tr : s2tte_kind -> option s2tte_kind) : Prop :=
  forall a, 0 <= a < 2 ^ ipa_bits ctx ->
    let new := translate ctx m0 a ≫= relabel tr in
    (base <= a < addr -> translate ctx m a = new /\ is_Some new) /\
    (addr <= a < top -> translate ctx m a = translate ctx m0 a \/ (translate ctx m a = new /\ is_Some new)) /\
    (a < base \/ top <= a -> translate ctx m a = translate ctx m0 a).

Lemma relabel_twice val cd x : askable val -> relabel (set_kind val cd) x ≫= relabel (set_kind val cd) = relabel (set_kind val cd) x.
Proof.
  intros Hv. destruct x as [[k out] [ap at0]]. cbn [relabel]. destruct (set_kind val cd k) as [k'|] eqn:Hk; [|done].
  cbn [mbind option_bind relabel]. rewrite (set_kind_idem _ _ _ _ Hv Hk). cbn. by rewrite decide_True.
Qed.

(** One more piece. *)
Lemma honoured_step ctx m0 m m' base addr addr' top val cd :
  askable val -> base <= addr <= addr' -> addr' <= top -> top <= 2 ^ ipa_bits ctx -> 0 <= base ->
  honoured ctx m0 m base addr top (set_kind val cd) ->
  (forall a, 0 <= a < 2 ^ ipa_bits ctx -> translate ctx m' a =
     if decide (addr <= a < addr') then translate ctx m a ≫= relabel (set_kind val cd) else translate ctx m a) ->
  (forall a, addr <= a < addr' -> is_Some (translate ctx m a ≫= relabel (set_kind val cd))) ->
  honoured ctx m0 m' base addr' top (set_kind val cd) /\ honoured ctx m0 m' base addr top (set_kind val cd).
Proof.
  intros Hv Hle Hle2 Htop Hb Hh Ht Hs.
  assert (Hin : forall a, addr <= a < addr' -> translate ctx m' a = translate ctx m0 a ≫= relabel (set_kind val cd) /\
    is_Some (translate ctx m0 a ≫= relabel (set_kind val cd))).
  { intros a Ha. assert (Har : 0 <= a < 2 ^ ipa_bits ctx) by lia. destruct (Hh a Har) as (_ & H2 & _). cbv zeta in H2.
    rewrite (Ht a Har), decide_True by lia. pose proof (Hs a Ha) as Hsa. destruct (H2 ltac:(lia)) as [Heq|[Heq Hso]].
    - by rewrite Heq in *.
    - rewrite Heq. split; [|done]. destruct (translate ctx m0 a) as [x|]; [|done]. cbn [mbind option_bind]. by apply relabel_twice. }
  split; intros a Ha new; specialize (Hh a Ha); cbv zeta in Hh; fold new in Hh; destruct Hh as (H1 & H2 & H3); specialize (Ht a Ha).
  - split_and!.
    + intros Hr. destruct (decide (addr <= a < addr')); [by apply Hin|]. rewrite Ht. apply H1. lia.
    + intros Hr. rewrite decide_False in Ht by lia. rewrite Ht. apply H2. lia.
    + intros Hr. rewrite decide_False in Ht by lia. rewrite Ht. by apply H3.
  - split_and!.
    + intros Hr. rewrite decide_False in Ht by lia. rewrite Ht. by apply H1.
    + intros Hr. destruct (decide (addr <= a < addr')); [right; by apply Hin|]. rewrite Ht. by apply H2.
    + intros Hr. rewrite decide_False in Ht by lia. rewrite Ht. by apply H3.
Qed.

(** [sk] is reached from [s0], in which REC [g_rec] of realm [g] has request [r]. *)
Record pursuing s0 sk F (g g_rec : Z) rd ctx T (r : ripas_rec) (addr : Z) : Prop := {
  pu_inv : sinv sk F;
  pu_rds : r_rds (s_rmm sk) = r_rds (s_rmm s0);
  pu_rec : s_rrecs sk !! g_rec = Some (set_ripas_addr addr r);
  pu_addr : sr_base (rr_set r) <= addr <= sr_top (rr_set r);
  pu_idle : forall x rx, x <> g_rec -> s_rrecs sk !! x = Some rx -> g_rd (rr_rec rx) = g -> sr_top (rr_set rx) = 0;
  pu_honoured : honoured ctx (r_mem (s_rmm s0)) (r_mem (s_rmm sk)) (sr_base (rr_set r)) addr (sr_top (rr_set r))
    (set_kind (sr_ripas_val (rr_set r)) (sr_change_destroyed (rr_set r)))
}.

Lemma pursuing_owns s0 sk F g g_rec rd ctx T r addr :
  pursuing s0 sk F g g_rec rd ctx T r addr -> F !! (g, PRIMARY_S2_CTX_ID) = Some T ->
  owns (s_rmm s0) g PRIMARY_S2_CTX_ID rd ctx T -> owns (s_rmm sk) g PRIMARY_S2_CTX_ID rd ctx T.
Proof.
  intros [[Hinv _ _] Hrds _ _ _ _] HF [O1 _ O3 _ _]. destruct (inv_own _ _ Hinv _ _ _ HF) as (rd1 & ctx1 & Hown).
  pose proof Hown as [P1 _ P3 _ _]. rewrite Hrds in P1. assert (rd1 = rd) as -> by congruence. by assert (ctx1 = ctx) as -> by congruence.
Qed.

(** One command of the host. *)
Lemma pursuing_step s0 sk F g g_rec rd ctx T r addr rd_addr rec_addr b t :
  askable (sr_ripas_val (rr_set r)) -> g_rd (rr_rec r) = g -> 0 <= sr_base (rr_set r) -> sr_top (rr_set r) <= 2 ^ ipa_bits ctx ->
  F !! (g, PRIMARY_S2_CTX_ID) = Some T -> owns (s_rmm s0) g PRIMARY_S2_CTX_ID rd ctx T ->
  pursuing s0 sk F g g_rec rd ctx T r addr ->
  runs (smc_rtt_set_ripas rd_addr rec_addr b t (SmcResult 0 0 0 0 0)) sk (fun _ s' =>
    exists addr', addr <= addr' /\ pursuing s0 s' F g g_rec rd ctx T r addr').
Proof.
  intros Hval Hgd Hb Htop HF Hown Hpu. pose proof (pursuing_owns _ _ _ _ _ _ _ _ _ _ Hpu HF Hown) as Hownk.
  pose proof Hpu as [P1 P2 P3 P4 P5 P6]. eapply runs_mono; [by apply (set_ripas_ok smmu_ok sk F)|].
  intros out s' [(_ & _ & ->)|(g1 & gr1 & rd1 & ctx1 & T1 & r1 & gp & l & ad & Hap & [Hrl _ _] & Hsi' & Hres)]; [by exists addr|].
  destruct Hap as [_ _ A3 A4 (A5 & A6 & A7 & A8) A9]. destruct (decide (gr1 = g_rec)) as [->|Hne].
  - assert (r1 = set_ripas_addr addr r) as -> by congruence. cbn in A6, A7, A8. assert (g1 = g) as -> by congruence. subst b.
    assert (T1 = T) as -> by congruence. destruct (owns_unique _ _ _ _ _ _ _ _ _ Hownk A4) as [-> ->].
    destruct Hrl as [_ _ R3 _ _ _ _ R8 R9 _ _]. cbn [set_ripas_addr rr_set rr_rec sr_ripas_val sr_change_destroyed] in *.
    assert (Hle : addr <= ad <= t) by (destruct Hres as [(_ & _ & ? & _)|(_ & ? & _)]; lia).
    destruct (honoured_step ctx _ _ (r_mem (s_rmm s')) (sr_base (rr_set r)) addr ad (sr_top (rr_set r)) _ (sr_change_destroyed (rr_set r)) Hval
      ltac:(lia) ltac:(lia) Htop Hb P6 R8 R9) as [Hh1 Hh2].
    destruct Hres as [(_ & _ & _ & _ & HR)|(_ & _ & _ & HR)].
    + exists ad. split; [lia|]. split; try done; [congruence|by rewrite HR, lookup_insert_eq|lia|].
      intros x rx Hx. rewrite HR, lookup_insert_ne by done. by apply P5.
    + exists addr. split; [lia|]. split; try done; [congruence|by rewrite HR|]. by rewrite HR.
  - assert (Hg1 : g1 <> g) by (intros ->; pose proof (P5 gr1 r1 Hne A5 A6); lia).
    destruct Hrl as [_ _ R3 _ _ _ _ _ _ R10 _].
    assert (Hsame : forall a, 0 <= a < 2 ^ ipa_bits ctx -> translate ctx (r_mem (s_rmm s')) a = translate ctx (r_mem (s_rmm sk)) a)
      by (intros a Ha; eapply R10; [exact HF|congruence|exact Hownk|done]).
    exists addr. split; [lia|]. split; try done; [congruence| | |].
    + destruct Hres as [(_ & _ & _ & _ & ->)|(_ & _ & _ & ->)]; [by rewrite lookup_insert_ne|done].
    + intros x rx Hx Hrx Hgx. destruct Hres as [(_ & _ & _ & _ & HR)|(_ & _ & _ & HR)]; rewrite HR in Hrx; [|by eapply P5].
      apply lookup_insert_Some in Hrx as [[<- <-]|[_ Hrx]]; [cbn in Hgx; congruence|by eapply P5].
    + intros a Ha. rewrite (Hsame a Ha). by apply P6.
Qed.

Lemma host_sets_ok s0 F g g_rec rd ctx T r cmds : forall sk addr,
  askable (sr_ripas_val (rr_set r)) -> g_rd (rr_rec r) = g -> 0 <= sr_base (rr_set r) -> sr_top (rr_set r) <= 2 ^ ipa_bits ctx ->
  F !! (g, PRIMARY_S2_CTX_ID) = Some T -> owns (s_rmm s0) g PRIMARY_S2_CTX_ID rd ctx T ->
  pursuing s0 sk F g g_rec rd ctx T r addr ->
  runs (host_sets cmds) sk (fun _ s' => exists addr', pursuing s0 s' F g g_rec rd ctx T r addr').
Proof.
  induction cmds as [|[[[rda reca] b] t] cmds IH]; intros sk addr Hv Hg Hb Ht HF Hown Hpu; cbn [host_sets].
  - apply runs_ret. by exists addr.
  - apply runs_bind. eapply runs_mono; [by eapply pursuing_step|]. intros _ s' (addr' & _ & Hpu'). by eapply IH.
Qed.

(** What an accepted request looks like. *)
Lemma request_accepted r exit res r' exit' res' :
  handle_rsi_ipa_state_set r exit res = Some (r', exit', res') -> action res' = UPDATE_REC_EXIT_TO_HOST ->
  let q := rr_set r' in
  rr_rec r' = rr_rec r /\ sr_addr q = sr_base q /\ 0 <= sr_base q < sr_top q /\ (GRANULE_SIZE | sr_base q) /\ (GRANULE_SIZE | sr_top q) /\
  sr_top q <= rec_par_size (rr_rec r) /\ askable (sr_ripas_val q) /\ rec_is_plane_0_active (rr_rec r) = true /\
  (3 <= length (regs (plane_0 (rr_rec r))))%nat.
Proof.
  unfold handle_rsi_ipa_state_set. intros H Ha. destruct (regs _ !! 1%nat) as [base|]; [|done]. destruct (regs _ !! 2%nat) as [top|] eqn:H2; [|done].
  destruct (regs _ !! 3%nat) as [x3|]; [|done]. destruct (regs _ !! 4%nat) as [x4|]; [|done]. cbn [mbind option_bind] in H.
  destruct (rec_is_plane_0_active (rr_rec r)); [|done].
  match type of H with (if ?c then _ else _) = _ => destruct c eqn:Hc end; [injection H as <- <- <-; discriminate Ha|].
  injection H as <- <- <-. cbn. apply orb_false_iff in Hc as [Hc Hreg]. apply orb_false_iff in Hc as [Hc Hlt%Z.leb_gt].
  apply orb_false_iff in Hc as [Hc Hat]. apply orb_false_iff in Hc as [Hrv Hab]. apply negb_false_iff, GRANULE_ALIGNED_spec in Hat, Hab.
  apply negb_false_iff in Hreg. unfold region_in_rec_par, region_is_contained in Hreg.
  destruct (_ <=? 0); [discriminate Hreg|]. destruct (top <=? base); [discriminate Hreg|]. apply andb_true_iff in Hreg as [Hr1%Z.leb_le Hr2%Z.leb_le].
  split_and!; try done; try lia.
  - apply Z.ltb_ge in Hrv. change (ripas_code RIPAS_RAM) with 1 in Hrv. unfold ripas_of_code, askable.
    assert (0 <= EXTRACT F_RSI_IPA_STATE_SET_RIPAS x3) as Hnn.
    { unfold EXTRACT. apply Z.land_nonneg. right. vm_compute. discriminate. }
    destruct (Z.eqb_spec (EXTRACT F_RSI_IPA_STATE_SET_RIPAS x3) 0); [by right|].
    destruct (Z.eqb_spec (EXTRACT F_RSI_IPA_STATE_SET_RIPAS x3) 1); [by left|lia].
  - apply lookup_lt_Some in H2. lia.
Qed.

Lemma set_ripas_addr_id r : set_ripas_addr (sr_addr (rr_set r)) r = r.
Proof. by destruct r as [rc []]. Qed.

(** The answer. *)
Lemma request_answered flags r :
  sr_base (rr_set r) <> sr_top (rr_set r) -> rec_is_plane_0_active (rr_rec r) = true -> (3 <= length (regs (plane_0 (rr_rec r))))%nat ->
  exists r3, rec_enter_set_ripas flags r = Some r3 /\
    let gpr := regs (plane_0 (rr_rec r3)) in
    gpr !! 0%nat = Some RSI_SUCCESS /\ gpr !! 1%nat = Some (sr_addr (rr_set r)) /\
    gpr !! 2%nat = Some (if bool_decide (sr_ripas_val (rr_set r) = RIPAS_RAM) && negb (sr_addr (rr_set r) =? sr_top (rr_set r))
                            && negb (Z.land flags REC_ENTRY_FLAG_RIPAS_RESPONSE =? 0) then RSI_REJECT else RSI_ACCEPT) /\
    sr_base (rr_set r3) = sr_top (rr_set r3).
Proof.
  intros Hne Hpl Hlen. unfold rec_enter_set_ripas, complete_set_ripas.
  cbn [rr_set rr_rec sr_base sr_top sr_addr sr_ripas_val sr_change_destroyed sr_response].
  rewrite (proj2 (Z.eqb_neq _ _)) by done. rewrite Hpl. destruct (regs (plane_0 (rr_rec r))) as [|x0 [|x1 [|x2 gpr]]] eqn:Hg; cbn in Hlen; try lia.
  assert (Hset : forall (y0 y1 y2 v : Z), arr_set (y0 :: y1 :: y2 :: gpr) 0 v = Some (v :: y1 :: y2 :: gpr) /\
    arr_set (y0 :: y1 :: y2 :: gpr) 1 v = Some (y0 :: v :: y2 :: gpr) /\ arr_set (y0 :: y1 :: y2 :: gpr) 2 v = Some (y0 :: y1 :: v :: gpr)).
  { intros y0 y1 y2 v. split_and!; (rewrite arr_set_some by (cbn; lia)); reflexivity. }
  destruct (Hset x0 x1 x2 RSI_SUCCESS) as (-> & _ & _). cbn [mbind option_bind].
  destruct (Hset RSI_SUCCESS x1 x2 (sr_addr (rr_set r))) as (_ & -> & _). cbn [mbind option_bind].
  edestruct Hset as (_ & _ & ->). cbn [mbind option_bind]. eexists. split; [done|].
  cbn [rr_rec rr_set set_plane_0 set_planes plane_0 regs sr_addr sr_top sr_base sr_ripas_val sr_response]. split_and!; try done.
  cbn. do 2 f_equal. by destruct (Z.land flags REC_ENTRY_FLAG_RIPAS_RESPONSE =? 0).
Qed.


End Correct.
