(* ===== verification/RsiIpaState.v ===== *)
(** * RSI_IPA_STATE_GET ([rsi/memory.c], [rsi/realm_ipa_helper.c])

    A realm reads the RIPAS of a range of its protected addresses.  The answer
    covers the entries of one table, from the first address on, that have the same
    RIPAS. *)

From Stdlib Require Import ZArith Lia Bool ZifyBool.
From stdpp Require Import base tactics option list numbers gmap.
From S2P Require Import Prelude.
From S2P Require Import Utils.
From S2P Require Import Status.
From S2P Require Import Smc.
From S2P Require Import Granule.
From S2P Require Import Mem.
From S2P Require Import Arch.
From S2P Require Import S2tte.
From S2P Require Import S2tteFacts.
From S2P Require Import S2tteProps.
From S2P Require Import S2ttTable.
From S2P Require Import S2ttWalk.
From S2P Require Import RttFoldProps.
From S2P Require Import RttEntry.
From S2P Require Import Realm.
From S2P Require Import RttTree.
From S2P Require Import Rmm.
From S2P Require Import Psci.
From S2P Require Import RttInv.
From S2P Require Import RttPath.
From S2P Require Import RttRefuse.
From S2P Require Import RttCreate.
From S2P Require Import RttRange.
From S2P Require Import RttSetRipas.
From S2P Require Import SetRipasEntry.
From S2P Require Import SetRipasLoop.

Section Model.
Context `{feat : ArchFeatures} `{lookup : GranuleLookup}.
Implicit Types (s2_ctx : s2tt_context) (r : rec).

(** The loop over the entries from [index] on, [n] left: the address reached and
    the RIPAS seen. *)
Fixpoint get_ripas_loop s2_ctx (ll_table : list Z) (level start end_ : Z) (n : nat) (index addr : Z) (res : ripas)
    : option (Z * ripas) :=
  match n with
  | O => Some (addr, res)
  | S n' =>
      s2tte ← s2tte_read ll_table index;
      if negb (s2tte_has_ripas s2_ctx s2tte level) then Some (addr, res) else
      tmp ← s2tte_get_ripas s2_ctx s2tte;
      if negb (addr =? start) && negb (bool_decide (tmp = res)) then Some (addr, res)
      else
        let res := if addr =? start then tmp else res in
        let addr := add64 addr (s2tte_map_size level) in
        if end_ <=? addr then Some (addr, res)
        else get_ripas_loop s2_ctx ll_table level start end_ n' (index + 1) addr res
  end.

(** [s2_ctx] is [rec->realm_info.primary_s2_ctx]; [None] is WALK_FAIL. *)
Definition realm_ipa_get_ripas r s2_ctx (start end_ : Z) : H (option (Z * ripas)) :=
  _ <-! guard (GRANULE_ALIGNED start && GRANULE_ALIGNED end_) ;;
  _ <-! guard (addr_in_rec_par r start && addr_in_rec_par r (sub64 end_ 1)) ;;
  _ <-! h_granule_lock (g_rtt s2_ctx) GRANULE_STATE_RTT ;;
  wi <-! on_mem (s2tt_walk_lock_unlock s2_ctx start S2TT_PAGE_LEVEL) ;;
  ll_table <-! map_table (g_llt wi) ;;
  let map_size := s2tte_map_size (last_level wi) in
  let start := Z.land start (not64 (sub64 map_size 1)) in
  x <-! lift (get_ripas_loop s2_ctx ll_table (last_level wi) start end_
                (Z.to_nat (S2TTES_PER_S2TT - index wi)) (index wi) start RIPAS_EMPTY) ;;
  _ <-! h_granule_unlock (g_llt wi) ;;
  ret (if fst x =? start then None else Some x).

Definition handle_rsi_ipa_state_get r s2_ctx (res : rsi_result) : H rsi_result :=
  start <-! lift (regs (plane_0 r) !! 1%nat) ;;
  end_ <-! lift (regs (plane_0 r) !! 2%nat) ;;
  _ <-! guard (rec_is_plane_0_active r) ;;
  let res := set_action UPDATE_REC_RETURN_TO_REALM res in
  if negb (GRANULE_ALIGNED start) || negb (addr_in_rec_par r start) || negb (GRANULE_ALIGNED end_)
     || negb (addr_in_rec_par r (sub64 end_ 1)) || (end_ <=? start)
  then ret (set_res0 RSI_ERROR_INPUT res)
  else
    ws <-! realm_ipa_get_ripas r s2_ctx start end_ ;;
    match ws with
    | Some (top, ripas_val) =>
        ret (RsiResult (action res) (<[2%nat := ripas_code ripas_val]>
               (<[1%nat := if end_ <? top then end_ else top]> (<[0%nat := RSI_SUCCESS]> (smc_res res)))))
    | None => ret (set_res0 RSI_ERROR_INPUT res)
    end.

End Model.

Section Correct.
Context `{feat : ArchFeatures} `{lookup : GranuleLookup}.
Implicit Types (w : rmm) (F : forest) (rd : rd) (ctx : s2tt_context) (T : tree).

(** All addresses of a range have RIPAS [v]. *)
Definition range_ripas ctx (m : mem) (lo hi : Z) (v : ripas) : Prop :=
  forall a, lo <= a < hi -> 0 <= a < 2 ^ ipa_bits ctx ->
    exists k out attrs, translate ctx m a = Some (k, out, attrs) /\ kind_ripas k = Some v.

(** Why the answer ends at [top]. *)
Definition get_stops w ctx (gp l start end_ top : Z) (v : ripas) : Prop :=
  end_ <= top \/ S2TTES_PER_S2TT * s2tte_map_size l <= s2_addr_to_idx start l * s2tte_map_size l + (top - start) \/
  exists e, entry_at w gp top l e /\ has_this_ripas ctx e l v = Some false.

Lemma get_loop_ok w F g rd ctx lpa2 T gp l start end_ tp n :
  ctx_ok ctx lpa2 -> inv w F -> owns w g PRIMARY_S2_CTX_ID rd ctx T -> -1 <= l <= 3 -> 0 <= start < 2 ^ ipa_bits ctx ->
  (s2tte_map_size l | start) -> end_ <= 2 ^ ipa_bits ctx -> visits ctx (r_mem w) start gp l -> tables (r_mem w) !! gp = Some tp ->
  forall j v, 0 <= j -> s2_addr_to_idx start l + j + Z.of_nat n = S2TTES_PER_S2TT ->
  start + j * s2tte_map_size l < end_ -> (0 < j -> range_ripas ctx (r_mem w) start (start + j * s2tte_map_size l) v) ->
  exists top v', get_ripas_loop ctx tp l start end_ n (s2_addr_to_idx start l + j) (start + j * s2tte_map_size l) v = Some (top, v') /\
    (top = start \/ start + s2tte_map_size l <= top) /\ (start < top -> range_ripas ctx (r_mem w) start top v' /\ get_stops w ctx gp l start end_ top v') /\
    (top = start -> (0 < n)%nat -> exists e, entry_at w gp start l e /\ s2tte_has_ripas ctx e l = false).
Proof.
  intros Hc Hinv Hown Hlv Hs Hal Hend Hvis Htp. pose proof Hc as [Hl Hbits _ _ _]. pose proof (own_tree _ _ _ _ _ _ Hown) as HT.
  assert (H52 : 2 ^ ipa_bits ctx <= 2 ^ 52) by (apply Z.pow_le_mono_r; destruct lpa2; lia).
  assert (Hms : 0 < s2tte_map_size l <= 2 ^ 48)
    by (rewrite s2tte_map_size_eq by done; split; [apply Z.pow_pos_nonneg; lia|apply Z.pow_le_mono_r; lia]).
  induction n as [|n IH]; intros j v Hj Hidx Hlt Hseen; cbn [get_ripas_loop]; set (addr := start + j * s2tte_map_size l) in *;
    assert (Hge : addr = start \/ start + s2tte_map_size l <= addr) by (unfold addr; destruct (decide (j = 0)) as [->|]; [left; lia|right; nia]).
  { exists addr, v. split; [done|]. split; [done|]. split; [|lia]. intros Hne. split; [apply Hseen; unfold addr in *; nia|]. right. left. unfold addr. nia. }
  unfold S2TTES_PER_S2TT in Hidx.
  destruct (nth_entry ctx lpa2 (r_mem w) T start gp l j Hc HT Hs Hal Hvis Hj ltac:(lia) ltac:(unfold addr in *; lia)) as (Hv2 & Hix & Hda).
  fold addr in Hv2, Hix, Hda. rewrite <- Hix. assert (Had : 0 <= addr < 2 ^ ipa_bits ctx) by lia.
  destruct (visits_tree _ _ _ _ _ _ _ Hc HT Had Hv2) as [Hgp _].
  destruct (tree_table_at _ _ _ _ _ HT Hgp) as (tp2 & Htp2 & Hltp & _ & _ & Hok). assert (tp2 = tp) as -> by congruence.
  destruct (arr_get_some tp (s2_addr_to_idx addr l)) as [e He];
    [rewrite Hltp; unfold N_S2TTES; pose proof (s2_addr_to_idx_range addr l); lia|].
  unfold s2tte_read. rewrite He. cbn [mbind option_bind]. assert (Hat : entry_at w gp addr l e) by (by exists tp).
  pose proof (Hok _ _ He) as Heok. destruct (entry_ripas ctx lpa2 l e v Hl Hlv Heok) as (k & Hk & Hr).
  unfold has_this_ripas in Hr. destruct (s2tte_has_ripas ctx e l) eqn:Hh; cbn [negb].
  2: { exists addr, v. split; [done|]. split; [done|]. split.
       - intros Hne. split; [apply Hseen; unfold addr in *; nia|]. right. right. exists e. split; [done|]. unfold has_this_ripas. by rewrite Hh.
       - intros Heq _. exists e. by rewrite <- Heq. }
  destruct (s2tte_get_ripas ctx e) as [tmp|] eqn:Hg; [|done]. cbn [mbind option_bind] in *.
  destruct (negb (addr =? start) && negb (bool_decide (tmp = v))) eqn:Hstop.
  { apply andb_true_iff in Hstop as [H1%negb_true_iff%Z.eqb_neq H2%negb_true_iff%bool_decide_eq_false].
    exists addr, v. split; [done|]. split; [done|]. split; [|lia]. intros _. split; [apply Hseen; unfold addr in *; nia|]. right. right. exists e. split; [done|].
    unfold has_this_ripas. rewrite Hh, Hg. cbn. f_equal. by apply bool_decide_eq_false. }
  assert (add64 addr (s2tte_map_size l) = addr + s2tte_map_size l) as -> by (unfold add64; apply u64_small; unfold in_u64; lia).
  set (v1 := if addr =? start then tmp else v).
  assert (Hv1 : v1 = tmp).
  { unfold v1. destruct (addr =? start); [done|]. cbn in Hstop. apply negb_false_iff, bool_decide_eq_true in Hstop. done. }
  assert (Hnew : range_ripas ctx (r_mem w) start (addr + s2tte_map_size l) v1).
  { intros a Ha Har. destruct (decide (a < addr)) as [Hb|Hb].
    - assert (v1 = v) as -> by (unfold v1; by rewrite (proj2 (Z.eqb_neq addr start)) by lia). apply Hseen; try done; unfold addr in *; nia.
    - eapply (ripas_translate w F g rd ctx lpa2 T gp l addr e tp v1 a); try done.
      + unfold has_this_ripas. rewrite Hh, Hg. cbn. f_equal. by apply bool_decide_eq_true.
      + apply same_block; try done; lia. }
  assert (Hnext : addr + s2tte_map_size l = start + (j + 1) * s2tte_map_size l) by (unfold addr; lia).
  destruct (Z.leb_spec end_ (addr + s2tte_map_size l)) as [Hdone|Hmore].
  - exists (addr + s2tte_map_size l), v1. split; [done|]. split; [right; lia|]. split; [|lia]. intros _. split; [done|by left].
  - rewrite Hnext in *. replace (s2_addr_to_idx addr l + 1) with (s2_addr_to_idx start l + (j + 1)) by lia.
    destruct (IH (j + 1) v1 ltac:(lia) ltac:(unfold S2TTES_PER_S2TT; lia) ltac:(lia) ltac:(done)) as (top & v' & Hrun & Htop & H1 & H2).
    exists top, v'. split; [done|]. split; [done|]. split; [done|]. intros Heq _. destruct n as [|n].
    + cbn in Hrun. injection Hrun as Hrun _. lia.
    + apply H2; [done|lia].
Qed.

Lemma round_to_entry base l : -1 <= l <= 3 -> in_u64 base ->
  let ms := s2tte_map_size l in
  Z.land base (not64 (sub64 ms 1)) = base / ms * ms /\ base / ms * ms <= base < base / ms * ms + ms.
Proof.
  intros Hl Hb ms. assert (Hms : 0 < ms) by (unfold ms; rewrite s2tte_map_size_eq by done; apply Z.pow_pos_nonneg; lia).
  pose proof (Z.div_mod base ms ltac:(lia)). pose proof (Z.mod_pos_bound base ms Hms). split; [|lia].
  unfold ms in *. rewrite s2tte_map_size_eq in * by done. pose proof (round_down_spec base ((3 - l) * 9 + 12) Hb ltac:(lia)) as Hx.
  unfold round_down in Hx. rewrite Hx. lia.
Qed.

(** The helper: it changes nothing, and its answer holds of all addresses up to the
    end of the last entry it looked at. *)
Lemma get_ripas_ok w F g rd ctx lpa2 bits sl T r start end_ :
  inv w F -> F !! (g, PRIMARY_S2_CTX_ID) = Some T -> owns w g PRIMARY_S2_CTX_ID rd ctx T -> rd_ok rd lpa2 bits sl ->
  rec_ipa_size r = 2 ^ bits -> GRANULE_ALIGNED start = true -> GRANULE_ALIGNED end_ = true ->
  addr_in_rec_par r start = true -> addr_in_rec_par r (sub64 end_ 1) = true -> 0 <= start < end_ -> end_ < 2 ^ 64 ->
  runs (realm_ipa_get_ripas r ctx start end_) w (fun out w' => w' = w /\ exists gp l, visits ctx (r_mem w) start gp l /\
    match out with
    | Some (top, v) => start < top /\ range_ripas ctx (r_mem w) start top v /\
        get_stops w ctx gp l (start / s2tte_map_size l * s2tte_map_size l) end_ top v
    | None => exists e, entry_at w gp start l e /\ s2tte_has_ripas ctx e l = false
    end).
Proof.
  intros Hinv HF Hown Hrd Hsz Ha1 Ha2 Hp1 Hp2 Hse He64. unfold realm_ipa_get_ripas.
  apply runs_bind, runs_guard; [by rewrite Ha1, Ha2|]. apply runs_bind, runs_guard; [by rewrite Hp1, Hp2|].
  pose proof Hown as [_ _ Hcx _ _]. pose proof (num_planes_eq _ _ _ _ Hrd) as [_ Hnp].
  destruct (rd_ctx_ok _ _ _ _ Hrd 0 ctx ltac:(lia) Hcx) as (Hc & Hbits & Hsl & _). pose proof Hc as [Hl Hbb Hs _ _].
  destruct (rd_sizes _ _ _ _ Hrd) as (Hb & _).
  assert (Hpos : 0 < 2 ^ bits) by (apply Z.pow_pos_nonneg; lia).
  assert (Hend : end_ <= 2 ^ ipa_bits ctx).
  { unfold addr_in_rec_par, rec_par_size in Hp2. rewrite Hsz, Z.shiftr_div_pow2 in Hp2 by lia. change (2 ^ 1) with 2 in Hp2.
    unfold sub64 in Hp2. rewrite u64_small in Hp2 by (unfold in_u64; lia). rewrite Hbits. apply Z.ltb_lt in Hp2.
    pose proof (Z.div_lt (2 ^ bits) 2). lia. }
  assert (H52 : 2 ^ ipa_bits ctx <= 2 ^ 52) by (apply Z.pow_le_mono_r; destruct lpa2; lia).
  pose proof (own_tree _ _ _ _ _ _ Hown) as HT. pose proof (rtt_inv_tree _ _ _ HT) as Htr.
  assert (Hr0 : T !! g_rtt ctx = Some (s2_starting_level ctx)) by (by destruct (ri_roots _ _ _ HT) as (ra & _ & _ & H & _)).
  apply runs_bind. eapply runs_on_mem; [eapply lock_table; [exact Htr|exact Hr0]|].
  assert (Had : 0 <= start < 2 ^ ipa_bits ctx) by lia.
  destruct (walk_ok ctx (r_mem w) T start S2TT_PAGE_LEVEL lpa2 Hc Htr (ri_roots _ _ _ HT) Had ltac:(unfold S2TT_PAGE_LEVEL; lia))
    as (root & wi & Hw & Hroot & Hpw & Hidx & Hir & HgT & Hll & Hstop).
  apply runs_bind. eapply runs_on_mem; [exact Hw|]. rewrite with_mem_mem.
  destruct (walked_visits w ctx T start S2TT_PAGE_LEVEL wi ltac:(split; try done; by exists root) ltac:(done)) as [Hvis _].
  set (gp := g_llt wi) in *. set (l := last_level wi) in *. unfold S2TT_PAGE_LEVEL in Hll.
  assert (Hlv : -1 <= l <= 3) by (destruct lpa2; lia).
  destruct (tree_table_at _ _ _ _ _ HT HgT) as (tp & Htp & _). eapply runs_bind, runs_get; [exact Htp|].
  destruct (round_to_entry start l Hlv ltac:(unfold in_u64; lia)) as [-> Hq]. set (q := start / s2tte_map_size l * s2tte_map_size l) in *.
  assert (Hms : 0 < s2tte_map_size l) by lia.
  assert (Hq0 : 0 <= q) by (unfold q; pose proof (Z.div_pos start (s2tte_map_size l)); nia).
  assert (Hqd : (s2tte_map_size l | q)) by apply Z.divide_factor_r.
  assert (Hblk : q / s2tte_map_size l = start / s2tte_map_size l) by (unfold q; apply Z.div_mul; lia).
  destruct (same_entry_inv q start l Hlv ltac:(lia) ltac:(lia) Hblk) as [Hspan Hix].
  assert (Hvq : visits ctx (r_mem w) q gp l) by (eapply (visits_same ctx lpa2 (r_mem w) T q start gp l); try done; lia).
  destruct (get_loop_ok w F g rd ctx lpa2 T gp l q end_ tp (Z.to_nat (S2TTES_PER_S2TT - index wi)) Hc Hinv Hown Hlv ltac:(lia) Hqd Hend Hvq Htp
    0 RIPAS_EMPTY ltac:(lia) ltac:(rewrite Hix, <- Hidx; lia) ltac:(lia) ltac:(lia)) as (top & v & Hrun & Htop & Hrange & Hnone).
  rewrite Z.mul_0_l, !Z.add_0_r, Hix, <- Hidx in Hrun. eapply runs_bind, runs_lift; [exact Hrun|].
  apply runs_bind. eapply runs_on_mem; [eapply unlock_table; [exact Htr|exact HgT]|]. rewrite with_mem_mem, with_mem_id.
  apply runs_ret. split; [done|]. exists gp, l. split; [done|]. cbn [fst]. destruct (Z.eqb_spec top q) as [->|Hne].
  - destruct (Hnone eq_refl ltac:(lia)) as (e & (t & Ht & He) & Hh). exists e. split; [|done]. exists t. by rewrite <- Hix.
  - destruct (Hrange ltac:(lia)) as [Hr Hst]. split.
    + destruct Htop as [|Htop]; [done|lia].
    + split; [|exact Hst]. intros a Ha. apply Hr. lia.
Qed.

(** C11: a realm that asks for the RIPAS of a range gets an answer, the RMM releases
    its locks and changes nothing.  The range is refused when it is empty, unaligned
    or not protected, or when the entry of its first address has no RIPAS.  Otherwise
    X1 is above the first address and not above the last, every address below X1
    has the RIPAS of X2, and the answer ends at the end of the range or of the table,
    or at an entry with another RIPAS or none. *)
Theorem rsi_ipa_state_get_exact w F g rd ctx T r start end_ res :
  inv w F -> F !! (g, PRIMARY_S2_CTX_ID) = Some T -> owns w g PRIMARY_S2_CTX_ID rd ctx T ->
  realm_ipa_size rd = Some (rec_ipa_size r) -> rec_is_plane_0_active r = true ->
  regs (plane_0 r) !! 1%nat = Some start -> regs (plane_0 r) !! 2%nat = Some end_ -> in_u64 start -> in_u64 end_ ->
  (3 <= length (smc_res res))%nat ->
  runs (handle_rsi_ipa_state_get r ctx res) w (fun out w' =>
    w' = w /\ action out = UPDATE_REC_RETURN_TO_REALM /\
    ((smc_res out !! 0%nat = Some RSI_ERROR_INPUT /\
      (end_ <= start \/ ~ (GRANULE_SIZE | start) \/ ~ (GRANULE_SIZE | end_) \/ rec_par_size r < end_ \/
       exists gp l e, visits ctx (r_mem w) start gp l /\ entry_at w gp start l e /\ s2tte_has_ripas ctx e l = false)) \/
     (smc_res out !! 0%nat = Some RSI_SUCCESS /\ exists top v gp l,
        smc_res out !! 1%nat = Some top /\ smc_res out !! 2%nat = Some (ripas_code v) /\ start < top <= end_ /\
        (forall a, start <= a < top -> exists k o attrs, translate ctx (r_mem w) a = Some (k, o, attrs) /\ kind_ripas k = Some v) /\
        visits ctx (r_mem w) start gp l /\
        (top = end_ \/ get_stops w ctx gp l (start / s2tte_map_size l * s2tte_map_size l) end_ top v)))).
Proof.
  intros Hinv HF Hown Hsz Hpl Hr1 Hr2 H1 H2 Hlen. pose proof Hown as [_ _ Hcx (lpa2 & bits & sl & Hrd) _].
  destruct (rd_sizes _ _ _ _ Hrd) as (Hb & Hsz2 & _). assert (Hrs : rec_ipa_size r = 2 ^ bits) by congruence.
  pose proof (num_planes_eq _ _ _ _ Hrd) as [_ Hnp]. destruct (rd_ctx_ok _ _ _ _ Hrd 0 ctx ltac:(lia) Hcx) as (_ & Hbits & _).
  unfold in_u64 in H1, H2. unfold handle_rsi_ipa_state_get. eapply runs_bind, runs_lift; [exact Hr1|]. eapply runs_bind, runs_lift; [exact Hr2|].
  apply runs_bind, runs_guard; [done|].
  destruct (smc_res res) as [|x0 [|x1 [|x2 rest]]] eqn:Hres; cbn in Hlen; try lia.
  assert (Hsub : 0 < end_ -> sub64 end_ 1 = end_ - 1) by (intros Hp; unfold sub64; apply u64_small; unfold in_u64; lia).
  destruct (_ || (end_ <=? start)) eqn:Hargs.
  { apply runs_ret. split; [done|]. split; [done|]. left. split; [cbn; by rewrite Hres|].
    destruct (Z.leb_spec end_ start) as [|Hlt]; [by left|]. rewrite orb_false_r in Hargs. right. rewrite Hsub in Hargs by lia.
    destruct (GRANULE_ALIGNED start) eqn:Ha1; [|left; intros Hd%GRANULE_ALIGNED_spec; congruence].
    destruct (GRANULE_ALIGNED end_) eqn:Ha2; [|right; left; intros Hd%GRANULE_ALIGNED_spec; congruence].
    right. right. left. unfold addr_in_rec_par in Hargs. lia. }
  assert (Hok : GRANULE_ALIGNED start = true /\ GRANULE_ALIGNED end_ = true /\ addr_in_rec_par r start = true /\
    addr_in_rec_par r (sub64 end_ 1) = true /\ start < end_).
  { rewrite !orb_false_iff, !negb_false_iff in Hargs. destruct Hargs as ((((? & ?) & ?) & ?) & Hlt%Z.leb_gt). by split_and!. }
  destruct Hok as (Ha1 & Ha2 & Hp1 & Hp2 & Hlt). apply runs_bind.
  eapply runs_mono; [eapply (get_ripas_ok w F g rd ctx lpa2 bits sl T r start end_); try done; lia|].
  intros out w' (-> & gp & l & Hvis & Hout). assert (Hpos : 0 < 2 ^ bits) by (apply Z.pow_pos_nonneg; lia).
  destruct out as [[top v]|].
  - destruct Hout as (Htop & Hrange & Hst). apply runs_ret. split; [done|]. split; [done|]. right. cbn. rewrite Hres. split; [done|].
    assert (Hend : end_ <= 2 ^ ipa_bits ctx).
    { unfold addr_in_rec_par, rec_par_size in Hp2. rewrite Hrs, Hsub, Z.shiftr_div_pow2 in Hp2 by lia. change (2 ^ 1) with 2 in Hp2.
      rewrite Hbits. apply Z.ltb_lt in Hp2. pose proof (Z.div_lt (2 ^ bits) 2). lia. }
    destruct (Z.ltb_spec end_ top) as [Hc|Hc]; [exists end_, v, gp, l|exists top, v, gp, l]; (split; [done|]); (split; [done|]); (split; [lia|]);
      (split; [intros a Ha; apply Hrange; lia|]); (split; [done|]); [by left|by right].
  - apply runs_ret. split; [done|]. split; [done|]. left. cbn. rewrite Hres. split; [done|]. destruct Hout as (e & He & Hh).
    do 4 right. by exists gp, l, e.
Qed.

End Correct.
