(* ===== verification/RttIsolation.v ===== *)
(** * Realm memory: who maps which page

    What the trees of all realms map, page by page, as one abstract relation, and
    how a command may change it.  The invariant on it: a page of realm memory is
    a granule in DATA state, and belongs to one address of one realm. *)

From Stdlib Require Import ZArith Lia Bool ZifyBool.
From stdpp Require Import base tactics option list numbers gmap.
From S2P Require Import Prelude.
From S2P Require Import Utils.
From S2P Require Import Status.
From S2P Require Import Granule.
From S2P Require Import Mem.
From S2P Require Import Arch.
From S2P Require Import S2tte.
From S2P Require Import S2tteProps.
From S2P Require Import S2ttTable.
From S2P Require Import S2ttWalk.
From S2P Require Import Realm.
From S2P Require Import RttTree.
From S2P Require Import Rmm.
From S2P Require Import RttCmds.
From S2P Require Import RttInv.
From S2P Require Import RttPath.
From S2P Require Import RttCreate.
From S2P Require Import RttUnlink.
From S2P Require Import RttData.
From S2P Require Import RttRange.

(** Entries that refer to a realm's own memory. *)
Definition kind_data (k : s2tte_kind) : bool :=
  match k with K_assigned_empty | K_assigned_ram | K_assigned_destroyed => true | _ => false end.

Section Maps.
Context `{feat : ArchFeatures} `{lookup : GranuleLookup}.
Implicit Types (w : rmm) (F : forest) (rd : rd) (ctx : s2tt_context) (T : tree).

(** Tree [i] of realm [g] assigns physical page [o] to IPA page [p]. *)
Definition maps w F (g i p o : Z) : Prop :=
  exists T rd ctx a k out attrs, F !! (g, i) = Some T /\ owns w g i rd ctx T /\
    0 <= a < 2 ^ ipa_bits ctx /\ a / GRANULE_SIZE = p /\
    translate ctx (r_mem w) a = Some (k, out, attrs) /\ kind_data k = true /\ out / GRANULE_SIZE = o.

(** Page [o] is named by granule [x], in [state] and unlocked. *)
Definition page_in w (o x state : Z) : Prop :=
  tr_addr_to_granule (o * GRANULE_SIZE) = Some x /\ granule_at (r_mem w) x (AGranule false state 0).

Record data_inv w F : Prop := {
  di_state : forall g i p o, maps w F g i p o -> exists x, page_in w o x GRANULE_STATE_DATA;
  di_unique : forall g1 i1 p1 g2 i2 p2 o, maps w F g1 i1 p1 o -> maps w F g2 i2 p2 o -> g1 = g2 /\ p1 = p2
}.

(** The granules of realm memory, with their contents, are untouched. *)
Definition data_kept w w' : Prop :=
  forall x, granule_at (r_mem w) x (AGranule false GRANULE_STATE_DATA 0) ->
    granule_at (r_mem w') x (AGranule false GRANULE_STATE_DATA 0) /\ tables (r_mem w') !! x = tables (r_mem w) !! x.

(** How a command may change the mappings: some disappear, and at most one
    appears, to a granule the host had delegated. *)
Record mapping_step w w' F F' (fresh : option (Z * Z * Z * Z)) : Prop := {
  ms_inv : inv w' F';
  ms_data : data_kept w w';
  ms_maps : forall g i p o, maps w' F' g i p o -> maps w F g i p o \/ fresh = Some (g, i, p, o);
  ms_fresh : forall g i p o, fresh = Some (g, i, p, o) ->
    exists x, page_in w o x GRANULE_STATE_DELEGATED /\ page_in w' o x GRANULE_STATE_DATA
}.

Lemma data_inv_step w w' F F' fresh : data_inv w F -> mapping_step w w' F F' fresh -> data_inv w' F'.
Proof.
  intros [Hst Huq] [_ Hk Hm Hfr].
  assert (Hclash : forall g i p g' i' p' o, maps w F g i p o -> fresh = Some (g', i', p', o) -> False).
  { intros g i p g' i' p' o Hold Hnew. destruct (Hst _ _ _ _ Hold) as (x & Hx & Hd).
    destruct (Hfr _ _ _ _ Hnew) as (y & [Hy Hdel] & _). assert (y = x) as -> by congruence.
    by pose proof (granule_at_inj _ _ _ _ Hd Hdel). }
  split.
  - intros g i p o [Hold|Hnew]%Hm.
    + destruct (Hst _ _ _ _ Hold) as (x & Hx & Hd). exists x. split; [done|]. by apply Hk.
    + destruct (Hfr _ _ _ _ Hnew) as (x & _ & Hx). by exists x.
  - intros g1 i1 p1 g2 i2 p2 o [H1|H1]%Hm [H2|H2]%Hm; [by eapply Huq|by destruct (Hclash _ _ _ _ _ _ _ H1 H2)
      |by destruct (Hclash _ _ _ _ _ _ _ H2 H1)|]. rewrite H1 in H2. by injection H2.
Qed.

Lemma step_none w F : inv w F -> mapping_step w w F F None.
Proof. intros Hinv. split; try done. by left. Qed.

Lemma data_kept_trans w1 w2 w3 : data_kept w1 w2 -> data_kept w2 w3 -> data_kept w1 w3.
Proof. intros H1 H2 x Hx. destruct (H1 x Hx) as [Hx2 <-]. by apply H2. Qed.

(** Realm and context are determined by the descriptors. *)
Lemma owns_same w w' F F' g i rd ctx T T' :
  inv w F -> r_rds w' = r_rds w -> owns w' g i rd ctx T' -> F !! (g, i) = Some T -> owns w g i rd ctx T.
Proof.
  intros Hinv Hr [H1 H2 H3 H4 H5] HF. destruct (inv_own _ _ Hinv _ _ _ HF) as (rd0 & ctx0 & [O1 O2 O3 O4 O5]).
  rewrite Hr in H1. assert (rd0 = rd) as -> by congruence. assert (ctx0 = ctx) as -> by congruence. by split.
Qed.

(** Every realm memory mapping after the command was there before, when no
    address gains one. *)
Lemma maps_shrink w w' F F' :
  inv w F -> r_rds w' = r_rds w -> (forall k, is_Some (F' !! k) -> is_Some (F !! k)) ->
  (forall g i T rd ctx a k out attrs, F !! (g, i) = Some T -> owns w g i rd ctx T -> 0 <= a < 2 ^ ipa_bits ctx ->
     translate ctx (r_mem w') a = Some (k, out, attrs) -> kind_data k = true ->
     exists k0 attrs0, translate ctx (r_mem w) a = Some (k0, out, attrs0) /\ kind_data k0 = true) ->
  forall g i p o, maps w' F' g i p o -> maps w F g i p o.
Proof.
  intros Hinv Hr HF Htr g i p o (T' & rd & ctx & a & k & out & attrs & HT' & Hown & Ha & Hp & Ht & Hk & Ho).
  destruct (HF (g, i) ltac:(by eexists)) as [T HT]. pose proof (owns_same w w' F F' _ _ _ _ _ _ Hinv Hr Hown HT) as Hown0.
  destruct (Htr _ _ _ _ _ _ _ _ _ HT Hown0 Ha Ht Hk) as (k0 & attrs0 & Ht0 & Hk0).
  exists T, rd, ctx, a, k0, out, attrs0. split_and!; try done; lia.
Qed.

(** A granule outside the two that changed keeps its state and contents. *)
Lemma data_kept_frame w w' gp gc :
  (forall x, x <> gp -> x <> gc ->
     descs (r_mem w') !! x = descs (r_mem w) !! x /\ tables (r_mem w') !! x = tables (r_mem w) !! x) ->
  (exists a, granule_at (r_mem w) gp a /\ a_state a <> GRANULE_STATE_DATA) ->
  (exists a, granule_at (r_mem w) gc a /\ a_state a <> GRANULE_STATE_DATA) -> data_kept w w'.
Proof.
  intros Hfr (ap & Hp & Hsp) (ac & Hc & Hsc) x Hx.
  assert (Hne : forall g a, granule_at (r_mem w) g a -> a_state a <> GRANULE_STATE_DATA -> x <> g)
    by (intros g a Hg Hs ->; by rewrite (granule_at_inj _ _ _ _ Hg Hx) in Hs).
  destruct (Hfr x (Hne _ _ Hp Hsp) (Hne _ _ Hc Hsc)) as [Hd Ht]. split; [|done]. by eapply granule_at_descs.
Qed.

Lemma table_not_data ctx m T g l :
  rtt_inv ctx m T -> T !! g = Some l -> exists a, granule_at m g a /\ a_state a <> GRANULE_STATE_DATA.
Proof. intros HT Hg. destruct (tree_table_at _ _ _ _ _ HT Hg) as (tp & _ & _ & _ & Hp & _). by eexists. Qed.

(** Replacing the tree of a realm adds no tree. *)
Lemma forest_replace F k T T' k' : F !! k = Some T -> is_Some (<[k := T']> F !! k') -> is_Some (F !! k').
Proof. intros HF [T2 [[<- _]|[_ H]]%lookup_insert_Some]; by eexists. Qed.

(** ** The commands *)

Lemma restructured_step w w' F g i T T' gp gc :
  inv w F -> F !! (g, i) = Some T -> restructured w w' F (<[(g, i) := T']> F) gp gc ->
  (exists a, granule_at (r_mem w) gp a /\ a_state a <> GRANULE_STATE_DATA) ->
  (exists a, granule_at (r_mem w) gc a /\ a_state a <> GRANULE_STATE_DATA) ->
  mapping_step w w' F (<[(g, i) := T']> F) None.
Proof.
  intros Hinv HF [H1 H2 _ H4 H5] Hp Hc. split; try done; [by eapply data_kept_frame|].
  intros g0 i0 p o Hm. left. eapply (maps_shrink w w' F); [done|done| | |exact Hm]; [intros k Hk; by eapply forest_replace|].
  intros g1 i1 T1 rd1 ctx1 a k out attrs HT1 Hown1 Ha Ht Hk. exists k, attrs. split; [|done]. rewrite <- Ht. symmetry. by eapply H5.
Qed.

Lemma create_step w w' F g i rd ctx T gp lp j gc rtt_addr addr :
  inv w F -> F !! (g, i) = Some T -> owns w g i rd ctx T -> created w w' rd ctx T gp lp j gc rtt_addr addr ->
  mapping_step w w' F (<[(g, i) := <[gc := lp + 1]> T]> F) None.
Proof.
  intros Hinv HF Hown Hcr. eapply restructured_step; [done|done|by eapply created_restructured| |].
  - eapply table_not_data; [by destruct Hown|by destruct Hcr].
  - eexists. split; [by destruct Hcr|done].
Qed.

Lemma fold_step w w' F g i rd ctx T gp level j gc ra addr k p whole :
  inv w F -> F !! (g, i) = Some T -> owns w g i rd ctx T ->
  unlinked w w' rd ctx T gp (level - 1) j gc ra addr k p whole -> folds ctx (r_mem w) level gc k p ->
  mapping_step w w' F (<[(g, i) := delete gc T]> F) None.
Proof.
  intros Hinv HF Hown Hul Hf. pose proof (own_tree _ _ _ _ _ _ Hown) as HT.
  eapply restructured_step; [done|done|by eapply folded_restructured| |].
  - eapply table_not_data; [done|by destruct Hul].
  - eapply table_not_data; [done|by eapply unlinked_child].
Qed.

Lemma destroy_step w w' F g i rd ctx T gp lp j gc ra addr in_par p whole tc :
  inv w F -> F !! (g, i) = Some T -> owns w g i rd ctx T -> 0 <= addr < 2 ^ ipa_bits ctx ->
  unlinked w w' rd ctx T gp lp j gc ra addr (destroyed_kind in_par) p whole ->
  tables (r_mem w) !! gc = Some tc -> table_refs ctx (lp + 1) tc = 0 ->
  mapping_step w w' F (<[(g, i) := delete gc T]> F) None.
Proof.
  intros Hinv HF Hown Had Hul Htc Hz. pose proof (own_tree _ _ _ _ _ _ Hown) as HT.
  destruct (owns_ctx_ok _ _ _ _ _ _ Hown) as [lpa2 Hctx].
  assert (Hch : childless ctx (r_mem w) T gc).
  { replace lp with (lp + 1 - 1) in Hul by lia. by eapply destroyed_childless. }
  pose proof (unlinked_mem _ _ _ _ _ _ _ _ _ _ _ _ _ _ Hul) as (Hrds & _ & Hfr). split; try done.
  - by eapply unlinked_inv.
  - eapply data_kept_frame; [done|eapply table_not_data; [done|by destruct Hul]|].
    eapply table_not_data; [done|by eapply unlinked_child].
  - intros g0 i0 p0 o Hm. left. eapply (maps_shrink w w' F); [done|done| | |exact Hm]; [intros k Hk; by eapply forest_replace|].
    intros g1 i1 T1 rd1 ctx1 a k out attrs HT1 Hown1 Ha Ht Hk. exists k, attrs. split; [|done].
    destruct (decide ((g1, i1) = (g, i))) as [[= -> ->]|Hn].
    + destruct (owns_unique _ _ _ _ _ _ _ _ _ Hown Hown1) as [-> ->].
      rewrite (destroyed_translate w w' rd ctx lpa2 T gp lp j gc ra addr in_par p whole a) in Ht by done.
      case_decide; [|done]. injection Ht as <- _ _. by destruct in_par.
    + rewrite <- Ht. symmetry. by eapply (unlinked_others w w' F g i rd ctx T).
Qed.

(** A loop that changes kinds, not memory. *)
Lemma relabel_step w w' F g i rd ctx T gp l base addr tr :
  (forall k k', tr k = Some k' -> kind_data k' = true -> kind_data k = true) ->
  inv w F -> F !! (g, i) = Some T -> owns w g i rd ctx T ->
  relabelled w w' F g i rd ctx T gp l base addr tr -> T !! gp = Some l -> mapping_step w w' F F None.
Proof.
  intros Htr Hinv HF Hown [R1 R2 R3 R4 R5 R6 R7 R8 R9 R10 R11] Hgp. split; try done.
  - eapply (data_kept_frame _ _ gp gp); [|eapply table_not_data; [by destruct Hown|done]..].
    intros x Hx _. rewrite R5. split; [done|by apply R6].
  - intros g0 i0 p o Hm. left. eapply (maps_shrink w w' F F); try done.
    intros g1 i1 T1 rd1 ctx1 a k out attrs HT1 Hown1 Ha Ht Hk.
    destruct (decide ((g1, i1) = (g, i))) as [[= -> ->]|Hn].
    + destruct (owns_unique _ _ _ _ _ _ _ _ _ Hown Hown1) as [-> ->]. rewrite R8 in Ht by done.
      case_decide; [|by exists k, attrs]. destruct (translate ctx (r_mem w) a) as [[[k0 out0] [ap at0]]|]; [|done].
      cbn in Ht. destruct (tr k0) as [k'|] eqn:Hk0; [|done]. injection Ht as <- <- _. exists k0, (ap, at0). split; [done|]. by eapply Htr.
    + exists k, attrs. split; [|done]. rewrite <- Ht. symmetry. by eapply R10.
Qed.

Context `{ns : NsMemory}.

Lemma fault_step w w' F data_addr src_addr :
  inv w F -> source_fault w w' data_addr src_addr -> mapping_step w w' F F None.
Proof.
  intros Hinv Hf. pose proof (source_fault_inv _ _ _ _ _ Hinv Hf) as Hinv'.
  pose proof (source_fault_agree _ _ _ _ _ Hinv Hf) as Hag. split; try done.
  - destruct Hf as (gc & old & _ & Hdel & _ & _ & ->). eapply (data_kept_frame _ _ gc gc); try (by eexists).
    intros x Hx _. split; [done|]. cbn. by rewrite lookup_insert_ne.
  - intros g i p o Hm. left. eapply (maps_shrink w w' F F); try done; [by destruct Hf as (? & ? & _ & _ & _ & _ & ->)|].
    intros g1 i1 T1 rd1 ctx1 a k out attrs HT1 Hown1 Ha Ht Hk. exists k, attrs. split; [|done].
    destruct (owns_ctx_ok _ _ _ _ _ _ Hown1) as [lpa2 Hctx]. rewrite <- Ht. symmetry. eapply translate_frame; [done|by destruct Hown1|by eapply Hag|done].
Qed.

Lemma data_step w w' F g rd ctx T gp gc data_addr addr flags data :
  inv w F -> F !! (g, PRIMARY_S2_CTX_ID) = Some T -> owns w g PRIMARY_S2_CTX_ID rd ctx T ->
  data_mapped w w' g ctx T gp gc data_addr addr flags data -> 0 <= addr < 2 ^ ipa_bits ctx ->
  mapping_step w w' F F (Some (g, PRIMARY_S2_CTX_ID, addr / GRANULE_SIZE, data_addr / GRANULE_SIZE)).
Proof.
  intros Hinv HF Hown Hdm Had. pose proof (data_mapped_mem _ _ _ _ _ _ _ _ _ _ _ Hdm) as (Hrds & _ & Hfr & Hdata & _).
  pose proof (data_mapped_inv _ _ _ _ _ _ _ _ _ _ _ _ _ _ Hinv HF Hown Hdm) as Hinv'.
  pose proof Hdm as [Hgp _ _ Hdel Hnm _ _].
  assert (Hal : (GRANULE_SIZE | data_addr)) by (apply GRANULE_ALIGNED_spec; by eapply granule_names_aligned).
  destruct Hal as [q Hq]. assert (Hdiv : data_addr / GRANULE_SIZE = q) by (rewrite Hq; by apply Z.div_mul).
  split; try done.
  - eapply data_kept_frame; [done|eapply table_not_data; [by destruct Hown|done]|by eexists].
  - intros g0 i0 p o (T' & rd0 & ctx0 & a & k & out & attrs & HT' & Hown0 & Ha & Hp & Ht & Hk & Ho).
    pose proof (owns_same w w' F F _ _ _ _ _ _ Hinv Hrds Hown0 HT') as Hold.
    assert (Hkeep : translate ctx0 (r_mem w') a = translate ctx0 (r_mem w) a -> maps w F g0 i0 p o).
    { intros Heq. exists T', rd0, ctx0, a, k, out, attrs. rewrite <- Heq. split_and!; try done; lia. }
    destruct (decide ((g0, i0) = (g, PRIMARY_S2_CTX_ID))) as [[= -> ->]|Hn].
    + destruct (owns_unique _ _ _ _ _ _ _ _ _ Hown Hold) as [-> ->].
      destruct (data_mapped_translate _ _ _ _ _ _ _ _ _ _ _ _ _ a Hinv HF Hown Hdm Had Ha) as (k0 & e & Hk0 & Hcase).
      case_decide as Hd; [|left; by apply Hkeep]. destruct Hcase as [_ Hnew]. right. rewrite Hnew in Ht. injection Ht as <- <- _.
      rewrite <- Hd, Hp, Hdiv. do 2 f_equal. rewrite <- Ho, Hq. change GRANULE_SIZE with 4096. 
      rewrite Z.div_add_l, Z.div_small by (try lia; by apply Z.mod_pos_bound). lia.
    + left. apply Hkeep. by eapply (data_mapped_others w w' F g rd ctx T).
  - intros g0 i0 p o [= <- <- <- <-]. exists gc. unfold page_in. rewrite Hdiv, <- Hq. by split_and!.
Qed.

End Maps.
