(* ===== verification/UnmapInv.v ===== *)
(** * A leaf table changes

    The invariant of all trees and the translations when one table gets new leaf
    entries at once and realm memory is given back. *)

From Stdlib Require Import ZArith Lia Bool ZifyBool.
From stdpp Require Import base tactics option list numbers gmap.
From S2P Require Import Prelude.
From S2P Require Import Utils.
From S2P Require Import Granule.
From S2P Require Import Mem.
From S2P Require Import Arch.
From S2P Require Import S2tte.
From S2P Require Import S2tteFacts.
From S2P Require Import S2tteProps.
From S2P Require Import S2ttTable.
From S2P Require Import S2ttWalk.
From S2P Require Import Realm.
From S2P Require Import RttTree.
From S2P Require Import Rmm.
From S2P Require Import RttInv.
From S2P Require Import RttPath.
From S2P Require Import RttCreate.
From S2P Require Import RttRange.

Section Leaf.
Context `{feat : ArchFeatures} `{lookup : GranuleLookup}.
Implicit Types (w : rmm) (F : forest) (rd : rd) (ctx : s2tt_context) (T : tree) (m : mem) (t : list Z).

(** [t'] differs from [t] in leaf entries only. *)
Definition leaves_only (lp : Z) t t' : Prop :=
  length t' = length t /\ (lp < S2TT_PAGE_LEVEL -> forall j e e', arr_get t j = Some e -> arr_get t' j = Some e' ->
    e' = e \/ (entry_is_table e = false /\ entry_is_table e' = false)).

Lemma leaves_only_sym lp t t' : leaves_only lp t t' -> leaves_only lp t' t.
Proof.
  intros [H1 H2]. split; [done|]. intros Hlp j e e' He He'. destruct (H2 Hlp j e' e He' He) as [->|[? ?]]; auto.
Qed.

Record leaf_changed ctx m m' T (gp lp : Z) t t' : Prop := {
  lc_level : T !! gp = Some lp;
  lc_old : tables m !! gp = Some t;
  lc_new : tables m' !! gp = Some t';
  lc_leaves : leaves_only lp t t';
  lc_ok : table_ok ctx m' gp lp;
  lc_frame : forall g l, T !! g = Some l -> g <> gp -> tables m' !! g = tables m !! g /\ descs m' !! g = descs m !! g
}.

Lemma changed_points ctx m m' T gp lp t t' g i c :
  tables m !! gp = Some t -> tables m' !! gp = Some t' -> T !! gp = Some lp -> leaves_only lp t t' ->
  (forall x l, T !! x = Some l -> x <> gp -> tables m' !! x = tables m !! x) ->
  points ctx m T g i c -> points ctx m' T g i c.
Proof.
  intros Ht Ht' Hgp [Hlen Hlv] Hfr (l & tb & e & pa & Hg & Hl & Htb & He & Hent & Hpa & Hc).
  destruct (decide (g = gp)) as [->|Hne].
  - assert (l = lp) as -> by congruence. assert (tb = t) as -> by congruence.
    destruct (arr_get_some t' i) as [e' He']; [rewrite Hlen; by eapply arr_get_lt|].
    destruct (Hlv Hl i e e' He He') as [->|[Hn _]]; [|congruence]. exists lp, t', e, pa. by split_and!.
  - exists l, tb, e, pa. rewrite (Hfr g l Hg Hne). by split_and!.
Qed.

Lemma rtt_inv_leaf ctx m m' T gp lp t t' :
  rtt_inv ctx m T -> leaf_changed ctx m m' T gp lp t t' -> rtt_inv ctx m' T.
Proof.
  intros [Hlv Htb Hnx Huq Hch Hrt Hnm Hpar] [Hgp Ht Ht' Hlo Hok Hfr].
  assert (Hback : forall g i c, points ctx m' T g i c -> points ctx m T g i c).
  { intros g i c. apply (changed_points ctx m' m T gp lp t' t); try done; [by apply leaves_only_sym|].
    intros x l Hx Hn. by destruct (Hfr x l Hx Hn). }
  split; try done.
  - intros g l Hg. destruct (decide (g = gp)) as [->|Hne]; [by assert (l = lp) as -> by congruence|].
    destruct (Hfr g l Hg Hne). eapply table_ok_frame; eauto.
  - intros g l tb j e Hg Hb Hl He Hte. destruct (decide (g = gp)) as [->|Hne].
    + assert (tb = t') as -> by congruence. assert (l = lp) as -> by congruence. destruct Hlo as [Hlen Hlo].
      destruct (arr_get_some t j) as [e0 He0]; [rewrite <- Hlen; by eapply arr_get_lt|].
      destruct (Hlo Hl j e0 e He0 He) as [->|[_ Hn]]; [by eapply Hnx|congruence].
    + destruct (Hfr g l Hg Hne) as [Hx _]. rewrite Hx in Hb. by eapply Hnx.
  - intros g1 j1 g2 j2 c H1%Hback H2%Hback. eauto.
  - intros g j c Hp%Hback. eauto.
  - intros g l Hg. destruct (Hpar g l Hg) as [|(g' & i & Hp)]; [by left|right]. exists g', i.
    eapply (changed_points ctx m m'); eauto. intros x lx Hx Hn. by destruct (Hfr x lx Hx Hn).
Qed.

(** The whole invariant, when the granules of [X], realm memory, change state as
    well. *)
Lemma inv_leaf w w' F g i rd ctx T gp lp t t' (X : Z -> Prop) :
  inv w F -> F !! (g, i) = Some T -> owns w g i rd ctx T -> r_rds w' = r_rds w ->
  T !! gp = Some lp -> tables (r_mem w) !! gp = Some t -> tables (r_mem w') = <[gp := t']> (tables (r_mem w)) ->
  leaves_only lp t t' -> table_ok ctx (r_mem w') gp lp ->
  (forall x, x <> gp -> X x \/ descs (r_mem w') !! x = descs (r_mem w) !! x) ->
  (forall x, X x -> granule_at (r_mem w) x (AGranule false GRANULE_STATE_DATA 0)) ->
  (forall x, X x -> exists s, granule_at (r_mem w') x (AGranule false s 0) /\ s <> GRANULE_STATE_RD) ->
  inv w' F /\ owns w' g i rd ctx T /\
  (forall g0 i0 T0 rd0 ctx0, F !! (g0, i0) = Some T0 -> (g0, i0) <> (g, i) -> owns w g0 i0 rd0 ctx0 T0 -> agree T0 (r_mem w) (r_mem w')).
Proof.
  intros Hinv HF Hown Hrds Hgp Ht Htb Hlo Hok Hcase Hdat Hnew.
  assert (Hsame : forall x, x <> gp -> ~ X x -> descs (r_mem w') !! x = descs (r_mem w) !! x) by (intros x Hx Hn; by destruct (Hcase x Hx)).
  assert (Hnx : forall k T0 x l, F !! k = Some T0 -> T0 !! x = Some l -> ~ X x).
  { intros [g0 i0] T0 x l HF0 Hx HX. destruct (inv_own _ _ Hinv g0 i0 T0 HF0) as (rd0 & ctx0 & Hown0).
    rewrite (not_in_tree _ _ _ _ _ (own_tree _ _ _ _ _ _ Hown0) (Hdat x HX)) in Hx; done. }
  assert (Htbl : forall x, x <> gp -> tables (r_mem w') !! x = tables (r_mem w) !! x) by (intros x Hx; by rewrite Htb, lookup_insert_ne by congruence).
  assert (Hagree : forall g0 i0 T0 rd0 ctx0, F !! (g0, i0) = Some T0 -> (g0, i0) <> (g, i) -> owns w g0 i0 rd0 ctx0 T0 -> agree T0 (r_mem w) (r_mem w')).
  { intros g0 i0 T0 rd0 ctx0 HF0 Hn _ x lx Hx.
    assert (Hxp : x <> gp) by (intros ->; by apply Hn, (inv_disjoint _ _ Hinv _ _ T0 T gp lx lp)). split; [by apply Htbl|].
    apply Hsame; [done|]. by eapply Hnx. }
  assert (HT' : rtt_inv ctx (r_mem w') T).
  { eapply (rtt_inv_leaf ctx (r_mem w)); [apply Hown|]. split; [exact Hgp|exact Ht|by rewrite Htb, lookup_insert_eq|exact Hlo|exact Hok|].
    intros x l Hx Hne. split; [by apply Htbl|]. apply Hsame; [done|]. by eapply Hnx. }
  destruct Hok as (t1 & Ht1 & Hlen1 & Hgr & _).
  split_and!; [|destruct Hown; split; try done; by rewrite Hrds|done]. split.
  - intros addr x Hx. destruct (decide (x = gp)) as [->|Hxp]; [split; [by eexists|by exists t1]|].
    destruct (inv_granule _ _ Hinv _ _ Hx) as ((a & Ha & Hlk) & tx & Htx & Hlx). split; [|exists tx; by rewrite Htbl].
    destruct (Hcase x Hxp) as [HX|HX].
    + destruct (Hnew x HX) as (s & Hs & _). by eexists.
    + exists a. split; [|done]. by eapply granule_at_descs.
  - intros x r Hx. assert (Hxp : x <> gp) by (intros ->; by pose proof (granule_at_inj _ _ _ _ Hx Hgr)).
    assert (HX : ~ X x). { intros HX. destruct (Hnew x HX) as (s & Hs & Hne). pose proof (granule_at_inj _ _ _ _ Hx Hs) as Heq. by injection Heq. }
    destruct (inv_rd _ _ Hinv x r) as (rd' & l2 & b & s & Hr & Hrok & HFr); [eapply granule_at_descs; [|exact Hx]; symmetry; by apply Hsame|].
    exists rd', l2, b, s. by rewrite Hrds.
  - intros g0 i0 T0 HF0. destruct (decide ((g0, i0) = (g, i))) as [[= -> ->]|Hn].
    + exists rd, ctx. assert (T0 = T) as -> by congruence. destruct Hown. split; try done. by rewrite Hrds.
    + destruct (inv_own _ _ Hinv g0 i0 T0 HF0) as (rd0 & ctx0 & Hown0). exists rd0, ctx0. pose proof (Hagree _ _ _ _ _ HF0 Hn Hown0) as Hag.
      destruct Hown0. split; try done; [by rewrite Hrds|by eapply rtt_inv_frame].
  - apply Hinv.
Qed.

(** An IPA whose entry is as before, and one whose entry is a new leaf; [b] is any
    IPA the table is for. *)
Lemma translate_leaf ctx lpa2 m m' T gp lp t t' a b :
  ctx_ok ctx lpa2 -> rtt_inv ctx m T -> 0 <= a < 2 ^ ipa_bits ctx -> 0 <= b < 2 ^ ipa_bits ctx -> visits ctx m b gp lp ->
  leaf_changed ctx m m' T gp lp t t' ->
  (translate ctx m' a = translate ctx m a) \/
  (exists e e', a / 2 ^ span lp = b / 2 ^ span lp /\ arr_get t (s2_addr_to_idx a lp) = Some e /\
     arr_get t' (s2_addr_to_idx a lp) = Some e' /\ e' <> e /\
     translate ctx m a = entry_meaning ctx lp e a /\ translate ctx m' a = entry_meaning ctx lp e' a).
Proof.
  intros Hc HT Ha Hb Hvb [Hgp Ht Ht' [Hlen Hlo] Hok Hfr].
  assert (Hoth : forall x l, T !! x = Some l -> x <> gp -> tables m' !! x = tables m !! x) by (intros x l Hx Hn; by destruct (Hfr x l Hx Hn)).
  destruct (decide (arr_get t' (s2_addr_to_idx a lp) = arr_get t (s2_addr_to_idx a lp))) as [Heq|Hne].
  { left. eapply translate_spared; try done. split; [done|]. intros _. by exists t, t'. }
  destruct (decide (a / 2 ^ span lp = b / 2 ^ span lp)) as [Hs|Hs]; [right|left].
  2: { eapply translate_spared; try done. split; [done|]. intros Hv. by destruct Hs; apply (visits_unique ctx lpa2 m T a b gp lp). }
  pose proof (ctx_level _ _ Hc) as Hsl. pose proof (ri_level _ _ _ HT gp lp Hgp) as Hlp.
  destruct (tree_table_at _ _ _ _ _ HT Hgp) as (t2 & Ht2 & Hl2 & _). assert (t2 = t) as -> by congruence.
  pose proof (s2_addr_to_idx_range a lp ltac:(destruct lpa2; lia)) as Hidx.
  destruct (arr_get_some t (s2_addr_to_idx a lp)) as [e He]; [rewrite Hl2; unfold N_S2TTES; lia|].
  destruct (arr_get_some t' (s2_addr_to_idx a lp)) as [e' He']; [rewrite Hlen, Hl2; unfold N_S2TTES; lia|].
  assert (Hv : visits ctx m a gp lp) by (by apply (visits_same ctx lpa2 m T a b)).
  exists e, e'. assert (Hee : e' <> e) by congruence.
  assert (Hlf : lp < 3 -> entry_is_table e = false /\ entry_is_table e' = false).
  { intros Hlt. by destruct (Hlo Hlt _ e e' He He') as [?|?]. }
  split_and!; try done.
  - eapply (translate_at ctx lpa2 m m T gp lp); try done. intros Hlt. by destruct (Hlf Hlt).
  - eapply (translate_at ctx lpa2 m m' T gp lp); try done. intros Hlt. by destruct (Hlf Hlt).
Qed.

End Leaf.
