(* ===== verification/UnmapRun.v ===== *)
(** * One call of an unmapping command on a realm

    [rtt_unmap_run] from any state that satisfies the invariant of all trees: the
    walk to the leaf table, the sweep and the deferred work, and what they mean for
    translations and for the granules behind them. *)

From Stdlib Require Import ZArith Lia Bool ZifyBool.
From stdpp Require Import base tactics option list numbers gmap.
From S2P Require Import Prelude.
From S2P Require Import Utils.
From S2P Require Import Status.
From S2P Require Import Smc.
From S2P Require Import Granule.
From S2P Require Import Mem.
From S2P Require Import Arch.
From S2P Require Import AddrList.
From S2P Require Import Sro.
From S2P Require Import S2tte.
From S2P Require Import S2tteFacts.
From S2P Require Import S2tteProps.
From S2P Require Import S2ttTable.
From S2P Require Import S2ttWalk.
From S2P Require Import RttFold.
From S2P Require Import RttFoldProps.
From S2P Require Import Realm.
From S2P Require Import RttTree.
From S2P Require Import Rmm.
From S2P Require Import RttCmds.
From S2P Require Import RttUnmap.
From S2P Require Import RttInv.
From S2P Require Import UnmapPass.
From S2P Require Import UnmapDrain.
From S2P Require Import UnmapStep.
From S2P Require Import UnmapStamp.
From S2P Require Import UnmapValid.
From S2P Require Import UnmapSweep.
From S2P Require Import UnmapLeaf.
From S2P Require Import RttPath.
From S2P Require Import RttRefuse.
From S2P Require Import RttCreate.
From S2P Require Import RttRange.
From S2P Require Import RttIsolation.
From S2P Require Import UnmapInv.

(** ** Entries left behind *)

Section Entries.
Context `{feat : ArchFeatures}.
Implicit Types (ctx : s2tt_context) (k : s2tte_kind).

Lemma kind_of_clear ctx lpa2 level e : s2tt_lpa2_enabled ctx = Some lpa2 -> -1 <= level <= 3 ->
  kind_of ctx level e = kind_of ctx level (s2tte_clear_drain_pending e).
Proof.
  intros Hl Hlv. unfold kind_of. f_equal. apply list_find_ext. intros k. unfold s2tte_clear_drain_pending.
  by rewrite <- (is_kind_class ctx lpa2 (Z.land e _)), drain_class, (is_kind_class ctx lpa2).
Qed.

Lemma entry_is_table_clear e : entry_is_table (s2tte_clear_drain_pending e) = entry_is_table e.
Proof. unfold entry_is_table, s2tte_clear_drain_pending. rewrite <- Z.land_assoc. done. Qed.

(** An entry left behind maps nothing. *)
Lemma left_behind_meaning ctx lpa2 level h y k e' a :
  s2tt_lpa2_enabled ctx = Some lpa2 -> -1 <= level <= 3 -> left_behind ctx level h y k e' -> kind_live (vacated k) = false ->
  exists attrs, entry_meaning ctx level e' a = Some (vacated k, 0, attrs).
Proof.
  intros Hl Hlv Hb Hk. assert (Hkd : kind_of ctx level e' = Some (vacated k)).
  { destruct y; cbn in Hb; [destruct Hb as (_ & _ & Hb); rewrite (kind_of_clear ctx lpa2) by done|]; by apply (kind_of_built ctx lpa2 level _ 0). }
  unfold entry_meaning. rewrite Hkd. cbn. rewrite Hk. cbn. by eexists.
Qed.

Lemma left_behind_leaf ctx lpa2 level h y k e' :
  s2tt_lpa2_enabled ctx = Some lpa2 -> -1 <= level < 3 -> left_behind ctx level h y k e' -> vacated k <> K_table -> entry_is_table e' = false.
Proof.
  intros Hl Hlv Hb Hk. destruct y; cbn in Hb; [destruct Hb as (_ & _ & Hb); rewrite <- entry_is_table_clear|];
    destruct (built_table_entry ctx lpa2 level _ 0 _ Hl Hlv Hb) as [-> _]; by apply bool_decide_false.
Qed.

(** So does an entry that is not live. *)
Lemma dead_entry ctx lpa2 level e a :
  s2tt_lpa2_enabled ctx = Some lpa2 -> -1 <= level <= 3 -> entry_ok ctx level e -> s2tte_is_live ctx e level = false ->
  (level < 3 -> entry_is_table e = false) /\
  exists k attrs, kind_live k = false /\ entry_meaning ctx level e a = Some (k, 0, attrs).
Proof.
  intros Hl Hlv Hok Hd.
  assert (Hx : exists k, kind_live k = false /\ kind_of ctx level e = Some k /\ (level < 3 -> entry_is_table e = false)).
  { destruct Hok as [(_ & k & pa & v & Hk & Hb & Hv)|(k & pa & Hb)].
    - exists k. split; [done|]. change (Z.land e (not64 S2TTE_SW_DRAIN_MASK)) with (s2tte_clear_drain_pending e) in Hv. subst v. split.
      + rewrite (kind_of_clear ctx lpa2) by done. by apply (kind_of_built ctx lpa2 level k pa).
      + intros Hlt. rewrite <- entry_is_table_clear. destruct (built_table_entry ctx lpa2 level k pa _ Hl ltac:(lia) Hb) as [-> _].
        apply bool_decide_false. by intros ->.
    - rewrite (built_live ctx lpa2 level k pa e Hl Hlv Hb) in Hd. exists k. split_and!; [done|by apply (kind_of_built ctx lpa2 level k pa)|].
      intros Hlt. apply (leaf_not_table ctx lpa2 level k pa e); try done. by intros ->. }
  destruct Hx as (k & Hk & Hkd & Hnt). split; [done|]. unfold entry_meaning. rewrite Hkd. cbn. rewrite Hk. cbn. by eexists _, _.
Qed.

End Entries.

Section Run.
Context `{feat : ArchFeatures} `{laws : ActiveLaws} `{env : UnmapEnv} `{host : UnmapHost}.
Context (submit_ok : forall vs addr level num leaf, smmuv3_inv_at_level_per_vmids_submit vs addr level num leaf = 0).
Context (flavor : rtt_unmap_flavor) (Hfl : flavor <> RTT_UNMAP_FLAVOR_DEV).
Implicit Types (w : rmm) (F : forest) (rd : rd) (ctx : s2tt_context) (T : tree) (m : mem) (t : list Z) (uctx : sro_unmap_ctx) (al : addr_list) (evs : list event).

(** ** What the command relies on *)

(** Realm memory is mapped once. *)
Definition maps_once w F : Prop :=
  forall g1 i1 p1 g2 i2 p2 o, maps w F g1 i1 p1 o -> maps w F g2 i2 p2 o -> g1 = g2 /\ p1 = p2.
(** Non-secure memory is mapped in the unprotected half of a realm, and nothing
    else is. *)
Definition halves w F : Prop := forall g T rd ctx a k out attrs (prot : bool), F !! (g, PRIMARY_S2_CTX_ID) = Some T -> owns w g PRIMARY_S2_CTX_ID rd ctx T ->
  0 <= a < 2 ^ ipa_bits ctx -> addr_in_par rd a = Some prot -> translate ctx (r_mem w) a = Some (k, out, attrs) ->
  half (if prot then RTT_UNMAP_FLAVOR_DATA else RTT_UNMAP_FLAVOR_UNPROT) k = true.
(** No entry carries handle [h]. *)
Definition no_marks w F (h : Z) : Prop := forall key T g l t j e, F !! key = Some T -> T !! g = Some l ->
  tables (r_mem w) !! g = Some t -> arr_get t j = Some e -> mineb e h = false.

Record ready w F (h : Z) : Prop := {
  rdy_inv : inv w F;
  rdy_once : maps_once w F;
  rdy_halves : halves w F;
  rdy_free : active_free (r_mem w);
  rdy_marks : no_marks w F h;
  rdy_handle : 0 <= h < 2 ^ 16;
  rdy_bits : forall g rd ctx, r_rds w !! g = Some rd -> arr_get (s2_ctxs rd) PRIMARY_S2_CTX_ID = Some ctx -> 12 < ipa_bits ctx
}.

(** ** What a call has done *)

(** Granule [x] is behind realm memory mapped from [base] to [addr]. *)
Definition behind w ctx (base addr x : Z) : Prop :=
  flavor = RTT_UNMAP_FLAVOR_DATA /\ exists a k out attrs size, base <= a < addr /\
    translate ctx (r_mem w) a = Some (k, out, attrs) /\ takes flavor k = true /\
    active_of (out / GRANULE_SIZE * GRANULE_SIZE) = Some (x, size).

(** [w'] is [w] after the range from [base] to [addr] was unmapped from the tree of
    realm [g]; the operation still holds the granules [H]. *)
Record took w w' F (g : Z) rd ctx T (gp base addr : Z) (H : Z -> Prop) : Prop := {
  tk_inv : inv w' F;
  tk_own : owns w' g PRIMARY_S2_CTX_ID rd ctx T;
  tk_rds : r_rds w' = r_rds w /\ r_vttbr w' = r_vttbr w;
  tk_outside : forall a, 0 <= a < 2 ^ ipa_bits ctx -> ~ (base <= a < addr) -> translate ctx (r_mem w') a = translate ctx (r_mem w) a;
  tk_inside : forall a, base <= a < addr -> exists k out attrs, translate ctx (r_mem w) a = Some (k, out, attrs) /\
    if kind_live k then takes flavor k = true /\ exists attrs', translate ctx (r_mem w') a = Some (vacated k, 0, attrs')
    else translate ctx (r_mem w') a = Some (k, out, attrs);
  tk_others : forall g0 i0 T0 rd0 ctx0 a, F !! (g0, i0) = Some T0 -> (g0, i0) <> (g, PRIMARY_S2_CTX_ID) ->
    owns w g0 i0 rd0 ctx0 T0 -> 0 <= a < 2 ^ ipa_bits ctx0 -> translate ctx0 (r_mem w') a = translate ctx0 (r_mem w) a;
  tk_tables : forall x, x <> gp -> tables (r_mem w') !! x = tables (r_mem w) !! x;
  tk_data : forall x, behind w ctx base addr x -> granule_at (r_mem w) x (AGranule false GRANULE_STATE_DATA 0);
  tk_back : forall x, behind w ctx base addr x -> H x \/ granule_at (r_mem w') x (AGranule false GRANULE_STATE_DELEGATED 0);
  tk_held : forall x, H x -> behind w ctx base addr x;
  tk_same : forall x, x <> gp -> behind w ctx base addr x \/ descs (r_mem w') !! x = descs (r_mem w) !! x
}.

(** ** The table the walk ends at *)

(** [base] is in table [gp] at level [l] and its walk ends there. *)
Record leaf_of w F (g : Z) rd ctx (lpa2 : bool) T (gp l base top : Z) t : Prop := {
  lo_forest : F !! (g, PRIMARY_S2_CTX_ID) = Some T;
  lo_own : owns w g PRIMARY_S2_CTX_ID rd ctx T;
  lo_ctx : ctx_ok ctx lpa2;
  lo_level : T !! gp = Some l;
  lo_table : tables (r_mem w) !! gp = Some t;
  lo_visits : visits ctx (r_mem w) base gp l;
  lo_base : 0 <= base < 2 ^ ipa_bits ctx;
  lo_top : base < top <= 2 ^ ipa_bits ctx;
  lo_half : forall a, base <= a < top -> addr_in_par rd a = Some (negb (flavor_is flavor RTT_UNMAP_FLAVOR_UNPROT))
}.

Section Table.
Context (w : rmm) (F : forest) (g : Z) (rd : rd) (ctx : s2tt_context) (lpa2 : bool) (T : tree) (gp l base top : Z) (t : list Z).
Hypothesis Hlf : leaf_of w F g rd ctx lpa2 T gp l base top t.
Abbreviation ms := (s2tte_map_size l).
Abbreviation start := (s2_addr_to_idx base l).

Lemma leaf_level_ok : (if lpa2 then -1 else 0) <= l <= 3 /\ -1 <= l <= 3 /\ s2tt_lpa2_enabled ctx = Some lpa2 /\ 2 ^ ipa_bits ctx <= 2 ^ 52.
Proof.
  destruct Hlf as [_ Hown [Hl Hb Hs _ _] Hgp _ _ _ _ _]. pose proof (ri_level _ _ _ (own_tree _ _ _ _ _ _ Hown) gp l Hgp) as Hlv.
  split_and!; try done; try (destruct lpa2; lia). apply Z.pow_le_mono_r; destruct lpa2; lia.
Qed.

Lemma ms_pos : 0 < ms <= 2 ^ 48.
Proof. destruct leaf_level_ok as (_ & Hlv & _). by apply map_size_bounds. Qed.

(** Entry [j] of the table and the addresses it decides. *)
Lemma leaf_entry_addr j : (ms | base) -> start <= j < 512 -> base + (j - start) * ms < 2 ^ ipa_bits ctx ->
  let a := base + (j - start) * ms in
  visits ctx (r_mem w) a gp l /\ s2_addr_to_idx a l = j /\ (ms | a) /\ 0 <= a.
Proof.
  intros Hd Hj Hr. destruct Hlf as [_ Hown Hc _ _ Hv Hb _ _]. pose proof ms_pos as Hms.
  destruct (nth_entry ctx lpa2 (r_mem w) T base gp l (j - start) Hc (own_tree _ _ _ _ _ _ Hown) Hb Hd Hv ltac:(lia) ltac:(lia) Hr) as (H1 & H2 & H3).
  split_and!; try done; [by rewrite H2; lia|nia].
Qed.

Lemma entry_translate j e a : (ms | base) -> start <= j < 512 -> base + (j - start) * ms <= a < base + (j - start) * ms + ms ->
  a < 2 ^ ipa_bits ctx -> arr_get t j = Some e -> (l < 3 -> entry_is_table e = false) ->
  translate ctx (r_mem w) a = entry_meaning ctx l e a.
Proof.
  intros Hd Hj Ha Hr He Hnt. destruct (leaf_entry_addr j Hd Hj ltac:(lia)) as (Hv & Hi & Hd2 & H0). destruct Hlf as [_ Hown Hc _ Ht _ Hb _ _]. pose proof ms_pos as Hms.
  eapply (translate_here ctx lpa2 (r_mem w) T gp l (base + (j - start) * ms)); try done; [apply Hown|lia|lia|by rewrite Hi|].
  apply same_block; [lia|done|done].
Qed.

Lemma entry_index_base : 0 <= start < 512 /\ start * ms <= base.
Proof.
  destruct leaf_level_ok as (_ & Hlv & _ & H52). pose proof (lo_base _ _ _ _ _ _ _ _ _ _ _ _ Hlf) as Hb.
  pose proof (s2_addr_to_idx_range base l Hlv) as Hr. split; [done|]. rewrite idx_arith, s2tte_map_size_eq by lia.
  set (n := 2 ^ ((3 - l) * 9 + 12)). assert (0 < n) by (apply Z.pow_pos_nonneg; lia).
  pose proof (Z.mod_le (base / n) 512 ltac:(apply Z.div_pos; lia) ltac:(lia)). pose proof (Z.mul_div_le base n ltac:(lia)). nia.
Qed.

(** What a leaf entry says about an address it decides. *)
Lemma entry_says j k pa a : (ms | base) -> start <= j < 512 -> base + (j - start) * ms <= a < base + (j - start) * ms + ms ->
  a < 2 ^ ipa_bits ctx -> maps_at ctx l flavor t j pa k ->
  exists attrs, translate ctx (r_mem w) a = Some (k, pa + (a - (base + (j - start) * ms)), attrs).
Proof.
  intros Hd Hj Ha Hr (e & He & Hb & Ht). destruct leaf_level_ok as (_ & Hlv & Hl & _). destruct (taken_live flavor Hfl k Ht) as [Hk Hnt].
  rewrite (entry_translate j e a Hd Hj Ha Hr He); [|intros Hlt; by apply (leaf_not_table ctx lpa2 l k pa e)].
  unfold entry_meaning. rewrite (kind_of_built ctx lpa2 l k pa e Hl Hlv Hb). cbn [mbind option_bind]. rewrite Hk, (built_pa ctx lpa2 l k pa e Hl Hb Hk). cbn [mbind option_bind].
  eexists. do 4 f_equal. destruct (leaf_entry_addr j Hd Hj ltac:(lia)) as (_ & _ & Hd2 & _). pose proof ms_pos as Hms.
  apply Z.mod_divide in Hd2; [|lia]. rewrite Z.mod_eq by lia. rewrite Z.mod_eq in Hd2 by lia.
  assert (a / ms = (base + (j - start) * ms) / ms); [|nia]. apply same_block; [lia|by apply Z.mod_divide; [lia|rewrite Z.mod_eq by lia]|done].
Qed.

Lemma leaf_distinct hi : maps_once w F -> (ms | base) -> hi <= S2TTES_PER_S2TT -> base + (hi - start) * ms <= top -> distinct ctx l flavor start hi t.
Proof.
  intros Honce Hd Hhi Htop Hdat j1 j2 pa k1 k2 H1 H2 M1 M2. pose proof ms_pos as Hms. destruct (lo_top _ _ _ _ _ _ _ _ _ _ _ _ Hlf) as [_ Ht].
  unfold S2TTES_PER_S2TT in Hhi. pose proof entry_index_base as [Hs _].
  assert (Hkd : forall j k, start <= j < hi -> maps_at ctx l flavor t j pa k -> maps w F g PRIMARY_S2_CTX_ID ((base + (j - start) * ms) / GRANULE_SIZE) (pa / GRANULE_SIZE) /\
    (GRANULE_SIZE | base + (j - start) * ms)).
  { intros j k Hj Hm. set (a := base + (j - start) * ms). assert (Ha : a < 2 ^ ipa_bits ctx) by (unfold a; nia).
    destruct (entry_says j k pa a Hd ltac:(lia) ltac:(unfold a; lia) Ha Hm) as [attrs Htr]. destruct (leaf_entry_addr j Hd ltac:(lia) Ha) as (_ & _ & Hda & H0).
    pose proof Hm as (e & _ & _ & Htk). split.
    - exists T, rd, ctx, a, k, (pa + (a - (base + (j - start) * ms))), attrs. destruct Hlf as [HF Hown _ _ _ _ _ _ _]. rewrite Hdat in Htk.
      split_and!; try done. f_equal. unfold a. lia.
    - etransitivity; [|exact Hda]. destruct leaf_level_ok as (_ & Hlv & _). rewrite s2tte_map_size_eq by done. change GRANULE_SIZE with (2 ^ 12). apply pow2_divide. lia. }
  destruct (Hkd j1 k1 H1 M1) as [P1 [x Hx]], (Hkd j2 k2 H2 M2) as [P2 [y Hy]].
  destruct (Honce _ _ _ _ _ _ _ P1 P2) as [_ Heq]. rewrite Hx, Hy, !Z.div_mul in Heq by done. subst y. nia.
Qed.

(** Below [top] there are only entries of the half the command is for. *)
Lemma leaf_halves j e k pa : halves w F -> (ms | base) -> arr_get t j = Some e -> start <= j -> base + (j + 1 - start) * ms <= top ->
  built ctx l k pa e -> half flavor k = true.
Proof.
  intros Hh Hd He Hj Htop Hb. destruct leaf_level_ok as (_ & Hlv & Hl & _). pose proof ms_pos as Hms. pose proof Hlf as [HF Hown Hc Hgp Ht _ Hb0 [_ Htp] Hhalf].
  destruct (decide (k = K_table)) as [->|Hnt]; [by destruct flavor|].
  assert (Hj2 : j < 512). { apply arr_get_lt in He. destruct (tree_table_at _ _ _ _ _ (own_tree _ _ _ _ _ _ Hown) Hgp) as (t2 & Ht2 & Hl2 & _). assert (t2 = t) as -> by congruence. rewrite Hl2 in He. unfold N_S2TTES in He. lia. }
  set (a := base + (j - start) * ms). assert (Ha : base <= a < top) by (unfold a; nia).
  pose proof (entry_translate j e a Hd ltac:(lia) ltac:(unfold a; lia) ltac:(lia) He) as Htr.
  assert (Hm : exists out attrs, entry_meaning ctx l e a = Some (k, out, attrs)).
  { unfold entry_meaning. rewrite (kind_of_built ctx lpa2 l k pa e Hl Hlv Hb). cbn [mbind option_bind]. destruct (kind_live k) eqn:Hk; [|by eexists _, _].
    rewrite (built_pa ctx lpa2 l k pa e Hl Hb Hk). by eexists _, _. }
  destruct Hm as (out & attrs & Hm).
  assert (Htr2 : translate ctx (r_mem w) a = Some (k, out, attrs)) by (rewrite Htr; [done|]; intros Hlt; by apply (leaf_not_table ctx lpa2 l k pa e)).
  pose proof (Hh g T rd ctx a k out attrs _ HF Hown ltac:(lia) (Hhalf a Ha) Htr2) as Hres. destruct flavor; done.
Qed.

(** The table as the sweep finds it. *)
Lemma leaf_ready u h : u_rmm u = with_mem w (with_lock (r_mem w) gp) -> ready w F h ->
  leaf_table ctx lpa2 l flavor h u gp start base top t.
Proof.
  intros Hu [Hinv Honce Hhalf Hfree Hmk Hh _]. pose proof Hlf as [HF Hown Hc Hgp Ht Hv Hb Htp _]. destruct leaf_level_ok as (Hlv & Hlv1 & Hl & H52).
  destruct (tree_table_at _ _ _ _ _ (own_tree _ _ _ _ _ _ Hown) Hgp) as (t2 & Ht2 & Hlen & Hrr & Hgr & Hok). assert (t2 = t) as -> by congruence.
  pose proof (granule_at_with_lock _ _ _ Hgr eq_refl) as (Hlk & _). split.
  - unfold leaf_at. rewrite Hu. exact Ht.
  - unfold leaf_locked. rewrite Hu. exact Hlk.
  - rewrite Hu. cbn. intros addr x size Ha. destruct (Hfree addr x size Ha) as (a & Hga & Hst). destruct (decide (x = gp)) as [->|Hne].
    + eexists. split; [by apply (granule_at_with_lock _ _ _ Hgr)|done].
    + exists a. split; [by apply granule_at_with_lock_ne|done].
  - done.
  - intros Hd hi Hhi Hle. by apply leaf_distinct.
  - intros j e He. by apply (Hmk (g, PRIMARY_S2_CTX_ID) T gp l t j).
  - intros Hd j e k pa He Hj Hle Hbt. by apply (leaf_halves j e k pa).
  - unfold S2TTES_PER_S2TT. pose proof entry_index_base. lia.
  - pose proof entry_index_base as [_ Hs]. split; [lia|exact Hs].
  - etransitivity; [apply Htp|]. apply Z.pow_le_mono_r; [lia|]. destruct Hc as [_ Hbits _ _ _]. unfold oa_bits. destruct lpa2; lia.
Qed.

(** ** From entries to addresses *)

Lemma range_entry idx addr a : (ms | base) -> stopped l start base top idx addr -> base <= a < addr ->
  let j := start + (a - base) / ms in start <= j < idx /\ base + (j - start) * ms <= a < base + (j - start) * ms + ms /\ j < 512 /\ a < 2 ^ ipa_bits ctx.
Proof.
  intros Hd (Hi & Had & Htop) Ha j. unfold map_size in Had. pose proof ms_pos as Hms. destruct (lo_top _ _ _ _ _ _ _ _ _ _ _ _ Hlf) as [_ Htp]. unfold S2TTES_PER_S2TT in Hi.
  pose proof (Z.div_mod (a - base) ms ltac:(lia)) as Hdm. pose proof (Z.mod_pos_bound (a - base) ms ltac:(lia)) as Hmb.
  assert (Hq : 0 <= (a - base) / ms) by (apply Z.div_pos; lia). assert (Hq2 : (a - base) / ms < idx - start) by (apply Z.div_lt_upper_bound; lia).
  unfold j. split_and!; try lia.
Qed.

Lemma table_512 : length t = N_S2TTES.
Proof.
  destruct Hlf as [_ Hown _ Hgp Ht _ _ _ _]. destruct (tree_table_at _ _ _ _ _ (own_tree _ _ _ _ _ _ Hown) Hgp) as (t2 & Ht2 & Hl2 & _). congruence.
Qed.

Lemma table_entry_ok j e : arr_get t j = Some e -> entry_ok ctx l e.
Proof.
  intros He. destruct Hlf as [_ Hown _ Hgp Ht _ _ _ _]. destruct (tree_table_at _ _ _ _ _ (own_tree _ _ _ _ _ _ Hown) Hgp) as (t2 & Ht2 & _ & _ & _ & Hok).
  assert (t2 = t) as -> by congruence. by eapply Hok.
Qed.

Lemma page_of p : (GRANULE_SIZE | p) -> p / GRANULE_SIZE * GRANULE_SIZE = p.
Proof. intros [x ->]. by rewrite Z.div_mul. Qed.

Lemma given_behind idx addr y h t' x : (ms | base) -> stopped l start base top idx addr ->
  unmapped ctx l flavor h y start idx t t' -> backed ctx l flavor start idx t ->
  (given ctx l flavor start idx t x <-> behind w ctx base addr x).
Proof.
  intros Hd Hst Hun Hbk. pose proof ms_pos as Hms. pose proof Hst as (Hi & Had & Htop). unfold map_size in Had. destruct (lo_top _ _ _ _ _ _ _ _ _ _ _ _ Hlf) as [_ Htp].
  destruct leaf_level_ok as (_ & Hlv & Hl & _). unfold S2TTES_PER_S2TT in Hi. split.
  - intros (Hdat & j & pa & k & Hj & Hm & Hb). split; [done|].
    pose proof (maps_at_block ctx lpa2 l flavor Hl Hfl t j pa k Hm) as (Hl1 & _ & Hdv & _ & Heq). unfold map_size in Hdv, Heq.
    destruct (level_size_pages l) as (Hmul & Hpos & _); [lia|]. rewrite <- Heq in Hmul, Hpos. pose proof Hm as (e & _ & _ & Htk).
    assert (Hdg : (GRANULE_SIZE | pa)) by (etransitivity; [|exact Hdv]; rewrite Hmul; apply Z.divide_factor_r).
    assert (Hsz : forall p size, 0 <= p - pa < ms -> (GRANULE_SIZE | p) -> active_of p = Some (x, size) ->
      exists a k out attrs size, base <= a < addr /\ translate ctx (r_mem w) a = Some (k, out, attrs) /\ takes flavor k = true /\
        active_of (out / GRANULE_SIZE * GRANULE_SIZE) = Some (x, size)).
    { intros p size Hp Hpd Ha. set (a := base + (j - start) * ms + (p - pa)). assert (Hab : base <= a < addr) by (unfold a; nia).
      destruct (entry_says j k pa a Hd ltac:(lia) ltac:(unfold a; lia) ltac:(lia) Hm) as [attrs Htr].
      exists a, k, (pa + (a - (base + (j - start) * ms))), attrs, size. split_and!; try done; try lia.
      replace (pa + (a - (base + (j - start) * ms))) with p by (unfold a; lia). by rewrite page_of. }
    destruct Hb as [(p & Hp & Ha)|[_ Ha]].
    + apply elem_of_pages_from in Hp as (i & Hi2 & ->). unfold map_size in Hi2. apply (Hsz (pa + i * GRANULE_SIZE) GRANULE_SIZE); [|by apply Z.divide_add_r; [|apply Z.divide_factor_r]|done].
      rewrite Hmul. change GRANULE_SIZE with 4096 in *. nia.
    + apply (Hsz pa tracking_region_get_size); [lia|done|done].
  - intros (Hdat & a & k & out & attrs & size & Ha & Htr & Htk & Hac). split; [done|].
    destruct (range_entry idx addr a Hd Hst Ha) as (Hj & Haj & Hj2 & Hr). set (j := start + (a - base) / ms) in *.
    destruct (arr_get_some t j) as [e He]; [rewrite table_512; unfold N_S2TTES; pose proof entry_index_base; lia|].
    destruct (taken_live flavor Hfl k Htk) as [Hk _]. destruct (Hun) as [_ Hent]. destruct (Hent j e He) as (e' & _ & Hcase). rewrite bool_decide_true in Hcase by lia. cbn [andb] in Hcase.
    destruct (s2tte_is_live ctx e l) eqn:Elive.
    2: { destruct (dead_entry ctx lpa2 l e a Hl Hlv (table_entry_ok j e He) Elive) as (Hnt & k0 & at0 & Hk0 & Hm0).
         rewrite (entry_translate j e a Hd ltac:(lia) Haj Hr He Hnt), Hm0 in Htr. injection Htr as -> _ _. congruence. }
    destruct Hcase as (k0 & pa & Hb & Htk0 & _). assert (Hm : maps_at ctx l flavor t j pa k0) by (by exists e).
    destruct (entry_says j k0 pa a Hd ltac:(lia) Haj Hr Hm) as [at0 Htr0]. rewrite Htr0 in Htr. injection Htr as <- <- <-.
    exists j, pa, k0. split_and!; [lia|lia|done|].
    pose proof (maps_at_block ctx lpa2 l flavor Hl Hfl t j pa k0 Hm) as (Hl1 & Hp0 & Hdv & _ & Heq). unfold map_size in Hdv, Heq.
    destruct (level_size_pages l) as (Hmul & Hpos & _); [lia|]. rewrite <- Heq in Hmul, Hpos.
    set (off := a - (base + (j - start) * ms)) in *. assert (Hoff : 0 <= off < ms) by (unfold off; lia).
    assert (Hpg : (pa + off) / GRANULE_SIZE * GRANULE_SIZE = pa + off / GRANULE_SIZE * GRANULE_SIZE).
    { destruct Hdv as [y0 ->]. rewrite Hmul. replace (y0 * (ms / GRANULE_SIZE * GRANULE_SIZE) + off) with (off + y0 * (ms / GRANULE_SIZE) * GRANULE_SIZE) by lia. rewrite Z.div_add by done. lia. }
    rewrite Hpg in Hac. assert (Hq : 0 <= off / GRANULE_SIZE < ms / GRANULE_SIZE).
    { split; [apply Z.div_pos; [lia|done]|]. apply Z.div_lt_upper_bound; [done|]. change GRANULE_SIZE with 4096 in *. lia. }
    assert (Hin : pa + off / GRANULE_SIZE * GRANULE_SIZE ∈ entry_pages l pa) by (apply elem_of_pages_from; by exists (off / GRANULE_SIZE)).
    destruct (Hbk Hdat j pa k0 ltac:(lia) Hm) as [Hfine|(Hms2 & x' & Hx')].
    + left. eexists. split; [exact Hin|]. destruct (Hfine _ Hin) as (x' & Hx'). congruence.
    + right. split; [done|]. unfold map_size in Hms2. rewrite (active_region pa _ x' Hx') in Hac; [congruence| |].
      * apply Z.divide_add_r; [|apply Z.divide_factor_r]. etransitivity; [|exact Hdv]. rewrite Hmul. apply Z.divide_factor_r.
      * destruct Hdv as [y0 ->]. rewrite Hms2. rewrite Z.div_add_l, Z.div_mul by lia. rewrite (Z.div_small (off / GRANULE_SIZE * GRANULE_SIZE)); [lia|].
        rewrite <- Hms2. change GRANULE_SIZE with 4096 in *. lia.
Qed.

End Table.
Arguments leaf_level_ok {w F g rd ctx lpa2 T gp l base top t}.
Arguments ms_pos {w F g rd ctx lpa2 T gp l base top t}.
Arguments leaf_entry_addr {w F g rd ctx lpa2 T gp l base top t}.
Arguments entry_translate {w F g rd ctx lpa2 T gp l base top t}.
Arguments entry_says {w F g rd ctx lpa2 T gp l base top t}.
Arguments entry_index_base {w F g rd ctx lpa2 T gp l base top t}.
Arguments range_entry {w F g rd ctx lpa2 T gp l base top t}.
Arguments table_512 {w F g rd ctx lpa2 T gp l base top t}.
Arguments table_entry_ok {w F g rd ctx lpa2 T gp l base top t}.
Arguments given_behind {w F g rd ctx lpa2 T gp l base top t}.

(** ** The state afterwards *)

Section After.
Context (w : rmm) (F : forest) (g : Z) (rd : rd) (ctx : s2tt_context) (lpa2 : bool) (T : tree) (gp l base top : Z) (t : list Z).
Hypothesis Hlf : leaf_of w F g rd ctx lpa2 T gp l base top t.
Abbreviation ms := (s2tte_map_size l).
Abbreviation start := (s2_addr_to_idx base l).
Context (u : urmm) (h : Z) (y : bool) (m' : mem) (evs : list event) (idx addr : Z) (t' : list Z) (al : addr_list) (uctx : sro_unmap_ctx) (w' : rmm).
Hypothesis Hu : u_rmm u = with_mem w (with_lock (r_mem w) gp).
Hypothesis Hrdy : ready w F h.
Hypothesis Hdiv : (ms | base).
Hypothesis Hst : stopped l start base top idx addr.
Hypothesis Hrun : leaf_run ctx l flavor h y u m' evs gp start idx t t' al uctx.
Hypothesis Hmem : r_mem w' = set_granule m' gp (AGranule false GRANULE_STATE_RTT (table_refs ctx l t')).
Hypothesis Hrest : r_rds w' = r_rds w /\ r_vttbr w' = r_vttbr w.

Lemma vacated_dead k : takes flavor k = true -> kind_live (vacated k) = false /\ vacated k <> K_table.
Proof. by destruct flavor, k. Qed.

(** Each entry is as before, or what is left of a leaf that was taken. *)
Lemma entry_cases j e : arr_get t j = Some e -> exists e', arr_get t' j = Some e' /\
  ((e' = e /\ (start <= j < idx -> s2tte_is_live ctx e l = false)) \/
   exists k pa, start <= j < idx /\ s2tte_is_live ctx e l = true /\ built ctx l k pa e /\ takes flavor k = true /\ left_behind ctx l h y k e').
Proof.
  intros He. destruct (lr_entries _ _ _ _ _ _ _ _ _ _ _ _ _ _ _ Hrun) as [_ Hent]. destruct (Hent j e He) as (e' & He' & Hc). exists e'. split; [done|].
  destruct (bool_decide (start <= j < idx)) eqn:Ed; cbn [andb] in Hc.
  - apply bool_decide_eq_true in Ed. destruct (s2tte_is_live ctx e l) eqn:El; [right|by left]. destruct Hc as (k & pa & Hb & Htk & Hl'). by exists k, pa.
  - apply bool_decide_eq_false in Ed. left. split; [done|]. lia.
Qed.

Lemma new_entry_ok j e' : arr_get t' j = Some e' -> entry_ok ctx l e'.
Proof.
  intros He'. assert (Hj : exists e, arr_get t j = Some e).
  { apply arr_get_some. rewrite <- (proj1 (lr_entries _ _ _ _ _ _ _ _ _ _ _ _ _ _ _ Hrun)). by eapply arr_get_lt. }
  destruct Hj as [e He]. destruct (entry_cases j e He) as (e1 & He1 & Hc). assert (e1 = e') as -> by congruence.
  destruct Hc as [[-> _]|(k & pa & _ & _ & _ & _ & Hl')]; [by eapply (table_entry_ok Hlf)|].
  destruct y; cbn in Hl'; [left; apply Hl'|right; by eexists _, _].
Qed.

Lemma new_leaves : leaves_only l t t'.
Proof.
  split; [apply (lr_entries _ _ _ _ _ _ _ _ _ _ _ _ _ _ _ Hrun)|]. unfold S2TT_PAGE_LEVEL. intros Hlt j e e' He He'. destruct (leaf_level_ok Hlf) as (_ & Hlv & Hl & _).
  destruct (entry_cases j e He) as (e1 & He1 & Hc). assert (e1 = e') as -> by congruence.
  destruct Hc as [[-> _]|(k & pa & _ & _ & Hb & Htk & Hl')]; [by left|right]. destruct (taken_live flavor Hfl k Htk) as [_ Hnt]. destruct (vacated_dead k Htk).
  split; [by apply (leaf_not_table ctx lpa2 l k pa e)|]. apply (left_behind_leaf ctx lpa2 l h y k); try done. lia.
Qed.

Lemma new_table : tables (r_mem w') = <[gp := t']> (tables (r_mem w)) /\ table_ok ctx (r_mem w') gp l.
Proof.
  assert (Htb : tables (r_mem w') = <[gp := t']> (tables (r_mem w))).
  { rewrite Hmem. cbn. rewrite (lr_tables _ _ _ _ _ _ _ _ _ _ _ _ _ _ _ Hrun), Hu. done. }
  split; [done|]. assert (Hlen : length t' = N_S2TTES) by (rewrite (proj1 (lr_entries _ _ _ _ _ _ _ _ _ _ _ _ _ _ _ Hrun)); apply (table_512 Hlf)).
  exists t'. split_and!; [by rewrite Htb, lookup_insert_eq|done| |exact new_entry_ok].
  destruct (ref_ok_table ctx l t' Hlen). split; [|done]. rewrite Hmem. apply lookup_insert_eq.
Qed.

(** No granule that is given back is a table. *)
Lemma given_data x : given ctx l flavor start idx t x -> x <> gp /\ granule_at (r_mem w) x (AGranule false GRANULE_STATE_DATA 0).
Proof.
  intros Hx. pose proof (lr_data _ _ _ _ _ _ _ _ _ _ _ _ _ _ _ Hrun x Hx) as Hg. rewrite Hu in Hg. cbn in Hg.
  destruct Hlf as [_ Hown _ Hgp _ _ _ _ _]. destruct (tree_table_at _ _ _ _ _ (own_tree _ _ _ _ _ _ Hown) Hgp) as (t2 & _ & _ & _ & Hgr & _).
  pose proof (granule_at_with_lock _ _ _ Hgr eq_refl) as Hlk. assert (Hne : x <> gp) by (intros ->; discriminate (granule_at_inj _ _ _ _ Hg Hlk)).
  split; [done|]. by apply granule_at_with_lock_ne in Hg.
Qed.

Lemma held_state x : held flavor al uctx x -> exists s, granule_at m' x (AGranule false s 0) /\ s <> GRANULE_STATE_RD.
Proof.
  intros Hx. pose proof (lr_next _ _ _ _ _ _ _ _ _ _ _ _ _ _ _ Hrun) as Hn. destruct y; [|by destruct (proj1 Hn x)].
  destruct Hn as (e0 & pre & _ & _ & Hom & _). unfold held in Hx. destruct flavor; [|done|done]. cbn in Hom. destruct Hom as [[[Hg1 _] _ _ _ _ Hfp]|(gc & Hco & Hpt & _)].
  - rewrite Hg1 in Hx. destruct Hx as (p & Hp & Hx). destruct (Hfp p Hp) as (x' & Ha & Hg). pose proof (fine_size _ _ _ Ha eq_refl).
    assert (x' = x) as -> by congruence. by eexists.
  - rewrite (proj1 (cs_g _ _ _ Hco)) in Hx. subst gc. by eexists.
Qed.

Lemma set_leaf_ne x a : x <> gp -> granule_at m' x a -> granule_at (r_mem w') x a.
Proof. intros Hne Hg. eapply granule_at_descs; [|exact Hg]. rewrite Hmem. cbn. by rewrite lookup_insert_ne. Qed.

Lemma after_same x : x <> gp -> given ctx l flavor start idx t x \/ descs (r_mem w') !! x = descs (r_mem w) !! x.
Proof.
  intros Hne. destruct (lr_same _ _ _ _ _ _ _ _ _ _ _ _ _ _ _ Hrun x Hne) as [|Hs]; [by left|right]. rewrite Hmem. cbn. rewrite lookup_insert_ne by congruence. rewrite Hs, Hu. cbn. by rewrite lookup_alter_ne by congruence.
Qed.

Lemma after_inv : inv w' F /\ owns w' g PRIMARY_S2_CTX_ID rd ctx T /\
  (forall g0 i0 T0 rd0 ctx0, F !! (g0, i0) = Some T0 -> (g0, i0) <> (g, PRIMARY_S2_CTX_ID) -> owns w g0 i0 rd0 ctx0 T0 -> agree T0 (r_mem w) (r_mem w')).
Proof.
  destruct new_table as [Htb Hok]. pose proof Hlf as [HF Hown _ Hgp Ht _ _ _ _].
  apply (inv_leaf w w' F g PRIMARY_S2_CTX_ID rd ctx T gp l t t' (given ctx l flavor start idx t)); try done; [apply Hrdy|apply Hrest|apply new_leaves|apply after_same| |].
  - intros x Hx. by apply given_data.
  - intros x Hx. destruct (given_data x Hx) as [Hne _]. destruct (lr_back _ _ _ _ _ _ _ _ _ _ _ _ _ _ _ Hrun x Hx) as [Hh|Hd].
    + destruct (held_state x Hh) as (s & Hs & Hn). exists s. split; [by apply set_leaf_ne|done].
    + exists GRANULE_STATE_DELEGATED. split; [by apply set_leaf_ne|done].
Qed.

Lemma after_changed : leaf_changed ctx (r_mem w) (r_mem w') T gp l t t'.
Proof.
  destruct new_table as [Htb Hok]. pose proof Hlf as [HF Hown _ Hgp Ht _ _ _ _]. split; [done|done|by rewrite Htb, lookup_insert_eq|apply new_leaves|done|].
  intros x lx Hx Hne. split; [by rewrite Htb, lookup_insert_ne by congruence|]. destruct (after_same x Hne) as [Hg|]; [|done]. exfalso. destruct (given_data x Hg) as [_ Hgd].
  by rewrite (not_in_tree _ _ _ _ _ (own_tree _ _ _ _ _ _ Hown) Hgd) in Hx.
Qed.

Lemma after_leaf : leaf_of w' F g rd ctx lpa2 T gp l base top t'.
Proof.
  destruct after_inv as (Hinv' & Hown' & _). destruct new_table as [Htb Hok]. pose proof Hlf as [HF Hown Hc Hgp Ht Hv Hb Htp Hhalf].
  split; try done; [by rewrite Htb, lookup_insert_eq|]. eapply (visits_below ctx lpa2 (r_mem w) (r_mem w') T gp l); try done; [apply Hown|].
  intros x lx _ Hne. by rewrite Htb, lookup_insert_ne by congruence.
Qed.

(** Addresses of the range, and all others. *)
Lemma after_inside a : base <= a < addr -> exists k out attrs, translate ctx (r_mem w) a = Some (k, out, attrs) /\
  if kind_live k then takes flavor k = true /\ exists attrs', translate ctx (r_mem w') a = Some (vacated k, 0, attrs')
  else translate ctx (r_mem w') a = Some (k, out, attrs).
Proof.
  intros Ha. destruct (range_entry Hlf idx addr a Hdiv Hst Ha) as (Hj & Haj & Hj2 & Hr). set (j := start + (a - base) / ms) in *. destruct (leaf_level_ok Hlf) as (_ & Hlv & Hl & _).
  destruct (arr_get_some t j) as [e He]; [rewrite (table_512 Hlf); unfold N_S2TTES; pose proof (entry_index_base Hlf); lia|].
  pose proof (entry_translate after_leaf) as Hafter.
  destruct (entry_cases j e He) as (e' & He' & [[-> Hd]|(k & pa & _ & Hlive & Hb & Htk & Hl')]).
  - destruct (dead_entry ctx lpa2 l e a Hl Hlv (table_entry_ok Hlf j e He) (Hd Hj)) as (Hnt & k & attrs & Hk & Hm).
    exists k, 0, attrs. rewrite (entry_translate Hlf j e a Hdiv ltac:(lia) Haj Hr He Hnt), Hm, Hk. split; [done|].
    by rewrite (Hafter j e a Hdiv ltac:(lia) Haj Hr He' Hnt).
  - destruct (entry_says Hlf j k pa a Hdiv ltac:(lia) Haj Hr) as [attrs Htr]; [by exists e|]. eexists k, _, attrs. split; [exact Htr|].
    destruct (taken_live flavor Hfl k Htk) as [-> _]. split; [done|]. destruct (vacated_dead k Htk) as [Hv Hvt].
    destruct (left_behind_meaning ctx lpa2 l h y k e' a Hl Hlv Hl' Hv) as [attrs' Hm]. exists attrs'. rewrite (Hafter j e' a Hdiv ltac:(lia) Haj Hr He'); [done|].
    intros Hlt. apply (left_behind_leaf ctx lpa2 l h y k); try done. lia.
Qed.

Lemma after_outside a : 0 <= a < 2 ^ ipa_bits ctx -> ~ (base <= a < addr) -> translate ctx (r_mem w') a = translate ctx (r_mem w) a.
Proof.
  intros Ha Hout. pose proof Hlf as [HF Hown Hc Hgp Ht Hv Hb Htp _]. destruct (leaf_level_ok Hlf) as (_ & Hlv & Hl & H52). pose proof (ms_pos Hlf) as Hms.
  destruct (translate_leaf ctx lpa2 (r_mem w) (r_mem w') T gp l t t' a base Hc (own_tree _ _ _ _ _ _ Hown) Ha Hb Hv after_changed) as [|(e & e' & Hs & He & He' & Hne & _)]; [done|].
  exfalso. apply Hout. destruct (entry_cases _ e He) as (e1 & He1 & [[-> _]|(k & pa & Hj & _)]); [congruence|]. destruct Hst as (Hi & Had & Htop). unfold S2TTES_PER_S2TT in Hi. unfold map_size in Had.
  set (j := s2_addr_to_idx a l) in *. destruct (leaf_entry_addr Hlf j Hdiv ltac:(lia)) as (Hvj & Hij & Hdj & H0); [nia|]. set (aj := base + (j - start) * ms) in *.
  assert (Haj : aj < 2 ^ ipa_bits ctx) by (unfold aj; nia).
  assert (Hsp : a / 2 ^ span l = aj / 2 ^ span l).
  { rewrite Hs. symmetry. apply (visits_unique ctx lpa2 (r_mem w) T aj base gp l Hc (own_tree _ _ _ _ _ _ Hown)); (done || lia). }
  pose proof (same_entry a aj l Hlv ltac:(lia) ltac:(lia) Hsp ltac:(lia)) as Hse. apply same_block in Hse; [|lia|done]. unfold aj in *. nia.
Qed.

Lemma took_ok : took w w' F g rd ctx T gp base addr (held flavor al uctx).
Proof.
  destruct after_inv as (Hinv' & Hown' & Hag). destruct new_table as [Htb _].
  pose proof (fun x => (given_behind Hlf) idx addr y h t' x Hdiv Hst (lr_entries _ _ _ _ _ _ _ _ _ _ _ _ _ _ _ Hrun) (lr_backed _ _ _ _ _ _ _ _ _ _ _ _ _ _ _ Hrun)) as Hgb.
  split; try done.
  - apply after_outside.
  - apply after_inside.
  - intros g0 i0 T0 rd0 ctx0 a HF0 Hn Hown0 Ha. destruct (owns_ctx_ok _ _ _ _ _ _ Hown0) as [lpa20 Hc0].
    eapply translate_frame; [exact Hc0|apply Hown0|by eapply Hag|done].
  - intros x Hx. by rewrite Htb, lookup_insert_ne by congruence.
  - intros x Hx%Hgb. by apply given_data.
  - intros x Hx%Hgb. destruct (given_data x Hx) as [Hne _]. destruct (lr_back _ _ _ _ _ _ _ _ _ _ _ _ _ _ _ Hrun x Hx) as [|Hd]; [by left|right]. by apply set_leaf_ne.
  - intros x Hx. by apply Hgb, (lr_sub _ _ _ _ _ _ _ _ _ _ _ _ _ _ _ Hrun).
  - intros x Hx. destruct (after_same x Hx) as [Hg|]; [left; by apply Hgb|by right].
Qed.

(** ** Ready for the next command *)

Lemma after_free : active_free (r_mem w').
Proof.
  intros addr0 x size Ha. destruct (rdy_free _ _ _ Hrdy addr0 x size Ha) as (a & Hga & Hun). destruct (decide (x = gp)) as [->|Hne].
  - destruct new_table as [_ (t2 & _ & _ & Hg & _)]. by eexists.
  - destruct (after_same x Hne) as [Hx|Hs]; [|exists a; split; [by eapply granule_at_descs|done]].
    destruct (lr_back _ _ _ _ _ _ _ _ _ _ _ _ _ _ _ Hrun x Hx) as [Hh|Hd]; [|eexists; split; [by apply set_leaf_ne|done]].
    destruct (held_state x Hh) as (s & Hs & _). eexists. split; [by apply set_leaf_ne|done].
Qed.

Lemma after_marks h' : h' <> h \/ y = false -> no_marks w F h' -> no_marks w' F h'.
Proof.
  intros Hh' Hmk key T0 g0 l0 t0 j e0 HF0 HT0 Ht0 He0. destruct new_table as [Htb _]. rewrite Htb in Ht0.
  destruct (decide (g0 = gp)) as [->|Hne]; [|rewrite lookup_insert_ne in Ht0 by congruence; by eapply Hmk].
  rewrite lookup_insert_eq in Ht0. injection Ht0 as <-. pose proof (lo_table _ _ _ _ _ _ _ _ _ _ _ _ Hlf) as Ht. destruct (leaf_level_ok Hlf) as (_ & Hlv & Hl & _).
  destruct (arr_get_some t j) as [e He]; [rewrite <- (proj1 (lr_entries _ _ _ _ _ _ _ _ _ _ _ _ _ _ _ Hrun)); by eapply arr_get_lt|].
  destruct (entry_cases j e He) as (e' & He' & [[-> _]|(k & pa & _ & _ & _ & _ & Hl')]); rewrite He' in He0; injection He0 as <-.
  - by apply (Hmk key T0 gp l0 t j).
  - destruct y; cbn in Hl'.
    + destruct Hl' as (_ & Hm & _). rewrite Hm. destruct Hh' as [Hh'|]; [|done]. by apply Z.eqb_neq.
    + unfold mineb. by rewrite (built_not_pending ctx lpa2 l (vacated k) 0 e' Hl Hlv Hl').
Qed.

(** What is mapped afterwards was mapped before. *)
Lemma after_owns g0 i0 T0 rd0 ctx0 : F !! (g0, i0) = Some T0 -> owns w' g0 i0 rd0 ctx0 T0 -> owns w g0 i0 rd0 ctx0 T0.
Proof.
  intros HF0 [O1 _ O3 _ _]. destruct (inv_own _ _ (rdy_inv _ _ _ Hrdy) _ _ _ HF0) as (rd1 & ctx1 & Ho). pose proof Ho as [P1 _ P3 _ _].
  destruct Hrest as [Hrd _]. rewrite Hrd in O1. assert (rd1 = rd0) as -> by congruence. by assert (ctx1 = ctx0) as -> by congruence.
Qed.

Lemma after_translate g0 i0 T0 rd0 ctx0 a x : F !! (g0, i0) = Some T0 -> owns w' g0 i0 rd0 ctx0 T0 -> 0 <= a < 2 ^ ipa_bits ctx0 ->
  translate ctx0 (r_mem w') a = Some x -> translate ctx0 (r_mem w) a = Some x \/
  (exists k attrs', takes flavor k = true /\ x = (vacated k, 0, attrs') /\ (g0, i0) = (g, PRIMARY_S2_CTX_ID) /\ ctx0 = ctx /\ rd0 = rd /\ base <= a < addr).
Proof.
  intros HF0 Ho' Ha Htr. pose proof took_ok as Htk. pose proof (after_owns _ _ _ _ _ HF0 Ho') as Ho. destruct (decide ((g0, i0) = (g, PRIMARY_S2_CTX_ID))) as [Heq|Hne].
  - injection Heq as -> ->. pose proof (lo_own _ _ _ _ _ _ _ _ _ _ _ _ Hlf) as Hown. destruct Ho as [P1 _ P3 _ _], Hown as [Q1 _ Q3 _ _].
    assert (rd0 = rd) as -> by congruence. assert (ctx0 = ctx) as -> by congruence. destruct (decide (base <= a < addr)) as [Hin|Hout].
    + destruct (tk_inside _ _ _ _ _ _ _ _ _ _ _ Htk a Hin) as (k & out & attrs & Hw & Hc). destruct (kind_live k) eqn:Hk; [|left; congruence].
      destruct Hc as (Htak & attrs' & Hw'). right. exists k, attrs'. split_and!; try done; try lia. congruence.
    + left. by rewrite <- (tk_outside _ _ _ _ _ _ _ _ _ _ _ Htk a Ha Hout).
  - left. by rewrite <- (tk_others _ _ _ _ _ _ _ _ _ _ _ Htk g0 i0 T0 rd0 ctx0 a HF0 Hne Ho Ha).
Qed.

Lemma after_maps g0 i0 p o : maps w' F g0 i0 p o -> maps w F g0 i0 p o.
Proof.
  intros (T0 & rd0 & ctx0 & a & k & out & attrs & HF0 & Ho & Ha & Hp & Htr & Hk & Hout). exists T0, rd0, ctx0, a, k, out, attrs. split_and!; try done; try lia.
  - by apply after_owns.
  - destruct (after_translate g0 i0 T0 rd0 ctx0 a _ HF0 Ho Ha Htr) as [|(k0 & at0 & Htk & [= -> -> ->] & _)]; [done|]. by destruct flavor, k0.
Qed.

Lemma after_ready h' : h' <> h \/ y = false -> ready w F h' -> ready w' F h'.
Proof.
  intros Hh' [R1 R2 R3 R4 R5 R6 R7]. pose proof took_ok as Htk. split.
  - apply Htk.
  - intros g1 i1 p1 g2 i2 p2 o H1%after_maps H2%after_maps. by eapply R2.
  - intros g0 T0 rd0 ctx0 a k out attrs prot HF0 Ho Ha Hpar Htr.
    destruct (after_translate g0 _ T0 rd0 ctx0 a _ HF0 Ho Ha Htr) as [Hw|(k0 & at0 & Htak & [= -> -> ->] & _ & -> & -> & Hin)].
    + eapply R3; try done. by eapply after_owns.
    + pose proof (lo_half _ _ _ _ _ _ _ _ _ _ _ _ Hlf a) as Hhalf. destruct Hst as (_ & _ & Hle). rewrite Hhalf in Hpar by lia. injection Hpar as <-. by destruct flavor, k0.
  - apply after_free.
  - by apply after_marks.
  - done.
  - intros g0 rd0 ctx0. rewrite (proj1 Hrest). by apply R7.
Qed.

End After.
End Run.

