(* ===== verification/UnmapCmd.v ===== *)
(** * The unmapping commands

    RMI_RTT_DATA_UNMAP, RMI_RTT_UNPROT_UNMAP and the resumption of either by
    RMI_OP_CONTINUE, from any state that satisfies the invariant, with any
    arguments and any schedule of interrupts. *)

From Stdlib Require Import ZArith Lia Bool ZifyBool.
From stdpp Require Import base tactics option list numbers gmap.
From S2P Require Import Prelude.
From S2P Require Import Utils.
From S2P Require Import Status.
From S2P Require Import Smc.
From S2P Require Import Granule.
From S2P Require Import Mem.
From S2P Require Import Arch.
From S2P Require Import AddrList.
From S2P Require Import Sro.
From S2P Require Import S2tte.
From S2P Require Import S2tteFacts.
From S2P Require Import S2tteProps.
From S2P Require Import S2ttTable.
From S2P Require Import S2ttWalk.
From S2P Require Import Realm.
From S2P Require Import RttTree.
From S2P Require Import Rmm.
From S2P Require Import SroPool.
From S2P Require Import RttCmds.
From S2P Require Import RttUnmap.
From S2P Require Import RttInv.
From S2P Require Import UnmapPass.
From S2P Require Import UnmapDrain.
From S2P Require Import UnmapStep.
From S2P Require Import UnmapStamp.
From S2P Require Import UnmapValid.
From S2P Require Import UnmapSweep.
From S2P Require Import UnmapLeaf.
From S2P Require Import RttPath.
From S2P Require Import RttRefuse.
From S2P Require Import RttCreate.
From S2P Require Import RttRange.
From S2P Require Import RttIsolation.
From S2P Require Import UnmapInv.
From S2P Require Import UnmapRun.

Section Cmd.
Context `{feat : ArchFeatures} `{laws : ActiveLaws} `{env : UnmapEnv} `{host : UnmapHost}.
Context (submit_ok : forall vs addr level num leaf, smmuv3_inv_at_level_per_vmids_submit vs addr level num leaf = 0).
Context (flavor : rtt_unmap_flavor) (Hfl : flavor <> RTT_UNMAP_FLAVOR_DEV).
Implicit Types (u : urmm) (w : rmm) (F : forest) (rd : rd) (ctx : s2tt_context) (T : tree) (m : mem) (t : list Z) (uctx : sro_unmap_ctx) (al : addr_list) (evs : list event).

(** ** An operation *)

(** The state with one table locked. *)
Definition at_leaf u w (gp : Z) : urmm := URmm (with_mem w (with_lock (r_mem w) gp)) (u_devs u) (u_sro u) (u_isr u) (u_polls u).

(** [w'] is [w] after the operation with handle [h] has worked on the range from
    [base] to [addr], to the end or up to a point where it yielded ([y]); [evs] is
    what hardware has seen of it. *)
Record operation (y : bool) w w' F (g : Z) rd ctx (lpa2 : bool) T (gp l base top addr h : Z) al uctx evs : Prop := {
  op_ready : ready w F h;
  op_leaf : exists t, leaf_of flavor w F g rd ctx lpa2 T gp l base top t /\
    exists u m' idx t', (s2tte_map_size l | base) /\ stopped l (s2_addr_to_idx base l) base top idx addr /\
      leaf_run ctx l flavor h y (at_leaf u w gp) m' evs gp (s2_addr_to_idx base l) idx t t' al uctx /\
      r_mem w' = set_granule m' gp (AGranule false GRANULE_STATE_RTT (table_refs ctx l t'));
  op_rest : r_rds w' = r_rds w /\ r_vttbr w' = r_vttbr w;
  op_log : r_log w' = r_log w ++ evs;
  op_ctx : sro_handle uctx = h /\ leaf_level uctx = l /\ cur_base uctx = addr /\ leaf_base_ipa uctx = base - s2_addr_to_idx base l * s2tte_map_size l;
  op_realm : vmids_complete rd ctx (flavor_is flavor RTT_UNMAP_FLAVOR_UNPROT) (vmid_list uctx) /\ u_da_enabled uctx = da_enabled rd;
  op_table_at : u_g_llt uctx = Some gp;
  op_list : al_wf al /\ al_type al = LIST_TYPE_OUTPUT /\ (oaddr_type uctx = RMI_ADDR_TYPE_LIST -> ALIGNED (oaddr uctx) 8 = true)
}.

Lemma operation_took y w w' F g rd ctx lpa2 T gp l base top addr h al uctx evs :
  operation y w w' F g rd ctx lpa2 T gp l base top addr h al uctx evs ->
  took flavor w w' F g rd ctx T gp base addr (held flavor al uctx) /\ base < addr <= top.
Proof.
  intros [Hr (t & Hlf & u & m' & idx & t' & Hd & Hst & Hrun & Hm) Hrest _ _ _ _ _]. split.
  - by eapply (took_ok flavor Hfl w F g rd ctx lpa2 T gp l base top t Hlf (at_leaf u w gp)).
  - destruct Hst as (Hi & Had & Htop). pose proof Hlf as Hms. apply ms_pos in Hms. unfold map_size in Had. split; [nia|done].
Qed.

(** When it has ended it holds nothing. *)
Lemma operation_ends y w w' F g rd ctx lpa2 T gp l base top addr h al uctx evs :
  operation y w w' F g rd ctx lpa2 T gp l base top addr h al uctx evs -> y = false -> forall x, ~ held flavor al uctx x.
Proof.
  intros [_ (t & _ & u & m' & idx & t' & _ & _ & Hrun & _) _ _ _ _ _ _] ->. apply (lr_next _ _ _ _ _ _ _ _ _ _ _ _ _ _ _ Hrun).
Qed.

(** Address [a] of the realm was invalidated in the TLBs, and in the SMMUs. *)
Definition invalidated_at uctx (vttbr a : Z) evs : Prop := exists j,
  entry_ipa (op_of uctx) j <= a < entry_ipa (op_of uctx) j + s2tte_map_size (leaf_level uctx) /\ flushed (op_of uctx) vttbr j evs.

(** Memory is given back only after every address of the range that hardware could
    translate was invalidated; when the operation has ended all of them were. *)
Lemma operation_order y w w' F g rd ctx lpa2 T gp l base top addr h al uctx evs a k out attrs :
  operation y w w' F g rd ctx lpa2 T gp l base top addr h al uctx evs ->
  base <= a < addr -> translate ctx (r_mem w) a = Some (k, out, attrs) -> hw_valid k = true ->
  (forall x e1 e2, evs = e1 ++ E_delegated x :: e2 -> invalidated_at uctx (r_vttbr w) a e1) /\
  (y = false -> invalidated_at uctx (r_vttbr w) a evs).
Proof.
  intros [Hr (t & Hlf & u & m' & idx & t' & Hd & Hst & Hrun & Hm) Hrest _ (_ & Hlev & _ & Hip) _ _ _] Ha Htr Hw.
  destruct (range_entry _ _ _ _ _ _ _ _ _ _ _ _ _ Hlf idx addr a Hd Hst Ha) as (Hj & Haj & Hj2 & Hra).
  set (j := s2_addr_to_idx base l + (a - base) / s2tte_map_size l) in *. pose proof (leaf_level_ok _ _ _ _ _ _ _ _ _ _ _ _ _ Hlf) as (_ & Hlv & Hl & _).
  assert (Hvis : visible ctx l flavor (s2_addr_to_idx base l) idx t j).
  { split; [done|]. destruct (arr_get_some t j) as [e He].
    { rewrite (table_512 _ _ _ _ _ _ _ _ _ _ _ _ _ Hlf). pose proof (entry_index_base _ _ _ _ _ _ _ _ _ _ _ _ _ Hlf). unfold N_S2TTES. lia. }
    destruct (lr_entries _ _ _ _ _ _ _ _ _ _ _ _ _ _ _ Hrun) as [_ Hent]. destruct (Hent j e He) as (e' & _ & Hc). rewrite bool_decide_true in Hc by done. cbn [andb] in Hc.
    destruct (s2tte_is_live ctx e l) eqn:El.
    - destruct Hc as (k0 & pa & Hb & Htk & _). assert (Hmp : maps_at ctx l flavor t j pa k0) by (by exists e). exists pa, k0. split; [done|].
      destruct (entry_says flavor Hfl _ _ _ _ _ _ _ _ _ _ _ _ Hlf j k0 pa a Hd ltac:(lia) Haj Hra Hmp) as [at0 Htr0]. rewrite Htr0 in Htr. injection Htr as -> _ _. done.
    - destruct (dead_entry ctx lpa2 l e a Hl Hlv (table_entry_ok _ _ _ _ _ _ _ _ _ _ _ _ _ Hlf j e He) El) as (Hnt & k0 & at0 & Hk0 & Hm0).
      rewrite (entry_translate _ _ _ _ _ _ _ _ _ _ _ _ _ Hlf j e a Hd ltac:(lia) Haj Hra He Hnt), Hm0 in Htr. injection Htr as -> _ _. by destruct k. }
  assert (Hipa : entry_ipa (op_of uctx) j <= a < entry_ipa (op_of uctx) j + s2tte_map_size (leaf_level uctx)).
  { unfold entry_ipa. cbn. rewrite Hip, Hlev. lia. }
  split.
  - intros x e1 e2 He. exists j. split; [done|]. by apply (lr_order _ _ _ _ _ _ _ _ _ _ _ _ _ _ _ Hrun x e1 e2).
  - intros ->. exists j. split; [done|]. destruct (lr_next _ _ _ _ _ _ _ _ _ _ _ _ _ _ _ Hrun) as [_ Hf]. by apply Hf.
Qed.

(** ** The walk *)

Lemma lock_unlock_walk {A} u w rd_addr g ctx lpa2 T addr level (K : s2tt_walk -> U A) (Q : A -> urmm -> Prop) :
  ctx_ok ctx lpa2 -> rtt_inv ctx (r_mem w) T -> names_rd w rd_addr g -> 0 <= addr < 2 ^ ipa_bits ctx -> s2_starting_level ctx <= level <= 3 ->
  u_rmm u = with_mem w (with_lock (r_mem w) g) ->
  (forall wi, walked w ctx T addr level wi -> runs (K wi) (at_leaf u w (g_llt wi)) Q) ->
  runs (_ <-! on_rmm (h_granule_lock (g_rtt ctx) GRANULE_STATE_RTT) ;;
        _ <-! on_rmm (h_granule_unlock g) ;;
        wi <-! on_rmm (on_mem (s2tt_walk_lock_unlock ctx addr level)) ;; K wi) u Q.
Proof.
  intros Hc Hinv (_ & r & Hg) Ha Hlv Hu HQ. assert (Hrd : T !! g = None) by (by eapply not_in_tree).
  pose proof (rtt_inv_tree _ _ _ Hinv) as Ht. pose proof (tree_ok_with_lock _ _ _ _ Ht Hrd) as Ht1.
  assert (Hr0 : T !! g_rtt ctx = Some (s2_starting_level ctx)) by (by destruct (ri_roots _ _ _ Hinv) as (ra & _ & _ & H & _)).
  assert (Hne : g_rtt ctx <> g) by congruence.
  apply runs_bind, runs_on_rmm. rewrite Hu. eapply runs_on_mem; [eapply lock_table; [exact Ht1|exact Hr0]|].
  apply runs_bind, runs_on_rmm. cbn [u_rmm]. eapply runs_on_mem; cbn [r_mem with_mem].
  { rewrite with_lock_comm by done. apply (with_lock_unlock _ g (AGranule false GRANULE_STATE_RD r)); [|done]. by apply granule_at_with_lock_ne. }
  apply runs_bind, runs_on_rmm. cbn [u_rmm].
  destruct (walk_ok ctx (r_mem w) T addr level lpa2 Hc Ht (ri_roots _ _ _ Hinv) Ha Hlv)
    as (root & wi & Hw & Hroot & Hpw & Hidx & Hir & HT & Hll & Hstop).
  eapply runs_on_mem; [exact Hw|]. rewrite !with_mem_mem. apply HQ. split; try done. by exists root.
Qed.

(** The release of the leaf. *)
Lemma unlock_leaf u g r (Q : unit -> urmm -> Prop) :
  descs (r_mem (u_rmm u)) !! g = Some (encode GRN (AGranule true GRANULE_STATE_RTT r)) ->
  a_wf GRN (AGranule false GRANULE_STATE_RTT r) -> ref_ok GRANULE_STATE_RTT r = true ->
  Q tt (URmm (with_mem (u_rmm u) (set_granule (r_mem (u_rmm u)) g (AGranule false GRANULE_STATE_RTT r))) (u_devs u) (u_sro u) (u_isr u) (u_polls u)) ->
  runs (on_rmm (h_granule_unlock g)) u Q.
Proof.
  intros Hd Hwf Hok HQ. apply runs_on_rmm. eapply runs_on_mem; [|exact HQ].
  by apply (m_granule_unlock_ok _ g (AGranule true GRANULE_STATE_RTT r)).
Qed.

(** ** One call *)

(** What the handler has prepared when the walk begins. *)
Record prepared rd ctx (h : Z) (lpa2 : bool) (base : Z) uctx al : Prop := {
  pr_ids : sro_handle uctx = h /\ enable_lpa2 uctx = lpa2 /\ vmid_list uctx <> [];
  pr_clean : smmu_tlbi_pending uctx = false;
  pr_cursor : flavor = RTT_UNMAP_FLAVOR_DATA -> backing_addr uctx = NO_ADDR /\
    pending_desc_idx uctx = 0 /\ pending_blk_idx uctx = 0 /\ pending_pa uctx = NO_ADDR;
  pr_list : list_use al /\ blocks al = [];
  pr_addr : oaddr_type uctx = RMI_ADDR_TYPE_LIST -> ALIGNED (oaddr uctx) 8 = true;
  pr_base : cur_base uctx = base;
  pr_realm : vmids_complete rd ctx (flavor_is flavor RTT_UNMAP_FLAVOR_UNPROT) (vmid_list uctx) /\ u_da_enabled uctx = da_enabled rd
}.

Lemma prepared_new rd ctx h lpa2 base uctx al gl :
  prepared rd ctx h lpa2 base uctx al -> new_op lpa2 flavor h (set_tlbi_done false (set_coarse None None (set_g_llt gl uctx))) al.
Proof. intros [H1 H2 H3 H4 H5 _ _]. by split. Qed.

Lemma coarse_unlock_none u (Q : unit -> urmm -> Prop) : Q tt u -> runs (rtt_unmap_coarse_unlock no_coarse) u Q.
Proof. intros HQ. apply runs_bind, runs_ret, runs_ret, HQ. Qed.

Lemma unmap_run_ok u w F rd_addr g rd ctx lpa2 T base top h uctx al res (Q : rtt_unmap_run_result * sweep -> urmm -> Prop) :
  ready w F h -> names_rd w rd_addr g -> F !! (g, PRIMARY_S2_CTX_ID) = Some T -> owns w g PRIMARY_S2_CTX_ID rd ctx T -> ctx_ok ctx lpa2 ->
  u_rmm u = with_mem w (with_lock (r_mem w) g) -> 0 <= base -> base < top <= 2 ^ ipa_bits ctx ->
  (forall a, base <= a < top -> addr_in_par rd a = Some (negb (flavor_is flavor RTT_UNMAP_FLAVOR_UNPROT))) ->
  prepared rd ctx h lpa2 base uctx al ->
  (forall s', res_x0 (sw_res s') <> RMI_SUCCESS -> Q (RTT_UNMAP_RUN_DONE, s') (URmm w (u_devs u) (u_sro u) (u_isr u) (u_polls u))) ->
  (forall (y : bool) s' w' gp l al1 uctx' evs n p, ticks (u_isr u) y n ->
     operation y w w' F g rd ctx lpa2 T gp l base top (cur_base uctx') h al1 uctx' evs ->
     leaf_res res y uctx' s' al1 ->
     Q (if y then RTT_UNMAP_RUN_YIELD else RTT_UNMAP_RUN_DONE, s') (URmm w' (u_devs u) (u_sro u) n p)) ->
  runs (rtt_unmap_run g rd flavor top uctx al res) u Q.
Proof.
  intros Hrdy Hg HF Hown Hc Hu Hb0 Htop Hhalf Hpr Herr HQ. unfold rtt_unmap_run. eapply runs_bind, runs_lift; [apply Hown|].
  rewrite (pr_base _ _ _ _ _ _ _ Hpr). pose proof (own_tree _ _ _ _ _ _ Hown) as Htree. pose proof Hc as [_ _ Hsl _ _].
  apply (lock_unlock_walk u w rd_addr g ctx lpa2 T base S2TT_PAGE_LEVEL); try done; [lia|unfold S2TT_PAGE_LEVEL; destruct lpa2; lia|].
  intros wi Hwk. destruct (walked_visits _ _ _ _ _ _ Hwk ltac:(done)) as [Hvis Hix]. pose proof (wk_tree _ _ _ _ _ _ Hwk) as Hgp.
  pose proof (proj2 (wk_index _ _ _ _ _ _ Hwk)) as Hir.
  destruct (tree_table_at _ _ _ _ _ Htree Hgp) as (t & Ht & Hlen & _ & Hgr & _).
  assert (Hlf : leaf_of flavor w F g rd ctx lpa2 T (g_llt wi) (last_level wi) base top t) by (split; try done; lia).
  pose proof (leaf_level_ok flavor _ _ _ _ _ _ _ _ _ _ _ _ Hlf) as (Hlv & _ & Hl & _).
  assert (Hlt : leaf_table ctx lpa2 (last_level wi) flavor h (at_leaf u w (g_llt wi)) (g_llt wi) (index wi) base top t)
    by (rewrite Hix; by eapply leaf_ready).
  apply runs_bind. eapply (unmap_leaf_ok submit_ok ctx lpa2 (last_level wi) flavor h Hl Hlv Hfl (rdy_handle _ _ _ Hrdy) _ wi base top t); try done; [exact (pr_base _ _ _ _ _ _ _ Hpr)|by eapply prepared_new| |].
  - intros s' Hco Hx. cbn [snd]. rewrite Hco. apply runs_bind, coarse_unlock_none. destruct (ref_ok_table ctx (last_level wi) t Hlen).
    apply runs_bind, runs_on_rmm. eapply runs_on_mem; [by apply (with_lock_unlock (r_mem w) _ _ Hgr)|].
    apply runs_ret. cbn [u_rmm at_leaf]. rewrite with_mem_mem, with_mem_id. by apply Herr.
  - intros y uctx' t' al1 s' u' Hd Hs (m' & evs & n & p & idx & -> & Hn & Hst & Hrun) Hwf Hty Hres. cbn [snd]. rewrite (proj1 Hres).
    apply runs_bind, coarse_unlock_none. pose proof (lr_leaf _ _ _ _ _ _ _ _ _ _ _ _ _ _ _ Hrun) as Hlk.
    assert (Hlen' : length t' = N_S2TTES) by (rewrite (proj1 (lr_entries _ _ _ _ _ _ _ _ _ _ _ _ _ _ _ Hrun)); done).
    destruct (ref_ok_table ctx (last_level wi) t' Hlen'). apply runs_bind. eapply unlock_leaf; [exact Hlk|done|done|].
    apply runs_ret. cbn [u_rmm with_rmm u_devs u_sro u_isr u_polls at_leaf].
    unfold static, op_of in Hs. injection Hs as S1 S2 S3 S4 S5 S6 S7 S8 S9. cbn in *.
    eapply (HQ y s' _ (g_llt wi) (last_level wi) al1 uctx' evs); try done. split; try done.
    + exists t. split; [done|]. exists u, m', idx, t'. rewrite <- Hix. done.
    + destruct Hpr as [(P1 & _) _ _ _ _ _ _]. split_and!; [congruence|done|done|by rewrite <- Hix].
    + destruct Hpr as [_ _ _ _ _ _ [P6 P7]]. split; [by rewrite S3|congruence].
    + destruct Hpr as [_ _ _ _ P5 _ _]. split_and!; [done|done|]. intros Hlist. replace (oaddr uctx') with (oaddr uctx) by congruence. apply P5. congruence.
Qed.

(** ** Resuming *)

Lemma operation_ready y w w' F g rd ctx lpa2 T gp l base top addr h al uctx evs h' :
  operation y w w' F g rd ctx lpa2 T gp l base top addr h al uctx evs -> h' <> h \/ y = false -> ready w F h' -> ready w' F h'.
Proof.
  intros [Hr (t & Hlf & u & m' & idx & t' & Hd & Hst & Hrun & Hm) Hrest _ _ _ _ _] Hh'.
  by eapply (after_ready flavor Hfl w F g rd ctx lpa2 T gp l base top t Hlf (at_leaf u w gp)).
Qed.

(** The table of an operation, locked again. *)
Lemma relock_leaf u m g r (Q : unit -> urmm -> Prop) :
  r_mem (u_rmm u) = set_granule m g (AGranule false GRANULE_STATE_RTT r) -> descs m !! g = Some (encode GRN (AGranule true GRANULE_STATE_RTT r)) ->
  a_wf GRN (AGranule false GRANULE_STATE_RTT r) -> ref_ok GRANULE_STATE_RTT r = true ->
  Q tt (URmm (with_mem (u_rmm u) m) (u_devs u) (u_sro u) (u_isr u) (u_polls u)) ->
  runs (on_rmm (h_granule_lock g GRANULE_STATE_RTT)) u Q.
Proof.
  intros Hm Hd Hwf Hok HQ. apply runs_on_rmm. eapply runs_on_mem; [|exact HQ]. rewrite Hm.
  etransitivity; [apply (m_granule_lock_ok _ g (AGranule false GRANULE_STATE_RTT r)); [split; [apply lookup_insert_eq|done]|done]|].
  rewrite set_granule_set. do 2 f_equal. by apply set_granule_id.
Qed.

Lemma operation_resume {A} u w F g rd ctx lpa2 T gp l base top addr h al uctx evs (K : bool -> sro_unmap_ctx -> U A) (Q : A -> urmm -> Prop) :
  operation true w (u_rmm u) F g rd ctx lpa2 T gp l base top addr h al uctx evs ->
  (forall y w' uctx' evs' n p, ticks (u_isr u) y n -> operation y w w' F g rd ctx lpa2 T gp l base top addr h al uctx' (evs ++ evs') ->
     static uctx' = static uctx -> runs (K y uctx') (URmm w' (u_devs u) (u_sro u) n p) Q) ->
  runs (_ <-! on_rmm (h_granule_lock gp GRANULE_STATE_RTT) ;;
        r <-! rtt_unmap_drain_and_clear uctx al gp flavor ;;
        let '(yielded, ctx) := r in
        _ <-! on_rmm (h_granule_unlock gp) ;; K yielded ctx) u Q.
Proof.
  intros [Hr (t & Hlf & u0 & m' & idx & t' & Hd & Hst & Hrun & Hm) [Hrd Hvt] Hlog (C1 & C2 & C3 & C4) Hrealm Hgl Hlist] HQ.
  assert (Hlen : length t = N_S2TTES) by (by eapply (table_512 flavor)).
  assert (Hlen' : length t' = N_S2TTES) by (rewrite (proj1 (lr_entries _ _ _ _ _ _ _ _ _ _ _ _ _ _ _ Hrun)); done).
  pose proof (lr_leaf _ _ _ _ _ _ _ _ _ _ _ _ _ _ _ Hrun) as Hlk. destruct (ref_ok_table ctx l t' Hlen') as [Hwf Hok].
  apply runs_bind. eapply relock_leaf; [exact Hm|exact Hlk|done|done|].
  pose proof (leaf_level_ok flavor _ _ _ _ _ _ _ _ _ _ _ _ Hlf) as (Hlv & _ & Hl & _).
  pose proof (leaf_ready flavor Hfl _ _ _ _ _ _ _ _ _ _ _ _ Hlf (at_leaf u0 w gp) h eq_refl Hr) as Hlt.
  apply runs_bind. eapply (resume_ok submit_ok ctx lpa2 l flavor h Hl Hfl (at_leaf u0 w gp)
    _ gp (s2_addr_to_idx base l) idx t t' evs al uctx); try done; [apply Hlt|apply Hlt|].
  intros y uctx2 t2 m2 evs2 n p Htk Hstat Hrun2. cbn [u_rmm u_devs u_sro u_isr u_polls with_rmm] in *.
  assert (Hlen2 : length t2 = N_S2TTES) by (rewrite (proj1 (lr_entries _ _ _ _ _ _ _ _ _ _ _ _ _ _ _ Hrun2)); done).
  destruct (ref_ok_table ctx l t2 Hlen2). apply runs_bind. eapply unlock_leaf; [exact (lr_leaf _ _ _ _ _ _ _ _ _ _ _ _ _ _ _ Hrun2)|done|done|].
  cbn [u_rmm u_devs u_sro u_isr u_polls with_rmm]. eapply (HQ y _ uctx2 evs2); [done| |done].
  pose proof Hstat as Hs. unfold static, op_of in Hs. injection Hs as S1 S2 S3 S4 S5 S6 S7 S8 S9. split; try done.
  - exists t. split; [done|]. exists u0, m2, idx, t2. done.
  - cbn. by rewrite Hlog, app_assoc.
  - split_and!; congruence.
  - rewrite S3, S4. done.
  - congruence.
  - destruct Hlist as (L1 & L2 & L3). split_and!; [done|done|]. replace (oaddr uctx2) with (oaddr uctx) by congruence. replace (oaddr_type uctx2) with (oaddr_type uctx) by congruence. done.
Qed.

End Cmd.
