(* ===== verification/UnmapSmc.v ===== *)
(** * RMI_RTT_DATA_UNMAP and RMI_RTT_UNPROT_UNMAP

    The handlers of [runtime/rmi/rtt_unmap.c] from the reservation of a context to
    its release or seal, and [rtt_unmap_continue_handler]. *)

From Stdlib Require Import ZArith Lia Bool ZifyBool.
From stdpp Require Import base tactics option list numbers gmap.
From S2P Require Import Prelude.
From S2P Require Import Utils.
From S2P Require Import Status.
From S2P Require Import Smc.
From S2P Require Import Granule.
From S2P Require Import Mem.
From S2P Require Import Arch.
From S2P Require Import AddrList.
From S2P Require Import Sro.
From S2P Require Import S2tte.
From S2P Require Import S2tteFacts.
From S2P Require Import S2tteProps.
From S2P Require Import S2ttTable.
From S2P Require Import S2ttWalk.
From S2P Require Import Realm.
From S2P Require Import RttTree.
From S2P Require Import Rmm.
From S2P Require Import SroPool.
From S2P Require Import RttCmds.
From S2P Require Import RttUnmap.
From S2P Require Import RttInv.
From S2P Require Import UnmapPass.
From S2P Require Import UnmapDrain.
From S2P Require Import UnmapStep.
From S2P Require Import UnmapStamp.
From S2P Require Import UnmapValid.
From S2P Require Import UnmapSweep.
From S2P Require Import UnmapLeaf.
From S2P Require Import RttPath.
From S2P Require Import RttRefuse.
From S2P Require Import RttCreate.
From S2P Require Import RttRange.
From S2P Require Import RttIsolation.
From S2P Require Import UnmapInv.
From S2P Require Import UnmapRun.
From S2P Require Import UnmapCmd.

Section Smc.
Context `{feat : ArchFeatures} `{laws : ActiveLaws} `{env : UnmapEnv} `{host : UnmapHost}.
Context (submit_ok : forall vs addr level num leaf, smmuv3_inv_at_level_per_vmids_submit vs addr level num leaf = 0).
Context (flavor : rtt_unmap_flavor) (Hfl : flavor <> RTT_UNMAP_FLAVOR_DEV).
Implicit Types (u : urmm) (w : rmm) (F : forest) (rd : rd) (ctx : s2tt_context) (T : tree) (uctx : sro_unmap_ctx) (al : addr_list) (evs : list event).

(** ** Arguments *)

Lemma half_aligned bits : 12 < bits -> (GRANULE_SIZE | 2 ^ bits) /\ (GRANULE_SIZE | Z.shiftr (2 ^ bits) 1).
Proof.
  intros Hb. change GRANULE_SIZE with (2 ^ 12). split; [apply pow2_divide; lia|].
  rewrite Z.shiftr_div_pow2 by lia. replace (2 ^ bits) with (2 ^ (bits - 1) * 2 ^ 1) by (rewrite <- Z.pow_add_r by lia; f_equal; lia).
  rewrite Z.div_mul by done. apply pow2_divide. lia.
Qed.

(** A multiple of the granule size just above another bound. *)
Lemma page_above a b : (GRANULE_SIZE | a) -> (GRANULE_SIZE | b) -> a - GRANULE_SIZE < b -> a <= b.
Proof. intros [x ->] [y ->]. change GRANULE_SIZE with 4096. lia. Qed.

Lemma slots_left oaddr : ALIGNED oaddr 8 = true -> 0 < sub64 ADDR_LIST_MAX_RANGES (Z.land oaddr (not64 GRANULE_MASK) / 8) <= ADDR_LIST_MAX_RANGES.
Proof.
  intros _. change (not64 GRANULE_MASK) with (Z.ones 12). rewrite Z.land_ones by lia.
  pose proof (Z.mod_pos_bound oaddr (2 ^ 12) ltac:(lia)) as Hm. change (2 ^ 12) with 4096 in *. change ADDR_LIST_MAX_RANGES with 512.
  assert (0 <= oaddr mod 4096 / 8 < 512) by (split; [apply Z.div_pos; lia|apply Z.div_lt_upper_bound; lia]).
  unfold sub64. rewrite u64_small by (unfold in_u64; lia). lia.
Qed.

Lemma unmap_inputs_ok rd lpa2 bits sl base top flags oaddr :
  rd_ok rd lpa2 bits sl -> 12 < bits -> 0 <= base -> 0 <= top ->
  exists v, validate_unmap_inputs base top flags oaddr rd (negb (flavor_is flavor RTT_UNMAP_FLAVOR_UNPROT)) = Some v /\
    match v with
    | inl code => code = RMI_ERROR_INPUT
    | inr (ty, n) => base < top <= 2 ^ bits /\
        (forall a, base <= a < top -> addr_in_par rd a = Some (negb (flavor_is flavor RTT_UNMAP_FLAVOR_UNPROT))) /\
        (ty = RMI_ADDR_TYPE_LIST -> ALIGNED oaddr 8 = true /\ 0 < n <= ADDR_LIST_MAX_RANGES)
    end.
Proof.
  intros Hr Hbits Hb Ht. pose proof (rd_sizes _ _ _ _ Hr) as (_ & _ & _ & Hpar). destruct (half_aligned bits Hbits) as [Hd1 Hd2].
  pose proof (num_planes_eq _ _ _ _ Hr) as [_ Hn]. destruct (rd_get_ctx _ _ _ _ 0 Hr ltac:(lia)) as [ctx Hc].
  destruct (rd_ctx_ok _ _ _ _ Hr 0 ctx ltac:(lia) Hc) as ([_ _ Hs _ _] & _ & Hsl & _). unfold validate_unmap_inputs.
  destruct (GRANULE_ALIGNED base) eqn:E1; [|by eexists]. destruct (GRANULE_ALIGNED top) eqn:E2; [|by eexists]. cbn [negb orb].
  destruct (Z.leb_spec top base) as [|Hlt]; [by eexists|]. apply GRANULE_ALIGNED_spec in E1, E2.
  assert (Hge : GRANULE_SIZE <= top) by (destruct E2 as [y ->]; change GRANULE_SIZE with 4096 in *; lia).
  destruct (map_addr_valid rd lpa2 bits sl base S2TT_PAGE_LEVEL Hr Hb ltac:(unfold S2TT_PAGE_LEVEL; lia)) as (b1 & -> & H1). cbn [mbind option_bind].
  destruct b1; [|by eexists].
  destruct (map_addr_valid rd lpa2 bits sl (top - GRANULE_SIZE) S2TT_PAGE_LEVEL Hr ltac:(lia) ltac:(unfold S2TT_PAGE_LEVEL; lia)) as (b2 & -> & H2). cbn [mbind option_bind].
  destruct b2; [|by eexists]. cbn [negb]. destruct (H2 eq_refl) as [Htop _]. rewrite !Hpar. cbn [mbind option_bind].
  destruct (if negb (flavor_is flavor RTT_UNMAP_FLAVOR_UNPROT) then _ else _) eqn:Ehalf; [by eexists|].
  assert (Hhalf : base < top <= 2 ^ bits /\ forall a, base <= a < top -> addr_in_par rd a = Some (negb (flavor_is flavor RTT_UNMAP_FLAVOR_UNPROT))).
  { split; [split; [done|by apply page_above]|]. intros a Ha. rewrite Hpar. f_equal. destruct (flavor_is flavor RTT_UNMAP_FLAVOR_UNPROT); cbn [negb] in *; [lia|].
    assert (top <= Z.shiftr (2 ^ bits) 1) by (apply page_above; [done|done|lia]). lia. }
  destruct Hhalf as [Hrange Hhalf]. destruct ((_ =? RMI_ADDR_TYPE_NONE) || _) eqn:Ety.
  { destruct (negb (oaddr =? 0) || negb (EXTRACT F_RMI_RTT_UNMAP_FLAGS_LIST_COUNT flags =? 0)); [by eexists (inl _)|]. eexists (inr _). split; [done|]. split; [done|]; split; [done|]. intros Hlist. rewrite Hlist in Ety. done. }
  destruct (_ =? RMI_ADDR_TYPE_LIST) eqn:Elist; [|by eexists].
  destruct (Z.eqb_spec (EXTRACT F_RMI_RTT_UNMAP_FLAGS_LIST_COUNT flags) 0) as [|Hcnt]; [by eexists|].
  destruct (ALIGNED oaddr 8) eqn:Eal; [|by eexists]. cbn [negb]. pose proof (slots_left oaddr Eal) as Hsl8.
  rewrite (proj2 (Z.ltb_lt 0 _)) by lia. eexists. split; [done|]. split_and!; [lia|lia|done|]. intros _. split; [done|].
  pose proof (EXTRACT_range F_RMI_RTT_UNMAP_FLAGS_LIST_COUNT flags ltac:(done)). lia.
Qed.

(** ** The context of the operation *)

Lemma unmap_vmids_ok rd lpa2 bits sl ctx : rd_ok rd lpa2 bits sl -> arr_get (s2_ctxs rd) PRIMARY_S2_CTX_ID = Some ctx ->
  exists vs, unmap_vmids rd flavor = Some vs /\ vs <> [] /\ vmids_complete rd ctx (flavor_is flavor RTT_UNMAP_FLAVOR_UNPROT) vs.
Proof.
  intros Hr Hc. pose proof (num_planes_eq _ _ _ _ Hr) as [_ Hn].
  destruct (vmids_ok rd lpa2 bits sl ctx PRIMARY_S2_CTX_ID (flavor_is flavor RTT_UNMAP_FLAVOR_UNPROT) Hr ltac:(unfold PRIMARY_S2_CTX_ID, PLANE_0_ID; lia) Hc) as (vs & Hv & Hne & Hall).
  exists vs. split; [|done]. unfold unmap_vmids. rewrite Hc. cbn [mbind option_bind]. unfold rtt_tlbi_vmids in Hv.
  destruct (_ || indirect_s2ap ctx); [|done]. destruct (negb (indirect_s2ap ctx) || _); done.
Qed.

Lemma list_init_ok n : 0 < n <= ADDR_LIST_MAX_RANGES -> exists al, addr_list_init LIST_TYPE_OUTPUT (u32 n) = Some al /\ list_use al /\ blocks al = [].
Proof.
  intros Hn. assert (Hu : u32 n = n) by (unfold u32; apply Z.mod_small; change ADDR_LIST_MAX_RANGES with 512 in Hn; lia). rewrite Hu.
  unfold addr_list_init. rewrite (proj2 (Z.ltb_lt 0 n)), (proj2 (Z.leb_le n _)) by lia. eexists. split; [done|]. unfold list_use, all_used, blocks, descs_of. cbn.
  split_and!; try done; [|lia]. split; cbn; [|lia|done]. by rewrite length_replicate.
Qed.

Lemma prepare_ok rd lpa2 bits sl ctx h base oaddr ty n uctx0 :
  rd_ok rd lpa2 bits sl -> arr_get (s2_ctxs rd) PRIMARY_S2_CTX_ID = Some ctx -> (flavor = RTT_UNMAP_FLAVOR_DATA -> backing_addr uctx0 = NO_ADDR) ->
  (ty = RMI_ADDR_TYPE_LIST -> ALIGNED oaddr 8 = true /\ 0 < n <= ADDR_LIST_MAX_RANGES) ->
  exists uctx al, unmap_init_ctx rd flavor h base oaddr ty uctx0 = Some uctx /\
    addr_list_init LIST_TYPE_OUTPUT (u32 (unmap_max_count ty n)) = Some al /\ prepared flavor rd ctx h lpa2 base uctx al.
Proof.
  intros Hr Hc Hback Hlist. pose proof (num_planes_eq _ _ _ _ Hr) as [_ Hn].
  destruct (rd_ctx_ok _ _ _ _ Hr PRIMARY_S2_CTX_ID ctx ltac:(unfold PRIMARY_S2_CTX_ID, PLANE_0_ID; lia) Hc) as ([Hl _ _ _ _] & _).
  destruct (unmap_vmids_ok rd lpa2 bits sl ctx Hr Hc) as (vs & Hv & Hne & Hall).
  destruct (list_init_ok (unmap_max_count ty n)) as (al & Hal & Huse & Hbl).
  { unfold unmap_max_count. change ADDR_LIST_MAX_RANGES with 512 in *. destruct (Z.eqb_spec ty RMI_ADDR_TYPE_LIST) as [E|]; [by apply Hlist|]. destruct (_ =? _); lia. }
  unfold unmap_init_ctx. rewrite Hc. cbn [mbind option_bind]. rewrite Hl, Hv. cbn [mbind option_bind].
  destruct (if flavor_is flavor RTT_UNMAP_FLAVOR_UNPROT then _ else _) as [[desc blk] pa] eqn:Ecur. eexists _, al. split_and!; [done|done|].
  split; try done; cbn.
  - intros ->. cbn in Ecur. injection Ecur as <- <- <-. by rewrite (Hback eq_refl).
  - intros Ht. by apply Hlist.
Qed.

(** ** The handlers *)

Context (cpuid : Z).

Lemma runs_on_sro {A} (c : ST (sro_lib sro_unmap_ctx) A) u (Q : A -> urmm -> Prop) :
  runs c (u_sro u) (fun x l => Q x (URmm (u_rmm u) (u_devs u) l (u_isr u) (u_polls u))) -> runs (on_sro c) u Q.
Proof. intros (x & l & Hc & HQ). exists x, (URmm (u_rmm u) (u_devs u) l (u_isr u) (u_polls u)). split; [|done]. unfold on_sro. cbn. by rewrite Hc. Qed.

(** Between commands of PE [cpuid]: the pool holds the operations [sl], and no stage
    2 entry carries the handle of a free slot. *)
Record serving u F (sl : list slot) : Prop := {
  sv_inv : inv (u_rmm u) F;
  sv_pool : pool_is (u_sro u) sl;
  sv_pe : pe_ok (u_sro u) cpuid;
  sv_idle : idle sl cpuid;
  sv_free : forall h, arr_get sl h = Some Slot_free -> ready (u_rmm u) F h
}.

(** The operation as the pool keeps it. *)
Definition kept (x : sro_context sro_unmap_ctx) uctx al : Prop :=
  payload x = uctx /\ sro_addr_list x = al /\ init_command x = unmap_fid flavor /\ expected_fid x = SMC_RMI_OP_CONTINUE.

(** A refused command. *)
Record refused u u' (sl : list slot) (out : smc_result) : Prop := {
  rf_code : res_x0 out <> RMI_SUCCESS;
  rf_same : u_rmm u' = u_rmm u /\ u_devs u' = u_devs u /\ u_isr u' = u_isr u;
  rf_pool : pool_is (u_sro u') sl /\ pe_ok (u_sro u') cpuid
}.

(** A command that ended ([y] false) or yielded. *)
Definition answered (y : bool) u' (sl : list slot) (h addr : Z) uctx al (out : smc_result) : Prop :=
  pe_ok (u_sro u') cpuid /\
  if y then pack_return_code_incomplete RMI_OP_MEM_REQ_NONE RMI_OP_CANNOT_CANCEL = Some (res_x0 out) /\ res_x1 out = h /\
    exists x, kept x uctx al /\ pool_is (u_sro u') (put_slot sl h (Slot_sealed x))
  else res_x0 out = RMI_SUCCESS /\ res_x1 out = addr /\ pool_is (u_sro u') sl.
Definition served (y : bool) u u' F (sl : list slot) (rd_addr base top : Z) (out : smc_result) : Prop :=
  exists g rd ctx lpa2 T gp l addr h al uctx evs, names_rd (u_rmm u) rd_addr g /\ arr_get sl h = Some Slot_free /\
    operation flavor y (u_rmm u) (u_rmm u') F g rd ctx lpa2 T gp l base top addr h al uctx evs /\
    u_devs u' = u_devs u /\ ticks (u_isr u) y (u_isr u') /\ answered y u' sl h addr uctx al out.

Lemma incomplete_code : exists code, pack_return_code_incomplete RMI_OP_MEM_REQ_NONE RMI_OP_CANNOT_CANCEL = Some code.
Proof. by eexists. Qed.

Lemma put_put (sl : list (slot (C := sro_unmap_ctx))) i s s' : put_slot (put_slot sl i s) i s' = put_slot sl i s'.
Proof. apply list_insert_insert_eq. Qed.
Lemma put_back (sl : list (slot (C := sro_unmap_ctx))) i s : arr_get sl i = Some s -> put_slot sl i s = sl.
Proof. unfold arr_get. destruct (0 <=? i); [|done]. apply list_insert_id. Qed.
Lemma put_held (sl : list (slot (C := sro_unmap_ctx))) i s pe x : arr_get sl i = Some s -> holding (put_slot sl i (Slot_held pe x)) pe i x.
Proof. intros Hi. apply arr_get_lt in Hi. unfold holding. by rewrite get_put, Z.eqb_refl. Qed.

Lemma free_held (sl : list (slot (C := sro_unmap_ctx))) i x : arr_get sl i = Some Slot_free ->
  put_slot (put_slot sl i (Slot_held cpuid x)) i Slot_free = sl.
Proof. intros Hi. rewrite put_put. by apply put_back. Qed.

(** Everything after the lookup of the RD. *)
Lemma unmap_rd_ok u v F sl rd_addr g i x base top flags oaddr res :
  serving u F sl -> arr_get sl i = Some Slot_free -> names_rd (u_rmm u) rd_addr g -> 0 <= base -> 0 <= top ->
  v = URmm (with_mem (u_rmm u) (with_lock (r_mem (u_rmm u)) g)) (u_devs u) (u_sro v) (u_isr u) (u_polls v) ->
  pool_is (u_sro v) (put_slot sl i (Slot_held cpuid x)) -> pe_ok (u_sro v) cpuid ->
  (flavor = RTT_UNMAP_FLAVOR_DATA -> backing_addr (payload x) = NO_ADDR) ->
  init_command x = unmap_fid flavor -> expected_fid x = SMC_RMI_OP_CONTINUE ->
  runs (rtt_unmap_rd cpuid g i base top flags oaddr flavor res) v (fun out u' =>
    refused u u' sl out \/ exists y, served y u u' F sl rd_addr base top out).
Proof.
  intros Hsv Hfree Hg Hb Ht Hv Hpool Hpe Hback Hcmd Hexp. pose proof (sv_inv _ _ _ Hsv) as Hinv. pose proof (sv_free _ _ _ Hsv i Hfree) as Hrdy.
  set (w := u_rmm u) in *. pose proof Hg as (Hga & r & Hrg). destruct (inv_rd _ _ Hinv g r Hrg) as (rd & lpa2 & bits & sl0 & Hrd & Hok & HF).
  pose proof (num_planes_eq _ _ _ _ Hok) as [_ Hn]. destruct (rd_get_ctx _ _ _ _ PRIMARY_S2_CTX_ID Hok ltac:(unfold PRIMARY_S2_CTX_ID, PLANE_0_ID; lia)) as [ctx Hc].
  destruct (rd_ctx_ok _ _ _ _ Hok PRIMARY_S2_CTX_ID ctx ltac:(unfold PRIMARY_S2_CTX_ID, PLANE_0_ID; lia) Hc) as (Hctx & Hbits & _).
  assert (Hi0 : 0 <= PRIMARY_S2_CTX_ID < realm_num_s2_rtts rd)
    by (unfold realm_num_s2_rtts, realm_num_s2_contexts, PRIMARY_S2_CTX_ID, PLANE_0_ID; destruct (rtt_tree_pp rd); lia).
  destruct (realm_tree _ _ _ _ _ _ Hinv Hrd HF Hi0 Hc) as (T & HT & Hown).
  pose proof (put_held sl i _ cpuid x Hfree) as Hheld.
  unfold rtt_unmap_rd. apply runs_bind, runs_on_rmm. rewrite Hv. cbn [u_rmm u_devs u_sro u_isr u_polls]. eapply runs_get; [exact Hrd|].
  pose proof (rdy_bits _ _ _ Hrdy _ _ _ Hrd Hc) as Hmin. rewrite Hbits in Hmin.
  destruct (unmap_inputs_ok rd lpa2 bits sl0 base top flags oaddr Hok Hmin Hb Ht) as (vv & Hval & Hvv).
  eapply runs_bind, runs_lift; [exact Hval|]. destruct vv as [code|[ty n]].
  { subst code. apply runs_bind, runs_on_rmm. cbn [u_rmm]. eapply unlock_rd; [exact Hg| |done].
    apply runs_bind, runs_on_sro. cbn [u_sro u_rmm]. eapply (release_ok _ _ cpuid i x Hpool Hheld). intros l' Hp' Hlen. apply runs_ret. left.
    split; [done|done|]. cbn. rewrite (free_held sl i x Hfree) in Hp'. split; [done|]. unfold pe_ok. by rewrite Hlen. }
  destruct Hvv as (Hrange & Hhalf & Hlist).
  apply runs_bind, runs_on_sro, (my_handle_ok _ _ cpuid i x Hpool Hheld). apply runs_bind, runs_on_sro, (load_ok _ _ cpuid i x Hpool Hheld). cbn [u_rmm u_devs u_sro u_isr u_polls].
  destruct (prepare_ok rd lpa2 bits sl0 ctx i base oaddr ty n (payload x) Hok Hc Hback Hlist) as (uctx & al & Hin & Hal & Hprep).
  eapply runs_bind, runs_lift; [exact Hin|]. eapply runs_bind, runs_lift; [exact Hal|]. apply runs_bind.
  eapply (unmap_run_ok submit_ok flavor Hfl _ w F rd_addr g rd ctx lpa2 T base top i uctx al); try done; [by rewrite Hbits| |]; cbn [u_rmm u_devs u_sro u_isr u_polls].
  - intros s' Hne. apply runs_bind, runs_on_sro. cbn [u_sro u_rmm u_devs u_isr u_polls]. eapply (store_ok _ _ cpuid i x Hpool Hheld); [done|].
    intros l1 Hp1 Hlen1. rewrite put_put in Hp1. apply runs_bind, runs_on_sro. cbn [u_sro u_rmm u_devs u_isr u_polls].
    eapply (release_ok _ _ cpuid i _ Hp1); [by eapply put_held|]. intros l2 Hp2 Hlen2. apply runs_ret. left. split; [done|done|].
    cbn. rewrite (free_held sl i _ Hfree) in Hp2. split; [done|]. unfold pe_ok. by rewrite Hlen2, Hlen1.
  - intros y s' w' gp l al1 uctx' evs n0 p Htk Hop Hres. apply runs_bind, runs_on_sro. cbn [u_sro u_rmm u_devs u_isr u_polls]. eapply (store_ok _ _ cpuid i x Hpool Hheld); [done|].
    intros l1 Hp1 Hlen1. rewrite put_put in Hp1. destruct Hres as [_ Hres]. destruct y.
    + destruct Hres as [Hr1 Hr2]. rewrite Hr1, Hr2 in Hp1. destruct incomplete_code as [code Hcode]. eapply runs_bind, runs_lift; [exact Hcode|].
      apply runs_bind, runs_on_sro. cbn [u_sro u_rmm u_devs u_isr u_polls]. eapply (seal_ok _ _ cpuid i _ Hp1); [by eapply put_held|]. intros l2 Hp2 Hlen2. rewrite put_put in Hp2.
      apply runs_ret. right. exists true, g, rd, ctx, lpa2, T, gp, l, (cur_base uctx'), i, al1, uctx', evs. split_and!; try done.
      split; [unfold pe_ok; cbn; by rewrite Hlen2, Hlen1|]. split; [exact Hcode|]. split; [done|]. eexists. split; [|exact Hp2]. done.
    + destruct Hres as (_ & Hx0 & Hx1). apply runs_bind, runs_on_sro. cbn [u_sro u_rmm u_devs u_isr u_polls].
      eapply (release_ok _ _ cpuid i _ Hp1); [by eapply put_held|]. intros l2 Hp2 Hlen2. rewrite (free_held sl i _ Hfree) in Hp2.
      apply runs_ret. right. exists false, g, rd, ctx, lpa2, T, gp, l, (cur_base uctx'), i, al1, uctx', evs. split_and!; try done.
      split; [unfold pe_ok; cbn; by rewrite Hlen2, Hlen1|]. done.
Qed.

Lemma reserve_cases (sl sl' : list (slot (C := sro_unmap_ctx))) x st : slot_reserve cpuid x sl = (st, sl') ->
  (st <> RMI_SUCCESS /\ sl' = sl) \/
  (st = RMI_SUCCESS /\ exists i, arr_get sl i = Some Slot_free /\ sl' = put_slot sl i (Slot_held cpuid x)).
Proof.
  unfold slot_reserve. destruct (list_find _ sl) as [[j s]|] eqn:Ef.
  - intros [= <- <-]. right. split; [done|]. apply list_find_Some in Ef as (Hj & Hfree & _). exists (Z.of_nat j).
    unfold arr_get, put_slot. rewrite (proj2 (Z.leb_le _ _)), Nat2Z.id by lia. by destruct s.
  - intros [= <- <-]. left. by destruct (forallb _ _).
Qed.

Lemma unmap_ok u F sl rd_addr base top flags oaddr res :
  serving u F sl -> 0 <= base -> 0 <= top ->
  runs (smc_rtt_unmap cpuid flavor rd_addr base top flags oaddr res) u (fun out u' =>
    refused u u' sl out \/ exists y, served y u u' F sl rd_addr base top out).
Proof.
  intros Hsv Hb Ht. pose proof Hsv as [Hinv Hpool Hpe Hidle Hfr]. unfold smc_rtt_unmap.
  apply runs_bind, runs_on_sro. eapply (reserve_ok _ sl); try done. intros st l' sl' Hres Hp1 Hlen1.
  assert (Hpe1 : pe_ok l' cpuid) by (unfold pe_ok; by rewrite Hlen1).
  destruct (reserve_cases _ _ _ _ Hres) as [[Hne ->]|(-> & i & Hfree & ->)].
  { rewrite (proj2 (Z.eqb_neq st RMI_SUCCESS)) by done. cbn [negb]. apply runs_ret. left. by split. }
  cbn [negb Z.eqb RMI_SUCCESS]. set (x := reserved_context _ _ _ _ _) in *. apply runs_bind, runs_on_sro. cbn [u_sro].
  eapply (my_sro_ctx_ok _ _ cpuid i x Hp1); [by eapply put_held|]. cbn [u_rmm u_devs u_sro u_isr u_polls].
  apply runs_bind. set (x' := if flavor_is flavor RTT_UNMAP_FLAVOR_UNPROT then x else set_payload (set_backing NO_ADDR (payload x)) x).
  assert (Hstore : forall Q : unit -> urmm -> Prop, (forall l2, pool_is l2 (put_slot sl i (Slot_held cpuid x')) -> pe_ok l2 cpuid ->
      Q tt (URmm (u_rmm u) (u_devs u) l2 (u_isr u) (u_polls u))) ->
    runs (if flavor_is flavor RTT_UNMAP_FLAVOR_UNPROT then ret tt
          else on_sro (store_sro i (fun c => set_payload (set_backing NO_ADDR (payload c)) c))) (URmm (u_rmm u) (u_devs u) l' (u_isr u) (u_polls u)) Q).
  { intros Q HQ. unfold x' in HQ. destruct (flavor_is flavor RTT_UNMAP_FLAVOR_UNPROT); [apply runs_ret; by apply HQ|]. apply runs_on_sro. cbn [u_sro].
    eapply (store_ok _ _ cpuid i x Hp1); [by eapply put_held|done|]. intros l2 Hp2 Hlen2. rewrite put_put in Hp2. apply HQ; [done|]. unfold pe_ok. by rewrite Hlen2. }
  apply Hstore. intros l2 Hp2 Hpe2. clear Hstore. apply runs_bind, runs_on_rmm. cbn [u_rmm u_devs u_sro u_isr u_polls]. apply (lock_rd (u_rmm u) F); [done| |].
  - intros st Hst _. cbn [fst]. rewrite (proj2 (Z.eqb_neq st RMI_SUCCESS)) by done. cbn [negb].
    apply runs_bind, runs_on_sro. cbn [u_sro u_rmm u_devs u_isr u_polls]. eapply (release_ok _ _ cpuid i _ Hp2); [by eapply put_held|].
    intros l3 Hp3 Hlen3. rewrite (free_held sl i _ Hfree) in Hp3. apply runs_ret. left. split; [done|done|]. split; [done|]. unfold pe_ok; cbn; by rewrite Hlen3.
  - intros g Hg. cbn [fst snd negb Z.eqb RMI_SUCCESS]. eapply runs_bind, runs_lift; [done|].
    eapply (unmap_rd_ok u _ F sl rd_addr g i x'); try done; unfold x'.
    + intros ->. done.
    + by destruct (flavor_is _ _).
    + by destruct (flavor_is _ _).
Qed.

(** ** Resumption *)

(** Slot [h] holds an operation that began in state [w]. *)
Definition pending_unmap u w F g rd ctx lpa2 T (gp l base top addr h : Z) uctx al evs (x : sro_context sro_unmap_ctx) : Prop :=
  kept x uctx al /\ operation flavor true w (u_rmm u) F g rd ctx lpa2 T gp l base top addr h al uctx evs.

Lemma flavor_of_fid : rtt_unmap_flavor_from_fid (unmap_fid flavor) = Some flavor.
Proof. by destruct flavor. Qed.

Lemma continue_handler_ok u w F sl g rd ctx lpa2 T gp l base top addr h uctx al evs x res :
  pool_is (u_sro u) sl -> holding sl cpuid h x -> pending_unmap u w F g rd ctx lpa2 T gp l base top addr h uctx al evs x ->
  runs (rtt_unmap_continue_handler cpuid SMC_RMI_OP_CONTINUE res) u (fun out u' => exists (y : bool) uctx' evs' x',
    operation flavor y w (u_rmm u') F g rd ctx lpa2 T gp l base top addr h al uctx' (evs ++ evs') /\
    u_devs u' = u_devs u /\ ticks (u_isr u) y (u_isr u') /\
    pool_is (u_sro u') (put_slot sl h (Slot_held cpuid x')) /\ length (cpu_sro_ctx (u_sro u')) = length (cpu_sro_ctx (u_sro u)) /\
    if y then pack_return_code_incomplete RMI_OP_MEM_REQ_NONE RMI_OP_CANNOT_CANCEL = Some (res_x0 out) /\ res_x1 out = 0 /\ kept x' uctx' al
    else res_x0 out = RMI_SUCCESS /\ res_x1 out = addr).
Proof.
  intros Hpool Hheld [Hkept Hop]. unfold rtt_unmap_continue_handler.
  apply runs_bind, runs_on_sro, (my_sro_ctx_ok _ _ cpuid h x Hpool Hheld). apply runs_bind, runs_on_sro, (load_ok _ _ cpuid h x Hpool Hheld).
  cbn [u_rmm u_devs u_sro u_isr u_polls]. apply runs_bind, runs_guard; [done|]. destruct Hkept as (K1 & K2 & K3 & K4).
  eapply runs_bind, runs_lift; [cbn; rewrite K3; exact flavor_of_fid|]. pose proof (op_table_at _ _ _ _ _ _ _ _ _ _ _ _ _ _ _ _ _ _ _ Hop) as Hgl.
  eapply runs_bind, runs_lift; [cbn; rewrite K1; exact Hgl|].
  replace (payload (set_sro_state SRO_STATE_RESERVED x)) with uctx by (by destruct x). replace (sro_addr_list (set_sro_state SRO_STATE_RESERVED x)) with al by (by destruct x).
  eapply (operation_resume submit_ok flavor Hfl _ w F g rd ctx lpa2 T gp l base top addr h al uctx evs); [exact Hop|]. cbn [u_rmm u_devs u_sro u_isr u_polls].
  intros y w' uctx' evs' n p Htk Hop' Hstat. destruct y.
  - apply runs_bind, runs_on_sro. cbn [u_rmm u_devs u_sro u_isr u_polls]. eapply (store_ok _ _ cpuid h x Hpool Hheld); [done|]. intros l1 Hp1 Hlen1.
    destruct incomplete_code as [code Hcode]. eapply runs_bind, runs_lift; [exact Hcode|]. apply runs_ret.
    exists true, uctx', evs', (set_payload uctx' x). cbn. split_and!; done.
  - pose proof (op_list _ _ _ _ _ _ _ _ _ _ _ _ _ _ _ _ _ _ _ Hop') as (L1 & L2 & L3). pose proof (op_ctx _ _ _ _ _ _ _ _ _ _ _ _ _ _ _ _ _ _ _ Hop') as (_ & _ & Hcb & _).
    destruct (format_ok (oaddr_type uctx') (oaddr uctx') al (cur_base uctx') res L1 L2 L3) as (res' & al' & Hf & H0 & H1).
    eapply runs_bind, runs_lift; [exact Hf|]. apply runs_bind, runs_on_sro. cbn [u_rmm u_devs u_sro u_isr u_polls].
    eapply (store_ok _ _ cpuid h x Hpool Hheld); [done|]. intros l1 Hp1 Hlen1. apply runs_ret.
    eexists false, uctx', evs', _. cbn. split_and!; [done|done|done|exact Hp1|done|done|congruence].
Qed.

(** ** RMI_OP_CONTINUE *)

Context (others : Z -> option (Z -> smc_result -> U smc_result)).
#[local] Instance handles : SroHandlers urmm := unmap_handles cpuid others.

Lemma handles_unmap : sro_handles (RMI_HANDLER_ID (unmap_fid flavor)) = Some (rtt_unmap_continue_handler cpuid).
Proof. by destruct flavor. Qed.

Lemma incomplete_unpacked code : pack_return_code_incomplete RMI_OP_MEM_REQ_NONE RMI_OP_CANNOT_CANCEL = Some code ->
  rc_status (unpack_return_code code) = RMI_INCOMPLETE /\ rc_data (unpack_return_code code) = DataIncomplete RMI_OP_MEM_REQ_NONE RMI_OP_CANNOT_CANCEL.
Proof. intros [= <-]. by vm_compute. Qed.

(** What RMI_OP_CONTINUE leaves. *)
Definition resumed (y : bool) u u' w F g rd ctx lpa2 T (gp l base top addr h : Z) al evs (sl : list slot) (out : smc_result) : Prop :=
  exists uctx' evs', operation flavor y w (u_rmm u') F g rd ctx lpa2 T gp l base top addr h al uctx' (evs ++ evs') /\
    u_devs u' = u_devs u /\ ticks (u_isr u) y (u_isr u') /\ pe_ok (u_sro u') cpuid /\
    if y then pack_return_code_incomplete RMI_OP_MEM_REQ_NONE RMI_OP_CANNOT_CANCEL = Some (res_x0 out) /\
      exists x', kept x' uctx' al /\ pool_is (u_sro u') (put_slot sl h (Slot_sealed x'))
    else res_x0 out = RMI_SUCCESS /\ res_x1 out = addr /\ pool_is (u_sro u') (put_slot sl h Slot_free).

Lemma op_continue_ok u w F sl g rd ctx lpa2 T gp l base top addr h uctx al evs x flags res :
  pool_is (u_sro u) sl -> pe_ok (u_sro u) cpuid -> idle sl cpuid -> arr_get sl h = Some (Slot_sealed x) ->
  pending_unmap u w F g rd ctx lpa2 T gp l base top addr h uctx al evs x ->
  runs (smc_op_continue cpuid h flags res) u (fun out u' => exists y, resumed y u u' w F g rd ctx lpa2 T gp l base top addr h al evs sl out).
Proof.
  intros Hpool Hpe Hidle Hx [Hkept Hop]. pose proof (arr_get_lt _ _ _ Hx) as Hh. unfold smc_op_continue.
  apply runs_bind, runs_on_sro. eapply (find_ok _ sl); try done; [lia|]. intros b l1 sl1 Hf Hp1 Hlen1. unfold slot_find in Hf. rewrite Hx in Hf. injection Hf as <- <-. cbn [negb].
  pose proof (put_held sl h _ cpuid x Hx) as Hhd. cbn [u_rmm u_devs u_sro u_isr u_polls get_sro put_sro urmm_sro].
  apply runs_bind, runs_on_sro. cbn [u_sro]. apply (my_sro_ctx_ok _ _ cpuid h x Hp1 Hhd). apply runs_bind, runs_on_sro. cbn [u_rmm u_devs u_sro u_isr u_polls].
  apply (load_ok _ _ cpuid h x Hp1 Hhd). pose proof Hkept as (K1 & K2 & K3 & K4). cbn [expected_fid set_sro_state]. rewrite K4, Z.eqb_refl. cbn [negb].
  apply runs_bind, runs_on_sro. cbn [u_rmm u_devs u_sro u_isr u_polls]. eapply (store_ok _ _ cpuid h x Hp1 Hhd); [done|]. intros l2 Hp2 Hlen2. rewrite put_put in Hp2.
  cbn [u_rmm u_devs u_sro u_isr u_polls]. set (x2 := set_flags flags x) in *. pose proof (put_held sl h _ cpuid x2 Hx) as Hhd2.
  apply runs_bind. unfold rmi_op_dispatch. apply runs_bind, runs_on_sro. cbn [u_sro]. apply (my_sro_ctx_ok _ _ cpuid h x2 Hp2 Hhd2).
  apply runs_bind, runs_on_sro. cbn [u_rmm u_devs u_sro u_isr u_polls]. apply (load_ok _ _ cpuid h x2 Hp2 Hhd2). cbn [u_rmm u_devs u_sro u_isr u_polls].
  eapply runs_bind, runs_lift; [cbn [init_command set_sro_state x2 set_flags]; rewrite K3; exact handles_unmap|].
  apply runs_bind, runs_guard; [cbn [expected_fid set_sro_state x2 set_flags]; by rewrite K4|].
  apply runs_bind. eapply runs_mono; [eapply (continue_handler_ok _ w F _ g rd ctx lpa2 T gp l base top addr h uctx al evs x2); [exact Hp2|exact Hhd2|by split]|].
  cbn [u_rmm u_devs u_sro u_isr u_polls]. intros out u' (y & uctx' & evs' & x' & Hop' & Hdv & Htk & Hp3 & Hlen3 & Hc). rewrite put_put in Hp3.
  pose proof (put_held sl h _ cpuid x' Hx) as Hhd3. assert (Hpe3 : pe_ok (u_sro u') cpuid) by (unfold pe_ok; by rewrite Hlen3, Hlen2, Hlen1).
  destruct y.
  - destruct Hc as (Hcode & _ & Hkept'). destruct (incomplete_unpacked _ Hcode) as [Hst Hdt]. rewrite Hst, Hdt, Z.eqb_refl.
    apply runs_bind. unfold dispatch_incomplete. apply runs_bind, runs_on_sro. eapply (store_ok _ _ cpuid h x' Hp3 Hhd3); [done|]. intros l4 Hp4 Hlen4. rewrite put_put in Hp4.
    cbn [u_rmm u_devs u_sro u_isr u_polls]. apply runs_bind, runs_ret. cbn [Z.eqb RMI_OP_MEM_REQ_NONE RMI_OP_MEM_REQ_DONATE RMI_OP_MEM_REQ_RECLAIM].
    apply runs_bind, runs_bind, runs_guard; [done|]. apply runs_ret. apply runs_bind, runs_on_sro. cbn [u_rmm u_devs u_sro u_isr u_polls].
    eapply (store_ok _ _ cpuid h _ Hp4); [by eapply put_held|done|]. intros l5 Hp5 Hlen5. rewrite put_put in Hp5. apply runs_ret. apply runs_ret.
    unfold op_finish. rewrite Hst. apply runs_bind. cbn [Z.eqb orb RMI_INCOMPLETE]. apply runs_bind, runs_on_sro. cbn [u_rmm u_devs u_sro u_isr u_polls].
    eapply (seal_ok _ _ cpuid h _ Hp5); [by eapply put_held|]. intros l6 Hp6 Hlen6. rewrite put_put in Hp6. apply runs_ret, runs_ret. exists true, uctx', evs'.
    cbn [u_rmm u_devs u_sro u_isr u_polls]. split_and!; try done; [unfold pe_ok; by rewrite Hlen6, Hlen5, Hlen4|]. eexists. split; [|exact Hp6]. destruct Hkept' as (? & ? & ? & ?). done.
  - destruct Hc as [H0 H1]. rewrite H0. change (rc_status (unpack_return_code RMI_SUCCESS)) with RMI_SUCCESS. cbn [Z.eqb RMI_SUCCESS RMI_INCOMPLETE].
    apply runs_bind, runs_on_sro. eapply (store_ok _ _ cpuid h x' Hp3 Hhd3); [done|]. intros l4 Hp4 Hlen4. rewrite put_put in Hp4. cbn [u_rmm u_devs u_sro u_isr u_polls].
    apply runs_ret. unfold op_finish. rewrite H0. change (rc_status (unpack_return_code RMI_SUCCESS)) with RMI_SUCCESS. cbn [Z.eqb orb RMI_SUCCESS RMI_INCOMPLETE RMI_BUSY].
    apply runs_bind, runs_on_sro. cbn [u_rmm u_devs u_sro u_isr u_polls]. eapply (release_ok _ _ cpuid h _ Hp4); [by eapply put_held|]. intros l5 Hp5 Hlen5. rewrite put_put in Hp5.
    apply runs_ret. exists false, uctx', evs'. cbn [u_rmm u_devs u_sro u_isr u_polls]. split_and!; try done. unfold pe_ok. by rewrite Hlen5, Hlen4.
Qed.

(** ** Ready for the next command *)

Lemma refused_serving u u' F sl out : serving u F sl -> refused u u' sl out -> serving u' F sl.
Proof. intros [S1 S2 S3 S4 S5] [_ (R1 & _) [R2 R3]]. by split; rewrite ?R1. Qed.

(** The pool after a command. *)
Definition slots_after (y : bool) (sl : list slot) (h : Z) (x : sro_context sro_unmap_ctx) : list slot :=
  if y then put_slot sl h (Slot_sealed x) else sl.

Lemma sealed_idle (sl : list slot) h (x : sro_context sro_unmap_ctx) : idle sl cpuid -> (exists s, arr_get sl h = Some s) -> idle (put_slot sl h (Slot_sealed x)) cpuid.
Proof.
  intros Hi [s Hs] j z Hj. apply arr_get_lt in Hs. unfold holding in Hj. rewrite get_put in Hj by done. destruct (j =? h); [done|]. by apply (Hi j z).
Qed.

Lemma sealed_free (sl : list slot) h (x : sro_context sro_unmap_ctx) j : (exists s, arr_get sl h = Some s) -> arr_get (put_slot sl h (Slot_sealed x)) j = Some Slot_free -> j <> h /\ arr_get sl j = Some Slot_free.
Proof. intros [s Hs] Hj. apply arr_get_lt in Hs. rewrite get_put in Hj by done. destruct (Z.eqb_spec j h); done. Qed.

Lemma operation_serving (y : bool) w u u' F sl g rd ctx lpa2 T gp l base top addr h al uctx evs x :
  serving u F sl -> u_rmm u = w -> operation flavor y w (u_rmm u') F g rd ctx lpa2 T gp l base top addr h al uctx evs ->
  arr_get sl h = Some Slot_free -> pool_is (u_sro u') (slots_after y sl h x) -> pe_ok (u_sro u') cpuid -> serving u' F (slots_after y sl h x).
Proof.
  intros [S1 S2 S3 S4 S5] <- Hop Hh Hp Hpe. destruct (operation_took flavor Hfl _ _ _ _ _ _ _ _ _ _ _ _ _ _ _ _ _ _ Hop) as [Htk _].
  split; [apply Htk|done|done| |]; unfold slots_after in *; destruct y; try done.
  - apply sealed_idle; eauto.
  - intros j [Hne Hj]%sealed_free; [|by eauto]. eapply (operation_ready flavor Hfl); [exact Hop|by left|by apply S5].
  - intros j Hj. eapply (operation_ready flavor Hfl); [exact Hop|by right|by apply S5].
Qed.

(** Without an interrupt nothing yields. *)
Lemma quiet_done n y k : ticks n y k -> (forall i, (n <= i)%nat -> isr_pending i = false) -> y = false.
Proof. intros [_ Hy] Hq. destruct y; [|done]. destruct (Hy eq_refl) as (i & Hi & Hp). by rewrite Hq in Hp by lia. Qed.

End Smc.
