(* ===== verification/UnmapCorrect.v ===== *)
(** * What the unmapping commands guarantee

    RMI_RTT_DATA_UNMAP and RMI_RTT_UNPROT_UNMAP, their resumption by
    RMI_OP_CONTINUE, and the two together as a host drives them, for any arguments
    and any schedule of interrupts. *)

From Stdlib Require Import ZArith Lia Bool ZifyBool.
From stdpp Require Import base tactics option list numbers gmap.
From S2P Require Import Prelude.
From S2P Require Import Utils.
From S2P Require Import Status.
From S2P Require Import Smc.
From S2P Require Import Granule.
From S2P Require Import Mem.
From S2P Require Import Arch.
From S2P Require Import AddrList.
From S2P Require Import Sro.
From S2P Require Import S2tte.
From S2P Require Import S2tteFacts.
From S2P Require Import S2tteProps.
From S2P Require Import S2ttTable.
From S2P Require Import S2ttWalk.
From S2P Require Import Realm.
From S2P Require Import RttTree.
From S2P Require Import Rmm.
From S2P Require Import SroPool.
From S2P Require Import RttCmds.
From S2P Require Import RttUnmap.
From S2P Require Import RttInv.
From S2P Require Import UnmapPass.
From S2P Require Import UnmapDrain.
From S2P Require Import UnmapStep.
From S2P Require Import UnmapStamp.
From S2P Require Import UnmapValid.
From S2P Require Import UnmapSweep.
From S2P Require Import UnmapLeaf.
From S2P Require Import RttPath.
From S2P Require Import RttRefuse.
From S2P Require Import RttCreate.
From S2P Require Import RttRange.
From S2P Require Import RttIsolation.
From S2P Require Import UnmapInv.
From S2P Require Import UnmapRun.
From S2P Require Import UnmapCmd.
From S2P Require Import UnmapSmc.

Section Correct.
Context `{feat : ArchFeatures} `{laws : ActiveLaws} `{env : UnmapEnv} `{host : UnmapHost}.
Context (submit_ok : forall vs addr level num leaf, smmuv3_inv_at_level_per_vmids_submit vs addr level num leaf = 0).
Context (flavor : rtt_unmap_flavor) (Hfl : flavor <> RTT_UNMAP_FLAVOR_DEV).
Context (cpuid : Z) (others : Z -> option (Z -> smc_result -> U smc_result)).
#[local] Instance table : SroHandlers urmm := unmap_handles cpuid others.
Implicit Types (u : urmm) (w : rmm) (F : forest) (rd : rd) (ctx : s2tt_context) (T : tree) (uctx : sro_unmap_ctx) (al : addr_list) (evs : list event) (sl : list (slot (C := sro_unmap_ctx))).

Definition is_incomplete (out : smc_result) : bool := rc_status (unpack_return_code (res_x0 out)) =? RMI_INCOMPLETE.

(** A host that resumes an operation up to [n] times while it is incomplete. *)
Fixpoint continue_loop (n : nat) (h flags : Z) (out : smc_result) : U smc_result :=
  if is_incomplete out then
    match n with
    | O => ret out
    | S n' => out' <-! smc_op_continue cpuid h flags out ;; continue_loop n' h flags out'
    end
  else ret out.

(** Samples of ISR_EL1 from the [a]-th to the [k]-th that find an interrupt pending. *)
Definition interrupts (a k : nat) : nat := length (filter (fun i => isr_pending i = true) (seq a (k - a))).

Lemma interrupts_split a b k : (a <= b <= k)%nat -> interrupts a k = (interrupts a b + interrupts b k)%nat.
Proof.
  intros H. unfold interrupts. replace (k - a)%nat with ((b - a) + (k - b))%nat by lia. rewrite seq_app, filter_app, length_app. do 3 f_equal. f_equal. lia.
Qed.

Lemma interrupts_yield a k : ticks a true k -> (0 < interrupts a k)%nat.
Proof.
  intros [Hle Hy]. destruct (Hy eq_refl) as (i & Hi & Hp). unfold interrupts.
  assert (Hin : i ∈ filter (fun i => isr_pending i = true) (seq a (k - a))) by (apply list_elem_of_filter; split; [done|]; apply elem_of_seq; lia).
  destruct (filter _ _); [by apply not_elem_of_nil in Hin|cbn; lia].
Qed.

(** At most [n] interrupts come from the [a]-th sample on. *)
Definition at_most (n a : nat) : Prop := forall k, (interrupts a k <= n)%nat.

Lemma at_most_yield n a k : at_most n a -> ticks a true k -> exists n', n = S n' /\ at_most n' k.
Proof.
  intros Hn Ht. pose proof (interrupts_yield _ _ Ht) as Hp. destruct Ht as [Hle _]. pose proof (Hn k) as Hk. destruct n as [|n']; [lia|]. exists n'. split; [done|].
  intros m. destruct (decide (k <= m)%nat) as [Hm|Hm].
  - pose proof (Hn m) as Hm'. rewrite (interrupts_split a k m) in Hm' by lia. lia.
  - unfold interrupts. replace (m - k)%nat with O by lia. cbn. lia.
Qed.

(** An operation that is incomplete in [u], resumed. *)
Definition unfinished u w F sl g rd ctx lpa2 T (gp l base top addr h : Z) al evs : Prop := exists uctx x,
  pool_is (u_sro u) (put_slot sl h (Slot_sealed x)) /\ pe_ok (u_sro u) cpuid /\
  pending_unmap flavor u w F g rd ctx lpa2 T gp l base top addr h uctx al evs x.

(** After up to [n] resumptions. *)
Definition driven (y : bool) u' w F sl g rd ctx lpa2 T (gp l base top addr h : Z) al evs (out : smc_result) : Prop :=
  exists uctx evs', operation flavor y w (u_rmm u') F g rd ctx lpa2 T gp l base top addr h al uctx (evs ++ evs') /\ pe_ok (u_sro u') cpuid /\
    if y then is_incomplete out = true /\ exists x, pool_is (u_sro u') (put_slot sl h (Slot_sealed x))
    else res_x0 out = RMI_SUCCESS /\ res_x1 out = addr /\ pool_is (u_sro u') sl.

Lemma incomplete_is out : pack_return_code_incomplete RMI_OP_MEM_REQ_NONE RMI_OP_CANNOT_CANCEL = Some (res_x0 out) -> is_incomplete out = true.
Proof. intros H%incomplete_unpacked. unfold is_incomplete. by rewrite (proj1 H). Qed.

Lemma continue_loop_ok n : forall u w F sl g rd ctx lpa2 T gp l base top addr h al evs flags out,
  idle sl cpuid -> arr_get sl h = Some Slot_free ->
  unfinished u w F sl g rd ctx lpa2 T gp l base top addr h al evs -> is_incomplete out = true ->
  runs (continue_loop n h flags out) u (fun out' u' => exists y : bool,
    driven y u' w F sl g rd ctx lpa2 T gp l base top addr h al evs out' /\
    ((0 < n)%nat -> at_most (pred n) (u_isr u) -> y = false)).
Proof.
  induction n as [|n IH]; intros u w F sl g rd ctx lpa2 T gp l base top addr h al evs flags out Hidle Hh Hunf Hinc;
    pose proof Hunf as (uctx & x & Hp & Hpe & Hpend); cbn [continue_loop]; rewrite Hinc.
  { apply runs_ret. exists true. split; [|lia]. exists uctx, []. rewrite app_nil_r. split_and!; try done; [apply Hpend|by exists x]. }
  apply runs_bind. eapply runs_mono.
  { eapply (op_continue_ok submit_ok flavor Hfl cpuid others); [exact Hp|done|apply sealed_idle; eauto| |exact Hpend]. rewrite get_put, Z.eqb_refl; [done|by eapply arr_get_lt]. }
  intros out1 u1 (y & uctx1 & evs1 & Hop1 & _ & Htk1 & Hpe1 & Hc). rewrite !put_put in Hc. destruct y.
  - destruct Hc as (Hcode & x1 & Hk1 & Hp1). rewrite put_put in Hp1. eapply runs_mono.
    { eapply (IH u1 w F sl g rd ctx lpa2 T gp l base top addr h al (evs ++ evs1)); [done|done| |by apply incomplete_is]. exists uctx1, x1. by split_and!. }
    intros out2 u2 (y2 & (uctx2 & evs2 & Hop2 & Hpe2 & Hc2) & Hy2). rewrite <- app_assoc in Hop2. exists y2. split; [by exists uctx2, (evs1 ++ evs2)|].
    intros _ Hm. cbn in Hm. destruct (at_most_yield _ _ _ Hm Htk1) as (n' & -> & Hm'). apply Hy2; [lia|done].
  - destruct Hc as (H0 & H1 & Hp1). assert (Hni : is_incomplete out1 = false) by (unfold is_incomplete; by rewrite H0).
    assert (Hl : continue_loop n h flags out1 = ret out1) by (destruct n; cbn; by rewrite Hni). rewrite Hl. apply runs_ret. exists false. split; [|done].
    exists uctx1, evs1. rewrite (put_back sl h) in Hp1 by done. by split_and!.
Qed.

(** The first call and the resumptions. *)
Lemma driven_ok n u F sl rd_addr base top flags oaddr cflags res :
  serving cpuid u F sl -> 0 <= base -> 0 <= top ->
  runs (smc_rtt_unmap cpuid flavor rd_addr base top flags oaddr res) u (fun out u1 =>
    (res_x0 out <> RMI_SUCCESS /\ u_rmm u1 = u_rmm u /\ serving cpuid u1 F sl) \/
    runs (continue_loop n (res_x1 out) cflags out) u1 (fun out' u' => exists (y : bool) g rd ctx lpa2 T gp l addr h al,
      names_rd (u_rmm u) rd_addr g /\ arr_get sl h = Some Slot_free /\
      driven y u' (u_rmm u) F sl g rd ctx lpa2 T gp l base top addr h al [] out' /\ (at_most n (u_isr u) -> y = false))).
Proof.
  intros Hsv Hb Ht. eapply runs_mono; [by eapply (unmap_ok submit_ok flavor Hfl cpuid)|].
  intros out u1 [Hr|(y & g & rd & ctx & lpa2 & T & gp & l & addr & h & al & uctx & evs & Hg & Hh & Hop & _ & Htk & Hpe & Hans)].
  { left. split; [apply Hr|]. split; [apply (rf_same _ _ _ _ _ Hr)|by eapply refused_serving]. }
  right. destruct y.
  - destruct Hans as (Hc & -> & x & Hk & Hp). eapply runs_mono.
    { eapply (continue_loop_ok n u1 (u_rmm u) F sl g rd ctx lpa2 T gp l base top addr h al evs); [apply Hsv|done| |by apply incomplete_is].
      exists uctx, x. by split_and!. }
    intros out2 u2 (y2 & (uctx2 & evs2 & Hop2 & Hpe2 & Hc2) & Hy2). exists y2, g, rd, ctx, lpa2, T, gp, l, addr, h, al. split_and!; try done.
    + by exists uctx2, (evs ++ evs2).
    + intros Hm. destruct (at_most_yield _ _ _ Hm Htk) as (n' & -> & Hm'). apply Hy2; [lia|done].
  - destruct Hans as (H0 & H1 & Hp). assert (Hni : is_incomplete out = false) by (unfold is_incomplete; by rewrite H0).
    assert (Hl : continue_loop n (res_x1 out) cflags out = ret out) by (destruct n; cbn; by rewrite Hni). rewrite Hl. apply runs_ret.
    exists false, g, rd, ctx, lpa2, T, gp, l, addr, h, al. split_and!; try done. by exists uctx, evs.
Qed.

(** ** One call *)


(** ** To the end *)

(** C14: an unmapping command ends.  If at most [n] interrupts come from the moment
    the command is called, a host that answers INCOMPLETE with RMI_OP_CONTINUE needs
    at most [n] of them: the last call returns SUCCESS and the address reached, the
    range is unmapped as if there had been no interruption, all the memory behind it
    is DELEGATED, and the context is free again. *)
Theorem rtt_unmap_completes n u F sl rd_addr base top flags oaddr cflags res :
  serving cpuid u F sl -> 0 <= base -> 0 <= top -> at_most n (u_isr u) ->
  runs (smc_rtt_unmap cpuid flavor rd_addr base top flags oaddr res) u (fun out u1 =>
    (res_x0 out <> RMI_SUCCESS /\ u_rmm u1 = u_rmm u /\ serving cpuid u1 F sl) \/
    runs (continue_loop n (res_x1 out) cflags out) u1 (fun out' u' => exists g rd ctx T gp,
      let addr := res_x1 out' in
      names_rd (u_rmm u) rd_addr g /\ base < addr <= top /\ res_x0 out' = RMI_SUCCESS /\
      took flavor (u_rmm u) (u_rmm u') F g rd ctx T gp base addr (fun _ => False) /\
      (forall x, behind flavor (u_rmm u) ctx base addr x -> granule_at (r_mem (u_rmm u')) x (AGranule false GRANULE_STATE_DELEGATED 0)) /\
      serving cpuid u' F sl)).
Proof.
  intros Hsv Hb Ht Hm. eapply runs_mono; [by apply (driven_ok n u F sl)|]. intros out u1 [|Hrun]; [by left|right]. eapply runs_mono; [exact Hrun|].
  intros out2 u2 (y & g & rd & ctx & lpa2 & T & gp & l & addr & h & al & Hg & Hh & (uctx & evs & Hop & Hpe & Hc) & Hy).
  rewrite (Hy Hm) in *. destruct Hc as (H0 & H1 & Hp). exists g, rd, ctx, T, gp. cbn zeta. rewrite H1.
  destruct (operation_took flavor Hfl _ _ _ _ _ _ _ _ _ _ _ _ _ _ _ _ _ _ Hop) as [Htk Hle].
  pose proof (operation_ends flavor _ _ _ _ _ _ _ _ _ _ _ _ _ _ _ _ _ _ Hop eq_refl) as Hend.
  assert (Htk' : took flavor (u_rmm u) (u_rmm u2) F g rd ctx T gp base addr (fun _ => False)).
  { destruct Htk as [K1 K2 K3 K4 K5 K6 K7 K8 K9 K10 K11]. split; try done. intros z Hz. right. destruct (K9 z Hz) as [Hx|]; [|done]. by destruct (Hend z). }
  split_and!; try done; try lia.
  - intros z Hz. by destruct (tk_back _ _ _ _ _ _ _ _ _ _ _ _ Htk' z Hz).
  - exact (operation_serving flavor Hfl cpuid false _ u u2 F sl g rd ctx lpa2 T gp l base top addr h al uctx _ zero_context Hsv eq_refl Hop Hh Hp Hpe).
Qed.


End Correct.
