(* ===== verification/RealmCmds.v ===== *)
(** * Activation and termination of a realm ([runtime/rmi/realm.c])

    The two commands that move a realm through its life cycle, as whole handlers
    on the state of the RMM.  The races of their state changes with REC entry and
    PSCI are the subject of [Realm]. *)

From Stdlib Require Import ZArith Lia Bool ZifyBool.
From stdpp Require Import base tactics option list numbers gmap.
From S2P Require Import Prelude.
From S2P Require Import Smc.
From S2P Require Import Utils.
From S2P Require Import Status.
From S2P Require Import Granule.
From S2P Require Import Mem.
From S2P Require Import Arch.
From S2P Require Import S2tte.
From S2P Require Import S2ttWalk.
From S2P Require Import Realm.
From S2P Require Import RttTree.
From S2P Require Import Rmm.
From S2P Require Import RttCmds.
From S2P Require Import RttInv.
From S2P Require Import RttIsolation.

Section Cmd.
Context `{lookup : GranuleLookup}.
Implicit Types (res : smc_result).

Definition smc_realm_activate (rd_addr : Z) res : H smc_result :=
  found <-! on_mem (find_lock_fine_granule rd_addr GRANULE_STATE_RD) ;;
  if negb (fst found =? RMI_SUCCESS) then ret (set_x0 (fst found) res) else
  g_rd <-! lift (snd found) ;;
  rd <-! map_rd g_rd ;;
  status <-! (if get_rd_state_locked rd =? REALM_NEW then
                _ <-! store_rd g_rd (set_state_and_count rd (set_rd_state (state_and_count rd) REALM_ACTIVE)) ;;
                ret RMI_SUCCESS
              else ret RMI_ERROR_REALM) ;;
  _ <-! h_granule_unlock g_rd ;;
  ret (set_x0 status res).

Definition smc_realm_terminate (rd_addr : Z) res : H smc_result :=
  found <-! on_mem (find_lock_fine_granule rd_addr GRANULE_STATE_RD) ;;
  if negb (fst found =? RMI_SUCCESS) then ret (set_x0 (fst found) res) else
  g_rd <-! lift (snd found) ;;
  rd <-! map_rd g_rd ;;
  let '(done, word) := rd_cas_state_if_count_zero (state_and_count rd) (get_rd_state_locked rd) REALM_ZOMBIE in
  _ <-! store_rd g_rd (set_state_and_count rd word) ;;
  if negb done then
    _ <-! h_granule_unlock g_rd ;;
    ret (set_x0 RMI_ERROR_REALM res)
  else
    _ <-! h_granule_unlock g_rd ;;
    ret (set_x0 RMI_SUCCESS res).

End Cmd.

Section Correct.
Context `{feat : ArchFeatures} `{lookup : GranuleLookup}.
Implicit Types (w : rmm) (F : forest) (rd : rd) (ctx : s2tt_context) (T : tree) (res : smc_result).

(** [w] with the state word of realm [g] set to [v]. *)
Definition with_word w (g : Z) rd (v : Z) : rmm :=
  Rmm (r_mem w) (<[g := set_state_and_count rd v]> (r_rds w)) (r_vttbr w) (r_log w).

(** The state word has no bearing on the trees. *)
Lemma with_word_rds w g rd v x rd' :
  r_rds w !! g = Some rd -> r_rds (with_word w g rd v) !! x = Some rd' ->
  exists rd0 u, r_rds w !! x = Some rd0 /\ rd' = set_state_and_count rd0 u.
Proof.
  intros Hrd Hx. cbn in Hx. apply lookup_insert_Some in Hx as [[<- <-]|[_ Hx]]; [by exists rd, v|]. exists rd', (state_and_count rd'). split; [done|]. by destruct rd'.
Qed.

Lemma with_word_inv w F g rd v : inv w F -> r_rds w !! g = Some rd -> inv (with_word w g rd v) F.
Proof.
  intros [H1 H2 H3 H4] Hrd.
  assert (Hlk : forall x rd0, r_rds w !! x = Some rd0 -> exists u, r_rds (with_word w g rd v) !! x = Some (set_state_and_count rd0 u)).
  { intros x rd0 Hx. cbn. destruct (decide (x = g)) as [->|Hne].
    - rewrite lookup_insert_eq. assert (rd0 = rd) as -> by congruence. by exists v.
    - rewrite lookup_insert_ne by done. exists (state_and_count rd0). rewrite Hx. by destruct rd0. }
  split; try done.
  - intros x r Hx. destruct (H2 x r Hx) as (rd0 & l2 & b & s & Hr & [R1 R2 R3] & HF). destruct (Hlk x rd0 Hr) as [u Hu].
    exists (set_state_and_count rd0 u), l2, b, s. by split_and!.
  - intros x i T HF. destruct (H3 x i T HF) as (rd0 & ctx & [O1 O2 O3 (l2 & b & s & [R1 R2 R3]) O5]). destruct (Hlk x rd0 O1) as [u Hu].
    exists (set_state_and_count rd0 u), ctx. split; try done. by exists l2, b, s.
Qed.

Lemma with_word_step w F g rd v : inv w F -> r_rds w !! g = Some rd -> mapping_step w (with_word w g rd v) F F None.
Proof.
  intros Hinv Hrd. split; try done; [by apply with_word_inv|].
  intros x i p o (T & rd' & ctx & a & k & out & attrs & HT & [O1 O2 O3 (l2 & b & s & [R1 R2 R3]) O5] & Hrest). left.
  destruct (with_word_rds _ _ _ _ _ _ Hrd O1) as (rd0 & u & Hr0 & ->).
  exists T, rd0, ctx, a, k, out, attrs. split; [done|]. split; [|done]. split; try done. by exists l2, b, s.
Qed.

Lemma activate_ok w F rd_addr res :
  inv w F -> runs (smc_realm_activate rd_addr res) w (fun out w' =>
    (lookup_refuses w rd_addr GRANULE_STATE_RD (res_x0 out) /\ res_x0 out <> RMI_SUCCESS /\ w' = w) \/
    exists g rd, names_rd w rd_addr g /\ r_rds w !! g = Some rd /\
      if get_rd_state_locked rd =? REALM_NEW
      then res_x0 out = RMI_SUCCESS /\ w' = with_word w g rd (set_rd_state (state_and_count rd) REALM_ACTIVE)
      else res_x0 out = RMI_ERROR_REALM /\ w' = w).
Proof.
  intros Hinv. unfold smc_realm_activate. apply runs_bind. apply (lock_rd w F); [done| |].
  { intros st Hst Hwhy. cbn [fst]. rewrite (proj2 (Z.eqb_neq st RMI_SUCCESS)) by done. cbn [negb]. apply runs_ret. by left. }
  intros g Hg. cbn [fst snd]. rewrite Z.eqb_refl. cbn [negb]. eapply runs_bind, runs_lift; [done|].
  pose proof Hg as (Hga & r & Hrg). destruct (inv_rd _ _ Hinv g r Hrg) as (rd & lpa2 & bits & sl & Hrd & Hok & HF).
  eapply runs_bind, runs_get; [exact Hrd|]. apply runs_bind. destruct (get_rd_state_locked rd =? REALM_NEW) eqn:Hs.
  - apply runs_bind. eexists tt, _. split; [done|]. apply runs_ret, runs_bind.
    eapply (unlock_rd (with_word w g rd (set_rd_state (state_and_count rd) REALM_ACTIVE))); [by split; [|exists r]|apply runs_ret|done].
    right. exists g, rd. by rewrite Hs.
  - apply runs_ret, runs_bind. eapply unlock_rd; [exact Hg|apply runs_ret|done]. right. exists g, rd. by rewrite Hs.
Qed.

Lemma terminate_ok w F rd_addr res :
  inv w F -> runs (smc_realm_terminate rd_addr res) w (fun out w' =>
    (lookup_refuses w rd_addr GRANULE_STATE_RD (res_x0 out) /\ res_x0 out <> RMI_SUCCESS /\ w' = w) \/
    exists g rd, names_rd w rd_addr g /\ r_rds w !! g = Some rd /\
      if state_and_count rd =? RD_PACK_SC (get_rd_state_locked rd) 0
      then res_x0 out = RMI_SUCCESS /\ w' = with_word w g rd (RD_PACK_SC REALM_ZOMBIE 0)
      else res_x0 out = RMI_ERROR_REALM /\ w' = w).
Proof.
  intros Hinv. unfold smc_realm_terminate. apply runs_bind. apply (lock_rd w F); [done| |].
  { intros st Hst Hwhy. cbn [fst]. rewrite (proj2 (Z.eqb_neq st RMI_SUCCESS)) by done. cbn [negb]. apply runs_ret. by left. }
  intros g Hg. cbn [fst snd]. rewrite Z.eqb_refl. cbn [negb]. eapply runs_bind, runs_lift; [done|].
  pose proof Hg as (Hga & r & Hrg). destruct (inv_rd _ _ Hinv g r Hrg) as (rd & lpa2 & bits & sl & Hrd & Hok & HF).
  eapply runs_bind, runs_get; [exact Hrd|]. unfold rd_cas_state_if_count_zero, atomic_cas.
  destruct (state_and_count rd =? RD_PACK_SC (get_rd_state_locked rd) 0) eqn:Hz.
  - apply runs_bind. eexists tt, _. split; [done|]. cbn [negb]. apply runs_bind.
    eapply (unlock_rd (with_word w g rd (RD_PACK_SC REALM_ZOMBIE 0))); [by split; [|exists r]|apply runs_ret|done].
    right. exists g, rd. by rewrite Hz.
  - apply runs_bind. eexists tt, _. split; [done|]. cbn [negb]. rewrite set_same_word. cbn [r_rds with_mem]. rewrite insert_id by done.
    apply runs_bind. eapply (unlock_rd w); [exact Hg|apply runs_ret|done]. right. exists g, rd. by rewrite Hz.
Qed.

End Correct.
