(* ===== verification/RttMeasure.v ===== *)
(** * The initial measurement of a realm

    Populating commands extend the measurement of the realm they work on; the log
    of the state records each extension.  A command extends the measurement only
    of a realm that is still NEW, and no command makes a realm NEW again. *)

From Stdlib Require Import ZArith Lia Bool ZifyBool.
From stdpp Require Import base tactics option list numbers gmap.
From S2P Require Import Prelude.
From S2P Require Import Utils.
From S2P Require Import Status.
From S2P Require Import Granule.
From S2P Require Import Mem.
From S2P Require Import Arch.
From S2P Require Import S2tte.
From S2P Require Import S2ttWalk.
From S2P Require Import RttFoldProps.
From S2P Require Import Realm.
From S2P Require Import RttTree.
From S2P Require Import Rmm.
From S2P Require Import RttCmds.
From S2P Require Import RttInv.
From S2P Require Import RttCreate.
From S2P Require Import RttUnlink.
From S2P Require Import RttData.
From S2P Require Import RttRange.
From S2P Require Import RttRipas.
From S2P Require Import RealmCmds.

(** The event extends the measurement of realm [g]. *)
Definition measures (g : Z) (ev : event) : bool :=
  match ev with E_measure_data g' _ _ _ | E_measure_ripas g' _ _ => g' =? g | _ => false end.

Definition quiet (evs : list event) : Prop := Forall (fun ev => forall g, measures g ev = false) evs.

Definition realm_state (w : rmm) (g : Z) : option Z := get_rd_state_locked <$> r_rds w !! g.

Record measure_step (w w' : rmm) : Prop := {
  mm_log : exists evs, r_log w' = r_log w ++ evs /\
    forall ev g, ev ∈ evs -> measures g ev = true -> realm_state w g = Some REALM_NEW;
  mm_state : forall g s, realm_state w g = Some s -> s <> REALM_NEW ->
    exists s', realm_state w' g = Some s' /\ s' <> REALM_NEW
}.

Lemma step_quiet w w' evs : r_rds w' = r_rds w -> r_log w' = r_log w ++ evs -> quiet evs -> measure_step w w'.
Proof.
  intros Hr Hl Hq. split; [exists evs; split; [done|]|].
  - intros ev g Hev Hm. unfold quiet in Hq. rewrite Forall_forall in Hq. by rewrite Hq in Hm.
  - intros g s Hs Hne. exists s. unfold realm_state. by rewrite Hr.
Qed.

Lemma step_same w : measure_step w w.
Proof. apply (step_quiet w w []); [done|by rewrite app_nil_r|constructor]. Qed.

(** What one step leaves of the measurement of an activated realm. *)
Lemma sealed_step w w' g s :
  measure_step w w' -> realm_state w g = Some s -> s <> REALM_NEW ->
  (exists s', realm_state w' g = Some s' /\ s' <> REALM_NEW) /\
  filter (fun ev => measures g ev = true) (r_log w') = filter (fun ev => measures g ev = true) (r_log w).
Proof.
  intros [(evs & Hl & Hm) Hst] Hs Hne. split; [by eapply Hst|]. rewrite Hl, filter_app.
  assert (filter (fun ev => measures g ev = true) evs = []) as ->; [|by rewrite app_nil_r].
  apply elem_of_nil_inv. intros ev [Hev Hin]%list_elem_of_filter. rewrite (Hm ev g Hin Hev) in Hs. by injection Hs as <-.
Qed.

Section Steps.
Context `{feat : ArchFeatures} `{lookup : GranuleLookup} `{ns : NsMemory}.
Implicit Types (w : rmm) (F : forest) (rd : rd) (ctx : s2tt_context) (T : tree).

Lemma bbm_quiet rd ctx vttbr addr size level num leaf gp j v evs :
  bbm_events rd ctx vttbr addr size level num leaf gp j v evs -> quiet evs.
Proof.
  intros (fl & (in_par & lpa2 & vs & ops & _ & _ & _ & _ & ->) & ->). constructor; [done|]. apply Forall_app. split.
  - constructor; [done|]. destruct (da_enabled rd); repeat constructor; done.
  - by apply Forall_singleton.
Qed.

Lemma created_measure w w' rd ctx T gp lp j gc rtt_addr addr :
  created w w' rd ctx T gp lp j gc rtt_addr addr -> measure_step w w'.
Proof.
  intros [_ _ _ _ _ _ (k & pa & e & v & tp & tp' & tc & base & evs & _ & _ & _ & _ & _ & _ & _ & _ & _ & _ & _ & Hev & ->)].
  apply (step_quiet _ _ evs); try done. destruct (unfold_bbm k); [by eapply bbm_quiet|]. subst evs. by apply Forall_singleton.
Qed.

Lemma unlinked_measure w w' rd ctx T gp lp j gc ra addr k p whole :
  unlinked w w' rd ctx T gp lp j gc ra addr k p whole -> measure_step w w'.
Proof.
  intros [_ _ _ _ _ _ (e & tp & tp' & tc & evs & _ & _ & _ & _ & _ & Hev & ->)].
  apply (step_quiet _ _ evs); try done. by eapply bbm_quiet.
Qed.

Lemma fault_measure w w' data_addr src_addr : source_fault w w' data_addr src_addr -> measure_step w w'.
Proof. intros (gc & old & _ & _ & _ & _ & ->). apply (step_quiet _ _ []); [done|by rewrite app_nil_r|constructor]. Qed.

(** The events name the realm, which is NEW. *)
Lemma step_new w w' g rd evs :
  r_rds w' = r_rds w -> r_rds w !! g = Some rd -> get_rd_state_locked rd = REALM_NEW ->
  r_log w' = r_log w ++ evs -> Forall (fun ev => forall x, measures x ev = true -> x = g) evs -> measure_step w w'.
Proof.
  intros Hr Hrd Hnew Hl Hall. split.
  - exists evs. split; [done|]. intros ev x Hev Hm. rewrite Forall_forall in Hall. rewrite (Hall ev Hev x Hm).
    unfold realm_state. rewrite Hrd. cbn. by rewrite Hnew.
  - intros x s Hs Hne. exists s. unfold realm_state. by rewrite Hr.
Qed.

Lemma data_measure w w' g rd ctx T gp gc data_addr addr flags data :
  r_rds w !! g = Some rd -> get_rd_state_locked rd = REALM_NEW ->
  data_mapped w w' g ctx T gp gc data_addr addr flags data -> measure_step w w'.
Proof.
  intros Hrd Hnew [_ _ _ _ _ _ (k & pa & e & v & tp & tp' & _ & _ & _ & _ & _ & _ & _ & _ & ->)].
  eapply step_new; [done|exact Hrd|exact Hnew|done|]. repeat constructor; cbn; [by intros x ->%Z.eqb_eq|done].
Qed.

Lemma ripas_measure w w1 g rd gp base addr :
  r_rds w1 = r_rds w -> r_rds w !! g = Some rd -> get_rd_state_locked rd = REALM_NEW ->
  only_writes w w1 gp -> measure_step w (with_log w1 [E_measure_ripas g base addr]).
Proof.
  intros Hr Hrd Hnew (evs & Hl & Hall). eapply (step_new _ _ g rd (evs ++ _)); [done|done|done| |].
  - cbn. by rewrite Hl, <- app_assoc.
  - apply Forall_app. split; [|repeat constructor; cbn; by intros x ->%Z.eqb_eq].
    eapply Forall_impl; [exact Hall|]. by intros ev (j & v & ->).
Qed.

(** Activation, from NEW; termination, to ZOMBIE. *)
Lemma word_measure w g rd v :
  r_rds w !! g = Some rd -> get_rd_state_locked rd = REALM_NEW \/ RD_UNPACK_STATE v <> REALM_NEW ->
  measure_step w (with_word w g rd v).
Proof.
  intros Hrd Hv. split; [exists []; split; [by rewrite app_nil_r|by intros ? ? ?%elem_of_nil]|].
  intros x s Hs Hne. unfold realm_state in *. cbn. destruct (decide (x = g)) as [->|Hx].
  - rewrite lookup_insert_eq. cbn. rewrite Hrd in Hs. injection Hs as Hs. eexists. split; [done|].
    destruct Hv as [Hv|Hv]; [congruence|exact Hv].
  - rewrite lookup_insert_ne by done. by exists s.
Qed.

End Steps.
