(* ===== verification/RttSession.v ===== *)
(** * Sessions of RTT commands

    RMI_RTT_READ_ENTRY, and any sequence of RTT commands of a host. *)

From Stdlib Require Import ZArith Lia Bool ZifyBool.
From stdpp Require Import base tactics option list numbers gmap.
From S2P Require Import Prelude.
From S2P Require Import Smc.
From S2P Require Import Utils.
From S2P Require Import Status.
From S2P Require Import Granule.
From S2P Require Import Mem.
From S2P Require Import Arch.
From S2P Require Import S2tte.
From S2P Require Import S2tteFacts.
From S2P Require Import S2tteProps.
From S2P Require Import S2ttTable.
From S2P Require Import S2ttWalk.
From S2P Require Import RttFold.
From S2P Require Import RttFoldProps.
From S2P Require Import RttEntry.
From S2P Require Import Realm.
From S2P Require Import RttTree.
From S2P Require Import Rmm.
From S2P Require Import RttCmds.
From S2P Require Import RttInv.
From S2P Require Import RttPath.
From S2P Require Import RttCreate.
From S2P Require Import RttUnlink.
From S2P Require Import RttData.
From S2P Require Import RttRange.
From S2P Require Import RttRipas.
From S2P Require Import RttIsolation.
From S2P Require Import RealmCmds.
From S2P Require Import RttMeasure.

Section Read.
Context `{feat : ArchFeatures} `{lookup : GranuleLookup}.
Implicit Types (w : rmm) (F : forest) (rd : rd) (ctx : s2tt_context) (T : tree).

(** The state and RIPAS RMI_RTT_READ_ENTRY reports for an entry of kind [k]. *)
Definition reports (k : s2tte_kind) (level desc : Z) : smc_result :=
  SmcResult RMI_SUCCESS (u64 level) (kind_state k) desc (ripas_code (default RIPAS_EMPTY (kind_ripas k))).

Lemma read_entry_total ctx lpa2 level e :
  s2tt_lpa2_enabled ctx = Some lpa2 -> -1 <= level <= 3 -> entry_ok ctx level e ->
  exists k desc, kind_of ctx level e = Some k /\
    rtt_read_entry ctx e level = Some (kind_state k, desc, ripas_code (default RIPAS_EMPTY (kind_ripas k))) /\
    match k with
    | K_assigned_ns => host_ns_s2tte ctx e level = Some desc
    | _ => if kind_live k then s2tte_pa ctx e level = Some desc else desc = 0
    end.
Proof.
  intros Hl Hlv [Hm|(k & pa & Hb)].
  - destruct (marked_kind ctx lpa2 level e Hl Hlv Hm) as (k & Hk & Hkind). exists k, 0.
    split; [by apply kind_of_spec|]. split; [by apply read_entry_unassigned|]. by destruct k.
  - destruct (read_entry_ok ctx lpa2 level k pa e Hl Hlv Hb) as (desc & Hr & Hd). exists k, desc.
    split; [by eapply kind_of_built|]. split; [done|].
    pose proof (built_pa ctx lpa2 level k pa e Hl Hb) as Hpa. destruct k; cbn [kind_live] in *; subst; auto.
Qed.

Lemma read_cmd_ok w F rd_addr map_addr ulevel res :
  inv w F -> 0 <= map_addr ->
  runs (smc_rtt_read_entry rd_addr map_addr ulevel res) w (fun out w' =>
    w' = w /\
    (res_x0 out = RMI_SUCCESS -> exists g rd ctx T gl l t e k desc,
       names_rd w rd_addr g /\ owns w g PRIMARY_S2_CTX_ID rd ctx T /\
       visits ctx (r_mem w) map_addr gl l /\ l <= to_long ulevel /\
       (l < to_long ulevel -> next_table ctx (r_mem w) gl map_addr l = None) /\
       tables (r_mem w) !! gl = Some t /\ arr_get t (s2_addr_to_idx map_addr l) = Some e /\
       kind_of ctx l e = Some k /\ out = reports k l desc /\
       match k with
       | K_assigned_ns => host_ns_s2tte ctx e l = Some desc
       | _ => if kind_live k then s2tte_pa ctx e l = Some desc else desc = 0
       end)).
Proof.
  intros Hinv Hma. unfold smc_rtt_read_entry. set (level := to_long ulevel). apply runs_bind. apply (lock_rd w F); [done| |].
  { intros st Hst _. cbn [fst]. rewrite (proj2 (Z.eqb_neq st RMI_SUCCESS)) by done. cbn [negb]. apply runs_ret.
    split; [done|]. by intros ?. }
  intros g Hg. cbn [fst snd]. rewrite Z.eqb_refl. cbn [negb]. eapply runs_bind, runs_lift; [done|].
  pose proof Hg as (Hga & r & Hrg). destruct (inv_rd _ _ Hinv g r Hrg) as (rd & lpa2 & bits & sl & Hrd & Hok & HF).
  eapply runs_bind, runs_get; [exact Hrd|].
  destruct (entry_valid rd lpa2 bits sl map_addr level Hok Hma) as (b & Hb & Hbt).
  eapply runs_bind, runs_lift; [exact Hb|]. destruct b; cbn [negb].
  2: { apply runs_bind. eapply unlock_rd; [exact Hg| |done]. apply runs_ret. split; [done|]. by intros ?. }
  destruct (Hbt eq_refl) as (Hlv & Hlt & _). pose proof (num_planes_eq _ _ _ _ Hok) as [_ Hn].
  destruct (rd_get_ctx _ _ _ _ 0 Hok ltac:(lia)) as [ctx Hc].
  assert (Hi : 0 <= 0 < realm_num_s2_rtts rd)
    by (unfold realm_num_s2_rtts, realm_num_s2_contexts; destruct (rtt_tree_pp rd); lia).
  destruct (realm_tree _ _ _ _ _ _ Hinv Hrd HF Hi Hc) as (T & HT & Hown).
  pose proof (own_tree _ _ _ _ _ _ Hown) as Htree.
  destruct (rd_ctx_ok _ _ _ _ Hok 0 ctx ltac:(lia) Hc) as (Hcok & Hbits & Hsl & _). pose proof Hcok as [Hl _ Hs _ _].
  assert (HTg : T !! g = None) by (by eapply not_in_tree).
  assert (Hr0 : T !! g_rtt ctx = Some (s2_starting_level ctx)) by (by destruct (ri_roots _ _ _ Htree) as (ra & _ & _ & H & _)).
  pose proof (rtt_inv_tree _ _ _ Htree) as Ht. pose proof (tree_ok_with_lock _ _ _ _ Ht HTg) as Ht1.
  eapply runs_bind, runs_lift; [exact Hc|]. apply runs_bind. eapply runs_on_mem; [eapply lock_table; [exact Ht1|exact Hr0]|].
  apply runs_bind. eapply runs_on_mem.
  { cbn [r_mem with_mem]. rewrite with_lock_comm by congruence.
    apply (with_lock_unlock (with_lock (r_mem w) (g_rtt ctx)) g (AGranule false GRANULE_STATE_RD r)); [|done].
    apply granule_at_with_lock_ne; [congruence|done]. }
  destruct (walk_ok ctx (r_mem w) T map_addr level lpa2 Hcok Ht (ri_roots _ _ _ Htree) ltac:(by rewrite Hbits) ltac:(lia))
    as (root & wi & Hw & Hroot & Hpw & Hidx & Hir & HTw & Hll & Hstop).
  apply runs_bind. eapply runs_on_mem; [exact Hw|].
  destruct (tree_table_at _ _ _ _ _ Htree HTw) as (t & Htb & Hlen & _ & _ & Hent).
  eapply runs_bind, runs_get; [exact Htb|].
  destruct (arr_get_some t (index wi)) as [e He]; [rewrite Hlen; unfold N_S2TTES, S2TTES_PER_S2TT in *; lia|].
  eapply runs_bind, runs_lift; [exact He|].
  destruct (read_entry_total ctx lpa2 (last_level wi) e Hl ltac:(destruct lpa2; lia) (Hent _ _ He)) as (k & desc & Hk & Hread & Hdesc).
  eapply runs_bind, runs_lift; [exact Hread|]. apply runs_bind. eapply runs_on_mem; [eapply unlock_table; [exact Ht|exact HTw]|].
  apply runs_ret. split; [by rewrite !with_mem_mem, with_mem_id|]. intros _.
  exists g, rd, ctx, T, (g_llt wi), (last_level wi), t, e, k, desc. rewrite <- Hidx. split_and!; try done; [|lia].
  pose proof (walk_visits ctx (r_mem w) map_addr (Z.to_nat (level - s2_starting_level ctx)) _ root (v_root _ _ _ _ Hroot) ltac:(lia)) as H.
  by rewrite <- Hpw in H.
Qed.

(** C39: from any state that satisfies the invariant, with any
    arguments, RMI_RTT_READ_ENTRY returns,
    releases its locks and changes nothing.  When it succeeds, it reports the
    level, state, RIPAS and descriptor of the entry at which the walk of the IPA
    ends: the requested level, or above it an entry that is not a table. *)
Theorem rtt_read_entry_faithful w F rd_addr map_addr ulevel res :
  inv w F -> 0 <= map_addr ->
  runs (smc_rtt_read_entry rd_addr map_addr ulevel res) w (fun out w' =>
    w' = w /\
    (res_x0 out = RMI_SUCCESS -> exists g rd ctx T gl l t e k desc,
       names_rd w rd_addr g /\ owns w g PRIMARY_S2_CTX_ID rd ctx T /\
       visits ctx (r_mem w) map_addr gl l /\ l <= to_long ulevel /\
       (l < to_long ulevel -> next_table ctx (r_mem w) gl map_addr l = None) /\
       tables (r_mem w) !! gl = Some t /\ arr_get t (s2_addr_to_idx map_addr l) = Some e /\
       kind_of ctx l e = Some k /\ out = reports k l desc /\
       match k with
       | K_assigned_ns => host_ns_s2tte ctx e l = Some desc
       | _ => if kind_live k then s2tte_pa ctx e l = Some desc else desc = 0
       end)).
Proof. apply read_cmd_ok. Qed.

End Read.

(** ** Sessions *)

Inductive rtt_command :=
  | C_create (rd_addr rtt_addr map_addr ulevel : Z)
  | C_aux_create (rd_addr rtt_addr map_addr ulevel idx : Z)
  | C_fold (rd_addr map_addr ulevel : Z)
  | C_aux_fold (rd_addr map_addr ulevel idx : Z)
  | C_destroy (rd_addr map_addr ulevel : Z)
  | C_aux_destroy (rd_addr map_addr ulevel idx : Z)
  | C_read_entry (rd_addr map_addr ulevel : Z)
  | C_data_map_init (rd_addr data_addr map_addr src_addr flags : Z)
  | C_init_ripas (rd_addr base top : Z)
  | C_realm_activate (rd_addr : Z)
  | C_realm_terminate (rd_addr : Z).

(** Registers are unsigned. *)
Definition command_ok (c : rtt_command) : Prop :=
  match c with
  | C_create a b d e => in_u64 a /\ in_u64 b /\ in_u64 d /\ in_u64 e
  | C_aux_create a b d e f => in_u64 a /\ in_u64 b /\ in_u64 d /\ in_u64 e /\ in_u64 f
  | C_realm_activate a | C_realm_terminate a => in_u64 a
  | C_fold a b d | C_destroy a b d | C_read_entry a b d | C_init_ripas a b d => in_u64 a /\ in_u64 b /\ in_u64 d
  | C_aux_fold a b d e | C_aux_destroy a b d e => in_u64 a /\ in_u64 b /\ in_u64 d /\ in_u64 e
  | C_data_map_init a b d e f => in_u64 a /\ in_u64 b /\ in_u64 d /\ in_u64 e /\ in_u64 f
  end.

Section Session.
Context `{feat : ArchFeatures} `{lookup : GranuleLookup} `{smmu : SmmuDriver} `{ns : NsMemory}.
Context (smmu_ok : forall vs addr level num leaf, smmuv3_inv_at_level_per_vmids vs addr level num leaf = 0).

Definition run_command (c : rtt_command) (res : smc_result) : H smc_result :=
  match c with
  | C_create rd_addr rtt_addr map_addr ulevel => smc_rtt_create rd_addr rtt_addr map_addr ulevel res
  | C_aux_create rd_addr rtt_addr map_addr ulevel idx => smc_rtt_aux_create rd_addr rtt_addr map_addr ulevel idx res
  | C_fold rd_addr map_addr ulevel => smc_rtt_fold rd_addr map_addr ulevel res
  | C_aux_fold rd_addr map_addr ulevel idx => smc_rtt_aux_fold rd_addr map_addr ulevel idx res
  | C_destroy rd_addr map_addr ulevel => smc_rtt_destroy rd_addr map_addr ulevel res
  | C_aux_destroy rd_addr map_addr ulevel idx => smc_rtt_aux_destroy rd_addr map_addr ulevel idx res
  | C_read_entry rd_addr map_addr ulevel => smc_rtt_read_entry rd_addr map_addr ulevel res
  | C_data_map_init rd_addr data_addr map_addr src_addr flags =>
      smc_rtt_data_map_init rd_addr data_addr map_addr src_addr flags res
  | C_init_ripas rd_addr base top => smc_rtt_init_ripas rd_addr base top res
  | C_realm_activate rd_addr => smc_realm_activate rd_addr res
  | C_realm_terminate rd_addr => smc_realm_terminate rd_addr res
  end.

(** A host that issues commands one after the other; each starts with cleared
    result registers. *)
Fixpoint run_session (cs : list rtt_command) : H (list smc_result) :=
  match cs with
  | [] => ret []
  | c :: rest =>
      out <-! run_command c (SmcResult 0 0 0 0 0) ;;
      outs <-! run_session rest ;;
      ret (out :: outs)
  end.

(** What every command does, as far as realm memory and measurements go. *)
Definition command_step w w' F F' : Prop :=
  measure_step w w' /\ exists fresh, mapping_step w w' F F' fresh.

(** Every command runs to completion, as [command_step] allows. *)
Lemma command_steps w F c res :
  inv w F -> command_ok c -> runs (run_command c res) w (fun out w' => exists F', command_step w w' F F').
Proof.
  intros Hinv Hc. assert (Hnone : exists F', command_step w w F F')
    by (exists F; split; [apply step_same|exists None; by apply step_none]).
  assert (Hcreate : forall a b d e f aux, 0 <= b -> 0 <= d -> 0 <= f ->
    runs (status <-! rtt_create a b d e f aux ;; ret (set_x0 status res)) w (fun out w' => exists F', command_step w w' F F')).
  { intros a b d e f aux Hb Hd Hf. apply runs_bind. eapply runs_mono; [by eapply (create_ok smmu_ok)|].
    intros st w' [(Hne & _ & ->)|(-> & g & rd & ctx & T & gp & j & gc & _ & Hown & HF & _ & Hcr)]; apply runs_ret; [done|].
    eexists. split; [by eapply created_measure|]. eexists. by eapply create_step. }
  assert (Hfold : forall a b d e aux, 0 <= b -> 0 <= e ->
    runs (rtt_fold a b d e aux res) w (fun out w' => exists F', command_step w w' F F')).
  { intros a b d e aux Hb He. eapply runs_mono; [by eapply (fold_ok smmu_ok)|].
    intros out w' [(Hne & _ & ->)|(g & rd & ctx & T & gp & j & gc & ra & k & p & -> & Hg & Hown & HF & _ & Hul & Hf)]; [done|].
    eexists. split; [by eapply unlinked_measure|]. eexists. by eapply fold_step. }
  assert (Hdestroy : forall a b d e aux, 0 <= b -> 0 <= e ->
    runs (rtt_destroy a b d e aux res) w (fun out w' => exists F', command_step w w' F F')).
  { intros a b d e aux Hb He. eapply runs_mono; [by eapply (destroy_ok smmu_ok)|].
    intros out w' [(Hne & _ & ->)|(g & rd & ctx & T & gp & j & gc & ra & p & in_par & tc & H0 & H1 & Hg & Hown & HF & Hm & _ & Hul & Htc & Hz)];
      [done|]. eexists. split; [by eapply unlinked_measure|]. eexists. eapply destroy_step; try done.
    by replace (to_long d - 1 + 1) with (to_long d) by lia. }
  destruct c; cbn [command_ok run_command] in *; unfold in_u64 in Hc.
  1-2: apply Hcreate; lia.
  1-2: apply Hfold; lia.
  1-2: apply Hdestroy; lia.
  - eapply runs_mono; [eapply read_cmd_ok; [exact Hinv|lia]|]. by intros out w' [-> _].
  - eapply runs_mono; [eapply data_map_init_ok; [exact Hinv|lia|lia]|]. intros out w'
      [(_ & _ & ->)|[(_ & Hf)|(_ & g & rd & ctx & T & gp & gc & old & _ & Hown & HF & Hnew & _ & Hm & _ & _ & _ & Hdm)]]; [done| |].
    + exists F. split; [by eapply fault_measure|]. eexists. by eapply fault_step.
    + exists F. split; [eapply data_measure; [by destruct Hown|done..]|]. eexists. by eapply data_step.
  - eapply runs_mono; [eapply init_ripas_ok; [exact Hinv|lia|lia]|]. intros out w'
      [(_ & _ & ->)|(_ & g & rd & ctx & T & gp & l & w1 & _ & HF & Hown & Hnew & _ & Hle & Htop & Hrl & _ & Hlog & Hw)]; [done|].
    destruct (owns_ctx_ok _ _ _ _ _ _ Hown) as [lpa2 Hctx].
    exists F. split; [rewrite Hw; eapply ripas_measure; [|by destruct Hown|done|done]|].
    { pose proof (rl_rds _ _ _ _ _ _ _ _ _ _ _ _ _ Hrl) as Hr. by rewrite Hw in Hr. }
    eexists. eapply relabel_step; [|done|exact HF|exact Hown|exact Hrl|].
    { intros k k' Hk Hd. destruct k; cbn in Hk; try discriminate Hk; injection Hk as <-; done. }
    eapply (visits_tree ctx lpa2 (r_mem w') T base gp l Hctx (own_tree _ _ _ _ _ _ (rl_own _ _ _ _ _ _ _ _ _ _ _ _ _ Hrl)));
      [lia|by destruct Hrl].
  - eapply runs_mono; [by eapply activate_ok|]. intros out w' [(_ & _ & ->)|(g & rd & _ & Hrd & H)]; [done|].
    destruct (Z.eqb_spec (get_rd_state_locked rd) REALM_NEW); destruct H as [_ ->]; [|done].
    exists F. split; [apply word_measure; by auto|]. eexists. by apply with_word_step.
  - eapply runs_mono; [by eapply terminate_ok|]. intros out w' [(_ & _ & ->)|(g & rd & _ & Hrd & H)]; [done|].
    destruct (_ =? _); destruct H as [_ ->]; [|done].
    exists F. split; [apply word_measure; [done|by right]|]. eexists. by apply with_word_step.
Qed.

(** A relation that composes with every command's step holds between the ends of a
    session. *)
Lemma session_steps (R : rmm -> forest -> rmm -> forest -> Prop) cs w F :
  (forall w F, R w F w F) ->
  (forall w1 F1 w2 F2 w3 F3, command_step w1 w2 F1 F2 -> R w2 F2 w3 F3 -> R w1 F1 w3 F3) ->
  inv w F -> Forall command_ok cs ->
  runs (run_session cs) w (fun outs w' => length outs = length cs /\ exists F', inv w' F' /\ R w F w' F').
Proof.
  intros Hrefl Hstep Hinv Hcs. revert w F Hinv. induction Hcs as [|c cs Hc Hcs IH]; intros w F Hinv; cbn [run_session].
  { apply runs_ret. split; [done|]. by exists F. }
  apply runs_bind. eapply runs_mono; [by eapply command_steps|]. intros out w1 (F1 & H1). pose proof H1 as (_ & fresh & Hm).
  apply runs_bind. eapply runs_mono; [by eapply IH, (ms_inv _ _ _ _ _ Hm)|]. intros outs w2 (Hlen & F2 & Hinv2 & H2).
  apply runs_ret. cbn. split; [lia|]. exists F2. split; [done|]. by eapply Hstep.
Qed.




End Session.
