(* ===== verification/RttDemo.v ===== *)
(** * A concrete world for the RTT commands

    Four granules: the RD of a realm (99), its level 2 root table (100), a level 3
    table (101) under entry 1 of the root, and a delegated granule (102).  The
    invariant holds of it, and each command succeeds on it. *)

From Stdlib Require Import ZArith Lia Bool ZifyBool.
From stdpp Require Import base tactics option list numbers gmap.
From S2P Require Import Prelude.
From S2P Require Import Smc.
From S2P Require Import Utils.
From S2P Require Import Status.
From S2P Require Import Granule.
From S2P Require Import Mem.
From S2P Require Import SmallNames.
From S2P Require Import Arch.
From S2P Require Import S2tte.
From S2P Require Import S2tteFacts.
From S2P Require Import S2tteProps.
From S2P Require Import S2ttTable.
From S2P Require Import S2ttWalk.
From S2P Require Import RttFold.
From S2P Require Import RttFoldProps.
From S2P Require Import RttEntry.
From S2P Require Import Realm.
From S2P Require Import RttTree.
From S2P Require Import Rmm.
From S2P Require Import RttCmds.
From S2P Require Import RttInv.
From S2P Require Import RttPath.
From S2P Require Import RttCreate.
From S2P Require Import RttUnlink.
From S2P Require Import RttData.
From S2P Require Import RttRange.
From S2P Require Import RttRipas.
From S2P Require Import RttIsolation.
From S2P Require Import RealmCmds.
From S2P Require Import RttMeasure.
From S2P Require Import RttSession.

#[local] Existing Instance demo_features.

(** ** The outside world *)

Definition small_smmu : SmmuDriver := {| smmuv3_inv_at_level_per_vmids := fun _ _ _ _ _ => 0 |}.

(** Non-secure memory in which every word is 0x5a. *)
Definition small_ns : NsMemory.
Proof.
  refine {| ns_buffer_read_addr := fun _ old => (true, replicate (length old) 0x5a) |}.
  intros addr old. cbn [snd]. apply length_replicate.
Defined.

#[local] Existing Instance small_lookup.
#[local] Existing Instance small_smmu.
#[local] Existing Instance small_ns.

Lemma small_smmu_ok vs addr level num leaf : smmuv3_inv_at_level_per_vmids vs addr level num leaf = 0.
Proof. reflexivity. Qed.

(** ** The world *)

Definition small_leaf : Z := Eval vm_compute in s2tte_create_unassigned_ram demo_walk_ctx 0.
Definition small_link : Z := Eval vm_compute in default 0 (s2tte_create_table demo_walk_ctx (101 * 4096) 2).
Definition small_root : list Z := <[1%nat := small_link]> (replicate N_S2TTES small_leaf).
Definition small_child : list Z := replicate N_S2TTES small_leaf.
Definition small_rd : rd := Rd 0 (replicate 4 demo_walk_ctx) 0 false true.

Definition small_descs : list (Z * agranule) :=
  [ (99, AGranule false GRANULE_STATE_RD 0); (100, AGranule false GRANULE_STATE_RTT 1);
    (101, AGranule false GRANULE_STATE_RTT 0); (102, AGranule false GRANULE_STATE_DELEGATED 0) ].
Definition small_tables : list (Z * list Z) :=
  [ (99, replicate N_S2TTES 0); (100, small_root); (101, small_child); (102, replicate N_S2TTES 0) ].
Definition small_mem : mem :=
  Mem (list_to_map (prod_map id (encode GRN) <$> small_descs)) (list_to_map small_tables).
Definition small_world : rmm := Rmm small_mem {[99 := small_rd]} 7 [].
Definition small_tree : tree := <[100 := 2]> {[101 := 3]}.
Definition small_forest : forest := {[(99, 0) := small_tree]}.

Lemma small_granule g a : (g, a) ∈ small_descs -> granule_at small_mem g a.
Proof.
  intros H. unfold small_descs in H. repeat (apply elem_of_cons in H as [H|H]; [injection H as -> ->|]).
  5: by apply elem_of_nil in H. all: split; [reflexivity|split; [repeat split; cbv; congruence|reflexivity]].
Qed.

Lemma small_granule_inv g a : granule_at small_mem g a -> (g, a) ∈ small_descs.
Proof.
  intros Ha. pose proof Ha as (Hd & _). cbn [descs small_mem] in Hd. apply elem_of_list_to_map_2 in Hd.
  assert (Hg : exists a', (g, a') ∈ small_descs).
  { apply list_elem_of_fmap in Hd as ([g' a'] & Heq & Hin). injection Heq as -> _. by exists a'. }
  destruct Hg as [a' Hin]. by rewrite (granule_at_inj _ _ _ _ Ha (small_granule g a' Hin)).
Qed.

Lemma small_tree_inv g l : small_tree !! g = Some l -> (g = 100 /\ l = 2) \/ (g = 101 /\ l = 3).
Proof.
  unfold small_tree. intros [[<- <-]|[_ H]]%lookup_insert_Some; [by left|]. right. by apply lookup_singleton_Some in H as [<- <-].
Qed.

Lemma small_root_entry j e :
  arr_get small_root j = Some e -> (j = 1 /\ e = small_link) \/ (j <> 1 /\ e = small_leaf).
Proof.
  unfold arr_get, small_root. destruct (Z.leb_spec 0 j); [|done].
  intros [(H1 & <- & _)|[H1 H2]]%list_lookup_insert_Some; [left; split; [lia|done]|right].
  apply lookup_replicate_1 in H2 as [-> _]. split; [lia|done].
Qed.

Lemma small_child_entry j e : arr_get small_child j = Some e -> e = small_leaf.
Proof. unfold arr_get. destruct (0 <=? j); [|done]. by intros [-> _]%lookup_replicate_1. Qed.

Lemma small_points g j c : points demo_walk_ctx small_mem small_tree g j c -> g = 100 /\ j = 1 /\ c = 101.
Proof.
  intros (l & t & e & pa & [[-> ->]|[-> ->]]%small_tree_inv & Hl & Ht & He & Hit & Hpa & Hc); [|by vm_compute in Hl].
  assert (t = small_root) as -> by (by injection Ht). destruct (small_root_entry j e He) as [[-> ->]|[_ ->]]; [|by vm_compute in Hit].
  split_and!; try done. vm_compute in Hpa. injection Hpa as <-. vm_compute in Hc. by injection Hc.
Qed.

Lemma small_leaf_built level : built demo_walk_ctx level K_unassigned_ram 0 small_leaf.
Proof. change small_leaf with (s2tte_create_unassigned_ram demo_walk_ctx 0). constructor. Qed.

Lemma small_link_built : built demo_walk_ctx 2 K_table (101 * 4096) small_link.
Proof. apply b_tbl; vm_compute; reflexivity. Qed.

Lemma small_rtt_inv : rtt_inv demo_walk_ctx small_mem small_tree.
Proof.
  split.
  - intros g l [[-> ->]|[-> ->]]%small_tree_inv; cbv; split; congruence.
  - intros g l [[-> ->]|[-> ->]]%small_tree_inv.
    + exists small_root. split_and!; [reflexivity|reflexivity| |].
      * change (table_refs _ _ _) with 1. apply small_granule. cbv. right. left.
      * intros j e [[-> ->]|[_ ->]]%small_root_entry; right; eauto using small_leaf_built, small_link_built.
    + exists small_child. split_and!; [reflexivity|reflexivity| |].
      * change (table_refs _ _ _) with 0. apply small_granule. cbv. right. right. left.
      * intros j e ->%small_child_entry. right. eauto using small_leaf_built.
  - intros g l t j e [[-> ->]|[-> ->]]%small_tree_inv Ht Hl He Hit; [|by vm_compute in Hl].
    assert (t = small_root) as -> by (by injection Ht).
    destruct (small_root_entry j e He) as [[-> ->]|[_ ->]]; [|by vm_compute in Hit].
    exists (101 * 4096), 101. by split_and!.
  - intros g1 j1 g2 j2 c (-> & -> & _)%small_points (-> & -> & _)%small_points. done.
  - intros g j c (_ & _ & ->)%small_points (ra & n & Hra & Hn & Hr). apply small_name_inv in Hra as [-> _].
    cbn in Hn. assert (n = 0) as -> by lia. apply small_name_inv in Hr as [Hr _]. change GRANULE_SIZE with 4096 in Hr. cbn in Hr. lia.
  - exists (100 * 4096). split_and!; try reflexivity; try lia. intros n Hn. cbn in Hn. assert (n = 0) as -> by lia.
    exists 100. by split.
  - intros g l [[-> ->]|[-> ->]]%small_tree_inv; [by exists (100 * 4096)|by exists (101 * 4096)].
  - intros g l [[-> ->]|[-> ->]]%small_tree_inv.
    + left. exists (100 * 4096), 0. by split_and!.
    + right. exists 100, 1, 2, small_root, small_link, (101 * 4096). by split_and!.
Qed.

Lemma small_rd_ok : rd_ok small_rd false 30 2.
Proof.
  split; [cbv; split; congruence|reflexivity|]. intros i ctx Hi Hc. unfold arr_get in Hc.
  assert (ctx = demo_walk_ctx) as -> by (destruct (0 <=? i); [by apply lookup_replicate_1 in Hc as [-> _]|done]).
  split; [exact demo_ctx_ok|]. by split_and!; try reflexivity; try lia.
Qed.

Lemma small_owns : owns small_world 99 0 small_rd demo_walk_ctx small_tree.
Proof.
  split; [reflexivity|cbv; split; congruence|reflexivity|by exists false, 30, 2; apply small_rd_ok|exact small_rtt_inv].
Qed.

Lemma small_forest_inv k T : small_forest !! k = Some T -> k = (99, 0) /\ T = small_tree.
Proof. unfold small_forest. intros [<- <-]%lookup_singleton_Some. done. Qed.

Lemma small_inv : inv small_world small_forest.
Proof.
  split.
  - intros a g [-> Hg]%small_name_inv.
    assert (Hcase : g = 99 \/ g = 100 \/ g = 101 \/ g = 102) by lia. destruct Hcase as [-> | [-> | [-> | ->]]].
    all: split; [eexists; split; [apply small_granule; cbv; repeat first [left | right]|reflexivity]|by eexists; split].
  - intros g r Hg. exists small_rd, false, 30, 2. apply small_granule_inv in Hg.
    unfold small_descs in Hg. repeat (apply elem_of_cons in Hg as [Hg|Hg]; [try discriminate Hg|]).
    2: by apply elem_of_nil in Hg. injection Hg as -> _. split_and!; [reflexivity|exact small_rd_ok|].
    intros i Hi. change (realm_num_s2_rtts small_rd) with 1 in Hi. assert (i = 0) as -> by lia. by exists small_tree.
  - intros g i T [[= -> ->] ->]%small_forest_inv. exists small_rd, demo_walk_ctx. exact small_owns.
  - intros k1 k2 T1 T2 g l1 l2 [-> _]%small_forest_inv [-> _]%small_forest_inv. done.
Qed.

(** ** Witnesses *)



Lemma rtt_fold_correct_witness :
  (exists out w, rtt_fold (99 * 4096) 0x200000 3 0 false (SmcResult 0 0 0 0 0) small_world = Some (out, w) /\
     res_x0 out = RMI_SUCCESS /\ res_x1 out = 101 * 4096) /\
  runs (rtt_fold (99 * 4096) 0x200000 3 0 false (SmcResult 0 0 0 0 0)) small_world (fun out w' =>
    (res_x0 out <> RMI_SUCCESS /\ w' = small_world) \/
    (res_x0 out = RMI_SUCCESS /\ exists F gp gc, restructured small_world w' small_forest F gp gc)).
Proof.
  split; [eexists _, _; vm_compute; split; [reflexivity|split; reflexivity]|].
  eapply runs_mono;
    [apply (rtt_fold_correct small_smmu_ok small_world small_forest (99 * 4096) 0x200000 3 0 false
       (SmcResult 0 0 0 0 0) small_inv); vm_compute; discriminate|].
  intros out w' [H|(H0 & g & T & gp & gc & _ & _ & _ & _ & _ & H)]; [left; destruct H as (H & _ & ->); split; [exact H|reflexivity]|right]. split; [exact H0|].
  eexists _, gp, gc. exact H.
Defined.



Lemma rtt_read_entry_faithful_witness :
  runs (smc_rtt_read_entry (99 * 4096) 0x201000 3 (SmcResult 0 0 0 0 0)) small_world (fun out w' =>
    w' = small_world /\ (res_x0 out = RMI_SUCCESS -> exists k l desc, out = reports k l desc)).
Proof.
  eapply runs_mono;
    [apply (rtt_read_entry_faithful small_world small_forest (99 * 4096) 0x201000 3 (SmcResult 0 0 0 0 0) small_inv);
     vm_compute; discriminate|].
  intros out w' [Hw H]. split; [exact Hw|]. intros Hs.
  destruct (H Hs) as (g & rd & ctx & T & gl & l & t & e & k & desc & _ & _ & _ & _ & _ & _ & _ & _ & Ho & _).
  exists k, l, desc. exact Ho.
Defined.

Lemma rtt_data_map_init_correct_witness :
  (exists out w, smc_rtt_data_map_init (99 * 4096) (102 * 4096) 0x201000 0x7000 1 (SmcResult 0 0 0 0 0) small_world
     = Some (out, w) /\ res_x0 out = RMI_SUCCESS) /\
  runs (smc_rtt_data_map_init (99 * 4096) (102 * 4096) 0x201000 0x7000 1 (SmcResult 0 0 0 0 0)) small_world
    (fun out w' => inv w' small_forest).
Proof.
  split; [eexists _, _; vm_compute; split; reflexivity|].
  eapply runs_mono;
    [apply (rtt_data_map_init_correct small_world small_forest (99 * 4096) (102 * 4096) 0x201000 0x7000 1
       (SmcResult 0 0 0 0 0) small_inv); vm_compute; discriminate|].
  intros out w' [H _]. exact H.
Defined.

Lemma rtt_init_ripas_correct_witness :
  (exists out w, smc_rtt_init_ripas (99 * 4096) 0x200000 0x208000 (SmcResult 0 0 0 0 0) small_world = Some (out, w) /\
     res_x0 out = RMI_SUCCESS /\ res_x1 out = 0x208000) /\
  runs (smc_rtt_init_ripas (99 * 4096) 0x200000 0x208000 (SmcResult 0 0 0 0 0)) small_world (fun out w' =>
    (res_x0 out <> RMI_SUCCESS /\ w' = small_world) \/
    (res_x0 out = RMI_SUCCESS /\ 0x200000 < res_x1 out <= 0x208000 /\ inv w' small_forest)).
Proof.
  split; [eexists _, _; vm_compute; split; [reflexivity|split; reflexivity]|].
  eapply runs_mono;
    [apply (rtt_init_ripas_correct small_world small_forest (99 * 4096) 0x200000 0x208000 (SmcResult 0 0 0 0 0) small_inv);
     vm_compute; discriminate|].
  intros out w' [(H & _ & Hw)|(H0 & g & rd & ctx & T & gp & l & w1 & _ & _ & _ & Hle & H & _)]; [left|right].
  - split; [exact H|exact Hw].
  - split; [exact H0|]. split; [exact Hle|exact H].
Defined.

(** The small realm has no memory yet. *)
Lemma small_no_memory g i p o : ~ maps small_world small_forest g i p o.
Proof.
  intros (T & rd & ctx & a & k & out & attrs & [[= -> ->] ->]%small_forest_inv & Hown & Ha & _ & Ht & Hk & _).
  destruct (owns_unique _ _ _ _ _ _ _ _ _ small_owns Hown) as [-> ->]. change (r_mem small_world) with small_mem in Ht.
  unfold translate in Ht. destruct (pure_root demo_walk_ctx a) as [root|] eqn:Hr; [|done]. cbn [mbind option_bind] in Ht.
  pose proof (walk_visits demo_walk_ctx small_mem a (Z.to_nat (S2TT_PAGE_LEVEL - s2_starting_level demo_walk_ctx)) _ root
    (v_root _ _ _ _ Hr) ltac:(vm_compute; discriminate)) as Hv.
  destruct (pure_walk _ _ _ _ _ _) as [gl lv]. cbn [fst snd] in Hv.
  destruct (visits_tree _ _ _ _ _ _ _ demo_ctx_ok small_rtt_inv Ha Hv) as [[[-> ->]|[-> ->]]%small_tree_inv _].
  all: destruct (tables small_mem !! _) as [t|] eqn:Htb; [|done]; cbn [mbind option_bind] in Ht;
       destruct (arr_get t _) as [e|] eqn:He; [|done]; cbn [mbind option_bind] in Ht.
  - assert (t = small_root) as -> by (by injection Htb).
    destruct (small_root_entry _ _ He) as [[_ ->]|[_ ->]]; injection Ht as <- _ _; done.
  - assert (t = small_child) as -> by (by injection Htb).
    rewrite (small_child_entry _ _ He) in Ht. injection Ht as <- _ _. done.
Qed.

Lemma small_data_inv : data_inv small_world small_forest.
Proof. split; intros; by exfalso; eapply small_no_memory. Qed.

(** Create a table under entry 0, read through it, fold it; declare RAM and map a
    page below the other table, which can then not be destroyed; activate the
    realm, after which its RIPAS cannot be initialised, and terminate it. *)
Definition small_session : list rtt_command :=
  [ C_create (99 * 4096) (102 * 4096) 0 3; C_read_entry (99 * 4096) 0x1000 3; C_fold (99 * 4096) 0 3;
    C_init_ripas (99 * 4096) 0x200000 0x208000; C_data_map_init (99 * 4096) (102 * 4096) 0x201000 0x7000 1;
    C_destroy (99 * 4096) 0x200000 3; C_realm_activate (99 * 4096); C_init_ripas (99 * 4096) 0x200000 0x208000;
    C_realm_terminate (99 * 4096) ].



(** The small realm, activated. *)
Definition active_world : rmm := with_word small_world 99 small_rd (RD_PACK_SC REALM_ACTIVE 0).

