(* ===== verification/UnmapDemo.v ===== *)
(** * The unmapping commands on a concrete realm

    The realm of [RttDemo] with one page of memory: granule 102 at IPA 0x201000.  The
    page is unmapped without and with interruptions. *)

From Stdlib Require Import ZArith Lia Bool ZifyBool.
From stdpp Require Import base tactics option list numbers gmap.
From S2P Require Import Prelude.
From S2P Require Import Utils.
From S2P Require Import Status.
From S2P Require Import Smc.
From S2P Require Import Granule.
From S2P Require Import Mem.
From S2P Require Import SmallNames.
From S2P Require Import Arch.
From S2P Require Import AddrList.
From S2P Require Import Sro.
From S2P Require Import S2tte.
From S2P Require Import S2tteProps.
From S2P Require Import S2ttTable.
From S2P Require Import S2ttWalk.
From S2P Require Import RttFoldProps.
From S2P Require Import Realm.
From S2P Require Import RttTree.
From S2P Require Import Rmm.
From S2P Require Import SroPool.
From S2P Require Import RttUnmap.
From S2P Require Import RttInv.
From S2P Require Import UnmapPass.
From S2P Require Import UnmapDrain.
From S2P Require Import UnmapStamp.
From S2P Require Import UnmapValid.
From S2P Require Import RttPath.
From S2P Require Import RttData.
From S2P Require Import RttIsolation.
From S2P Require Import UnmapRun.
From S2P Require Import UnmapCmd.
From S2P Require Import UnmapSmc.
From S2P Require Import UnmapCorrect.
From S2P Require Import RttCreate.
From S2P Require Import RttDemo.

#[local] Existing Instance demo_features.
#[local] Existing Instance small_lookup.
#[local] Existing Instance small_ns.

(** ** The outside world *)

(** All memory is tracked by granule. *)
Definition small_find_active (a s : Z) : M (Z * option Z * option Z) := fun m =>
  match small_find a s m with
  | Some ((st, Some g), m') => Some ((st, Some g, Some GRANULE_SIZE), m')
  | Some ((st, None), m') => Some ((st, None, None), m')
  | None => None
  end.

#[local] Instance small_active : ActiveLookup := {|
  tracking_region_get_size := XLAT_BLOCK_SIZE 2;
  find_lock_active_granule := small_find_active;
  find_lock_active_dev_granule := fun _ _ ds => Some ((RMI_ERROR_INPUT, None, None), ds)
|}.

Definition small_active_of (a : Z) : option (Z * Z) := (fun g => (g, GRANULE_SIZE)) <$> small_name a.

Definition small_active_laws : ActiveLaws.
Proof.
  refine {| active_of := small_active_of |}.
  - by exists 2.
  - intros addr Ha. exists RMI_ERROR_INPUT. split; [done|]. intros m s. exists None. unfold small_active_of in Ha. cbn. unfold small_find_active, small_find.
    by destruct (small_name addr).
  - intros addr g size Ha. exists RMI_ERROR_INPUT. split; [done|]. intros m s a Hg. unfold small_active_of in Ha. cbn. unfold small_find_active, small_find.
    destruct (small_name addr) as [g'|]; [|done]. injection Ha as -> <-. rewrite (lock_on_state_match_ok m g a s Hg).
    destruct (negb (a_state a =? s)); [by exists None|]. destruct (a_locked a) eqn:Hl; [done|]. by rewrite (with_lock_set m g a).
  - intros addr g size Ha. left. unfold small_active_of in Ha. cbn. destruct (small_name addr); [|done]. by injection Ha as -> <-.
  - intros addr addr' g Ha. unfold small_active_of in Ha. destruct (small_name addr); [|done]. discriminate Ha.
Defined.
#[local] Existing Instance small_active_laws.

(** The SMMU completes at once; interrupts are pending at the samples of [irqs]. *)
Definition small_env (irqs : list nat) : UnmapEnv.
Proof.
  refine {| isr_pending := fun n => bool_decide (n ∈ irqs); cmd_sync_complete := fun _ => true;
            smmuv3_inv_at_level_per_vmids_submit := fun _ _ _ _ _ => 0; sync_bound := 1%nat |}.
  intros t. exists 0%nat. by split; [lia|].
Defined.
#[local] Instance small_host : UnmapHost := {| list_writable := fun _ => true |}.

Lemma small_submit irqs vs addr level num leaf :
  @smmuv3_inv_at_level_per_vmids_submit (small_env irqs) vs addr level num leaf = 0.
Proof. reflexivity. Qed.

(** ** The world *)

Definition no_result : smc_result := SmcResult 0 0 0 0 0.
Definition mapped_world : rmm :=
  match smc_rtt_data_map_init (99 * 4096) (102 * 4096) 0x201000 0x7000 1 no_result small_world with
  | Some (_, w) => w
  | None => small_world
  end.

Lemma mapped_rds : r_rds mapped_world = {[99 := small_rd]}.
Proof. vm_compute. reflexivity. Qed.
Lemma mapped_tables : tables (r_mem mapped_world) !! 100 = Some small_root.
Proof. vm_compute. reflexivity. Qed.

Lemma mapped_ok : exists gp gc flags data, data_mapped small_world mapped_world 99 demo_walk_ctx small_tree gp gc (102 * 4096) 0x201000 flags data.
Proof.
  destruct (data_map_init_ok small_world small_forest (99 * 4096) (102 * 4096) 0x201000 0x7000 1 no_result small_inv ltac:(done) ltac:(done)) as (out & w & Hr & Hc).
  assert (Hw : mapped_world = w) by (unfold mapped_world; by rewrite Hr).
  assert (Hx : res_x0 out = RMI_SUCCESS) by (assert (H : option_map (fun r => res_x0 (fst r)) (smc_rtt_data_map_init (99 * 4096) (102 * 4096) 0x201000 0x7000 1 no_result small_world) = Some RMI_SUCCESS)
    by (vm_compute; reflexivity); rewrite Hr in H; by injection H).
  destruct Hc as [(Hne & _)|[(He & _)|(_ & g & rd & ctx & T & gp & gc & old & Hg & Hown & HF & _ & _ & _ & _ & _ & _ & Hdm)]]; [congruence|rewrite Hx in He; discriminate He|].
  apply small_forest_inv in HF as [[= ->] ->]. destruct (owns_unique _ _ _ _ _ _ _ _ _ small_owns Hown) as [_ ->]. rewrite Hw. by eexists _, _, _, _.
Qed.

Lemma small_at : small_forest !! (99, PRIMARY_S2_CTX_ID) = Some small_tree.
Proof. reflexivity. Qed.

Lemma mapped_inv : inv mapped_world small_forest /\ data_inv mapped_world small_forest.
Proof.
  destruct mapped_ok as (gp & gc & flags & data & Hdm). split.
  - by apply (data_mapped_inv _ _ _ _ _ _ _ _ _ _ _ _ _ _ small_inv small_at small_owns Hdm).
  - by apply (data_inv_step _ _ _ _ _ small_data_inv (data_step _ _ _ _ _ _ _ _ _ _ _ _ _ small_inv small_at small_owns Hdm ltac:(done))).
Qed.

(** What the tables of the two worlds say. *)
Lemma small_kinds a k out attrs fl : 0 <= a < 2 ^ ipa_bits demo_walk_ctx -> translate demo_walk_ctx small_mem a = Some (k, out, attrs) -> half fl k = true.
Proof.
  intros Ha Ht. unfold translate in Ht. destruct (pure_root demo_walk_ctx a) as [root|] eqn:Hr; [|done]. cbn [mbind option_bind] in Ht.
  pose proof (walk_visits demo_walk_ctx small_mem a (Z.to_nat (S2TT_PAGE_LEVEL - s2_starting_level demo_walk_ctx)) _ root
    (v_root _ _ _ _ Hr) ltac:(vm_compute; discriminate)) as Hv.
  destruct (pure_walk _ _ _ _ _ _) as [gl lv]. cbn [fst snd] in Hv.
  destruct (visits_tree _ _ _ _ _ _ _ demo_ctx_ok small_rtt_inv Ha Hv) as [[[-> ->]|[-> ->]]%small_tree_inv _].
  all: destruct (tables small_mem !! _) as [t|] eqn:Htb; [|done]; cbn [mbind option_bind] in Ht;
       destruct (arr_get t _) as [e|] eqn:He; [|done]; cbn [mbind option_bind] in Ht.
  - assert (t = small_root) as -> by (by injection Htb).
    destruct (small_root_entry _ _ He) as [[_ ->]|[_ ->]]; injection Ht as <- _ _; by destruct fl.
  - assert (t = small_child) as -> by (by injection Htb).
    rewrite (small_child_entry _ _ He) in Ht. injection Ht as <- _ _. by destruct fl.
Qed.

Lemma mapped_owns g T rd ctx : small_forest !! (g, PRIMARY_S2_CTX_ID) = Some T -> owns mapped_world g PRIMARY_S2_CTX_ID rd ctx T ->
  g = 99 /\ T = small_tree /\ rd = small_rd /\ ctx = demo_walk_ctx.
Proof.
  intros [[= ->] ->]%small_forest_inv [Hrd _ Hc _ _]. rewrite mapped_rds in Hrd. apply lookup_singleton_Some in Hrd as [_ <-]. change (Some demo_walk_ctx = Some ctx) in Hc. by injection Hc as <-.
Qed.

Lemma mapped_halves : halves mapped_world small_forest.
Proof.
  intros g T rd ctx a k out attrs prot HF Hown Ha Hpar Ht. destruct (mapped_owns g T rd ctx HF Hown) as (-> & -> & -> & ->).
  destruct mapped_ok as (gp & gc & flags & data & Hdm).
  destruct (data_mapped_translate _ _ _ _ _ _ _ _ _ _ _ _ _ a small_inv small_at small_owns Hdm ltac:(done) Ha) as (k0 & e & _ & Hc).
  destruct (decide (a / GRANULE_SIZE = 0x201000 / GRANULE_SIZE)) as [Hpg|_]; [|rewrite Hc in Ht; by eapply small_kinds].
  destruct Hc as [_ Hc]. rewrite Hc in Ht. injection Ht as <- _ _. destruct prot; [done|]. exfalso.
  rewrite (proj2 (proj2 (proj2 (rd_sizes _ _ _ _ small_rd_ok))) a) in Hpar. injection Hpar as Hpar. apply Z.ltb_ge in Hpar.
  change (Z.shiftr (2 ^ 30) 1) with 0x20000000 in Hpar. change GRANULE_SIZE with 4096 in Hpg. change (0x201000 / 4096) with 0x201 in Hpg.
  pose proof (Z.mul_div_le a 4096 ltac:(lia)). pose proof (Z.mod_pos_bound a 4096 ltac:(lia)). pose proof (Z.div_mod a 4096 ltac:(lia)). lia.
Qed.

Definition mapped_leaf : Z := Eval vm_compute in default 0 (tables (r_mem mapped_world) !! 101 ≫= fun t => arr_get t 1).

Lemma mapped_child : tables (r_mem mapped_world) !! 101 = Some (<[1%nat := mapped_leaf]> small_child).
Proof. vm_compute. reflexivity. Qed.

#[local] Opaque mapped_world.
Lemma mapped_entries g l t j e : small_tree !! g = Some l -> tables (r_mem mapped_world) !! g = Some t -> arr_get t j = Some e ->
  e = small_link \/ e = small_leaf \/ e = mapped_leaf.
Proof.
  intros [[-> ->]|[-> ->]]%small_tree_inv Ht He.
  - assert (t = small_root) as -> by (rewrite mapped_tables in Ht; by injection Ht).
    destruct (small_root_entry _ _ He) as [[_ ->]|[_ ->]]; auto.
  - assert (t = <[1%nat := mapped_leaf]> small_child) as ->
      by (rewrite mapped_child in Ht; by injection Ht).
    unfold arr_get in He. destruct (0 <=? j); [|discriminate He]. apply list_lookup_insert_Some in He as [(_ & <- & _)|[_ He]]; [auto|].
    apply lookup_replicate_1 in He as [-> _]. auto.
Qed.

Lemma mapped_ready h : 0 <= h < 2 ^ 16 -> ready mapped_world small_forest h.
Proof.
  intros Hh. destruct mapped_inv as [Hinv [_ Honce]]. split; [exact Hinv|exact Honce|exact mapped_halves| | |exact Hh|].
  - intros addr x size Ha. cbn in Ha. unfold small_active_of in Ha. destruct (small_name addr) as [g|] eqn:Eg; [|done]. injection Ha as <- _.
    destruct (inv_granule _ _ Hinv addr g Eg) as ((a & Ha & Hl) & _). by exists a.
  - intros key T g l t j e [-> ->]%small_forest_inv HT Ht He. unfold mineb.
    destruct (mapped_entries g l t j e HT Ht He) as [-> | [-> | ->]]; by vm_compute.
  - intros g rd ctx Hrd Hc. rewrite mapped_rds in Hrd. apply lookup_singleton_Some in Hrd as [<- <-].
    change (Some demo_walk_ctx = Some ctx) in Hc. by injection Hc as <-.
Qed.

(** One PE, and ten contexts. *)
Definition demo_pool : sro_lib sro_unmap_ctx := SroLib (Some (Pool true (replicate 10 zero_context))) [CpuRef None 0].
Definition demo_slots : list (slot (C := sro_unmap_ctx)) := replicate 10 Slot_free.
Definition demo_state : urmm := URmm mapped_world ∅ demo_pool 0 0.

Lemma demo_slot j s : arr_get demo_slots j = Some s -> s = Slot_free /\ 0 <= j < 10.
Proof.
  intros H. pose proof (arr_get_lt _ _ _ H) as Hj. unfold arr_get in H. destruct (0 <=? j); [|done]. by apply lookup_replicate_1 in H as [-> _].
Qed.

Lemma demo_pool_is : pool_is demo_pool demo_slots.
Proof.
  destruct (init_ok (Pool false (replicate 10 zero_context)) 1 (SroLib None [CpuRef None 0])) as (l' & Hl & Hp & _); try done.
  - intros pe r H. unfold arr_get in H. destruct (0 <=? pe); [|done]. cbn [cpu_sro_ctx] in H. by apply list_lookup_singleton_Some in H as [_ <-].
  - vm_compute in Hl. by injection Hl as <-.
Qed.

Lemma demo_serving : serving 0 demo_state small_forest demo_slots.
Proof.
  split; [apply mapped_inv|exact demo_pool_is|done| |].
  - intros j x Hj. by apply demo_slot in Hj as [? _].
  - intros j [_ Hj]%demo_slot. apply mapped_ready. lia.
Qed.

(** ** Without interrupts *)

Section Quiet.
#[local] Instance quiet : UnmapEnv := small_env [].


End Quiet.

(** ** With interrupts *)

Section Interrupted.
(** The first call stops before it invalidates the entry, the second between the
    invalidation and the return of the memory. *)
#[local] Instance noisy : UnmapEnv := small_env [1; 514]%nat.

Lemma noisy_interrupts : at_most 2 0.
Proof.
  intros k. unfold interrupts. change (filter _ _) with (filter (fun i => bool_decide (i ∈ [1; 514]%nat) = true) (seq 0 (k - 0))).
  assert (H : filter (fun i => bool_decide (i ∈ [1; 514]%nat) = true) (seq 0 (k - 0)) ⊆+ [1; 514]%nat).
  { apply NoDup_submseteq; [apply NoDup_filter, NoDup_seq|]. intros i [Hi _]%list_elem_of_filter. by apply bool_decide_eq_true in Hi. }
  apply submseteq_length in H. exact H.
Qed.

Definition no_others (_ : Z) : option (Z -> smc_result -> U smc_result) := None.

Lemma rtt_unmap_completes_witness :
  (exists out u, (out <-! smc_rtt_unmap 0 RTT_UNMAP_FLAVOR_DATA (99 * 4096) 0x201000 0x202000 1 0 no_result ;;
                  continue_loop 0 no_others 2 (res_x1 out) 0 out) demo_state = Some (out, u) /\ res_x0 out = RMI_SUCCESS) /\
  runs (smc_rtt_unmap 0 RTT_UNMAP_FLAVOR_DATA (99 * 4096) 0x201000 0x202000 1 0 no_result) demo_state (fun out u1 =>
    res_x0 out <> RMI_SUCCESS \/
    runs (continue_loop 0 no_others 2 (res_x1 out) 0 out) u1 (fun out' u' =>
      res_x0 out' = RMI_SUCCESS /\ 0x201000 < res_x1 out' <= 0x202000)).
Proof.
  split; [eexists _, _; split; [vm_compute; reflexivity|vm_compute; reflexivity]|].
  eapply runs_mono;
    [apply (rtt_unmap_completes (small_submit [1; 514]%nat) RTT_UNMAP_FLAVOR_DATA ltac:(discriminate) 0 no_others 2 demo_state small_forest demo_slots
       (99 * 4096) 0x201000 0x202000 1 0 0 no_result demo_serving); [vm_compute; discriminate|vm_compute; discriminate|exact noisy_interrupts]|].
  intros out u1 [(H & _)|H]; [left; exact H|right]. eapply runs_mono; [exact H|].
  intros out' u' (g & rd & ctx & T & gp & _ & Hle & H0 & _). split; [exact H0|exact Hle].
Defined.


End Interrupted.
