(* ===== verification/SetRipasDemo.v ===== *)
(** * A RIPAS change on a concrete realm

    The realm of [RttDemo] with a REC in granule 102.  The realm asks for two pages
    at 0x201000 to become EMPTY, and the host changes them in one call. *)

From Stdlib Require Import ZArith Lia Bool ZifyBool.
From stdpp Require Import base tactics option list numbers gmap.
From S2P Require Import Prelude.
From S2P Require Import Utils.
From S2P Require Import Status.
From S2P Require Import Smc.
From S2P Require Import Granule.
From S2P Require Import Mem.
From S2P Require Import SmallNames.
From S2P Require Import Arch.
From S2P Require Import S2tte.
From S2P Require Import S2tteProps.
From S2P Require Import S2ttTable.
From S2P Require Import S2ttWalk.
From S2P Require Import RttFoldProps.
From S2P Require Import RttEntry.
From S2P Require Import Realm.
From S2P Require Import RttTree.
From S2P Require Import Rmm.
From S2P Require Import Psci.
From S2P Require Import RttUnmap.
From S2P Require Import RttInv.
From S2P Require Import UnmapDrain.
From S2P Require Import RttCreate.
From S2P Require Import RttRange.
From S2P Require Import RttDemo.
From S2P Require Import UnmapDemo.
From S2P Require Import RttSetRipas.
From S2P Require Import SetRipasEntry.
From S2P Require Import SetRipasLoop.
From S2P Require Import SetRipasCmd.
From S2P Require Import SetRipasCorrect.
From S2P Require Import RsiIpaState.

#[local] Existing Instance demo_features.
#[local] Existing Instance small_lookup.
#[local] Existing Instance small_pairs.
#[local] Existing Instance small_active.
#[local] Existing Instance small_active_laws.
#[local] Existing Instance small_smmu.

Definition rec_mem : mem := Mem (<[102 := encode GRN (AGranule false GRANULE_STATE_REC 0)]> (descs small_mem)) (tables small_mem).
Definition rec_world : rmm := Rmm rec_mem {[99 := small_rd]} 7 [].

Lemma rec_mem_granule : granule_at rec_mem 102 (AGranule false GRANULE_STATE_REC 0).
Proof. split; [reflexivity|split; [repeat split; cbv; congruence|reflexivity]]. Qed.

Lemma rec_mem_ne g a : g <> 102 -> granule_at rec_mem g a <-> granule_at small_mem g a.
Proof. intros Hne. unfold granule_at, rec_mem. cbn [descs]. by rewrite lookup_insert_ne by done. Qed.

Lemma rec_agree : agree small_tree small_mem rec_mem.
Proof.
  intros g l [[-> ->]|[-> ->]]%small_tree_inv; (split; [done|]); unfold rec_mem; cbn [descs]; by rewrite lookup_insert_ne.
Qed.

Lemma rec_owns : owns rec_world 99 0 small_rd demo_walk_ctx small_tree.
Proof. destruct small_owns as [O1 O2 O3 O4 O5]. split; try done. eapply rtt_inv_frame; [exact rec_agree|done]. Qed.

Lemma rec_inv : inv rec_world small_forest.
Proof.
  destruct small_inv as [I1 I2 I3 I4]. split.
  - intros addr g Hg. destruct (I1 addr g Hg) as ((a & Ha & Hl) & Ht). split; [|done].
    destruct (decide (g = 102)) as [->|Hne]; [by eexists; split; [exact rec_mem_granule|]|].
    exists a. split; [by apply rec_mem_ne|done].
  - intros g r Hg. destruct (decide (g = 102)) as [->|Hne]; [by pose proof (granule_at_inj _ _ _ _ rec_mem_granule Hg)|].
    apply (I2 g r). by apply rec_mem_ne.
  - intros g i T [[= -> ->] ->]%small_forest_inv. exists small_rd, demo_walk_ctx. exact rec_owns.
  - exact I4.
Qed.

Lemma rec_backed : ram_backed rec_world small_forest.
Proof.
  intros g rd ctx T _ Hrd _ Hpp. cbn in Hrd. apply lookup_singleton_Some in Hrd as [_ <-]. discriminate Hpp.
Qed.

(** The registers of the request: function, base, top, EMPTY, no flags. *)
Definition asking_plane : rec_plane := RecPlane (0 :: 0x201000 :: 0x203000 :: 0 :: 0 :: replicate 26 0) 0 0.
Definition asking_rec : rec := Rec 102 0 true 0 0 asking_plane asking_plane 99 30 0 [0] 0.
Definition idle_rec : ripas_rec := RipasRec asking_rec (SetRipas 0 0 0 RIPAS_EMPTY NO_CHANGE_DESTROYED ACCEPT).
Definition asked_rec : ripas_rec := RipasRec asking_rec (SetRipas 0x201000 0x203000 0x201000 RIPAS_EMPTY NO_CHANGE_DESTROYED ACCEPT).
Definition no_exit : ripas_exit := RipasExit 0 0 0 0.
Definition rsi_start : rsi_result := RsiResult 0 (replicate 8 0).

Lemma rec_sinv r : r = idle_rec \/ r = asked_rec -> sinv (SRmm rec_world {[102 := r]}) small_forest.
Proof.
  intros Hr. split; [exact rec_inv|exact rec_backed|]. intros g n Hg. cbn [s_rmm s_rrecs] in *.
  assert (g = 102) as ->.
  { destruct (decide (g = 102)) as [|Hne]; [done|]. apply rec_mem_ne, small_granule_inv in Hg; [|done].
    unfold small_descs in Hg. repeat (apply elem_of_cons in Hg as [Hg|Hg]; [discriminate Hg|]). by apply elem_of_nil in Hg. }
  exists r. split; [by rewrite lookup_singleton_eq|]. destruct Hr as [-> | ->]; (split; [|by right|]).
  all: try (split; [vm_compute; discriminate|apply GRANULE_ALIGNED_spec; reflexivity]).
  all: intros rd size Hrd Hsz; cbn in Hrd; apply lookup_singleton_Some in Hrd as [_ <-]; vm_compute in Hsz; injection Hsz as <-; vm_compute; discriminate.
Qed.



Lemma rsi_ipa_state_get_exact_witness :
  (exists out w, handle_rsi_ipa_state_get asking_rec demo_walk_ctx rsi_start rec_world = Some (out, w) /\
     take 3 (smc_res out) = [RSI_SUCCESS; 0x203000; ripas_code RIPAS_RAM]) /\
  runs (handle_rsi_ipa_state_get asking_rec demo_walk_ctx rsi_start) rec_world (fun _ w' => w' = rec_world).
Proof.
  split; [eexists _, _; split; [vm_compute; reflexivity|reflexivity]|].
  eapply runs_mono; [apply (rsi_ipa_state_get_exact rec_world small_forest 99 small_rd demo_walk_ctx small_tree asking_rec 0x201000 0x203000 rsi_start
    rec_inv eq_refl rec_owns); [vm_compute; reflexivity|reflexivity|reflexivity|reflexivity|vm_compute; split; congruence|vm_compute; split; congruence|cbn; lia]|].
  intros out w' (H & _). exact H.
Defined.
